(* ===== verification/_CoqProject ===== *)
-Q . S2P
Prelude.v
GoTime.v
Float64.v
Kv.v
GoMonad.v
GoStrings.v
Regexp.v
DialQueue.v
Compliance.v
RateLimit.v
Dispatcher.v
DispatcherSafety.v
DispatcherQueue.v
DispatcherSystem.v
Picker.v
Limiter.v
Resp.v
TelStore.v
Routing.v
RoutingSafety.v
Webhook.v
WebhookSafety.v
Consent.v
ConsentSafety.v
Campaign.v
CampaignSafety.v
Billing.v
BillingSafety.v
Whatsapp.v
WhatsappService.v
WhatsappSafety.v
TenantAuth.v
TenantAuthService.v
TenantAuthSafety.v
Knowledge.v
KnowledgeService.v
KnowledgeSafety.v
KnowledgeLifecycle.v
Vectors.v
Handoff.v
HandoffLaws.v
HandoffService.v
HandoffRuns.v
HandoffSafety.v
Csv.v
LeadIdentity.v
LeadIdentitySafety.v
LeadImport.v
LeadImportSafety.v
SiteVisit.v
SiteVisitSafety.v
CallIntel.v
CallIntelSafety.v
ModelConfig.v
ModelConfigSafety.v
Notification.v
NotificationSafety.v
AdminApi.v
AdminApiSafety.v
Recording.v
RecordingSafety.v
RecordingQueue.v
Esl.v
EslSafety.v
SchedulerApi.v
SchedulerApiSafety.v
CampaignApi.v
BillingApi.v
Calendar.v
Analytics.v
AnalyticsSink.v
AnalyticsSafety.v
Bff.v
BffSafety.v
Temporal.v
TemporalSafety.v
Providers.v
ProvidersSafety.v
Bus.v
Meta.v
