(* ===== verification/Prelude.v ===== *)
(** * Capsy EVS control plane: a verification development

    Capsy EVS places outbound voice calls for real-estate campaigns.  Its
    control plane is a set of Go services under [services/] that share the
    libraries of [libs/go/]; this development models the Go services and the
    libraries that carry state, and proves what their decisions rely on.

    ** The program and its parts

    Leads enter through lead-import, which asks lead-identity for the contact of
    a phone.  A campaign is created and launched by the campaign service after
    preflight checks, and the launch is announced on the message bus.  The
    scheduler reacts by seeding a durable dial queue; every two seconds it walks
    the pending rows of the active campaigns through the compliance gates
    (suppression, calling window, rate limits) and posts the survivors to the
    telephony adapter.  The adapter routes a call to a provider under a
    per-tenant concurrency cap and turns the provider's webhooks into events on
    the bus.  These come back to the scheduler, which finalises or retries the
    row, to the billing meter, which prices the usage, to call-intel, which
    scores the lead and opens handoffs and site visits, to analytics-sink and to
    notification.  freeswitch-bridge reads the event socket of the media server
    and uploads recordings.  The consent service keeps the consent ledger and
    answers whether an outreach is allowed; whatsapp-adapter sends messages under
    that answer and under the claim control of the knowledge service.  The bff is
    the gateway in front of all of them, tenant-auth issues its tokens,
    internal-admin-api holds tenants, providers and kill switches, model-config
    the choice of engines, and temporal-workers the durable workflows.  Most
    services persist JSON records through [libs/go/pgkv].

    ** Files

    Shared:
    - [Prelude]: results and errors, 64-bit integers, lists, sorting, strings,
      tactics and hint databases.  [GoTime] and [Calendar]: package [time].
      [Float64]: Go's [float64] as IEEE binary64.  [GoStrings]: packages
      [strings] and [strconv].  [Regexp]: package [regexp].  [Csv]:
      [encoding/csv].  [GoMonad]: state and error monad, with the logic of what
      a computation keeps.
    - [Kv]: [libs/go/pgkv/pgkv.go], one collection per value.  [Bus]:
      [libs/go/events], with the launch announcement of the campaign service.

    One group per service, the definitions first and the theorems in the file
    or files named after [Safety] (unless said otherwise):
    - scheduler: [DialQueue], [Compliance], [RateLimit], [Dispatcher]
      ([internal/dispatcher]); [DispatcherSafety] has the gates against the three
      interfaces, [DispatcherQueue] the table of a row's moves, [DispatcherSystem]
      the transition system [dstep].  [Picker]: [internal/store],
      [internal/picker] and their theorems.  [SchedulerApi], [SchedulerApiSafety]:
      the in-memory dial queue and [internal/handler].
    - telephony-adapter: [Limiter], [TelStore], [Routing], [RoutingSafety],
      [Webhook], [WebhookSafety]; [Providers], [ProvidersSafety] for the provider
      clients, XML answers and recordings.  [Resp]: the bytes of the hand-written
      Redis clients of the adapter and the scheduler.
    - consent-compliance: [Consent], [ConsentSafety].
    - campaign: [Campaign], [CampaignSafety], [CampaignApi] (handlers).
    - billing-meter: [Billing], [BillingSafety], [BillingApi] (handlers).
    - whatsapp-adapter: [Whatsapp], [WhatsappService], [WhatsappSafety]; [Meta]
      for the client of the cloud API.
    - tenant-auth: [TenantAuth], [TenantAuthService], [TenantAuthSafety].
    - knowledge: [Knowledge], [KnowledgeService], [KnowledgeSafety] (claim control
      and chunking), [KnowledgeLifecycle] (approval of versions), [Vectors] (the
      embedding providers and the Qdrant client).
    - handoff: [Handoff], [HandoffLaws], [HandoffService], [HandoffRuns] (a
      calculus of runs), [HandoffSafety].
    - lead-identity: [LeadIdentity], [LeadIdentitySafety].  lead-import:
      [LeadImport], [LeadImportSafety].
    - site-visit: [SiteVisit], [SiteVisitSafety].
    - call-intel: [CallIntel], [CallIntelSafety], with the services it calls
      composed over a network that may lose requests and replies.
    - model-config: [ModelConfig], [ModelConfigSafety].  notification:
      [Notification], [NotificationSafety].  internal-admin-api: [AdminApi],
      [AdminApiSafety].
    - freeswitch-bridge: [Recording], [RecordingSafety] (the upload worker and the
      storage clients), [RecordingQueue] (the queue table), [Esl], [EslSafety]
      (the event socket).
    - analytics-sink: [Analytics], [AnalyticsSink], [AnalyticsSafety].
    - bff: [Bff], [BffSafety].  temporal-workers: [Temporal], [TemporalSafety].

    ** How code becomes definitions

    A Go interface is a type class with one field per method, such as
    [DialQueueStore], [RateLimiter], [Limiter], [TelStore], [ConsentStore],
    [CampaignStore], [WaStore], [TaStore], [KbStore], [HoStore], [SvStore],
    [AaStore] or [S3], and its implementations (in memory, Postgres, Redis, test
    doubles) are instances.  Where clients need more than the signatures, the
    promises are a second class ([DialQueueLaws], [RateLimiterLaws],
    [LimiterLaws], [TelStoreLaws], [WebhookWrites], [CampaignLaws], [WaLaws],
    [HoLaws], [McLaws], [NfLaws], [AaLaws], [AnLaws], [S3Laws], ...) that the
    instances satisfy, and the client's theorems are proved against it.  What lies
    outside the repository and has state is a class with its documented behaviour
    as laws: [Nats] and [NatsLaws], [RedisServer] and [RedisLaws], [ChConn] and
    [ChLaws], [Web] and [QdrantLaws], [S3], [World] for the Temporal server;
    each has an instance.

    A method returns the new state and its Go results; [(T, error)] is [result T]
    or a sum, and an operation that fails after writing returns the state as
    written so far.  The exception is the class [LeadStore] of [Picker], whose
    operations return no state with an error; with a database whose availability
    does not change inside a request there is none to return.

    What the repository does not contain is an argument: the clock, generated
    ids and UUIDs, Go's map iteration order, the tz database, the answers of
    providers and other services over HTTP, MAC and hash functions, password
    hashing, JWT and TOTP, JSON decoders, the libraries phonenumbers and excelize.
    Components that talk to the outside keep a log of what was sent, on which the
    theorems about the outside are stated.

    ** What the theorems show

    - Dispatcher: the calls of a tick are those of distinct stored rows that pass
      the gates, inside each row's calling window; calls are counted exactly and
      stay within the caps; a row moves only as the table of moves says, which
      includes the reopening of an answered row by a late event.
    - Lead picking: the two stores answer every history alike, a pick takes the
      best candidates, no lead is handed out twice before its outcome.
    - Telephony: provider choice, demo isolation, the concurrency cap from
      [PlaceCall] to the hangup webhook, publication of signed Plivo events exactly
      once, rejection of unsigned webhooks in strict mode; on the wire the Redis
      limiter is the modelled one.
    - Consent: the Postgres store refines the in-memory one, a withdrawal is
      effective while the store answers, the ledger is append-only.
    - Campaign and bus: preflight, launch and auto-pause; a launch is offered to
      the bus exactly when it activated the campaign; the outbox relay marks only what is on
      the bus, and empties the outbox when nothing fails.
    - Billing: usage is billed once per key, totals equal recomputed ones, exact
      rounding to started minutes.
    - WhatsApp, knowledge, handoff, lead-identity, lead-import, site-visit,
      notification, model-config, internal-admin-api, tenant-auth: the gates of a
      send, finality of STOP, claim control, frozen versions, capacity and
      escalation, identity of a phone, the accounting of an import, the moves of a
      visit, the accounting of messages, the audit log, single use of a refresh
      token.
    - call-intel, recordings, event socket, analytics, bff, temporal: a completed
      call scores its lead, a recording leaves the disk only when safe, claims on
      the upload queue are exclusive, events are read back in order, reports count
      an event once, the gateway names the tenant, attempts are signalled in order.

    Every theorem states its conditions in its comment.  A last group in each
    file states behaviour that differs from what comments or the evident intention
    say, each as a theorem with a concrete instance; where such a theorem shows
    why another needs a condition, the comment of the latter names it.

    ** Bounds, fuel and granularity

    Recursion that is not structural has fuel, and the fuel is enough: the
    readers of [Esl], [Providers] and [Csv] and the server loop of [Resp] get as
    much as the input has bytes, and each of their steps takes a byte;
    [chunk_loop] and [upsert_batches] get the number of words and of points;
    [hex_chars] the sixteen digits of 64 bits.  [list_pages] is given the number
    of pages and [health_loop] the number of polls as arguments, and the theorems
    say how many suffice or hold for all.  Two bounds are the code's own: five
    tries of an activity ([with_retry]) and 10,000 names tried by [CreateTemp].

    The started-minute rounding is exact below 2^40 seconds.  JSON numbers are
    exact up to 2^53.  Deferral is proved for zones with a constant offset (such as
    Asia/Kolkata, the default).  Retry delays are assumed below 150,000,000
    minutes, the range of a Go [time.Duration].  Strings are byte strings, and
    functions that depend on characters (case, blanks, words, digits) are modelled
    on the ASCII range.

    The steps of a run are whole requests, messages or ticks.  The code enforces
    this only within a method of an in-memory store, which holds the store's
    mutex: the services themselves hold no lock between what a request reads and
    what it writes (handoff assignment, tenant-auth refresh, site-visit
    transitions, Postgres picks), so what theorems about runs say of overlapping
    requests is nothing, except where a file splits the operations: the overlap of
    two Postgres picks in [Picker], several bridges on one queue table in
    [RecordingQueue], single statements and messages in [Bus], lost requests and
    replies in [CallIntel].  Whether a database answers changes between requests
    only, and for most theorems not at all, as their conditions say; in
    tenant-auth it may also take reads and refuse writes, and the statements of
    the outbox and of the upload queue fail one by one.

    ** Not modelled

    The main functions (start-up, configuration, tickers, subscriptions), the
    WebSocket media streams of the telephony adapter and the audio proxy of
    freeswitch-bridge, HTTP and JSON decoding, the generated connect code of
    [libs/go], the clients of Vault and the connections to Postgres, tracing and
    logging; the Python services and the web applications. *)

From stdpp Require Export prelude gmap strings list sorting.
From Stdlib Require Export ZArith Lia.
From Stdlib Require Ascii.


(** ** Go errors as values *)

(** A Go function returning [(T, error)]: either a value or an error message. *)
Inductive result (A : Type) : Type :=
| Ok (a : A)
| Err (msg : string).
Arguments Ok {A} a.
Arguments Err {A} msg.

Declare Scope go_scope.
Delimit Scope go_scope with go.
Open Scope go_scope.

(** [let? x := m in k] is Go's [x, err := m; if err != nil { return err }; k]. *)
Notation "'let?' x ':=' m 'in' k" :=
  (match m with Ok x => k | Err e => Err e end)
  (at level 10, x pattern, m at level 100, k at level 200) : go_scope.

(** A Go [error]: [None] is nil. *)
Definition error := option string.

Definition is_ok {A} (r : result A) : bool :=
  match r with Ok _ => true | Err _ => false end.

#[export] Instance result_eq_dec {A} `{EqDecision A} : EqDecision (result A).
Proof. solve_decision. Defined.

(** ** Machine integers *)

(** Go's [int64] (and 64-bit [int]) arithmetic wraps around modulo 2^64. *)
Definition wrap64 (z : Z) : Z := ((z + 2^63) mod 2^64 - 2^63)%Z.

Definition in_int64 (z : Z) : Prop := (- 2^63 <= z < 2^63)%Z.

Lemma wrap64_id z : in_int64 z -> wrap64 z = z.
Proof. unfold in_int64, wrap64. intros. rewrite Z.mod_small; lia. Qed.

Lemma wrap64_range z : in_int64 (wrap64 z).
Proof.
  unfold in_int64, wrap64.
  pose proof (Z.mod_pos_bound (z + 2^63) (2^64)). lia.
Qed.

(** ** Strings

    Go strings are byte strings; the functions of package [strings] the code
    uses are modelled on the ASCII range. *)

Definition is_empty (s : string) : bool := bool_decide (s = ""%string).

(** An identifier, or a new one when it is empty. *)
Definition or_new (id new : string) : string := if is_empty id then new else id.

Lemma is_empty_false s : s <> ""%string -> is_empty s = false.
Proof. apply bool_decide_false. Qed.

(** [unicode.IsSpace] on ASCII: tab, LF, VT, FF, CR and space. *)
Definition is_space (c : Ascii.ascii) : bool :=
  let n := Ascii.N_of_ascii c in
  ((9 <=? n)%N && (n <=? 13)%N) || (n =? 32)%N.

Definition lower_ascii (c : Ascii.ascii) : Ascii.ascii :=
  let n := Ascii.N_of_ascii c in
  if ((65 <=? n)%N && (n <=? 90)%N) then Ascii.ascii_of_N (n + 32) else c.

Definition upper_ascii (c : Ascii.ascii) : Ascii.ascii :=
  let n := Ascii.N_of_ascii c in
  if ((97 <=? n)%N && (n <=? 122)%N) then Ascii.ascii_of_N (n - 32) else c.

Definition smap (f : Ascii.ascii -> Ascii.ascii) (s : string) : string :=
  String.string_of_list_ascii (List.map f (String.list_ascii_of_string s)).

(** [strings.ToLower], [strings.ToUpper]. *)
Definition to_lower (s : string) : string := smap lower_ascii s.
Definition to_upper (s : string) : string := smap upper_ascii s.

Fixpoint drop_while {A} (p : A -> bool) (l : list A) : list A :=
  match l with
  | [] => []
  | a :: l' => if p a then drop_while p l' else l
  end.

Definition trim_right_by (p : Ascii.ascii -> bool) (s : string) : string :=
  String.string_of_list_ascii
    (rev (drop_while p (rev (String.list_ascii_of_string s)))).

Definition trim_left_by (p : Ascii.ascii -> bool) (s : string) : string :=
  String.string_of_list_ascii (drop_while p (String.list_ascii_of_string s)).

(** [strings.TrimSpace]. *)
Definition trim_space (s : string) : string := trim_left_by is_space (trim_right_by is_space s).

(** [strings.TrimRight(s, "/")]. *)
Definition trim_right_slash (s : string) : string :=
  trim_right_by (fun c => (Ascii.N_of_ascii c =? 47)%N) s.

(** [strings.HasPrefix] and [strings.HasSuffix]. *)
Definition has_prefix (s p : string) : bool := String.prefix p s.

Definition has_suffix (s p : string) : bool :=
  String.prefix (String.string_of_list_ascii (rev (String.list_ascii_of_string p)))
    (String.string_of_list_ascii (rev (String.list_ascii_of_string s))).

(** ** Stable insertion sort

    [sort.Slice] sorts the slice in place by a strict order; on up to twelve
    elements it is this insertion sort, on longer slices it may permute
    elements the order does not separate. *)
Section Sorting.
Context {A : Type} (less : A -> A -> bool).

Fixpoint insert_by (x : A) (l : list A) : list A :=
  match l with
  | [] => [x]
  | y :: l' => if less y x then y :: insert_by x l' else x :: l
  end.

Fixpoint sort_by (l : list A) : list A :=
  match l with
  | [] => []
  | x :: l' => insert_by x (sort_by l')
  end.

Lemma insert_by_perm x l : insert_by x l ≡ₚ x :: l.
Proof.
  induction l as [|y l IH]; simpl; [done|].
  destruct (less y x); [rewrite IH; apply Permutation_swap | done].
Qed.

Lemma sort_by_perm l : sort_by l ≡ₚ l.
Proof.
  induction l as [|x l IH]; simpl; [done|]. by rewrite insert_by_perm, IH.
Qed.

Lemma elem_of_sort_by x l : x ∈ sort_by l <-> x ∈ l.
Proof. by rewrite sort_by_perm. Qed.

Lemma length_sort_by l : length (sort_by l) = length l.
Proof. by rewrite sort_by_perm. Qed.

(** [less] is asymmetric and its complement transitive: a strict weak order. *)
Class StrictWeak : Prop := {
  less_asym a b : less a b = true -> less b a = false;
  nless_trans a b c : less b a = false -> less c b = false -> less c a = false
}.

Definition not_after (a b : A) : Prop := less b a = false.

Context `{!StrictWeak}.

Lemma insert_by_sorted x l :
  StronglySorted not_after l -> StronglySorted not_after (insert_by x l).
Proof.
  induction 1 as [|y l Hs IH Hy]; simpl.
  { repeat constructor. }
  destruct (less y x) eqn:E.
  - constructor; [done|].
    rewrite insert_by_perm. constructor; [|done].
    by apply less_asym in E.
  - constructor; [by constructor|]. constructor; [done|].
    eapply Forall_impl; [exact Hy|]. intros z Hz.
    eapply nless_trans; [exact E | exact Hz].
Qed.

Lemma sort_by_sorted l : StronglySorted not_after (sort_by l).
Proof. induction l; simpl; [constructor|by apply insert_by_sorted]. Qed.

(** Elements in front of a cut come no later than elements behind it. *)
Lemma sorted_cut n l a b :
  StronglySorted not_after l -> a ∈ take n l -> b ∈ drop n l -> not_after a b.
Proof.
  intros Hs. revert n. induction Hs as [|y l Hs IH Hy]; intros n Ha Hb.
  { rewrite take_nil in Ha. by apply elem_of_nil in Ha. }
  destruct n as [|n]; simpl in *; [by apply elem_of_nil in Ha|].
  apply elem_of_cons in Ha as [->|Ha]; [|by eapply IH].
  rewrite Forall_forall in Hy. apply Hy.
  rewrite <- (take_drop n l). apply elem_of_app. by right.
Qed.
End Sorting.

Arguments not_after {A} less a b /.

(** ** Generic list lemmas *)

(** A property of images transfers between lists with the same images. *)
Lemma Forall_same_image {A B} (f : A -> B) (P : B -> Prop) (l l' : list A) :
  f <$> l = f <$> l' -> Forall (fun x => P (f x)) l' -> Forall (fun x => P (f x)) l.
Proof.
  intros E H. rewrite Forall_forall in *. intros x Hx.
  assert (Hf : f x ∈ f <$> l') by (rewrite <- E; by apply list_elem_of_fmap_2).
  apply list_elem_of_fmap in Hf as (y & -> & Hy). auto.
Qed.

Lemma filter_filter {A} (f g : A -> bool) l : List.filter f (List.filter g l) = List.filter (fun x => g x && f x) l.
Proof. induction l as [|x l IH]; simpl; [done|]. destruct (g x); simpl; by rewrite IH. Qed.

Lemma NoDup_fmap_filter {A B} (f : A -> B) (g : A -> bool) l : NoDup (f <$> l) -> NoDup (f <$> List.filter g l).
Proof.
  induction l as [|x l IH]; cbn; [done|]. intros [Hx Hl]%NoDup_cons. destruct (g x); cbn; [|by apply IH].
  constructor; [|by apply IH]. intros (y & E & Hy)%list_elem_of_fmap. apply Hx. rewrite E. apply list_elem_of_fmap_2.
  by apply list_elem_of_In, List.filter_In in Hy as [Hy%list_elem_of_In _].
Qed.

Lemma filter_perm {A} (g : A -> bool) l l' : l ≡ₚ l' -> List.filter g l ≡ₚ List.filter g l'.
Proof.
  induction 1 as [|x l l' _ IH|x y l|l l1 l' _ IH1 _ IH2]; simpl; [done| | |by etrans].
  - destruct (g x); [by constructor|done].
  - destruct (g x), (g y); try done. apply Permutation_swap.
Qed.

Lemma forallb_elem {A} (f : A -> bool) (l : list A) x :
  List.forallb f l = true -> x ∈ l -> f x = true.
Proof. intros H Hx. rewrite List.forallb_forall in H. by apply H, list_elem_of_In. Qed.

(** ** Proof automation shared by the components *)

(** Split every [if]/[match] of the goal, simplifying the equations found. *)
Ltac split_cases :=
  repeat (case_match; simplify_eq/=).

(** The same for a hypothesis that equates a program's result to a value. *)
Ltac split_in H :=
  repeat (match type of H with
          | context [ match ?x with _ => _ end ] => destruct x eqn:?
          end; simplify_eq/=).

(** Turn boolean tests of the code into propositions. *)
Ltac go_bool :=
  repeat match goal with
  | H : bool_decide _ = true |- _ => apply bool_decide_eq_true in H
  | H : bool_decide _ = false |- _ => apply bool_decide_eq_false in H
  | H : (_ && _) = true |- _ => apply andb_true_iff in H as [? ?]
  | H : (_ || _) = false |- _ => apply orb_false_iff in H as [? ?]
  | H : negb _ = true |- _ => apply negb_true_iff in H
  | H : negb _ = false |- _ => apply negb_false_iff in H
  | H : (_ <? _)%Z = true |- _ => apply Z.ltb_lt in H
  | H : (_ <? _)%Z = false |- _ => apply Z.ltb_ge in H
  | H : (_ <=? _)%Z = true |- _ => apply Z.leb_le in H
  | H : (_ <=? _)%Z = false |- _ => apply Z.leb_gt in H
  | H : (_ =? _)%Z = true |- _ => apply Z.eqb_eq in H
  | H : (_ =? _)%Z = false |- _ => apply Z.eqb_neq in H
  end.

(** Split a conjunction of projections of a known state and close its parts. *)
Ltac conj_done := simpl; split_and!; simpl; try done; try lia; auto.

(** Facts about the stores and queues that [auto]/[eauto] may use. *)
Create HintDb lead.
#[export] Hint Resolve insert_by_perm sort_by_perm : lead.
