(* ===== verification/GoTime.v ===== *)
(** * Package [time] as the services use it

    An instant is a number of nanoseconds since the Unix epoch.  A location is
    its zone lookup: for a Unix second, the zone's offset in seconds east of
    UTC and the half-open range of seconds in which that zone is in force.
    Calendar dates are represented by their day number since 1970-01-01, which
    [Date] and [time.Date] only use up to normalisation. *)

From S2P Require Import Prelude.

Open Scope Z_scope.

Definition second : Z := 1000000000.
Definition minute : Z := 60 * second.
Definition hour : Z := 60 * minute.

(** [time.Time{}]: January 1, year 1, UTC. *)
Definition time_zero : Z := -62135596800 * second.

Definition is_zero (t : Z) : bool := t =? time_zero.

(** A timestamp, or the present when it is unset. *)
Definition or_now (t now : Z) : Z := if is_zero t then now else t.

Record Zone := mkZone { zoffset : Z; zstart : Z; zend : Z }.

(** [*time.Location], by its [lookup] function. *)
Record Location := mkLocation { lookup_zone : Z -> Zone }.

Definition unix (t : Z) : Z := t / second.

(** Seconds of the local wall clock at instant [t]. *)
Definition local_seconds (loc : Location) (t : Z) : Z :=
  unix t + zoffset (lookup_zone loc (unix t)).

(** [t.In(loc).Hour()] and the day of [t.In(loc).Date()]. *)
Definition local_hour (loc : Location) (t : Z) : Z := (local_seconds loc t mod 86400) / 3600.
Definition local_day (loc : Location) (t : Z) : Z := local_seconds loc t / 86400.

(** [time.Date] at [sec] seconds of the date numbered [day]. *)
Definition date_at (day sec : Z) (loc : Location) : Z :=
  let u := day * 86400 + sec in
  let z := lookup_zone loc u in
  if zoffset z =? 0 then u * second
  else
    let utc := u - zoffset z in
    let off := if (utc <? zstart z) || (zend z <=? utc)
               then zoffset (lookup_zone loc utc) else zoffset z in
    (u - off) * second.

(** [time.Date(y, mo, d, h, 0, 0, 0, loc)] for the date numbered [day]. *)
Definition date (day h : Z) (loc : Location) : Z := date_at day (h * 3600) loc.

(** A location with one zone for all of (representable) time. *)
Definition fixed_zone (off : Z) : Location :=
  mkLocation (fun _ => mkZone off (- 2^63) (2^63 - 1)).

Definition utc_loc : Location := fixed_zone 0.

(** Asia/Kolkata has been UTC+05:30 without daylight saving since 1945. *)
Definition kolkata : Location := fixed_zone 19800.

(** Hour and day indices in UTC, standing for [Format("2006010215")] and
    [Format("20060102")]. *)
Definition utc_hour_index (t : Z) : Z := unix t / 3600.
Definition utc_day_index (t : Z) : Z := unix t / 86400.

(** A location whose offset does not change. *)
Definition fixed (loc : Location) (off : Z) : Prop :=
  forall u, zoffset (lookup_zone loc u) = off.

Lemma fixed_zone_fixed off : fixed (fixed_zone off) off.
Proof. by intros ?. Qed.
#[export] Hint Resolve fixed_zone_fixed : lead.

Lemma unix_second_mul u : unix (u * second) = u.
Proof. unfold unix, second. apply Z.div_mul. lia. Qed.

Lemma date_at_fixed loc off day sec :
  fixed loc off -> date_at day sec loc = (day * 86400 + sec - off) * second.
Proof.
  intros Hf. unfold date_at. rewrite !Hf.
  destruct (off =? 0) eqn:E; [apply Z.eqb_eq in E; subst; f_equal; lia|].
  by destruct (_ || _).
Qed.

Lemma date_fixed loc off day h :
  fixed loc off -> date day h loc = (day * 86400 + h * 3600 - off) * second.
Proof. apply date_at_fixed. Qed.

Lemma local_seconds_date loc off day h :
  fixed loc off -> local_seconds loc (date day h loc) = day * 86400 + h * 3600.
Proof.
  intros Hf. unfold local_seconds.
  rewrite (date_fixed loc off) by done. rewrite unix_second_mul, Hf. lia.
Qed.

Lemma unix_lt_mul t u : unix t < u <-> t < u * second.
Proof. unfold unix, second. pose proof (Z.div_mod t 1000000000). 
  pose proof (Z.mod_pos_bound t 1000000000). nia. Qed.

Lemma unix_le_mul t u : u <= unix t <-> u * second <= t.
Proof. pose proof (unix_lt_mul t u). lia. Qed.
