(* ===== verification/Float64.v ===== *)
(** * IEEE-754 binary64 as Go's [float64]

    Numbers are the standard library's [spec_float] at precision 53 and
    maximal exponent 1024; arithmetic rounds to nearest even, as Go does. *)

From S2P Require Import Prelude.
From Stdlib Require Import SpecFloat Zpow_facts.

Open Scope Z_scope.

Abbreviation float64 := spec_float.

Definition f_prec : Z := 53.
Definition f_emax : Z := 1024.

Definition f_add : float64 -> float64 -> float64 := SFadd f_prec f_emax.
Definition f_sub : float64 -> float64 -> float64 := SFsub f_prec f_emax.
Definition f_mul : float64 -> float64 -> float64 := SFmul f_prec f_emax.
Definition f_div : float64 -> float64 -> float64 := SFdiv f_prec f_emax.
Definition f_lt (a b : float64) : bool := SFltb a b.
Definition f_le (a b : float64) : bool := SFleb a b.
Definition f_eq (a b : float64) : bool := SFeqb a b.

(** [float64(n)] for an integer [n]. *)
Definition f_of_int (n : Z) : float64 := binary_normalize f_prec f_emax n 0 false.

(** The decimal literal [n/10^k] correctly rounded (for [k] up to 22). *)
Definition f_dec (n : Z) (k : nat) : float64 := f_div (f_of_int n) (f_of_int (10 ^ Z.of_nat k)).

(** [int(f)]: truncation towards zero.  For values outside the range of
    [int] (and for NaN and infinities) Go leaves the result to the
    implementation; the amd64 result, the least [int64], is used. *)
Definition int_indefinite : Z := - 2^63.

Definition f_to_int (f : float64) : Z :=
  match f with
  | S754_zero _ => 0
  | S754_finite s m e =>
      let v := if 0 <=? e then Zpos m * 2 ^ e else Zpos m / 2 ^ (- e) in
      let z := if s then - v else v in
      if (- 2^63 <=? z) && (z <? 2^63) then z else int_indefinite
  | _ => int_indefinite
  end.

Example f_roundtrip_500 : f_to_int (f_of_int 500) = 500.
Proof. reflexivity. Qed.
Example f_half : f_to_int (f_dec 25 1) = 2.
Proof. reflexivity. Qed.

(** ** [int(float64(n)) = n] up to 2^53 *)

Lemma digits2_bounds p :
  2 ^ (Zpos (digits2_pos p) - 1) <= Zpos p < 2 ^ Zpos (digits2_pos p).
Proof.
  induction p as [p IH|p IH|]; cbn [digits2_pos]; [| |simpl; lia].
  all: rewrite Pos2Z.inj_succ, Z.sub_1_r, Z.pred_succ.
  all: replace (Zpos (digits2_pos p)) with (Z.succ (Zpos (digits2_pos p) - 1)) at 1 by lia.
  all: rewrite !Z.pow_succ_r by lia; lia.
Qed.

Lemma digits2_unique p d :
  2 ^ (d - 1) <= Zpos p < 2 ^ d -> 0 < d -> Zpos (digits2_pos p) = d.
Proof.
  intros [Hl Hu] Hd. pose proof (digits2_bounds p) as [Bl Bu].
  assert (d - 1 < Zpos (digits2_pos p)) by (apply (Z.pow_lt_mono_r_iff 2); lia).
  assert (Zpos (digits2_pos p) - 1 < d) by (apply (Z.pow_lt_mono_r_iff 2); lia).
  lia.
Qed.

Lemma iter_xO_mul n p : Zpos (Pos.iter xO p n) = Zpos p * 2 ^ Zpos n.
Proof.
  induction n as [|n IH] using Pos.peano_ind.
  - simpl. lia.
  - rewrite Pos.iter_succ, Pos2Z.inj_succ, Z.pow_succ_r by lia.
    rewrite (Pos2Z.inj_xO (Pos.iter xO p n)), IH. lia.
Qed.

Lemma shl_align_spec p d :
  Zpos (digits2_pos p) = d -> d <= 53 ->
  exists mz, shl_align p 0 (d - 53) = (mz, d - 53) /\ Zpos mz = Zpos p * 2 ^ (53 - d).
Proof.
  intros Hd Hle. unfold shl_align. rewrite Z.sub_0_r.
  destruct (d - 53) as [|q|q] eqn:E; [|lia|].
  - exists p. split; [done|]. replace (53 - d) with 0 by lia. lia.
  - exists (Pos.iter xO p q). split; [done|].
    rewrite iter_xO_mul. do 2 f_equal. lia.
Qed.

Lemma shr_fexp_noop m e :
  Zpos (digits2_pos m) = 53 -> -1000 <= e <= 0 ->
  shr_fexp f_prec f_emax (Zpos m) e loc_Exact = ({| shr_m := Zpos m; shr_r := false; shr_s := false |}, e).
Proof.
  intros Hd He. unfold shr_fexp, fexp, emin, f_prec, f_emax. simpl Zdigits2. rewrite Hd.
  replace (Z.max (53 + e - 53) (3 - 1024 - 53) - e) with 0 by lia. done.
Qed.

Lemma binary_round_exact s p :
  Zpos p < 2 ^ 53 ->
  exists m e, binary_round f_prec f_emax s p 0 = S754_finite s m e /\
    e <= 0 /\ Zpos m = Zpos p * 2 ^ (- e) /\ Zpos (digits2_pos m) = 53.
Proof.
  intros Hp. pose proof (digits2_bounds p) as [Bl Bu].
  set (d := Zpos (digits2_pos p)) in *.
  assert (1 <= d) by lia.
  assert (d - 1 < 53) by (apply (Z.pow_lt_mono_r_iff 2); lia).
  destruct (shl_align_spec p d) as (mz & Ha & Hm); [done|lia|].
  assert (Hdz : Zpos (digits2_pos mz) = 53).
  { apply digits2_unique; [|lia]. rewrite Hm. split.
    - replace (53 - 1) with ((d - 1) + (53 - d)) by lia. rewrite Z.pow_add_r by lia. nia.
    - replace 53 with (d + (53 - d)) at 2 by lia. rewrite Z.pow_add_r by lia.
      pose proof (Z.pow_pos_nonneg 2 (53 - d)). nia. }
  exists mz, (d - 53). unfold binary_round.
  replace (fexp f_prec f_emax (Zpos (digits2_pos p) + 0)) with (d - 53)
    by (unfold fexp, emin, f_prec, f_emax; fold d; lia).
  rewrite Ha. unfold binary_round_aux.
  rewrite shr_fexp_noop by lia. cbn [shr_m loc_of_shr_record round_nearest_even].
  rewrite shr_fexp_noop by lia. cbn [shr_m].
  replace (d - 53 <=? f_emax - f_prec) with true
    by (symmetry; apply Z.leb_le; unfold f_emax, f_prec; lia).
  split; [done|]. split; [lia|]. split; [|done]. rewrite Hm. do 2 f_equal. lia.
Qed.

Lemma trunc_exact m e p :
  e <= 0 -> Zpos m = Zpos p * 2 ^ (- e) ->
  (if 0 <=? e then Zpos m * 2 ^ e else Zpos m / 2 ^ (- e)) = Zpos p.
Proof.
  intros He Hm. rewrite Hm. pose proof (Z.pow_pos_nonneg 2 (- e)).
  destruct (0 <=? e) eqn:E; go_bool.
  - replace e with 0 by lia. simpl. lia.
  - apply Z.div_mul. lia.
Qed.

(** A Go integer stored as a [float64] and read back with [int(...)] is
    unchanged when its magnitude is below 2^53. *)
Lemma f_to_of_int n : Z.abs n < 2 ^ 53 -> f_to_int (f_of_int n) = n.
Proof.
  intros Hn. unfold f_of_int, binary_normalize. destruct n as [|p|p]; [done| |].
  all: match goal with |- context [binary_round _ _ ?s _ _] =>
         destruct (binary_round_exact s p) as (m & e & -> & He & Hm & _); [lia|] end.
  all: unfold f_to_int; rewrite (trunc_exact m e p He Hm).
  all: match goal with |- context [if ?b then _ else _] =>
         replace b with true; [lia|symmetry; apply andb_true_iff; split;
           [apply Z.leb_le | apply Z.ltb_lt]; lia] end.
Qed.

Lemma digits2_53 p : 2 ^ 52 <= Zpos p < 2 ^ 53 -> Zpos (digits2_pos p) = 53.
Proof. intros Hp. by apply digits2_unique. Qed.

Lemma digits2_54 p : 2 ^ 53 <= Zpos p < 2 ^ 54 -> Zpos (digits2_pos p) = 54.
Proof. intros Hp. by apply digits2_unique. Qed.

(** ** Rounding a quotient

    A mantissa of 53 or 54 digits is rounded with an error of at most two units,
    and exactly when it is even and the quotient left no remainder. *)

Lemma shr_fexp_53 m e l :
  Zpos (digits2_pos m) = 53 -> -1000 <= e <= 0 ->
  shr_fexp f_prec f_emax (Zpos m) e l = (shr_record_of_loc (Zpos m) l, e).
Proof.
  intros Hd He. unfold shr_fexp, fexp, emin, f_prec, f_emax. simpl Zdigits2. rewrite Hd.
  replace (Z.max (53 + e - 53) (3 - 1024 - 53) - e) with 0 by lia. done.
Qed.

Lemma shr_fexp_54 m e l :
  Zpos (digits2_pos m) = 54 -> -1000 <= e <= 0 ->
  shr_fexp f_prec f_emax (Zpos m) e l = (shr_1 (shr_record_of_loc (Zpos m) l), e + 1).
Proof.
  intros Hd He. unfold shr_fexp, fexp, emin, f_prec, f_emax. simpl Zdigits2. rewrite Hd.
  replace (Z.max (54 + e - 53) (3 - 1024 - 53) - e) with 1 by lia. done.
Qed.

Lemma nearest_even_near m mrs :
  shr_m mrs = m -> m <= round_nearest_even m (loc_of_shr_record mrs) <= m + 1.
Proof.
  intros <-. destruct mrs as [m [] []]; simpl; try lia. destruct (Z.even m); lia.
Qed.

Lemma shr_1_half m l :
  exists h, shr_m (shr_1 (shr_record_of_loc (Zpos m) l)) = h /\ 2 * h <= Zpos m <= 2 * h + 1 /\
    (l = loc_Exact -> Z.even (Zpos m) = true ->
     loc_of_shr_record (shr_1 (shr_record_of_loc (Zpos m) l)) = loc_Exact /\ Zpos m = 2 * h).
Proof.
  destruct m as [m|m|].
  - exists (Zpos m). destruct l as [|[]]; simpl; split_and!; try done; lia.
  - exists (Zpos m). destruct l as [|[]]; simpl; split_and!; try done; lia.
  - exists 0. destruct l as [|[]]; simpl; split_and!; try done; lia.
Qed.

(** The first half of [binary_round_aux]: shift to 53 digits and round. *)
Lemma round_step m e l :
  2 ^ 52 <= Zpos m < 2 ^ 54 -> -1000 <= e < 0 ->
  exists k d, (d = 0 \/ d = 1) /\ 2 ^ 52 <= k <= 2 ^ 53 /\
    (let '(mrs, e1) := shr_fexp f_prec f_emax (Zpos m) e l in
     (round_nearest_even (shr_m mrs) (loc_of_shr_record mrs), e1)) = (k, e + d) /\
    Z.abs (k * 2 ^ d - Zpos m) <= 2 /\
    (l = loc_Exact -> Z.even (Zpos m) = true -> k * 2 ^ d = Zpos m).
Proof.
  intros Hm He. destruct (Z_lt_le_dec (Zpos m) (2 ^ 53)) as [Hlt|Hge].
  - rewrite shr_fexp_53 by first [lia | apply digits2_53; lia | apply digits2_54; lia].
    set (mrs := shr_record_of_loc (Zpos m) l).
    assert (Hs : shr_m mrs = Zpos m) by (by destruct l as [|[]]).
    pose proof (nearest_even_near _ mrs Hs) as Hn. rewrite Hs.
    set (k := round_nearest_even _ _) in *.
    exists k, 0. split_and!; [by left|lia|lia|by rewrite Z.add_0_r|lia|].
    intros -> _. unfold k. simpl. lia.
  - rewrite shr_fexp_54 by first [lia | apply digits2_53; lia | apply digits2_54; lia].
    destruct (shr_1_half m l) as (h & Hh & Hb & Hx). rewrite Hh.
    pose proof (nearest_even_near _ _ Hh) as Hn.
    set (k := round_nearest_even _ _) in *.
    exists k, 1. split_and!; [by right|lia|lia|done|lia|].
    intros -> He'. destruct Hx as [Hl ->]; [done..|]. unfold k. rewrite Hl. simpl. lia.
Qed.

Lemma binary_round_aux_near m e l :
  2 ^ 52 <= Zpos m < 2 ^ 54 -> -1000 <= e < 0 ->
  exists k d q, binary_round_aux f_prec f_emax false (Zpos m) e l = S754_finite false k (e + d) /\
    0 <= d <= 2 /\ q = Zpos k * 2 ^ d /\ Z.abs (q - Zpos m) <= 2 /\
    (l = loc_Exact -> Z.even (Zpos m) = true -> q = Zpos m).
Proof.
  intros Hm He. destruct (round_step m e l Hm He) as (k & d & Hd & Hk & Hr & Hq & Hx).
  unfold binary_round_aux. destruct (shr_fexp _ _ (Zpos m) e l) as [mrs e1].
  injection Hr as -> ->.
  assert (Hle : forall x, 0 <= x <= 2 -> (e + x <=? f_emax - f_prec) = true)
    by (intros; apply Z.leb_le; unfold f_emax, f_prec; lia).
  destruct (Z_lt_le_dec k (2 ^ 53)) as [Hlt|Hge].
  - destruct k as [|k|k]; [lia| |lia].
    rewrite shr_fexp_53 by first [lia | apply digits2_53; lia | apply digits2_54; lia]. simpl.
    rewrite Hle by lia. exists k, d, (Zpos k * 2 ^ d). split_and!; try done; lia.
  - replace k with (2 ^ 53) in * by lia. change (2 ^ 53) with (Zpos (2 ^ 53)%positive) in *.
    rewrite shr_fexp_54 by (lia || done).
    cbn [shr_record_of_loc shr_1 Pos.pow Pos.iter Pos.mul shr_m].
    rewrite <- Z.add_assoc, Hle by lia.
    exists (2 ^ 52)%positive, (d + 1), (Zpos (2 ^ 53) * 2 ^ d).
    split_and!; try done; try lia. rewrite Z.pow_add_r by lia.
    change (Zpos (2 ^ 53)) with (Zpos (2 ^ 52) * 2). lia.
Qed.

(** The exact division of [m] by the mantissa of 60, before rounding. *)
Lemma f_div_core_60 m e :
  Zpos (digits2_pos m) = 53 -> -100 <= e <= 0 ->
  exists q l,
    SFdiv_core_binary f_prec f_emax (Zpos m) e (Zpos (60 * 2 ^ 47)) (-47) = (q, e - 6, l) /\
    q = 64 * Zpos m / 60 /\ ((64 * Zpos m) mod 60 = 0 -> l = loc_Exact).
Proof.
  intros Hd He. unfold SFdiv_core_binary. change (Zdigits2 (Zpos m)) with (Zpos (digits2_pos m)).
  rewrite Hd. change (Zdigits2 (Zpos (60 * 2 ^ 47))) with 53. cbv zeta.
  replace (Z.min (fexp f_prec f_emax (53 + e - (53 + -47))) (e - -47)) with (e - 6)
    by (unfold fexp, emin, f_prec, f_emax; lia).
  replace (e - -47 - (e - 6)) with 53 by lia. rewrite Z.shiftl_mul_pow2 by lia.
  change (Zpos (60 * 2 ^ 47)) with (60 * 2 ^ 47).
  replace (Zpos m * 2 ^ 53) with (64 * Zpos m * 2 ^ 47) by lia.
  pose proof (Z.div_mul_cancel_r (64 * Zpos m) 60 (2 ^ 47) ltac:(lia) ltac:(lia)) as Hq.
  pose proof (Zmult_mod_distr_r (64 * Zpos m) 60 (2 ^ 47)) as Hr.
  unfold Z.div, Z.modulo in Hq, Hr |- *.
  destruct (Z.div_eucl (64 * Zpos m * 2 ^ 47) (60 * 2 ^ 47)) as [q r].
  destruct (Z.div_eucl (64 * Zpos m) 60) as [q0 r0]. subst q r.
  eexists _, _. split_and!; [done..|]. intros ->. done.
Qed.

(** The exact shape of a quotient by 60: up to scaling by [N = 2^(-e)] it is the
    integer quotient of [s * N] by 60, within two units, and exact when 60
    divides [s]. *)
Lemma f_div_60 s :
  0 < s < 2 ^ 40 ->
  exists k e d q, f_div (f_of_int s) (f_of_int 60) = S754_finite false k (e + d) /\
    -100 <= e <= -19 /\ 0 <= d <= 2 /\ q = Zpos k * 2 ^ d /\
    Z.abs (q - s * 2 ^ (- e) / 60) <= 2 /\
    (s mod 60 = 0 -> q = s / 60 * 2 ^ (- e)).
Proof.
  intros Hs. destruct s as [|p|p]; [lia| |lia].
  assert (Hf : exists m e, f_of_int (Zpos p) = S754_finite false m e /\
    e <= 0 /\ Zpos m = Zpos p * 2 ^ (- e) /\ Zpos (digits2_pos m) = 53)
    by (apply (binary_round_exact false); lia).
  destruct Hf as (m & e & -> & He & Hm & Hd).
  change (f_of_int 60) with (S754_finite false (60 * 2 ^ 47)%positive (-47)).
  pose proof (digits2_bounds m) as Hb. rewrite Hd in Hb. simpl (53 - 1) in Hb.
  assert (Hlo : -53 < e) by (apply Z.opp_lt_mono, (Z.pow_lt_mono_r_iff 2); lia || nia).
  assert (Hhi : 12 < - e) by (apply (Z.pow_lt_mono_r_iff 2); lia || nia).
  assert (HN : 2 ^ (- (e - 6)) = 64 * 2 ^ (- e))
    by (replace (- (e - 6)) with (6 + - e) by lia; rewrite Z.pow_add_r; lia).
  destruct (f_div_core_60 m e) as (q & l & Hc & Hq & Hl); [done|lia..|].
  assert (Hq60 : q = Zpos p * 2 ^ (- (e - 6)) / 60).
  { rewrite Hq, HN, Hm. f_equal. lia. }
  assert (Hqr : 2 ^ 52 <= q < 2 ^ 54) by (rewrite Hq; split;
    [apply Z.div_le_lower_bound | apply Z.div_lt_upper_bound]; lia).
  destruct q as [|q|q]; [lia| |lia].
  destruct (binary_round_aux_near q (e - 6) l) as (k & d & q' & Hr & Hd2 & Hk & Hn & Hx); [lia..|].
  exists k, (e - 6), d, q'. unfold f_div, SFdiv. rewrite Hc. simpl xorb. rewrite Hr.
  rewrite <- Hq60. split_and!; [done|lia..|done|done|]. intros Hmod.
  assert (Hdiv : Zpos q = Zpos p / 60 * 2 ^ (- (e - 6))).
  { rewrite Hq60. pose proof (Z.div_mod (Zpos p) 60). replace (Zpos p) with (60 * (Zpos p / 60)) at 1 by lia.
    rewrite <- Z.mul_assoc, Z.mul_comm, Z.div_mul; lia. }
  rewrite <- Hdiv. apply Hx.
  - apply Hl. rewrite Hm. pose proof (Z.div_mod (Zpos p) 60).
    replace (Zpos p) with (60 * (Zpos p / 60)) at 1 by lia.
    replace (64 * _) with (Zpos p / 60 * 64 * 2 ^ (- e) * 60) by lia. apply Z.mod_mul. lia.
  - rewrite Hdiv, HN. rewrite !Z.even_mul. simpl. by rewrite orb_true_r.
Qed.
