(* ===== verification/Kv.v ===== *)
(** * libs/go/pgkv: the JSONB record store

    One collection ("kind") of the table, as the association list that
    [List]'s [ORDER BY created_at, key] returns: a conflicting [Put] updates
    the row in place and keeps its creation time, a new key goes to the end.
    [kv_up] is whether Postgres answers; when it does not, every operation
    returns its error.  JSON encoding and decoding of a record are inverse to
    each other for the record types stored here. *)

From S2P Require Import Prelude.

Record kv (A : Type) := mkKv { kv_rows : list (string * A); kv_up : bool }.
Arguments mkKv {A} kv_rows kv_up.
Arguments kv_rows {A} k.
Arguments kv_up {A} k.

Definition kv_empty {A} : kv A := mkKv [] true.

Section Rows.
Context {A : Type}.
Implicit Types (l : list (string * A)) (k : string) (v : A).

Fixpoint rows_get k l : option A :=
  match l with
  | [] => None
  | (k', v) :: l' => if decide (k = k') then Some v else rows_get k l'
  end.

Fixpoint rows_put k v l : list (string * A) :=
  match l with
  | [] => [(k, v)]
  | (k', v') :: l' => if decide (k = k') then (k, v) :: l' else (k', v') :: rows_put k v l'
  end.

Lemma rows_get_put k k' v l :
  rows_get k (rows_put k' v l) = if decide (k = k') then Some v else rows_get k l.
Proof.
  induction l as [|[k0 v0] l IH]; simpl; [done|].
  destruct (decide (k' = k0)) as [->|]; simpl;
    repeat case_decide; simplify_eq; auto.
Qed.

Lemma rows_get_put_eq k v l : rows_get k (rows_put k v l) = Some v.
Proof. rewrite rows_get_put. by case_decide. Qed.

Lemma rows_get_put_ne k k' v l :
  k <> k' -> rows_get k (rows_put k' v l) = rows_get k l.
Proof. intros. rewrite rows_get_put. by case_decide. Qed.

Lemma rows_put_keys k v l :
  (rows_put k v l).*1 = match rows_get k l with Some _ => l.*1 | None => l.*1 ++ [k] end.
Proof.
  induction l as [|[k0 v0] l IH]; csimpl; [done|].
  case_decide; subst; csimpl; [done|]. rewrite IH. by destruct (rows_get k l).
Qed.

Lemma rows_get_None k l : rows_get k l = None <-> k ∉ l.*1.
Proof.
  induction l as [|[k0 v0] l IH]; csimpl; [split; [by intros _ ?%elem_of_nil|done]|].
  rewrite not_elem_of_cons. case_decide; naive_solver.
Qed.

Lemma rows_put_NoDup k v l : NoDup l.*1 -> NoDup (rows_put k v l).*1.
Proof.
  intros Hnd. rewrite rows_put_keys. destruct (rows_get k l) eqn:E; [done|].
  apply rows_get_None in E. apply NoDup_app. split; [done|].
  split; [|apply NoDup_singleton]. intros x Hx ->%list_elem_of_singleton. done.
Qed.

Lemma rows_get_elem k v l : NoDup l.*1 -> rows_get k l = Some v <-> (k, v) ∈ l.
Proof.
  induction l as [|[k0 v0] l IH]; csimpl; intros Hnd.
  { split; [done|by intros ?%elem_of_nil]. }
  apply NoDup_cons in Hnd as [Hni Hnd]. rewrite elem_of_cons, <- IH by done.
  case_decide; subst; split; try naive_solver.
  intros [?|Hg]; [naive_solver|]. exfalso. apply Hni.
  destruct (decide (k0 ∈ l.*1)) as [|Hn]; [done|].
  apply rows_get_None in Hn. congruence.
Qed.

Lemma rows_put_new k v l : k ∉ l.*1 -> rows_put k v l = l ++ [(k, v)].
Proof.
  induction l as [|[k0 v0] l IH]; csimpl; [done|]. intros [Hk Hl]%not_elem_of_cons.
  rewrite decide_False by done. by rewrite IH.
Qed.

Lemma rows_get_in k v l : rows_get k l = Some v -> (k, v) ∈ l.
Proof.
  induction l as [|[k0 v0] l IH]; simpl; [done|]. rewrite elem_of_cons.
  case_decide; naive_solver.
Qed.

Lemma rows_put_elem k v l k' v' :
  (k', v') ∈ rows_put k v l -> (k', v') = (k, v) \/ (k', v') ∈ l.
Proof.
  induction l as [|[k0 v0] l IH]; simpl.
  - rewrite list_elem_of_singleton. auto.
  - case_decide; rewrite !elem_of_cons; naive_solver.
Qed.

(** Writing a record that satisfies [P] keeps [P] on the whole collection. *)
Lemma rows_put_Forall (P : string * A -> Prop) k v l :
  Forall P l -> P (k, v) -> Forall P (rows_put k v l).
Proof.
  rewrite !Forall_forall. intros Hl Hk [k' v'] [?|?]%rows_put_elem; [by simplify_eq|auto].
Qed.

(** Replacing the record under an existing key changes exactly one row. *)
Lemma rows_put_split k v v0 l :
  rows_get k l = Some v0 ->
  exists l1 l2, l = l1 ++ (k, v0) :: l2 /\ rows_put k v l = l1 ++ (k, v) :: l2.
Proof.
  induction l as [|[k' v'] l IH]; simpl; [done|]. case_decide; intros H0; simplify_eq.
  - by exists [], l.
  - destruct (IH H0) as (l1 & l2 & -> & ->). by exists ((k', v') :: l1), l2.
Qed.
End Rows.

#[export] Hint Resolve rows_put_NoDup rows_put_Forall : lead.

Section Ops.
Context {A : Type}.

(** [Store.Put]: insert, or update the data in place. *)
Definition kv_put (s : kv A) (k : string) (v : A) : result (kv A) :=
  if kv_up s then Ok (mkKv (rows_put k v (kv_rows s)) true) else Err "pgkv: put".

(** [Store.Insert]: insert unless the key exists; whether a row was added. *)
Definition kv_insert (s : kv A) (k : string) (v : A) : result (kv A * bool) :=
  if kv_up s then
    match rows_get k (kv_rows s) with
    | Some _ => Ok (s, false)
    | None => Ok (mkKv (rows_put k v (kv_rows s)) true, true)
    end
  else Err "pgkv: insert".

(** [Get]: the record, whether it exists, or an error. *)
Definition kv_get (s : kv A) (k : string) : result (option A) :=
  if kv_up s then Ok (rows_get k (kv_rows s)) else Err "pgkv: get".

(** [List]: all records in creation order. *)
Definition kv_list (s : kv A) : result (list A) :=
  if kv_up s then Ok (kv_rows s).*2 else Err "pgkv: list".

(** [Store.Delete]. *)
Definition kv_delete (s : kv A) (k : string) : result (kv A) :=
  if kv_up s then Ok (mkKv (filter (fun r => r.1 <> k) (kv_rows s)) true)
  else Err "pgkv: delete".
(** [Store.Put] with the collection as it was when it fails. *)
Definition kv_set (s : kv A) (k : string) (v : A) : kv A * error :=
  match kv_put s k v with Ok s' => (s', None) | Err e => (s, Some e) end.
End Ops.

(** ** Collections as finite maps *)

Section AsMap.
Context {A : Type}.

(** The contents of a collection. *)
Definition kv_map (s : kv A) : gmap string A := list_to_map (kv_rows s).

Lemma rows_get_map k (l : list (string * A)) : (list_to_map l : gmap string A) !! k = rows_get k l.
Proof.
  induction l as [|[k' v] l IH]; simpl; [apply lookup_empty|].
  case_decide; subst; [by rewrite lookup_insert_eq|by rewrite lookup_insert_ne].
Qed.

Lemma kv_map_lookup (s : kv A) k : kv_map s !! k = rows_get k (kv_rows s).
Proof. apply rows_get_map. Qed.

Lemma kv_map_put k v (l : list (string * A)) b :
  kv_map (mkKv (rows_put k v l) b) = <[k := v]> (list_to_map l).
Proof.
  apply map_eq. intros k'. rewrite kv_map_lookup. simpl. rewrite rows_get_put.
  case_decide; subst; [by rewrite lookup_insert_eq|].
  by rewrite lookup_insert_ne, rows_get_map.
Qed.

Lemma rows_get_filter k k' (l : list (string * A)) :
  rows_get k' (filter (fun r => r.1 <> k) l) = if decide (k' = k) then None else rows_get k' l.
Proof.
  induction l as [|[k0 v0] l IH]; simpl; [by case_decide|].
  rewrite filter_cons. simpl. repeat case_decide; simpl; subst; try done.
  all: rewrite ?IH; repeat case_decide; simplify_eq; done.
Qed.

Lemma kv_map_delete k (l : list (string * A)) b :
  kv_map (mkKv (filter (fun r => r.1 <> k) l) b) = delete k (list_to_map l).
Proof.
  apply map_eq. intros k'. rewrite kv_map_lookup. simpl. rewrite rows_get_filter.
  case_decide; subst; [by rewrite lookup_delete_eq|].
  by rewrite lookup_delete_ne, rows_get_map.
Qed.

(** What the operations do to the contents while Postgres answers. *)
Lemma kv_set_up (s : kv A) k v :
  kv_up s = true ->
  exists s', kv_set s k v = (s', None) /\ kv_up s' = true /\ kv_map s' = <[k := v]> (kv_map s).
Proof.
  intros Hu. unfold kv_set, kv_put. rewrite Hu. eexists. split; [done|]. split; [done|].
  apply kv_map_put.
Qed.

(** A write happens or leaves the collection as it is. *)
Lemma kv_set_cases (s : kv A) k v :
  (exists s', kv_set s k v = (s', None) /\
     (NoDup (kv_rows s).*1 -> NoDup (kv_rows s').*1) /\ kv_map s' = <[k := v]> (kv_map s)) \/
  (exists e, kv_set s k v = (s, Some e)).
Proof.
  unfold kv_set, kv_put. destruct (kv_up s) eqn:U; [left|right; eauto].
  eexists. split; [done|]. split; [apply rows_put_NoDup|apply kv_map_put].
Qed.

(** The listed records of a collection that files them under their ids. *)
Lemma kv_list_ids (s : kv A) (id : A -> string) l :
  kv_list s = Ok l -> NoDup (kv_rows s).*1 -> (forall k v, kv_map s !! k = Some v -> id v = k) ->
  NoDup (id <$> l) /\ Forall (fun v => kv_map s !! id v = Some v) l.
Proof.
  unfold kv_list. destruct (kv_up s); [|done]. intros [= <-] Hn Hid.
  assert (Hr : forall r, r ∈ kv_rows s -> kv_map s !! r.1 = Some r.2 /\ id r.2 = r.1).
  { intros [k v] Hin. assert (H : kv_map s !! k = Some v) by (rewrite kv_map_lookup; by apply rows_get_elem).
    split; [done|by apply Hid]. }
  rewrite <- list_fmap_compose. split.
  - rewrite (list_fmap_ext _ fst); [done|]. intros i r Hi. apply Hr. by eapply list_elem_of_lookup_2.
  - apply Forall_fmap, Forall_forall. intros r Hin. simpl. destruct (Hr r Hin) as [H1 H2]. by rewrite H2.
Qed.

Lemma kv_get_up (s : kv A) k : kv_up s = true -> kv_get s k = Ok (kv_map s !! k).
Proof. intros Hu. unfold kv_get. by rewrite Hu, kv_map_lookup. Qed.

Lemma kv_delete_up (s : kv A) k :
  kv_up s = true ->
  exists s', kv_delete s k = Ok s' /\ kv_up s' = true /\ kv_map s' = delete k (kv_map s).
Proof.
  intros Hu. unfold kv_delete. rewrite Hu. eexists. split; [done|]. split; [done|].
  apply kv_map_delete.
Qed.

Lemma kv_insert_up (s : kv A) k v :
  kv_up s = true ->
  exists s', kv_insert s k v = Ok (s', bool_decide (kv_map s !! k = None)) /\ kv_up s' = true /\
    kv_map s' = match kv_map s !! k with Some _ => kv_map s | None => <[k := v]> (kv_map s) end.
Proof.
  intros Hu. unfold kv_insert. rewrite Hu, kv_map_lookup.
  destruct (rows_get k (kv_rows s)) eqn:E; eexists; (split; [done|]); (split; [done|]); [done|].
  apply kv_map_put.
Qed.
End AsMap.
