(* ===== verification/GoMonad.v ===== *)
(** * Effectful Go code: a state and error monad

    A handler or service method threads the state of its process and may stop
    with an error.  Writes made before the error stay, as in Go: [M] returns
    the state on both paths. *)

From S2P Require Import Prelude.

Section Monad.
Context {S E : Type}.

Definition M (A : Type) : Type := S -> S * (E + A).

Definition ret {A} (a : A) : M A := fun s => (s, inr a).
Definition raise {A} (e : E) : M A := fun s => (s, inl e).
Definition bind {A B} (m : M A) (f : A -> M B) : M B :=
  fun s => let '(s1, r) := m s in
           match r with inl e => (s1, inl e) | inr a => f a s1 end.

(** The result of [m] as a value: Go code that looks at [err] itself. *)
Definition try {A} (m : M A) : M (E + A) := fun s => let '(s1, r) := m s in (s1, inr r).

Definition gets {A} (f : S -> A) : M A := fun s => (s, inr (f s)).
Definition modify (f : S -> S) : M unit := fun s => (f s, inr tt).

(** An [error] check: [if cond { return err }]. *)
Definition ensure (b : bool) (e : E) : M unit := if b then ret tt else raise e.

(** [for _, x := range xs { if err := f(x); err != nil { return err } }]. *)
Fixpoint for_each {A} (f : A -> M unit) (xs : list A) : M unit :=
  match xs with
  | [] => ret tt
  | x :: xs' => bind (f x) (fun _ => for_each f xs')
  end.

End Monad.

Arguments M : clear implicits.

Notation "'let!' x ':=' m 'in' k" := (bind m (fun x => k))
  (at level 10, x pattern, m at level 100, k at level 200) : go_scope.

(** ** Relations kept by a computation

    [keeps R m]: on every path, error paths included, the state after [m] is
    related by [R] to the state before it. *)

Section Keeps.
Context {S E : Type} (R : relation S).

Definition keeps {A} (m : M S E A) : Prop := forall s, R s (m s).1.

Context `{!PreOrder R}.

Lemma keeps_ret {A} (a : A) : keeps (ret a).
Proof. intros s. simpl. reflexivity. Qed.

Lemma keeps_raise {A} (e : E) : keeps (A:=A) (raise e).
Proof. intros s. simpl. reflexivity. Qed.

Lemma keeps_gets {A} (f : S -> A) : keeps (gets f).
Proof. intros s. simpl. reflexivity. Qed.

Lemma keeps_bind {A B} (m : M S E A) (f : A -> M S E B) :
  keeps m -> (forall a, keeps (f a)) -> keeps (bind m f).
Proof.
  intros Hm Hf s. unfold bind. specialize (Hm s). destruct (m s) as [s1 [e|a]]; [done|].
  etrans; [exact Hm|apply Hf].
Qed.

Lemma keeps_try {A} (m : M S E A) : keeps m -> keeps (try m).
Proof. intros Hm s. unfold try. specialize (Hm s). by destruct (m s). Qed.

Lemma keeps_ensure b e : keeps (ensure b e).
Proof. destruct b; [apply keeps_ret|apply keeps_raise]. Qed.

Lemma keeps_for_each {A} (f : A -> M S E unit) xs : (forall x, keeps (f x)) -> keeps (for_each f xs).
Proof.
  intros Hf. induction xs as [|x xs IH]; simpl; [apply keeps_ret|by apply keeps_bind].
Qed.
End Keeps.

Create HintDb keeps.
#[export] Hint Resolve keeps_ret keeps_raise keeps_gets keeps_ensure keeps_try : keeps.

(** Walk through a method, leaving the primitive steps to the database. *)
Ltac keeps_tac :=
  repeat first
    [ progress intros
    | solve [auto with keeps]
    | apply keeps_bind
    | apply keeps_for_each
    | apply keeps_try
    | match goal with |- keeps _ (match ?x with _ => _ end) => destruct x eqn:? end ];
  auto with keeps.

(** ** Results of successful runs *)

Section Runs.
Context {S E : Type}.

(** [m] can only succeed in a state and with a value that satisfy [Q]. *)
Definition ensures {A} (m : M S E A) (s : S) (Q : A -> S -> Prop) : Prop :=
  forall s' a, m s = (s', inr a) -> Q a s'.

Lemma bind_ok {A B} (m : M S E A) (f : A -> M S E B) s s' b :
  bind m f s = (s', inr b) <->
  exists s1 a, m s = (s1, inr a) /\ f a s1 = (s', inr b).
Proof.
  unfold bind. split.
  - intros H. destruct (m s) as [s1 [e|a]]; [done|eauto].
  - intros (s1 & a & -> & Hf). done.
Qed.

Lemma ensure_ok b e (s s' : S) u : ensure (E:=E) b e s = (s', inr u) <-> b = true /\ s' = s.
Proof. destruct b, u; unfold ensure, ret, raise; naive_solver. Qed.

Lemma gets_ok {A} (f : S -> A) s s' a : gets (E:=E) f s = (s', inr a) <-> s' = s /\ a = f s.
Proof. unfold gets. naive_solver. Qed.

Lemma ret_ok {A} (x : A) s s' a : ret (S:=S) (E:=E) x s = (s', inr a) <-> s' = s /\ a = x.
Proof. unfold ret. naive_solver. Qed.

Lemma bind_step {A B} (m : M S E A) (f : A -> M S E B) s s1 a :
  m s = (s1, inr a) -> bind m f s = f a s1.
Proof. unfold bind. by intros ->. Qed.

(** Reading the first half of a run: what happened before [f]. *)
Lemma bind_run {A B} (m : M S E A) (f : A -> M S E B) s :
  bind m f s = match m s with (s1, inl e) => (s1, inl e) | (s1, inr a) => f a s1 end.
Proof. unfold bind. by destruct (m s) as [s1 [e|a]]. Qed.

Lemma bind_ensure {B} b e (f : unit -> M S E B) s :
  bind (ensure b e) f s = if b then f tt s else (s, inl e).
Proof. by destruct b. Qed.
End Runs.
