(* ===== verification/GoStrings.v ===== *)
(** * Packages [strconv] and [strings] as the services use them

    The library [phonenumbers] is a record at the end. *)

From S2P Require Import Prelude.
From stdpp Require Import pretty.
From Stdlib Require Import Ascii.

Open Scope Z_scope.

(** ** Decimal numbers *)

Definition digit_value (c : Ascii.ascii) : option Z :=
  let n := Ascii.N_of_ascii c in
  if ((48 <=? n)%N && (n <=? 57)%N) then Some (Z.of_N n - 48) else None.

Fixpoint digits_value (acc : Z) (s : list Ascii.ascii) : option Z :=
  match s with
  | [] => Some acc
  | c :: s' =>
      match digit_value c with
      | Some d => digits_value (10 * acc + d) s'
      | None => None
      end
  end.

(** [strconv.Atoi]: an optional sign, at least one digit, in the range of
    [int]; [None] is the error. *)
Definition atoi (s : string) : option Z :=
  let parse l := match l with [] => None | _ => digits_value 0 l end in
  let r := match String.list_ascii_of_string s with
           | [] => None
           | c :: l =>
               if (Ascii.N_of_ascii c =? 45)%N then Z.opp <$> parse l
               else if (Ascii.N_of_ascii c =? 43)%N then parse l
               else parse (c :: l)
           end in
  match r with
  | Some z => if (- 2^63 <=? z) && (z <? 2^63) then Some z else None
  | None => None
  end.

Example atoi_30 : atoi "30" = Some 30. Proof. reflexivity. Qed.
Example atoi_neg : atoi "-7" = Some (-7). Proof. reflexivity. Qed.
Example atoi_bad : atoi "3s" = None. Proof. reflexivity. Qed.
Example atoi_big : atoi "9223372036854775808" = None. Proof. reflexivity. Qed.

(** [fmt.Sprintf("%03d", n)] for a number that is not negative. *)
Definition pad3 (n : Z) : string :=
  if n <? 10 then ("00" +:+ pretty n) else if n <? 100 then ("0" +:+ pretty n) else pretty n.

Example pad3_7 : pad3 7 = "007"%string. Proof. vm_compute. reflexivity. Qed.
Example pad3_big : pad3 1234 = "1234"%string. Proof. vm_compute. reflexivity. Qed.

(** ** Trimming and searching *)

(** [strings.Trim(s, cutset)]. *)
Definition in_cutset (cutset : string) (c : Ascii.ascii) : bool :=
  bool_decide (c ∈ String.list_ascii_of_string cutset).

Definition trim_set (s cutset : string) : string :=
  trim_left_by (in_cutset cutset) (trim_right_by (in_cutset cutset) s).

(** The first value that is not empty. *)
Definition first_nonempty (a b : string) : string := if is_empty a then b else a.

(** [strings.Contains]. *)
Fixpoint contains_list (sub s : string) : bool :=
  String.prefix sub s ||
  match s with
  | EmptyString => false
  | String _ s' => contains_list sub s'
  end.
Definition contains (s sub : string) : bool := contains_list sub s.

(** [strings.Split(s, sep)] for a separator of one character. *)
Fixpoint split_chars (sep : Ascii.ascii) (acc : list Ascii.ascii) (l : list Ascii.ascii)
    : list string :=
  match l with
  | [] => [String.string_of_list_ascii (rev acc)]
  | c :: l' =>
      if bool_decide (c = sep)
      then String.string_of_list_ascii (rev acc) :: split_chars sep [] l'
      else split_chars sep (c :: acc) l'
  end.
Definition split_on (sep : Ascii.ascii) (s : string) : list string :=
  split_chars sep [] (String.list_ascii_of_string s).

(** [strings.Join]. *)
Fixpoint join (sep : string) (l : list string) : string :=
  match l with
  | [] => ""
  | [s] => s
  | s :: l' => s +:+ sep +:+ join sep l'
  end.

Example split_abc : split_on ","%char "a,b,,c" = ["a"; "b"; ""; "c"]%string.
Proof. reflexivity. Qed.

(** ** Trimming only removes the ends *)

Lemma drop_while_app {A} (p : A -> bool) l1 l2 :
  List.forallb p l1 = true -> drop_while p (l1 ++ l2) = drop_while p l2.
Proof. induction l1 as [|a l1 IH]; simpl; [done|]. intros [-> Hl]%andb_true_iff. auto. Qed.

Lemma list_of_string_of_list l :
  String.list_ascii_of_string (String.string_of_list_ascii l) = l.
Proof. apply String.list_ascii_of_string_of_list_ascii. Qed.

Lemma string_of_list_of_string s :
  String.string_of_list_ascii (String.list_ascii_of_string s) = s.
Proof. apply String.string_of_list_ascii_of_string. Qed.

Lemma list_ascii_append s1 s2 :
  String.list_ascii_of_string (s1 +:+ s2)
  = String.list_ascii_of_string s1 ++ String.list_ascii_of_string s2.
Proof. induction s1 as [|c s1 IH]; [done|]. simpl. by rewrite IH. Qed.

Lemma trim_right_by_app p s1 s2 :
  List.forallb p (String.list_ascii_of_string s2) = true ->
  trim_right_by p (s1 +:+ s2) = trim_right_by p s1.
Proof.
  intros H. unfold trim_right_by. rewrite list_ascii_append, rev_app_distr, drop_while_app; [done|].
  rewrite List.forallb_forall in *. intros x Hx. apply H. by apply in_rev.
Qed.

Lemma drop_while_snoc {A} (p : A -> bool) l x : p x = false ->
  drop_while p (l ++ [x]) = drop_while p l ++ [x].
Proof.
  intros Hx. induction l as [|a l IH]; simpl; [by rewrite Hx|]. by destruct (p a).
Qed.

(** Trimming on the left and on the right commute. *)
Lemma drop_while_rev {A} (p : A -> bool) l :
  drop_while p (rev (drop_while p (rev l))) = rev (drop_while p (rev (drop_while p l))).
Proof.
  induction l as [|x l IH]; simpl; [done|].
  destruct (p x) eqn:Hx.
  - destruct (List.forallb p (rev l)) eqn:Ha.
    + rewrite drop_while_app by done. simpl. rewrite Hx. simpl.
      assert (Hl : forall l', List.forallb p l' = true -> drop_while p l' = []).
      { clear. induction l' as [|a l' IH]; simpl; [done|]. intros [-> ?]%andb_true_iff. auto. }
      assert (List.forallb p l = true) as Hl'.
      { rewrite List.forallb_forall in *. intros y Hy. apply Ha. by apply in_rev in Hy. }
      by rewrite (Hl l Hl').
    + assert (Hsp : drop_while p (rev l ++ [x]) = drop_while p (rev l) ++ [x]).
      { clear IH. revert Ha. generalize (rev l). induction l0 as [|a l0 IH]; simpl; [done|].
        destruct (p a); simpl; auto. }
      rewrite Hsp, rev_app_distr. simpl. by rewrite Hx.
  - rewrite drop_while_snoc by done. rewrite rev_app_distr. simpl. by rewrite Hx, drop_while_snoc,
      rev_app_distr.
Qed.

Lemma trim_left_right p s :
  trim_left_by p (trim_right_by p s) = trim_right_by p (trim_left_by p s).
Proof.
  unfold trim_left_by, trim_right_by. rewrite !list_of_string_of_list. by rewrite drop_while_rev.
Qed.

Lemma trim_left_by_app p s1 s2 :
  List.forallb p (String.list_ascii_of_string s1) = true ->
  trim_left_by p (s1 +:+ s2) = trim_left_by p s2.
Proof. intros H. unfold trim_left_by. by rewrite list_ascii_append, drop_while_app. Qed.

(** Characters of the cut set around a string do not change what is left. *)
Lemma trim_set_padded cut l s r :
  List.forallb (in_cutset cut) (String.list_ascii_of_string l) = true ->
  List.forallb (in_cutset cut) (String.list_ascii_of_string r) = true ->
  trim_set (l +:+ s +:+ r) cut = trim_set s cut.
Proof.
  intros Hl Hr. unfold trim_set. rewrite trim_left_right, trim_left_by_app by done.
  rewrite <- trim_left_right. by rewrite trim_right_by_app.
Qed.

Lemma smap_app f s1 s2 : smap f (s1 +:+ s2) = smap f s1 +:+ smap f s2.
Proof.
  unfold smap. rewrite list_ascii_append, map_app.
  generalize (map f (String.list_ascii_of_string s1)) as l. induction l as [|c l IH]; [done|].
  simpl. by rewrite IH.
Qed.

Lemma list_ascii_smap f s :
  String.list_ascii_of_string (smap f s) = map f (String.list_ascii_of_string s).
Proof. apply list_of_string_of_list. Qed.

(** ** Numbers *)

Lemma lower_idem c : lower_ascii (lower_ascii c) = lower_ascii c.
Proof. destruct c as [[] [] [] [] [] [] [] []]; reflexivity. Qed.

Lemma to_lower_idem s : to_lower (to_lower s) = to_lower s.
Proof.
  unfold to_lower, smap. rewrite list_of_string_of_list, map_map.
  f_equal. apply map_ext. apply lower_idem.
Qed.

(** ** Fields *)

(** [strings.Fields]: the maximal runs of characters that are not white space. *)
Fixpoint field_chars (acc : list Ascii.ascii) (l : list Ascii.ascii) : list string :=
  let emit rest := match acc with [] => rest | _ => String.string_of_list_ascii (rev acc) :: rest end in
  match l with
  | [] => emit []
  | c :: l' => if is_space c then emit (field_chars [] l') else field_chars (c :: acc) l'
  end.
Definition fields (s : string) : list string := field_chars [] (String.list_ascii_of_string s).

Example fields_ab : fields "  a bc  d" = ["a"; "bc"; "d"]%string.
Proof. reflexivity. Qed.

(** ** Other formats *)

(** [fmt.Sprintf("%012x", n)] for a number that is not negative. *)
Definition hex_digit (d : N) : Ascii.ascii :=
  Ascii.ascii_of_N (if (d <? 10)%N then 48 + d else 87 + d).

Fixpoint hex_chars (fuel : nat) (n : N) (acc : list Ascii.ascii) : list Ascii.ascii :=
  match fuel with
  | O => acc
  | S fuel' =>
      if (n <? 16)%N then hex_digit n :: acc
      else hex_chars fuel' (n / 16) (hex_digit (n mod 16) :: acc)
  end.

Definition hex12 (n : nat) : string :=
  let ds := hex_chars 16 (N.of_nat n) [] in
  String.string_of_list_ascii (replicate (12 - length ds) (Ascii.ascii_of_N 48) ++ ds).

Example hex12_300 : hex12 300 = "00000000012c"%string.
Proof. reflexivity. Qed.

(** [strconv.Quote], the verb [%q], on ASCII text: quotes and backslashes are
    escaped, the usual control characters have their letters, the others are
    written in hexadecimal.  Bytes from 128 on are kept. *)
Definition quote_char (c : Ascii.ascii) : list Ascii.ascii :=
  let n := Ascii.N_of_ascii c in
  let bs := Ascii.ascii_of_N 92 in
  if (n =? 34)%N || (n =? 92)%N then [bs; c]
  else if (n =? 7)%N then [bs; "a"%char] else if (n =? 8)%N then [bs; "b"%char]
  else if (n =? 9)%N then [bs; "t"%char] else if (n =? 10)%N then [bs; "n"%char]
  else if (n =? 11)%N then [bs; "v"%char] else if (n =? 12)%N then [bs; "f"%char]
  else if (n =? 13)%N then [bs; "r"%char]
  else if (n <? 32)%N || (n =? 127)%N
  then [bs; "x"%char; hex_digit (n / 16)%N; hex_digit (n mod 16)%N]
  else [c].

Definition quote (s : string) : string :=
  let dq := Ascii.ascii_of_N 34 in
  String.string_of_list_ascii
    (dq :: concat (map quote_char (String.list_ascii_of_string s)) ++ [dq]).

Example quote_newline :
  quote (String (Ascii.ascii_of_N 10) "a") = String (Ascii.ascii_of_N 34) ("\na" +:+ String (Ascii.ascii_of_N 34) "").
Proof. reflexivity. Qed.

(** [fmt.Sprintf("%d", n)] for a number that is not negative. *)
Definition itoa (n : nat) : string := pretty n.

(** One character replaced by another, everywhere. *)
Definition replace_char (a b : Ascii.ascii) (s : string) : string :=
  smap (fun c => if bool_decide (c = a) then b else c) s.

(** ** Ids and tenants, as the stores make and compare them *)

(** [fmt.Sprintf("%s-%06d", prefix, n)]. *)
Definition numbered (prefix : string) (n : nat) : string :=
  let digits := itoa n in
  (prefix ++ "-" ++ String.string_of_list_ascii
     (replicate (6 - String.length digits) (Ascii.ascii_of_N 48)) ++ digits)%string.

Example numbered_7 : numbered "task" 7 = "task-000007"%string.
Proof. vm_compute. reflexivity. Qed.
Example numbered_big : numbered "rep" 1234567 = "rep-1234567"%string.
Proof. vm_compute. reflexivity. Qed.

(** [pgkv.NewID(prefix)]. *)
Definition new_id (prefix uid : string) : string := (prefix ++ "-" ++ uid)%string.

(** No tenant asked for, or this one: [tenantID] is empty or the tenant of [x]. *)
Definition for_tenant {A} (tenant : A -> string) (tenantID : string) (x : A) : bool :=
  is_empty tenantID || bool_decide (tenant x = tenantID).

Lemma append_cancel p s1 s2 : (p ++ s1 = p ++ s2)%string -> s1 = s2.
Proof. induction p as [|c p IH]; simpl; intros H; [done|]. injection H. apply IH. Qed.

Lemma new_id_inj p u u' : new_id p u = new_id p u' -> u = u'.
Proof. unfold new_id. intros H. by do 2 apply append_cancel in H. Qed.

Lemma new_id_ne p u u' : u' <> u -> new_id p u <> new_id p u'.
Proof. intros Hne E. by apply new_id_inj in E. Qed.

(** ** Prefixes and suffixes *)

(** [strings.TrimPrefix] and [strings.TrimSuffix]. *)
Definition trim_prefix (s p : string) : string :=
  if has_prefix s p
  then String.string_of_list_ascii (drop (String.length p) (String.list_ascii_of_string s)) else s.

Definition trim_suffix (s p : string) : string :=
  if has_suffix s p
  then String.string_of_list_ascii (take (String.length s - String.length p) (String.list_ascii_of_string s))
  else s.

Lemma append_nil s : (s ++ "" = s)%string.
Proof. induction s as [|c s IH]; [done|]. change (String c (s ++ "") = String c s)%string. by rewrite IH. Qed.

Lemma append_assoc p s q : (p ++ s ++ q = (p ++ s) ++ q)%string.
Proof. induction p as [|c p IH]; [done|]. exact (f_equal (String c) IH). Qed.

Lemma length_list_ascii s : length (String.list_ascii_of_string s) = String.length s.
Proof. induction s; simpl; congruence. Qed.

Lemma has_prefix_app p s : has_prefix (p ++ s)%string p = true.
Proof. unfold has_prefix. induction p as [|c p IH]; simpl; [by destruct s|]. by destruct (Ascii.ascii_dec c c). Qed.

Lemma has_prefix_inv p s : has_prefix s p = true -> exists t, s = (p ++ t)%string.
Proof.
  unfold has_prefix. revert s. induction p as [|c p IH]; intros s; [by exists s|].
  destruct s as [|d s]; simpl; [done|]. destruct (Ascii.ascii_dec c d); [|done]. intros (t & ->)%IH.
  exists t. by subst.
Qed.

Lemma has_suffix_app s q : has_suffix (s ++ q)%string q = true.
Proof.
  unfold has_suffix. rewrite list_ascii_append, rev_app_distr.
  assert (E : forall l1 l2, String.string_of_list_ascii (l1 ++ l2)
    = (String.string_of_list_ascii l1 ++ String.string_of_list_ascii l2)%string).
  { induction l1 as [|c l1 IH]; intros l2; simpl; [done|by rewrite IH]. }
  rewrite E. apply has_prefix_app.
Qed.

Lemma trim_prefix_app p s : trim_prefix (p ++ s) p = s.
Proof.
  unfold trim_prefix. rewrite has_prefix_app, list_ascii_append, <- length_list_ascii, drop_app_length.
  apply string_of_list_of_string.
Qed.

Lemma trim_suffix_app s q : trim_suffix (s ++ q) q = s.
Proof.
  unfold trim_suffix. rewrite has_suffix_app. rewrite list_ascii_append.
  replace (String.length (s ++ q) - String.length q)%nat with (length (String.list_ascii_of_string s)).
  - rewrite take_app_length. apply string_of_list_of_string.
  - rewrite <- !length_list_ascii, list_ascii_append, length_app. lia.
Qed.

(** ** Order *)

Lemma string_nlt_trans a b c :
  String.compare b a <> Lt -> String.compare c b <> Lt -> String.compare c a <> Lt.
Proof.
  revert b c. induction a as [|x a IH]; intros b c; destruct b as [|y b], c as [|z c]; simpl; try done.
  unfold Ascii.compare.
  destruct (N.compare_spec (Ascii.N_of_ascii y) (Ascii.N_of_ascii x)) as [E1|E1|E1]; try done;
    destruct (N.compare_spec (Ascii.N_of_ascii z) (Ascii.N_of_ascii y)) as [E2|E2|E2]; try done;
    destruct (N.compare_spec (Ascii.N_of_ascii z) (Ascii.N_of_ascii x)) as [E3|E3|E3]; try done; try lia.
  apply IH.
Qed.

(** Go's [<] on strings, on a key of the records. *)
#[export] Instance string_key_order {A} (key : A -> string) :
  StrictWeak (fun a b => String.ltb (key a) (key b)).
Proof.
  split.
  - intros a b. unfold String.ltb. rewrite (String.compare_antisym (key b)).
    by destruct (String.compare (key a) (key b)).
  - intros a b c. unfold String.ltb. intros H1 H2. destruct (String.compare (key c) (key a)) eqn:E; try done.
    exfalso. revert E. apply (string_nlt_trans (key a) (key b) (key c)).
    + by destruct (String.compare (key b) (key a)).
    + by destruct (String.compare (key c) (key b)).
Qed.

Lemma string_compare_refl s : String.compare s s = Eq.
Proof. pose proof (String.compare_antisym s s) as H. by destruct (String.compare s s). Qed.

Lemma string_lt_total s t : String.ltb s t = false -> s = t \/ String.ltb t s = true.
Proof.
  unfold String.ltb. rewrite (String.compare_antisym t). destruct (String.compare s t) eqn:E; [|done|by right].
  intros _. left. by apply String.compare_eq_iff.
Qed.

(** Sorting records by a key that no two of them share. *)
Lemma sort_by_key_strict {A} (key : A -> string) (l : list A) :
  NoDup (key <$> l) ->
  StronglySorted (fun a b => String.ltb (key a) (key b) = true)
    (sort_by (fun a b => String.ltb (key a) (key b)) l).
Proof.
  intros Hn. set (less := fun a b => String.ltb (key a) (key b)). pose proof (sort_by_sorted less l) as Hs.
  rewrite <- (sort_by_perm less l) in Hn. induction Hs as [|x l' Hs IH Hx]; [constructor|].
  apply NoDup_cons in Hn as [Hx' Hn]. constructor; [by apply IH|].
  rewrite Forall_forall in Hx |- *. intros y Hy. specialize (Hx y Hy).
  destruct (string_lt_total _ _ Hx) as [E|E]; [|done]. exfalso. apply Hx'. rewrite <- E.
  by apply list_elem_of_fmap_2.
Qed.

(** ** Numbered ids are different *)

Lemma pretty_N_head x s : (0 < x)%N -> exists c s', pretty_N_go x s = String c s' /\ c <> Ascii.ascii_of_N 48.
Proof.
  revert s. induction (N.lt_wf_0 x) as [x _ IH]; intros s Hx.
  rewrite pretty_N_go_step by done. destruct (decide (x < 10)%N) as [Hs|Hb].
  - rewrite N.div_small, pretty_N_go_0 by done. rewrite N.mod_small by done.
    eexists _, _. split; [done|].
    assert (x = 1 \/ x = 2 \/ x = 3 \/ x = 4 \/ x = 5 \/ x = 6 \/ x = 7 \/ x = 8 \/ x = 9)%N
      as Hc by lia.
    by destruct Hc as [->|[->|[->|[->|[->|[->|[->|[->| ->]]]]]]]].
  - apply IH; [by apply N.div_lt|]. apply N.div_str_pos. lia.
Qed.

(** Leading zeros do not identify different numbers. *)
Lemma pretty_nat_head (n : nat) s : pretty n = String (Ascii.ascii_of_N 48) s -> s = "" /\ n = 0%nat.
Proof.
  unfold pretty, pretty_nat, pretty, pretty_N. case_decide as Hn.
  - intros H. injection H as <-. split; [done|]. lia.
  - intros H. destruct (pretty_N_head (N.of_nat n) "") as (c & s' & E & Hc); [lia|].
    rewrite E in H. by injection H as -> ->.
Qed.

Definition zeros (k : nat) : string :=
  String.string_of_list_ascii (replicate k (Ascii.ascii_of_N 48)).

Lemma pretty_nat_ne (n : nat) : pretty n <> "".
Proof.
  unfold pretty, pretty_nat, pretty, pretty_N. case_decide; [done|].
  destruct (pretty_N_head (N.of_nat n) "") as (c & s' & -> & _); [lia|done].
Qed.

Lemma zeros_inj i j (n m : nat) : (zeros i ++ pretty n = zeros j ++ pretty m)%string -> n = m.
Proof.
  assert (Hz : forall k r (a b : nat), pretty a = (zeros (S k) ++ r)%string -> r = pretty b -> False).
  { intros k r a b H ->. change (pretty a = String (Ascii.ascii_of_N 48) (zeros k ++ pretty b)) in H.
    apply pretty_nat_head in H as [H _]. destruct k; [by apply pretty_nat_ne in H|done]. }
  revert j. induction i as [|i IH]; intros [|j] H.
  - apply (inj (pretty (A:=nat))). exact H.
  - exfalso. by eapply (Hz j _ n m H).
  - exfalso. symmetry in H. by eapply (Hz i _ m n H).
  - injection H as H. exact (IH _ H).
Qed.

Lemma numbered_inj p n m : numbered p n = numbered p m -> n = m.
Proof.
  unfold numbered. intros H. apply append_cancel in H. simpl in H. injection H as H.
  by apply zeros_inj in H.
Qed.

Lemma numbered_ne p n : p <> "" -> numbered p n <> "".
Proof. by destruct p. Qed.

(** ** Decimal numbers read back *)

Lemma digit_value_pretty x : (x < 10)%N -> digit_value (pretty_N_char x) = Some (Z.of_N x).
Proof.
  intros Hx. assert (x ∈ [0; 1; 2; 3; 4; 5; 6; 7; 8; 9]%N) as Hin.
  { rewrite !elem_of_cons. lia. }
  rewrite !elem_of_cons, elem_of_nil in Hin.
  repeat (destruct Hin as [->|Hin]; [reflexivity|]). done.
Qed.

(** Reading the digits of [x] and then [s] is reading [s] after [x]. *)
Lemma digits_value_pretty x : forall s,
  digits_value 0 (String.list_ascii_of_string (pretty_N_go x s)) =
  digits_value (Z.of_N x) (String.list_ascii_of_string s).
Proof.
  induction (N.lt_wf_0 x) as [x _ IH]. intros s. destruct (decide (x = 0%N)) as [->|Hx]; [by rewrite pretty_N_go_0|].
  rewrite pretty_N_go_step by lia. rewrite IH by (apply N.div_lt; lia). simpl.
  rewrite digit_value_pretty by (apply N.mod_lt; lia). f_equal.
  pose proof (N.div_mod x 10). lia.
Qed.

Lemma atoi_digits l z :
  digits_value 0 l = Some z -> l <> [] -> - 2^63 <= z < 2^63 -> atoi (String.string_of_list_ascii l) = Some z.
Proof.
  intros E Hne Hz. unfold atoi. rewrite list_of_string_of_list. destruct l as [|c l]; [done|].
  assert (Hd : digit_value c <> None) by (intros Hd; simpl in E; by rewrite Hd in E).
  unfold digit_value in Hd. destruct (48 <=? Ascii.N_of_ascii c)%N eqn:Hc; [|done]. apply N.leb_le in Hc.
  rewrite (proj2 (N.eqb_neq _ 45)), (proj2 (N.eqb_neq _ 43)) by lia. rewrite E.
  by rewrite (proj2 (Z.leb_le _ _)), (proj2 (Z.ltb_lt _ _)) by lia.
Qed.

Lemma itoa_value n : digits_value 0 (String.list_ascii_of_string (itoa n)) = Some (Z.of_nat n).
Proof.
  unfold itoa. destruct n as [|n]; [done|]. unfold pretty, pretty_nat, pretty, pretty_N.
  rewrite decide_False by lia. by rewrite digits_value_pretty.
Qed.

Lemma itoa_digits n : String.list_ascii_of_string (itoa n) <> [].
Proof. intros El. pose proof (itoa_value n) as Ev. rewrite El in Ev. simpl in Ev. destruct n; [done|injection Ev; lia]. Qed.

Lemma atoi_itoa n : Z.of_nat n < 2^63 -> atoi (itoa n) = Some (Z.of_nat n).
Proof.
  intros Hn. rewrite <- (string_of_list_of_string (itoa n)).
  apply atoi_digits; [apply itoa_value|apply itoa_digits|lia].
Qed.

(** [strconv.Itoa], and the decimal numbers of an [int] read back. *)
Definition fmt_z (z : Z) : string := if z <? 0 then ("-" ++ itoa (Z.to_nat (- z)))%string else itoa (Z.to_nat z).

Lemma atoi_fmt_z z : in_int64 z -> atoi (fmt_z z) = Some z.
Proof.
  intros Hz. unfold in_int64 in Hz. unfold fmt_z. destruct (Z.ltb_spec z 0).
  - unfold atoi. change (String.list_ascii_of_string ("-" +:+ itoa (Z.to_nat (- z))))
      with (Ascii.ascii_of_N 45 :: String.list_ascii_of_string (itoa (Z.to_nat (- z)))).
    pose proof (itoa_value (Z.to_nat (- z))) as Ev. pose proof (itoa_digits (Z.to_nat (- z))) as Hd.
    destruct (String.list_ascii_of_string (itoa (Z.to_nat (- z)))) as [|c l]; [done|].
    rewrite Ev. cbn [fmap option_fmap option_map]. rewrite Z2Nat.id, Z.opp_involutive by lia.
    change (Ascii.N_of_ascii (Ascii.ascii_of_N 45) =? 45)%N with true. cbn iota.
    by rewrite (proj2 (Z.leb_le _ _)), (proj2 (Z.ltb_lt _ _)) by lia.
  - rewrite atoi_itoa, Z2Nat.id by lia. done.
Qed.

Lemma pretty_N_go_length k : forall x s, (x < 10 ^ N.of_nat k)%N -> (String.length (pretty_N_go x s) <= k + String.length s)%nat.
Proof.
  induction k as [|k IH]; intros x s Hx; (destruct (decide (x = 0%N)) as [->|Hne]; [rewrite pretty_N_go_0; lia|]); [cbn in Hx; lia|].
  rewrite pretty_N_go_step by lia. rewrite Nat2N.inj_succ, N.pow_succ_r' in Hx.
  etrans; [apply IH; by apply N.Div0.div_lt_upper_bound|]. simpl. lia.
Qed.

Lemma fmt_z_length z : in_int64 z -> (String.length (fmt_z z) <= 20)%nat.
Proof.
  assert (Hi : forall n, Z.of_nat n <= 2^63 -> (String.length (itoa n) <= 19)%nat).
  { intros n Hn. unfold itoa, pretty, pretty_nat, pretty, pretty_N. case_decide; [simpl; lia|].
    etrans; [apply (pretty_N_go_length 19)|simpl; lia]. change (N.of_nat n < 10000000000000000000)%N. lia. }
  intros Hz. unfold in_int64 in Hz. unfold fmt_z. destruct (Z.ltb_spec z 0); [|etrans; [apply Hi; lia|lia]].
  change (S (String.length (itoa (Z.to_nat (- z)))) <= 20)%nat. pose proof (Hi (Z.to_nat (- z))). lia.
Qed.

(** ** Lines and parts of a text *)

Definition nl : Ascii.ascii := Ascii.ascii_of_N 10.
Definition cr : Ascii.ascii := Ascii.ascii_of_N 13.
Definition NL : string := String nl "".
Definition CRLF : string := String cr NL.

(** [bufio.Reader.ReadString('\n')]: the line with its end, and the rest;
    [None] when the input ends before. *)
Fixpoint read_string (s : string) : option (string * string) :=
  match s with
  | EmptyString => None
  | String c s =>
      if bool_decide (c = nl) then Some (NL, s)
      else match read_string s with
           | Some (line, rest) => Some (String c line, rest)
           | None => None
           end
  end.

(** [strings.Cut] at a character. *)
Fixpoint cut (sep : Ascii.ascii) (s : string) : option (string * string) :=
  match s with
  | EmptyString => None
  | String c s =>
      if bool_decide (c = sep) then Some (""%string, s)
      else match cut sep s with
           | Some (before, after) => Some (String c before, after)
           | None => None
           end
  end.

(** [strings.Index]. *)
Fixpoint index_of (sub s : string) : option nat :=
  if has_prefix s sub then Some 0%nat
  else match s with
       | EmptyString => None
       | String _ s => S <$> index_of sub s
       end.

Definition drop_string (n : nat) (s : string) : string := String.substring n (String.length s - n) s.

(** A character that does not occur. *)
Definition lacks (c : Ascii.ascii) (s : string) : Prop := c ∉ String.list_ascii_of_string s.

#[export] Instance lacks_dec c s : Decision (lacks c s).
Proof. unfold lacks. apply _. Defined.

Lemma length_string_app s t : String.length (s ++ t) = (String.length s + String.length t)%nat.
Proof. by rewrite <- !length_list_ascii, list_ascii_append, length_app. Qed.

Lemma lacks_app c s t : lacks c (s ++ t) <-> lacks c s /\ lacks c t.
Proof. unfold lacks. rewrite list_ascii_append. set_solver. Qed.

Lemma lacks_cons c d s : lacks c (String d s) <-> c <> d /\ lacks c s.
Proof. unfold lacks. simpl. set_solver. Qed.

Lemma read_string_line line rest :
  lacks nl line -> read_string (line ++ NL ++ rest) = Some ((line ++ NL)%string, rest).
Proof.
  induction line as [|c line IH]; [done|]. intros [Hc Hl]%lacks_cons. simpl.
  rewrite bool_decide_false by done. change (String nl rest) with (NL ++ rest)%string. by rewrite IH.
Qed.

Lemma substring_prefix s t : String.substring 0 (String.length s) (s ++ t) = s.
Proof.
  induction s as [|c s IH]; [by destruct t|].
  change (String c (String.substring 0 (String.length s) (s ++ t)) = String c s). by rewrite IH.
Qed.

Lemma substring_all s n : n = String.length s -> String.substring 0 n s = s.
Proof. intros ->. induction s as [|c s IH]; [done|]. simpl. by rewrite IH. Qed.

Lemma drop_string_app s t n : n = String.length s -> drop_string n (s ++ t) = t.
Proof.
  intros ->. unfold drop_string. rewrite length_string_app.
  replace (String.length s + String.length t - String.length s)%nat with (String.length t) by lia.
  induction s as [|c s IH]; [by apply substring_all|exact IH].
Qed.

(** A text without white space. *)
Definition solid (l : list Ascii.ascii) : Prop := Forall (fun c => is_space c = false /\ c <> nl) l.

Lemma itoa_solid n : solid (String.list_ascii_of_string (itoa n)).
Proof.
  assert (HF : forall l acc z, digits_value acc l = Some z -> solid l).
  { induction l as [|c l IH]; intros acc z; simpl; [constructor|]. destruct (digit_value c) eqn:Hd; [|done].
    intros H%IH. constructor; [|done]. unfold digit_value in Hd.
    destruct c as [[] [] [] [] [] [] [] []]; vm_compute in Hd; try discriminate; done. }
  exact (HF _ 0 _ (itoa_value n)).
Qed.

Lemma solid_drop l : solid l -> drop_while is_space l = l.
Proof. intros [|c l' [Hc _] _]; [done|]. simpl. by rewrite Hc. Qed.

Lemma fmt_z_solid z : solid (String.list_ascii_of_string (fmt_z z)).
Proof. unfold fmt_z. destruct (z <? 0); [constructor; [done|]|]; apply itoa_solid. Qed.

(** Trimming a solid text and a line of it. *)
Lemma trim_solid s : solid (String.list_ascii_of_string s) -> trim_space s = s.
Proof.
  intros Hs. unfold trim_space, trim_left_by, trim_right_by. rewrite list_of_string_of_list.
  rewrite (solid_drop (rev (String.list_ascii_of_string s))) by exact (List.Forall_rev Hs). rewrite rev_involutive, solid_drop by done. apply string_of_list_of_string.
Qed.

Lemma trim_crlf s : drop_while is_space (rev (String.list_ascii_of_string s)) = rev (String.list_ascii_of_string s) ->
  drop_while is_space (String.list_ascii_of_string s) = String.list_ascii_of_string s -> trim_space (s ++ CRLF) = s.
Proof.
  intros H1 H2. unfold trim_space, trim_left_by, trim_right_by. rewrite list_of_string_of_list, list_ascii_append, rev_app_distr.
  cbn [CRLF NL String.list_ascii_of_string rev app]. simpl drop_while at 1.
  rewrite H1, rev_involutive, H2. apply string_of_list_of_string.
Qed.

Lemma trim_line s : solid (String.list_ascii_of_string s) -> trim_space (s ++ CRLF) = s.
Proof. intros Hs. apply trim_crlf; apply solid_drop; [exact (List.Forall_rev Hs)|done]. Qed.

Lemma digits_no_space n : lacks nl (itoa n) /\ trim_space (itoa n) = itoa n.
Proof.
  pose proof (itoa_solid n) as Hs. split; [|by apply trim_solid].
  intros Hin. by destruct (proj1 (Forall_forall _ _) Hs nl Hin) as [_ Hx].
Qed.

(** * The library [phonenumbers], as lead-identity and lead-import call it *)

(** [phonenumbers.Parse], [IsValidNumber] and [Format(_, E164)]. *)
Record PhoneLib := mkPhones {
  ph_num : Type;
  ph_parse : string -> string -> string + ph_num;
  ph_valid : ph_num -> bool;
  ph_e164 : ph_num -> string
}.

(** A library that takes the digits of its input for the number. *)
Definition is_digit (c : Ascii.ascii) : bool :=
  match digit_value c with Some _ => true | None => false end.

Definition digit_lib : PhoneLib :=
  mkPhones string (fun raw _ => inr raw) (fun n => (4 <? Z.of_nat (String.length n))%Z)
    (fun n => String.string_of_list_ascii (List.filter is_digit (String.list_ascii_of_string n))).
