(* ===== verification/Regexp.v ===== *)
(** * Regular expressions

    What the services use of Go's [regexp]: compiling a pattern and searching a
    text for a match.  [parse] covers literals, [.], the classes [\s], [\d] and
    [\w], the anchors [^], [$] and [\b], groups, alternation, the repetitions
    [*], [+] and [?], and the flag [(?i)] at the start of the pattern; it gives
    [None] on anything else.  Texts and patterns are ASCII. *)

From S2P Require Import Prelude.

Local Open Scope nat_scope.

Inductive class := CLit (c : Ascii.ascii) | CFold (c : Ascii.ascii) | CAny | CSpace | CDigit | CWord.

Inductive re :=
| Eps
| Cls (c : class)
| WordB
| Bol
| Eol
| Cat (r1 r2 : re)
| Alt (r1 r2 : re)
| Star (r : re).

Definition code (c : Ascii.ascii) : N := Ascii.N_of_ascii c.

Definition between (a b : N) (c : Ascii.ascii) : bool :=
  ((a <=? code c) && (code c <=? b))%N.

Definition is_digit (c : Ascii.ascii) : bool := between 48 57 c.

(** ASCII word characters. *)
Definition is_word (c : Ascii.ascii) : bool :=
  is_digit c || between 65 90 c || between 97 122 c || (code c =? 95)%N.

(** [\s] is [[\t\n\f\r ]]. *)
Definition is_re_space (c : Ascii.ascii) : bool :=
  (code c =? 32)%N || (code c =? 9)%N || (code c =? 10)%N || (code c =? 12)%N || (code c =? 13)%N.

Definition in_class (k : class) (c : Ascii.ascii) : bool :=
  match k with
  | CLit x => bool_decide (x = c)
  | CFold x => bool_decide (lower_ascii x = lower_ascii c)
  | CAny => negb (code c =? 10)%N
  | CSpace => is_re_space c
  | CDigit => is_digit c
  | CWord => is_word c
  end.

Definition word_opt (c : option Ascii.ascii) : bool :=
  match c with Some c => is_word c | None => false end.

Definition at_boundary (prev : option Ascii.ascii) (l : list Ascii.ascii) : bool :=
  xorb (word_opt prev) (word_opt (head l)).

(** ** Matching

    [prev] is the character before the current position. *)

Fixpoint run (r : re) (prev : option Ascii.ascii) (l : list Ascii.ascii)
    (k : option Ascii.ascii -> list Ascii.ascii -> bool) {struct r} : bool :=
  match r with
  | Eps => k prev l
  | Cls c => match l with x :: l' => if in_class c x then k (Some x) l' else false | [] => false end
  | WordB => if at_boundary prev l then k prev l else false
  | Bol => match prev with None => k prev l | Some _ => false end
  | Eol => match l with [] => k prev l | _ => false end
  | Cat r1 r2 => run r1 prev l (fun p' l' => run r2 p' l' k)
  | Alt r1 r2 => if run r1 prev l k then true else run r2 prev l k
  | Star r1 =>
      (fix star (n : nat) prev l :=
         if k prev l then true else
         match n with
         | O => false
         | S n' => run r1 prev l (fun p' l' => if length l' <? length l then star n' p' l' else false)
         end) (length l) prev l
  end.

Fixpoint search (r : re) (prev : option Ascii.ascii) (l : list Ascii.ascii) : bool :=
  if run r prev l (fun _ _ => true) then true
  else match l with [] => false | c :: l' => search r (Some c) l' end.

(** [re.MatchString(text)]. *)
Definition MatchString (r : re) (text : string) : bool :=
  search r None (String.list_ascii_of_string text).

(** ** Compiling *)

Definition escape (c : Ascii.ascii) : option re :=
  if decide (code c = 98%N) then Some WordB
  else if decide (code c = 115%N) then Some (Cls CSpace)
  else if decide (code c = 100%N) then Some (Cls CDigit)
  else if decide (code c = 119%N) then Some (Cls CWord)
  else if is_word c then None
  else Some (Cls (CLit c)).

Definition quantify (r : re) (l : list Ascii.ascii) : re * list Ascii.ascii :=
  let lazy l := match l with c :: l' => if decide (code c = 63%N) then l' else l | [] => l end in
  match l with
  | c :: l' =>
      if decide (code c = 42%N) then (Star r, lazy l')
      else if decide (code c = 43%N) then (Cat r (Star r), lazy l')
      else if decide (code c = 63%N) then (Alt r Eps, lazy l')
      else (r, l)
  | [] => (r, l)
  end.

Definition or_alt (alts : option re) (cur : re) : re :=
  match alts with Some a => Alt a cur | None => cur end.

(** One alternation, up to a closing parenthesis or the end. *)
Fixpoint parse_alt (n : nat) (fold : bool) (alts : option re) (cur : re) (l : list Ascii.ascii)
    : option (re * list Ascii.ascii) :=
  match n with
  | O => None
  | S n' =>
      let atom r l := let '(r', l') := quantify r l in parse_alt n' fold alts (Cat cur r') l' in
      match l with
      | [] => Some (or_alt alts cur, [])
      | c :: l' =>
          if decide (code c = 41%N) then Some (or_alt alts cur, l)
          else if decide (code c = 124%N) then parse_alt n' fold (Some (or_alt alts cur)) Eps l'
          else if decide (code c = 40%N) then
            match parse_alt n' fold None Eps l' with
            | Some (r, c' :: l'') => if decide (code c' = 41%N) then atom r l'' else None
            | _ => None
            end
          else if decide (code c = 92%N) then
            match l' with
            | c' :: l'' => match escape c' with Some r => atom r l'' | None => None end
            | [] => None
            end
          else if decide (code c = 46%N) then atom (Cls CAny) l'
          else if decide (code c = 94%N) then atom Bol l'
          else if decide (code c = 36%N) then atom Eol l'
          else if bool_decide (code c ∈ [42; 43; 63; 91; 93; 123; 125]%N) then None
          else atom (Cls (if fold then CFold c else CLit c)) l'
      end
  end.

Definition parse_all (fold : bool) (l : list Ascii.ascii) : option re :=
  match parse_alt (S (length l)) fold None Eps l with
  | Some (r, []) => Some r
  | _ => None
  end.

Definition parse (pattern : string) : option re :=
  if has_prefix pattern "(?i)"
  then parse_all true (String.list_ascii_of_string (String.substring 4 (String.length pattern - 4)
         pattern))
  else parse_all false (String.list_ascii_of_string pattern).

(** ** What a match is

    [mt r p l p' l']: [r] matches the characters between the position [(p, l)]
    and the position [(p', l')]. *)

Inductive mt : re -> option Ascii.ascii -> list Ascii.ascii ->
    option Ascii.ascii -> list Ascii.ascii -> Prop :=
| mt_eps p l : mt Eps p l p l
| mt_cls c p x l : in_class c x = true -> mt (Cls c) p (x :: l) (Some x) l
| mt_wordb p l : at_boundary p l = true -> mt WordB p l p l
| mt_bol l : mt Bol None l None l
| mt_eol p : mt Eol p [] p []
| mt_cat r1 r2 p l p1 l1 p2 l2 :
    mt r1 p l p1 l1 -> mt r2 p1 l1 p2 l2 -> mt (Cat r1 r2) p l p2 l2
| mt_alt_l r1 r2 p l p1 l1 : mt r1 p l p1 l1 -> mt (Alt r1 r2) p l p1 l1
| mt_alt_r r1 r2 p l p1 l1 : mt r2 p l p1 l1 -> mt (Alt r1 r2) p l p1 l1
| mt_star_nil r p l : mt (Star r) p l p l
| mt_star_cons r p l p1 l1 p2 l2 :
    mt r p l p1 l1 -> mt (Star r) p1 l1 p2 l2 -> mt (Star r) p l p2 l2.

(** A match moves right, or stays where it is. *)
Lemma mt_moves r p l p' l' :
  mt r p l p' l' -> length l' < length l \/ (p' = p /\ l' = l).
Proof.
  induction 1; simpl; try (right; done); try (left; lia); try done.
  - destruct IHmt1 as [|[-> ->]], IHmt2 as [|[-> ->]]; auto; left; lia.
  - destruct IHmt1 as [|[-> ->]], IHmt2 as [|[-> ->]]; auto; left; lia.
Qed.

Definition star_run (r : re) (k : option Ascii.ascii -> list Ascii.ascii -> bool) :=
  fix star (n : nat) (prev : option Ascii.ascii) (l : list Ascii.ascii) : bool :=
    if k prev l then true else
    match n with
    | O => false
    | S n' => run r prev l (fun p' l' => if length l' <? length l then star n' p' l' else false)
    end.

Lemma mt_star_inv r p l p' l' :
  mt (Star r) p l p' l' ->
  (p' = p /\ l' = l) \/
  exists p1 l1, mt r p l p1 l1 /\ length l1 < length l /\ mt (Star r) p1 l1 p' l'.
Proof.
  intros H. remember (Star r) as s eqn:E. induction H; try discriminate; simplify_eq.
  - by left.
  - destruct (mt_moves _ _ _ _ _ H) as [Hlt|[-> ->]].
    + right. by exists p1, l1.
    + by apply IHmt2.
Qed.

Lemma if_or (a b : bool) : (if a then true else b) = a || b.
Proof. done. Qed.
Lemma if_and (a b : bool) : (if a then b else false) = a && b.
Proof. done. Qed.

(** The matcher explores exactly the matches. *)
Lemma run_spec r p l k :
  run r p l k = true <-> exists p' l', mt r p l p' l' /\ k p' l' = true.
Proof.
  revert p l k. induction r as [|c| | | |r1 IH1 r2 IH2|r1 IH1 r2 IH2|r IH]; intros p l k; simpl.
  - split; [intros; by eexists _, _; split; [constructor|]|].
    intros (p' & l' & H & Hk). by inversion H; subst.
  - destruct l as [|x l]; [split; [done|intros (p' & l' & H & _); by inversion H]|].
    rewrite if_and, andb_true_iff. split.
    + intros [Hc Hk]. eexists _, _. split; [by constructor|done].
    + intros (p' & l' & H & Hk). by inversion H; subst.
  - rewrite if_and, andb_true_iff. split.
    + intros [Hc Hk]. eexists _, _. split; [by constructor|done].
    + intros (p' & l' & H & Hk). by inversion H; subst.
  - destruct p as [x|]; split.
    + done.
    + intros (p' & l' & H & Hk). by inversion H.
    + intros Hk. eexists _, _. split; [constructor|done].
    + intros (p' & l' & H & Hk). by inversion H; subst.
  - destruct l as [|x l]; split.
    + intros Hk. eexists _, _. split; [constructor|done].
    + intros (p' & l' & H & Hk). by inversion H; subst.
    + done.
    + intros (p' & l' & H & Hk). by inversion H.
  - rewrite IH1. split.
    + intros (p1 & l1 & H1 & (p2 & l2 & H2 & Hk)%IH2). exists p2, l2. split; [by econstructor|done].
    + intros (p' & l' & H & Hk). inversion H; subst. eexists _, _. split; [done|].
      apply IH2. by eexists _, _.
  - rewrite if_or, orb_true_iff, IH1, IH2. split.
    + intros [(p' & l' & H & Hk)|(p' & l' & H & Hk)]; exists p', l'; split; try done;
        [by apply mt_alt_l|by apply mt_alt_r].
    + intros (p' & l' & H & Hk). inversion H; subst; [left|right]; by eexists _, _.
  - change (star_run r k (length l) p l = true <-> exists p' l', mt (Star r) p l p' l' /\ k p' l' = true).
    assert (Hn : length l <= length l) by lia. revert Hn. generalize (length l) at 2 3 as n.
    intros n. revert p l. induction n as [|n IHn]; intros p l Hn; simpl; rewrite if_or, orb_true_iff.
    + split; [intros [Hk|]; [|done]; eexists _, _; split; [constructor|done]|].
      intros (p' & l' & [[-> ->]|(p1 & l1 & _ & Hlt & _)]%mt_star_inv & Hk); [by left|lia].
    + rewrite IH. split.
      * intros [Hk|(p1 & l1 & H1 & Hk)]; [eexists _, _; split; [constructor|done]|].
        rewrite if_and in Hk. apply andb_true_iff in Hk as [Hlt Hs]. apply Nat.ltb_lt in Hlt.
        apply IHn in Hs as (p' & l' & H2 & Hk); [|lia]. exists p', l'. split; [by econstructor|done].
      * intros (p' & l' & [[-> ->]|(p1 & l1 & H1 & Hlt & H2)]%mt_star_inv & Hk); [by left|right].
        exists p1, l1. split; [done|]. rewrite if_and. apply andb_true_iff. split; [by apply Nat.ltb_lt|].
        apply IHn; [lia|]. by exists p', l'.
Qed.

(** The character before a suffix of the text. *)
Fixpoint last_of (p : option Ascii.ascii) (l : list Ascii.ascii) : option Ascii.ascii :=
  match l with [] => p | c :: l' => last_of (Some c) l' end.

Lemma search_spec r p l :
  search r p l = true <->
  exists a b p' l', l = a ++ b /\ mt r (last_of p a) b p' l'.
Proof.
  revert p. induction l as [|c l IH]; intros p; simpl; rewrite if_or, orb_true_iff, run_spec.
  - split.
    + intros [(p' & l' & H & _)|]; [|done]. by exists [], [], p', l'.
    + intros (a & b & p' & l' & E & H). symmetry in E. apply app_nil in E as [-> ->].
      left. by exists p', l'.
  - rewrite IH. split.
    + intros [(p' & l' & H & _)|(a & b & p' & l' & -> & H)].
      * by exists [], (c :: l), p', l'.
      * by exists (c :: a), b, p', l'.
    + intros ([|x a] & b & p' & l' & E & H); simpl in E; simplify_eq.
      * left. by exists p', l'.
      * right. by exists a, b, p', l'.
Qed.
