(* ===== verification/DialQueue.v ===== *)
(** * scheduler/internal/dispatcher: the durable dial queue

    [DialRow], the [DialQueueStore] interface of dispatcher.go and its durable
    implementation over pgkv (store_pgkv.go). *)

From S2P Require Import Prelude Float64 Kv.

Open Scope Z_scope.

(** A JSON value held in a [map[string]any]. *)
Inductive any :=
| ANil
| ABool (b : bool)
| AFloat (f : float64)
| AString (s : string)
| AList (l : list any)
| AMap (m : list (string * any)).

Abbreviation ctxmap := (gmap string any).

(** [DialRow]: one entry of the dispatcher's dial queue.  A nil [CampaignCtx]
    is [None]. *)
Record DialRow := mkRow {
  row_ID : string;
  row_CampaignID : string;
  row_TenantID : string;
  row_LeadID : string;
  row_Phone : string;
  row_ProjectID : string;
  row_KbVersionID : string;
  row_Attempts : Z;
  row_Status : string;
  row_NextAttemptAt : Z;
  row_Disposition : string;
  row_ProviderCallID : string;
  row_CampaignCtx : option ctxmap
}.

(** Field updates, [r.F = v]. *)
Definition set_ID v '(mkRow _ b c d e f g h i j k l m) := mkRow v b c d e f g h i j k l m.
Definition set_Attempts v '(mkRow a b c d e f g _ i j k l m) := mkRow a b c d e f g v i j k l m.
Definition set_Status v '(mkRow a b c d e f g h _ j k l m) := mkRow a b c d e f g h v j k l m.
Definition set_NextAttemptAt v '(mkRow a b c d e f g h i _ k l m) :=
  mkRow a b c d e f g h i v k l m.
Definition set_Disposition v '(mkRow a b c d e f g h i j _ l m) :=
  mkRow a b c d e f g h i j v l m.
Definition set_ProviderCallID v '(mkRow a b c d e f g h i j k _ m) :=
  mkRow a b c d e f g h i j k v m.
Definition set_CampaignCtx v '(mkRow a b c d e f g h i j k l _) :=
  mkRow a b c d e f g h i j k l v.

(** [counts[k]++] over a list of keys. *)
Definition count_by (f : DialRow -> string) (rows : list DialRow) : gmap string Z :=
  foldr (fun r m => <[ f r := default 0 (m !! f r) + 1 ]> m) ∅ rows.

(** Reading a Go map of counters: a missing key reads as zero. *)
Definition count_of (m : gmap string Z) (k : string) : Z := default 0 (m !! k).

(** The [DialQueueStore] interface: operations that change the queue return
    the new queue or an error. *)
Class DialQueueStore (Q : Type) := {
  SeedRows : Q -> list DialRow -> result Q;
  PendingRows : Q -> string -> Z -> result (list DialRow);
  MarkInFlight : Q -> string -> string -> result Q;
  MarkFailed : Q -> string -> result Q;
  ActiveCampaignIDs : Q -> result (list string);
  FindByProviderCallID : Q -> string -> result (option DialRow);
  FindByLastOutcomeEventID : Q -> string -> result (option DialRow);
  UpdateRow : Q -> string -> (DialRow -> DialRow) -> result Q;
  CountsByStatus : Q -> string -> result (gmap string Z);
  CountsByDisposition : Q -> string -> result (gmap string Z);
  CountPendingWithAttempts : Q -> string -> result Z
}.

(** ** The pgkv implementation *)
Module Pgkv.

Definition t := kv DialRow.

(** The canonical key of a row, [CampaignID + ":" + LeadID]. *)
Definition seed_key (r : DialRow) : string := row_CampaignID r +:+ ":" +:+ row_LeadID r.

Fixpoint SeedRows (s : t) (rows : list DialRow) : result t :=
  match rows with
  | [] => Ok s
  | r :: rows' =>
      let key := seed_key r in
      let? existing := kv_get s key in
      match existing with
      | Some _ => SeedRows s rows'
      | None => let? s' := kv_put s key (set_ID key r) in SeedRows s' rows'
      end
  end.

Definition due (campaignID : string) (now : Z) (r : DialRow) : bool :=
  bool_decide (row_CampaignID r = campaignID) && bool_decide (row_Status r = "pending")
  && negb (now <? row_NextAttemptAt r).

Definition PendingRows (s : t) (campaignID : string) (now : Z) : result (list DialRow) :=
  let? all := kv_list s in Ok (List.filter (due campaignID now) all).

(** [updateRow]: fetch, mutate and re-store a row by its ID. *)
Definition updateRow (s : t) (rowID : string) (fn : DialRow -> DialRow) : result t :=
  let? r := kv_get s rowID in
  match r with
  | None => Err ("row " +:+ rowID +:+ " not found")
  | Some r => kv_put s rowID (fn r)
  end.

Definition UpdateRow := updateRow.

Definition MarkInFlight (s : t) (rowID providerCallID : string) : result t :=
  updateRow s rowID (fun r =>
    set_Attempts (row_Attempts r + 1)
      (set_ProviderCallID providerCallID (set_Status "in_flight" r))).

Definition MarkFailed (s : t) (rowID : string) : result t :=
  updateRow s rowID (set_Status "failed").

Definition FindByProviderCallID (s : t) (providerCallID : string) : result (option DialRow) :=
  let? all := kv_list s in
  Ok (List.find (fun r => bool_decide (row_ProviderCallID r = providerCallID)) all).

(** Whether the row has recorded [eventID] as its last outcome event. *)
Definition has_event (eventID : string) (r : DialRow) : bool :=
  match row_CampaignCtx r with
  | None => false
  | Some c =>
      match c !! "_last_outcome_event_id" with
      | Some (AString v) => bool_decide (v = eventID)
      | _ => false
      end
  end.

Definition FindByLastOutcomeEventID (s : t) (eventID : string) : result (option DialRow) :=
  let? all := kv_list s in Ok (List.find (has_event eventID) all).

(** Whether the row still has work: pending or in flight. *)
Definition has_work (r : DialRow) : bool :=
  bool_decide (row_Status r = "pending") || bool_decide (row_Status r = "in_flight").

(** The keys of the [seen] map; Go iterates them in no specified order. *)
Definition ActiveCampaignIDs (s : t) : result (list string) :=
  let? all := kv_list s in
  Ok (elements (list_to_set (row_CampaignID <$> List.filter has_work all) : gset string)).

Definition of_campaign (campaignID : string) (r : DialRow) : bool :=
  bool_decide (row_CampaignID r = campaignID).

Definition CountsByStatus (s : t) (campaignID : string) : result (gmap string Z) :=
  let? all := kv_list s in
  Ok (count_by row_Status (List.filter (of_campaign campaignID) all)).

Definition CountsByDisposition (s : t) (campaignID : string) : result (gmap string Z) :=
  let? all := kv_list s in
  Ok (count_by row_Disposition (List.filter (of_campaign campaignID) all)).

Definition CountPendingWithAttempts (s : t) (campaignID : string) : result Z :=
  let? all := kv_list s in
  Ok (Z.of_nat (length (List.filter (fun r =>
    of_campaign campaignID r && bool_decide (row_Status r = "pending")
    && (0 <? row_Attempts r)) all))).

End Pgkv.

#[export] Instance pgkv_store : DialQueueStore (kv DialRow) := {
  SeedRows := Pgkv.SeedRows;
  PendingRows := Pgkv.PendingRows;
  MarkInFlight := Pgkv.MarkInFlight;
  MarkFailed := Pgkv.MarkFailed;
  ActiveCampaignIDs := Pgkv.ActiveCampaignIDs;
  FindByProviderCallID := Pgkv.FindByProviderCallID;
  FindByLastOutcomeEventID := Pgkv.FindByLastOutcomeEventID;
  UpdateRow := Pgkv.UpdateRow;
  CountsByStatus := Pgkv.CountsByStatus;
  CountsByDisposition := Pgkv.CountsByDisposition;
  CountPendingWithAttempts := Pgkv.CountPendingWithAttempts
}.
