(* ===== verification/Compliance.v ===== *)
(** * scheduler/internal/dispatcher: calling window, retry policy and suppression

    The TRAI calling window and the retry policy, read from a row's
    [CampaignCtx] with their defaults.  The tz database behind
    [time.LoadLocation] is the parameter [LoadLocation]. *)

From S2P Require Import Prelude GoTime Float64 Kv DialQueue.

Open Scope Z_scope.

Definition defaultCallWindowStartHour : Z := 10.
Definition defaultCallWindowEndHour : Z := 19.
Definition defaultTimezone : string := "Asia/Kolkata".

(** [ctx[k].(float64)] truncated by [int], when present. *)
Definition ctx_int (ctx : ctxmap) (k : string) : option Z :=
  match ctx !! k with Some (AFloat f) => Some (f_to_int f) | _ => None end.

(** [ctx[k].(string)], when present. *)
Definition ctx_string (ctx : ctxmap) (k : string) : option string :=
  match ctx !! k with Some (AString s) => Some s | _ => None end.

Section WithTz.
Context (LoadLocation : string -> option Location).

Definition window_hours (ctx : option ctxmap) : Z * Z :=
  match ctx with
  | None => (defaultCallWindowStartHour, defaultCallWindowEndHour)
  | Some c =>
      match ctx_int c "_call_window_end_hour" with
      | Some ev =>
          if 0 <? ev then
            (match ctx_int c "_call_window_start_hour" with
             | Some sv => if 0 <=? sv then sv else 0
             | None => 0
             end, ev)
          else (defaultCallWindowStartHour, defaultCallWindowEndHour)
      | None => (defaultCallWindowStartHour, defaultCallWindowEndHour)
      end
  end.

Definition window_tz (ctx : option ctxmap) : string :=
  match ctx with
  | None => defaultTimezone
  | Some c =>
      match ctx_string c "_timezone" with
      | Some v => if is_empty v then defaultTimezone else v
      | None => defaultTimezone
      end
  end.

(** [extractWindowParams]: start hour, end hour and location. *)
Definition extractWindowParams (ctx : option ctxmap) : Z * Z * Location :=
  let '(startH, endH) := window_hours ctx in
  (startH, endH,
   match LoadLocation (window_tz ctx) with Some l => l | None => utc_loc end).
End WithTz.

(** [inCallingWindow]: the local hour of [now] lies in [startH, endH). *)
Definition inCallingWindow (now startH endH : Z) (loc : Location) : bool :=
  let h := local_hour loc now in (startH <=? h) && (h <? endH).

(** [nextWindowOpen]: today at [startH] when that is still ahead, otherwise
    tomorrow at [startH]. *)
Definition nextWindowOpen (now startH endH : Z) (loc : Location) : Z :=
  let h := local_hour loc now in
  let d := local_day loc now in
  if h <? startH then date d startH loc else date (d + 1) startH loc.

(** ** Retry policy *)

Definition defaultRetryMax : Z := 3.
Definition defaultRetryBusyMin : Z := 20.
Definition defaultRetryNoAnswerMin : Z := 180.
Definition defaultRetryFailedMin : Z := 30.

Record retryPolicy := mkPolicy {
  RetryMax : Z;
  RetryBusyMin : Z;
  RetryNoAnswerMin : Z
}.

(** A positive integer of the context, or the default. *)
Definition ctx_pos (ctx : ctxmap) (k : string) (dflt : Z) : Z :=
  match ctx_int ctx k with Some v => if 0 <? v then v else dflt | None => dflt end.

Definition extractRetryPolicy (ctx : option ctxmap) : retryPolicy :=
  match ctx with
  | None => mkPolicy defaultRetryMax defaultRetryBusyMin defaultRetryNoAnswerMin
  | Some c =>
      mkPolicy (ctx_pos c "_retry_max" defaultRetryMax)
        (ctx_pos c "_retry_busy_min" defaultRetryBusyMin)
        (ctx_pos c "_retry_no_answer_min" defaultRetryNoAnswerMin)
  end.

(** [retryDelayMinutes]: -1 stands for "no retry". *)
Definition retryDelayMinutes (status : string) (p : retryPolicy) : Z :=
  if decide (status = "completed") then -1
  else if decide (status = "busy") then RetryBusyMin p
  else if decide (status = "no-answer") then RetryNoAnswerMin p
  else defaultRetryFailedMin.

(** ** The window arithmetic *)

Section Window.
Context (loc : Location) (off : Z) (Hfixed : fixed loc off).

Lemma local_seconds_fixed t : local_seconds loc t = unix t + off.
Proof. unfold local_seconds. by rewrite Hfixed. Qed.

Lemma local_hour_spec t :
  86400 * local_day loc t + 3600 * local_hour loc t <= local_seconds loc t
  < 86400 * local_day loc t + 3600 * local_hour loc t + 3600.
Proof.
  unfold local_day, local_hour.
  pose proof (Z.div_mod (local_seconds loc t) 86400).
  pose proof (Z.div_mod (local_seconds loc t mod 86400) 3600).
  pose proof (Z.mod_pos_bound (local_seconds loc t mod 86400) 3600). lia.
Qed.

Lemma local_hour_range t : 0 <= local_hour loc t < 24.
Proof.
  unfold local_hour. pose proof (Z.mod_pos_bound (local_seconds loc t) 86400).
  split; [apply Z.div_pos; lia | apply Z.div_lt_upper_bound; lia].
Qed.

Lemma local_hour_unique t d h :
  0 <= h < 24 ->
  86400 * d + 3600 * h <= local_seconds loc t < 86400 * d + 3600 * h + 3600 ->
  local_hour loc t = h.
Proof.
  intros Hh Ht. pose proof (local_hour_range t). pose proof (local_hour_spec t).
  assert (local_day loc t = d) by lia. lia.
Qed.

Lemma date_order t d h : t < date d h loc <-> local_seconds loc t < 86400 * d + 3600 * h.
Proof.
  rewrite (date_fixed loc off) by done. rewrite <- unix_lt_mul, local_seconds_fixed. lia.
Qed.

Lemma local_hour_date d h : 0 <= h < 24 -> local_hour loc (date d h loc) = h.
Proof.
  intros Hh. apply local_hour_unique with d; [done|].
  rewrite (local_seconds_date loc off) by done. lia.
Qed.

Lemma nextWindowOpen_after now startH endH :
  0 <= startH -> now < nextWindowOpen now startH endH loc.
Proof.
  intros Hs. unfold nextWindowOpen.
  pose proof (local_hour_spec now). pose proof (local_hour_range now).
  case_match; go_bool; apply date_order; lia.
Qed.

Lemma nextWindowOpen_open now startH endH :
  0 <= startH < endH -> startH < 24 ->
  inCallingWindow (nextWindowOpen now startH endH loc) startH endH loc = true.
Proof.
  intros Hs H24. unfold inCallingWindow, nextWindowOpen.
  case_match; rewrite local_hour_date by lia; apply andb_true_iff;
    split; [apply Z.leb_le|apply Z.ltb_lt|apply Z.leb_le|apply Z.ltb_lt]; lia.
Qed.

(** No instant between a closed [now] and the returned one is open. *)
Lemma nextWindowOpen_first now startH endH t :
  0 <= startH < endH -> startH < 24 ->
  inCallingWindow now startH endH loc = false ->
  now <= t < nextWindowOpen now startH endH loc ->
  inCallingWindow t startH endH loc = false.
Proof.
  intros Hs H24 Hnow [Hle Hlt].
  destruct (inCallingWindow t startH endH loc) eqn:Et; [|done]. exfalso.
  unfold inCallingWindow, nextWindowOpen in *. go_bool.
  pose proof (local_hour_spec now). pose proof (local_hour_range now).
  pose proof (local_hour_spec t). pose proof (local_hour_range t).
  assert (local_seconds loc now <= local_seconds loc t).
  { rewrite !local_seconds_fixed. unfold unix.
    pose proof (Z.div_le_mono now t second). unfold second in *. lia. }
  apply andb_false_iff in Hnow.
  case_match; go_bool; apply date_order in Hlt;
    (destruct Hnow as [Hnow|Hnow]; go_bool); lia.
Qed.
End Window.

(** * scheduler/internal/dispatcher: suppression (DND) stores

    The [SuppressionStore] interface with its pgkv, in-memory and no-op
    implementations, and the law the dispatcher's compliance gate relies on. *)

Class SuppressionStore (S : Type) := {
  IsSuppressed : S -> string -> string -> bool;
  Suppress : S -> Z -> string -> string -> string -> result S
}.

(** The key of an entry: tenant and phone joined by a colon. *)
Definition suppression_key (tenantID phone : string) : string := tenantID +:+ ":" +:+ phone.

(** What a recording store promises: a phone recorded for a tenant is
    suppressed from then on. *)
Class SuppressionLaws (S : Type) `{SuppressionStore S} := {
  suppress_recorded s now t p r s' : Suppress s now t p r = Ok s' -> IsSuppressed s' t p = true;
  suppress_monotone s now t p r s' t' p' :
    Suppress s now t p r = Ok s' -> IsSuppressed s t' p' = true -> IsSuppressed s' t' p' = true
}.

(** ** pgkv *)
Module PgkvSup.
Record suppressionEntry := mkEntry { Reason : string; CreatedAt : Z }.

Definition t := kv suppressionEntry.

(** Fail-open: a database error counts as not suppressed. *)
Definition isSuppressed (s : t) (tenantID phone : string) : bool :=
  match kv_get s (suppression_key tenantID phone) with
  | Err _ => false
  | Ok None => false
  | Ok (Some _) => true
  end.

Definition suppress (s : t) (now : Z) (tenantID phone reason : string) : result t :=
  kv_put s (suppression_key tenantID phone) (mkEntry reason now).
End PgkvSup.

#[export] Instance pgkv_suppression : SuppressionStore (kv PgkvSup.suppressionEntry) := {
  IsSuppressed := PgkvSup.isSuppressed;
  Suppress := PgkvSup.suppress
}.

#[export] Program Instance pgkv_suppression_laws : SuppressionLaws (kv PgkvSup.suppressionEntry).
Next Obligation.
  intros *. simpl. unfold PgkvSup.suppress, PgkvSup.isSuppressed, kv_put, kv_get.
  intros Hs. split_in Hs. simpl. by rewrite rows_get_put_eq.
Qed.
Next Obligation.
  intros *. simpl. unfold PgkvSup.suppress, PgkvSup.isSuppressed, kv_put, kv_get.
  intros Hs. split_in Hs. simpl. rewrite rows_get_put. by case_decide.
Qed.

(** ** In-memory *)
Module FakeSup.
Abbreviation t := (gmap string string).

Definition isSuppressed (f : t) (tenantID phone : string) : bool :=
  bool_decide (is_Some (f !! suppression_key tenantID phone)).

Definition suppress (f : t) (_ : Z) (tenantID phone reason : string) : result t :=
  Ok (<[suppression_key tenantID phone := reason]> f).
End FakeSup.

#[export] Instance fake_suppression : SuppressionStore (gmap string string) := {
  IsSuppressed := FakeSup.isSuppressed;
  Suppress := FakeSup.suppress
}.

#[export] Program Instance fake_suppression_laws : SuppressionLaws (gmap string string).
Next Obligation.
  intros *. simpl. unfold FakeSup.suppress, FakeSup.isSuppressed. intros [= <-].
  apply bool_decide_eq_true. rewrite lookup_insert_eq. eauto.
Qed.
Next Obligation.
  intros *. simpl. unfold FakeSup.suppress, FakeSup.isSuppressed. intros [= <-].
  rewrite !bool_decide_eq_true, lookup_insert_is_Some'. by right.
Qed.

(** ** No-op *)
#[export] Instance noop_suppression : SuppressionStore unit := {
  IsSuppressed _ _ _ := false;
  Suppress s _ _ _ _ := Ok s
}.
