(* ===== verification/RateLimit.v ===== *)
(** * scheduler/internal/dispatcher/ratelimit.go

    The [RateLimiter] interface, what it promises to the dispatcher, and its
    implementations: Redis counters with expiry, an in-memory fake and a
    no-op. *)

From S2P Require Import Prelude GoTime Float64.

Open Scope Z_scope.

Definition DefaultHourlyCap : Z := 50.
Definition DefaultDailyCap : Z := 500.

(** The interface.  [Allowed] returns whether a call may be placed at [now]
    and the reason if not; [RecordCall] counts one placed call. *)
Class RateLimiter (R : Type) := {
  Allowed : R -> Z -> string -> Z -> Z -> float64 -> bool * string;
  RecordCall : R -> Z -> string -> R
}.

(** An unset cap means the default. *)
Definition effective_cap (cap dflt : Z) : Z := if cap <=? 0 then dflt else cap.

(** What a counting limiter promises: its counters of the current UTC hour and
    day are below the caps when it allows a call, and a recorded call adds one
    to both for the rest of that hour and day, and to nothing else.
    [healthy] is when the counters can be read. *)
Class RateLimiterLaws (R : Type) `{RateLimiter R} := {
  rl_healthy : R -> Prop;
  rl_hour : R -> Z -> string -> Z;
  rl_day : R -> Z -> string -> Z;
  rl_hour_stamp s now now' id :
    utc_hour_index now = utc_hour_index now' -> rl_hour s now id = rl_hour s now' id;
  rl_day_stamp s now now' id :
    utc_day_index now = utc_day_index now' -> rl_day s now id = rl_day s now' id;
  allowed_below s now id hc dc cc :
    rl_healthy s -> (Allowed s now id hc dc cc).1 = true ->
    rl_hour s now id < effective_cap hc DefaultHourlyCap /\
    rl_day s now id < effective_cap dc DefaultDailyCap;
  record_healthy s now id : rl_healthy s -> rl_healthy (RecordCall s now id);
  record_hour s now now' id id' :
    rl_healthy s -> utc_hour_index now' = utc_hour_index now -> now <= now' ->
    rl_hour (RecordCall s now id) now' id' =
      rl_hour s now' id' + (if decide (id = id') then 1 else 0);
  record_day s now now' id id' :
    rl_healthy s -> utc_day_index now' = utc_day_index now -> now <= now' ->
    rl_day (RecordCall s now id) now' id' =
      rl_day s now' id' + (if decide (id = id') then 1 else 0)
}.

(** ** Redis *)
Module Redis.

(** The counter keys.  The UTC stamps [2006010215] and [20060102] in the
    key strings are represented by the hour and day number they denote. *)
Inductive rkey :=
| hourKey (campaignID : string) (h : Z)
| dayKey (campaignID : string) (d : Z)
| costKey (campaignID : string) (d : Z).

#[export] Instance rkey_eq_dec : EqDecision rkey.
Proof. solve_decision. Defined.

Definition rkey_enc (k : rkey) : nat * string * Z :=
  match k with
  | hourKey c h => (0%nat, c, h)
  | dayKey c d => (1%nat, c, d)
  | costKey c d => (2%nat, c, d)
  end.
Definition rkey_dec (p : nat * string * Z) : rkey :=
  match p with
  | (0%nat, c, h) => hourKey c h
  | (1%nat, c, d) => dayKey c d
  | (_, c, d) => costKey c d
  end.
#[export] Instance rkey_countable : Countable rkey.
Proof. refine (inj_countable' rkey_enc rkey_dec _). by intros []. Defined.

(** A Redis database: integer values with their expiry instants, and
    whether the server can be reached. *)
Record db := mkDb { data : gmap rkey (Z * Z); up : bool }.

(** [GET]: an absent or expired key reads as zero. *)
Definition getCount (r : db) (now : Z) (k : rkey) : result Z :=
  if up r then
    Ok (match data r !! k with
        | Some (v, exp) => if now <? exp then v else 0
        | None => 0
        end)
  else Err "redis dial".

(** [INCR] followed by [EXPIRE ttlSec]: the pipeline of [incrWithExpire]. *)
Definition incrWithExpire (r : db) (now : Z) (k : rkey) (ttlSec : Z) : result db :=
  let? v := getCount r now k in
  Ok (mkDb (<[k := (v + 1, now + ttlSec * second)]> (data r)) true).

Definition allowed (r : db) (now : Z) (campaignID : string)
    (hourlyCap dailyCap : Z) (costCapINR : float64) : bool * string :=
  let hourlyCap := if hourlyCap <=? 0 then DefaultHourlyCap else hourlyCap in
  let dailyCap := if dailyCap <=? 0 then DefaultDailyCap else dailyCap in
  match getCount r now (hourKey campaignID (utc_hour_index now)) with
  | Err _ => (true, "")
  | Ok hourCount =>
      if hourlyCap <=? hourCount then (false, "hourly cap reached") else
      match getCount r now (dayKey campaignID (utc_day_index now)) with
      | Err _ => (true, "")
      | Ok dayCount =>
          if dailyCap <=? dayCount then (false, "daily cap reached") else
          if f_lt (f_of_int 0) costCapINR then
            match getCount r now (costKey campaignID (utc_day_index now)) with
            | Err _ => (true, "")
            | Ok costCount =>
                if f_le costCapINR (f_div (f_of_int costCount) (f_of_int 100))
                then (false, "cost cap reached") else (true, "")
            end
          else (true, "")
      end
  end.

(** [RecordCall]: an INCR error is only logged. *)
Definition recordCall (r : db) (now : Z) (campaignID : string) : db :=
  let r := match incrWithExpire r now (hourKey campaignID (utc_hour_index now)) 3600 with
           | Ok r' => r' | Err _ => r end in
  match incrWithExpire r now (dayKey campaignID (utc_day_index now)) 86400 with
  | Ok r' => r' | Err _ => r
  end.

(** The first instant after the hour or day a key is stamped with. *)
Definition stamp_end (k : rkey) : option Z :=
  match k with
  | hourKey _ h => Some ((h + 1) * 3600 * second)
  | dayKey _ d => Some ((d + 1) * 86400 * second)
  | costKey _ _ => None
  end.

(** No call counter expires before its hour or day is over. *)
Definition ttl_ok (r : db) : Prop :=
  forall k v exp e, data r !! k = Some (v, exp) -> stamp_end k = Some e -> e <= exp.

Definition raw (r : db) (k : rkey) : Z :=
  match data r !! k with Some (v, _) => v | None => 0 end.

Lemma raw_insert r k k' v e :
  raw (mkDb (<[k := (v, e)]> (data r)) true) k' = if decide (k = k') then v else raw r k'.
Proof. unfold raw. simpl. case_decide; by simplify_map_eq. Qed.

Lemma hour_stamp now : utc_hour_index now * 3600 * second <= now
  < (utc_hour_index now + 1) * 3600 * second.
Proof.
  unfold utc_hour_index. rewrite <- unix_le_mul, <- unix_lt_mul.
  pose proof (Z.div_mod (unix now) 3600). pose proof (Z.mod_pos_bound (unix now) 3600). lia.
Qed.

Lemma day_stamp now : utc_day_index now * 86400 * second <= now
  < (utc_day_index now + 1) * 86400 * second.
Proof.
  unfold utc_day_index. rewrite <- unix_le_mul, <- unix_lt_mul.
  pose proof (Z.div_mod (unix now) 86400). pose proof (Z.mod_pos_bound (unix now) 86400). lia.
Qed.

(** While the stamp of a key is current, a reachable server reports the raw
    count: nothing has expired. *)
Lemma getCount_live r now k e :
  up r = true -> ttl_ok r -> stamp_end k = Some e -> now < e ->
  getCount r now k = Ok (raw r k).
Proof.
  intros Hup Httl He Hlt. unfold getCount, raw. rewrite Hup. f_equal.
  destruct (data r !! k) as [[v exp]|] eqn:E; [|done].
  pose proof (Httl _ _ _ _ E He). destruct (now <? exp) eqn:?; [done|]. go_bool. lia.
Qed.

Lemma getCount_hour r now id :
  up r = true -> ttl_ok r ->
  getCount r now (hourKey id (utc_hour_index now)) = Ok (raw r (hourKey id (utc_hour_index now))).
Proof. intros. eapply getCount_live; [done..|]. apply hour_stamp. Qed.

Lemma getCount_day r now id :
  up r = true -> ttl_ok r ->
  getCount r now (dayKey id (utc_day_index now)) = Ok (raw r (dayKey id (utc_day_index now))).
Proof. intros. eapply getCount_live; [done..|]. apply day_stamp. Qed.

Lemma ttl_ok_insert r k v exp :
  ttl_ok r -> (forall e, stamp_end k = Some e -> e <= exp) ->
  ttl_ok (mkDb (<[k := (v, exp)]> (data r)) true).
Proof.
  intros Httl Hk k' v' exp' e Hl He. simpl in Hl.
  destruct (decide (k = k')) as [->|]; simplify_map_eq; eauto.
Qed.

(** [RecordCall] on a reachable server adds one to the two current counters. *)
Lemma recordCall_spec r now id :
  up r = true -> ttl_ok r ->
  exists r', recordCall r now id = r' /\ up r' = true /\ ttl_ok r' /\
    forall k, raw r' k = raw r k +
      (if decide (k = hourKey id (utc_hour_index now)) then 1 else 0) +
      (if decide (k = dayKey id (utc_day_index now)) then 1 else 0).
Proof.
  intros Hup Httl. unfold recordCall, incrWithExpire at 2.
  rewrite getCount_hour by done.
  set (r1 := mkDb _ true).
  assert (ttl_ok r1).
  { apply ttl_ok_insert; [done|]. simpl. intros e [= <-].
    pose proof (hour_stamp now). unfold second in *. lia. }
  unfold incrWithExpire. rewrite getCount_day by done.
  eexists. split; [done|]. split; [done|]. split.
  { apply ttl_ok_insert; [done|]. simpl. intros e [= <-].
    pose proof (day_stamp now). unfold second in *. lia. }
  intros k. rewrite raw_insert. unfold r1. rewrite !raw_insert.
  repeat case_decide; simplify_eq; lia.
Qed.

Lemma allowed_counts r now id hc dc cc :
  up r = true -> ttl_ok r -> (allowed r now id hc dc cc).1 = true ->
  raw r (hourKey id (utc_hour_index now)) < effective_cap hc DefaultHourlyCap /\
  raw r (dayKey id (utc_day_index now)) < effective_cap dc DefaultDailyCap.
Proof.
  intros Hup Httl. unfold allowed, effective_cap.
  rewrite getCount_hour, getCount_day by done.
  intros Ha. split_in Ha; go_bool; lia.
Qed.
End Redis.

#[export] Instance redis_limiter : RateLimiter Redis.db := {
  Allowed := Redis.allowed;
  RecordCall := Redis.recordCall
}.

(** The Redis limiter keeps the promise while the server is reachable. *)
#[export] Program Instance redis_limiter_laws : RateLimiterLaws Redis.db := {
  rl_healthy r := Redis.up r = true /\ Redis.ttl_ok r;
  rl_hour r now id := Redis.raw r (Redis.hourKey id (utc_hour_index now));
  rl_day r now id := Redis.raw r (Redis.dayKey id (utc_day_index now))
}.
Next Obligation. intros * E. simpl. by rewrite E. Qed.
Next Obligation. intros * E. simpl. by rewrite E. Qed.
Next Obligation. intros * [??] ?. eapply Redis.allowed_counts; eauto. Qed.
Next Obligation.
  intros * [??]. destruct (Redis.recordCall_spec s now id) as (? & <- & ? & ? & ?); done.
Qed.
Next Obligation.
  intros * [??] Hh ?. destruct (Redis.recordCall_spec s now id) as (? & <- & ? & ? & Hr); [done..|].
  simpl. rewrite Hr. repeat case_decide; simplify_eq; try lia; congruence.
Qed.
Next Obligation.
  intros * [??] Hh ?. destruct (Redis.recordCall_spec s now id) as (? & <- & ? & ? & Hr); [done..|].
  simpl. rewrite Hr. repeat case_decide; simplify_eq; try lia; congruence.
Qed.

(** ** The in-memory limiter *)
Module FakeRL.
(** Counters keyed by campaign and UTC hour or day. *)
Record t := mk { hourCount : gmap (string * Z) Z; dayCount : gmap (string * Z) Z }.

Definition New : t := mk ∅ ∅.

Definition get (m : gmap (string * Z) Z) (k : string * Z) : Z := default 0 (m !! k).

Definition allowed (f : t) (now : Z) (campaignID : string)
    (hourlyCap dailyCap : Z) (_ : float64) : bool * string :=
  let hourlyCap := if hourlyCap <=? 0 then DefaultHourlyCap else hourlyCap in
  let dailyCap := if dailyCap <=? 0 then DefaultDailyCap else dailyCap in
  if hourlyCap <=? get (hourCount f) (campaignID, utc_hour_index now)
  then (false, "hourly cap reached") else
  if dailyCap <=? get (dayCount f) (campaignID, utc_day_index now)
  then (false, "daily cap reached") else (true, "").

Definition recordCall (f : t) (now : Z) (campaignID : string) : t :=
  let hk := (campaignID, utc_hour_index now) in
  let dk := (campaignID, utc_day_index now) in
  mk (<[hk := get (hourCount f) hk + 1]> (hourCount f))
     (<[dk := get (dayCount f) dk + 1]> (dayCount f)).

Lemma get_incr m k k' :
  get (<[k := get m k + 1]> m) k' = get m k' + (if decide (k = k') then 1 else 0).
Proof. unfold get. case_decide; simplify_map_eq; lia. Qed.
End FakeRL.

#[export] Instance fake_limiter : RateLimiter FakeRL.t := {
  Allowed := FakeRL.allowed;
  RecordCall := FakeRL.recordCall
}.

#[export] Program Instance fake_limiter_laws : RateLimiterLaws FakeRL.t := {
  rl_healthy _ := True;
  rl_hour f now id := FakeRL.get (FakeRL.hourCount f) (id, utc_hour_index now);
  rl_day f now id := FakeRL.get (FakeRL.dayCount f) (id, utc_day_index now)
}.
Next Obligation. intros * E. simpl. by rewrite E. Qed.
Next Obligation. intros * E. simpl. by rewrite E. Qed.
Next Obligation.
  intros * _. simpl. unfold FakeRL.allowed, effective_cap. intros Ha. split_in Ha; go_bool; lia.
Qed.
Next Obligation. done. Qed.
Next Obligation.
  intros * _ E _. simpl. rewrite FakeRL.get_incr. repeat case_decide; congruence || lia.
Qed.
Next Obligation.
  intros * _ E _. simpl. rewrite FakeRL.get_incr. repeat case_decide; congruence || lia.
Qed.

(** ** The no-op limiter: allows everything, counts nothing. *)
#[export] Instance noop_limiter : RateLimiter unit := {
  Allowed _ _ _ _ _ _ := (true, "");
  RecordCall s _ _ := s
}.
