(* ===== verification/Dispatcher.v ===== *)
(** * scheduler/internal/dispatcher/dispatcher.go and outcome_consumer.go

    The dispatcher: seeding the dial queue when a campaign is launched, the
    two-second tick that places calls under the compliance gates and the rate
    limits, and the call-outcome consumer that retries or finalises rows.

    The world outside the process is the record [Env]: the HTTP services, the
    tz database, the UUID generator, the clock and Go's map iteration order.
    The dispatcher's state carries its stores and a log of the calls it has
    posted to the telephony service. *)

From S2P Require Import Prelude GoTime Float64 Kv DialQueue Compliance RateLimit.

Open Scope Z_scope.

(** ** Messages *)

(** The outcome of an HTTP request: the request could not be built, the
    transport failed, or a status with a body that may fail to decode. *)
Inductive http (A : Type) :=
| BadRequest
| NetErr
| Resp (status : Z) (body : option A).
Arguments BadRequest {A}.
Arguments NetErr {A}.
Arguments Resp {A} status body.

Record campaignContext := mkCtx {
  ProductDescription : string;
  Offer : string;
  TalkingPoints : option (list string);
  ObjectionHandling : option (list (option (list (string * string))));
  QualifyingQuestions : option (list string);
  Persona : string;
  DoNotSay : option (list string);
  Goal : string;
  Language : string;
  BusinessHours : string
}.

Record campaignResponse := mkCampaign {
  cr_ID : string;
  cr_TenantID : string;
  cr_ProjectID : string;
  cr_KbVersionID : string;
  cr_Context : campaignContext
}.

Record campaignLimitsResponse := mkLimits {
  MaxCallSeconds : Z;
  ConcurrentCap : Z;
  HourlyCallCap : Z;
  DailyCallCap : Z;
  CostCapINR : float64;
  RetryMaxLimit : Z;
  RetryBusyMinLimit : Z;
  RetryNoAnswerMinLimit : Z;
  CallWindowStartHour : Z;
  CallWindowEndHour : Z;
  Timezone : string
}.

(** The three places a phone may appear in lead-import's answer. *)
Record leadResponse := mkLead {
  lr_Lead_PhoneE164 : string;
  lr_Lead_Contact_PhoneE164 : string;
  lr_Contact_PhoneE164 : string
}.

(** The body of POST /v1/calls. *)
Record callPayload := mkPayload {
  p_session_id : string;
  p_tenant_id : string;
  p_campaign_id : string;
  p_lead_id : string;
  p_project_id : string;
  p_from_number : string;
  p_to_number : string;
  p_callback_url : string;
  p_max_duration : Z;
  p_machine_detection : bool
}.

(** The value written under call:session:{provider_call_id}. *)
Record sessionData := mkSession {
  s_tenant_id : string;
  s_campaign_id : string;
  s_kb_version_id : string;
  s_project_id : string;
  s_lead_id : string;
  s_lang : string;
  s_system_prompt_version : string;
  s_campaign_context : option ctxmap
}.

Record Config := mkConfig {
  FromNumber : string;
  PublicWebhookBaseURL : string
}.

(** The environment.  [env_call] answers a POST given the calls posted before
    it; [env_clock n] is the [n]-th reading of [time.Now]. *)
Record Env := mkEnv {
  env_campaign : string -> http campaignResponse;
  env_limits : string -> http campaignLimitsResponse;
  env_leads : string -> http (list string);
  env_lead : string -> string -> http leadResponse;
  env_call : list callPayload -> callPayload -> http string;
  env_uuid : nat -> string;
  env_clock : nat -> Z;
  env_loc : string -> option Location;
  env_iter : list string -> list string
}.

(** ** State *)
Record Dispatcher (Q R S : Type) := mkDisp {
  d_queue : Q;
  d_ratelimit : R;
  d_suppression : S;
  d_sessions : gmap string (sessionData * Z);
  d_redis_up : bool;
  d_active : gset string;
  d_uuids : nat;
  d_reads : nat;
  d_posts : list callPayload
}.
Arguments mkDisp {Q R S}.
Arguments d_queue {Q R S} d.
Arguments d_ratelimit {Q R S} d.
Arguments d_suppression {Q R S} d.
Arguments d_sessions {Q R S} d.
Arguments d_redis_up {Q R S} d.
Arguments d_active {Q R S} d.
Arguments d_uuids {Q R S} d.
Arguments d_reads {Q R S} d.
Arguments d_posts {Q R S} d.

(** ** Pure helpers *)

Definition any_strings (l : option (list string)) : any :=
  match l with None => ANil | Some l => AList (AString <$> l) end.

Definition any_pairs (m : option (list (string * string))) : any :=
  match m with
  | None => ANil
  | Some m => AMap ((fun p => (p.1, AString p.2)) <$> m)
  end.

(** [campaignContextToMap]: the struct through JSON into a map. *)
Definition campaignContextToMap (c : campaignContext) : ctxmap :=
  list_to_map [
    ("product_description", AString (ProductDescription c));
    ("offer", AString (Offer c));
    ("talking_points", any_strings (TalkingPoints c));
    ("objection_handling",
      match ObjectionHandling c with None => ANil | Some l => AList (any_pairs <$> l) end);
    ("qualifying_questions", any_strings (QualifyingQuestions c));
    ("persona", AString (Persona c));
    ("do_not_say", any_strings (DoNotSay c));
    ("goal", AString (Goal c));
    ("language", AString (Language c));
    ("business_hours", AString (BusinessHours c))].

(** The map stored on every row of a launch: the campaign context with the
    caps, the retry policy and the calling window written over it. *)
Definition launch_ctx (c : campaignContext) (l : campaignLimitsResponse) : ctxmap :=
  <["_timezone" := AString (Timezone l)]>
  (<["_call_window_end_hour" := AFloat (f_of_int (CallWindowEndHour l))]>
  (<["_call_window_start_hour" := AFloat (f_of_int (CallWindowStartHour l))]>
  (<["_retry_no_answer_min" := AFloat (f_of_int (RetryNoAnswerMinLimit l))]>
  (<["_retry_busy_min" := AFloat (f_of_int (RetryBusyMinLimit l))]>
  (<["_retry_max" := AFloat (f_of_int (RetryMaxLimit l))]>
  (<["_cost_cap_inr" := AFloat (CostCapINR l)]>
  (<["_daily_call_cap" := AFloat (f_of_int (DailyCallCap l))]>
  (<["_hourly_call_cap" := AFloat (f_of_int (HourlyCallCap l))]>
  (campaignContextToMap c))))))))).

(** [extractRateLimitCaps]: hourly, daily and cost caps, zero when absent. *)
Definition extractRateLimitCaps (ctx : option ctxmap) : Z * Z * float64 :=
  match ctx with
  | None => (0, 0, f_of_int 0)
  | Some c =>
      (default 0 (ctx_int c "_hourly_call_cap"),
       default 0 (ctx_int c "_daily_call_cap"),
       match c !! "_cost_cap_inr" with Some (AFloat f) => f | _ => f_of_int 0 end)
  end.

(** The call's maximal duration: [max_call_seconds] of the context if it is a
    positive number, else 300. *)
Definition maxDuration (ctx : option ctxmap) : Z :=
  match ctx with
  | None => 300
  | Some c =>
      match c !! "max_call_seconds" with
      | Some (AFloat f) => if 0 <? f_to_int f then f_to_int f else 300
      | _ => 300
      end
  end.

(** The session language: the context's, or en-IN. *)
Definition session_lang (ctx : option ctxmap) : string :=
  match ctx with
  | None => "en-IN"
  | Some c =>
      match c !! "language" with
      | Some (AString s) => if is_empty s then "en-IN" else s
      | _ => "en-IN"
      end
  end.

Definition callbackURL (cfg : Config) : string :=
  trim_right_slash (PublicWebhookBaseURL cfg) +:+ "/wh/vobiz/answer".

Definition call_payload (cfg : Config) (sessionID : string) (row : DialRow) : callPayload :=
  {| p_session_id := sessionID;
     p_tenant_id := row_TenantID row;
     p_campaign_id := row_CampaignID row;
     p_lead_id := row_LeadID row;
     p_project_id := row_ProjectID row;
     p_from_number := FromNumber cfg;
     p_to_number := row_Phone row;
     p_callback_url := callbackURL cfg;
     p_max_duration := maxDuration (row_CampaignCtx row);
     p_machine_detection := true |}.

Definition session_data (row : DialRow) : sessionData :=
  {| s_tenant_id := row_TenantID row;
     s_campaign_id := row_CampaignID row;
     s_kb_version_id := row_KbVersionID row;
     s_project_id := row_ProjectID row;
     s_lead_id := row_LeadID row;
     s_lang := session_lang (row_CampaignCtx row);
     s_system_prompt_version := "v1";
     s_campaign_context := row_CampaignCtx row |}.

(** [resolvePhone]: the first of the three phones that is not empty. *)
Definition resolvePhone (env : Env) (tenantID leadID : string) : result string :=
  match env_lead env tenantID leadID with
  | BadRequest | NetErr => Err "lead-import GET"
  | Resp st body =>
      if negb (st =? 200) then Err "lead-import GET: status" else
      match body with
      | None => Err "decode"
      | Some out =>
          let phone := lr_Lead_PhoneE164 out in
          let phone := if is_empty phone then lr_Lead_Contact_PhoneE164 out else phone in
          let phone := if is_empty phone then lr_Contact_PhoneE164 out else phone in
          if is_empty phone then Err "no phone_e164 in response" else Ok phone
      end
  end.

Definition fetchCampaign (env : Env) (campaignID : string) : result campaignResponse :=
  match env_campaign env campaignID with
  | BadRequest | NetErr => Err "campaign GET"
  | Resp st body =>
      if negb (st =? 200) then Err "campaign GET: status" else
      match body with None => Err "decode" | Some c => Ok c end
  end.

(** The limits used when none can be read: only the call length is set. *)
Definition default_limits : campaignLimitsResponse :=
  mkLimits 300 0 0 0 (f_of_int 0) 0 0 0 0 0 "".

(** [fetchLimits]: limits are optional; only a transport error is an error. *)
Definition fetchLimits (env : Env) (campaignID : string) : result campaignLimitsResponse :=
  match env_limits env campaignID with
  | BadRequest | NetErr => Err "limits GET"
  | Resp st body =>
      if negb (st =? 200) then Ok default_limits else
      match body with None => Ok default_limits | Some l => Ok l end
  end.

Definition fetchCampaignLeads (env : Env) (campaignID : string) : result (list string) :=
  match env_leads env campaignID with
  | BadRequest | NetErr => Err "campaign leads GET"
  | Resp st body =>
      if negb (st =? 200) then Err "campaign leads GET: status" else
      match body with
      | None => Err "decode"
      | Some ids => Ok (List.filter (fun i => negb (is_empty i)) ids)
      end
  end.

(** ** Operations *)
Section Ops.
Context {Q R S : Type} `{!DialQueueStore Q} `{!RateLimiter R} `{!SuppressionStore S}.
Context (env : Env) (cfg : Config).

Abbreviation D := (Dispatcher Q R S).

Definition with_queue (d : D) (q : Q) : D :=
  let '(mkDisp _ b c e f g h i j) := d in mkDisp q b c e f g h i j.
Definition with_ratelimit (d : D) (r : R) : D :=
  let '(mkDisp a _ c e f g h i j) := d in mkDisp a r c e f g h i j.
Definition with_sessions (d : D) (s : gmap string (sessionData * Z)) : D :=
  let '(mkDisp a b c _ f g h i j) := d in mkDisp a b c s f g h i j.
Definition with_active (d : D) (a' : gset string) : D :=
  let '(mkDisp a b c e f _ h i j) := d in mkDisp a b c e f a' h i j.
Definition with_posts (d : D) (p : list callPayload) : D :=
  let '(mkDisp a b c e f g h i _) := d in mkDisp a b c e f g h i p.

(** [uuid.New().String()] and [time.Now()]. *)
Definition fresh_uuid (d : D) : string * D :=
  let '(mkDisp a b c e f g h i j) := d in (env_uuid env h, mkDisp a b c e f g (1 + h)%nat i j).
Definition time_now (d : D) : Z * D :=
  let '(mkDisp a b c e f g h i j) := d in (env_clock env i, mkDisp a b c e f g h (1 + i)%nat j).

(** [_ = d.queue.Op(...)]: on error the queue stays as it was. *)
Definition queue_do (d : D) (r : result Q) : D :=
  match r with Ok q => with_queue d q | Err _ => d end.

(** [d.redis.SetEX]: a failed write is only logged. *)
Definition set_session (d : D) (now : Z) (providerCallID : string) (s : sessionData) : D :=
  if d_redis_up d
  then with_sessions d (<[providerCallID := (s, now + 2 * hour)]> (d_sessions d))
  else d.

(** [placeCall]: (placed, stop) and the new state. *)
Definition placeCall (d : D) (row : DialRow) : bool * bool * D :=
  let '(sessionID, d) := fresh_uuid d in
  let payload := call_payload cfg sessionID row in
  match env_call env (d_posts d) payload with
  | BadRequest => (false, false, d)
  | NetErr =>
      let d := with_posts d (d_posts d ++ [payload]) in
      (false, false, queue_do d (MarkFailed (d_queue d) (row_ID row)))
  | Resp st body =>
      let d := with_posts d (d_posts d ++ [payload]) in
      if st =? 503 then (false, true, d)
      else if 300 <=? st then
        (false, false, queue_do d (MarkFailed (d_queue d) (row_ID row)))
      else
        match body with
        | None => (false, false, queue_do d (MarkFailed (d_queue d) (row_ID row)))
        | Some out =>
            let providerCallID := if is_empty out then sessionID else out in
            let '(now, d) := time_now d in
            let d := set_session d now providerCallID (session_data row) in
            (true, false, queue_do d (MarkInFlight (d_queue d) (row_ID row) providerCallID))
        end
  end.

(** One iteration of [dispatchCampaignAt]'s loop: the new state, and whether
    the loop returns ([return]) instead of going on ([continue]). *)
Definition dispatch_row (d : D) (campaignID : string) (now : Z) (row : DialRow) : D * bool :=
  if IsSuppressed (d_suppression d) (row_TenantID row) (row_Phone row) then
    (queue_do d (UpdateRow (d_queue d) (row_ID row) (fun r =>
       set_Disposition "dnd" (set_Status "suppressed" r))), false)
  else
    let '(startH, endH, loc) := extractWindowParams (env_loc env) (row_CampaignCtx row) in
    if negb (inCallingWindow now startH endH loc) then
      let next := nextWindowOpen now startH endH loc in
      (queue_do d (UpdateRow (d_queue d) (row_ID row) (set_NextAttemptAt next)), false)
    else
      let '(hourlyCap, dailyCap, costCapINR) := extractRateLimitCaps (row_CampaignCtx row) in
      let '(wall, d) := time_now d in
      let '(ok, _) := Allowed (d_ratelimit d) wall campaignID hourlyCap dailyCap costCapINR in
      if negb ok then (d, true)
      else
        let '(placed, done, d) := placeCall d row in
        if done then (d, true)
        else if placed then
          let '(wall, d) := time_now d in
          (with_ratelimit d (RecordCall (d_ratelimit d) wall campaignID), false)
        else (d, false).

(** The loop over the pending rows. *)
Fixpoint dispatch_rows (d : D) (campaignID : string) (now : Z) (rows : list DialRow) : D :=
  match rows with
  | [] => d
  | row :: rows' =>
      let '(d, stop) := dispatch_row d campaignID now row in
      if stop then d else dispatch_rows d campaignID now rows'
  end.

Definition dispatchCampaignAt (d : D) (campaignID : string) (now : Z) : D :=
  match PendingRows (d_queue d) campaignID now with
  | Err _ => d
  | Ok rows => dispatch_rows d campaignID now rows
  end.

(** [tickAt]: one round over the active campaigns, in map iteration order. *)
Definition tickAt (d : D) (now : Z) : D :=
  foldl (fun d id => dispatchCampaignAt d id now) d (env_iter env (elements (d_active d))).

(** [resumeActive]: at startup, campaigns with unfinished rows are active. *)
Definition resumeActive (d : D) : D :=
  match ActiveCampaignIDs (d_queue d) with
  | Err _ => d
  | Ok ids => with_active d (list_to_set ids ∪ d_active d)
  end.

Definition ActivateCampaign (d : D) (campaignID : string) : D :=
  with_active d ({[campaignID]} ∪ d_active d).

(** The rows built for the leads whose phone resolves; the others are
    skipped. *)
Fixpoint launch_rows (d : D) (campaign : campaignResponse) (campaignID : string)
    (ctx : ctxmap) (leadIDs : list string) : list DialRow * D :=
  match leadIDs with
  | [] => ([], d)
  | lid :: leadIDs' =>
      match resolvePhone env (cr_TenantID campaign) lid with
      | Err _ => launch_rows d campaign campaignID ctx leadIDs'
      | Ok phone =>
          let '(id, d) := fresh_uuid d in
          let '(now, d) := time_now d in
          let '(rows, d) := launch_rows d campaign campaignID ctx leadIDs' in
          ({| row_ID := id;
              row_CampaignID := campaignID;
              row_TenantID := cr_TenantID campaign;
              row_LeadID := lid;
              row_Phone := phone;
              row_ProjectID := cr_ProjectID campaign;
              row_KbVersionID := cr_KbVersionID campaign;
              row_Attempts := 0;
              row_Status := "pending";
              row_NextAttemptAt := now;
              row_Disposition := "";
              row_ProviderCallID := "";
              row_CampaignCtx := Some ctx |} :: rows, d)
      end
  end.

(** [onCampaignLaunched]: the new state and the error returned, if any. *)
Definition onCampaignLaunched (d : D) (campaignID : string) : D * option string :=
  match fetchCampaign env campaignID with
  | Err e => (d, Some ("fetch campaign: " +:+ e))
  | Ok campaign =>
      match fetchLimits env campaignID with
      | Err e => (d, Some ("fetch limits: " +:+ e))
      | Ok limits =>
          match fetchCampaignLeads env campaignID with
          | Err e => (d, Some ("fetch leads: " +:+ e))
          | Ok leadIDs =>
              let ctx := launch_ctx (cr_Context campaign) limits in
              let '(rows, d) := launch_rows d campaign campaignID ctx leadIDs in
              match rows with
              | [] => (d, None)
              | _ :: _ =>
                  match SeedRows (d_queue d) rows with
                  | Err e => (d, Some ("seed rows: " +:+ e))
                  | Ok q => (ActivateCampaign (with_queue d q) campaignID, None)
                  end
              end
          end
      end
  end.

(** [setLastOutcomeEventID]. *)
Definition setLastOutcomeEventID (eventID : string) (r : DialRow) : DialRow :=
  set_CampaignCtx
    (Some (<["_last_outcome_event_id" := AString eventID]> (default ∅ (row_CampaignCtx r)))) r.

Definition update_queue (d : D) (r : result Q) : D * option string :=
  match r with Ok q => (with_queue d q, None) | Err e => (d, Some e) end.

(** [onCallOutcome]: finalise, exhaust or reschedule the row of a call. *)
Definition onCallOutcome (d : D) (eventID providerCallID status : string) : D * option string :=
  match FindByLastOutcomeEventID (d_queue d) eventID with
  | Err e => (d, Some e)
  | Ok (Some _) => (d, None)
  | Ok None =>
      match FindByProviderCallID (d_queue d) providerCallID with
      | Err e => (d, Some e)
      | Ok None => (d, None)
      | Ok (Some row) =>
          let p := extractRetryPolicy (row_CampaignCtx row) in
          let delayMin := retryDelayMinutes status p in
          if decide (status = "completed") then
            update_queue d (UpdateRow (d_queue d) (row_ID row) (fun r =>
              setLastOutcomeEventID eventID
                (set_ProviderCallID providerCallID
                  (set_Disposition "answered" (set_Status "done" r)))))
          else
            let newAttempts := row_Attempts row + 1 in
            if RetryMax p <=? newAttempts then
              update_queue d (UpdateRow (d_queue d) (row_ID row) (fun r =>
                setLastOutcomeEventID eventID
                  (set_ProviderCallID ""
                    (set_Disposition "exhausted"
                      (set_Status "failed" (set_Attempts newAttempts r))))))
            else
              let '(now, d) := time_now d in
              let nextAt := now + wrap64 (wrap64 delayMin * minute) in
              update_queue d (UpdateRow (d_queue d) (row_ID row) (fun r =>
                setLastOutcomeEventID eventID
                  (set_NextAttemptAt nextAt
                    (set_ProviderCallID ""
                      (set_Disposition status
                        (set_Status "pending" (set_Attempts newAttempts r)))))))
      end
  end.
End Ops.

(** [SubscribeCallOutcomes]: only completed and failed events with a call id
    reach the dispatcher; everything else is acknowledged and dropped. *)
Record outcomePayload := mkOutcome {
  o_event_id : string;
  o_provider_call_id : string;
  o_status : string
}.

Definition outcome_event (subject : string) (data : option outcomePayload)
    : option (string * string * string) :=
  if decide (subject <> "call.completed" /\ subject <> "call.failed") then None
  else
    match data with
    | None => None
    | Some p =>
        if is_empty (o_provider_call_id p) then None
        else Some (o_event_id p, o_provider_call_id p, o_status p)
    end.
