(* ===== verification/DispatcherSafety.v ===== *)
(** * The dispatcher places only compliant, budgeted calls

    Proved against the interfaces of the queue, the rate limiter and the
    suppression store. *)

From S2P Require Import Prelude GoTime Float64 Kv DialQueue Compliance RateLimit Dispatcher.

Open Scope Z_scope.

(** What the dispatcher needs of a queue: the rows offered for dialling belong
    to the campaign, are pending and are due. *)
Class DialQueueLaws (Q : Type) `{DialQueueStore Q} := {
  pending_due q c now rows :
    PendingRows q c now = Ok rows ->
    Forall (fun r => row_CampaignID r = c /\ row_Status r = "pending" /\
                     row_NextAttemptAt r <= now) rows
}.

#[export] Program Instance pgkv_queue_laws : DialQueueLaws (kv DialRow).
Next Obligation.
  intros *. simpl. unfold Pgkv.PendingRows. intros Hp. split_in Hp.
  apply Forall_forall. intros r Hr. apply list_elem_of_In, filter_In in Hr as [_ Hr].
  unfold Pgkv.due in Hr. go_bool. auto.
Qed.

Section Safety.
Context {Q R S : Type} `{!DialQueueStore Q} `{!RateLimiter R} `{!SuppressionStore S}.
Context (env : Env) (cfg : Config).
Implicit Types (d : Dispatcher Q R S).

(** ** What each operation leaves alone *)

Lemma queue_do_posts d r : d_posts (queue_do d r) = d_posts d.
Proof. destruct d, r; done. Qed.
Lemma queue_do_sup d r : d_suppression (queue_do d r) = d_suppression d.
Proof. destruct d, r; done. Qed.
Lemma queue_do_rl d r : d_ratelimit (queue_do d r) = d_ratelimit d.
Proof. destruct d, r; done. Qed.
Lemma queue_do_reads d r : d_reads (queue_do d r) = d_reads d.
Proof. destruct d, r; done. Qed.
(** A successful answer of the telephony service. *)
Definition accepted (h : http string) : bool :=
  match h with
  | Resp st (Some _) => negb (st =? 503) && (st <? 300)
  | _ => false
  end.

(** The calls a row's [placeCall] adds to the log: its payload, unless the
    request could not even be built. *)
Definition posted (h : http string) (p : callPayload) : list callPayload :=
  match h with BadRequest => [] | _ => [p] end.

(** The queue after [placeCall], by the answer received. *)
Definition placed_queue (q : Q) (row : DialRow) (sid : string) (h : http string) : result Q :=
  match h with
  | BadRequest => Ok q
  | NetErr => MarkFailed q (row_ID row)
  | Resp st body =>
      if st =? 503 then Ok q
      else if 300 <=? st then MarkFailed q (row_ID row)
      else match body with
           | None => MarkFailed q (row_ID row)
           | Some out => MarkInFlight q (row_ID row) (if is_empty out then sid else out)
           end
  end.

(** [placeCall] posts the row's payload, touches neither the suppression
    store nor the limiter, reports [placed] exactly when the service accepted
    the call and [stop] exactly on a 503. *)
Lemma placeCall_spec d row placed stop d' :
  let sid := env_uuid env (d_uuids d) in
  let p := call_payload cfg sid row in
  let h := env_call env (d_posts d) p in
  placeCall env cfg d row = (placed, stop, d') ->
  d_suppression d' = d_suppression d /\ d_ratelimit d' = d_ratelimit d /\
  (d_reads d <= d_reads d')%nat /\ d_posts d' = d_posts d ++ posted h p /\
  d_queue d' = match placed_queue (d_queue d) row sid h with Ok q => q | Err _ => d_queue d end /\
  placed = accepted h /\
  stop = match h with Resp st _ => st =? 503 | _ => false end.
Proof.
  destruct d as [q r s se ru ac u i ps].
  unfold placeCall, accepted, placed_queue, posted. simpl.
  destruct (env_call env ps _) as [| |st [out|]]; simpl.
  - intros [= <- <- <-]. rewrite app_nil_r. conj_done.
  - intros [= <- <- <-]. destruct (MarkFailed _ _); conj_done.
  - destruct (st =? 503); simpl; [intros [= <- <- <-]; conj_done|].
    destruct (300 <=? st) eqn:E300; simpl.
    + replace (st <? 300) with false by (symmetry; apply Z.ltb_ge, Z.leb_le; done).
      intros [= <- <- <-]. destruct (MarkFailed _ _); conj_done.
    + replace (st <? 300) with true by (symmetry; apply Z.ltb_lt; go_bool; lia).
      intros [= <- <- <-]. unfold set_session. destruct ru; simpl;
        destruct (MarkInFlight _ _ _); conj_done.
  - destruct (st =? 503); simpl; [intros [= <- <- <-]; conj_done|].
    destruct (300 <=? st); simpl; intros [= <- <- <-]; destruct (MarkFailed _ _); conj_done.
Qed.

(** ** Gates *)

(** The two compliance gates, as a condition on a row at [now]. *)
Definition gate_open (s : S) (now : Z) (row : DialRow) : Prop :=
  IsSuppressed s (row_TenantID row) (row_Phone row) = false /\
  exists startH endH loc,
    extractWindowParams (env_loc env) (row_CampaignCtx row) = (startH, endH, loc) /\
    inCallingWindow now startH endH loc = true.

(** A placed call: the row it is for and the session id it was given. *)
Definition payload_of (c : DialRow * string) : callPayload := call_payload cfg c.2 c.1.

(** Between two states exactly the calls [calls] were posted, in this order,
    each for a row of [rows] (a row at most once, in the order of [rows]) that
    passes the gates; the suppression store has not changed. *)
Definition posts_for (now : Z) (rows : list DialRow) (d d' : Dispatcher Q R S) : Prop :=
  d_suppression d' = d_suppression d /\
  exists calls, d_posts d' = d_posts d ++ (payload_of <$> calls) /\
    calls.*1 `sublist_of` rows /\ Forall (gate_open (d_suppression d) now) calls.*1.

Lemma posts_for_same now rows d d' :
  d_suppression d' = d_suppression d -> d_posts d' = d_posts d -> posts_for now rows d d'.
Proof.
  intros Hs Hp. split; [done|]. exists []. rewrite app_nil_r, Hp. split; [done|].
  split; [apply sublist_nil_l|constructor].
Qed.

Lemma posts_for_trans now rows1 rows2 d1 d2 d3 :
  posts_for now rows1 d1 d2 -> posts_for now rows2 d2 d3 -> posts_for now (rows1 ++ rows2) d1 d3.
Proof.
  intros (Hs1 & n1 & Hn1 & Hr1 & Hf1) (Hs2 & n2 & Hn2 & Hr2 & Hf2).
  split; [congruence|]. exists (n1 ++ n2). rewrite Hn2, Hn1, !fmap_app, app_assoc, <- Hs1.
  split; [done|]. split; [by apply sublist_app|]. apply Forall_app. split; congruence.
Qed.

Lemma time_now_fields d t d' :
  time_now env d = (t, d') ->
  t = env_clock env (d_reads d) /\ d_reads d' = Datatypes.S (d_reads d) /\
  d_posts d' = d_posts d /\ d_suppression d' = d_suppression d /\
  d_ratelimit d' = d_ratelimit d /\ d_queue d' = d_queue d /\ d_uuids d' = d_uuids d.
Proof. destruct d. simpl. intros ?. by simplify_eq/=. Qed.

Lemma dispatch_row_posts d campaignID now row d' stop :
  dispatch_row env cfg d campaignID now row = (d', stop) -> posts_for now [row] d d'.
Proof.
  unfold dispatch_row. destruct (IsSuppressed _ _ _) eqn:Esup.
  { intros [= <- <-]. apply posts_for_same; [apply queue_do_sup | apply queue_do_posts]. }
  destruct (extractWindowParams _ _) as [[startH endH] loc] eqn:Ewin.
  destruct (inCallingWindow now startH endH loc) eqn:Ein; simpl.
  2:{ intros [= <- <-]. apply posts_for_same; [apply queue_do_sup | apply queue_do_posts]. }
  destruct (extractRateLimitCaps _) as [[hc dc] cc].
  destruct (time_now env d) as [wall d1] eqn:Ed1.
  apply time_now_fields in Ed1 as (_ & _ & Hp1 & Hs1 & _).
  destruct (Allowed _ _ _ _ _ _) as [[] ?]; simpl.
  2:{ intros [= <- <-]. by apply posts_for_same. }
  destruct (placeCall env cfg d1 row) as [[placed stop'] d2] eqn:Epc.
  apply placeCall_spec in Epc as (Hs2 & _ & _ & Hn & _).
  assert (Hd2 : posts_for now [row] d d2).
  { split; [congruence|]. rewrite Hp1 in Hn.
    assert (gate_open (d_suppression d) now row) by (split; eauto).
    destruct (env_call _ _ _); [exists []|exists [(row, env_uuid env (d_uuids d1))]..];
      (split; [exact Hn|]); (split; [try done; apply sublist_nil_l|]); simpl; auto using Forall_nil_2, Forall_cons_2. }
  destruct stop'; [by intros [= <- <-]|]. destruct placed; [|by intros [= <- <-]].
  destruct (time_now env d2) as [wall2 d3] eqn:Ed3.
  apply time_now_fields in Ed3 as (_ & _ & Hp3 & Hs3 & _).
  intros [= <- <-]. apply (posts_for_trans _ [row] [] _ d2); [exact Hd2|].
  apply posts_for_same; by destruct d3.
Qed.

Lemma dispatch_rows_posts rows d campaignID now :
  posts_for now rows d (dispatch_rows env cfg d campaignID now rows).
Proof.
  revert d. induction rows as [|row rows IH]; intros d; simpl; [by apply posts_for_same|].
  destruct (dispatch_row env cfg d campaignID now row) as [d1 stop] eqn:E.
  apply dispatch_row_posts in E. apply (posts_for_trans _ [row] rows _ d1); [done|].
  destruct stop; [by apply posts_for_same|apply IH].
Qed.
End Safety.

(** ** The budget *)
Section Budget.
Context {Q R S : Type} `{!DialQueueStore Q} `{!SuppressionStore S}.
Context `{HRL : RateLimiter R, !RateLimiterLaws R}.
Context (env : Env) (cfg : Config).
Implicit Types (d : Dispatcher Q R S).

(** How many of the calls [new], posted after [hist], were accepted. *)
Fixpoint accepted_count (hist new : list callPayload) : Z :=
  match new with
  | [] => 0
  | p :: new' =>
      (if accepted (env_call env hist p) then 1 else 0) + accepted_count (hist ++ [p]) new'
  end.

Lemma accepted_count_app hist n1 n2 :
  accepted_count hist (n1 ++ n2) = accepted_count hist n1 + accepted_count (hist ++ n1) n2.
Proof.
  revert hist. induction n1 as [|p n1 IH]; intros hist; simpl; [by rewrite app_nil_r|].
  rewrite IH, <- app_assoc. simpl. lia.
Qed.

Context (id : string) (t : Z) (capH capD : Z).
(** The run stays within one UTC hour. *)
Context (Hhour : forall n, utc_hour_index (env_clock env n) = utc_hour_index t).

Definition hour_used d : Z := rl_hour (d_ratelimit d) t id.
Definition day_used d : Z := rl_day (d_ratelimit d) t id.

(** Exactly the accepted calls are counted, and only while below the caps. *)
Definition budgeted d d' : Prop :=
  rl_healthy (d_ratelimit d') /\
  exists new, d_posts d' = d_posts d ++ new /\
    hour_used d' = hour_used d + accepted_count (d_posts d) new /\
    day_used d' = day_used d + accepted_count (d_posts d) new /\
    hour_used d' <= Z.max capH (hour_used d) /\ day_used d' <= Z.max capD (day_used d).

Lemma budgeted_same d d' :
  rl_healthy (d_ratelimit d) -> d_ratelimit d' = d_ratelimit d -> d_posts d' = d_posts d ->
  budgeted d d'.
Proof.
  intros Hh Hr Hp. split; [congruence|]. exists []. unfold hour_used, day_used.
  rewrite app_nil_r, Hr. simpl. repeat split; (done || lia).
Qed.

Lemma budgeted_trans d1 d2 d3 : budgeted d1 d2 -> budgeted d2 d3 -> budgeted d1 d3.
Proof.
  intros (_ & n1 & Hp1 & Hh1 & Hd1 & Hb1 & Hc1) (Hh & n2 & Hp2 & Hh2 & Hd2 & Hb2 & Hc2).
  split; [done|]. exists (n1 ++ n2).
  rewrite accepted_count_app, <- Hp1, Hp2, Hp1, app_assoc.
  rewrite <- Hp1. repeat split; (done || lia).
Qed.

Lemma day_of_hour n : utc_day_index (env_clock env n) = utc_day_index t.
Proof.
  specialize (Hhour n). unfold utc_hour_index, utc_day_index in *.
  change 86400 with (3600 * 24). rewrite <- !Z.div_div by lia. congruence.
Qed.

(** Recording a call at a later reading of the clock counts it for [t]. *)
Lemma record_counts r n :
  rl_healthy r ->
  rl_healthy (RecordCall r (env_clock env n) id) /\
  rl_hour (RecordCall r (env_clock env n) id) t id = rl_hour r t id + 1 /\
  rl_day (RecordCall r (env_clock env n) id) t id = rl_day r t id + 1.
Proof.
  intros Hh. split; [by apply record_healthy|].
  rewrite !(rl_hour_stamp _ t (env_clock env n)) by (by rewrite Hhour).
  rewrite !(rl_day_stamp _ t (env_clock env n)) by (by rewrite day_of_hour).
  rewrite record_hour, record_day by (done || lia).
  by case_decide.
Qed.

Lemma accepted_posted hist p :
  accepted_count hist (posted (env_call env hist p) p)
  = if accepted (env_call env hist p) then 1 else 0.
Proof. unfold posted. case_match eqn:E; simpl; rewrite ?E; simpl; try lia; done. Qed.

Lemma budgeted_unplaced d d1 row stop d2 :
  rl_healthy (d_ratelimit d) -> d_ratelimit d1 = d_ratelimit d -> d_posts d1 = d_posts d ->
  placeCall env cfg d1 row = (false, stop, d2) -> budgeted d d2.
Proof.
  intros Hh Hr Hp (_ & Hr2 & _ & Hn & _ & Hpl & _)%placeCall_spec.
  rewrite Hp in *. split; [congruence|]. eexists. split; [exact Hn|].
  unfold hour_used, day_used. rewrite accepted_posted, <- Hpl, Hr2, Hr. conj_done.
Qed.

Lemma budgeted_placed d d1 row stop d2 wall d3 :
  rl_healthy (d_ratelimit d) -> d_ratelimit d1 = d_ratelimit d -> d_posts d1 = d_posts d ->
  hour_used d < capH -> day_used d < capD ->
  placeCall env cfg d1 row = (true, stop, d2) -> time_now env d2 = (wall, d3) ->
  budgeted d (with_ratelimit d3 (RecordCall (d_ratelimit d3) wall id)).
Proof.
  intros Hh Hr Hp HH HD (_ & Hr2 & _ & Hn & _ & Hpl & _)%placeCall_spec.
  intros (-> & _ & Hp3 & _ & Hr3 & _)%time_now_fields.
  rewrite Hp in *. unfold hour_used, day_used in *.
  assert (Hrl : d_ratelimit d3 = d_ratelimit d) by congruence.
  destruct (record_counts (d_ratelimit d3) (d_reads d2)) as (Hh' & Hh1 & Hd1); [congruence|].
  unfold budgeted, hour_used, day_used. rewrite Hn in Hp3.
  destruct d3; simpl in *. subst. split; [done|]. eexists. split; [done|].
  rewrite accepted_posted, <- Hpl, Hh1, Hd1, Hrl. conj_done.
Qed.

(** The caps of a row do not exceed the ones the budget is about. *)
Definition row_caps_le (row : DialRow) : Prop :=
  let '(hc, dc, _) := extractRateLimitCaps (row_CampaignCtx row) in
  effective_cap hc DefaultHourlyCap <= capH /\ effective_cap dc DefaultDailyCap <= capD.

Lemma allowed_room d hc dc cc :
  rl_healthy (d_ratelimit d) ->
  (Allowed (d_ratelimit d) (env_clock env (d_reads d)) id hc dc cc).1 = true ->
  effective_cap hc DefaultHourlyCap <= capH -> effective_cap dc DefaultDailyCap <= capD ->
  hour_used d < capH /\ day_used d < capD.
Proof.
  intros Hh Ha HH HD.
  destruct (allowed_below _ (env_clock env (d_reads d)) id hc dc cc Hh Ha) as [Hb1 Hb2].
  unfold hour_used, day_used.
  rewrite (rl_hour_stamp _ _ t) in Hb1 by (by rewrite Hhour).
  rewrite (rl_day_stamp _ _ t) in Hb2 by (by rewrite day_of_hour). lia.
Qed.

Lemma dispatch_row_budget d now row d' stop :
  rl_healthy (d_ratelimit d) -> row_caps_le row ->
  dispatch_row env cfg d id now row = (d', stop) -> budgeted d d'.
Proof.
  intros Hh Hcaps. unfold dispatch_row. destruct (IsSuppressed _ _ _).
  { intros [= <- <-]. apply budgeted_same; [done|apply queue_do_rl|apply queue_do_posts]. }
  destruct (extractWindowParams _ _) as [[startH endH] loc]. destruct (negb _).
  { intros [= <- <-]. apply budgeted_same; [done|apply queue_do_rl|apply queue_do_posts]. }
  unfold row_caps_le in Hcaps. destruct (extractRateLimitCaps _) as [[hc dc] cc].
  destruct (time_now env d) as [wall d1] eqn:Ed1.
  apply time_now_fields in Ed1 as (-> & _ & Hp1 & _ & Hr1 & _).
  destruct (Allowed _ _ _ _ _ _) as [[] ?] eqn:Eal; simpl.
  2:{ intros [= <- <-]. by apply budgeted_same. }
  rewrite Hr1 in Eal.
  destruct (allowed_room d hc dc cc Hh) as [HH HD]; [by rewrite Eal|apply Hcaps..|].
  destruct (placeCall env cfg d1 row) as [[placed stop'] d2] eqn:Epc.
  destruct placed; [|destruct stop'; intros [= <- <-]; by eapply budgeted_unplaced].
  destruct stop'.
  { apply placeCall_spec in Epc as (_ & _ & _ & _ & _ & Hpl & Hst). exfalso.
    unfold accepted in Hpl. repeat case_match; simplify_eq. by rewrite <- Hst in Hpl. }
  destruct (time_now env d2) as [wall2 d3] eqn:Ed3.
  intros [= <- <-]. by eapply budgeted_placed.
Qed.

Lemma dispatch_rows_budget rows d now :
  rl_healthy (d_ratelimit d) -> Forall row_caps_le rows ->
  budgeted d (dispatch_rows env cfg d id now rows).
Proof.
  intros Hh Hf. revert d Hh. induction Hf as [|row rows Hrow _ IH]; intros d Hh; simpl.
  { by apply budgeted_same. }
  destruct (dispatch_row env cfg d id now row) as [d1 stop] eqn:E.
  apply dispatch_row_budget in E; [|done..]. destruct stop; [done|].
  eapply budgeted_trans; [exact E|]. apply IH. apply E.
Qed.
End Budget.
