(* ===== verification/DispatcherQueue.v ===== *)
(** * The life cycle of a dial row

    The dispatcher over the durable queue: the table of the moves of a row
    ([row_step]), the queue invariant, and the simulation of every dispatcher
    operation by steps of that life cycle. *)

From S2P Require Import Prelude GoTime Float64 Kv DialQueue Compliance RateLimit Dispatcher DispatcherSafety.

Open Scope Z_scope.

(** ** The abstract life cycle *)

Definition dialled (pcid : string) (r : DialRow) : DialRow :=
  set_Attempts (row_Attempts r + 1) (set_ProviderCallID pcid (set_Status "in_flight" r)).
Definition suppressed_row (r : DialRow) : DialRow :=
  set_Disposition "dnd" (set_Status "suppressed" r).
Definition answered (e p : string) (r : DialRow) : DialRow :=
  setLastOutcomeEventID e (set_ProviderCallID p (set_Disposition "answered" (set_Status "done" r))).
Definition exhausted (e : string) (n : Z) (r : DialRow) : DialRow :=
  setLastOutcomeEventID e (set_ProviderCallID "" (set_Disposition "exhausted"
    (set_Status "failed" (set_Attempts n r)))).
Definition rescheduled (e status : string) (n t : Z) (r : DialRow) : DialRow :=
  setLastOutcomeEventID e (set_NextAttemptAt t (set_ProviderCallID "" (set_Disposition status
    (set_Status "pending" (set_Attempts n r))))).

Definition policy (r : DialRow) : retryPolicy := extractRetryPolicy (row_CampaignCtx r).

Inductive row_step (r : DialRow) : DialRow -> Prop :=
| rs_defer t :
    row_Status r = "pending" -> row_step r (set_NextAttemptAt t r)
| rs_suppress :
    row_Status r = "pending" -> row_step r (suppressed_row r)
| rs_fail :
    row_Status r = "pending" -> row_step r (set_Status "failed" r)
| rs_dial pcid :
    row_Status r = "pending" -> pcid <> "" -> row_step r (dialled pcid r)
| rs_done e :
    row_ProviderCallID r <> "" -> row_step r (answered e (row_ProviderCallID r) r)
| rs_exhaust e :
    row_ProviderCallID r <> "" -> RetryMax (policy r) <= row_Attempts r + 1 ->
    row_step r (exhausted e (row_Attempts r + 1) r)
| rs_retry e status t :
    row_ProviderCallID r <> "" -> row_Attempts r + 1 < RetryMax (policy r) ->
    row_step r (rescheduled e status (row_Attempts r + 1) t r).

(** ** The invariant of a row and of the queue *)

(** A status the code uses, with what it says about the provider's call id:
    a row that is not on a call (or answered) has none. *)
Definition status_ok (r : DialRow) : Prop :=
  (row_ProviderCallID r = "" /\
     (row_Status r = "pending" \/ row_Status r = "failed" \/ row_Status r = "suppressed")) \/
  (row_ProviderCallID r <> "" /\
     (row_Status r = "in_flight" \/ (row_Status r = "done" /\ row_Disposition r = "answered"))).

Definition row_ok (kr : string * DialRow) : Prop :=
  row_ID kr.2 = kr.1 /\ Pgkv.seed_key kr.2 = kr.1 /\ 0 <= row_Attempts kr.2 /\ status_ok kr.2.

Definition QInv (q : kv DialRow) : Prop := NoDup (kv_rows q).*1 /\ Forall row_ok (kv_rows q).

Lemma QInv_empty : QInv kv_empty.
Proof. split; [apply NoDup_nil_2|apply Forall_nil_2]. Qed.
#[export] Hint Resolve QInv_empty : lead.

(** A row waiting to be dialled has no provider call id and vice versa. *)
Lemma status_ok_pending r : status_ok r -> row_Status r = "pending" -> row_ProviderCallID r = "".
Proof. unfold status_ok. intuition congruence. Qed.

Lemma row_step_ok k r r' : row_step r r' -> row_ok (k, r) -> row_ok (k, r').
Proof.
  intros Hs (Hid & Hk & Ha & Hst). destruct r as [a b c d e f g h i j l m n].
  unfold row_ok, Pgkv.seed_key in *. simpl in *.
  destruct Hs; simpl in *; unfold status_ok in *; simpl in *;
    (split; [done|]; split; [done|]; split; [lia|]); intuition congruence.
Qed.

(** The moves between statuses that one step can make.  An answered row is
    open to later events for its call. *)
Definition status_move (a b : string) : bool :=
  bool_decide ((a, b) ∈ [("pending", "pending"); ("pending", "suppressed");
    ("pending", "failed"); ("pending", "in_flight");
    ("in_flight", "done"); ("in_flight", "failed"); ("in_flight", "pending");
    ("done", "done"); ("done", "failed"); ("done", "pending")]).

Lemma row_step_move k r r' :
  row_step r r' -> row_ok (k, r) -> status_move (row_Status r) (row_Status r') = true.
Proof.
  intros Hs (_ & _ & _ & Hok). destruct r as [a b c d e f g h i j l m n].
  unfold status_ok in Hok. simpl in *.
  destruct Hs; simpl in *; destruct Hok as [[? [?|[?|?]]]|[? [?|[? ?]]]]; by simplify_eq.
Qed.

Lemma row_steps_ok k r r' : rtc row_step r r' -> row_ok (k, r) -> row_ok (k, r').
Proof. induction 1; eauto using row_step_ok. Qed.

(** The fields that identify a row never change. *)
Definition same_target (r r' : DialRow) : Prop :=
  row_ID r' = row_ID r /\ row_CampaignID r' = row_CampaignID r /\
  row_TenantID r' = row_TenantID r /\ row_LeadID r' = row_LeadID r /\
  row_Phone r' = row_Phone r /\ row_Attempts r <= row_Attempts r'.

Lemma row_steps_target r r' : rtc row_step r r' -> same_target r r'.
Proof.
  induction 1 as [|r1 r2 r3 Hs _ IH]; [unfold same_target; conj_done|].
  assert (same_target r1 r2).
  { destruct r1. destruct Hs; unfold same_target; conj_done. }
  unfold same_target in *. destruct_and!. split_and!; congruence || lia.
Qed.

(** Failed and suppressed rows are final. *)
Definition final (r : DialRow) : Prop := row_Status r = "failed" \/ row_Status r = "suppressed".

Lemma row_steps_final k r r' : rtc row_step r r' -> row_ok (k, r) -> final r -> r' = r.
Proof.
  intros Hs (_ & _ & _ & Hok) Hf. simpl in Hok.
  destruct Hs as [|r r1 r2 Hs _]; [done|]. exfalso.
  unfold final, status_ok in *. destruct Hs; intuition congruence.
Qed.

(** ** Simulation between queues *)

(** Every row of [q] is still there, advanced by its life cycle; rows that are
    new in [q'] have just been seeded or have advanced since. *)
Definition simulates (q q' : kv DialRow) : Prop :=
  forall k r, rows_get k (kv_rows q) = Some r ->
    exists r', rows_get k (kv_rows q') = Some r' /\ rtc row_step r r'.

Lemma simulates_refl q : simulates q q.
Proof. intros k r ?. eauto using rtc_refl. Qed.

Lemma simulates_trans q1 q2 q3 : simulates q1 q2 -> simulates q2 q3 -> simulates q1 q3.
Proof.
  intros H1 H2 k r Hr. destruct (H1 k r Hr) as (r2 & Hr2 & ?).
  destruct (H2 k r2 Hr2) as (r3 & ? & ?). exists r3. split; [done|]. by etrans.
Qed.

(** One operation on the queue: the invariant is kept and rows advance. *)
Definition good (q q' : kv DialRow) : Prop := QInv q -> QInv q' /\ simulates q q'.

Lemma good_refl q : good q q.
Proof. intros ?. split; [done|apply simulates_refl]. Qed.

Lemma good_trans q1 q2 q3 : good q1 q2 -> good q2 q3 -> good q1 q3.
Proof. intros H1 H2 I1. destruct (H1 I1) as [I2 ?], (H2 I2) as [? ?]. eauto using simulates_trans. Qed.

#[export] Hint Resolve good_refl simulates_refl : lead.

Lemma QInv_get q k r : QInv q -> rows_get k (kv_rows q) = Some r -> row_ok (k, r).
Proof. intros [_ Hf] Hg. rewrite Forall_forall in Hf. by apply Hf, rows_get_in. Qed.

(** Updating a stored row along its life cycle is a good operation. *)
Lemma updateRow_good q id fn q' r :
  rows_get id (kv_rows q) = Some r -> row_step r (fn r) ->
  Pgkv.updateRow q id fn = Ok q' ->
  good q q' /\ kv_rows q' = rows_put id (fn r) (kv_rows q).
Proof.
  intros Hg Hs. unfold Pgkv.updateRow, kv_get, kv_put. destruct (kv_up q) eqn:Eup; [|done].
  rewrite Hg. intros [= <-]. simpl. split; [|done]. intros Hinv.
  pose proof (QInv_get _ _ _ Hinv Hg) as Hok. destruct Hinv as [Hnd Hf]. split.
  - split; simpl; [by apply rows_put_NoDup|].
    apply rows_put_Forall; [done|]. by eapply row_step_ok.
  - intros k r0 Hk. simpl. rewrite rows_get_put. case_decide; subst.
    + simplify_eq. eauto using rtc_once.
    + eauto using rtc_refl.
Qed.

Lemma updateRow_up q id fn q' : Pgkv.updateRow q id fn = Ok q' -> kv_up q' = true.
Proof.
  unfold Pgkv.updateRow, kv_get, kv_put. destruct (kv_up q); [|done].
  destruct (rows_get _ _); [|done]. by intros [= <-].
Qed.

(** ** Dispatching from a snapshot *)

(** The rows still to be processed by the loop are stored as they were read. *)
Definition snapshot (q : kv DialRow) (rows : list DialRow) : Prop :=
  NoDup (row_ID <$> rows) /\
  Forall (fun r => rows_get (row_ID r) (kv_rows q) = Some r /\ row_Status r = "pending") rows.

Lemma pending_snapshot q c now rows :
  QInv q -> Pgkv.PendingRows q c now = Ok rows -> snapshot q rows.
Proof.
  intros [Hnd Hf]. unfold Pgkv.PendingRows, kv_list.
  destruct (kv_up q); [|done]. intros [= <-].
  assert (Hids : row_ID <$> (kv_rows q).*2 = (kv_rows q).*1).
  { rewrite <- list_fmap_compose. apply list_fmap_ext. intros i x Hx.
    rewrite Forall_lookup in Hf. by destruct (Hf i x Hx). }
  assert (Hsub : forall l, List.filter (Pgkv.due c now) l `sublist_of` l).
  { induction l as [|x l IH]; simpl; [done|]. destruct (Pgkv.due c now x); [by apply sublist_skip|by apply sublist_cons]. }
  split.
  - eapply sublist_NoDup; [|apply fmap_sublist, Hsub]. by rewrite Hids.
  - apply Forall_forall. intros r Hr. apply list_elem_of_In, filter_In in Hr as [Hin Hdue].
    unfold Pgkv.due in Hdue. go_bool. split; [|done].
    apply list_elem_of_In, list_elem_of_fmap in Hin as ([k r'] & -> & Hin).
    rewrite Forall_forall in Hf. destruct (Hf _ Hin) as [-> _]. by apply rows_get_elem.
Qed.

(** Only the rows under [ids] may differ between the two queues, each by one
    step of its life cycle. *)
Definition moved (ids : list string) (q q' : kv DialRow) : Prop :=
  forall k, rows_get k (kv_rows q') = rows_get k (kv_rows q) \/
    (k ∈ ids /\ exists r r', rows_get k (kv_rows q) = Some r /\
       rows_get k (kv_rows q') = Some r' /\ row_step r r').

Lemma moved_refl ids q : moved ids q q.
Proof. by left. Qed.

Lemma moved_app ids1 ids2 q1 q2 q3 :
  NoDup (ids1 ++ ids2) -> moved ids1 q1 q2 -> moved ids2 q2 q3 -> moved (ids1 ++ ids2) q1 q3.
Proof.
  intros (_ & Hdis & _)%NoDup_app H1 H2 k. rewrite elem_of_app.
  destruct (H1 k) as [E1|(Hk1 & r & r' & Hr & Hr' & Hs)],
    (H2 k) as [E2|(Hk2 & r2 & r2' & Hr2 & Hr2' & Hs2)].
  - left. congruence.
  - right. split; [by right|]. exists r2, r2'. by rewrite <- E1.
  - right. split; [by left|]. exists r, r'. by rewrite E2.
  - by destruct (Hdis k Hk1).
Qed.

Lemma moved_row ids q q' k r :
  moved ids q q' -> rows_get k (kv_rows q) = Some r ->
  exists r', rows_get k (kv_rows q') = Some r' /\ (r' = r \/ row_step r r').
Proof.
  intros Hm Hk. destruct (Hm k) as [E|(_ & r0 & r' & Hr & Hr' & Hs)].
  - exists r. rewrite E. auto.
  - exists r'. rewrite Hk in Hr. simplify_eq. auto.
Qed.

#[export] Hint Resolve moved_refl : lead.

Lemma snapshot_after q row rows fn :
  snapshot q (row :: rows) -> row_step row (fn row) ->
  let q' := match Pgkv.updateRow q (row_ID row) fn with Ok q' => q' | Err _ => q end in
  good q q' /\ snapshot q' rows /\ moved [row_ID row] q q'.
Proof.
  intros [Hnd Hf] Hs. csimpl in Hnd. apply NoDup_cons in Hnd as [Hni Hnd].
  apply Forall_cons in Hf as [[Hg Hp] Hf]. simpl.
  destruct (Pgkv.updateRow q (row_ID row) fn) as [q'|] eqn:E.
  - eapply updateRow_good in E as [Hgood Hrows]; [|done..]. split; [done|]. split.
    + split; [done|]. rewrite Hrows. rewrite Forall_forall in *. intros r Hr.
      rewrite rows_get_put_ne; [auto|]. intros Heq. apply Hni. rewrite <- Heq.
      by apply list_elem_of_fmap_2.
    + intros k. rewrite Hrows, rows_get_put. case_decide; subst; [|by left]. right.
      split; [by left|]. by exists row, (fn row).
  - split; [apply good_refl|]. split; [by split|apply moved_refl].
Qed.

Lemma snapshot_tail q row rows : snapshot q (row :: rows) -> snapshot q rows.
Proof. intros [Hnd Hf]. csimpl in Hnd. apply NoDup_cons in Hnd as [_ ?]. apply Forall_cons in Hf as [_ ?]. by split. Qed.

Lemma snapshot_keep q row rows :
  snapshot q (row :: rows) ->
  good q q /\ snapshot q rows /\ moved [row_ID row] q q.
Proof.
  intros Hsn. split; [apply good_refl|]. split; [by eapply snapshot_tail|apply moved_refl].
Qed.

Section Queue.
Context {R S : Type} `{!RateLimiter R} `{!SuppressionStore S}.
Context (env : Env) (cfg : Config).
Context (Huuid : forall n, env_uuid env n <> "").
Implicit Types (d : Dispatcher (kv DialRow) R S).

Lemma queue_do_queue d r :
  d_queue (queue_do d r) = match r with Ok q => q | Err _ => d_queue d end.
Proof. by destruct d, r. Qed.

Lemma placed_queue_good q row rows sid h :
  snapshot q (row :: rows) -> sid <> "" ->
  let q' := match placed_queue q row sid h with Ok q' => q' | Err _ => q end in
  good q q' /\ snapshot q' rows /\ moved [row_ID row] q q'.
Proof.
  intros Hsn Hsid. pose proof Hsn as [_ [[_ Hp] _]%Forall_cons].
  assert (Hkeep := snapshot_keep q row rows Hsn).
  assert (Hfail := snapshot_after q row rows (set_Status "failed") Hsn (rs_fail _ Hp)).
  unfold placed_queue. destruct h as [| |st body]; simpl; [done|exact Hfail|].
  destruct (st =? 503); [done|]. destruct (300 <=? st); [exact Hfail|].
  destruct body as [out|]; [|exact Hfail].
  apply (snapshot_after q row rows (dialled _) Hsn). apply rs_dial; [done|].
  unfold is_empty. by case_bool_decide.
Qed.

Lemma dispatch_row_good d campaignID now row rows d' stop :
  snapshot (d_queue d) (row :: rows) ->
  dispatch_row env cfg d campaignID now row = (d', stop) ->
  good (d_queue d) (d_queue d') /\ snapshot (d_queue d') rows /\
  moved [row_ID row] (d_queue d) (d_queue d').
Proof.
  intros Hsn. pose proof Hsn as [_ [[_ Hp] _]%Forall_cons]. unfold dispatch_row.
  destruct (IsSuppressed _ _ _).
  { intros [= <- <-]. rewrite queue_do_queue.
    apply (snapshot_after _ row rows suppressed_row Hsn). by constructor. }
  destruct (extractWindowParams _ _) as [[startH endH] loc]. destruct (negb _).
  { intros [= <- <-]. rewrite queue_do_queue.
    apply (snapshot_after _ row rows (set_NextAttemptAt _) Hsn). by constructor. }
  destruct (extractRateLimitCaps _) as [[hc dc] cc].
  destruct (time_now env d) as [wall d1] eqn:Ed1.
  apply time_now_fields in Ed1 as (_ & _ & _ & _ & _ & Hq1 & _).
  destruct (Allowed _ _ _ _ _ _) as [[] ?]; simpl.
  2:{ intros [= <- <-]. rewrite Hq1. by apply snapshot_keep. }
  destruct (placeCall env cfg d1 row) as [[placed stop'] d2] eqn:Epc.
  apply placeCall_spec in Epc as (_ & _ & _ & _ & Hq2 & _).
  rewrite Hq1 in Hq2.
  pose proof (placed_queue_good (d_queue d) row rows (env_uuid env (d_uuids d1))
    (env_call env (d_posts d1) (call_payload cfg (env_uuid env (d_uuids d1)) row))
    Hsn (Huuid _)) as Hgood. simpl in Hgood. rewrite <- Hq2 in Hgood.
  destruct stop'; [by intros [= <- <-]|]. destruct placed; [|by intros [= <- <-]].
  destruct (time_now env d2) as [wall2 d3] eqn:Ed3.
  apply time_now_fields in Ed3 as (_ & _ & _ & _ & _ & Hq3 & _).
  intros [= <- <-]. destruct d3. simpl in *. by subst.
Qed.

Lemma dispatch_rows_good rows d campaignID now :
  snapshot (d_queue d) rows ->
  let d' := dispatch_rows env cfg d campaignID now rows in
  good (d_queue d) (d_queue d') /\ moved (row_ID <$> rows) (d_queue d) (d_queue d').
Proof.
  revert d. induction rows as [|row rows IH]; intros d Hsn; simpl;
    [split; [apply good_refl|apply moved_refl]|].
  destruct (dispatch_row env cfg d campaignID now row) as [d1 stop] eqn:E.
  pose proof Hsn as [Hnd _]. csimpl in Hnd.
  eapply dispatch_row_good in E as (Hg & Hsn1 & Ht); [|done]. destruct stop.
  - split; [done|]. by apply (moved_app [row_ID row] _ _ (d_queue d1)); [| |apply moved_refl].
  - destruct (IH d1 Hsn1) as [Hg' Ht']. split; [by eapply good_trans|].
    by apply (moved_app [row_ID row] _ _ (d_queue d1)).
Qed.

(** ** What a tick dials and changes *)

(** The rows of [rows] are the ones the queue holds under their ids, are
    pending and due at [now] and belong to the campaigns [cs]; none is listed
    twice. *)
Definition offered (q : kv DialRow) (cs : list string) (now : Z) (rows : list DialRow) : Prop :=
  NoDup (row_ID <$> rows) /\
  Forall (fun r => rows_get (row_ID r) (kv_rows q) = Some r /\ row_CampaignID r ∈ cs /\
                   row_Status r = "pending" /\ row_NextAttemptAt r <= now) rows.

Lemma offered_nil q cs now : offered q cs now [].
Proof. split; constructor. Qed.

Lemma pending_offered q c now rows :
  QInv q -> Pgkv.PendingRows q c now = Ok rows -> offered q [c] now rows.
Proof.
  intros Hinv Hp. destruct (pending_snapshot _ _ _ _ Hinv Hp) as [Hnd Hs]. split; [done|].
  pose proof (pending_due (Q := kv DialRow) q c now rows Hp) as Hd. rewrite Forall_forall in *. intros r Hr.
  destruct (Hs r Hr) as [Hg _], (Hd r Hr) as (-> & ? & ?). split_and!; [done|by left|done..].
Qed.

(** Dispatching one campaign: the invariant is kept, calls go to offered rows
    only, and only offered rows change. *)
Lemma dispatchCampaignAt_good d campaignID now :
  QInv (d_queue d) ->
  let d' := dispatchCampaignAt env cfg d campaignID now in
  good (d_queue d) (d_queue d') /\
  exists rows, offered (d_queue d) [campaignID] now rows /\ posts_for env cfg now rows d d' /\
    moved (row_ID <$> rows) (d_queue d) (d_queue d').
Proof.
  intros Hinv. unfold dispatchCampaignAt.
  destruct (PendingRows _ _ _) as [rows|] eqn:E; simpl.
  - destruct (dispatch_rows_good rows d campaignID now) as [Hg Ht]; [by eapply pending_snapshot|].
    split; [done|]. exists rows. split; [by apply pending_offered|]. split; [|done].
    apply dispatch_rows_posts.
  - split; [apply good_refl|]. exists []. split; [apply offered_nil|].
    split; [by apply posts_for_same|apply moved_refl].
Qed.

(** The rows offered for a campaign and those offered for others after it. *)
Lemma offered_app q q' c cs now rows1 rows2 :
  moved (row_ID <$> rows1) q q' -> c ∉ cs -> offered q [c] now rows1 -> offered q' cs now rows2 ->
  offered q (c :: cs) now (rows1 ++ rows2).
Proof.
  intros Hm Hc [Hnd1 Hf1] [Hnd2 Hf2]. rewrite Forall_forall in Hf1, Hf2.
  assert (Hback : forall r, r ∈ rows2 ->
    rows_get (row_ID r) (kv_rows q) = Some r /\ row_ID r ∉ row_ID <$> rows1).
  { intros r Hr. destruct (Hf2 r Hr) as (Hg & Hcs & _).
    assert (Hni : row_ID r ∉ row_ID <$> rows1).
    { intros (r1 & Heq & H1)%list_elem_of_fmap. destruct (Hf1 r1 H1) as (Hg1 & Hc1 & _).
      destruct (moved_row _ _ _ _ _ Hm Hg1) as (r' & Hr' & Hst).
      rewrite <- Heq, Hg in Hr'. simplify_eq.
      assert (row_CampaignID r' = row_CampaignID r1) as Heqc;
        [|apply list_elem_of_singleton in Hc1; by rewrite Heqc, Hc1 in Hcs].
      destruct Hst as [->|Hst]; [done|].
      by destruct (row_steps_target _ _ (rtc_once _ _ Hst)) as (_ & ? & _). }
    split; [|done]. destruct (Hm (row_ID r)) as [<-|(? & _)]; done. }
  split.
  - rewrite fmap_app. apply NoDup_app. split; [done|]. split; [|done].
    intros x Hx (r2 & -> & H2)%list_elem_of_fmap. by destruct (Hback r2 H2).
  - apply Forall_app. rewrite !Forall_forall. split; intros r Hr.
    + destruct (Hf1 r Hr) as (? & ->%list_elem_of_singleton & ? & ?). split_and!; [done|by left|done..].
    + destruct (Hf2 r Hr) as (? & ? & ? & ?), (Hback r Hr). split_and!; [done|by right|done..].
Qed.

Lemma dispatch_campaigns_good ids d now :
  QInv (d_queue d) -> NoDup ids ->
  let d' := foldl (fun d id => dispatchCampaignAt env cfg d id now) d ids in
  exists rows, offered (d_queue d) ids now rows /\ posts_for env cfg now rows d d' /\
    moved (row_ID <$> rows) (d_queue d) (d_queue d').
Proof.
  revert d. induction ids as [|id ids IH]; intros d Hinv Hnd; simpl.
  { exists []. split; [apply offered_nil|]. split; [by apply posts_for_same|apply moved_refl]. }
  apply NoDup_cons in Hnd as [Hni Hnd].
  destruct (dispatchCampaignAt_good d id now Hinv) as (Hg & rows1 & Ho1 & Hp1 & Hm1).
  destruct (Hg Hinv) as [Hinv1 _]. destruct (IH _ Hinv1 Hnd) as (rows2 & Ho2 & Hp2 & Hm2).
  assert (Ho : offered (d_queue d) (id :: ids) now (rows1 ++ rows2)) by (by eapply offered_app).
  exists (rows1 ++ rows2). split; [done|]. split; [by eapply posts_for_trans|].
  rewrite fmap_app. eapply moved_app; [|done..]. rewrite <- fmap_app. by destruct Ho.
Qed.

Lemma tickAt_good d now : good (d_queue d) (d_queue (tickAt env cfg d now)).
Proof.
  unfold tickAt. generalize (env_iter env (elements (d_active d))) as ids.
  intros ids. revert d. induction ids as [|id ids IH]; intros d; simpl; [apply good_refl|].
  eapply good_trans; [|apply IH]. intros Hinv.
  by apply (dispatchCampaignAt_good d id now Hinv).
Qed.
End Queue.

(** ** Seeding *)

Definition fresh_row (r : DialRow) : Prop :=
  row_Status r = "pending" /\ row_ProviderCallID r = "" /\ row_Attempts r = 0.

(** A seeded row is stored under its key unless that key is taken. *)
Lemma SeedRows_spec rows q q' :
  Pgkv.SeedRows q rows = Ok q' ->
  kv_up q' = kv_up q /\
  (forall k r, rows_get k (kv_rows q) = Some r -> rows_get k (kv_rows q') = Some r) /\
  Forall (fun r => is_Some (rows_get (Pgkv.seed_key r) (kv_rows q'))) rows /\
  (Forall fresh_row rows -> QInv q -> QInv q').
Proof.
  revert q. induction rows as [|r rows IH]; intros q; simpl; [by intros [= <-]|].
  unfold kv_get, kv_put. destruct (kv_up q) eqn:Eup; [|done].
  destruct (rows_get (Pgkv.seed_key r) (kv_rows q)) as [r0|] eqn:Eg.
  - intros (Hup & Hkeep & Hall & Hinv)%IH. rewrite Eup in Hup. split; [done|].
    split; [done|]. split; [constructor; eauto|]. intros [_ ?]%Forall_cons. auto.
  - intros (Hup & Hkeep & Hall & Hinv)%IH. simpl in *. split; [done|]. split_and!.
    + intros k r' Hk. apply Hkeep. rewrite rows_get_put_ne; [done|]. congruence.
    + constructor; [|done]. eexists. apply Hkeep, rows_get_put_eq.
    + intros [(Hst & Hpc & Hat) Hfr]%Forall_cons [Hnd Hf]. apply Hinv; [done|].
      split; simpl; [by apply rows_put_NoDup|]. apply rows_put_Forall; [done|].
      destruct r. unfold row_ok, Pgkv.seed_key, status_ok in *. simpl in *.
      split_and!; [done..|lia|]. auto.
Qed.

Lemma SeedRows_good rows q q' :
  Forall fresh_row rows -> Pgkv.SeedRows q rows = Ok q' -> good q q'.
Proof.
  intros Hfr (_ & Hkeep & _ & Hinv)%SeedRows_spec Hq. split; [auto|].
  intros k r Hk. eauto using rtc_refl.
Qed.

(** Re-seeding rows that are already there changes nothing. *)
Lemma SeedRows_present rows q :
  kv_up q = true -> Forall (fun r => is_Some (rows_get (Pgkv.seed_key r) (kv_rows q))) rows ->
  Pgkv.SeedRows q rows = Ok q.
Proof.
  intros Hup. induction 1 as [|r rows [r0 Hr] _ IH]; simpl; [done|].
  unfold kv_get. by rewrite Hup, Hr.
Qed.

(** ** Outcomes *)

Lemma find_stored q (f : DialRow -> bool) r :
  QInv q -> List.find f (kv_rows q).*2 = Some r ->
  rows_get (row_ID r) (kv_rows q) = Some r /\ f r = true.
Proof.
  intros [Hnd Hf] Hfind. apply List.find_some in Hfind as [Hin Hfr]. split; [|done].
  apply list_elem_of_In, list_elem_of_fmap in Hin as ([k r'] & -> & Hin).
  rewrite Forall_forall in Hf. destruct (Hf _ Hin) as [-> _]. by apply rows_get_elem.
Qed.

Section Outcome.
Context {R S : Type} `{!RateLimiter R} `{!SuppressionStore S}.
Context (env : Env) (cfg : Config).
Implicit Types (d : Dispatcher (kv DialRow) R S).

(** What [onCallOutcome] does to the row of the call. *)
Definition outcome_row (now : Z) (e p status : string) (r : DialRow) : DialRow :=
  if decide (status = "completed") then answered e p r
  else if RetryMax (policy r) <=? row_Attempts r + 1 then exhausted e (row_Attempts r + 1) r
  else rescheduled e status (row_Attempts r + 1)
         (now + wrap64 (wrap64 (retryDelayMinutes status (policy r)) * minute)) r.

Lemma outcome_row_step now e status r :
  row_ProviderCallID r <> "" ->
  row_step r (outcome_row now e (row_ProviderCallID r) status r).
Proof.
  intros Hp. unfold outcome_row. case_decide; [by apply rs_done|].
  case_match; go_bool; [apply rs_exhaust|apply rs_retry]; done || lia.
Qed.

Lemma has_event_set e r : Pgkv.has_event e (setLastOutcomeEventID e r) = true.
Proof.
  unfold Pgkv.has_event, setLastOutcomeEventID.
  assert (Hset : forall v r', row_CampaignCtx (set_CampaignCtx v r') = v) by (by intros ? []).
  rewrite Hset, lookup_insert_eq. by apply bool_decide_true.
Qed.

Lemma outcome_row_event now e p status r :
  Pgkv.has_event e (outcome_row now e p status r) = true.
Proof.
  unfold outcome_row, answered, exhausted, rescheduled.
  case_decide; [apply has_event_set|]. case_match; apply has_event_set.
Qed.

(** The consumer either drops the event or rewrites exactly the stored row
    of the call. *)
Lemma onCallOutcome_cases d e p status :
  QInv (d_queue d) ->
  (kv_up (d_queue d) = false /\ (onCallOutcome env d e p status).1 = d) \/
  (List.find (Pgkv.has_event e) (kv_rows (d_queue d)).*2 <> None /\
     onCallOutcome env d e p status = (d, None)) \/
  (List.find (Pgkv.has_event e) (kv_rows (d_queue d)).*2 = None /\
   List.find (fun r => bool_decide (row_ProviderCallID r = p)) (kv_rows (d_queue d)).*2 = None /\
     onCallOutcome env d e p status = (d, None)) \/
  (exists r d', kv_up (d_queue d) = true /\
     List.find (Pgkv.has_event e) (kv_rows (d_queue d)).*2 = None /\
     rows_get (row_ID r) (kv_rows (d_queue d)) = Some r /\ row_ProviderCallID r = p /\
     onCallOutcome env d e p status = (d', None) /\
     d_queue d' = mkKv (rows_put (row_ID r)
       (outcome_row (env_clock env (d_reads d)) e p status r) (kv_rows (d_queue d))) true /\
     d_posts d' = d_posts d).
Proof.
  intros Hinv. unfold onCallOutcome. simpl.
  unfold Pgkv.FindByLastOutcomeEventID, Pgkv.FindByProviderCallID, Pgkv.UpdateRow,
    Pgkv.updateRow, kv_list, kv_get, kv_put.
  destruct (kv_up (d_queue d)) eqn:Eup; [|by left]. right.
  destruct (List.find (Pgkv.has_event e) _) eqn:Eev; [by left|]. right.
  destruct (List.find (fun r => bool_decide _) _) as [r|] eqn:Ef; [|by left]. right.
  apply find_stored in Ef as [Hg Hp]; [|done]. go_bool. exists r.
  unfold outcome_row, policy. rewrite Hg.
  destruct d as [q rl s se ru ac u i ps]; simpl in *.
  case_decide; simpl; [eexists; by split_and!|].
  case_match; simpl; rewrite ?Eup, ?Hg; simpl; eexists; by split_and!.
Qed.

(** A new event for a call that exactly one stored row is on rewrites it. *)
Lemma onCallOutcome_hit d e p status r :
  QInv (d_queue d) -> kv_up (d_queue d) = true ->
  rows_get (row_ID r) (kv_rows (d_queue d)) = Some r -> row_ProviderCallID r = p ->
  (forall r', r' ∈ (kv_rows (d_queue d)).*2 -> Pgkv.has_event e r' = false) ->
  (forall r', r' ∈ (kv_rows (d_queue d)).*2 -> row_ProviderCallID r' = p ->
     row_ID r' = row_ID r) ->
  exists d', onCallOutcome env d e p status = (d', None) /\
    d_queue d' = mkKv (rows_put (row_ID r)
       (outcome_row (env_clock env (d_reads d)) e p status r) (kv_rows (d_queue d))) true.
Proof.
  intros Hinv Hup Hg Hp Hev Huniq.
  assert (Hin : forall r', rows_get (row_ID r') (kv_rows (d_queue d)) = Some r' ->
    r' ∈ (kv_rows (d_queue d)).*2).
  { intros r' ?%rows_get_in. apply list_elem_of_fmap. by exists (row_ID r', r'). }
  destruct (onCallOutcome_cases d e p status Hinv)
    as [(? & _)|[(Hf & _)|[(_ & Hf & _)|(r' & d' & _ & _ & Hg' & Hp' & -> & Hq & _)]]].
  - congruence.
  - exfalso. destruct (List.find _ _) eqn:Ef; [|done]. apply List.find_some in Ef as [Hi He].
    rewrite Hev in He; [done|by apply list_elem_of_In].
  - exfalso. eapply List.find_none in Hf; [|by apply list_elem_of_In, Hin].
    simpl in Hf. go_bool. done.
  - exists d'. split; [done|]. assert (r' = r) as -> by (rewrite (Huniq r') in Hg'; naive_solver).
    done.
Qed.

Lemma onCallOutcome_good d e p status :
  p <> "" -> good (d_queue d) (d_queue (onCallOutcome env d e p status).1).
Proof.
  intros Hp Hinv.
  destruct (onCallOutcome_cases d e p status Hinv)
    as [(_ & ->)|[(_ & ->)|[(_ & _ & ->)|(r & d' & Hup & _ & Hg & <- & -> & Hq & _)]]];
    [by apply good_refl..|]. simpl.
  destruct (updateRow_good (d_queue d) (row_ID r)
    (fun _ => outcome_row (env_clock env (d_reads d)) e (row_ProviderCallID r) status r)
    (d_queue d') r) as [Hgood _]; [done|by apply outcome_row_step| |by apply Hgood].
  unfold Pgkv.updateRow, kv_get, kv_put. rewrite Hup, Hg. by rewrite Hq.
Qed.

(** An outcome moves the row of its call by one step and no other. *)
Lemma onCallOutcome_moved d e p status :
  QInv (d_queue d) -> p <> "" ->
  exists id, moved [id] (d_queue d) (d_queue (onCallOutcome env d e p status).1).
Proof.
  intros Hinv Hp.
  destruct (onCallOutcome_cases d e p status Hinv)
    as [(_ & ->)|[(_ & ->)|[(_ & _ & ->)|(r & d' & _ & _ & Hg & <- & -> & Hq & _)]]];
    [exists ""; apply moved_refl..|].
  exists (row_ID r). intros k. simpl. rewrite Hq. simpl. rewrite rows_get_put.
  case_decide; subst; [|by left]. right. split; [by left|].
  eexists r, _. split; [done|]. split; [done|]. by apply outcome_row_step.
Qed.

Lemma launch_rows_fresh campaign cid ctx leadIDs d rows d' :
  launch_rows env d campaign cid ctx leadIDs = (rows, d') ->
  Forall fresh_row rows /\ d_queue d' = d_queue d /\
  Forall (fun r => row_CampaignID r = cid /\ row_CampaignCtx r = Some ctx /\
    row_TenantID r = cr_TenantID campaign) rows.
Proof.
  revert d rows d'. induction leadIDs as [|lid ids IH]; intros d rows d'; simpl.
  { by intros [= <- <-]. }
  destruct (resolvePhone _ _ _) as [phone|]; [|by apply IH].
  destruct d as [q rl s se ru ac u i ps]; simpl.
  match goal with |- context [launch_rows env ?d0 _ _ _ _] =>
    destruct (launch_rows env d0 campaign cid ctx ids) as [rows0 d0'] eqn:E end.
  apply IH in E as (? & ? & ?). intros [= <- <-]. split_and!; [|done|].
  all: constructor; done.
Qed.

(** The rows of a launch depend on the leads and the environment only, up to
    their ids and times. *)
Lemma launch_rows_keys campaign cid ctx leadIDs d1 d2 :
  Pgkv.seed_key <$> (launch_rows env d1 campaign cid ctx leadIDs).1
  = Pgkv.seed_key <$> (launch_rows env d2 campaign cid ctx leadIDs).1.
Proof.
  revert d1 d2. induction leadIDs as [|lid ids IH]; intros d1 d2; simpl; [done|].
  destruct (resolvePhone _ _ _) as [phone|]; [|by apply IH].
  destruct d1 as [q1 rl1 s1 se1 ru1 ac1 u1 i1 ps1], d2 as [q2 rl2 s2 se2 ru2 ac2 u2 i2 ps2]; simpl.
  match goal with |- _ <$> (let '(_, _) := ?a in _).1 = _ <$> (let '(_, _) := ?b in _).1 =>
    destruct a eqn:E1; destruct b eqn:E2 end.
  csimpl. f_equal. apply (f_equal fst) in E1, E2. simpl in *. subst. apply IH.
Qed.

(** After a launch every row it built has its key in the queue, unless the
    launch failed before or while seeding. *)
Definition launch_present (cid : string) (q : kv DialRow) : Prop :=
  forall campaign limits ids d1,
    fetchCampaign env cid = Ok campaign -> fetchLimits env cid = Ok limits ->
    fetchCampaignLeads env cid = Ok ids -> kv_up q = true ->
    Forall (fun r => is_Some (rows_get (Pgkv.seed_key r) (kv_rows q)))
      (launch_rows env d1 campaign cid (launch_ctx (cr_Context campaign) limits) ids).1.

Lemma seed_down q r rows : kv_up q = false -> Pgkv.SeedRows q (r :: rows) = Err "pgkv: get".
Proof. intros Hup. simpl. unfold kv_get. by rewrite Hup. Qed.

Lemma seed_up q rows : kv_up q = true -> exists q', Pgkv.SeedRows q rows = Ok q'.
Proof.
  revert q. induction rows as [|r rows IH]; intros q Hup; simpl; [eauto|].
  unfold kv_get, kv_put. rewrite Hup. destruct (rows_get _ _); [by apply IH|].
  by apply IH.
Qed.

Lemma launch_seeds d cid :
  (forall k r, rows_get k (kv_rows (d_queue d)) = Some r ->
     rows_get k (kv_rows (d_queue (onCampaignLaunched env d cid).1)) = Some r) /\
  launch_present cid (d_queue (onCampaignLaunched env d cid).1).
Proof.
  unfold onCampaignLaunched, launch_present.
  destruct (fetchCampaign env cid) as [campaign|] eqn:Ec; [|split; [done|congruence]].
  destruct (fetchLimits env cid) as [limits|] eqn:El; [|split; [done|congruence]].
  destruct (fetchCampaignLeads env cid) as [ids|] eqn:Ei; [|split; [done|congruence]].
  destruct (launch_rows env d _ _ _ _) as [rows d1] eqn:E.
  assert (Hkeys := fun d' => launch_rows_keys campaign cid
    (launch_ctx (cr_Context campaign) limits) ids d' d).
  rewrite E in Hkeys. simpl in Hkeys.
  apply launch_rows_fresh in E as (_ & Hq & _). rewrite <- Hq.
  assert (Hgoal : forall (q : kv DialRow) d', Forall (fun r => is_Some (rows_get (Pgkv.seed_key r) (kv_rows q))) rows ->
    Forall (fun r => is_Some (rows_get (Pgkv.seed_key r) (kv_rows q)))
      (launch_rows env d' campaign cid (launch_ctx (cr_Context campaign) limits) ids).1).
  { intros q d'. apply (Forall_same_image Pgkv.seed_key (fun k => is_Some (rows_get k (kv_rows q)))).
    apply Hkeys. }
  destruct rows as [|r rows].
  { split; [done|]. intros ? ? ? d' [= <-] [= <-] [= <-] _. by apply Hgoal. }
  destruct (kv_up (d_queue d1)) eqn:Eup.
  - destruct (seed_up (d_queue d1) (r :: rows) Eup) as [q' Es].
    assert (Es' : SeedRows (d_queue d1) (r :: rows) = Ok q') by exact Es. rewrite Es'.
    apply SeedRows_spec in Es as (_ & Hkeep & Hall & _). destruct d1. simpl in *.
    split; [done|]. intros ? ? ? d' [= <-] [= <-] [= <-] _. by apply Hgoal.
  - assert (Es' : SeedRows (d_queue d1) (r :: rows) = Err "pgkv: get") by by apply seed_down.
    rewrite Es'. simpl. split; [done|]. congruence.
Qed.

Lemma launch_again d cid :
  launch_present cid (d_queue d) -> d_queue (onCampaignLaunched env d cid).1 = d_queue d.
Proof.
  unfold onCampaignLaunched, launch_present.
  destruct (fetchCampaign env cid) as [campaign|]; [|done].
  destruct (fetchLimits env cid) as [limits|]; [|done].
  destruct (fetchCampaignLeads env cid) as [ids|]; [|done].
  intros Hp. specialize (Hp _ _ _ d eq_refl eq_refl eq_refl).
  destruct (launch_rows env d _ _ _ _) as [rows d1] eqn:E. simpl in Hp.
  apply launch_rows_fresh in E as (_ & Hq & _).
  destruct rows as [|r rows]; [done|].
  destruct (kv_up (d_queue d)) eqn:Eup.
  - assert (Es : SeedRows (d_queue d1) (r :: rows) = Ok (d_queue d)).
    { rewrite Hq. apply SeedRows_present; auto. }
    rewrite Es. by destruct d1.
  - assert (Es : SeedRows (d_queue d1) (r :: rows) = Err "pgkv: get").
    { rewrite Hq. by apply seed_down. }
    by rewrite Es.
Qed.

Lemma onCampaignLaunched_good d cid :
  good (d_queue d) (d_queue (onCampaignLaunched env d cid).1).
Proof.
  unfold onCampaignLaunched.
  destruct (fetchCampaign _ _) as [campaign|]; [|apply good_refl].
  destruct (fetchLimits _ _) as [limits|]; [|apply good_refl].
  destruct (fetchCampaignLeads _ _) as [ids|]; [|apply good_refl].
  destruct (launch_rows _ _ _ _ _ _) as [rows d1] eqn:E.
  apply launch_rows_fresh in E as (Hfr & Hq & _). rewrite <- Hq.
  destruct rows as [|r rows]; [apply good_refl|].
  destruct (SeedRows _ _) as [q'|] eqn:Es; [|apply good_refl].
  assert (Hg := SeedRows_good _ _ _ Hfr Es). destruct d1. done.
Qed.
End Outcome.
