(* ===== verification/DispatcherSystem.v ===== *)
(** * The dispatcher as a system: steps, reachability and its theorems

    The dispatcher over the durable queue as a transition system whose steps
    are the operations the service runs (launch events, ticks, call outcomes,
    start-up) and the environment's changes, with the properties of all
    reachable states and of the individual operations. *)

From S2P Require Import Prelude GoTime Float64 Kv DialQueue Compliance RateLimit Dispatcher DispatcherSafety DispatcherQueue.

Open Scope Z_scope.

Section System.
Context {R S : Type} `{!RateLimiter R} `{!SuppressionStore S}.
Context (env : Env) (cfg : Config).
Abbreviation D := (Dispatcher (kv DialRow) R S).

Definition with_suppression (d : D) (s : S) : D :=
  let '(mkDisp a b _ e f g h i j) := d in mkDisp a b s e f g h i j.
Definition with_redis_up (d : D) (b' : bool) : D :=
  let '(mkDisp a b c e _ g h i j) := d in mkDisp a b c e b' g h i j.

Inductive dstep : D -> D -> Prop :=
| st_launch d cid : dstep d (onCampaignLaunched env d cid).1
| st_tick d now : dstep d (tickAt env cfg d now)
| st_outcome d subject data e p s :
    outcome_event subject data = Some (e, p, s) ->
    dstep d (onCallOutcome env d e p s).1
| st_resume d : dstep d (resumeActive d)
| st_suppress d now t ph r s :
    Suppress (d_suppression d) now t ph r = Ok s -> dstep d (with_suppression d s)
| st_postgres d b : dstep d (with_queue d (mkKv (kv_rows (d_queue d)) b))
| st_redis d b : dstep d (with_redis_up d b).

Context (Huuid : forall n, env_uuid env n <> "") (Hiter : forall l, env_iter env l ≡ₚ l).

Lemma outcome_event_id subject data e p s :
  outcome_event subject data = Some (e, p, s) -> p <> "".
Proof.
  unfold outcome_event. intros H. split_in H. unfold is_empty in *. go_bool. done.
Qed.

(** One operation moves every row by at most one step of its life cycle. *)
Lemma dstep_row d d' k r :
  QInv (d_queue d) -> dstep d d' -> rows_get k (kv_rows (d_queue d)) = Some r ->
  exists r', rows_get k (kv_rows (d_queue d')) = Some r' /\ (r' = r \/ row_step r r').
Proof.
  intros Hinv Hs Hk.
  assert (Hkeep : d_queue d' = d_queue d -> exists r',
    rows_get k (kv_rows (d_queue d')) = Some r' /\ (r' = r \/ row_step r r')).
  { intros ->. eauto. }
  destruct Hs as [d cid|d now|d subject data e p s Hout| | | |]; try (destruct d; by apply Hkeep).
  - destruct (launch_seeds env d cid) as [Hs _]. eauto.
  - destruct (dispatch_campaigns_good env cfg Huuid (env_iter env (elements (d_active d))) d now)
      as (rows & _ & _ & Hm); [done|rewrite Hiter; apply NoDup_elements|]. by eapply moved_row.
  - destruct (onCallOutcome_moved env d e p s) as [id Hm]; [done|by eapply outcome_event_id|].
    by eapply moved_row.
  - apply Hkeep. unfold resumeActive. by destruct (ActiveCampaignIDs _), d.
  - exists r. destruct d. auto.
Qed.

Lemma dstep_good d d' : dstep d d' -> good (d_queue d) (d_queue d').
Proof using Huuid.
  destruct 1.
  - apply onCampaignLaunched_good.
  - by apply tickAt_good.
  - eapply onCallOutcome_good, outcome_event_id. done.
  - unfold resumeActive. destruct (ActiveCampaignIDs _), d; apply good_refl.
  - destruct d; apply good_refl.
  - destruct d; simpl. intros Hq. split; [done|]. intros k r Hk. simpl. eauto using rtc_refl.
  - destruct d; apply good_refl.
Qed.

Lemma dsteps_good d d' : rtc dstep d d' -> good (d_queue d) (d_queue d').
Proof using Huuid. induction 1; eauto using good_refl, good_trans, dstep_good. Qed.
End System.

(** ** A concrete world, for the examples *)
Module Fixture.
Definition ctx : campaignContext :=
  mkCtx "3BHK" "" None None None "" None "" "hi-IN" "".
Definition campaign : campaignResponse := mkCampaign "c1" "t1" "p1" "kb1" ctx.
Definition limits : campaignLimitsResponse :=
  mkLimits 120 3 2 500 (f_of_int 0) 3 20 180 10 19 "Asia/Kolkata".

(** 2026-01-05 12:00 IST and 21:00 IST. *)
Definition noon : Z := 1767594600 * second.
Definition night : Z := 1767627000 * second.

Definition load (tz : string) : option Location :=
  if decide (tz = "Asia/Kolkata") then Some kolkata else None.

Definition env : Env := {|
  env_campaign _ := Resp 200 (Some campaign);
  env_limits _ := Resp 200 (Some limits);
  env_leads _ := Resp 200 (Some ["l1"; "l2"; "l3"]);
  env_lead _ l := Resp 200 (Some (mkLead ("+91" +:+ l) "" ""));
  env_call hist _ := Resp 200 (Some (if decide (length hist = 0%nat) then "pc0" else "pc1"));
  env_uuid n := "u";
  env_clock _ := noon;
  env_loc := load;
  env_iter l := l
|}.
Definition cfg : Config := mkConfig "+9100" "https://hooks/".

Abbreviation D := (Dispatcher (kv DialRow) Redis.db (kv PgkvSup.suppressionEntry)).
Definition init : D :=
  mkDisp kv_empty (Redis.mkDb ∅ true) kv_empty ∅ true ∅ 0 0 [].
Definition launched : D := (onCampaignLaunched env init "c1").1.
Definition ticked : D := tickAt env cfg launched noon.

Definition stored (d : D) (k : string) : DialRow :=
  match rows_get k (kv_rows (d_queue d)) with
  | Some r => r
  | None => mkRow "" "" "" "" "" "" "" 0 "" 0 "" "" None
  end.
Definition row1 : DialRow := stored launched "c1:l1".
Definition inflight1 : kv DialRow :=
  match MarkInFlight (d_queue launched) "c1:l1" "pc9" with Ok q => q | Err _ => kv_empty end.
Definition completed : D := (onCallOutcome env ticked "ev1" "pc0" "completed").1.

Definition pending : list DialRow :=
  match PendingRows (d_queue launched) "c1" noon with Ok l => l | Err _ => [] end.

Definition caps_leb (capH capD : Z) (row : DialRow) : bool :=
  let '(hc, dc, _) := extractRateLimitCaps (row_CampaignCtx row) in
  (effective_cap hc DefaultHourlyCap <=? capH) && (effective_cap dc DefaultDailyCap <=? capD).

Lemma pending_caps : Forall (row_caps_le 2 500) pending.
Proof.
  apply Forall_forall. intros r Hr.
  apply (forallb_elem (caps_leb 2 500)) in Hr; [|vm_compute; reflexivity].
  unfold caps_leb, row_caps_le in *. destruct (extractRateLimitCaps _) as [[hc dc] cc].
  go_bool. done.
Qed.

Lemma uuid_ok : forall n, env_uuid env n <> "".
Proof. done. Qed.
Lemma iter_ok : forall l, env_iter env l ≡ₚ l.
Proof. done. Qed.
Lemma redis_ok : rl_healthy (d_ratelimit launched).
Proof. split; [done|]. intros k v exp e Hk. vm_compute in Hk. done. Qed.
End Fixture.

(** ** Theorems *)

(** C1: The calls a tick of the dispatcher posts, over a durable queue that
    keeps its invariant: they are appended to the earlier ones and are exactly
    the payloads of a list of rows and session ids in which no row occurs
    twice, and every such row is the one the queue holds under its id when the
    tick starts, belongs to an active campaign, is pending and due, has a phone
    that is not suppressed for its tenant, and allows calls at the local hour
    of the tick by its own calling window.  For any order in which Go iterates
    over the active campaigns, and whatever the telephony service answers. *)
Theorem tick_posts_only_compliant_calls
    {R S} `{!RateLimiter R, !SuppressionStore S}
    (env : Env) (cfg : Config) (d : Dispatcher (kv DialRow) R S) (now : Z) :
  (forall n, env_uuid env n <> "") -> (forall l, env_iter env l ≡ₚ l) ->
  QInv (d_queue d) ->
  exists calls : list (DialRow * string),
    d_posts (tickAt env cfg d now)
      = d_posts d ++ ((fun c => call_payload cfg c.2 c.1) <$> calls) /\
    NoDup (row_ID <$> calls.*1) /\
    forall row, row ∈ calls.*1 ->
      rows_get (row_ID row) (kv_rows (d_queue d)) = Some row /\
      row_CampaignID row ∈ d_active d /\
      row_Status row = "pending" /\ row_NextAttemptAt row <= now /\
      IsSuppressed (d_suppression d) (row_TenantID row) (row_Phone row) = false /\
      forall startH endH loc,
        extractWindowParams (env_loc env) (row_CampaignCtx row) = (startH, endH, loc) ->
        startH <= local_hour loc now < endH.
Proof.
  intros Hu Hiter Hinv.
  destruct (dispatch_campaigns_good env cfg Hu (env_iter env (elements (d_active d))) d now)
    as (rows & [Hnd Ho] & (_ & calls & Hp & Hsub & Hg) & _); [done| |].
  { rewrite Hiter. apply NoDup_elements. }
  exists calls. split; [exact Hp|].
  split; [by eapply sublist_NoDup; [|apply fmap_sublist]|]. intros row Hr.
  rewrite Forall_forall in Ho, Hg.
  destruct (Hg row Hr) as (Hsup & sH & eH & loc & Hw & Hin).
  destruct (Ho row) as (Hs & Hc & Hst & Hdue); [by eapply elem_of_sublist|].
  rewrite Hiter, elem_of_elements in Hc. split_and!; [done..|].
  intros ? ? ? Hw'. rewrite Hw in Hw'. simplify_eq. unfold inCallingWindow in Hin. go_bool. lia.
Qed.

Lemma tick_posts_only_compliant_calls_witness :
  QInv (d_queue Fixture.launched) /\
  exists calls : list (DialRow * string),
    d_posts Fixture.ticked
      = d_posts Fixture.launched ++ ((fun c => call_payload Fixture.cfg c.2 c.1) <$> calls) /\
    length calls = 2%nat /\ NoDup (row_ID <$> calls.*1).
Proof.
  assert (Hinv : QInv (d_queue Fixture.launched)).
  { apply (dsteps_good Fixture.env Fixture.cfg Fixture.uuid_ok Fixture.init Fixture.launched);
      [apply rtc_once, st_launch|apply QInv_empty]. }
  split; [exact Hinv|].
  destruct (tick_posts_only_compliant_calls Fixture.env Fixture.cfg Fixture.launched Fixture.noon
    Fixture.uuid_ok Fixture.iter_ok Hinv) as (calls & Hp & Hnd & _).
  exists calls. split; [exact Hp|]. split; [|exact Hnd].
  apply (f_equal length) in Hp. rewrite length_app, length_fmap in Hp.
  replace (length (d_posts (tickAt _ _ _ _))) with 2%nat in Hp by (vm_compute; reflexivity).
  replace (length (d_posts Fixture.launched)) with 0%nat in Hp by (vm_compute; reflexivity). done.
Defined.

(** C4: Within one UTC hour, dispatching a campaign counts exactly the calls
    the telephony service accepted, and never raises the hour's or the day's
    count above the largest cap of its rows (or above where it already was).
    Holds for every limiter that keeps the limiter laws. *)
Theorem dispatch_stays_within_caps
    {Q R S} `{!DialQueueStore Q, RateLimiterLaws R, !SuppressionStore S}
    (env : Env) (cfg : Config) (d : Dispatcher Q R S) (id : string)
    (now t capH capD : Z) (rows : list DialRow) :
  (forall n, utc_hour_index (env_clock env n) = utc_hour_index t) ->
  rl_healthy (d_ratelimit d) ->
  PendingRows (d_queue d) id now = Ok rows ->
  Forall (row_caps_le capH capD) rows ->
  let d' := dispatchCampaignAt env cfg d id now in
  exists new, d_posts d' = d_posts d ++ new /\
    rl_hour (d_ratelimit d') t id
      = rl_hour (d_ratelimit d) t id + accepted_count env (d_posts d) new /\
    rl_day (d_ratelimit d') t id
      = rl_day (d_ratelimit d) t id + accepted_count env (d_posts d) new /\
    rl_hour (d_ratelimit d') t id <= Z.max capH (rl_hour (d_ratelimit d) t id) /\
    rl_day (d_ratelimit d') t id <= Z.max capD (rl_day (d_ratelimit d) t id).
Proof.
  intros Hhour Hh Hp Hcaps. unfold dispatchCampaignAt. rewrite Hp.
  destruct (dispatch_rows_budget env cfg id t capH capD Hhour rows d now Hh Hcaps) as [_ Hb].
  exact Hb.
Qed.

Lemma dispatch_stays_within_caps_witness :
  length Fixture.pending = 3%nat /\
  rl_hour (d_ratelimit (dispatchCampaignAt Fixture.env Fixture.cfg Fixture.launched "c1"
    Fixture.noon)) Fixture.noon "c1" <= Z.max 2 0.
Proof.
  split; [vm_compute; reflexivity|].
  destruct (dispatch_stays_within_caps Fixture.env Fixture.cfg Fixture.launched "c1"
    Fixture.noon Fixture.noon 2 500 Fixture.pending) as (new & _ & _ & _ & Hle & _).
  - reflexivity.
  - exact Fixture.redis_ok.
  - vm_compute; reflexivity.
  - exact Fixture.pending_caps.
  - exact Hle.
Defined.

(** C3: In every state reached from the empty queue by launch events, ticks,
    call outcomes, start-up and changes of the environment, the queue is well
    formed: unique keys, each row under its campaign:lead key, a row has a
    provider call id exactly when it is in flight or answered.  One operation
    moves a row by at most one step of its life cycle: pending to pending,
    suppressed, failed or in flight; in flight, and also answered, to done,
    failed or pending (the code takes a late event for an answered call like
    any other).  Over any number of operations no row disappears, the lead,
    tenant, campaign and phone of a row do not change, its attempts never
    decrease, and failed and suppressed rows never change again. *)
Theorem reachable_queue_invariant
    {R S} `{!RateLimiter R, !SuppressionStore S} (env : Env) (cfg : Config)
    (d0 d d' : Dispatcher (kv DialRow) R S) :
  (forall n, env_uuid env n <> "") -> (forall l, env_iter env l ≡ₚ l) ->
  d_queue d0 = kv_empty ->
  rtc (dstep env cfg) d0 d -> rtc (dstep env cfg) d d' ->
  QInv (d_queue d) /\
  forall k r, rows_get k (kv_rows (d_queue d)) = Some r ->
    exists r', rows_get k (kv_rows (d_queue d')) = Some r' /\
      same_target r r' /\ (final r -> r' = r) /\
      (dstep env cfg d d' -> r' <> r ->
         row_step r r' /\ status_move (row_Status r) (row_Status r') = true).
Proof.
  intros Hu Hit H0 Hd Hd'.
  destruct (dsteps_good env cfg Hu _ _ Hd) as [Hq _]; [rewrite H0; apply QInv_empty|].
  split; [done|]. intros k r Hk. pose proof (QInv_get _ _ _ Hq Hk) as Hok.
  destruct (dsteps_good env cfg Hu _ _ Hd' Hq) as [_ Hs]. destruct (Hs k r Hk) as (r' & Hr' & Hst).
  exists r'. split; [done|]. split; [by apply row_steps_target|].
  split; [by intros; eapply row_steps_final|]. intros Hone Hne.
  destruct (dstep_row env cfg Hu Hit d d' k r Hq Hone Hk) as (r2 & Hr2 & Hcase).
  rewrite Hr' in Hr2. simplify_eq. destruct Hcase as [->|Hrs]; [done|].
  split; [done|]. by eapply row_step_move.
Qed.

Lemma reachable_queue_invariant_witness :
  QInv (d_queue Fixture.launched) /\
  exists r', rows_get "c1:l1" (kv_rows (d_queue Fixture.ticked)) = Some r' /\
    row_Phone r' = "+91l1" /\ row_step Fixture.row1 r' /\
    status_move "pending" (row_Status r') = true.
Proof.
  destruct (reachable_queue_invariant Fixture.env Fixture.cfg
    Fixture.init Fixture.launched Fixture.ticked) as [Hq Hrows].
  - exact Fixture.uuid_ok.
  - exact Fixture.iter_ok.
  - vm_compute; reflexivity.
  - apply rtc_once, st_launch.
  - apply rtc_once, st_tick.
  - split; [exact Hq|].
    destruct (Hrows "c1:l1" Fixture.row1 eq_refl)
      as (r' & Hr' & (_ & _ & _ & _ & Hph & _) & _ & Hst).
    destruct Hst as [Hstep Hmove]; [apply st_tick| |].
    { intros ->. apply (f_equal (option_map row_Status)) in Hr'. vm_compute in Hr'. congruence. }
    exists r'. split; [exact Hr'|]. split; [exact Hph|]. split; [exact Hstep|exact Hmove].
Defined.

(** Redelivering a call outcome event is a no-op: after an event has been
    handled without error, handling the same event id for the same call again
    changes nothing and reports no error. *)
Theorem outcome_redelivery_is_noop
    {R S} `{!RateLimiter R, !SuppressionStore S} (env : Env)
    (d : Dispatcher (kv DialRow) R S) (e p status status' : string) :
  QInv (d_queue d) -> kv_up (d_queue d) = true ->
  let d1 := (onCallOutcome env d e p status).1 in
  onCallOutcome env d1 e p status' = (d1, None).
Proof.
  intros Hinv Hup. simpl.
  destruct (onCallOutcome_cases env d e p status Hinv)
    as [(? & _)|[(Hev & ->)|[(Hev & Hpc & ->)|(r & d' & _ & _ & Hg & Hp & -> & Hq & _)]]];
    simpl; [congruence|..].
  - destruct (onCallOutcome_cases env d e p status' Hinv)
      as [(? & _)|[(_ & ->)|[(? & _)|(? & ? & _ & ? & _)]]]; congruence.
  - destruct (onCallOutcome_cases env d e p status' Hinv)
      as [(? & _)|[(? & _)|[(_ & _ & ->)|(r' & ? & _ & _ & Hg' & Hp' & _)]]]; try congruence.
    exfalso. eapply List.find_none in Hpc.
    2:{ apply list_elem_of_In, list_elem_of_fmap. exists (row_ID r', r').
        split; [done|by apply rows_get_in]. }
    simpl in Hpc. go_bool. done.
  - assert (Hev : List.find (Pgkv.has_event e) (kv_rows (d_queue d')).*2 <> None).
    { intros Hn. eapply List.find_none in Hn.
      2:{ apply list_elem_of_In, list_elem_of_fmap. eexists (_, _). split; [done|].
          apply rows_get_in. rewrite Hq. apply rows_get_put_eq. }
      simpl in Hn. by rewrite outcome_row_event in Hn. }
    unfold onCallOutcome. simpl. unfold Pgkv.FindByLastOutcomeEventID, kv_list.
    rewrite Hq in *. simpl in *. by destruct (List.find _ _).
Qed.

Lemma outcome_redelivery_is_noop_witness :
  let d1 := (onCallOutcome Fixture.env Fixture.ticked "ev1" "pc0" "no-answer").1 in
  onCallOutcome Fixture.env d1 "ev1" "pc0" "no-answer" = (d1, None).
Proof.
  apply (outcome_redelivery_is_noop Fixture.env Fixture.ticked "ev1" "pc0").
  - apply (dsteps_good Fixture.env Fixture.cfg Fixture.uuid_ok Fixture.init Fixture.ticked);
      [|apply QInv_empty].
    eapply rtc_l; [apply st_launch|]. apply rtc_once, st_tick.
  - vm_compute; reflexivity.
Defined.

(** Launching a campaign again does not reset it: every stored row is kept
    exactly as it is, and a second launch of a campaign that was just launched
    leaves the queue unchanged. *)
Theorem relaunch_keeps_progress
    {R S} `{!RateLimiter R, !SuppressionStore S} (env : Env)
    (d : Dispatcher (kv DialRow) R S) (cid : string) :
  let d1 := (onCampaignLaunched env d cid).1 in
  let d2 := (onCampaignLaunched env d1 cid).1 in
  (forall k r, rows_get k (kv_rows (d_queue d)) = Some r ->
               rows_get k (kv_rows (d_queue d1)) = Some r) /\
  d_queue d2 = d_queue d1.
Proof.
  simpl. destruct (launch_seeds env d cid) as [Hkeep Hpres]. split; [done|].
  apply (launch_again env _ cid Hpres).
Qed.

(** Outside the calling window the dispatcher defers a row to the first
    instant at which the window is open again: [nextWindowOpen] is later than
    [now], lies in the window, and no instant before it does.  For locations
    with a constant UTC offset, as Asia/Kolkata and UTC. *)
Theorem deferral_is_first_open_instant
    (loc : Location) (off now startH endH : Z) :
  fixed loc off -> 0 <= startH < endH -> startH < 24 ->
  inCallingWindow now startH endH loc = false ->
  let next := nextWindowOpen now startH endH loc in
  now < next /\ inCallingWindow next startH endH loc = true /\
  forall t, now <= t < next -> inCallingWindow t startH endH loc = false.
Proof.
  intros Hf Hs H24 Hc. simpl. split_and!.
  - eapply nextWindowOpen_after; [done|lia].
  - eapply nextWindowOpen_open; [done|lia..].
  - intros t Ht. eapply nextWindowOpen_first; [done|lia|lia|exact Hc|exact Ht].
Qed.

Lemma deferral_is_first_open_instant_witness :
  inCallingWindow Fixture.night 10 19 kolkata = false /\
  inCallingWindow (nextWindowOpen Fixture.night 10 19 kolkata) 10 19 kolkata = true.
Proof.
  split; [reflexivity|].
  destruct (deferral_is_first_open_instant kolkata 19800 Fixture.night 10 19) as (_ & H & _).
  - apply fixed_zone_fixed.
  - lia.
  - lia.
  - vm_compute; reflexivity.
  - exact H.
Defined.

(** With the durable queue one unanswered call counts as two attempts:
    [MarkInFlight] adds one and the outcome adds another, so a row goes back to
    pending after a failed call only while its attempts plus two stay below the
    policy's maximum. *)
Theorem unanswered_call_counts_twice
    {R S} `{!RateLimiter R, !SuppressionStore S} (env : Env)
    (d : Dispatcher (kv DialRow) R S) (q1 : kv DialRow) (r : DialRow) (e p status : string) :
  QInv (d_queue d) -> rows_get (row_ID r) (kv_rows (d_queue d)) = Some r ->
  row_Status r = "pending" -> status <> "completed" ->
  (forall r', r' ∈ (kv_rows (d_queue d)).*2 ->
     Pgkv.has_event e r' = false /\ row_ProviderCallID r' <> p) -> p <> "" ->
  MarkInFlight (d_queue d) (row_ID r) p = Ok q1 ->
  let q2 := d_queue (onCallOutcome env (with_queue d q1) e p status).1 in
  exists r2, rows_get (row_ID r) (kv_rows q2) = Some r2 /\
    row_Attempts r2 = row_Attempts r + 2 /\
    row_Status r2 =
      (if RetryMax (policy r) <=? row_Attempts r + 2 then "failed" else "pending").
Proof.
  intros Hinv Hg Hst Hs Hnew Hp Hm. simpl.
  assert (Hg1 := Hm). eapply updateRow_good in Hg1 as [Hgood Hrows];
    [|exact Hg|by apply (rs_dial r p)].
  destruct (Hgood Hinv) as [Hinv1 _].
  assert (Hr1 : rows_get (row_ID r) (kv_rows q1) = Some (dialled p r)).
  { rewrite Hrows. apply rows_get_put_eq. }
  assert (Hq : d_queue (with_queue d q1) = q1) by (by destruct d).
  assert (Hin : forall r', r' ∈ (kv_rows q1).*2 -> r' = dialled p r \/ r' ∈ (kv_rows (d_queue d)).*2).
  { intros r' ([k r''] & -> & Hk)%list_elem_of_fmap. rewrite Hrows in Hk.
    apply rows_put_elem in Hk as [[= -> ->]|Hk]; [by left|].
    right. apply list_elem_of_fmap. by exists (k, r''). }
  assert (Hev : forall r', r' ∈ (kv_rows q1).*2 -> Pgkv.has_event e r' = false).
  { intros r' [->|Hr']%Hin; [|by apply Hnew].
    destruct (Hnew r) as [He _]; [|destruct r; exact He].
    apply list_elem_of_fmap. exists (row_ID r, r). split; [done|by apply rows_get_in]. }
  destruct (onCallOutcome_hit env (with_queue d q1) e p status (dialled p r)) as (d' & -> & Hq');
    rewrite ?Hq; [done|exact (updateRow_up _ _ _ _ Hm)| | |done| |].
  - by destruct r.
  - by destruct r.
  - intros r' [->|Hi]%Hin Hp'; [by destruct r|]. by destruct (Hnew r' Hi) as [_ []].
  - eexists. simpl. rewrite Hq'. simpl. split.
    { replace (row_ID r) with (row_ID (dialled p r)) by (by destruct r). apply rows_get_put_eq. }
    unfold outcome_row. rewrite decide_False by done. destruct r. unfold policy. simpl.
    match goal with |- context [RetryMax ?x <=? ?a + 1 + 1] =>
      replace (a + 1 + 1) with (a + 2) by lia; destruct (RetryMax x <=? a + 2) eqn:E;
      unfold exhausted, rescheduled; simpl; rewrite ?E end; split; lia || done.
Qed.

Lemma unanswered_call_counts_twice_witness :
  exists r2, rows_get "c1:l1" (kv_rows (d_queue (onCallOutcome Fixture.env
      (with_queue Fixture.launched Fixture.inflight1) "ev1" "pc9" "busy").1)) = Some r2 /\
    row_Attempts r2 = 2 /\ row_Status r2 = "pending".
Proof.
  apply (unanswered_call_counts_twice Fixture.env Fixture.launched Fixture.inflight1
    Fixture.row1 "ev1" "pc9" "busy").
  - apply (dsteps_good Fixture.env Fixture.cfg Fixture.uuid_ok Fixture.init Fixture.launched);
      [apply rtc_once, st_launch|apply QInv_empty].
  - vm_compute; reflexivity.
  - vm_compute; reflexivity.
  - done.
  - intros r' Hr'.
    apply (forallb_elem (fun r => negb (Pgkv.has_event "ev1" r) &&
      negb (bool_decide (row_ProviderCallID r = "pc9")))) in Hr'; [|vm_compute; reflexivity].
    go_bool. done.
  - done.
  - vm_compute; reflexivity.
Defined.

(** An answered lead can be dialled again: the consumer looks the call up
    by its provider id whatever the row's status is, so an event with a new id
    and a status other than completed moves a done row back to pending (while
    attempts remain). *)
Theorem late_event_reopens_answered_row
    {R S} `{!RateLimiter R, !SuppressionStore S} (env : Env)
    (d : Dispatcher (kv DialRow) R S) (r : DialRow) (e p status : string) :
  QInv (d_queue d) -> kv_up (d_queue d) = true ->
  rows_get (row_ID r) (kv_rows (d_queue d)) = Some r ->
  row_Status r = "done" -> row_ProviderCallID r = p ->
  (forall r', r' ∈ (kv_rows (d_queue d)).*2 -> Pgkv.has_event e r' = false) ->
  (forall r', r' ∈ (kv_rows (d_queue d)).*2 -> row_ProviderCallID r' = p ->
     row_ID r' = row_ID r) ->
  status <> "completed" -> row_Attempts r + 1 < RetryMax (policy r) ->
  exists r2, rows_get (row_ID r)
      (kv_rows (d_queue (onCallOutcome env d e p status).1)) = Some r2 /\
    row_Status r2 = "pending".
Proof.
  intros Hinv Hup Hg Hst Hp Hev Hu Hs Ha.
  destruct (onCallOutcome_hit env d e p status r) as (d' & -> & Hq); [done..|].
  eexists. simpl. rewrite Hq. split; [apply rows_get_put_eq|].
  unfold outcome_row. rewrite decide_False by done.
  case_match; go_bool; [lia|]. by destruct r.
Qed.

Lemma late_event_reopens_answered_row_witness :
  row_Status (Fixture.stored Fixture.completed "c1:l1") = "done" /\
  exists r2, rows_get "c1:l1" (kv_rows (d_queue
      (onCallOutcome Fixture.env Fixture.completed "ev2" "pc0" "failed").1)) = Some r2 /\
    row_Status r2 = "pending".
Proof.
  split; [vm_compute; reflexivity|].
  apply (late_event_reopens_answered_row Fixture.env Fixture.completed
    (Fixture.stored Fixture.completed "c1:l1") "ev2" "pc0" "failed").
  - apply (dsteps_good Fixture.env Fixture.cfg Fixture.uuid_ok Fixture.init Fixture.completed);
      [|apply QInv_empty].
    eapply rtc_l; [apply st_launch|]. eapply rtc_l; [apply st_tick|].
    apply rtc_once, (st_outcome _ _ _ "call.completed" (Some (mkOutcome "ev1" "pc0" "completed"))).
    reflexivity.
  - vm_compute; reflexivity.
  - vm_compute; reflexivity.
  - vm_compute; reflexivity.
  - vm_compute; reflexivity.
  - intros r' Hr'.
    apply (forallb_elem (fun r => negb (Pgkv.has_event "ev2" r))) in Hr'; [|vm_compute; reflexivity].
    go_bool. done.
  - intros r' Hr' Hp.
    apply (forallb_elem (fun r => negb (bool_decide (row_ProviderCallID r = "pc0")) ||
      bool_decide (row_ID r = "c1:l1"))) in Hr'; [|vm_compute; reflexivity].
    rewrite bool_decide_true in Hr' by exact Hp. simpl in Hr'. go_bool. exact Hr'.
  - done.
  - vm_compute; reflexivity.
Defined.

(** The limits configured for a campaign reach the gates unchanged: the
    caps, the retry policy and the calling window that the dispatcher reads
    back from a launched row are the configured ones (for positive values up to
    2^53, which survive the trip through [float64]). *)
Theorem launch_limits_roundtrip (c : campaignContext) (l : campaignLimitsResponse)
    (LoadLocation : string -> option Location) :
  0 < HourlyCallCap l < 2^53 -> 0 < DailyCallCap l < 2^53 ->
  0 < RetryMaxLimit l < 2^53 -> 0 < RetryBusyMinLimit l < 2^53 ->
  0 < RetryNoAnswerMinLimit l < 2^53 ->
  0 <= CallWindowStartHour l < 2^53 -> 0 < CallWindowEndHour l < 2^53 ->
  let ctx := Some (launch_ctx c l) in
  extractRateLimitCaps ctx = (HourlyCallCap l, DailyCallCap l, CostCapINR l) /\
  extractRetryPolicy ctx
    = mkPolicy (RetryMaxLimit l) (RetryBusyMinLimit l) (RetryNoAnswerMinLimit l) /\
  window_hours ctx = (CallWindowStartHour l, CallWindowEndHour l) /\
  window_tz ctx = (if is_empty (Timezone l) then defaultTimezone else Timezone l).
Proof.
  intros. subst ctx.
  unfold extractRateLimitCaps, extractRetryPolicy, window_hours, window_tz, ctx_pos,
    ctx_int, ctx_string, launch_ctx. cbv beta iota.
  repeat first [rewrite lookup_insert_eq | rewrite lookup_insert_ne by done].
  cbn [default from_option id]. rewrite !f_to_of_int by lia.
  repeat match goal with |- context [0 <? ?x] =>
    replace (0 <? x) with true by (symmetry; apply Z.ltb_lt; lia) end.
  replace (0 <=? CallWindowStartHour l) with true by (symmetry; apply Z.leb_le; lia).
  done.
Qed.

Lemma launch_limits_roundtrip_witness :
  extractRateLimitCaps (Some (launch_ctx Fixture.ctx Fixture.limits)) = (2, 500, f_of_int 0).
Proof.
  destruct (launch_limits_roundtrip Fixture.ctx Fixture.limits Fixture.load) as (H & _);
    [simpl; lia..|]. exact H.
Defined.

(** The configured maximal call length never reaches the telephony service:
    whatever [max_call_seconds] a campaign's limits carry, every row a launch
    builds is dialled with the default of 300 seconds. *)
Theorem launched_rows_use_default_duration
    {R S} `{!RateLimiter R, !SuppressionStore S} (env : Env)
    (d : Dispatcher (kv DialRow) R S) (campaign : campaignResponse) (cid : string)
    (limits : campaignLimitsResponse) (ids : list string) (cfg : Config) (sid : string) :
  Forall (fun r => p_max_duration (call_payload cfg sid r) = 300)
    (launch_rows env d campaign cid (launch_ctx (cr_Context campaign) limits) ids).1.
Proof.
  destruct (launch_rows _ _ _ _ _ _) as [rows d'] eqn:E.
  apply launch_rows_fresh in E as (_ & _ & Hctx). simpl.
  eapply Forall_impl; [exact Hctx|]. intros r (_ & Hr & _). simpl. rewrite Hr.
  unfold maxDuration, launch_ctx.
  repeat rewrite lookup_insert_ne by done. done.
Qed.

(** A rescheduled call waits its policy delay: after a busy, no-answer or
    other failed outcome that leaves attempts, the row is pending with its next
    attempt exactly the policy's minutes after the outcome was handled, and the
    queue does not offer it before that instant. *)
Theorem retry_waits_policy_delay
    {R S} `{!RateLimiter R, !SuppressionStore S} (env : Env)
    (d : Dispatcher (kv DialRow) R S) (r : DialRow) (e p status : string) :
  QInv (d_queue d) -> kv_up (d_queue d) = true ->
  rows_get (row_ID r) (kv_rows (d_queue d)) = Some r -> row_ProviderCallID r = p ->
  (forall r', r' ∈ (kv_rows (d_queue d)).*2 -> Pgkv.has_event e r' = false) ->
  (forall r', r' ∈ (kv_rows (d_queue d)).*2 -> row_ProviderCallID r' = p ->
     row_ID r' = row_ID r) ->
  status <> "completed" -> row_Attempts r + 1 < RetryMax (policy r) ->
  0 <= retryDelayMinutes status (policy r) < 150000000 ->
  let q' := d_queue (onCallOutcome env d e p status).1 in
  let at_ := env_clock env (d_reads d) + retryDelayMinutes status (policy r) * minute in
  exists r2, rows_get (row_ID r) (kv_rows q') = Some r2 /\
    row_Status r2 = "pending" /\ row_NextAttemptAt r2 = at_ /\
    forall c now, now < at_ ->
      exists rows, PendingRows q' c now = Ok rows /\ ~ r2 ∈ rows.
Proof.
  intros Hinv Hup Hg Hp Hev Hu Hs Ha Hd.
  destruct (onCallOutcome_hit env d e p status r) as (d' & -> & Hq); [done..|].
  simpl. rewrite Hq. simpl. eexists. split; [apply rows_get_put_eq|].
  unfold outcome_row. rewrite decide_False by done.
  case_match; go_bool; [lia|].
  assert (Hat : row_NextAttemptAt (rescheduled e status (row_Attempts r + 1)
     (env_clock env (d_reads d) + wrap64 (wrap64 (retryDelayMinutes status (policy r)) * minute)) r)
     = env_clock env (d_reads d) + retryDelayMinutes status (policy r) * minute).
  { destruct r. simpl. unfold minute, second in *.
    rewrite (wrap64_id (retryDelayMinutes _ _)) by (unfold in_int64; lia).
    rewrite wrap64_id by (unfold in_int64; lia). lia. }
  split; [by destruct r|]. split; [exact Hat|].
  intros c now Hn. eexists. split; [reflexivity|].
  intros Hin. apply list_elem_of_In, filter_In in Hin as [_ Hdue].
  unfold Pgkv.due in Hdue. go_bool. lia.
Qed.

Lemma retry_waits_policy_delay_witness :
  exists r2, rows_get "c1:l1" (kv_rows (d_queue
      (onCallOutcome Fixture.env Fixture.ticked "ev1" "pc0" "no-answer").1)) = Some r2 /\
    row_Status r2 = "pending" /\ row_NextAttemptAt r2 = Fixture.noon + 180 * minute /\
    forall c now, now < Fixture.noon + 180 * minute ->
      exists rows, PendingRows (d_queue
        (onCallOutcome Fixture.env Fixture.ticked "ev1" "pc0" "no-answer").1) c now = Ok rows /\
        ~ r2 ∈ rows.
Proof.
  apply (retry_waits_policy_delay Fixture.env Fixture.ticked
    (Fixture.stored Fixture.ticked "c1:l1") "ev1" "pc0" "no-answer").
  - apply (dsteps_good Fixture.env Fixture.cfg Fixture.uuid_ok Fixture.init Fixture.ticked);
      [|apply QInv_empty].
    eapply rtc_l; [apply st_launch|]. apply rtc_once, st_tick.
  - vm_compute; reflexivity.
  - vm_compute; reflexivity.
  - vm_compute; reflexivity.
  - intros r' Hr'.
    apply (forallb_elem (fun r => negb (Pgkv.has_event "ev1" r))) in Hr'; [|vm_compute; reflexivity].
    go_bool. done.
  - intros r' Hr' Hp.
    apply (forallb_elem (fun r => negb (bool_decide (row_ProviderCallID r = "pc0")) ||
      bool_decide (row_ID r = "c1:l1"))) in Hr'; [|vm_compute; reflexivity].
    rewrite bool_decide_true in Hr' by exact Hp. simpl in Hr'. go_bool. exact Hr'.
  - done.
  - vm_compute; reflexivity.
  - vm_compute. split; congruence.
Defined.
