(* ===== verification/Picker.v ===== *)
(** * scheduler/internal/store and scheduler/internal/picker

    The lead queue with leases: the in-memory store ([FakeStore], fake.go), the
    Postgres store ([PgStore], postgres.go) and the picker that drives either.
    [time.Now] is an argument of the operations that read it. *)

From S2P Require Import Prelude GoTime Kv.

Open Scope Z_scope.

Definition LeadStatusPending : string := "pending".
Definition LeadStatusProcessing : string := "processing".
Definition LeadStatusDone : string := "done".
Definition LeadStatusFailed : string := "failed".

Record Lead := mkLd {
  ld_ID : string;
  ld_CampaignID : string;
  ld_TenantID : string;
  ld_PriorityScore : Z;
  ld_LastAttemptAt : Z;
  ld_RetryCount : Z;
  ld_Status : string;
  ld_ProcessingUntil : Z;
  ld_WorkerID : string
}.

(** The order of the queue: priority descending, then the oldest last attempt,
    then the id. *)
Definition lead_less (a b : Lead) : bool :=
  if negb (ld_PriorityScore a =? ld_PriorityScore b)
  then ld_PriorityScore b <? ld_PriorityScore a
  else if ld_LastAttemptAt a =? ld_LastAttemptAt b
       then negb (String.leb (ld_ID b) (ld_ID a))
       else ld_LastAttemptAt a <? ld_LastAttemptAt b.

(** Pending leads of the campaign that are not under a running lease. *)
Definition eligible (campaignID : string) (now : Z) (l : Lead) : bool :=
  bool_decide (ld_CampaignID l = campaignID) && bool_decide (ld_Status l = LeadStatusPending)
  && negb (negb (is_zero (ld_ProcessingUntil l)) && (now <? ld_ProcessingUntil l)).

(** Stamping the lease on a lead. *)
Definition claim (workerID : string) (until : Z) (l : Lead) : Lead :=
  mkLd (ld_ID l) (ld_CampaignID l) (ld_TenantID l) (ld_PriorityScore l) (ld_LastAttemptAt l)
    (ld_RetryCount l) LeadStatusProcessing until workerID.

(** A lead entering the queue: an empty status means pending. *)
Definition enqueue (l : Lead) : Lead :=
  mkLd (ld_ID l) (ld_CampaignID l) (ld_TenantID l) (ld_PriorityScore l) (ld_LastAttemptAt l)
    (ld_RetryCount l) (if is_empty (ld_Status l) then LeadStatusPending else ld_Status l)
    (ld_ProcessingUntil l) (ld_WorkerID l).

(** The status a call outcome leads to. *)
Definition outcome_status (outcome : string) : string :=
  if decide (outcome = "converted" \/ outcome = "suppressed" \/ outcome = "max_retries")
  then LeadStatusDone
  else if decide (outcome = "failed") then LeadStatusFailed
  else LeadStatusPending.

Definition attempted (now : Z) (outcome : string) (l : Lead) : Lead :=
  mkLd (ld_ID l) (ld_CampaignID l) (ld_TenantID l) (ld_PriorityScore l) now
    (wrap64 (ld_RetryCount l + 1)) (outcome_status outcome) time_zero "".

(** The persistence interface (store.go). *)
Class LeadStore (T : Type) := {
  AddLeads : T -> list Lead -> result T;
  PickAndClaim : T -> string -> string -> Z -> Z -> Z -> result (T * list Lead);
  MarkAttempt : T -> Z -> string -> string -> result T;
  GetQueueDepth : T -> string -> result Z;
  SetCallSession : T -> string -> string -> result T
}.

Definition pending_of (tenantID : string) (l : Lead) : bool :=
  bool_decide (ld_TenantID l = tenantID) && bool_decide (ld_Status l = LeadStatusPending).

(** ** In memory *)
Module FakeStore.

Record t := mk { leads : gmap string Lead; sessions : gmap string string }.

Definition NewFake : t := mk ∅ ∅.

(** The leads in the (unspecified) iteration order of the Go map. *)
Definition all (f : t) : list Lead := (map_to_list (leads f)).*2.

Definition put (f : t) (l : Lead) : t := mk (<[ld_ID l := l]> (leads f)) (sessions f).

Definition addLeads (f : t) (ls : list Lead) : result t :=
  Ok (foldl (fun f l => put f (enqueue l)) f ls).

(** A negative batch size makes the slice expression panic. *)
Definition pickAndClaim (f : t) (campaignID workerID : string) (batchSize now leaseTTL : Z)
    : result (t * list Lead) :=
  let elig := sort_by lead_less (List.filter (eligible campaignID now) (all f)) in
  let batchSize := if Z.of_nat (length elig) <? batchSize then Z.of_nat (length elig)
                   else batchSize in
  if batchSize <? 0 then Err "panic: slice bounds out of range" else
  let batch := take (Z.to_nat batchSize) elig in
  let until := now + leaseTTL in
  let out := claim workerID until <$> batch in
  Ok (foldl put f out, out).

Definition markAttempt (f : t) (now : Z) (callSessionID outcome : string) : result t :=
  match sessions f !! callSessionID with
  | None => Err "call session not found"
  | Some leadID =>
      match leads f !! leadID with
      | None => Err "lead not found"
      | Some l => Ok (mk (<[leadID := attempted now outcome l]> (leads f)) (sessions f))
      end
  end.

Definition getQueueDepth (f : t) (tenantID : string) : result Z :=
  Ok (Z.of_nat (length (List.filter (pending_of tenantID) (all f)))).

Definition setCallSession (f : t) (callSessionID leadID : string) : result t :=
  Ok (mk (leads f) (<[callSessionID := leadID]> (sessions f))).

End FakeStore.

#[export] Instance fake_lead_store : LeadStore FakeStore.t := {
  AddLeads := FakeStore.addLeads;
  PickAndClaim := FakeStore.pickAndClaim;
  MarkAttempt := FakeStore.markAttempt;
  GetQueueDepth := FakeStore.getQueueDepth;
  SetCallSession := FakeStore.setCallSession
}.

(** ** Postgres *)
Module PgStore.

Record t := mk { leads : kv Lead; sessions : kv string }.

Fixpoint put_all (s : kv Lead) (ls : list Lead) : result (kv Lead) :=
  match ls with
  | [] => Ok s
  | l :: ls' => let? s' := kv_put s (ld_ID l) l in put_all s' ls'
  end.

Definition addLeads (p : t) (ls : list Lead) : result t :=
  let? s := put_all (leads p) (enqueue <$> ls) in Ok (mk s (sessions p)).

(** The leads [PickAndClaim] reads and stamps, before any of them is written. *)
Definition pick_batch (p : t) (campaignID workerID : string) (batchSize now leaseTTL : Z)
    : result (list Lead) :=
  let? all := kv_list (leads p) in
  let elig := sort_by lead_less (List.filter (eligible campaignID now) all) in
  let batchSize := if Z.of_nat (length elig) <? batchSize then Z.of_nat (length elig)
                   else batchSize in
  let batchSize := if batchSize <? 0 then 0 else batchSize in
  let until := now + leaseTTL in
  Ok (claim workerID until <$> take (Z.to_nat batchSize) elig).

(** Writing the stamped leads back. *)
Definition write_batch (p : t) (out : list Lead) : result t :=
  let? s := put_all (leads p) out in Ok (mk s (sessions p)).

(** The two phases run without a transaction or a lock around them. *)
Definition pickAndClaim (p : t) (campaignID workerID : string) (batchSize now leaseTTL : Z)
    : result (t * list Lead) :=
  let? out := pick_batch p campaignID workerID batchSize now leaseTTL in
  let? p' := write_batch p out in
  Ok (p', out).

Definition markAttempt (p : t) (now : Z) (callSessionID outcome : string) : result t :=
  let? session := kv_get (sessions p) callSessionID in
  match session with
  | None => Err "call session not found"
  | Some leadID =>
      let? l := kv_get (leads p) leadID in
      match l with
      | None => Err "lead not found"
      | Some l =>
          let l := attempted now outcome l in
          let? s := kv_put (leads p) (ld_ID l) l in Ok (mk s (sessions p))
      end
  end.

Definition getQueueDepth (p : t) (tenantID : string) : result Z :=
  let? all := kv_list (leads p) in
  Ok (Z.of_nat (length (List.filter (pending_of tenantID) all))).

Definition setCallSession (p : t) (callSessionID leadID : string) : result t :=
  let? s := kv_put (sessions p) callSessionID leadID in Ok (mk (leads p) s).

End PgStore.

#[export] Instance pg_lead_store : LeadStore PgStore.t := {
  AddLeads := PgStore.addLeads;
  PickAndClaim := PgStore.pickAndClaim;
  MarkAttempt := PgStore.markAttempt;
  GetQueueDepth := PgStore.getQueueDepth;
  SetCallSession := PgStore.setCallSession
}.

(** ** The picker *)

Definition defaultLeaseTTL : Z := 5 * minute.

(** [Picker.PickNext]: at least one lead per request. *)
Definition PickNext {T} `{LeadStore T} (s : T) (leaseTTL now : Z)
    (campaignID workerID : string) (batchSize : Z) : result (T * list Lead) :=
  let batchSize := if batchSize <=? 0 then 1 else batchSize in
  PickAndClaim s campaignID workerID batchSize now leaseTTL.

#[global] Arguments PickNext : simpl never.

(** ** Runs of a store *)

(** A request to the scheduler's lead queue; the picker reads the clock. *)
Inductive lead_op :=
  | OpAdd (ls : list Lead)
  | OpPick (leaseTTL now : Z) (campaignID workerID : string) (batchSize : Z)
  | OpMark (now : Z) (callSessionID outcome : string)
  | OpDepth (tenantID : string)
  | OpSession (callSessionID leadID : string).

Inductive lead_out :=
  | OutDone
  | OutLeads (ls : list Lead)
  | OutDepth (n : Z)
  | OutErr (e : string).

(** One request and its answer; a failed request leaves the store as it was.
    That is so here because a database that answers when an operation begins
    answers until it ends: [AddLeads] and [PickAndClaim] fail at their first
    write or not at all.  Were a later write to fail, the code would keep the
    leads written before it. *)
Definition lead_step {T} `{LeadStore T} (s : T) (op : lead_op) : T * lead_out :=
  let keep r := match r with Ok s' => (s', OutDone) | Err e => (s, OutErr e) end in
  match op with
  | OpAdd ls => keep (AddLeads s ls)
  | OpPick ttl now c w n =>
      match PickNext s ttl now c w n with
      | Ok (s', ls) => (s', OutLeads ls)
      | Err e => (s, OutErr e)
      end
  | OpMark now cs o => keep (MarkAttempt s now cs o)
  | OpDepth t => match GetQueueDepth s t with Ok n => (s, OutDepth n) | Err e => (s, OutErr e) end
  | OpSession cs l => keep (SetCallSession s cs l)
  end.

Fixpoint lead_trace {T} `{LeadStore T} (s : T) (ops : list lead_op) : T * list lead_out :=
  match ops with
  | [] => (s, [])
  | op :: ops' =>
      let '(s1, o) := lead_step s op in
      let '(s2, os) := lead_trace s1 ops' in (s2, o :: os)
  end.

(** The ids handed out by the picks of a run. *)
Definition picked (os : list lead_out) : list string :=
  os ≫= fun o => match o with OutLeads ls => ld_ID <$> ls | _ => [] end.

(** [op] re-enters or reports the lead [id]. *)
Definition reports (id : string) (f : FakeStore.t) (op : lead_op) : bool :=
  match op with
  | OpAdd ls => existsb (fun l => bool_decide (ld_ID l = id)) ls
  | OpMark _ cs _ => bool_decide (FakeStore.sessions f !! cs = Some id)
  | _ => false
  end.

(** No request of the run re-enters or reports the lead [id]. *)
Fixpoint quiet_for (id : string) (f : FakeStore.t) (ops : list lead_op) : bool :=
  match ops with
  | [] => true
  | op :: ops' => negb (reports id f op) && quiet_for id (lead_step f op).1 ops'
  end.

(** ** The order is total *)

#[export] Instance lead_less_strict : StrictWeak lead_less.
Proof.
  split; intros *; unfold lead_less.
  - intros Hab.
    destruct (ld_PriorityScore a =? ld_PriorityScore b) eqn:E1; go_bool; simpl in *.
    + rewrite E1, Z.eqb_refl. simpl. destruct (ld_LastAttemptAt a =? _) eqn:E2; go_bool.
      * rewrite E2, Z.eqb_refl. destruct (String.leb_total (ld_ID a) (ld_ID b)); [|congruence].
        by apply negb_false_iff.
      * rewrite (proj2 (Z.eqb_neq _ _)) by congruence. apply Z.ltb_ge. lia.
    + rewrite (proj2 (Z.eqb_neq _ _)) by congruence. apply Z.ltb_ge. lia.
  - destruct (ld_PriorityScore b =? ld_PriorityScore a) eqn:E1,
      (ld_PriorityScore c =? ld_PriorityScore b) eqn:E2,
      (ld_PriorityScore c =? ld_PriorityScore a) eqn:E3; go_bool; simpl; try lia;
      intros H1 H2; go_bool; try (apply Z.ltb_ge; lia).
    destruct (ld_LastAttemptAt b =? ld_LastAttemptAt a) eqn:F1,
      (ld_LastAttemptAt c =? ld_LastAttemptAt b) eqn:F2,
      (ld_LastAttemptAt c =? ld_LastAttemptAt a) eqn:F3; go_bool; try lia;
      try (apply Z.ltb_ge; lia).
    apply negb_false_iff, Is_true_true. change (String.le (ld_ID a) (ld_ID c)).
    trans (ld_ID b); by apply Is_true_true.
Qed.

(** Leads with different ids are always separated by the order. *)
Lemma lead_less_total a b :
  lead_less a b = false -> lead_less b a = false -> ld_ID a = ld_ID b.
Proof.
  unfold lead_less. rewrite (Z.eqb_sym (ld_PriorityScore b)), (Z.eqb_sym (ld_LastAttemptAt b)).
  destruct (ld_PriorityScore a =? ld_PriorityScore b) eqn:E; simpl; intros H1 H2; go_bool; [|lia].
  destruct (ld_LastAttemptAt a =? ld_LastAttemptAt b) eqn:E2; go_bool; [|lia].
  by apply String.leb_antisym.
Qed.

(** Sorting is insensitive to the order of the input when ids are unique. *)
Lemma sort_leads_perm l1 l2 :
  NoDup (ld_ID <$> l1) -> l1 ≡ₚ l2 -> sort_by lead_less l1 = sort_by lead_less l2.
Proof.
  intros Hnd Hp.
  assert (Hsort : forall l, NoDup (ld_ID <$> l) -> StronglySorted (not_after lead_less) l ->
    forall l', l ≡ₚ l' -> StronglySorted (not_after lead_less) l' -> l = l').
  { intros l Hn Hs. induction Hs as [|x l Hs IH Hx]; intros l' Hp' Hs'.
    { by apply Permutation_nil_l in Hp'. }
    destruct Hs' as [|y l' Hs' Hy]; [by apply Permutation_nil_r in Hp'|].
    assert (x = y) as ->.
    { assert (Hy' : y ∈ x :: l) by (rewrite Hp'; left).
      assert (Hx' : x ∈ y :: l') by (rewrite <- Hp'; left).
      apply elem_of_cons in Hy' as [?|Hy']; [done|].
      apply elem_of_cons in Hx' as [?|Hx']; [done|]. exfalso.
      rewrite Forall_forall in Hx, Hy.
      pose proof (lead_less_total x y (Hy _ Hx') (Hx _ Hy')) as Hid.
      csimpl in Hn. apply NoDup_cons in Hn as [Hn _]. apply Hn. rewrite Hid.
      by apply list_elem_of_fmap_2. }
    f_equal. csimpl in Hn. apply NoDup_cons in Hn as [_ Hn].
    apply IH; [done| |done]. by apply (Permutation_cons_inv (a := y)). }
  apply Hsort; [|apply sort_by_sorted, _| |apply sort_by_sorted, _].
  - assert (Hpp : ld_ID <$> sort_by lead_less l1 ≡ₚ ld_ID <$> l1)
      by apply fmap_Permutation, sort_by_perm.
    by rewrite Hpp.
  - trans l1; [apply sort_by_perm|]. trans l2; [done|]. symmetry. apply sort_by_perm.
Qed.

(** ** The two stores agree *)

(** [p] and [f] hold the same leads and sessions, each lead under its id. *)
Record same_store (p : PgStore.t) (f : FakeStore.t) : Prop := {
  ss_nodup : NoDup (kv_rows (PgStore.leads p)).*1;
  ss_leads k : rows_get k (kv_rows (PgStore.leads p)) = FakeStore.leads f !! k;
  ss_ids k l : FakeStore.leads f !! k = Some l -> ld_ID l = k;
  ss_sessions k : rows_get k (kv_rows (PgStore.sessions p)) = FakeStore.sessions f !! k;
  ss_up : kv_up (PgStore.leads p) = true /\ kv_up (PgStore.sessions p) = true
}.

Lemma same_store_all p f :
  same_store p f -> (kv_rows (PgStore.leads p)).*2 ≡ₚ FakeStore.all f.
Proof.
  intros [Hnd Hl _ _ _]. unfold FakeStore.all.
  assert (Hm : FakeStore.leads f = list_to_map (kv_rows (PgStore.leads p))).
  { apply map_eq. intros k. rewrite <- Hl. apply option_eq. intros l.
    rewrite rows_get_elem by done. apply elem_of_list_to_map. done. }
  rewrite Hm. apply fmap_Permutation. symmetry. by apply map_to_list_to_map.
Qed.

Lemma same_store_ids p f :
  same_store p f -> NoDup (ld_ID <$> (kv_rows (PgStore.leads p)).*2).
Proof.
  intros [Hnd Hl Hid _ _]. rewrite <- list_fmap_compose.
  erewrite list_fmap_ext; [exact Hnd|]. intros i [k l] Hi. simpl. apply Hid.
  rewrite <- Hl. apply rows_get_elem; [done|]. by eapply list_elem_of_lookup_2.
Qed.

Lemma filter_ids_NoDup (g : Lead -> bool) ls :
  NoDup (ld_ID <$> ls) -> NoDup (ld_ID <$> List.filter g ls).
Proof.
  induction ls as [|l ls IH]; csimpl; [done|]. intros [Hni Hnd]%NoDup_cons.
  destruct (g l); csimpl; [|by apply IH]. apply NoDup_cons. split; [|by apply IH].
  intros (l' & Heq & Hin)%list_elem_of_fmap. apply Hni. rewrite Heq.
  apply list_elem_of_In, filter_In in Hin as [Hin _]. apply list_elem_of_fmap_2.
  by apply list_elem_of_In.
Qed.

(** Both stores see the same candidates in the same order. *)
Lemma same_store_candidates p f c now :
  same_store p f ->
  sort_by lead_less (List.filter (eligible c now) (kv_rows (PgStore.leads p)).*2)
  = sort_by lead_less (List.filter (eligible c now) (FakeStore.all f)).
Proof.
  intros Hs. apply sort_leads_perm.
  - by apply filter_ids_NoDup, (same_store_ids p f).
  - by apply filter_perm, same_store_all.
Qed.

(** Writing leads one by one keeps the stores equal. *)
Lemma same_store_put_all ls p f :
  same_store p f ->
  exists s, PgStore.put_all (PgStore.leads p) ls = Ok s /\
    same_store (PgStore.mk s (PgStore.sessions p)) (foldl FakeStore.put f ls).
Proof.
  revert p f. induction ls as [|l ls IH]; intros p f Hs; simpl.
  { exists (PgStore.leads p). split; [done|]. by destruct p. }
  pose proof Hs as [Hnd Hl Hid Hss [Hu1 Hu2]]. unfold kv_put. rewrite Hu1.
  destruct (IH (PgStore.mk (mkKv (rows_put (ld_ID l) l (kv_rows (PgStore.leads p))) true)
    (PgStore.sessions p)) (FakeStore.put f l)) as (s & Hput & Hs').
  - split; simpl; [by apply rows_put_NoDup| | |done|done].
    + intros k. rewrite rows_get_put. case_decide; subst.
      * by rewrite lookup_insert_eq.
      * rewrite lookup_insert_ne by done. apply Hl.
    + intros k l'. rewrite lookup_insert_Some. intros [[<- <-]|[_ ?]]; auto.
  - exists s. done.
Qed.

Lemma fake_pick_next f ttl now c w n :
  exists out,
    out = claim w (now + ttl) <$> take (Z.to_nat (Z.max 1 n))
      (sort_by lead_less (List.filter (eligible c now) (FakeStore.all f))) /\
    PickNext f ttl now c w n = Ok (foldl FakeStore.put f out, out).
Proof.
  eexists. split; [done|]. unfold PickNext. cbn [PickAndClaim fake_lead_store].
  unfold FakeStore.pickAndClaim.
  set (el := sort_by lead_less _). set (b := if n <=? 0 then 1 else n).
  assert (Hb : b = Z.max 1 n) by (unfold b; destruct (Z.leb_spec n 0); lia).
  rewrite <- Hb. assert (1 <= b) by lia. clearbody b el.
  destruct (Z.ltb_spec (Z.of_nat (length el)) b).
  - rewrite (proj2 (Z.ltb_ge _ _)) by lia. rewrite Nat2Z.id.
    by rewrite (take_ge el (Z.to_nat b)), firstn_all by lia.
  - by rewrite (proj2 (Z.ltb_ge _ _)) by lia.
Qed.

Lemma pg_pick_next p f ttl now c w n :
  same_store p f ->
  exists p', PickNext p ttl now c w n
    = Ok (p', claim w (now + ttl) <$> take (Z.to_nat (Z.max 1 n))
        (sort_by lead_less (List.filter (eligible c now) (FakeStore.all f)))) /\
    same_store p' (foldl FakeStore.put f (claim w (now + ttl) <$> take (Z.to_nat (Z.max 1 n))
        (sort_by lead_less (List.filter (eligible c now) (FakeStore.all f))))).
Proof.
  intros Hs. unfold PickNext. cbn [PickAndClaim pg_lead_store].
  unfold PgStore.pickAndClaim, PgStore.pick_batch, PgStore.write_batch, kv_list.
  destruct (ss_up _ _ Hs) as [-> _]. rewrite (same_store_candidates _ _ _ _ Hs).
  set (el := sort_by lead_less _). set (b := if n <=? 0 then 1 else n).
  assert (Hb : b = Z.max 1 n) by (unfold b; destruct (Z.leb_spec n 0); lia).
  rewrite <- Hb. assert (1 <= b) by lia. clearbody b.
  set (m := if Z.of_nat (length el) <? b then Z.of_nat (length el) else b).
  assert (Htake : take (Z.to_nat (if m <? 0 then 0 else m)) el = take (Z.to_nat b) el).
  { unfold m. destruct (Z.ltb_spec (Z.of_nat (length el)) b).
    - rewrite (proj2 (Z.ltb_ge _ _)) by lia. rewrite Nat2Z.id, firstn_all.
      by rewrite take_ge by lia.
    - by rewrite (proj2 (Z.ltb_ge _ _)) by lia. }
  rewrite Htake.
  destruct (same_store_put_all (claim w (now + ttl) <$> take (Z.to_nat b) el) p f Hs)
    as (s & -> & Hs'). by eexists.
Qed.

Lemma fake_add_leads f ls :
  foldl (fun f l => FakeStore.put f (enqueue l)) f ls = foldl FakeStore.put f (enqueue <$> ls).
Proof. revert f. induction ls as [|l ls IH]; intros f; simpl; [done|apply IH]. Qed.

Lemma same_store_mark p f now cs o :
  same_store p f ->
  match FakeStore.markAttempt f now cs o, PgStore.markAttempt p now cs o with
  | Ok f', Ok p' => same_store p' f'
  | Err e, Err e' => e = e'
  | _, _ => False
  end.
Proof.
  intros Hs. pose proof Hs as [Hnd Hl Hid Hss [Hu1 Hu2]].
  unfold FakeStore.markAttempt, PgStore.markAttempt, kv_get, kv_put.
  rewrite Hu1, Hu2, Hss. destruct (FakeStore.sessions f !! cs) as [id|]; [|done].
  rewrite <- Hl.
  destruct (rows_get id _) as [l|] eqn:El; [|done].
  assert (ld_ID l = id) as Eid by (apply Hid; by rewrite <- Hl).
  cbn [ld_ID attempted]. rewrite Eid.
  split; simpl; [by apply rows_put_NoDup| | |done|done].
  - intros k. rewrite rows_get_put. case_decide; subst.
    + by rewrite lookup_insert_eq.
    + rewrite lookup_insert_ne by done. apply Hl.
  - intros k l'. rewrite lookup_insert_Some. intros [[<- <-]|[_ ?]]; auto.
Qed.

Lemma same_store_step p f op :
  same_store p f ->
  (lead_step p op).2 = (lead_step f op).2 /\ same_store (lead_step p op).1 (lead_step f op).1.
Proof.
  intros Hs. destruct op as [ls|ttl now c w n|now cs o|t|cs l].
  - unfold lead_step. cbn [AddLeads pg_lead_store fake_lead_store].
    unfold PgStore.addLeads, FakeStore.addLeads. rewrite fake_add_leads.
    destruct (same_store_put_all (enqueue <$> ls) p f Hs) as (s & -> & Hs'). done.
  - unfold lead_step. destruct (pg_pick_next p f ttl now c w n Hs) as (p' & -> & Hs').
    destruct (fake_pick_next f ttl now c w n) as (out & -> & ->). done.
  - unfold lead_step. cbn [MarkAttempt pg_lead_store fake_lead_store].
    pose proof (same_store_mark p f now cs o Hs) as Hm.
    destruct (FakeStore.markAttempt f now cs o), (PgStore.markAttempt p now cs o);
      try done. by subst.
  - unfold lead_step. cbn [GetQueueDepth pg_lead_store fake_lead_store].
    unfold PgStore.getQueueDepth, FakeStore.getQueueDepth, kv_list.
    destruct (ss_up _ _ Hs) as [-> _]. split; [|done]. simpl.
    by rewrite (filter_perm _ _ _ (same_store_all p f Hs)).
  - unfold lead_step. cbn [SetCallSession pg_lead_store fake_lead_store].
    unfold PgStore.setCallSession, FakeStore.setCallSession, kv_put.
    pose proof Hs as [Hnd Hl Hid Hss [Hu1 Hu2]]. rewrite Hu2. split; [done|].
    split; simpl; [done..| |done]. intros k. rewrite rows_get_put. case_decide; subst.
    + by rewrite lookup_insert_eq.
    + rewrite lookup_insert_ne by done. apply Hss.
Qed.

Lemma same_store_trace ops p f :
  same_store p f ->
  (lead_trace p ops).2 = (lead_trace f ops).2 /\
  same_store (lead_trace p ops).1 (lead_trace f ops).1.
Proof.
  revert p f. induction ops as [|op ops IH]; intros p f Hs; [done|].
  destruct (same_store_step p f op Hs) as [Ho Hs1]. simpl.
  destruct (lead_step p op) as [p1 o], (lead_step f op) as [f1 o']. simpl in *.
  destruct (IH _ _ Hs1) as [Hos Hs2].
  destruct (lead_trace p1 ops), (lead_trace f1 ops). simpl in *. by subst.
Qed.

Lemma same_store_empty : same_store (PgStore.mk (mkKv [] true) (mkKv [] true)) FakeStore.NewFake.
Proof. split; simpl; try done. apply NoDup_nil_2. Qed.

(** ** Claims on the lead queue *)

Lemma foldl_put_lookup ls f id :
  NoDup (ld_ID <$> ls) ->
  FakeStore.leads (foldl FakeStore.put f ls) !! id
  = match list_find (fun l => ld_ID l = id) ls with
    | Some (_, l) => Some l
    | None => FakeStore.leads f !! id
    end.
Proof.
  revert f. induction ls as [|l ls IH]; intros f Hnd; simpl; [done|].
  csimpl in Hnd. apply NoDup_cons in Hnd as [Hni Hnd]. rewrite IH by done.
  case_decide as Hid.
  - destruct (list_find _ ls) as [[i l']|] eqn:E.
    + apply list_find_Some in E as (Hi & Hid' & _). exfalso. apply Hni.
      rewrite Hid, <- Hid'. by apply list_elem_of_fmap_2, (list_elem_of_lookup_2 _ i).
    + simpl. by rewrite <- Hid, lookup_insert_eq.
  - destruct (list_find _ ls) as [[i l']|]; [done|]. simpl. by rewrite lookup_insert_ne.
Qed.

(** Every lead is stored under its own id. *)
Definition keyed (f : FakeStore.t) : Prop :=
  forall k l, FakeStore.leads f !! k = Some l -> ld_ID l = k.

Lemma keyed_put_all ls f : keyed f -> keyed (foldl FakeStore.put f ls).
Proof.
  revert f. induction ls as [|l ls IH]; intros f Hk; simpl; [done|]. apply IH.
  intros k l'. simpl. rewrite lookup_insert_Some. intros [[<- <-]|[_ ?]]; auto.
Qed.

Lemma keyed_step f op : keyed f -> keyed (lead_step f op).1.
Proof.
  intros Hk. destruct op as [ls|ttl now c w n|now cs o|t|cs l]; simpl; try done.
  - rewrite fake_add_leads. by apply keyed_put_all.
  - destruct (fake_pick_next f ttl now c w n) as (out & _ & ->). by apply keyed_put_all.
  - unfold FakeStore.markAttempt. destruct (FakeStore.sessions f !! cs) as [id|]; [|done].
    destruct (FakeStore.leads f !! id) as [l|] eqn:El; [|done].
    intros k l'. simpl. rewrite lookup_insert_Some. intros [[<- <-]|[_ ?]]; [|by auto].
    simpl. by apply Hk.
Qed.

Lemma keyed_trace ops f : keyed f -> keyed (lead_trace f ops).1.
Proof.
  revert f. induction ops as [|op ops IH]; intros f Hk; [done|]. simpl.
  pose proof (keyed_step f op Hk) as Hk1. destruct (lead_step f op) as [f1 o].
  specialize (IH f1 Hk1). by destruct (lead_trace f1 ops).
Qed.

Lemma elem_of_all f l : keyed f -> l ∈ FakeStore.all f <-> FakeStore.leads f !! ld_ID l = Some l.
Proof.
  intros Hk. unfold FakeStore.all. rewrite list_elem_of_fmap. split.
  - intros ([k l'] & -> & Hin). apply elem_of_map_to_list in Hin as Hin'. simpl.
    by rewrite (Hk _ _ Hin').
  - intros Hl. exists (ld_ID l, l). split; [done|]. by apply elem_of_map_to_list.
Qed.

Lemma all_ids_NoDup f : keyed f -> NoDup (ld_ID <$> FakeStore.all f).
Proof.
  intros Hk. unfold FakeStore.all. rewrite <- list_fmap_compose.
  erewrite list_fmap_ext; [exact (NoDup_fst_map_to_list (FakeStore.leads f))|].
  intros i [k l] Hi. simpl. apply Hk. apply elem_of_map_to_list.
  by eapply list_elem_of_lookup_2.
Qed.

(** The candidates of a pick, in the order they are handed out. *)
Definition candidates (c : string) (now : Z) (f : FakeStore.t) : list Lead :=
  sort_by lead_less (List.filter (eligible c now) (FakeStore.all f)).

Lemma elem_of_candidates c now f l :
  keyed f ->
  l ∈ candidates c now f <-> FakeStore.leads f !! ld_ID l = Some l /\ eligible c now l = true.
Proof.
  intros Hk. unfold candidates. rewrite elem_of_sort_by, <- (elem_of_all f l Hk).
  by rewrite list_elem_of_In, filter_In, <- list_elem_of_In.
Qed.

Lemma candidates_ids_NoDup c now f : keyed f -> NoDup (ld_ID <$> candidates c now f).
Proof.
  intros Hk. unfold candidates.
  assert (Hp : ld_ID <$> sort_by lead_less (List.filter (eligible c now) (FakeStore.all f))
    ≡ₚ ld_ID <$> List.filter (eligible c now) (FakeStore.all f))
    by apply fmap_Permutation, sort_by_perm.
  rewrite Hp. by apply filter_ids_NoDup, all_ids_NoDup.
Qed.

Lemma batch_ids w u n c now f :
  keyed f -> NoDup (ld_ID <$> (claim w u <$> take n (candidates c now f))).
Proof.
  intros Hk. rewrite <- list_fmap_compose.
  rewrite (list_fmap_ext (ld_ID ∘ claim w u) ld_ID) by done.
  pose proof (candidates_ids_NoDup c now f Hk) as Hnd.
  rewrite <- (take_drop n (candidates c now f)), fmap_app in Hnd.
  by apply NoDup_app in Hnd as [? _].
Qed.

(** The lead is in a worker's hands. *)
Definition held (id : string) (f : FakeStore.t) : Prop :=
  exists l, FakeStore.leads f !! id = Some l /\ ld_Status l = LeadStatusProcessing.

Lemma held_not_candidate id c now f l :
  held id f -> keyed f -> l ∈ candidates c now f -> ld_ID l <> id.
Proof.
  intros (l' & Hl' & Hst) Hk Hin <-. apply elem_of_candidates in Hin as [Hl He]; [|done].
  rewrite Hl in Hl'. injection Hl' as <-. unfold eligible in He. rewrite Hst in He.
  by rewrite andb_false_r in He.
Qed.

Lemma picked_lead_held w u n c now f l :
  keyed f -> l ∈ claim w u <$> take n (candidates c now f) ->
  held (ld_ID l) (foldl FakeStore.put f (claim w u <$> take n (candidates c now f))).
Proof.
  intros Hk Hin. set (out := claim w u <$> _) in *.
  pose proof (batch_ids w u n c now f Hk) as Hnd. fold out in Hnd.
  unfold held. rewrite foldl_put_lookup by done.
  destruct (list_find (fun l' => ld_ID l' = ld_ID l) out) as [[i l']|] eqn:E.
  - apply list_find_Some in E as (Hi & _). exists l'. split; [done|].
    apply list_elem_of_lookup_2, list_elem_of_fmap in Hi as (l0 & -> & _). done.
  - apply list_find_None in E. rewrite Forall_forall in E. by destruct (E l Hin).
Qed.

Lemma put_other ls f id :
  id ∉ ld_ID <$> ls -> FakeStore.leads (foldl FakeStore.put f ls) !! id = FakeStore.leads f !! id.
Proof.
  revert f. induction ls as [|l ls IH]; intros f Hni; [done|]. csimpl in *.
  apply not_elem_of_cons in Hni as [Hne Hni]. rewrite IH by done. simpl.
  by rewrite lookup_insert_ne.
Qed.

(** A held lead stays held, and is in no batch, until it is re-entered or
    reported. *)
Lemma held_step id f op :
  held id f -> keyed f -> reports id f op = false ->
  held id (lead_step f op).1 /\ id ∉ picked [(lead_step f op).2].
Proof.
  intros Hh Hk Hr. destruct op as [ls|ttl now c w n|now cs o|t|cs l]; simpl.
  - split; [|apply not_elem_of_nil]. rewrite fake_add_leads. unfold held.
    rewrite put_other; [done|]. intros (l & -> & Hin)%list_elem_of_fmap.
    apply list_elem_of_fmap in Hin as (l0 & -> & Hin). simpl in Hr.
    apply Bool.not_true_iff_false in Hr. apply Hr, existsb_exists. exists l0.
    split; [by apply list_elem_of_In|]. by apply bool_decide_eq_true.
  - destruct (fake_pick_next f ttl now c w n) as (out & Hout & ->). simpl.
    assert (Hni : id ∉ ld_ID <$> out).
    { rewrite Hout. intros (l & Hid & Hin)%list_elem_of_fmap.
      apply list_elem_of_fmap in Hin as (l0 & -> & Hin).
      apply (held_not_candidate id c now f l0 Hh Hk); [|done].
      by eapply elem_of_take in Hin as (i & Hi & _); eapply list_elem_of_lookup_2. }
    unfold held. rewrite put_other by done. by rewrite app_nil_r.
  - split; [|destruct (FakeStore.markAttempt f now cs o); apply not_elem_of_nil].
    unfold FakeStore.markAttempt. simpl in Hr. apply bool_decide_eq_false in Hr.
    destruct (FakeStore.sessions f !! cs) as [id'|]; [|done].
    destruct (FakeStore.leads f !! id') as [l|]; [|done]. simpl.
    destruct Hh as (l0 & Hl0 & Hst). exists l0. simpl. split; [|done].
    rewrite lookup_insert_ne by congruence. done.
  - split; [done|apply not_elem_of_nil].
  - split; [done|apply not_elem_of_nil].
Qed.

Lemma held_trace id ops f :
  held id f -> keyed f -> quiet_for id f ops = true -> id ∉ picked (lead_trace f ops).2.
Proof.
  revert f. induction ops as [|op ops IH]; intros f Hh Hk Hq; [apply not_elem_of_nil|].
  simpl in Hq. apply andb_true_iff in Hq as [Hr%negb_true_iff Hq].
  destruct (held_step id f op Hh Hk Hr) as [Hh1 Hni].
  pose proof (keyed_step f op Hk) as Hk1. simpl. destruct (lead_step f op) as [f1 o].
  simpl in *. specialize (IH f1 Hh1 Hk1 Hq). destruct (lead_trace f1 ops) as [f2 os].
  simpl in *. unfold picked in *. simpl in *. rewrite app_nil_r in Hni. set_solver.
Qed.

(** C34: the Postgres store and the in-memory store answer every sequence of
    requests (adding leads, picking batches, reporting outcomes, asking for the
    depth, recording call sessions) in exactly the same way, errors included,
    although one keeps rows in insertion order and the other iterates a map in
    an unspecified order.  The database answers throughout, and picks go through
    [PickNext], which asks for at least one lead. *)
Theorem lead_stores_agree ops :
  (lead_trace (PgStore.mk (mkKv [] true) (mkKv [] true)) ops).2
  = (lead_trace FakeStore.NewFake ops).2.
Proof. by apply same_store_trace, same_store_empty. Qed.

Lemma keyed_reachable ops : keyed (lead_trace FakeStore.NewFake ops).1.
Proof. apply keyed_trace. intros k l Hl. simpl in Hl. by rewrite lookup_empty in Hl. Qed.

(** After any history, [PickNext] succeeds and hands out a best batch: as
    many distinct leads as the batch size (at least one) and the candidates
    allow, each an eligible stored lead with the lease stamped on it, and no
    candidate left behind comes before one that was handed out. *)
Theorem pick_next_takes_best_candidates ops ttl now c w n :
  let f := (lead_trace FakeStore.NewFake ops).1 in
  exists f' batch,
    PickNext f ttl now c w n = Ok (f', claim w (now + ttl) <$> batch) /\
    NoDup (ld_ID <$> batch) /\
    length batch = Nat.min (Z.to_nat (Z.max 1 n)) (length (candidates c now f)) /\
    (forall l, l ∈ batch ->
       FakeStore.leads f !! ld_ID l = Some l /\ eligible c now l = true /\
       FakeStore.leads f' !! ld_ID l = Some (claim w (now + ttl) l)) /\
    (forall l, FakeStore.leads f !! ld_ID l = Some l -> eligible c now l = true -> l ∉ batch ->
       FakeStore.leads f' !! ld_ID l = Some l /\
       forall b, b ∈ batch -> lead_less l b = false).
Proof.
  intros f. pose proof (keyed_reachable ops) as Hk. fold f in Hk.
  destruct (fake_pick_next f ttl now c w n) as (out & -> & ->).
  change (sort_by lead_less (List.filter (eligible c now) (FakeStore.all f)))
    with (candidates c now f).
  set (k := Z.to_nat (Z.max 1 n)). eexists _, (take k (candidates c now f)).
  pose proof (batch_ids w (now + ttl) k c now f Hk) as Hnd. pose proof Hnd as Hnd'.
  rewrite <- list_fmap_compose, (list_fmap_ext (ld_ID ∘ claim _ _) ld_ID) in Hnd' by done.
  split; [done|]. split; [done|]. split; [apply length_take|]. split.
  - intros l Hin. assert (Hc : l ∈ candidates c now f)
      by (eapply elem_of_take in Hin as (i & Hi & _); by eapply list_elem_of_lookup_2).
    apply elem_of_candidates in Hc as [Hl He]; [|done]. split_and!; [done..|].
    rewrite foldl_put_lookup by done.
    destruct (list_find (fun l' => ld_ID l' = ld_ID l) _) as [[i l']|] eqn:E.
    + apply list_find_Some in E as (Hi & Hid & _).
      apply list_lookup_fmap_Some in Hi as (l0 & -> & Hi). simpl in Hid. do 2 f_equal.
      apply list_elem_of_lookup_2, elem_of_take in Hi as (j & Hj & _).
      apply list_elem_of_lookup_2, elem_of_candidates in Hj as [Hj _]; [|done]. congruence.
    + apply list_find_None in E. rewrite Forall_forall in E.
      destruct (E (claim w (now + ttl) l)); [by apply list_elem_of_fmap_2|done].
  - intros l Hl He Hni.
    assert (Hc : l ∈ candidates c now f) by (by apply elem_of_candidates).
    assert (Hd : l ∈ drop k (candidates c now f)).
    { rewrite <- (take_drop k (candidates c now f)) in Hc.
      apply elem_of_app in Hc as [?|?]; done. }
    split.
    + rewrite put_other; [done|]. rewrite <- list_fmap_compose.
      intros (l0 & Hid & Hin)%list_elem_of_fmap. simpl in Hid. apply Hni.
      apply elem_of_take in Hin as Hj; destruct Hj as (j & Hj & _).
      apply list_elem_of_lookup_2, elem_of_candidates in Hj as [Hj _]; [|done].
      rewrite Hid, Hj in Hl. by injection Hl as ->.
    + intros b Hb. apply (sorted_cut lead_less k (candidates c now f)); [|done..].
      apply sort_by_sorted, _.
Qed.

(** No double claim. Once a pick has handed a lead out, no later pick, by
    any worker, for any campaign and at any time, hands it out again before its
    outcome is reported or the lead is added anew. The lease's expiry does not
    matter: an expired lease never makes the lead available again. *)
Theorem claimed_lead_is_not_picked_again ops ttl now c w n f' out l ops' :
  PickNext (lead_trace FakeStore.NewFake ops).1 ttl now c w n = Ok (f', out) ->
  l ∈ out ->
  quiet_for (ld_ID l) f' ops' = true ->
  ld_ID l ∉ picked (lead_trace f' ops').2.
Proof.
  intros Hp Hin Hq. pose proof (keyed_reachable ops) as Hk.
  destruct (fake_pick_next (lead_trace FakeStore.NewFake ops).1 ttl now c w n)
    as (out' & Hout & Hp'). rewrite Hp' in Hp. injection Hp as <- <-.
  apply held_trace; [|by apply keyed_put_all|done].
  subst out'. by apply picked_lead_held.
Qed.

Definition sample_lead (id : string) (prio : Z) : Lead :=
  mkLd id "c1" "t1" prio time_zero 0 "" time_zero "".

Lemma claimed_lead_is_not_picked_again_witness :
  let f := (lead_trace FakeStore.NewFake [OpAdd [sample_lead "a" 1; sample_lead "b" 2]]).1 in
  exists f' out,
    PickNext f defaultLeaseTTL hour "c1" "w1" 1 = Ok (f', out) /\
    "b" ∉ picked (lead_trace f' [OpPick defaultLeaseTTL (10 * hour) "c1" "w2" 5]).2.
Proof.
  eexists _, _. split; [vm_compute; reflexivity|].
  eapply (claimed_lead_is_not_picked_again [OpAdd [sample_lead "a" 1; sample_lead "b" 2]]
    defaultLeaseTTL hour "c1" "w1" 1 _ _ (claim "w1" (hour + defaultLeaseTTL)
    (enqueue (sample_lead "b" 2)))).
  - vm_compute. reflexivity.
  - vm_compute. left.
  - vm_compute. reflexivity.
Defined.

(** [PostgresStore.PickAndClaim] reads and writes without a transaction, so
    two overlapping calls that both read before either writes hand the same
    leads to both workers; the second worker's stamps win. *)
Theorem overlapping_pg_picks_share_leads p c w1 w2 n now ttl b1 :
  PgStore.pick_batch p c w1 n now ttl = Ok b1 ->
  exists b2 p1 p2,
    PgStore.pick_batch p c w2 n now ttl = Ok b2 /\
    PgStore.write_batch p b1 = Ok p1 /\
    PgStore.write_batch p1 b2 = Ok p2 /\
    ld_ID <$> b2 = ld_ID <$> b1.
Proof.
  unfold PgStore.pick_batch, PgStore.write_batch, kv_list.
  destruct (kv_up (PgStore.leads p)) eqn:Hu; [|done]. intros [= <-].
  assert (Hput : forall ls s, kv_up s = true ->
    exists s', PgStore.put_all s ls = Ok s' /\ kv_up s' = true).
  { induction ls as [|l ls IH]; intros s Hs; simpl; [by eexists|].
    unfold kv_put. rewrite Hs. by apply IH. }
  set (b := take _ _).
  destruct (Hput (claim w1 (now + ttl) <$> b) (PgStore.leads p) Hu) as (s1 & E1 & Hu1).
  destruct (Hput (claim w2 (now + ttl) <$> b) s1 Hu1) as (s2 & E2 & _).
  eexists _, _, _. split; [done|]. rewrite E1. split; [done|]. simpl. rewrite E2.
  split; [done|]. by rewrite <- !list_fmap_compose.
Qed.

Lemma overlapping_pg_picks_share_leads_witness :
  let p := (lead_trace (PgStore.mk (mkKv [] true) (mkKv [] true))
    [OpAdd [sample_lead "a" 1; sample_lead "b" 2]]).1 in
  exists b1 b2,
    PgStore.pick_batch p "c1" "w1" 1 hour defaultLeaseTTL = Ok b1 /\
    ld_ID <$> b1 = ["b"] /\
    PgStore.pick_batch p "c1" "w2" 1 hour defaultLeaseTTL = Ok b2 /\
    ld_ID <$> b2 = ["b"].
Proof.
  intros p.
  destruct (overlapping_pg_picks_share_leads p "c1" "w1" "w2" 1 hour defaultLeaseTTL
    [claim "w1" (hour + defaultLeaseTTL) (enqueue (sample_lead "b" 2))])
    as (b2 & _ & _ & H2 & _ & _ & Hid).
  - vm_compute. reflexivity.
  - eexists _, b2. split; [vm_compute; reflexivity|]. split; [done|]. split; [done|].
    rewrite Hid. reflexivity.
Defined.
