(* ===== verification/Limiter.v ===== *)
(** * telephony-adapter/internal/concurrency/limiter.go

    The per-tenant cap on concurrent calls: the [Limiter] interface, what it
    promises to the router, and its three implementations.  [Incr] answers
    whether a slot was taken ([false] is [ErrConcurrencyLimit]). *)

From S2P Require Import Prelude GoTime.

Open Scope Z_scope.

Class Limiter (L : Type) := {
  Incr : L -> Z -> string -> L * bool;
  Decr : L -> Z -> string -> L
}.

(** What a working limiter promises: a bounded counter per tenant.  [lim_ok]
    is when the backend is reachable and nothing expires. *)
Class LimiterLaws (L : Type) `{Limiter L} := {
  lim_ok : L -> Prop;
  lim_max : L -> Z;
  lim_count : L -> string -> Z;
  lim_nonneg s t : lim_ok s -> 0 <= lim_count s t;
  incr_ok s now t : lim_ok s -> lim_ok (Incr s now t).1;
  decr_ok s now t : lim_ok s -> lim_ok (Decr s now t);
  incr_max s now t : lim_max (Incr s now t).1 = lim_max s;
  decr_max s now t : lim_max (Decr s now t) = lim_max s;
  incr_granted s now t :
    lim_ok s -> (Incr s now t).2 = bool_decide (lim_count s t < lim_max s);
  incr_count s now t t' :
    lim_ok s ->
    lim_count (Incr s now t).1 t'
    = lim_count s t' + (if decide (t = t' /\ lim_count s t < lim_max s) then 1 else 0);
  decr_count s now t t' :
    lim_ok s ->
    lim_count (Decr s now t) t'
    = if decide (t = t') then Z.max 0 (lim_count s t' - 1) else lim_count s t'
}.

(** ** No-op *)

Definition noopLimiter := unit.

#[export] Instance noop_limiter : Limiter noopLimiter := {
  Incr s _ _ := (s, true);
  Decr s _ _ := s
}.

(** ** In memory *)
Module FakeLim.

Record t := mk { counts : gmap string Z; max : Z; Incrted : list string }.

Definition NewFake (max : Z) : t := mk ∅ max [].

Definition count (f : t) (tenantID : string) : Z := default 0 (counts f !! tenantID).

Definition incr (f : t) (tenantID : string) : t * bool :=
  let counts1 := <[tenantID := count f tenantID + 1]> (counts f) in
  let f1 := mk counts1 (max f) (Incrted f ++ [tenantID]) in
  if max f <? count f1 tenantID
  then (mk (<[tenantID := count f1 tenantID - 1]> counts1) (max f) (Incrted f1), false)
  else (f1, true).

Definition decr (f : t) (tenantID : string) : t :=
  if 0 <? count f tenantID
  then mk (<[tenantID := count f tenantID - 1]> (counts f)) (max f) (Incrted f)
  else f.

End FakeLim.

#[export] Instance fake_limiter : Limiter FakeLim.t := {
  Incr s _ := FakeLim.incr s;
  Decr s _ := FakeLim.decr s
}.

(** ** Redis *)
Module RedisLim.

(** The counter keys by tenant, each with its value and the instant it expires
    at, if any. *)
Record t := mk {
  data : gmap string (Z * option Z);
  up : bool;
  max : Z;
  ttlSeconds : Z
}.

(** The live value of a key: an expired key is gone. *)
Definition live (r : t) (now : Z) (k : string) : option (Z * option Z) :=
  match data r !! k with
  | Some (v, Some exp) => if now <? exp then Some (v, Some exp) else None
  | o => o
  end.

Definition value (r : t) (now : Z) (k : string) : Z := from_option fst 0 (live r now k).
Definition expiry (r : t) (now : Z) (k : string) : option Z := live r now k ≫= snd.

Definition set (r : t) (k : string) (v : Z) (exp : option Z) : t :=
  mk (<[k := (v, exp)]> (data r)) (up r) (max r) (ttlSeconds r).

(** [INCR], then [EXPIRE] when a TTL is configured. *)
Definition incrKey (r : t) (now : Z) (k : string) : result (t * Z) :=
  if up r then
    let v := value r now k + 1 in
    let exp := if 0 <? ttlSeconds r then Some (now + ttlSeconds r * second)
               else expiry r now k in
    Ok (set r k v exp, v)
  else Err "redis: dial".

(** [DECR], corrected back up by an [INCR] when it drops below zero. *)
Definition decrKey (r : t) (now : Z) (k : string) : result t :=
  if up r then
    let v := value r now k - 1 in
    let r1 := set r k v (expiry r now k) in
    if v <? 0 then Ok (set r1 k (v + 1) (expiry r now k)) else Ok r1
  else Err "redis: dial".

(** Redis errors fail open. *)
Definition incr (r : t) (now : Z) (tenantID : string) : t * bool :=
  match incrKey r now tenantID with
  | Err _ => (r, true)
  | Ok (r1, val) =>
      if max r1 <? val
      then (match decrKey r1 now tenantID with Ok r2 => r2 | Err _ => r1 end, false)
      else (r1, true)
  end.

Definition decr (r : t) (now : Z) (tenantID : string) : t :=
  match decrKey r now tenantID with Ok r1 => r1 | Err _ => r end.

End RedisLim.

#[export] Instance redis_limiter : Limiter RedisLim.t := {
  Incr := RedisLim.incr;
  Decr := RedisLim.decr
}.

(** ** The in-memory limiter keeps the promise *)

Lemma fake_count_insert c m i t v t' :
  FakeLim.count (FakeLim.mk (<[t := v]> c) m i) t'
  = if decide (t = t') then v else default 0 (c !! t').
Proof.
  unfold FakeLim.count. simpl. case_decide; subst.
  - by rewrite lookup_insert_eq.
  - by rewrite lookup_insert_ne.
Qed.

#[export] Program Instance fake_limiter_laws : LimiterLaws FakeLim.t := {
  lim_ok s := 0 <= FakeLim.max s /\ forall t, 0 <= FakeLim.count s t;
  lim_max := FakeLim.max;
  lim_count := FakeLim.count
}.
Next Obligation. intros s t [_ Hs]. apply Hs. Qed.
Next Obligation.
  intros s now t [Hm Hs]. simpl. unfold FakeLim.incr.
  destruct (FakeLim.max s <? _) eqn:E; (split; [done|]); intros t'; pose proof (Hs t');
    cbn [fst]; rewrite !fake_count_insert; repeat case_decide; subst; try done; try lia.
  rewrite lookup_insert_ne by done. apply Hs.
Qed.
Next Obligation.
  intros s now t [Hm Hs]. simpl. unfold FakeLim.decr.
  destruct (0 <? _) eqn:E; [|done]. go_bool. split; [done|]. intros t'.
  rewrite fake_count_insert. case_decide; [|apply Hs]. lia.
Qed.
Next Obligation. intros s now t. simpl. unfold FakeLim.incr. by destruct (_ <? _). Qed.
Next Obligation. intros s now t. simpl. unfold FakeLim.decr. by destruct (_ <? _). Qed.
Next Obligation.
  intros s now t _. simpl. unfold FakeLim.incr. rewrite fake_count_insert.
  case_decide; [|done]. destruct (Z.ltb_spec (FakeLim.max s) (FakeLim.count s t + 1)); simpl;
    symmetry; [apply bool_decide_eq_false|apply bool_decide_eq_true]; lia.
Qed.
Next Obligation.
  intros s now t t' _. simpl. unfold FakeLim.incr. rewrite fake_count_insert.
  rewrite decide_True by done. destruct (Z.ltb_spec (FakeLim.max s) (FakeLim.count s t + 1)); simpl.
  - rewrite (decide_False (P := t = t' /\ _)) by lia. rewrite fake_count_insert.
    repeat case_decide; subst; try done; try lia.
    rewrite lookup_insert_ne by done. fold (FakeLim.count s t'). lia.
  - rewrite fake_count_insert. repeat case_decide; subst; try lia;
      fold (FakeLim.count s t'); try lia; intuition lia.
Qed.
Next Obligation.
  intros s now t t' [_ Hs]. simpl. unfold FakeLim.decr. specialize (Hs t).
  destruct (Z.ltb_spec 0 (FakeLim.count s t)).
  - rewrite fake_count_insert. case_decide; subst; [lia|done].
  - case_decide; subst; lia.
Qed.

(** ** The Redis limiter keeps it while no counter expires *)

(** Redis is reachable and the counters carry no expiry (the TTL is disabled). *)
Record redis_ok (r : RedisLim.t) : Prop := {
  ro_up : RedisLim.up r = true;
  ro_max : 0 <= RedisLim.max r;
  ro_ttl : RedisLim.ttlSeconds r <= 0;
  ro_data k v e : RedisLim.data r !! k = Some (v, e) -> 0 <= v /\ e = None
}.

Definition redis_count (r : RedisLim.t) (k : string) : Z :=
  from_option fst 0 (RedisLim.data r !! k).

Lemma redis_value r now k :
  redis_ok r -> RedisLim.value r now k = redis_count r k /\ RedisLim.expiry r now k = None
                /\ 0 <= redis_count r k.
Proof.
  intros [_ _ _ Hd]. unfold RedisLim.value, RedisLim.expiry, RedisLim.live, redis_count.
  destruct (RedisLim.data r !! k) as [[v e]|] eqn:E; [|done].
  destruct (Hd _ _ _ E) as [? ->]. done.
Qed.

Lemma redis_set_count r k v e k' :
  redis_count (RedisLim.set r k v e) k' = if decide (k = k') then v else redis_count r k'.
Proof.
  unfold redis_count. simpl. case_decide; subst.
  - by rewrite lookup_insert_eq.
  - by rewrite lookup_insert_ne.
Qed.

Lemma redis_set_ok r k v : redis_ok r -> 0 <= v -> redis_ok (RedisLim.set r k v None).
Proof.
  intros [? ? ? Hd] Hv. split; simpl; [done..|]. intros k' v' e'.
  rewrite lookup_insert_Some. intros [[_ [= <- <-]]|[_ ?]]; [done|by eapply Hd].
Qed.

Lemma redis_decr r now t :
  redis_ok r ->
  exists v, RedisLim.decrKey r now t = Ok v /\ redis_ok v /\ RedisLim.max v = RedisLim.max r /\
    forall t', redis_count v t'
      = if decide (t = t') then Z.max 0 (redis_count r t' - 1) else redis_count r t'.
Proof.
  intros Hr. destruct (redis_value r now t Hr) as (Hv & He & Hp).
  unfold RedisLim.decrKey. rewrite (ro_up _ Hr), Hv, He.
  destruct (Z.ltb_spec (redis_count r t - 1) 0) as [Hlt|Hge].
  - eexists. split; [done|]. split_and!; [|done|].
    + assert (redis_count r t - 1 + 1 = 0) as -> by lia.
      destruct Hr as [? ? ? Hd]. split; simpl; [done..|]. intros k' v' e'.
      rewrite insert_insert_eq, lookup_insert_Some.
      intros [[_ [= <- <-]]|[_ ?]]; [done|by eapply Hd].
    + intros t'. rewrite !redis_set_count. case_decide; subst; lia.
  - eexists. split; [done|]. split_and!; [by apply redis_set_ok|done|].
    intros t'. rewrite redis_set_count. case_decide; subst; lia.
Qed.

Lemma redis_incr r now t :
  redis_ok r ->
  redis_ok (RedisLim.incr r now t).1 /\
  RedisLim.max (RedisLim.incr r now t).1 = RedisLim.max r /\
  (RedisLim.incr r now t).2 = bool_decide (redis_count r t < RedisLim.max r) /\
  forall t', redis_count (RedisLim.incr r now t).1 t'
    = redis_count r t' + (if decide (t = t' /\ redis_count r t < RedisLim.max r) then 1 else 0).
Proof.
  intros Hr. destruct (redis_value r now t Hr) as (Hv & He & Hp).
  unfold RedisLim.incr, RedisLim.incrKey. rewrite (ro_up _ Hr), Hv, He.
  rewrite (proj2 (Z.ltb_ge 0 (RedisLim.ttlSeconds r))) by apply (ro_ttl _ Hr).
  cbn [RedisLim.set RedisLim.max].
  assert (Hs : redis_ok (RedisLim.set r t (redis_count r t + 1) None))
    by (apply redis_set_ok; [done|lia]).
  destruct (Z.ltb_spec (RedisLim.max r) (redis_count r t + 1)).
  - destruct (redis_decr _ now t Hs) as (r2 & Hd & Hok2 & Hm2 & Hc).
    rewrite Hd. split_and!; [done|done| |].
    + symmetry. apply bool_decide_eq_false. lia.
    + intros t'. simpl. rewrite Hc, redis_set_count. repeat case_decide; subst; try lia;
        intuition lia.
  - split_and!; [done|done| |].
    + symmetry. apply bool_decide_eq_true. lia.
    + intros t'. simpl. rewrite redis_set_count. repeat case_decide; subst; try lia;
        intuition lia.
Qed.

Lemma redis_decr_eq r now t :
  redis_ok r -> RedisLim.decrKey r now t = Ok (RedisLim.decr r now t).
Proof.
  intros Hr. destruct (redis_decr r now t Hr) as (v & Hd & _).
  unfold RedisLim.decr. by rewrite Hd.
Qed.

#[export] Program Instance redis_limiter_laws : LimiterLaws RedisLim.t := {
  lim_ok := redis_ok;
  lim_max := RedisLim.max;
  lim_count := redis_count
}.
Next Obligation. intros s t Hs. apply (redis_value s 0 t Hs). Qed.
Next Obligation. intros s now t Hs. by apply redis_incr. Qed.
Next Obligation.
  intros s now t Hs. destruct (redis_decr s now t Hs) as (v & Hd & Hv & _).
  rewrite (redis_decr_eq s now t Hs) in Hd. injection Hd as <-. done.
Qed.
Next Obligation.
  intros s now t. simpl. unfold RedisLim.incr, RedisLim.incrKey.
  destruct (RedisLim.up s) eqn:Hu; [|done]. simpl. destruct (_ <? _); [|done].
  unfold RedisLim.decrKey. simpl. rewrite Hu. by destruct (_ <? _).
Qed.
Next Obligation.
  intros s now t. simpl. unfold RedisLim.decr, RedisLim.decrKey.
  destruct (RedisLim.up s); [|done]. by destruct (_ <? _).
Qed.
Next Obligation. intros s now t Hs. by apply redis_incr. Qed.
Next Obligation. intros s now t t' Hs. by apply redis_incr. Qed.
Next Obligation.
  intros s now t t' Hs. destruct (redis_decr s now t Hs) as (v & Hd & _ & _ & Hc).
  rewrite (redis_decr_eq s now t Hs) in Hd. injection Hd as <-. apply Hc.
Qed.

Lemma redis_incr_granted r now t :
  RedisLim.up r = true ->
  (RedisLim.incr r now t).2 = negb (RedisLim.max r <? RedisLim.value r now t + 1) /\
  ((RedisLim.incr r now t).2 = true -> 0 < RedisLim.ttlSeconds r ->
   (RedisLim.incr r now t).1
   = RedisLim.set r t (RedisLim.value r now t + 1)
       (Some (now + RedisLim.ttlSeconds r * second))).
Proof.
  intros Hu. unfold RedisLim.incr, RedisLim.incrKey. rewrite Hu.
  change (RedisLim.max (RedisLim.set r t _ _)) with (RedisLim.max r).
  destruct (RedisLim.max r <? _); [done|]. split; [done|]. intros _ Ht%Z.ltb_lt.
  by rewrite Ht.
Qed.

(** The Redis counter's idle TTL forgets slots that are still held: once
    [ttlSeconds] have passed since the last acquisition of a tenant, the next
    acquisition is granted however many calls of that tenant are running. *)
Theorem redis_slots_expire_when_idle r now now' t :
  RedisLim.up r = true -> 0 < RedisLim.max r -> 0 < RedisLim.ttlSeconds r ->
  (Incr r now t).2 = true ->
  now + RedisLim.ttlSeconds r * second <= now' ->
  (Incr (Incr r now t).1 now' t).2 = true.
Proof.
  intros Hu Hm Ht Hg Hexp. simpl in *.
  destruct (redis_incr_granted r now t Hu) as [_ Hs]. rewrite (Hs Hg Ht).
  destruct (redis_incr_granted (RedisLim.set r t (RedisLim.value r now t + 1)
    (Some (now + RedisLim.ttlSeconds r * second))) now' t Hu) as [-> _].
  assert (Hv : forall v, RedisLim.value (RedisLim.set r t v
    (Some (now + RedisLim.ttlSeconds r * second))) now' t = 0).
  { intros v. unfold RedisLim.value, RedisLim.live. simpl. rewrite lookup_insert_eq.
    by rewrite (proj2 (Z.ltb_ge _ _) Hexp). }
  rewrite Hv. apply negb_true_iff, Z.ltb_ge. simpl. lia.
Qed.

Lemma redis_slots_expire_when_idle_witness :
  let r := RedisLim.mk {["t1" := (0, None)]} true 1 300 in
  (Incr (Incr r 0 "t1").1 (1 * second) "t1").2 = false /\
  (Incr (Incr r 0 "t1").1 (300 * second) "t1").2 = true.
Proof.
  split; [vm_compute; reflexivity|].
  apply (redis_slots_expire_when_idle (RedisLim.mk {["t1" := (0, None)]} true 1 300) 0
    (300 * second) "t1"); vm_compute; try reflexivity; discriminate.
Defined.
