(* ===== verification/Resp.v ===== *)
(** * The hand-written Redis clients

    telephony-adapter/internal/concurrency/limiter.go,
    scheduler/internal/dispatcher/ratelimit.go and the [RedisWriterTCP] of
    dispatcher.go speak the Redis protocol over a TCP connection of their own.
    [Limiter] and [RateLimit] model these clients by the operations they mean;
    this file has the bytes they write and how they read the answers, and shows
    that the concurrency limiter on the wire behaves as [RedisLim].  The server is
    a class with its documented commands as laws. *)

From S2P Require Import Prelude GoTime GoMonad GoStrings Limiter.

Open Scope Z_scope.

(** ** The protocol *)

(** A command is an array of bulk strings. *)
Definition bulk (s : string) : string := ("$" ++ itoa (String.length s) ++ CRLF ++ s ++ CRLF)%string.

Fixpoint bulks (args : list string) : string :=
  match args with [] => ""%string | a :: args => (bulk a ++ bulks args)%string end.

Definition command (args : list string) : string := ("*" ++ itoa (length args) ++ CRLF ++ bulks args)%string.

(** The number in a line that starts with [mark], and what follows the line. *)
Definition read_num (mark : Ascii.ascii) (s : string) : option (nat * string) :=
  match s with
  | String c s =>
      if bool_decide (c = mark) then
        match read_string s with
        | Some (line, rest) => (fun n => (Z.to_nat n, rest)) <$> atoi (trim_space line)
        | None => None
        end
      else None
  | EmptyString => None
  end.

Definition star : Ascii.ascii := Ascii.ascii_of_N 42.
Definition dollar : Ascii.ascii := Ascii.ascii_of_N 36.

Fixpoint read_bulks (n : nat) (s : string) : option (list string * string) :=
  match n with
  | O => Some ([], s)
  | Datatypes.S n =>
      match read_num dollar s with
      | Some (len, s) =>
          if (String.length s <? len + 2)%nat then None
          else match read_bulks n (drop_string (len + 2) s) with
               | Some (args, rest) => Some (String.substring 0 len s :: args, rest)
               | None => None
               end
      | None => None
      end
  end.

Definition read_command (s : string) : option (list string * string) :=
  match read_num star s with Some (n, s) => read_bulks n s | None => None end.

(** A Redis server executes a command and answers with bytes. *)
Class RedisServer (S : Type) := rs_exec : S -> Z -> list string -> S * string.

(** The commands in what was written. *)
Fixpoint serve {S} `{!RedisServer S} (fuel : nat) (s : S) (now : Z) (bytes : string) : S * string :=
  match fuel with
  | O => (s, ""%string)
  | Datatypes.S fuel =>
      match read_command bytes with
      | Some (args, rest) =>
          let '(s, reply) := rs_exec s now args in
          let '(s, replies) := serve fuel s now rest in (s, (reply ++ replies)%string)
      | None => (s, ""%string)
      end
  end.

(** ** Connections *)

(** [wr_pending] are the bytes the server sent that were not read.  By the number
    of the call: the failures of dialling, writing and reading, and how many bytes
    a read finds. *)
Record Wire (S : Type) := mkWire {
  wr_srv : S;
  wr_pending : string;
  wr_dial : nat -> error;
  wr_write : nat -> error;
  wr_read : nat -> error;
  wr_seg : nat -> nat;
  wr_calls : nat
}.
Arguments mkWire {S}.
Arguments wr_srv {S} w.
Arguments wr_pending {S} w.
Arguments wr_dial {S} w.
Arguments wr_write {S} w.
Arguments wr_read {S} w.
Arguments wr_seg {S} w.
Arguments wr_calls {S} w.

(** ** Addresses *)

(** [strings.LastIndex(u, "@")] and what follows it. *)
Definition at_sign : Ascii.ascii := Ascii.ascii_of_N 64.
Fixpoint after_last (c : Ascii.ascii) (u : string) : option string :=
  match u with
  | EmptyString => None
  | String d u =>
      match after_last c u with
      | Some rest => Some rest
      | None => if bool_decide (d = c) then Some u else None
      end
  end.

Definition parseRedisAddr (u : string) : string :=
  let u := trim_prefix u "redis://" in
  let u := default u (after_last at_sign u) in
  let u := match cut (Ascii.ascii_of_N 47) u with Some (host, _) => host | None => u end in
  match cut (Ascii.ascii_of_N 58) u with Some _ => u | None => (u ++ ":6379")%string end.

(** ** The clients *)

Definition incr_cmd (key : string) : string :=
  ("*2" ++ CRLF ++ "$4" ++ CRLF ++ "INCR" ++ CRLF ++ "$" ++ itoa (String.length key) ++ CRLF ++ key ++ CRLF)%string.
Definition decr_cmd (key : string) : string :=
  ("*2" ++ CRLF ++ "$4" ++ CRLF ++ "DECR" ++ CRLF ++ "$" ++ itoa (String.length key) ++ CRLF ++ key ++ CRLF)%string.
Definition expire_cmd (key : string) (ttlSec : nat) : string :=
  let ttl := itoa ttlSec in
  ("*3" ++ CRLF ++ "$6" ++ CRLF ++ "EXPIRE" ++ CRLF ++ "$" ++ itoa (String.length key) ++ CRLF ++ key ++ CRLF ++
   "$" ++ itoa (String.length ttl) ++ CRLF ++ ttl ++ CRLF)%string.
Definition get_cmd (key : string) : string :=
  ("*2" ++ CRLF ++ "$3" ++ CRLF ++ "GET" ++ CRLF ++ "$" ++ itoa (String.length key) ++ CRLF ++ key ++ CRLF)%string.
Definition setex_cmd (key : string) (seconds : nat) (value : string) : string :=
  ("*4" ++ CRLF ++ "$5" ++ CRLF ++ "SETEX" ++ CRLF ++ "$" ++ itoa (String.length key) ++ CRLF ++ key ++ CRLF ++
   "$" ++ itoa (String.length (itoa seconds)) ++ CRLF ++ itoa seconds ++ CRLF ++
   "$" ++ itoa (String.length value) ++ CRLF ++ value ++ CRLF)%string.

Section Clients.
Context {S : Type} `{!RedisServer S}.
Abbreviation W := (Wire S).
Abbreviation E := (M W string).

Definition next_call : E nat := fun w =>
  (mkWire (wr_srv w) (wr_pending w) (wr_dial w) (wr_write w) (wr_read w) (wr_seg w) (1 + wr_calls w)%nat, inr (wr_calls w)).

Definition set_conn (s : S) (pending : string) (w : W) : W :=
  mkWire s pending (wr_dial w) (wr_write w) (wr_read w) (wr_seg w) (wr_calls w).

(** A new connection; nothing of an old one is left. *)
Definition dial : E unit :=
  let! n := next_call in
  fun w => match wr_dial w n with Some e => (w, inl e) | None => (set_conn (wr_srv w) "" w, inr tt) end.

(** [conn.Write]: what could not be written is not executed. *)
Definition write (now : Z) (bytes : string) : E unit :=
  let! n := next_call in
  fun w => match wr_write w n with
           | Some e => (w, inl e)
           | None => let '(s, replies) := serve (String.length bytes) (wr_srv w) now bytes in
                     (set_conn s (wr_pending w ++ replies) w, inr tt)
           end.

(** [conn.Read] into a buffer of [cap] bytes: at least one byte, or the deadline
    passes. *)
Definition read (cap : nat) : E string :=
  let! n := next_call in
  fun w => match wr_read w n with
           | Some e => (w, inl e)
           | None =>
               if is_empty (wr_pending w) then (w, inl "i/o timeout"%string)
               else let k := Nat.min cap (Nat.max 1 (wr_seg w n)) in
                    (set_conn (wr_srv w) (drop_string k (wr_pending w)) w, inr (String.substring 0 k (wr_pending w)))
           end.

Definition number (s : string) : E Z :=
  match atoi s with Some z => ret z | None => raise ("strconv.Atoi: parsing " ++ quote s)%string end.

Definition readRedisInt : E Z :=
  let! bytes := read 64 in
  match trim_space bytes with
  | EmptyString => raise "redis: empty reply"%string
  | String c rest =>
      if bool_decide (c = Ascii.ascii_of_N 45) then raise ("redis: error: " ++ rest)%string
      else if bool_decide (c = Ascii.ascii_of_N 58) then number rest
      else raise ("redis: unexpected reply: " ++ String c rest)%string
  end.

(** *** limiter.go *)

Record redisLimiter := mkRedisLimiter { rl_addr : string; rl_max : Z; rl_ttlSeconds : Z }.

(** [New] with a [REDIS_URL] that is set; [ttl] is the value of
    [VOBIZ_SLOT_TTL_SECONDS]. *)
Definition slotTTLSeconds (ttl : string) : Z :=
  if is_empty ttl then 300
  else match atoi ttl with Some n => if 0 <=? n then n else 300 | None => 300 end.

Definition NewLimiter (redisURL ttl : string) (max : Z) : redisLimiter :=
  mkRedisLimiter (parseRedisAddr redisURL) max (slotTTLSeconds ttl).

Definition limiter_key (tenantID : string) : string := ("vobiz:concurrency:" ++ tenantID)%string.

Definition incrKey (r : redisLimiter) (now : Z) (key : string) : E Z :=
  let! _ := dial in
  let! _ := write now (incr_cmd key) in
  let! val := readRedisInt in
  let! _ := (if 0 <? rl_ttlSeconds r then
               let! werr := try (write now (expire_cmd key (Z.to_nat (rl_ttlSeconds r)))) in
               match werr with
               | inl _ => ret tt
               | inr _ => let! _ := try readRedisInt in ret tt
               end
             else ret tt) in
  ret val.

Definition decrKey (now : Z) (key : string) : E unit :=
  let! _ := dial in
  let! _ := write now (decr_cmd key) in
  let! val := readRedisInt in
  if val <? 0 then
    let! _ := write now (incr_cmd key) in
    let! _ := try readRedisInt in
    ret tt
  else ret tt.

Definition wire_Incr (r : redisLimiter) (w : W) (now : Z) (tenantID : string) : W * bool :=
  match incrKey r now (limiter_key tenantID) w with
  | (w, inl _) => (w, true)
  | (w, inr val) =>
      if rl_max r <? val then ((decrKey now (limiter_key tenantID) w).1, false) else (w, true)
  end.

Definition wire_Decr (w : W) (now : Z) (tenantID : string) : W := (decrKey now (limiter_key tenantID) w).1.

(** *** ratelimit.go *)

(** [fmt.Errorf("<what>: %w", err)]. *)
Definition errorf {X} (what : string) (m : E X) : E X :=
  let! r := try m in match r with inl e => raise (what ++ ": " ++ e)%string | inr x => ret x end.

Definition getCount (now : Z) (key : string) : E Z :=
  let! _ := errorf "redis dial"%string dial in
  let! _ := errorf "redis write"%string (write now (get_cmd key)) in
  let! bytes := errorf "redis read"%string (read 128) in
  let line := trim_space bytes in
  if bool_decide (line = "$-1"%string) || is_empty line then ret 0
  else if has_prefix line "$" then
    match index_of CRLF line with
    | Some i => ret (default 0 (atoi (trim_space (drop_string (i + 2) line))))
    | None =>
        let! bytes := errorf "redis read value"%string (read 128) in
        ret (default 0 (atoi (trim_space bytes)))
    end
  else if has_prefix line ":" then number (drop_string 1 line)
  else raise ("redis unexpected reply: " ++ line)%string.

Definition incrWithExpire (now : Z) (key : string) (ttlSec : nat) : E unit :=
  let! _ := errorf "redis dial"%string dial in
  let! _ := errorf "redis pipeline write"%string (write now (incr_cmd key ++ expire_cmd key ttlSec)) in
  let! _ := try (read 256) in
  ret tt.

(** *** dispatcher.go: RedisWriterTCP *)

(** [ttl] is a whole number of seconds, and not negative. *)
Definition SetEX (now : Z) (key value : string) (ttl : Z) : E unit :=
  let! _ := errorf "redis dial"%string dial in
  let! _ := errorf "redis write"%string (write now (setex_cmd key (Z.to_nat (ttl / second)) value)) in
  let! bytes := errorf "redis read"%string (read 64) in
  let reply := trim_space bytes in
  if has_prefix reply "+OK" then ret tt else raise ("redis unexpected reply: " ++ reply)%string.
End Clients.

(** ** Commands are read back *)

Definition fits (s : string) : Prop := Z.of_nat (String.length s) < 2^63.

Lemma read_num_line mark n rest :
  Z.of_nat n < 2^63 -> read_num mark (String mark (itoa n ++ CRLF ++ rest)) = Some (n, rest).
Proof.
  intros Hn. unfold read_num. rewrite bool_decide_true by done.
  assert (E : (itoa n ++ CRLF ++ rest = (itoa n ++ String cr "") ++ NL ++ rest)%string) by by rewrite <- append_assoc.
  rewrite E, read_string_line.
  - rewrite <- append_assoc. change (String cr "" ++ NL)%string with CRLF. rewrite trim_line by apply itoa_solid.
    rewrite atoi_itoa by done. cbn. by rewrite Nat2Z.id.
  - apply lacks_app. split; [apply digits_no_space|]. apply (bool_decide_unpack _). by vm_compute.
Qed.

Lemma read_bulks_args args rest : Forall fits args -> read_bulks (length args) (bulks args ++ rest) = Some (args, rest).
Proof.
  induction 1 as [|a args Ha _ IH]; [done|]. cbn [length read_bulks bulks].
  assert (E : ((bulk a ++ bulks args) ++ rest
    = String dollar (itoa (String.length a) ++ CRLF ++ a ++ CRLF ++ bulks args ++ rest))%string).
  { unfold bulk. rewrite <- !append_assoc. done. }
  rewrite E, read_num_line by done. set (tail := (bulks args ++ rest)%string) in *.
  rewrite (proj2 (Nat.ltb_ge _ _)) by (rewrite !length_string_app; cbn; lia).
  rewrite substring_prefix. rewrite (append_assoc a CRLF tail), drop_string_app by (rewrite length_string_app; cbn; lia).
  by rewrite IH.
Qed.

(** What a client writes as a command is read as that command, whatever bytes its
    arguments have and whatever follows. *)
Theorem command_is_read_back args rest :
  Forall fits args -> Z.of_nat (length args) < 2^63 -> read_command (command args ++ rest) = Some (args, rest).
Proof.
  intros Ha Hn. unfold read_command, command.
  assert (E : (("*" ++ itoa (length args) ++ CRLF ++ bulks args) ++ rest
    = String star (itoa (length args) ++ CRLF ++ bulks args ++ rest))%string) by by rewrite <- !append_assoc.
  rewrite E, read_num_line by done. by apply read_bulks_args.
Qed.

Ltac cmd_tac := unfold command, bulks, bulk; cbn [length]; rewrite ?append_nil, <- ?append_assoc; reflexivity.

Lemma incr_cmd_is key : incr_cmd key = command ["INCR"%string; key].
Proof. unfold incr_cmd. cmd_tac. Qed.
Lemma decr_cmd_is key : decr_cmd key = command ["DECR"%string; key].
Proof. unfold decr_cmd. cmd_tac. Qed.
Lemma get_cmd_is key : get_cmd key = command ["GET"%string; key].
Proof. unfold get_cmd. cmd_tac. Qed.
Lemma expire_cmd_is key t : expire_cmd key t = command ["EXPIRE"%string; key; itoa t].
Proof. unfold expire_cmd. cmd_tac. Qed.
Lemma setex_cmd_is key t v : setex_cmd key t v = command ["SETEX"%string; key; itoa t; v].
Proof. unfold setex_cmd. cmd_tac. Qed.

(** ** What the server promises *)

Abbreviation db := (gmap string (string * option Z)).

(** A key that has expired is gone. *)
Definition alive (d : db) (now : Z) (k : string) : option (string * option Z) :=
  match d !! k with
  | Some (v, Some exp) => if now <? exp then Some (v, Some exp) else None
  | o => o
  end.

Definition counter (d : db) (now : Z) (k : string) : option Z :=
  match alive d now k with None => Some 0 | Some (v, _) => atoi v end.

Definition expires (d : db) (now : Z) (k : string) : option Z := alive d now k ≫= snd.

(** The commands of the clients, on a server that wants no password. *)
Class RedisLaws (S : Type) `{!RedisServer S} := {
  rd_open : S -> Prop;
  rd_data : S -> db;
  rd_add s now cmd delta k v :
    rd_open s -> (cmd = "INCR"%string /\ delta = 1 \/ cmd = "DECR"%string /\ delta = -1) ->
    counter (rd_data s) now k = Some v -> in_int64 (v + delta) ->
    exists s', rs_exec s now [cmd; k] = (s', (":" ++ fmt_z (v + delta) ++ CRLF)%string) /\ rd_open s' /\
      rd_data s' = <[k := (fmt_z (v + delta), expires (rd_data s) now k)]> (rd_data s);
  rd_expire s now k t v e :
    rd_open s -> (0 < t)%nat -> Z.of_nat t < 2^63 -> alive (rd_data s) now k = Some (v, e) ->
    exists s', rs_exec s now ["EXPIRE"%string; k; itoa t] = (s', (":1" ++ CRLF)%string) /\ rd_open s' /\
      rd_data s' = <[k := (v, Some (now + Z.of_nat t * second))]> (rd_data s);
  rd_get s now k :
    rd_open s ->
    exists s', rs_exec s now ["GET"%string; k]
        = (s', match alive (rd_data s) now k with None => ("$-1" ++ CRLF)%string | Some (v, _) => bulk v end) /\
      rd_open s' /\ rd_data s' = rd_data s;
  rd_setex s now k t v :
    rd_open s -> (0 < t)%nat -> Z.of_nat t < 2^63 ->
    exists s', rs_exec s now ["SETEX"%string; k; itoa t; v] = (s', ("+OK" ++ CRLF)%string) /\ rd_open s' /\
      rd_data s' = <[k := (v, Some (now + Z.of_nat t * second))]> (rd_data s)
}.

(** ** One exchange on a healthy connection *)

(** No call fails, and a read finds all that was sent. *)
Record healthy {S} (w : Wire S) : Prop := {
  hl_dial n : wr_dial w n = None;
  hl_write n : wr_write w n = None;
  hl_read n : wr_read w n = None;
  hl_seg n : (256 <= wr_seg w n)%nat
}.

Section Exchange.
Context {S : Type} `{!RedisServer S}.
Abbreviation W := (Wire S).
Implicit Types (w : W).

Lemma serve_command (s s' : S) now args reply :
  Forall fits args -> Z.of_nat (length args) < 2^63 -> rs_exec s now args = (s', reply) ->
  forall fuel, (1 <= fuel)%nat -> serve fuel s now (command args) = (s', reply).
Proof.
  intros Ha Hn E [|fuel] Hf; [lia|]. cbn [serve]. rewrite <- (append_nil (command args)), command_is_read_back, E by done.
  destruct fuel; cbn; by rewrite append_nil.
Qed.

Lemma command_length args : (1 <= String.length (command args))%nat.
Proof. unfold command. rewrite length_string_app. simpl. lia. Qed.

(** After dialling, a command is executed and its answer pending. *)
Lemma write_run w now args s' reply :
  healthy w -> Forall fits args -> Z.of_nat (length args) < 2^63 -> rs_exec (wr_srv w) now args = (s', reply) ->
  exists w', write now (command args) w = (w', inr tt) /\ healthy w' /\ wr_srv w' = s' /\
    wr_pending w' = (wr_pending w ++ reply)%string.
Proof.
  intros Hw Ha Hn E. unfold write. rewrite bind_run. cbn [next_call wr_write]. rewrite (hl_write _ Hw). cbn [wr_srv].
  rewrite (serve_command _ s' now args reply Ha Hn E) by apply command_length.
  eexists. split; [reflexivity|]. split; [|done]. destruct Hw. by split.
Qed.

Lemma dial_run w : healthy w -> exists w', dial w = (w', inr tt) /\ healthy w' /\ wr_srv w' = wr_srv w /\ wr_pending w' = ""%string.
Proof.
  intros Hw. unfold dial. rewrite bind_run. cbn [next_call wr_dial]. rewrite (hl_dial _ Hw).
  eexists. split; [reflexivity|]. split; [|done]. destruct Hw. by split.
Qed.

Lemma substring_whole s n : (String.length s <= n)%nat -> String.substring 0 n s = s /\ drop_string n s = ""%string.
Proof.
  intros Hn. split.
  - revert n Hn. induction s as [|c s IH]; intros [|n] Hn; cbn in *; try done; [lia|]. by rewrite IH by lia.
  - unfold drop_string. replace (String.length s - n)%nat with 0%nat by lia.
    clear Hn. revert n. induction s as [|c s IH]; intros [|n]; try done. apply IH.
Qed.

Lemma read_run w cap :
  healthy w -> wr_pending w <> ""%string -> (String.length (wr_pending w) <= cap)%nat -> (cap <= 256)%nat ->
  exists w', read cap w = (w', inr (wr_pending w)) /\ healthy w' /\ wr_srv w' = wr_srv w /\ wr_pending w' = ""%string.
Proof.
  intros Hw Hne Hl Hc. unfold read. rewrite bind_run. cbn [next_call wr_read]. rewrite (hl_read _ Hw). cbn [wr_pending wr_seg].
  rewrite (is_empty_false _ Hne). pose proof (hl_seg _ Hw (wr_calls w)) as Hs.
  destruct (substring_whole (wr_pending w) (Nat.min cap (Nat.max 1 (wr_seg w (wr_calls w))))) as [-> ->]; [lia|].
  eexists. split; [reflexivity|]. split; [|done]. destruct Hw. by split.
Qed.

Lemma read_int_run w z :
  healthy w -> in_int64 z -> wr_pending w = (":" ++ fmt_z z ++ CRLF)%string ->
  exists w', readRedisInt w = (w', inr z) /\ healthy w' /\ wr_srv w' = wr_srv w /\ wr_pending w' = ""%string.
Proof.
  intros Hw Hz Hp. unfold readRedisInt. rewrite bind_run. destruct (read_run w 64) as (w' & -> & Hw' & Hs & Hp'); [done|by rewrite Hp| |lia|].
  { rewrite Hp, !length_string_app. pose proof (fmt_z_length z Hz). simpl. lia. }
  exists w'. rewrite Hp, append_assoc, trim_line; last first.
  { rewrite list_ascii_append. apply Forall_app. split; [by repeat constructor|apply fmt_z_solid]. }
  change (":" ++ fmt_z z)%string with (String (Ascii.ascii_of_N 58) (fmt_z z)). cbv iota beta.
  rewrite bool_decide_false, bool_decide_true by done. unfold number. by rewrite atoi_fmt_z.
Qed.

(** A command with an integer for an answer. *)
Lemma ask_run w now args s' z :
  healthy w -> wr_pending w = ""%string -> Forall fits args -> Z.of_nat (length args) < 2^63 -> in_int64 z ->
  rs_exec (wr_srv w) now args = (s', (":" ++ fmt_z z ++ CRLF)%string) ->
  exists w1 w2, write now (command args) w = (w1, inr tt) /\ readRedisInt w1 = (w2, inr z) /\
    healthy w2 /\ wr_srv w2 = s' /\ wr_pending w2 = ""%string.
Proof.
  intros Hw Hp Ha Hn Hz E. destruct (write_run w now args s' _ Hw Ha Hn E) as (w1 & E1 & Hw1 & Hs1 & Hp1).
  rewrite Hp in Hp1. destruct (read_int_run w1 z Hw1 Hz Hp1) as (w2 & E2 & Hw2 & Hs2 & Hp2).
  exists w1, w2. by rewrite Hs2, Hs1.
Qed.
End Exchange.

(** ** The limiter on the wire *)

Lemma itoa_length z : in_int64 z -> 0 <= z -> (String.length (itoa (Z.to_nat z)) <= 20)%nat.
Proof. intros Hz H0. pose proof (fmt_z_length z Hz) as Hl. unfold fmt_z in Hl. by rewrite (proj2 (Z.ltb_ge _ _)) in Hl. Qed.

Lemma fits_itoa z : in_int64 z -> 0 <= z -> fits (itoa (Z.to_nat z)).
Proof. intros Hz H0. pose proof (itoa_length z Hz H0). unfold fits. lia. Qed.

Section Limiter.
Context {S : Type} `{RL : RedisLaws S}.
Abbreviation W := (Wire S).
Implicit Types (w : W) (r : redisLimiter).

Record ready w : Prop := { ry_healthy : healthy w; ry_open : rd_open (wr_srv w) }.

Lemma add_run w now cmd delta k v :
  ready w -> wr_pending w = ""%string -> fits k -> (cmd = "INCR"%string /\ delta = 1 \/ cmd = "DECR"%string /\ delta = -1) ->
  counter (rd_data (wr_srv w)) now k = Some v -> in_int64 (v + delta) ->
  exists w1 w2, write now (command [cmd; k]) w = (w1, inr tt) /\ readRedisInt w1 = (w2, inr (v + delta)) /\
    ready w2 /\ wr_pending w2 = ""%string /\
    rd_data (wr_srv w2) = <[k := (fmt_z (v + delta), expires (rd_data (wr_srv w)) now k)]> (rd_data (wr_srv w)).
Proof.
  intros [Hw Ho] Hp Hk Hc Hv Hr. destruct (rd_add (wr_srv w) now cmd delta k v Ho Hc Hv Hr) as (s' & E & Ho' & Hd).
  destruct (ask_run w now [cmd; k] s' (v + delta) Hw Hp) as (w1 & w2 & E1 & E2 & Hw2 & Hs2 & Hp2); [|done|done|done|].
  { constructor; [|by repeat constructor]. unfold fits. by destruct Hc as [[-> _]|[-> _]]. }
  exists w1, w2. split_and!; [done|done| |done|by rewrite Hs2]. split; [done|by rewrite Hs2].
Qed.

Definition new_expiry r (d : db) (now : Z) (k : string) : option Z :=
  if 0 <? rl_ttlSeconds r then Some (now + rl_ttlSeconds r * second) else expires d now k.

Lemma alive_inserted (d : db) now k v : alive (<[k := (v, expires d now k)]> d) now k = Some (v, expires d now k).
Proof.
  unfold alive at 1. rewrite lookup_insert_eq. unfold expires, alive. destruct (d !! k) as [[v' [exp|]]|]; [|done..].
  destruct (now <? exp) eqn:E; cbn; [by rewrite E|done].
Qed.

Lemma incrKey_run r w now k v :
  ready w -> fits k -> in_int64 (rl_ttlSeconds r) -> counter (rd_data (wr_srv w)) now k = Some v -> in_int64 (v + 1) ->
  exists w', incrKey r now k w = (w', inr (v + 1)) /\ ready w' /\
    rd_data (wr_srv w') = <[k := (fmt_z (v + 1), new_expiry r (rd_data (wr_srv w)) now k)]> (rd_data (wr_srv w)).
Proof.
  intros Hw Hk Ht Hv Hr. unfold incrKey. rewrite bind_run. destruct (dial_run w (ry_healthy _ Hw)) as (w0 & -> & Hw0 & Hs0 & Hp0).
  assert (Hr0 : ready w0) by (split; [done|rewrite Hs0; apply Hw]). rewrite <- Hs0 in Hv |- *.
  destruct (add_run w0 now "INCR" 1 k v Hr0 Hp0 Hk (or_introl (conj eq_refl eq_refl)) Hv Hr) as (w1 & w2 & E1 & E2 & Hr2 & Hp2 & Hd2).
  rewrite <- incr_cmd_is in E1. rewrite bind_run, E1, bind_run, E2, bind_run. unfold new_expiry.
  destruct (Z.ltb_spec 0 (rl_ttlSeconds r)); [|by exists w2].
  destruct (rd_expire (wr_srv w2) now k (Z.to_nat (rl_ttlSeconds r)) (fmt_z (v + 1)) (expires (rd_data (wr_srv w0)) now k)
    (ry_open _ Hr2)) as (s3 & E3 & Ho3 & Hd3); [lia|unfold in_int64 in Ht; lia|rewrite Hd2; apply alive_inserted|].
  destruct (ask_run w2 now ["EXPIRE"%string; k; itoa (Z.to_nat (rl_ttlSeconds r))] s3 1 (ry_healthy _ Hr2) Hp2)
    as (w3 & w4 & E4 & E5 & Hw4 & Hs4 & Hp4); [|done|done|exact E3|].
  { repeat constructor; [done|]. apply fits_itoa; [done|lia]. }
  rewrite expire_cmd_is, bind_run. unfold try at 1. rewrite E4, bind_run. unfold try. rewrite E5. cbn.
  exists w4. split_and!; [done|split; [done|by rewrite Hs4]|]. rewrite Hs4, Hd3, Hd2, insert_insert_eq, Z2Nat.id by lia. done.
Qed.

Lemma decrKey_run w now k v :
  ready w -> fits k -> counter (rd_data (wr_srv w)) now k = Some v -> in_int64 (v - 1) ->
  exists w', decrKey now k w = (w', inr tt) /\ ready w' /\
    rd_data (wr_srv w') = <[k := (fmt_z (if v - 1 <? 0 then v else v - 1), expires (rd_data (wr_srv w)) now k)]> (rd_data (wr_srv w)).
Proof.
  intros Hw Hk Hv Hr. unfold decrKey. rewrite bind_run. destruct (dial_run w (ry_healthy _ Hw)) as (w0 & -> & Hw0 & Hs0 & Hp0).
  assert (Hr0 : ready w0) by (split; [done|rewrite Hs0; apply Hw]). rewrite <- Hs0 in Hv |- *.
  destruct (add_run w0 now "DECR" (-1) k v Hr0 Hp0 Hk (or_intror (conj eq_refl eq_refl)) Hv Hr) as (w1 & w2 & E1 & E2 & Hr2 & Hp2 & Hd2).
  rewrite <- decr_cmd_is in E1. rewrite bind_run, E1, bind_run, E2. change (v + -1) with (v - 1) in *.
  destruct (Z.ltb_spec (v - 1) 0); [|by exists w2].
  destruct (add_run w2 now "INCR" 1 k (v - 1) Hr2 Hp2 Hk (or_introl (conj eq_refl eq_refl))) as (w3 & w4 & E3 & E4 & Hr4 & Hp4 & Hd4).
  { rewrite Hd2. unfold counter. rewrite alive_inserted. by apply atoi_fmt_z. }
  { unfold in_int64 in *. lia. }
  rewrite <- incr_cmd_is in E3. rewrite bind_run, E3, bind_run. unfold try. rewrite E4. cbn. exists w4. split_and!; [done|done|].
  assert (He : expires (rd_data (wr_srv w2)) now k = expires (rd_data (wr_srv w0)) now k)
    by (unfold expires at 1; by rewrite Hd2, alive_inserted).
  rewrite Hd4, He, Hd2, insert_insert_eq. by replace (v - 1 + 1) with v by lia.
Qed.

(** The database on the wire and the one of [RedisLim]. *)
Record same_slots r w (a : RedisLim.t) : Prop := {
  sl_ready : ready w;
  sl_up : RedisLim.up a = true;
  sl_max : RedisLim.max a = rl_max r;
  sl_ttl : RedisLim.ttlSeconds a = rl_ttlSeconds r;
  sl_data t : rd_data (wr_srv w) !! limiter_key t = (fun p => (fmt_z p.1, p.2)) <$> RedisLim.data a !! t
}.

(** The counters are at most [n] away from zero. *)
Definition within (n : Z) (a : RedisLim.t) : Prop := forall t v e, RedisLim.data a !! t = Some (v, e) -> - n <= v <= n.

Lemma limiter_key_inj t t' : limiter_key t = limiter_key t' -> t = t'.
Proof. apply append_cancel. Qed.

Lemma slots_alive r w a now t : same_slots r w a ->
  alive (rd_data (wr_srv w)) now (limiter_key t) = (fun p => (fmt_z p.1, p.2)) <$> RedisLim.live a now t.
Proof.
  intros Hs. unfold alive, RedisLim.live. rewrite (sl_data _ _ _ Hs). destruct (RedisLim.data a !! t) as [[v [e|]]|]; cbn; [|done..].
  by destruct (now <? e).
Qed.

Lemma slots_value r w a now t n : same_slots r w a -> within n a -> 0 <= n < 2^63 ->
  counter (rd_data (wr_srv w)) now (limiter_key t) = Some (RedisLim.value a now t) /\
  expires (rd_data (wr_srv w)) now (limiter_key t) = RedisLim.expiry a now t /\ - n <= RedisLim.value a now t <= n.
Proof.
  intros Hs Hn Hb. unfold counter, expires, RedisLim.value, RedisLim.expiry. rewrite (slots_alive r w a now t Hs).
  destruct (RedisLim.live a now t) as [[v e]|] eqn:E; cbn; [|split_and!; [done|done|lia..]].
  assert (Hv : - n <= v <= n).
  { unfold RedisLim.live in E. destruct (RedisLim.data a !! t) as [[v' e']|] eqn:Ed; [|done]. apply (Hn t v e'). rewrite Ed.
    destruct e' as [x|]; [destruct (now <? x)|]; by simplify_eq. }
  split_and!; [|done|lia..]. apply atoi_fmt_z. unfold in_int64. lia.
Qed.

Lemma slots_set r w w' a a' t v e : same_slots r w a -> ready w' ->
  rd_data (wr_srv w') = <[limiter_key t := (fmt_z v, e)]> (rd_data (wr_srv w)) ->
  RedisLim.data a' = <[t := (v, e)]> (RedisLim.data a) -> RedisLim.up a' = RedisLim.up a -> RedisLim.max a' = RedisLim.max a ->
  RedisLim.ttlSeconds a' = RedisLim.ttlSeconds a -> same_slots r w' a'.
Proof.
  intros [H1 H2 H3 H4 H5] Hr Hd Ha E1 E2 E3. split; [done|congruence..|]. intros t'. rewrite Hd, Ha.
  destruct (decide (t = t')) as [->|Hne]; [by rewrite !lookup_insert_eq|].
  rewrite !lookup_insert_ne; [done|done|]. by intros ?%limiter_key_inj.
Qed.

Lemma within_set n a a' t v e : within n a -> RedisLim.data a' = <[t := (v, e)]> (RedisLim.data a) -> - n - 1 <= v <= n + 1 ->
  within (n + 1) a'.
Proof.
  intros Hn Ha Hv t' v' e'. rewrite Ha. destruct (decide (t = t')) as [->|Hne].
  - rewrite lookup_insert_eq. intros [= <- <-]. lia.
  - rewrite lookup_insert_ne by done. intros H%Hn. lia.
Qed.

Lemma decr_refines r w a now t n :
  same_slots r w a -> within n a -> 0 <= n -> n + 1 < 2^63 -> fits (limiter_key t) ->
  exists w' a', decrKey now (limiter_key t) w = (w', inr tt) /\ RedisLim.decrKey a now t = Ok a' /\ same_slots r w' a' /\ within (n + 1) a'.
Proof.
  intros Hs Hn H0 Hb Hf. destruct (slots_value r w a now t n Hs Hn) as (Hv & He & Hr); [lia|].
  destruct (decrKey_run w now (limiter_key t) _ (sl_ready _ _ _ Hs) Hf Hv) as (w' & E & Hr' & Hd); [unfold in_int64; lia|].
  rewrite He in Hd. unfold RedisLim.decrKey. rewrite (sl_up _ _ _ Hs). set (v := RedisLim.value a now t) in *.
  exists w'. destruct (v - 1 <? 0).
  - eexists. split_and!; [done|reflexivity| |].
    + eapply (slots_set r w); [done|done|exact Hd| |done..]. cbn. rewrite insert_insert_eq. do 3 f_equal. lia.
    + eapply within_set; [exact Hn| |]; [cbn; by rewrite insert_insert_eq|]. lia.
  - eexists. split_and!; [done|reflexivity| |].
    + by eapply (slots_set r w); [done|done|exact Hd|..].
    + eapply within_set; [exact Hn|done|]. lia.
Qed.

Lemma incr_refines r w a now t n :
  same_slots r w a -> within n a -> 0 <= n -> n + 2 < 2^63 -> fits (limiter_key t) -> in_int64 (rl_ttlSeconds r) ->
  (wire_Incr r w now t).2 = (RedisLim.incr a now t).2 /\
  same_slots r (wire_Incr r w now t).1 (RedisLim.incr a now t).1 /\ within (n + 2) (RedisLim.incr a now t).1.
Proof.
  intros Hs Hn H0 Hb Hf Ht. destruct (slots_value r w a now t n Hs Hn) as (Hv & He & Hr); [lia|].
  destruct (incrKey_run r w now (limiter_key t) _ (sl_ready _ _ _ Hs) Hf Ht Hv) as (w1 & E & Hr1 & Hd1); [unfold in_int64; lia|].
  unfold new_expiry in Hd1. rewrite He in Hd1. unfold wire_Incr. rewrite E. unfold RedisLim.incr, RedisLim.incrKey.
  rewrite (sl_up _ _ _ Hs), (sl_ttl _ _ _ Hs). set (v := RedisLim.value a now t) in *. set (e := if 0 <? _ then _ else _) in *.
  assert (Hs1 : same_slots r w1 (RedisLim.set a t (v + 1) e)) by by eapply (slots_set r w); [done|done|exact Hd1|..].
  assert (Hn1 : within (n + 1) (RedisLim.set a t (v + 1) e)) by (eapply within_set; [exact Hn|done|lia]).
  rewrite (sl_max _ _ _ Hs1). destruct (rl_max r <? v + 1); cbn.
  - destruct (decr_refines r w1 _ now t (n + 1) Hs1 Hn1) as (w2 & a2 & E2 & -> & Hs2 & Hn2); [lia|lia|done|].
    rewrite E2. split_and!; [done|done|]. intros t' v' e' H%Hn2. lia.
  - split_and!; [done|done|]. intros t' v' e' H%Hn1. lia.
Qed.

(** *** Sequences of operations *)

Inductive slot_op := OpIncr (now : Z) (tenantID : string) | OpDecr (now : Z) (tenantID : string).

Definition op_tenant (o : slot_op) : string := match o with OpIncr _ t | OpDecr _ t => t end.

Fixpoint run_wire r w (ops : list slot_op) : W * list bool :=
  match ops with
  | [] => (w, [])
  | OpIncr now t :: ops => let '(w, g) := wire_Incr r w now t in let '(w, gs) := run_wire r w ops in (w, g :: gs)
  | OpDecr now t :: ops => run_wire r (wire_Decr w now t) ops
  end.
End Limiter.

Fixpoint run_limiter {L} `{!Limiter L} (l : L) (ops : list slot_op) : L * list bool :=
  match ops with
  | [] => (l, [])
  | OpIncr now t :: ops => let '(l, g) := Incr l now t in let '(l, gs) := run_limiter l ops in (l, g :: gs)
  | OpDecr now t :: ops => run_limiter (Decr l now t) ops
  end.

(** The limiter on the wire refines the limiter on counters: on a healthy
    connection it grants and refuses exactly the slots that [RedisLim] does, for
    any sequence of requests and tenants, and the keys of the server hold its
    counters and expiries. *)
Theorem wire_limiter_refines_counters {S} `{RedisLaws S} r (w : Wire S) a n ops :
  same_slots r w a -> within n a -> 0 <= n -> n + 2 * Z.of_nat (length ops) + 2 < 2^63 -> in_int64 (rl_ttlSeconds r) ->
  Forall (fun o => fits (limiter_key (op_tenant o))) ops ->
  (run_wire r w ops).2 = (run_limiter a ops).2 /\ same_slots r (run_wire r w ops).1 (run_limiter a ops).1.
Proof.
  intros Hs Hn H0 Hb Ht Hf. revert w a n Hs Hn H0 Hb. induction Hf as [|o ops Ho _ IH]; intros w a n Hs Hn H0 Hb; [done|].
  cbn [length] in Hb. destruct o as [now t|now t]; cbn [run_wire run_limiter op_tenant] in *.
  - destruct (incr_refines r w a now t n Hs Hn H0 ltac:(lia) Ho Ht) as (E & Hs' & Hn'). cbn [Incr redis_limiter].
    destruct (wire_Incr r w now t) as [w' g], (RedisLim.incr a now t) as [a' g']. cbn in E, Hs', Hn'. subst g'.
    destruct (IH w' a' (n + 2) Hs' Hn' ltac:(lia) ltac:(lia)) as [E1 E2].
    destruct (run_wire r w' ops), (run_limiter a' ops). cbn in *. by rewrite E1.
  - destruct (decr_refines r w a now t n Hs Hn H0 ltac:(lia) Ho) as (w' & a' & E1 & E2 & Hs' & Hn').
    cbn [Decr redis_limiter]. unfold wire_Decr, RedisLim.decr. rewrite E1, E2. apply (IH w' a' (n + 1)); [done|done|lia|lia].
Qed.

(** ** Counters and values *)

Lemma trim_ends p q : (exists c l, p = String c l /\ is_space c = false) -> solid (String.list_ascii_of_string q) -> q <> ""%string ->
  trim_space ((p ++ q) ++ CRLF) = (p ++ q)%string.
Proof.
  intros (c & l & -> & Hc) Hq Hne. apply trim_crlf.
  - rewrite list_ascii_append, rev_app_distr. apply List.Forall_rev in Hq.
    destruct (rev (String.list_ascii_of_string q)) as [|d m] eqn:E.
    + exfalso. apply Hne. apply (f_equal (@rev _)) in E. rewrite rev_involutive in E. by destruct q.
    + apply Forall_cons in Hq as [[Hd _] _]. simpl. by rewrite Hd.
  - change (String c l ++ q)%string with (String c (l ++ q)). cbn [String.list_ascii_of_string drop_while]. by rewrite Hc.
Qed.

Lemma index_crlf x y : lacks cr x -> index_of CRLF (x ++ CRLF ++ y) = Some (String.length x).
Proof.
  induction x as [|c x IH]; [by destruct y|]. intros [Hc Hx]%lacks_cons.
  change (String c x ++ CRLF ++ y)%string with (String c (x ++ CRLF ++ y)). cbn [index_of String.length].
  assert (has_prefix (String c (x ++ CRLF ++ y)) CRLF = false) as ->.
  { unfold has_prefix, CRLF. cbn [String.prefix]. destruct (Ascii.ascii_dec cr c); [congruence|reflexivity]. }
  by rewrite IH.
Qed.

Lemma lacks_itoa n : lacks cr (itoa n).
Proof. intros Hin. by destruct (proj1 (Forall_forall _ _) (itoa_solid n) cr Hin) as [Hs _]. Qed.

Section Values.
Context {S : Type} `{RL : RedisLaws S}.
Abbreviation W := (Wire S).
Implicit Types (w : W).

Lemma errorf_run {X} what (m : M W string X) w w' x : m w = (w', inr x) -> errorf what m w = (w', inr x).
Proof. intros E. unfold errorf. rewrite bind_run. unfold try. by rewrite E. Qed.

(** One command and the whole of its answer. *)
Lemma exchange_run w now args s' reply cap :
  ready w -> Forall fits args -> Z.of_nat (length args) < 2^63 -> rs_exec (wr_srv w) now args = (s', reply) ->
  reply <> ""%string -> (String.length reply <= cap)%nat -> (cap <= 256)%nat ->
  exists w0 w1 w2, dial w = (w0, inr tt) /\ write now (command args) w0 = (w1, inr tt) /\ read cap w1 = (w2, inr reply) /\
    healthy w2 /\ wr_srv w2 = s'.
Proof.
  intros Hw Ha Hn E Hne Hl Hc. destruct (dial_run w (ry_healthy _ Hw)) as (w0 & E0 & Hw0 & Hs0 & Hp0). rewrite <- Hs0 in E.
  destruct (write_run w0 now args s' reply Hw0 Ha Hn E) as (w1 & E1 & Hw1 & Hs1 & Hp1). rewrite Hp0 in Hp1. cbn in Hp1.
  destruct (read_run w1 cap Hw1) as (w2 & E2 & Hw2 & Hs2 & _); [by rewrite Hp1|by rewrite Hp1|done|].
  exists w0, w1, w2. rewrite Hp1 in E2. split_and!; [done..|]. by rewrite Hs2.
Qed.

(** On a healthy connection the count of a key is read as it is stored, and as
    zero when the key is missing or expired. *)
Theorem getCount_reads_the_counter w now k :
  ready w -> fits k -> (forall v e, alive (rd_data (wr_srv w)) now k = Some (v, e) -> exists z, in_int64 z /\ v = fmt_z z) ->
  exists w' z, getCount now k w = (w', inr z) /\ counter (rd_data (wr_srv w)) now k = Some z /\
    rd_data (wr_srv w') = rd_data (wr_srv w) /\ ready w'.
Proof.
  intros Hw Hk Hint. destruct (rd_get (wr_srv w) now k (ry_open _ Hw)) as (s' & E & Ho & Hd).
  unfold getCount, counter. rewrite get_cmd_is. destruct (alive (rd_data (wr_srv w)) now k) as [[v e]|] eqn:Ea.
  - destruct (Hint v e eq_refl) as (z & Hz & ->).
    assert (Hlen : (String.length (bulk (fmt_z z)) <= 128)%nat).
    { unfold bulk. rewrite !length_string_app. pose proof (fmt_z_length z Hz).
      pose proof (itoa_length (Z.of_nat (String.length (fmt_z z)))) as Hl. rewrite Nat2Z.id in Hl.
      specialize (Hl ltac:(unfold in_int64; lia) ltac:(lia)). simpl. lia. }
    assert (Hargs : Forall fits ["GET"%string; k]) by by repeat constructor.
    destruct (exchange_run w now _ s' _ 128 Hw Hargs ltac:(done) E ltac:(done) Hlen ltac:(lia)) as (w0 & w1 & w2 & E0 & E1 & E2 & Hw2 & Hs2).
    rewrite bind_run, (errorf_run _ _ _ _ _ E0), bind_run, (errorf_run _ _ _ _ _ E1), bind_run, (errorf_run _ _ _ _ _ E2).
    assert (Hbulk : bulk (fmt_z z) = ((("$" ++ itoa (String.length (fmt_z z)) ++ CRLF) ++ fmt_z z) ++ CRLF)%string)
      by (unfold bulk; by rewrite <- !append_assoc).
    rewrite Hbulk, trim_ends; [|by eexists _, _|apply fmt_z_solid|intros H0; by apply (f_equal atoi) in H0; rewrite atoi_fmt_z in H0].
    set (len := itoa (String.length (fmt_z z))). cbv beta zeta.
    assert (Hx : index_of CRLF (("$" ++ len ++ CRLF) ++ fmt_z z) = Some (1 + String.length len)%nat).
    { rewrite <- !append_assoc. change ("$" ++ len ++ CRLF ++ fmt_z z)%string with (("$" ++ len) ++ CRLF ++ fmt_z z)%string.
      rewrite index_crlf; [done|]. apply lacks_app. split; [apply (bool_decide_unpack _); by vm_compute|apply lacks_itoa]. }
    rewrite bool_decide_false by (intros H0; by rewrite H0 in Hx).
    rewrite is_empty_false by done. assert (has_prefix (("$" ++ len ++ CRLF) ++ fmt_z z) "$" = true) as -> by (rewrite <- !append_assoc; apply has_prefix_app).
    cbn [orb]. rewrite Hx. rewrite drop_string_app by (rewrite !length_string_app; cbn; lia). rewrite trim_solid by apply fmt_z_solid.
    rewrite atoi_fmt_z by done. exists w2, z. rewrite Hs2. split_and!; [done..|split; [done|by rewrite Hs2]].
  - assert (Hargs : Forall fits ["GET"%string; k]) by by repeat constructor.
    assert (Hlen : (String.length ("$-1" ++ CRLF) <= 128)%nat) by (vm_compute; lia).
    destruct (exchange_run w now _ s' _ 128 Hw Hargs ltac:(done) E ltac:(done) Hlen ltac:(lia)) as (w0 & w1 & w2 & E0 & E1 & E2 & Hw2 & Hs2).
    rewrite bind_run, (errorf_run _ _ _ _ _ E0), bind_run, (errorf_run _ _ _ _ _ E1), bind_run, (errorf_run _ _ _ _ _ E2).
    exists w2, 0. rewrite Hs2. split_and!; [done|done|done|split; [done|by rewrite Hs2]].
Qed.

(** On a healthy connection a value is stored with its lifetime. *)
Theorem setex_stores_the_value w now k v ttl :
  ready w -> fits k -> fits v -> 0 < ttl -> in_int64 ttl ->
  exists w', SetEX now k v (ttl * second) w = (w', inr tt) /\ ready w' /\
    rd_data (wr_srv w') = <[k := (v, Some (now + ttl * second))]> (rd_data (wr_srv w)).
Proof.
  intros Hw Hk Hv Ht Hi. unfold SetEX. rewrite Z.div_mul by done. rewrite setex_cmd_is.
  destruct (rd_setex (wr_srv w) now k (Z.to_nat ttl) v (ry_open _ Hw)) as (s' & E & Ho & Hd); [lia|unfold in_int64 in Hi; lia|].
  assert (Hargs : Forall fits ["SETEX"%string; k; itoa (Z.to_nat ttl); v]).
  { repeat constructor; [done| |done]. apply fits_itoa; [done|lia]. }
  assert (Hlen : (String.length ("+OK" ++ CRLF) <= 64)%nat) by (vm_compute; lia).
  destruct (exchange_run w now _ s' _ 64 Hw Hargs ltac:(done) E ltac:(done) Hlen ltac:(lia)) as (w0 & w1 & w2 & E0 & E1 & E2 & Hw2 & Hs2).
  rewrite bind_run, (errorf_run _ _ _ _ _ E0), bind_run, (errorf_run _ _ _ _ _ E1), bind_run, (errorf_run _ _ _ _ _ E2).
  exists w2. rewrite Hs2, Hd, Z2Nat.id by lia. split_and!; [done|split; [done|by rewrite Hs2]|done].
Qed.
End Values.

(** ** A server *)

Module MemRedis.
(** [locked]: it wants a password. *)
Record t := mk { keys : gmap string (string * option Z); locked : bool }.

Definition error_reply (msg : string) : string := ("-" ++ msg ++ CRLF)%string.

Definition add (s : t) (now : Z) (k : string) (delta : Z) : t * string :=
  match counter (keys s) now k with
  | None => (s, error_reply "ERR value is not an integer or out of range")
  | Some v =>
      if (- 2^63 <=? v + delta) && (v + delta <? 2^63)
      then (mk (<[k := (fmt_z (v + delta), expires (keys s) now k)]> (keys s)) (locked s), (":" ++ fmt_z (v + delta) ++ CRLF)%string)
      else (s, error_reply "ERR increment or decrement would overflow")
  end.

Definition store (s : t) (now : Z) (k v ttl : string) (reply : string) : t * string :=
  match atoi ttl with
  | Some n => if 0 <? n then (mk (<[k := (v, Some (now + n * second))]> (keys s)) (locked s), reply)
              else (s, error_reply "ERR invalid expire time")
  | None => (s, error_reply "ERR value is not an integer or out of range")
  end.

Definition exec (s : t) (now : Z) (args : list string) : t * string :=
  if locked s then (s, error_reply "NOAUTH Authentication required.") else
  match args with
  | [cmd; k] =>
      if decide (cmd = "INCR"%string) then add s now k 1
      else if decide (cmd = "DECR"%string) then add s now k (-1)
      else if decide (cmd = "GET"%string)
      then (s, match alive (keys s) now k with None => ("$-1" ++ CRLF)%string | Some (v, _) => bulk v end)
      else (s, error_reply "ERR unknown command")
  | [cmd; k; ttl] =>
      if decide (cmd = "EXPIRE"%string)
      then match alive (keys s) now k with None => (s, (":0" ++ CRLF)%string) | Some (v, _) => store s now k v ttl (":1" ++ CRLF) end
      else (s, error_reply "ERR unknown command")
  | [cmd; k; ttl; v] =>
      if decide (cmd = "SETEX"%string) then store s now k v ttl ("+OK" ++ CRLF) else (s, error_reply "ERR unknown command")
  | _ => (s, error_reply "ERR unknown command")
  end.
End MemRedis.

#[export] Instance mem_redis : RedisServer MemRedis.t := MemRedis.exec.

Lemma mem_store s now k v t reply : (0 < t)%nat -> Z.of_nat t < 2^63 -> MemRedis.store s now k v (itoa t) reply
  = (MemRedis.mk (<[k := (v, Some (now + Z.of_nat t * second))]> (MemRedis.keys s)) (MemRedis.locked s), reply).
Proof. intros H0 Ht. unfold MemRedis.store. rewrite atoi_itoa by done. by rewrite (proj2 (Z.ltb_lt _ _)) by lia. Qed.

Lemma mem_add s now k v delta : counter (MemRedis.keys s) now k = Some v -> in_int64 (v + delta) ->
  MemRedis.add s now k delta = (MemRedis.mk (<[k := (fmt_z (v + delta), expires (MemRedis.keys s) now k)]> (MemRedis.keys s)) (MemRedis.locked s),
    (":" ++ fmt_z (v + delta) ++ CRLF)%string).
Proof.
  intros Hv [H1 H2]. unfold MemRedis.add. rewrite Hv. by rewrite (proj2 (Z.leb_le _ _)), (proj2 (Z.ltb_lt _ _)) by lia.
Qed.

#[export] Program Instance mem_redis_laws : RedisLaws MemRedis.t := {
  rd_open s := MemRedis.locked s = false;
  rd_data := MemRedis.keys
}.
Next Obligation.
  intros s now cmd delta k v Ho Hc Hv Hr. unfold rs_exec, mem_redis, MemRedis.exec. rewrite Ho.
  destruct Hc as [[-> ->]|[-> ->]]; [|rewrite decide_False by done]; rewrite decide_True by done; rewrite (mem_add s now k v) by done;
    (eexists; split; [reflexivity|done]).
Qed.
Next Obligation.
  intros s now k t v e Ho Ht Hb Ha. unfold rs_exec, mem_redis, MemRedis.exec. rewrite Ho, decide_True, Ha, mem_store by done.
  eexists. split; [reflexivity|done].
Qed.
Next Obligation.
  intros s now k Ho. unfold rs_exec, mem_redis, MemRedis.exec. rewrite Ho, !decide_False, decide_True by done.
  eexists. split; [reflexivity|done].
Qed.
Next Obligation.
  intros s now k t v Ho Ht Hb. unfold rs_exec, mem_redis, MemRedis.exec. rewrite Ho, decide_True, mem_store by done.
  eexists. split; [reflexivity|done].
Qed.

(** A connection that delivers [seg] bytes at a time. *)
Definition wire (seg : nat) (s : MemRedis.t) : Wire MemRedis.t :=
  mkWire s "" (fun _ => None) (fun _ => None) (fun _ => None) (fun _ => seg) 0.

Definition open_server (kvs : list (string * string)) : MemRedis.t :=
  MemRedis.mk (list_to_map ((fun kv => (kv.1, (kv.2, None))) <$> kvs)) false.

Lemma wire_ready kvs : ready (wire 256 (open_server kvs)).
Proof. split; [split; cbn; try done; intros; lia|done]. Qed.

(** ** Instances *)

Definition two_slots : redisLimiter := NewLimiter "redis://:secret@cache:6379/0" "" 2.

Lemma wire_limiter_refines_counters_witness :
  let ops := [OpIncr 1 "t1"; OpIncr 2 "t1"; OpIncr 3 "t1"; OpDecr 4 "t1"; OpIncr 5 "t1"]%string in
  (run_wire two_slots (wire 256 (open_server [])) ops).2 = [true; true; false; true] /\
  same_slots two_slots (run_wire two_slots (wire 256 (open_server [])) ops).1 (run_limiter (RedisLim.mk ∅ true 2 300) ops).1.
Proof.
  intros ops. destruct (wire_limiter_refines_counters two_slots (wire 256 (open_server [])) (RedisLim.mk ∅ true 2 300) 0 ops) as [E Hs].
  - split; [apply wire_ready|done..].
  - intros t v e H. cbn [RedisLim.data] in H. by rewrite lookup_empty in H.
  - done.
  - done.
  - done.
  - repeat constructor; done.
  - split; [rewrite E; by vm_compute|exact Hs].
Defined.

Lemma command_is_read_back_witness : read_command (command ["GET"; NL; CRLF] ++ "x")%string = Some (["GET"; NL; CRLF], "x")%string.
Proof. apply command_is_read_back; [repeat constructor; done|done]. Defined.

Lemma getCount_reads_the_counter_witness :
  exists w' z, getCount 7 "calls" (wire 256 (open_server [("calls", "49")]%string)) = (w', inr z) /\ Some 49 = Some z.
Proof.
  destruct (getCount_reads_the_counter (wire 256 (open_server [("calls", "49")]%string)) 7 "calls") as (w' & z & E & Hc & _).
  - apply wire_ready.
  - done.
  - intros v e H. vm_compute in H. injection H as <- <-. exists 49. split; [split; lia|by vm_compute].
  - exists w', z. split; [done|]. rewrite <- Hc. by vm_compute.
Defined.

Lemma setex_stores_the_value_witness :
  exists w', SetEX 0 "ctx" "{}" (7200 * second) (wire 256 (open_server [])) = (w', inr tt) /\
    MemRedis.keys (wr_srv w') !! "ctx"%string = Some ("{}"%string, Some (7200 * second)).
Proof.
  destruct (setex_stores_the_value (wire 256 (open_server [])) 0 "ctx" "{}" 7200) as (w' & E & _ & Hd).
  - apply wire_ready.
  - done.
  - done.
  - lia.
  - split; lia.
  - exists w'. split; [done|]. cbn in Hd. rewrite Hd. by rewrite lookup_insert_eq.
Defined.

(** ** Behaviour that differs from the intention *)

Lemma serve_locked fuel : forall s now bytes, MemRedis.locked s = true -> (serve fuel s now bytes).1 = s.
Proof.
  induction fuel as [|fuel IH]; intros s now bytes Hl; cbn; [done|]. destruct (read_command bytes) as [[args rest]|]; [|done].
  unfold rs_exec, mem_redis, MemRedis.exec. rewrite Hl. pose proof (IH s now rest Hl) as E. by destruct (serve fuel s now rest).
Qed.

Lemma locked_incr r (w : Wire MemRedis.t) now k : healthy w -> MemRedis.locked (wr_srv w) = true -> fits k ->
  exists w' e, incrKey r now k w = (w', inl e) /\ wr_srv w' = wr_srv w.
Proof.
  intros Hw Hl Hk. unfold incrKey. rewrite bind_run. destruct (dial_run w Hw) as (w0 & -> & Hw0 & Hs0 & Hp0).
  rewrite bind_run, incr_cmd_is.
  destruct (write_run w0 now ["INCR"%string; k] (wr_srv w) (MemRedis.error_reply "NOAUTH Authentication required.") Hw0)
    as (w1 & -> & Hw1 & Hs1 & Hp1); [by repeat constructor|done| |].
  { rewrite Hs0. unfold rs_exec, mem_redis, MemRedis.exec. by rewrite Hl. }
  rewrite Hp0 in Hp1. change (wr_pending w1 = MemRedis.error_reply "NOAUTH Authentication required.") in Hp1.
  rewrite bind_run. unfold readRedisInt. rewrite bind_run.
  destruct (read_run w1 64 Hw1) as (w2 & -> & Hw2 & Hs2 & Hp2); [by rewrite Hp1|rewrite Hp1; vm_compute; lia|lia|].
  rewrite Hp1. vm_compute (trim_space _). cbn iota. rewrite bool_decide_true by done. eexists _, _. split; [reflexivity|]. by rewrite Hs2.
Qed.

(** The password of the address is dropped, and the clients send none: a server
    that wants one grants every slot, and counting a call reports success without
    counting it. *)
Theorem password_disables_the_limits r (w : Wire MemRedis.t) now t :
  rl_addr two_slots = "cache:6379"%string /\
  (healthy w -> MemRedis.locked (wr_srv w) = true -> fits (limiter_key t) ->
   (wire_Incr r w now t).2 = true /\ wr_srv (wire_Incr r w now t).1 = wr_srv w /\
   exists w', incrWithExpire now (limiter_key t) 3600 w = (w', inr tt) /\ wr_srv w' = wr_srv w).
Proof.
  split; [by vm_compute|]. intros Hw Hl Hf. destruct (locked_incr r w now (limiter_key t) Hw Hl Hf) as (w' & e & E & Hs).
  unfold wire_Incr. rewrite E. split_and!; [done|done|]. unfold incrWithExpire. rewrite bind_run.
  destruct (dial_run w Hw) as (w0 & E0 & Hw0 & Hs0 & Hp0). rewrite (errorf_run _ _ _ _ _ E0), bind_run. clear E0.
  set (bytes := (incr_cmd (limiter_key t) ++ expire_cmd (limiter_key t) 3600)%string).
  assert (E1 : exists w1, write now bytes w0 = (w1, inr tt) /\ wr_srv w1 = wr_srv w).
  { unfold write. rewrite bind_run. cbn [next_call wr_write]. rewrite (hl_write _ Hw0). cbn [wr_srv].
    pose proof (serve_locked (String.length bytes) (wr_srv w0) now bytes) as Hsv. rewrite Hs0 in Hsv |- *.
    specialize (Hsv Hl). destruct (serve _ _ _ _) as [s1 rep]. cbn in Hsv. subst s1. by eexists. }
  destruct E1 as (w1 & E1 & Hs1). rewrite (errorf_run _ _ _ _ _ E1), bind_run. unfold try, read, bind, next_call. cbn.
  destruct (wr_read w1 _); [by eexists|]. destruct (is_empty _); by eexists.
Qed.

(** A read that finds only a part of the answer takes it for the whole: with 12
    calls running a slot is granted where two are allowed, and a count of 49 is
    read as 4. *)
Theorem short_read_is_misread :
  (wire_Incr two_slots (wire 2 (open_server [("vobiz:concurrency:t1", "12")]%string)) 0 "t1").2 = true /\
  (wire_Incr two_slots (wire 256 (open_server [("vobiz:concurrency:t1", "12")]%string)) 0 "t1").2 = false /\
  (getCount 0 "calls" (wire 5 (open_server [("calls", "49")]%string))).2 = inr 4.
Proof. by vm_compute. Qed.
