(* ===== verification/TelStore.v ===== *)
(** * telephony-adapter/internal/model and internal/store

    The records of the telephony adapter, its [Store] interface, the in-memory
    store (fake.go) and the Postgres store (postgres.go).  A Go error is an
    [option string]; an operation returns the new store also when it fails. *)

From S2P Require Import Prelude GoTime Float64 Kv.

Open Scope Z_scope.

Record CallRequest := mkReq {
  rq_SessionID : string;
  rq_TenantID : string;
  rq_FromNumber : string;
  rq_ToNumber : string;
  rq_CallbackURL : string;
  rq_Region : string;
  rq_MaxDuration : Z;
  rq_Demo : bool
}.

Record CallSession := mkCS {
  cs_ID : string;
  cs_TenantID : string;
  cs_ProviderCallID : string;
  cs_ProviderName : string;
  cs_FromNumber : string;
  cs_ToNumber : string;
  cs_Status : string;
  cs_StartedAt : Z;
  cs_EndedAt : option Z;
  cs_CreatedAt : Z
}.

Record CallProviderEvent := mkPE {
  pe_ID : string;
  pe_SessionID : string;
  pe_ProviderCallID : string;
  pe_ProviderName : string;
  pe_EventType : string;
  pe_RawPayload : string;
  pe_ReceivedAt : Z
}.

Record CallRecording := mkRec {
  rec_ID : string;
  rec_SessionID : string;
  rec_ProviderCallID : string;
  rec_StorageKey : string;
  rec_Encrypted : bool;
  rec_SizeBytes : Z;
  rec_CreatedAt : Z
}.

Record ProviderHealthCheck := mkHC {
  hc_ID : string;
  hc_ProviderID : string;
  hc_Healthy : bool;
  hc_CheckedAt : Z;
  hc_LatencyMs : Z
}.

Record ProviderFailure := mkPF {
  pf_ID : string;
  pf_ProviderID : string;
  pf_Reason : string;
  pf_OccurredAt : Z
}.

Record ProviderRoutingRule := mkRule {
  rr_ID : string;
  rr_ProviderID : string;
  rr_Region : string;
  rr_Priority : Z;
  rr_MaxFailRate : float64
}.

Record WebhookEvent := mkWE {
  we_ID : string;
  we_ProviderName : string;
  we_EventType : string;
  we_RawPayload : string;
  we_ReceivedAt : Z;
  we_Published : bool
}.

Record IdempotencyKey := mkIK { ik_Key : string; ik_Result : string; ik_CreatedAt : Z }.

(** The interface; operations that read the clock take the instant. *)
Class TelStore (T : Type) := {
  StoreCallSession : T -> Z -> CallSession -> T * error;
  GetCallSession : T -> string -> result CallSession;
  GetCallSessionByProviderCallID : T -> string -> result CallSession;
  StoreProviderEvent : T -> Z -> CallProviderEvent -> T * error;
  StoreRecording : T -> Z -> CallRecording -> T * error;
  GetRecording : T -> string -> result CallRecording;
  StoreHealthCheck : T -> Z -> ProviderHealthCheck -> T * error;
  StoreProviderFailure : T -> Z -> ProviderFailure -> T * error;
  GetProviderFailureRate : T -> Z -> string -> Z -> result float64;
  ListRoutingRules : T -> result (list ProviderRoutingRule);
  UpsertRoutingRule : T -> ProviderRoutingRule -> T * error;
  StoreWebhookEvent : T -> Z -> WebhookEvent -> T * error;
  CheckIdempotencyKey : T -> string -> result (option string);
  SetIdempotencyKey : T -> Z -> string -> string -> T * error
}.

(** The rolling failure rate: unhealthy checks and failures over all checks and
    failures of the provider after the cutoff; 0 when there is none. *)
Definition failure_rate (providerID : string) (cutoff : Z)
    (checks : list ProviderHealthCheck) (fails : list ProviderFailure) : float64 :=
  let mine := List.filter (fun h => bool_decide (hc_ProviderID h = providerID)
                                    && (cutoff <? hc_CheckedAt h)) checks in
  let bad := List.filter (fun h => negb (hc_Healthy h)) mine in
  let pf := List.filter (fun f => bool_decide (pf_ProviderID f = providerID)
                                  && (cutoff <? pf_OccurredAt f)) fails in
  let total := Z.of_nat (length mine + length pf) in
  let failed := Z.of_nat (length bad + length pf) in
  if total =? 0 then f_of_int 0 else f_div (f_of_int failed) (f_of_int total).

Definition default_rules : list ProviderRoutingRule :=
  [mkRule "rule-plivo" "plivo" "" 1 (f_dec 3 1);
   mkRule "rule-exotel" "exotel" "" 2 (f_dec 3 1);
   mkRule "rule-mock" "mock" "" 4 (f_of_int 1)].

(** ** In memory *)
Module FakeTel.

Record t := mk {
  callSessions : gmap string CallSession;
  providerEvents : list CallProviderEvent;
  recordings : gmap string CallRecording;
  healthChecks : list ProviderHealthCheck;
  providerFails : list ProviderFailure;
  routingRules : list ProviderRoutingRule;
  webhookEvents : gmap string WebhookEvent;
  idempotencyKeys : gmap string IdempotencyKey
}.

Definition NewFake : t := mk ∅ [] ∅ [] [] default_rules ∅ ∅.

Definition storeCallSession (f : t) (s : CallSession) : t * error :=
  (mk (<[cs_ID s := s]> (callSessions f)) (providerEvents f) (recordings f) (healthChecks f)
     (providerFails f) (routingRules f) (webhookEvents f) (idempotencyKeys f), None).

Definition getCallSession (f : t) (id : string) : result CallSession :=
  match callSessions f !! id with
  | Some s => Ok s
  | None => Err "store: call session not found"
  end.

(** The first match in the (unspecified) iteration order of the Go map. *)
Definition getCallSessionByProviderCallID (f : t) (providerCallID : string)
    : result CallSession :=
  match List.find (fun s => bool_decide (cs_ProviderCallID s = providerCallID))
          (map_to_list (callSessions f)).*2 with
  | Some s => Ok s
  | None => Err "store: call session for provider_call_id not found"
  end.

Definition storeProviderEvent (f : t) (e : CallProviderEvent) : t * error :=
  (mk (callSessions f) (providerEvents f ++ [e]) (recordings f) (healthChecks f)
     (providerFails f) (routingRules f) (webhookEvents f) (idempotencyKeys f), None).

Definition storeRecording (f : t) (r : CallRecording) : t * error :=
  (mk (callSessions f) (providerEvents f) (<[rec_ProviderCallID r := r]> (recordings f))
     (healthChecks f) (providerFails f) (routingRules f) (webhookEvents f)
     (idempotencyKeys f), None).

Definition getRecording (f : t) (providerCallID : string) : result CallRecording :=
  match recordings f !! providerCallID with
  | Some r => Ok r
  | None => Err "store: recording not found"
  end.

Definition storeHealthCheck (f : t) (h : ProviderHealthCheck) : t * error :=
  (mk (callSessions f) (providerEvents f) (recordings f) (healthChecks f ++ [h])
     (providerFails f) (routingRules f) (webhookEvents f) (idempotencyKeys f), None).

Definition storeProviderFailure (f : t) (pf : ProviderFailure) : t * error :=
  (mk (callSessions f) (providerEvents f) (recordings f) (healthChecks f)
     (providerFails f ++ [pf]) (routingRules f) (webhookEvents f) (idempotencyKeys f), None).

Definition getProviderFailureRate (f : t) (now : Z) (providerID : string) (window : Z)
    : result float64 :=
  Ok (failure_rate providerID (now - window) (healthChecks f) (providerFails f)).

Definition listRoutingRules (f : t) : result (list ProviderRoutingRule) := Ok (routingRules f).

Fixpoint upsert (rule : ProviderRoutingRule) (rs : list ProviderRoutingRule)
    : list ProviderRoutingRule :=
  match rs with
  | [] => [rule]
  | r :: rs' => if decide (rr_ID r = rr_ID rule) then rule :: rs' else r :: upsert rule rs'
  end.

Definition upsertRoutingRule (f : t) (rule : ProviderRoutingRule) : t * error :=
  (mk (callSessions f) (providerEvents f) (recordings f) (healthChecks f) (providerFails f)
     (upsert rule (routingRules f)) (webhookEvents f) (idempotencyKeys f), None).

Definition storeWebhookEvent (f : t) (e : WebhookEvent) : t * error :=
  (mk (callSessions f) (providerEvents f) (recordings f) (healthChecks f) (providerFails f)
     (routingRules f) (<[we_ID e := e]> (webhookEvents f)) (idempotencyKeys f), None).

Definition checkIdempotencyKey (f : t) (key : string) : result (option string) :=
  Ok (ik_Result <$> idempotencyKeys f !! key).

Definition setIdempotencyKey (f : t) (now : Z) (key res : string) : t * error :=
  match idempotencyKeys f !! key with
  | Some _ => (f, None)
  | None =>
      (mk (callSessions f) (providerEvents f) (recordings f) (healthChecks f)
         (providerFails f) (routingRules f) (webhookEvents f)
         (<[key := mkIK key res now]> (idempotencyKeys f)), None)
  end.

End FakeTel.

#[export] Instance fake_tel_store : TelStore FakeTel.t := {
  StoreCallSession f _ := FakeTel.storeCallSession f;
  GetCallSession := FakeTel.getCallSession;
  GetCallSessionByProviderCallID := FakeTel.getCallSessionByProviderCallID;
  StoreProviderEvent f _ := FakeTel.storeProviderEvent f;
  StoreRecording f _ := FakeTel.storeRecording f;
  GetRecording := FakeTel.getRecording;
  StoreHealthCheck f _ := FakeTel.storeHealthCheck f;
  StoreProviderFailure f _ := FakeTel.storeProviderFailure f;
  GetProviderFailureRate := FakeTel.getProviderFailureRate;
  ListRoutingRules := FakeTel.listRoutingRules;
  UpsertRoutingRule := FakeTel.upsertRoutingRule;
  StoreWebhookEvent f _ := FakeTel.storeWebhookEvent f;
  CheckIdempotencyKey := FakeTel.checkIdempotencyKey;
  SetIdempotencyKey := FakeTel.setIdempotencyKey
}.

(** ** Postgres *)
Module PgTel.

(** One [kv] per kind of record; [newID] is what [pgkv.NewID] returns next. *)
Record t := mk {
  call_sessions : kv CallSession;
  call_sessions_by_provider_call : kv CallSession;
  provider_events : kv CallProviderEvent;
  recordings : kv CallRecording;
  recordings_by_provider_call : kv CallRecording;
  health_checks : kv ProviderHealthCheck;
  provider_failures : kv ProviderFailure;
  routing_rules : kv ProviderRoutingRule;
  webhook_events : kv WebhookEvent;
  idempotency_keys : kv IdempotencyKey;
  newID : string
}.

(** The session, then the index by provider call id when there is one. *)
Definition storeCallSession (p : t) (now : Z) (s : CallSession) : t * error :=
  let s := mkCS (cs_ID s) (cs_TenantID s) (cs_ProviderCallID s) (cs_ProviderName s)
    (cs_FromNumber s) (cs_ToNumber s) (cs_Status s) (cs_StartedAt s) (cs_EndedAt s)
    (or_now (cs_CreatedAt s) now) in
  let '(c1, e1) := kv_set (call_sessions p) (cs_ID s) s in
  let p1 := mk c1 (call_sessions_by_provider_call p) (provider_events p) (recordings p)
    (recordings_by_provider_call p) (health_checks p) (provider_failures p)
    (routing_rules p) (webhook_events p) (idempotency_keys p) (newID p) in
  match e1 with
  | Some _ => (p1, e1)
  | None =>
      if is_empty (cs_ProviderCallID s) then (p1, None) else
      let '(c2, e2) := kv_set (call_sessions_by_provider_call p) (cs_ProviderCallID s) s in
      (mk c1 c2 (provider_events p) (recordings p) (recordings_by_provider_call p)
         (health_checks p) (provider_failures p) (routing_rules p) (webhook_events p)
         (idempotency_keys p) (newID p), e2)
  end.

Definition getCallSession (p : t) (id : string) : result CallSession :=
  let? s := kv_get (call_sessions p) id in
  match s with Some s => Ok s | None => Err "store: call session not found" end.

Definition getCallSessionByProviderCallID (p : t) (providerCallID : string)
    : result CallSession :=
  let? s := kv_get (call_sessions_by_provider_call p) providerCallID in
  match s with
  | Some s => Ok s
  | None => Err "store: call session for provider_call_id not found"
  end.

Definition storeProviderEvent (p : t) (now : Z) (e : CallProviderEvent) : t * error :=
  let e := mkPE (or_new (pe_ID e) (newID p)) (pe_SessionID e) (pe_ProviderCallID e)
    (pe_ProviderName e) (pe_EventType e) (pe_RawPayload e) (or_now (pe_ReceivedAt e) now) in
  let '(c, err) := kv_set (provider_events p) (pe_ID e) e in
  (mk (call_sessions p) (call_sessions_by_provider_call p) c (recordings p)
     (recordings_by_provider_call p) (health_checks p) (provider_failures p)
     (routing_rules p) (webhook_events p) (idempotency_keys p) (newID p), err).

(** The recording, then the index by provider call id. *)
Definition storeRecording (p : t) (now : Z) (r : CallRecording) : t * error :=
  let r := mkRec (or_new (rec_ID r) (newID p)) (rec_SessionID r) (rec_ProviderCallID r)
    (rec_StorageKey r) (rec_Encrypted r) (rec_SizeBytes r) (or_now (rec_CreatedAt r) now) in
  let '(c1, e1) := kv_set (recordings p) (rec_ID r) r in
  let set c2 := mk (call_sessions p) (call_sessions_by_provider_call p) (provider_events p)
    c1 c2 (health_checks p) (provider_failures p) (routing_rules p) (webhook_events p)
    (idempotency_keys p) (newID p) in
  match e1 with
  | Some _ => (set (recordings_by_provider_call p), e1)
  | None =>
      let '(c2, e2) := kv_set (recordings_by_provider_call p) (rec_ProviderCallID r) r in
      (set c2, e2)
  end.

Definition getRecording (p : t) (providerCallID : string) : result CallRecording :=
  let? r := kv_get (recordings_by_provider_call p) providerCallID in
  match r with Some r => Ok r | None => Err "store: recording not found" end.

Definition storeHealthCheck (p : t) (now : Z) (h : ProviderHealthCheck) : t * error :=
  let h := mkHC (or_new (hc_ID h) (newID p)) (hc_ProviderID h) (hc_Healthy h)
    (or_now (hc_CheckedAt h) now) (hc_LatencyMs h) in
  let '(c, err) := kv_set (health_checks p) (hc_ID h) h in
  (mk (call_sessions p) (call_sessions_by_provider_call p) (provider_events p)
     (recordings p) (recordings_by_provider_call p) c (provider_failures p)
     (routing_rules p) (webhook_events p) (idempotency_keys p) (newID p), err).

Definition storeProviderFailure (p : t) (now : Z) (f : ProviderFailure) : t * error :=
  let f := mkPF (or_new (pf_ID f) (newID p)) (pf_ProviderID f) (pf_Reason f)
    (or_now (pf_OccurredAt f) now) in
  let '(c, err) := kv_set (provider_failures p) (pf_ID f) f in
  (mk (call_sessions p) (call_sessions_by_provider_call p) (provider_events p)
     (recordings p) (recordings_by_provider_call p) (health_checks p) c
     (routing_rules p) (webhook_events p) (idempotency_keys p) (newID p), err).

Definition getProviderFailureRate (p : t) (now : Z) (providerID : string) (window : Z)
    : result float64 :=
  let cutoff := now - window in
  let? checks := kv_list (health_checks p) in
  let? failures := kv_list (provider_failures p) in
  Ok (failure_rate providerID cutoff checks failures).

Definition listRoutingRules (p : t) : result (list ProviderRoutingRule) :=
  kv_list (routing_rules p).

Definition upsertRoutingRule (p : t) (rule : ProviderRoutingRule) : t * error :=
  let id := if is_empty (rr_ID rule) then ("rule-" ++ rr_ProviderID rule)%string
            else rr_ID rule in
  let rule := mkRule id (rr_ProviderID rule) (rr_Region rule) (rr_Priority rule)
    (rr_MaxFailRate rule) in
  let '(c, err) := kv_set (routing_rules p) id rule in
  (mk (call_sessions p) (call_sessions_by_provider_call p) (provider_events p)
     (recordings p) (recordings_by_provider_call p) (health_checks p)
     (provider_failures p) c (webhook_events p) (idempotency_keys p) (newID p), err).

Definition storeWebhookEvent (p : t) (now : Z) (e : WebhookEvent) : t * error :=
  let e := mkWE (or_new (we_ID e) (newID p)) (we_ProviderName e) (we_EventType e)
    (we_RawPayload e) (or_now (we_ReceivedAt e) now) (we_Published e) in
  let '(c, err) := kv_set (webhook_events p) (we_ID e) e in
  (mk (call_sessions p) (call_sessions_by_provider_call p) (provider_events p)
     (recordings p) (recordings_by_provider_call p) (health_checks p)
     (provider_failures p) (routing_rules p) c (idempotency_keys p) (newID p), err).

Definition checkIdempotencyKey (p : t) (key : string) : result (option string) :=
  let? item := kv_get (idempotency_keys p) key in Ok (ik_Result <$> item).

Definition setIdempotencyKey (p : t) (now : Z) (key res : string) : t * error :=
  match kv_insert (idempotency_keys p) key (mkIK key res now) with
  | Err e => (p, Some e)
  | Ok (c, _) =>
      (mk (call_sessions p) (call_sessions_by_provider_call p) (provider_events p)
         (recordings p) (recordings_by_provider_call p) (health_checks p)
         (provider_failures p) (routing_rules p) (webhook_events p) c (newID p), None)
  end.

(** The rules of [seedDefaults]. *)
Fixpoint seed_rules (s : kv ProviderRoutingRule) (rs : list ProviderRoutingRule)
    : result (kv ProviderRoutingRule) :=
  match rs with
  | [] => Ok s
  | r :: rs' => let? x := kv_insert s (rr_ID r) r in seed_rules x.1 rs'
  end.

End PgTel.

#[export] Instance pg_tel_store : TelStore PgTel.t := {
  StoreCallSession := PgTel.storeCallSession;
  GetCallSession := PgTel.getCallSession;
  GetCallSessionByProviderCallID := PgTel.getCallSessionByProviderCallID;
  StoreProviderEvent := PgTel.storeProviderEvent;
  StoreRecording := PgTel.storeRecording;
  GetRecording := PgTel.getRecording;
  StoreHealthCheck := PgTel.storeHealthCheck;
  StoreProviderFailure := PgTel.storeProviderFailure;
  GetProviderFailureRate := PgTel.getProviderFailureRate;
  ListRoutingRules := PgTel.listRoutingRules;
  UpsertRoutingRule := PgTel.upsertRoutingRule;
  StoreWebhookEvent := PgTel.storeWebhookEvent;
  CheckIdempotencyKey := PgTel.checkIdempotencyKey;
  SetIdempotencyKey := PgTel.setIdempotencyKey
}.

(** ** What the router and the webhooks rely on *)

(** [ts_ok]: the database answers.  [ts_session] is the session the store
    resolves a provider call id to, [ts_claimed] whether an idempotency key is
    set.  Storing a session that belongs to a new call resolves that call's
    provider id and no other; keys are set once and for all; nothing else moves
    either. *)
Class TelStoreLaws (T : Type) `{TelStore T} := {
  ts_ok : T -> Prop;
  ts_session : T -> string -> option CallSession;
  ts_claimed : T -> string -> bool;
  ts_fresh : T -> CallSession -> Prop;
  ts_get s pid :
    ts_ok s ->
    match GetCallSessionByProviderCallID s pid with
    | Ok c => ts_session s pid = Some c
    | Err _ => ts_session s pid = None
    end;
  ts_check s k :
    ts_ok s -> exists r, CheckIdempotencyKey s k = Ok r /\ (is_Some r <-> ts_claimed s k = true);
  ts_set s now k r :
    ts_ok s -> (SetIdempotencyKey s now k r).2 = None /\ ts_ok (SetIdempotencyKey s now k r).1 /\
    (forall pid, ts_session (SetIdempotencyKey s now k r).1 pid = ts_session s pid) /\
    (forall k', ts_claimed (SetIdempotencyKey s now k r).1 k'
      = bool_decide (k = k') || ts_claimed s k') /\
    (forall c, ts_fresh (SetIdempotencyKey s now k r).1 c <-> ts_fresh s c);
  ts_store s now c :
    ts_ok s -> ts_fresh s c -> cs_CreatedAt c <> time_zero -> cs_ProviderCallID c <> "" ->
    (StoreCallSession s now c).2 = None /\ ts_ok (StoreCallSession s now c).1 /\
    (forall pid, ts_session (StoreCallSession s now c).1 pid
      = if decide (cs_ProviderCallID c = pid) then Some c else ts_session s pid) /\
    (forall k, ts_claimed (StoreCallSession s now c).1 k = ts_claimed s k);
  ts_webhook s now e :
    ts_ok s -> ts_ok (StoreWebhookEvent s now e).1 /\
    (forall pid, ts_session (StoreWebhookEvent s now e).1 pid = ts_session s pid) /\
    (forall k, ts_claimed (StoreWebhookEvent s now e).1 k = ts_claimed s k);
  ts_event s now e :
    ts_ok s -> ts_ok (StoreProviderEvent s now e).1 /\
    (forall pid, ts_session (StoreProviderEvent s now e).1 pid = ts_session s pid) /\
    (forall k, ts_claimed (StoreProviderEvent s now e).1 k = ts_claimed s k);
  ts_recording s now e :
    ts_ok s -> ts_ok (StoreRecording s now e).1 /\
    (forall pid, ts_session (StoreRecording s now e).1 pid = ts_session s pid) /\
    (forall k, ts_claimed (StoreRecording s now e).1 k = ts_claimed s k)
}.

(** At most one stored session per provider call id. *)
Definition unique_calls (f : FakeTel.t) : Prop :=
  forall i j c d, FakeTel.callSessions f !! i = Some c -> FakeTel.callSessions f !! j = Some d ->
    cs_ProviderCallID c = cs_ProviderCallID d -> i = j.

Definition fake_session (f : FakeTel.t) (pid : string) : option CallSession :=
  List.find (fun s => bool_decide (cs_ProviderCallID s = pid))
    (map_to_list (FakeTel.callSessions f)).*2.

Lemma fake_session_Some f pid c :
  unique_calls f ->
  fake_session f pid = Some c <->
  cs_ProviderCallID c = pid /\ exists i, FakeTel.callSessions f !! i = Some c.
Proof.
  intros Hu. unfold fake_session.
  assert (Hin : forall c, List.In c (map_to_list (FakeTel.callSessions f)).*2 <->
    exists i, FakeTel.callSessions f !! i = Some c).
  { intros d. rewrite <- list_elem_of_In, list_elem_of_fmap. split.
    - intros ([i d'] & -> & Hi). exists i. by apply elem_of_map_to_list.
    - intros [i Hi]. exists (i, d). split; [done|]. by apply elem_of_map_to_list. }
  split.
  - intros [Hc Hp]%find_some. apply bool_decide_eq_true in Hp. by rewrite <- Hin.
  - intros [Hp [i Hi]]. destruct (List.find _ _) as [d|] eqn:E.
    + apply find_some in E as [Hd Hq]. apply bool_decide_eq_true in Hq.
      apply Hin in Hd as [j Hj]. assert (i = j) by (eapply Hu; eauto; congruence).
      congruence.
    + exfalso. eapply find_none in E; [|apply Hin; by exists i].
      simpl in E. apply bool_decide_eq_false in E. done.
Qed.

#[export] Program Instance fake_tel_laws : TelStoreLaws FakeTel.t := {
  ts_ok := unique_calls;
  ts_session := fake_session;
  ts_claimed f k := bool_decide (is_Some (FakeTel.idempotencyKeys f !! k));
  ts_fresh f c := FakeTel.callSessions f !! cs_ID c = None /\
    forall i d, FakeTel.callSessions f !! i = Some d -> cs_ProviderCallID d <> cs_ProviderCallID c
}.
Next Obligation.
  intros f pid _. simpl. unfold FakeTel.getCallSessionByProviderCallID, fake_session.
  by destruct (List.find _ _).
Qed.
Next Obligation.
  intros f k _. eexists. split; [done|]. rewrite fmap_is_Some. by rewrite bool_decide_eq_true.
Qed.
Next Obligation.
  intros f now k r Hu. simpl. unfold FakeTel.setIdempotencyKey.
  destruct (FakeTel.idempotencyKeys f !! k) eqn:E.
  - split_and!; [done..| |done]. intros k'. destruct (decide (k = k')) as [<-|Hk].
    + rewrite (bool_decide_true (k = k)), E by done. by rewrite bool_decide_true.
    + by rewrite (bool_decide_false (k = k')).
  - split_and!; [done..| |done]. intros k'. simpl. destruct (decide (k = k')) as [<-|Hk].
    + rewrite lookup_insert_eq, (bool_decide_true (k = k)) by done. by apply bool_decide_true.
    + by rewrite lookup_insert_ne, (bool_decide_false (k = k')).
Qed.
Next Obligation.
  intros f now c Hu [Hi Hp] _ _. simpl.
  assert (Hu' : unique_calls (FakeTel.storeCallSession f c).1).
  { intros i j a b. simpl. rewrite !lookup_insert_Some.
    intros [[<- <-]|[Hne Ha]] [[<- <-]|[Hnb Hb]] He; try done.
    - by destruct (Hp _ _ Hb).
    - by destruct (Hp _ _ Ha).
    - by eapply Hu. }
  split_and!; [done|done| |done]. intros pid. case_decide as Hd; subst.
  - apply (fake_session_Some _ _ _ Hu'). split; [done|]. exists (cs_ID c). simpl.
    by rewrite lookup_insert_eq.
  - apply option_eq. intros d.
    rewrite (fake_session_Some _ _ _ Hu'), (fake_session_Some _ _ _ Hu). simpl.
    split; intros [Hq [i Hd']]; (split; [done|]); exists i.
    + rewrite lookup_insert_Some in Hd'. destruct Hd' as [[_ <-]|[_ ?]]; done.
    + rewrite lookup_insert_ne; [done|]. intros <-. congruence.
Qed.
Next Obligation. done. Qed.
Next Obligation. done. Qed.
Next Obligation. done. Qed.

#[export] Program Instance pg_tel_laws : TelStoreLaws PgTel.t := {
  ts_ok p := kv_up (PgTel.call_sessions p) = true /\
    kv_up (PgTel.call_sessions_by_provider_call p) = true /\
    kv_up (PgTel.idempotency_keys p) = true;
  ts_session p pid := rows_get pid (kv_rows (PgTel.call_sessions_by_provider_call p));
  ts_claimed p k := bool_decide (is_Some (rows_get k (kv_rows (PgTel.idempotency_keys p))));
  ts_fresh _ _ := True
}.
Next Obligation.
  intros p pid (_ & H2 & _). simpl. unfold PgTel.getCallSessionByProviderCallID, kv_get.
  rewrite H2. simpl. by destruct (rows_get pid _).
Qed.
Next Obligation.
  intros p k (_ & _ & H3). simpl. unfold PgTel.checkIdempotencyKey, kv_get. rewrite H3. simpl.
  eexists. split; [done|]. rewrite fmap_is_Some. by rewrite bool_decide_eq_true.
Qed.
Next Obligation.
  intros p now k r (H1 & H2 & H3). simpl. unfold PgTel.setIdempotencyKey, kv_insert. rewrite H3.
  destruct (rows_get k _) eqn:E; simpl.
  - split_and!; [done..| |done]. intros k'. destruct (decide (k = k')) as [<-|Hk].
    + rewrite (bool_decide_true (k = k)), E by done. by rewrite bool_decide_true.
    + by rewrite (bool_decide_false (k = k')).
  - split_and!; [done..| |done]. intros k'. rewrite rows_get_put.
    destruct (decide (k = k')) as [<-|Hk].
    + rewrite decide_True, (bool_decide_true (k = k)) by done. by apply bool_decide_true.
    + by rewrite decide_False, (bool_decide_false (k = k')).
Qed.
Next Obligation.
  intros p now c (H1 & H2 & H3) _ Hc Hp. simpl.
  unfold PgTel.storeCallSession, kv_set, kv_put, or_now, is_zero, is_empty.
  rewrite H1, H2. cbn [cs_ID cs_ProviderCallID]. rewrite (bool_decide_false _ Hp).
  rewrite (proj2 (Z.eqb_neq _ _) Hc). simpl. split_and!; [done..| |done].
  intros pid. rewrite rows_get_put. by destruct c; repeat case_decide.
Qed.
Next Obligation.
  intros p now e Hp. simpl. unfold PgTel.storeWebhookEvent. by destruct (kv_set _ _ _).
Qed.
Next Obligation.
  intros p now e Hp. simpl. unfold PgTel.storeProviderEvent. by destruct (kv_set _ _ _).
Qed.
Next Obligation.
  intros p now e Hp. simpl. unfold PgTel.storeRecording.
  destruct (kv_set _ _ _) as [c1 [e1|]]; [done|]. by destruct (kv_set _ _ _).
Qed.
