(* ===== verification/Routing.v ===== *)
(** * telephony-adapter/internal/routing and internal/health

    The router selects a provider for a call, places it, and accounts for the
    tenant's concurrency slots.  The providers behind the adapters are outside
    the repository: [Env] says when each one is healthy and what it answers to
    a call, which may depend on all calls made so far. *)

From S2P Require Import Prelude GoTime Float64 Kv Limiter TelStore.
From stdpp Require Import pretty.

Open Scope Z_scope.

(** ** Providers and the router's state *)

Record Env := mkEnv {
  (** [a.Healthy(ctx)], by adapter name, at an instant. *)
  env_healthy : string -> Z -> bool;
  (** The provider's answer to a call: its call id or an error. *)
  env_reply : list (string * CallRequest) -> string -> CallRequest -> result string;
  (** [DEMO_MODE]. *)
  env_demo_mode : string
}.

Section Router.
Context {T L : Type} `{TelStore T} `{Limiter L}.

(** [Router] with the calls placed so far (provider, request). *)
Record Router := mkRouter {
  rt_store : T;
  rt_adapters : gset string;
  rt_window : Z;
  rt_limiter : L;
  rt_placed : list (string * CallRequest)
}.

Definition with_store (r : Router) (s : T) : Router :=
  mkRouter s (rt_adapters r) (rt_window r) (rt_limiter r) (rt_placed r).
Definition with_limiter (r : Router) (l : L) : Router :=
  mkRouter (rt_store r) (rt_adapters r) (rt_window r) l (rt_placed r).
Definition with_placed (r : Router) (c : string * CallRequest) : Router :=
  mkRouter (rt_store r) (rt_adapters r) (rt_window r) (rt_limiter r) (rt_placed r ++ [c]).

Definition DemoMode (env : Env) (tenantID : string) : bool :=
  if decide (env_demo_mode env = "1") then true else
  let normalized := to_lower (trim_space tenantID) in
  bool_decide (normalized = "tenant-demo") || bool_decide (normalized = "demo")
  || has_prefix normalized "demo-" || has_suffix normalized "-demo".

Definition rule_less (a b : ProviderRoutingRule) : bool := rr_Priority a <? rr_Priority b.

(** Whether [Select]'s loop returns at this rule. *)
Definition usable (env : Env) (r : Router) (now : Z) (region : string)
    (rule : ProviderRoutingRule) : bool :=
  negb (negb (is_empty (rr_Region rule)) && negb (bool_decide (rr_Region rule = region)))
  && bool_decide (rr_ProviderID rule ∈ rt_adapters r)
  && env_healthy env (rr_ProviderID rule) now
  && match GetProviderFailureRate (rt_store r) now (rr_ProviderID rule) (rt_window r) with
     | Ok failRate => negb (f_lt (rr_MaxFailRate rule) failRate)
     | Err _ => false
     end.

(** The adapter of the first usable rule by priority. *)
Definition Select (env : Env) (r : Router) (now : Z) (region : string) : result string :=
  let? rules := ListRoutingRules (rt_store r) in
  match List.find (usable env r now region) (sort_by rule_less rules) with
  | Some rule => Ok (rr_ProviderID rule)
  | None => Err "routing: no healthy provider available for region"
  end.

Definition SelectForCall (env : Env) (r : Router) (now : Z) (req : CallRequest)
    : result string :=
  if rq_Demo req || DemoMode env (rq_TenantID req) then
    if decide ("mock" ∉ rt_adapters r) then Err "routing: demo tenant requires mock provider"
    else if negb (env_healthy env "mock" now) then Err "routing: demo mock provider unhealthy"
    else Ok "mock"
  else Select env r now (rq_Region req).

(** Only Vobiz calls of a known tenant take a slot. *)
Definition takes_slot (name : string) (tenantID : string) : bool :=
  bool_decide (name = "vobiz") && negb (is_empty tenantID).

(** The request with the defaults [PlaceCall] fills in. *)
Definition with_defaults (now : Z) (req : CallRequest) : CallRequest :=
  mkReq (if is_empty (rq_SessionID req) then ("call-" ++ pretty now)%string else rq_SessionID req)
    (rq_TenantID req) (rq_FromNumber req) (rq_ToNumber req) (rq_CallbackURL req)
    (rq_Region req) (if rq_MaxDuration req <=? 0 then 300 else rq_MaxDuration req)
    (rq_Demo req).

Definition new_session (now : Z) (req : CallRequest) (name pid : string) : CallSession :=
  mkCS (rq_SessionID req) (rq_TenantID req) pid name (rq_FromNumber req) (rq_ToNumber req)
    "queued" now None now.

(** [Router.PlaceCall]. *)
Definition PlaceCall (env : Env) (r : Router) (now : Z) (req : CallRequest)
    : Router * result CallSession :=
  let req := with_defaults now req in
  match SelectForCall env r now req with
  | Err e => (r, Err e)
  | Ok name =>
      let slot := takes_slot name (rq_TenantID req) in
      let '(l1, granted) := if slot then Incr (rt_limiter r) now (rq_TenantID req)
                            else (rt_limiter r, true) in
      let r1 := with_limiter r l1 in
      if negb granted then (r1, Err "routing: concurrency: per-tenant call limit reached") else
      let r2 := with_placed r1 (name, req) in
      match env_reply env (rt_placed r1) name req with
      | Err e =>
          ((if slot then with_limiter r2 (Decr (rt_limiter r2) now (rq_TenantID req)) else r2),
           Err e)
      | Ok pid =>
          let session := new_session now req name pid in
          let '(s', err) := StoreCallSession (rt_store r2) now session in
          let r3 := with_store r2 s' in
          match err with
          | Some e => (r3, Err ("routing: store call session: " ++ e)%string)
          | None => (r3, Ok session)
          end
      end
  end.

Definition decr_key (providerCallID : string) : string :=
  ("vobiz:concurrency:decr:" ++ providerCallID)%string.

(** [Router.DecrConcurrencyForCall]. *)
Definition DecrConcurrencyForCall (r : Router) (now : Z) (providerCallID tenantHint : string)
    : Router * error :=
  if is_empty providerCallID then
    (if is_empty tenantHint then r
     else with_limiter r (Decr (rt_limiter r) now tenantHint), None)
  else
    match CheckIdempotencyKey (rt_store r) (decr_key providerCallID) with
    | Err e => (r, Some ("routing: decr idempotency check: " ++ e)%string)
    | Ok (Some _) => (r, None)
    | Ok None =>
        let tenantID :=
          if is_empty tenantHint then
            match GetCallSessionByProviderCallID (rt_store r) providerCallID with
            | Ok sess => cs_TenantID sess
            | Err _ => tenantHint
            end
          else tenantHint in
        if is_empty tenantID then (r, None) else
        let '(s', err) := SetIdempotencyKey (rt_store r) now (decr_key providerCallID)
                            "decremented" in
        let r1 := with_store r s' in
        match err with
        | Some e => (r1, Some ("routing: decr idempotency set: " ++ e)%string)
        | None => (with_limiter r1 (Decr (rt_limiter r1) now tenantID), None)
        end
    end.

(** [Monitor.checkAll] for the adapters in the given order. *)
Fixpoint checkAll (env : Env) (s : T) (now : Z) (names : list string) : T :=
  match names with
  | [] => s
  | name :: names' =>
      let hc := mkHC ("hc-" ++ name ++ "-" ++ pretty now)%string name
        (env_healthy env name now) now 0 in
      checkAll env (StoreHealthCheck s now hc).1 now names'
  end.

End Router.
Arguments Router : clear implicits.
#[global] Arguments decr_key : simpl never.
