(* ===== verification/RoutingSafety.v ===== *)
(** * The router: demo isolation, provider choice, slot accounting

    The last part is proved against the interfaces [TelStoreLaws] and
    [LimiterLaws], hence for every pair of a store and a limiter that keeps
    them. *)

From S2P Require Import Prelude GoTime Float64 Kv Limiter TelStore Routing.

Open Scope Z_scope.

Section Choice.
Context {T L : Type} `{TelStore T} `{Limiter L}.
Implicit Types (r : Router T L).

#[export] Instance rule_less_strict : StrictWeak rule_less.
Proof. split; intros *; unfold rule_less; intros; go_bool; apply Z.ltb_ge; lia. Qed.

(** The first element that satisfies [p] in a sorted list comes before every
    other element that does. *)
Lemma find_sorted_first (p : ProviderRoutingRule -> bool) rs x y :
  List.find p (sort_by rule_less rs) = Some x -> y ∈ rs -> p y = true ->
  rr_Priority x <= rr_Priority y.
Proof.
  intros Hf Hy Hp. pose proof (sort_by_sorted rule_less rs) as Hs.
  apply (elem_of_sort_by rule_less) in Hy. revert Hf Hy. 
  induction Hs as [|a l Hs IH Ha]; simpl; [done|]. intros Hf [->|Hy]%elem_of_cons.
  - rewrite Hp in Hf. by injection Hf as ->.
  - destruct (p a); [|by apply IH]. injection Hf as ->. rewrite Forall_forall in Ha.
    specialize (Ha y Hy). unfold not_after, rule_less in Ha. go_bool. lia.
Qed.

Lemma with_defaults_demo now req :
  rq_Demo (with_defaults now req) = rq_Demo req /\
  rq_TenantID (with_defaults now req) = rq_TenantID req.
Proof. done. Qed.

(** What [PlaceCall] does to the calls placed and to the limiter. *)
Lemma PlaceCall_effects env r now req :
  let '(r', res) := PlaceCall env r now req in
  match SelectForCall env r now (with_defaults now req) with
  | Err _ => r' = r /\ is_ok res = false
  | Ok name =>
      (rt_placed r' = rt_placed r \/ rt_placed r' = rt_placed r ++ [(name, with_defaults now req)])
      /\ (takes_slot name (rq_TenantID req) = false -> rt_limiter r' = rt_limiter r)
  end.
Proof.
  unfold PlaceCall. destruct (SelectForCall _ _ _ _) as [name|e]; [|done].
  change (rq_TenantID (with_defaults now req)) with (rq_TenantID req).
  destruct (takes_slot name (rq_TenantID req)) eqn:Es.
  - destruct (Incr (rt_limiter r) now (rq_TenantID req)) as [l1 []]; cbn [negb];
      [|split; [auto|done]].
    destruct (env_reply _ _ _ _) as [pid|e]; [|split; [auto|done]].
    destruct (StoreCallSession _ _ _) as [s' [e|]]; (split; [auto|done]).
  - cbn [negb]. destruct (env_reply _ _ _ _) as [pid|e]; [|split; [auto|done]].
    destruct (StoreCallSession _ _ _) as [s' [e|]]; (split; [auto|done]).
Qed.

(** Demo isolation: a call marked as demo, or of a demo tenant, reaches no
    provider but the mock one and never touches the concurrency limiter,
    whatever the routing rules say. *)
Theorem demo_calls_reach_only_mock env r now req :
  rq_Demo req || DemoMode env (rq_TenantID req) = true ->
  let r' := (PlaceCall env r now req).1 in
  (rt_placed r' = rt_placed r \/ rt_placed r' = rt_placed r ++ [("mock", with_defaults now req)])
  /\ rt_limiter r' = rt_limiter r.
Proof.
  intros Hd. pose proof (PlaceCall_effects env r now req) as Hp.
  destruct (PlaceCall env r now req) as [r' res]. simpl.
  unfold SelectForCall in Hp. simpl in Hp. rewrite Hd in Hp.
  case_decide; [destruct Hp as [-> _]; auto|].
  destruct (negb _); [destruct Hp as [-> _]; auto|]. destruct Hp as [Hp Hl]. split; [done|].
  by apply Hl.
Qed.

(** Provider choice. [Select] returns the provider of a usable rule (the
    region matches, an adapter is registered and healthy, and its rolling
    failure rate is within the rule's limit) of the best priority among all
    usable rules; it fails exactly when the rules cannot be listed or none is
    usable. *)
Theorem select_returns_best_usable_rule env r now region :
  match ListRoutingRules (rt_store r), Select env r now region with
  | Err _, Err _ => True
  | Err _, Ok _ => False
  | Ok rules, Ok name =>
      exists rule, rule ∈ rules /\ rr_ProviderID rule = name /\
        usable env r now region rule = true /\
        forall other, other ∈ rules -> usable env r now region other = true ->
          rr_Priority rule <= rr_Priority other
  | Ok rules, Err _ => forall rule, rule ∈ rules -> usable env r now region rule = false
  end.
Proof.
  unfold Select. destruct (ListRoutingRules (rt_store r)) as [rules|e]; [|done]. simpl.
  destruct (List.find _ _) as [rule|] eqn:Ef.
  - pose proof Ef as Ef'. apply find_some in Ef' as [Hin Hu].
    apply list_elem_of_In in Hin. rewrite elem_of_sort_by in Hin. exists rule.
    split_and!; [done..|]. intros other Ho Hu'. by eapply find_sorted_first.
  - intros rule Hin. eapply find_none; [exact Ef|].
    by apply list_elem_of_In, (elem_of_sort_by rule_less).
Qed.
End Choice.

(** ** Slot accounting *)

Section Slots.
Context {T L : Type} `{TelStoreLaws T} `{LimiterLaws L}.
Implicit Types (r : Router T L) (calls : list (string * string)).

(** The provider call ids are new: the session [PlaceCall] is about to store
    replaces none. *)
Definition fresh_reply (env : Env) r (now : Z) (req : CallRequest) : Prop :=
  forall name pid,
    SelectForCall env r now (with_defaults now req) = Ok name ->
    env_reply env (rt_placed r) name (with_defaults now req) = Ok pid ->
    pid <> "" /\ ts_session (rt_store r) pid = None /\
    ts_fresh (rt_store r) (new_session now (with_defaults now req) name pid).

(** A terminal webhook names a Vobiz call, and its tenant hint, if any, is the
    tenant of that call. *)
Definition honest_hint r (pid hint : string) : Prop :=
  pid <> "" /\
  match ts_session (rt_store r) pid with
  | Some c => cs_ProviderName c = "vobiz" /\ (hint = "" \/ hint = cs_TenantID c)
  | None => hint = ""
  end.

(** The Vobiz calls accepted so far, newest first, as (provider id, tenant). *)
Definition note_call (res : result CallSession) calls : list (string * string) :=
  match res with
  | Ok c => if takes_slot (cs_ProviderName c) (cs_TenantID c)
            then (cs_ProviderCallID c, cs_TenantID c) :: calls else calls
  | Err _ => calls
  end.

(** Calls of the tenant for which no terminal signal has been processed. *)
Definition is_live r (t : string) (c : string * string) : bool :=
  bool_decide (c.2 = t) && negb (ts_claimed (rt_store r) (decr_key c.1)).

Definition live_calls r calls (t : string) : Z :=
  Z.of_nat (length (List.filter (is_live r t) calls)).

Record slot_inv (rc : Router T L * list (string * string)) : Prop := {
  si_store : ts_ok (rt_store rc.1);
  si_lim : lim_ok (rt_limiter rc.1);
  si_nodup : NoDup rc.2.*1;
  si_calls p t : (p, t) ∈ rc.2 <->
    exists c, ts_session (rt_store rc.1) p = Some c /\ cs_TenantID c = t /\
      takes_slot (cs_ProviderName c) (cs_TenantID c) = true;
  si_claimed p : ts_claimed (rt_store rc.1) (decr_key p) = true ->
    is_Some (ts_session (rt_store rc.1) p);
  si_count t : lim_count (rt_limiter rc.1) t = live_calls rc.1 rc.2 t;
  si_max t : lim_count (rt_limiter rc.1) t <= Z.max 0 (lim_max (rt_limiter rc.1))
}.

Lemma decr_key_inj p q : decr_key p = decr_key q -> p = q.
Proof. unfold decr_key. apply (inj (String.append _)). Qed.

(** Ending a live call removes exactly one live call of its tenant. *)
Lemma live_calls_end r r' calls p t t' :
  NoDup calls.*1 -> (p, t) ∈ calls ->
  ts_claimed (rt_store r) (decr_key p) = false ->
  (forall k, ts_claimed (rt_store r') k
     = bool_decide (decr_key p = k) || ts_claimed (rt_store r) k) ->
  live_calls r' calls t' = live_calls r calls t' - (if decide (t = t') then 1 else 0).
Proof.
  intros Hnd Hin Hc Hk. unfold live_calls.
  assert (Hother : forall l, p ∉ l.*1 ->
    List.filter (is_live r' t') l = List.filter (is_live r t') l).
  { intros l Hp. apply filter_ext_in. intros [q u] Hq. unfold is_live. rewrite Hk. cbn [fst snd].
    rewrite (bool_decide_false (decr_key p = decr_key q)); [done|]. intros ->%decr_key_inj. apply Hp.
    apply list_elem_of_In in Hq. by apply (list_elem_of_fmap_2 fst) in Hq. }
  induction calls as [|[q u] calls IH]; [by apply elem_of_nil in Hin|].
  csimpl in Hnd. apply NoDup_cons in Hnd as [Hq Hnd].
  apply elem_of_cons in Hin as [Heq|Hin].
  - injection Heq as <- <-. simpl. rewrite Hother by done.
    assert (is_live r' t' (p, t) = false) as ->.
    { unfold is_live. cbn [fst snd]. rewrite Hk, (bool_decide_true (decr_key p = _)) by done.
      apply andb_false_r. }
    assert (is_live r t' (p, t) = bool_decide (t = t')) as ->.
    { unfold is_live. cbn [fst snd]. rewrite Hc. apply andb_true_r. }
    case_bool_decide; case_decide; try done; simpl; lia.
  - assert (p <> q). { intros ->. apply Hq. by apply (list_elem_of_fmap_2 fst) in Hin. }
    simpl. assert (is_live r' t' (q, u) = is_live r t' (q, u)) as ->.
    { unfold is_live. cbn [fst snd]. rewrite Hk, (bool_decide_false (decr_key p = decr_key q)); [done|].
      by intros ?%decr_key_inj. }
    specialize (IH Hnd Hin). destruct (is_live r t' (q, u)); simpl; lia.
Qed.

Lemma live_calls_same r r' calls t :
  (forall k, ts_claimed (rt_store r') k = ts_claimed (rt_store r) k) ->
  live_calls r' calls t = live_calls r calls t.
Proof.
  intros Hk. unfold live_calls. f_equal. f_equal. apply filter_ext. intros [q u].
  unfold is_live. by rewrite Hk.
Qed.

Lemma slot_inv_end r calls now pid hint :
  slot_inv (r, calls) -> honest_hint r pid hint ->
  slot_inv ((DecrConcurrencyForCall r now pid hint).1, calls).
Proof.
  intros Hinv [Hne Hh]. unfold DecrConcurrencyForCall, is_empty.
  rewrite (bool_decide_false _ Hne).
  destruct (ts_check (rt_store r) (decr_key pid) (si_store _ Hinv)) as (o & -> & Ho).
  destruct o as [res|]; [done|].
  assert (Hc : ts_claimed (rt_store r) (decr_key pid) = false).
  { destruct (ts_claimed _ _); [|done]. destruct (proj2 Ho eq_refl). done. }
  pose proof (ts_get (rt_store r) pid (si_store _ Hinv)) as Hg.
  set (t := if bool_decide (hint = "") then _ else hint).
  case_bool_decide as Ht; [done|].
  assert (exists c, ts_session (rt_store r) pid = Some c /\ cs_ProviderName c = "vobiz" /\
    cs_TenantID c = t) as (c & Hs & Hv & Hct).
  { subst t. destruct (ts_session (rt_store r) pid) as [c|].
    - exists c. destruct Hh as [Hv Hh]. split_and!; [done..|].
      destruct (GetCallSessionByProviderCallID _ _); [|done]. injection Hg as ->.
      case_bool_decide; [done|]. destruct Hh; congruence.
    - subst hint. rewrite bool_decide_true in Ht by done.
      destruct (GetCallSessionByProviderCallID _ _); done. }
  destruct (ts_set (rt_store r) now (decr_key pid) "decremented" (si_store _ Hinv))
    as (He & Hok & Hsess & Hcl & _).
  destruct (SetIdempotencyKey _ _ _ _) as [s' err]. simpl in He, Hok, Hsess, Hcl. subst err.
  assert (Hin : (pid, t) ∈ calls).
  { apply (si_calls _ Hinv). exists c. split_and!; [done..|]. unfold takes_slot, is_empty.
    rewrite Hv, Hct. by rewrite (bool_decide_false _ Ht). }
  set (r1 := with_limiter _ _).
  assert (Hlive : forall t', live_calls r1 calls t'
    = live_calls r calls t' - (if decide (t = t') then 1 else 0)).
  { intros t'. eapply live_calls_end; [exact (si_nodup _ Hinv)|done..]. }
  pose proof (si_lim _ Hinv) as Hl. simpl in Hl.
  split; simpl; [done|by apply decr_ok|exact (si_nodup _ Hinv)|..].
  - intros p u. rewrite (si_calls _ Hinv). by setoid_rewrite Hsess.
  - intros p. rewrite Hsess, Hcl. intros [Hp|Hp]%orb_true_iff.
    + apply bool_decide_eq_true, decr_key_inj in Hp as <-. rewrite Hs. eauto.
    + by apply (si_claimed _ Hinv).
  - intros t'. fold r1. rewrite Hlive, decr_count by done.
    pose proof (si_count _ Hinv t') as Hct'. simpl in Hct'.
    assert (0 <= lim_count (rt_limiter r) t') by (by apply lim_nonneg).
    case_decide; [|lia]. subst t'. pose proof (Hlive t) as Hl1.
    rewrite decide_True in Hl1 by done. unfold live_calls in *. lia.
  - intros t'. rewrite decr_count, decr_max by done.
    pose proof (si_max _ Hinv t') as Hm. simpl in Hm.
    pose proof (lim_nonneg (rt_limiter r) t' Hl). case_decide; lia.
Qed.

(** Changing the limiter and the placed calls keeps the invariant when the
    counts stay. *)
Lemma slot_inv_limiter r r' calls :
  slot_inv (r, calls) -> rt_store r' = rt_store r -> lim_ok (rt_limiter r') ->
  lim_max (rt_limiter r') = lim_max (rt_limiter r) ->
  (forall t, lim_count (rt_limiter r') t = lim_count (rt_limiter r) t) ->
  slot_inv (r', calls).
Proof.
  intros Hinv Hs Hl Hm Hc. split; simpl; rewrite ?Hs.
  - apply (si_store _ Hinv).
  - done.
  - apply (si_nodup _ Hinv).
  - apply (si_calls _ Hinv).
  - apply (si_claimed _ Hinv).
  - intros t. rewrite Hc, (si_count _ Hinv). symmetry. apply live_calls_same. simpl.
    by rewrite Hs.
  - intros t. rewrite Hc, Hm. apply (si_max _ Hinv).
Qed.

(** Recording a new session. *)
Lemma slot_inv_store r r' calls now c :
  slot_inv (r, calls) ->
  cs_ProviderCallID c <> "" -> ts_session (rt_store r) (cs_ProviderCallID c) = None ->
  ts_fresh (rt_store r) c -> cs_CreatedAt c <> time_zero ->
  rt_store r' = (StoreCallSession (rt_store r) now c).1 ->
  lim_ok (rt_limiter r') -> lim_max (rt_limiter r') = lim_max (rt_limiter r) ->
  (forall t, lim_count (rt_limiter r') t
     = lim_count (rt_limiter r) t
       + (if takes_slot (cs_ProviderName c) (cs_TenantID c) && bool_decide (cs_TenantID c = t)
          then 1 else 0)) ->
  (takes_slot (cs_ProviderName c) (cs_TenantID c) = true ->
   lim_count (rt_limiter r) (cs_TenantID c) < lim_max (rt_limiter r)) ->
  slot_inv (r', note_call (Ok c) calls).
Proof.
  intros Hinv Hne Hnone Hfr Hz Hs Hl Hm Hc Hlt.
  destruct (ts_store (rt_store r) now c (si_store _ Hinv) Hfr Hz Hne) as (_ & Hok & Hsess & Hcl).
  rewrite <- Hs in Hok, Hsess, Hcl. set (pid := cs_ProviderCallID c) in *.
  assert (Hpn : pid ∉ calls.*1).
  { intros ([p t] & Hp & Hin)%list_elem_of_fmap. simpl in Hp. subst p.
    apply (si_calls _ Hinv) in Hin as (d & Hd & _). simpl in Hd. congruence. }
  assert (Hunc : ts_claimed (rt_store r) (decr_key pid) = false).
  { destruct (ts_claimed _ _) eqn:E; [|done]. apply (si_claimed _ Hinv) in E as [? E].
    simpl in E. congruence. }
  assert (Hold : forall p t, (p, t) ∈ calls -> ts_session (rt_store r') p = ts_session (rt_store r) p).
  { intros p t Hin. rewrite Hsess, decide_False; [done|]. intros <-. apply Hpn.
    by apply (list_elem_of_fmap_2 fst) in Hin. }
  split; simpl.
  - done.
  - done.
  - destruct (takes_slot _ _); csimpl; [|exact (si_nodup _ Hinv)].
    apply NoDup_cons. split; [done|exact (si_nodup _ Hinv)].
  - intros p t.
    assert (Hiff : (p, t) ∈ calls <-> p <> pid /\ exists d, ts_session (rt_store r') p = Some d /\
      cs_TenantID d = t /\ takes_slot (cs_ProviderName d) (cs_TenantID d) = true).
    { split.
      - intros Hin. split; [intros ->; apply Hpn; by apply (list_elem_of_fmap_2 fst) in Hin|].
        rewrite (Hold _ _ Hin). by apply (si_calls _ Hinv).
      - intros [Hp Hd]. apply (si_calls _ Hinv). simpl. rewrite Hsess in Hd.
        by rewrite decide_False in Hd. }
    destruct (takes_slot (cs_ProviderName c) _) eqn:Et; [rewrite elem_of_cons|]; rewrite Hiff.
    + split.
      * intros [[= -> ->]|[_ ?]]; [|done]. exists c. by rewrite Hsess, decide_True.
      * intros (d & Hd & Hdt & Hds). destruct (decide (p = pid)) as [->|]; [|by eauto 10].
        left. rewrite Hsess, decide_True in Hd by done. by injection Hd as ->; subst.
    + split; [by intros [_ ?]|]. intros (d & Hd & Hdt & Hds). split; [|by eauto].
      intros ->. rewrite Hsess, decide_True in Hd by done. injection Hd as ->. congruence.
  - intros p. rewrite Hcl, Hsess. case_decide; [eauto|]. apply (si_claimed _ Hinv).
  - intros t. rewrite Hc, (si_count _ Hinv). simpl.
    assert (Hlv : live_calls r' calls t = live_calls r calls t) by (by apply live_calls_same).
    destruct (takes_slot _ _); simpl; [|by rewrite Hlv; lia].
    assert (Hn : is_live r' t (pid, cs_TenantID c) = bool_decide (cs_TenantID c = t)).
    { unfold is_live. cbn [fst snd]. rewrite Hcl, Hunc. apply andb_true_r. }
    unfold live_calls in *. simpl. fold pid. rewrite Hn. case_bool_decide; simpl; lia.
  - intros t. rewrite Hc, Hm. pose proof (si_max _ Hinv t) as Hmax. simpl in Hmax.
    destruct (takes_slot _ _); simpl; [|lia]. specialize (Hlt eq_refl).
    case_bool_decide; subst; lia.
Qed.

Lemma slot_inv_place env r calls now req :
  slot_inv (r, calls) -> now <> time_zero -> fresh_reply env r now req ->
  slot_inv ((PlaceCall env r now req).1, note_call (PlaceCall env r now req).2 calls).
Proof.
  intros Hinv Hz Hfr. unfold PlaceCall.
  destruct (SelectForCall _ _ _ _) as [name|e] eqn:Esel; [|done].
  change (rq_TenantID (with_defaults now req)) with (rq_TenantID req).
  set (t := rq_TenantID req). pose proof (si_lim _ Hinv) as Hl. simpl in Hl.
  destruct (takes_slot name t) eqn:Et.
  - pose proof (incr_ok (rt_limiter r) now t Hl) as Hl1.
    pose proof (incr_max (rt_limiter r) now t) as Hm1.
    pose proof (incr_granted (rt_limiter r) now t Hl) as Hg1.
    pose proof (fun u => incr_count (rt_limiter r) now t u Hl) as Hc1.
    destruct (Incr (rt_limiter r) now t) as [l1 g]. simpl in Hl1, Hm1, Hg1, Hc1. subst g.
    case_bool_decide as Hlt; cbn [negb].
    2:{ apply (slot_inv_limiter r); [done..|]. intros u. simpl. rewrite Hc1.
        rewrite decide_False by tauto. lia. }
    cbn [rt_placed with_limiter]. destruct (env_reply _ _ _ _) as [pid|e] eqn:Er.
    + destruct (Hfr _ _ Esel Er) as (Hp & Hnone & Hf).
      destruct (ts_store (rt_store r) now _ (si_store _ Hinv) Hf Hz Hp) as (He & _).
      cbn [rt_store with_placed with_limiter].
      destruct (StoreCallSession _ _ _) as [s' err] eqn:Est. simpl in He. subst err.
      apply (slot_inv_store r _ calls now); simpl; try done.
      * by rewrite Est.
      * intros u. rewrite Hc1. change (rq_TenantID req) with t. rewrite Et. simpl.
        repeat case_decide; case_bool_decide; simpl; tauto || lia.
    + apply (slot_inv_limiter r); simpl; [done|done|by apply decr_ok|by rewrite decr_max|].
      intros u. rewrite decr_count, Hc1 by done. pose proof (lim_nonneg _ u Hl).
      repeat case_decide; simpl; tauto || lia.
  - cbn [negb rt_placed with_limiter]. destruct (env_reply _ _ _ _) as [pid|e] eqn:Er.
    + destruct (Hfr _ _ Esel Er) as (Hp & Hnone & Hf).
      destruct (ts_store (rt_store r) now _ (si_store _ Hinv) Hf Hz Hp) as (He & _).
      cbn [rt_store with_placed with_limiter].
      destruct (StoreCallSession _ _ _) as [s' err] eqn:Est. simpl in He. subst err.
      apply (slot_inv_store r _ calls now); simpl; try done.
      * by rewrite Est.
      * intros u. change (rq_TenantID req) with t. rewrite Et. simpl. lia.
      * change (rq_TenantID req) with t. by rewrite Et.
    + by apply (slot_inv_limiter r).
Qed.

(** A router with no call yet. *)
Record slot_start (r : Router T L) : Prop := {
  ss_store : ts_ok (rt_store r);
  ss_lim : lim_ok (rt_limiter r);
  ss_none p : ts_session (rt_store r) p = None;
  ss_unclaimed p : ts_claimed (rt_store r) (decr_key p) = false;
  ss_zero t : lim_count (rt_limiter r) t = 0
}.

Lemma slot_inv_start r : slot_start r -> slot_inv (r, []).
Proof.
  intros [Hs Hl Hn Hu Hz]. split; simpl; try done.
  - apply NoDup_nil_2.
  - intros p t. split; [by intros ?%elem_of_nil|]. intros (c & Hc & _). by rewrite Hn in Hc.
  - intros p. by rewrite Hu.
  - intros t. rewrite Hz. lia.
Qed.

(** A slot is lost when the session cannot be stored. If the provider has
    accepted a Vobiz call but [StoreCallSession] fails, [PlaceCall] returns an
    error and keeps the slot: the rollback covers only a failed provider call. *)
Theorem unstored_call_keeps_its_slot env r now req pid e :
  let req' := with_defaults now req in
  lim_ok (rt_limiter r) ->
  SelectForCall env r now req' = Ok "vobiz" -> rq_TenantID req <> "" ->
  lim_count (rt_limiter r) (rq_TenantID req) < lim_max (rt_limiter r) ->
  env_reply env (rt_placed r) "vobiz" req' = Ok pid ->
  (StoreCallSession (rt_store r) now (new_session now req' "vobiz" pid)).2 = Some e ->
  let '(r', res) := PlaceCall env r now req in
  is_ok res = false /\
  lim_count (rt_limiter r') (rq_TenantID req) = lim_count (rt_limiter r) (rq_TenantID req) + 1.
Proof.
  intros req' Hl Hsel Ht Hlt Hr Hst. unfold PlaceCall. fold req'. rewrite Hsel.
  change (rq_TenantID req') with (rq_TenantID req).
  assert (takes_slot "vobiz" (rq_TenantID req) = true) as ->.
  { unfold takes_slot, is_empty. by rewrite (bool_decide_false _ Ht). }
  pose proof (incr_granted (rt_limiter r) now (rq_TenantID req) Hl) as Hg.
  pose proof (incr_count (rt_limiter r) now (rq_TenantID req) (rq_TenantID req) Hl) as Hc.
  destruct (Incr _ _ _) as [l1 g]. simpl in Hg, Hc.
  rewrite decide_True in Hc by done. rewrite bool_decide_true in Hg by done. subst g.
  cbn [negb rt_placed with_limiter]. rewrite Hr. cbn [rt_store with_placed with_limiter].
  destruct (StoreCallSession _ _ _) as [s' err]. simpl in Hst. by subst err.
Qed.
End Slots.

(** ** A concrete router *)
Module RouterFixture.

Definition env : Env :=
  mkEnv (fun _ _ => true)
    (fun log name _ => if decide (name = "vobiz")
                       then Ok ("uuid-" ++ String.concat "" (log.*1))%string
                       else Ok "mock-call-1")
    "".

Definition store : FakeTel.t :=
  (FakeTel.upsertRoutingRule FakeTel.NewFake
     (mkRule "rule-vobiz-env" "vobiz" "" 0 (f_of_int 1))).1.

Definition router : Router FakeTel.t FakeLim.t :=
  mkRouter store {["vobiz"; "mock"; "exotel"; "twilio"]} (5 * minute) (FakeLim.NewFake 1) [].

Definition req (tenant : string) : CallRequest :=
  mkReq "" tenant "+911" "+912" "https://cb" "" 0 false.

Definition placed : Router FakeTel.t FakeLim.t := (PlaceCall env router hour (req "t1")).1.

Example first_call_takes_slot :
  rt_placed placed = [("vobiz", with_defaults hour (req "t1"))] /\
  FakeLim.count (rt_limiter placed) "t1" = 1 /\
  (PlaceCall env placed hour (req "t1")).2
  = Err "routing: concurrency: per-tenant call limit reached".
Proof. vm_compute. done. Qed.

Lemma router_start : slot_start router.
Proof.
  split.
  - intros i j c d Hc. simpl in Hc. by rewrite lookup_empty in Hc.
  - split; [simpl; lia|]. intros t. unfold FakeLim.count. simpl. by rewrite lookup_empty.
  - intros p. reflexivity.
  - intros p. apply bool_decide_eq_false. simpl. rewrite lookup_empty. by intros [? ?].
  - intros t. simpl. unfold FakeLim.count. simpl. by rewrite lookup_empty.
Qed.

End RouterFixture.

Lemma demo_calls_reach_only_mock_witness :
  let req := RouterFixture.req "demo-acme" in
  DemoMode RouterFixture.env "demo-acme" = true /\
  rt_limiter (PlaceCall RouterFixture.env RouterFixture.router hour req).1
  = rt_limiter RouterFixture.router.
Proof.
  split; [vm_compute; reflexivity|].
  apply (demo_calls_reach_only_mock RouterFixture.env RouterFixture.router hour
    (RouterFixture.req "demo-acme")). vm_compute. reflexivity.
Defined.

Lemma unstored_call_keeps_its_slot_witness :
  let down := PgTel.mk (mkKv [] false) kv_empty kv_empty kv_empty kv_empty kv_empty kv_empty
    (mkKv [("rule-vobiz-env", mkRule "rule-vobiz-env" "vobiz" "" 0 (f_of_int 1))] true)
    kv_empty kv_empty "id-1" in
  let r := mkRouter down {["vobiz"; "mock"]} (5 * minute) (FakeLim.NewFake 1) [] in
  let '(r', res) := PlaceCall RouterFixture.env r hour (RouterFixture.req "t1") in
  is_ok res = false /\ lim_count (rt_limiter r') "t1" = lim_count (rt_limiter r) "t1" + 1.
Proof.
  intros down r.
  eapply (unstored_call_keeps_its_slot RouterFixture.env r hour (RouterFixture.req "t1")).
  - split; [simpl; lia|]. intros t. unfold FakeLim.count. simpl. by rewrite lookup_empty.
  - vm_compute. reflexivity.
  - done.
  - vm_compute. reflexivity.
  - vm_compute. reflexivity.
  - vm_compute. reflexivity.
Defined.
