(* ===== verification/Webhook.v ===== *)
(** * telephony-adapter/internal/webhook and internal/handler

    Inbound provider webhooks: signature check, idempotency, storage and
    publication, and the HTTP handlers that combine them with the router.  The
    MAC function, the body decoders and the message bus are arguments. *)

From S2P Require Import Prelude GoTime Float64 Kv Limiter TelStore Routing.
From stdpp Require Import pretty.

Open Scope Z_scope.

(** ** The message bus *)

Record Message := mkMsg { msg_Subject : string; msg_Data : list (string * string) }.

(** [accepts] says whether the bus takes the next message; the fake publisher
    always does. *)
Record Publisher := mkPub {
  messages : list Message;
  accepts : list Message -> string -> bool
}.

Definition NewFakePublisher : Publisher := mkPub [] (fun _ _ => true).

Definition Publish (p : Publisher) (subject : string) (data : list (string * string))
    : Publisher * error :=
  if accepts p (messages p) subject
  then (mkPub (messages p ++ [mkMsg subject data]) (accepts p), None)
  else (p, Some "nats: publish").

(** ** Encodings *)

Definition hex_digit (n : N) : Ascii.ascii :=
  Ascii.ascii_of_N (if (n <? 10)%N then 48 + n else 87 + n)%N.

Definition hex_value (c : Ascii.ascii) : option N :=
  let n := Ascii.N_of_ascii c in
  if ((48 <=? n) && (n <=? 57))%N then Some (n - 48)%N
  else if ((97 <=? n) && (n <=? 102))%N then Some (n - 87)%N
  else if ((65 <=? n) && (n <=? 70))%N then Some (n - 55)%N
  else None.

(** [hex.EncodeToString]. *)
Fixpoint hex_encode (s : string) : string :=
  match s with
  | EmptyString => EmptyString
  | String c s' =>
      let n := Ascii.N_of_ascii c in
      String (hex_digit (n / 16)) (String (hex_digit (n mod 16)) (hex_encode s'))
  end.

(** [hex.DecodeString]. *)
Fixpoint hex_decode (s : string) : option string :=
  match s with
  | EmptyString => Some EmptyString
  | String a (String b s') =>
      h ← hex_value a; l ← hex_value b; r ← hex_decode s';
      Some (String (Ascii.ascii_of_N (16 * h + l)) r)
  | String _ EmptyString => None
  end.

(** ** The webhook handler *)

Record PlivoRecordingPayload := mkPRP {
  RecordURL : string;
  RecordingID : string;
  CallUUID : string;
  RecordingFormat : string
}.

(** What the handler is configured with.  [hmac key msg] is HMAC-SHA256,
    [base64] the standard encoding; [json_recording] and [form] decode a body
    as JSON and as a form (first value per key). *)
Record Config := mkConfig {
  authToken : string;
  hmac : string -> string -> string;
  base64 : string -> string;
  vobiz_secret : string;
  vobiz_verify : string;
  json_recording : string -> option PlivoRecordingPayload;
  form : string -> result (gmap string string)
}.

Definition VerifySignature (cfg : Config) (url nonce signature : string) : bool :=
  bool_decide (base64 cfg (hmac cfg (authToken cfg) (url ++ nonce)) = signature).

Definition ComputeSignature (cfg : Config) (tok url nonce : string) : string :=
  base64 cfg (hmac cfg tok (url ++ nonce)).

(** [parseRecordingPayload]: JSON first, then a form. *)
Definition parseRecordingPayload (cfg : Config) (body : string)
    : result PlivoRecordingPayload :=
  let as_form :=
    let? vals := form cfg body in
    let get k := default "" (vals !! k) in
    if is_empty (get "RecordUrl") then Err "parse recording payload: no RecordUrl"
    else Ok (mkPRP (get "RecordUrl") (get "RecordingID") (get "CallUUID")
               (get "RecordingFormat")) in
  match json_recording cfg body with
  | Some p => if is_empty (RecordURL p) then as_form else Ok p
  | None => as_form
  end.

Definition VerifyVobizSignature (cfg : Config) (rawBody signatureHex : string) : bool :=
  if is_empty (vobiz_secret cfg) then false else
  match hex_decode signatureHex with
  | None => false
  | Some sigBytes => bool_decide (hmac cfg (vobiz_secret cfg) rawBody = sigBytes)
  end.

Definition ComputeVobizSignature (cfg : Config) (secret body : string) : string :=
  hex_encode (hmac cfg secret body).

Definition vobizVerifyMode (cfg : Config) : string :=
  if is_empty (vobiz_verify cfg) then "true" else vobiz_verify cfg.

Definition vobizLifecycleSubject (eventType callStatus : string) : string :=
  if decide (eventType = "hangup" \/ eventType = "status") then
    if decide (callStatus = "initiated") then "call.initiated"
    else if decide (callStatus = "ringing") then "call.ringing"
    else if decide (callStatus = "answered" \/ callStatus = "in-progress") then "call.answered"
    else if decide (callStatus = "completed") then "call.completed"
    else if decide (callStatus = "failed" \/ callStatus = "busy" \/ callStatus = "no-answer"
                    \/ callStatus = "canceled") then "call.failed"
    else ""
  else "".

Section Webhook.
Context {T : Type} `{TelStore T}.

(** The store and the bus, the state a webhook acts on. *)
Abbreviation hstate := (T * Publisher)%type.

Definition wrap (ctx : string) (e : error) : error := (fun m => (ctx ++ ": " ++ m)%string) <$> e.

(** Store the recording, then announce it. *)
Definition announce_recording (h : hstate) (now : Z) (provider eventID pid recID url format : string)
    : hstate * error :=
  let '(s1, e1) := StoreRecording h.1 now (mkRec recID "" pid url false 0 now) in
  match e1 with
  | Some _ => ((s1, h.2), wrap "store recording" e1)
  | None =>
      let '(p1, e2) := Publish h.2 "call.recording.ready"
        [("event_id", eventID); ("provider", provider); ("provider_call_id", pid);
         ("recording_id", recID); ("recording_url", url); ("format", format)] in
      ((s1, p1), wrap "publish recording.ready" e2)
  end.

Definition handleRecording (cfg : Config) (h : hstate) (now : Z) (eventID payload : string)
    : hstate * error :=
  match parseRecordingPayload cfg payload with
  | Err e => (h, Some e)
  | Ok p =>
      let recID := if is_empty (RecordingID p) then ("rec-" ++ CallUUID p)%string
                   else RecordingID p in
      announce_recording h now "plivo" eventID (CallUUID p) recID (RecordURL p)
        (RecordingFormat p)
  end.

(** [Handler.HandleEvent] (Plivo). *)
Definition HandleEvent (cfg : Config) (h : hstate) (now : Z)
    (eventType url nonce signature eventID payload : string) : hstate * error :=
  if negb (VerifySignature cfg url nonce signature) then (h, Some "webhook: invalid signature") else
  match CheckIdempotencyKey h.1 eventID with
  | Err e => (h, wrap "webhook: idempotency check" (Some e))
  | Ok (Some _) => (h, None)
  | Ok None =>
      let '(s1, e1) := StoreWebhookEvent h.1 now
        (mkWE eventID "plivo" eventType payload now false) in
      match e1 with
      | Some _ => ((s1, h.2), wrap "webhook: store event" e1)
      | None =>
          let '(p2, e2) := Publish h.2 "call.provider.event"
            [("event_id", eventID); ("event_type", eventType); ("provider", "plivo")] in
          match e2 with
          | Some _ => ((s1, p2), wrap "webhook: publish" e2)
          | None =>
              let '(h3, e3) := if decide (eventType = "recording")
                               then handleRecording cfg (s1, p2) now eventID payload
                               else ((s1, p2), None) in
              match e3 with
              | Some _ => (h3, wrap "webhook: handle recording" e3)
              | None =>
                  let '(s4, e4) := SetIdempotencyKey h3.1 now eventID "published" in
                  ((s4, h3.2), wrap "webhook: set idempotency key" e4)
              end
          end
      end
  end.

Definition param (params : gmap string string) (k : string) : string := default "" (params !! k).

(** The idempotency key of a Vobiz event. *)
Definition vobiz_key (eventType providerCallID eventID : string) : string :=
  ("vobiz:" ++ eventType ++ ":" ++ providerCallID ++ ":" ++ eventID)%string.

Definition handleVobizRecording (h : hstate) (now : Z) (eventID providerCallID : string)
    (payload : gmap string string) : hstate * error :=
  let recID := if is_empty (param payload "RecordingID") then ("vobizrec-" ++ providerCallID)%string
               else param payload "RecordingID" in
  announce_recording h now "vobiz" eventID providerCallID recID (param payload "RecordUrl")
    (param payload "RecordingFormat").

Definition ErrVobizBadSignature : string := "webhook: vobiz: invalid signature".

(** The announcements of a Vobiz event: the provider event, the lifecycle
    subject of its status, and a recording when it carries one. *)
Definition vobiz_announce (h : hstate) (now : Z) (eventType providerCallID idempKey : string)
    (payload : gmap string string) : hstate * error :=
  let '(p1, e1) := Publish h.2 "call.provider.event"
    [("event_id", idempKey); ("event_type", eventType); ("provider", "vobiz");
     ("provider_call_id", providerCallID)] in
  match e1 with
  | Some _ => ((h.1, p1), wrap "webhook: vobiz: publish provider event" e1)
  | None =>
      let subject := vobizLifecycleSubject eventType (param payload "CallStatus") in
      let '(p2, e2) := if is_empty subject then (p1, None) else
        Publish p1 subject
          [("event_id", idempKey); ("provider", "vobiz"); ("provider_call_id", providerCallID);
           ("status", param payload "CallStatus")] in
      match e2 with
      | Some _ => ((h.1, p2), wrap "webhook: vobiz: publish lifecycle event" e2)
      | None =>
          if decide (eventType = "recording" /\ param payload "RecordUrl" <> "") then
            let '(h3, e3) := handleVobizRecording (h.1, p2) now idempKey providerCallID payload in
            (h3, wrap "webhook: vobiz: handle recording" e3)
          else ((h.1, p2), None)
      end
  end.

(** [Handler.HandleVobizEvent]. *)
Definition HandleVobizEvent (cfg : Config) (h : hstate) (now : Z)
    (eventType providerCallID rawBody signatureHex eventID : string)
    (payload : gmap string string) : hstate * error :=
  if negb (VerifyVobizSignature cfg rawBody signatureHex)
     && bool_decide (vobizVerifyMode cfg = "strict")
  then (h, Some ErrVobizBadSignature) else
  let idempKey := vobiz_key eventType providerCallID eventID in
  match CheckIdempotencyKey h.1 idempKey with
  | Err e => (h, wrap "webhook: vobiz: idempotency check" (Some e))
  | Ok (Some _) => (h, None)
  | Ok None =>
      let '(s1, e1) := StoreWebhookEvent h.1 now
        (mkWE idempKey "vobiz" eventType rawBody now false) in
      match e1 with
      | Some _ => ((s1, h.2), wrap "webhook: vobiz: store event" e1)
      | None =>
          let '(s2, e2) := StoreProviderEvent s1 now
            (mkPE idempKey "" providerCallID "vobiz" eventType rawBody now) in
          match e2 with
          | Some _ => ((s2, h.2), wrap "webhook: vobiz: store provider event" e2)
          | None =>
              let '(h3, e3) := vobiz_announce (s2, h.2) now eventType providerCallID idempKey
                                 payload in
              match e3 with
              | Some _ => (h3, e3)
              | None =>
                  let '(s4, e4) := SetIdempotencyKey h3.1 now idempKey "published" in
                  ((s4, h3.2), wrap "webhook: vobiz: set idempotency key" e4)
              end
          end
      end
  end.

(** [Handler.ServeHTTP] after the body is read: the HTTP status it answers. *)
Definition ServeHTTP (cfg : Config) (h : hstate) (now : Z)
    (event url nonce signature eventID body : string) : hstate * Z :=
  let eventID := if is_empty eventID then ("plivo-" ++ pretty now)%string else eventID in
  let eventType := if is_empty event then "unknown" else event in
  let '(h', e) := HandleEvent cfg h now eventType url nonce signature eventID body in
  (h', match e with
       | None => 204
       | Some m => if decide (m = "webhook: invalid signature") then 403 else 500
       end).

End Webhook.

(** ** The HTTP handlers (handler.go) *)

Definition isTerminalVobizStatus (status : string) : bool :=
  bool_decide (status = "completed") || bool_decide (status = "failed")
  || bool_decide (status = "busy") || bool_decide (status = "no-answer")
  || bool_decide (status = "canceled").

(** [vobizCallUUID]: the first non-empty of the Plivo-family fields. *)
Definition vobizCallUUID (params : gmap string string) : string :=
  default "" (List.find (fun v => negb (is_empty v))
    (param params <$> ["CallUUID"; "call_uuid"; "request_uuid"; "message_uuid"])).

Section Handlers.
Context {T L : Type} `{TelStore T} `{Limiter L}.

(** The service: the router and the webhook handler share the store. *)
Record Service := mkService { sv_router : Router T L; sv_pub : Publisher }.

Definition sv_hstate (sv : Service) : T * Publisher := (rt_store (sv_router sv), sv_pub sv).
Definition sv_after (sv : Service) (h : T * Publisher) : Service :=
  mkService (with_store (sv_router sv) h.1) h.2.

Definition tenant_hint (params : gmap string string) : string :=
  if is_empty (param params "TenantID") then param params "tenant_id" else param params "TenantID".

(** Releasing the slot; an error is only logged. *)
Definition release_slot (sv : Service) (now : Z) (pid : string) (params : gmap string string)
    : Service :=
  mkService (DecrConcurrencyForCall (sv_router sv) now pid (tenant_hint params)).1 (sv_pub sv).

(** [Handler.upsertCallSessionStatus] changes nothing. *)
Definition upsertCallSessionStatus (sv : Service) (providerCallID status : string) : Service := sv.

(** [vobizStatus] on parsed parameters; the answer is the HTTP status. *)
Definition vobizStatus (cfg : Config) (sv : Service) (now : Z) (rawBody sigHex : string)
    (params : gmap string string) : Service * Z :=
  let pid := vobizCallUUID params in
  let eventID := ("vbzstatus-" ++ pid ++ "-" ++ pretty now)%string in
  let '(h', e) := HandleVobizEvent cfg (sv_hstate sv) now "status" pid rawBody sigHex eventID
                    params in
  let sv1 := sv_after sv h' in
  match e with
  | Some m => (sv1, if decide (m = ErrVobizBadSignature) then 401 else 500)
  | None =>
      let callStatus := param params "CallStatus" in
      let sv2 := if negb (is_empty callStatus) && negb (is_empty pid)
                 then upsertCallSessionStatus sv1 pid callStatus else sv1 in
      let sv3 := if isTerminalVobizStatus callStatus then release_slot sv2 now pid params
                 else sv2 in
      (sv3, 204)
  end.

(** [vobizHangup]: any error but a bad signature is only logged. *)
Definition vobizHangup (cfg : Config) (sv : Service) (now : Z) (rawBody sigHex : string)
    (params : gmap string string) : Service * Z :=
  let pid := vobizCallUUID params in
  let eventID := ("vbzhangup-" ++ pid ++ "-" ++ pretty now)%string in
  let params := if is_empty (param params "CallStatus") then <["CallStatus" := "completed"]> params
                else params in
  let '(h', e) := HandleVobizEvent cfg (sv_hstate sv) now "hangup" pid rawBody sigHex eventID
                    params in
  let sv1 := sv_after sv h' in
  if decide (e = Some ErrVobizBadSignature) then (sv1, 401) else
  let sv2 := if negb (is_empty pid) then upsertCallSessionStatus sv1 pid "completed" else sv1 in
  (release_slot sv2 now pid params, 204).

Definition vobizRecording (cfg : Config) (sv : Service) (now : Z) (rawBody sigHex : string)
    (params : gmap string string) : Service * Z :=
  let pid := vobizCallUUID params in
  let eventID := ("vbzrec-" ++ pid ++ "-" ++ pretty now)%string in
  let '(h', e) := HandleVobizEvent cfg (sv_hstate sv) now "recording" pid rawBody sigHex eventID
                    params in
  (sv_after sv h',
   match e with
   | None => 204
   | Some m => if decide (m = ErrVobizBadSignature) then 401 else 500
   end).

(** [createCall] on the decoded request. *)
Definition createCall (env : Env) (sv : Service) (now : Z) (req : CallRequest)
    : Service * (Z * option CallSession) :=
  if is_empty (rq_TenantID req) then (sv, (400, None)) else
  if is_empty (rq_ToNumber req) then (sv, (400, None)) else
  let '(r', res) := PlaceCall env (sv_router sv) now req in
  (mkService r' (sv_pub sv),
   match res with Ok s => (202, Some s) | Err _ => (503, None) end).

End Handlers.
Arguments Service : clear implicits.
