(* ===== verification/WebhookSafety.v ===== *)
(** * Webhooks: authentication, idempotency, publication

    Proved against [TelStoreLaws] where possible, so for both stores. *)

From S2P Require Import Prelude GoTime Float64 Kv Limiter TelStore Routing RoutingSafety Webhook.
From stdpp Require Import pretty.

Open Scope Z_scope.

(** ** Hexadecimal signatures *)

Lemma hex_value_digit n : (n < 16)%N -> hex_value (hex_digit n) = Some n.
Proof.
  intros Hn.
  assert (Hall : forallb (fun m => bool_decide (hex_value (hex_digit m) = Some m))
    [0;1;2;3;4;5;6;7;8;9;10;11;12;13;14;15]%N = true) by (vm_compute; reflexivity).
  assert (Hin : n ∈ [0;1;2;3;4;5;6;7;8;9;10;11;12;13;14;15]%N)
    by (repeat (rewrite elem_of_cons); lia).
  eapply forallb_elem in Hall; [|exact Hin]. by apply bool_decide_eq_true in Hall.
Qed.

Lemma hex_roundtrip s : hex_decode (hex_encode s) = Some s.
Proof.
  induction s as [|c s IH]; [done|]. cbn [hex_encode hex_decode].
  pose proof (Ascii.N_ascii_bounded c) as Hb.
  rewrite !hex_value_digit; [|apply N.Div0.div_lt_upper_bound; lia|apply N.mod_lt; lia].
  simpl. rewrite IH. simpl. do 2 f_equal.
  rewrite <- N.Div0.div_mod. apply Ascii.ascii_N_embedding.
Qed.

(** A webhook signed with the configured secret is always accepted: the
    signature computed by [ComputeVobizSignature] verifies, through the hex
    encoding, for every body; and no signature verifies without a secret. *)
Theorem vobiz_signature_roundtrip cfg body sig :
  VerifyVobizSignature cfg body (ComputeVobizSignature cfg (vobiz_secret cfg) body)
  = negb (is_empty (vobiz_secret cfg)) /\
  (is_empty (vobiz_secret cfg) = true -> VerifyVobizSignature cfg body sig = false).
Proof.
  unfold VerifyVobizSignature, ComputeVobizSignature. split.
  - destruct (is_empty _); [done|]. rewrite hex_roundtrip. by apply bool_decide_eq_true.
  - by intros ->.
Qed.

(** ** One Plivo delivery *)

Record Delivery := mkDelivery {
  d_now : Z; d_type : string; d_url : string; d_nonce : string; d_sig : string;
  d_id : string; d_body : string
}.

Definition is_event (id : string) (m : Message) : bool :=
  bool_decide (msg_Subject m = "call.provider.event")
  && bool_decide (("event_id", id) ∈ msg_Data m).

(** How many times an event was announced. *)
Definition published (id : string) (msgs : list Message) : nat :=
  length (List.filter (is_event id) msgs).

Section Plivo.
Context {T : Type} `{TelStoreLaws T}.
Implicit Types (h : T * Publisher).

Definition deliver (cfg : Config) h (d : Delivery) : (T * Publisher) * error :=
  HandleEvent cfg h (d_now d) (d_type d) (d_url d) (d_nonce d) (d_sig d) (d_id d) (d_body d).

Definition run (cfg : Config) h (ds : list Delivery) : T * Publisher :=
  foldl (fun h d => (deliver cfg h d).1) h ds.

Definition verified (cfg : Config) (d : Delivery) : bool :=
  VerifySignature cfg (d_url d) (d_nonce d) (d_sig d).

(** Nothing but the messages and the webhook tables moves. *)
Definition same_claims h h' : Prop :=
  ts_ok h'.1 /\ (forall p, ts_session h'.1 p = ts_session h.1 p) /\
  (forall k, ts_claimed h'.1 k = ts_claimed h.1 k).

Lemma publish_shape p subj data p' e :
  Publish p subj data = (p', e) ->
  accepts p' = accepts p /\
  match e with
  | None => messages p' = messages p ++ [mkMsg subj data]
  | Some _ => messages p' = messages p
  end.
Proof. unfold Publish. destruct (accepts p _ _); by intros [= <- <-]. Qed.

Lemma announce_recording_spec h now prov ev pid rid url fmt h' e :
  ts_ok h.1 -> announce_recording h now prov ev pid rid url fmt = (h', e) ->
  same_claims h h' /\ accepts h'.2 = accepts h.2 /\
  exists new, messages h'.2 = messages h.2 ++ new /\
    Forall (fun m => msg_Subject m = "call.recording.ready") new.
Proof.
  intros Hok. unfold announce_recording.
  pose proof (ts_recording h.1 now (mkRec rid "" pid url false 0 now) Hok) as Hr.
  destruct (StoreRecording _ _ _) as [s1 [e1|]]; simpl in Hr.
  - intros [= <- <-]. split; [done|]. split; [done|]. exists []. by rewrite app_nil_r.
  - destruct (Publish _ _ _) as [p1 e2] eqn:Ep. intros [= <- <-]. simpl.
    apply publish_shape in Ep as [Ha Hm]. split; [done|]. split; [done|].
    destruct e2.
    + exists []. by rewrite app_nil_r.
    + eexists. split; [done|]. by repeat constructor.
Qed.

Lemma handleRecording_spec cfg h now ev body h' e :
  ts_ok h.1 -> handleRecording cfg h now ev body = (h', e) ->
  same_claims h h' /\ accepts h'.2 = accepts h.2 /\
  exists new, messages h'.2 = messages h.2 ++ new /\
    Forall (fun m => msg_Subject m = "call.recording.ready") new.
Proof.
  intros Hok. unfold handleRecording. destruct (parseRecordingPayload cfg body).
  - by apply announce_recording_spec.
  - intros [= <- <-]. split; [done|]. split; [done|]. exists []. by rewrite app_nil_r.
Qed.

(** The announcement of an accepted delivery. *)
Definition event_msg (d : Delivery) : Message :=
  mkMsg "call.provider.event"
    [("event_id", d_id d); ("event_type", d_type d); ("provider", "plivo")].

(** The whole effect of a delivery: the key is set exactly when it answers nil,
    and then the event has been announced. *)
Lemma deliver_spec cfg h d h' e :
  ts_ok h.1 -> deliver cfg h d = (h', e) ->
  ts_ok h'.1 /\ accepts h'.2 = accepts h.2 /\
  (forall p, ts_session h'.1 p = ts_session h.1 p) /\
  exists new, messages h'.2 = messages h.2 ++ new /\
    (new = [] \/ exists new', new = event_msg d :: new' /\
       Forall (fun m => msg_Subject m = "call.recording.ready") new') /\
    match e with
    | Some _ => (forall k, ts_claimed h'.1 k = ts_claimed h.1 k) /\ 
                (verified cfg d = false -> h' = h)
    | None => verified cfg d = true /\
        if ts_claimed h.1 (d_id d) then h' = h
        else new <> [] /\ forall k, ts_claimed h'.1 k = bool_decide (d_id d = k) || ts_claimed h.1 k
    end.
Proof.
  intros Hok. unfold deliver, HandleEvent, verified.
  destruct (VerifySignature _ _ _ _); cbn [negb].
  2:{ intros [= <- <-]. split_and!; [done..|]. exists []. rewrite app_nil_r. auto. }
  destruct (ts_check h.1 (d_id d) Hok) as (o & -> & Ho). destruct o as [res|].
  { intros [= <- <-]. split_and!; [done..|]. exists []. rewrite app_nil_r.
    rewrite (proj1 Ho) by eauto. auto. }
  assert (Hc : ts_claimed h.1 (d_id d) = false).
  { destruct (ts_claimed _ _); [|done]. by destruct (proj2 Ho eq_refl). }
  rewrite Hc.
  set (evt := mkWE _ _ _ _ _ _). pose proof (ts_webhook h.1 (d_now d) evt Hok) as (Hw1 & Hw2 & Hw3).
  destruct (StoreWebhookEvent _ _ _) as [s1 [e1|]]; simpl in Hw1, Hw2, Hw3.
  { intros [= <- <-]. split_and!; [done..|]. exists []. rewrite app_nil_r.
    split_and!; [done|by left|done|done]. }
  destruct (Publish _ _ _) as [p2 e2] eqn:Ep. apply publish_shape in Ep as [Ha Hm].
  destruct e2 as [e2|].
  { intros [= <- <-]. split_and!; [done..|]. exists []. simpl. rewrite Hm, app_nil_r.
    split_and!; [done|by left|done|done]. }
  destruct (if decide (d_type d = "recording") then _ else _) as [h3 e3] eqn:E3.
  assert (H3 : same_claims h h3 /\ accepts h3.2 = accepts h.2 /\
    exists new, messages h3.2 = messages p2 ++ new /\
      Forall (fun m => msg_Subject m = "call.recording.ready") new).
  { case_decide.
    - apply handleRecording_spec in E3 as ((Hr1 & Hr2 & Hr3) & Hra & Hrn); [|done]. simpl in *.
      split_and!; [split_and!; [done|by intros; rewrite Hr2, Hw2|by intros; rewrite Hr3, Hw3]
        |congruence|done].
    - injection E3 as <- <-. split_and!; [done..|]. exists []. by rewrite app_nil_r. }
  clear E3. destruct H3 as ((Hok3 & Hs3 & Hc3) & Ha3 & new & Hm3 & Hnew).
  destruct e3 as [e3|].
  { intros [= <- <-]. split_and!; [done..|]. exists (event_msg d :: new).
    split_and!; [by rewrite Hm3, Hm, <- app_assoc|right; eauto|done|done]. }
  destruct (ts_set h3.1 (d_now d) (d_id d) "published" Hok3) as (Hs & Hok4 & Hs4 & Hc4 & _).
  destruct (SetIdempotencyKey _ _ _ _) as [s4 e4]. simpl in *. subst e4.
  intros [= <- <-]. simpl. split_and!; [done|done|by intros; rewrite Hs4|].
  exists (event_msg d :: new).
  split_and!; [by rewrite Hm3, Hm, <- app_assoc|right; eauto|done|done|].
  intros k. by rewrite Hc4, Hc3.
Qed.

Lemma deliver_keeps cfg h d k :
  ts_ok h.1 -> ts_ok (deliver cfg h d).1.1 /\
  (ts_claimed h.1 k = true -> ts_claimed (deliver cfg h d).1.1 k = true).
Proof.
  intros Hok. destruct (deliver cfg h d) as [h' e] eqn:E.
  apply deliver_spec in E as (Hok' & _ & _ & new & _ & _ & He); [|done]. simpl.
  split; [done|]. intros Hk. destruct e.
  - destruct He as [He _]. by rewrite He.
  - destruct He as [_ He]. destruct (ts_claimed h.1 (d_id d)); [by subst|].
    destruct He as [_ ->]. rewrite Hk. apply orb_true_r.
Qed.

Lemma run_keeps cfg ds h k :
  ts_ok h.1 -> ts_ok (run cfg h ds).1 /\
  (ts_claimed h.1 k = true -> ts_claimed (run cfg h ds).1 k = true).
Proof.
  revert h. induction ds as [|d ds IH]; intros h Hok; [done|]. simpl.
  destruct (deliver_keeps cfg h d k Hok) as [Hok1 Hk1].
  destruct (IH _ Hok1) as [Hok2 Hk2]. auto.
Qed.

(** A delivery of a processed event changes nothing. *)
Lemma deliver_replay cfg h d :
  ts_ok h.1 -> ts_claimed h.1 (d_id d) = true -> (deliver cfg h d).1 = h.
Proof.
  intros Hok Hk. destruct (ts_check h.1 (d_id d) Hok) as (o & Ho & Hiff).
  unfold deliver, HandleEvent. destruct (VerifySignature _ _ _ _); [|done]. simpl.
  rewrite Ho. destruct o; [done|]. by destruct (proj2 Hiff Hk).
Qed.

Lemma published_app id l l' : published id (l ++ l') = (published id l + published id l')%nat.
Proof. unfold published. by rewrite List.filter_app, length_app. Qed.

Lemma published_recordings id l :
  Forall (fun m => msg_Subject m = "call.recording.ready") l -> published id l = 0%nat.
Proof.
  induction 1 as [|m l Hm _ IH]; [done|]. unfold published, is_event in *. simpl.
  by rewrite Hm.
Qed.

Lemma published_event_msg id d l :
  published id (event_msg d :: l) = ((if decide (d_id d = id) then 1 else 0) + published id l)%nat.
Proof.
  unfold published. simpl.
  assert (is_event id (event_msg d) = bool_decide (d_id d = id)) as ->.
  { unfold is_event, event_msg. cbn [msg_Subject msg_Data].
    rewrite bool_decide_true by done. cbn [andb]. apply bool_decide_ext. split.
    - intros Hin. repeat (apply elem_of_cons in Hin as [Hin|Hin]; [congruence|]).
      by apply elem_of_nil in Hin.
    - intros ->. left. }
  case_bool_decide; case_decide; done.
Qed.

(** An acknowledged Plivo event is announced and never processed again.
    When a delivery of a new event is answered without error, its announcement
    is on the bus, and after any further deliveries every redelivery of that
    event, signed or not, leaves the store and the bus untouched. *)
Theorem acknowledged_event_is_final cfg h d h' :
  ts_ok h.1 -> ts_claimed h.1 (d_id d) = false -> deliver cfg h d = (h', None) ->
  (published (d_id d) (messages h.2) < published (d_id d) (messages h'.2))%nat /\
  forall ds d', d_id d' = d_id d -> (deliver cfg (run cfg h' ds) d').1 = run cfg h' ds.
Proof.
  intros Hok Hc Hd. apply deliver_spec in Hd as (Hok' & _ & _ & new & Hm & Hnew & _ & He); [|done].
  rewrite Hc in He. destruct He as [Hne Hk]. split.
  - rewrite Hm, published_app. destruct Hnew as [->|(new' & -> & _)]; [done|].
    rewrite published_event_msg, decide_True by done. lia.
  - intros ds d' Hid. destruct (run_keeps cfg ds h' (d_id d) Hok') as [Hok2 Hk2].
    apply deliver_replay; [done|]. rewrite Hid. apply Hk2. rewrite Hk.
    by rewrite bool_decide_true.
Qed.
End Plivo.

(** ** Exactly once, when neither the store nor the bus fails *)

(** What the handler needs of a store that takes every write: the tables of
    webhook events and recordings accept their rows. *)
Class WebhookWrites (T : Type) `{TelStoreLaws T} := {
  ww_up : T -> Prop;
  ww_webhook s now e :
    ww_up s -> (StoreWebhookEvent s now e).2 = None /\ ww_up (StoreWebhookEvent s now e).1;
  ww_recording s now r :
    ww_up s -> (StoreRecording s now r).2 = None /\ ww_up (StoreRecording s now r).1;
  ww_set s now k r : ww_up s -> ww_up (SetIdempotencyKey s now k r).1
}.

#[export] Program Instance fake_webhook_writes : WebhookWrites FakeTel.t := { ww_up _ := True }.
Next Obligation. done. Qed.
Next Obligation. done. Qed.
Next Obligation. done. Qed.

#[export] Program Instance pg_webhook_writes : WebhookWrites PgTel.t := {
  ww_up p := kv_up (PgTel.webhook_events p) = true /\ kv_up (PgTel.recordings p) = true /\
    kv_up (PgTel.recordings_by_provider_call p) = true
}.
Next Obligation.
  intros p now e (H1 & H2 & H3). simpl. unfold PgTel.storeWebhookEvent, kv_set, kv_put.
  by rewrite H1.
Qed.
Next Obligation.
  intros p now r (H1 & H2 & H3). simpl. unfold PgTel.storeRecording, kv_set, kv_put.
  by rewrite H2, H3.
Qed.
Next Obligation.
  intros p now k r (H1 & H2 & H3). simpl. unfold PgTel.setIdempotencyKey, kv_insert.
  destruct (kv_up (PgTel.idempotency_keys p)); [|done]. by destruct (rows_get k _).
Qed.

Section ExactlyOnce.
Context {T : Type} `{WebhookWrites T}.
Implicit Types (h : T * Publisher).

(** The service works: the store answers and takes every write, the bus
    accepts every message. *)
Definition healthy h : Prop :=
  ts_ok h.1 /\ ww_up h.1 /\ accepts h.2 = (fun _ _ => true).

Lemma handleRecording_ok cfg h now ev body :
  healthy h ->
  (is_ok (parseRecordingPayload cfg body) = true -> (handleRecording cfg h now ev body).2 = None) /\
  ts_ok (handleRecording cfg h now ev body).1.1 /\ ww_up (handleRecording cfg h now ev body).1.1.
Proof.
  intros (Hok & Hw & Ha). unfold handleRecording. destruct (parseRecordingPayload _ _) as [p|]; [|done].
  unfold announce_recording. set (rec := mkRec _ _ _ _ _ _ _).
  destruct (ww_recording h.1 now rec Hw) as [He Hw'].
  destruct (ts_recording h.1 now rec Hok) as (Hok' & _ & _).
  destruct (StoreRecording _ _ _) as [s' e']. cbn [fst snd] in *. subst e'.
  unfold Publish. by rewrite Ha.
Qed.

(** A delivery is acknowledged exactly when its signature is valid, unless it
    is a recording whose payload does not parse; the service goes on working. *)
Lemma deliver_healthy cfg h d :
  healthy h -> healthy (deliver cfg h d).1 /\
  (verified cfg d = true ->
   (d_type d = "recording" -> is_ok (parseRecordingPayload cfg (d_body d)) = true) ->
   (deliver cfg h d).2 = None).
Proof.
  intros Hh. pose proof Hh as (Hok & Hw & Ha).
  destruct (deliver cfg h d) as [h' e] eqn:E. pose proof E as Ed.
  apply deliver_spec in E as (Hok' & Ha' & _); [|done]. cbn [fst snd].
  cut (ww_up h'.1 /\ (verified cfg d = true ->
    (d_type d = "recording" -> is_ok (parseRecordingPayload cfg (d_body d)) = true) -> e = None)).
  { intros [Hw' He]. split; [|done]. split_and!; [done..|congruence]. }
  clear Hok' Ha'. revert Ed. unfold deliver, HandleEvent, verified.
  destruct (VerifySignature _ _ _ _); cbn [negb]; [|by intros [= <- <-]].
  destruct (ts_check h.1 (d_id d) Hok) as (o & -> & _).
  destruct o as [res|]; [by intros [= <- <-]|].
  set (evt := mkWE _ _ _ _ _ _). destruct (ww_webhook h.1 (d_now d) evt Hw) as [He1 Hw1].
  destruct (ts_webhook h.1 (d_now d) evt Hok) as (Hok1 & _ & _).
  destruct (StoreWebhookEvent _ _ _) as [s1 e1]. cbn [fst snd] in *. subst e1.
  unfold Publish at 1. rewrite Ha. set (pub := mkPub _ _).
  assert (Hset : forall h3, ts_ok h3.1 -> ww_up h3.1 ->
    (let '(s4, e4) := SetIdempotencyKey h3.1 (d_now d) (d_id d) "published" in
     ((s4, h3.2), wrap "webhook: set idempotency key" e4)) = (h', e) -> ww_up h'.1 /\ e = None).
  { intros h3 Ho Hu. pose proof (ts_set h3.1 (d_now d) (d_id d) "published" Ho) as (He4 & _).
    pose proof (ww_set h3.1 (d_now d) (d_id d) "published" Hu) as Hu'.
    destruct (SetIdempotencyKey _ _ _ _). cbn [fst snd] in *. subst. by intros [= <- <-]. }
  case_decide as Ht.
  - destruct (handleRecording_ok cfg (s1, pub) (d_now d) (d_id d) (d_body d)) as (Hr & Hok3 & Hw3);
      [done|]. destruct (handleRecording _ _ _ _ _) as [h3 [e3|]]; cbn [fst snd] in *.
    + intros [= <- <-]. split; [done|]. intros _ Hp. by specialize (Hr (Hp Ht)).
    + intros Hs. by apply Hset in Hs as [? ?].
  - intros Hs. by apply (Hset (s1, pub)) in Hs as [? ?].
Qed.

(** One delivery on a failure-free service: the event [id] is announced once
    when it becomes processed. *)
Lemma deliver_step cfg h d id :
  healthy h ->
  published id (messages h.2) = (if ts_claimed h.1 id then 1 else 0)%nat ->
  (d_id d = id -> d_type d = "recording" ->
   is_ok (parseRecordingPayload cfg (d_body d)) = true) ->
  let h' := (deliver cfg h d).1 in
  healthy h' /\
  ts_claimed h'.1 id = ts_claimed h.1 id || (bool_decide (d_id d = id) && verified cfg d) /\
  published id (messages h'.2) = (if ts_claimed h'.1 id then 1 else 0)%nat.
Proof.
  intros Hh Hp Hrec. destruct (deliver_healthy cfg h d Hh) as [Hh' Hn].
  destruct (deliver cfg h d) as [h' e] eqn:E. cbn [fst snd] in *. split; [done|].
  pose proof Hh as (Hok & _ & _).
  pose proof (deliver_spec cfg h d h' e Hok E) as (_ & _ & _ & new & Hm & Hnew & He).
  destruct (decide (d_id d = id)) as [Hid|Hid].
  2:{ rewrite (bool_decide_false (d_id d = id)) by done. cbn [andb]. rewrite orb_false_r.
      assert (Hc : ts_claimed h'.1 id = ts_claimed h.1 id).
      { destruct e; [by destruct He as [-> _]|]. destruct He as [_ He].
        destruct (ts_claimed h.1 (d_id d)); [by subst|]. destruct He as [_ ->].
        by rewrite (bool_decide_false (d_id d = id)). }
      split; [done|]. rewrite Hc, <- Hp, Hm, published_app.
      destruct Hnew as [->|(new' & -> & Hn')]; [apply Nat.add_0_r|].
      rewrite published_event_msg, decide_False, (published_recordings id new') by done. lia. }
  rewrite (bool_decide_true (d_id d = id)) by done. subst id. cbn [andb].
  destruct (verified cfg d) eqn:Hv.
  - specialize (Hn eq_refl (Hrec eq_refl)). subst e. destruct He as [_ He]. rewrite orb_true_r.
    destruct (ts_claimed h.1 (d_id d)) eqn:Ec; [subst h'; by rewrite Ec|].
    destruct He as [Hne Hk]. rewrite Hk, (bool_decide_true (d_id d = d_id d)) by done. split; [done|].
    rewrite Hm, published_app, Hp. destruct Hnew as [->|(new' & -> & Hn')]; [done|].
    by rewrite published_event_msg, decide_True, (published_recordings (d_id d) new').
  - rewrite orb_false_r. destruct e; [|by destruct He]. destruct He as [_ He].
    specialize (He eq_refl). by subst h'.
Qed.

(** C32: exactly once.  While the telephony store (in-memory or Postgres)
    answers and takes every write and the bus accepts every message, an event
    that has been neither processed nor announced before is announced, after
    any sequence of Plivo deliveries, exactly once if some delivery of it
    carries a valid signature, and never otherwise.  Needed: a recording event
    has payloads that parse in each of its deliveries; one that does not parse
    is refused after it was announced, so every retry announces it again. *)
Theorem plivo_event_published_exactly_once cfg h ds id :
  healthy h -> ts_claimed h.1 id = false -> published id (messages h.2) = 0%nat ->
  (forall d, d ∈ ds -> d_id d = id -> d_type d = "recording" ->
     is_ok (parseRecordingPayload cfg (d_body d)) = true) ->
  published id (messages (run cfg h ds).2)
  = if existsb (fun d => bool_decide (d_id d = id) && verified cfg d) ds then 1%nat else 0%nat.
Proof.
  intros Hh Hc Hp Hrec.
  cut (published id (messages (run cfg h ds).2)
    = if ts_claimed h.1 id || existsb (fun d => bool_decide (d_id d = id) && verified cfg d) ds
      then 1%nat else 0%nat); [by rewrite Hc|].
  assert (Hp' : published id (messages h.2) = (if ts_claimed h.1 id then 1 else 0)%nat) by by rewrite Hc.
  clear Hc Hp. revert h Hh Hp'.
  induction ds as [|d ds IH]; intros h Hh Hp; [by rewrite orb_false_r|].
  destruct (deliver_step cfg h d id Hh Hp) as (Hh' & Hc & Hp'); [apply Hrec; left|].
  cbn [run foldl existsb]. fold (run cfg (deliver cfg h d).1 ds).
  rewrite IH, Hc, orb_assoc; try done. intros; apply Hrec; [right|..]; done.
Qed.

(** A recording event whose payload does not parse is announced again by every
    delivery: the event is announced before the payload is read, and refused
    without its key being set. *)
Theorem unparsable_recording_is_announced_again cfg h d :
  healthy h -> verified cfg d = true -> ts_claimed h.1 (d_id d) = false ->
  d_type d = "recording" -> is_ok (parseRecordingPayload cfg (d_body d)) = false ->
  let '(h', e) := deliver cfg h d in
  e <> None /\ healthy h' /\ ts_claimed h'.1 (d_id d) = false /\
  published (d_id d) (messages h'.2) = S (published (d_id d) (messages h.2)).
Proof.
  intros Hh Hv Hc Ht Hp. destruct (deliver_healthy cfg h d Hh) as [Hh' _].
  pose proof Hh as (Hok & Hw & Ha). revert Hh'. unfold deliver, HandleEvent, verified in *.
  rewrite Hv. cbn [negb]. destruct (ts_check h.1 (d_id d) Hok) as (o & -> & Ho).
  destruct o as [res|]; [rewrite (proj1 Ho) in Hc by eauto; done|].
  set (evt := mkWE _ _ _ _ _ _). destruct (ww_webhook h.1 (d_now d) evt Hw) as [He1 Hw1].
  destruct (ts_webhook h.1 (d_now d) evt Hok) as (Hok1 & _ & Hk).
  destruct (StoreWebhookEvent _ _ _) as [s1 e1]. cbn [fst snd] in *. subst e1.
  unfold Publish. rewrite Ha, decide_True by done. unfold handleRecording.
  destruct (parseRecordingPayload _ _); [done|]. cbn [fst snd messages]. intros Hh'.
  split; [done|]. split; [done|]. split; [by rewrite Hk|].
  rewrite published_app. change (mkMsg _ _) with (event_msg d).
  rewrite published_event_msg, decide_True by done. cbn. lia.
Qed.
End ExactlyOnce.

(** ** Vobiz events *)

Section Vobiz.
Context {T : Type} `{TelStoreLaws T}.
Implicit Types (h : T * Publisher).

Lemma vobiz_announce_spec h now ty pid key params h' e :
  ts_ok h.1 -> vobiz_announce h now ty pid key params = (h', e) -> same_claims h h'.
Proof.
  intros Hok. unfold vobiz_announce. destruct (Publish h.2 _ _) as [p1 [e1|]].
  { by intros [= <- <-]. }
  destruct (if is_empty _ then _ else _) as [p2 [e2|]]; [by intros [= <- <-]|].
  case_decide; [|by intros [= <- <-]].
  destruct (handleVobizRecording _ _ _ _ _) as [h3 e3] eqn:E. intros [= <- <-].
  unfold handleVobizRecording in E. apply announce_recording_spec in E; tauto.
Qed.

(** An event sets at most its own key and moves no session. *)
Lemma HandleVobizEvent_spec cfg h now ty pid body sig ev params h' e :
  ts_ok h.1 -> HandleVobizEvent cfg h now ty pid body sig ev params = (h', e) ->
  ts_ok h'.1 /\ (forall p, ts_session h'.1 p = ts_session h.1 p) /\
  (forall k, k <> vobiz_key ty pid ev -> ts_claimed h'.1 k = ts_claimed h.1 k).
Proof.
  intros Hok. unfold HandleVobizEvent. destruct (_ && _); [by intros [= <- <-]|].
  destruct (ts_check h.1 (vobiz_key ty pid ev) Hok) as (o & -> & _).
  destruct o; [by intros [= <- <-]|].
  set (we := mkWE _ _ _ _ _ _). pose proof (ts_webhook h.1 now we Hok) as (Hw1 & Hw2 & Hw3).
  destruct (StoreWebhookEvent _ _ _) as [s1 [e1|]]; simpl in Hw1, Hw2, Hw3;
    [intros [= <- <-]; by split_and!|].
  set (pe := mkPE _ _ _ _ _ _ _). pose proof (ts_event s1 now pe Hw1) as (He1 & He2 & He3).
  destruct (StoreProviderEvent _ _ _) as [s2 [e2|]]; simpl in He1, He2, He3.
  { intros [= <- <-]. split_and!; [done|..]; intros; simpl;
      [by rewrite He2, Hw2|by rewrite He3, Hw3]. }
  destruct (vobiz_announce _ _ _ _ _ _) as [h3 e3] eqn:E3.
  apply vobiz_announce_spec in E3 as (Ha1 & Ha2 & Ha3); [|done]. simpl in Ha1, Ha2, Ha3.
  destruct e3 as [e3|].
  { intros [= <- <-]. split_and!; [done|..]; intros;
      [by rewrite Ha2, He2, Hw2|by rewrite Ha3, He3, Hw3]. }
  destruct (ts_set h3.1 now (vobiz_key ty pid ev) "published" Ha1) as (Hs & Hok4 & Hs4 & Hc4 & _).
  destruct (SetIdempotencyKey _ _ _ _) as [s4 e4]. simpl in *. subst e4.
  intros [= <- <-]. simpl. split_and!; [done|..].
  - intros p. by rewrite Hs4, Ha2, He2, Hw2.
  - intros k Hk. rewrite Hc4, Ha3, He3, Hw3. by rewrite bool_decide_false.
Qed.
End Vobiz.

Lemma vobiz_key_not_decr ty pid ev q :
  ty = "status" \/ ty = "hangup" \/ ty = "recording" -> decr_key q <> vobiz_key ty pid ev.
Proof. intros [-> | [-> | ->]] Hk; by unfold decr_key, vobiz_key in Hk. Qed.

(** ** The service *)

Section Service.
Context {T L : Type} `{TelStoreLaws T} `{LimiterLaws L}.
Implicit Types (sv : Service T L).








Lemma DecrConcurrencyForCall_sessions (r : Router T L) now pid hint p :
  ts_ok (rt_store r) ->
  ts_session (rt_store (DecrConcurrencyForCall r now pid hint).1) p = ts_session (rt_store r) p.
Proof.
  intros Hok. unfold DecrConcurrencyForCall. destruct (is_empty pid).
  { by destruct (is_empty hint). }
  destruct (CheckIdempotencyKey _ _) as [[res|]|]; [done| |done].
  set (t := if is_empty hint then _ else hint). destruct (is_empty t); [done|].
  pose proof (ts_set (rt_store r) now (decr_key pid) "decremented" Hok) as (_ & _ & Hset & _).
  destruct (SetIdempotencyKey _ _ _ _) as [s' [e'|]]; apply Hset.
Qed.

(** A hangup webhook moves no call session, whatever its status field: the
    stored session keeps its status and has no end time. *)
Theorem hangup_keeps_call_sessions cfg sv now body sig params pid :
  ts_ok (rt_store (sv_router sv)) ->
  ts_session (rt_store (sv_router (vobizHangup cfg sv now body sig params).1)) pid
  = ts_session (rt_store (sv_router sv)) pid.
Proof.
  intros Hok. unfold vobizHangup.
  destruct (HandleVobizEvent _ _ _ _ _ _ _ _ _) as [h' e] eqn:E.
  apply HandleVobizEvent_spec in E as (Hok' & Hs & _); [|done].
  case_decide; [apply Hs|]. unfold upsertCallSessionStatus, release_slot.
  destruct (negb _); simpl; (rewrite DecrConcurrencyForCall_sessions; [apply Hs|done]).
Qed.
End Service.

(** ** Redelivered Vobiz events *)

(** How many provider events were announced for a call. *)
Definition announced (pid : string) (msgs : list Message) : nat :=
  length (List.filter (fun m => bool_decide (msg_Subject m = "call.provider.event")
    && bool_decide (("provider_call_id", pid) ∈ msg_Data m)) msgs).

(** The idempotency key of a status delivery at an instant. *)
Definition status_key (pid : string) (now : Z) : string :=
  vobiz_key "status" pid ("vbzstatus-" ++ pid ++ "-" ++ pretty now).

Lemma status_key_inj pid n m : status_key pid n = status_key pid m -> n = m.
Proof.
  unfold status_key, vobiz_key. intros Hk.
  repeat apply (inj (String.append _)) in Hk. by apply (inj pretty) in Hk.
Qed.

Lemma announced_app pid l l' : announced pid (l ++ l') = (announced pid l + announced pid l')%nat.
Proof. unfold announced. by rewrite List.filter_app, length_app. Qed.

Section Redelivery.
Context {L : Type} `{Limiter L}.
Implicit Types (sv : Service FakeTel.t L).

Definition processed sv (k : string) : bool :=
  bool_decide (is_Some (FakeTel.idempotencyKeys (rt_store (sv_router sv)) !! k)).

Lemma release_slot_keys sv now pid params k :
  k <> decr_key pid -> processed (release_slot sv now pid params) k = processed sv k.
Proof.
  intros Hk. unfold processed, release_slot, DecrConcurrencyForCall. simpl.
  destruct (is_empty pid); [by destruct (is_empty (tenant_hint params))|].
  unfold FakeTel.checkIdempotencyKey.
  destruct (ik_Result <$> _); [done|]. set (t := if is_empty (tenant_hint params) then _ else _).
  destruct (is_empty t); [done|]. unfold FakeTel.setIdempotencyKey.
  destruct (_ !! decr_key pid); [done|]. simpl. by rewrite lookup_insert_ne.
Qed.

Lemma lifecycle_not_provider ty st :
  vobizLifecycleSubject ty st <> "call.provider.event".
Proof. unfold vobizLifecycleSubject. repeat case_decide; done. Qed.

Lemma status_processed_once cfg sv now body sig params :
  let pid := vobizCallUUID params in
  accepts (sv_pub sv) = (fun _ _ => true) -> vobizVerifyMode cfg <> "strict" ->
  processed sv (status_key pid now) = false ->
  let sv' := (vobizStatus cfg sv now body sig params).1 in
  accepts (sv_pub sv') = (fun _ _ => true) /\
  announced pid (messages (sv_pub sv')) = S (announced pid (messages (sv_pub sv))) /\
  forall k, k <> status_key pid now -> k <> decr_key pid -> processed sv' k = processed sv k.
Proof.
  intros pid Ha Hm Hk. unfold vobizStatus. fold pid.
  change (vobiz_key "status" pid _) with (status_key pid now).
  destruct (HandleVobizEvent _ _ _ _ _ _ _ _ _) as [h' e] eqn:E.
  assert (Hh : e = None /\ accepts h'.2 = (fun _ _ => true) /\
    announced pid (messages h'.2) = S (announced pid (messages (sv_pub sv))) /\
    forall k, k <> status_key pid now -> processed (sv_after sv h') k = processed sv k).
  { revert E. unfold HandleVobizEvent. fold pid (status_key pid now).
    rewrite (bool_decide_false _ Hm), andb_false_r.
    unfold processed in Hk. cbn [CheckIdempotencyKey fake_tel_store].
    unfold FakeTel.checkIdempotencyKey. cbn [sv_hstate fst].
    destruct (FakeTel.idempotencyKeys _ !! status_key pid now) eqn:El;
      [by rewrite bool_decide_true in Hk|]. cbn [fmap option_fmap option_map].
    cbn [StoreWebhookEvent StoreProviderEvent fake_tel_store].
    unfold FakeTel.storeWebhookEvent, FakeTel.storeProviderEvent, vobiz_announce, Publish.
    cbn [snd fst sv_hstate]. rewrite Ha. cbn [accepts messages].
    destruct (is_empty (vobizLifecycleSubject _ _)); cbn [accepts messages];
      rewrite decide_False by (by intros [? _]);
      cbn [SetIdempotencyKey fake_tel_store fst snd]; unfold FakeTel.setIdempotencyKey;
      cbn [FakeTel.idempotencyKeys]; rewrite El; intros [= <- <-]; cbn [snd accepts messages];
      (split; [done|]); (split; [done|]); split.
    - rewrite announced_app. unfold announced at 2. cbn [List.filter msg_Subject msg_Data].
      rewrite bool_decide_true, bool_decide_true by (done || set_solver). simpl. lia.
    - intros k Hne. unfold processed. simpl. by rewrite lookup_insert_ne.
    - rewrite !announced_app. unfold announced at 2 3. cbn [List.filter msg_Subject msg_Data].
      rewrite (bool_decide_false (vobizLifecycleSubject _ _ = _)) by apply lifecycle_not_provider.
      rewrite bool_decide_true, bool_decide_true by (done || set_solver). simpl. lia.
    - intros k Hne. unfold processed. simpl. by rewrite lookup_insert_ne. }
  destruct Hh as (-> & Ha' & Hann & Hkeys). unfold upsertCallSessionStatus.
  destruct (_ && _), (isTerminalVobizStatus _); cbn [fst];
    (split; [done|]); (split; [done|]); intros k H1 H2; rewrite ?release_slot_keys by done;
    by apply Hkeys.
Qed.

(** Vobiz status webhooks are not deduplicated. The idempotency key holds
    the arrival time, so the same webhook delivered again at another instant
    is announced a second time. *)
Theorem vobiz_redelivery_is_announced_again cfg sv now1 now2 body sig params :
  let pid := vobizCallUUID params in
  accepts (sv_pub sv) = (fun _ _ => true) -> vobizVerifyMode cfg <> "strict" -> now1 <> now2 ->
  processed sv (status_key pid now1) = false -> processed sv (status_key pid now2) = false ->
  let sv1 := (vobizStatus cfg sv now1 body sig params).1 in
  let sv2 := (vobizStatus cfg sv1 now2 body sig params).1 in
  announced pid (messages (sv_pub sv2)) = (announced pid (messages (sv_pub sv)) + 2)%nat.
Proof.
  intros pid Ha Hm Hne H1 H2 sv1 sv2.
  destruct (status_processed_once cfg sv now1 body sig params Ha Hm H1) as (Ha1 & Hn1 & Hk1).
  destruct (status_processed_once cfg sv1 now2 body sig params Ha1 Hm) as (_ & Hn2 & _).
  - unfold sv1. rewrite Hk1; [done| |].
    + intros Hk%status_key_inj. congruence.
    + intros Hk. symmetry in Hk. apply vobiz_key_not_decr in Hk; auto.
  - fold sv1 sv2 pid in Hn1, Hn2. rewrite Hn2, Hn1. lia.
Qed.
End Redelivery.

(** When strict verification is not configured, which is the default, the
    signature of a Vobiz webhook makes no difference: the request is processed
    whatever it carries. *)
Theorem default_mode_ignores_vobiz_signatures {T L} `{TelStore T} `{Limiter L}
    cfg (sv : Service T L) now body sig sig' params :
  vobizVerifyMode cfg <> "strict" ->
  vobizStatus cfg sv now body sig params = vobizStatus cfg sv now body sig' params /\
  vobizHangup cfg sv now body sig params = vobizHangup cfg sv now body sig' params /\
  vobizRecording cfg sv now body sig params = vobizRecording cfg sv now body sig' params.
Proof.
  intros Hm. unfold vobizStatus, vobizHangup, vobizRecording, HandleVobizEvent.
  by rewrite (bool_decide_false _ Hm), !andb_false_r.
Qed.

(** C36: unauthenticated webhooks change nothing.  A Plivo webhook with a wrong
    signature is answered 403; a Vobiz status, hangup or recording webhook with
    a missing or wrong signature is answered 401 when strict verification is
    configured; and the service is left as it was.  In the default mode Vobiz
    webhooks are processed without a valid signature
    ([default_mode_ignores_vobiz_signatures]). *)
Theorem unauthenticated_webhooks_are_rejected {T L} `{TelStore T} `{Limiter L}
    cfg (sv : Service T L) now event url nonce sig eventID body params :
  (VerifySignature cfg url nonce sig = false ->
   ServeHTTP cfg (sv_hstate sv) now event url nonce sig eventID body = (sv_hstate sv, 403)) /\
  (VerifyVobizSignature cfg body sig = false -> vobizVerifyMode cfg = "strict" ->
   vobizStatus cfg sv now body sig params = (sv, 401) /\
   vobizHangup cfg sv now body sig params = (sv, 401) /\
   vobizRecording cfg sv now body sig params = (sv, 401)).
Proof.
  split.
  - intros Hp. unfold ServeHTTP, HandleEvent. by rewrite Hp.
  - intros Hv Hm. unfold vobizStatus, vobizHangup, vobizRecording, HandleVobizEvent.
    rewrite Hv, (bool_decide_true _ Hm). cbn [negb andb].
    assert (Hs : sv_after sv (sv_hstate sv) = sv) by (by destruct sv as [[] ?]).
    rewrite Hs. split_and!; done.
Qed.

(** ** Witnesses on a concrete service *)
Module WebhookFixture.

(** A toy MAC and decoders; the signature of a body is the key and the body. *)
Definition cfg : Config :=
  mkConfig "token" (fun k m => (k ++ "|" ++ m)%string) (fun s => s) "secret" ""
    (fun _ => None) (fun _ => Ok ∅).

Definition strict : Config :=
  mkConfig "token" (fun k m => (k ++ "|" ++ m)%string) (fun s => s) "secret" "strict"
    (fun _ => None) (fun _ => Ok ∅).

Definition delivery (id : string) (now : Z) : Delivery :=
  mkDelivery now "status" "https://x/wh" "n1" "token|https://x/whn1" id "{}".

Definition start : FakeTel.t * Publisher := (FakeTel.NewFake, NewFakePublisher).

Definition pg_start : PgTel.t * Publisher :=
  (PgTel.mk kv_empty kv_empty kv_empty kv_empty kv_empty kv_empty kv_empty kv_empty kv_empty
     kv_empty "id", NewFakePublisher).

Definition service : Service FakeTel.t FakeLim.t :=
  mkService RouterFixture.router NewFakePublisher.

Definition params : gmap string string := {["CallUUID" := "uuid-"; "CallStatus" := "completed"]}.

Lemma start_ok : unique_calls start.1.
Proof. intros i j c d Hc. simpl in Hc. by rewrite lookup_empty in Hc. Qed.

End WebhookFixture.

Lemma acknowledged_event_is_final_witness :
  exists h', deliver WebhookFixture.cfg WebhookFixture.start (WebhookFixture.delivery "e1" hour)
    = (h', None) /\
  (deliver WebhookFixture.cfg h' (WebhookFixture.delivery "e1" (2 * hour))).1 = h'.
Proof.
  eexists. split; [vm_compute; reflexivity|].
  apply (acknowledged_event_is_final (T := FakeTel.t) WebhookFixture.cfg WebhookFixture.start
    (WebhookFixture.delivery "e1" hour)) with (ds := []).
  - exact WebhookFixture.start_ok.
  - vm_compute. reflexivity.
  - vm_compute. reflexivity.
  - reflexivity.
Defined.

Lemma plivo_event_published_exactly_once_witness :
  let ds := [WebhookFixture.delivery "e1" hour; WebhookFixture.delivery "e2" hour;
             WebhookFixture.delivery "e1" (2 * hour)] in
  published "e1" (messages (run WebhookFixture.cfg WebhookFixture.pg_start ds).2) = 1%nat.
Proof.
  intros ds.
  apply (plivo_event_published_exactly_once WebhookFixture.cfg WebhookFixture.pg_start ds "e1").
  - split; [by split_and!|]. by split_and!.
  - vm_compute. reflexivity.
  - vm_compute. reflexivity.
  - intros d Hd _ Ht. exfalso. revert Ht.
    repeat (apply elem_of_cons in Hd as [->|Hd]; [done|]). by apply elem_of_nil in Hd.
Defined.


Lemma hangup_keeps_call_sessions_witness :
  let sv1 := (createCall RouterFixture.env WebhookFixture.service hour (RouterFixture.req "t1")).1 in
  let sv2 := (vobizHangup WebhookFixture.cfg sv1 (2 * hour) "" "" WebhookFixture.params).1 in
  ts_session (rt_store (sv_router sv2)) "uuid-" = ts_session (rt_store (sv_router sv1)) "uuid-" /\
  cs_Status <$> ts_session (rt_store (sv_router sv1)) "uuid-" = Some "queued".
Proof.
  intros sv1 sv2. split; [|vm_compute; reflexivity].
  apply (hangup_keeps_call_sessions WebhookFixture.cfg sv1 (2 * hour) "" "" WebhookFixture.params
    "uuid-").
  assert (He : rt_store (sv_router sv1) = (StoreCallSession (rt_store RouterFixture.router) hour
    (new_session hour (with_defaults hour (RouterFixture.req "t1")) "vobiz" "uuid-")).1)
    by (vm_compute; reflexivity).
  rewrite He. refine (proj1 (proj2 (ts_store (rt_store RouterFixture.router) hour _ _ _ _ _))).
  - exact WebhookFixture.start_ok.
  - split; [vm_compute; reflexivity|]. intros i d Hd. simpl in Hd. by rewrite lookup_empty in Hd.
  - done.
  - done.
Defined.

Lemma vobiz_redelivery_is_announced_again_witness :
  let sv1 := (vobizStatus WebhookFixture.cfg WebhookFixture.service 1 "" "" WebhookFixture.params).1 in
  let sv2 := (vobizStatus WebhookFixture.cfg sv1 2 "" "" WebhookFixture.params).1 in
  announced (vobizCallUUID WebhookFixture.params) (messages (sv_pub sv2)) = 2%nat.
Proof.
  intros sv1 sv2.
  refine (eq_trans (vobiz_redelivery_is_announced_again WebhookFixture.cfg
    WebhookFixture.service 1 2 "" "" WebhookFixture.params _ _ _ _ _) _);
    try (vm_compute; reflexivity); done.
Defined.

Lemma unauthenticated_webhooks_are_rejected_witness :
  ServeHTTP WebhookFixture.cfg (sv_hstate WebhookFixture.service) hour "status" "https://x/wh" "n1" "00" "e1" "body"
  = (sv_hstate WebhookFixture.service, 403) /\
  vobizStatus WebhookFixture.strict WebhookFixture.service hour "body" "00" WebhookFixture.params
  = (WebhookFixture.service, 401).
Proof.
  split.
  - apply (unauthenticated_webhooks_are_rejected WebhookFixture.cfg WebhookFixture.service hour
      "status" "https://x/wh" "n1" "00" "e1" "body" WebhookFixture.params). vm_compute. reflexivity.
  - apply (unauthenticated_webhooks_are_rejected WebhookFixture.strict WebhookFixture.service hour
      "status" "https://x/wh" "n1" "00" "e1" "body" WebhookFixture.params); vm_compute; reflexivity.
Defined.
