(* ===== verification/Consent.v ===== *)
(** * consent-compliance: the consent ledger and the outreach gates

    [internal/model], [internal/store] (the in-memory and the Postgres store),
    [internal/compliance] (the gates in front of every outreach) and the
    handlers of [internal/handler].  [time.Now] and the random ids
    ([uuid.NewString], [pgkv.NewID]) are arguments. *)

From S2P Require Import Prelude GoTime Kv.

Open Scope Z_scope.

Definition Channel := string.

Record ConsentRecord := mkConsent {
  cr_ID : string;
  cr_LeadID : string;
  cr_Basis : string;
  cr_Source : string;
  cr_NoticeVersion : string;
  cr_EvidenceURL : string;
  cr_CreatedAt : Z;
  cr_PIIRedacted : bool;
  cr_RedactedAt : option Z
}.

Record Suppression := mkSup {
  su_ID : string; su_Phone : string; su_Reason : string; su_TicketID : string; su_CreatedAt : Z
}.

Record KnowledgeBase := mkKB {
  kb_ID : string;
  kb_CampaignID : string;
  kb_Approved : bool;
  kb_RERANumber : string;
  kb_HasBrochure : bool;
  kb_HasPriceSheet : bool;
  kb_HasDisclaimers : bool;
  kb_Version : string
}.

Record OutreachResult := mkOut { Allowed : bool; Reason : string }.

Definition allow : OutreachResult := mkOut true "".
Definition block (reason : string) : OutreachResult := mkOut false reason.

(** The interface; [now] is the clock, [uid] a fresh id. *)
Class ConsentStore (T : Type) := {
  RecordConsent : T -> Z -> string -> ConsentRecord -> T * error;
  UpdateConsent : T -> string -> error;
  GetConsentTrail : T -> string -> result (list ConsentRecord);
  RedactConsentPII : T -> Z -> string -> T * error;
  IsSuppressed : T -> string -> result bool;
  AddSuppression : T -> Z -> string -> string -> string -> T * error;
  RemoveSuppression : T -> string -> string -> T * error;
  IsOptedOut : T -> string -> Channel -> result bool;
  GetApprovedKB : T -> string -> result (option KnowledgeBase);
  RequestErasure : T -> string -> string -> T * result string;
  GetLeadPhone : T -> string -> result string
}.

(** A new ledger entry gets an id and a creation time when it has none. *)
Definition stamped (now : Z) (uid : string) (r : ConsentRecord) : ConsentRecord :=
  mkConsent (or_new (cr_ID r) uid) (cr_LeadID r) (cr_Basis r) (cr_Source r)
    (cr_NoticeVersion r) (cr_EvidenceURL r) (or_now (cr_CreatedAt r) now)
    (cr_PIIRedacted r) (cr_RedactedAt r).

Definition redacted (now : Z) (r : ConsentRecord) : ConsentRecord :=
  mkConsent (cr_ID r) (cr_LeadID r) (cr_Basis r) (cr_Source r) (cr_NoticeVersion r)
    "[REDACTED]" (cr_CreatedAt r) true (Some now).

Definition withdrawal (leadID : string) (channel : Channel) (reason : string) : ConsentRecord :=
  mkConsent "" leadID "withdrawal" channel ("withdrawal:" ++ reason)%string "" time_zero false None.

(** [WithdrawConsent], the same code in both stores. *)
Definition WithdrawConsent {T} `{ConsentStore T} (s : T) (now : Z) (uid uid' : string)
    (leadID : string) (channel : Channel) (reason : string) : T * error :=
  let '(s1, e1) := RecordConsent s now uid (withdrawal leadID channel reason) in
  match e1 with
  | Some _ => (s1, e1)
  | None =>
      match GetLeadPhone s1 leadID with
      | Ok phone => if is_empty phone then (s1, None)
                    else AddSuppression s1 now uid' phone ("consent_withdrawn:" ++ reason)
      | Err _ => (s1, None)
      end
  end.

Definition opt_key (leadID : string) (channel : Channel) : string :=
  (leadID ++ ":" ++ channel)%string.

(** ** In memory *)
Module FakeConsent.

Record t := mk {
  ledger : gmap string ConsentRecord;
  suppressions : gmap string Suppression;
  optOuts : gmap string bool;
  kbs : gmap string KnowledgeBase;
  leadPhones : gmap string string;
  erasures : gmap string string
}.

Definition NewFake : t := mk ∅ ∅ ∅ ∅ ∅ ∅.

Definition recordConsent (f : t) (now : Z) (uid : string) (rec : ConsentRecord) : t * error :=
  let rec := stamped now uid rec in
  (mk (<[cr_ID rec := rec]> (ledger f)) (suppressions f) (optOuts f) (kbs f) (leadPhones f)
     (erasures f), None).

Definition updateConsent (f : t) (id : string) : error :=
  Some "consent_ledger is append-only: UPDATE not permitted".

Definition getConsentTrail (f : t) (leadID : string) : result (list ConsentRecord) :=
  Ok (List.filter (fun r => bool_decide (cr_LeadID r = leadID)) (map_to_list (ledger f)).*2).

Definition redactConsentPII (f : t) (now : Z) (ledgerID : string) : t * error :=
  match ledger f !! ledgerID with
  | None => (f, Some "ledger record not found")
  | Some rec =>
      (mk (<[ledgerID := redacted now rec]> (ledger f)) (suppressions f) (optOuts f) (kbs f)
         (leadPhones f) (erasures f), None)
  end.

Definition isSuppressed (f : t) (phone : string) : result bool :=
  Ok (bool_decide (is_Some (suppressions f !! phone))).

Definition addSuppression (f : t) (now : Z) (uid phone reason : string) : t * error :=
  (mk (ledger f) (<[phone := mkSup uid phone reason "" now]> (suppressions f)) (optOuts f)
     (kbs f) (leadPhones f) (erasures f), None).

Definition removeSuppression (f : t) (phone ticketID : string) : t * error :=
  match suppressions f !! phone with
  | None => (f, Some "phone not in suppression list")
  | Some _ =>
      (mk (ledger f) (delete phone (suppressions f)) (optOuts f) (kbs f) (leadPhones f)
         (erasures f), None)
  end.

Definition isOptedOut (f : t) (leadID : string) (channel : Channel) : result bool :=
  Ok (default false (optOuts f !! opt_key leadID channel)).

Definition getApprovedKB (f : t) (campaignID : string) : result (option KnowledgeBase) :=
  Ok (kbs f !! campaignID).

Definition requestErasure (f : t) (uid leadID : string) : t * result string :=
  let wfID := ("erasure-" ++ uid)%string in
  (mk (ledger f) (suppressions f) (optOuts f) (kbs f) (leadPhones f)
     (<[leadID := wfID]> (erasures f)), Ok wfID).

Definition getLeadPhone (f : t) (leadID : string) : result string :=
  match leadPhones f !! leadID with Some p => Ok p | None => Err "lead not found" end.

End FakeConsent.

#[export] Instance fake_consent_store : ConsentStore FakeConsent.t := {
  RecordConsent := FakeConsent.recordConsent;
  UpdateConsent := FakeConsent.updateConsent;
  GetConsentTrail := FakeConsent.getConsentTrail;
  RedactConsentPII := FakeConsent.redactConsentPII;
  IsSuppressed := FakeConsent.isSuppressed;
  AddSuppression := FakeConsent.addSuppression;
  RemoveSuppression := FakeConsent.removeSuppression;
  IsOptedOut := FakeConsent.isOptedOut;
  GetApprovedKB := FakeConsent.getApprovedKB;
  RequestErasure := FakeConsent.requestErasure;
  GetLeadPhone := FakeConsent.getLeadPhone
}.

(** ** Postgres *)
Module PgConsent.

Record t := mk {
  consent_ledger : kv ConsentRecord;
  suppressions : kv Suppression;
  suppression_removals : kv Suppression;
  opt_outs : kv unit;
  approved_kbs : kv KnowledgeBase;
  lead_phones : kv string;
  erasures : kv string
}.

Definition recordConsent (p : t) (now : Z) (uid : string) (rec : ConsentRecord) : t * error :=
  let rec := stamped now uid rec in
  let '(c, e) := kv_set (consent_ledger p) (cr_ID rec) rec in
  (mk c (suppressions p) (suppression_removals p) (opt_outs p) (approved_kbs p)
     (lead_phones p) (erasures p), e).

Definition updateConsent (p : t) (id : string) : error :=
  Some "consent_ledger is append-only: UPDATE not permitted".

Definition getConsentTrail (p : t) (leadID : string) : result (list ConsentRecord) :=
  let? records := kv_list (consent_ledger p) in
  Ok (List.filter (fun r => bool_decide (cr_LeadID r = leadID)) records).

Definition redactConsentPII (p : t) (now : Z) (ledgerID : string) : t * error :=
  match kv_get (consent_ledger p) ledgerID with
  | Err e => (p, Some e)
  | Ok None => (p, Some "ledger record not found")
  | Ok (Some rec) =>
      let '(c, e) := kv_set (consent_ledger p) ledgerID (redacted now rec) in
      (mk c (suppressions p) (suppression_removals p) (opt_outs p) (approved_kbs p)
         (lead_phones p) (erasures p), e)
  end.

Definition isSuppressed (p : t) (phone : string) : result bool :=
  let? s := kv_get (suppressions p) phone in Ok (bool_decide (is_Some s)).

Definition addSuppression (p : t) (now : Z) (uid phone reason : string) : t * error :=
  let '(c, e) := kv_set (suppressions p) phone (mkSup uid phone reason "" now) in
  (mk (consent_ledger p) c (suppression_removals p) (opt_outs p) (approved_kbs p)
     (lead_phones p) (erasures p), e).

(** The removal is recorded under the ticket before the entry is deleted. *)
Definition removeSuppression (p : t) (phone ticketID : string) : t * error :=
  match kv_get (suppressions p) phone with
  | Err e => (p, Some e)
  | Ok None => (p, Some "phone not in suppression list")
  | Ok (Some s) =>
      let s := mkSup (su_ID s) (su_Phone s) (su_Reason s) ticketID (su_CreatedAt s) in
      let '(r, e1) := kv_set (suppression_removals p) (su_ID s) s in
      let set c := mk (consent_ledger p) c r (opt_outs p) (approved_kbs p) (lead_phones p)
        (erasures p) in
      match e1 with
      | Some _ => (set (suppressions p), e1)
      | None =>
          match kv_delete (suppressions p) phone with
          | Ok c => (set c, None)
          | Err e => (set (suppressions p), Some e)
          end
      end
  end.

Definition isOptedOut (p : t) (leadID : string) (channel : Channel) : result bool :=
  let? o := kv_get (opt_outs p) (opt_key leadID channel) in Ok (bool_decide (is_Some o)).

Definition getApprovedKB (p : t) (campaignID : string) : result (option KnowledgeBase) :=
  kv_get (approved_kbs p) campaignID.

Definition requestErasure (p : t) (uid leadID : string) : t * result string :=
  let wfID := ("erasure-" ++ uid)%string in
  let '(c, e) := kv_set (erasures p) leadID wfID in
  (mk (consent_ledger p) (suppressions p) (suppression_removals p) (opt_outs p)
     (approved_kbs p) (lead_phones p) c,
   match e with None => Ok wfID | Some m => Err m end).

Definition getLeadPhone (p : t) (leadID : string) : result string :=
  let? v := kv_get (lead_phones p) leadID in
  match v with Some p => Ok p | None => Err "lead not found" end.

End PgConsent.

#[export] Instance pg_consent_store : ConsentStore PgConsent.t := {
  RecordConsent := PgConsent.recordConsent;
  UpdateConsent := PgConsent.updateConsent;
  GetConsentTrail := PgConsent.getConsentTrail;
  RedactConsentPII := PgConsent.redactConsentPII;
  IsSuppressed := PgConsent.isSuppressed;
  AddSuppression := PgConsent.addSuppression;
  RemoveSuppression := PgConsent.removeSuppression;
  IsOptedOut := PgConsent.isOptedOut;
  GetApprovedKB := PgConsent.getApprovedKB;
  RequestErasure := PgConsent.requestErasure;
  GetLeadPhone := PgConsent.getLeadPhone
}.

(** ** The gates (compliance.go) *)

Record WindowConfig := mkWin { StartHour : Z; EndHour : Z; WinLocation : Location }.

Definition DefaultWindowConfig : WindowConfig := mkWin 9 21 kolkata.

Definition CheckCallingWindow (t : Z) (cfg : WindowConfig) : OutreachResult :=
  let h := local_hour (WinLocation cfg) t in
  if (h <? StartHour cfg) || (EndHour cfg <=? h) then block "calling_window" else allow.

(** Two instants are on the same date when their local days are equal. *)
Definition CheckHoliday (t : Z) (holidays : list Z) : OutreachResult :=
  if existsb (fun h => local_day kolkata t =? local_day kolkata h) holidays
  then block "holiday" else allow.

Definition CheckTRAI (channel : Channel) (campaignType callerID : string) : OutreachResult :=
  if bool_decide (campaignType = "real_estate") && bool_decide (channel = "phone")
     && negb (has_prefix callerID "140")
  then block "trai_140_series" else allow.

Section Gates.
Context {T : Type} `{ConsentStore T}.

Definition CheckRERAGate (s : T) (campaignID campaignType : string) : OutreachResult :=
  if negb (bool_decide (campaignType = "real_estate")) then allow else
  match GetApprovedKB s campaignID with
  | Ok (Some kb) =>
      if negb (kb_Approved kb) || is_empty (kb_RERANumber kb) || negb (kb_HasBrochure kb)
         || negb (kb_HasPriceSheet kb) || negb (kb_HasDisclaimers kb)
      then block "rera_gate" else allow
  | _ => block "rera_gate"
  end.

Record OutreachRequest := mkOR {
  or_LeadID : string;
  or_Phone : string;
  or_Channel : Channel;
  or_AtTime : Z;
  or_CampaignID : string;
  or_CampaignType : string;
  or_CallerID : string;
  or_Holidays : list Z;
  or_WindowCfg : WindowConfig
}.

Definition is_true_ok (r : result bool) : bool := match r with Ok b => b | Err _ => false end.

(** [CheckOutreachAllowed]: a store error lets the first two gates pass. *)
Definition CheckOutreachAllowed (s : T) (req : OutreachRequest) : OutreachResult :=
  if negb (is_empty (or_Phone req)) && is_true_ok (IsSuppressed s (or_Phone req))
  then block "suppression" else
  if negb (is_empty (or_LeadID req))
     && is_true_ok (IsOptedOut s (or_LeadID req) (or_Channel req))
  then block "opt_out" else
  let r3 := if negb (is_zero (or_AtTime req))
            then CheckCallingWindow (or_AtTime req) (or_WindowCfg req) else allow in
  if negb (Allowed r3) then r3 else
  let r4 := if negb (is_zero (or_AtTime req)) && negb (bool_decide (or_Holidays req = []))
            then CheckHoliday (or_AtTime req) (or_Holidays req) else allow in
  if negb (Allowed r4) then r4 else
  let r5 := CheckTRAI (or_Channel req) (or_CampaignType req) (or_CallerID req) in
  if negb (Allowed r5) then r5 else
  let r6 := if negb (is_empty (or_CampaignID req))
               && bool_decide (or_CampaignType req = "real_estate")
            then CheckRERAGate s (or_CampaignID req) (or_CampaignType req) else allow in
  if negb (Allowed r6) then r6 else allow.

(** ** The handlers (handler.go) on decoded requests *)

Definition handleRecordConsent (s : T) (now : Z) (uid : string)
    (leadID basis source noticeVersion evidenceURL : string) : T * Z :=
  if is_empty leadID || is_empty basis then (s, 400) else
  let '(s', e) := RecordConsent s now uid
    (mkConsent "" leadID basis source noticeVersion evidenceURL time_zero false None) in
  (s', match e with None => 201 | Some _ => 500 end).

Definition handleWithdrawConsent (s : T) (now : Z) (uid uid' : string)
    (leadID channel reason : string) : T * Z :=
  if is_empty leadID || is_empty channel then (s, 400) else
  let '(s', e) := WithdrawConsent s now uid uid' leadID channel reason in
  (s', match e with None => 200 | Some _ => 500 end).

(** [atTime] is the parsed time: [None] when it was not sent, an error when it
    does not parse. *)
Definition handleCheckOutreach (s : T) (now : Z)
    (leadID phone channel : string) (atTime : result (option Z))
    (campaignID campaignType callerID : string) : result OutreachResult :=
  if is_empty leadID || is_empty channel then Err "lead_id and channel are required" else
  let? t := atTime in
  Ok (CheckOutreachAllowed s (mkOR leadID phone channel (default now t) campaignID campaignType
        callerID [] DefaultWindowConfig)).

Definition handleAddSuppression (s : T) (now : Z) (uid phone reason : string) : T * Z :=
  if is_empty phone then (s, 400) else
  let '(s', e) := AddSuppression s now uid phone reason in
  (s', match e with None => 201 | Some _ => 500 end).

Definition handleRemoveSuppression (s : T) (phone ticketID : string) : T * Z :=
  let '(s', e) := RemoveSuppression s phone ticketID in
  (s', match e with None => 200 | Some _ => 404 end).

Definition handleRequestErasure (s : T) (uid leadID : string) : T * Z :=
  if is_empty leadID then (s, 400) else
  let '(s', r) := RequestErasure s uid leadID in
  (s', match r with Ok _ => 202 | Err _ => 500 end).

(** ** Runs *)

(** The requests that change the store. *)
Inductive consent_op :=
  | OpRecord (now : Z) (uid leadID basis source notice evidence : string)
  | OpWithdraw (now : Z) (uid uid' leadID channel reason : string)
  | OpRedact (now : Z) (ledgerID : string)
  | OpSuppress (now : Z) (uid phone reason : string)
  | OpUnsuppress (phone ticketID : string)
  | OpErase (uid leadID : string).

Definition consent_step (s : T) (op : consent_op) : T :=
  match op with
  | OpRecord now uid l b src n e => (handleRecordConsent s now uid l b src n e).1
  | OpWithdraw now uid uid' l c r => (handleWithdrawConsent s now uid uid' l c r).1
  | OpRedact now id => (RedactConsentPII s now id).1
  | OpSuppress now uid p r => (handleAddSuppression s now uid p r).1
  | OpUnsuppress p t => (handleRemoveSuppression s p t).1
  | OpErase uid l => (handleRequestErasure s uid l).1
  end.

End Gates.
