(* ===== verification/ConsentSafety.v ===== *)
(** * consent-compliance: refinement and safety

    The Postgres store refines the in-memory store through the abstraction
    [abs]; the theorems about runs are proved on the abstraction. *)

From S2P Require Import Prelude GoTime Kv Consent.

Open Scope Z_scope.

(** ** Refinement *)

Definition abs (p : PgConsent.t) : FakeConsent.t :=
  FakeConsent.mk (kv_map (PgConsent.consent_ledger p)) (kv_map (PgConsent.suppressions p))
    ((fun _ => true) <$> kv_map (PgConsent.opt_outs p)) (kv_map (PgConsent.approved_kbs p))
    (kv_map (PgConsent.lead_phones p)) (kv_map (PgConsent.erasures p)).

(** Postgres answers. *)
Record pg_up (p : PgConsent.t) : Prop := {
  up_ledger : kv_up (PgConsent.consent_ledger p) = true;
  up_sup : kv_up (PgConsent.suppressions p) = true;
  up_rem : kv_up (PgConsent.suppression_removals p) = true;
  up_opt : kv_up (PgConsent.opt_outs p) = true;
  up_kbs : kv_up (PgConsent.approved_kbs p) = true;
  up_phones : kv_up (PgConsent.lead_phones p) = true;
  up_erasures : kv_up (PgConsent.erasures p) = true
}.

(** [p'] is [p] after an operation that turns its abstraction into [f]. *)
Definition refines (p' : PgConsent.t) (f : FakeConsent.t) : Prop := pg_up p' /\ abs p' = f.

Lemma record_refines p now uid r :
  pg_up p ->
  refines (RecordConsent p now uid r).1 (RecordConsent (abs p) now uid r).1 /\
  (RecordConsent p now uid r).2 = None.
Proof.
  intros Hu. cbn [RecordConsent pg_consent_store fake_consent_store].
  unfold PgConsent.recordConsent, FakeConsent.recordConsent.
  destruct (kv_set_up (PgConsent.consent_ledger p) (cr_ID (stamped now uid r)) (stamped now uid r)
    (up_ledger _ Hu)) as (s & -> & Hs & Hm).
  split; [|done]. split; [by destruct Hu; split|]. unfold abs. simpl. by rewrite Hm.
Qed.

Lemma suppress_refines p now uid phone reason :
  pg_up p ->
  refines (AddSuppression p now uid phone reason).1 (AddSuppression (abs p) now uid phone reason).1 /\
  (AddSuppression p now uid phone reason).2 = None.
Proof.
  intros Hu. cbn [AddSuppression pg_consent_store fake_consent_store].
  unfold PgConsent.addSuppression, FakeConsent.addSuppression.
  destruct (kv_set_up (PgConsent.suppressions p) phone (mkSup uid phone reason "" now)
    (up_sup _ Hu)) as (s & -> & Hs & Hm).
  split; [|done]. split; [by destruct Hu; split|]. unfold abs. simpl. by rewrite Hm.
Qed.

Lemma phone_refines p leadID : pg_up p -> GetLeadPhone p leadID = GetLeadPhone (abs p) leadID.
Proof.
  intros Hu. cbn [GetLeadPhone pg_consent_store fake_consent_store].
  unfold PgConsent.getLeadPhone, FakeConsent.getLeadPhone.
  by rewrite (kv_get_up _ _ (up_phones _ Hu)).
Qed.

Lemma withdraw_refines p now uid uid' leadID channel reason :
  pg_up p ->
  refines (WithdrawConsent p now uid uid' leadID channel reason).1
    (WithdrawConsent (abs p) now uid uid' leadID channel reason).1.
Proof.
  intros Hu. unfold WithdrawConsent. set (w := withdrawal _ _ _).
  destruct (record_refines p now uid w Hu) as [[Hu1 Ha] He].
  assert (He' : (RecordConsent (abs p) now uid w).2 = None) by done.
  destruct (RecordConsent p now uid w) as [p1 e1], (RecordConsent (abs p) now uid w) as [f1 e1'].
  simpl in Hu1, Ha, He, He'. subst e1 e1'. rewrite (phone_refines _ _ Hu1), Ha.
  destruct (GetLeadPhone _ _) as [phone|]; [|done]. destruct (is_empty phone); [done|].
  rewrite <- Ha. by apply suppress_refines.
Qed.

Lemma redact_refines p now id :
  pg_up p -> refines (RedactConsentPII p now id).1 (RedactConsentPII (abs p) now id).1.
Proof.
  intros Hu. cbn [RedactConsentPII pg_consent_store fake_consent_store].
  unfold PgConsent.redactConsentPII, FakeConsent.redactConsentPII.
  rewrite (kv_get_up _ _ (up_ledger _ Hu)). simpl.
  destruct (kv_map (PgConsent.consent_ledger p) !! id) as [r|]; [|done].
  destruct (kv_set_up (PgConsent.consent_ledger p) id (redacted now r) (up_ledger _ Hu))
    as (s & -> & Hs & Hm).
  split; [by destruct Hu; split|]. unfold abs. simpl. by rewrite Hm.
Qed.

Lemma unsuppress_refines p phone ticket :
  pg_up p -> refines (RemoveSuppression p phone ticket).1 (RemoveSuppression (abs p) phone ticket).1.
Proof.
  intros Hu. cbn [RemoveSuppression pg_consent_store fake_consent_store].
  unfold PgConsent.removeSuppression, FakeConsent.removeSuppression.
  rewrite (kv_get_up _ _ (up_sup _ Hu)). simpl.
  destruct (kv_map (PgConsent.suppressions p) !! phone) as [x|]; [|done].
  set (x' := mkSup _ _ _ _ _).
  destruct (kv_set_up (PgConsent.suppression_removals p) (su_ID x) x' (up_rem _ Hu))
    as (s & -> & Hs & _).
  destruct (kv_delete_up (PgConsent.suppressions p) phone (up_sup _ Hu)) as (d & -> & Hd & Hm).
  split; [by destruct Hu; split|]. unfold abs. simpl. by rewrite Hm.
Qed.

Lemma erase_refines p uid leadID :
  pg_up p -> refines (RequestErasure p uid leadID).1 (RequestErasure (abs p) uid leadID).1.
Proof.
  intros Hu. cbn [RequestErasure pg_consent_store fake_consent_store].
  unfold PgConsent.requestErasure, FakeConsent.requestErasure.
  destruct (kv_set_up (PgConsent.erasures p) leadID ("erasure-" ++ uid)%string (up_erasures _ Hu))
    as (s & -> & Hs & Hm).
  split; [by destruct Hu; split|]. unfold abs. simpl. by rewrite Hm.
Qed.

Lemma refines_refl p : pg_up p -> refines p (abs p).
Proof. done. Qed.

#[export] Hint Resolve record_refines suppress_refines withdraw_refines redact_refines
  unsuppress_refines erase_refines refines_refl : lead.

Lemma step_refines p op : pg_up p -> refines (consent_step p op) (consent_step (abs p) op).
Proof.
  intros Hu. destruct op; simpl consent_step;
    unfold handleRecordConsent, handleWithdrawConsent, handleAddSuppression,
      handleRemoveSuppression, handleRequestErasure.
  - destruct (_ || _); [by auto with lead|].
    set (r := mkConsent _ _ _ _ _ _ _ _ _). pose proof (record_refines p now uid r Hu) as [Hr _].
    by destruct (RecordConsent p _ _ _), (RecordConsent (abs p) _ _ _).
  - destruct (_ || _); [by auto with lead|].
    pose proof (withdraw_refines p now uid uid' leadID channel reason Hu) as Hr.
    by destruct (WithdrawConsent p _ _ _ _ _ _), (WithdrawConsent (abs p) _ _ _ _ _ _).
  - by apply redact_refines.
  - destruct (is_empty phone); [by auto with lead|].
    pose proof (suppress_refines p now uid phone reason Hu) as [Hr _].
    by destruct (AddSuppression p _ _ _ _), (AddSuppression (abs p) _ _ _ _).
  - pose proof (unsuppress_refines p phone ticketID Hu) as Hr.
    by destruct (RemoveSuppression p _ _), (RemoveSuppression (abs p) _ _).
  - destruct (is_empty leadID); [by auto with lead|].
    pose proof (erase_refines p uid leadID Hu) as Hr.
    by destruct (RequestErasure p _ _), (RequestErasure (abs p) _ _).
Qed.

Lemma run_refines ops p :
  pg_up p -> refines (foldl consent_step p ops) (foldl consent_step (abs p) ops).
Proof.
  revert p. induction ops as [|op ops IH]; intros p Hu; [done|]. simpl.
  destruct (step_refines p op Hu) as [Hu1 Ha]. rewrite <- Ha. by apply IH.
Qed.

Lemma outreach_refines p req :
  pg_up p -> CheckOutreachAllowed p req = CheckOutreachAllowed (abs p) req.
Proof.
  intros Hu. unfold CheckOutreachAllowed, CheckRERAGate.
  assert (IsSuppressed p (or_Phone req) = IsSuppressed (abs p) (or_Phone req)) as ->.
  { cbn [IsSuppressed pg_consent_store fake_consent_store]. unfold PgConsent.isSuppressed.
    by rewrite (kv_get_up _ _ (up_sup _ Hu)). }
  assert (IsOptedOut p (or_LeadID req) (or_Channel req)
    = IsOptedOut (abs p) (or_LeadID req) (or_Channel req)) as ->.
  { cbn [IsOptedOut pg_consent_store fake_consent_store].
    unfold PgConsent.isOptedOut, FakeConsent.isOptedOut.
    rewrite (kv_get_up _ _ (up_opt _ Hu)). simpl. rewrite lookup_fmap.
    by destruct (kv_map _ !! _). }
  assert (GetApprovedKB p (or_CampaignID req) = GetApprovedKB (abs p) (or_CampaignID req)) as ->.
  { cbn [GetApprovedKB pg_consent_store fake_consent_store].
    unfold PgConsent.getApprovedKB. by rewrite (kv_get_up _ _ (up_kbs _ Hu)). }
  done.
Qed.

(** C5: refinement. While Postgres answers, any sequence of consent, redaction,
    suppression and erasure requests leaves the Postgres store in a state whose
    contents are exactly the in-memory store's after the same requests, and the
    outreach gates decide the same way on both. *)
Theorem pg_consent_refines_memory p ops req :
  pg_up p ->
  abs (foldl consent_step p ops) = foldl consent_step (abs p) ops /\
  CheckOutreachAllowed (foldl consent_step p ops) req
  = CheckOutreachAllowed (foldl consent_step (abs p) ops) req.
Proof.
  intros Hu. destruct (run_refines ops p Hu) as [Hu' Ha]. split; [done|].
  by rewrite (outreach_refines _ _ Hu'), Ha.
Qed.

(** ** The gates *)

(** The gates in priority order, each with whether it blocks. *)
Definition gates {T} `{ConsentStore T} (s : T) (req : OutreachRequest) : list (string * bool) :=
  let timed := negb (is_zero (or_AtTime req)) in
  let estate := bool_decide (or_CampaignType req = "real_estate") in
  [("suppression", negb (is_empty (or_Phone req)) && is_true_ok (IsSuppressed s (or_Phone req)));
   ("opt_out", negb (is_empty (or_LeadID req))
               && is_true_ok (IsOptedOut s (or_LeadID req) (or_Channel req)));
   ("calling_window",
      let h := local_hour (WinLocation (or_WindowCfg req)) (or_AtTime req) in
      timed && negb ((StartHour (or_WindowCfg req) <=? h) && (h <? EndHour (or_WindowCfg req))));
   ("holiday",
      timed && existsb (fun h => local_day kolkata (or_AtTime req) =? local_day kolkata h)
                 (or_Holidays req));
   ("trai_140_series",
      estate && bool_decide (or_Channel req = "phone") && negb (has_prefix (or_CallerID req) "140"));
   ("rera_gate",
      estate && negb (is_empty (or_CampaignID req)) &&
      negb match GetApprovedKB s (or_CampaignID req) with
           | Ok (Some kb) => kb_Approved kb && negb (is_empty (kb_RERANumber kb))
               && kb_HasBrochure kb && kb_HasPriceSheet kb && kb_HasDisclaimers kb
           | _ => false
           end)].

Lemma trai_rera_gates {T} `{ConsentStore T} (s : T) req :
  (let r5 := CheckTRAI (or_Channel req) (or_CampaignType req) (or_CallerID req) in
   if negb (Allowed r5) then r5 else
   let r6 := if negb (is_empty (or_CampaignID req))
                && bool_decide (or_CampaignType req = "real_estate")
             then CheckRERAGate s (or_CampaignID req) (or_CampaignType req) else allow in
   if negb (Allowed r6) then r6 else allow)
  = match List.find snd (drop 4 (gates s req)) with
    | Some (reason, _) => block reason
    | None => allow
    end.
Proof.
  unfold gates, CheckTRAI, CheckRERAGate. cbn [drop List.find snd].
  case_bool_decide as Ht; cbn [andb]; [|by rewrite andb_false_r].
  destruct (bool_decide (or_Channel req = "phone") && _); [done|]. cbn [negb Allowed allow].
  rewrite andb_true_r. destruct (negb (is_empty (or_CampaignID req))); [|done]. cbn [andb negb].
  destruct (GetApprovedKB s (or_CampaignID req)) as [[kb|]|]; [|done..].
  destruct (kb_Approved kb), (is_empty (kb_RERANumber kb)), (kb_HasBrochure kb),
    (kb_HasPriceSheet kb), (kb_HasDisclaimers kb); done.
Qed.

(** [CheckOutreachAllowed] is the conjunction of the six gates, and the
    reason it gives is that of the first gate that blocks: suppression, opt-out,
    calling window, holiday, TRAI caller id, RERA knowledge base. *)
Theorem outreach_is_first_blocking_gate {T} `{ConsentStore T} (s : T) req :
  CheckOutreachAllowed s req
  = match List.find snd (gates s req) with
    | Some (reason, _) => block reason
    | None => allow
    end.
Proof.
  unfold CheckOutreachAllowed, gates. cbn [List.find snd].
  destruct (negb (is_empty (or_Phone req)) && _); [done|].
  destruct (negb (is_empty (or_LeadID req)) && _); [done|].
  unfold CheckCallingWindow.
  set (h := local_hour _ _). rewrite negb_andb, <- Z.ltb_antisym, <- Z.leb_antisym.
  destruct (negb (is_zero (or_AtTime req))); cbn [andb].
  - destruct (_ || _); [done|]. cbn [negb Allowed allow]. unfold CheckHoliday.
    assert (Hh : (if negb (bool_decide (or_Holidays req = []))
      then (if existsb (fun h0 => local_day kolkata (or_AtTime req) =? local_day kolkata h0)
              (or_Holidays req) then block "holiday" else allow) else allow)
      = if existsb (fun h0 => local_day kolkata (or_AtTime req) =? local_day kolkata h0)
          (or_Holidays req) then block "holiday" else allow).
    { case_bool_decide as E; [by rewrite E|done]. }
    rewrite Hh. destruct (existsb _ _); [done|]. cbn [negb Allowed allow].
    apply (trai_rera_gates s req).
  - cbn [negb Allowed allow]. apply (trai_rera_gates s req).
Qed.

(** ** Runs *)

Lemma withdraw_fake f now uid uid' l c r :
  let f1 := (FakeConsent.recordConsent f now uid (withdrawal l c r)).1 in
  (WithdrawConsent f now uid uid' l c r).1
  = match FakeConsent.leadPhones f !! l with
    | Some phone => if is_empty phone then f1
                    else (FakeConsent.addSuppression f1 now uid' phone ("consent_withdrawn:" ++ r)).1
    | None => f1
    end.
Proof.
  unfold WithdrawConsent. cbn [RecordConsent AddSuppression GetLeadPhone fake_consent_store].
  unfold FakeConsent.recordConsent, FakeConsent.getLeadPhone. simpl.
  destruct (FakeConsent.leadPhones f !! l) as [phone|]; [|done]. by destruct (is_empty phone).
Qed.

(** A suppressed phone stays suppressed until it is removed. *)
Lemma suppression_kept f op phone :
  is_Some (FakeConsent.suppressions f !! phone) ->
  (forall t, op <> OpUnsuppress phone t) ->
  is_Some (FakeConsent.suppressions (consent_step f op) !! phone).
Proof.
  intros Hs Hop. destruct op as [now uid l b src n e|now uid uid' l c r|now id
    |now uid ph r|ph t|uid l]; simpl.
  - unfold handleRecordConsent. by destruct (_ || _).
  - unfold handleWithdrawConsent. destruct (_ || _); [done|].
    pose proof (withdraw_fake f now uid uid' l c r) as Hw.
    destruct (WithdrawConsent _ _ _ _ _ _ _) as [f' e']. simpl in *. rewrite Hw.
    destruct (_ !! l) as [ph|]; [|done]. destruct (is_empty ph); [done|]. simpl.
    rewrite lookup_insert_is_Some'. by right.
  - unfold FakeConsent.redactConsentPII. by destruct (_ !! id).
  - unfold handleAddSuppression. destruct (is_empty ph); [done|]. simpl.
    rewrite lookup_insert_is_Some'. by right.
  - unfold handleRemoveSuppression. simpl. unfold FakeConsent.removeSuppression.
    destruct (_ !! ph); [|done]. simpl. rewrite lookup_delete_ne; [done|].
    intros ->. by destruct (Hop t).
  - unfold handleRequestErasure. by destruct (is_empty l).
Qed.

(** The gate fails open: while the store does not answer, every request (of a
    campaign that is not checked against RERA) is decided as if no phone were
    suppressed and nobody had opted out. *)
Theorem outreach_gate_fails_open p req :
  kv_up (PgConsent.suppressions p) = false -> kv_up (PgConsent.opt_outs p) = false ->
  or_CampaignType req <> "real_estate" ->
  CheckOutreachAllowed p req
  = CheckOutreachAllowed (PgConsent.mk kv_empty kv_empty kv_empty kv_empty kv_empty kv_empty
      kv_empty) req.
Proof.
  intros Hs Ho Hc. unfold CheckOutreachAllowed. simpl.
  unfold PgConsent.isSuppressed, PgConsent.isOptedOut, kv_get. rewrite Hs, Ho. simpl.
  rewrite (bool_decide_false _ Hc), !andb_false_r. done.
Qed.

(** C6: a withdrawal is effective while the store answers.  Once a lead whose
    phone is known withdraws consent, every later outreach to that phone is
    blocked as suppressed, whatever other requests are served, until the phone
    is taken off the list.  The database is up for the withdrawal, the requests
    and the decision; the gate lets everybody pass while it is down
    ([outreach_gate_fails_open]). *)
Theorem withdrawn_phone_stays_blocked p now uid uid' leadID channel reason phone ops req :
  pg_up p -> leadID <> "" -> channel <> "" ->
  GetLeadPhone p leadID = Ok phone -> phone <> "" ->
  Forall (fun op => forall t, op <> OpUnsuppress phone t) ops ->
  or_Phone req = phone ->
  CheckOutreachAllowed
    (foldl consent_step (consent_step p (OpWithdraw now uid uid' leadID channel reason)) ops) req
  = block "suppression".
Proof.
  intros Hu Hl Hc Hph Hne Hops Hreq.
  destruct (step_refines p (OpWithdraw now uid uid' leadID channel reason) Hu) as [Hu1 Ha1].
  destruct (run_refines ops _ Hu1) as [Hu2 Ha2]. rewrite (outreach_refines _ _ Hu2), Ha2, Ha1.
  assert (Hs : is_Some (FakeConsent.suppressions
    (consent_step (abs p) (OpWithdraw now uid uid' leadID channel reason)) !! phone)).
  { simpl. unfold handleWithdrawConsent, is_empty at 1 2.
    rewrite (bool_decide_false _ Hl), (bool_decide_false _ Hc). simpl.
    pose proof (withdraw_fake (abs p) now uid uid' leadID channel reason) as Hw.
    destruct (WithdrawConsent _ _ _ _ _ _ _) as [f' e']. simpl in *. rewrite Hw.
    rewrite phone_refines in Hph by done. simpl in Hph. unfold FakeConsent.getLeadPhone in Hph.
    simpl in Hph. destruct (_ !! leadID) as [ph|]; [|done]. injection Hph as ->.
    unfold is_empty. rewrite (bool_decide_false _ Hne). simpl. by rewrite lookup_insert_eq. }
  clear Ha1 Ha2 Hu2. revert Hs. generalize (consent_step (abs p)
    (OpWithdraw now uid uid' leadID channel reason)).
  induction Hops as [|op ops Hop _ IH]; intros f Hs; simpl; [|by apply IH, suppression_kept].
  unfold CheckOutreachAllowed, is_empty at 1. rewrite Hreq, (bool_decide_false _ Hne). simpl.
  by rewrite bool_decide_true.
Qed.

(** A withdrawal by a lead whose phone the service does not know is recorded
    in the ledger and changes no decision: outreach to that lead stays allowed
    on every channel. *)
Theorem withdrawal_without_phone_blocks_nothing p now uid uid' leadID channel reason req :
  pg_up p -> (forall phone, GetLeadPhone p leadID = Ok phone -> phone = "") ->
  CheckOutreachAllowed (consent_step p (OpWithdraw now uid uid' leadID channel reason)) req
  = CheckOutreachAllowed p req.
Proof.
  intros Hu Hph.
  destruct (step_refines p (OpWithdraw now uid uid' leadID channel reason) Hu) as [Hu1 Ha1].
  rewrite (outreach_refines _ _ Hu1), (outreach_refines _ _ Hu), Ha1. simpl.
  unfold handleWithdrawConsent. destruct (_ || _); [done|].
  pose proof (withdraw_fake (abs p) now uid uid' leadID channel reason) as Hw.
  destruct (WithdrawConsent _ _ _ _ _ _ _) as [f' e']. simpl in *. rewrite Hw.
  rewrite phone_refines in Hph by done. simpl in Hph. unfold FakeConsent.getLeadPhone in Hph.
  simpl in Hph. destruct (_ !! leadID) as [ph|]; [|done].
  by rewrite (Hph ph eq_refl).
Qed.

(** What a ledger entry keeps forever: everything but the evidence link, which
    can only be redacted. *)
Definition same_entry (r r' : ConsentRecord) : Prop :=
  cr_ID r' = cr_ID r /\ cr_LeadID r' = cr_LeadID r /\ cr_Basis r' = cr_Basis r /\
  cr_Source r' = cr_Source r /\ cr_NoticeVersion r' = cr_NoticeVersion r /\
  cr_CreatedAt r' = cr_CreatedAt r /\
  (cr_EvidenceURL r' = cr_EvidenceURL r /\ cr_PIIRedacted r' = cr_PIIRedacted r \/
   cr_EvidenceURL r' = "[REDACTED]" /\ cr_PIIRedacted r' = true).

(** The ids the request generates. *)
Definition fresh_for (id : string) (op : consent_op) : Prop :=
  match op with
  | OpRecord _ uid _ _ _ _ _ | OpWithdraw _ uid _ _ _ _ => uid <> id
  | _ => True
  end.

Lemma same_entry_trans r1 r2 r3 : same_entry r1 r2 -> same_entry r2 r3 -> same_entry r1 r3.
Proof. unfold same_entry. intuition congruence. Qed.

Lemma ledger_kept f op id r :
  FakeConsent.ledger f !! id = Some r -> fresh_for id op ->
  exists r', FakeConsent.ledger (consent_step f op) !! id = Some r' /\ same_entry r r'.
Proof.
  intros Hr Hf. assert (Hid : same_entry r r) by (unfold same_entry; intuition).
  destruct op as [now uid l b src n e|now uid uid' l c rs|now i|now uid ph rs|ph t|uid l]; simpl in *.
  - unfold handleRecordConsent. destruct (_ || _); [by eauto|]. simpl.
    rewrite lookup_insert_ne by done. by eauto.
  - unfold handleWithdrawConsent. destruct (_ || _); [by eauto|].
    pose proof (withdraw_fake f now uid uid' l c rs) as Hw.
    destruct (WithdrawConsent _ _ _ _ _ _ _) as [f' e']. simpl in *. rewrite Hw.
    destruct (_ !! l) as [ph|]; [destruct (is_empty ph)|]; simpl;
      rewrite lookup_insert_ne by done; by eauto.
  - unfold FakeConsent.redactConsentPII. destruct (FakeConsent.ledger f !! i) as [r0|] eqn:E;
      [|by eauto]. simpl. destruct (decide (i = id)) as [->|Hne].
    + rewrite lookup_insert_eq. eexists. split; [done|]. rewrite Hr in E. injection E as <-.
      unfold same_entry. simpl. intuition.
    + rewrite lookup_insert_ne by done. by eauto.
  - unfold handleAddSuppression. destruct (is_empty ph); by eauto.
  - unfold handleRemoveSuppression. simpl. unfold FakeConsent.removeSuppression.
    destruct (_ !! ph); by eauto.
  - unfold handleRequestErasure. destruct (is_empty l); by eauto.
Qed.

(** C10: the consent ledger is append-only. While Postgres answers, no sequence of requests (with newly
    generated ids) removes a ledger entry or changes anything in it except
    redacting its evidence link. *)
Theorem consent_ledger_is_append_only p ops id r :
  pg_up p -> kv_map (PgConsent.consent_ledger p) !! id = Some r ->
  Forall (fresh_for id) ops ->
  exists r', kv_map (PgConsent.consent_ledger (foldl consent_step p ops)) !! id = Some r' /\
    same_entry r r'.
Proof.
  intros Hu Hr Hops. destruct (run_refines ops p Hu) as [_ Ha].
  change (kv_map (PgConsent.consent_ledger (foldl consent_step p ops)))
    with (FakeConsent.ledger (abs (foldl consent_step p ops))). rewrite Ha.
  change (kv_map (PgConsent.consent_ledger p)) with (FakeConsent.ledger (abs p)) in Hr.
  clear Ha. revert Hr. generalize (abs p). revert r.
  induction Hops as [|op ops Hop _ IH]; intros r f Hr; simpl.
  { exists r. split; [done|]. unfold same_entry. intuition. }
  destruct (ledger_kept f op id r Hr Hop) as (r1 & Hr1 & Hs1).
  destruct (IH r1 _ Hr1) as (r2 & Hr2 & Hs2). exists r2. split; [done|].
  by eapply same_entry_trans.
Qed.

(** ** Witnesses *)
Module ConsentFixture.

Definition entry : ConsentRecord :=
  mkConsent "c1" "lead1" "explicit" "web" "v1" "https://evidence" hour false None.

Definition store : PgConsent.t :=
  PgConsent.mk (mkKv [("c1", entry)] true) kv_empty kv_empty kv_empty kv_empty
    (mkKv [("lead1", "+911")] true) kv_empty.

Lemma store_up : pg_up store.
Proof. by split. Qed.

(** Noon in India on 1970-01-01. *)
Definition req (lead phone : string) : OutreachRequest :=
  mkOR lead phone "phone" (13 * hour / 2) "" "" "" [] DefaultWindowConfig.

Example allowed_before : CheckOutreachAllowed store (req "lead1" "+911") = allow.
Proof. vm_compute. reflexivity. Qed.

End ConsentFixture.

Lemma pg_consent_refines_memory_witness :
  abs (foldl consent_step ConsentFixture.store
         [OpWithdraw hour "u1" "u2" "lead1" "phone" "stop"; OpUnsuppress "+911" "T-1"])
  = foldl consent_step (abs ConsentFixture.store)
      [OpWithdraw hour "u1" "u2" "lead1" "phone" "stop"; OpUnsuppress "+911" "T-1"].
Proof.
  apply (pg_consent_refines_memory ConsentFixture.store _ (ConsentFixture.req "lead1" "+911")).
  exact ConsentFixture.store_up.
Defined.

Lemma withdrawn_phone_stays_blocked_witness :
  CheckOutreachAllowed
    (foldl consent_step (consent_step ConsentFixture.store
       (OpWithdraw hour "u1" "u2" "lead1" "phone" "stop")) [OpErase "u3" "lead1"])
    (ConsentFixture.req "lead1" "+911") = block "suppression".
Proof.
  apply (withdrawn_phone_stays_blocked ConsentFixture.store hour "u1" "u2" "lead1" "phone" "stop"
    "+911" [OpErase "u3" "lead1"] (ConsentFixture.req "lead1" "+911")); try done.
  by repeat constructor.
Defined.

Lemma withdrawal_without_phone_blocks_nothing_witness :
  CheckOutreachAllowed (consent_step ConsentFixture.store
    (OpWithdraw hour "u1" "u2" "lead9" "phone" "stop")) (ConsentFixture.req "lead9" "+919")
  = CheckOutreachAllowed ConsentFixture.store (ConsentFixture.req "lead9" "+919") /\
  CheckOutreachAllowed ConsentFixture.store (ConsentFixture.req "lead9" "+919") = allow.
Proof.
  split; [|vm_compute; reflexivity].
  apply (withdrawal_without_phone_blocks_nothing ConsentFixture.store hour "u1" "u2" "lead9"
    "phone" "stop" (ConsentFixture.req "lead9" "+919")).
  - exact ConsentFixture.store_up.
  - intros phone Hp. vm_compute in Hp. discriminate Hp.
Defined.

Lemma consent_ledger_is_append_only_witness :
  exists r', kv_map (PgConsent.consent_ledger (foldl consent_step ConsentFixture.store
    [OpRedact (2 * hour) "c1"; OpWithdraw hour "u1" "u2" "lead1" "phone" "stop"])) !! "c1" = Some r' /\
    same_entry ConsentFixture.entry r'.
Proof.
  apply (consent_ledger_is_append_only ConsentFixture.store).
  - exact ConsentFixture.store_up.
  - reflexivity.
  - repeat constructor. done.
Defined.
