(* ===== verification/Campaign.v ===== *)
(** * campaign: campaigns, preflight, launch and auto-pause

    [internal/model], [internal/store], [internal/preflight],
    [internal/autopause] and [internal/campaign].  [time.Now] and generated ids
    are arguments; messages formatted from numbers are kept as constructors
    with their arguments. *)

From S2P Require Import Prelude GoTime Float64 Kv.

Open Scope Z_scope.

Definition StatusDraft : string := "draft".
Definition StatusActive : string := "active".
Definition StatusPaused : string := "paused".
Definition StatusArchived : string := "archived".
Definition StatusPreflightFailed : string := "preflight_failed".
Definition ProjectTypeRealEstate : string := "real-estate".

Record CampaignContext := mkCtx {
  ProductDescription : string;
  Offer : string;
  TalkingPoints : list string;
  ObjectionHandling : list (string * string);
  QualifyingQuestions : list string;
  Persona : string;
  DoNotSay : list string;
  Goal : string;
  CtxLanguage : string;
  BusinessHours : string
}.

Record Campaign := mkCamp {
  ca_ID : string;
  ca_Name : string;
  ca_ProjectID : string;
  ca_TenantID : string;
  ca_KbVersionID : string;
  ca_ScriptVersionID : string;
  ca_PromptVersionID : string;
  ca_SourceFilter : string;
  ca_Schedule : string;
  ca_Status : string;
  ca_PauseReason : string;
  ca_Context : CampaignContext;
  ca_CreatedAt : Z;
  ca_UpdatedAt : Z
}.

Record CampaignLead := mkCL { cl_CampaignID : string; cl_LeadID : string; cl_AttachedAt : Z }.

Record CampaignLimits := mkLim {
  li_CampaignID : string;
  li_DailyCallCap : Z;
  li_ConcurrentCap : Z;
  li_HourlyCallCap : Z;
  li_RetryMax : Z;
  li_RetryBusyMin : Z;
  li_RetryNoAnswerMin : Z;
  li_CostCapINR : float64;
  li_MaxCallSeconds : Z;
  li_CallWindowStartHour : Z;
  li_CallWindowEndHour : Z;
  li_Timezone : string;
  li_UpdatedAt : Z
}.

Record CampaignHealthSnapshot := mkSnap {
  sn_ID : string;
  sn_CampaignID : string;
  sn_ConnectRate : float64;
  sn_QualifyRate : float64;
  sn_CostBurnINR : float64;
  sn_SuppressionHitRate : float64;
  sn_HallucinationCount : Z;
  sn_ProviderFailureRate : float64;
  sn_SnapshotAt : Z
}.

Record CampaignHealth := mkHealth {
  he_CampaignID : string;
  he_ConnectRate : float64;
  he_QualifyRate : float64;
  he_CostBurnINR : float64;
  he_SuppressionHitRate : float64
}.

Record KbVersion := mkKbV {
  kv_ID : string;
  kv_Status : string;
  kv_ProjectType : string;
  kv_HasRERA : bool;
  kv_HasBrochure : bool;
  kv_HasPriceSheet : bool
}.

Record TenantStatus := mkTS { ts_Suspended : bool; ts_BillingCapINR : float64; ts_UsedINR : float64 }.

Definition no_limits (campaignID : string) : CampaignLimits :=
  mkLim campaignID 0 0 0 0 0 0 (f_of_int 0) 0 0 0 "" time_zero.

Definition no_health (campaignID : string) : CampaignHealth :=
  mkHealth campaignID (f_of_int 0) (f_of_int 0) (f_of_int 0) (f_of_int 0).

Definition health_of (s : CampaignHealthSnapshot) : CampaignHealth :=
  mkHealth (sn_CampaignID s) (sn_ConnectRate s) (sn_QualifyRate s) (sn_CostBurnINR s)
    (sn_SuppressionHitRate s).

(** The interface (store.go). *)
Class CampaignStore (T : Type) := {
  StoreCreateCampaign : T -> Z -> string -> Campaign -> T * result Campaign;
  GetCampaign : T -> string -> result Campaign;
  ListCampaigns : T -> string -> result (list Campaign);
  UpdateCampaignStatus : T -> Z -> string -> string -> string -> T * error;
  UpdateCampaignPinnedVersions : T -> Z -> string -> string -> string -> T * error;
  StoreAttachLeads : T -> Z -> string -> list string -> T * error;
  ListCampaignLeads : T -> string -> result (list CampaignLead);
  SetLimits : T -> Z -> CampaignLimits -> T * error;
  GetLimits : T -> string -> result CampaignLimits;
  RecordHealthSnapshot : T -> Z -> string -> CampaignHealthSnapshot -> T * error;
  GetLatestHealth : T -> string -> result CampaignHealth;
  GetScript : T -> string -> string -> result unit;
  GetPromptVersion : T -> string -> string -> result unit;
  GetKbVersion : T -> string -> result KbVersion;
  GetTenantStatus : T -> string -> result TenantStatus
}.

Definition with_status (c : Campaign) (status pauseReason : string) (now : Z) : Campaign :=
  mkCamp (ca_ID c) (ca_Name c) (ca_ProjectID c) (ca_TenantID c) (ca_KbVersionID c)
    (ca_ScriptVersionID c) (ca_PromptVersionID c) (ca_SourceFilter c) (ca_Schedule c) status
    pauseReason (ca_Context c) (ca_CreatedAt c) now.

Definition with_versions (c : Campaign) (script prompt : string) (now : Z) : Campaign :=
  mkCamp (ca_ID c) (ca_Name c) (ca_ProjectID c) (ca_TenantID c) (ca_KbVersionID c) script prompt
    (ca_SourceFilter c) (ca_Schedule c) (ca_Status c) (ca_PauseReason c) (ca_Context c)
    (ca_CreatedAt c) now.

(** The campaign as it is created: a new id, a draft, and its times. *)
Definition created (c : Campaign) (uid : string) (createdAt now : Z) : Campaign :=
  mkCamp (or_new (ca_ID c) uid) (ca_Name c) (ca_ProjectID c) (ca_TenantID c) (ca_KbVersionID c)
    (ca_ScriptVersionID c) (ca_PromptVersionID c) (ca_SourceFilter c) (ca_Schedule c)
    (if is_empty (ca_Status c) then StatusDraft else ca_Status c) (ca_PauseReason c)
    (ca_Context c) createdAt now.

Definition version_key (campaignID version : string) : string :=
  (campaignID ++ ":" ++ version)%string.

Definition set_limits_time (l : CampaignLimits) (now : Z) : CampaignLimits :=
  mkLim (li_CampaignID l) (li_DailyCallCap l) (li_ConcurrentCap l) (li_HourlyCallCap l)
    (li_RetryMax l) (li_RetryBusyMin l) (li_RetryNoAnswerMin l) (li_CostCapINR l)
    (li_MaxCallSeconds l) (li_CallWindowStartHour l) (li_CallWindowEndHour l) (li_Timezone l) now.

Definition stamp_snap (s : CampaignHealthSnapshot) (uid : string) (now : Z) : CampaignHealthSnapshot :=
  mkSnap (or_new (sn_ID s) uid) (sn_CampaignID s) (sn_ConnectRate s) (sn_QualifyRate s)
    (sn_CostBurnINR s) (sn_SuppressionHitRate s) (sn_HallucinationCount s)
    (sn_ProviderFailureRate s) (or_now (sn_SnapshotAt s) now).

Definition default_tenant : TenantStatus := mkTS false (f_of_int 100000) (f_of_int 0).

Definition of_tenant (tenantID : string) (c : Campaign) : bool :=
  is_empty tenantID || bool_decide (ca_TenantID c = tenantID).

(** ** In memory *)
Module FakeCamp.

Record t := mk {
  campaigns : gmap string Campaign;
  leads : gmap string (list CampaignLead);
  limits : gmap string CampaignLimits;
  healthSnapshots : gmap string (list CampaignHealthSnapshot);
  scripts : gset string;
  prompts : gset string;
  kbVersions : gmap string KbVersion;
  tenants : gmap string TenantStatus
}.

Definition set_campaigns (f : t) (m : gmap string Campaign) : t :=
  mk m (leads f) (limits f) (healthSnapshots f) (scripts f) (prompts f) (kbVersions f) (tenants f).

Definition createCampaign (f : t) (now : Z) (uid : string) (c : Campaign) : t * result Campaign :=
  let c := created c uid now now in
  (set_campaigns f (<[ca_ID c := c]> (campaigns f)), Ok c).

Definition getCampaign (f : t) (id : string) : result Campaign :=
  match campaigns f !! id with Some c => Ok c | None => Err "campaign not found" end.

Definition listCampaigns (f : t) (tenantID : string) : result (list Campaign) :=
  Ok (List.filter (of_tenant tenantID) (map_to_list (campaigns f)).*2).

Definition updateCampaignStatus (f : t) (now : Z) (id status pauseReason : string) : t * error :=
  match campaigns f !! id with
  | None => (f, Some "campaign not found")
  | Some c => (set_campaigns f (<[id := with_status c status pauseReason now]> (campaigns f)), None)
  end.

Definition updateCampaignPinnedVersions (f : t) (now : Z) (id script prompt : string) : t * error :=
  match campaigns f !! id with
  | None => (f, Some "campaign not found")
  | Some c => (set_campaigns f (<[id := with_versions c script prompt now]> (campaigns f)), None)
  end.

Definition attachLeads (f : t) (now : Z) (campaignID : string) (leadIDs : list string) : t * error :=
  let old := default [] (leads f !! campaignID) in
  (mk (campaigns f) (<[campaignID := old ++ ((fun l => mkCL campaignID l now) <$> leadIDs)]> (leads f))
     (limits f) (healthSnapshots f) (scripts f) (prompts f) (kbVersions f) (tenants f), None).

Definition listCampaignLeads (f : t) (campaignID : string) : result (list CampaignLead) :=
  Ok (default [] (leads f !! campaignID)).

Definition setLimits (f : t) (now : Z) (l : CampaignLimits) : t * error :=
  (mk (campaigns f) (leads f) (<[li_CampaignID l := set_limits_time l now]> (limits f))
     (healthSnapshots f) (scripts f) (prompts f) (kbVersions f) (tenants f), None).

Definition getLimits (f : t) (campaignID : string) : result CampaignLimits :=
  Ok (default (no_limits campaignID) (limits f !! campaignID)).

Definition recordHealthSnapshot (f : t) (now : Z) (uid : string) (s : CampaignHealthSnapshot)
    : t * error :=
  let s := stamp_snap s uid now in
  let old := default [] (healthSnapshots f !! sn_CampaignID s) in
  (mk (campaigns f) (leads f) (limits f) (<[sn_CampaignID s := old ++ [s]]> (healthSnapshots f))
     (scripts f) (prompts f) (kbVersions f) (tenants f), None).

(** The last snapshot recorded. *)
Definition getLatestHealth (f : t) (campaignID : string) : result CampaignHealth :=
  Ok (match last (default [] (healthSnapshots f !! campaignID)) with
      | Some s => health_of s
      | None => no_health campaignID
      end).

Definition getScript (f : t) (campaignID version : string) : result unit :=
  if decide (version_key campaignID version ∈ scripts f) then Ok tt else Err "script not found".

Definition getPromptVersion (f : t) (campaignID version : string) : result unit :=
  if decide (version_key campaignID version ∈ prompts f) then Ok tt else Err "prompt not found".

Definition getKbVersion (f : t) (id : string) : result KbVersion :=
  match kbVersions f !! id with Some v => Ok v | None => Err "kb version not found" end.

Definition getTenantStatus (f : t) (tenantID : string) : result TenantStatus :=
  Ok (default default_tenant (tenants f !! tenantID)).

End FakeCamp.

#[export] Instance fake_campaign_store : CampaignStore FakeCamp.t := {
  StoreCreateCampaign := FakeCamp.createCampaign;
  GetCampaign := FakeCamp.getCampaign;
  ListCampaigns := FakeCamp.listCampaigns;
  UpdateCampaignStatus := FakeCamp.updateCampaignStatus;
  UpdateCampaignPinnedVersions := FakeCamp.updateCampaignPinnedVersions;
  StoreAttachLeads := FakeCamp.attachLeads;
  ListCampaignLeads := FakeCamp.listCampaignLeads;
  SetLimits := FakeCamp.setLimits;
  GetLimits := FakeCamp.getLimits;
  RecordHealthSnapshot := FakeCamp.recordHealthSnapshot;
  GetLatestHealth := FakeCamp.getLatestHealth;
  GetScript := FakeCamp.getScript;
  GetPromptVersion := FakeCamp.getPromptVersion;
  GetKbVersion := FakeCamp.getKbVersion;
  GetTenantStatus := FakeCamp.getTenantStatus
}.

(** ** Postgres *)
Module PgCamp.

Record t := mk {
  campaigns : kv Campaign;
  campaign_leads : kv CampaignLead;
  campaign_limits : kv CampaignLimits;
  health_snapshots : kv CampaignHealthSnapshot;
  scripts : kv unit;
  prompts : kv unit;
  kb_versions : kv KbVersion;
  tenant_status : kv TenantStatus
}.

Definition set_campaigns (p : t) (c : kv Campaign) : t :=
  mk c (campaign_leads p) (campaign_limits p) (health_snapshots p) (scripts p) (prompts p)
    (kb_versions p) (tenant_status p).

Definition createCampaign (p : t) (now : Z) (uid : string) (c : Campaign) : t * result Campaign :=
  let c := created c uid (or_now (ca_CreatedAt c) now) now in
  let '(s, e) := kv_set (campaigns p) (ca_ID c) c in
  (set_campaigns p s, match e with None => Ok c | Some m => Err m end).

Definition getCampaign (p : t) (id : string) : result Campaign :=
  let? c := kv_get (campaigns p) id in
  match c with Some c => Ok c | None => Err "campaign not found" end.

Definition listCampaigns (p : t) (tenantID : string) : result (list Campaign) :=
  let? cs := kv_list (campaigns p) in Ok (List.filter (of_tenant tenantID) cs).

Definition updateCampaignStatus (p : t) (now : Z) (id status pauseReason : string) : t * error :=
  match getCampaign p id with
  | Err e => (p, Some e)
  | Ok c => let '(s, e) := kv_set (campaigns p) id (with_status c status pauseReason now) in
            (set_campaigns p s, e)
  end.

Definition updateCampaignPinnedVersions (p : t) (now : Z) (id script prompt : string) : t * error :=
  match getCampaign p id with
  | Err e => (p, Some e)
  | Ok c => let '(s, e) := kv_set (campaigns p) id (with_versions c script prompt now) in
            (set_campaigns p s, e)
  end.

(** One row per (campaign, lead); attaching a lead again replaces its row. *)
Fixpoint attach_rows (s : kv CampaignLead) (now : Z) (campaignID : string) (leadIDs : list string)
    : kv CampaignLead * error :=
  match leadIDs with
  | [] => (s, None)
  | l :: ls =>
      let '(s1, e) := kv_set s (version_key campaignID l) (mkCL campaignID l now) in
      match e with Some _ => (s1, e) | None => attach_rows s1 now campaignID ls end
  end.

Definition attachLeads (p : t) (now : Z) (campaignID : string) (leadIDs : list string) : t * error :=
  let '(s, e) := attach_rows (campaign_leads p) now campaignID leadIDs in
  (mk (campaigns p) s (campaign_limits p) (health_snapshots p) (scripts p) (prompts p)
     (kb_versions p) (tenant_status p), e).

Definition listCampaignLeads (p : t) (campaignID : string) : result (list CampaignLead) :=
  let? ls := kv_list (campaign_leads p) in
  Ok (List.filter (fun l => bool_decide (cl_CampaignID l = campaignID)) ls).

Definition setLimits (p : t) (now : Z) (l : CampaignLimits) : t * error :=
  let '(s, e) := kv_set (campaign_limits p) (li_CampaignID l) (set_limits_time l now) in
  (mk (campaigns p) (campaign_leads p) s (health_snapshots p) (scripts p) (prompts p)
     (kb_versions p) (tenant_status p), e).

Definition getLimits (p : t) (campaignID : string) : result CampaignLimits :=
  let? l := kv_get (campaign_limits p) campaignID in Ok (default (no_limits campaignID) l).

Definition recordHealthSnapshot (p : t) (now : Z) (uid : string) (s : CampaignHealthSnapshot)
    : t * error :=
  let s := stamp_snap s uid now in
  let '(h, e) := kv_set (health_snapshots p) (sn_ID s) s in
  (mk (campaigns p) (campaign_leads p) (campaign_limits p) h (scripts p) (prompts p)
     (kb_versions p) (tenant_status p), e).

(** The snapshot with the latest time, the first of them on a tie. *)
Definition later (campaignID : string) (latest : option CampaignHealthSnapshot)
    (s : CampaignHealthSnapshot) : option CampaignHealthSnapshot :=
  if negb (bool_decide (sn_CampaignID s = campaignID)) then latest else
  match latest with
  | Some l => if sn_SnapshotAt l <? sn_SnapshotAt s then Some s else latest
  | None => Some s
  end.

Definition getLatestHealth (p : t) (campaignID : string) : result CampaignHealth :=
  let? snaps := kv_list (health_snapshots p) in
  Ok (match foldl (later campaignID) None snaps with
      | Some s => health_of s
      | None => no_health campaignID
      end).

Definition getScript (p : t) (campaignID version : string) : result unit :=
  let? s := kv_get (scripts p) (version_key campaignID version) in
  match s with Some _ => Ok tt | None => Err "script not found" end.

Definition getPromptVersion (p : t) (campaignID version : string) : result unit :=
  let? s := kv_get (prompts p) (version_key campaignID version) in
  match s with Some _ => Ok tt | None => Err "prompt not found" end.

Definition getKbVersion (p : t) (id : string) : result KbVersion :=
  let? v := kv_get (kb_versions p) id in
  match v with Some v => Ok v | None => Err "kb version not found" end.

Definition getTenantStatus (p : t) (tenantID : string) : result TenantStatus :=
  let? v := kv_get (tenant_status p) tenantID in Ok (default default_tenant v).

End PgCamp.

#[export] Instance pg_campaign_store : CampaignStore PgCamp.t := {
  StoreCreateCampaign := PgCamp.createCampaign;
  GetCampaign := PgCamp.getCampaign;
  ListCampaigns := PgCamp.listCampaigns;
  UpdateCampaignStatus := PgCamp.updateCampaignStatus;
  UpdateCampaignPinnedVersions := PgCamp.updateCampaignPinnedVersions;
  StoreAttachLeads := PgCamp.attachLeads;
  ListCampaignLeads := PgCamp.listCampaignLeads;
  SetLimits := PgCamp.setLimits;
  GetLimits := PgCamp.getLimits;
  RecordHealthSnapshot := PgCamp.recordHealthSnapshot;
  GetLatestHealth := PgCamp.getLatestHealth;
  GetScript := PgCamp.getScript;
  GetPromptVersion := PgCamp.getPromptVersion;
  GetKbVersion := PgCamp.getKbVersion;
  GetTenantStatus := PgCamp.getTenantStatus
}.

(** ** Preflight, launch, pause *)

(** The problems preflight reports. *)
Inductive preflight_error :=
  | KbLookup (err : string)
  | KbNotApproved (id status : string)
  | MissingRERA
  | MissingBrochure
  | MissingPriceSheet
  | ScriptRequired
  | ScriptNotFound (v : string)
  | PromptRequired
  | PromptNotFound (v : string)
  | NoChannel
  | TenantLookup (err : string)
  | TenantSuspended
  | BillingCapReached (used cap : float64)
  | NoSchedule
  | NoCLI.

Record PreflightResult := mkPre { Passed : bool; Errors : list preflight_error }.

Section Service.
Context {T : Type} `{CampaignStore T}.

Definition when_ (b : bool) (e : preflight_error) : list preflight_error := if b then [e] else [].

(** 1: the knowledge base. *)
Definition check_kb (campaign : Campaign) (kb : result KbVersion) : list preflight_error :=
  match kb with
  | Err e => [KbLookup e]
  | Ok kb =>
      when_ (negb (bool_decide (kv_Status kb = "approved"))
             && negb (bool_decide (kv_Status kb = "published")))
        (KbNotApproved (ca_KbVersionID campaign) (kv_Status kb))
      ++ (if decide (kv_ProjectType kb = ProjectTypeRealEstate) then
            when_ (negb (kv_HasRERA kb)) MissingRERA
            ++ when_ (negb (kv_HasBrochure kb)) MissingBrochure
            ++ when_ (negb (kv_HasPriceSheet kb)) MissingPriceSheet
          else [])
  end.

(** 2: script and prompt versions. *)
Definition check_versions (s : T) (campaign : Campaign) : list preflight_error :=
  (if is_empty (ca_ScriptVersionID campaign) then [ScriptRequired]
   else when_ (negb (is_ok (GetScript s (ca_ID campaign) (ca_ScriptVersionID campaign))))
          (ScriptNotFound (ca_ScriptVersionID campaign)))
  ++ (if is_empty (ca_PromptVersionID campaign) then [PromptRequired]
      else when_ (negb (is_ok (GetPromptVersion s (ca_ID campaign) (ca_PromptVersionID campaign))))
             (PromptNotFound (ca_PromptVersionID campaign))).

(** 4: the tenant. *)
Definition check_tenant (tenant : result TenantStatus) : list preflight_error :=
  match tenant with
  | Err e => [TenantLookup e]
  | Ok t =>
      when_ (ts_Suspended t) TenantSuspended
      ++ when_ (f_lt (f_of_int 0) (ts_BillingCapINR t) && f_le (ts_BillingCapINR t) (ts_UsedINR t))
           (BillingCapReached (ts_UsedINR t) (ts_BillingCapINR t))
  end.

(** [Checker.Run]: all failures are accumulated. *)
Definition Run (s : T) (campaign : Campaign) : PreflightResult :=
  let kb := GetKbVersion s (ca_KbVersionID campaign) in
  let errs :=
    check_kb campaign kb
    ++ check_versions s campaign
    ++ when_ (is_empty (ca_SourceFilter campaign)) NoChannel
    ++ check_tenant (GetTenantStatus s (ca_TenantID campaign))
    ++ when_ (is_empty (ca_Schedule campaign)) NoSchedule
    ++ match kb with
       | Ok kb => when_ (bool_decide (kv_ProjectType kb = ProjectTypeRealEstate)
                         && is_empty (ca_SourceFilter campaign)) NoCLI
       | Err _ => []
       end in
  mkPre (bool_decide (length errs = 0%nat)) errs.

(** [Service.CreateCampaign]. *)
Definition CreateCampaign (s : T) (now : Z) (uid : string) (c : Campaign) : T * result Campaign :=
  if is_empty (ca_Name c) then (s, Err "name is required") else
  if is_empty (ca_ProjectID c) then (s, Err "project_id is required") else
  if is_empty (ca_KbVersionID c) then (s, Err "kb_version_id is required") else
  StoreCreateCampaign s now uid
    (mkCamp (ca_ID c) (ca_Name c) (ca_ProjectID c) (ca_TenantID c) (ca_KbVersionID c)
       (ca_ScriptVersionID c) (ca_PromptVersionID c) (ca_SourceFilter c) (ca_Schedule c)
       StatusDraft (ca_PauseReason c) (ca_Context c) (ca_CreatedAt c) (ca_UpdatedAt c)).

Definition AttachLeads (s : T) (now : Z) (campaignID : string) (leadIDs : list string) : T * error :=
  if decide (leadIDs = []) then (s, Some "at least one lead_id is required")
  else StoreAttachLeads s now campaignID leadIDs.

(** [Service.LaunchCampaign]; [disabled] is CAMPAIGN_PREFLIGHT_DISABLED=1. *)
Definition LaunchCampaign (disabled : bool) (s : T) (now : Z) (campaignID : string)
    : T * (option PreflightResult * error) :=
  match GetCampaign s campaignID with
  | Err e => (s, (None, Some ("get campaign: " ++ e)%string))
  | Ok campaign =>
      let result := Run s campaign in
      let result := if disabled then mkPre true [] else result in
      if negb (Passed result) then
        let '(s1, e1) := UpdateCampaignStatus s now campaignID StatusPreflightFailed
                           "preflight failed" in
        match e1 with
        | Some e => (s1, (Some result, Some ("update status: " ++ e)%string))
        | None => (s1, (Some result, Some "preflight failed"))
        end
      else
        let '(s1, e1) := UpdateCampaignPinnedVersions s now campaignID
                           (ca_ScriptVersionID campaign) (ca_PromptVersionID campaign) in
        match e1 with
        | Some e => (s1, (Some result, Some ("pin versions: " ++ e)%string))
        | None =>
            let '(s2, e2) := UpdateCampaignStatus s1 now campaignID StatusActive "" in
            match e2 with
            | Some e => (s2, (Some result, Some ("update status: " ++ e)%string))
            | None => (s2, (Some result, None))
            end
        end
  end.

Definition PauseCampaign (s : T) (now : Z) (campaignID reason : string) : T * error :=
  let reason := if is_empty reason then "manually paused" else reason in
  UpdateCampaignStatus s now campaignID StatusPaused reason.

Definition ResumeCampaign (s : T) (now : Z) (campaignID : string) : T * error :=
  UpdateCampaignStatus s now campaignID StatusActive "".

Definition ArchiveCampaign (s : T) (now : Z) (campaignID : string) : T * error :=
  UpdateCampaignStatus s now campaignID StatusArchived "".

Definition SetCampaignLimits (s : T) (now : Z) (l : CampaignLimits) : T * error :=
  if is_empty (li_CampaignID l) then (s, Some "campaign_id is required") else SetLimits s now l.

(** ** Auto-pause *)

Definition HallucinationThreshold : Z := 5.
Definition ProviderFailureThreshold : float64 := f_dec 3 1.
Definition SuppressionHitThreshold : float64 := f_dec 3 1.

Inductive pause_reason :=
  | CostCap (burn cap : float64)
  | Hallucinations (n : Z)
  | ProviderFailures (rate : float64)
  | SuppressionHits (rate : float64).

(** The reasons [EvaluateAndPause] looks at. *)
Definition pause_reason_of (limits : CampaignLimits) (health : CampaignHealth) : option pause_reason :=
  if f_lt (f_of_int 0) (li_CostCapINR limits) && f_le (li_CostCapINR limits) (he_CostBurnINR health)
  then Some (CostCap (he_CostBurnINR health) (li_CostCapINR limits))
  else if f_lt SuppressionHitThreshold (he_SuppressionHitRate health)
  then Some (SuppressionHits (he_SuppressionHitRate health))
  else None.

(** The text stored as pause reason; its numbers are not modelled. *)
Definition reason_text (r : pause_reason) : string :=
  match r with
  | CostCap _ _ => "cost cap reached"
  | Hallucinations _ => "hallucination incidents"
  | ProviderFailures _ => "provider failure rate"
  | SuppressionHits _ => "suppression hit rate"
  end.

(** [Evaluator.EvaluateAndPause]. *)
Definition EvaluateAndPause (s : T) (now : Z) (campaignID : string)
    : T * result (option pause_reason) :=
  match GetCampaign s campaignID with
  | Err e => (s, Err ("get campaign: " ++ e)%string)
  | Ok campaign =>
      if negb (bool_decide (ca_Status campaign = StatusActive)) then (s, Ok None) else
      match GetLimits s campaignID with
      | Err e => (s, Err ("get limits: " ++ e)%string)
      | Ok limits =>
          match GetLatestHealth s campaignID with
          | Err e => (s, Err ("get health: " ++ e)%string)
          | Ok health =>
              match pause_reason_of limits health with
              | None => (s, Ok None)
              | Some r =>
                  let '(s1, e1) := UpdateCampaignStatus s now campaignID StatusPaused
                                     (reason_text r) in
                  (s1, match e1 with
                       | None => Ok (Some r)
                       | Some e => Err ("pause campaign: " ++ e)%string
                       end)
              end
          end
      end
  end.

(** [CheckHealthSnapshot]: all four thresholds, in order. *)
Definition CheckHealthSnapshot (snap : CampaignHealthSnapshot) (limits : CampaignLimits)
    : option pause_reason :=
  if f_lt (f_of_int 0) (li_CostCapINR limits) && f_le (li_CostCapINR limits) (sn_CostBurnINR snap)
  then Some (CostCap (sn_CostBurnINR snap) (li_CostCapINR limits))
  else if HallucinationThreshold <? sn_HallucinationCount snap
  then Some (Hallucinations (sn_HallucinationCount snap))
  else if f_lt ProviderFailureThreshold (sn_ProviderFailureRate snap)
  then Some (ProviderFailures (sn_ProviderFailureRate snap))
  else if f_lt SuppressionHitThreshold (sn_SuppressionHitRate snap)
  then Some (SuppressionHits (sn_SuppressionHitRate snap))
  else None.

End Service.
