(* ===== verification/CampaignSafety.v ===== *)
(** * campaign: what launch, resume and auto-pause do

    Proved against [CampaignLaws], which both stores satisfy. *)

From S2P Require Import Prelude GoTime Float64 Kv Campaign.

Open Scope Z_scope.

(** What the service relies on: campaigns can be read back, and an update
    changes one campaign only.  [cs_ok] is when the store answers. *)
Class CampaignLaws (T : Type) `{CampaignStore T} := {
  cs_ok : T -> Prop;
  cs_camp : T -> string -> option Campaign;
  cs_get s id :
    cs_ok s -> GetCampaign s id
      = match cs_camp s id with Some c => Ok c | None => Err "campaign not found" end;
  cs_status s now id st r c :
    cs_ok s -> cs_camp s id = Some c ->
    let s' := (UpdateCampaignStatus s now id st r).1 in
    (UpdateCampaignStatus s now id st r).2 = None /\ cs_ok s' /\
    forall id', cs_camp s' id'
      = if decide (id = id') then Some (with_status c st r now) else cs_camp s id';
  cs_pin s now id sv pv c :
    cs_ok s -> cs_camp s id = Some c ->
    let s' := (UpdateCampaignPinnedVersions s now id sv pv).1 in
    (UpdateCampaignPinnedVersions s now id sv pv).2 = None /\ cs_ok s' /\
    forall id', cs_camp s' id'
      = if decide (id = id') then Some (with_versions c sv pv now) else cs_camp s id'
}.

#[export] Program Instance fake_campaign_laws : CampaignLaws FakeCamp.t := {
  cs_ok _ := True;
  cs_camp f id := FakeCamp.campaigns f !! id
}.
Next Obligation. done. Qed.
Next Obligation.
  intros f now id st r c _ Hc. simpl in *. unfold FakeCamp.updateCampaignStatus. rewrite Hc.
  split_and!; [done..|]. intros id'. simpl. by rewrite lookup_insert.
Qed.
Next Obligation.
  intros f now id sv pv c _ Hc. simpl in *. unfold FakeCamp.updateCampaignPinnedVersions.
  rewrite Hc. split_and!; [done..|]. intros id'. simpl. by rewrite lookup_insert.
Qed.

#[export] Program Instance pg_campaign_laws : CampaignLaws PgCamp.t := {
  cs_ok p := kv_up (PgCamp.campaigns p) = true;
  cs_camp p id := kv_map (PgCamp.campaigns p) !! id
}.
Next Obligation.
  intros p id Hu. simpl. unfold PgCamp.getCampaign. by rewrite (kv_get_up _ _ Hu).
Qed.
Next Obligation.
  intros p now id st r c Hu Hc. simpl in *. unfold PgCamp.updateCampaignStatus, PgCamp.getCampaign.
  rewrite (kv_get_up _ _ Hu), Hc.
  destruct (kv_set_up (PgCamp.campaigns p) id (with_status c st r now) Hu) as (s & -> & Hs & Hm).
  split_and!; [done..|]. intros id'. simpl. by rewrite Hm, lookup_insert.
Qed.
Next Obligation.
  intros p now id sv pv c Hu Hc. simpl in *.
  unfold PgCamp.updateCampaignPinnedVersions, PgCamp.getCampaign.
  rewrite (kv_get_up _ _ Hu), Hc.
  destruct (kv_set_up (PgCamp.campaigns p) id (with_versions c sv pv now) Hu) as (s & -> & Hs & Hm).
  split_and!; [done..|]. intros id'. simpl. by rewrite Hm, lookup_insert.
Qed.

(** ** Preflight *)

Lemma when_nil b e : when_ b e = [] <-> b = false.
Proof. by destruct b. Qed.

Lemma check_kb_nil c kb :
  check_kb c kb = [] <->
  exists v, kb = Ok v /\ (kv_Status v = "approved" \/ kv_Status v = "published") /\
    (kv_ProjectType v = ProjectTypeRealEstate ->
     kv_HasRERA v = true /\ kv_HasBrochure v = true /\ kv_HasPriceSheet v = true).
Proof.
  destruct kb as [v|e]; simpl; [|split; [done|by intros (? & ? & _)]].
  rewrite app_nil, when_nil, <- negb_orb, negb_false_iff, orb_true_iff, !bool_decide_eq_true.
  split.
  - intros [Hs Hr]. exists v. split_and!; [done..|]. intros Ht. rewrite decide_True in Hr by done.
    rewrite !app_nil, !when_nil, !negb_false_iff in Hr. tauto.
  - intros (v' & [= <-] & Hs & Hr). split; [done|]. case_decide as Ht; [|done].
    destruct (Hr Ht) as (-> & -> & ->). done.
Qed.

Lemma check_versions_nil {T} `{CampaignStore T} (s : T) c :
  check_versions s c = [] <->
  (ca_ScriptVersionID c <> "" /\ is_ok (GetScript s (ca_ID c) (ca_ScriptVersionID c)) = true) /\
  (ca_PromptVersionID c <> "" /\ is_ok (GetPromptVersion s (ca_ID c) (ca_PromptVersionID c)) = true).
Proof.
  unfold check_versions, is_empty. rewrite app_nil.
  do 2 case_bool_decide; rewrite ?when_nil, ?negb_false_iff; intuition done.
Qed.

Lemma check_tenant_nil t :
  check_tenant t = [] <->
  exists v, t = Ok v /\ ts_Suspended v = false /\
    f_lt (f_of_int 0) (ts_BillingCapINR v) && f_le (ts_BillingCapINR v) (ts_UsedINR v) = false.
Proof.
  destruct t as [v|e]; cbn [check_tenant]; [|split; [done|by intros (? & ? & _)]].
  rewrite app_nil, !when_nil. split; [by eauto|]. by intros (v' & [= <-] & ? & ?).
Qed.

(** Preflight is complete. [Run] passes exactly when the knowledge base is
    approved or published (with RERA number, brochure and price sheet for a
    real-estate project), the script and prompt versions are set and exist, a
    source filter and a schedule are set, and the tenant is known, not
    suspended and below its billing cap; otherwise it reports an error. *)
Theorem preflight_passes_iff_ready {T} `{CampaignStore T} (s : T) c :
  (Passed (Run s c) = true <-> Errors (Run s c) = []) /\
  (Passed (Run s c) = true <->
    (exists v, GetKbVersion s (ca_KbVersionID c) = Ok v /\
      (kv_Status v = "approved" \/ kv_Status v = "published") /\
      (kv_ProjectType v = ProjectTypeRealEstate ->
       kv_HasRERA v = true /\ kv_HasBrochure v = true /\ kv_HasPriceSheet v = true)) /\
    (ca_ScriptVersionID c <> "" /\ is_ok (GetScript s (ca_ID c) (ca_ScriptVersionID c)) = true) /\
    (ca_PromptVersionID c <> "" /\
     is_ok (GetPromptVersion s (ca_ID c) (ca_PromptVersionID c)) = true) /\
    ca_SourceFilter c <> "" /\ ca_Schedule c <> "" /\
    (exists v, GetTenantStatus s (ca_TenantID c) = Ok v /\ ts_Suspended v = false /\
      f_lt (f_of_int 0) (ts_BillingCapINR v) && f_le (ts_BillingCapINR v) (ts_UsedINR v) = false)).
Proof.
  assert (Hp : Passed (Run s c) = true <-> Errors (Run s c) = []).
  { unfold Run. simpl. rewrite bool_decide_eq_true, length_zero_iff_nil. done. }
  split; [done|]. rewrite Hp. unfold Run. simpl.
  rewrite !app_nil, check_kb_nil, check_versions_nil, check_tenant_nil, !when_nil.
  unfold is_empty. rewrite !bool_decide_eq_false. split; [tauto|].
  intros (Hkb & Hs & Hpv & Hf & Hsch & Ht). split_and!; try tauto.
  destruct (GetKbVersion _ _); [|done]. by rewrite (bool_decide_false _ Hf), andb_false_r.
Qed.

(** ** Launch and resume *)

Section Launch.
Context {T : Type} `{CampaignLaws T}.
Implicit Types (s : T).

(** A launch activates a campaign only through preflight. When preflight
    passes, the campaign becomes active with its script and prompt versions
    pinned and no pause reason; when it fails, the launch reports the failure
    and the campaign is marked as such; no other campaign changes. *)
Theorem launch_activates_only_after_preflight s now id c :
  cs_ok s -> cs_camp s id = Some c ->
  let '(s', (res, err)) := LaunchCampaign false s now id in
  res = Some (Run s c) /\
  (forall id', id' <> id -> cs_camp s' id' = cs_camp s id') /\
  if Passed (Run s c)
  then err = None /\ cs_camp s' id = Some (with_status
         (with_versions c (ca_ScriptVersionID c) (ca_PromptVersionID c) now) StatusActive "" now)
  else err = Some "preflight failed" /\
       cs_camp s' id = Some (with_status c StatusPreflightFailed "preflight failed" now).
Proof.
  intros Hok Hc. unfold LaunchCampaign. rewrite (cs_get s id Hok), Hc.
  destruct (Passed (Run s c)) eqn:Hp; cbn [negb]; rewrite ?Hp; cbn [negb].
  - destruct (cs_pin s now id (ca_ScriptVersionID c) (ca_PromptVersionID c) c Hok Hc)
      as (He1 & Hok1 & Hc1).
    destruct (UpdateCampaignPinnedVersions _ _ _ _ _) as [s1 e1]. simpl in *. subst e1.
    assert (Hc1' := Hc1 id). rewrite decide_True in Hc1' by done.
    destruct (cs_status s1 now id StatusActive "" _ Hok1 Hc1') as (He2 & _ & Hc2).
    destruct (UpdateCampaignStatus _ _ _ _ _) as [s2 e2]. simpl in *. subst e2.
    split_and!; [done| |done|by rewrite Hc2, decide_True].
    intros id' Hne. by rewrite Hc2, Hc1, !decide_False by congruence.
  - destruct (cs_status s now id StatusPreflightFailed "preflight failed" c Hok Hc)
      as (He1 & _ & Hc1).
    destruct (UpdateCampaignStatus _ _ _ _ _) as [s1 e1]. simpl in *. subst e1.
    split_and!; [done| |done|by rewrite Hc1, decide_True].
    intros id' Hne. by rewrite Hc1, decide_False by congruence.
Qed.

(** Resume has no guard. Whatever the campaign's status and preflight
    result, [ResumeCampaign] succeeds and makes it active: a draft, archived or
    preflight-failed campaign can be activated without any check. *)
Theorem resume_activates_without_checks s now id c :
  cs_ok s -> cs_camp s id = Some c ->
  let '(s', err) := ResumeCampaign s now id in
  err = None /\ cs_camp s' id = Some (with_status c StatusActive "" now).
Proof.
  intros Hok Hc. unfold ResumeCampaign.
  destruct (cs_status s now id StatusActive "" c Hok Hc) as (He & _ & Hc').
  destruct (UpdateCampaignStatus _ _ _ _ _) as [s' e]. simpl in *. subst e.
  by rewrite Hc', decide_True.
Qed.

(** Auto-pause. For an active campaign whose latest snapshot is [snap],
    [EvaluateAndPause] acts on the cost cap and on the suppression rate exactly
    as [CheckHealthSnapshot] does, pausing the campaign with that reason; the
    hallucination and provider-failure thresholds, which [CheckHealthSnapshot]
    also has, are not evaluated. *)
Theorem autopause_checks_cost_and_suppression_only s now id c limits snap :
  cs_ok s -> cs_camp s id = Some c -> ca_Status c = StatusActive ->
  GetLimits s id = Ok limits -> GetLatestHealth s id = Ok (health_of snap) ->
  let decision :=
    match CheckHealthSnapshot snap limits with
    | Some (Hallucinations _) | Some (ProviderFailures _) =>
        if f_lt SuppressionHitThreshold (sn_SuppressionHitRate snap)
        then Some (SuppressionHits (sn_SuppressionHitRate snap)) else None
    | r => r
    end in
  (EvaluateAndPause s now id).2 = Ok decision /\
  cs_camp (EvaluateAndPause s now id).1 id
  = Some match decision with
         | Some r => with_status c StatusPaused (reason_text r) now
         | None => c
         end.
Proof.
  intros Hok Hc Ha Hl Hh decision. unfold EvaluateAndPause.
  rewrite (cs_get s id Hok), Hc, Ha, Hl, Hh. cbn [negb bool_decide].
  rewrite bool_decide_true by done. cbn [negb].
  assert (Hd : pause_reason_of limits (health_of snap) = decision).
  { unfold decision, pause_reason_of, CheckHealthSnapshot. simpl.
    destruct (_ && _); [done|]. destruct (HallucinationThreshold <? _); [done|].
    destruct (f_lt ProviderFailureThreshold _); [done|].
    by destruct (f_lt SuppressionHitThreshold _). }
  rewrite Hd. destruct decision as [r|]; [|done].
  destruct (cs_status s now id StatusPaused (reason_text r) c Hok Hc) as (He & _ & Hc').
  destruct (UpdateCampaignStatus _ _ _ _ _) as [s' e]. simpl in *. subst e.
  by rewrite Hc', decide_True.
Qed.
End Launch.

(** ** Witnesses *)
Module CampaignFixture.

Definition ctx : CampaignContext := mkCtx "" "" [] [] [] "" [] "" "" "".

Definition camp (status : string) : Campaign :=
  mkCamp "c1" "Launch" "p1" "t1" "kb1" "s1" "v1" "phone" "10-19" status "" ctx 0 0.

Definition store (kbstatus status : string) : PgCamp.t :=
  PgCamp.mk (mkKv [("c1", camp status)] true) kv_empty kv_empty
    (mkKv [("h1", mkSnap "h1" "c1" (f_of_int 0) (f_of_int 0) (f_of_int 10) (f_of_int 0) 9
             (f_of_int 0) hour)] true)
    (mkKv [("c1:s1", tt)] true) (mkKv [("c1:v1", tt)] true)
    (mkKv [("kb1", mkKbV "kb1" kbstatus ProjectTypeRealEstate true true true)] true) kv_empty.

End CampaignFixture.

Lemma launch_activates_only_after_preflight_witness :
  let s := CampaignFixture.store "approved" StatusDraft in
  Passed (Run s (CampaignFixture.camp StatusDraft)) = true /\
  (LaunchCampaign false s hour "c1").2.1 = Some (Run s (CampaignFixture.camp StatusDraft)).
Proof.
  intros s. split; [vm_compute; reflexivity|].
  pose proof (launch_activates_only_after_preflight s hour "c1" (CampaignFixture.camp StatusDraft)
    eq_refl eq_refl) as Hl.
  destruct (LaunchCampaign false s hour "c1") as [s' [res err]]. by destruct Hl as [-> _].
Defined.

Lemma resume_activates_without_checks_witness :
  let s := CampaignFixture.store "draft" StatusArchived in
  Passed (Run s (CampaignFixture.camp StatusArchived)) = false /\
  (ResumeCampaign s hour "c1").2 = None.
Proof.
  intros s. split; [vm_compute; reflexivity|].
  pose proof (resume_activates_without_checks s hour "c1" (CampaignFixture.camp StatusArchived)
    eq_refl eq_refl) as Hl.
  destruct (ResumeCampaign s hour "c1") as [s' err]. by destruct Hl as [-> _].
Defined.

Lemma autopause_checks_cost_and_suppression_only_witness :
  let s := CampaignFixture.store "approved" StatusActive in
  let snap := mkSnap "h1" "c1" (f_of_int 0) (f_of_int 0) (f_of_int 10) (f_of_int 0) 9
                (f_of_int 0) hour in
  CheckHealthSnapshot snap (no_limits "c1") = Some (Hallucinations 9) /\
  (EvaluateAndPause s (2 * hour) "c1").2 = Ok None.
Proof.
  intros s snap. split; [vm_compute; reflexivity|].
  refine (eq_trans (proj1 (autopause_checks_cost_and_suppression_only s (2 * hour) "c1"
    (CampaignFixture.camp StatusActive) (no_limits "c1") snap _ _ _ _ _)) _);
    vm_compute; reflexivity.
Defined.
