(* ===== verification/Billing.v ===== *)
(** * billing-meter: usage, cost, caps and signals

    [internal/model], [internal/pricing], [internal/store],
    [internal/service] and the JetStream consumer of [cmd/server].  Amounts are
    [float64] as in the code; [time.Now] is an argument. *)

From S2P Require Import Prelude GoTime Float64 Kv.
From stdpp Require Import pretty.
From Stdlib Require Import SpecFloat.

Open Scope Z_scope.

Definition UsageCallCompleted : string := "call.completed".
Definition UsageWhatsApp : string := "whatsapp.delivered".
Definition UsageTTS : string := "tts.generated".
Definition UsageSTT : string := "stt.processed".
Definition UsageLLM : string := "llm.completion".

Record UsageEvent := mkUsage {
  us_ID : string;
  us_TenantID : string;
  us_CampaignID : string;
  us_Type : string;
  us_Quantity : Z;
  us_Unit : string;
  us_Provider : string;
  us_Category : string;
  us_OccurredAt : Z;
  us_IdempotencyKey : string
}.

Record CostEvent := mkCost {
  co_ID : string;
  co_TenantID : string;
  co_CampaignID : string;
  co_UsageEventID : string;
  co_Type : string;
  co_Quantity : Z;
  co_Unit : string;
  co_UnitCostINR : float64;
  co_TotalINR : float64;
  co_CreatedAt : Z
}.

Record Summary := mkSummary {
  sm_ScopeID : string;
  sm_ScopeType : string;
  sm_UsageCount : Z;
  sm_TotalCostINR : float64
}.

Record Caps := mkCaps {
  cp_TenantID : string;
  cp_CampaignID : string;
  cp_MonthlyINR : float64;
  cp_MaxCallSeconds : Z
}.

Definition no_caps : Caps := mkCaps "" "" (f_of_int 0) 0.

Record CreditLedgerEntry := mkCredit {
  le_ID : string;
  le_TenantID : string;
  le_AmountINR : float64;
  le_Reason : string;
  le_CreatedAt : Z
}.

(** The payload maps of the signals the service sends. *)
Inductive payload :=
  | CapPayload (used_inr cap_inr : float64)
  | CutoffPayload (max_call_seconds actual_seconds : Z).

Record Signal := mkSignal {
  sg_ID : string;
  sg_TenantID : string;
  sg_CampaignID : string;
  sg_Type : string;
  sg_Payload : payload;
  sg_CreatedAt : Z
}.

(** ** Pricing (pricing.go) *)

(** [math.Ceil] followed by the conversion to [int64]. *)
Definition f_ceil_int (f : float64) : Z :=
  match f with
  | S754_zero _ => 0
  | S754_finite s m e =>
      let v := if 0 <=? e then (if s then - (Zpos m * 2 ^ e) else Zpos m * 2 ^ e)
               else if s then - (Zpos m / 2 ^ (- e)) else - (- Zpos m / 2 ^ (- e)) in
      if (- 2^63 <=? v) && (v <? 2^63) then v else int_indefinite
  | _ => int_indefinite
  end.

Definition RoundPlivoSeconds (seconds : Z) : Z :=
  if seconds <=? 0 then 0
  else wrap64 (f_ceil_int (f_div (f_of_int seconds) (f_of_int 60)) * 60).

(** The per-minute price: the exact constant sum 0.80 + 0.35 + 0.05. *)
Definition call_per_minute : float64 := f_dec 12 1.

Definition CallCostINR (seconds : Z) : Z * float64 :=
  let billedSeconds := RoundPlivoSeconds seconds in
  let minutes := f_div (f_of_int billedSeconds) (f_of_int 60) in
  (billedSeconds, f_mul minutes call_per_minute).

Definition WhatsAppCostINR (category : string) : float64 :=
  if decide (category = "marketing") then f_dec 78 2
  else if decide (category = "utility") then f_dec 35 2
  else if decide (category = "authentication") then f_dec 28 2
  else f_dec 35 2.

Definition TTSPerCharacterINR : float64 := f_dec 8 5.
Definition STTPerSecondINR : float64 := f_dec 4 3.
Definition LLMPerTokenINR : float64 := f_dec 6 4.

(** ** The store interface *)

Class BillingStore (T : Type) := {
  RecordUsageCost : T -> Z -> UsageEvent -> CostEvent -> T * result bool;
  GetSummary : T -> string -> string -> result Summary;
  StoreSetCaps : T -> Caps -> T * error;
  GetCaps : T -> string -> string -> result Caps;
  StoreAddCredit : T -> Z -> CreditLedgerEntry -> T * result CreditLedgerEntry;
  GetBalance : T -> string -> result float64;
  AddSignal : T -> Z -> Signal -> T * error;
  ListSignals : T -> string -> result (list Signal);
  ListCostEvents : T -> string -> result (list CostEvent)
}.

Definition capKey (tenantID campaignID : string) : string :=
  if negb (is_empty campaignID) then ("campaign:" ++ campaignID)%string
  else ("tenant:" ++ tenantID)%string.

(** A cost event as it is stored. *)
Definition stored_cost (c : CostEvent) (id usageID : string) (now : Z) : CostEvent :=
  mkCost (or_new (co_ID c) id) (co_TenantID c) (co_CampaignID c) usageID (co_Type c)
    (co_Quantity c) (co_Unit c) (co_UnitCostINR c) (co_TotalINR c) (or_now (co_CreatedAt c) now).

Definition stored_signal (s : Signal) (id : string) (now : Z) : Signal :=
  mkSignal (or_new (sg_ID s) id) (sg_TenantID s) (sg_CampaignID s) (sg_Type s) (sg_Payload s)
    (or_now (sg_CreatedAt s) now).

Definition stored_credit (e : CreditLedgerEntry) (id : string) (now : Z) : CreditLedgerEntry :=
  mkCredit (or_new (le_ID e) id) (le_TenantID e) (le_AmountINR e) (le_Reason e)
    (or_now (le_CreatedAt e) now).

(** Adding one cost to a summary. *)
Definition add_cost (s : Summary) (c : CostEvent) : Summary :=
  mkSummary (sm_ScopeID s) (sm_ScopeType s) (wrap64 (sm_UsageCount s + 1))
    (f_add (sm_TotalCostINR s) (co_TotalINR c)).

Definition zero_summary (scopeType scopeID : string) : Summary :=
  mkSummary scopeID scopeType 0 (f_of_int 0).

Definition in_scope (scopeType scopeID : string) (c : CostEvent) : bool :=
  if decide (scopeType = "campaign") then bool_decide (co_CampaignID c = scopeID)
  else bool_decide (co_TenantID c = scopeID).

(** The summary of a scope recomputed from the cost events. *)
Definition summarize (scopeType scopeID : string) (costs : list CostEvent) : Summary :=
  foldl add_cost (zero_summary scopeType scopeID)
    (List.filter (in_scope scopeType scopeID) costs).

Definition of_tenant_id (tenantID : string) (id : string) : bool :=
  is_empty tenantID || bool_decide (id = tenantID).

(** ** In memory *)
Module FakeBill.

Record t := mk {
  seq : Z;
  idempotency : gset string;
  costEvents : list CostEvent;
  tenantSummary : gmap string Summary;
  campaignSummary : gmap string Summary;
  caps : gmap string Caps;
  credits : gmap string float64;
  signals : list Signal
}.

Definition NewFake : t := mk 0 ∅ [] ∅ ∅ ∅ ∅ [].

(** [fmt.Sprintf("%s-%06d", prefix, n)]. *)
Definition nextID (prefix : string) (n : Z) : string :=
  let d := pretty n in
  (prefix ++ "-" ++ String.concat "" (replicate (6 - String.length d) "0") ++ d)%string.

Definition addSummary (dst : gmap string Summary) (id scopeType : string) (c : CostEvent)
    : gmap string Summary :=
  <[id := add_cost (default (zero_summary scopeType id) (dst !! id)) c]> dst.

Definition recordUsageCost (f : t) (now : Z) (usage : UsageEvent) (cost : CostEvent)
    : t * result bool :=
  if negb (is_empty (us_IdempotencyKey usage))
     && bool_decide (us_IdempotencyKey usage ∈ idempotency f)
  then (f, Ok false) else
  let keys := if is_empty (us_IdempotencyKey usage) then idempotency f
              else {[us_IdempotencyKey usage]} ∪ idempotency f in
  let '(usageID, n1) := if is_empty (us_ID usage) then (nextID "usage" (seq f + 1), seq f + 1)
                        else (us_ID usage, seq f) in
  let '(costID, n2) := if is_empty (co_ID cost) then (nextID "cost" (n1 + 1), n1 + 1)
                       else (co_ID cost, n1) in
  let c := stored_cost cost costID usageID now in
  (mk n2 keys (costEvents f ++ [c]) (addSummary (tenantSummary f) (us_TenantID usage) "tenant" c)
     (if is_empty (us_CampaignID usage) then campaignSummary f
      else addSummary (campaignSummary f) (us_CampaignID usage) "campaign" c)
     (caps f) (credits f) (signals f), Ok true).

Definition getSummary (f : t) (scopeType scopeID : string) : result Summary :=
  let src := if decide (scopeType = "campaign") then campaignSummary f else tenantSummary f in
  Ok (default (mkSummary scopeID scopeType 0 (f_of_int 0)) (src !! scopeID)).

Definition setCaps (f : t) (c : Caps) : t * error :=
  (mk (seq f) (idempotency f) (costEvents f) (tenantSummary f) (campaignSummary f)
     (<[capKey (cp_TenantID c) (cp_CampaignID c) := c]> (caps f)) (credits f) (signals f), None).

Definition getCaps (f : t) (tenantID campaignID : string) : result Caps :=
  Ok (default no_caps (caps f !! capKey tenantID campaignID)).

Definition addCredit (f : t) (now : Z) (e : CreditLedgerEntry) : t * result CreditLedgerEntry :=
  let '(id, n) := if is_empty (le_ID e) then (nextID "credit" (seq f + 1), seq f + 1)
                  else (le_ID e, seq f) in
  let e := stored_credit e id now in
  (mk n (idempotency f) (costEvents f) (tenantSummary f) (campaignSummary f) (caps f)
     (<[le_TenantID e := f_add (default (f_of_int 0) (credits f !! le_TenantID e))
                           (le_AmountINR e)]> (credits f)) (signals f), Ok e).

Definition getBalance (f : t) (tenantID : string) : result float64 :=
  Ok (default (f_of_int 0) (credits f !! tenantID)).

Definition addSignal (f : t) (now : Z) (s : Signal) : t * error :=
  let '(id, n) := if is_empty (sg_ID s) then (nextID "signal" (seq f + 1), seq f + 1)
                  else (sg_ID s, seq f) in
  (mk n (idempotency f) (costEvents f) (tenantSummary f) (campaignSummary f) (caps f)
     (credits f) (signals f ++ [stored_signal s id now]), None).

Definition listSignals (f : t) (tenantID : string) : result (list Signal) :=
  Ok (List.filter (fun s => of_tenant_id tenantID (sg_TenantID s)) (signals f)).

Definition listCostEvents (f : t) (tenantID : string) : result (list CostEvent) :=
  Ok (List.filter (fun c => of_tenant_id tenantID (co_TenantID c)) (costEvents f)).

End FakeBill.

#[export] Instance fake_billing_store : BillingStore FakeBill.t := {
  RecordUsageCost := FakeBill.recordUsageCost;
  GetSummary := FakeBill.getSummary;
  StoreSetCaps := FakeBill.setCaps;
  GetCaps := FakeBill.getCaps;
  StoreAddCredit := FakeBill.addCredit;
  GetBalance := FakeBill.getBalance;
  AddSignal := FakeBill.addSignal;
  ListSignals := FakeBill.listSignals;
  ListCostEvents := FakeBill.listCostEvents
}.

(** ** Postgres *)
Module PgBill.

(** [ids n] is the [n]-th id [pgkv.NewID] returns, [next] how many it returned. *)
Record t := mk {
  idempotency_keys : kv unit;
  usage_events : kv UsageEvent;
  cost_events : kv CostEvent;
  caps : kv Caps;
  credits : kv CreditLedgerEntry;
  signals : kv Signal;
  ids : nat -> string;
  next : nat
}.

Definition newID (p : t) (prefix : string) (n : nat) : string := (prefix ++ "-" ++ ids p n)%string.

Definition stored_usage (u : UsageEvent) (id : string) (now : Z) : UsageEvent :=
  mkUsage (or_new (us_ID u) id) (us_TenantID u) (us_CampaignID u) (us_Type u) (us_Quantity u)
    (us_Unit u) (us_Provider u) (us_Category u) (or_now (us_OccurredAt u) now)
    (us_IdempotencyKey u).

(** Storing the usage and then its cost, after the idempotency key. *)
Definition put_usage (p : t) (now : Z) (usage : UsageEvent) (cost : CostEvent) : t * result bool :=
  let n1 := if is_empty (us_ID usage) then S (next p) else next p in
  let usage := stored_usage usage (newID p "usage" (next p)) now in
  let n2 := if is_empty (co_ID cost) then S n1 else n1 in
  let cost := stored_cost cost (newID p "cost" n1) (us_ID usage) now in
  let '(u, e1) := kv_set (usage_events p) (us_ID usage) usage in
  let p1 := mk (idempotency_keys p) u (cost_events p) (caps p) (credits p) (signals p) (ids p) n2 in
  match e1 with
  | Some e => (p1, Err e)
  | None =>
      let '(c, e2) := kv_set (cost_events p) (co_ID cost) cost in
      (mk (idempotency_keys p) u c (caps p) (credits p) (signals p) (ids p) n2,
       match e2 with Some e => Err e | None => Ok true end)
  end.

Definition recordUsageCost (p : t) (now : Z) (usage : UsageEvent) (cost : CostEvent)
    : t * result bool :=
  if is_empty (us_IdempotencyKey usage) then put_usage p now usage cost else
  match kv_insert (idempotency_keys p) (us_IdempotencyKey usage) tt with
  | Err e => (p, Err e)
  | Ok (k, inserted) =>
      let p1 := mk k (usage_events p) (cost_events p) (caps p) (credits p) (signals p) (ids p)
                  (next p) in
      if inserted then put_usage p1 now usage cost else (p1, Ok false)
  end.

Definition getSummary (p : t) (scopeType scopeID : string) : result Summary :=
  let? costs := kv_list (cost_events p) in Ok (summarize scopeType scopeID costs).

Definition setCaps (p : t) (c : Caps) : t * error :=
  let '(s, e) := kv_set (caps p) (capKey (cp_TenantID c) (cp_CampaignID c)) c in
  (mk (idempotency_keys p) (usage_events p) (cost_events p) s (credits p) (signals p) (ids p)
     (next p), e).

Definition getCaps (p : t) (tenantID campaignID : string) : result Caps :=
  let? c := kv_get (caps p) (capKey tenantID campaignID) in Ok (default no_caps c).

Definition addCredit (p : t) (now : Z) (e : CreditLedgerEntry) : t * result CreditLedgerEntry :=
  let n := if is_empty (le_ID e) then S (next p) else next p in
  let e := stored_credit e (newID p "credit" (next p)) now in
  let '(s, err) := kv_set (credits p) (le_ID e) e in
  (mk (idempotency_keys p) (usage_events p) (cost_events p) (caps p) s (signals p) (ids p) n,
   match err with Some m => Err m | None => Ok e end).

Definition getBalance (p : t) (tenantID : string) : result float64 :=
  let? cs := kv_list (credits p) in
  Ok (foldl (fun b c => f_add b (le_AmountINR c)) (f_of_int 0)
        (List.filter (fun c => bool_decide (le_TenantID c = tenantID)) cs)).

Definition addSignal (p : t) (now : Z) (s : Signal) : t * error :=
  let n := if is_empty (sg_ID s) then S (next p) else next p in
  let s := stored_signal s (newID p "signal" (next p)) now in
  let '(k, e) := kv_set (signals p) (sg_ID s) s in
  (mk (idempotency_keys p) (usage_events p) (cost_events p) (caps p) (credits p) k (ids p) n, e).

Definition listSignals (p : t) (tenantID : string) : result (list Signal) :=
  let? items := kv_list (signals p) in
  Ok (List.filter (fun s => of_tenant_id tenantID (sg_TenantID s)) items).

Definition listCostEvents (p : t) (tenantID : string) : result (list CostEvent) :=
  let? items := kv_list (cost_events p) in
  Ok (List.filter (fun c => of_tenant_id tenantID (co_TenantID c)) items).

End PgBill.

#[export] Instance pg_billing_store : BillingStore PgBill.t := {
  RecordUsageCost := PgBill.recordUsageCost;
  GetSummary := PgBill.getSummary;
  StoreSetCaps := PgBill.setCaps;
  GetCaps := PgBill.getCaps;
  StoreAddCredit := PgBill.addCredit;
  GetBalance := PgBill.getBalance;
  AddSignal := PgBill.addSignal;
  ListSignals := PgBill.listSignals;
  ListCostEvents := PgBill.listCostEvents
}.

(** ** The service (service.go) *)

Section Service.
Context {T : Type} `{BillingStore T}.

Definition costFor (now : Z) (usage : UsageEvent) : CostEvent :=
  let mk q unit uc total :=
    mkCost "" (us_TenantID usage) (us_CampaignID usage) "" (us_Type usage) q unit uc total now in
  let metered unit price :=
    let qty := Z.max 1 (us_Quantity usage) in mk qty unit price (f_mul (f_of_int qty) price) in
  if decide (us_Type usage = UsageCallCompleted) then
    let '(billed, total) := CallCostINR (us_Quantity usage) in
    mk billed "second" (f_div total (f_of_int (Z.max 1 billed))) total
  else if decide (us_Type usage = UsageWhatsApp) then
    metered "message" (WhatsAppCostINR (us_Category usage))
  else if decide (us_Type usage = UsageTTS) then metered "character" TTSPerCharacterINR
  else if decide (us_Type usage = UsageSTT) then metered "second" STTPerSecondINR
  else if decide (us_Type usage = UsageLLM) then metered "token" LLMPerTokenINR
  else mk 0 "" (f_of_int 0) (f_of_int 0).

(** The signals of a cap, in order. *)
Definition cap_signals (now : Z) (tenantID campaignID : string) (capINR usedINR : float64)
    : list Signal :=
  let sig ty := mkSignal "" tenantID campaignID ty (CapPayload usedINR capINR) now in
  (if f_le (f_mul capINR (f_dec 80 2)) usedINR then [sig "billing.cap.warning"] else [])
  ++ (if f_le capINR usedINR then [sig "tenant.cap.reached"; sig "campaign.auto_pause.requested"]
      else []).

(** Storing signals until one fails. *)
Fixpoint add_signals (s : T) (now : Z) (sigs : list Signal) : T * error :=
  match sigs with
  | [] => (s, None)
  | x :: xs =>
      let '(s1, e) := AddSignal s now x in
      match e with Some _ => (s1, e) | None => add_signals s1 now xs end
  end.

Definition emitCapSignals (s : T) (now : Z) (tenantID campaignID : string)
    (capINR usedINR : float64) : T * error :=
  add_signals s now (cap_signals now tenantID campaignID capINR usedINR).

(** Errors of the reads are ignored: they count as no cap or an empty summary. *)
Definition caps_of (s : T) (tenantID campaignID : string) : Caps :=
  match GetCaps s tenantID campaignID with Ok c => c | Err _ => no_caps end.
Definition total_of (s : T) (scopeType scopeID : string) : float64 :=
  match GetSummary s scopeType scopeID with Ok x => sm_TotalCostINR x | Err _ => f_of_int 0 end.

Definition eval_scope (s : T) (now : Z) (c : Caps) (scopeType scopeID tenantID campaignID : string)
    : T * error :=
  if f_lt (f_of_int 0) (cp_MonthlyINR c)
  then emitCapSignals s now tenantID campaignID (cp_MonthlyINR c) (total_of s scopeType scopeID)
  else (s, None).

Definition evaluateCaps (s : T) (now : Z) (usage : UsageEvent) : T * error :=
  let t := us_TenantID usage in
  let '(s1, e1) := eval_scope s now (caps_of s t "") "tenant" t t "" in
  match e1 with
  | Some _ => (s1, e1)
  | None =>
      if is_empty (us_CampaignID usage) then (s1, None) else
      let c := us_CampaignID usage in
      eval_scope s1 now (caps_of s1 t c) "campaign" c t c
  end.

Definition evaluateRuntimeCutoff (s : T) (now : Z) (usage : UsageEvent) : T * error :=
  let c := caps_of s (us_TenantID usage) (us_CampaignID usage) in
  if (0 <? cp_MaxCallSeconds c) && (cp_MaxCallSeconds c <? us_Quantity usage) then
    AddSignal s now (mkSignal "" (us_TenantID usage) (us_CampaignID usage) "call.cutoff"
      (CutoffPayload (cp_MaxCallSeconds c) (us_Quantity usage)) now)
  else (s, None).

(** [Service.RecordUsage]. *)
Definition RecordUsage (s : T) (now : Z) (usage : UsageEvent) : T * result CostEvent :=
  if is_empty (us_TenantID usage) || is_empty (us_Type usage)
  then (s, Err "tenant_id and type are required") else
  let usage := mkUsage (us_ID usage) (us_TenantID usage) (us_CampaignID usage) (us_Type usage)
    (us_Quantity usage) (us_Unit usage) (us_Provider usage) (us_Category usage)
    (or_now (us_OccurredAt usage) now) (us_IdempotencyKey usage) in
  let cost := costFor now usage in
  let '(s1, r) := RecordUsageCost s now usage cost in
  match r with
  | Err e => (s1, Err e)
  | Ok false => (s1, Ok cost)
  | Ok true =>
      let '(s2, e2) := evaluateCaps s1 now usage in
      match e2 with
      | Some e => (s2, Err e)
      | None =>
          if decide (us_Type usage = UsageCallCompleted) then
            let '(s3, e3) := evaluateRuntimeCutoff s2 now usage in
            (s3, match e3 with Some e => Err e | None => Ok cost end)
          else (s2, Ok cost)
      end
  end.

Definition Charge (s : T) (now : Z) (tenantID : string) (amount : float64) (reason : string)
    : T * result CreditLedgerEntry :=
  StoreAddCredit s now (mkCredit "" tenantID (SFopp amount) reason now).

Definition AddCredit (s : T) (now : Z) (tenantID : string) (amount : float64) (reason : string)
    : T * result CreditLedgerEntry :=
  StoreAddCredit s now (mkCredit "" tenantID amount reason now).

(** ** The consumer (consumer.go) *)

(** The parsed part of a message; [None] is a message that does not parse. *)
Record callEvent := mkCallEvent {
  ce_SessionID : string;
  ce_TenantID : string;
  ce_CampaignID : string;
  ce_Provider : string;
  ce_DurationS : Z;
  ce_EndedAt : Z
}.

(** [handleUsage]: the answer [None] acknowledges the message. *)
Definition handleUsage (s : T) (now : Z) (usageType : string) (ev : option callEvent) : T * error :=
  match ev with
  | None => (s, None)
  | Some ev =>
      let usage := mkUsage (ce_SessionID ev) (ce_TenantID ev) (ce_CampaignID ev) usageType
        (ce_DurationS ev) "seconds" (ce_Provider ev) "" (ce_EndedAt ev) "" in
      if is_empty (us_TenantID usage) then (s, None) else
      let '(s1, r) := RecordUsage s now usage in
      (s1, match r with Ok _ => None | Err e => Some e end)
  end.

End Service.
