(* ===== verification/BillingSafety.v ===== *)
(** * billing-meter: rounding, idempotency, totals *)

From S2P Require Import Prelude GoTime Float64 Kv Billing.
From stdpp Require Import pretty.

Open Scope Z_scope.

(** ** Rounding *)

(** A ceiling in fixed point: [k / 2^D] rounds up to [n] when it lies in
    [(n - 1, n]]. *)
Lemma ceil_unique n k D : 0 <= D -> (n - 1) * 2 ^ D < k <= n * 2 ^ D -> - (- k / 2 ^ D) = n.
Proof.
  intros HD Hk. pose proof (Z.pow_pos_nonneg 2 D).
  enough (- n = - k / 2 ^ D) by lia.
  apply (Z.div_unique_pos _ _ _ (n * 2 ^ D - k)); lia.
Qed.

(** The floating-point division by 60 rounds, but never across an integer. *)
Lemma ceil_minutes s :
  0 < s < 2 ^ 40 -> f_ceil_int (f_div (f_of_int s) (f_of_int 60)) = (s + 59) / 60.
Proof.
  intros Hs. destruct (f_div_60 s Hs) as (k & e & d & q & -> & He & Hd & Hq & Hn & Hx).
  unfold f_ceil_int. replace (0 <=? e + d) with false by lia.
  set (n := (s + 59) / 60). set (N := 2 ^ (- e)) in *.
  assert (HN : 2 ^ 19 <= N) by (apply Z.pow_le_mono_r; lia).
  assert (HNd : N = 2 ^ (- (e + d)) * 2 ^ d) by (rewrite <- Z.pow_add_r by lia; f_equal; lia).
  pose proof (Z.div_mod (s + 59) 60). pose proof (Z.mod_pos_bound (s + 59) 60).
  assert (Hb : (n - 1) * N < q <= n * N).
  { pose proof (Z.div_mod s 60). pose proof (Z.mod_pos_bound s 60).
    destruct (decide (s mod 60 = 0)) as [Hz|Hz].
    - rewrite Hx by done. assert (s / 60 = n) as -> by lia. lia.
    - assert (60 * n - 59 <= s <= 60 * n - 1) by lia.
      pose proof (Z.div_mod (s * N) 60). pose proof (Z.mod_pos_bound (s * N) 60). nia. }
  pose proof (Z.pow_pos_nonneg 2 d).
  rewrite (ceil_unique n) by (try lia; rewrite Hq, HNd in Hb; nia).
  replace (_ && _) with true; [done|]. symmetry. apply andb_true_iff.
  split; [apply Z.leb_le|apply Z.ltb_lt]; lia.
Qed.

(** C35: calls are billed by started minutes. For every duration below 2^40
    seconds the floating-point rounding of [RoundPlivoSeconds] is exact: the
    billed seconds are the least multiple of 60 that is not below the duration. *)
Theorem calls_are_billed_by_started_minutes s :
  0 <= s < 2 ^ 40 ->
  RoundPlivoSeconds s = 60 * ((s + 59) / 60) /\ s <= RoundPlivoSeconds s < s + 60.
Proof.
  intros Hs. pose proof (Z.div_mod (s + 59) 60). pose proof (Z.mod_pos_bound (s + 59) 60).
  assert (Hr : RoundPlivoSeconds s = 60 * ((s + 59) / 60)).
  { unfold RoundPlivoSeconds. destruct (s <=? 0) eqn:E; go_bool.
    - by replace s with 0 by lia.
    - rewrite ceil_minutes by lia. unfold wrap64. rewrite Z.mod_small; lia. }
  rewrite Hr. lia.
Qed.

Lemma calls_are_billed_by_started_minutes_witness :
  RoundPlivoSeconds 61 = 120 /\ CallCostINR 61 = (120, f_dec 24 1).
Proof.
  split; [|vm_compute; reflexivity].
  apply (calls_are_billed_by_started_minutes 61). lia.
Defined.

(** ** What the service leaves alone *)

Section PgFrame.
Implicit Types (p : PgBill.t).

(** The collections that record usage are unchanged, and ids only advance. *)
Record same_usage p p' : Prop := {
  su_keys : PgBill.idempotency_keys p' = PgBill.idempotency_keys p;
  su_usage : PgBill.usage_events p' = PgBill.usage_events p;
  su_costs : PgBill.cost_events p' = PgBill.cost_events p;
  su_ids : PgBill.ids p' = PgBill.ids p;
  su_next : (PgBill.next p <= PgBill.next p')%nat
}.

Lemma same_usage_refl p : same_usage p p.
Proof. by split. Qed.

Lemma same_usage_trans p1 p2 p3 : same_usage p1 p2 -> same_usage p2 p3 -> same_usage p1 p3.
Proof. intros [] []. split; [congruence..|lia]. Qed.

Lemma addSignal_same p now s : same_usage p (PgBill.addSignal p now s).1.
Proof.
  unfold PgBill.addSignal. destruct (kv_set _ _ _). split; try done. simpl.
  destruct (is_empty _); lia.
Qed.

Lemma add_signals_same sigs p now : same_usage p (add_signals p now sigs).1.
Proof.
  revert p. induction sigs as [|s sigs IH]; intros p; simpl; [apply same_usage_refl|].
  pose proof (addSignal_same p now s) as Hs.
  destruct (PgBill.addSignal p now s) as [p1 [e|]]; [done|].
  eapply same_usage_trans; [exact Hs|apply IH].
Qed.

Lemma eval_scope_same p now c st si t ca : same_usage p (eval_scope p now c st si t ca).1.
Proof. unfold eval_scope. destruct (f_lt _ _); [apply add_signals_same|apply same_usage_refl]. Qed.

Lemma evaluateCaps_same p now u : same_usage p (evaluateCaps p now u).1.
Proof.
  unfold evaluateCaps.
  pose proof (eval_scope_same p now (caps_of p (us_TenantID u) "") "tenant" (us_TenantID u)
    (us_TenantID u) "") as H1.
  destruct (eval_scope p _ _ _ _ _ _) as [p1 [e|]]; [done|].
  destruct (is_empty _); [done|]. eapply same_usage_trans; [exact H1|apply eval_scope_same].
Qed.

Lemma cutoff_same p now u : same_usage p (evaluateRuntimeCutoff p now u).1.
Proof.
  unfold evaluateRuntimeCutoff. destruct (_ && _); [apply addSignal_same|apply same_usage_refl].
Qed.

(** The usage event as [RecordUsage] passes it on. *)
Definition timed (now : Z) (u : UsageEvent) : UsageEvent :=
  mkUsage (us_ID u) (us_TenantID u) (us_CampaignID u) (us_Type u) (us_Quantity u) (us_Unit u)
    (us_Provider u) (us_Category u) (or_now (us_OccurredAt u) now) (us_IdempotencyKey u).

(** After the store step, only signals are added. *)
Lemma RecordUsage_store p now u :
  us_TenantID u <> "" -> us_Type u <> "" ->
  let '(p1, r) := PgBill.recordUsageCost p now (timed now u) (costFor now (timed now u)) in
  same_usage p1 (RecordUsage p now u).1 /\
  (r = Ok false -> RecordUsage p now u = (p1, Ok (costFor now (timed now u)))) /\
  (forall e, r = Err e -> RecordUsage p now u = (p1, Err e)).
Proof.
  intros Ht Hy. unfold RecordUsage, is_empty.
  rewrite (bool_decide_false _ Ht), (bool_decide_false _ Hy). cbn [orb].
  change (mkUsage _ _ _ _ _ _ _ _ _ _) with (timed now u).
  cbn [RecordUsageCost pg_billing_store].
  destruct (PgBill.recordUsageCost p now _ _) as [p1 [[]|e]].
  - split_and!; [|done|done].
    pose proof (evaluateCaps_same p1 now (timed now u)) as Hc.
    destruct (evaluateCaps p1 now (timed now u)) as [p2 [e2|]]; [done|].
    case_decide; [|done]. pose proof (cutoff_same p2 now (timed now u)) as Hr.
    destruct (evaluateRuntimeCutoff p2 now (timed now u)) as [p3 e3]. simpl in *.
    by eapply same_usage_trans.
  - split_and!; [apply same_usage_refl|done|done].
  - split_and!; [apply same_usage_refl|done|]. by intros e' [= ->].
Qed.
End PgFrame.

(** ** Idempotency keys *)

Section Keys.
Implicit Types (p : PgBill.t).

Definition claimed p (k : string) : Prop := is_Some (kv_map (PgBill.idempotency_keys p) !! k).

Lemma put_usage_keys p now u c :
  PgBill.idempotency_keys (PgBill.put_usage p now u c).1 = PgBill.idempotency_keys p.
Proof.
  unfold PgBill.put_usage. destruct (kv_set (PgBill.usage_events p) _ _) as [x [e|]]; [done|].
  by destruct (kv_set (PgBill.cost_events p) _ _).
Qed.

(** Keys stay claimed, and the key of the event is claimed afterwards. *)
Lemma recordUsageCost_keys p now u c :
  kv_up (PgBill.idempotency_keys p) = true ->
  let p1 := (PgBill.recordUsageCost p now u c).1 in
  kv_up (PgBill.idempotency_keys p1) = true /\
  (forall k, claimed p k -> claimed p1 k) /\
  (us_IdempotencyKey u <> "" -> claimed p1 (us_IdempotencyKey u)).
Proof.
  intros Hu. unfold PgBill.recordUsageCost, claimed, is_empty. case_bool_decide as Hk.
  { rewrite put_usage_keys. by split_and!. }
  destruct (kv_insert_up (PgBill.idempotency_keys p) (us_IdempotencyKey u) tt Hu)
    as (s & -> & Hs & Hm).
  assert (Hkeys : forall k, is_Some (kv_map (PgBill.idempotency_keys p) !! k) \/ k = us_IdempotencyKey u ->
    is_Some (kv_map s !! k)).
  { intros k Hk'. rewrite Hm. destruct (kv_map (PgBill.idempotency_keys p) !! us_IdempotencyKey u)
      as [[]|] eqn:E.
    - destruct Hk' as [?| ->]; [done|]. by rewrite E.
    - rewrite lookup_insert_is_Some'. destruct Hk' as [?| ->]; auto. }
  destruct (bool_decide _); cbn [fst]; rewrite ?put_usage_keys; simpl; split_and!; auto.
Qed.

Lemma RecordUsage_keys p now u :
  kv_up (PgBill.idempotency_keys p) = true ->
  let p1 := (RecordUsage p now u).1 in
  kv_up (PgBill.idempotency_keys p1) = true /\ (forall k, claimed p k -> claimed p1 k).
Proof.
  intros Hu. destruct (decide (us_TenantID u = "" \/ us_Type u = "")) as [Hv|Hv].
  { unfold RecordUsage, is_empty. destruct Hv as [-> | ->]; [done|].
    by rewrite orb_true_r. }
  pose proof (RecordUsage_store p now u) as Hr.
  pose proof (recordUsageCost_keys p now (timed now u) (costFor now (timed now u)) Hu) as Hk.
  destruct (PgBill.recordUsageCost p now _ _) as [p1 r].
  destruct Hr as ([Hsk _ _ _ _] & _); [tauto..|]. unfold claimed in *. simpl in *.
  rewrite Hsk. tauto.
Qed.

Lemma runs_keep_keys (us : list (Z * UsageEvent)) p k :
  kv_up (PgBill.idempotency_keys p) = true -> claimed p k ->
  let p' := foldl (fun p x => (RecordUsage p x.1 x.2).1) p us in
  kv_up (PgBill.idempotency_keys p') = true /\ claimed p' k.
Proof.
  revert p. induction us as [|[now u] us IH]; intros p Hu Hk; [done|]. simpl.
  destruct (RecordUsage_keys p now u Hu) as [Hu1 Hk1]. by apply IH; [|apply Hk1].
Qed.

(** A usage event whose key is claimed changes nothing. *)
Lemma RecordUsage_replay p now u :
  us_TenantID u <> "" -> us_Type u <> "" -> us_IdempotencyKey u <> "" ->
  kv_up (PgBill.idempotency_keys p) = true -> claimed p (us_IdempotencyKey u) ->
  RecordUsage p now u = (p, Ok (costFor now (timed now u))).
Proof.
  intros Ht Hy Hk Hu Hc. pose proof (RecordUsage_store p now u Ht Hy) as Hr.
  assert (Hrec : PgBill.recordUsageCost p now (timed now u) (costFor now (timed now u))
    = (p, Ok false)).
  { unfold PgBill.recordUsageCost, is_empty, kv_insert. cbn [timed us_IdempotencyKey].
    rewrite (bool_decide_false _ Hk), Hu. destruct Hc as [x Hx]. rewrite kv_map_lookup in Hx.
    rewrite Hx. by destruct p. }
  rewrite Hrec in Hr. by apply Hr.
Qed.

(** C33: a usage event with an idempotency key is billed at most once. Once it
    has been accepted, reporting it again, after any other usage, answers with
    its cost and leaves the store untouched: no second cost event, no signal.
    The collection of keys answers. *)
Theorem usage_is_billed_once p now u p1 c us now' :
  us_IdempotencyKey u <> "" -> kv_up (PgBill.idempotency_keys p) = true ->
  RecordUsage p now u = (p1, Ok c) ->
  let p2 := foldl (fun p x => (RecordUsage p x.1 x.2).1) p1 us in
  RecordUsage p2 now' u = (p2, Ok (costFor now' (timed now' u))).
Proof.
  intros Hk Hu Hr p2.
  assert (Hv : us_TenantID u <> "" /\ us_Type u <> "").
  { unfold RecordUsage, is_empty in Hr. do 2 case_bool_decide; done. }
  pose proof (RecordUsage_store p now u (proj1 Hv) (proj2 Hv)) as Hs.
  destruct (recordUsageCost_keys p now (timed now u) (costFor now (timed now u)) Hu)
    as (Hu1 & _ & Hk1). destruct (PgBill.recordUsageCost p now _ _) as [p0 r].
  destruct Hs as ([Hsk _ _ _ _] & _). rewrite Hr in Hsk. simpl in *.
  assert (Hc1 : claimed p1 (us_IdempotencyKey u)) by (unfold claimed; rewrite Hsk; by apply Hk1).
  destruct (runs_keep_keys us p1 (us_IdempotencyKey u)) as [Hu2 Hc2]; [by rewrite Hsk|done|].
  apply RecordUsage_replay; tauto.
Qed.

(** A usage event can be lost. The idempotency key is claimed before the
    event is written, so when that write fails the call reports an error, and
    the retry of the same event, with the database back, is taken for a
    duplicate: it is answered with a cost that is never recorded. *)
Theorem failed_write_loses_usage p now u now' p2 :
  us_TenantID u <> "" -> us_Type u <> "" -> us_IdempotencyKey u <> "" ->
  kv_up (PgBill.idempotency_keys p) = true -> ~ claimed p (us_IdempotencyKey u) ->
  kv_up (PgBill.usage_events p) = false ->
  let '(p1, r) := RecordUsage p now u in
  is_ok r = false /\ PgBill.cost_events p1 = PgBill.cost_events p /\
  (PgBill.idempotency_keys p2 = PgBill.idempotency_keys p1 ->
   RecordUsage p2 now' u = (p2, Ok (costFor now' (timed now' u)))).
Proof.
  intros Ht Hy Hk Hu Hn Hd. pose proof (RecordUsage_store p now u Ht Hy) as Hr.
  pose proof (recordUsageCost_keys p now (timed now u) (costFor now (timed now u)) Hu)
    as (Hu1 & _ & Hk1).
  assert (Hrec : exists k e, PgBill.recordUsageCost p now (timed now u) (costFor now (timed now u))
    = (k, Err e) /\ PgBill.cost_events k = PgBill.cost_events p).
  { unfold PgBill.recordUsageCost, is_empty. cbn [timed us_IdempotencyKey].
    rewrite (bool_decide_false _ Hk).
    destruct (kv_insert_up (PgBill.idempotency_keys p) (us_IdempotencyKey u) tt Hu)
      as (s & -> & _ & _).
    assert (E : kv_map (PgBill.idempotency_keys p) !! us_IdempotencyKey u = None)
      by (by apply eq_None_not_Some). rewrite (bool_decide_true _ E).
    unfold PgBill.put_usage, kv_set at 1, kv_put. simpl. rewrite Hd. eauto. }
  destruct Hrec as (k & e & Hrec & Hcost). rewrite Hrec in Hr, Hu1, Hk1. simpl in Hu1, Hk1.
  destruct Hr as (_ & _ & Hr). rewrite (Hr e eq_refl). split_and!; [done|done|].
  intros Hsame. apply RecordUsage_replay; [done..| |].
  - by rewrite Hsame.
  - unfold claimed in *. rewrite Hsame. by apply Hk1.
Qed.
End Keys.

(** ** Redelivered messages *)

Section Redelivery.
Implicit Types (p : PgBill.t).

(** The usage tables answer, generated ids are distinct, and the stored cost
    events carry generated ids. *)
Record billing_ok p : Prop := {
  bo_usage : kv_up (PgBill.usage_events p) = true;
  bo_costs : kv_up (PgBill.cost_events p) = true;
  bo_inj i j : PgBill.ids p i = PgBill.ids p j -> i = j;
  bo_ids k : k ∈ (kv_rows (PgBill.cost_events p)).*1 ->
    exists i, (i < PgBill.next p)%nat /\ k = PgBill.newID p "cost" i
}.

Definition cost_count p : nat := length (kv_rows (PgBill.cost_events p)).

Lemma costFor_ID now u : co_ID (costFor now u) = "".
Proof.
  unfold costFor. destruct (CallCostINR _). repeat case_decide; done.
Qed.

Lemma newID_inj p q i j :
  PgBill.ids q = PgBill.ids p -> (forall i j, PgBill.ids p i = PgBill.ids p j -> i = j) ->
  PgBill.newID p "cost" i = PgBill.newID q "cost" j -> i = j.
Proof.
  intros Hq Hinj Hid. unfold PgBill.newID in Hid. rewrite Hq in Hid. apply Hinj.
  do 2 apply (inj (String.append _)) in Hid. done.
Qed.

Lemma put_usage_count p now u c :
  billing_ok p -> co_ID c = "" ->
  let p1 := (PgBill.put_usage p now u c).1 in
  billing_ok p1 /\ cost_count p1 = S (cost_count p).
Proof.
  intros [Hu Hc Hinj Hids] Hid. unfold PgBill.put_usage.
  set (n1 := if is_empty (us_ID u) then S (PgBill.next p) else PgBill.next p).
  assert (Hn1 : (PgBill.next p <= n1)%nat) by (unfold n1; destruct (is_empty _); lia).
  set (u' := PgBill.stored_usage _ _ _). set (c' := stored_cost _ _ _ _).
  assert (Hc' : co_ID c' = PgBill.newID p "cost" n1) by (simpl; by rewrite Hid).
  unfold kv_set, kv_put. rewrite Hu, Hc, Hid. cbn [is_empty fst].
  assert (Hfresh : rows_get (co_ID c') (kv_rows (PgBill.cost_events p)) = None).
  { apply rows_get_None. intros (i & Hi & Hk)%Hids. rewrite Hc' in Hk.
    apply (newID_inj p p) in Hk; [lia|done|done]. }
  split.
  - split; simpl; [done..|]. fold (co_ID c'). intros k Hk. rewrite rows_put_keys in Hk.
    simpl in Hfresh. rewrite Hfresh in Hk. apply elem_of_app in Hk as [Hk|Hk].
    + destruct (Hids k Hk) as (i & Hi & ->). exists i. split; [lia|done].
    + apply list_elem_of_singleton in Hk as ->. exists n1. split; [lia|]. exact Hc'.
  - unfold cost_count. simpl. rewrite <- !(length_fmap fst), rows_put_keys.
    simpl in Hfresh. rewrite Hfresh, length_app. simpl. lia.
Qed.

Lemma handleUsage_count p now ty ev :
  billing_ok p -> ce_TenantID ev <> "" -> ty <> "" ->
  let p1 := (handleUsage p now ty (Some ev)).1 in
  billing_ok p1 /\ cost_count p1 = S (cost_count p).
Proof.
  intros Hok Ht Hy. unfold handleUsage. cbn [us_TenantID]. unfold is_empty.
  rewrite (bool_decide_false _ Ht). set (u := mkUsage _ _ _ _ _ _ _ _ _ _).
  pose proof (RecordUsage_store p now u Ht Hy) as Hr.
  pose proof (put_usage_count p now (timed now u) (costFor now (timed now u)) Hok
    (costFor_ID _ _)) as Hp.
  change (PgBill.recordUsageCost p now (timed now u) (costFor now (timed now u)))
    with (PgBill.put_usage p now (timed now u) (costFor now (timed now u))) in Hr.
  destruct (PgBill.put_usage _ _ _ _) as [p0 r]. destruct Hp as [[? ? Hi Hk] Hn].
  destruct Hr as ([_ Hsu Hsc Hsi Hsn] & _).
  destruct (RecordUsage p now u) as [p1 r1]. simpl in *. split.
  - split; rewrite ?Hsu, ?Hsc, ?Hsi; [done..|]. intros k Hin. destruct (Hk k Hin) as (i & Hlt & ->).
    exists i. split; [lia|]. unfold PgBill.newID. by rewrite Hsi.
  - unfold cost_count in *. by rewrite Hsc.
Qed.

(** A redelivered message is billed again. The JetStream consumer sets no
    idempotency key, so when the same [call.completed] (or WhatsApp) message is
    delivered twice, the tenant is charged for two cost events. *)
Theorem redelivered_message_is_billed_again p now now' ty ev :
  billing_ok p -> ce_TenantID ev <> "" -> ty <> "" ->
  let p1 := (handleUsage p now ty (Some ev)).1 in
  let p2 := (handleUsage p1 now' ty (Some ev)).1 in
  cost_count p2 = (cost_count p + 2)%nat.
Proof.
  intros Hok Ht Hy p1 p2.
  destruct (handleUsage_count p now ty ev Hok Ht Hy) as [Hok1 Hn1].
  destruct (handleUsage_count p1 now' ty ev Hok1 Ht Hy) as [_ Hn2].
  fold p1 in Hn1. fold p2 in Hn2. lia.
Qed.
End Redelivery.

(** ** Running totals *)

Section Totals.
Implicit Types (f : FakeBill.t).

Record totals_inv f : Prop := {
  ti_tenant id : default (zero_summary "tenant" id) (FakeBill.tenantSummary f !! id)
    = summarize "tenant" id (FakeBill.costEvents f);
  ti_campaign id : id <> "" ->
    default (zero_summary "campaign" id) (FakeBill.campaignSummary f !! id)
    = summarize "campaign" id (FakeBill.costEvents f)
}.

Lemma summarize_snoc st id costs c :
  summarize st id (costs ++ [c])
  = if in_scope st id c then add_cost (summarize st id costs) c else summarize st id costs.
Proof.
  unfold summarize. rewrite List.filter_app, foldl_app. simpl. by destruct (in_scope st id c).
Qed.

Lemma addSummary_lookup dst key st c id :
  default (zero_summary st id) (FakeBill.addSummary dst key st c !! id)
  = if decide (key = id) then add_cost (default (zero_summary st id) (dst !! id)) c
    else default (zero_summary st id) (dst !! id).
Proof.
  unfold FakeBill.addSummary. case_decide; subst.
  - by rewrite lookup_insert_eq.
  - by rewrite lookup_insert_ne.
Qed.

Lemma recordUsageCost_totals f now u c :
  co_TenantID c = us_TenantID u -> co_CampaignID c = us_CampaignID u ->
  totals_inv f -> totals_inv (FakeBill.recordUsageCost f now u c).1.
Proof.
  intros Ht Hc [H1 H2]. unfold FakeBill.recordUsageCost.
  destruct (_ && _); [by split|].
  destruct (if is_empty (us_ID u) then _ else _) as [uid n1].
  destruct (if is_empty (co_ID c) then _ else _) as [cid n2]. split; simpl.
  - intros id. rewrite addSummary_lookup, summarize_snoc, H1. unfold in_scope. simpl.
    rewrite Ht. repeat case_decide; case_bool_decide; done.
  - intros id Hid. rewrite summarize_snoc. unfold in_scope. rewrite decide_True by done. simpl.
    rewrite Hc. unfold is_empty. case_bool_decide as He.
    + rewrite He, bool_decide_false by congruence. by apply H2.
    + rewrite addSummary_lookup, H2 by done. case_decide; case_bool_decide; done.
Qed.

Lemma addSignal_totals f now s : totals_inv f -> totals_inv (FakeBill.addSignal f now s).1.
Proof. intros [H1 H2]. unfold FakeBill.addSignal. by destruct (if is_empty _ then _ else _). Qed.

Lemma add_signals_totals sigs f now : totals_inv f -> totals_inv (add_signals f now sigs).1.
Proof.
  revert f. induction sigs as [|s sigs IH]; intros f Hf; simpl; [done|].
  pose proof (addSignal_totals f now s Hf) as Hs.
  destruct (FakeBill.addSignal f now s) as [f1 [e|]]; [done|by apply IH].
Qed.

Lemma eval_scope_totals f now c st si t ca :
  totals_inv f -> totals_inv (eval_scope f now c st si t ca).1.
Proof. intros Hf. unfold eval_scope. destruct (f_lt _ _); [by apply add_signals_totals|done]. Qed.

Lemma costFor_scope now u :
  co_TenantID (costFor now u) = us_TenantID u /\ co_CampaignID (costFor now u) = us_CampaignID u.
Proof. unfold costFor. destruct (CallCostINR _). repeat case_decide; done. Qed.

Lemma RecordUsage_totals f now u : totals_inv f -> totals_inv (RecordUsage f now u).1.
Proof.
  intros Hf. unfold RecordUsage. destruct (_ || _); [done|].
  change (mkUsage _ _ _ _ _ _ _ _ _ _) with (timed now u).
  destruct (costFor_scope now (timed now u)) as [Ht Hc].
  pose proof (recordUsageCost_totals f now _ _ Ht Hc Hf) as H1.
  cbn [RecordUsageCost fake_billing_store].
  destruct (FakeBill.recordUsageCost _ _ _ _) as [f1 [[]|e]]; [|done..].
  assert (H2 : totals_inv (evaluateCaps f1 now (timed now u)).1).
  { unfold evaluateCaps.
    pose proof (eval_scope_totals f1 now (caps_of f1 (us_TenantID (timed now u)) "") "tenant"
      (us_TenantID (timed now u)) (us_TenantID (timed now u)) "" H1) as He.
    destruct (eval_scope _ _ _ _ _ _ _) as [f2 [e|]]; [done|].
    destruct (is_empty _); [done|by apply eval_scope_totals]. }
  destruct (evaluateCaps f1 now (timed now u)) as [f2 [e|]]; [done|]. case_decide; [|done].
  assert (H3 : totals_inv (evaluateRuntimeCutoff f2 now (timed now u)).1).
  { unfold evaluateRuntimeCutoff. destruct (_ && _); [by apply addSignal_totals|done]. }
  by destruct (evaluateRuntimeCutoff f2 now (timed now u)) as [f3 e3].
Qed.

Lemma runs_totals us f :
  totals_inv f -> totals_inv (foldl (fun f x => (RecordUsage f x.1 x.2).1) f us).
Proof.
  revert f. induction us as [|[now u] us IH]; intros f Hf; [done|]. simpl.
  by apply IH, RecordUsage_totals.
Qed.

(** The running totals are right. After any sequence of usage events the
    summaries the in-memory store updates incrementally are those recomputed
    from the list of cost events, the way the Postgres store computes them. *)
Theorem running_totals_match_cost_events us scopeType scopeID :
  scopeType = "tenant" \/ (scopeType = "campaign" /\ scopeID <> "") ->
  let f := foldl (fun f x => (RecordUsage f x.1 x.2).1) FakeBill.NewFake us in
  GetSummary f scopeType scopeID = Ok (summarize scopeType scopeID (FakeBill.costEvents f)).
Proof.
  intros Hs f. assert (Hf : totals_inv f).
  { assert (H0 : totals_inv FakeBill.NewFake) by (split; intros; simpl; by rewrite lookup_empty).
    by apply runs_totals. }
  destruct Hf as [H1 H2]. cbn [GetSummary fake_billing_store]. unfold FakeBill.getSummary.
  destruct Hs as [-> | [-> Hid]].
  - rewrite decide_False by done. f_equal. apply H1.
  - rewrite decide_True by done. f_equal. by apply H2.
Qed.
End Totals.

(** ** Witnesses *)
Module BillingFixture.

Definition call (key : string) : UsageEvent :=
  mkUsage "u1" "t1" "c1" UsageCallCompleted 61 "seconds" "vobiz" "" hour key.

Definition store (usage_up : bool) : PgBill.t :=
  PgBill.mk kv_empty (mkKv [] usage_up) kv_empty kv_empty kv_empty kv_empty
    (fun n => pretty n) 0.

Lemma store_ok : billing_ok (store true).
Proof.
  split; [done|done|by intros i j ?%(inj pretty)|]. intros k Hk. by apply elem_of_nil in Hk.
Qed.

Definition event : callEvent := mkCallEvent "s1" "t1" "c1" "vobiz" 61 hour.

End BillingFixture.

Lemma usage_is_billed_once_witness :
  let '(p1, r) := RecordUsage (BillingFixture.store true) hour (BillingFixture.call "k1") in
  is_ok r = true /\
  RecordUsage p1 (2 * hour) (BillingFixture.call "k1")
  = (p1, Ok (costFor (2 * hour) (timed (2 * hour) (BillingFixture.call "k1")))).
Proof.
  destruct (RecordUsage (BillingFixture.store true) hour (BillingFixture.call "k1"))
    as [p1 [c|e]] eqn:E.
  - split; [done|].
    apply (usage_is_billed_once (BillingFixture.store true) hour (BillingFixture.call "k1") p1 c []
      (2 * hour)); done.
  - vm_compute in E. discriminate E.
Defined.

Lemma failed_write_loses_usage_witness :
  let '(p1, r) := RecordUsage (BillingFixture.store false) hour (BillingFixture.call "k1") in
  is_ok r = false.
Proof.
  pose proof (failed_write_loses_usage (BillingFixture.store false) hour (BillingFixture.call "k1")
    (2 * hour) (BillingFixture.store true)) as Hl.
  destruct (RecordUsage (BillingFixture.store false) hour (BillingFixture.call "k1")) as [p1 r].
  apply Hl; try done. intros [x Hx]. discriminate Hx.
Defined.

Lemma redelivered_message_is_billed_again_witness :
  let p1 := (handleUsage (BillingFixture.store true) hour UsageCallCompleted
    (Some BillingFixture.event)).1 in
  cost_count (handleUsage p1 (2 * hour) UsageCallCompleted (Some BillingFixture.event)).1 = 2%nat.
Proof.
  apply (redelivered_message_is_billed_again (BillingFixture.store true) hour (2 * hour)
    UsageCallCompleted BillingFixture.event); [exact BillingFixture.store_ok|done|done].
Defined.

Lemma running_totals_match_cost_events_witness :
  let f := foldl (fun f x => (RecordUsage f x.1 x.2).1) FakeBill.NewFake
    [(hour, BillingFixture.call ""); (hour, BillingFixture.call "")] in
  GetSummary f "campaign" "c1" = Ok (summarize "campaign" "c1" (FakeBill.costEvents f)).
Proof.
  apply (running_totals_match_cost_events
    [(hour, BillingFixture.call ""); (hour, BillingFixture.call "")] "campaign" "c1").
  right. done.
Defined.
