(* ===== verification/Whatsapp.v ===== *)
(** * whatsapp-adapter: model, helper packages and stores

    [internal/model], [internal/window], [internal/cost], [internal/templates],
    [internal/store] and the pure parts of [internal/meta].  The clock and the
    generated ids are arguments of the operations that read them. *)

From S2P Require Import Prelude GoTime Float64 Kv GoStrings.

Open Scope Z_scope.

Definition TemplateCategoryMarketing : string := "marketing".
Definition TemplateCategoryUtility : string := "utility".
Definition TemplateCategoryAuthentication : string := "authentication".
Definition DirectionInbound : string := "inbound".
Definition DirectionOutbound : string := "outbound".
Definition MessageKindText : string := "text".
Definition MessageKindTemplate : string := "template".
Definition MessageKindFlow : string := "flow".
Definition MessageStatusSent : string := "sent".
Definition MessageStatusDelivered : string := "delivered".
Definition MessageStatusReceived : string := "received".

Record Template := mkTmpl {
  tm_ID : string;
  tm_TenantID : string;
  tm_Name : string;
  tm_Language : string;
  tm_Category : string;
  tm_Body : string;
  tm_Status : string;
  tm_MetaName : string;
  tm_Variables : list string;
  tm_CreatedAt : Z;
  tm_UpdatedAt : Z;
  tm_SyncedAt : option Z;
  tm_RemoteID : string;
  tm_RemoteNote : string
}.

Record Thread := mkThread {
  th_ID : string;
  th_TenantID : string;
  th_LeadID : string;
  th_Phone : string;
  th_LastInboundAt : Z;
  th_ServiceWindowUntil : Z;
  th_CreatedAt : Z;
  th_UpdatedAt : Z
}.

Record Attachment := mkAttachment { at_Type : string; at_URL : string; at_Name : string }.

Record Message := mkMessage {
  ms_ID : string;
  ms_TenantID : string;
  ms_ThreadID : string;
  ms_LeadID : string;
  ms_Phone : string;
  ms_Direction : string;
  ms_Kind : string;
  ms_Body : string;
  ms_TemplateID : string;
  ms_FlowID : string;
  ms_Attachments : list Attachment;
  ms_Status : string;
  ms_MetaMessageID : string;
  ms_CreatedAt : Z
}.

Record WaWebhookEvent := mkWaEvent {
  we_ID : string;
  we_TenantID : string;
  we_IdempotencyKey : string;
  we_EventType : string;
  we_Payload : string;
  we_ReceivedAt : Z
}.

Record WhatsAppOptOut := mkOptOut {
  oo_ID : string;
  oo_TenantID : string;
  oo_LeadID : string;
  oo_Phone : string;
  oo_Channel : string;
  oo_Reason : string;
  oo_CreatedAt : Z
}.

(** The payload of an event is a map from strings to strings. *)
Record WaOutboxEvent := mkWaOutbox {
  ob_ID : string;
  ob_TenantID : string;
  ob_Subject : string;
  ob_Type : string;
  ob_Payload : list (string * string);
  ob_CreatedAt : Z
}.

Record WaUsage := mkWaUsage {
  wu_ID : string;
  wu_TenantID : string;
  wu_LeadID : string;
  wu_MessageID : string;
  wu_EventType : string;
  wu_Quantity : Z;
  wu_UnitCostINR : float64;
  wu_TotalCostINR : float64;
  wu_CreatedAt : Z
}.

Record ConsentLedgerEntry := mkLedger {
  le_ID : string;
  le_TenantID : string;
  le_LeadID : string;
  le_Channel : string;
  le_Basis : string;
  le_Source : string;
  le_Reason : string;
  le_CreatedAt : Z
}.

Record VaultCredential := mkCred {
  vc_TenantID : string;
  vc_PhoneNumberID : string;
  vc_BusinessAccountID : string;
  vc_AccessToken : string;
  vc_VerifyToken : string;
  vc_AppSecret : string;
  vc_UpdatedAt : Z
}.

Record RetryTask := mkRetry {
  rt_ID : string;
  rt_TenantID : string;
  rt_Operation : string;
  rt_Payload : list (string * string);
  rt_RunAfter : Z;
  rt_Attempts : Z;
  rt_LastError : string;
  rt_CreatedAt : Z
}.

Record SendTemplateRequest := mkSendTemplate {
  str_TenantID : string;
  str_ProjectID : string;
  str_LeadID : string;
  str_Phone : string;
  str_TemplateID : string;
  str_Language : string;
  str_Variables : gmap string string
}.

Record SendMessageRequest := mkSendMessage {
  smr_TenantID : string;
  smr_ProjectID : string;
  smr_ThreadID : string;
  smr_Body : string;
  smr_Attachments : list Attachment
}.

Record SendFlowRequest := mkSendFlow {
  sfr_TenantID : string;
  sfr_LeadID : string;
  sfr_Phone : string;
  sfr_FlowID : string;
  sfr_Payload : gmap string string
}.

(** ** Errors

    The errors the code tells apart with [errors.Is] and [errors.As]. *)
Inductive werr :=
| ErrConsentBlocked (reason : string)
| ErrInvalidSignature
| ErrOptedOut
| ErrOutsideServiceWindow
| ErrClaimBlocked (reason : string)
| ErrNotFound
| RateLimitError (reset retryAfter msg : string)
| ErrOther (msg : string).

(** ** Service window, template cost and categories *)

Definition ServiceWindow : Z := 24 * hour.

Definition Until (lastInboundAt : Z) : Z :=
  if is_zero lastInboundAt then time_zero else lastInboundAt + ServiceWindow.

Definition IsOpen (now lastInboundAt : Z) : bool :=
  if is_zero lastInboundAt then false else negb (Until lastInboundAt <? now).

Definition ValidateCategory (category : string) : option werr :=
  if bool_decide (category = TemplateCategoryMarketing)
     || bool_decide (category = TemplateCategoryUtility)
     || bool_decide (category = TemplateCategoryAuthentication)
  then None else Some (ErrOther "template category is not allowed").

Definition TemplateCostINR (category : string) : werr + float64 :=
  if decide (category = TemplateCategoryMarketing) then inr (f_dec 78 2)
  else if decide (category = TemplateCategoryUtility) then inr (f_dec 35 2)
  else if decide (category = TemplateCategoryAuthentication) then inr (f_dec 28 2)
  else inl (ErrOther "unsupported template category").

Definition prebuilt (tenantID name category body : string) (vars : list string) : Template :=
  mkTmpl "" tenantID name "en" category body "draft" "" vars time_zero time_zero None "" "".

Definition Prebuilt (tenantID : string) : list Template := [
  prebuilt tenantID "lead-warm-up" TemplateCategoryMarketing
    "Hi {{lead_name}}, thanks for your interest. We can help with {{project_name}}."
    ["lead_name"; "project_name"];
  prebuilt tenantID "site-visit-reminder" TemplateCategoryUtility
    "Reminder: your site visit for {{project_name}} is scheduled at {{visit_time}}."
    ["project_name"; "visit_time"];
  prebuilt tenantID "post-call-summary" TemplateCategoryUtility
    "Summary of our call: {{summary}}. Reply here for help." ["summary"];
  prebuilt tenantID "handover-intro" TemplateCategoryUtility
    "Introducing {{owner_name}} from our team for your next steps." ["owner_name"]].

(** [meta.BackoffFromHeaders] on the values of the two headers. *)
Definition backoff_value (value : string) : option Z :=
  if is_empty value then None else
  match atoi value with
  | Some seconds => if 0 <? seconds then Some (wrap64 (seconds * second)) else None
  | None => None
  end.

Definition BackoffFromHeaders (reset retryAfter : string) (fallback : Z) : Z :=
  match backoff_value reset with
  | Some d => d
  | None => match backoff_value retryAfter with Some d => d | None => fallback end
  end.

(** ** The store interface

    [now] is the clock and [uid] a fresh id. *)
Class WaStore (T : Type) := {
  SaveTemplate : T -> Z -> string -> Template -> T * (werr + Template);
  GetTemplate : T -> string -> werr + Template;
  FindTemplateByName : T -> string -> string -> string -> werr + Template;
  ListTemplates : T -> string -> werr + list Template;
  SaveThread : T -> Z -> string -> Thread -> T * (werr + Thread);
  GetThread : T -> string -> werr + Thread;
  FindThreadByLead : T -> string -> string -> werr + Thread;
  FindThreadByPhone : T -> string -> string -> werr + Thread;
  ListThreads : T -> string -> werr + list Thread;
  SaveMessage : T -> Z -> string -> Message -> T * (werr + Message);
  ListMessages : T -> string -> werr + list Message;
  RecordWebhookEvent : T -> Z -> string -> WaWebhookEvent -> T * (werr + bool);
  AddOptOut : T -> Z -> string -> WhatsAppOptOut -> T * (werr + WhatsAppOptOut);
  IsOptedOut : T -> string -> string -> werr + bool;
  ListOptOuts : T -> string -> werr + list WhatsAppOptOut;
  AddConsentLedger : T -> Z -> string -> ConsentLedgerEntry -> T * (werr + ConsentLedgerEntry);
  ListConsentLedger : T -> string -> werr + list ConsentLedgerEntry;
  AddOutboxEvent : T -> Z -> string -> WaOutboxEvent -> T * (werr + WaOutboxEvent);
  ListOutboxEvents : T -> string -> werr + list WaOutboxEvent;
  AddUsageEvent : T -> Z -> string -> WaUsage -> T * (werr + WaUsage);
  ListUsageEvents : T -> string -> werr + list WaUsage;
  UpsertCredential : T -> Z -> string -> VaultCredential -> T * (werr + VaultCredential);
  GetCredential : T -> string -> werr + VaultCredential;
  EnqueueRetry : T -> Z -> string -> RetryTask -> T * (werr + RetryTask);
  ListRetryTasks : T -> string -> werr + list RetryTask
}.

(** ** What both stores do to a record before writing it *)

Definition stamp_template (now : Z) (uid : string) (t : Template) : Template :=
  mkTmpl (or_new (tm_ID t) uid) (tm_TenantID t) (tm_Name t) (tm_Language t) (tm_Category t)
    (tm_Body t) (tm_Status t) (tm_MetaName t) (tm_Variables t) (or_now (tm_CreatedAt t) now) now
    (tm_SyncedAt t) (tm_RemoteID t) (tm_RemoteNote t).

Definition stamp_thread (now : Z) (uid : string) (t : Thread) : Thread :=
  mkThread (or_new (th_ID t) uid) (th_TenantID t) (th_LeadID t) (th_Phone t) (th_LastInboundAt t)
    (th_ServiceWindowUntil t) (or_now (th_CreatedAt t) now) now.

Definition stamp_message (now : Z) (uid : string) (m : Message) : Message :=
  mkMessage (or_new (ms_ID m) uid) (ms_TenantID m) (ms_ThreadID m) (ms_LeadID m) (ms_Phone m)
    (ms_Direction m) (ms_Kind m) (ms_Body m) (ms_TemplateID m) (ms_FlowID m) (ms_Attachments m)
    (ms_Status m) (ms_MetaMessageID m) (or_now (ms_CreatedAt m) now).

Definition stamp_event (now : Z) (uid : string) (e : WaWebhookEvent) : WaWebhookEvent :=
  mkWaEvent (or_new (we_ID e) uid) (we_TenantID e) (we_IdempotencyKey e) (we_EventType e)
    (we_Payload e) (or_now (we_ReceivedAt e) now).

Definition stamp_optout (now : Z) (uid : string) (o : WhatsAppOptOut) : WhatsAppOptOut :=
  mkOptOut (or_new (oo_ID o) uid) (oo_TenantID o) (oo_LeadID o) (oo_Phone o)
    (if is_empty (oo_Channel o) then "whatsapp" else oo_Channel o) (oo_Reason o)
    (or_now (oo_CreatedAt o) now).

Definition stamp_ledger (now : Z) (uid : string) (e : ConsentLedgerEntry) : ConsentLedgerEntry :=
  mkLedger (or_new (le_ID e) uid) (le_TenantID e) (le_LeadID e) (le_Channel e) (le_Basis e)
    (le_Source e) (le_Reason e) (or_now (le_CreatedAt e) now).

Definition stamp_outbox (now : Z) (uid : string) (e : WaOutboxEvent) : WaOutboxEvent :=
  mkWaOutbox (or_new (ob_ID e) uid) (ob_TenantID e) (ob_Subject e) (ob_Type e) (ob_Payload e)
    (or_now (ob_CreatedAt e) now).

Definition stamp_usage (now : Z) (uid : string) (e : WaUsage) : WaUsage :=
  mkWaUsage (or_new (wu_ID e) uid) (wu_TenantID e) (wu_LeadID e) (wu_MessageID e)
    (wu_EventType e) (if wu_Quantity e =? 0 then 1 else wu_Quantity e) (wu_UnitCostINR e)
    (wu_TotalCostINR e) (or_now (wu_CreatedAt e) now).

Definition stamp_retry (now : Z) (uid : string) (r : RetryTask) : RetryTask :=
  mkRetry (or_new (rt_ID r) uid) (rt_TenantID r) (rt_Operation r) (rt_Payload r) (rt_RunAfter r)
    (rt_Attempts r) (rt_LastError r) (or_now (rt_CreatedAt r) now).

Definition stamp_cred (now : Z) (c : VaultCredential) : VaultCredential :=
  mkCred (vc_TenantID c) (vc_PhoneNumberID c) (vc_BusinessAccountID c) (vc_AccessToken c)
    (vc_VerifyToken c) (vc_AppSecret c) now.

Definition key (tenantID id : string) : string := (tenantID ++ ":" ++ id)%string.

(** Records of one tenant; the empty tenant id selects all. *)
Definition of_tenant {A} (tenant : A -> string) (tenantID : string) (l : list A) : list A :=
  List.filter (fun x => is_empty tenantID || bool_decide (tenant x = tenantID)) l.

Definition name_less (a b : Template) : bool := String.ltb (tm_Name a) (tm_Name b).
Definition newer (a b : Thread) : bool := th_UpdatedAt b <? th_UpdatedAt a.
Definition older (a b : Message) : bool := ms_CreatedAt a <? ms_CreatedAt b.

(** ** In memory *)
Module FakeWa.

(** [map_order] is the order in which Go iterates over a map. *)
Record t := mk {
  templates : gmap string Template;
  threads : gmap string Thread;
  threadByLead : gmap string string;
  threadByPhone : gmap string string;
  messages : gmap string Message;
  messagesByThread : gmap string (list string);
  webhookEvents : gmap string WaWebhookEvent;
  optOuts : gmap string WhatsAppOptOut;
  outbox : list WaOutboxEvent;
  usage : list WaUsage;
  ledger : list ConsentLedgerEntry;
  credentials : gmap string VaultCredential;
  retries : list RetryTask;
  map_order : forall A : Type, list A -> list A
}.

Definition NewFake (order : forall A : Type, list A -> list A) : t :=
  mk ∅ ∅ ∅ ∅ ∅ ∅ ∅ ∅ [] [] [] ∅ [] order.

Definition set_templates v (s : t) : t :=
  mk v (threads s) (threadByLead s) (threadByPhone s) (messages s) (messagesByThread s)
    (webhookEvents s) (optOuts s) (outbox s) (usage s) (ledger s) (credentials s) (retries s)
    (map_order s).
Definition set_threads v (s : t) : t :=
  mk (templates s) v (threadByLead s) (threadByPhone s) (messages s) (messagesByThread s)
    (webhookEvents s) (optOuts s) (outbox s) (usage s) (ledger s) (credentials s) (retries s)
    (map_order s).
Definition set_threadByLead v (s : t) : t :=
  mk (templates s) (threads s) v (threadByPhone s) (messages s) (messagesByThread s)
    (webhookEvents s) (optOuts s) (outbox s) (usage s) (ledger s) (credentials s) (retries s)
    (map_order s).
Definition set_threadByPhone v (s : t) : t :=
  mk (templates s) (threads s) (threadByLead s) v (messages s) (messagesByThread s)
    (webhookEvents s) (optOuts s) (outbox s) (usage s) (ledger s) (credentials s) (retries s)
    (map_order s).
Definition set_messages v (s : t) : t :=
  mk (templates s) (threads s) (threadByLead s) (threadByPhone s) v (messagesByThread s)
    (webhookEvents s) (optOuts s) (outbox s) (usage s) (ledger s) (credentials s) (retries s)
    (map_order s).
Definition set_messagesByThread v (s : t) : t :=
  mk (templates s) (threads s) (threadByLead s) (threadByPhone s) (messages s) v (webhookEvents
    s) (optOuts s) (outbox s) (usage s) (ledger s) (credentials s) (retries s) (map_order s).
Definition set_webhookEvents v (s : t) : t :=
  mk (templates s) (threads s) (threadByLead s) (threadByPhone s) (messages s) (messagesByThread
    s) v (optOuts s) (outbox s) (usage s) (ledger s) (credentials s) (retries s) (map_order s).
Definition set_optOuts v (s : t) : t :=
  mk (templates s) (threads s) (threadByLead s) (threadByPhone s) (messages s) (messagesByThread
    s) (webhookEvents s) v (outbox s) (usage s) (ledger s) (credentials s) (retries s)
    (map_order s).
Definition set_outbox v (s : t) : t :=
  mk (templates s) (threads s) (threadByLead s) (threadByPhone s) (messages s) (messagesByThread
    s) (webhookEvents s) (optOuts s) v (usage s) (ledger s) (credentials s) (retries s)
    (map_order s).
Definition set_usage v (s : t) : t :=
  mk (templates s) (threads s) (threadByLead s) (threadByPhone s) (messages s) (messagesByThread
    s) (webhookEvents s) (optOuts s) (outbox s) v (ledger s) (credentials s) (retries s)
    (map_order s).
Definition set_ledger v (s : t) : t :=
  mk (templates s) (threads s) (threadByLead s) (threadByPhone s) (messages s) (messagesByThread
    s) (webhookEvents s) (optOuts s) (outbox s) (usage s) v (credentials s) (retries s)
    (map_order s).
Definition set_credentials v (s : t) : t :=
  mk (templates s) (threads s) (threadByLead s) (threadByPhone s) (messages s) (messagesByThread
    s) (webhookEvents s) (optOuts s) (outbox s) (usage s) (ledger s) v (retries s) (map_order
    s).
Definition set_retries v (s : t) : t :=
  mk (templates s) (threads s) (threadByLead s) (threadByPhone s) (messages s) (messagesByThread
    s) (webhookEvents s) (optOuts s) (outbox s) (usage s) (ledger s) (credentials s) v
    (map_order s).

(** [for _, x := range m]. *)
Definition values {A} (f : t) (m : gmap string A) : list A := map_order f A (map_to_list m).*2.

Definition saveTemplate (f : t) (now : Z) (uid : string) (tmpl : Template)
    : t * (werr + Template) :=
  let tmpl := stamp_template now uid tmpl in
  (set_templates (<[tm_ID tmpl := tmpl]> (templates f)) f, inr tmpl).

Definition getTemplate (f : t) (id : string) : werr + Template :=
  match templates f !! id with Some tmpl => inr tmpl | None => inl ErrNotFound end.

Definition findTemplateByName (f : t) (tenantID name language : string) : werr + Template :=
  match List.find (fun tmpl => bool_decide (tm_TenantID tmpl = tenantID)
          && bool_decide (tm_Name tmpl = name) && bool_decide (tm_Language tmpl = language))
          (values f (templates f)) with
  | Some tmpl => inr tmpl
  | None => inl ErrNotFound
  end.

Definition listTemplates (f : t) (tenantID : string) : werr + list Template :=
  inr (sort_by name_less (of_tenant tm_TenantID tenantID (values f (templates f)))).

Definition saveThread (f : t) (now : Z) (uid : string) (thread : Thread) : t * (werr + Thread) :=
  let thread := stamp_thread now uid thread in
  let f := set_threads (<[th_ID thread := thread]> (threads f)) f in
  let f := if is_empty (th_LeadID thread) then f
           else set_threadByLead (<[key (th_TenantID thread) (th_LeadID thread) := th_ID thread]>
                  (threadByLead f)) f in
  let f := if is_empty (th_Phone thread) then f
           else set_threadByPhone (<[key (th_TenantID thread) (th_Phone thread) := th_ID thread]>
                  (threadByPhone f)) f in
  (f, inr thread).

Definition getThread (f : t) (id : string) : werr + Thread :=
  match threads f !! id with Some thread => inr thread | None => inl ErrNotFound end.

(** An index entry always names a stored thread. *)
Definition deref (f : t) (id : option string) : werr + Thread :=
  match id with
  | None => inl ErrNotFound
  | Some id => match threads f !! id with
               | Some thread => inr thread
               | None => inl (ErrOther "nil pointer dereference")
               end
  end.

Definition findThreadByLead (f : t) (tenantID leadID : string) : werr + Thread :=
  deref f (threadByLead f !! key tenantID leadID).

Definition findThreadByPhone (f : t) (tenantID phone : string) : werr + Thread :=
  deref f (threadByPhone f !! key tenantID phone).

Definition listThreads (f : t) (tenantID : string) : werr + list Thread :=
  inr (sort_by newer (of_tenant th_TenantID tenantID (values f (threads f)))).

Definition saveMessage (f : t) (now : Z) (uid : string) (msg : Message) : t * (werr + Message) :=
  let msg := stamp_message now uid msg in
  let f := match messages f !! ms_ID msg with
           | Some _ => f
           | None => set_messagesByThread
               (<[ms_ThreadID msg := default [] (messagesByThread f !! ms_ThreadID msg)
                                     ++ [ms_ID msg]]> (messagesByThread f)) f
           end in
  (set_messages (<[ms_ID msg := msg]> (messages f)) f, inr msg).

Definition listMessages (f : t) (threadID : string) : werr + list Message :=
  inr (omap (fun id => messages f !! id) (default [] (messagesByThread f !! threadID))).

Definition recordWebhookEvent (f : t) (now : Z) (uid : string) (event : WaWebhookEvent)
    : t * (werr + bool) :=
  if is_empty (we_IdempotencyKey event) then (f, inl (ErrOther "idempotency key is required")) else
  match webhookEvents f !! we_IdempotencyKey event with
  | Some _ => (f, inr false)
  | None =>
      (set_webhookEvents (<[we_IdempotencyKey event := stamp_event now uid event]>
         (webhookEvents f)) f, inr true)
  end.

Definition addOptOut (f : t) (now : Z) (uid : string) (opt : WhatsAppOptOut)
    : t * (werr + WhatsAppOptOut) :=
  let opt := stamp_optout now uid opt in
  (set_optOuts (<[key (oo_TenantID opt) (oo_LeadID opt) := opt]> (optOuts f)) f, inr opt).

Definition isOptedOut (f : t) (tenantID leadID : string) : werr + bool :=
  inr (bool_decide (is_Some (optOuts f !! key tenantID leadID))).

Definition listOptOuts (f : t) (tenantID : string) : werr + list WhatsAppOptOut :=
  inr (of_tenant oo_TenantID tenantID (values f (optOuts f))).

Definition addConsentLedger (f : t) (now : Z) (uid : string) (entry : ConsentLedgerEntry)
    : t * (werr + ConsentLedgerEntry) :=
  let entry := stamp_ledger now uid entry in (set_ledger (ledger f ++ [entry]) f, inr entry).

Definition listConsentLedger (f : t) (tenantID : string) : werr + list ConsentLedgerEntry :=
  inr (of_tenant le_TenantID tenantID (ledger f)).

Definition addOutboxEvent (f : t) (now : Z) (uid : string) (event : WaOutboxEvent)
    : t * (werr + WaOutboxEvent) :=
  let event := stamp_outbox now uid event in (set_outbox (outbox f ++ [event]) f, inr event).

Definition listOutboxEvents (f : t) (tenantID : string) : werr + list WaOutboxEvent :=
  inr (of_tenant ob_TenantID tenantID (outbox f)).

Definition addUsageEvent (f : t) (now : Z) (uid : string) (event : WaUsage)
    : t * (werr + WaUsage) :=
  let event := stamp_usage now uid event in (set_usage (usage f ++ [event]) f, inr event).

Definition listUsageEvents (f : t) (tenantID : string) : werr + list WaUsage :=
  inr (of_tenant wu_TenantID tenantID (usage f)).

Definition upsertCredential (f : t) (now : Z) (uid : string) (cred : VaultCredential)
    : t * (werr + VaultCredential) :=
  if is_empty (vc_TenantID cred) then (f, inl (ErrOther "tenant_id is required")) else
  let cred := stamp_cred now cred in
  (set_credentials (<[vc_TenantID cred := cred]> (credentials f)) f, inr cred).

Definition getCredential (f : t) (tenantID : string) : werr + VaultCredential :=
  match credentials f !! tenantID with Some cred => inr cred | None => inl ErrNotFound end.

Definition enqueueRetry (f : t) (now : Z) (uid : string) (task : RetryTask)
    : t * (werr + RetryTask) :=
  let task := stamp_retry now uid task in (set_retries (retries f ++ [task]) f, inr task).

Definition listRetryTasks (f : t) (tenantID : string) : werr + list RetryTask :=
  inr (of_tenant rt_TenantID tenantID (retries f)).

End FakeWa.

#[export] Instance fake_wa_store : WaStore FakeWa.t := {
  SaveTemplate := FakeWa.saveTemplate;
  GetTemplate := FakeWa.getTemplate;
  FindTemplateByName := FakeWa.findTemplateByName;
  ListTemplates := FakeWa.listTemplates;
  SaveThread := FakeWa.saveThread;
  GetThread := FakeWa.getThread;
  FindThreadByLead := FakeWa.findThreadByLead;
  FindThreadByPhone := FakeWa.findThreadByPhone;
  ListThreads := FakeWa.listThreads;
  SaveMessage := FakeWa.saveMessage;
  ListMessages := FakeWa.listMessages;
  RecordWebhookEvent := FakeWa.recordWebhookEvent;
  AddOptOut := FakeWa.addOptOut;
  IsOptedOut := FakeWa.isOptedOut;
  ListOptOuts := FakeWa.listOptOuts;
  AddConsentLedger := FakeWa.addConsentLedger;
  ListConsentLedger := FakeWa.listConsentLedger;
  AddOutboxEvent := FakeWa.addOutboxEvent;
  ListOutboxEvents := FakeWa.listOutboxEvents;
  AddUsageEvent := FakeWa.addUsageEvent;
  ListUsageEvents := FakeWa.listUsageEvents;
  UpsertCredential := FakeWa.upsertCredential;
  GetCredential := FakeWa.getCredential;
  EnqueueRetry := FakeWa.enqueueRetry;
  ListRetryTasks := FakeWa.listRetryTasks
}.

(** ** Postgres *)
Module PgWa.

Record t := mk {
  templates : kv Template;
  templates_by_name : kv Template;
  threads : kv Thread;
  threads_by_lead : kv Thread;
  threads_by_phone : kv Thread;
  messages : kv Message;
  webhook_events : kv WaWebhookEvent;
  opt_outs : kv WhatsAppOptOut;
  consent_ledger : kv ConsentLedgerEntry;
  outbox : kv WaOutboxEvent;
  usage_events : kv WaUsage;
  credentials : kv VaultCredential;
  retries : kv RetryTask
}.

Definition empty : t :=
  mk kv_empty kv_empty kv_empty kv_empty kv_empty kv_empty kv_empty kv_empty kv_empty kv_empty
    kv_empty kv_empty kv_empty.

Definition set_templates v (s : t) : t :=
  mk v (templates_by_name s) (threads s) (threads_by_lead s) (threads_by_phone s) (messages s)
    (webhook_events s) (opt_outs s) (consent_ledger s) (outbox s) (usage_events s) (credentials
    s) (retries s).
Definition set_templates_by_name v (s : t) : t :=
  mk (templates s) v (threads s) (threads_by_lead s) (threads_by_phone s) (messages s)
    (webhook_events s) (opt_outs s) (consent_ledger s) (outbox s) (usage_events s) (credentials
    s) (retries s).
Definition set_threads v (s : t) : t :=
  mk (templates s) (templates_by_name s) v (threads_by_lead s) (threads_by_phone s) (messages s)
    (webhook_events s) (opt_outs s) (consent_ledger s) (outbox s) (usage_events s) (credentials
    s) (retries s).
Definition set_threads_by_lead v (s : t) : t :=
  mk (templates s) (templates_by_name s) (threads s) v (threads_by_phone s) (messages s)
    (webhook_events s) (opt_outs s) (consent_ledger s) (outbox s) (usage_events s) (credentials
    s) (retries s).
Definition set_threads_by_phone v (s : t) : t :=
  mk (templates s) (templates_by_name s) (threads s) (threads_by_lead s) v (messages s)
    (webhook_events s) (opt_outs s) (consent_ledger s) (outbox s) (usage_events s) (credentials
    s) (retries s).
Definition set_messages v (s : t) : t :=
  mk (templates s) (templates_by_name s) (threads s) (threads_by_lead s) (threads_by_phone s) v
    (webhook_events s) (opt_outs s) (consent_ledger s) (outbox s) (usage_events s) (credentials
    s) (retries s).
Definition set_webhook_events v (s : t) : t :=
  mk (templates s) (templates_by_name s) (threads s) (threads_by_lead s) (threads_by_phone s)
    (messages s) v (opt_outs s) (consent_ledger s) (outbox s) (usage_events s) (credentials s)
    (retries s).
Definition set_opt_outs v (s : t) : t :=
  mk (templates s) (templates_by_name s) (threads s) (threads_by_lead s) (threads_by_phone s)
    (messages s) (webhook_events s) v (consent_ledger s) (outbox s) (usage_events s)
    (credentials s) (retries s).
Definition set_consent_ledger v (s : t) : t :=
  mk (templates s) (templates_by_name s) (threads s) (threads_by_lead s) (threads_by_phone s)
    (messages s) (webhook_events s) (opt_outs s) v (outbox s) (usage_events s) (credentials s)
    (retries s).
Definition set_outbox v (s : t) : t :=
  mk (templates s) (templates_by_name s) (threads s) (threads_by_lead s) (threads_by_phone s)
    (messages s) (webhook_events s) (opt_outs s) (consent_ledger s) v (usage_events s)
    (credentials s) (retries s).
Definition set_usage_events v (s : t) : t :=
  mk (templates s) (templates_by_name s) (threads s) (threads_by_lead s) (threads_by_phone s)
    (messages s) (webhook_events s) (opt_outs s) (consent_ledger s) (outbox s) v (credentials s)
    (retries s).
Definition set_credentials v (s : t) : t :=
  mk (templates s) (templates_by_name s) (threads s) (threads_by_lead s) (threads_by_phone s)
    (messages s) (webhook_events s) (opt_outs s) (consent_ledger s) (outbox s) (usage_events s)
    v (retries s).
Definition set_retries v (s : t) : t :=
  mk (templates s) (templates_by_name s) (threads s) (threads_by_lead s) (threads_by_phone s)
    (messages s) (webhook_events s) (opt_outs s) (consent_ledger s) (outbox s) (usage_events s)
    (credentials s) v.

Definition templateNameKey (tenantID name language : string) : string :=
  (tenantID ++ ":" ++ name ++ ":" ++ language)%string.

Definition optOutKey (tenantID leadID channel : string) : string :=
  (tenantID ++ ":" ++ leadID ++ ":" ++ channel)%string.

(** [return x, p.kv.Put(...)]. *)
Definition from_err {A} (e : error) (a : A) : werr + A :=
  match e with Some m => inl (ErrOther m) | None => inr a end.

(** [pgkv.Get] with [ErrNotFound] for a missing record. *)
Definition found {A} (r : result (option A)) : werr + A :=
  match r with
  | Err e => inl (ErrOther e)
  | Ok None => inl ErrNotFound
  | Ok (Some a) => inr a
  end.

Definition saveTemplate (p : t) (now : Z) (uid : string) (tmpl : Template)
    : t * (werr + Template) :=
  let tmpl := stamp_template now uid tmpl in
  let '(c, e) := kv_set (templates p) (tm_ID tmpl) tmpl in
  let p := set_templates c p in
  match e with
  | Some m => (p, inl (ErrOther m))
  | None =>
      let '(c, e) := kv_set (templates_by_name p)
        (templateNameKey (tm_TenantID tmpl) (tm_Name tmpl) (tm_Language tmpl)) tmpl in
      (set_templates_by_name c p, from_err e tmpl)
  end.

Definition getTemplate (p : t) (id : string) : werr + Template :=
  found (kv_get (templates p) id).

Definition findTemplateByName (p : t) (tenantID name language : string) : werr + Template :=
  found (kv_get (templates_by_name p) (templateNameKey tenantID name language)).

Definition listTemplates (p : t) (tenantID : string) : werr + list Template :=
  match kv_list (templates p) with
  | Err e => inl (ErrOther e)
  | Ok ts => inr (sort_by name_less (of_tenant tm_TenantID tenantID ts))
  end.

(** The three writes of [SaveThread]: each is skipped after an error. *)
Definition put_by_lead (p : t) (thread : Thread) : t * error :=
  if is_empty (th_LeadID thread) then (p, None) else
  let '(c, e) := kv_set (threads_by_lead p) (key (th_TenantID thread) (th_LeadID thread)) thread in
  (set_threads_by_lead c p, e).

Definition put_by_phone (p : t) (thread : Thread) : t * error :=
  if is_empty (th_Phone thread) then (p, None) else
  let '(c, e) := kv_set (threads_by_phone p) (key (th_TenantID thread) (th_Phone thread)) thread in
  (set_threads_by_phone c p, e).

Definition saveThread (p : t) (now : Z) (uid : string) (thread : Thread) : t * (werr + Thread) :=
  let thread := stamp_thread now uid thread in
  let '(c, e) := kv_set (threads p) (th_ID thread) thread in
  let p := set_threads c p in
  match e with
  | Some m => (p, inl (ErrOther m))
  | None =>
      let '(p, e) := put_by_lead p thread in
      match e with
      | Some m => (p, inl (ErrOther m))
      | None => let '(p, e) := put_by_phone p thread in (p, from_err e thread)
      end
  end.

Definition getThread (p : t) (id : string) : werr + Thread :=
  found (kv_get (threads p) id).

Definition findThreadByLead (p : t) (tenantID leadID : string) : werr + Thread :=
  found (kv_get (threads_by_lead p) (key tenantID leadID)).

Definition findThreadByPhone (p : t) (tenantID phone : string) : werr + Thread :=
  found (kv_get (threads_by_phone p) (key tenantID phone)).

Definition listThreads (p : t) (tenantID : string) : werr + list Thread :=
  match kv_list (threads p) with
  | Err e => inl (ErrOther e)
  | Ok ts => inr (sort_by newer (of_tenant th_TenantID tenantID ts))
  end.

Definition saveMessage (p : t) (now : Z) (uid : string) (msg : Message) : t * (werr + Message) :=
  let msg := stamp_message now uid msg in
  let '(c, e) := kv_set (messages p) (ms_ID msg) msg in
  (set_messages c p, from_err e msg).

Definition listMessages (p : t) (threadID : string) : werr + list Message :=
  match kv_list (messages p) with
  | Err e => inl (ErrOther e)
  | Ok ms => inr (sort_by older (List.filter (fun m => bool_decide (ms_ThreadID m = threadID)) ms))
  end.

Definition recordWebhookEvent (p : t) (now : Z) (uid : string) (event : WaWebhookEvent)
    : t * (werr + bool) :=
  if is_empty (we_IdempotencyKey event) then (p, inl (ErrOther "idempotency key is required")) else
  match kv_insert (webhook_events p) (we_IdempotencyKey event) (stamp_event now uid event) with
  | Err e => (p, inl (ErrOther e))
  | Ok (c, created) => (set_webhook_events c p, inr created)
  end.

Definition addOptOut (p : t) (now : Z) (uid : string) (opt : WhatsAppOptOut) : t * (werr + WhatsAppOptOut) :=
  let opt := stamp_optout now uid opt in
  let '(c, e) := kv_set (opt_outs p) (optOutKey (oo_TenantID opt) (oo_LeadID opt) (oo_Channel opt)) opt in
  (set_opt_outs c p, from_err e opt).

Definition isOptedOut (p : t) (tenantID leadID : string) : werr + bool :=
  match kv_get (opt_outs p) (optOutKey tenantID leadID "whatsapp") with
  | Err e => inl (ErrOther e)
  | Ok o => inr (bool_decide (is_Some o))
  end.

Definition listOptOuts (p : t) (tenantID : string) : werr + list WhatsAppOptOut :=
  match kv_list (opt_outs p) with
  | Err e => inl (ErrOther e)
  | Ok items => inr (of_tenant oo_TenantID tenantID items)
  end.

Definition addConsentLedger (p : t) (now : Z) (uid : string) (entry : ConsentLedgerEntry) : t * (werr + ConsentLedgerEntry) :=
  let entry := stamp_ledger now uid entry in
  let '(c, e) := kv_set (consent_ledger p) (le_ID entry) entry in
  (set_consent_ledger c p, from_err e entry).

Definition listConsentLedger (p : t) (tenantID : string) : werr + list ConsentLedgerEntry :=
  match kv_list (consent_ledger p) with
  | Err e => inl (ErrOther e)
  | Ok items => inr (of_tenant le_TenantID tenantID items)
  end.

Definition addOutboxEvent (p : t) (now : Z) (uid : string) (event : WaOutboxEvent) : t * (werr + WaOutboxEvent) :=
  let event := stamp_outbox now uid event in
  let '(c, e) := kv_set (outbox p) (ob_ID event) event in
  (set_outbox c p, from_err e event).

Definition listOutboxEvents (p : t) (tenantID : string) : werr + list WaOutboxEvent :=
  match kv_list (outbox p) with
  | Err e => inl (ErrOther e)
  | Ok items => inr (of_tenant ob_TenantID tenantID items)
  end.

Definition addUsageEvent (p : t) (now : Z) (uid : string) (event : WaUsage) : t * (werr + WaUsage) :=
  let event := stamp_usage now uid event in
  let '(c, e) := kv_set (usage_events p) (wu_ID event) event in
  (set_usage_events c p, from_err e event).

Definition listUsageEvents (p : t) (tenantID : string) : werr + list WaUsage :=
  match kv_list (usage_events p) with
  | Err e => inl (ErrOther e)
  | Ok items => inr (of_tenant wu_TenantID tenantID items)
  end.

Definition upsertCredential (p : t) (now : Z) (uid : string) (cred : VaultCredential)
    : t * (werr + VaultCredential) :=
  if is_empty (vc_TenantID cred) then (p, inl (ErrOther "tenant_id is required")) else
  let cred := stamp_cred now cred in
  let '(c, e) := kv_set (credentials p) (vc_TenantID cred) cred in
  (set_credentials c p, from_err e cred).

Definition getCredential (p : t) (tenantID : string) : werr + VaultCredential :=
  found (kv_get (credentials p) tenantID).

Definition enqueueRetry (p : t) (now : Z) (uid : string) (task : RetryTask) : t * (werr + RetryTask) :=
  let task := stamp_retry now uid task in
  let '(c, e) := kv_set (retries p) (rt_ID task) task in
  (set_retries c p, from_err e task).

Definition listRetryTasks (p : t) (tenantID : string) : werr + list RetryTask :=
  match kv_list (retries p) with
  | Err e => inl (ErrOther e)
  | Ok items => inr (of_tenant rt_TenantID tenantID items)
  end.

End PgWa.

#[export] Instance pg_wa_store : WaStore PgWa.t := {
  SaveTemplate := PgWa.saveTemplate;
  GetTemplate := PgWa.getTemplate;
  FindTemplateByName := PgWa.findTemplateByName;
  ListTemplates := PgWa.listTemplates;
  SaveThread := PgWa.saveThread;
  GetThread := PgWa.getThread;
  FindThreadByLead := PgWa.findThreadByLead;
  FindThreadByPhone := PgWa.findThreadByPhone;
  ListThreads := PgWa.listThreads;
  SaveMessage := PgWa.saveMessage;
  ListMessages := PgWa.listMessages;
  RecordWebhookEvent := PgWa.recordWebhookEvent;
  AddOptOut := PgWa.addOptOut;
  IsOptedOut := PgWa.isOptedOut;
  ListOptOuts := PgWa.listOptOuts;
  AddConsentLedger := PgWa.addConsentLedger;
  ListConsentLedger := PgWa.listConsentLedger;
  AddOutboxEvent := PgWa.addOutboxEvent;
  ListOutboxEvents := PgWa.listOutboxEvents;
  AddUsageEvent := PgWa.addUsageEvent;
  ListUsageEvents := PgWa.listUsageEvents;
  UpsertCredential := PgWa.upsertCredential;
  GetCredential := PgWa.getCredential;
  EnqueueRetry := PgWa.enqueueRetry;
  ListRetryTasks := PgWa.listRetryTasks
}.
