(* ===== verification/WhatsappService.v ===== *)
(** * whatsapp-adapter: webhook normalisation, service and handlers

    [internal/webhook], [internal/service] and [internal/handler].  The Meta
    Cloud API, the consent and the claim-control services, the JSON decoder,
    the RFC 3339 parser, SHA-256 and HMAC, the clock and the id generator are
    the record [WaEnv].  The state keeps a log of everything handed to a Meta
    client, the built-in demo client included. *)

From S2P Require Import Prelude GoTime Float64 Kv GoMonad GoStrings Whatsapp.
From stdpp Require Import pretty.

Open Scope Z_scope.

(** ** Inbound payloads *)

Record InEvent := mkInEvent {
  ie_ID : string; ie_Type : string; ie_TenantID : string; ie_LeadID : string;
  ie_Phone : string; ie_Body : string; ie_MessageID : string; ie_Status : string;
  ie_Timestamp : string
}.

Record InMessage := mkInMessage {
  im_ID : string; im_From : string; im_Timestamp : string; im_Body : string
}.

Record InStatus := mkInStatus {
  is_ID : string; is_Status : string; is_RecipientID : string; is_Timestamp : string
}.

Record InChange := mkInChange { ch_Messages : list InMessage; ch_Statuses : list InStatus }.

Record WaPayload := mkWaPayload {
  pl_TenantID : string;
  pl_LeadID : string;
  pl_Events : list InEvent;
  pl_Entry : list (list InChange)
}.

Definition EventReply : string := "reply".
Definition EventOptOut : string := "opt_out".
Definition EventDelivery : string := "delivery".
Definition EventRead : string := "read".

Record NormalizedEvent := mkNE {
  ne_ID : string; ne_Type : string; ne_TenantID : string; ne_LeadID : string;
  ne_Phone : string; ne_Body : string; ne_MessageID : string; ne_Status : string;
  ne_Timestamp : Z
}.

(** ** Outbound calls *)

Inductive meta_call :=
| SendTemplateCall (to name language : string) (vars : gmap string string)
| SendTextCall (to body : string)
| SendFlowCall (to flowID : string) (payload : gmap string string)
| SyncCall.

Record sent := mkSent { sn_demo : bool; sn_cred : VaultCredential; sn_call : meta_call }.

Record RemoteTemplate := mkRemote {
  rm_Name : string; rm_Language : string; rm_Category : string; rm_Status : string;
  rm_Body : string; rm_RemoteID : string
}.

Record OutreachRequest := mkOutreach {
  oq_TenantID : string; oq_LeadID : string; oq_Phone : string; oq_Channel : string;
  oq_RequestedTime : Z
}.

Record CheckRequest := mkCheck {
  cq_TenantID : string; cq_ProjectID : string; cq_LeadID : string; cq_Channel : string;
  cq_Text : string
}.

(** The claim-control answer: whether the text is fine, and the violations. *)
Record CheckResponse := mkCheckResp { ck_OK : bool; ck_Violations : list string }.

Record WaEnv := mkWaEnv {
  e_now : nat -> Z;
  e_uuid : nat -> string;
  e_decode : string -> option WaPayload;
  e_parse_time : string -> option Z;
  e_sha256 : string -> string;
  e_hmac : string -> string -> string;
  e_consent : OutreachRequest -> string + (bool * string);
  e_claims : option (CheckRequest -> string + CheckResponse);
  e_send : list sent -> VaultCredential -> meta_call -> werr + string;
  e_sync : list sent -> VaultCredential -> werr + list RemoteTemplate;
  e_demo_mode : bool
}.

Record Wa (T : Type) := mkWa {
  wa_store : T;
  wa_sent : list sent;
  wa_counter : Z;
  wa_reads : nat;
  wa_ids : nat
}.
Arguments mkWa {T}.
Arguments wa_store {T} w.
Arguments wa_sent {T} w.
Arguments wa_counter {T} w.
Arguments wa_reads {T} w.
Arguments wa_ids {T} w.

(** [consent.StaticChecker]. *)
Definition StaticChecker (allowed : bool) (reason : string) (_ : OutreachRequest)
    : string + (bool * string) :=
  if allowed then inr (true, "allowed")
  else inr (false, if is_empty reason then "blocked" else reason).

(** [claimcontrol.HTTPClient.Check]; [post] is the claim-control service. *)
Definition Check (post : CheckRequest -> string + CheckResponse) (req : CheckRequest)
    : string + CheckResponse :=
  if is_empty (trim_space (cq_Text req)) then inr (mkCheckResp true [])
  else post (mkCheck (cq_TenantID req) (cq_ProjectID req) (cq_LeadID req) "whatsapp" (cq_Text req)).

(** [webhook.IsOptOutBody]. *)
Definition opt_out_cutset : string :=
  String.string_of_list_ascii
    (Ascii.ascii_of_N <$> [32; 9; 13; 10; 46; 33; 63]%N).

Definition IsOptOutBody (body : string) : bool :=
  let normalized := trim_set (to_lower body) opt_out_cutset in
  bool_decide (normalized = "stop") || bool_decide (normalized = "unsubscribe")
  || bool_decide (normalized = "opt out") || bool_decide (normalized = "opt-out").

Definition defaultDemoTenant (env : WaEnv) (tenantID : string) : bool :=
  if e_demo_mode env then true else
  let normalized := to_lower (trim_space tenantID) in
  bool_decide (normalized = "tenant-demo") || bool_decide (normalized = "demo")
  || has_prefix normalized "demo-" || has_suffix normalized "-demo".

(** [meta.Signature] and [meta.VerifySignature]; [e_hmac] is the hex MAC. *)
Definition Signature (env : WaEnv) (secret body : string) : string :=
  ("sha256=" ++ e_hmac env secret body)%string.

Definition VerifySignature (env : WaEnv) (secret body header : string) : bool :=
  if is_empty secret then true else bool_decide (Signature env secret body = header).

Section Service.
Context {T : Type} `{!WaStore T} (env : WaEnv).

Abbreviation W := (Wa T).
Abbreviation MW := (M W werr).

(** ** Primitive effects *)

Definition now : MW Z := fun w =>
  (mkWa (wa_store w) (wa_sent w) (wa_counter w) (S (wa_reads w)) (wa_ids w),
   inr (e_now env (wa_reads w))).

(** A store method that writes: it reads the clock and takes an id itself. *)
Definition st {A} (f : T -> Z -> string -> T * (werr + A)) : MW A := fun w =>
  let '(s, r) := f (wa_store w) (e_now env (wa_reads w)) (e_uuid env (wa_ids w)) in
  (mkWa s (wa_sent w) (wa_counter w) (S (wa_reads w)) (S (wa_ids w)), r).

(** A store method that only reads. *)
Definition rd {A} (f : T -> werr + A) : MW A := fun w => (w, f (wa_store w)).

Definition lift {A} (r : werr + A) : MW A := fun w => (w, r).

Definition check (e : option werr) : MW unit :=
  match e with Some e => raise e | None => ret tt end.

(** [meta.DemoClient]: counts, and always accepts. *)
Definition demo_id (c : meta_call) (n : Z) : string :=
  match c with
  | SendTemplateCall _ _ _ _ => ("demo-wa-template-" ++ pad3 n)%string
  | SendTextCall _ _ => ("demo-wa-text-" ++ pad3 n)%string
  | _ => ("demo-wa-flow-" ++ pad3 n)%string
  end.

Definition demo_templates : list RemoteTemplate := [
  mkRemote "demo_brochure" "en_US" TemplateCategoryMarketing "APPROVED" "Demo brochure for {{1}}"
    "demo-template-001";
  mkRemote "demo_visit_confirm" "en_US" TemplateCategoryUtility "APPROVED"
    "Demo site visit confirmed for {{1}}" "demo-template-002"].

(** [s.clientForTenant(tenantID)] and a send through the client it gives. *)
Definition client_send (tenantID : string) (cred : VaultCredential) (c : meta_call) : MW string :=
  fun w =>
  if defaultDemoTenant env tenantID then
    let n := wa_counter w + 1 in
    (mkWa (wa_store w) (wa_sent w ++ [mkSent true cred c]) n (wa_reads w) (wa_ids w),
     inr (demo_id c n))
  else
    (mkWa (wa_store w) (wa_sent w ++ [mkSent false cred c]) (wa_counter w) (wa_reads w) (wa_ids w),
     e_send env (wa_sent w) cred c).

Definition client_sync (tenantID : string) (cred : VaultCredential) : MW (list RemoteTemplate) :=
  fun w =>
  if defaultDemoTenant env tenantID then (w, inr demo_templates)
  else (mkWa (wa_store w) (wa_sent w ++ [mkSent false cred SyncCall]) (wa_counter w) (wa_reads w)
          (wa_ids w), e_sync env (wa_sent w) cred).

(** ** [webhook.Normalize] *)

Definition parseTimestamp (value : string) : Z :=
  if is_empty value then time_zero
  else match e_parse_time env value with Some ts => ts | None => time_zero end.

Definition normalize_event (p : WaPayload) (e : InEvent) : NormalizedEvent :=
  let typ := if is_empty (ie_Type e) && negb (is_empty (ie_Status e))
             then (if decide (ie_Status e = "read") then EventRead else EventDelivery)
             else ie_Type e in
  let typ := if bool_decide (typ = EventReply) && IsOptOutBody (ie_Body e) then EventOptOut
             else typ in
  mkNE (ie_ID e) typ (first_nonempty (ie_TenantID e) (pl_TenantID p))
    (first_nonempty (ie_LeadID e) (pl_LeadID p)) (ie_Phone e) (ie_Body e) (ie_MessageID e)
    (ie_Status e) (parseTimestamp (ie_Timestamp e)).

Definition normalize_message (p : WaPayload) (m : InMessage) : NormalizedEvent :=
  mkNE (im_ID m) (if IsOptOutBody (im_Body m) then EventOptOut else EventReply) (pl_TenantID p)
    (pl_LeadID p) (im_From m) (im_Body m) (im_ID m) "" (parseTimestamp (im_Timestamp m)).

Definition normalize_status (p : WaPayload) (s : InStatus) : NormalizedEvent :=
  mkNE (is_ID s ++ ":" ++ is_Status s)
    (if decide (is_Status s = "read") then EventRead else EventDelivery) (pl_TenantID p)
    (pl_LeadID p) (is_RecipientID s) "" (is_ID s) (is_Status s) (parseTimestamp (is_Timestamp s)).

Definition normalize_all (p : WaPayload) : list NormalizedEvent :=
  (normalize_event p <$> pl_Events p)
  ++ mjoin ((fun entry => mjoin ((fun ch =>
       (normalize_message p <$> ch_Messages ch) ++ (normalize_status p <$> ch_Statuses ch))
         <$> entry)) <$> pl_Entry p).

(** The last loop: an id and a timestamp for the events that have none. *)
Fixpoint complete (body : string) (i : N) (evs : list NormalizedEvent) : MW (list NormalizedEvent) :=
  match evs with
  | [] => ret []
  | e :: evs' =>
      let id := if is_empty (ne_ID e)
                then e_sha256 env (body ++ String (Ascii.ascii_of_N i) "") else ne_ID e in
      let! ts := if is_zero (ne_Timestamp e) then now else ret (ne_Timestamp e) in
      let! rest := complete body (i + 1) evs' in
      ret (mkNE id (ne_Type e) (ne_TenantID e) (ne_LeadID e) (ne_Phone e) (ne_Body e)
             (ne_MessageID e) (ne_Status e) ts :: rest)
  end.

Definition Normalize (body : string) : MW (list NormalizedEvent) :=
  match e_decode env body with
  | None => raise (ErrOther "json")
  | Some p =>
      let! evs := match normalize_all p with
                  | [] => let! t := now in
                          ret [mkNE (e_sha256 env body) EventDelivery (pl_TenantID p) (pl_LeadID p)
                                 "" "" "" "" t]
                  | evs => ret evs
                  end in
      complete body 0 evs
  end.

(** ** Gates *)

Definition ensureCanContact (tenantID leadID phone : string) : MW unit :=
  let! optedOut := rd (fun s => IsOptedOut s tenantID leadID) in
  let! _ := ensure (negb optedOut) ErrOptedOut in
  let! t := now in
  match e_consent env (mkOutreach tenantID leadID phone "whatsapp" t) with
  | inl e => raise (ErrOther e)
  | inr (allowed, reason) => ensure allowed (ErrConsentBlocked reason)
  end.

Definition ensureClaimAllowed (tenantID projectID leadID text : string) : MW unit :=
  match e_claims env with
  | None => ret tt
  | Some claims =>
      match claims (mkCheck tenantID projectID leadID "whatsapp" text) with
      | inl e => raise (ErrClaimBlocked e)
      | inr r => ensure (ck_OK r) (ErrClaimBlocked (hd "claim violation" (ck_Violations r)))
      end
  end.

(** [enqueueRateLimitRetry]: a rate-limited call leaves a retry task; the
    error itself is returned by the caller. *)
Definition enqueueRateLimitRetry (tenantID operation : string) (payload : list (string * string))
    (e : werr) : MW unit :=
  match e with
  | RateLimitError reset retryAfter msg =>
      let delay := BackoffFromHeaders reset retryAfter (30 * second) in
      let! t1 := now in
      let! t2 := now in
      let! _ := try (st (fun s n u => EnqueueRetry s n u
        (mkRetry "" tenantID operation payload (t1 + delay) 1 msg t2))) in
      ret tt
  | _ => ret tt
  end.

(** A call to Meta: when it fails, a retry may be queued and the error is
    returned. *)
Definition or_retry {A} (m : MW A) (tenantID operation : string) (payload : list (string * string))
    : MW A :=
  let! r := try m in
  match r with
  | inr a => ret a
  | inl e => let! _ := enqueueRateLimitRetry tenantID operation payload e in raise e
  end.

(** ** Threads *)

Definition with_phone (t : Thread) (phone : string) : Thread :=
  mkThread (th_ID t) (th_TenantID t) (th_LeadID t) phone (th_LastInboundAt t)
    (th_ServiceWindowUntil t) (th_CreatedAt t) (th_UpdatedAt t).
Definition with_lead (t : Thread) (leadID : string) : Thread :=
  mkThread (th_ID t) (th_TenantID t) leadID (th_Phone t) (th_LastInboundAt t)
    (th_ServiceWindowUntil t) (th_CreatedAt t) (th_UpdatedAt t).
Definition with_inbound (t : Thread) (ts : Z) : Thread :=
  mkThread (th_ID t) (th_TenantID t) (th_LeadID t) (th_Phone t) ts (Until ts)
    (th_CreatedAt t) (th_UpdatedAt t).

Definition save_thread (t : Thread) : MW Thread := st (fun s n u => SaveThread s n u t).

(** A lookup that is skipped for an empty key and whose error means absence. *)
Definition lookup_if (k : string) (f : T -> werr + Thread) : MW (option Thread) :=
  if is_empty k then ret None
  else let! r := try (rd f) in ret (match r with inr t => Some t | inl _ => None end).

Definition threadForOutbound (tenantID leadID phone : string) : MW Thread :=
  let! byLead := lookup_if leadID (fun s => FindThreadByLead s tenantID leadID) in
  match byLead with
  | Some thread =>
      if negb (is_empty phone) && is_empty (th_Phone thread)
      then save_thread (with_phone thread phone) else ret thread
  | None =>
      let! byPhone := lookup_if phone (fun s => FindThreadByPhone s tenantID phone) in
      match byPhone with
      | Some thread =>
          if negb (is_empty leadID) && is_empty (th_LeadID thread)
          then save_thread (with_lead thread leadID) else ret thread
      | None =>
          let! t1 := now in
          let! t2 := now in
          save_thread (mkThread "" tenantID leadID phone time_zero time_zero t1 t2)
      end
  end.

Definition threadForInbound (e : NormalizedEvent) : MW Thread :=
  let! r := try (rd (fun s => FindThreadByPhone s (ne_TenantID e) (ne_Phone e))) in
  match r with
  | inr thread =>
      let thread := with_inbound thread (ne_Timestamp e) in
      save_thread (if negb (is_empty (ne_LeadID e)) && is_empty (th_LeadID thread)
                   then with_lead thread (ne_LeadID e) else thread)
  | inl ErrNotFound =>
      let leadID := first_nonempty (ne_LeadID e) (ne_Phone e) in
      let! t1 := now in
      let! t2 := now in
      save_thread (mkThread "" (ne_TenantID e) leadID (ne_Phone e) (ne_Timestamp e)
                     (Until (ne_Timestamp e)) t1 t2)
  | inl err => raise err
  end.

(** ** Templates and credentials *)

Definition RegisterTemplate (tmpl : Template) : MW Template :=
  let! _ := ensure (negb (is_empty (tm_TenantID tmpl))) (ErrOther "tenant_id is required") in
  let! _ := ensure (negb (is_empty (tm_Name tmpl) || is_empty (tm_Language tmpl)))
              (ErrOther "template name and language are required") in
  let! _ := check (ValidateCategory (tm_Category tmpl)) in
  st (fun s n u => SaveTemplate s n u
    (mkTmpl (tm_ID tmpl) (tm_TenantID tmpl) (tm_Name tmpl) (tm_Language tmpl) (tm_Category tmpl)
       (tm_Body tmpl) (first_nonempty (tm_Status tmpl) "draft")
       (first_nonempty (tm_MetaName tmpl) (tm_Name tmpl)) (tm_Variables tmpl) (tm_CreatedAt tmpl)
       (tm_UpdatedAt tmpl) (tm_SyncedAt tmpl) (tm_RemoteID tmpl) (tm_RemoteNote tmpl))).

Definition SeedPrebuiltTemplates (tenantID : string) : MW unit :=
  for_each (fun t => let! _ := RegisterTemplate t in ret tt) (Prebuilt tenantID).

Definition synced (tenantID : string) (existing : option Template) (item : RemoteTemplate) (t : Z)
    : Template :=
  let e := default (mkTmpl "" tenantID (rm_Name item) (rm_Language item) "" "" "" "" []
                      time_zero time_zero None "" "") existing in
  mkTmpl (tm_ID e) (tm_TenantID e) (tm_Name e) (tm_Language e) (rm_Category item) (rm_Body item)
    (rm_Status item) (rm_Name item) (tm_Variables e) (tm_CreatedAt e) (tm_UpdatedAt e) (Some t)
    (rm_RemoteID item) (tm_RemoteNote e).

Fixpoint sync_items (tenantID : string) (items : list RemoteTemplate) : MW (list Template) :=
  match items with
  | [] => ret []
  | item :: items' =>
      match ValidateCategory (rm_Category item) with
      | Some _ => sync_items tenantID items'
      | None =>
          let! r := try (rd (fun s =>
            FindTemplateByName s tenantID (rm_Name item) (rm_Language item))) in
          let existing := match r with inr e => Some e | inl _ => None end in
          let! t := now in
          let! saved := st (fun s n u => SaveTemplate s n u (synced tenantID existing item t)) in
          let! rest := sync_items tenantID items' in
          ret (saved :: rest)
      end
  end.

Definition SyncTemplates (tenantID : string) : MW (list Template) :=
  let! cred := rd (fun s => GetCredential s tenantID) in
  let! remote := or_retry (client_sync tenantID cred) tenantID "sync_templates" [] in
  sync_items tenantID remote.

(** ** Sending *)

Definition out_message (tenantID threadID leadID phone kind body templateID flowID : string)
    (atts : list Attachment) (metaID : string) (t : Z) : Message :=
  mkMessage "" tenantID threadID leadID phone DirectionOutbound kind body templateID flowID atts
    MessageStatusSent metaID t.

Definition save_message (m : Message) : MW Message := st (fun s n u => SaveMessage s n u m).

Definition SendTemplate (req : SendTemplateRequest) : MW Message :=
  let! tmpl := rd (fun s => GetTemplate s (str_TemplateID req)) in
  let tenantID := first_nonempty (str_TenantID req) (tm_TenantID tmpl) in
  let language := first_nonempty (str_Language req) (tm_Language tmpl) in
  let! _ := check (ValidateCategory (tm_Category tmpl)) in
  let! _ := ensureCanContact tenantID (str_LeadID req) (str_Phone req) in
  let! _ := ensureClaimAllowed tenantID (str_ProjectID req) (str_LeadID req) (tm_Body tmpl) in
  let! cred := rd (fun s => GetCredential s tenantID) in
  let! metaID := or_retry (client_send tenantID cred
                   (SendTemplateCall (str_Phone req) (tm_MetaName tmpl) language (str_Variables req)))
                   tenantID "send_template"
                   [("lead_id", str_LeadID req); ("template_id", str_TemplateID req)] in
  let! thread := threadForOutbound tenantID (str_LeadID req) (str_Phone req) in
  let! t := now in
  let! msg := save_message (out_message tenantID (th_ID thread) (str_LeadID req) (str_Phone req)
                MessageKindTemplate (tm_Body tmpl) (tm_ID tmpl) "" [] metaID t) in
  let! unitCost := lift (TemplateCostINR (tm_Category tmpl)) in
  let! t' := now in
  let! _ := st (fun s n u => AddUsageEvent s n u
    (mkWaUsage "" tenantID (str_LeadID req) (ms_ID msg) "whatsapp_template_message" 1 unitCost
       unitCost t')) in
  ret msg.

Definition SendMessage (req : SendMessageRequest) : MW Message :=
  let! thread := rd (fun s => GetThread s (smr_ThreadID req)) in
  let tenantID := first_nonempty (smr_TenantID req) (th_TenantID thread) in
  let! t0 := now in
  let! _ := ensure (IsOpen t0 (th_LastInboundAt thread)) ErrOutsideServiceWindow in
  let! _ := ensureCanContact tenantID (th_LeadID thread) (th_Phone thread) in
  let! _ := ensureClaimAllowed tenantID (smr_ProjectID req) (th_LeadID thread) (smr_Body req) in
  let! cred := rd (fun s => GetCredential s tenantID) in
  let! metaID := or_retry (client_send tenantID cred (SendTextCall (th_Phone thread) (smr_Body req)))
                   tenantID "send_message" [("thread_id", smr_ThreadID req)] in
  let! t := now in
  save_message (out_message tenantID (th_ID thread) (th_LeadID thread) (th_Phone thread)
    MessageKindText (smr_Body req) "" "" (smr_Attachments req) metaID t).

Definition SendFlow (req : SendFlowRequest) : MW Message :=
  let! _ := ensureCanContact (sfr_TenantID req) (sfr_LeadID req) (sfr_Phone req) in
  let! cred := rd (fun s => GetCredential s (sfr_TenantID req)) in
  let! metaID := or_retry (client_send (sfr_TenantID req) cred
                   (SendFlowCall (sfr_Phone req) (sfr_FlowID req) (sfr_Payload req)))
                   (sfr_TenantID req) "send_flow"
                   [("lead_id", sfr_LeadID req); ("flow_id", sfr_FlowID req)] in
  let! thread := threadForOutbound (sfr_TenantID req) (sfr_LeadID req) (sfr_Phone req) in
  let! t := now in
  save_message (out_message (sfr_TenantID req) (th_ID thread) (sfr_LeadID req) (sfr_Phone req)
    MessageKindFlow "" "" (sfr_FlowID req) [] metaID t).

(** ** The demo inbox *)

Definition demo_message (tenantID id threadID leadID phone direction kind body status : string)
    (t : Z) : Message :=
  mkMessage id tenantID threadID leadID phone direction kind body "" "" [] status "" t.

(** The seeded threads with their messages, relative to the time [n]. *)
Definition demo_seeds (tenantID : string) (n : Z) : list (Thread * list Message) := [
  (mkThread "wa-thread-demo-optout" tenantID "lead-demo-001" "+919876543210" (n - 12 * minute)
     (n + 23 * hour) (n - 18 * minute) (n - 12 * minute),
   [demo_message tenantID "wa-msg-demo-optout-1" "wa-thread-demo-optout" "lead-demo-001"
      "+919876543210" DirectionOutbound MessageKindTemplate
      "Hi Asha, thanks for your interest in Skyline Residency." MessageStatusDelivered
      (n - 18 * minute);
    demo_message tenantID "wa-msg-demo-optout-2" "wa-thread-demo-optout" "lead-demo-001"
      "+919876543210" DirectionInbound MessageKindText "STOP" MessageStatusReceived
      (n - 12 * minute)]);
  (mkThread "wa-thread-demo-visit" tenantID "lead-demo-002" "+919988776655" (n - 4 * minute)
     (n + 24 * hour) (n - 9 * minute) (n - 4 * minute),
   [demo_message tenantID "wa-msg-demo-visit-1" "wa-thread-demo-visit" "lead-demo-002"
      "+919988776655" DirectionInbound MessageKindText "Can I visit on Saturday?"
      MessageStatusReceived (n - 4 * minute);
    demo_message tenantID "wa-msg-demo-visit-2" "wa-thread-demo-visit" "lead-demo-002"
      "+919988776655" DirectionOutbound MessageKindText "Yes. I can hold a 4 PM slot for you."
      MessageStatusSent (n - 3 * minute)]);
  (mkThread "wa-thread-demo-template" tenantID "lead-demo-003" "+919123456780" time_zero time_zero
     (n - 30 * minute) (n - 30 * minute),
   [demo_message tenantID "wa-msg-demo-template-1" "wa-thread-demo-template" "lead-demo-003"
      "+919123456780" DirectionOutbound MessageKindTemplate
      "Reminder: your site visit is scheduled tomorrow at 10 AM." MessageStatusDelivered
      (n - 30 * minute)])].

Definition SeedDemoInbox (tenantID : string) : MW unit :=
  let! n := now in
  let! r := try (rd (fun s => GetCredential s tenantID)) in
  let! _ := match r with
            | inr _ => ret tt
            | inl _ => let! _ := st (fun s n u => UpsertCredential s n u
                         (mkCred tenantID "" "" "" "" "" time_zero)) in ret tt
            end in
  let! _ := for_each (fun item =>
      let! _ := save_thread item.1 in
      for_each (fun m => let! _ := save_message m in ret tt) item.2) (demo_seeds tenantID n) in
  let! _ := st (fun s n' u => AddOptOut s n' u
    (mkOptOut "" tenantID "lead-demo-001" "+919876543210" "whatsapp" "STOP" (n - 12 * minute))) in
  let! _ := st (fun s n' u => AddConsentLedger s n' u
    (mkLedger "" tenantID "lead-demo-001" "whatsapp" "withdrawal" "demo_inbox_seed" "STOP"
       (n - 12 * minute))) in
  ret tt.

(** ** Inbound events *)

Definition add_outbox (tenantID subject type : string) (payload : list (string * string))
    : MW unit :=
  let! t := now in
  let! _ := st (fun s n u => AddOutboxEvent s n u (mkWaOutbox "" tenantID subject type payload t)) in
  ret tt.

Definition recordOptOut (thread : Thread) (e : NormalizedEvent) : MW unit :=
  let! t1 := now in
  let! _ := st (fun s n u => AddOptOut s n u
    (mkOptOut "" (th_TenantID thread) (th_LeadID thread) (th_Phone thread) "whatsapp"
       (ne_Body e) t1)) in
  let! t2 := now in
  let! _ := st (fun s n u => AddConsentLedger s n u
    (mkLedger "" (th_TenantID thread) (th_LeadID thread) "whatsapp" "withdrawal" "whatsapp_reply"
       (ne_Body e) t2)) in
  add_outbox (th_TenantID thread) "tenant.inbox.notice" "whatsapp.opt_out"
    [("lead_id", th_LeadID thread); ("thread_id", th_ID thread); ("phone", th_Phone thread);
     ("reason", ne_Body e)].

Definition applyWebhookEvent (e : NormalizedEvent) : MW unit :=
  if bool_decide (ne_Type e = EventReply) || bool_decide (ne_Type e = EventOptOut) then
    let! thread := threadForInbound e in
    let! _ := save_message (mkMessage "" (ne_TenantID e) (th_ID thread) (th_LeadID thread)
      (th_Phone thread) DirectionInbound MessageKindText (ne_Body e) "" "" []
      MessageStatusReceived (ne_MessageID e) (ne_Timestamp e)) in
    let! _ := add_outbox (ne_TenantID e) "whatsapp.reply" "whatsapp.reply"
      [("lead_id", th_LeadID thread); ("thread_id", th_ID thread); ("phone", th_Phone thread);
       ("body", ne_Body e)] in
    if bool_decide (ne_Type e = EventOptOut) then recordOptOut thread e else ret tt
  else if bool_decide (ne_Type e = EventRead) || bool_decide (ne_Type e = EventDelivery) then
    add_outbox (ne_TenantID e) "whatsapp.status" (ne_Type e)
      [("message_id", ne_MessageID e); ("status", ne_Status e); ("phone", ne_Phone e)]
  else ret tt.

Definition with_tenant (tenantID : string) (e : NormalizedEvent) : NormalizedEvent :=
  mkNE (ne_ID e) (ne_Type e) (first_nonempty (ne_TenantID e) tenantID) (ne_LeadID e) (ne_Phone e)
    (ne_Body e) (ne_MessageID e) (ne_Status e) (ne_Timestamp e).

(** One iteration of the event loop of [ProcessWebhook]. *)
Definition process_event (tenantID body : string) (e : NormalizedEvent) : MW unit :=
  let e := with_tenant tenantID e in
  let! t := now in
  let! created := st (fun s n u => RecordWebhookEvent s n u
    (mkWaEvent "" (ne_TenantID e) (ne_ID e) (ne_Type e) body t)) in
  if created : bool then applyWebhookEvent e else ret tt.

Definition ProcessWebhook (tenantID body signature : string) : MW unit :=
  let! events := Normalize body in
  let tenantID := if is_empty tenantID
                  then match events with [] => tenantID | e :: _ => ne_TenantID e end
                  else tenantID in
  let! cred := rd (fun s => GetCredential s tenantID) in
  let! _ := ensure (VerifySignature env (vc_AppSecret cred) body signature) ErrInvalidSignature in
  for_each (process_event tenantID body) events.

(** ** Handlers *)

Definition statusFor (e : werr) : Z :=
  match e with
  | ErrInvalidSignature => 401
  | ErrOutsideServiceWindow => 409
  | ErrOptedOut => 403
  | ErrClaimBlocked _ => 422
  | _ => 400
  end.

(** A handler decodes its body, runs a method and answers with a status. *)
Definition respond {A} (m : MW A) (ok : Z) (err : werr -> Z) (w : W) : W * Z :=
  let '(w', r) := m w in (w', match r with inr _ => ok | inl e => err e end).

Definition tenant_of_request (header query : string) : string :=
  if is_empty header then (if is_empty query then "default" else query) else header.

Definition handleSendTemplate (req : option SendTemplateRequest) (header query : string) (w : W)
    : W * Z :=
  match req with
  | None => (w, 400)
  | Some r =>
      respond (SendTemplate (mkSendTemplate
        (first_nonempty (str_TenantID r) (tenant_of_request header query)) (str_ProjectID r)
        (str_LeadID r) (str_Phone r) (str_TemplateID r) (str_Language r) (str_Variables r)))
        202 statusFor w
  end.

Definition handleSendMessage (req : option SendMessageRequest) (header query : string) (w : W)
    : W * Z :=
  match req with
  | None => (w, 400)
  | Some r =>
      respond (SendMessage (mkSendMessage
        (first_nonempty (smr_TenantID r) (tenant_of_request header query)) (smr_ProjectID r)
        (smr_ThreadID r) (smr_Body r) (smr_Attachments r))) 202 statusFor w
  end.

Definition handleSendFlow (req : option SendFlowRequest) (header query : string) (w : W) : W * Z :=
  match req with
  | None => (w, 400)
  | Some r =>
      respond (SendFlow (mkSendFlow
        (first_nonempty (sfr_TenantID r) (tenant_of_request header query)) (sfr_LeadID r)
        (sfr_Phone r) (sfr_FlowID r) (sfr_Payload r))) 202 statusFor w
  end.

Definition with_tmpl_tenant (t : Template) (tenantID : string) : Template :=
  mkTmpl (tm_ID t) tenantID (tm_Name t) (tm_Language t) (tm_Category t) (tm_Body t) (tm_Status t)
    (tm_MetaName t) (tm_Variables t) (tm_CreatedAt t) (tm_UpdatedAt t) (tm_SyncedAt t)
    (tm_RemoteID t) (tm_RemoteNote t).

Definition handleRegisterTemplate (req : option Template) (header query : string) (w : W) : W * Z :=
  match req with
  | None => (w, 400)
  | Some r =>
      respond (RegisterTemplate (with_tmpl_tenant r
        (first_nonempty (tm_TenantID r) (tenant_of_request header query)))) 201 (fun _ => 400) w
  end.

Definition handleSyncTemplates (header query : string) (w : W) : W * Z :=
  respond (SyncTemplates (tenant_of_request header query)) 200 statusFor w.

Definition handleUpsertCredential (req : option VaultCredential) (header query : string) (w : W)
    : W * Z :=
  match req with
  | None => (w, 400)
  | Some c =>
      respond (st (fun s n u => UpsertCredential s n u
        (mkCred (first_nonempty (vc_TenantID c) (tenant_of_request header query))
           (vc_PhoneNumberID c) (vc_BusinessAccountID c) (vc_AccessToken c) (vc_VerifyToken c)
           (vc_AppSecret c) (vc_UpdatedAt c)))) 200 (fun _ => 400) w
  end.

Definition handleWebhook (body signature header query : string) (w : W) : W * Z :=
  respond (ProcessWebhook (tenant_of_request header query) body signature) 200 statusFor w.

End Service.
