(* ===== verification/WhatsappSafety.v ===== *)
(** * whatsapp-adapter: gated sends, opt-out, idempotent webhooks

    Proved against [WaLaws], which both stores satisfy. *)

From S2P Require Import Prelude GoTime Float64 Kv GoMonad GoStrings Whatsapp WhatsappService.

Open Scope Z_scope.

(** ** What the service relies on

    [same_gates]: the write keeps the opt-outs and the recorded events that
    were there. *)

Definition opted {T} `{WaStore T} (s : T) (tenantID leadID : string) : Prop :=
  IsOptedOut s tenantID leadID = inr true.

Class WaRecorded (T : Type) := wa_recorded : T -> string -> Prop.

Definition gates_le {T} `{WaStore T, WaRecorded T} (s s' : T) : Prop :=
  (forall tn l, opted s tn l -> opted s' tn l) /\
  (forall k, wa_recorded s k -> wa_recorded s' k).

Class WaLaws (T : Type) `{WaStore T, WaRecorded T} := {
  law_template s n u x : gates_le s (SaveTemplate s n u x).1;
  law_thread s n u x : gates_le s (SaveThread s n u x).1;
  law_message s n u x : gates_le s (SaveMessage s n u x).1;
  law_event s n u x : gates_le s (RecordWebhookEvent s n u x).1;
  law_optout s n u x : gates_le s (AddOptOut s n u x).1;
  law_ledger s n u x : gates_le s (AddConsentLedger s n u x).1;
  law_outbox s n u x : gates_le s (AddOutboxEvent s n u x).1;
  law_usage s n u x : gates_le s (AddUsageEvent s n u x).1;
  law_cred s n u x : gates_le s (UpsertCredential s n u x).1;
  law_retry s n u x : gates_le s (EnqueueRetry s n u x).1;
  (** A recorded event is recognised, and the store stays as it is. *)
  law_recorded s n u x :
    wa_recorded s (we_IdempotencyKey x) -> RecordWebhookEvent s n u x = (s, inr false);
  law_record s n u x s' b :
    RecordWebhookEvent s n u x = (s', inr b) -> wa_recorded s' (we_IdempotencyKey x);
  law_fresh s n u x s' :
    RecordWebhookEvent s n u x = (s', inr false) -> wa_recorded s (we_IdempotencyKey x);
  law_event_threads s n u x tn ph :
    FindThreadByPhone (RecordWebhookEvent s n u x).1 tn ph = FindThreadByPhone s tn ph;
  law_saved s n u x s' t :
    SaveThread s n u x = (s', inr t) -> th_TenantID t = th_TenantID x /\ th_LeadID t = th_LeadID x;
  law_opted s n u x s' o :
    AddOptOut s n u x = (s', inr o) -> oo_Channel x = "whatsapp" ->
    opted s' (oo_TenantID x) (oo_LeadID x)
}.

#[export] Instance gates_le_preorder {T} `{WaStore T, WaRecorded T} : PreOrder (gates_le (T:=T)).
Proof.
  split; [by intros s|]. intros s1 s2 s3 [H1 H2] [H3 H4]. split; intros; eauto.
Qed.

(** ** Both stores satisfy it *)

#[export] Instance fake_recorded : WaRecorded FakeWa.t :=
  fun f k => k <> "" /\ is_Some (FakeWa.webhookEvents f !! k).

#[export] Instance pg_recorded : WaRecorded PgWa.t :=
  fun p k => k <> "" /\ kv_up (PgWa.webhook_events p) = true /\
             is_Some (rows_get k (kv_rows (PgWa.webhook_events p))).

Lemma fake_gates f f' :
  FakeWa.optOuts f' = FakeWa.optOuts f -> FakeWa.webhookEvents f' = FakeWa.webhookEvents f ->
  gates_le f f'.
Proof.
  intros Ho He. split.
  - unfold opted. cbn. unfold FakeWa.isOptedOut. by rewrite Ho.
  - unfold wa_recorded, fake_recorded. by rewrite He.
Qed.

#[export] Instance fake_laws : WaLaws FakeWa.t.
Proof.
  split; intros; cbn in *;
    try by (apply fake_gates; unfold FakeWa.saveTemplate, FakeWa.saveThread, FakeWa.saveMessage,
      FakeWa.addConsentLedger, FakeWa.addOutboxEvent, FakeWa.addUsageEvent,
      FakeWa.upsertCredential, FakeWa.enqueueRetry; simpl; split_cases).
  - unfold FakeWa.recordWebhookEvent. split_cases; try by (apply fake_gates).
    split; [done|]. intros k [Hk Hs]. split; [done|]. simpl.
    destruct (decide (k = we_IdempotencyKey x)) as [->|]; [by rewrite lookup_insert_eq|].
    by rewrite lookup_insert_ne.
  - unfold FakeWa.addOptOut. split; [|done]. intros tn l. unfold opted. cbn.
    unfold FakeWa.isOptedOut. simpl. intros [= Hb]. go_bool. f_equal. apply bool_decide_eq_true.
    destruct (decide (key tn l = key (oo_TenantID x) (oo_LeadID x))) as [->|];
      [by rewrite lookup_insert_eq|by rewrite lookup_insert_ne].
  - match goal with H : wa_recorded _ _ |- _ => destruct H as [Hk [e He]] end.
    unfold FakeWa.recordWebhookEvent. unfold is_empty. rewrite bool_decide_false by done.
    by rewrite He.
  - match goal with H : FakeWa.recordWebhookEvent _ _ _ _ = _ |- _ => revert H end.
    unfold FakeWa.recordWebhookEvent. intros Hr. split_in Hr; unfold is_empty in *; go_bool.
    all: (split; [done|]); simpl; rewrite ?lookup_insert_eq; eauto.
  - match goal with H : FakeWa.recordWebhookEvent _ _ _ _ = _ |- _ => revert H end.
    unfold FakeWa.recordWebhookEvent. intros Hr. split_in Hr; unfold is_empty in *; go_bool.
    by split; [|eexists].
  - unfold FakeWa.recordWebhookEvent. by split_cases.
  - unfold FakeWa.saveThread in *. by simplify_eq.
  - match goal with H : FakeWa.addOptOut _ _ _ _ = _ |- _ => injection H as <- <- end.
    unfold opted. cbn. unfold FakeWa.isOptedOut. simpl.
    by rewrite lookup_insert_eq.
Qed.

Lemma pg_gates p p' :
  PgWa.opt_outs p' = PgWa.opt_outs p -> PgWa.webhook_events p' = PgWa.webhook_events p ->
  gates_le p p'.
Proof.
  intros Ho He. split.
  - unfold opted. cbn. unfold PgWa.isOptedOut. by rewrite Ho.
  - unfold wa_recorded, pg_recorded. by rewrite He.
Qed.

Lemma opted_pg p tn l :
  opted p tn l <-> kv_up (PgWa.opt_outs p) = true /\
    is_Some (rows_get (PgWa.optOutKey tn l "whatsapp") (kv_rows (PgWa.opt_outs p))).
Proof.
  unfold opted. cbn. unfold PgWa.isOptedOut, kv_get. destruct (kv_up _); [|naive_solver].
  split; [intros [= Hb]; by go_bool|intros [_ Hs]; f_equal; by apply bool_decide_eq_true].
Qed.

Lemma is_Some_put {A} k k' (v : A) l :
  is_Some (rows_get k l) -> is_Some (rows_get k (rows_put k' v l)).
Proof. rewrite rows_get_put. by case_decide. Qed.

#[export] Instance pg_laws : WaLaws PgWa.t.
Proof.
  split; intros; cbn in *;
    try by (apply pg_gates; unfold PgWa.saveTemplate, PgWa.saveThread, PgWa.put_by_lead,
      PgWa.put_by_phone, PgWa.saveMessage, PgWa.addConsentLedger, PgWa.addOutboxEvent,
      PgWa.addUsageEvent, PgWa.upsertCredential, PgWa.enqueueRetry; simpl; split_cases).
  - unfold PgWa.recordWebhookEvent, kv_insert. split_cases; try by apply pg_gates.
    split; [done|]. intros k (Hk & Hu & Hs). split; [done|]. simpl. split; [done|].
    by apply is_Some_put.
  - unfold PgWa.addOptOut, kv_set, kv_put. split; [|by split_cases]. intros tn l.
    rewrite !opted_pg. destruct (kv_up (PgWa.opt_outs s)) eqn:E; simpl; intros [Hu Hs]; [|done].
    split; [done|by apply is_Some_put].
  - match goal with H : wa_recorded _ _ |- _ => destruct H as (Hk & Hu & [e He]) end.
    unfold PgWa.recordWebhookEvent, is_empty. rewrite bool_decide_false by done.
    unfold kv_insert. rewrite Hu, He. by destruct s.
  - match goal with H : PgWa.recordWebhookEvent _ _ _ _ = _ |- _ => revert H end.
    unfold PgWa.recordWebhookEvent, kv_insert. intros Hr. split_in Hr; unfold is_empty in *; go_bool.
    match goal with H : (if kv_up _ then _ else _) = Ok _ |- _ => split_in H end.
    all: (split; [done|]); simpl; (split; [done|]); rewrite ?rows_get_put_eq; eauto.
  - match goal with H : PgWa.recordWebhookEvent _ _ _ _ = _ |- _ => revert H end.
    unfold PgWa.recordWebhookEvent, kv_insert. intros Hr. split_in Hr; unfold is_empty in *; go_bool.
    match goal with H : (if kv_up _ then _ else _) = Ok _ |- _ => split_in H end.
    by split_and!; [..|eexists].
  - unfold PgWa.recordWebhookEvent. by split_cases.
  - match goal with H : PgWa.saveThread _ _ _ _ = _ |- _ => revert H end.
    unfold PgWa.saveThread. intros Hr. by split_in Hr; unfold PgWa.from_err in *; split_cases.
  - match goal with H : PgWa.addOptOut _ _ _ _ = _ |- _ => revert H end.
    unfold PgWa.addOptOut, kv_set, kv_put. intros Hr. rewrite opted_pg.
    destruct (kv_up (PgWa.opt_outs s)); simpl in Hr; [|done]. injection Hr as <- _. simpl.
    match goal with H : oo_Channel x = _ |- _ => rewrite H end. simpl.
    split; [done|]. rewrite rows_get_put_eq. by eexists.
Qed.

(** ** Steps of the service *)

Inductive wa_op :=
| OpTemplate (req : SendTemplateRequest)
| OpMessage (req : SendMessageRequest)
| OpFlow (req : SendFlowRequest)
| OpWebhook (tenantID body signature : string)
| OpRegister (tmpl : Template)
| OpSync (tenantID : string)
| OpCredential (cred : VaultCredential)
| OpSeedTemplates (tenantID : string)
| OpSeedDemo (tenantID : string).

Section Steps.
Context {T : Type} `{WaLaws T} (env : WaEnv).
Abbreviation W := (Wa T).
Abbreviation MW := (M W werr).

Definition wa_run (op : wa_op) : MW unit :=
  match op with
  | OpTemplate req => let! _ := SendTemplate env req in ret tt
  | OpMessage req => let! _ := SendMessage env req in ret tt
  | OpFlow req => let! _ := SendFlow env req in ret tt
  | OpWebhook tn body sig => ProcessWebhook env tn body sig
  | OpRegister tmpl => let! _ := RegisterTemplate env tmpl in ret tt
  | OpSync tn => let! _ := SyncTemplates env tn in ret tt
  | OpCredential c => let! _ := st env (fun s n u => UpsertCredential s n u c) in ret tt
  | OpSeedTemplates tn => SeedPrebuiltTemplates env tn
  | OpSeedDemo tn => SeedDemoInbox env tn
  end.

(** One request, whatever its outcome. *)
Definition wa_step (w : W) (op : wa_op) : W := (wa_run op w).1.

(** *** Opt-outs and recorded events stay *)

Definition R_gates (w w' : W) : Prop := gates_le (wa_store w) (wa_store w').

#[local] Instance R_gates_pre : PreOrder R_gates.
Proof. split; [by intros w|]. intros w1 w2 w3. unfold R_gates. apply transitivity. Qed.

Lemma gates_now : keeps R_gates (now env).
Proof. intros w. unfold R_gates. simpl. reflexivity. Qed.
Lemma gates_rd {A} (f : T -> werr + A) : keeps R_gates (rd f).
Proof. intros w. unfold R_gates. simpl. reflexivity. Qed.
Lemma gates_lift {A} (r : werr + A) : keeps R_gates (lift (T:=T) r).
Proof. intros w. unfold R_gates. simpl. reflexivity. Qed.
Lemma gates_send tn cred c : keeps R_gates (client_send (T:=T) env tn cred c).
Proof. intros w. unfold R_gates, client_send. destruct (defaultDemoTenant _ _); simpl; reflexivity. Qed.
Lemma gates_sync tn cred : keeps R_gates (client_sync (T:=T) env tn cred).
Proof. intros w. unfold R_gates, client_sync. destruct (defaultDemoTenant _ _); simpl; reflexivity. Qed.
Lemma gates_st {A} (f : T -> Z -> string -> T * (werr + A)) :
  (forall s n u, gates_le s (f s n u).1) -> keeps R_gates (st env f).
Proof.
  intros Hf w. unfold R_gates, st. specialize (Hf (wa_store w) (e_now env (wa_reads w))
    (e_uuid env (wa_ids w))). by destruct (f _ _ _).
Qed.

#[local] Hint Resolve law_template law_thread law_message law_event law_optout law_ledger
  law_outbox law_usage law_cred law_retry R_gates_pre : keeps.
#[local] Hint Resolve gates_now gates_rd gates_lift gates_send gates_sync gates_st : keeps.

Lemma gates_check e : keeps R_gates (check (T:=T) e).
Proof. destruct e; simpl; auto with keeps. Qed.
Lemma gates_retry tn op p e : keeps R_gates (enqueueRateLimitRetry (T:=T) env tn op p e).
Proof. unfold enqueueRateLimitRetry. keeps_tac. Qed.
#[local] Hint Resolve gates_check gates_retry : keeps.
Lemma gates_or_retry {A} (m : MW A) tn op p : keeps R_gates m -> keeps R_gates (or_retry env m tn op p).
Proof. intros Hm. unfold or_retry. keeps_tac. Qed.
#[local] Hint Resolve gates_or_retry : keeps.

Lemma gates_complete body i evs : keeps R_gates (complete (T:=T) env body i evs).
Proof. revert i. induction evs as [|e evs IH]; intros i; simpl; keeps_tac. Qed.
Lemma gates_sync_items tn items : keeps R_gates (sync_items (T:=T) env tn items).
Proof. induction items as [|x items IH]; simpl; keeps_tac. Qed.
Lemma gates_out tn l p : keeps R_gates (threadForOutbound (T:=T) env tn l p).
Proof. unfold threadForOutbound, lookup_if, save_thread. keeps_tac. Qed.
Lemma gates_in e : keeps R_gates (threadForInbound (T:=T) env e).
Proof. unfold threadForInbound, save_thread. keeps_tac. Qed.
Lemma gates_contact tn l p : keeps R_gates (ensureCanContact (T:=T) env tn l p).
Proof. unfold ensureCanContact. keeps_tac. Qed.
Lemma gates_claim tn p l t : keeps R_gates (ensureClaimAllowed (T:=T) env tn p l t).
Proof. unfold ensureClaimAllowed. keeps_tac. Qed.
Lemma gates_register t : keeps R_gates (RegisterTemplate (T:=T) env t).
Proof. unfold RegisterTemplate. keeps_tac. Qed.
#[local] Hint Resolve gates_complete gates_sync_items gates_out gates_in gates_contact gates_claim
  gates_register : keeps.
Lemma gates_outbox tn s t p : keeps R_gates (add_outbox (T:=T) env tn s t p).
Proof. unfold add_outbox. keeps_tac. Qed.
#[local] Hint Resolve gates_outbox : keeps.
Lemma gates_apply e : keeps R_gates (applyWebhookEvent (T:=T) env e).
Proof. unfold applyWebhookEvent, recordOptOut, save_message. keeps_tac. Qed.
#[local] Hint Resolve gates_apply : keeps.
Lemma gates_event tn b e : keeps R_gates (process_event (T:=T) env tn b e).
Proof. unfold process_event. keeps_tac. Qed.
#[local] Hint Resolve gates_event : keeps.

(** No operation removes an opt-out or forgets a webhook event. *)
Lemma gates_run op : keeps R_gates (wa_run op).
Proof.
  destruct op; simpl; unfold SendTemplate, SendMessage, SendFlow, ProcessWebhook, Normalize,
    SyncTemplates, SeedPrebuiltTemplates, SeedDemoInbox, save_message, save_thread; keeps_tac.
Qed.

Lemma gates_steps ops w : gates_le (wa_store w) (wa_store (foldl wa_step w ops)).
Proof.
  revert w. induction ops as [|op ops IH]; intros w; simpl; [reflexivity|].
  etrans; [apply (gates_run op w)|apply IH].
Qed.

(** *** Everything sent has passed the gates *)

(** Two states with the same store and the same log. *)
Definition R_quiet (w w' : W) : Prop := wa_store w' = wa_store w /\ wa_sent w' = wa_sent w.
(** Two states with the same log. *)
Definition R_sent (w w' : W) : Prop := wa_sent w' = wa_sent w.

#[local] Instance R_quiet_pre : PreOrder R_quiet.
Proof. split; [by intros w|]. intros w1 w2 w3 [] []. split; congruence. Qed.
#[local] Instance R_sent_pre : PreOrder R_sent.
Proof. split; [by intros w|]. intros w1 w2 w3. unfold R_sent. congruence. Qed.

Lemma quiet_now : keeps R_quiet (now env).
Proof. by intros w. Qed.
Lemma quiet_rd {A} (f : T -> werr + A) : keeps R_quiet (rd f).
Proof. by intros w. Qed.
Lemma quiet_lift {A} (r : werr + A) : keeps R_quiet (lift (T:=T) r).
Proof. by intros w. Qed.
#[local] Hint Resolve quiet_now quiet_rd quiet_lift R_quiet_pre R_sent_pre : keeps.
Lemma quiet_check e : keeps R_quiet (check (T:=T) e).
Proof. destruct e; simpl; auto with keeps. Qed.
#[local] Hint Resolve quiet_check : keeps.
Lemma quiet_contact tn l p : keeps R_quiet (ensureCanContact (T:=T) env tn l p).
Proof. unfold ensureCanContact. keeps_tac. Qed.
Lemma quiet_claim tn p l t : keeps R_quiet (ensureClaimAllowed (T:=T) env tn p l t).
Proof. unfold ensureClaimAllowed. keeps_tac. Qed.
Lemma quiet_complete body i evs : keeps R_quiet (complete (T:=T) env body i evs).
Proof. revert i. induction evs as [|e evs IH]; intros i; simpl; keeps_tac. Qed.
#[local] Hint Resolve quiet_contact quiet_claim quiet_complete : keeps.
Lemma quiet_normalize body : keeps R_quiet (Normalize (T:=T) env body).
Proof. unfold Normalize. keeps_tac. Qed.
#[local] Hint Resolve quiet_normalize : keeps.

Lemma quiet_sent {A} (m : MW A) : keeps R_quiet m -> keeps R_sent m.
Proof. intros Hm w. apply Hm. Qed.

Lemma sent_st {A} (f : T -> Z -> string -> T * (werr + A)) : keeps R_sent (st env f).
Proof. intros w. unfold R_sent, st. by destruct (f _ _ _). Qed.
Lemma sent_now : keeps R_sent (now (T:=T) env).
Proof. apply quiet_sent, quiet_now. Qed.
Lemma sent_rd {A} (f : T -> werr + A) : keeps R_sent (rd f).
Proof. apply quiet_sent, quiet_rd. Qed.
Lemma sent_lift {A} (r : werr + A) : keeps R_sent (lift (T:=T) r).
Proof. apply quiet_sent, quiet_lift. Qed.
Lemma sent_normalize body : keeps R_sent (Normalize (T:=T) env body).
Proof. apply quiet_sent, quiet_normalize. Qed.
Lemma sent_check e : keeps R_sent (check (T:=T) e).
Proof. apply quiet_sent, quiet_check. Qed.
#[local] Hint Resolve sent_st sent_now sent_rd sent_lift sent_normalize sent_check : keeps.
Lemma sent_retry tn op p e : keeps R_sent (enqueueRateLimitRetry (T:=T) env tn op p e).
Proof. unfold enqueueRateLimitRetry. keeps_tac. Qed.
Lemma sent_out tn l p : keeps R_sent (threadForOutbound (T:=T) env tn l p).
Proof. unfold threadForOutbound, lookup_if, save_thread. keeps_tac. Qed.
Lemma sent_in e : keeps R_sent (threadForInbound (T:=T) env e).
Proof. unfold threadForInbound, save_thread. keeps_tac. Qed.
Lemma sent_message m : keeps R_sent (save_message (T:=T) env m).
Proof. apply sent_st. Qed.
Lemma sent_register t : keeps R_sent (RegisterTemplate (T:=T) env t).
Proof. unfold RegisterTemplate. keeps_tac. Qed.
Lemma sent_outbox tn s t p : keeps R_sent (add_outbox (T:=T) env tn s t p).
Proof. unfold add_outbox. keeps_tac. Qed.
Lemma sent_sync_items tn items : keeps R_sent (sync_items (T:=T) env tn items).
Proof. induction items as [|x items IH]; simpl; keeps_tac. Qed.
#[local] Hint Resolve sent_retry sent_out sent_in sent_message sent_register sent_outbox
  sent_sync_items : keeps.
Lemma sent_event tn b e : keeps R_sent (process_event (T:=T) env tn b e).
Proof. unfold process_event, applyWebhookEvent, recordOptOut. keeps_tac. Qed.
#[local] Hint Resolve sent_event : keeps.

(** Starting in [w], [m] sends at most one message, and only one that satisfies [P]. *)
Definition emits (P : meta_call -> Prop) {A} (m : MW A) (w : W) : Prop :=
  wa_sent (m w).1 = wa_sent w \/
  exists x, wa_sent (m w).1 = wa_sent w ++ [x] /\ P (sn_call x).

Lemma emits_sent P {A} (m : MW A) w : keeps R_sent m -> emits P m w.
Proof. intros Hm. left. apply Hm. Qed.

(** A quiet prefix: its result is known in the rest. *)
Lemma emits_quiet P {A B} (m : MW A) (f : A -> MW B) w :
  keeps R_quiet m ->
  (forall a w1, m w = (w1, inr a) -> R_quiet w w1 -> emits P (f a) w1) ->
  emits P (bind m f) w.
Proof.
  intros Hm Hf. unfold emits, bind. specialize (Hm w). destruct (m w) as [w1 [e|a]] eqn:E; simpl in *.
  - left. apply Hm.
  - destruct (Hf a w1 eq_refl Hm) as [He|(x & He & Hx)]; destruct Hm as [_ Hs].
    + left. congruence.
    + right. exists x. split; [congruence|done].
Qed.

(** A silent rest. *)
Lemma emits_tail P {A B} (m : MW A) (f : A -> MW B) w :
  emits P m w -> (forall a, keeps R_sent (f a)) -> emits P (bind m f) w.
Proof.
  intros Hm Hf. unfold emits, bind in *. destruct (m w) as [w1 [e|a]]; simpl in *; [done|].
  specialize (Hf a w1). unfold R_sent in Hf. by rewrite Hf.
Qed.

Lemma emits_send P tn cred c op p w :
  P c -> emits P (or_retry env (client_send env tn cred c) tn op p) w.
Proof.
  intros HP. unfold or_retry. apply emits_tail; [|intros [e|a]; keeps_tac].
  right. unfold try, client_send.
  destruct (defaultDemoTenant env tn); simpl; eexists; split; done.
Qed.

(** What the gates have established when a message goes out: the lead has not
    opted out, the consent service allows the contact, and claim control, where
    it is configured, accepts the text. *)
Definition may_contact (w : W) (tn l phone : string) : Prop :=
  IsOptedOut (wa_store w) tn l = inr false /\
  exists t reason, e_consent env (mkOutreach tn l phone "whatsapp" t) = inr (true, reason).

Definition may_say (tn project l text : string) : Prop :=
  match e_claims env with
  | None => True
  | Some claims => exists r, claims (mkCheck tn project l "whatsapp" text) = inr r /\ ck_OK r = true
  end.

Lemma contact_ok tn l phone w w1 u :
  ensureCanContact env tn l phone w = (w1, inr u) -> may_contact w tn l phone.
Proof.
  unfold ensureCanContact. intros Hr.
  apply bind_ok in Hr as (w2 & o & Hr & H2). unfold rd in Hr. injection Hr as <- Ho.
  apply bind_ok in H2 as (w3 & [] & H2 & H3). apply ensure_ok in H2 as [H2 ->].
  apply bind_ok in H3 as (w4 & t & _ & H4). go_bool. subst o. split; [done|].
  exists t. destruct (e_consent env _) as [e|[b r]]; [done|].
  apply ensure_ok in H4 as [-> _]. eauto.
Qed.

Lemma claim_ok tn project l text (w w1 : W) u :
  ensureClaimAllowed env tn project l text w = (w1, inr u) -> may_say tn project l text.
Proof.
  unfold ensureClaimAllowed, may_say. destruct (e_claims env) as [claims|]; [|done].
  destruct (claims _) as [e|r]; [done|]. intros [Hr _]%ensure_ok. eauto.
Qed.

(** A message that [op] may send in state [w]. *)
Definition permitted (w : W) (op : wa_op) (c : meta_call) : Prop :=
  match op, c with
  | OpTemplate req, SendTemplateCall to name _ _ =>
      exists tmpl, GetTemplate (wa_store w) (str_TemplateID req) = inr tmpl /\
        to = str_Phone req /\ name = tm_MetaName tmpl /\
        let tn := first_nonempty (str_TenantID req) (tm_TenantID tmpl) in
        may_contact w tn (str_LeadID req) to /\
        may_say tn (str_ProjectID req) (str_LeadID req) (tm_Body tmpl)
  | OpMessage req, SendTextCall to body =>
      exists thread t, GetThread (wa_store w) (smr_ThreadID req) = inr thread /\
        to = th_Phone thread /\ body = smr_Body req /\
        th_LastInboundAt thread <> time_zero /\ t <= th_LastInboundAt thread + 24 * hour /\
        e_now env (wa_reads w) = t /\
        let tn := first_nonempty (smr_TenantID req) (th_TenantID thread) in
        may_contact w tn (th_LeadID thread) to /\
        may_say tn (smr_ProjectID req) (th_LeadID thread) body
  | OpFlow req, SendFlowCall to flow _ =>
      to = sfr_Phone req /\ flow = sfr_FlowID req /\
      may_contact w (sfr_TenantID req) (sfr_LeadID req) to
  | OpSync _, SyncCall => True
  | _, _ => False
  end.

Lemma IsOpen_spec t last : IsOpen t last = true -> last <> time_zero /\ t <= last + 24 * hour.
Proof.
  unfold IsOpen, Until, is_zero, ServiceWindow. destruct (last =? time_zero) eqn:E; [done|].
  intros Hn. go_bool. lia.
Qed.

Lemma may_contact_quiet w w1 tn l p :
  R_quiet w w1 -> may_contact w1 tn l p -> may_contact w tn l p.
Proof. intros [Hs _] [Ho Hc]. split; [by rewrite <- Hs|done]. Qed.

Ltac quiet_step x :=
  apply emits_quiet; [solve [auto with keeps]|];
  let w1 := fresh "w" in let H := fresh "Hrun" in let Q := fresh "Hq" in
  intros x w1 H Q.

Lemma template_emits req w : emits (permitted w (OpTemplate req)) (SendTemplate env req) w.
Proof.
  unfold SendTemplate. quiet_step tmpl. injection Hrun as <- Ht. quiet_step u1. quiet_step u2.
  quiet_step u3. quiet_step cred.
  apply emits_tail; [|keeps_tac]. apply emits_send. exists tmpl.
  apply contact_ok in Hrun0. apply claim_ok in Hrun1.
  apply (may_contact_quiet _ _ _ _ _ Hq0) in Hrun0. by cbv zeta; split_and!.
Qed.

Lemma message_emits req w : emits (permitted w (OpMessage req)) (SendMessage env req) w.
Proof.
  unfold SendMessage. quiet_step thread. injection Hrun as <- Ht. quiet_step t0.
  injection Hrun as <- Hnow. quiet_step u1. apply ensure_ok in Hrun as [Hopen ->].
  apply IsOpen_spec in Hopen. quiet_step u2. quiet_step u3. quiet_step cred.
  apply emits_tail; [|keeps_tac]. apply emits_send. exists thread, t0.
  apply contact_ok in Hrun. apply claim_ok in Hrun0.
  apply (may_contact_quiet _ _ _ _ _ Hq0) in Hrun. by cbv zeta; split_and!; try apply Hopen.
Qed.

Lemma flow_emits req w : emits (permitted w (OpFlow req)) (SendFlow env req) w.
Proof.
  unfold SendFlow. quiet_step u1. quiet_step cred. apply emits_tail; [|keeps_tac].
  apply emits_send. apply contact_ok in Hrun. done.
Qed.

Lemma sync_emits tn w : emits (permitted w (OpSync tn)) (SyncTemplates env tn) w.
Proof.
  unfold SyncTemplates. quiet_step cred. apply emits_tail; [|keeps_tac].
  unfold or_retry. apply emits_tail; [|intros [e|a]; keeps_tac].
  unfold emits, try, client_sync. destruct (defaultDemoTenant env tn); simpl; [by left|].
  right. eexists. split; done.
Qed.

(** One request sends at most one message, and only a permitted one. *)
Lemma step_permitted w op : emits (permitted w op) (wa_run op) w.
Proof.
  destruct op as [req|req|req|tn body sig|tmpl|tn|c|tn|tn]; simpl wa_run.
  - apply emits_tail; [apply template_emits|keeps_tac].
  - apply emits_tail; [apply message_emits|keeps_tac].
  - apply emits_tail; [apply flow_emits|keeps_tac].
  - apply emits_sent. unfold ProcessWebhook. keeps_tac.
  - apply emits_sent. keeps_tac.
  - apply emits_tail; [apply sync_emits|keeps_tac].
  - apply emits_sent. keeps_tac.
  - apply emits_sent. unfold SeedPrebuiltTemplates. keeps_tac.
  - apply emits_sent. unfold SeedDemoInbox, save_thread. keeps_tac.
Qed.

(** *** Opt-outs are final *)

(** The tenant and the lead a request wants to contact. *)
Definition targets (w : W) (op : wa_op) : option (string * string) :=
  match op with
  | OpTemplate req =>
      match GetTemplate (wa_store w) (str_TemplateID req) with
      | inr tmpl => Some (first_nonempty (str_TenantID req) (tm_TenantID tmpl), str_LeadID req)
      | inl _ => None
      end
  | OpMessage req =>
      match GetThread (wa_store w) (smr_ThreadID req) with
      | inr th => Some (first_nonempty (smr_TenantID req) (th_TenantID th), th_LeadID th)
      | inl _ => None
      end
  | OpFlow req => Some (sfr_TenantID req, sfr_LeadID req)
  | _ => None
  end.

Lemma opted_blocks w op tn l :
  opted (wa_store w) tn l -> targets w op = Some (tn, l) -> wa_sent (wa_step w op) = wa_sent w.
Proof.
  intros Ho Ht. unfold opted in Ho.
  destruct (step_permitted w op) as [Hs|(x & _ & Hp)]; [done|].
  destruct op as [req|req|req|? ? ?| | | | |]; simpl in Ht; try done.
  all: destruct (sn_call x); simpl in Hp; try done.
  - destruct Hp as (tmpl & E & _ & _ & [Hf _] & _). rewrite E in Ht. simplify_eq. congruence.
  - destruct Hp as (thr & t & E & _ & _ & _ & _ & _ & [Hf _] & _). rewrite E in Ht. simplify_eq.
    congruence.
  - destruct Hp as (_ & _ & [Hf _]). simplify_eq. congruence.
Qed.

Lemma opted_blocks_after w ops op tn l :
  let w' := foldl wa_step w ops in
  opted (wa_store w) tn l -> targets w' op = Some (tn, l) -> wa_sent (wa_step w' op) = wa_sent w'.
Proof. intros w' Ho. apply opted_blocks. by apply gates_steps. Qed.

(** A new opt-out event of a phone whose thread has a lead opts that lead out,
    under the tenant the event names. *)
Lemma event_opts_out tn body e w w1 th l :
  process_event env tn body e w = (w1, inr tt) ->
  ne_Type e = EventOptOut -> ~ wa_recorded (wa_store w) (ne_ID e) ->
  let tn' := first_nonempty (ne_TenantID e) tn in
  FindThreadByPhone (wa_store w) tn' (ne_Phone e) = inr th ->
  th_LeadID th = l -> l <> "" -> opted (wa_store w1) (th_TenantID th) l.
Proof.
  intros Hr Hty Hnew tn' Hth Hl Hne. unfold process_event in Hr.
  apply bind_ok in Hr as (w2 & t & H2 & Hr). unfold now in H2. injection H2 as <- _.
  apply bind_ok in Hr as (w3 & created & H3 & Hr). unfold st in H3. simpl in H3.
  set (ev := mkWaEvent _ _ _ _ _ _) in H3.
  pose proof (law_event_threads (wa_store w) (e_now env (S (wa_reads w))) (e_uuid env (wa_ids w))
    ev tn' (ne_Phone e)) as Hkeep.
  destruct (RecordWebhookEvent _ _ _ ev) as [s3 r3] eqn:E3. simpl in Hkeep.
  injection H3 as <- ->.
  destruct created; [|by apply law_fresh in E3].
  unfold applyWebhookEvent in Hr. change (ne_Type (with_tenant tn e)) with (ne_Type e) in Hr.
  rewrite Hty in Hr. cbn [bool_decide EventReply EventOptOut orb] in Hr.
  rewrite (bool_decide_true (EventOptOut = EventOptOut)), orb_true_r in Hr by done.
  apply bind_ok in Hr as (w4 & th4 & H4 & Hr).
  unfold threadForInbound in H4. apply bind_ok in H4 as (w5 & r5 & H5 & H4).
  unfold try, rd in H5. simpl in H5. fold tn' in H5. rewrite Hkeep, Hth in H5.
  injection H5 as <- <-. unfold save_thread, st in H4. simpl in H4.
  destruct (SaveThread _ _ _ _) as [s4 r4] eqn:E4. injection H4 as <- ->.
  apply law_saved in E4 as [Et El].
  apply bind_ok in Hr as (w6 & m6 & _ & Hr). apply bind_ok in Hr as (w7 & u7 & _ & Hr).
  unfold recordOptOut in Hr. apply bind_ok in Hr as (w8 & t8 & _ & Hr).
  apply bind_ok in Hr as (w9 & o9 & H9 & Hr). unfold st in H9.
  destruct (AddOptOut _ _ _ _) as [s9 r9] eqn:E9. injection H9 as <- ->.
  apply law_opted in E9; [|done]. simpl in E9.
  match type of Hr with ?m ?x = _ => assert (Hk : keeps R_gates m) by keeps_tac;
    specialize (Hk x); rewrite Hr in Hk end.
  apply Hk. simpl.
  assert (Hl4 : th_LeadID th4 = l).
  { rewrite El. unfold is_empty. rewrite Hl. rewrite (bool_decide_false (l = "")) by done.
    by rewrite andb_false_r. }
  assert (Ht4 : th_TenantID th4 = th_TenantID th) by (rewrite Et; by destruct (_ && _)).
  by rewrite <- Hl4, <- Ht4.
Qed.

(** *** Redelivered webhooks *)

Fixpoint complete_ids (body : string) (i : N) (ids : list string) : list string :=
  match ids with
  | [] => []
  | id :: ids' =>
      (if is_empty id then e_sha256 env (body ++ String (Ascii.ascii_of_N i) "") else id)
      :: complete_ids body (i + 1) ids'
  end.

(** The idempotency keys of the events in a body. *)
Definition webhook_ids (body : string) : list string :=
  match e_decode env body with
  | None => []
  | Some p => complete_ids body 0
                match normalize_all env p with [] => [e_sha256 env body] | evs => ne_ID <$> evs end
  end.

Lemma complete_ids_ok body i evs (w w1 : W) out :
  complete env body i evs w = (w1, inr out) -> ne_ID <$> out = complete_ids body i (ne_ID <$> evs).
Proof.
  revert i w w1 out. induction evs as [|e evs IH]; intros i w w1 out Hr; simpl in Hr.
  - by injection Hr as <- <-.
  - apply bind_ok in Hr as (w2 & ts & _ & Hr). apply bind_ok in Hr as (w3 & rest & H3 & Hr).
    injection Hr as _ <-. csimpl. f_equal. by eapply IH.
Qed.

Lemma normalize_ids body (w w1 : W) evs :
  Normalize env body w = (w1, inr evs) -> ne_ID <$> evs = webhook_ids body.
Proof.
  unfold Normalize, webhook_ids. destruct (e_decode env body) as [p|]; [|done]. intros Hr.
  apply bind_ok in Hr as (w2 & l & H2 & Hr). apply complete_ids_ok in Hr. rewrite Hr.
  destruct (normalize_all env p).
  - apply bind_ok in H2 as (w3 & t & _ & H2). by injection H2 as _ <-.
  - by injection H2 as _ <-.
Qed.

Definition all_recorded (s : T) (ids : list string) : Prop := Forall (wa_recorded s) ids.

Lemma recorded_mono s s' ids : gates_le s s' -> all_recorded s ids -> all_recorded s' ids.
Proof. intros [_ Hg] Hr. eapply Forall_impl; [exact Hr|]. auto. Qed.

Lemma for_each_records tn body evs w w1 :
  for_each (process_event env tn body) evs w = (w1, inr tt) ->
  all_recorded (wa_store w1) (ne_ID <$> evs).
Proof.
  revert w. induction evs as [|e evs IH]; intros w Hr; [constructor|].
  cbn [for_each] in Hr. apply bind_ok in Hr as (w2 & [] & H2 & Hr). csimpl. constructor.
  - assert (Hk : keeps R_gates (for_each (process_event env tn body) evs)) by keeps_tac.
    specialize (Hk w2). rewrite Hr in Hk. apply Hk. clear Hk Hr IH.
    unfold process_event in H2. apply bind_ok in H2 as (w3 & t & _ & H2).
    apply bind_ok in H2 as (w4 & b & H4 & H2). unfold st in H4.
    destruct (RecordWebhookEvent _ _ _ _) as [s4 r4] eqn:E4. injection H4 as <- ->.
    apply law_record in E4. simpl in E4.
    match type of H2 with ?m ?x = _ => assert (Hk : keeps R_gates m) by keeps_tac;
      specialize (Hk x); rewrite H2 in Hk end.
    by apply Hk.
  - by apply (IH w2).
Qed.

Lemma for_each_recorded_noop tn body evs w :
  all_recorded (wa_store w) (ne_ID <$> evs) ->
  R_quiet w (for_each (process_event env tn body) evs w).1.
Proof.
  revert w. induction evs as [|e evs IH]; intros w Hr; [done|].
  csimpl in Hr. apply Forall_cons in Hr as [He Hr]. cbn [for_each]. rewrite bind_run.
  assert (Hstep : exists w1, process_event env tn body e w = (w1, inr tt) /\ R_quiet w w1).
  { unfold process_event. rewrite bind_run. simpl. rewrite bind_run. unfold st. simpl.
    rewrite law_recorded by done. simpl. eexists. split; [done|]. done. }
  destruct Hstep as (w1 & -> & Hq). destruct Hq as [Hs Hsent].
  rewrite <- Hs in Hr. specialize (IH w1 Hr) as [H5 H6]. split; congruence.
Qed.

Lemma webhook_records tn body sig w w1 :
  ProcessWebhook env tn body sig w = (w1, inr tt) ->
  all_recorded (wa_store w1) (webhook_ids body).
Proof.
  unfold ProcessWebhook. intros Hr. apply bind_ok in Hr as (w2 & evs & H2 & Hr).
  apply normalize_ids in H2. apply bind_ok in Hr as (w3 & c & _ & Hr).
  apply bind_ok in Hr as (w4 & u & _ & Hr). apply for_each_records in Hr. by rewrite <- H2.
Qed.

Lemma webhook_recorded_noop tn body sig w :
  all_recorded (wa_store w) (webhook_ids body) -> R_quiet w (ProcessWebhook env tn body sig w).1.
Proof.
  intros Hr. unfold ProcessWebhook. rewrite bind_run.
  pose proof (quiet_normalize body w) as Hq.
  destruct (Normalize env body w) as [w1 [e|evs]] eqn:E; [done|]. simpl in Hq.
  apply normalize_ids in E. rewrite <- E in Hr. rewrite bind_run. unfold rd.
  destruct (GetCredential _ _) as [e|cred]; [done|]. rewrite bind_run.
  destruct (VerifySignature _ _ _ _); simpl; [|done].
  etrans; [exact Hq|]. apply for_each_recorded_noop. by rewrite (proj1 Hq).
Qed.

End Steps.

(** ** Opt-out words *)

Definition opt_out_words : list string := ["stop"; "unsubscribe"; "opt out"; "opt-out"].

Definition padding (s : string) : bool :=
  List.forallb (in_cutset opt_out_cutset) (String.list_ascii_of_string s).

Lemma padding_lower s : padding s = true -> padding (to_lower s) = true.
Proof.
  unfold padding, to_lower. rewrite list_ascii_smap, !List.forallb_forall. intros Hp c Hc.
  apply in_map_iff in Hc as (c0 & <- & Hc). specialize (Hp c0 Hc). revert Hp.
  destruct c0 as [[] [] [] [] [] [] [] []]; vm_compute; done.
Qed.

(** Case and surrounding blanks or punctuation do not matter. *)
Lemma opt_out_word_recognised pre word post :
  padding pre = true -> padding post = true -> to_lower word ∈ opt_out_words ->
  IsOptOutBody (pre +:+ word +:+ post) = true.
Proof.
  intros Hl Hr Hw. unfold IsOptOutBody, to_lower. rewrite !smap_app.
  rewrite trim_set_padded by (by apply padding_lower). fold (to_lower word).
  apply list_elem_of_In in Hw. simpl in Hw.
  destruct Hw as [<-|[<-|[<-|[<-|[]]]]]; vm_compute; reflexivity.
Qed.

(** ** A concrete service, for the witnesses *)

Definition stop_payload : WaPayload :=
  mkWaPayload "acme" "" [] [[mkInChange [mkInMessage "wamid.1" "+9100" "" " Stop. "] []]].

Definition foreign_payload : WaPayload :=
  mkWaPayload "" "" [mkInEvent "ev1" "opt_out" "acme" "" "+9100" "x" "" "" ""] [].

Definition demo_env : WaEnv :=
  mkWaEnv (fun n => Z.of_nat n) (fun n => ("id" ++ pretty.pretty n)%string)
    (fun body => if decide (body = "foreign") then Some foreign_payload else Some stop_payload)
    (fun _ => None) (fun s => s)
    (fun k m => (k ++ m)%string) (StaticChecker true "") None
    (fun _ _ _ => inr "wamid.x") (fun _ _ => inr []) false.

(** A tenant with a credential, and a second one with a thread of lead L1. *)
Definition demo_wa : Wa PgWa.t :=
  foldl (wa_step demo_env) (mkWa PgWa.empty [] 0 0 0)
    [OpCredential (mkCred "acme" "p" "b" "t" "v" "k" time_zero);
     OpCredential (mkCred "rival" "p" "b" "t" "v" "r" time_zero);
     OpFlow (mkSendFlow "acme" "L1" "+9100" "f" ∅)].

(** ** Theorems *)

(** C7: every message leaves through the gates.  A request sends at most one
    message, and then the lead has not opted out, the consent service allowed
    the contact and claim control accepted the text; a free text goes out only
    within 24 hours of the last inbound message of its thread, to that
    thread's phone.  Webhooks and template administration send nothing. *)
Theorem whatsapp_sends_are_gated {T} `{WaLaws T} (env : WaEnv) (w : Wa T) (op : wa_op) :
  wa_sent (wa_step env w op) = wa_sent w \/
  exists x, wa_sent (wa_step env w op) = wa_sent w ++ [x] /\ permitted env w op (sn_call x).
Proof. apply step_permitted. Qed.

Lemma whatsapp_sends_are_gated_witness :
  wa_sent demo_wa = [mkSent false (mkCred "acme" "p" "b" "t" "v" "k" 0) (SendFlowCall "+9100" "f" ∅)]
  /\ (wa_sent (wa_step demo_env demo_wa (OpFlow (mkSendFlow "acme" "L1" "+9100" "f" ∅)))
      = wa_sent demo_wa \/
      exists x, wa_sent (wa_step demo_env demo_wa (OpFlow (mkSendFlow "acme" "L1" "+9100" "f" ∅)))
        = wa_sent demo_wa ++ [x] /\
        permitted demo_env demo_wa (OpFlow (mkSendFlow "acme" "L1" "+9100" "f" ∅)) (sn_call x)).
Proof. split; [vm_compute; reflexivity|]. apply whatsapp_sends_are_gated. Defined.

(** C20: STOP is final.  When a STOP reply (in any case, with blanks or
    punctuation around it) from the phone of a lead's thread, alone in its
    webhook body, which names the tenant, has been processed without error, no later request contacts that lead, whatever else the service
    does in between. *)
Theorem stop_reply_stops_outreach {T} `{WaLaws T} (env : WaEnv) (w w1 : Wa T)
    (tn body sig pre word post : string) (msg : InMessage) (th : Thread)
    (ops : list wa_op) (op : wa_op) :
  e_decode env body = Some (mkWaPayload tn "" [] [[mkInChange [msg] []]]) ->
  im_Body msg = pre +:+ word +:+ post ->
  padding pre = true -> padding post = true -> to_lower word ∈ opt_out_words ->
  im_ID msg <> "" -> ~ wa_recorded (wa_store w) (im_ID msg) ->
  FindThreadByPhone (wa_store w) tn (im_From msg) = inr th -> th_LeadID th <> "" ->
  ProcessWebhook env tn body sig w = (w1, inr tt) ->
  let w' := foldl (wa_step env) w1 ops in
  targets w' op = Some (th_TenantID th, th_LeadID th) ->
  wa_sent (wa_step env w' op) = wa_sent w'.
Proof.
  intros Hdec Hbody Hpre Hpost Hword Hid Hnew Hth Hl Hr w' Ht.
  pose proof (opt_out_word_recognised pre word post Hpre Hpost Hword) as Hstop.
  rewrite <- Hbody in Hstop.
  apply (opted_blocks_after env w1 ops op (th_TenantID th) (th_LeadID th)); [|exact Ht].
  unfold ProcessWebhook in Hr. apply bind_ok in Hr as (w2 & evs & H2 & Hr).
  pose proof (quiet_normalize env body w) as Hq. rewrite H2 in Hq. destruct Hq as [Hs _].
  unfold Normalize in H2. rewrite Hdec in H2. cbn in H2. unfold ret in H2. cbn in H2.
  rewrite Hstop in H2. apply bind_ok in H2 as (w3 & ts & _ & H2). injection H2 as -> <-.
  apply bind_ok in Hr as (w4 & c & H4 & Hr). unfold rd in H4. injection H4 as <- _.
  apply bind_ok in Hr as (w5 & u & H5 & Hr). apply ensure_ok in H5 as [_ ->].
  cbn [for_each] in Hr. apply bind_ok in Hr as (w6 & [] & H6 & Hr). injection Hr as <-.
  assert (Eid : is_empty (im_ID msg) = false) by by apply bool_decide_false.
  rewrite Eid in *. simpl in Hs.
  eapply event_opts_out; [exact H6|done| |simpl|done|done].
  - simpl. by rewrite Hs.
  - rewrite Hs. rewrite <- Hth. f_equal. unfold first_nonempty.
    by destruct (is_empty tn).
Qed.

Lemma stop_reply_stops_outreach_witness :
  let w1 := wa_step demo_env demo_wa (OpWebhook "acme" "stop" "sha256=kstop") in
  let w' := foldl (wa_step demo_env) w1 [OpSeedTemplates "acme"] in
  wa_sent (wa_step demo_env w' (OpFlow (mkSendFlow "acme" "L1" "+9100" "f" ∅))) = wa_sent w'.
Proof.
  intros w1 w'.
  refine (stop_reply_stops_outreach demo_env demo_wa w1 "acme" "stop" "sha256=kstop" " " "Stop" ". "
    (mkInMessage "wamid.1" "+9100" "" " Stop. ")
    (mkThread "id2" "acme" "L1" "+9100" time_zero time_zero 3 5) [OpSeedTemplates "acme"]
    (OpFlow (mkSendFlow "acme" "L1" "+9100" "f" ∅)) _ _ _ _ _ _ _ _ _ _ _).
  1-4: vm_compute; reflexivity.
  - apply list_elem_of_In. left. reflexivity.
  - done.
  - intros (_ & _ & [x Hx]). by vm_compute in Hx.
  - vm_compute. reflexivity.
  - done.
  - vm_compute. reflexivity.
  - reflexivity.
Defined.

(** C37: processing a webhook is idempotent.  After a body has been processed
    without error, delivering it again, later and under whatever tenant and
    signature, changes neither the store nor the messages sent. *)
Theorem webhook_redelivery_is_noop {T} `{WaLaws T} (env : WaEnv) (w w1 : Wa T)
    (tn tn' body sig sig' : string) (ops : list wa_op) :
  ProcessWebhook env tn body sig w = (w1, inr tt) ->
  let w2 := foldl (wa_step env) w1 ops in
  let w3 := wa_step env w2 (OpWebhook tn' body sig') in
  wa_store w3 = wa_store w2 /\ wa_sent w3 = wa_sent w2.
Proof.
  intros Hr w2 w3. apply webhook_records in Hr. apply webhook_recorded_noop.
  eapply recorded_mono; [apply gates_steps|exact Hr].
Qed.

Lemma webhook_redelivery_is_noop_witness :
  let w1 := wa_step demo_env demo_wa (OpWebhook "acme" "stop" "sha256=kstop") in
  let w2 := foldl (wa_step demo_env) w1 [OpSeedTemplates "acme"] in
  let w3 := wa_step demo_env w2 (OpWebhook "acme" "stop" "sha256=kstop") in
  wa_store w3 = wa_store w2 /\ wa_sent w3 = wa_sent w2.
Proof.
  intros w1 w2 w3.
  refine (webhook_redelivery_is_noop demo_env demo_wa w1 "acme" "acme" "stop" "sha256=kstop"
    "sha256=kstop" [OpSeedTemplates "acme"] _).
  vm_compute. reflexivity.
Defined.

(** The signature of one tenant authorises events of another.  The body is
    verified with the secret of the tenant of the request, but each event is
    applied to the tenant it names itself, so a body signed by one tenant opts
    a lead of another tenant out. *)
Theorem webhook_acts_on_other_tenants {T} `{WaLaws T} (env : WaEnv) (w w1 : Wa T)
    (tn other body sig : string) (ev : InEvent) (th : Thread) :
  e_decode env body = Some (mkWaPayload "" "" [ev] []) ->
  tn <> "" -> other <> "" -> other <> tn -> ie_TenantID ev = other -> ie_Type ev = EventOptOut ->
  ie_ID ev <> "" -> ~ wa_recorded (wa_store w) (ie_ID ev) ->
  FindThreadByPhone (wa_store w) other (ie_Phone ev) = inr th -> th_LeadID th <> "" ->
  ProcessWebhook env tn body sig w = (w1, inr tt) ->
  IsOptedOut (wa_store w1) (th_TenantID th) (th_LeadID th) = inr true.
Proof.
  intros Hdec Htn Ho Hne Hot Hty Hid Hnew Hth Hl Hr.
  unfold ProcessWebhook in Hr. apply bind_ok in Hr as (w2 & evs & H2 & Hr).
  pose proof (quiet_normalize env body w) as Hq. rewrite H2 in Hq. destruct Hq as [Hs _].
  unfold Normalize in H2. rewrite Hdec in H2. cbn in H2. unfold ret in H2. cbn in H2.
  apply bind_ok in H2 as (w3 & ts & _ & H2). injection H2 as -> <-. simpl in Hs.
  apply bind_ok in Hr as (w4 & c & H4 & Hr). unfold rd in H4. injection H4 as <- _.
  apply bind_ok in Hr as (w5 & u & H5 & Hr). apply ensure_ok in H5 as [_ ->].
  cbn [for_each] in Hr. apply bind_ok in Hr as (w6 & [] & H6 & Hr). injection Hr as <-.
  assert (Eid : is_empty (ie_ID ev) = false) by by apply bool_decide_false.
  assert (Eo : is_empty other = false) by by apply bool_decide_false.
  rewrite Eid in H6. eapply event_opts_out; [exact H6| | |simpl|done|done].
  - simpl. rewrite Hty. reflexivity.
  - simpl. by rewrite Hs.
  - rewrite Hs, <- Hth, Hot. f_equal. unfold first_nonempty. by rewrite Eo, Eo.
Qed.

Lemma webhook_acts_on_other_tenants_witness :
  IsOptedOut (wa_store (wa_step demo_env demo_wa (OpWebhook "rival" "foreign" "sha256=rforeign")))
    "acme" "L1" = inr true.
Proof.
  refine (webhook_acts_on_other_tenants demo_env demo_wa
    (wa_step demo_env demo_wa (OpWebhook "rival" "foreign" "sha256=rforeign")) "rival" "acme"
    "foreign" "sha256=rforeign" (mkInEvent "ev1" "opt_out" "acme" "" "+9100" "x" "" "" "")
    (mkThread "id2" "acme" "L1" "+9100" time_zero time_zero 3 5) _ _ _ _ _ _ _ _ _ _ _).
  1, 9, 11: vm_compute; reflexivity.
  1-6, 8: done.
  intros (_ & _ & [x Hx]). by vm_compute in Hx.
Defined.
