(* ===== verification/TenantAuth.v ===== *)
(** * tenant-auth: model, stores, rate limiter and handlers

    [internal/model], [internal/store], [internal/ratelimit] and
    [internal/service].  The Postgres store issues SQL: its tables are lists of
    rows in insertion order, and its statements act on them with the keys and
    references that the migrations declare.  Ids are texts of UUIDs; row-level
    security does not apply to the owner of the tables, as which the service
    connects.  Password hashing, JWT, TOTP and SHA-256, the clock and the random
    generators are the record [TaEnv]. *)

From S2P Require Import Prelude GoTime GoMonad GoStrings.

Open Scope Z_scope.

Definition TenantStatusActive : string := "active".
Definition TenantStatusSuspended : string := "suspended".
Definition TenantStatusDeleted : string := "deleted".
Definition UserStatusActive : string := "active".

Record Tenant := mkTenant {
  te_ID : string; te_Name : string; te_Region : string; te_Status : string;
  te_CreatedAt : Z; te_UpdatedAt : Z
}.

Record User := mkUser {
  us_ID : string;
  us_TenantID : string;
  us_Email : string;
  us_DisplayName : string;
  us_PasswordHash : string;
  us_TOTPSecret : string;
  us_TOTPEnabled : bool;
  us_RefreshTokenHash : string;
  us_Status : string;
  us_CreatedAt : Z;
  us_UpdatedAt : Z
}.

Record Role := mkRole {
  ro_ID : string; ro_TenantID : string; ro_Name : string; ro_Permissions : list string;
  ro_CreatedAt : Z
}.

Record APIKey := mkKey {
  ak_ID : string; ak_TenantID : string; ak_UserID : string; ak_Name : string;
  ak_KeyHash : string; ak_KeyPrefix : string; ak_Revoked : bool; ak_CreatedAt : Z
}.

(** [map[string]any] with the JSON text of each value; [None] is nil. *)
Definition details := option (list (string * string)).

Record AuditLog := mkAudit {
  au_ID : string; au_TenantID : string; au_ActorID : string; au_ActorEmail : string;
  au_Action : string; au_Resource : string; au_ResourceID : string;
  au_Before : details; au_After : details; au_IPAddress : string; au_OccurredAt : Z
}.

Definition with_totp (u : User) (secret : string) (enabled : bool) (now : Z) : User :=
  mkUser (us_ID u) (us_TenantID u) (us_Email u) (us_DisplayName u) (us_PasswordHash u) secret
    enabled (us_RefreshTokenHash u) (us_Status u) (us_CreatedAt u) now.

(** [updated] is the new update time: Postgres stamps it, the map store does
    not. *)
Definition with_hash (u : User) (hash : string) (updated : Z) : User :=
  mkUser (us_ID u) (us_TenantID u) (us_Email u) (us_DisplayName u) (us_PasswordHash u)
    (us_TOTPSecret u) (us_TOTPEnabled u) hash (us_Status u) (us_CreatedAt u) updated.

Definition new_user (now : Z) (uid tenantID email displayName passwordHash : string) : User :=
  mkUser uid tenantID email displayName passwordHash "" false "" UserStatusActive now now.

Definition with_tstatus (t : Tenant) (status : string) (now : Z) : Tenant :=
  mkTenant (te_ID t) (te_Name t) (te_Region t) status (te_CreatedAt t) now.
Definition with_name (t : Tenant) (name : string) (now : Z) : Tenant :=
  mkTenant (te_ID t) name (te_Region t) (te_Status t) (te_CreatedAt t) now.

Definition revoked (k : APIKey) : APIKey :=
  mkKey (ak_ID k) (ak_TenantID k) (ak_UserID k) (ak_Name k) (ak_KeyHash k) (ak_KeyPrefix k) true
    (ak_CreatedAt k).

Definition stamp_audit (now : Z) (uid : string) (e : AuditLog) : AuditLog :=
  mkAudit (or_new (au_ID e) uid) (au_TenantID e) (au_ActorID e) (au_ActorEmail e) (au_Action e)
    (au_Resource e) (au_ResourceID e) (au_Before e) (au_After e) (au_IPAddress e)
    (or_now (au_OccurredAt e) now).

(** A role grants a permission by naming it or by the wildcard. *)
Definition grants (permission : string) (r : Role) : bool :=
  List.existsb (fun p => bool_decide (p = permission) || bool_decide (p = "*")) (ro_Permissions r).

(** ** The store interface *)
Class TaStore (T : Type) := {
  CreateTenant : T -> Z -> string -> string -> string -> T * result Tenant;
  GetTenant : T -> string -> result Tenant;
  UpdateTenant : T -> Z -> string -> string -> T * result Tenant;
  SuspendTenant : T -> Z -> string -> T * result unit;
  CreateUser : T -> Z -> string -> string -> string -> string -> string -> T * result User;
  GetUserByEmail : T -> string -> string -> result User;
  GetUserByID : T -> string -> string -> result User;
  UpdateUserTOTP : T -> Z -> string -> string -> string -> bool -> T * result unit;
  SetRefreshToken : T -> Z -> string -> string -> string -> T * result unit;
  GetUserByRefreshToken : T -> string -> string -> result User;
  ClearRefreshToken : T -> Z -> string -> string -> T * result unit;
  CreateRole : T -> Z -> string -> string -> string -> list string -> T * result Role;
  ListRoles : T -> string -> result (list Role);
  GetRole : T -> string -> string -> result Role;
  AssignRole : T -> string -> string -> string -> T * result unit;
  GetUserRoles : T -> string -> string -> result (list Role);
  CheckPermission : T -> string -> string -> string -> result bool;
  CreateAPIKey : T -> Z -> string -> string -> string -> string -> string -> string
                 -> T * result APIKey;
  RevokeAPIKey : T -> string -> string -> T * result unit;
  WriteAuditLog : T -> Z -> string -> AuditLog -> T * result unit;
  QueryAuditLogs : T -> string -> Z -> Z -> result (list AuditLog)
}.

Definition tkey (tenantID id : string) : string := (tenantID ++ ":" ++ id)%string.

(** ** In memory *)
Module FakeTa.

(** [map_order] is the order in which Go iterates over a map. *)
Record t := mk {
  tenants : gmap string Tenant;
  users : gmap string User;
  roles : gmap string Role;
  userRole : gmap string (list string);
  apiKeys : gmap string APIKey;
  audit : list AuditLog;
  refreshTokens : gmap string string;
  map_order : forall A : Type, list A -> list A
}.

Definition NewFake (order : forall A : Type, list A -> list A) : t := mk ∅ ∅ ∅ ∅ ∅ [] ∅ order.

Definition set_tenants v (s : t) : t :=
  mk v (users s) (roles s) (userRole s) (apiKeys s) (audit s) (refreshTokens s) (map_order s).
Definition set_users v (s : t) : t :=
  mk (tenants s) v (roles s) (userRole s) (apiKeys s) (audit s) (refreshTokens s) (map_order s).
Definition set_roles v (s : t) : t :=
  mk (tenants s) (users s) v (userRole s) (apiKeys s) (audit s) (refreshTokens s) (map_order s).
Definition set_userRole v (s : t) : t :=
  mk (tenants s) (users s) (roles s) v (apiKeys s) (audit s) (refreshTokens s) (map_order s).
Definition set_apiKeys v (s : t) : t :=
  mk (tenants s) (users s) (roles s) (userRole s) v (audit s) (refreshTokens s) (map_order s).
Definition set_audit v (s : t) : t :=
  mk (tenants s) (users s) (roles s) (userRole s) (apiKeys s) v (refreshTokens s) (map_order s).
Definition set_refreshTokens v (s : t) : t :=
  mk (tenants s) (users s) (roles s) (userRole s) (apiKeys s) (audit s) v (map_order s).

Definition createTenant (f : t) (now : Z) (uid name region : string) : t * result Tenant :=
  let x := mkTenant uid name region TenantStatusActive now now in
  (set_tenants (<[uid := x]> (tenants f)) f, Ok x).

Definition getTenant (f : t) (tenantID : string) : result Tenant :=
  match tenants f !! tenantID with Some x => Ok x | None => Err "tenant not found" end.

Definition updateTenant (f : t) (now : Z) (tenantID name : string) : t * result Tenant :=
  match tenants f !! tenantID with
  | None => (f, Err "tenant not found")
  | Some x => let x := with_name x name now in
              (set_tenants (<[tenantID := x]> (tenants f)) f, Ok x)
  end.

Definition suspendTenant (f : t) (now : Z) (tenantID : string) : t * result unit :=
  match tenants f !! tenantID with
  | None => (f, Err "tenant not found")
  | Some x => (set_tenants (<[tenantID := with_tstatus x TenantStatusSuspended now]>
                 (tenants f)) f, Ok tt)
  end.

Definition createUser (f : t) (now : Z) (uid tenantID email displayName passwordHash : string)
    : t * result User :=
  let u := new_user now uid tenantID email displayName passwordHash in
  (set_users (<[tkey tenantID uid := u]> (users f)) f, Ok u).

Definition getUserByEmail (f : t) (tenantID email : string) : result User :=
  match List.find (fun u => bool_decide (us_TenantID u = tenantID)
          && bool_decide (us_Email u = email)) (map_order f _ (map_to_list (users f)).*2) with
  | Some u => Ok u
  | None => Err "user not found"
  end.

Definition getUserByID (f : t) (tenantID userID : string) : result User :=
  match users f !! tkey tenantID userID with Some u => Ok u | None => Err "user not found" end.

Definition updateUserTOTP (f : t) (now : Z) (tenantID userID secret : string) (enabled : bool)
    : t * result unit :=
  match users f !! tkey tenantID userID with
  | None => (f, Err "user not found")
  | Some u => (set_users (<[tkey tenantID userID := with_totp u secret enabled now]>
                 (users f)) f, Ok tt)
  end.

Definition setRefreshToken (f : t) (now : Z) (tenantID userID tokenHash : string)
    : t * result unit :=
  match users f !! tkey tenantID userID with
  | None => (f, Err "user not found")
  | Some u =>
      let index := if is_empty (us_RefreshTokenHash u) then refreshTokens f
                   else delete (us_RefreshTokenHash u) (refreshTokens f) in
      let f := set_users (<[tkey tenantID userID := with_hash u tokenHash (us_UpdatedAt u)]>
                 (users f)) f in
      (set_refreshTokens (<[tokenHash := tkey tenantID userID]> index) f, Ok tt)
  end.

Definition getUserByRefreshToken (f : t) (tenantID tokenHash : string) : result User :=
  match refreshTokens f !! tokenHash with
  | None => Err "token not found"
  | Some k =>
      match users f !! k with
      | Some u => if decide (us_TenantID u = tenantID) then Ok u else Err "user not found"
      | None => Err "user not found"
      end
  end.

Definition clearRefreshToken (f : t) (now : Z) (tenantID userID : string) : t * result unit :=
  match users f !! tkey tenantID userID with
  | None => (f, Err "user not found")
  | Some u =>
      let index := delete (us_RefreshTokenHash u) (refreshTokens f) in
      let f := set_users (<[tkey tenantID userID := with_hash u "" (us_UpdatedAt u)]>
                 (users f)) f in
      (set_refreshTokens index f, Ok tt)
  end.

Definition createRole (f : t) (now : Z) (uid tenantID name : string) (permissions : list string)
    : t * result Role :=
  let r := mkRole uid tenantID name permissions now in
  (set_roles (<[tkey tenantID uid := r]> (roles f)) f, Ok r).

Definition listRoles (f : t) (tenantID : string) : result (list Role) :=
  Ok (List.filter (fun r => bool_decide (ro_TenantID r = tenantID))
        (map_order f _ (map_to_list (roles f)).*2)).

Definition getRole (f : t) (tenantID roleID : string) : result Role :=
  match roles f !! tkey tenantID roleID with Some r => Ok r | None => Err "role not found" end.

Definition assigned (f : t) (tenantID userID : string) : list string :=
  default [] (userRole f !! tkey tenantID userID).

Definition assignRole (f : t) (tenantID userID roleID : string) : t * result unit :=
  if decide (roleID ∈ assigned f tenantID userID) then (f, Ok tt) else
  (set_userRole (<[tkey tenantID userID := assigned f tenantID userID ++ [roleID]]>
     (userRole f)) f, Ok tt).

Definition getUserRoles (f : t) (tenantID userID : string) : result (list Role) :=
  Ok (omap (fun rid => roles f !! tkey tenantID rid) (assigned f tenantID userID)).

Definition checkPermission (f : t) (tenantID userID permission : string) : result bool :=
  Ok (List.existsb (grants permission)
        (omap (fun rid => roles f !! tkey tenantID rid) (assigned f tenantID userID))).

Definition createAPIKey (f : t) (now : Z) (uid tenantID userID name keyHash keyPrefix : string)
    : t * result APIKey :=
  let k := mkKey uid tenantID userID name keyHash keyPrefix false now in
  (set_apiKeys (<[uid := k]> (apiKeys f)) f, Ok k).

Definition revokeAPIKey (f : t) (tenantID keyID : string) : t * result unit :=
  match apiKeys f !! keyID with
  | None => (f, Err "api key not found")
  | Some k =>
      if decide (ak_TenantID k <> tenantID) then (f, Err "api key not found")
      else (set_apiKeys (<[keyID := revoked k]> (apiKeys f)) f, Ok tt)
  end.

Definition writeAuditLog (f : t) (now : Z) (uid : string) (entry : AuditLog) : t * result unit :=
  (set_audit (audit f ++ [stamp_audit now uid entry]) f, Ok tt).

(** [offset] beyond the end gives nothing; a negative one would panic. *)
Definition queryAuditLogs (f : t) (tenantID : string) (limit offset : Z)
    : result (list AuditLog) :=
  let rows := List.filter (fun a => bool_decide (au_TenantID a = tenantID)) (audit f) in
  if offset <? 0 then Err "panic: slice bounds out of range" else
  if Z.of_nat (length rows) <=? offset then Ok [] else
  let rows := drop (Z.to_nat offset) rows in
  Ok (if (0 <? limit) && (limit <? Z.of_nat (length rows)) then take (Z.to_nat limit) rows else rows).

End FakeTa.

#[export] Instance fake_ta_store : TaStore FakeTa.t := {
  CreateTenant := FakeTa.createTenant;
  GetTenant := FakeTa.getTenant;
  UpdateTenant := FakeTa.updateTenant;
  SuspendTenant := FakeTa.suspendTenant;
  CreateUser := FakeTa.createUser;
  GetUserByEmail := FakeTa.getUserByEmail;
  GetUserByID := FakeTa.getUserByID;
  UpdateUserTOTP := FakeTa.updateUserTOTP;
  SetRefreshToken := FakeTa.setRefreshToken;
  GetUserByRefreshToken := FakeTa.getUserByRefreshToken;
  ClearRefreshToken := FakeTa.clearRefreshToken;
  CreateRole := FakeTa.createRole;
  ListRoles := FakeTa.listRoles;
  GetRole := FakeTa.getRole;
  AssignRole := FakeTa.assignRole;
  GetUserRoles := FakeTa.getUserRoles;
  CheckPermission := FakeTa.checkPermission;
  CreateAPIKey := FakeTa.createAPIKey;
  RevokeAPIKey := FakeTa.revokeAPIKey;
  WriteAuditLog := FakeTa.writeAuditLog;
  QueryAuditLogs := FakeTa.queryAuditLogs
}.

(** ** Postgres *)
Module PgTa.

(** [up] is whether the database answers, [writable] whether it also takes
    writes (a standby after a failover, or a full disk, only answers queries).
    Both may change between requests. *)
Record t := mk {
  tenants : list Tenant;
  users : list User;
  roles : list Role;
  user_roles : list (string * string * string);
  api_keys : list APIKey;
  audit : list AuditLog;
  up : bool;
  writable : bool
}.

Definition empty : t := mk [] [] [] [] [] [] true true.

Definition set_tenants v (s : t) : t :=
  mk v (users s) (roles s) (user_roles s) (api_keys s) (audit s) (up s) (writable s).
Definition set_users v (s : t) : t :=
  mk (tenants s) v (roles s) (user_roles s) (api_keys s) (audit s) (up s) (writable s).
Definition set_roles v (s : t) : t :=
  mk (tenants s) (users s) v (user_roles s) (api_keys s) (audit s) (up s) (writable s).
Definition set_user_roles v (s : t) : t :=
  mk (tenants s) (users s) (roles s) v (api_keys s) (audit s) (up s) (writable s).
Definition set_api_keys v (s : t) : t :=
  mk (tenants s) (users s) (roles s) (user_roles s) v (audit s) (up s) (writable s).
Definition set_audit v (s : t) : t :=
  mk (tenants s) (users s) (roles s) (user_roles s) (api_keys s) v (up s) (writable s).

(** A statement: [bad] is a violated constraint. *)
Definition exec {A} (p : t) (bad : bool) (p' : t) (a : A) : t * result A :=
  if negb (up p && writable p) then (p, Err "connection") else if bad then (p, Err "constraint") else (p', Ok a).

(** [UPDATE ... SET ... WHERE c]. *)
Definition update_where {A} (c : A -> bool) (f : A -> A) (l : list A) : list A :=
  (fun x => if c x then f x else x) <$> l.

(** [QueryRow]: the first row, or [pgx.ErrNoRows]. *)
Definition query_row {A} (p : t) (c : A -> bool) (l : list A) : result A :=
  if negb (up p) then Err "connection" else
  match List.find c l with Some x => Ok x | None => Err "no rows in result set" end.

Definition has_tenant (p : t) (id : string) : bool :=
  List.existsb (fun x => bool_decide (te_ID x = id)) (tenants p).
Definition has_user (p : t) (id : string) : bool :=
  List.existsb (fun u => bool_decide (us_ID u = id)) (users p).
Definition has_role (p : t) (id : string) : bool :=
  List.existsb (fun r => bool_decide (ro_ID r = id)) (roles p).

Definition is_user (tenantID userID : string) (u : User) : bool :=
  bool_decide (us_TenantID u = tenantID) && bool_decide (us_ID u = userID).

Definition createTenant (p : t) (now : Z) (uid name region : string) : t * result Tenant :=
  let x := mkTenant uid name region TenantStatusActive now now in
  exec p (has_tenant p uid) (set_tenants (tenants p ++ [x]) p) x.

Definition getTenant (p : t) (tenantID : string) : result Tenant :=
  query_row p (fun x => bool_decide (te_ID x = tenantID)
    && negb (bool_decide (te_Status x = TenantStatusDeleted))) (tenants p).

Definition updateTenant (p : t) (now : Z) (tenantID name : string) : t * result Tenant :=
  let '(p', r) := exec p false (set_tenants (update_where
      (fun x => bool_decide (te_ID x = tenantID)) (fun x => with_name x name now) (tenants p)) p) tt in
  (p', let? _ := r in getTenant p' tenantID).

Definition suspendTenant (p : t) (now : Z) (tenantID : string) : t * result unit :=
  exec p false (set_tenants (update_where (fun x => bool_decide (te_ID x = tenantID))
    (fun x => with_tstatus x TenantStatusSuspended now) (tenants p)) p) tt.

(** UNIQUE (tenant_id, email), and the tenant must exist. *)
Definition createUser (p : t) (now : Z) (uid tenantID email displayName passwordHash : string)
    : t * result User :=
  let u := new_user now uid tenantID email displayName passwordHash in
  exec p (has_user p uid || negb (has_tenant p tenantID)
          || List.existsb (fun x => bool_decide (us_TenantID x = tenantID)
               && bool_decide (us_Email x = email)) (users p))
    (set_users (users p ++ [u]) p) u.

Definition active (u : User) : bool := bool_decide (us_Status u = UserStatusActive).

Definition getUserByEmail (p : t) (tenantID email : string) : result User :=
  query_row p (fun u => bool_decide (us_TenantID u = tenantID) && bool_decide (us_Email u = email)
    && active u) (users p).

Definition getUserByID (p : t) (tenantID userID : string) : result User :=
  query_row p (is_user tenantID userID) (users p).

Definition updateUserTOTP (p : t) (now : Z) (tenantID userID secret : string) (enabled : bool)
    : t * result unit :=
  exec p false (set_users (update_where (is_user tenantID userID)
    (fun u => with_totp u secret enabled now) (users p)) p) tt.

Definition setRefreshToken (p : t) (now : Z) (tenantID userID tokenHash : string)
    : t * result unit :=
  exec p false (set_users (update_where (is_user tenantID userID)
    (fun u => with_hash u tokenHash now) (users p)) p) tt.

(** A cleared hash is NULL, which equals nothing: [tokenHash] is never empty. *)
Definition getUserByRefreshToken (p : t) (tenantID tokenHash : string) : result User :=
  query_row p (fun u => bool_decide (us_TenantID u = tenantID)
    && (bool_decide (us_RefreshTokenHash u = tokenHash) && negb (is_empty tokenHash))
    && active u) (users p).

Definition clearRefreshToken (p : t) (now : Z) (tenantID userID : string) : t * result unit :=
  exec p false (set_users (update_where (is_user tenantID userID)
    (fun u => with_hash u "" now) (users p)) p) tt.

(** UNIQUE (tenant_id, name), and the tenant must exist. *)
Definition createRole (p : t) (now : Z) (uid tenantID name : string) (permissions : list string)
    : t * result Role :=
  let r := mkRole uid tenantID name permissions now in
  exec p (has_role p uid || negb (has_tenant p tenantID)
          || List.existsb (fun x => bool_decide (ro_TenantID x = tenantID)
               && bool_decide (ro_Name x = name)) (roles p))
    (set_roles (roles p ++ [r]) p) r.

Definition listRoles (p : t) (tenantID : string) : result (list Role) :=
  if negb (up p) then Err "connection"
  else Ok (List.filter (fun r => bool_decide (ro_TenantID r = tenantID)) (roles p)).

Definition getRole (p : t) (tenantID roleID : string) : result Role :=
  query_row p (fun r => bool_decide (ro_TenantID r = tenantID) && bool_decide (ro_ID r = roleID))
    (roles p).

(** The user, the tenant and the role must exist; ON CONFLICT DO NOTHING. *)
Definition assignRole (p : t) (tenantID userID roleID : string) : t * result unit :=
  let row := (userID, tenantID, roleID) in
  exec p (negb (has_user p userID && has_tenant p tenantID && has_role p roleID))
    (if decide (row ∈ user_roles p) then p else set_user_roles (user_roles p ++ [row]) p) tt.

(** The join on the role id; the tenant is compared with that of the assignment
    only. *)
Definition joined (p : t) (tenantID userID : string) : list Role :=
  r ← roles p;
  (fun _ => r) <$> filter (fun row => row = (userID, tenantID, ro_ID r)) (user_roles p).

Definition getUserRoles (p : t) (tenantID userID : string) : result (list Role) :=
  if negb (up p) then Err "connection" else Ok (joined p tenantID userID).

Definition checkPermission (p : t) (tenantID userID permission : string) : result bool :=
  let? rs := getUserRoles p tenantID userID in Ok (List.existsb (grants permission) rs).

(** The tenant and the user must exist; UNIQUE (key_hash). *)
Definition createAPIKey (p : t) (now : Z) (uid tenantID userID name keyHash keyPrefix : string)
    : t * result APIKey :=
  let k := mkKey uid tenantID userID name keyHash keyPrefix false now in
  exec p (List.existsb (fun x => bool_decide (ak_ID x = uid)
            || bool_decide (ak_KeyHash x = keyHash)) (api_keys p)
          || negb (has_tenant p tenantID && has_user p userID))
    (set_api_keys (api_keys p ++ [k]) p) k.

Definition revokeAPIKey (p : t) (tenantID keyID : string) : t * result unit :=
  exec p false (set_api_keys (update_where (fun k => bool_decide (ak_TenantID k = tenantID)
    && bool_decide (ak_ID k = keyID)) revoked (api_keys p)) p) tt.

(** The tenant must exist. *)
Definition writeAuditLog (p : t) (now : Z) (uid : string) (entry : AuditLog) : t * result unit :=
  let e := stamp_audit now uid entry in
  exec p (negb (has_tenant p (au_TenantID e))
          || List.existsb (fun x => bool_decide (au_ID x = au_ID e)) (audit p))
    (set_audit (audit p ++ [e]) p) tt.

Definition later (a b : AuditLog) : bool := au_OccurredAt b <? au_OccurredAt a.

Definition queryAuditLogs (p : t) (tenantID : string) (limit offset : Z)
    : result (list AuditLog) :=
  let limit := if limit <=? 0 then 50 else limit in
  if negb (up p) then Err "connection" else
  if offset <? 0 then Err "OFFSET must not be negative" else
  Ok (take (Z.to_nat limit) (drop (Z.to_nat offset) (sort_by later
        (List.filter (fun a => bool_decide (au_TenantID a = tenantID)) (audit p))))).

End PgTa.

#[export] Instance pg_ta_store : TaStore PgTa.t := {
  CreateTenant := PgTa.createTenant;
  GetTenant := PgTa.getTenant;
  UpdateTenant := PgTa.updateTenant;
  SuspendTenant := PgTa.suspendTenant;
  CreateUser := PgTa.createUser;
  GetUserByEmail := PgTa.getUserByEmail;
  GetUserByID := PgTa.getUserByID;
  UpdateUserTOTP := PgTa.updateUserTOTP;
  SetRefreshToken := PgTa.setRefreshToken;
  GetUserByRefreshToken := PgTa.getUserByRefreshToken;
  ClearRefreshToken := PgTa.clearRefreshToken;
  CreateRole := PgTa.createRole;
  ListRoles := PgTa.listRoles;
  GetRole := PgTa.getRole;
  AssignRole := PgTa.assignRole;
  GetUserRoles := PgTa.getUserRoles;
  CheckPermission := PgTa.checkPermission;
  CreateAPIKey := PgTa.createAPIKey;
  RevokeAPIKey := PgTa.revokeAPIKey;
  WriteAuditLog := PgTa.writeAuditLog;
  QueryAuditLogs := PgTa.queryAuditLogs
}.
