(* ===== verification/TenantAuthService.v ===== *)
(** * tenant-auth: rate limiter and handlers

    [internal/ratelimit], [internal/service/service.go] and [rotate.go].  A
    handler is a computation that ends with a response or with the status of
    the error it writes.  A request body that cannot be decoded is [None]. *)

From S2P Require Import Prelude GoTime GoMonad GoStrings TenantAuth.

Open Scope Z_scope.

(** ** The rate limiter *)

Class TaLimiter (L : Type) := {
  Allow : L -> Z -> string -> Z -> Z -> L * bool
}.

Module TaRedis.

(** A counter and the instant at which its key expires. *)
Record t := mk { counters : gmap string (Z * Z); up : bool }.

(** INCR and EXPIRE in one pipeline; a failing Redis lets requests through. *)
Definition allow (r : t) (now : Z) (k : string) (limit window : Z) : t * bool :=
  if negb (up r) then (r, true) else
  let rkey := ("rl:" ++ k)%string in
  let count := match counters r !! rkey with
               | Some (n, expiry) => if now <? expiry then n else 0
               | None => 0
               end + 1 in
  (mk (<[rkey := (count, now + window)]> (counters r)) true, count <=? limit).

End TaRedis.

#[export] Instance ta_redis : TaLimiter TaRedis.t := {| Allow := TaRedis.allow |}.
#[export] Instance ta_noop : TaLimiter unit := {| Allow l _ _ _ _ := (l, true) |}.

(** ** Environment and state *)

Record Claims := mkClaims {
  cl_tid : string; cl_uid : string; cl_roles : list string; cl_exp : Z; cl_iat : Z
}.

(** [e_token n] is the [n]-th random token ([None]: the generator fails),
    [e_sign] signs with the current key ([None]: no key, or signing fails),
    [e_verify] the roles of a valid bearer token. *)
Record TaEnv := mkTaEnv {
  e_now : nat -> Z;
  e_uuid : nat -> string;
  e_token : nat -> option string;
  e_hash : string -> string;
  e_password_hash : string -> option string;
  e_password_match : string -> string -> bool;
  e_sign : Claims -> option string;
  e_verify : string -> option (list string);
  e_totp_secret : nat -> option string;
  e_totp_valid : string -> string -> bool;
  e_rotate : option string
}.

Record Ta (T L : Type) := mkTa {
  ta_store : T;
  ta_limiter : L;
  ta_reads : nat;
  ta_ids : nat;
  ta_tokens : nat
}.
Arguments mkTa {T L}.
Arguments ta_store {T L} _.
Arguments ta_limiter {T L} _.
Arguments ta_reads {T L} _.
Arguments ta_ids {T L} _.
Arguments ta_tokens {T L} _.

Definition accessTokenTTL : Z := 15 * minute.
Definition loginLimit : Z := 5.
Definition loginWindow : Z := minute.
Definition refreshLimit : Z := 30.
Definition refreshWindow : Z := minute.

(** ** Requests *)

Record LoginRequest := mkLogin { lg_TenantID : string; lg_Email : string; lg_Password : string }.
Record TokenResponse := mkTokens { tr_access : string; tr_refresh : string; tr_expires_in : Z }.

Record CreateUserRequest := mkCreateUser {
  cu_TenantID : string; cu_Email : string; cu_DisplayName : string; cu_Password : string;
  cu_Roles : list string
}.

Section Service.
Context {T L : Type} `{!TaStore T} `{!TaLimiter L} (env : TaEnv).

Abbreviation W := (Ta T L).
Abbreviation MW := (M W Z).

Definition now : MW Z := fun w =>
  (mkTa (ta_store w) (ta_limiter w) (S (ta_reads w)) (ta_ids w) (ta_tokens w),
   inr (e_now env (ta_reads w))).

(** A store call; the error is a value, as the handlers inspect it. *)
Definition st {A} (f : T -> Z -> string -> T * result A) : MW (result A) := fun w =>
  let '(s, r) := f (ta_store w) (e_now env (ta_reads w)) (e_uuid env (ta_ids w)) in
  (mkTa s (ta_limiter w) (S (ta_reads w)) (S (ta_ids w)) (ta_tokens w), inr r).

Definition rd {A} (f : T -> result A) : MW (result A) := fun w => (w, inr (f (ta_store w))).

(** [if err != nil { writeErr(w, status, ...); return }]. *)
Definition or_status {A} (status : Z) (r : result A) : MW A :=
  match r with Ok a => ret a | Err _ => raise status end.

Definition body_ok (ok : bool) : MW unit := ensure ok 400.

Definition allow (k : string) (limit window : Z) : MW bool := fun w =>
  let '(l, b) := Allow (ta_limiter w) (e_now env (ta_reads w)) k limit window in
  (mkTa (ta_store w) l (S (ta_reads w)) (ta_ids w) (ta_tokens w), inr b).

(** [generateOpaqueToken]. *)
Definition generateOpaqueToken : MW string := fun w =>
  (mkTa (ta_store w) (ta_limiter w) (ta_reads w) (ta_ids w) (S (ta_tokens w)),
   match e_token env (ta_tokens w) with Some t => inr t | None => inl 500 end).

Definition issueJWT (tenantID userID : string) (roles : list string) (ttl : Z) : MW string :=
  let! t1 := now in
  let! t2 := now in
  match e_sign env (mkClaims tenantID userID roles (unix (t1 + ttl)) (unix t2)) with
  | Some tok => ret tok
  | None => raise 500
  end.

Definition auditWrite (tenantID actorID actorEmail action resource resourceID : string)
    (before after : details) (ip : string) : MW unit :=
  let! t := now in
  let! _ := st (fun s n u => WriteAuditLog s n u
    (mkAudit u tenantID actorID actorEmail action resource resourceID before after ip t)) in
  ret tt.

(** ** Tenants and users *)

Definition handleCreateTenant (name region ip : string) : MW Tenant :=
  let! _ := body_ok (negb (is_empty name)) in
  let region := if is_empty region then "us-east-1" else region in
  let! r := st (fun s n u => CreateTenant s n u name region) in
  let! t := or_status 500 r in
  let! _ := auditWrite (te_ID t) "system" "system" "CreateTenant" "tenant" (te_ID t) None
              (Some [("name", te_Name t)]) ip in
  ret t.

Definition handleGetTenant (tenantID : string) : MW Tenant :=
  let! _ := body_ok (negb (is_empty tenantID)) in
  let! r := rd (fun s => GetTenant s tenantID) in
  or_status 404 r.

Definition handleUpdateTenant (tenantID name ip : string) : MW Tenant :=
  let! _ := body_ok (negb (is_empty tenantID || is_empty name)) in
  let! old := rd (fun s => GetTenant s tenantID) in
  let! r := st (fun s n _ => UpdateTenant s n tenantID name) in
  let! t := or_status 500 r in
  let before := match old with Ok o => Some [("name", te_Name o)] | Err _ => None end in
  let! _ := auditWrite tenantID "system" "system" "UpdateTenant" "tenant" tenantID before
              (Some [("name", te_Name t)]) ip in
  ret t.

Definition handleSuspendTenant (tenantID ip : string) : MW unit :=
  let! _ := body_ok (negb (is_empty tenantID)) in
  let! r := st (fun s n _ => SuspendTenant s n tenantID) in
  let! _ := or_status 500 r in
  auditWrite tenantID "system" "system" "SuspendTenant" "tenant" tenantID None
    (Some [("status", "suspended")]) ip.

(** The answer has no password hash. *)
Definition safe_user (u : User) : User :=
  mkUser (us_ID u) (us_TenantID u) (us_Email u) (us_DisplayName u) "" (us_TOTPSecret u)
    (us_TOTPEnabled u) (us_RefreshTokenHash u) (us_Status u) (us_CreatedAt u) (us_UpdatedAt u).

Definition handleCreateUser (req : CreateUserRequest) (ip : string) : MW User :=
  let! _ := body_ok (negb (is_empty (cu_TenantID req) || is_empty (cu_Email req)
                           || is_empty (cu_Password req))) in
  match e_password_hash env (cu_Password req) with
  | None => raise 500
  | Some hash =>
      let! r := st (fun s n uid => CreateUser s n uid (cu_TenantID req) (cu_Email req)
                  (cu_DisplayName req) hash) in
      let! u := or_status 500 r in
      let! _ := for_each (fun roleID => let! _ := st (fun s _ _ =>
                  AssignRole s (cu_TenantID req) (us_ID u) roleID) in ret tt) (cu_Roles req) in
      let! _ := auditWrite (cu_TenantID req) (us_ID u) (us_Email u) "CreateUser" "user" (us_ID u)
                  None (Some [("email", us_Email u)]) ip in
      ret (safe_user u)
  end.

(** ** Sessions *)

(** The second half of login and refresh: a new token pair. *)
Definition issue_tokens (tenantID : string) (u : User) : MW TokenResponse :=
  let! roles := rd (fun s => GetUserRoles s tenantID (us_ID u)) in
  let roleNames := match roles with Ok rs => ro_Name <$> rs | Err _ => [] end in
  let! accessToken := issueJWT tenantID (us_ID u) roleNames accessTokenTTL in
  let! refreshToken := generateOpaqueToken in
  let! _ := st (fun s n _ => SetRefreshToken s n tenantID (us_ID u) (e_hash env refreshToken)) in
  ret (mkTokens accessToken refreshToken 900).

Definition handleLogin (req : LoginRequest) (ip : string) : MW TokenResponse :=
  let! _ := body_ok (negb (is_empty (lg_TenantID req) || is_empty (lg_Email req)
                           || is_empty (lg_Password req))) in
  let! allowed := allow ("login:" ++ ip) loginLimit loginWindow in
  let! _ := ensure allowed 429 in
  let! r := rd (fun s => GetUserByEmail s (lg_TenantID req) (lg_Email req)) in
  let! u := or_status 401 r in
  let! _ := ensure (e_password_match env (lg_Password req) (us_PasswordHash u)) 401 in
  let! toks := issue_tokens (lg_TenantID req) u in
  let! _ := auditWrite (lg_TenantID req) (us_ID u) (us_Email u) "Login" "user" (us_ID u) None None
              ip in
  ret toks.

Definition handleRefreshToken (tenantID refreshToken : string) : MW TokenResponse :=
  let! _ := body_ok (negb (is_empty tenantID || is_empty refreshToken)) in
  let! allowed := allow ("refresh:" ++ tenantID) refreshLimit refreshWindow in
  let! _ := ensure allowed 429 in
  let! r := rd (fun s => GetUserByRefreshToken s tenantID (e_hash env refreshToken)) in
  let! u := or_status 401 r in
  issue_tokens tenantID u.

Definition handleLogout (tenantID userID ip : string) : MW unit :=
  let! _ := body_ok (negb (is_empty tenantID || is_empty userID)) in
  let! _ := st (fun s n _ => ClearRefreshToken s n tenantID userID) in
  auditWrite tenantID userID "" "Logout" "user" userID None None ip.

(** ** Second factor *)

Definition handleEnroll2FA (tenantID userID : string) : MW string :=
  let! _ := body_ok (negb (is_empty tenantID || is_empty userID)) in
  let! r := rd (fun s => GetUserByID s tenantID userID) in
  let! _ := or_status 404 r in
  let! n := gets ta_ids in
  match e_totp_secret env n with
  | None => raise 500
  | Some secret =>
      let! r := st (fun s n _ => UpdateUserTOTP s n tenantID userID secret false) in
      let! _ := or_status 500 r in
      ret secret
  end.

Definition handleVerify2FA (tenantID userID code ip : string) : MW unit :=
  let! _ := body_ok (negb (is_empty tenantID || is_empty userID || is_empty code)) in
  let! r := rd (fun s => GetUserByID s tenantID userID) in
  let! u := or_status 404 r in
  let! _ := ensure (negb (is_empty (us_TOTPSecret u))) 400 in
  let! _ := ensure (e_totp_valid env code (us_TOTPSecret u)) 401 in
  let! _ := if us_TOTPEnabled u then ret tt
            else let! _ := st (fun s n _ => UpdateUserTOTP s n tenantID userID (us_TOTPSecret u)
                             true) in ret tt in
  auditWrite tenantID userID (us_Email u) "Verify2FA" "user" userID None
    (Some [("totp_enabled", "true")]) ip.

(** ** API keys *)

Definition handleCreateApiKey (tenantID userID name ip : string) : MW (APIKey * string) :=
  let! _ := body_ok (negb (is_empty tenantID || is_empty userID || is_empty name)) in
  let! rawKey := generateOpaqueToken in
  let prefix := String.substring 0 8 rawKey in
  let! r := st (fun s n u => CreateAPIKey s n u tenantID userID name (e_hash env rawKey) prefix) in
  let! k := or_status 500 r in
  let! _ := auditWrite tenantID userID "" "CreateApiKey" "api_key" (ak_ID k) None
              (Some [("name", ak_Name k)]) ip in
  ret (k, rawKey).

Definition handleRevokeApiKey (tenantID keyID ip : string) : MW unit :=
  let! _ := body_ok (negb (is_empty tenantID || is_empty keyID)) in
  let! r := st (fun s _ _ => RevokeAPIKey s tenantID keyID) in
  let! _ := or_status 500 r in
  auditWrite tenantID "system" "system" "RevokeApiKey" "api_key" keyID None
    (Some [("revoked", "true")]) ip.

(** ** Roles, permissions and audit *)

Definition handleAssignRole (tenantID userID roleID ip : string) : MW unit :=
  let! _ := body_ok (negb (is_empty tenantID || is_empty userID || is_empty roleID)) in
  let! r := st (fun s _ _ => AssignRole s tenantID userID roleID) in
  let! _ := or_status 500 r in
  auditWrite tenantID userID "" "AssignRole" "user_role" userID None
    (Some [("role_id", roleID)]) ip.

Definition handleListRoles (tenantID : string) : MW (list Role) :=
  let! _ := body_ok (negb (is_empty tenantID)) in
  let! r := rd (fun s => ListRoles s tenantID) in
  or_status 500 r.

Definition handleCheckPermission (tenantID userID permission : string) : MW bool :=
  let! _ := body_ok (negb (is_empty tenantID || is_empty userID || is_empty permission)) in
  let! r := rd (fun s => CheckPermission s tenantID userID permission) in
  or_status 500 r.

(** The entry of the request; its id and time are set here. *)
Definition handleWriteAuditLog (e : AuditLog) (ip : string) : MW unit :=
  let! _ := body_ok (negb (is_empty (au_TenantID e) || is_empty (au_Action e))) in
  let! t := now in
  let! r := st (fun s n u => WriteAuditLog s n u
    (mkAudit u (au_TenantID e) (au_ActorID e) (au_ActorEmail e) (au_Action e) (au_Resource e)
       (au_ResourceID e) (au_Before e) (au_After e) ip t)) in
  or_status 500 r.

Definition handleQueryAuditLogs (tenantID : string) (limit offset : Z) : MW (list AuditLog) :=
  let! _ := body_ok (negb (is_empty tenantID)) in
  let! r := rd (fun s => QueryAuditLogs s tenantID (if limit <=? 0 then 50 else limit) offset) in
  or_status 500 r.

(** [handleRotateJWT]: only a valid bearer token with the super_admin role
    rotates the secret. *)
Definition handleRotateJWT (post : bool) (auth : string) : MW unit :=
  let! _ := ensure post 405 in
  let! _ := ensure (has_prefix auth "Bearer ") 401 in
  match e_verify env (String.substring 7 (String.length auth - 7) auth) with
  | None => raise 401
  | Some roles =>
      let! _ := ensure (bool_decide ("super_admin" ∈ roles)) 403 in
      match e_rotate env with Some _ => ret tt | None => raise 500 end
  end.

End Service.
