(* ===== verification/TenantAuthSafety.v ===== *)
(** * tenant-auth: refresh tokens, rate limit, roles *)

From S2P Require Import Prelude GoTime GoMonad GoStrings TenantAuth TenantAuthService.

Open Scope Z_scope.

(** ** Requests *)

Inductive ta_op :=
| OpCreateTenant (name region ip : string)
| OpUpdateTenant (tenantID name ip : string)
| OpSuspendTenant (tenantID ip : string)
| OpCreateUser (req : CreateUserRequest) (ip : string)
| OpLogin (req : LoginRequest) (ip : string)
| OpRefresh (tenantID token : string)
| OpLogout (tenantID userID ip : string)
| OpEnroll2FA (tenantID userID : string)
| OpVerify2FA (tenantID userID code ip : string)
| OpCreateApiKey (tenantID userID name ip : string)
| OpRevokeApiKey (tenantID keyID ip : string)
| OpAssignRole (tenantID userID roleID ip : string)
| OpWriteAuditLog (e : AuditLog) (ip : string)
| OpQuery (tenantID userID permission : string) (limit offset : Z).

Section Run.
Context {T L : Type} `{!TaStore T} `{!TaLimiter L} (env : TaEnv).

Definition ta_run (op : ta_op) : M (Ta T L) Z unit :=
  match op with
  | OpCreateTenant name region ip => let! _ := handleCreateTenant env name region ip in ret tt
  | OpUpdateTenant tn name ip => let! _ := handleUpdateTenant env tn name ip in ret tt
  | OpSuspendTenant tn ip => handleSuspendTenant env tn ip
  | OpCreateUser req ip => let! _ := handleCreateUser env req ip in ret tt
  | OpLogin req ip => let! _ := handleLogin env req ip in ret tt
  | OpRefresh tn tok => let! _ := handleRefreshToken env tn tok in ret tt
  | OpLogout tn u ip => handleLogout env tn u ip
  | OpEnroll2FA tn u => let! _ := handleEnroll2FA env tn u in ret tt
  | OpVerify2FA tn u code ip => handleVerify2FA env tn u code ip
  | OpCreateApiKey tn u name ip => let! _ := handleCreateApiKey env tn u name ip in ret tt
  | OpRevokeApiKey tn k ip => handleRevokeApiKey env tn k ip
  | OpAssignRole tn u r ip => handleAssignRole env tn u r ip
  | OpWriteAuditLog e ip => handleWriteAuditLog env e ip
  | OpQuery tn u perm limit offset =>
      let! _ := handleGetTenant tn in
      let! _ := handleListRoles tn in
      let! _ := handleCheckPermission tn u perm in
      let! _ := handleQueryAuditLogs tn limit offset in ret tt
  end.

(** One request, whatever its outcome. *)
Definition ta_step (w : Ta T L) (op : ta_op) : Ta T L := (ta_run op w).1.
End Run.

(** ** Stored token hashes

    The stored hashes as pairs of a user id and a hash, the empty one for no
    token. *)

Definition hashes (p : PgTa.t) : list (string * string) :=
  (fun u => (us_ID u, us_RefreshTokenHash u)) <$> PgTa.users p.

Section Tokens.
Context (env : TaEnv).

(** [h] is the hash of one of the first [n] tokens. *)
Definition issued (n : nat) (h : string) : Prop :=
  exists i t, (i < n)%nat /\ e_token env i = Some t /\ h = e_hash env t.

(** Random tokens and their hashes do not collide, and hashes are not empty. *)
Definition tokens_distinct : Prop :=
  (forall i j t t', e_token env i = Some t -> e_token env j = Some t' ->
     e_hash env t = e_hash env t' -> i = j) /\ (forall t, e_hash env t <> "").

Context (Hdist : tokens_distinct).

Record tok_inv (n : nat) (l : list (string * string)) : Prop := {
  ti_ids : NoDup l.*1;
  ti_issued : forall u h, (u, h) ∈ l -> h = "" \/ issued n h;
  ti_owner : forall u u' h, (u, h) ∈ l -> (u', h) ∈ l -> h <> "" -> u = u'
}.

(** A token that was issued and that no user holds any more. *)
Definition dead (n : nat) (l : list (string * string)) (h : string) : Prop :=
  issued n h /\ forall u, (u, h) ∉ l.

Lemma issued_mono n n' h : (n <= n')%nat -> issued n h -> issued n' h.
Proof. intros Hn (i & t & Hi & Ht & ->). exists i, t. split; [lia|done]. Qed.

Lemma issued_new n t : e_token env n = Some t -> ~ issued n (e_hash env t).
Proof.
  intros Ht (i & t' & Hi & Ht' & He). destruct Hdist as [Hd _].
  pose proof (Hd _ _ _ _ Ht Ht' He). lia.
Qed.

(** Setting the hash of one user. *)
Definition set_hash (u h : string) (l : list (string * string)) : list (string * string) :=
  (fun x => if decide (x.1 = u) then (x.1, h) else x) <$> l.

Lemma set_hash_ids u h l : (set_hash u h l).*1 = l.*1.
Proof.
  induction l as [|[u' h'] l IH]; csimpl; [done|]. f_equal; [by case_decide|done].
Qed.

Lemma set_hash_elem u h l u' h' :
  (u', h') ∈ set_hash u h l -> (u' = u /\ h' = h) \/ (u' <> u /\ (u', h') ∈ l).
Proof.
  intros Hin. apply list_elem_of_fmap in Hin as ([x y] & E & Hx). simpl in E.
  case_decide; simplify_eq; auto.
Qed.

(** The new value of a stored hash: empty, or that of a token just generated. *)
Definition settable (n n' : nat) (h : string) : Prop :=
  (n <= n')%nat /\
  (h = "" \/ ((n < n')%nat /\ exists t, e_token env n = Some t /\ h = e_hash env t)).

Lemma settable_new n t : e_token env n = Some t -> settable n (S n) (e_hash env t).
Proof. intros Ht. split; [lia|]. right. split; [lia|]. by exists t. Qed.

Lemma set_hash_inv n n' u h l :
  tok_inv n l -> settable n n' h -> tok_inv n' (set_hash u h l).
Proof.
  intros [Hids Hiss Hown] [Hn Hh]. split.
  - by rewrite set_hash_ids.
  - intros u' h' [[-> ->]|[_ Hin]]%set_hash_elem.
    + destruct Hh as [->|(Hlt & t & Ht & ->)]; [by left|]. right. by exists n, t.
    + destruct (Hiss _ _ Hin) as [->|Hi]; [by left|right]. by eapply issued_mono.
  - assert (Hnew : forall u1, (u1, h) ∈ l -> h = "").
    { intros u1 Hin. destruct Hh as [->|(_ & t & Ht & ->)]; [done|].
      destruct (Hiss _ _ Hin) as [|Hi]; [done|]. by apply issued_new in Ht. }
    intros u1 u2 h' [[-> ->]|[_ H1]]%set_hash_elem [[-> E]|[_ H2]]%set_hash_elem Hne;
      subst; try done; [| |by eapply Hown].
    + by apply Hnew in H2.
    + by apply Hnew in H1.
Qed.

Lemma set_hash_dead n n' u h l x :
  dead n l x -> settable n n' h -> dead n' (set_hash u h l) x.
Proof.
  intros [Hi Hno] [Hn Hh]. split; [by eapply issued_mono|].
  intros u' [[-> ->]|[_ Hin]]%set_hash_elem; [|by apply (Hno u')].
  destruct Hh as [->|(_ & t & Ht & ->)].
  - destruct Hi as (i & t & _ & _ & E). by destruct Hdist as [_ Hne]; destruct (Hne t).
  - by apply issued_new in Ht.
Qed.

Lemma tok_inv_mono n n' l : (n <= n')%nat -> tok_inv n l -> tok_inv n' l.
Proof.
  intros Hn [Hids Hiss Hown]. split; [done| |done]. intros u h Hin.
  destruct (Hiss u h Hin); [by left|right]. by eapply issued_mono.
Qed.

Lemma dead_mono n n' l h : (n <= n')%nat -> dead n l h -> dead n' l h.
Proof. intros Hn [Hi Hno]. split; [by eapply issued_mono|done]. Qed.

Lemma append_inv n l u : u ∉ l.*1 -> tok_inv n l -> tok_inv n (l ++ [(u, "")]).
Proof.
  intros Hu [Hids Hiss Hown]. split.
  - rewrite fmap_app. apply NoDup_app. split; [done|]. csimpl.
    split; [|apply NoDup_singleton]. intros x Hx ->%list_elem_of_singleton. done.
  - intros u' h [Hin|Hin%list_elem_of_singleton]%elem_of_app; [by apply (Hiss u')|].
    simplify_eq. by left.
  - intros u1 u2 h [H1|H1%list_elem_of_singleton]%elem_of_app
      [H2|H2%list_elem_of_singleton]%elem_of_app Hne; simplify_eq; try done. by eapply Hown.
Qed.

Lemma append_dead n l u h : dead n l h -> dead n (l ++ [(u, "")]) h.
Proof.
  intros [Hi Hno]. split; [done|]. intros u' [Hin|Hin%list_elem_of_singleton]%elem_of_app.
  - by apply (Hno u').
  - simplify_eq. destruct Hi as (i & t & _ & _ & E). by destruct Hdist as [_ Hne]; destruct (Hne t).
Qed.

(** ** Every request keeps the invariant, and dead tokens dead *)

Context {L : Type} `{!TaLimiter L}.
Abbreviation W := (Ta PgTa.t L).

Definition tok_ok (w : W) : Prop := tok_inv (ta_tokens w) (hashes (ta_store w)).
Definition is_dead (w : W) (h : string) : Prop := dead (ta_tokens w) (hashes (ta_store w)) h.

Definition R_tok (w w' : W) : Prop :=
  tok_ok w -> tok_ok w' /\ (forall h, is_dead w h -> is_dead w' h).

#[local] Instance R_tok_pre : PreOrder R_tok.
Proof.
  split; [by intros w|]. intros w1 w2 w3 R12 R23 Hok. destruct (R12 Hok) as [H2 D2].
  destruct (R23 H2) as [H3 D3]. split; auto.
Qed.

(** States with the same tokens and the same hashes. *)
Lemma R_tok_same (w w' : W) :
  (ta_tokens w <= ta_tokens w')%nat -> hashes (ta_store w') = hashes (ta_store w) -> R_tok w w'.
Proof.
  intros Hn Hh. unfold R_tok, tok_ok, is_dead. rewrite Hh. intros Hok.
  split; intros; [by eapply tok_inv_mono|by eapply dead_mono].
Qed.

Lemma tok_now : keeps R_tok (now env).
Proof. intros w. by apply R_tok_same. Qed.
Lemma tok_rd {A} (f : PgTa.t -> result A) : keeps R_tok (rd f).
Proof. intros w. by apply R_tok_same. Qed.
Lemma tok_allow k l win : keeps R_tok (allow env k l win).
Proof. intros w. unfold allow. destruct (Allow _ _ _ _ _). by apply R_tok_same. Qed.
Lemma tok_status {A} s (r : result A) : keeps R_tok (or_status s r).
Proof. destruct r; simpl; [apply keeps_ret|apply keeps_raise]; apply _. Qed.
Lemma tok_body b : keeps R_tok (body_ok b).
Proof. apply keeps_ensure, _. Qed.
Lemma tok_generate : keeps R_tok (generateOpaqueToken env).
Proof. intros w. unfold generateOpaqueToken. apply R_tok_same; simpl; [lia|done]. Qed.
Lemma tok_gets {A} (f : W -> A) : keeps (E:=Z) R_tok (gets f).
Proof. apply keeps_gets, _. Qed.

Lemma tok_st {A} (f : PgTa.t -> Z -> string -> PgTa.t * result A) :
  (forall s n u, hashes (f s n u).1 = hashes s) -> keeps R_tok (st env f).
Proof.
  intros Hf w. unfold st. specialize (Hf (ta_store w) (e_now env (ta_reads w))
    (e_uuid env (ta_ids w))). destruct (f _ _ _). by apply R_tok_same.
Qed.

#[local] Hint Resolve R_tok_pre tok_now tok_rd tok_allow tok_status tok_body tok_generate
  tok_gets : keeps.

(** [PgTa.exec] either changes nothing or makes the write. *)
Lemma exec_hashes {A} (p p' : PgTa.t) bad (a : A) :
  hashes p' = hashes p -> hashes (PgTa.exec p bad p' a).1 = hashes p.
Proof. intros Hh. unfold PgTa.exec. by repeat case_match. Qed.

Lemma tok_audit tn a e ac r rid b af ip : keeps R_tok (auditWrite env tn a e ac r rid b af ip).
Proof.
  unfold auditWrite. apply keeps_bind; [apply _|auto with keeps|]. intros t.
  apply keeps_bind; [apply _| |intros; auto with keeps].
  apply tok_st. intros. by apply exec_hashes.
Qed.
#[local] Hint Resolve tok_audit : keeps.

Lemma update_totp_hashes p tn u secret en n :
  hashes (PgTa.updateUserTOTP p n tn u secret en).1 = hashes p.
Proof.
  apply exec_hashes. unfold hashes. simpl. unfold PgTa.update_where. rewrite <- list_fmap_compose.
  apply list_fmap_ext. intros i x _. simpl. by destruct (PgTa.is_user _ _ _).
Qed.

Lemma assign_role_hashes p tn u r : hashes (PgTa.assignRole p tn u r).1 = hashes p.
Proof. apply exec_hashes. by case_decide. Qed.

Lemma update_tenant_hashes p n tn name : hashes (PgTa.updateTenant p n tn name).1 = hashes p.
Proof. unfold PgTa.updateTenant, PgTa.exec. by destruct (negb _). Qed.

Lemma tok_create_user a b c d : keeps R_tok (st env (fun s n uid => CreateUser s n uid a b c d)).
Proof.
  intros w. unfold st. cbn [CreateUser pg_ta_store]. unfold PgTa.createUser, PgTa.exec.
  destruct (negb _); [by apply R_tok_same|].
  destruct (_ || _) eqn:E; [by apply R_tok_same|]. simpl.
  unfold R_tok, tok_ok, is_dead, hashes. simpl. rewrite fmap_app. csimpl.
  intros Hi. split; [|intros; by apply append_dead]. apply append_inv; [|done].
  apply orb_false_iff in E as [[E _]%orb_false_iff _].
  intros Hin. rewrite <- list_fmap_compose in Hin. apply list_elem_of_fmap in Hin as (u & Eu & Hu).
  unfold PgTa.has_user in E. rewrite <- not_true_iff_false in E. apply E.
  apply List.existsb_exists. exists u. split; [by apply list_elem_of_In|].
  by apply bool_decide_eq_true.
Qed.
#[local] Hint Resolve tok_create_user : keeps.

(** Which pairs an update of the hash of one user changes. *)
Definition pair_of (x : User) : string * string := (us_ID x, us_RefreshTokenHash x).

Lemma is_user_other tn u x : us_ID x <> u -> PgTa.is_user tn u x = false.
Proof. intros. unfold PgTa.is_user. by rewrite (bool_decide_false (us_ID x = u)), andb_false_r. Qed.

Lemma update_others tn u h n l :
  Forall (fun y => us_ID y <> u) l ->
  pair_of <$> PgTa.update_where (PgTa.is_user tn u) (fun y => with_hash y h n) l = pair_of <$> l /\
  set_hash u h (pair_of <$> l) = pair_of <$> l.
Proof.
  induction 1 as [|y l Hy _ [IH1 IH2]]; [done|]. unfold set_hash, PgTa.update_where in *. csimpl.
  rewrite is_user_other, decide_False, IH1, IH2 by done. done.
Qed.

Lemma hashes_with_hash p tn u h n :
  NoDup (hashes p).*1 ->
  let users' := PgTa.update_where (PgTa.is_user tn u) (fun x => with_hash x h n) (PgTa.users p) in
  hashes (PgTa.set_users users' p) = hashes p \/
  hashes (PgTa.set_users users' p) = set_hash u h (hashes p).
Proof.
  intros Hnd. change (hashes p) with (pair_of <$> PgTa.users p) in *. unfold hashes. simpl.
  revert Hnd. induction (PgTa.users p) as [|x l IH]; [by left|].
  rewrite !fmap_cons. intros [Hni Hnd]%NoDup_cons.
  destruct (decide (us_ID x = u)) as [Hx|Hx].
  - destruct (update_others tn u h n l) as [Ha Hb].
    { apply Forall_forall. intros y Hy Ey. apply Hni. rewrite <- list_fmap_compose.
      change (pair_of x).1 with (us_ID x). rewrite Hx, <- Ey.
      by apply (list_elem_of_fmap_2 (fun z => (pair_of z).1)). }
    unfold PgTa.update_where, set_hash in *. csimpl. rewrite decide_True by done.
    destruct (PgTa.is_user tn u x) eqn:Eu; [right|left].
    + simpl. rewrite Hb. f_equal. exact Ha.
    + f_equal. exact Ha.
  - unfold PgTa.update_where, set_hash in *. csimpl. rewrite is_user_other, decide_False by done.
    destruct (IH Hnd) as [E|E]; [left|right]; f_equal; exact E.
Qed.

(** Setting or clearing the hash of one user. *)
Lemma R_tok_set (w : W) s' r i k h tn u m :
  settable (ta_tokens w) k h ->
  s' = PgTa.set_users (PgTa.update_where (PgTa.is_user tn u) (fun x => with_hash x h m)
         (PgTa.users (ta_store w))) (ta_store w) ->
  R_tok w (mkTa s' (ta_limiter w) r i k).
Proof.
  intros Hset Hs Hok. unfold tok_ok, is_dead. simpl.
  subst s'. destruct (hashes_with_hash (ta_store w) tn u h m (ti_ids _ _ Hok)) as [-> | ->].
  - destruct Hset as [Hn _]. split; intros; [by eapply tok_inv_mono|by eapply dead_mono].
  - split; intros; [by eapply set_hash_inv|by eapply set_hash_dead].
Qed.

Lemma tok_clear tn u : keeps R_tok (st env (fun s n _ => ClearRefreshToken s n tn u)).
Proof.
  intros w. unfold st. cbn [ClearRefreshToken pg_ta_store].
  unfold PgTa.clearRefreshToken, PgTa.exec.
  assert (settable (ta_tokens w) (ta_tokens w) "") by (split; [lia|by left]).
  destruct (negb _); simpl; [by apply R_tok_same|by eapply R_tok_set].
Qed.

(** A new token is generated and its hash stored. *)
Lemma tok_rotate {A} tn u (f : string -> M W Z A) :
  (forall t, keeps R_tok (f t)) ->
  keeps R_tok (let! t := generateOpaqueToken env in
               let! _ := st env (fun s n _ => SetRefreshToken s n tn u (e_hash env t)) in f t).
Proof.
  intros Hf w. rewrite bind_run. unfold generateOpaqueToken.
  destruct (e_token env (ta_tokens w)) as [t|] eqn:Et; [|apply R_tok_same; simpl; [lia|done]].
  rewrite bind_run. unfold st. cbn [SetRefreshToken pg_ta_store ta_store ta_reads ta_ids ta_tokens].
  unfold PgTa.setRefreshToken, PgTa.exec.
  assert (Hset : settable (ta_tokens w) (S (ta_tokens w)) (e_hash env t)) by by apply settable_new.
  destruct (negb _); simpl; (etrans; [|apply Hf]).
  - apply R_tok_same; simpl; [lia|done].
  - by eapply R_tok_set.
Qed.

Lemma tok_issue tn u : keeps R_tok (issue_tokens env tn u).
Proof.
  unfold issue_tokens. apply keeps_bind; [apply _|auto with keeps|]. intros roles.
  apply keeps_bind; [apply _| |].
  - unfold issueJWT. keeps_tac.
  - intros a. apply tok_rotate. keeps_tac.
Qed.
#[local] Hint Resolve tok_clear tok_issue : keeps.

Lemma tok_run op : keeps R_tok (ta_run env op).
Proof.
  destruct op; simpl; unfold handleCreateTenant, handleUpdateTenant, handleSuspendTenant,
    handleCreateUser, handleLogin, handleRefreshToken, handleLogout, handleEnroll2FA,
    handleVerify2FA, handleCreateApiKey, handleRevokeApiKey, handleAssignRole,
    handleWriteAuditLog, handleGetTenant, handleListRoles, handleCheckPermission,
    handleQueryAuditLogs; keeps_tac.
  all: apply tok_st; intros; first [by apply exec_hashes | apply update_totp_hashes
    | apply assign_role_hashes | apply update_tenant_hashes].
Qed.

Lemma tok_steps ops (w : W) : R_tok w (foldl (ta_step env) w ops).
Proof.
  revert w. induction ops as [|op ops IH]; intros w; simpl; [reflexivity|].
  etrans; [apply (tok_run op w)|apply IH].
Qed.

(** ** What a refresh does *)

Lemma allow_run k l win (w w1 : W) b :
  allow env k l win w = (w1, inr b) ->
  ta_store w1 = ta_store w /\ ta_tokens w1 = ta_tokens w.
Proof. unfold allow. destruct (Allow _ _ _ _ _). by intros [= <- _]. Qed.

Lemma issue_run tn u (w w1 : W) r :
  issue_tokens env tn u w = (w1, inr r) ->
  exists m t, e_token env (ta_tokens w) = Some t /\ tr_refresh r = t /\
    ta_tokens w1 = S (ta_tokens w) /\
    ta_store w1 = (PgTa.setRefreshToken (ta_store w) m tn (us_ID u) (e_hash env t)).1.
Proof.
  unfold issue_tokens. intros (w2 & roles & [= <- <-] & H)%bind_ok.
  apply bind_ok in H as (w3 & a & Ha & H). unfold issueJWT in Ha.
  apply bind_ok in Ha as (w4 & t1 & [= <- <-] & Ha). apply bind_ok in Ha as (w5 & t2 & [= <- <-] & Ha).
  destruct (e_sign env _); [|done]. injection Ha as <- <-.
  apply bind_ok in H as (w6 & t & Ht & H). unfold generateOpaqueToken in Ht. simpl in Ht.
  destruct (e_token env (ta_tokens w)) as [t'|] eqn:Et; [|done]. injection Ht as <- <-.
  apply bind_ok in H as (w7 & rs & Hs & H). unfold st in Hs. cbn [SetRefreshToken pg_ta_store] in Hs.
  destruct (PgTa.setRefreshToken _ _ _ _ _) as [s' r'] eqn:Es. injection Hs as <- <-.
  injection H as <- <-. eexists _, t'. split_and!; [done..|]. simpl in Es. simpl. by rewrite Es.
Qed.

Lemma refresh_run tn tok (w w1 : W) r :
  handleRefreshToken env tn tok w = (w1, inr r) ->
  exists u m t, PgTa.getUserByRefreshToken (ta_store w) tn (e_hash env tok) = Ok u /\
    e_token env (ta_tokens w) = Some t /\ tr_refresh r = t /\
    ta_tokens w1 = S (ta_tokens w) /\
    ta_store w1 = (PgTa.setRefreshToken (ta_store w) m tn (us_ID u) (e_hash env t)).1.
Proof.
  unfold handleRefreshToken. intros (w2 & [] & [_ ->]%ensure_ok & H)%bind_ok.
  apply bind_ok in H as (w3 & b & [<- <-]%allow_run & H).
  apply bind_ok in H as (w4 & [] & [_ ->]%ensure_ok & H).
  apply bind_ok in H as (w5 & ru & [= <- <-] & H). apply bind_ok in H as (w6 & u & Hu & H).
  cbn [GetUserByRefreshToken pg_ta_store] in Hu.
  destruct (PgTa.getUserByRefreshToken _ _ _) as [u'|]; [|done]. injection Hu as <- <-.
  apply issue_run in H as (m & t & H). by exists u', m, t.
Qed.

(** The row found by a token. *)
Lemma found_by_token p tn h u :
  PgTa.getUserByRefreshToken p tn h = Ok u ->
  PgTa.up p = true /\ u ∈ PgTa.users p /\ us_TenantID u = tn /\ us_RefreshTokenHash u = h /\ h <> ""
  /\ PgTa.active u = true.
Proof.
  unfold PgTa.getUserByRefreshToken, PgTa.query_row. destruct (PgTa.up p); [|done]. simpl.
  destruct (List.find _ _) as [x|] eqn:E; [|done]. intros [= <-].
  apply List.find_some in E as [Hin E]. apply list_elem_of_In in Hin. rewrite !andb_true_iff in E.
  destruct E as [[E1 [E2 E3]] E4]. apply bool_decide_eq_true in E1, E2. split_and!; try done.
  intros ->. done.
Qed.

Lemma dead_unusable (w : W) tn tok :
  is_dead w (e_hash env tok) -> exists s, (handleRefreshToken env tn tok w).2 = inl s.
Proof.
  intros [_ Hno]. destruct (handleRefreshToken env tn tok w) as [w1 [s|r]] eqn:E; [by exists s|].
  apply refresh_run in E as (u & m & t & Hu & _). apply found_by_token in Hu as (_ & Hin & _ & Hh & _).
  destruct (Hno (us_ID u)). rewrite <- Hh. by apply (list_elem_of_fmap_2 pair_of).
Qed.

Lemma same_row (p : PgTa.t) u x :
  NoDup (hashes p).*1 -> u ∈ PgTa.users p -> x ∈ PgTa.users p -> us_ID x = us_ID u -> x = u.
Proof.
  unfold hashes. rewrite <- list_fmap_compose. intros Hnd [i Hi]%list_elem_of_lookup
    [j Hj]%list_elem_of_lookup E.
  assert (i = j) as ->; [|congruence]. eapply NoDup_lookup; [done|..]; rewrite list_lookup_fmap.
  - rewrite Hi. done.
  - rewrite Hj. simpl. by rewrite E.
Qed.

Lemma pair_in (p : PgTa.t) x :
  x ∈ PgTa.users p -> (us_ID x, us_RefreshTokenHash x) ∈ hashes p.
Proof. intros Hx. by apply (list_elem_of_fmap_2 pair_of). Qed.

Lemma is_self tn u : us_TenantID u = tn -> PgTa.is_user tn (us_ID u) u = true.
Proof. intros. unfold PgTa.is_user. by rewrite !bool_decide_true. Qed.

(** Rotation or logout: the old hash is dead, *)
Lemma rotate_dead n n' (p : PgTa.t) tn u m h' h :
  tok_inv n (hashes p) -> PgTa.writable p = true ->
  PgTa.getUserByRefreshToken p tn h = Ok u -> settable n n' h' ->
  dead n' (hashes (PgTa.setRefreshToken p m tn (us_ID u) h').1) h.
Proof.
  intros [Hids Hiss Hown] Hwr (Hup & Hin & Htn & Hh & Hne & Hact)%found_by_token [Hn Hset].
  unfold PgTa.setRefreshToken, PgTa.exec. rewrite Hup, Hwr. simpl.
  assert (Hiu : issued n h).
  { destruct (Hiss _ _ (pair_in p u Hin)) as [E|E]; rewrite Hh in E; [done|exact E]. }
  split; [by eapply issued_mono|]. intros x Hx.
  apply list_elem_of_fmap in Hx as (y & E & Hy). apply list_elem_of_fmap in Hy as (z & -> & Hz).
  destruct (PgTa.is_user tn (us_ID u) z) eqn:Ez; simpl in E; injection E as Ex Eh.
  - destruct Hset as [->|(_ & t & Ht & ->)]; [done|]. apply (issued_new _ _ Ht). by rewrite <- Eh.
  - assert (us_ID z = us_ID u).
    { apply (Hown _ _ h); [|rewrite <- Hh; by apply pair_in|done]. rewrite Eh. by apply pair_in. }
    rewrite (same_row _ u z Hids Hin Hz), is_self in Ez by done. done.
Qed.

(** And the new one finds the same user. *)
Lemma rotate_found n (p : PgTa.t) tn u m t h :
  tok_inv n (hashes p) -> PgTa.writable p = true -> PgTa.getUserByRefreshToken p tn h = Ok u ->
  e_token env n = Some t ->
  exists u', PgTa.getUserByRefreshToken
    (PgTa.setRefreshToken p m tn (us_ID u) (e_hash env t)).1 tn (e_hash env t) = Ok u' /\
    us_ID u' = us_ID u.
Proof.
  intros [Hids Hiss Hown] Hwr (Hup & Hin & Htn & Hh & Hne & Hact)%found_by_token Ht.
  unfold PgTa.setRefreshToken, PgTa.exec. rewrite Hup, Hwr. simpl.
  unfold PgTa.getUserByRefreshToken, PgTa.query_row. simpl. rewrite Hup. simpl.
  match goal with |- context [List.find ?f _] => set (c := f) end.
  destruct (List.find c _) as [x|] eqn:Ef.
  - exists x. split; [done|]. apply List.find_some in Ef as [Hx Hc]. apply list_elem_of_In in Hx.
    apply list_elem_of_fmap in Hx as (z & -> & Hz).
    destruct (PgTa.is_user tn (us_ID u) z) eqn:Ez.
    + simpl. unfold PgTa.is_user in Ez. apply andb_true_iff in Ez as [_ Ez].
      by apply bool_decide_eq_true in Ez.
    + unfold c in Hc. rewrite !andb_true_iff in Hc. destruct Hc as [[_ [Hc _]] _].
      apply bool_decide_eq_true in Hc.
      destruct (Hiss _ _ (pair_in p z Hz)) as [E|E]; rewrite Hc in E.
      * by destruct Hdist as [_ Hn]; destruct (Hn t).
      * by apply issued_new in Ht.
  - exfalso. assert (Hc : c (with_hash u (e_hash env t) m) = true).
    { unfold c. rewrite !andb_true_iff, !bool_decide_eq_true. split_and!; try done.
      destruct Hdist as [_ Hn]. specialize (Hn t). by destruct (e_hash env t). }
    eapply List.find_none in Ef; [rewrite Hc in Ef; done|].
    apply list_elem_of_In, list_elem_of_fmap. exists u. by rewrite is_self.
Qed.

(** What happens to the service: a request, or a change of what the database
    answers to. *)
Inductive ta_event :=
| EvRequest (op : ta_op)
| EvDatabase (up writable : bool).

Definition set_health (up writable : bool) (p : PgTa.t) : PgTa.t :=
  PgTa.mk (PgTa.tenants p) (PgTa.users p) (PgTa.roles p) (PgTa.user_roles p) (PgTa.api_keys p)
    (PgTa.audit p) up writable.

Definition ta_event_step (w : W) (ev : ta_event) : W :=
  match ev with
  | EvRequest op => ta_step env w op
  | EvDatabase up writable =>
      mkTa (set_health up writable (ta_store w)) (ta_limiter w) (ta_reads w) (ta_ids w) (ta_tokens w)
  end.

Lemma tok_events evs (w : W) : R_tok w (foldl ta_event_step w evs).
Proof.
  revert w. induction evs as [|ev evs IH]; intros w; simpl; [reflexivity|].
  etrans; [|apply IH]. destruct ev as [op|up wr]; [apply (tok_run op w)|by apply R_tok_same].
Qed.

(** The invariant holds in every state reached from an empty database. *)
Lemma tok_ok_reachable (l : L) evs : tok_ok (foldl ta_event_step (mkTa PgTa.empty l 0 0 0) evs).
Proof.
  apply tok_events. split; simpl; [constructor|set_solver|set_solver].
Qed.
End Tokens.

(** ** Refresh tokens *)

(** C11: a refresh token is used once.  Whatever requests were served since the
    database was empty, and whatever database outages came in between, a
    successful refresh during which the database takes writes returns a new
    token that finds the same user, and from then on, whatever requests and
    outages follow, no refresh with the old token succeeds, for any tenant.
    The random tokens are assumed distinct, with distinct nonempty hashes.
    Without the write the claim fails: the service drops the error
    ([lost_rotation_keeps_the_old_token]). *)
Theorem refresh_token_is_single_use {L} `{!TaLimiter L} env (l : L) evs tn tok w1 r :
  tokens_distinct env ->
  let w := foldl (ta_event_step env) (mkTa PgTa.empty l 0 0 0) evs in
  PgTa.writable (ta_store w) = true ->
  handleRefreshToken env tn tok w = (w1, inr r) ->
  (exists u u', GetUserByRefreshToken (ta_store w) tn (e_hash env tok) = Ok u /\
     GetUserByRefreshToken (ta_store w1) tn (e_hash env (tr_refresh r)) = Ok u' /\
     us_ID u' = us_ID u) /\
  forall evs' tn', exists s,
    (handleRefreshToken env tn' tok (foldl (ta_event_step env) w1 evs')).2 = inl s.
Proof.
  intros Hdist w Hwr Hrun. pose proof (tok_ok_reachable env Hdist l evs) as Hok. fold w in Hok.
  pose proof (tok_run env Hdist (OpRefresh tn tok) w Hok) as [Hok1 _].
  simpl in Hok1. rewrite bind_run, Hrun in Hok1. simpl in Hok1.
  apply refresh_run in Hrun as (u & m & t & Hu & Ht & Hr & Hn & Hs). rewrite Hr, Hs. split.
  - destruct (rotate_found env Hdist _ _ _ _ m _ _ Hok Hwr Hu Ht) as (u' & Hu' & E). by exists u, u'.
  - intros evs' tn'. apply (dead_unusable env). apply (tok_events env Hdist evs' w1 Hok1).
    unfold is_dead. rewrite Hn, Hs. by eapply rotate_dead; [..|apply settable_new].
Qed.

(** A refresh whose write the database refuses is answered as a success all the
    same: the token it hands out finds nobody, and the old token goes on
    working. *)
Theorem lost_rotation_keeps_the_old_token {L} `{!TaLimiter L} env tn tok (w w1 : Ta PgTa.t L) r :
  PgTa.writable (ta_store w) = false -> handleRefreshToken env tn tok w = (w1, inr r) ->
  ta_store w1 = ta_store w /\
  is_ok (GetUserByRefreshToken (ta_store w1) tn (e_hash env tok)) = true.
Proof.
  intros Hwr (u & m & t & Hu & _ & _ & _ & Hs)%refresh_run.
  unfold PgTa.setRefreshToken, PgTa.exec in Hs. rewrite Hwr, andb_false_r in Hs. simpl in Hs.
  split; [done|]. rewrite Hs. simpl. by rewrite Hu.
Qed.

Fixpoint unary (n : nat) : string := match n with O => "" | S n => String (Ascii.ascii_of_nat 97) (unary n) end.

Lemma unary_inj i j : unary i = unary j -> i = j.
Proof. revert j. induction i; intros [|j] [=]; [done|]. f_equal. auto. Qed.

(** Ids and random tokens in unary, and a hash that keeps them apart. *)
Definition sample_env : TaEnv := mkTaEnv (fun n => Z.of_nat n) (fun n => unary (S n))
  (fun n => Some (unary (S n))) (fun t => ("h" ++ t)%string)
  (fun pw => Some pw) (fun pw h => bool_decide (pw = h)) (fun _ => Some "jwt") (fun _ => None)
  (fun _ => Some "secret") (fun _ _ => true) None.

Lemma sample_tokens_distinct : tokens_distinct sample_env.
Proof.
  split; [|done]. intros i j t t' [= <-] [= <-] [= E].
  by apply unary_inj.
Qed.

Definition sample_events : list ta_event :=
  EvRequest <$> [OpCreateTenant "Acme" "" "ip";
    OpCreateUser (mkCreateUser "a" "a@b" "A" "pw" []) "ip"; OpLogin (mkLogin "a" "a@b" "pw") "ip"].

Lemma refresh_token_is_single_use_witness :
  let w := foldl (ta_event_step sample_env) (mkTa PgTa.empty tt 0 0 0) sample_events in
  exists s, (handleRefreshToken sample_env "a" "a" (foldl (ta_event_step sample_env)
    (handleRefreshToken sample_env "a" "a" w).1 [EvDatabase false false; EvDatabase true true])).2
    = inl s.
Proof.
  intros w.
  assert (E : exists r, handleRefreshToken sample_env "a" "a" w
                = ((handleRefreshToken sample_env "a" "a" w).1, inr r)).
  { eexists. vm_compute. reflexivity. }
  destruct E as [r E].
  exact (proj2 (refresh_token_is_single_use sample_env tt sample_events "a" "a" _ r
           sample_tokens_distinct eq_refl E) [EvDatabase false false; EvDatabase true true] "a").
Defined.

Lemma lost_rotation_keeps_the_old_token_witness :
  let w := foldl (ta_event_step sample_env) (mkTa PgTa.empty tt 0 0 0)
             (sample_events ++ [EvDatabase true false]) in
  let w1 := (handleRefreshToken sample_env "a" "a" w).1 in
  is_ok (GetUserByRefreshToken (ta_store w1) "a" (e_hash sample_env "a")) = true.
Proof.
  intros w w1.
  assert (E : exists r, handleRefreshToken sample_env "a" "a" w = (w1, inr r)).
  { eexists. vm_compute. reflexivity. }
  destruct E as [r E].
  exact (proj2 (lost_rotation_keeps_the_old_token sample_env "a" "a" w w1 r eq_refl E)).
Defined.

(** ** The rate limiter *)

(** The answers to the calls for [k] among calls for several keys, each with its
    time. *)
Fixpoint rl_answers (r : TaRedis.t) (k : string) (limit window : Z) (calls : list (string * Z))
    : list bool :=
  match calls with
  | [] => []
  | (k', t) :: calls' =>
      let '(r', b) := TaRedis.allow r t k' limit window in
      if decide (k' = k) then b :: rl_answers r' k limit window calls'
      else rl_answers r' k limit window calls'
  end.

(** Each call for [k] comes less than [window] after the one before it. *)
Fixpoint steady (k : string) (window : Z) (last : option Z) (calls : list (string * Z)) : Prop :=
  match calls with
  | [] => True
  | (k', t) :: calls' =>
      if decide (k' = k)
      then match last with Some t0 => t < t0 + window | None => True end
           /\ steady k window (Some t) calls'
      else steady k window last calls'
  end.

Lemma rl_key_inj (a b : string) : ("rl:" ++ a = "rl:" ++ b)%string -> a = b.
Proof. intros [= E]. exact E. Qed.

Lemma rl_answers_from r k limit window last n calls :
  TaRedis.up r = true -> steady k window last calls ->
  match last with
  | Some t0 => TaRedis.counters r !! ("rl:" ++ k)%string = Some (Z.of_nat n, t0 + window)
  | None => TaRedis.counters r !! ("rl:" ++ k)%string = None /\ n = 0%nat
  end ->
  let l := rl_answers r k limit window calls in
  l = (fun i => Z.of_nat i <=? limit) <$> seq (S n) (length l).
Proof.
  revert r last n. induction calls as [|[k' t] calls IH]; intros r last n Hup Hs Hl; simpl in *; [done|].
  unfold TaRedis.allow. rewrite Hup. simpl. destruct (decide (k' = k)) as [->|Hk].
  - destruct Hs as [Ht Hs]. assert (Hn : match TaRedis.counters r !! ("rl:" ++ k)%string with
      | Some (c, expiry) => if t <? expiry then c else 0 | None => 0 end + 1 = Z.of_nat (S n)).
    { destruct last as [t0|]; [|destruct Hl as [-> ->]; done]. rewrite Hl.
      rewrite (proj2 (Z.ltb_lt _ _) Ht). lia. }
    change (String.append "rl:" k) with ("rl:" ++ k)%string. rewrite Hn. csimpl. f_equal.
    apply (IH _ (Some t)); [done..|]. simpl. apply lookup_insert_eq.
  - apply (IH _ last); [done..|]. simpl. rewrite lookup_insert_ne by (by intros ?%rl_key_inj). done.
Qed.

(** As long as calls for a key keep coming within a window of each other,
    the limiter lets through exactly the first [limit] of them, whatever calls
    for other keys come between: the count is not forgotten while calls last. *)
Theorem limiter_admits_first_calls r k limit window calls :
  TaRedis.up r = true -> TaRedis.counters r !! ("rl:" ++ k)%string = None ->
  steady k window None calls ->
  let l := rl_answers r k limit window calls in
  l = (fun i => Z.of_nat i <=? limit) <$> seq 1 (length l).
Proof. intros Hup Hk Hs. by apply (rl_answers_from _ _ _ _ None 0). Qed.

Lemma limiter_admits_first_calls_witness :
  rl_answers (TaRedis.mk ∅ true) "login:ip" loginLimit loginWindow
    (("refresh:t", 0) :: ((fun i => ("login:ip", Z.of_nat i * 50 * second)) <$> seq 0 7))
  = [true; true; true; true; true; false; false].
Proof.
  rewrite (limiter_admits_first_calls (TaRedis.mk ∅ true) "login:ip" loginLimit loginWindow
    (("refresh:t", 0) :: ((fun i => ("login:ip", Z.of_nat i * 50 * second)) <$> seq 0 7)));
    vm_compute; repeat split; reflexivity.
Defined.

(** ** Login and the second factor *)

(** The database without enrolled second factors and with active tenants. *)
Definition without_2fa (p : PgTa.t) : PgTa.t :=
  PgTa.set_tenants ((fun x => with_tstatus x TenantStatusActive (te_UpdatedAt x)) <$> PgTa.tenants p)
    (PgTa.set_users ((fun u => with_totp u "" false (us_UpdatedAt u)) <$> PgTa.users p) p).

Definition relaxed {L} (w : Ta PgTa.t L) : Ta PgTa.t L :=
  mkTa (without_2fa (ta_store w)) (ta_limiter w) (ta_reads w) (ta_ids w) (ta_tokens w).

Lemma find_fmap {A B} (f : A -> B) (c : B -> bool) l :
  List.find c (f <$> l) = f <$> List.find (fun x => c (f x)) l.
Proof. induction l as [|x l IH]; [done|]. csimpl. by destruct (c (f x)). Qed.

Lemma login_lookup_relaxed p tn email :
  PgTa.getUserByEmail (without_2fa p) tn email =
  match PgTa.getUserByEmail p tn email with
  | Ok u => Ok (with_totp u "" false (us_UpdatedAt u))
  | Err e => Err e
  end.
Proof.
  unfold PgTa.getUserByEmail, PgTa.query_row. simpl. destruct (PgTa.up p); [|done]. simpl.
  rewrite find_fmap. unfold PgTa.active. simpl. by destruct (List.find _ _).
Qed.

(** A login looks at neither the second factor of the user nor the status of
    the tenant: with every second factor removed and every tenant active, it
    gives the same tokens, or fails with the same status. *)
Theorem login_ignores_second_factor {L} `{!TaLimiter L} env req ip (w : Ta PgTa.t L) :
  (handleLogin env req ip (relaxed w)).2 = (handleLogin env req ip w).2.
Proof.
  unfold handleLogin, body_ok, ensure, allow, rd, bind. destruct (negb _); [|done]. simpl.
  destruct (Allow _ _ _ _ _) as [l []]; [|done]. simpl.
  rewrite login_lookup_relaxed. destruct (PgTa.getUserByEmail _ _ _) as [u|]; [|done]. simpl.
  destruct (e_password_match _ _ _); [|done].
  unfold issue_tokens, issueJWT, auditWrite, bind, rd, now, generateOpaqueToken, st, ret, raise.
  simpl. change (PgTa.getUserRoles (without_2fa (ta_store w))) with (PgTa.getUserRoles (ta_store w)).
  destruct (e_sign _ _); [|done]. simpl. destruct (e_token _ _); [|done]. simpl.
  destruct (PgTa.setRefreshToken (without_2fa _) _ _ _ _), (PgTa.setRefreshToken _ _ _ _ _).
  unfold now, st. simpl.
  by destruct (PgTa.writeAuditLog _ _ _ _), (PgTa.writeAuditLog t0 _ _ _).
Qed.

(** ** Roles of other tenants *)

Lemma audit_keeps_roles {L} `{!TaLimiter L} env tn a e ac rs rid b af ip (w : Ta PgTa.t L) :
  let p' := ta_store (auditWrite env tn a e ac rs rid b af ip w).1 in
  PgTa.roles p' = PgTa.roles (ta_store w) /\
  PgTa.user_roles p' = PgTa.user_roles (ta_store w) /\ PgTa.up p' = PgTa.up (ta_store w).
Proof.
  unfold auditWrite, bind, now, st. simpl. unfold PgTa.writeAuditLog, PgTa.exec.
  destruct (negb (PgTa.up _ && _)); [done|]. by destruct (_ || _).
Qed.

Lemma assigned_in_joined p tn u r :
  r ∈ PgTa.roles p -> (u, tn, ro_ID r) ∈ PgTa.user_roles p -> r ∈ PgTa.joined p tn u.
Proof.
  intros Hr Hu. unfold PgTa.joined. apply list_elem_of_bind. exists r. split; [|done].
  apply list_elem_of_fmap. eexists. split; [done|]. by apply list_elem_of_filter.
Qed.

(** A role assigned to a user gives the user its permissions in the tenant
    of the request, also when the role belongs to another tenant: neither the
    assignment nor the permission check compares the tenant of the role. *)
Theorem assigned_role_grants {L} `{!TaLimiter L} env tn u r perm ip (w w1 : Ta PgTa.t L) :
  r ∈ PgTa.roles (ta_store w) -> grants perm r = true -> perm <> "" ->
  handleAssignRole env tn u (ro_ID r) ip w = (w1, inr tt) ->
  (handleCheckPermission tn u perm w1).2 = inr true.
Proof.
  intros Hr Hg Hp. unfold handleAssignRole, handleCheckPermission, body_ok.
  intros (w2 & [] & [Hb ->]%ensure_ok & H)%bind_ok.
  apply bind_ok in H as (w3 & a & Ha & H). unfold st in Ha. cbn [AssignRole pg_ta_store] in Ha.
  unfold PgTa.assignRole, PgTa.exec in Ha. apply bind_ok in H as (w4 & [] & Hs & H).
  destruct (PgTa.up (ta_store w)) eqn:Hup; [|by injection Ha as <- <-].
  destruct (PgTa.writable (ta_store w)); [|by injection Ha as <- <-]. cbn [negb andb] in Ha.
  destruct (negb (_ && _ && _)); [by injection Ha as <- <-|]. injection Ha as <- <-.
  injection Hs as <-. match type of H with auditWrite _ _ _ _ _ _ _ _ _ _ ?w' = _ =>
    pose proof (audit_keeps_roles env tn u "" "AssignRole" "user_role" u None
      (Some [("role_id", ro_ID r)]) ip w') as (E1 & E2 & E3) end.
  rewrite H in E1, E2, E3. simpl in E1, E2, E3.
  assert (Hin : r ∈ PgTa.joined (ta_store w1) tn u).
  { apply assigned_in_joined; [|rewrite E2; case_decide; simpl; set_solver].
    rewrite E1. by case_decide. }
  assert (Hup1 : PgTa.up (ta_store w1) = true) by (rewrite E3; by case_decide).
  unfold bind, ensure. assert (negb (is_empty tn || is_empty u || is_empty perm) = true) as ->.
  { rewrite !negb_orb, !andb_true_iff in *. split; [apply Hb|]. by destruct perm. }
  unfold rd. simpl. unfold PgTa.checkPermission, PgTa.getUserRoles. rewrite Hup1. simpl.
  do 2 f_equal. apply List.existsb_exists. exists r. by rewrite <- list_elem_of_In.
Qed.

(** A role of tenant [b] grants its wildcard to a user of tenant [a]. *)
Definition two_tenants : Ta PgTa.t unit :=
  mkTa (PgTa.mk [mkTenant "a" "A" "r" "active" 0 0; mkTenant "b" "B" "r" "active" 0 0]
    [new_user 0 "u" "a" "a@b" "" ""] [mkRole "adm" "b" "admin" ["*"] 0] [] [] [] true true) tt 0 0 0.

Lemma assigned_role_grants_witness :
  (handleCheckPermission "a" "u" "billing.write"
     (handleAssignRole sample_env "a" "u" "adm" "ip" two_tenants).1).2 = inr true.
Proof.
  apply (assigned_role_grants sample_env "a" "u" (mkRole "adm" "b" "admin" ["*"] 0) "billing.write"
    "ip" two_tenants).
  - by apply list_elem_of_singleton.
  - reflexivity.
  - done.
  - reflexivity.
Defined.
