(* ===== verification/Knowledge.v ===== *)
(** * knowledge: model and stores

    [internal/model] and [internal/store].  The in-memory store keeps maps, whose
    iteration order is the field [map_order]; the Postgres store keeps pgkv
    collections, which hold the JSON form of a record: embeddings have no JSON
    form and are stored empty.  JSON metadata is the list of its entries. *)

From S2P Require Import Prelude GoTime Float64 Kv.
From Stdlib Require Import SpecFloat.

Open Scope Z_scope.

(** ** float32 *)

Abbreviation float32 := spec_float.

(** The nearest float of precision [prec]. *)
Definition f_round (prec emax : Z) (f : spec_float) : spec_float :=
  match f with
  | S754_finite s m e => binary_normalize prec emax (if s then Zneg m else Zpos m) e s
  | _ => f
  end.

Definition f64_of_f32 (f : float32) : float64 := f_round f_prec f_emax f.
Definition f32_of_f64 (f : float64) : float32 := f_round 24 128 f.
Definition f_zero : spec_float := S754_zero false.

(** ** Data *)

Definition VersionDraft : string := "draft".
Definition VersionPendingApproval : string := "pending_approval".
Definition VersionApproved : string := "approved".
Definition VersionPublished : string := "published".
Definition VersionRejected : string := "rejected".

Definition ClaimStatusAllowed : string := "allowed".
Definition ClaimStatusForbidden : string := "forbidden".
Definition ClaimStatusNeedsHumanApproval : string := "needs_human_approval".
Definition ClaimPatternRegex : string := "regex".
Definition ClaimPatternPhrase : string := "phrase".
Definition ClaimPatternSemantic : string := "semantic".

Record Project := mkProject {
  pr_ID : string; pr_TenantID : string; pr_Name : string; pr_State : string; pr_City : string;
  pr_RERAAuthorityURL : string; pr_RERANumber : string; pr_BrochureAssetID : string;
  pr_PriceSheetAssetID : string; pr_ActiveVersionID : string; pr_CreatedAt : Z; pr_UpdatedAt : Z
}.

Record KbVersion := mkVersion {
  vr_ID : string; vr_ProjectID : string; vr_VersionNumber : Z; vr_Status : string;
  vr_EmbeddingModel : string; vr_SubmittedBy : string; vr_ReviewedBy : string;
  vr_ReviewNotes : string; vr_CreatedAt : Z; vr_UpdatedAt : Z
}.

Record Fact := mkFact {
  fc_ID : string; fc_VersionID : string; fc_Content : string;
  fc_Metadata : list (string * string); fc_Embedding : list float32; fc_CreatedAt : Z
}.

Record FAQ := mkFAQ {
  fq_ID : string; fq_VersionID : string; fq_Question : string; fq_Answer : string;
  fq_Embedding : list float32; fq_CreatedAt : Z
}.

Record Asset := mkAsset {
  at_ID : string; at_VersionID : string; at_Name : string; at_AssetType : string;
  at_StorageKey : string; at_Status : string; at_CreatedAt : Z
}.

Record Inventory := mkInventory {
  iv_ID : string; iv_VersionID : string; iv_UnitType : string; iv_TotalUnits : Z;
  iv_AvailableUnits : Z; iv_PriceMin : float64; iv_PriceMax : float64; iv_CreatedAt : Z
}.

Record Offer := mkOffer {
  of_ID : string; of_VersionID : string; of_Title : string; of_Description : string;
  of_ValidUntil : string; of_CreatedAt : Z
}.

Record Disclaimer := mkDisclaimer {
  dc_ID : string; dc_VersionID : string; dc_Text : string; dc_CreatedAt : Z
}.

Record ApprovalEvent := mkApproval {
  ap_ID : string; ap_VersionID : string; ap_Action : string; ap_ActorID : string;
  ap_Notes : string; ap_CreatedAt : Z
}.

Record Pronunciation := mkPron {
  pn_ID : string; pn_TenantID : string; pn_Term : string; pn_IPA : string; pn_Phonetic : string;
  pn_Lang : string; pn_CreatedAt : Z
}.

Record RetrievedChunk := mkChunk {
  rc_VersionID : string; rc_ChunkType : string; rc_Content : string; rc_Score : float32
}.

Record RetrieveResult := mkRetrieved {
  rr_VersionStamp : string; rr_Chunks : list RetrievedChunk
}.

Record ProjectClaim := mkClaim {
  pc_ID : string; pc_TenantID : string; pc_ProjectID : string; pc_ClaimType : string;
  pc_Status : string; pc_Pattern : string; pc_PatternKind : string; pc_Replacement : string;
  pc_ValidFrom : option Z; pc_ValidUntil : option Z; pc_ApproverUserID : string;
  pc_Source : string; pc_CreatedAt : Z; pc_UpdatedAt : Z
}.

Record ClaimViolation := mkViolation {
  cv_ID : string; cv_TenantID : string; cv_ProjectID : string; cv_CallID : string;
  cv_LeadID : string; cv_Channel : string; cv_AttemptedText : string;
  cv_MatchedClaimID : string; cv_ClaimType : string; cv_ActionTaken : string;
  cv_Reason : string; cv_OccurredAt : Z
}.

(** ** Stamps

    What the stores set on a record they are given. *)

Definition stamp_project (id : string) (created updated : Z) (x : Project) : Project :=
  mkProject id (pr_TenantID x) (pr_Name x) (pr_State x) (pr_City x) (pr_RERAAuthorityURL x)
    (pr_RERANumber x) (pr_BrochureAssetID x) (pr_PriceSheetAssetID x) (pr_ActiveVersionID x)
    created updated.

Definition stamp_version (id : string) (number created updated : Z) (x : KbVersion) : KbVersion :=
  mkVersion id (vr_ProjectID x) number (vr_Status x)
    (if is_empty (vr_EmbeddingModel x) then "BAAI/bge-m3" else vr_EmbeddingModel x)
    (vr_SubmittedBy x) (vr_ReviewedBy x) (vr_ReviewNotes x) created updated.

(** [UpdateKbVersionStatus] on the record. *)
Definition set_version_status (status reviewedBy notes : string) (now : Z) (x : KbVersion)
    : KbVersion :=
  mkVersion (vr_ID x) (vr_ProjectID x) (vr_VersionNumber x) status (vr_EmbeddingModel x)
    (vr_SubmittedBy x) (if is_empty reviewedBy then vr_ReviewedBy x else reviewedBy)
    (if is_empty notes then vr_ReviewNotes x else notes) (vr_CreatedAt x) now.

Definition set_project_active (versionID : string) (now : Z) (x : Project) : Project :=
  mkProject (pr_ID x) (pr_TenantID x) (pr_Name x) (pr_State x) (pr_City x) (pr_RERAAuthorityURL x)
    (pr_RERANumber x) (pr_BrochureAssetID x) (pr_PriceSheetAssetID x) versionID (pr_CreatedAt x)
    now.

Definition stamp_fact (id : string) (created : Z) (x : Fact) : Fact :=
  mkFact id (fc_VersionID x) (fc_Content x) (fc_Metadata x) (fc_Embedding x) created.

Definition stamp_faq (id : string) (created : Z) (x : FAQ) : FAQ :=
  mkFAQ id (fq_VersionID x) (fq_Question x) (fq_Answer x) (fq_Embedding x) created.

Definition stamp_asset (id : string) (created : Z) (x : Asset) : Asset :=
  mkAsset id (at_VersionID x) (at_Name x) (at_AssetType x) (at_StorageKey x)
    (if is_empty (at_Status x) then "pending" else at_Status x) created.

Definition stamp_inventory (id : string) (created : Z) (x : Inventory) : Inventory :=
  mkInventory id (iv_VersionID x) (iv_UnitType x) (iv_TotalUnits x) (iv_AvailableUnits x)
    (iv_PriceMin x) (iv_PriceMax x) created.

Definition stamp_offer (id : string) (created : Z) (x : Offer) : Offer :=
  mkOffer id (of_VersionID x) (of_Title x) (of_Description x) (of_ValidUntil x) created.

Definition stamp_disclaimer (id : string) (created : Z) (x : Disclaimer) : Disclaimer :=
  mkDisclaimer id (dc_VersionID x) (dc_Text x) created.

Definition stamp_approval (id : string) (created : Z) (x : ApprovalEvent) : ApprovalEvent :=
  mkApproval id (ap_VersionID x) (ap_Action x) (ap_ActorID x) (ap_Notes x) created.

Definition stamp_pron (id : string) (created : Z) (x : Pronunciation) : Pronunciation :=
  mkPron id (pn_TenantID x) (pn_Term x) (pn_IPA x) (pn_Phonetic x) (pn_Lang x) created.

Definition stamp_claim (now : Z) (uid : string) (x : ProjectClaim) : ProjectClaim :=
  mkClaim (or_new (pc_ID x) uid) (pc_TenantID x) (pc_ProjectID x) (pc_ClaimType x)
    (if is_empty (pc_Status x) then ClaimStatusNeedsHumanApproval else pc_Status x) (pc_Pattern x)
    (if is_empty (pc_PatternKind x) then ClaimPatternPhrase else pc_PatternKind x)
    (pc_Replacement x) (pc_ValidFrom x) (pc_ValidUntil x) (pc_ApproverUserID x) (pc_Source x)
    (or_now (pc_CreatedAt x) now) now.

Definition stamp_violation (now : Z) (uid : string) (x : ClaimViolation) : ClaimViolation :=
  mkViolation (or_new (cv_ID x) uid) (cv_TenantID x) (cv_ProjectID x) (cv_CallID x) (cv_LeadID x)
    (cv_Channel x) (cv_AttemptedText x) (cv_MatchedClaimID x) (cv_ClaimType x) (cv_ActionTaken x)
    (cv_Reason x) (or_now (cv_OccurredAt x) now).

(** The JSON form of a fact and of a FAQ: no embedding. *)
Definition fact_json (x : Fact) : Fact :=
  mkFact (fc_ID x) (fc_VersionID x) (fc_Content x) (fc_Metadata x) [] (fc_CreatedAt x).

Definition faq_json (x : FAQ) : FAQ :=
  mkFAQ (fq_ID x) (fq_VersionID x) (fq_Question x) (fq_Answer x) [] (fq_CreatedAt x).

(** The highest version number of a project, or 0. *)
Definition max_version (vs : list KbVersion) : Z :=
  foldl (fun m v => if m <? vr_VersionNumber v then vr_VersionNumber v else m) 0 vs.

Definition eqs (a b : string) : bool := bool_decide (a = b).

(** ** Retrieval *)

(** The three sums of [cosine] in one pass. *)
Fixpoint cosine_sums (a b : list float32) (dot normA normB : float64)
    : float64 * float64 * float64 :=
  match a, b with
  | x :: a', y :: b' =>
      let x := f64_of_f32 x in
      let y := f64_of_f32 y in
      cosine_sums a' b' (f_add dot (f_mul x y)) (f_add normA (f_mul x x)) (f_add normB (f_mul y y))
  | _, _ => (dot, normA, normB)
  end.

Definition cosine (a b : list float32) : float32 :=
  if negb (Nat.eqb (length a) (length b)) || Nat.eqb (length a) 0 then f_zero else
  let '(dot, normA, normB) := cosine_sums a b f_zero f_zero f_zero in
  let denom := f_mul (SFsqrt f_prec f_emax normA) (SFsqrt f_prec f_emax normB) in
  if f_eq denom f_zero then f_zero else f32_of_f64 (f_div dot denom).

Definition higher (a b : RetrievedChunk) : bool := SFltb (rc_Score b) (rc_Score a).

(** The chunks of the active version, best first, at most [topK] of them. *)
Definition best_chunks (active : string) (facts : list Fact) (faqs : list FAQ)
    (query : list float32) (topK : Z) : RetrieveResult :=
  let candidates :=
    ((fun f => mkChunk active "fact" (fc_Content f) (cosine query (fc_Embedding f)))
       <$> List.filter (fun f => eqs (fc_VersionID f) active) facts) ++
    ((fun f => mkChunk active "faq" (fq_Question f ++ " " ++ fq_Answer f)
                 (cosine query (fq_Embedding f)))
       <$> List.filter (fun f => eqs (fq_VersionID f) active) faqs) in
  let sorted := sort_by higher candidates in
  mkRetrieved active
    (if (0 <? topK) && (topK <? Z.of_nat (length sorted)) then take (Z.to_nat topK) sorted
     else sorted).

(** ** The store interface

    A method that is given a record and stamps it returns the stamped record. *)

Class KbStore (T : Type) := {
  CreateProject : T -> Z -> string -> Project -> T * result Project;
  UpdateProject : T -> Z -> string -> Project -> T * result Project;
  GetProject : T -> string -> result Project;
  ListProjects : T -> string -> result (list Project);
  CreateKbVersion : T -> Z -> string -> KbVersion -> T * result KbVersion;
  GetKbVersion : T -> string -> result KbVersion;
  UpdateKbVersionStatus : T -> Z -> string -> string -> string -> string -> T * result unit;
  SetActiveVersion : T -> Z -> string -> string -> T * result unit;
  ListKbVersions : T -> string -> result (list KbVersion);
  AddFact : T -> Z -> string -> Fact -> T * result Fact;
  AddFAQ : T -> Z -> string -> FAQ -> T * result FAQ;
  AddAsset : T -> Z -> string -> Asset -> T * result Asset;
  AddInventory : T -> Z -> string -> Inventory -> T * result Inventory;
  AddOffer : T -> Z -> string -> Offer -> T * result Offer;
  AddDisclaimer : T -> Z -> string -> Disclaimer -> T * result Disclaimer;
  ListFactsByVersion : T -> string -> result (list Fact);
  ListFAQsByVersion : T -> string -> result (list FAQ);
  ListDisclaimersByVersion : T -> string -> result (list Disclaimer);
  RecordApprovalEvent : T -> Z -> string -> ApprovalEvent -> T * result ApprovalEvent;
  RetrieveKb : T -> string -> list float32 -> Z -> result RetrieveResult;
  AddPronunciation : T -> Z -> string -> Pronunciation -> T * result Pronunciation;
  ListPronunciations : T -> string -> string -> result (list Pronunciation);
  SaveClaim : T -> Z -> string -> ProjectClaim -> T * result ProjectClaim;
  GetClaim : T -> string -> result ProjectClaim;
  ListClaims : T -> string -> result (list ProjectClaim);
  ListGlobalClaims : T -> result (list ProjectClaim);
  RecordClaimViolation : T -> Z -> string -> ClaimViolation -> T * result ClaimViolation;
  ListClaimViolations : T -> string -> result (list ClaimViolation)
}.

(** ** In memory *)
Module FakeKb.

(** [map_order] is the order in which Go iterates over a map. *)
Record t := mk {
  projects : gmap string Project;
  versions : gmap string KbVersion;
  facts : gmap string Fact;
  faqs : gmap string FAQ;
  assets : gmap string Asset;
  inventory : gmap string Inventory;
  offers : gmap string Offer;
  disclaimers : gmap string Disclaimer;
  approvalHistory : list ApprovalEvent;
  pronunciations : gmap string Pronunciation;
  claims : gmap string ProjectClaim;
  violations : gmap string ClaimViolation;
  map_order : forall A : Type, list A -> list A
}.

Definition NewFake (order : forall A : Type, list A -> list A) : t :=
  mk ∅ ∅ ∅ ∅ ∅ ∅ ∅ ∅ [] ∅ ∅ ∅ order.

Definition set_projects v (s : t) : t :=
  mk v (versions s) (facts s) (faqs s) (assets s) (inventory s) (offers s) (disclaimers s)
    (approvalHistory s) (pronunciations s) (claims s) (violations s) (map_order s).
Definition set_versions v (s : t) : t :=
  mk (projects s) v (facts s) (faqs s) (assets s) (inventory s) (offers s) (disclaimers s)
    (approvalHistory s) (pronunciations s) (claims s) (violations s) (map_order s).
Definition set_facts v (s : t) : t :=
  mk (projects s) (versions s) v (faqs s) (assets s) (inventory s) (offers s) (disclaimers s)
    (approvalHistory s) (pronunciations s) (claims s) (violations s) (map_order s).
Definition set_faqs v (s : t) : t :=
  mk (projects s) (versions s) (facts s) v (assets s) (inventory s) (offers s) (disclaimers s)
    (approvalHistory s) (pronunciations s) (claims s) (violations s) (map_order s).
Definition set_assets v (s : t) : t :=
  mk (projects s) (versions s) (facts s) (faqs s) v (inventory s) (offers s) (disclaimers s)
    (approvalHistory s) (pronunciations s) (claims s) (violations s) (map_order s).
Definition set_inventory v (s : t) : t :=
  mk (projects s) (versions s) (facts s) (faqs s) (assets s) v (offers s) (disclaimers s)
    (approvalHistory s) (pronunciations s) (claims s) (violations s) (map_order s).
Definition set_offers v (s : t) : t :=
  mk (projects s) (versions s) (facts s) (faqs s) (assets s) (inventory s) v (disclaimers s)
    (approvalHistory s) (pronunciations s) (claims s) (violations s) (map_order s).
Definition set_disclaimers v (s : t) : t :=
  mk (projects s) (versions s) (facts s) (faqs s) (assets s) (inventory s) (offers s) v
    (approvalHistory s) (pronunciations s) (claims s) (violations s) (map_order s).
Definition set_approvalHistory v (s : t) : t :=
  mk (projects s) (versions s) (facts s) (faqs s) (assets s) (inventory s) (offers s)
    (disclaimers s) v (pronunciations s) (claims s) (violations s) (map_order s).
Definition set_pronunciations v (s : t) : t :=
  mk (projects s) (versions s) (facts s) (faqs s) (assets s) (inventory s) (offers s)
    (disclaimers s) (approvalHistory s) v (claims s) (violations s) (map_order s).
Definition set_claims v (s : t) : t :=
  mk (projects s) (versions s) (facts s) (faqs s) (assets s) (inventory s) (offers s)
    (disclaimers s) (approvalHistory s) (pronunciations s) v (violations s) (map_order s).
Definition set_violations v (s : t) : t :=
  mk (projects s) (versions s) (facts s) (faqs s) (assets s) (inventory s) (offers s)
    (disclaimers s) (approvalHistory s) (pronunciations s) (claims s) v (map_order s).

Definition values {A} (f : t) (m : gmap string A) : list A := map_order f _ (map_to_list m).*2.

Definition createProject (f : t) (now : Z) (uid : string) (p : Project) : t * result Project :=
  let p := stamp_project (or_new (pr_ID p) uid) now now p in
  (set_projects (<[pr_ID p := p]> (projects f)) f, Ok p).

Definition updateProject (f : t) (now : Z) (uid : string) (p : Project) : t * result Project :=
  match projects f !! pr_ID p with
  | None => (f, Err "project not found")
  | Some _ =>
      let p := stamp_project (pr_ID p) (pr_CreatedAt p) now p in
      (set_projects (<[pr_ID p := p]> (projects f)) f, Ok p)
  end.

Definition getProject (f : t) (id : string) : result Project :=
  match projects f !! id with Some p => Ok p | None => Err "project not found" end.

Definition listProjects (f : t) (tenantID : string) : result (list Project) :=
  Ok (List.filter (fun p => eqs (pr_TenantID p) tenantID) (values f (projects f))).

Definition listKbVersions (f : t) (projectID : string) : result (list KbVersion) :=
  Ok (List.filter (fun v => eqs (vr_ProjectID v) projectID) (values f (versions f))).

Definition createKbVersion (f : t) (now : Z) (uid : string) (v : KbVersion)
    : t * result KbVersion :=
  let maxVer := max_version (List.filter (fun x => eqs (vr_ProjectID x) (vr_ProjectID v))
                  (values f (versions f))) in
  let v := stamp_version (or_new (vr_ID v) uid) (maxVer + 1) now now v in
  (set_versions (<[vr_ID v := v]> (versions f)) f, Ok v).

Definition getKbVersion (f : t) (id : string) : result KbVersion :=
  match versions f !! id with Some v => Ok v | None => Err "version not found" end.

Definition updateKbVersionStatus (f : t) (now : Z) (id status reviewedBy notes : string)
    : t * result unit :=
  match versions f !! id with
  | None => (f, Err "version not found")
  | Some v => (set_versions (<[id := set_version_status status reviewedBy notes now v]>
                 (versions f)) f, Ok tt)
  end.

Definition setActiveVersion (f : t) (now : Z) (projectID versionID : string) : t * result unit :=
  match projects f !! projectID with
  | None => (f, Err "project not found")
  | Some p => (set_projects (<[projectID := set_project_active versionID now p]> (projects f)) f,
               Ok tt)
  end.

(** The version exists and is a draft. *)
Definition addToVersion (f : t) (versionID : string) : result KbVersion :=
  match versions f !! versionID with
  | None => Err "version not found"
  | Some v => if eqs (vr_Status v) VersionDraft then Ok v
              else Err "only draft versions accept changes"
  end.

Definition addFact (f : t) (now : Z) (uid : string) (fact : Fact)
    : t * result Fact :=
  match addToVersion f (fc_VersionID fact) with
  | Err e => (f, Err e)
  | Ok _ =>
      let fact := stamp_fact (or_new (fc_ID fact) uid) now fact in
      (set_facts (<[fc_ID fact := fact]> (facts f)) f, Ok fact)
  end.

Definition addFAQ (f : t) (now : Z) (uid : string) (faq : FAQ)
    : t * result FAQ :=
  match addToVersion f (fq_VersionID faq) with
  | Err e => (f, Err e)
  | Ok _ =>
      let faq := stamp_faq (or_new (fq_ID faq) uid) now faq in
      (set_faqs (<[fq_ID faq := faq]> (faqs f)) f, Ok faq)
  end.

Definition addAsset (f : t) (now : Z) (uid : string) (a : Asset)
    : t * result Asset :=
  match addToVersion f (at_VersionID a) with
  | Err e => (f, Err e)
  | Ok _ =>
      let a := stamp_asset (or_new (at_ID a) uid) now a in
      (set_assets (<[at_ID a := a]> (assets f)) f, Ok a)
  end.

Definition addInventory (f : t) (now : Z) (uid : string) (inv : Inventory)
    : t * result Inventory :=
  match addToVersion f (iv_VersionID inv) with
  | Err e => (f, Err e)
  | Ok _ =>
      let inv := stamp_inventory (or_new (iv_ID inv) uid) now inv in
      (set_inventory (<[iv_ID inv := inv]> (inventory f)) f, Ok inv)
  end.

Definition addOffer (f : t) (now : Z) (uid : string) (o : Offer)
    : t * result Offer :=
  match addToVersion f (of_VersionID o) with
  | Err e => (f, Err e)
  | Ok _ =>
      let o := stamp_offer (or_new (of_ID o) uid) now o in
      (set_offers (<[of_ID o := o]> (offers f)) f, Ok o)
  end.

Definition addDisclaimer (f : t) (now : Z) (uid : string) (d : Disclaimer)
    : t * result Disclaimer :=
  match addToVersion f (dc_VersionID d) with
  | Err e => (f, Err e)
  | Ok _ =>
      let d := stamp_disclaimer (or_new (dc_ID d) uid) now d in
      (set_disclaimers (<[dc_ID d := d]> (disclaimers f)) f, Ok d)
  end.

Definition listFactsByVersion (f : t) (versionID : string) : result (list Fact) :=
  Ok (List.filter (fun x => eqs (fc_VersionID x) versionID) (values f (facts f))).

Definition listFAQsByVersion (f : t) (versionID : string) : result (list FAQ) :=
  Ok (List.filter (fun x => eqs (fq_VersionID x) versionID) (values f (faqs f))).

Definition listDisclaimersByVersion (f : t) (versionID : string) : result (list Disclaimer) :=
  Ok (List.filter (fun x => eqs (dc_VersionID x) versionID) (values f (disclaimers f))).

Definition recordApprovalEvent (f : t) (now : Z) (uid : string) (e : ApprovalEvent)
    : t * result ApprovalEvent :=
  let e := stamp_approval (or_new (ap_ID e) uid) now e in
  (set_approvalHistory (approvalHistory f ++ [e]) f, Ok e).

Definition retrieveKb (f : t) (projectID : string) (query : list float32) (topK : Z)
    : result RetrieveResult :=
  match projects f !! projectID with
  | None => Err "project not found"
  | Some p =>
      if is_empty (pr_ActiveVersionID p) then Ok (mkRetrieved "" []) else
      Ok (best_chunks (pr_ActiveVersionID p) (values f (facts f)) (values f (faqs f)) query topK)
  end.

Definition addPronunciation (f : t) (now : Z) (uid : string) (p : Pronunciation)
    : t * result Pronunciation :=
  let p := stamp_pron (or_new (pn_ID p) uid) now p in
  (set_pronunciations (<[pn_ID p := p]> (pronunciations f)) f, Ok p).

Definition listPronunciations (f : t) (tenantID lang : string) : result (list Pronunciation) :=
  Ok (List.filter (fun p => eqs (pn_TenantID p) tenantID && (is_empty lang || eqs (pn_Lang p) lang))
        (values f (pronunciations f))).

Definition saveClaim (f : t) (now : Z) (uid : string) (claim : ProjectClaim)
    : t * result ProjectClaim :=
  let claim := stamp_claim now uid claim in
  (set_claims (<[pc_ID claim := claim]> (claims f)) f, Ok claim).

Definition getClaim (f : t) (id : string) : result ProjectClaim :=
  match claims f !! id with Some c => Ok c | None => Err "claim not found" end.

Definition listClaims (f : t) (projectID : string) : result (list ProjectClaim) :=
  Ok (List.filter (fun c => eqs (pc_ProjectID c) projectID) (values f (claims f))).

Definition listGlobalClaims (f : t) : result (list ProjectClaim) :=
  Ok (List.filter (fun c => is_empty (pc_ProjectID c)) (values f (claims f))).

Definition recordClaimViolation (f : t) (now : Z) (uid : string) (v : ClaimViolation)
    : t * result ClaimViolation :=
  let v := stamp_violation now uid v in
  (set_violations (<[cv_ID v := v]> (violations f)) f, Ok v).

Definition listClaimViolations (f : t) (projectID : string) : result (list ClaimViolation) :=
  Ok (List.filter (fun v => eqs (cv_ProjectID v) projectID) (values f (violations f))).

End FakeKb.

#[export] Instance fake_kb_store : KbStore FakeKb.t := {
  CreateProject := FakeKb.createProject;
  UpdateProject := FakeKb.updateProject;
  GetProject := FakeKb.getProject;
  ListProjects := FakeKb.listProjects;
  CreateKbVersion := FakeKb.createKbVersion;
  GetKbVersion := FakeKb.getKbVersion;
  UpdateKbVersionStatus := FakeKb.updateKbVersionStatus;
  SetActiveVersion := FakeKb.setActiveVersion;
  ListKbVersions := FakeKb.listKbVersions;
  AddFact := FakeKb.addFact;
  AddFAQ := FakeKb.addFAQ;
  AddAsset := FakeKb.addAsset;
  AddInventory := FakeKb.addInventory;
  AddOffer := FakeKb.addOffer;
  AddDisclaimer := FakeKb.addDisclaimer;
  ListFactsByVersion := FakeKb.listFactsByVersion;
  ListFAQsByVersion := FakeKb.listFAQsByVersion;
  ListDisclaimersByVersion := FakeKb.listDisclaimersByVersion;
  RecordApprovalEvent := FakeKb.recordApprovalEvent;
  RetrieveKb := FakeKb.retrieveKb;
  AddPronunciation := FakeKb.addPronunciation;
  ListPronunciations := FakeKb.listPronunciations;
  SaveClaim := FakeKb.saveClaim;
  GetClaim := FakeKb.getClaim;
  ListClaims := FakeKb.listClaims;
  ListGlobalClaims := FakeKb.listGlobalClaims;
  RecordClaimViolation := FakeKb.recordClaimViolation;
  ListClaimViolations := FakeKb.listClaimViolations
}.

(** ** Postgres *)
Module PgKb.

Record t := mk {
  projects : kv Project;
  kb_versions : kv KbVersion;
  facts : kv Fact;
  faqs : kv FAQ;
  assets : kv Asset;
  inventory : kv Inventory;
  offers : kv Offer;
  disclaimers : kv Disclaimer;
  approval_events : kv ApprovalEvent;
  pronunciations : kv Pronunciation;
  project_claims : kv ProjectClaim;
  claim_violations : kv ClaimViolation
}.

Definition empty : t :=
  mk kv_empty kv_empty kv_empty kv_empty kv_empty kv_empty kv_empty kv_empty kv_empty kv_empty
    kv_empty kv_empty.

Definition set_projects v (s : t) : t :=
  mk v (kb_versions s) (facts s) (faqs s) (assets s) (inventory s) (offers s) (disclaimers s)
    (approval_events s) (pronunciations s) (project_claims s) (claim_violations s).
Definition set_kb_versions v (s : t) : t :=
  mk (projects s) v (facts s) (faqs s) (assets s) (inventory s) (offers s) (disclaimers s)
    (approval_events s) (pronunciations s) (project_claims s) (claim_violations s).
Definition set_facts v (s : t) : t :=
  mk (projects s) (kb_versions s) v (faqs s) (assets s) (inventory s) (offers s) (disclaimers s)
    (approval_events s) (pronunciations s) (project_claims s) (claim_violations s).
Definition set_faqs v (s : t) : t :=
  mk (projects s) (kb_versions s) (facts s) v (assets s) (inventory s) (offers s) (disclaimers s)
    (approval_events s) (pronunciations s) (project_claims s) (claim_violations s).
Definition set_assets v (s : t) : t :=
  mk (projects s) (kb_versions s) (facts s) (faqs s) v (inventory s) (offers s) (disclaimers s)
    (approval_events s) (pronunciations s) (project_claims s) (claim_violations s).
Definition set_inventory v (s : t) : t :=
  mk (projects s) (kb_versions s) (facts s) (faqs s) (assets s) v (offers s) (disclaimers s)
    (approval_events s) (pronunciations s) (project_claims s) (claim_violations s).
Definition set_offers v (s : t) : t :=
  mk (projects s) (kb_versions s) (facts s) (faqs s) (assets s) (inventory s) v (disclaimers s)
    (approval_events s) (pronunciations s) (project_claims s) (claim_violations s).
Definition set_disclaimers v (s : t) : t :=
  mk (projects s) (kb_versions s) (facts s) (faqs s) (assets s) (inventory s) (offers s) v
    (approval_events s) (pronunciations s) (project_claims s) (claim_violations s).
Definition set_approval_events v (s : t) : t :=
  mk (projects s) (kb_versions s) (facts s) (faqs s) (assets s) (inventory s) (offers s)
    (disclaimers s) v (pronunciations s) (project_claims s) (claim_violations s).
Definition set_pronunciations v (s : t) : t :=
  mk (projects s) (kb_versions s) (facts s) (faqs s) (assets s) (inventory s) (offers s)
    (disclaimers s) (approval_events s) v (project_claims s) (claim_violations s).
Definition set_project_claims v (s : t) : t :=
  mk (projects s) (kb_versions s) (facts s) (faqs s) (assets s) (inventory s) (offers s)
    (disclaimers s) (approval_events s) (pronunciations s) v (claim_violations s).
Definition set_claim_violations v (s : t) : t :=
  mk (projects s) (kb_versions s) (facts s) (faqs s) (assets s) (inventory s) (offers s)
    (disclaimers s) (approval_events s) (pronunciations s) (project_claims s) v.

(** [return p.kv.Put(...)], with the record it was given. *)
Definition put {A B} (set : kv A -> t -> t) (c : kv A) (k : string) (a : A) (b : B) (p : t)
    : t * result B :=
  match kv_set c k a with
  | (c', None) => (set c' p, Ok b)
  | (c', Some e) => (set c' p, Err e)
  end.

(** [pgkv.Get] with an error for a missing record. *)
Definition found {A} (msg : string) (r : result (option A)) : result A :=
  match r with Err e => Err e | Ok None => Err msg | Ok (Some a) => Ok a end.

Definition listed {A} (c : A -> bool) (r : result (list A)) : result (list A) :=
  let? l := r in Ok (List.filter c l).

Definition getProject (p : t) (id : string) : result Project :=
  found "project not found" (kv_get (projects p) id).

Definition createProject (p : t) (now : Z) (uid : string) (x : Project) : t * result Project :=
  let x := stamp_project (or_new (pr_ID x) uid) (or_now (pr_CreatedAt x) now) now x in
  put set_projects (projects p) (pr_ID x) x x p.

Definition updateProject (p : t) (now : Z) (uid : string) (x : Project) : t * result Project :=
  match getProject p (pr_ID x) with
  | Err e => (p, Err e)
  | Ok _ =>
      let x := stamp_project (pr_ID x) (pr_CreatedAt x) now x in
      put set_projects (projects p) (pr_ID x) x x p
  end.

Definition listProjects (p : t) (tenantID : string) : result (list Project) :=
  listed (fun x => eqs (pr_TenantID x) tenantID) (kv_list (projects p)).

Definition listKbVersions (p : t) (projectID : string) : result (list KbVersion) :=
  listed (fun v => eqs (vr_ProjectID v) projectID) (kv_list (kb_versions p)).

Definition createKbVersion (p : t) (now : Z) (uid : string) (v : KbVersion)
    : t * result KbVersion :=
  match listKbVersions p (vr_ProjectID v) with
  | Err e => (p, Err e)
  | Ok vs =>
      let v := stamp_version (or_new (vr_ID v) uid) (max_version vs + 1)
                 (or_now (vr_CreatedAt v) now) now v in
      put set_kb_versions (kb_versions p) (vr_ID v) v v p
  end.

Definition getKbVersion (p : t) (id : string) : result KbVersion :=
  found "version not found" (kv_get (kb_versions p) id).

Definition updateKbVersionStatus (p : t) (now : Z) (id status reviewedBy notes : string)
    : t * result unit :=
  match getKbVersion p id with
  | Err e => (p, Err e)
  | Ok v => put set_kb_versions (kb_versions p) id
              (set_version_status status reviewedBy notes now v) tt p
  end.

Definition setActiveVersion (p : t) (now : Z) (projectID versionID : string) : t * result unit :=
  match getProject p projectID with
  | Err e => (p, Err e)
  | Ok x => put set_projects (projects p) projectID (set_project_active versionID now x) tt p
  end.

Definition requireDraftVersion (p : t) (versionID : string) : result unit :=
  let? v := getKbVersion p versionID in
  if eqs (vr_Status v) VersionDraft then Ok tt else Err "only draft versions accept changes".

Definition addFact (p : t) (now : Z) (uid : string) (x : Fact)
    : t * result Fact :=
  match requireDraftVersion p (fc_VersionID x) with
  | Err e => (p, Err e)
  | Ok _ =>
      let x := stamp_fact (or_new (fc_ID x) uid) (or_now (fc_CreatedAt x) now) x in
      put set_facts (facts p) (fc_ID x) (fact_json x) x p
  end.

Definition addFAQ (p : t) (now : Z) (uid : string) (x : FAQ)
    : t * result FAQ :=
  match requireDraftVersion p (fq_VersionID x) with
  | Err e => (p, Err e)
  | Ok _ =>
      let x := stamp_faq (or_new (fq_ID x) uid) (or_now (fq_CreatedAt x) now) x in
      put set_faqs (faqs p) (fq_ID x) (faq_json x) x p
  end.

Definition addAsset (p : t) (now : Z) (uid : string) (x : Asset)
    : t * result Asset :=
  match requireDraftVersion p (at_VersionID x) with
  | Err e => (p, Err e)
  | Ok _ =>
      let x := stamp_asset (or_new (at_ID x) uid) (or_now (at_CreatedAt x) now) x in
      put set_assets (assets p) (at_ID x) x x p
  end.

Definition addInventory (p : t) (now : Z) (uid : string) (x : Inventory)
    : t * result Inventory :=
  match requireDraftVersion p (iv_VersionID x) with
  | Err e => (p, Err e)
  | Ok _ =>
      let x := stamp_inventory (or_new (iv_ID x) uid) (or_now (iv_CreatedAt x) now) x in
      put set_inventory (inventory p) (iv_ID x) x x p
  end.

Definition addOffer (p : t) (now : Z) (uid : string) (x : Offer)
    : t * result Offer :=
  match requireDraftVersion p (of_VersionID x) with
  | Err e => (p, Err e)
  | Ok _ =>
      let x := stamp_offer (or_new (of_ID x) uid) (or_now (of_CreatedAt x) now) x in
      put set_offers (offers p) (of_ID x) x x p
  end.

Definition addDisclaimer (p : t) (now : Z) (uid : string) (x : Disclaimer)
    : t * result Disclaimer :=
  match requireDraftVersion p (dc_VersionID x) with
  | Err e => (p, Err e)
  | Ok _ =>
      let x := stamp_disclaimer (or_new (dc_ID x) uid) (or_now (dc_CreatedAt x) now) x in
      put set_disclaimers (disclaimers p) (dc_ID x) x x p
  end.

Definition listFactsByVersion (p : t) (versionID : string) : result (list Fact) :=
  listed (fun x => eqs (fc_VersionID x) versionID) (kv_list (facts p)).

Definition listFAQsByVersion (p : t) (versionID : string) : result (list FAQ) :=
  listed (fun x => eqs (fq_VersionID x) versionID) (kv_list (faqs p)).

Definition listDisclaimersByVersion (p : t) (versionID : string) : result (list Disclaimer) :=
  listed (fun x => eqs (dc_VersionID x) versionID) (kv_list (disclaimers p)).

Definition recordApprovalEvent (p : t) (now : Z) (uid : string) (e : ApprovalEvent)
    : t * result ApprovalEvent :=
  let e := stamp_approval (or_new (ap_ID e) uid) (or_now (ap_CreatedAt e) now) e in
  put set_approval_events (approval_events p) (ap_ID e) e e p.

Definition retrieveKb (p : t) (projectID : string) (query : list float32) (topK : Z)
    : result RetrieveResult :=
  let? x := getProject p projectID in
  if is_empty (pr_ActiveVersionID x) then Ok (mkRetrieved "" []) else
  let? fs := kv_list (facts p) in
  let? qs := kv_list (faqs p) in
  Ok (best_chunks (pr_ActiveVersionID x) fs qs query topK).

Definition addPronunciation (p : t) (now : Z) (uid : string) (x : Pronunciation)
    : t * result Pronunciation :=
  let x := stamp_pron (or_new (pn_ID x) uid) (or_now (pn_CreatedAt x) now) x in
  put set_pronunciations (pronunciations p) (pn_ID x) x x p.

Definition listPronunciations (p : t) (tenantID lang : string) : result (list Pronunciation) :=
  listed (fun x => eqs (pn_TenantID x) tenantID && (is_empty lang || eqs (pn_Lang x) lang))
    (kv_list (pronunciations p)).

Definition saveClaim (p : t) (now : Z) (uid : string) (claim : ProjectClaim)
    : t * result ProjectClaim :=
  let claim := stamp_claim now uid claim in
  put set_project_claims (project_claims p) (pc_ID claim) claim claim p.

Definition getClaim (p : t) (id : string) : result ProjectClaim :=
  found "claim not found" (kv_get (project_claims p) id).

Definition listClaims (p : t) (projectID : string) : result (list ProjectClaim) :=
  listed (fun c => eqs (pc_ProjectID c) projectID) (kv_list (project_claims p)).

Definition listGlobalClaims (p : t) : result (list ProjectClaim) :=
  listed (fun c => is_empty (pc_ProjectID c)) (kv_list (project_claims p)).

Definition recordClaimViolation (p : t) (now : Z) (uid : string) (v : ClaimViolation)
    : t * result ClaimViolation :=
  let v := stamp_violation now uid v in
  put set_claim_violations (claim_violations p) (cv_ID v) v v p.

Definition listClaimViolations (p : t) (projectID : string) : result (list ClaimViolation) :=
  listed (fun v => eqs (cv_ProjectID v) projectID) (kv_list (claim_violations p)).

End PgKb.

#[export] Instance pg_kb_store : KbStore PgKb.t := {
  CreateProject := PgKb.createProject;
  UpdateProject := PgKb.updateProject;
  GetProject := PgKb.getProject;
  ListProjects := PgKb.listProjects;
  CreateKbVersion := PgKb.createKbVersion;
  GetKbVersion := PgKb.getKbVersion;
  UpdateKbVersionStatus := PgKb.updateKbVersionStatus;
  SetActiveVersion := PgKb.setActiveVersion;
  ListKbVersions := PgKb.listKbVersions;
  AddFact := PgKb.addFact;
  AddFAQ := PgKb.addFAQ;
  AddAsset := PgKb.addAsset;
  AddInventory := PgKb.addInventory;
  AddOffer := PgKb.addOffer;
  AddDisclaimer := PgKb.addDisclaimer;
  ListFactsByVersion := PgKb.listFactsByVersion;
  ListFAQsByVersion := PgKb.listFAQsByVersion;
  ListDisclaimersByVersion := PgKb.listDisclaimersByVersion;
  RecordApprovalEvent := PgKb.recordApprovalEvent;
  RetrieveKb := PgKb.retrieveKb;
  AddPronunciation := PgKb.addPronunciation;
  ListPronunciations := PgKb.listPronunciations;
  SaveClaim := PgKb.saveClaim;
  GetClaim := PgKb.getClaim;
  ListClaims := PgKb.listClaims;
  ListGlobalClaims := PgKb.listGlobalClaims;
  RecordClaimViolation := PgKb.recordClaimViolation;
  ListClaimViolations := PgKb.listClaimViolations
}.
