(* ===== verification/KnowledgeService.v ===== *)
(** * knowledge: approval workflow, indexing, claim control and handlers

    [internal/kb], [internal/index], [internal/claims], [internal/embed] (the
    chain of providers) and [internal/handler].  The embedding providers, the
    vector database and the event bus are external: the calls made to them are
    recorded in [kn_ext], and their answers, which may depend on the calls made
    before, come from the record [KnEnv].  Regular expressions outside the
    syntax of [Regexp.parse] are an argument as well. *)

From S2P Require Import Prelude GoTime GoMonad GoStrings Float64 Regexp Knowledge.
From Stdlib Require Import SpecFloat.

Open Scope Z_scope.

(** ** External calls *)

(** The payload of a point: its string entries. *)
Record Point := mkPoint {
  pt_ID : string; pt_Vector : list float32; pt_Payload : list (string * string)
}.

Record SearchHit := mkHit {
  sh_ID : string; sh_Score : float32; sh_Payload : list (string * string)
}.

(** A filter is the list of the field values that must match. *)
Inductive ext_call :=
| EmbedCall (text : string)
| EnsureCollection (name : string)
| Upsert (collection : string) (points : list Point)
| DeleteByFilter (collection : string) (filter : list (string * string))
| Search (collection : string) (vec : list float32) (topK : Z) (filter : list (string * string))
| Publish (subject key : string) (v : ClaimViolation).

Abbreviation ext_log := (list ext_call).

(** [e_vector] is whether an embedder and a vector database are wired,
    [e_providers] the chain of embedding providers, [e_order] the order in
    which a map is iterated over. *)
Record KnEnv := mkKnEnv {
  e_now : nat -> Z;
  e_uuid : nat -> string;
  e_vector : bool;
  e_publisher : bool;
  e_providers : list (ext_log -> string -> string + list float32);
  e_qdrant : ext_log -> ext_call -> error;
  e_search : ext_log -> ext_call -> string + list SearchHit;
  e_publish : ext_log -> ext_call -> error;
  e_order : forall A : Type, list A -> list A;
  e_regexp : string -> option (string -> bool)
}.

Record Kn (T : Type) := mkKn { kn_store : T; kn_ext : ext_log; kn_reads : nat; kn_ids : nat }.
Arguments mkKn {T}.
Arguments kn_store {T} _.
Arguments kn_ext {T} _.
Arguments kn_reads {T} _.
Arguments kn_ids {T} _.

(** ** Pure parts *)

(** [chunkText]: windows of words that overlap.  [None]: out of fuel. *)
Fixpoint chunk_loop (fuel : nat) (window step : nat) (words : list string)
    : option (list (list string)) :=
  match fuel with
  | O => None
  | S fuel' =>
      if Nat.leb (length words) window then Some [words]
      else match chunk_loop fuel' window step (drop step words) with
           | Some rest => Some (take window words :: rest)
           | None => None
           end
  end.

Definition chunkText (text : string) (windowWords overlapWords : nat) : option (list string) :=
  let text := trim_space text in
  if is_empty text then Some [] else
  let words := fields text in
  if Nat.leb (length words) windowWords then Some [text] else
  let step := if Nat.leb windowWords overlapWords then windowWords
              else (windowWords - overlapWords)%nat in
  match chunk_loop (length words) windowWords step words with
  | Some cs => Some (join " " <$> cs)
  | None => None
  end.

Definition pointID (sourceID : string) (chunkIdx : nat) : string :=
  if Nat.eqb chunkIdx 0 then sourceID
  else if Nat.leb 36 (String.length sourceID)
  then (String.substring 0 24 sourceID ++ hex12 chunkIdx)%string
  else (sourceID ++ "-" ++ itoa chunkIdx)%string.

Definition CollectionFor (tenantID : string) : string :=
  ("kb_" ++ if is_empty tenantID then "default" else tenantID)%string.

(** *** Claims *)

Definition ActionBlocked : string := "blocked".
Definition ActionRewritten : string := "rewritten".
Definition SafeFallback : string := "Let me check that and get back to you.".

Record CheckRequest := mkCheckReq {
  cr_TenantID : string; cr_ProjectID : string; cr_CallID : string; cr_LeadID : string;
  cr_Channel : string; cr_Text : string
}.

Record Violation := mkViol {
  vi_ClaimID : string; vi_ClaimType : string; vi_Reason : string; vi_ActionTaken : string;
  vi_Score : float32
}.

Record CheckResponse := mkCheckResp {
  cs_OK : bool; cs_ActionTaken : string; cs_Violations : list Violation;
  cs_Rewritten : option string
}.

Definition fine : CheckResponse := mkCheckResp true "none" [] None.

Definition def (id claimType pattern kind reason : string) (now : Z) : ProjectClaim :=
  mkClaim id "" "" claimType ClaimStatusForbidden pattern kind SafeFallback None None "" reason
    now now.

(** The arguments of the five calls of [def]. *)
Definition default_rules : list (string * string * string * string) := [
  ("global-guaranteed-appreciation", "appreciation",
   "(?i)\b(guaranteed|assured|100%\s*sure|definite)\s+(appreciation|return|roi|profit)\b",
   "Assured returns or guaranteed appreciation cannot be promised.");
  ("global-definite-loan", "loan",
   "(?i)\b(definite|guaranteed|100%\s*sure)\s+(loan|home loan|bank approval)\b",
   "Loan eligibility must be confirmed by the bank.");
  ("global-fake-urgency", "urgency",
   "(?i)\b(only\s+today|last\s+chance|book\s+now\s+or\s+lose|price\s+increases\s+tonight)\b",
   "Urgency claims must be approved by the project team.");
  ("harera-gurugram-no-disclaimer", "rera",
   "(?i)\bnot\s+liable\s+under\s+rera\b|\brera\s+responsibility\s+does\s+not\s+apply\b",
   "Promoters cannot shift RERA responsibility through advertising copy.");
  ("harera-gurugram-exaggeration", "other",
   "(?i)\b(best\s+guaranteed|risk\s+free|no\s+rera\s+risk|cannot\s+go\s+wrong)\b",
   "HARERA Gurugram requires truthful fact-based advertising without exaggeration.")].

(** The patterns of [detectSensitive]. *)
Definition sensitive_patterns : list (string * string) := [
  ("price",
   "(?i)(\b(price|cost|starts?\s+at|from|rs\.?|inr)\b.*\d|\d+(\.\d+)?\s*(cr|crore|lakh|lakhs))");
  ("discount", "(?i)\b(discount|cashback|waiver|free\s+registration|zero\s+stamp\s+duty)\b");
  ("offer", "(?i)\b(offer|scheme|deal|subvention|early\s+bird)\b");
  ("possession", "(?i)\b(possession|handover|delivery)\b");
  ("rera", "(?i)\b(rera|hrera|harera|rera\s+number|registration\s+number)\b");
  ("loan", "(?i)\b(loan|emi|bank\s+approval|pre-approved|finance)\b");
  ("roi", "(?i)\b(roi|return\s+on\s+investment|rental\s+yield)\b");
  ("appreciation", "(?i)\b(appreciation|assured\s+return|guaranteed\s+return|profit)\b");
  ("urgency", "(?i)\b(only\s+today|last\s+few|limited\s+units|last\s+chance)\b")].

Definition adLike (lower : string) : bool :=
  List.existsb (contains lower) ["book"; "buy"; "launch"; "offer"; "site visit"; "limited";
    "invest"; "available"; "apartment"; "flat"].

Definition isGurugram (p : Project) : bool :=
  let location := to_lower (pr_State p ++ " " ++ pr_City p ++ " " ++ pr_Name p) in
  contains location "gurugram" || contains location "gurgaon" || contains location "haryana".

Definition containsRERANumber (text reraNumber : string) : bool :=
  let n := to_lower (trim_space reraNumber) in
  if is_empty n then false else contains text n.

(** The claim type and the reason of each rule that is broken. *)
Definition regulatoryRules (text : string) (project : option Project) : list (string * string) :=
  let lower := to_lower text in
  if negb (adLike lower) then [] else
  (if match project with
      | None => true
      | Some p => is_empty (trim_space (pr_RERANumber p))
      end
   then [("rera", "ad-style copy requires a registered RERA number")] else []) ++
  match project with
  | Some p =>
      if isGurugram p && (negb (contains lower "haryanarera.gov.in")
                          || negb (containsRERANumber lower (pr_RERANumber p)))
      then [("rera",
             "Gurugram ad-style copy requires HARERA website and project RERA registration number")]
      else []
  | None => []
  end.

Definition in_force (c : ProjectClaim) (t : Z) : bool :=
  match pc_ValidFrom c with Some f => f <=? t | None => true end
  && match pc_ValidUntil c with Some u => t <=? u | None => true end.

Definition violationFor (c : ProjectClaim) (reason : string) : Violation :=
  mkViol (pc_ID c) (pc_ClaimType c)
    (if eqs (pc_Status c) ClaimStatusNeedsHumanApproval then "claim needs human approval"
     else reason)
    (if is_empty (trim_space (pc_Replacement c)) then ActionBlocked else ActionRewritten) f_zero.

Definition replacementFor (c : ProjectClaim) : string :=
  if is_empty (trim_space (pc_Replacement c)) then SafeFallback else pc_Replacement c.

Definition claimCollection (tenantID : string) : string :=
  let tenantID := if is_empty tenantID then "default" else tenantID in
  ("claim_control_" ++ replace_char (Ascii.ascii_of_nat 32) (Ascii.ascii_of_nat 95)
     (replace_char (Ascii.ascii_of_nat 45) (Ascii.ascii_of_nat 95) (to_lower tenantID)))%string.

(** [claims[i].Status > claims[j].Status]. *)
Definition status_above (a b : ProjectClaim) : bool := String.ltb (pc_Status b) (pc_Status a).

Definition payload_get (k : string) (l : list (string * string)) : string :=
  match List.find (fun e => eqs e.1 k) l with Some e => e.2 | None => "" end.

(** A map written as Go does: the last of equal keys stays. *)
Definition by_id (cs : list ProjectClaim) : gmap string ProjectClaim :=
  foldl (fun m c => <[pc_ID c := c]> m) ∅ cs.

Section Service.
Context {T : Type} `{!KbStore T} (env : KnEnv).

Abbreviation W := (Kn T).
Abbreviation MW := (M W string).

(** ** Effects *)

Definition now : MW Z := fun w =>
  (mkKn (kn_store w) (kn_ext w) (S (kn_reads w)) (kn_ids w), inr (e_now env (kn_reads w))).

Definition of_result {A} (r : result A) : string + A :=
  match r with Ok a => inr a | Err e => inl e end.

Definition st {A} (f : T -> Z -> string -> T * result A) : MW A := fun w =>
  let '(s, r) := f (kn_store w) (e_now env (kn_reads w)) (e_uuid env (kn_ids w)) in
  (mkKn s (kn_ext w) (S (kn_reads w)) (S (kn_ids w)), of_result r).

Definition rd {A} (f : T -> result A) : MW A := fun w => (w, of_result (f (kn_store w))).

(** [p, _ := f(...)] and [if p, err := f(...); err == nil]. *)
Definition rd_opt {A} (f : T -> result A) : MW (option A) := fun w =>
  (w, inr (match f (kn_store w) with Ok a => Some a | Err _ => None end)).

Definition call {A} (c : ext_call) (answer : ext_log -> string + A) : MW A := fun w =>
  (mkKn (kn_store w) (kn_ext w ++ [c]) (kn_reads w) (kn_ids w), answer (kn_ext w)).

Definition call_err (c : ext_call) (answer : ext_log -> ext_call -> error) : MW unit :=
  call c (fun l => match answer l c with Some e => inl e | None => inr tt end).

(** [Chain.Embed]: the first provider that answers. *)
Fixpoint chain_embed (ps : list (ext_log -> string -> string + list float32)) (l : ext_log)
    (text : string) : string + list float32 :=
  match ps with
  | [] => inl "no embedding provider"
  | p :: ps' =>
      match p l text with
      | inr v => inr v
      | inl e => match ps' with [] => inl e | _ => chain_embed ps' l text end
      end
  end.

Definition embed (text : string) : MW (list float32) :=
  call (EmbedCall text) (fun l => chain_embed (e_providers env) l text).

(** ** Indexing a version *)

(** The chunks of one source: point id, kind and text. *)
Definition chunks_of (kind id text : string) : list (string * string * string) :=
  match chunkText text 512 128 with
  | Some cs => imap (fun j piece => (pointID id j, kind, piece)) cs
  | None => []
  end.

Fixpoint embed_all (tenantID projectID versionID : string) (cs : list (string * string * string))
    : MW (list Point) :=
  match cs with
  | [] => ret []
  | (id, kind, text) :: cs' =>
      let! vec := embed text in
      let! rest := embed_all tenantID projectID versionID cs' in
      ret (mkPoint id vec [("tenant_id", tenantID); ("project_id", projectID);
             ("kb_version_id", versionID); ("source_type", kind); ("text", text)] :: rest)
  end.

(** Upserts in batches of 64; [fuel] is the number of points. *)
Fixpoint upsert_batches (fuel : nat) (collection : string) (points : list Point) : MW unit :=
  match fuel with
  | O => ret tt
  | S fuel' =>
      match points with
      | [] => ret tt
      | _ =>
          let! _ := call_err (Upsert collection (take 64 points)) (e_qdrant env) in
          upsert_batches fuel' collection (drop 64 points)
      end
  end.

Definition IndexVersion (tenantID projectID versionID : string) : MW Z :=
  let collection := CollectionFor tenantID in
  let! _ := call_err (EnsureCollection collection) (e_qdrant env) in
  let! _ := try (call_err (DeleteByFilter collection [("kb_version_id", versionID)])
              (e_qdrant env)) in
  let! facts := rd (fun s => ListFactsByVersion s versionID) in
  let! faqs := rd (fun s => ListFAQsByVersion s versionID) in
  let! discs := rd (fun s => ListDisclaimersByVersion s versionID) in
  let chunks :=
    (f ← facts; chunks_of "fact" (fc_ID f) (fc_Content f)) ++
    (q ← faqs; chunks_of "faq" (fq_ID q) ("Q: " ++ fq_Question q ++ String (Ascii.ascii_of_nat 10)
                                            ("A: " ++ fq_Answer q))) ++
    (d ← discs; chunks_of "disclaimer" (dc_ID d) (dc_Text d)) in
  let! points := embed_all tenantID projectID versionID chunks in
  let! _ := upsert_batches (length points) collection points in
  ret (Z.of_nat (length points)).

(** ** The approval workflow *)

Definition approval (versionID action actorID notes : string) : MW unit :=
  let! _ := st (fun s n u => RecordApprovalEvent s n u
              (mkApproval "" versionID action actorID notes time_zero)) in
  ret tt.

Definition SubmitForApproval (versionID submitterID : string) : MW unit :=
  let! v := rd (fun s => GetKbVersion s versionID) in
  let! _ := ensure (eqs (vr_Status v) VersionDraft) "only draft versions can be submitted" in
  let! _ := st (fun s n _ => UpdateKbVersionStatus s n versionID VersionPendingApproval "" "") in
  approval versionID "submitted" submitterID "".

Definition Approve (versionID reviewerID : string) : MW unit :=
  let! v := rd (fun s => GetKbVersion s versionID) in
  let! _ := ensure (eqs (vr_Status v) VersionPendingApproval)
              "only pending_approval versions can be approved" in
  let! p := rd (fun s => GetProject s (vr_ProjectID v)) in
  let! _ := ensure (negb (is_empty (pr_RERANumber p)))
              "approval requires rera_number on the project" in
  let! _ := ensure (negb (is_empty (pr_BrochureAssetID p)))
              "approval requires brochure_asset_id on the project" in
  let! _ := ensure (negb (is_empty (pr_PriceSheetAssetID p)))
              "approval requires price_sheet_asset_id on the project" in
  let! _ := st (fun s n _ => UpdateKbVersionStatus s n versionID VersionApproved reviewerID "") in
  approval versionID "approved" reviewerID "".

Definition Reject (versionID reviewerID reason : string) : MW unit :=
  let! v := rd (fun s => GetKbVersion s versionID) in
  let! _ := ensure (eqs (vr_Status v) VersionPendingApproval)
              "only pending_approval versions can be rejected" in
  let! _ := st (fun s n _ => UpdateKbVersionStatus s n versionID VersionRejected reviewerID
              reason) in
  approval versionID "rejected" reviewerID reason.

Definition Publish_version (versionID actorID : string) : MW unit :=
  let! v := rd (fun s => GetKbVersion s versionID) in
  let! _ := ensure (eqs (vr_Status v) VersionApproved) "only approved versions can be published" in
  let! project := rd (fun s => GetProject s (vr_ProjectID v)) in
  let! _ := st (fun s n _ => SetActiveVersion s n (vr_ProjectID v) versionID) in
  let! _ := st (fun s n _ => UpdateKbVersionStatus s n versionID VersionPublished "" "") in
  let! _ := approval versionID "published" actorID "" in
  if e_vector env
  then let! _ := try (IndexVersion (pr_TenantID project) (pr_ID project) versionID) in ret tt
  else ret tt.

(** ** Claim control *)

Definition isActive (c : ProjectClaim) : MW bool := let! t := now in ret (in_force c t).

(** [regexp.Compile(pattern)] and, when it succeeds, [re.MatchString(text)]. *)
Definition regexp_match (pattern text : string) : bool :=
  match parse pattern with
  | Some r => MatchString r text
  | None => match e_regexp env pattern with Some f => f text | None => false end
  end.

Definition matchText (c : ProjectClaim) (text : string) : bool :=
  if eqs (pc_PatternKind c) ClaimPatternRegex then regexp_match (pc_Pattern c) text
  else if eqs (pc_PatternKind c) ClaimPatternPhrase || is_empty (pc_PatternKind c)
  then contains (to_lower text) (to_lower (pc_Pattern c))
  else false.

Fixpoint default_claims (rules : list (string * string * string * string))
    : MW (list ProjectClaim) :=
  match rules with
  | [] => ret []
  | (id, claimType, pattern, reason) :: rules' =>
      let! t := now in
      let! rest := default_claims rules' in
      ret (def id claimType pattern ClaimPatternRegex reason t :: rest)
  end.

Definition defaultClaims : MW (list ProjectClaim) := default_claims default_rules.

Definition activeClaims (projectID : string) : MW (list ProjectClaim) :=
  let! global := rd (fun s => ListGlobalClaims s) in
  let! projectClaims := rd (fun s => ListClaims s projectID) in
  let! defaults := defaultClaims in
  ret (sort_by status_above ((defaults ++ global) ++ projectClaims)).

(** The first loop of [matchHardBlocks]. *)
Fixpoint lexical_block (text : string) (cs : list ProjectClaim) : MW (option ProjectClaim) :=
  match cs with
  | [] => ret None
  | c :: cs' =>
      if eqs (pc_Status c) ClaimStatusAllowed then lexical_block text cs' else
      let! active := isActive c in
      if negb active then lexical_block text cs'
      else if eqs (pc_PatternKind c) ClaimPatternSemantic then lexical_block text cs'
      else if matchText c text then ret (Some c) else lexical_block text cs'
  end.

Fixpoint semanticClaims (cs : list ProjectClaim) : MW (list ProjectClaim) :=
  match cs with
  | [] => ret []
  | c :: cs' =>
      let! keep := if eqs (pc_PatternKind c) ClaimPatternSemantic
                      && negb (eqs (pc_Status c) ClaimStatusAllowed)
                   then isActive c else ret false in
      let! rest := semanticClaims cs' in
      ret (if keep then c :: rest else rest)
  end.

Definition semantic_threshold : float32 := f32_of_f64 (f_dec 85 2).

(** The first hit that counts, with the claim it stands for. *)
Fixpoint first_hit (projectID : string) (byID : gmap string ProjectClaim) (hits : list SearchHit)
    : option (Violation * string) :=
  match hits with
  | [] => None
  | h :: hits' =>
      if SFltb (sh_Score h) semantic_threshold then first_hit projectID byID hits' else
      match byID !! payload_get "claim_id" (sh_Payload h) with
      | None => first_hit projectID byID hits'
      | Some c =>
          if negb (is_empty (pc_ProjectID c)) && negb (eqs (pc_ProjectID c) projectID)
          then first_hit projectID byID hits'
          else let v := violationFor c "semantic claim match" in
               Some (mkViol (vi_ClaimID v) (vi_ClaimType v) (vi_Reason v) (vi_ActionTaken v)
                       (sh_Score h), replacementFor c)
      end
  end.

Definition hard (c : ProjectClaim) (reason : string) : option (Violation * string) :=
  Some (violationFor c reason, replacementFor c).

Definition matchHardBlocks (req : CheckRequest) (text : string) (claims : list ProjectClaim)
    : MW (option (Violation * string)) :=
  let! lex := lexical_block text claims in
  match lex with
  | Some c => ret (hard c ("matched " ++ pc_Status c ++ " claim"))
  | None =>
      let! semantic := semanticClaims claims in
      match semantic with
      | [] => ret None
      | c0 :: _ =>
          if negb (e_vector env)
          then ret (hard c0 "semantic claim rules configured but vector backend is unavailable")
          else
          let! vec := try (embed text) in
          match vec with
          | inl e => ret (hard c0 ("semantic embedding failed: " ++ e))
          | inr vec =>
              let q := Search (claimCollection (cr_TenantID req)) vec 5 [] in
              let! hits := try (call q (fun l => e_search env l q)) in
              match hits with
              | inl e => ret (hard c0 ("semantic claim search failed: " ++ e))
              | inr hits => ret (first_hit (cr_ProjectID req) (by_id semantic) hits)
              end
          end
      end
  end.

Definition SubjectClaimViolation : string := "claim.violation".

Definition block (req : CheckRequest) (text : string) (v : Violation) (replacement : string)
    : MW CheckResponse :=
  let replacement := if is_empty replacement then SafeFallback else replacement in
  let action := if is_empty (vi_ActionTaken v) then ActionBlocked else vi_ActionTaken v in
  let! t := now in
  let! stored := st (fun s n u => RecordClaimViolation s n u
    (mkViolation "" (cr_TenantID req) (cr_ProjectID req) (cr_CallID req) (cr_LeadID req)
       (cr_Channel req) text (vi_ClaimID v) (vi_ClaimType v) action (vi_Reason v) t)) in
  let! _ := if e_publisher env
            then call_err (Publish SubjectClaimViolation (cv_ID stored) stored) (e_publish env)
            else ret tt in
  ret (mkCheckResp false action [v] (Some replacement)).

(** The claim types a text touches, with the reason to block it. *)
Definition detectSensitive (text : string) : gmap string string :=
  foldl (fun m '(claimType, pattern) =>
           if regexp_match pattern text
           then <[claimType := ("unapproved " ++ claimType ++ " claim")%string]> m else m)
    ∅ sensitive_patterns.

Definition detected (text : string) (project : option Project) : gmap string string :=
  foldl (fun m '(claimType, reason) => <[claimType := reason]> m)
    (detectSensitive text) (regulatoryRules text project).

Fixpoint allowedClaimTypes (text : string) (cs : list ProjectClaim) : MW (gset string) :=
  match cs with
  | [] => ret ∅
  | c :: cs' =>
      let! active := if eqs (pc_Status c) ClaimStatusAllowed then isActive c else ret false in
      let! rest := allowedClaimTypes text cs' in
      ret (if active && matchText c text then {[pc_ClaimType c]} ∪ rest else rest)
  end.

Definition with_defaults (req : CheckRequest) (project : option Project) : CheckRequest :=
  mkCheckReq
    (if is_empty (cr_TenantID req)
     then match project with Some p => pr_TenantID p | None => "" end else cr_TenantID req)
    (cr_ProjectID req) (cr_CallID req) (cr_LeadID req)
    (if is_empty (cr_Channel req) then "voice" else cr_Channel req) (cr_Text req).

Definition Check (req : CheckRequest) : MW CheckResponse :=
  let text := trim_space (cr_Text req) in
  if is_empty text then ret fine else
  let! project := rd_opt (fun s => GetProject s (cr_ProjectID req)) in
  let req := with_defaults req project in
  let! claims := activeClaims (cr_ProjectID req) in
  let! hard := matchHardBlocks req text claims in
  match hard with
  | Some (v, replacement) => block req text v replacement
  | None =>
      let found := e_order env _ (map_to_list (detected text project)) in
      match found with
      | [] => ret fine
      | _ =>
          let! allowed := allowedClaimTypes text claims in
          match List.find (fun d => negb (bool_decide (d.1 ∈ allowed))) found with
          | Some (claimType, reason) =>
              block req text (mkViol "" claimType reason ActionBlocked f_zero) SafeFallback
          | None => ret fine
          end
      end
  end.

Definition indexSemanticClaim (c : ProjectClaim) : MW unit :=
  if negb (e_vector env) then
    ensure (eqs (pc_Status c) ClaimStatusAllowed) "semantic claim requires vector backend"
  else
  let! tenantID := if is_empty (pc_TenantID c) && negb (is_empty (pc_ProjectID c))
                   then let! p := rd_opt (fun s => GetProject s (pc_ProjectID c)) in
                        ret (match p with Some p => pr_TenantID p | None => "" end)
                   else ret (pc_TenantID c) in
  let! vec := embed (pc_Pattern c) in
  let collection := claimCollection tenantID in
  let! _ := call_err (EnsureCollection collection) (e_qdrant env) in
  call_err (Upsert collection [mkPoint (pc_ID c) vec
    [("claim_id", pc_ID c); ("project_id", pc_ProjectID c); ("tenant_id", tenantID);
     ("status", pc_Status c); ("claim_type", pc_ClaimType c); ("text", pc_Pattern c)]])
    (e_qdrant env).

(** The store sets the missing pattern kind and status, as [SaveClaim] does
    before calling it. *)
Definition SaveClaim_service (c : ProjectClaim) : MW ProjectClaim :=
  let! c := st (fun s n u => SaveClaim s n u c) in
  let! _ := if eqs (pc_PatternKind c) ClaimPatternSemantic then indexSemanticClaim c else ret tt in
  ret c.

Definition approved_by (approver : string) (c : ProjectClaim) : ProjectClaim :=
  mkClaim (pc_ID c) (pc_TenantID c) (pc_ProjectID c) (pc_ClaimType c) ClaimStatusAllowed
    (pc_Pattern c) (pc_PatternKind c) (pc_Replacement c) (pc_ValidFrom c) (pc_ValidUntil c)
    approver (pc_Source c) (pc_CreatedAt c) (pc_UpdatedAt c).

Definition ApproveClaim (id approverID : string) : MW ProjectClaim :=
  let! c := rd (fun s => GetClaim s id) in
  SaveClaim_service (approved_by approverID c).

(** ** Handlers

    A request body that cannot be decoded is [None]; an answer is a status and,
    on success, a value. *)

Definition respond {A} (m : MW A) (ok err : Z) (w : W) : W * (Z * option A) :=
  let '(w', r) := m w in (w', match r with inr a => (ok, Some a) | inl _ => (err, None) end).

Definition decoded {A B} (body : option A) (f : A -> W -> W * (Z * option B)) (w : W)
    : W * (Z * option B) :=
  match body with None => (w, (400, None)) | Some a => f a w end.

Definition createProject (body : option Project) : W -> W * (Z * option Project) :=
  decoded body (fun p => respond (st (fun s n u => CreateProject s n u p)) 201 500).

Definition updateProject (id : string) (body : option Project) : W -> W * (Z * option Project) :=
  decoded body (fun p => respond (st (fun s n u =>
    UpdateProject s n u (stamp_project id (pr_CreatedAt p) (pr_UpdatedAt p) p))) 200 500).

Definition getProject (id : string) : W -> W * (Z * option Project) :=
  respond (rd (fun s => GetProject s id)) 200 404.

Definition for_project (projectID : string) (v : KbVersion) : KbVersion :=
  mkVersion (vr_ID v) projectID (vr_VersionNumber v)
    (if is_empty (vr_Status v) then VersionDraft else vr_Status v) (vr_EmbeddingModel v)
    (vr_SubmittedBy v) (vr_ReviewedBy v) (vr_ReviewNotes v) (vr_CreatedAt v) (vr_UpdatedAt v).

Definition createKbVersion (projectID : string) (body : option KbVersion)
    : W -> W * (Z * option KbVersion) :=
  decoded body (fun v => respond (st (fun s n u =>
    CreateKbVersion s n u (for_project projectID v))) 201 500).

(** The body of an embedding is never decoded. *)
Definition addFact (versionID : string) (body : option Fact) : W -> W * (Z * option Fact) :=
  decoded body (fun f => respond (st (fun s n u => AddFact s n u
    (mkFact (fc_ID f) versionID (fc_Content f) (fc_Metadata f) [] (fc_CreatedAt f)))) 201 400).

Definition addFAQ (versionID : string) (body : option FAQ) : W -> W * (Z * option FAQ) :=
  decoded body (fun f => respond (st (fun s n u => AddFAQ s n u
    (mkFAQ (fq_ID f) versionID (fq_Question f) (fq_Answer f) [] (fq_CreatedAt f)))) 201 400).

Definition addAsset (versionID : string) (body : option Asset) : W -> W * (Z * option Asset) :=
  decoded body (fun a => respond (st (fun s n u => AddAsset s n u
    (mkAsset (at_ID a) versionID (at_Name a) (at_AssetType a) (at_StorageKey a) (at_Status a)
       (at_CreatedAt a)))) 201 400).

Definition addInventory (versionID : string) (body : option Inventory)
    : W -> W * (Z * option Inventory) :=
  decoded body (fun v => respond (st (fun s n u => AddInventory s n u
    (mkInventory (iv_ID v) versionID (iv_UnitType v) (iv_TotalUnits v) (iv_AvailableUnits v)
       (iv_PriceMin v) (iv_PriceMax v) (iv_CreatedAt v)))) 201 400).

Definition addOffer (versionID : string) (body : option Offer) : W -> W * (Z * option Offer) :=
  decoded body (fun o => respond (st (fun s n u => AddOffer s n u
    (mkOffer (of_ID o) versionID (of_Title o) (of_Description o) (of_ValidUntil o)
       (of_CreatedAt o)))) 201 400).

Definition addDisclaimer (versionID : string) (body : option Disclaimer)
    : W -> W * (Z * option Disclaimer) :=
  decoded body (fun d => respond (st (fun s n u => AddDisclaimer s n u
    (mkDisclaimer (dc_ID d) versionID (dc_Text d) (dc_CreatedAt d)))) 201 400).

(** The workflow handlers ignore a body that cannot be decoded. *)
Definition submitForApproval (versionID : string) (actor : option string)
    : W -> W * (Z * option unit) :=
  respond (SubmitForApproval versionID (default "" actor)) 200 400.

Definition approveVersion (versionID : string) (reviewer : option string)
    : W -> W * (Z * option unit) :=
  respond (Approve versionID (default "" reviewer)) 200 400.

Definition rejectVersion (versionID : string) (review : option (string * string))
    : W -> W * (Z * option unit) :=
  let '(reviewer, notes) := default ("", "") review in
  respond (Reject versionID reviewer notes) 200 400.

Definition publishVersion (versionID : string) (actor : option string)
    : W -> W * (Z * option unit) :=
  respond (Publish_version versionID (default "" actor)) 200 400.

Definition retrieveViaQdrant (projectID query : string) (topK : Z) : MW RetrieveResult :=
  let! project := rd (fun s => GetProject s projectID) in
  if is_empty (pr_ActiveVersionID project) then ret (mkRetrieved "" []) else
  let! vec := embed query in
  let q := Search (CollectionFor (pr_TenantID project)) vec topK
             [("project_id", pr_ID project); ("kb_version_id", pr_ActiveVersionID project)] in
  let! hits := call q (fun l => e_search env l q) in
  ret (mkRetrieved (pr_ActiveVersionID project)
    ((fun h => mkChunk (pr_ActiveVersionID project) (payload_get "source_type" (sh_Payload h))
                 (payload_get "text" (sh_Payload h)) (sh_Score h)) <$> hits)).

Definition retrieveKb (projectID : string) (body : option (string * list float32 * Z))
    : W -> W * (Z * option RetrieveResult) :=
  decoded body (fun '(query, embedding, topK) =>
    let topK := if topK <=? 0 then 8 else topK in
    if e_vector env && negb (is_empty query)
    then respond (retrieveViaQdrant projectID query topK) 200 500
    else respond (rd (fun s => RetrieveKb s projectID embedding topK)) 200 500).

Definition claim_for (projectID tenantID : string) (c : ProjectClaim) : ProjectClaim :=
  mkClaim (pc_ID c) tenantID projectID (pc_ClaimType c) (pc_Status c) (pc_Pattern c)
    (pc_PatternKind c) (pc_Replacement c) (pc_ValidFrom c) (pc_ValidUntil c) (pc_ApproverUserID c)
    (pc_Source c) (pc_CreatedAt c) (pc_UpdatedAt c).

Definition addClaim (projectID : string) (body : option ProjectClaim)
    : W -> W * (Z * option ProjectClaim) :=
  decoded body (fun c => respond (
    let! p := if is_empty (pc_TenantID c) then rd_opt (fun s => GetProject s projectID)
              else ret None in
    SaveClaim_service (claim_for projectID
      (if is_empty (pc_TenantID c) then match p with Some p => pr_TenantID p | None => "" end
       else pc_TenantID c) c)) 201 400).

Definition approveClaim (id : string) (approver : option string)
    : W -> W * (Z * option ProjectClaim) :=
  respond (ApproveClaim id (default "" approver)) 200 400.

Definition checkClaimControl (body : option CheckRequest) : W -> W * (Z * option CheckResponse) :=
  decoded body (fun req => respond (Check req) 200 500).

Definition addPronunciation (body : option Pronunciation) : W -> W * (Z * option Pronunciation) :=
  decoded body (fun p => respond (st (fun s n u => AddPronunciation s n u
    (mkPron (pn_ID p) (pn_TenantID p) (pn_Term p) (pn_IPA p) (pn_Phonetic p)
       (if is_empty (pn_Lang p) then "en" else pn_Lang p) (pn_CreatedAt p)))) 201 500).

(** The list handlers answer the list, or 500. *)
Definition list_of {A} (f : T -> result (list A)) : W -> W * (Z * option (list A)) :=
  respond (rd f) 200 500.

Definition listProjects (tenantID : string) : W -> W * (Z * option (list Project)) :=
  list_of (fun s => ListProjects s tenantID).
Definition listClaims (projectID : string) : W -> W * (Z * option (list ProjectClaim)) :=
  list_of (fun s => ListClaims s projectID).
Definition listClaimViolations (projectID : string)
    : W -> W * (Z * option (list ClaimViolation)) :=
  list_of (fun s => ListClaimViolations s projectID).
Definition listPronunciations (tenantID lang : string)
    : W -> W * (Z * option (list Pronunciation)) :=
  list_of (fun s => ListPronunciations s tenantID lang).

End Service.
