(* ===== verification/KnowledgeSafety.v ===== *)
(** * knowledge: claim control and chunking

    What the answers of claim control mean, that every blocked text is recorded
    and announced, and that splitting a text into chunks ends and loses no
    word. *)

From S2P Require Import Prelude GoTime GoMonad GoStrings Float64 Regexp Kv Knowledge KnowledgeService.

Open Scope Z_scope.

(** ** Chunks *)

Section Chunks.
Local Open Scope nat_scope.

(** The words of the chunks without the overlaps: the first [step] words of
    every chunk but the last, which is kept whole. *)
Fixpoint rebuild (step : nat) (cs : list (list string)) : list string :=
  match cs with
  | [] => []
  | [c] => c
  | c :: cs' => take step c ++ rebuild step cs'
  end.

(** Each chunk is within the window, and chunk and successor share the words
    between them. *)
Fixpoint overlapping (window step : nat) (cs : list (list string)) : Prop :=
  match cs with
  | [] => True
  | c :: cs' =>
      length c <= window /\
      match cs' with [] => True | d :: _ => exists t, drop step c ++ t = d end /\
      overlapping window step cs'
  end.

Lemma chunk_loop_spec fuel window step words :
  0 < step <= window -> 0 < length words <= fuel ->
  exists c cs, chunk_loop fuel window step words = Some (c :: cs) /\
    rebuild step (c :: cs) = words /\ overlapping window step (c :: cs) /\ c = take window words.
Proof.
  intros Hs. revert words. induction fuel as [|fuel IH]; intros words Hw; [lia|].
  simpl. destruct (Nat.leb_spec (length words) window) as [Hle|Hgt].
  - exists words, []. split_and!; try done. by rewrite take_ge by lia.
  - destruct (IH (drop step words)) as (c & cs & E & Hre & Hov & Hc);
      [rewrite length_drop; lia|]. rewrite E. exists (take window words), (c :: cs).
    split; [done|]. split.
    { rewrite Hre, take_take.
      rewrite Nat.min_l by lia. apply take_drop. }
    split; [|done].
    split; [rewrite length_take; lia|]. split; [|done].
    exists (drop (window - step) c). rewrite Hc, skipn_firstn_comm.
    rewrite <- (take_drop (window - step) (take window (drop step words))) at 2.
    by rewrite take_take, Nat.min_l by lia.
Qed.

(** C38: splitting a text into chunks always ends, for a window that is not
    empty.  A text of at most a window of words is one chunk; a longer one is
    split into chunks of at most a window of words, each starting with the last
    words of the one before it, and without the overlaps the chunks are exactly
    the words of the text. *)
Theorem chunk_text_terminates text window overlap :
  0 < window ->
  exists cs, chunkText text window overlap = Some cs /\
    let words := fields (trim_space text) in
    (is_empty (trim_space text) = true -> cs = []) /\
    (is_empty (trim_space text) = false -> length words <= window -> cs = [trim_space text]) /\
    (is_empty (trim_space text) = false -> window < length words ->
       let step := if Nat.leb window overlap then window else window - overlap in
       exists ws, cs = join " " <$> ws /\ rebuild step ws = words /\ overlapping window step ws).
Proof.
  intros Hw. unfold chunkText. destruct (is_empty (trim_space text)) eqn:He.
  { by exists []. }
  destruct (Nat.leb_spec (length (fields (trim_space text))) window) as [Hle|Hgt].
  { exists [trim_space text]. split_and!; try done. intros. lia. }
  destruct (chunk_loop_spec (length (fields (trim_space text))) window
    (if Nat.leb window overlap then window else window - overlap) (fields (trim_space text)))
    as (c & cs & E & Hre & Hov & _); [destruct (Nat.leb_spec window overlap); lia|lia|].
  rewrite E. eexists. split; [done|]. split; [done|]. split; [intros; lia|].
  intros _ _. exists (c :: cs). done.
Qed.
End Chunks.

Lemma chunk_text_terminates_witness :
  chunkText "a b c d e" 3 1 = Some ["a b c"; "c d e"] /\
  exists cs, chunkText "a b c d e" 3 1 = Some cs /\ length cs = 2%nat.
Proof.
  split; [reflexivity|].
  destruct (chunk_text_terminates "a b c d e" 3 1) as (cs & E & _); [lia|].
  exists cs. split; [exact E|]. by injection E as <-.
Defined.

(** ** Claim control *)

Section Claims.
Context {T : Type} `{!KbStore T} (env : KnEnv).
Abbreviation W := (Kn T).

(** A run that only reads the clock. *)
Definition same_data (w w' : W) : Prop := kn_store w' = kn_store w /\ kn_ext w' = kn_ext w.

#[local] Instance same_data_pre : PreOrder same_data.
Proof. split; unfold same_data; [done|]. intros w1 w2 w3 [-> ->] [-> ->]. done. Qed.

(** [c] is in force whenever the clock is read. *)
Definition standing (c : ProjectClaim) : Prop := forall n, in_force c (e_now env n) = true.

Lemma default_claims_spec rules (w : W) :
  exists w' l, default_claims env rules w = (w', inr l) /\ same_data w w' /\
    (forall id ty pat why, (id, ty, pat, why) ∈ rules ->
       exists t, def id ty pat ClaimPatternRegex why t ∈ l) /\
    (forall c, c ∈ l -> pc_Status c = ClaimStatusForbidden).
Proof.
  revert w. induction rules as [|[[[id ty] pat] why] rules IH]; intros w; simpl.
  - exists w, []. split_and!; try done; set_solver.
  - rewrite bind_run. simpl.
    destruct (IH (mkKn (kn_store w) (kn_ext w) (S (kn_reads w)) (kn_ids w)))
      as (w' & l & E & Hs & Hl & Hf).
    rewrite bind_run, E. eexists _, _. split; [reflexivity|]. split; [done|]. split.
    + intros id' ty' pat' why' [?|Hin]%elem_of_cons; simplify_eq.
      * eexists. by left.
      * destruct (Hl _ _ _ _ Hin) as [t Ht]. exists t. by right.
    + intros c [->|Hin]%elem_of_cons; [done|by apply Hf].
Qed.

Lemma active_claims_spec pid (w w' : W) cs :
  activeClaims env pid w = (w', inr cs) ->
  same_data w w' /\ exists (defaults : list ProjectClaim) globals locals,
    ListGlobalClaims (kn_store w) = Ok globals /\ ListClaims (kn_store w) pid = Ok locals /\
    (forall id ty pat why, (id, ty, pat, why) ∈ default_rules ->
       exists t, def id ty pat ClaimPatternRegex why t ∈ defaults) /\
    (forall c, c ∈ defaults -> pc_Status c = ClaimStatusForbidden) /\
    (forall c, c ∈ cs <-> c ∈ defaults \/ c ∈ globals ++ locals).
Proof.
  unfold activeClaims, rd. intros (w1 & gs & Hg & H)%bind_ok. simpl in Hg.
  destruct (ListGlobalClaims _) as [g|] eqn:Eg; simpl in Hg; simplify_eq.
  apply bind_ok in H as (w2 & ls & Hl & H).
  destruct (ListClaims _ pid) as [l|] eqn:El; simpl in Hl; simplify_eq.
  apply bind_ok in H as (w3 & ds & Hd & [-> ->]%ret_ok). unfold defaultClaims in Hd.
  destruct (default_claims_spec default_rules w2) as (w4 & l' & E & Hs & H1 & H2).
  rewrite E in Hd. simplify_eq. split; [done|]. exists ds, gs, ls.
  split_and!; try done. intros c. rewrite elem_of_sort_by. set_solver.
Qed.

Lemma lexical_block_spec text cs (w : W) :
  exists w' r, lexical_block env text cs w = (w', inr r) /\ same_data w w' /\
    (r = None -> forall c, c ∈ cs -> pc_Status c <> ClaimStatusAllowed ->
       pc_PatternKind c <> ClaimPatternSemantic -> standing c -> matchText env c text = false).
Proof.
  revert w. induction cs as [|c cs IH]; intros w; simpl.
  { eexists _, _. split; [reflexivity|]. split; [done|]. set_solver. }
  unfold eqs. case_bool_decide as Ha.
  { destruct (IH w) as (w' & r & E & Hs & Hr). exists w', r. split_and!; try done.
    intros Hn c' [->|Hin]%elem_of_cons; [done|]. by apply Hr. }
  unfold isActive. rewrite bind_run. simpl.
  set (w1 := mkKn (kn_store w) (kn_ext w) (S (kn_reads w)) (kn_ids w)).
  destruct (IH w1) as (w' & r & E & Hs & Hr).
  destruct (in_force c (e_now env (kn_reads w))) eqn:Hf; simpl.
  - case_bool_decide as Hk.
    + exists w', r. split_and!; try done. intros Hn c' [->|Hin]%elem_of_cons; [done|]. by apply Hr.
    + destruct (matchText env c text) eqn:Hm.
      * exists w1, (Some c). done.
      * exists w', r. split_and!; try done.
        intros Hn c' [->|Hin]%elem_of_cons; [done|]. by apply Hr.
  - exists w', r. split_and!; try done. intros Hn c' [->|Hin]%elem_of_cons; [|by apply Hr].
    intros _ _ Hst. by rewrite Hst in Hf.
Qed.

Lemma semantic_claims_spec cs (w : W) :
  exists w' l, semanticClaims env cs w = (w', inr l) /\ same_data w w' /\
    (forall c, c ∈ cs -> pc_Status c <> ClaimStatusAllowed ->
       pc_PatternKind c = ClaimPatternSemantic -> standing c -> c ∈ l).
Proof.
  revert w. induction cs as [|c cs IH]; intros w; simpl.
  { eexists _, _. split; [reflexivity|]. split; [done|]. set_solver. }
  unfold eqs. rewrite bind_run.
  case_bool_decide as Hk; [case_bool_decide as Ha|]; simpl.
  - destruct (IH w) as (w' & l & E & Hs & Hl). rewrite bind_run, E. eexists _, _.
    split; [reflexivity|]. split; [done|]. intros c' [->|Hin]%elem_of_cons; [done|]. by apply Hl.
  - destruct (IH (mkKn (kn_store w) (kn_ext w) (S (kn_reads w)) (kn_ids w))) as (w' & l & E & Hs & Hl).
    rewrite bind_run, E. eexists _, _. split; [reflexivity|]. split; [done|].
    intros c' [->|Hin]%elem_of_cons Hst Hk' Hf.
    + rewrite Hf. by left.
    + specialize (Hl _ Hin Hst Hk' Hf). destruct (in_force _ _); [by right|done].
  - destruct (IH w) as (w' & l & E & Hs & Hl). rewrite bind_run, E. eexists _, _.
    split; [reflexivity|]. split; [done|]. intros c' [->|Hin]%elem_of_cons; [done|]. by apply Hl.
Qed.

Lemma allowed_types_spec text cs (w : W) :
  exists w' s, allowedClaimTypes env text cs w = (w', inr s) /\ same_data w w' /\
    (forall ty, ty ∈ s -> exists c n, c ∈ cs /\ pc_Status c = ClaimStatusAllowed /\
       pc_ClaimType c = ty /\ matchText env c text = true /\ in_force c (e_now env n) = true).
Proof.
  revert w. induction cs as [|c cs IH]; intros w; simpl.
  { eexists _, _. split; [reflexivity|]. split; [done|]. set_solver. }
  unfold eqs. rewrite bind_run. case_bool_decide as Ha; simpl.
  - destruct (IH (mkKn (kn_store w) (kn_ext w) (S (kn_reads w)) (kn_ids w))) as (w' & s & E & Hs & Hl).
    rewrite bind_run, E. eexists _, _. split; [reflexivity|]. split; [done|]. intros ty.
    destruct (in_force c _) eqn:Hf, (matchText env c text) eqn:Hm; simpl;
      try (intros Hin; destruct (Hl ty Hin) as (c' & n & ? & ?); exists c', n; set_solver).
    intros [->%elem_of_singleton|Hin]%elem_of_union.
    + exists c, (kn_reads w). split_and!; try done. by left.
    + destruct (Hl ty Hin) as (c' & n & ? & ?). exists c', n. set_solver.
  - destruct (IH w) as (w' & s & E & Hs & Hl). rewrite bind_run, E. eexists _, _.
    split; [reflexivity|]. split; [done|]. intros ty Hin.
    destruct (Hl ty Hin) as (c' & n & ? & ?). exists c', n. set_solver.
Qed.

Lemma block_not_ok req text v repl (w w' : W) resp :
  block env req text v repl w = (w', inr resp) -> cs_OK resp = false.
Proof.
  unfold block. intros (w1 & t & _ & H)%bind_ok. apply bind_ok in H as (w2 & s & _ & H).
  apply bind_ok in H as (w3 & [] & _ & [_ ->]%ret_ok). done.
Qed.

(** What passing the hard blocks means. *)
Lemma hard_blocks_none req text cs (w w' : W) :
  matchHardBlocks env req text cs w = (w', inr None) ->
  kn_store w' = kn_store w /\
  forall c, c ∈ cs -> pc_Status c <> ClaimStatusAllowed -> standing c ->
    matchText env c text = false /\
    (pc_PatternKind c = ClaimPatternSemantic -> e_vector env = true).
Proof.
  unfold matchHardBlocks. intros (w1 & lex & Hlex & H)%bind_ok.
  destruct (lexical_block_spec text cs w) as (w2 & r & E & [Hs _] & Hr).
  rewrite E in Hlex. simplify_eq. destruct lex as [c|]; [done|]. specialize (Hr eq_refl).
  apply bind_ok in H as (w3 & sem & Hsem & H).
  destruct (semantic_claims_spec cs w1) as (w4 & l & E' & [Hs' _] & Hl).
  rewrite E' in Hsem. simplify_eq.
  assert (Hmatch : forall c, c ∈ cs -> pc_Status c <> ClaimStatusAllowed -> standing c ->
    matchText env c text = false).
  { intros c Hc Hst Hf. destruct (decide (pc_PatternKind c = ClaimPatternSemantic)) as [Hk|Hk].
    - unfold matchText, eqs. by rewrite Hk.
    - by apply Hr. }
  destruct sem as [|c0 sem].
  - injection H as <-. split; [congruence|]. intros c Hc Hst Hf. split; [by apply Hmatch|].
    intros Hk. specialize (Hl c Hc Hst Hk Hf). set_solver.
  - destruct (e_vector env); [|by injection H as <-]. cbn [negb] in H.
    split; [|intros c Hc Hst Hf; split; [by apply Hmatch|done]].
    apply bind_ok in H as (w5 & vec & Hvec & H). unfold try, embed, call in Hvec. simplify_eq/=.
    destruct (chain_embed _ _ _); [by injection H as <-|].
    apply bind_ok in H as (w6 & hits & Hh & H). unfold try, call in Hh. simplify_eq/=.
    destruct (e_search _ _ _); [by injection H as <-|]. injection H as <- _. simpl. congruence.
Qed.

(** C12: a text that claim control lets through breaks no rule: no built-in
    rule matches it, no standing claim of the project or of all projects that is
    not allowed matches it, a semantic claim in force means that the vector
    search was available, every sensitive subject it touches is covered by an
    allowed claim in force that matches it, and nothing is written. *)
Theorem claim_check_is_sound (w w' : W) req resp :
  (forall A (l : list A), e_order env A l ≡ₚ l) ->
  Check env req w = (w', inr resp) -> cs_OK resp = true ->
  let text := trim_space (cr_Text req) in
  is_empty text = false ->
  exists globals locals,
    ListGlobalClaims (kn_store w) = Ok globals /\
    ListClaims (kn_store w) (cr_ProjectID req) = Ok locals /\
    (forall id ty pat why, (id, ty, pat, why) ∈ default_rules -> regexp_match env pat text = false) /\
    (forall c, c ∈ globals ++ locals -> pc_Status c <> ClaimStatusAllowed -> standing c ->
       matchText env c text = false /\
       (pc_PatternKind c = ClaimPatternSemantic -> e_vector env = true)) /\
    (forall ty, is_Some (detected env text
         (match GetProject (kn_store w) (cr_ProjectID req) with Ok p => Some p | Err _ => None end)
         !! ty) ->
       exists c n, c ∈ globals ++ locals /\ pc_Status c = ClaimStatusAllowed /\
         pc_ClaimType c = ty /\ matchText env c text = true /\ in_force c (e_now env n) = true) /\
    kn_store w' = kn_store w.
Proof.
  intros Hord Hrun Hok text Ht. unfold Check in Hrun. fold text in Hrun. rewrite Ht in Hrun.
  apply bind_ok in Hrun as (w1 & project & [= <- <-] & Hrun).
  apply bind_ok in Hrun as (w2 & cs & Hcs & Hrun).
  apply active_claims_spec in Hcs as ([Hs2 _] & ds & gs & ls & Hg & Hl & Hdef & Hforb & Hcs).
  apply bind_ok in Hrun as (w3 & hard & Hh & Hrun).
  destruct hard as [[v repl]|]; [by rewrite (block_not_ok _ _ _ _ _ _ _ Hrun) in Hok|].
  apply hard_blocks_none in Hh as [Hs3 Hhard]. exists gs, ls. split; [done|]. split; [done|].
  set (project := match GetProject _ _ with Ok p => Some p | Err _ => None end) in *.
  assert (Hlast : kn_store w' = kn_store w3 /\
    forall ty, is_Some (detected env text project !! ty) ->
      exists c n, c ∈ cs /\ pc_Status c = ClaimStatusAllowed /\ pc_ClaimType c = ty /\
        matchText env c text = true /\ in_force c (e_now env n) = true).
  { pose proof (Hord _ (map_to_list (detected env text project))) as Hperm.
    assert (Hin : forall ty, is_Some (detected env text project !! ty) -> exists why,
      (ty, why) ∈ e_order env _ (map_to_list (detected env text project))).
    { intros ty [why Hw]. exists why. rewrite Hperm. by apply elem_of_map_to_list. }
    destruct (e_order env _ _) as [|d found] eqn:Eo.
    - injection Hrun as <- _. split; [done|]. intros ty Hty. destruct (Hin ty Hty). set_solver.
    - apply bind_ok in Hrun as (w4 & al & Hal & Hrun).
      destruct (allowed_types_spec text cs w3) as (w5 & s & E & [Hs5 _] & Hty).
      rewrite E in Hal. simplify_eq.
      destruct (List.find _ _) as [[ty why]|] eqn:Ef;
        [by rewrite (block_not_ok _ _ _ _ _ _ _ Hrun) in Hok|].
      injection Hrun as <- _. split; [done|]. intros ty Hsome. destruct (Hin ty Hsome) as [why Hw].
      eapply List.find_none in Ef; [|by apply list_elem_of_In]. simpl in Ef.
      apply negb_false_iff, bool_decide_eq_true in Ef. by apply Hty. }
  destruct Hlast as [Hs4 Hallowed]. split_and!.
  - intros id ty pat why Hin. destruct (Hdef _ _ _ _ Hin) as [t Hd].
    destruct (Hhard (def id ty pat ClaimPatternRegex why t)) as [Hm _]; [apply Hcs; by left|done|done|].
    exact Hm.
  - intros c Hc. apply Hhard, Hcs. by right.
  - intros ty Hty. destruct (Hallowed ty Hty) as (c & n & Hc & Hst & Hrest). exists c, n.
    split; [|done]. apply Hcs in Hc as [Hd|]; [|done]. by rewrite (Hforb _ Hd) in Hst.
  - congruence.
Qed.
End Claims.

Definition quiet_env : KnEnv := mkKnEnv (fun n => Z.of_nat n) (fun n => itoa n) false true [] (fun _ _ => None)
  (fun _ _ => inr []) (fun _ _ => None) (fun _ l => l) (fun _ => None).

(** A price that the project team approved. *)
Definition approved_price : ProjectClaim :=
  mkClaim "c1" "t1" "p1" "price" ClaimStatusAllowed "90 lakh" ClaimPatternPhrase "" None None "u1"
    "" 0 0.

Definition one_claim : Kn PgKb.t :=
  mkKn (PgKb.set_project_claims (mkKv [("c1", approved_price)] true) PgKb.empty) [] 0 0.

Definition ask (text : string) : CheckRequest := mkCheckReq "t1" "p1" "" "" "voice" text.

Lemma claim_check_is_sound_witness :
  let w := one_claim in
  let req := ask "The price is 90 lakh" in
  exists globals locals, ListGlobalClaims (kn_store w) = Ok globals /\
    ListClaims (kn_store w) "p1" = Ok locals /\
    forall ty, is_Some (detected quiet_env (trim_space (cr_Text req)) None !! ty) ->
      exists c n, c ∈ globals ++ locals /\ pc_Status c = ClaimStatusAllowed /\
        pc_ClaimType c = ty /\ matchText quiet_env c (trim_space (cr_Text req)) = true /\
        in_force c (e_now quiet_env n) = true.
Proof.
  intros w req.
  assert (E : exists w', Check quiet_env req w = (w', inr fine)) by (eexists; vm_compute; reflexivity).
  destruct E as [w' E].
  destruct (claim_check_is_sound quiet_env w w' req fine) as (gs & ls & Hg & Hl & _ & _ & H & _);
    [done|exact E|done|vm_compute; reflexivity|]. exists gs, ls. split; [exact Hg|]. split; [exact Hl|].
  exact H.
Defined.

(** ** Blocked texts *)

(** A text that claim control blocks is recorded with the reason of the
    block, a replacement that is not empty is offered for it, and the recorded
    violation is the last thing announced on the bus, under its own id. *)
Theorem blocked_text_is_recorded env (w w' : Kn PgKb.t) req resp :
  Check env req w = (w', inr resp) -> cs_OK resp = false ->
  exists v vio r,
    cs_Violations resp = [v] /\ cs_Rewritten resp = Some r /\ r <> "" /\
    rows_get (cv_ID vio) (kv_rows (PgKb.claim_violations (kn_store w'))) = Some vio /\
    cv_AttemptedText vio = trim_space (cr_Text req) /\ cv_ProjectID vio = cr_ProjectID req /\
    cv_MatchedClaimID vio = vi_ClaimID v /\ cv_ClaimType vio = vi_ClaimType v /\
    cv_Reason vio = vi_Reason v /\ cv_ActionTaken vio = cs_ActionTaken resp /\
    (e_publisher env = true ->
       last (kn_ext w') = Some (Publish SubjectClaimViolation (cv_ID vio) vio)).
Proof.
  intros Hrun Hok.
  assert (Hb : exists req' v repl w1, cr_ProjectID req' = cr_ProjectID req /\
            block env req' (trim_space (cr_Text req)) v repl w1 = (w', inr resp)).
  { unfold Check in Hrun. destruct (is_empty _); [by injection Hrun as <- <-|].
    apply bind_ok in Hrun as (w1 & project & _ & Hrun).
    apply bind_ok in Hrun as (w2 & cs & _ & Hrun). apply bind_ok in Hrun as (w3 & hard & _ & Hrun).
    destruct hard as [[v repl]|].
    { eexists _, v, repl, w3. split; [|exact Hrun]. done. }
    destruct (e_order env _ _); [by injection Hrun as <- <-|].
    apply bind_ok in Hrun as (w4 & al & _ & Hrun).
    destruct (List.find _ _) as [[ty why]|]; [|by injection Hrun as <- <-].
    eexists _, _, _, w4. split; [|exact Hrun]. done. }
  destruct Hb as (req' & v & repl & w1 & Hpid & H). clear Hrun Hok. unfold block in H.
  apply bind_ok in H as (w2 & t & [= <- <-] & H). apply bind_ok in H as (w3 & vio & Hst & H).
  apply bind_ok in H as (w4 & [] & Hpub & [-> ->]%ret_ok).
  unfold st in Hst. cbn [RecordClaimViolation pg_kb_store kn_store kn_reads kn_ids kn_ext] in Hst.
  unfold PgKb.recordClaimViolation, PgKb.put, kv_set, kv_put in Hst.
  destruct (kv_up _); [|done]. simpl in Hst. injection Hst as <- <-.
  eexists v, _, _. split; [done|]. split; [done|]. split; [by destruct (is_empty repl) eqn:E;
    [|intros ->]|].
  destruct (e_publisher env).
  - unfold call_err, call in Hpub. simpl in Hpub. destruct (e_publish env _ _); [done|].
    injection Hpub as <-. simpl. split; [apply rows_get_put_eq|]. split_and!; try done.
    intros _. by rewrite last_snoc.
  - injection Hpub as <-. simpl. split; [apply rows_get_put_eq|]. by split_and!.
Qed.

Lemma blocked_text_is_recorded_witness :
  let w := one_claim in
  let req := ask "Guaranteed return of 12 percent" in
  exists vio, rows_get (cv_ID vio)
    (kv_rows (PgKb.claim_violations (kn_store (Check quiet_env req w).1))) = Some vio /\
    cv_AttemptedText vio = "Guaranteed return of 12 percent".
Proof.
  intros w req.
  assert (E : exists resp, Check quiet_env req w = ((Check quiet_env req w).1, inr resp)
                /\ cs_OK resp = false).
  { eexists. split; vm_compute; reflexivity. }
  destruct E as (resp & E & Hok).
  destruct (blocked_text_is_recorded quiet_env w _ req resp E Hok)
    as (v & vio & r & _ & _ & _ & H1 & H2 & _).
  exists vio. split; [exact H1|exact H2].
Defined.

(** The built-in rules miss the plural: on an empty rule base the promise
    of "guaranteed return" is blocked, and "guaranteed returns" passes. *)
Theorem plural_promise_passes env (w : Kn PgKb.t) :
  (forall A (l : list A), e_order env A l ≡ₚ l) -> kn_store w = PgKb.empty ->
  (Check env (ask "This project gives guaranteed returns") w).2 = inr fine /\
  forall w' resp, Check env (ask "This project gives a guaranteed return") w = (w', inr resp) ->
    cs_OK resp = false.
Proof.
  intros Hord Hw. destruct w as [s ext reads ids]. simpl in Hw. subst s.
  destruct env as [e_now e_uuid vec pub provs qd search publ order rx]. simpl in Hord. split.
  - vm_compute. match goal with |- context [order ?A ?l] =>
      pose proof (Hord A l) as Hp; apply Permutation_nil_r in Hp; rewrite Hp end. done.
  - vm_compute. intros w' resp. destruct pub; [destruct (publ _ _)|]; by intros [= <- <-].
Qed.

Lemma plural_promise_passes_witness :
  (Check quiet_env (ask "This project gives guaranteed returns") (mkKn PgKb.empty [] 0 0)).2
  = inr fine.
Proof.
  exact (proj1 (plural_promise_passes quiet_env (mkKn PgKb.empty [] 0 0)
    (fun A l => Permutation_refl l) eq_refl)).
Defined.
