(* ===== verification/KnowledgeLifecycle.v ===== *)
(** * knowledge: the life cycle of a knowledge base

    Requests against the Postgres store: how versions move through the approval
    workflow, that the content of a submitted version no longer changes, and
    which version a project serves. *)

From S2P Require Import Prelude GoTime GoMonad GoStrings Float64 Regexp Kv Knowledge KnowledgeService.
From stdpp Require Import pretty.

Open Scope Z_scope.

(** ** Requests *)

Inductive kn_op :=
| OpCreateProject (body : option Project)
| OpUpdateProject (id : string) (body : option Project)
| OpCreateVersion (projectID : string) (body : option KbVersion)
| OpAddFact (versionID : string) (body : option Fact)
| OpAddFAQ (versionID : string) (body : option FAQ)
| OpAddAsset (versionID : string) (body : option Asset)
| OpAddInventory (versionID : string) (body : option Inventory)
| OpAddOffer (versionID : string) (body : option Offer)
| OpAddDisclaimer (versionID : string) (body : option Disclaimer)
| OpSubmit (versionID : string) (actor : option string)
| OpApprove (versionID : string) (reviewer : option string)
| OpReject (versionID : string) (review : option (string * string))
| OpPublish (versionID : string) (actor : option string)
| OpRetrieve (projectID : string) (body : option (string * list float32 * Z))
| OpAddClaim (projectID : string) (body : option ProjectClaim)
| OpApproveClaim (id : string) (approver : option string)
| OpCheck (body : option CheckRequest)
| OpAddPronunciation (body : option Pronunciation).

Section Lifecycle.
Context (env : KnEnv).
Abbreviation W := (Kn PgKb.t).

Definition kn_step (w : W) (op : kn_op) : W :=
  match op with
  | OpCreateProject b => (createProject env b w).1
  | OpUpdateProject id b => (updateProject env id b w).1
  | OpCreateVersion p b => (createKbVersion env p b w).1
  | OpAddFact v b => (addFact env v b w).1
  | OpAddFAQ v b => (addFAQ env v b w).1
  | OpAddAsset v b => (addAsset env v b w).1
  | OpAddInventory v b => (addInventory env v b w).1
  | OpAddOffer v b => (addOffer env v b w).1
  | OpAddDisclaimer v b => (addDisclaimer env v b w).1
  | OpSubmit v a => (submitForApproval env v a w).1
  | OpApprove v a => (approveVersion env v a w).1
  | OpReject v a => (rejectVersion env v a w).1
  | OpPublish v a => (publishVersion env v a w).1
  | OpRetrieve p b => (retrieveKb env p b w).1
  | OpAddClaim p b => (addClaim env p b w).1
  | OpApproveClaim i a => (approveClaim env i a w).1
  | OpCheck b => (checkClaimControl env b w).1
  | OpAddPronunciation b => (addPronunciation env b w).1
  end.

(** ** Views of the store *)

Definition version (p : PgKb.t) (id : string) : option KbVersion :=
  rows_get id (kv_rows (PgKb.kb_versions p)).
Definition project (p : PgKb.t) (id : string) : option Project :=
  rows_get id (kv_rows (PgKb.projects p)).

(** The records of a collection that belong to a version. *)
Definition part {A} (vid : A -> string) (id : string) (c : kv A) : list A :=
  List.filter (fun x => eqs (vid x) id) (kv_rows c).*2.

(** Everything stored under a version. *)
Definition content (p : PgKb.t) (id : string) :=
  (part fc_VersionID id (PgKb.facts p), part fq_VersionID id (PgKb.faqs p),
   part at_VersionID id (PgKb.assets p), part iv_VersionID id (PgKb.inventory p),
   part of_VersionID id (PgKb.offers p), part dc_VersionID id (PgKb.disclaimers p)).

(** One move of the workflow. *)
Inductive move : string -> string -> Prop :=
| move_submit : move VersionDraft VersionPendingApproval
| move_approve : move VersionPendingApproval VersionApproved
| move_reject : move VersionPendingApproval VersionRejected
| move_publish : move VersionApproved VersionPublished.

Definition reviewed (status : string) : Prop := status = VersionApproved \/ status = VersionPublished.

Lemma moves_leave_draft s s' : rtc move s s' -> s <> VersionDraft -> s' <> VersionDraft.
Proof. induction 1 as [|s s1 s' Hm _ IH]; [done|]. intros _. apply IH. by inversion Hm. Qed.

Lemma moves_keep_reviewed s s' : rtc move s s' -> reviewed s -> reviewed s'.
Proof.
  induction 1 as [|s s1 s' Hm _ IH]; [done|]. intros Hr. apply IH.
  destruct Hm, Hr as [E|E]; try discriminate E. by right.
Qed.

(** Identifiers come from the generator, which does not repeat itself. *)
Definition uuids_distinct : Prop :=
  (forall i j, e_uuid env i = e_uuid env j -> i = j) /\ (forall i, e_uuid env i <> "").

Context (Huuid : uuids_distinct).

Definition below {A} (n : nat) (c : kv A) : Prop :=
  forall k, k ∈ (kv_rows c).*1 -> exists i, (i < n)%nat /\ k = e_uuid env i.

Record kb_inv (n : nat) (p : PgKb.t) : Prop := {
  ki_projects : below n (PgKb.projects p);
  ki_versions : below n (PgKb.kb_versions p);
  ki_facts : below n (PgKb.facts p);
  ki_faqs : below n (PgKb.faqs p);
  ki_assets : below n (PgKb.assets p);
  ki_inventory : below n (PgKb.inventory p);
  ki_offers : below n (PgKb.offers p);
  ki_disclaimers : below n (PgKb.disclaimers p);
  ki_active : forall pid x, project p pid = Some x -> pr_ActiveVersionID x <> "" ->
    exists v, version p (pr_ActiveVersionID x) = Some v /\ reviewed (vr_Status v)
}.

(** Versions stay, move along the workflow, and once submitted keep their
    content. *)
Definition kb_rel (p p' : PgKb.t) : Prop :=
  forall id v, version p id = Some v ->
    (exists v', version p' id = Some v' /\ vr_ProjectID v' = vr_ProjectID v /\
       vr_VersionNumber v' = vr_VersionNumber v /\ rtc move (vr_Status v) (vr_Status v')) /\
    (vr_Status v <> VersionDraft -> content p' id = content p id).

Definition R_kb (w w' : W) : Prop :=
  kb_inv (kn_ids w) (kn_store w) ->
  kb_inv (kn_ids w') (kn_store w') /\ kb_rel (kn_store w) (kn_store w').

Lemma kb_rel_refl p : kb_rel p p.
Proof. intros id v Hv. split; [|done]. by exists v. Qed.

#[local] Instance R_kb_pre : PreOrder R_kb.
Proof.
  split; [intros w Hi; split; [done|apply kb_rel_refl]|].
  intros w1 w2 w3 R12 R23 H1. destruct (R12 H1) as [H2 C2]. destruct (R23 H2) as [H3 C3].
  split; [done|]. intros id v Hv. destruct (C2 id v Hv) as [(v2 & Hv2 & Hp & Hn & Hm) Hc].
  destruct (C3 id v2 Hv2) as [(v3 & Hv3 & Hp' & Hn' & Hm') Hc']. split.
  - exists v3. split_and!; try congruence. by etrans.
  - intros Hd. rewrite <- Hc by done. apply Hc'. by eapply moves_leave_draft.
Qed.

Lemma below_mono {A} n n' (c : kv A) : (n <= n')%nat -> below n c -> below n' c.
Proof. intros Hn Hb k Hk. destruct (Hb k Hk) as (i & Hi & ->). exists i. split; [lia|done]. Qed.

Lemma fresh_key {A} n (c : kv A) : below n c -> e_uuid env n ∉ (kv_rows c).*1.
Proof.
  intros Hb Hin. destruct (Hb _ Hin) as (i & Hi & E). destruct Huuid as [Hinj _].
  apply Hinj in E. lia.
Qed.

Lemma below_put_new {A} n (c : kv A) v up :
  below n c -> below (S n) (mkKv (rows_put (e_uuid env n) v (kv_rows c)) up).
Proof.
  intros Hb k. simpl. rewrite rows_put_keys, (proj2 (rows_get_None _ _) (fresh_key _ _ Hb)).
  intros [Hk| ->%list_elem_of_singleton]%elem_of_app.
  - destruct (Hb k Hk) as (i & Hi & ->). exists i. split; [lia|done].
  - exists n. split; [lia|done].
Qed.

Lemma below_put_old {A} n (c : kv A) k v v0 up :
  rows_get k (kv_rows c) = Some v0 -> below n c -> below n (mkKv (rows_put k v (kv_rows c)) up).
Proof. intros Hk Hb k'. simpl. rewrite rows_put_keys, Hk. apply Hb. Qed.

(** A record added to one version leaves the others alone. *)
Lemma part_put_new {A} (vid : A -> string) id n (c : kv A) v up :
  below n c -> vid v <> id ->
  part vid id (mkKv (rows_put (e_uuid env n) v (kv_rows c)) up) = part vid id c.
Proof.
  intros Hb Hv. unfold part. simpl. rewrite rows_put_new by by apply fresh_key.
  rewrite fmap_app, List.filter_app. csimpl. unfold eqs. rewrite (bool_decide_false (vid v = id)) by done.
  by rewrite app_nil_r.
Qed.

Lemma put_cases {A B} (set : kv A -> PgKb.t -> PgKb.t) c k (a : A) (b : B) p :
  (exists e, PgKb.put set c k a b p = (set c p, Err e)) \/
  PgKb.put set c k a b p = (set (mkKv (rows_put k a (kv_rows c)) true) p, Ok b).
Proof. unfold PgKb.put, kv_set, kv_put. destruct (kv_up c); eauto. Qed.

Lemma inv_mono n n' p : (n <= n')%nat -> kb_inv n p -> kb_inv n' p.
Proof. intros Hn []. split; eauto using below_mono. Qed.

(** Steps that leave projects, versions and content alone. *)
Definition same_kb (p p' : PgKb.t) : Prop :=
  PgKb.projects p' = PgKb.projects p /\ PgKb.kb_versions p' = PgKb.kb_versions p /\
  PgKb.facts p' = PgKb.facts p /\ PgKb.faqs p' = PgKb.faqs p /\ PgKb.assets p' = PgKb.assets p /\
  PgKb.inventory p' = PgKb.inventory p /\ PgKb.offers p' = PgKb.offers p /\
  PgKb.disclaimers p' = PgKb.disclaimers p.

Lemma R_same (w w' : W) :
  (kn_ids w <= kn_ids w')%nat -> same_kb (kn_store w) (kn_store w') -> R_kb w w'.
Proof.
  intros Hn (E1 & E2 & E3 & E4 & E5 & E6 & E7 & E8) Hi. apply (inv_mono _ _ _ Hn) in Hi. split.
  - destruct Hi. split; rewrite ?E1, ?E2, ?E3, ?E4, ?E5, ?E6, ?E7, ?E8; try done.
    unfold project, version. by rewrite E1, E2.
  - intros id v Hv. unfold version, content. rewrite E2, E3, E4, E5, E6, E7, E8. split; [|done].
    by exists v.
Qed.

Lemma kb_st_same {A} (f : PgKb.t -> Z -> string -> PgKb.t * result A) :
  (forall s n u, same_kb s (f s n u).1) -> keeps R_kb (st env f).
Proof.
  intros Hf w. unfold st. specialize (Hf (kn_store w) (e_now env (kn_reads w)) (e_uuid env (kn_ids w))).
  destruct (f _ _ _). apply R_same; simpl; [lia|done].
Qed.

Lemma kb_now : keeps R_kb (now env).
Proof. intros w. by apply R_same. Qed.
Lemma kb_rd {A} (f : PgKb.t -> result A) : keeps R_kb (rd f).
Proof. intros w. by apply R_same. Qed.
Lemma kb_rd_opt {A} (f : PgKb.t -> result A) : keeps R_kb (rd_opt f).
Proof. intros w. by apply R_same. Qed.
Lemma kb_call {A} c (f : ext_log -> string + A) : keeps R_kb (call c f).
Proof. intros w. by apply R_same. Qed.
Lemma kb_call_err c f : keeps R_kb (call_err c f).
Proof. apply kb_call. Qed.
Lemma kb_embed t : keeps R_kb (embed env t).
Proof. apply kb_call. Qed.
#[local] Hint Resolve R_kb_pre kb_now kb_rd kb_rd_opt kb_call kb_call_err kb_embed : keeps.

Lemma same_put {A B} (set : kv A -> PgKb.t -> PgKb.t) c k (a : A) (b : B) p :
  (forall c, same_kb p (set c p)) -> same_kb p (PgKb.put set c k a b p).1.
Proof. intros Hs. destruct (put_cases set c k a b p) as [[e ->]| ->]; apply Hs. Qed.

Lemma kb_approval id action actor notes : keeps R_kb (approval env id action actor notes).
Proof.
  unfold approval. keeps_tac. apply kb_st_same. intros. apply same_put. intros c. by repeat split.
Qed.
Lemma kb_save_claim c : keeps R_kb (st env (fun s n u => SaveClaim s n u c)).
Proof. apply kb_st_same. intros. apply same_put. intros k. by repeat split. Qed.
Lemma kb_violation v : keeps R_kb (st env (fun s n u => RecordClaimViolation s n u v)).
Proof. apply kb_st_same. intros. apply same_put. intros k. by repeat split. Qed.
Lemma kb_pron v : keeps R_kb (st env (fun s n u => AddPronunciation s n u v)).
Proof. apply kb_st_same. intros. apply same_put. intros k. by repeat split. Qed.
#[local] Hint Resolve kb_approval kb_save_claim kb_violation kb_pron : keeps.

(** ** Content *)

Lemma set_facts_id p : PgKb.set_facts (PgKb.facts p) p = p. Proof. by destruct p. Qed.
Lemma set_faqs_id p : PgKb.set_faqs (PgKb.faqs p) p = p. Proof. by destruct p. Qed.
Lemma set_assets_id p : PgKb.set_assets (PgKb.assets p) p = p. Proof. by destruct p. Qed.
Lemma set_inventory_id p : PgKb.set_inventory (PgKb.inventory p) p = p. Proof. by destruct p. Qed.
Lemma set_offers_id p : PgKb.set_offers (PgKb.offers p) p = p. Proof. by destruct p. Qed.
Lemma set_disclaimers_id p : PgKb.set_disclaimers (PgKb.disclaimers p) p = p.
Proof. by destruct p. Qed.
Lemma set_projects_id p : PgKb.set_projects (PgKb.projects p) p = p. Proof. by destruct p. Qed.
Lemma set_versions_id p : PgKb.set_kb_versions (PgKb.kb_versions p) p = p. Proof. by destruct p. Qed.
Hint Rewrite set_facts_id set_faqs_id set_assets_id set_inventory_id set_offers_id
  set_disclaimers_id set_projects_id set_versions_id : kbset.

Lemma require_draft p id :
  PgKb.requireDraftVersion p id = Ok tt ->
  exists v, version p id = Some v /\ vr_Status v = VersionDraft.
Proof.
  unfold PgKb.requireDraftVersion, PgKb.getKbVersion, PgKb.found, kv_get, version.
  destruct (kv_up _); [|done]. destruct (rows_get _ _) as [v|]; [|done]. unfold eqs.
  case_bool_decide; [|done]. intros _. by exists v.
Qed.

(** A record with a new id is added to a draft. *)
Definition below_all (n : nat) (p : PgKb.t) : Prop :=
  below n (PgKb.facts p) /\ below n (PgKb.faqs p) /\ below n (PgKb.assets p) /\
  below n (PgKb.inventory p) /\ below n (PgKb.offers p) /\ below n (PgKb.disclaimers p).

Lemma R_add (w : W) p' r id0 :
  PgKb.requireDraftVersion (kn_store w) id0 = Ok tt ->
  PgKb.projects p' = PgKb.projects (kn_store w) ->
  PgKb.kb_versions p' = PgKb.kb_versions (kn_store w) ->
  (below_all (kn_ids w) (kn_store w) -> below_all (S (kn_ids w)) p' /\
     forall id, id <> id0 -> content p' id = content (kn_store w) id) ->
  R_kb w (mkKn p' (kn_ext w) r (S (kn_ids w))).
Proof.
  intros (v0 & Hv0 & Hd)%require_draft Ep Ev Hall Hi.
  destruct Hall as [Hb Hc]; [by destruct Hi|]. apply (inv_mono _ (S (kn_ids w))) in Hi; [|lia].
  destruct Hb as (? & ? & ? & ? & ? & ?). split.
  - destruct Hi. split; simpl; try done; try (by rewrite ?Ep, ?Ev).
    unfold project, version. by rewrite Ep, Ev.
  - intros id v Hv. split; simpl.
    + exists v. unfold version. by rewrite Ev.
    + intros Hnd. apply Hc. intros ->. by simplify_eq.
Qed.

(** The rest of the argument, for each kind of content. *)
Ltac add_content :=
  let w := fresh "w" in intros ? w; unfold st;
  match goal with |- context [let '(_, _) := ?t in _] =>
    let E := fresh in destruct t as [p' r] eqn:E; simpl in E end;
  match goal with H : _ = (?p', ?r) |- _ =>
    unfold PgKb.addFact, PgKb.addFAQ, PgKb.addAsset, PgKb.addInventory, PgKb.addOffer,
      PgKb.addDisclaimer in H;
    revert H; destruct (PgKb.requireDraftVersion _ _) as [[]|] eqn:Hdraft; intros H;
      [|injection H as <- <-; apply R_same; simpl; [lia|by repeat split]];
    match type of H with PgKb.put ?set ?c ?k ?a ?b ?p = _ =>
      destruct (put_cases set c k a b p) as [[e Ep]|Ep]; rewrite Ep in H; injection H as <- <-;
      [autorewrite with kbset; apply R_same; simpl; [lia|by repeat split]|]
    end
  end;
  eapply R_add; [eassumption|done|done|]; unfold or_new;
  match goal with H : ?x = "" |- _ => rewrite H end; simpl;
  intros (?&?&?&?&?&?); split;
  [ repeat split; simpl; first [by apply below_put_new | by eapply below_mono; [|eassumption]; lia]
  | intros id Hne; unfold content; simpl; by rewrite part_put_new by done ].

Lemma kb_add_fact x : fc_ID x = "" -> keeps R_kb (st env (fun s n u => AddFact s n u x)).
Proof. add_content. Qed.
Lemma kb_add_faq x : fq_ID x = "" -> keeps R_kb (st env (fun s n u => AddFAQ s n u x)).
Proof. add_content. Qed.
Lemma kb_add_asset x : at_ID x = "" -> keeps R_kb (st env (fun s n u => AddAsset s n u x)).
Proof. add_content. Qed.
Lemma kb_add_inventory x : iv_ID x = "" -> keeps R_kb (st env (fun s n u => AddInventory s n u x)).
Proof. add_content. Qed.
Lemma kb_add_offer x : of_ID x = "" -> keeps R_kb (st env (fun s n u => AddOffer s n u x)).
Proof. add_content. Qed.
Lemma kb_add_disclaimer x :
  dc_ID x = "" -> keeps R_kb (st env (fun s n u => AddDisclaimer s n u x)).
Proof. add_content. Qed.
(** ** Projects and versions *)

(** Nothing of the knowledge base changed. *)
Ltac idle := apply R_same; simpl; [lia|by repeat split].

(** A write: when it fails nothing changed. *)
Ltac split_put :=
  match goal with |- context [PgKb.put ?set ?c ?k ?v ?b ?p] =>
    destruct (put_cases set c k v b p) as [[e ->]| ->] end;
  [autorewrite with kbset; idle|].

Lemma version_put p id v up k :
  version (PgKb.set_kb_versions (mkKv (rows_put id v (kv_rows (PgKb.kb_versions p))) up) p) k
  = if decide (k = id) then Some v else version p k.
Proof. unfold version. simpl. apply rows_get_put. Qed.

Lemma project_put p id x up k :
  project (PgKb.set_projects (mkKv (rows_put id x (kv_rows (PgKb.projects p))) up) p) k
  = if decide (k = id) then Some x else project p k.
Proof. unfold project. simpl. apply rows_get_put. Qed.

Lemma fresh_version n p : below n (PgKb.kb_versions p) -> version p (e_uuid env n) = None.
Proof. intros. by apply rows_get_None, fresh_key. Qed.

Lemma kb_create_version x :
  vr_ID x = "" -> keeps R_kb (st env (fun s n u => CreateKbVersion s n u x)).
Proof.
  intros Hid w. unfold st. cbn [CreateKbVersion pg_kb_store]. unfold PgKb.createKbVersion.
  destruct (PgKb.listKbVersions _ _); [|idle].
  unfold or_new. rewrite Hid. simpl. split_put.
  intros Hi. pose proof (fresh_version _ _ (ki_versions _ _ Hi)) as Hf.
  apply (inv_mono _ (S (kn_ids w))) in Hi as Hi'; [|lia]. split.
  - destruct Hi'. split; try done; [by apply below_put_new; destruct Hi|]. simpl.
    intros pid y Hp Ha. destruct (ki_active0 pid y Hp Ha) as (v & Hv & Hr). exists v.
    rewrite version_put. rewrite decide_False; [done|]. intros E. rewrite E in Hv. congruence.
  - intros id v Hv. split; [|done]. exists v. simpl. rewrite version_put, decide_False; [done|].
    intros ->. congruence.
Qed.

Lemma kb_create_project x :
  pr_ID x = "" -> pr_ActiveVersionID x = "" ->
  keeps R_kb (st env (fun s n u => CreateProject s n u x)).
Proof.
  intros Hid Hact w. unfold st. cbn [CreateProject pg_kb_store]. unfold PgKb.createProject.
  unfold or_new. rewrite Hid. simpl. split_put.
  intros Hi. apply (inv_mono _ (S (kn_ids w))) in Hi as Hi'; [|lia]. split.
  - destruct Hi'. split; try done; [by apply below_put_new; destruct Hi|]. simpl.
    intros pid y. rewrite project_put. case_decide; [|by apply ki_active0].
    intros [= <-]. simpl. by rewrite Hact.
  - intros id v Hv. split; [|done]. by exists v.
Qed.

(** Writing a project that exists, with an active version that was reviewed. *)
Lemma R_project (w : W) id x y r :
  project (kn_store w) id = Some x ->
  (pr_ActiveVersionID y <> "" -> pr_ActiveVersionID y = pr_ActiveVersionID x \/
     exists v, version (kn_store w) (pr_ActiveVersionID y) = Some v /\ reviewed (vr_Status v)) ->
  R_kb w (mkKn (PgKb.set_projects (mkKv (rows_put id y (kv_rows (PgKb.projects (kn_store w)))) true)
            (kn_store w)) (kn_ext w) r (S (kn_ids w))).
Proof.
  intros Hx Hy Hi. apply (inv_mono _ (S (kn_ids w))) in Hi as Hi'; [|lia]. split.
  - destruct Hi'. split; try done; [by eapply below_put_old|]. simpl.
    intros pid z. rewrite project_put. case_decide; [|by apply ki_active0].
    intros [= <-] Ha. destruct (Hy Ha) as [E|Hv]; [|done]. rewrite E in *. by apply (ki_active0 id).
  - intros k v Hv. split; [|done]. by exists v.
Qed.

Lemma get_project p id x : PgKb.getProject p id = Ok x -> project p id = Some x.
Proof.
  unfold PgKb.getProject, PgKb.found, kv_get, project. destruct (kv_up _); [|done].
  destruct (rows_get _ _); [|done]. by intros [= ->].
Qed.

Lemma get_version p id v : PgKb.getKbVersion p id = Ok v -> version p id = Some v.
Proof.
  unfold PgKb.getKbVersion, PgKb.found, kv_get, version. destruct (kv_up _); [|done].
  destruct (rows_get _ _); [|done]. by intros [= ->].
Qed.

Lemma kb_update_project (w : W) x :
  (forall y, project (kn_store w) (pr_ID x) = Some y ->
     pr_ActiveVersionID x = pr_ActiveVersionID y) ->
  R_kb w (st env (fun s n u => UpdateProject s n u x) w).1.
Proof.
  intros Hact. unfold st. cbn [UpdateProject pg_kb_store]. unfold PgKb.updateProject.
  destruct (PgKb.getProject _ _) as [y|] eqn:Ey; [|idle].
  apply get_project in Ey. split_put.
  simpl. eapply R_project; [exact Ey|]. intros _. left. by apply Hact.
Qed.

Lemma kb_set_active (w : W) pid id v :
  version (kn_store w) id = Some v -> reviewed (vr_Status v) ->
  R_kb w (st env (fun s n _ => SetActiveVersion s n pid id) w).1.
Proof.
  intros Hv Hr. unfold st. cbn [SetActiveVersion pg_kb_store]. unfold PgKb.setActiveVersion.
  destruct (PgKb.getProject _ _) as [y|] eqn:Ey; [|idle].
  apply get_project in Ey. split_put.
  simpl. eapply R_project; [exact Ey|]. intros _. right. by exists v.
Qed.

Lemma kb_update_status (w : W) id s a b :
  (forall v, version (kn_store w) id = Some v -> move (vr_Status v) s) ->
  R_kb w (st env (fun s0 n _ => UpdateKbVersionStatus s0 n id s a b) w).1.
Proof.
  intros Hmove. unfold st. cbn [UpdateKbVersionStatus pg_kb_store].
  unfold PgKb.updateKbVersionStatus.
  destruct (PgKb.getKbVersion _ _) as [v|] eqn:Ev; [|idle].
  apply get_version in Ev. specialize (Hmove v Ev).
  split_put.
  simpl. intros Hi. apply (inv_mono _ (S (kn_ids w))) in Hi as Hi'; [|lia]. split.
  - destruct Hi'. split; try done; [by eapply below_put_old|]. simpl.
    intros pid y Hp Ha. destruct (ki_active0 pid y Hp Ha) as (v1 & Hv1 & Hr1). rewrite version_put.
    case_decide as E; [|by exists v1]. rewrite E in Hv1. simplify_eq. eexists. split; [done|]. simpl.
    eapply moves_keep_reviewed; [by apply rtc_once|done].
  - intros k v1 Hv1. split; [|done]. simpl. rewrite version_put. case_decide; [subst|by exists v1].
    simplify_eq. eexists. split; [done|]. split_and!; try done. simpl. by apply rtc_once.
Qed.
(** ** The workflow *)

Lemma kb_rd_version (w : W) id (f : KbVersion -> M W string unit) :
  (forall v, version (kn_store w) id = Some v -> R_kb w (f v w).1) ->
  R_kb w ((let! v := rd (fun s => GetKbVersion s id) in f v) w).1.
Proof.
  intros Hf. rewrite bind_run. unfold rd. cbn [GetKbVersion pg_kb_store].
  destruct (PgKb.getKbVersion _ _) as [v|] eqn:E; simpl; [|reflexivity]. by apply Hf, get_version.
Qed.

Lemma kb_ensure (w : W) b e (m : M W string unit) :
  (b = true -> R_kb w (m w).1) -> R_kb w ((let! _ := ensure b e in m) w).1.
Proof. intros Hm. rewrite bind_run. destruct b; simpl; [by apply Hm|reflexivity]. Qed.

Lemma kb_then {A B} (w : W) (m : M W string A) (f : A -> M W string B) :
  R_kb w (m w).1 -> (forall a, keeps R_kb (f a)) -> R_kb w ((let! a := m in f a) w).1.
Proof.
  intros Hm Hf. rewrite bind_run. destruct (m w) as [w1 [e|a]]; [done|].
  etrans; [exact Hm|apply Hf].
Qed.

Lemma eqs_true a b : eqs a b = true -> a = b.
Proof. apply bool_decide_eq_true_1. Qed.

Lemma kb_submit id actor : keeps R_kb (SubmitForApproval env id actor).
Proof.
  intros w. apply kb_rd_version. intros v Hv. apply kb_ensure. intros Hs%eqs_true.
  apply kb_then; [|auto with keeps]. apply kb_update_status. intros v' Hv'. simplify_eq.
  rewrite Hs. constructor.
Qed.

Lemma kb_reject id reviewer reason : keeps R_kb (Reject env id reviewer reason).
Proof.
  intros w. apply kb_rd_version. intros v Hv. apply kb_ensure. intros Hs%eqs_true.
  apply kb_then; [|auto with keeps]. apply kb_update_status. intros v' Hv'. simplify_eq.
  rewrite Hs. constructor.
Qed.

Lemma kb_rd_project (w : W) id (f : Project -> M W string unit) :
  (forall x, R_kb w (f x w).1) -> R_kb w ((let! x := rd (fun s => GetProject s id) in f x) w).1.
Proof.
  intros Hf. rewrite bind_run. unfold rd. cbn [GetProject pg_kb_store].
  destruct (PgKb.getProject _ _) as [x|]; simpl; [apply Hf|reflexivity].
Qed.

Lemma kb_approve id reviewer : keeps R_kb (Approve env id reviewer).
Proof.
  intros w. apply kb_rd_version. intros v Hv. apply kb_ensure. intros Hs%eqs_true.
  apply kb_rd_project. intros x. do 3 (apply kb_ensure; intros _).
  apply kb_then; [|auto with keeps]. apply kb_update_status. intros v' Hv'. simplify_eq.
  rewrite Hs. constructor.
Qed.

Lemma kb_embed_all t p id cs : keeps R_kb (embed_all env t p id cs).
Proof. induction cs as [|[[i k] x] cs IH]; simpl; keeps_tac. Qed.
Lemma kb_upserts n c ps : keeps R_kb (upsert_batches env n c ps).
Proof. revert ps. induction n as [|n IH]; intros ps; simpl; keeps_tac. Qed.
#[local] Hint Resolve kb_embed_all kb_upserts : keeps.

Lemma kb_index t p id : keeps R_kb (IndexVersion env t p id).
Proof. unfold IndexVersion. keeps_tac. Qed.
#[local] Hint Resolve kb_index : keeps.

Lemma set_active_versions (w : W) pid id k :
  version (kn_store (st env (fun s n _ => SetActiveVersion s n pid id) w).1) k
  = version (kn_store w) k.
Proof.
  unfold st. cbn [SetActiveVersion pg_kb_store]. unfold PgKb.setActiveVersion.
  destruct (PgKb.getProject _ _); [|done].
  match goal with |- context [PgKb.put ?set ?c ?k ?v ?b ?p] =>
    destruct (put_cases set c k v b p) as [[e ->]| ->] end; done.
Qed.

Lemma kb_publish id actor : keeps R_kb (Publish_version env id actor).
Proof.
  intros w. apply kb_rd_version. intros v Hv. apply kb_ensure. intros Hs%eqs_true.
  apply kb_rd_project. intros x. rewrite bind_run.
  pose proof (kb_set_active w (vr_ProjectID v) id v Hv (or_introl Hs)) as H1.
  pose proof (set_active_versions w (vr_ProjectID v) id id) as Hv1.
  destruct (st env _ w) as [w1 [e|[]]]; [done|]. simpl in H1, Hv1. etrans; [exact H1|].
  apply kb_then.
  - apply kb_update_status. intros v' Hv'. rewrite Hv1, Hv in Hv'. simplify_eq. rewrite Hs. constructor.
  - intros _. keeps_tac.
Qed.

(** ** Claims *)

Lemma kb_index_claim c : keeps R_kb (indexSemanticClaim env c).
Proof. unfold indexSemanticClaim. keeps_tac. Qed.
#[local] Hint Resolve kb_index_claim : keeps.

Lemma kb_default_claims l : keeps R_kb (default_claims env l).
Proof. induction l as [|[[[i t] p] y] l IH]; simpl; keeps_tac. Qed.
Lemma kb_lexical t l : keeps R_kb (lexical_block env t l).
Proof. induction l as [|c l IH]; simpl; unfold isActive; keeps_tac. Qed.
Lemma kb_semantic l : keeps R_kb (semanticClaims env l).
Proof. induction l as [|c l IH]; simpl; unfold isActive; keeps_tac. Qed.
Lemma kb_allowed t l : keeps R_kb (allowedClaimTypes env t l).
Proof. induction l as [|c l IH]; simpl; unfold isActive; keeps_tac. Qed.
#[local] Hint Resolve kb_default_claims kb_lexical kb_semantic kb_allowed : keeps.

Lemma kb_check req : keeps R_kb (Check env req).
Proof.
  unfold Check, activeClaims, defaultClaims, matchHardBlocks, block. keeps_tac.
Qed.
(** ** All requests *)

(** Requests that leave identifiers to the service, create versions as drafts
    and do not move the active version of a project. *)
Definition honest (p : PgKb.t) (op : kn_op) : Prop :=
  match op with
  | OpCreateProject (Some x) => pr_ID x = "" /\ pr_ActiveVersionID x = ""
  | OpUpdateProject id (Some x) =>
      forall y, project p id = Some y -> pr_ActiveVersionID x = pr_ActiveVersionID y
  | OpCreateVersion _ (Some v) => vr_ID v = "" /\ (vr_Status v = "" \/ vr_Status v = VersionDraft)
  | OpAddFact _ (Some x) => fc_ID x = ""
  | OpAddFAQ _ (Some x) => fq_ID x = ""
  | OpAddAsset _ (Some x) => at_ID x = ""
  | OpAddInventory _ (Some x) => iv_ID x = ""
  | OpAddOffer _ (Some x) => of_ID x = ""
  | OpAddDisclaimer _ (Some x) => dc_ID x = ""
  | _ => True
  end.

Inductive kstep : W -> W -> Prop :=
| kstep_op w op : honest (kn_store w) op -> kstep w (kn_step w op).

Lemma respond_keeps {A} (m : M W string A) ok err (w : W) :
  R_kb w (m w).1 -> R_kb w (respond m ok err w).1.
Proof. unfold respond. by destruct (m w). Qed.

#[local] Hint Resolve kb_add_fact kb_add_faq kb_add_asset kb_add_inventory kb_add_offer
  kb_add_disclaimer kb_create_version kb_create_project kb_submit kb_approve kb_reject kb_publish
  kb_check : keeps.

Lemma kstep_keeps w w' : kstep w w' -> R_kb w w'.
Proof.
  intros [w0 op Hh]. destruct op as [b|id b|p b|v b|v b|v b|v b|v b|v b|v a|v a|v a|v a|p b|p b|i a|b|b];
    simpl in *; try destruct b as [x|]; try reflexivity;
    unfold createProject, updateProject, createKbVersion, addFact, addFAQ, addAsset, addInventory,
      addOffer, addDisclaimer, submitForApproval, approveVersion, rejectVersion, publishVersion,
      retrieveKb, addClaim, approveClaim, checkClaimControl, addPronunciation, decoded.
  - apply respond_keeps. by apply kb_create_project; destruct Hh.
  - apply respond_keeps, kb_update_project. exact Hh.
  - apply respond_keeps. by apply kb_create_version; destruct Hh.
  - apply respond_keeps. by apply kb_add_fact.
  - apply respond_keeps. by apply kb_add_faq.
  - apply respond_keeps. by apply kb_add_asset.
  - apply respond_keeps. by apply kb_add_inventory.
  - apply respond_keeps. by apply kb_add_offer.
  - apply respond_keeps. by apply kb_add_disclaimer.
  - apply respond_keeps, kb_submit.
  - apply respond_keeps, kb_approve.
  - destruct a as [[r n]|]; apply respond_keeps, kb_reject.
  - apply respond_keeps, kb_publish.
  - destruct x as [[q e] k]. destruct (_ && _); apply respond_keeps; [|apply kb_rd].
    unfold retrieveViaQdrant. clear Hh. generalize w0. keeps_tac.
  - apply respond_keeps. unfold SaveClaim_service. clear Hh. generalize w0. keeps_tac.
  - apply respond_keeps. unfold ApproveClaim, SaveClaim_service. clear Hh. generalize w0. keeps_tac.
  - apply respond_keeps, kb_check.
  - apply respond_keeps. apply kb_pron.
Qed.

Lemma ksteps_keep w w' : rtc kstep w w' -> R_kb w w'.
Proof. induction 1 as [|w1 w2 w3 Hs _ IH]; [reflexivity|]. etrans; [by apply kstep_keeps|done]. Qed.

(** Requests that are honest in every state. *)
Lemma ksteps_run ops w :
  (forall p, Forall (honest p) ops) -> rtc kstep w (foldl kn_step w ops).
Proof.
  revert w. induction ops as [|op ops IH]; intros w Hh; [apply rtc_refl|]. simpl.
  eapply rtc_l; [apply kstep_op; by destruct (Forall_cons_1 _ _ _ (Hh (kn_store w)))|].
  apply IH. intros p. by destruct (Forall_cons_1 _ _ _ (Hh p)).
Qed.

Lemma empty_inv : kb_inv 0 PgKb.empty.
Proof. split; try (intros k Hk; by apply elem_of_nil in Hk). done. Qed.

(** C8: from an empty knowledge base over Postgres, under any sequence of
    requests that leave identifiers to the service, create versions as drafts
    and do not change the active version when they update a project, and
    whatever fails on the way: the version a project serves was approved; a
    version is never lost, keeps its project and number, and moves only from
    draft to pending, from pending to approved or rejected, from approved to
    published; and once it is submitted its facts, FAQs, assets, inventory,
    offers and disclaimers never change.  The service does not enforce these
    conditions on the requests, and without them both parts fail: an update can
    make a project serve an unreviewed version ([unreviewed_version_is_served])
    and a fact sent with the id of a published one takes it over
    ([published_fact_can_be_taken]). *)
Theorem submitted_versions_are_frozen ext reads w1 w2 :
  rtc kstep (mkKn PgKb.empty ext reads 0) w1 -> rtc kstep w1 w2 ->
  (forall pid x, project (kn_store w1) pid = Some x -> pr_ActiveVersionID x <> "" ->
     exists v, version (kn_store w1) (pr_ActiveVersionID x) = Some v /\ reviewed (vr_Status v)) /\
  forall id v, version (kn_store w1) id = Some v ->
    (exists v', version (kn_store w2) id = Some v' /\ vr_ProjectID v' = vr_ProjectID v /\
       vr_VersionNumber v' = vr_VersionNumber v /\ rtc move (vr_Status v) (vr_Status v')) /\
    (vr_Status v <> VersionDraft -> content (kn_store w2) id = content (kn_store w1) id).
Proof.
  intros H1 H2. destruct (ksteps_keep _ _ H1 empty_inv) as [Hi1 _].
  destruct (ksteps_keep _ _ H2 Hi1) as [_ Hrel]. split; [apply (ki_active _ _ Hi1)|exact Hrel].
Qed.
End Lifecycle.

Definition life_env : KnEnv := mkKnEnv (fun n => Z.of_nat n) (fun n => ("u" ++ itoa n)%string) false false
  [] (fun _ _ => None) (fun _ _ => inr []) (fun _ _ => None) (fun _ l => l) (fun _ => None).

Lemma life_uuids : uuids_distinct life_env.
Proof. split; [|done]. intros i j [= E]. by apply (inj pretty). Qed.

Definition new_project : Project :=
  mkProject "" "t1" "Skyline" "Haryana" "Gurugram" "" "RERA-1" "b1" "s1" "" time_zero time_zero.
Definition new_version : KbVersion :=
  mkVersion "" "" 0 "" "" "" "" "" time_zero time_zero.
Definition new_fact (id text : string) : Fact := mkFact id "" text [] [] time_zero.

(** A project, a version with one fact, submitted. *)
Definition submitted_run : list kn_op :=
  [OpCreateProject (Some new_project); OpCreateVersion "u0" (Some new_version);
   OpAddFact "u1" (Some (new_fact "" "3 BHK from 90 lakh")); OpSubmit "u1" (Some "alice")].
(** Attempts to change it, approval and publication. *)
Definition publish_run : list kn_op :=
  [OpAddFact "u1" (Some (new_fact "" "3 BHK from 80 lakh")); OpApprove "u1" (Some "bob");
   OpPublish "u1" (Some "bob")].

Definition submitted : Kn PgKb.t :=
  foldl (kn_step life_env) (mkKn PgKb.empty [] 0 0) submitted_run.
Definition published : Kn PgKb.t := foldl (kn_step life_env) submitted publish_run.

Lemma submitted_versions_are_frozen_witness :
  rtc (kstep life_env) (mkKn PgKb.empty [] 0 0) submitted /\ rtc (kstep life_env) submitted published /\
  content (kn_store published) "u1" = content (kn_store submitted) "u1" /\
  (vr_Status <$> version (kn_store published) "u1") = Some VersionPublished.
Proof.
  assert (H1 : rtc (kstep life_env) (mkKn PgKb.empty [] 0 0) submitted).
  { apply ksteps_run. intros p. repeat constructor. }
  assert (H2 : rtc (kstep life_env) submitted published).
  { apply ksteps_run. intros p. repeat constructor. }
  split; [exact H1|]. split; [exact H2|].
  destruct (submitted_versions_are_frozen life_env life_uuids [] 0 submitted published H1 H2)
    as [_ Hfrozen].
  assert (E : exists v, version (kn_store submitted) "u1" = Some v /\ vr_Status v = VersionPendingApproval).
  { eexists. split; vm_compute; reflexivity. }
  destruct E as (v & Ev & Es). split; [|vm_compute; reflexivity].
  apply (Hfrozen "u1" v Ev). by rewrite Es.
Defined.

(** ** Requests that are not honest *)

Section Bypass.
Context (env : KnEnv).
Abbreviation W := (Kn PgKb.t).

Definition same_store (w w' : W) : Prop := kn_store w' = kn_store w.

#[local] Instance same_store_pre : PreOrder same_store.
Proof. split; unfold same_store; [done|]. intros w1 w2 w3 -> ->. done. Qed.

Lemma ss_call {A} c (f : ext_log -> string + A) : keeps same_store (call (T:=PgKb.t) c f).
Proof. by intros w. Qed.
Lemma ss_call_err c f : keeps same_store (call_err (T:=PgKb.t) c f).
Proof. by intros w. Qed.
Lemma ss_embed t : keeps same_store (embed (T:=PgKb.t) env t).
Proof. by intros w. Qed.
Lemma ss_rd {A} (f : PgKb.t -> result A) : keeps same_store (rd f).
Proof. by intros w. Qed.
#[local] Hint Resolve same_store_pre ss_call ss_call_err ss_embed ss_rd : keeps.

Lemma ss_embed_all t p id cs : keeps same_store (embed_all (T:=PgKb.t) env t p id cs).
Proof. induction cs as [|[[i k] x] cs IH]; simpl; keeps_tac. Qed.
Lemma ss_upserts n c ps : keeps same_store (upsert_batches (T:=PgKb.t) env n c ps).
Proof. revert ps. induction n as [|n IH]; intros ps; simpl; keeps_tac. Qed.
#[local] Hint Resolve ss_embed_all ss_upserts : keeps.

Lemma index_store t p id : keeps same_store (IndexVersion env t p id).
Proof. unfold IndexVersion. keeps_tac. Qed.

(** The effect of the store calls when the database answers. *)
Lemma put_up {A B} (set : kv A -> PgKb.t -> PgKb.t) c k (a : A) (b : B) p :
  kv_up c = true -> PgKb.put set c k a b p = (set (mkKv (rows_put k a (kv_rows c)) true) p, Ok b).
Proof. intros Hup. unfold PgKb.put, kv_set, kv_put. by rewrite Hup. Qed.

Lemma get_version_up p id v :
  kv_up (PgKb.kb_versions p) = true -> version p id = Some v -> PgKb.getKbVersion p id = Ok v.
Proof. unfold PgKb.getKbVersion, kv_get, version. by intros -> ->. Qed.

Lemma get_project_up p id x :
  kv_up (PgKb.projects p) = true -> project p id = Some x -> PgKb.getProject p id = Ok x.
Proof. unfold PgKb.getProject, kv_get, project. by intros -> ->. Qed.

(** Publishing an approved version of an existing project succeeds. *)
Lemma publish_succeeds (w : W) id v x actor :
  let p := kn_store w in
  kv_up (PgKb.projects p) = true -> kv_up (PgKb.kb_versions p) = true ->
  kv_up (PgKb.approval_events p) = true ->
  version p id = Some v -> vr_Status v = VersionApproved -> project p (vr_ProjectID v) = Some x ->
  exists w' e, Publish_version env id actor w = (w', inr tt) /\
    project (kn_store w') (vr_ProjectID v)
      = Some (set_project_active id (e_now env (kn_reads w)) x) /\
    ap_Action e = "published" /\
    kv_rows (PgKb.approval_events (kn_store w'))
      = rows_put (ap_ID e) e (kv_rows (PgKb.approval_events p)).
Proof.
  intros p Hup1 Hup2 Hup3 Hv Hs Hx. unfold p in *. unfold Publish_version.
  erewrite bind_step by (unfold rd; cbn [GetKbVersion pg_kb_store];
    rewrite (get_version_up _ _ _ Hup2 Hv); reflexivity).
  erewrite bind_step by (unfold ensure, eqs; rewrite bool_decide_true by done; reflexivity).
  erewrite bind_step by (unfold rd; cbn [GetProject pg_kb_store];
    rewrite (get_project_up _ _ _ Hup1 Hx); reflexivity).
  erewrite bind_step by (unfold st; cbn [SetActiveVersion pg_kb_store];
    unfold PgKb.setActiveVersion; rewrite (get_project_up _ _ _ Hup1 Hx), put_up by done; reflexivity).
  erewrite bind_step by (unfold st; cbn [UpdateKbVersionStatus pg_kb_store kn_store];
    unfold PgKb.updateKbVersionStatus; rewrite (get_version_up _ _ v), put_up by done; reflexivity).
  erewrite bind_step by (unfold approval; erewrite bind_step by (unfold st;
    cbn [RecordApprovalEvent pg_kb_store kn_store]; unfold PgKb.recordApprovalEvent;
    rewrite put_up by done; reflexivity); reflexivity).
  cbn [kn_store kn_ext kn_reads kn_ids].
  match goal with |- context [mkKn ?s ?e ?r ?i] => set (w1 := mkKn s e r i) end.
  assert (Hw : exists w', (if e_vector env
      then let! _ := try (IndexVersion env (pr_TenantID x) (pr_ID x) id) in ret tt
      else ret tt) w1 = (w', inr tt) /\ kn_store w' = kn_store w1).
  { destruct (e_vector env); [|by exists w1].
    pose proof (index_store (pr_TenantID x) (pr_ID x) id w1) as Hi. unfold bind, try.
    destruct (IndexVersion _ _ _ _ w1) as [w' r]. by exists w'. }
  destruct Hw as (w' & -> & Hst). exists w'. eexists. split; [done|]. rewrite Hst. unfold w1.
  split; [|split; [|reflexivity]; reflexivity].
  unfold project. simpl. by rewrite rows_get_put_eq.
Qed.

Definition version_with (status : string) : KbVersion :=
  mkVersion "" "" 0 status "" "" "" "" time_zero time_zero.

(** The status of a new version is taken from the request: a version
    created as approved is published at once and becomes the version the project
    serves, and the approval history has no approval of it. *)
Theorem unreviewed_version_is_served (w : W) pid x actor :
  let p := kn_store w in
  kv_up (PgKb.projects p) = true -> kv_up (PgKb.kb_versions p) = true ->
  kv_up (PgKb.approval_events p) = true -> project p pid = Some x ->
  exists w1 v w2 y,
    createKbVersion env pid (Some (version_with VersionApproved)) w = (w1, (201, Some v)) /\
    publishVersion env (vr_ID v) actor w1 = (w2, (200, Some tt)) /\
    project (kn_store w2) pid = Some y /\ pr_ActiveVersionID y = vr_ID v /\
    forall e, e ∈ (kv_rows (PgKb.approval_events (kn_store w2))).*2 ->
      e ∈ (kv_rows (PgKb.approval_events p)).*2 \/ ap_Action e = "published".
Proof.
  intros p Hup1 Hup2 Hup3 Hx. unfold p in *.
  unfold createKbVersion, decoded, respond, st. cbn [CreateKbVersion pg_kb_store].
  unfold PgKb.createKbVersion, PgKb.listKbVersions, PgKb.listed, kv_list. rewrite Hup2.
  rewrite put_up by done. simpl of_result.
  match goal with |- context [@inr string _ ?x] => set (v := x) end.
  match goal with |- context [mkKn ?s ?e ?r ?i] => set (w1 := mkKn s e r i) end.
  destruct (publish_succeeds w1 (vr_ID v) v x (default "" actor)) as (w2 & e & Hrun & Hp & He & Hev);
    try done.
  { unfold w1. simpl. by rewrite version_put, decide_True. }
  exists w1, v, w2. eexists. split; [done|]. unfold publishVersion, respond. rewrite Hrun.
  split; [done|]. split; [exact Hp|]. split; [done|].
  rewrite Hev. intros e' Hin. apply list_elem_of_fmap in Hin as ([k e0] & -> & Hin).
  apply rows_put_elem in Hin as [[= _ ->]|Hin]; [by right|left].
  by apply (list_elem_of_fmap_2 snd).
Qed.

Lemma part_take {A} (vid : A -> string) ver k v v0 l up up' :
  rows_get k l = Some v0 -> vid v0 = ver -> vid v <> ver ->
  S (length (part vid ver (mkKv (rows_put k v l) up))) = length (part vid ver (mkKv l up')).
Proof.
  intros Hg H0 Hv. destruct (rows_put_split k v v0 l Hg) as (l1 & l2 & -> & E). unfold part. simpl.
  rewrite E, !fmap_app, !List.filter_app, !length_app. csimpl. unfold eqs.
  rewrite (bool_decide_true (vid v0 = ver)), (bool_decide_false (vid v = ver)) by done. simpl. lia.
Qed.

(** Ids are taken from the request too: a fact added to a draft under the
    id of a fact of a published version replaces it, and the published version
    has one fact less. *)
Theorem published_fact_can_be_taken (w : W) pub draft id f vp vd text :
  let p := kn_store w in
  kv_up (PgKb.facts p) = true -> kv_up (PgKb.kb_versions p) = true -> pub <> draft -> id <> "" ->
  version p pub = Some vp -> vr_Status vp = VersionPublished ->
  version p draft = Some vd -> vr_Status vd = VersionDraft ->
  rows_get id (kv_rows (PgKb.facts p)) = Some f -> fc_VersionID f = pub ->
  exists w' g, addFact env draft (Some (new_fact id text)) w = (w', (201, Some g)) /\
    S (length (part fc_VersionID pub (PgKb.facts (kn_store w'))))
    = length (part fc_VersionID pub (PgKb.facts p)).
Proof.
  intros p Hup1 Hup2 Hne Hid Hvp Hsp Hvd Hsd Hf Hfp. unfold p in *.
  unfold addFact, decoded, respond, st. cbn [AddFact pg_kb_store].
  unfold PgKb.addFact, PgKb.requireDraftVersion. simpl fc_VersionID.
  rewrite (get_version_up _ _ _ Hup2 Hvd). unfold eqs at 1. rewrite bool_decide_true by done.
  rewrite put_up by done. simpl of_result. eexists _, _. split; [reflexivity|].
  simpl kn_store. unfold or_new. simpl fc_ID.
  assert (is_empty id = false) as -> by (by destruct id).
  destruct (PgKb.facts (kn_store w)) as [rows up]. by eapply part_take.
Qed.
End Bypass.

Lemma unreviewed_version_is_served_witness :
  exists w1 v w2 y,
    createKbVersion life_env "u0" (Some (version_with VersionApproved)) submitted
      = (w1, (201, Some v)) /\
    publishVersion life_env (vr_ID v) None w1 = (w2, (200, Some tt)) /\
    project (kn_store w2) "u0" = Some y /\ pr_ActiveVersionID y = vr_ID v.
Proof.
  destruct (project (kn_store submitted) "u0") as [x|] eqn:Ex; [|vm_compute in Ex; discriminate Ex].
  destruct (unreviewed_version_is_served life_env submitted "u0" x None)
    as (w1 & v & w2 & y & H1 & H2 & H3 & H4 & _); [vm_compute; reflexivity..|exact Ex|].
  exists w1, v, w2, y. split; [exact H1|]. split; [exact H2|]. split; [exact H3|exact H4].
Defined.

(** A second, draft version beside the published one. *)
Definition with_draft : Kn PgKb.t :=
  kn_step life_env published (OpCreateVersion "u0" (Some new_version)).

Lemma published_fact_can_be_taken_witness :
  exists w' g, addFact life_env "u11" (Some (new_fact "u2" "no parking")) with_draft
      = (w', (201, Some g)) /\
    length (part fc_VersionID "u1" (PgKb.facts (kn_store w'))) = 0%nat.
Proof.
  destruct (version (kn_store with_draft) "u1") as [vp|] eqn:Ep; [|vm_compute in Ep; discriminate Ep].
  destruct (version (kn_store with_draft) "u11") as [vd|] eqn:Ed; [|vm_compute in Ed; discriminate Ed].
  destruct (rows_get "u2" (kv_rows (PgKb.facts (kn_store with_draft)))) as [f|] eqn:Ef;
    [|vm_compute in Ef; discriminate Ef].
  destruct (published_fact_can_be_taken life_env with_draft "u1" "u11" "u2" f vp vd "no parking")
    as (w' & g & H1 & H2).
  - vm_compute. reflexivity.
  - vm_compute. reflexivity.
  - discriminate.
  - discriminate.
  - exact Ep.
  - vm_compute in Ep. injection Ep as <-. reflexivity.
  - exact Ed.
  - vm_compute in Ed. injection Ed as <-. reflexivity.
  - exact Ef.
  - vm_compute in Ef. injection Ef as <-. reflexivity.
  - exists w', g. split; [exact H1|].
    assert (Hl : length (part fc_VersionID "u1" (PgKb.facts (kn_store with_draft))) = 1%nat)
      by (vm_compute; reflexivity).
    rewrite Hl in H2. apply Nat.succ_inj in H2. exact H2.
Defined.

(** ** Retrieval without the vector database *)

Section Retrieval.
Context (env : KnEnv).
Abbreviation W := (Kn PgKb.t).

Definition no_embeddings (p : PgKb.t) : Prop :=
  Forall (fun r => fc_Embedding r.2 = []) (kv_rows (PgKb.facts p)) /\
  Forall (fun r => fq_Embedding r.2 = []) (kv_rows (PgKb.faqs p)).

Definition R_emb (w w' : W) : Prop := no_embeddings (kn_store w) -> no_embeddings (kn_store w').

#[local] Instance R_emb_pre : PreOrder R_emb.
Proof. split; [by intros w H|]. intros w1 w2 w3 H12 H23 H1. by apply H23, H12. Qed.

Lemma emb_st {A} (f : PgKb.t -> Z -> string -> PgKb.t * result A) :
  (forall s n u, no_embeddings s -> no_embeddings (f s n u).1) -> keeps R_emb (st env f).
Proof.
  intros Hf w Hw. unfold st.
  specialize (Hf _ (e_now env (kn_reads w)) (e_uuid env (kn_ids w)) Hw). by destruct (f _ _ _).
Qed.

Lemma emb_put {A B} (set : kv A -> PgKb.t -> PgKb.t) c k (a : A) (b : B) p :
  (forall c', PgKb.facts (set c' p) = PgKb.facts p /\ PgKb.faqs (set c' p) = PgKb.faqs p) ->
  no_embeddings p -> no_embeddings (PgKb.put set c k a b p).1.
Proof.
  intros Hs Hp. unfold no_embeddings. destruct (put_cases set c k a b p) as [[e ->]| ->]; simpl;
    destruct (Hs c) as [E1 E2]; destruct (Hs (mkKv (rows_put k a (kv_rows c)) true)) as [E3 E4];
    rewrite ?E1, ?E2, ?E3, ?E4; done.
Qed.

Lemma emb_add_fact x s n u : no_embeddings s -> no_embeddings (PgKb.addFact s n u x).1.
Proof.
  intros [H1 H2]. unfold PgKb.addFact. destruct (PgKb.requireDraftVersion _ _); [|done].
  match goal with |- context [PgKb.put ?set ?c ?k ?a ?b ?p] =>
    destruct (put_cases set c k a b p) as [[e ->]| ->] end; split; simpl; try done.
  by apply rows_put_Forall.
Qed.

Lemma emb_add_faq x s n u : no_embeddings s -> no_embeddings (PgKb.addFAQ s n u x).1.
Proof.
  intros [H1 H2]. unfold PgKb.addFAQ. destruct (PgKb.requireDraftVersion _ _); [|done].
  match goal with |- context [PgKb.put ?set ?c ?k ?a ?b ?p] =>
    destruct (put_cases set c k a b p) as [[e ->]| ->] end; split; simpl; try done.
  by apply rows_put_Forall.
Qed.

(** Every other write goes to another collection. *)
Ltac other_collection :=
  intros; simpl; unfold PgKb.createProject, PgKb.updateProject, PgKb.createKbVersion,
    PgKb.updateKbVersionStatus, PgKb.setActiveVersion, PgKb.addAsset, PgKb.addInventory,
    PgKb.addOffer, PgKb.addDisclaimer, PgKb.recordApprovalEvent, PgKb.addPronunciation,
    PgKb.saveClaim, PgKb.recordClaimViolation;
  repeat case_match; try done; by apply emb_put.

Lemma emb_rd {A} (f : PgKb.t -> result A) : keeps R_emb (rd f).
Proof. by intros w Hw. Qed.
Lemma emb_rd_opt {A} (f : PgKb.t -> result A) : keeps R_emb (rd_opt f).
Proof. by intros w Hw. Qed.
Lemma emb_call {A} c (f : ext_log -> string + A) : keeps R_emb (call c f).
Proof. by intros w Hw. Qed.
Lemma emb_call_err c f : keeps R_emb (call_err c f).
Proof. by intros w Hw. Qed.
Lemma emb_embed t : keeps R_emb (embed env t).
Proof. by intros w Hw. Qed.
Lemma emb_now : keeps R_emb (now env).
Proof. by intros w Hw. Qed.
Lemma emb_index t p id : keeps R_emb (IndexVersion env t p id).
Proof. intros w Hw. by rewrite (index_store env t p id w). Qed.
#[local] Hint Resolve R_emb_pre emb_rd emb_rd_opt emb_call emb_call_err emb_embed emb_now emb_index
  : keeps.

Lemma emb_default_claims l : keeps R_emb (default_claims env l).
Proof. induction l as [|[[[i t] p] y] l IH]; simpl; keeps_tac. Qed.
Lemma emb_lexical t l : keeps R_emb (lexical_block env t l).
Proof. induction l as [|c l IH]; simpl; unfold isActive; keeps_tac. Qed.
Lemma emb_semantic l : keeps R_emb (semanticClaims env l).
Proof. induction l as [|c l IH]; simpl; unfold isActive; keeps_tac. Qed.
Lemma emb_allowed t l : keeps R_emb (allowedClaimTypes env t l).
Proof. induction l as [|c l IH]; simpl; unfold isActive; keeps_tac. Qed.
#[local] Hint Resolve emb_default_claims emb_lexical emb_semantic emb_allowed : keeps.

Lemma emb_respond {A} (m : M W string A) ok err w :
  keeps R_emb m -> R_emb w (respond m ok err w).1.
Proof. intros Hm. specialize (Hm w). unfold respond. by destruct (m w). Qed.

Lemma emb_step w op : R_emb w (kn_step env w op).
Proof.
  destruct op as [b|id b|p b|v b|v b|v b|v b|v b|v b|v a|v a|v a|v a|p b|p b|i a|b|b];
    simpl; try destruct b as [x|]; try reflexivity;
    unfold createProject, updateProject, createKbVersion, addFact, addFAQ, addAsset, addInventory,
      addOffer, addDisclaimer, submitForApproval, approveVersion, rejectVersion, publishVersion,
      retrieveKb, addClaim, approveClaim, checkClaimControl, addPronunciation, decoded;
    try (destruct x as [[q e] k]; destruct (_ && _)); try destruct a as [[]|];
    apply emb_respond; unfold SubmitForApproval, Approve, Reject, Publish_version, approval, Check,
      activeClaims, defaultClaims, matchHardBlocks, block, retrieveViaQdrant, ApproveClaim,
      SaveClaim_service, indexSemanticClaim; keeps_tac;
    apply emb_st; first [by intros; apply emb_add_fact | by intros; apply emb_add_faq
                        | other_collection].
Qed.

Lemma cosine_nil q : cosine q [] = f_zero.
Proof. unfold cosine. destruct q; done. Qed.

(** The scan that retrieval falls back to ranks nothing: embeddings are not
    part of the stored form of a fact or FAQ, so in every state that requests
    reach, every chunk it returns has score zero, whatever the query. *)
Theorem fallback_retrieval_has_no_scores ext reads ops pid query topK r :
  RetrieveKb (kn_store (foldl (kn_step env) (mkKn PgKb.empty ext reads 0) ops)) pid query topK
    = Ok r ->
  Forall (fun c => rc_Score c = f_zero) (rr_Chunks r).
Proof.
  set (w := foldl _ _ _). assert (Hw : no_embeddings (kn_store w)).
  { unfold w. generalize (mkKn PgKb.empty ext reads 0) (conj (Forall_nil_2 _) (Forall_nil_2 _)
      : no_embeddings (kn_store (mkKn PgKb.empty ext reads 0))).
    induction ops as [|op ops IH]; intros w0 H0; [done|]. simpl. apply IH. by apply emb_step. }
  clearbody w. destruct Hw as [H1 H2]. cbn [RetrieveKb pg_kb_store]. unfold PgKb.retrieveKb.
  destruct (PgKb.getProject _ _) as [x|]; [|done]. destruct (is_empty _); [by intros [= <-]|].
  unfold kv_list. destruct (kv_up _); [|done]. destruct (kv_up _); [|done]. intros [= <-].
  unfold best_chunks. simpl. match goal with |- context [sort_by higher ?l] => set (cs := l) end.
  assert (Hcs : Forall (fun c => rc_Score c = f_zero) (sort_by higher cs)).
  { apply Forall_forall. intros c. rewrite elem_of_sort_by. unfold cs.
    pose proof (proj1 (Forall_forall _ _) H1) as H1'. pose proof (proj1 (Forall_forall _ _) H2) as H2'.
    intros [Hc|Hc]%elem_of_app; apply list_elem_of_fmap in Hc as (f & -> & Hf); simpl;
      apply list_elem_of_In, List.filter_In in Hf as [Hf _]; apply list_elem_of_In in Hf;
      apply list_elem_of_fmap in Hf as ([k y] & -> & Hk).
    - by rewrite (H1' _ Hk), cosine_nil.
    - by rewrite (H2' _ Hk), cosine_nil. }
  destruct (_ && _); [by apply Forall_take|done].
Qed.
End Retrieval.

Definition f_one : float32 := f32_of_f64 (f_of_int 1).

Lemma fallback_retrieval_has_no_scores_witness :
  exists r, RetrieveKb (kn_store (foldl (kn_step life_env) (mkKn PgKb.empty [] 0 0)
      (submitted_run ++ publish_run))) "u0" [f_one] 8 = Ok r /\ length (rr_Chunks r) = 1%nat /\
    Forall (fun c => rc_Score c = f_zero) (rr_Chunks r).
Proof.
  eexists. split; [vm_compute; reflexivity|]. split; [reflexivity|].
  apply (fallback_retrieval_has_no_scores life_env [] 0 (submitted_run ++ publish_run) "u0"
    [f_one] 8). vm_compute. reflexivity.
Defined.
