(* ===== verification/Vectors.v ===== *)
(** * knowledge: embedding providers and the Qdrant client

    [internal/embed] (embed.go, gemini.go, openai.go, hf.go) and
    [internal/vector/qdrant.go], over an HTTP transport.  JSON is a record of
    functions; the bodies of requests are their Go values.  Qdrant is a class of
    transports with the behaviour of its REST interface as laws, against which the
    client is shown to implement an index of points. *)

From S2P Require Import Prelude GoMonad GoStrings Float64 Knowledge KnowledgeService.

Open Scope Z_scope.

(** ** HTTP *)

Inductive body :=
| GeminiBody (model text : string) (dim : Z)
| OpenAIBody (text model : string) (dim : Z)
| HfBody (text : string)
| CreateBody (size : Z) (distance : string)
| IndexBody (field schema : string)
| PointsBody (points : list Point)
| DeleteBody (filter : list (string * string))
| SearchBody (vec : list float32) (limit : Z) (filter : list (string * string)).

Record http_req := mkReq { hq_method : string; hq_url : string; hq_headers : list (string * string); hq_body : option body }.

(** [R] are the bodies of answers. *)
Record http_resp (R : Type) := mkResp { hr_status : Z; hr_raw : R }.
Arguments mkResp {R}.
Arguments hr_status {R} h.
Arguments hr_raw {R} h.

(** A request is answered, or fails with an error. *)
Class Web (R N : Type) := http_do : N -> http_req -> N * (string + http_resp R).

(** [cd_text] is the text of a body; [cd_marshal] a value that JSON cannot express;
    [cd_url] what is wrong with a URL; the others decode an answer. *)
Record Codec (R : Type) := mkCodec {
  cd_text : R -> string;
  cd_marshal : body -> error;
  cd_url : string -> error;
  cd_gemini : R -> string + list float32;
  cd_openai : R -> string + list (list float32);
  cd_flat : R -> string + list float32;
  cd_nested : R -> string + list (list float32);
  cd_status : R -> string + string;
  cd_hits : R -> string + list SearchHit
}.
Arguments mkCodec {R}.
Arguments cd_text {R} c.
Arguments cd_marshal {R} c.
Arguments cd_url {R} c.
Arguments cd_gemini {R} c.
Arguments cd_openai {R} c.
Arguments cd_flat {R} c.
Arguments cd_nested {R} c.
Arguments cd_status {R} c.
Arguments cd_hits {R} c.

Definition ok_status (code : Z) : bool := (200 <=? code) && (code <? 300).

(** *** Embedding providers *)

Inductive backend := Gemini | OpenAI | HuggingFace.

#[export] Instance backend_eq_dec : EqDecision backend.
Proof. solve_decision. Defined.

Definition backend_key (b : backend) : string :=
  match b with Gemini => "gemini" | OpenAI => "openai" | HuggingFace => "hf" end.

Record provider := mkProvider { pv_backend : backend; pv_apiKey : string; pv_model : string; pv_dim : Z }.

Definition pv_Name (p : provider) : string := (backend_key (pv_backend p) ++ "-" ++ pv_model p)%string.

(** The environment of the process; a variable that is not set is empty. *)
Section FromEnv.
Context (getenv : string -> string).

Definition dimFromEnv (envKey : string) (fallback : Z) : Z :=
  let v := getenv envKey in
  if is_empty v then fallback
  else match atoi v with Some n => if 0 <? n then n else fallback | None => fallback end.

Definition model_or (envKey fallback : string) : string := or_new (getenv envKey) fallback.

Definition NewGemini (apiKey : string) : provider :=
  mkProvider Gemini apiKey (model_or "GEMINI_EMBED_MODEL" "gemini-embedding-001") (dimFromEnv "GEMINI_EMBED_DIM" 768).
Definition NewOpenAI (apiKey : string) : provider :=
  mkProvider OpenAI apiKey (model_or "OPENAI_EMBED_MODEL" "text-embedding-3-small") (dimFromEnv "OPENAI_EMBED_DIM" 768).
Definition NewHuggingFace (apiKey : string) : provider :=
  mkProvider HuggingFace apiKey (model_or "HUGGINGFACE_EMBED_MODEL" "BAAI/bge-base-en-v1.5") (dimFromEnv "HUGGINGFACE_EMBED_DIM" 768).

Definition new_provider (b : backend) (apiKey : string) : provider :=
  match b with Gemini => NewGemini apiKey | OpenAI => NewOpenAI apiKey | HuggingFace => NewHuggingFace apiKey end.

Definition key_variable (b : backend) : string :=
  match b with Gemini => "GOOGLE_GEMINI_API_KEY" | OpenAI => "OPENAI_API_KEY" | HuggingFace => "HUGGINGFACE_TOKEN" end.

(** The entry of the map [providers] under a name. *)
Definition configured (b : backend) : option provider :=
  let key := trim_space (getenv (key_variable b)) in
  if is_empty key then None else Some (new_provider b key).

Definition backends : list backend := [Gemini; OpenAI; HuggingFace].

Record Chain := mkChain { ch_primary : provider; ch_fallbacks : list provider; ch_primaryDim : Z }.

Definition chain_Name (c : Chain) : string :=
  ("chain[" ++ join ">" (pv_Name <$> (ch_primary c :: ch_fallbacks c)) ++ "]")%string.

Definition named (name : string) : option backend := List.find (fun b => bool_decide (backend_key b = name)) backends.

Definition FromEnv : string + Chain :=
  let choice := to_lower (trim_space (getenv "EMBEDDING_BACKEND")) in
  if forallb (fun b => negb (bool_decide (is_Some (configured b)))) backends
  then inl "no embedding provider configured: set GOOGLE_GEMINI_API_KEY, OPENAI_API_KEY, or HUGGINGFACE_TOKEN"%string
  else
    let chosen := if is_empty choice then List.find (fun b => bool_decide (is_Some (configured b))) backends else named choice in
    match chosen ≫= (fun b => p ← configured b; Some (b, p)) with
    | None => inl ("EMBEDDING_BACKEND=" ++ quote choice ++ " but no credentials for that backend")%string
    | Some (b, primary) =>
        let fallbacks := omap (fun b' => if bool_decide (b' = b) then None
                                         else p ← configured b'; if pv_dim p =? pv_dim primary then Some p else None) backends in
        inr (mkChain primary fallbacks (pv_dim primary))
    end.
End FromEnv.

Section Clients.
Context {R N : Type} `{!Web R N} (cd : Codec R).

(** [http.NewRequestWithContext], [http.Client.Do], and an answer with a status of
    success, read with [decode]; [what] is in the errors. *)
Definition answered {X} (what : string) (decode : R -> string + X) (rq : http_req) (n : N) : N * (string + X) :=
  match cd_url cd (hq_url rq) with
  | Some e => (n, inl e)
  | None =>
      let '(n, a) := http_do n rq in
      (n, match a with
          | inl e => inl (what ++ ": " ++ e)%string
          | inr resp =>
              if negb (ok_status (hr_status resp))
              then inl (what ++ " status=" ++ fmt_z (hr_status resp) ++ " body=" ++ cd_text cd (hr_raw resp))%string
              else decode (hr_raw resp)
          end)
  end.

Definition json_header : string * string := ("Content-Type", "application/json")%string.
Definition bearer (key : string) : string * string := ("Authorization"%string, ("Bearer " ++ key)%string).

Definition gemini_request (p : provider) (text : string) : http_req :=
  mkReq "POST" ("https://generativelanguage.googleapis.com/v1beta/models/" ++ pv_model p ++ ":embedContent?key=" ++ pv_apiKey p)
    [json_header] (Some (GeminiBody ("models/" ++ pv_model p) text (pv_dim p))).

Definition gemini_Embed (p : provider) (text : string) (n : N) : N * (string + list float32) :=
  answered "gemini embed" (fun raw =>
    match cd_gemini cd raw with
    | inl e => inl ("gemini decode: " ++ e ++ " body=" ++ cd_text cd raw)%string
    | inr [] => inl ("gemini empty embedding body=" ++ cd_text cd raw)%string
    | inr values => inr values
    end) (gemini_request p text) n.

Definition openai_request (p : provider) (text : string) : http_req :=
  mkReq "POST" "https://api.openai.com/v1/embeddings" [json_header; bearer (pv_apiKey p)] (Some (OpenAIBody text (pv_model p) (pv_dim p))).

Definition openai_Embed (p : provider) (text : string) (n : N) : N * (string + list float32) :=
  answered "openai embed" (fun raw =>
    match cd_openai cd raw with
    | inl e => inl ("openai decode: " ++ e ++ " body=" ++ cd_text cd raw)%string
    | inr ((x :: v) :: _) => inr (x :: v)
    | inr _ => inl ("openai empty embedding body=" ++ cd_text cd raw)%string
    end) (openai_request p text) n.

Definition hf_request (p : provider) (text : string) : http_req :=
  mkReq "POST" ("https://api-inference.huggingface.co/pipeline/feature-extraction/" ++ pv_model p) [json_header; bearer (pv_apiKey p)]
    (Some (HfBody text)).

Definition hf_Embed (p : provider) (text : string) (n : N) : N * (string + list float32) :=
  answered "hf embed" (fun raw =>
    match cd_flat cd raw with
    | inr (x :: v) => inr (x :: v)
    | _ => match cd_nested cd raw with
           | inr ((x :: v) :: _) => inr (x :: v)
           | _ => inl ("hf unexpected embed payload: " ++ cd_text cd raw)%string
           end
    end) (hf_request p text) n.

Definition Embed (p : provider) : string -> N -> N * (string + list float32) :=
  match pv_backend p with Gemini => gemini_Embed p | OpenAI => openai_Embed p | HuggingFace => hf_Embed p end.

(** The fallbacks of [Chain.Embed]. *)
Fixpoint embed_fallbacks (lastErr : string) (ps : list provider) (text : string) (n : N) : N * (string + list float32) :=
  match ps with
  | [] => (n, inl lastErr)
  | p :: ps =>
      let '(n, r) := Embed p text n in
      match r with
      | inr v => (n, inr v)
      | inl e => embed_fallbacks (lastErr ++ "; fallback " ++ pv_Name p ++ ": " ++ e) ps text n
      end
  end.

Definition chain_Embed (c : Chain) (text : string) (n : N) : N * (string + list float32) :=
  let '(n, r) := Embed (ch_primary c) text n in
  match r with
  | inr v => (n, inr v)
  | inl e => embed_fallbacks ("primary " ++ pv_Name (ch_primary c) ++ ": " ++ e) (ch_fallbacks c) text n
  end.

(** *** Qdrant *)

Record Client := mkClient { cl_baseURL : string; cl_apiKey : string }.

Definition New (url apiKey : string) : Client := mkClient (trim_right_slash url) apiKey.

Definition headers (c : Client) : list (string * string) :=
  json_header :: (if is_empty (cl_apiKey c) then [] else [("api-key"%string, cl_apiKey c)]).

Definition request (c : Client) (method path : string) (b : option body) : http_req :=
  mkReq method (cl_baseURL c ++ path) (headers c) b.

(** [do]: [decode] reads the answer into [out]; an answer without a body leaves
    [zero]. *)
Definition do_ {X} (c : Client) (method path : string) (b : option body) (zero : X) (decode : R -> string + X) (n : N)
    : N * (string + X) :=
  match b ≫= cd_marshal cd with
  | Some e => (n, inl ("qdrant marshal: " ++ e)%string)
  | None =>
      answered ("qdrant " ++ method ++ " " ++ path) (fun raw =>
        if is_empty (cd_text cd raw) then inr zero
        else match decode raw with
             | inl e => inl ("qdrant decode: " ++ e ++ " body=" ++ cd_text cd raw)%string
             | inr x => inr x
             end) (request c method path b) n
  end.

(** [do] with no [out]. *)
Definition exec (c : Client) (method path : string) (b : option body) (n : N) : N * error :=
  let '(n, r) := do_ c method path b tt (fun _ => inr tt) n in
  (n, match r with inl e => Some e | inr _ => None end).

Definition Healthy (c : Client) (n : N) : N * error := exec c "GET" "/collections" None n.

Definition collection_path (name : string) : string := ("/collections/" ++ name)%string.

Definition index_fields : list string := ["project_id"; "kb_version_id"; "source_type"; "tenant_id"]%string.

Definition EnsureCollection (c : Client) (name : string) (dim : Z) (n : N) : N * error :=
  let '(n, r) := do_ c "GET" (collection_path name) None ""%string (cd_status cd) n in
  match r with
  | inr _ => (n, None)
  | inl _ =>
      let '(n, e) := exec c "PUT" (collection_path name) (Some (CreateBody dim "Cosine")) n in
      match e with
      | Some e => (n, Some ("create collection " ++ name ++ ": " ++ e)%string)
      | None =>
          (fold_left (fun n field => (exec c "PUT" (collection_path name ++ "/index?wait=true") (Some (IndexBody field "keyword")) n).1)
             index_fields n, None)
      end
  end.

Definition Upsert (c : Client) (collection : string) (points : list Point) (n : N) : N * error :=
  match points with
  | [] => (n, None)
  | _ => exec c "PUT" (collection_path collection ++ "/points?wait=true") (Some (PointsBody points)) n
  end.

(** A filter is the list of its [MatchKeyword] clauses. *)
Definition DeleteByFilter (c : Client) (collection : string) (filter : list (string * string)) (n : N) : N * error :=
  exec c "POST" (collection_path collection ++ "/points/delete?wait=true") (Some (DeleteBody filter)) n.

Definition Search (c : Client) (collection : string) (vec : list float32) (topK : Z) (filter : list (string * string)) (n : N)
    : N * (string + list SearchHit) :=
  do_ c "POST" (collection_path collection ++ "/points/search") (Some (SearchBody vec topK filter)) [] (cd_hits cd) n.
End Clients.

(** ** The chain of providers *)

Section ChainFacts.
Context (getenv : string -> string).

Lemma configured_backend b q : configured getenv b = Some q -> pv_backend q = b.
Proof. unfold configured. destruct (is_empty _); [done|]. intros [= <-]. by destruct b. Qed.

Lemma in_backends b : b ∈ backends.
Proof. destruct b; [left|right; left|right; right; left]. Qed.

Lemma find_before {A} (f : A -> bool) x l1 l2 :
  List.find f (l1 ++ x :: l2) = Some x -> x ∉ l1 -> Forall (fun y => f y = false) l1.
Proof.
  induction l1 as [|y l1 IH]; [constructor|]. cbn. destruct (f y) eqn:Ey; [intros [= ->]; set_solver|].
  intros Hf [_ Hx]%not_elem_of_cons. constructor; auto.
Qed.

Lemma omap_sublist {A B} (f : A -> option B) (g : B -> A) l :
  (forall a b, f a = Some b -> g b = a) -> sublist (g <$> omap f l) l.
Proof.
  intros Hf. induction l as [|a l IH]; cbn; [constructor|]. destruct (f a) as [b|] eqn:E; [|by constructor].
  cbn. rewrite (Hf a b E). by constructor.
Qed.

(** The chain is what the environment configures: its first provider is the one
    asked for, or else the first that has a key; the others are those that have a
    key and the same dimension, in a fixed order; and all of them have the dimension
    of the chain. *)
Theorem chain_is_what_is_configured c :
  FromEnv getenv = inr c ->
  let choice := to_lower (trim_space (getenv "EMBEDDING_BACKEND")) in
  let p := ch_primary c in
  configured getenv (pv_backend p) = Some p /\ ch_primaryDim c = pv_dim p /\
  (choice <> ""%string -> backend_key (pv_backend p) = choice) /\
  (choice = ""%string -> forall l1 l2, backends = l1 ++ pv_backend p :: l2 -> Forall (fun b => configured getenv b = None) l1) /\
  (forall q, q ∈ ch_fallbacks c <-> configured getenv (pv_backend q) = Some q /\ pv_backend q <> pv_backend p /\ pv_dim q = pv_dim p) /\
  sublist (pv_backend <$> ch_fallbacks c) backends.
Proof.
  intros E choice p. unfold FromEnv in E. fold choice in E. destruct (forallb _ backends); [done|].
  destruct (_ ≫= _) as [[b primary]|] eqn:Ec; [|done].
  remember (omap _ backends) as fs eqn:Efs in E. injection E as <-. cbn in p. subst p.
  apply bind_Some in Ec as (b' & Hch & Hb). apply bind_Some in Hb as (q & Hq & [= -> ->]).
  pose proof (configured_backend b primary Hq) as Hb. cbn [ch_primaryDim ch_fallbacks]. rewrite Hb.
  assert (Hfb : forall b' q, (if bool_decide (b' = b) then None
      else p ← configured getenv b'; if pv_dim p =? pv_dim primary then Some p else None) = Some q ->
      configured getenv b' = Some q /\ pv_backend q = b' /\ b' <> b /\ pv_dim q = pv_dim primary).
  { intros b' q. case_bool_decide; [done|]. destruct (configured getenv b') as [p'|] eqn:Ep; cbn; [|done].
    destruct (Z.eqb_spec (pv_dim p') (pv_dim primary)); [|done]. intros [= <-]. split_and!; [done|by apply configured_backend|done|done]. }
  split_and!; [done|done|..].
  - intros Hne. rewrite (is_empty_false _ Hne) in Hch. unfold named in Hch. apply find_some in Hch as [_ Hch].
    by apply bool_decide_eq_true in Hch.
  - intros He l1 l2 El. rewrite He in Hch. cbn in Hch.
    change (List.find (fun b => bool_decide (is_Some (configured getenv b))) backends = Some b) in Hch. rewrite El in Hch.
    apply find_before in Hch; [|intros Hin; assert (Hn : NoDup backends) by (apply (bool_decide_unpack _); by vm_compute);
      rewrite El in Hn; apply NoDup_app in Hn as (_ & Hn & _); apply (Hn b Hin); by left].
    eapply Forall_impl; [exact Hch|]. cbn. intros x Hx%bool_decide_eq_false. by apply eq_None_not_Some.
  - intros q. rewrite Efs, list_elem_of_omap. split.
    + intros (b' & _ & (H1 & -> & H2 & H3)%Hfb). done.
    + intros (H1 & H2 & H3). exists (pv_backend q). split; [apply in_backends|]. rewrite bool_decide_false by done.
      rewrite H1. cbn. by rewrite (proj2 (Z.eqb_eq _ _)).
  - rewrite Efs. apply omap_sublist. intros a x Hx. by apply Hfb in Hx as (_ & ? & _).
Qed.
End ChainFacts.

(** ** Embedding *)

(** A transport that records what it sends. *)
Class WebLog (R N : Type) `{!Web R N} := {
  posted : N -> list http_req;
  posted_do n rq : posted (http_do n rq).1 = posted n ++ [rq]
}.

Definition embed_request (p : provider) (text : string) : http_req :=
  match pv_backend p with Gemini => gemini_request p text | OpenAI => openai_request p text | HuggingFace => hf_request p text end.

Section Embedding.
Context {R N : Type} `{WL : WebLog R N} (cd : Codec R).
Hypothesis urls_ok : forall u, cd_url cd u = None.

Lemma answered_posts {X} what (decode : R -> string + X) rq n :
  posted (answered cd what decode rq n).1 = posted n ++ [rq].
Proof. unfold answered. rewrite urls_ok. pose proof (posted_do n rq) as E. by destruct (http_do n rq). Qed.

Lemma embed_posts p text n : posted (Embed cd p text n).1 = posted n ++ [embed_request p text].
Proof. unfold Embed, embed_request. destruct (pv_backend p); apply answered_posts. Qed.

Lemma answered_nonempty {X} (Q : X -> Prop) what (decode : R -> string + X) rq n x :
  (forall raw y, decode raw = inr y -> Q y) -> (answered cd what decode rq n).2 = inr x -> Q x.
Proof.
  intros HQ. unfold answered. destruct (cd_url cd _); [done|]. destruct (http_do n rq) as [n' [e|resp]]; [done|]. cbn.
  destruct (negb _); [done|]. apply HQ.
Qed.

Lemma embed_nonempty p text n v : (Embed cd p text n).2 = inr v -> v <> [].
Proof.
  unfold Embed. destruct (pv_backend p); apply (answered_nonempty (fun v => v <> [])); intros raw y.
  - destruct (cd_gemini cd raw) as [|[|x l]]; [done|done|]. by intros [= <-].
  - destruct (cd_openai cd raw) as [|[|[|x l] ls]]; [done|done|done|]. by intros [= <-].
  - destruct (cd_flat cd raw) as [|[|x l]]; (try by intros [= <-]); destruct (cd_nested cd raw) as [|[|[|x l] ls]]; try done; by intros [= <-].
Qed.

(** What trying the providers [ps] in order comes to. *)
Inductive tries (text : string) : list provider -> N -> N -> (string + list float32) -> Prop :=
| tries_none n e : tries text [] n n (inl e)
| tries_first p ps n n' v : Embed cd p text n = (n', inr v) -> tries text (p :: ps) n n' (inr v)
| tries_next p ps n n1 n' e r : Embed cd p text n = (n1, inl e) -> tries text ps n1 n' r -> tries text (p :: ps) n n' r.

Lemma fallbacks_tries ps text : forall e n, let '(n', r) := embed_fallbacks cd e ps text n in tries text ps n n' r.
Proof.
  induction ps as [|p ps IH]; intros e n; cbn; [constructor|]. destruct (Embed cd p text n) as [n1 [e1|v]] eqn:E.
  - specialize (IH (e ++ "; fallback " ++ pv_Name p ++ ": " ++ e1)%string n1).
    destruct (embed_fallbacks cd _ ps text n1) as [n2 r]. by eapply tries_next.
  - by apply tries_first.
Qed.

Lemma tries_posts text ps n n' r : tries text ps n n' r ->
  exists tried rest, ps = tried ++ rest /\ posted n' = posted n ++ ((fun p => embed_request p text) <$> tried) /\
    match r with inr v => v <> [] /\ tried <> [] | inl _ => rest = [] end.
Proof.
  induction 1 as [n e|p ps n n' v E|p ps n n1 n' e r E Ht (tried & rest & -> & Hp & Hr)].
  - exists [], []. split_and!; [done|by rewrite app_nil_r|done].
  - pose proof (embed_posts p text n) as Hp. rewrite E in Hp. exists [p], ps. split_and!; [done|done| |done].
    apply (embed_nonempty p text n). by rewrite E.
  - pose proof (embed_posts p text n) as Hp1. rewrite E in Hp1. cbn in Hp1. exists (p :: tried), rest. split_and!; [done| |].
    + cbn. rewrite Hp, Hp1, <- app_assoc. done.
    + destruct r; [done|]. by destruct Hr.
Qed.

(** The chain asks its providers in order, each once, until one answers with an
    embedding, which is not empty; it fails only when all of them failed. *)
Theorem chain_asks_until_answered c text n :
  let '(n', r) := chain_Embed cd c text n in
  exists tried rest, ch_primary c :: ch_fallbacks c = tried ++ rest /\
    posted n' = posted n ++ ((fun p => embed_request p text) <$> tried) /\
    match r with inr v => v <> [] /\ tried <> [] | inl _ => rest = [] end.
Proof.
  unfold chain_Embed. destruct (Embed cd (ch_primary c) text n) as [n1 [e|v]] eqn:E.
  - pose proof (fallbacks_tries (ch_fallbacks c) text ("primary " ++ pv_Name (ch_primary c) ++ ": " ++ e)%string n1) as Ht.
    destruct (embed_fallbacks cd _ _ text n1) as [n2 r]. eapply tries_posts, tries_next; [exact E|exact Ht].
  - apply (tries_posts text _ n n1 (inr v)). by apply tries_first.
Qed.
End Embedding.

(** ** An index of points *)

Record collection := mkCollection { co_dim : Z; co_points : gmap string Point }.
Abbreviation index := (gmap string collection).

Definition matches (filter : list (string * string)) (p : Point) : Prop := Forall (fun kv => kv ∈ pt_Payload p) filter.

#[export] Instance matches_dec filter p : Decision (matches filter p).
Proof. unfold matches. apply _. Defined.

Definition has_dim (dim : Z) (p : Point) : Prop := Z.of_nat (length (pt_Vector p)) = dim.

#[export] Instance has_dim_dec dim p : Decision (has_dim dim p).
Proof. unfold has_dim. apply _. Defined.

Definition add_points (points : list Point) (m : gmap string Point) : gmap string Point :=
  fold_left (fun m p => <[pt_ID p := p]> m) points m.

Inductive index_op :=
| OpEnsure (name : string) (dim : Z)
| OpUpsert (name : string) (points : list Point)
| OpDelete (name : string) (filter : list (string * string)).

(** The operations of an index, and whether they succeed. *)
Definition index_step (d : index) (o : index_op) : index * bool :=
  match o with
  | OpEnsure name dim => (match d !! name with Some _ => d | None => <[name := mkCollection dim ∅]> d end, true)
  | OpUpsert name [] => (d, true)
  | OpUpsert name points =>
      match d !! name with
      | Some c => if decide (Forall (has_dim (co_dim c)) points)
                  then (<[name := mkCollection (co_dim c) (add_points points (co_points c))]> d, true) else (d, false)
      | None => (d, false)
      end
  | OpDelete name f =>
      match d !! name with
      | Some c => (<[name := mkCollection (co_dim c) (base.filter (fun kp => ~ matches f kp.2) (co_points c))]> d, true)
      | None => (d, false)
      end
  end.

(** The answer to a search: points of the collection that match, with their
    payload, no more than asked for; all of them when they are not too many. *)
Record found (c : collection) (topK : Z) (f : list (string * string)) (hits : list SearchHit) : Prop := {
  fd_ids : NoDup (sh_ID <$> hits);
  fd_points h : h ∈ hits -> exists p, co_points c !! sh_ID h = Some p /\ matches f p /\ sh_Payload h = pt_Payload p;
  fd_bound : Z.of_nat (length hits) <= topK;
  fd_all : Z.of_nat (size (base.filter (fun kp => matches f kp.2) (co_points c))) <= topK ->
    forall id p, co_points c !! id = Some p -> matches f p -> id ∈ sh_ID <$> hits
}.

(** What the REST interface of Qdrant does for a client, as far as it is used. *)
Definition answers {R} (ok : bool) (resp : http_resp R) : Prop := ok_status (hr_status resp) = ok.

Class QdrantLaws (R N : Type) `{!Web R N} (cd : Codec R) (c : Client) := {
  q_up : N -> Prop;
  q_index : N -> index;
  q_get n name : q_up n -> exists n' resp,
    http_do n (request c "GET" (collection_path name) None) = (n', inr resp) /\ q_up n' /\ q_index n' = q_index n /\
    answers (bool_decide (is_Some (q_index n !! name))) resp /\
    (is_Some (q_index n !! name) -> exists st, cd_status cd (hr_raw resp) = inr st);
  q_create n name dim : q_up n -> exists n' resp,
    http_do n (request c "PUT" (collection_path name) (Some (CreateBody dim "Cosine"))) = (n', inr resp) /\ q_up n' /\
    match q_index n !! name with
    | Some _ => answers false resp /\ q_index n' = q_index n
    | None => answers true resp /\ q_index n' = <[name := mkCollection dim ∅]> (q_index n)
    end;
  q_field n name field : q_up n -> exists n' resp,
    http_do n (request c "PUT" (collection_path name ++ "/index?wait=true") (Some (IndexBody field "keyword"))) = (n', inr resp) /\
    q_up n' /\ q_index n' = q_index n;
  q_points n name points : q_up n -> points <> [] -> exists n' resp,
    http_do n (request c "PUT" (collection_path name ++ "/points?wait=true") (Some (PointsBody points))) = (n', inr resp) /\ q_up n' /\
    answers (index_step (q_index n) (OpUpsert name points)).2 resp /\ q_index n' = (index_step (q_index n) (OpUpsert name points)).1;
  q_delete n name f : q_up n -> exists n' resp,
    http_do n (request c "POST" (collection_path name ++ "/points/delete?wait=true") (Some (DeleteBody f))) = (n', inr resp) /\ q_up n' /\
    answers (index_step (q_index n) (OpDelete name f)).2 resp /\ q_index n' = (index_step (q_index n) (OpDelete name f)).1;
  q_search n name vec topK f : q_up n -> 0 <= topK -> exists n' resp,
    http_do n (request c "POST" (collection_path name ++ "/points/search") (Some (SearchBody vec topK f))) = (n', inr resp) /\ q_up n' /\
    q_index n' = q_index n /\
    match q_index n !! name with
    | Some co => answers true resp /\ cd_text cd (hr_raw resp) <> ""%string /\ exists hits, cd_hits cd (hr_raw resp) = inr hits /\ found co topK f hits
    | None => answers false resp
    end
}.

Fixpoint index_run (d : index) (ops : list index_op) : index * list bool :=
  match ops with
  | [] => (d, [])
  | o :: ops => let '(d, b) := index_step d o in let '(d, bs) := index_run d ops in (d, b :: bs)
  end.

Section IndexClient.
Context {R N : Type} `{!Web R N} (cd : Codec R) (c : Client) `{QL : !QdrantLaws R N cd c}.
Hypothesis urls_ok : forall u, cd_url cd u = None.
Hypothesis json_ok : forall b, cd_marshal cd b = None.

Definition run_op (o : index_op) (n : N) : N * error :=
  match o with
  | OpEnsure name dim => EnsureCollection cd c name dim n
  | OpUpsert name points => Upsert cd c name points n
  | OpDelete name f => DeleteByFilter cd c name f n
  end.

Fixpoint run_ops (ops : list index_op) (n : N) : N * list bool :=
  match ops with
  | [] => (n, [])
  | o :: ops => let '(n, e) := run_op o n in let '(n, bs) := run_ops ops n in (n, bool_decide (e = None) :: bs)
  end.

Lemma do_run {X} method path b (zero : X) decode n n' resp :
  http_do n (request c method path b) = (n', inr resp) ->
  (do_ cd c method path b zero decode n).1 = n' /\
  if ok_status (hr_status resp)
  then (do_ cd c method path b zero decode n).2 =
       if is_empty (cd_text cd (hr_raw resp)) then inr zero
       else match decode (hr_raw resp) with inl e => inl ("qdrant decode: " ++ e ++ " body=" ++ cd_text cd (hr_raw resp))%string | inr x => inr x end
  else exists e, (do_ cd c method path b zero decode n).2 = inl e.
Proof.
  intros E. unfold do_. assert (b ≫= cd_marshal cd = None) as -> by (destruct b; cbn; [apply json_ok|done]).
  unfold answered. rewrite urls_ok, E. split; [done|]. destruct (ok_status _); cbn; [done|by eexists].
Qed.

Lemma exec_run method path b n n' resp ok :
  http_do n (request c method path b) = (n', inr resp) -> answers ok resp ->
  (exec cd c method path b n).1 = n' /\ bool_decide ((exec cd c method path b n).2 = None) = ok.
Proof.
  intros E <-. destruct (do_run method path b tt (fun _ => inr tt) n n' resp E) as [E1 E2]. unfold exec.
  destruct (do_ cd c method path b tt _ n) as [n1 r]. cbn in *. subst n1. split; [done|]. destruct (ok_status _).
  - rewrite E2. by destruct (is_empty _).
  - by destruct E2 as [e ->].
Qed.

Lemma ensure_fields name l : forall n, q_up n ->
  let n' := fold_left (fun n field => (exec cd c "PUT" (collection_path name ++ "/index?wait=true") (Some (IndexBody field "keyword")) n).1) l n in
  q_up n' /\ q_index n' = q_index n.
Proof.
  induction l as [|field l IH]; intros n Hn; cbn [fold_left]; [done|].
  destruct (q_field n name field Hn) as (n1 & resp & E & Hn1 & Hi1).
  destruct (exec_run _ _ _ _ _ _ _ E eq_refl) as [-> _]. destruct (IH n1 Hn1) as [H1 H2]. split; [done|congruence].
Qed.

Lemma ensure_step name dim n : q_up n ->
  let '(n', e) := EnsureCollection cd c name dim n in
  q_up n' /\ e = None /\ q_index n' = (index_step (q_index n) (OpEnsure name dim)).1.
Proof.
  intros Hn. unfold EnsureCollection. destruct (q_get n name Hn) as (n1 & resp & E & Hn1 & Hi1 & Ha & Hd).
  destruct (do_run "GET" (collection_path name) None ""%string (cd_status cd) n n1 resp E) as [E1 E2].
  destruct (do_ cd c "GET" _ None _ _ n) as [n1' r]. cbn in E1, E2. subst n1'. unfold answers in Ha. rewrite Ha in E2.
  cbn [index_step fst]. rewrite <- Hi1. rewrite <- Hi1 in E2, Hd. destruct (q_index n1 !! name) as [co|] eqn:El.
  - cbn in E2. destruct Hd as [st Hst]; [by eexists|]. rewrite Hst in E2. destruct r as [e|]; [by destruct (is_empty _)|]. done.
  - cbn in E2. destruct E2 as [e ->]. destruct (q_create n1 name dim Hn1) as (n2 & resp2 & Ec & Hn2 & Hc). rewrite El in Hc.
    destruct Hc as [Ha2 Hi2]. destruct (exec_run _ _ _ _ _ _ _ Ec Ha2) as [H1 H2].
    destruct (exec cd c "PUT" _ _ n1) as [n2' e2]. cbn in H1, H2. subst n2'. apply bool_decide_eq_true in H2 as ->.
    destruct (ensure_fields name index_fields n2 Hn2) as [H3 H4]. split_and!; [done|done|]. by rewrite H4.
Qed.

Lemma run_op_step o n : q_up n ->
  let '(n', e) := run_op o n in
  q_up n' /\ bool_decide (e = None) = (index_step (q_index n) o).2 /\ q_index n' = (index_step (q_index n) o).1.
Proof.
  intros Hn. destruct o as [name dim|name points|name f]; cbn [run_op].
  - pose proof (ensure_step name dim n Hn) as H. destruct (EnsureCollection cd c name dim n) as [n' e].
    destruct H as (H1 & -> & H2). done.
  - unfold Upsert. destruct points as [|p ps]; [done|].
    destruct (q_points n name (p :: ps) Hn ltac:(done)) as (n' & resp & E & Hn' & Ha & Hi).
    destruct (exec_run _ _ _ _ _ _ _ E Ha) as [H1 H2]. destruct (exec _ _ _ _ _ n) as [n1 e]. cbn in H1. subst n1. done.
  - unfold DeleteByFilter. destruct (q_delete n name f Hn) as (n' & resp & E & Hn' & Ha & Hi).
    destruct (exec_run _ _ _ _ _ _ _ E Ha) as [H1 H2]. destruct (exec _ _ _ _ _ n) as [n1 e]. cbn in H1. subst n1. done.
Qed.

(** The client implements an index: with Qdrant up, any sequence of its operations
    succeeds and fails as the operations on an index do and leaves the points the
    index has; and a search afterwards finds those of them that match, with their
    payload, or fails when there is no such collection. *)
Theorem qdrant_client_implements_an_index ops n name vec topK f :
  q_up n -> 0 <= topK ->
  let '(n', oks) := run_ops ops n in
  let '(d, oks') := index_run (q_index n) ops in
  oks = oks' /\ q_index n' = d /\
  match d !! name with
  | Some co => exists hits, (Search cd c name vec topK f n').2 = inr hits /\ found co topK f hits
  | None => exists e, (Search cd c name vec topK f n').2 = inl e
  end.
Proof.
  intros Hn Hk. revert n Hn. induction ops as [|o ops IH]; intros n Hn; cbn [run_ops index_run].
  - split_and!; [done|done|]. unfold Search. destruct (q_search n name vec topK f Hn Hk) as (n' & resp & E & _ & _ & Hs).
    destruct (do_run "POST" (collection_path name ++ "/points/search") (Some (SearchBody vec topK f)) [] (cd_hits cd) n n' resp E) as [_ E2].
    destruct (q_index n !! name) as [co|].
    + destruct Hs as (Ha & Hne & hits & Hh & Hf). unfold answers in Ha. rewrite Ha, (is_empty_false _ Hne), Hh in E2. by exists hits.
    + unfold answers in Hs. by rewrite Hs in E2.
  - pose proof (run_op_step o n Hn) as Ho. destruct (run_op o n) as [n1 e]. destruct Ho as (Hn1 & Hb & Hi).
    specialize (IH n1 Hn1). destruct (index_step (q_index n) o) as [d b]. cbn in Hb, Hi. subst d b.
    destruct (run_ops ops n1) as [n2 bs], (index_run (q_index n1) ops) as [d2 bs2]. destruct IH as (-> & H2 & H3). done.
Qed.
End IndexClient.

(** ** A server in memory *)

Module MemQdrant.
Inductive raw := Text (s : string) | Hits (hits : list SearchHit).

Record t := mk { ix : index; posts : list http_req }.

Definition codec : Codec raw :=
  mkCodec (fun r => match r with Text s => s | Hits _ => "{}"%string end) (fun _ => None) (fun _ => None)
    (fun _ => inr []) (fun _ => inr []) (fun _ => inr []) (fun _ => inr []) (fun _ => inr "green"%string)
    (fun r => match r with Text _ => inl "unexpected end of JSON input"%string | Hits hits => inr hits end).

Definition client : Client := New "http://q/" "".

Definition prefix : string := "http://q/collections/".

Definition hits_of (co : collection) (topK : Z) (f : list (string * string)) : list SearchHit :=
  take (Z.to_nat topK) ((fun kp => mkHit kp.1 (f32_of_f64 (f_of_int 0)) (pt_Payload kp.2))
    <$> map_to_list (base.filter (fun kp => matches f kp.2) (co_points co))).

Definition reply (ok : bool) : http_resp raw := mkResp (if ok then 200 else 404) (Text "{}").

Definition handle (d : index) (rq : http_req) : index * http_resp raw :=
  let path := trim_prefix (hq_url rq) prefix in
  match hq_body rq with
  | Some (CreateBody dim _) =>
      match d !! path with Some _ => (d, reply false) | None => (<[path := mkCollection dim ∅]> d, reply true) end
  | Some (PointsBody points) =>
      let '(d', ok) := index_step d (OpUpsert (trim_suffix path "/points?wait=true") points) in (d', reply ok)
  | Some (DeleteBody f) =>
      let '(d', ok) := index_step d (OpDelete (trim_suffix path "/points/delete?wait=true") f) in (d', reply ok)
  | Some (SearchBody vec topK f) =>
      (d, match d !! trim_suffix path "/points/search" with
          | Some co => mkResp 200 (Hits (hits_of co topK f))
          | None => reply false
          end)
  | Some _ => (d, reply true)
  | None => (d, reply (bool_decide (is_Some (d !! path))))
  end.

#[global] Instance web : Web raw t := fun n rq =>
  let '(d, resp) := handle (ix n) rq in (mk d (posts n ++ [rq]), inr resp).

#[global] Instance log : WebLog raw t.
Proof. refine {| posted := posts |}. intros n rq. unfold http_do, web. by destruct (handle (ix n) rq). Defined.
End MemQdrant.

Lemma mem_found co topK f : 0 <= topK -> found co topK f (MemQdrant.hits_of co topK f).
Proof.
  intros H0. set (m := base.filter (fun kp => matches f kp.2) (co_points co)).
  assert (Hids : sh_ID <$> MemQdrant.hits_of co topK f = take (Z.to_nat topK) (map_to_list m).*1).
  { unfold MemQdrant.hits_of. fold m. rewrite fmap_take, <- list_fmap_compose. f_equal. }
  split.
  - rewrite Hids. eapply sublist_NoDup; [|apply sublist_take]. apply NoDup_fst_map_to_list.
  - intros h Hh. unfold MemQdrant.hits_of in Hh. fold m in Hh. apply elem_of_take in Hh as (i & Hi & _).
    apply list_elem_of_lookup_2, list_elem_of_fmap in Hi as ([k p] & -> & Hkp). apply elem_of_map_to_list in Hkp.
    apply map_lookup_filter_Some in Hkp as [Hk Hm]. by exists p.
  - unfold MemQdrant.hits_of. rewrite length_take. lia.
  - intros Hs id p Hp Hm. rewrite Hids, take_ge.
    + apply list_elem_of_fmap. exists (id, p). split; [done|]. by apply elem_of_map_to_list, map_lookup_filter_Some.
    + rewrite length_fmap, length_map_to_list. fold m in Hs. lia.
Qed.

Lemma collection_url path : trim_prefix (cl_baseURL MemQdrant.client ++ collection_path path) MemQdrant.prefix = path.
Proof. apply (trim_prefix_app MemQdrant.prefix). Qed.

Lemma collection_suffix name suffix :
  trim_suffix (trim_prefix (cl_baseURL MemQdrant.client ++ collection_path name ++ suffix) MemQdrant.prefix) suffix = name.
Proof.
  change (cl_baseURL MemQdrant.client ++ collection_path name ++ suffix)%string with (MemQdrant.prefix ++ (name ++ suffix))%string.
  by rewrite trim_prefix_app, trim_suffix_app.
Qed.

#[export] Program Instance mem_qdrant_laws : QdrantLaws MemQdrant.raw MemQdrant.t MemQdrant.codec MemQdrant.client := {
  q_up _ := True;
  q_index := MemQdrant.ix
}.
Next Obligation.
  intros n name _. unfold http_do, MemQdrant.web, MemQdrant.handle. cbn [request hq_body hq_url]. rewrite collection_url.
  eexists _, _. split; [reflexivity|]. split_and!; [done|done| |by eexists]. unfold answers, MemQdrant.reply. by destruct (bool_decide _).
Qed.
Next Obligation.
  intros n name dim _. unfold http_do, MemQdrant.web, MemQdrant.handle. cbn [request hq_body hq_url]. rewrite collection_url.
  destruct (MemQdrant.ix n !! name) as [co|]; eexists _, _; (split; [reflexivity|done]).
Qed.
Next Obligation. intros n name field _. eexists _, _. split; [reflexivity|done]. Qed.
Next Obligation.
  intros n name points _ Hne. unfold http_do, MemQdrant.web, MemQdrant.handle. cbn [request hq_body hq_url]. rewrite collection_suffix.
  destruct (index_step (MemQdrant.ix n) (OpUpsert name points)) as [d ok] eqn:E. eexists _, _. split; [reflexivity|].
  split_and!; [done| |done]. unfold answers, MemQdrant.reply. by destruct ok.
Qed.
Next Obligation.
  intros n name f _. unfold http_do, MemQdrant.web, MemQdrant.handle. cbn [request hq_body hq_url]. rewrite collection_suffix.
  destruct (index_step (MemQdrant.ix n) (OpDelete name f)) as [d ok] eqn:E. eexists _, _. split; [reflexivity|].
  split_and!; [done| |done]. unfold answers, MemQdrant.reply. by destruct ok.
Qed.
Next Obligation.
  intros n name vec topK f _ Hk. unfold http_do, MemQdrant.web, MemQdrant.handle. cbn [request hq_body hq_url]. rewrite collection_suffix.
  eexists _, _. split; [reflexivity|]. split_and!; [done|done|]. destruct (MemQdrant.ix n !! name) as [co|]; [|done].
  split_and!; [done|done|]. eexists. split; [reflexivity|]. by apply mem_found.
Qed.

(** ** Instances *)

Definition point (id version : string) (dim : nat) : Point :=
  mkPoint id (replicate dim (f32_of_f64 (f_of_int 1))) [("kb_version_id"%string, version)].

Definition index_ops : list index_op :=
  [OpEnsure "kb_t1" 2; OpUpsert "kb_t1" [point "a" "v1" 2; point "b" "v2" 2]; OpUpsert "kb_t1" [point "c" "v2" 3];
   OpDelete "kb_t1" [("kb_version_id", "v1")]; OpDelete "kb_t2" []]%string.

Definition empty_server : MemQdrant.t := MemQdrant.mk ∅ [].

Lemma qdrant_client_implements_an_index_witness :
  let '(n', oks) := run_ops MemQdrant.codec MemQdrant.client index_ops empty_server in
  oks = [true; true; false; true; false] /\
  exists hits, (Search MemQdrant.codec MemQdrant.client "kb_t1" [] 5 [] n').2 = inr hits /\ "b"%string ∈ sh_ID <$> hits.
Proof.
  pose proof (qdrant_client_implements_an_index MemQdrant.codec MemQdrant.client (fun _ => eq_refl) (fun _ => eq_refl)
    index_ops empty_server "kb_t1" [] 5 [] I ltac:(lia)) as H.
  destruct (run_ops MemQdrant.codec MemQdrant.client index_ops empty_server) as [n' oks].
  destruct (index_run (q_index empty_server) index_ops) as [d oks'] eqn:Ed.
  assert (Hoks : oks' = [true; true; false; true; false]).
  { change oks' with ((d, oks').2). rewrite <- Ed. by vm_compute. }
  assert (Hd : exists co, d !! "kb_t1"%string = Some co /\ bool_decide (is_Some (co_points co !! "b"%string)) = true /\
    (size (base.filter (fun kp => matches [] kp.2) (co_points co)) <= 5)%nat).
  { change d with ((d, oks').1). rewrite <- Ed. eexists. split; [vm_compute; reflexivity|]. split; [by vm_compute|vm_compute; lia]. }
  destruct Hd as (co & Hco & [p Hp]%bool_decide_eq_true & Hsz). rewrite Hco in H. destruct H as (-> & _ & hits & Hs & Hf).
  split; [done|]. exists hits. split; [done|]. apply (fd_all _ _ _ _ Hf ltac:(lia) "b"%string p Hp). constructor.
Defined.

Definition getenv_demo (vars : list (string * string)) (name : string) : string := default ""%string ((list_to_map vars : gmap string string) !! name).

Lemma chain_is_what_is_configured_witness :
  exists c, FromEnv (getenv_demo [("OPENAI_API_KEY", "k1"); ("HUGGINGFACE_TOKEN", "k2")]%string) = inr c /\
    ch_primaryDim c = 768 /\ length (ch_fallbacks c) = 1%nat /\
    Forall (fun b => configured (getenv_demo [("OPENAI_API_KEY", "k1"); ("HUGGINGFACE_TOKEN", "k2")]%string) b = None) [Gemini].
Proof.
  destruct (FromEnv _) as [e|c] eqn:E; [exfalso; by vm_compute in E|]. exists c.
  destruct (chain_is_what_is_configured _ c E) as (_ & Hd & _ & Hf & _). split; [done|].
  vm_compute in E. injection E as <-. split_and!; [done|done|]. by apply (Hf eq_refl [Gemini] [HuggingFace]).
Defined.

(** ** Behaviour that differs from the intention *)

(** A collection of another dimension is taken as it is; what is then upserted is
    refused. *)
Theorem dimension_of_a_collection_is_not_checked :
  let n := MemQdrant.mk {[ "kb_t1"%string := mkCollection 768 ∅ ]} [] in
  let '(n1, e) := EnsureCollection MemQdrant.codec MemQdrant.client "kb_t1" 384 n in
  e = None /\ (Upsert MemQdrant.codec MemQdrant.client "kb_t1" [point "a" "v1" 384] n1).2 <> None.
Proof. vm_compute. by split. Qed.

(** A provider answers with any number of values: the dimension the chain promises
    is that of its settings. *)
Definition two_values : Codec string :=
  mkCodec (fun s => s) (fun _ => None) (fun _ => None) (fun _ => inr [f32_of_f64 (f_of_int 1); f32_of_f64 (f_of_int 2)])
    (fun _ => inr []) (fun _ => inr []) (fun _ => inr []) (fun _ => inr ""%string) (fun _ => inr []).

Theorem dimension_of_an_embedding_is_not_checked :
  exists c, FromEnv (getenv_demo [("GOOGLE_GEMINI_API_KEY", "k1")]%string) = inr c /\ ch_primaryDim c = 768 /\
    exists v, (chain_Embed (Web0 := fun (n : unit) _ => (n, inr (mkResp 200 "{}"%string))) two_values c "hello" tt).2 = inr v /\ length v = 2%nat.
Proof. eexists. split; [by vm_compute|]. split; [by vm_compute|]. eexists. split; [by vm_compute|done]. Qed.

(** The error of a request that fails names its URL, and that of Gemini has the
    key. *)
Theorem gemini_key_is_in_the_error :
  exists e, (gemini_Embed (Web0 := fun (n : unit) rq => (n, inl ("Post " ++ quote (hq_url rq) ++ ": connection refused")%string))
      two_values (mkProvider Gemini "SECRET" "m" 768) "hello" tt).2 = inl e /\ is_Some (index_of "SECRET" e).
Proof. eexists. split; [by vm_compute|]. vm_compute. by eexists. Qed.
