(* ===== verification/Handoff.v ===== *)
(** * handoff: model, assignment and stores

    [internal/model], [internal/assignment] and [internal/store].  The iteration
    order of Go maps is the field [map_order] of the in-memory store, which
    numbers its records itself; the Postgres store keeps pgkv collections under
    [prefix-UUID] keys.  Performance scores are finite or infinite floats, as
    JSON numbers are; a score that is not a number could not be stored. *)

From S2P Require Import Prelude GoTime Float64 Kv GoMonad GoStrings.
From stdpp Require Import pretty.

Open Scope Z_scope.

(** ** Data *)

Definition TemperatureSuperHot : string := "super_hot".
Definition TemperatureHot : string := "hot".
Definition TemperatureWarm : string := "warm".
Definition TemperatureCold : string := "cold".
Definition TemperatureBad : string := "bad".

Definition BuyerTypeSelfUse : string := "self_use".
Definition BuyerTypeInvestment : string := "investment".
Definition BuyerTypeBroker : string := "broker".
Definition BuyerTypeFake : string := "fake".

Definition HandoffStatusPendingAck : string := "pending_ack".
Definition HandoffStatusAcknowledged : string := "acknowledged".
Definition HandoffStatusEscalated : string := "escalated".
Definition HandoffStatusReassigned : string := "reassigned".
Definition HandoffStatusSuppressionSuggested : string := "suppression_suggested".

Definition TaskStatusOpen : string := "open".
Definition TaskStatusClosed : string := "closed".

Record Salesperson := mkRep {
  sp_ID : string;
  sp_TenantID : string;
  sp_TeamID : string;
  sp_ManagerID : string;
  sp_PerformanceScore : float64;
  sp_MaxOpenTasks : Z;
  sp_Active : bool
}.

Record ScoringSnapshot := mkSnap {
  ss_ID : string;
  ss_TenantID : string;
  ss_LeadID : string;
  ss_CampaignID : string;
  ss_TeamID : string;
  ss_Temperature : string;
  ss_BuyerType : string;
  ss_ShouldCreateSiteVisit : bool
}.

Record CreateHandoffRequest := mkCreate {
  chr_TenantID : string;
  chr_LeadID : string;
  chr_Reason : string;
  chr_Summary : string;
  chr_ScoringSnapshotID : string
}.

Record Handoff := mkHandoff {
  hf_ID : string;
  hf_TenantID : string;
  hf_LeadID : string;
  hf_Reason : string;
  hf_Summary : string;
  hf_ScoringSnapshotID : string;
  hf_AssignedUserID : string;
  hf_ManagerUserID : string;
  hf_Status : string;
  hf_SLADeadline : Z;
  hf_CreatedAt : Z;
  hf_AcknowledgedAt : option Z;
  hf_EscalatedAt : option Z
}.

Record LeadAssignment := mkAssignment {
  la_ID : string;
  la_TenantID : string;
  la_LeadID : string;
  la_UserID : string;
  la_HandoffID : string;
  la_AssignedAt : Z
}.

Record Task := mkTask {
  tk_ID : string;
  tk_TenantID : string;
  tk_HandoffID : string;
  tk_LeadID : string;
  tk_UserID : string;
  tk_Type : string;
  tk_Status : string;
  tk_DueAt : Z;
  tk_CreatedAt : Z;
  tk_ClosedAt : option Z
}.

Record TaskEvent := mkTaskEvent {
  tv_ID : string;
  tv_TenantID : string;
  tv_TaskID : string;
  tv_HandoffID : string;
  tv_Type : string;
  tv_Payload : list (string * string);
  tv_CreatedAt : Z
}.

Record SLAEvent := mkSLA {
  sv_ID : string;
  sv_TenantID : string;
  sv_HandoffID : string;
  sv_Stage : string;
  sv_Type : string;
  sv_UserID : string;
  sv_CreatedAt : Z
}.

(** ** Ids and times a store fills in *)

(** [id] is the one the store takes when the record has none. *)
Definition stamp_rep (id : string) (r : Salesperson) : Salesperson :=
  mkRep (or_new (sp_ID r) id) (sp_TenantID r) (sp_TeamID r) (sp_ManagerID r)
    (sp_PerformanceScore r) (if sp_MaxOpenTasks r =? 0 then 100 else sp_MaxOpenTasks r)
    (sp_Active r).

Definition stamp_snapshot (id : string) (s : ScoringSnapshot) : ScoringSnapshot :=
  mkSnap (or_new (ss_ID s) id) (ss_TenantID s) (ss_LeadID s) (ss_CampaignID s) (ss_TeamID s)
    (ss_Temperature s) (ss_BuyerType s) (ss_ShouldCreateSiteVisit s).

Definition stamp_handoff (now : Z) (id : string) (h : Handoff) : Handoff :=
  mkHandoff (or_new (hf_ID h) id) (hf_TenantID h) (hf_LeadID h) (hf_Reason h) (hf_Summary h)
    (hf_ScoringSnapshotID h) (hf_AssignedUserID h) (hf_ManagerUserID h) (hf_Status h)
    (hf_SLADeadline h) (or_now (hf_CreatedAt h) now) (hf_AcknowledgedAt h) (hf_EscalatedAt h).

Definition stamp_assignment (now : Z) (id : string) (a : LeadAssignment) : LeadAssignment :=
  mkAssignment (or_new (la_ID a) id) (la_TenantID a) (la_LeadID a) (la_UserID a) (la_HandoffID a)
    (or_now (la_AssignedAt a) now).

Definition stamp_task (now : Z) (id : string) (x : Task) : Task :=
  mkTask (or_new (tk_ID x) id) (tk_TenantID x) (tk_HandoffID x) (tk_LeadID x) (tk_UserID x)
    (tk_Type x) (tk_Status x) (tk_DueAt x) (or_now (tk_CreatedAt x) now) (tk_ClosedAt x).

Definition stamp_task_event (now : Z) (id : string) (e : TaskEvent) : TaskEvent :=
  mkTaskEvent (or_new (tv_ID e) id) (tv_TenantID e) (tv_TaskID e) (tv_HandoffID e) (tv_Type e)
    (tv_Payload e) (or_now (tv_CreatedAt e) now).

Definition stamp_sla (now : Z) (id : string) (e : SLAEvent) : SLAEvent :=
  mkSLA (or_new (sv_ID e) id) (sv_TenantID e) (sv_HandoffID e) (sv_Stage e) (sv_Type e)
    (sv_UserID e) (or_now (sv_CreatedAt e) now).

(** ** Predicates the two stores share *)

Definition in_team (tenantID teamID : string) (r : Salesperson) : bool :=
  bool_decide (sp_TenantID r = tenantID) && bool_decide (sp_TeamID r = teamID) && sp_Active r.

Definition open_for (userID : string) (x : Task) : bool :=
  bool_decide (tk_UserID x = userID) && bool_decide (tk_Status x = TaskStatusOpen).

Definition closes (handoffID userID : string) (x : Task) : bool :=
  bool_decide (tk_HandoffID x = handoffID)
  && (is_empty userID || bool_decide (tk_UserID x = userID)).

Definition closed_at (now : Z) (x : Task) : Task :=
  mkTask (tk_ID x) (tk_TenantID x) (tk_HandoffID x) (tk_LeadID x) (tk_UserID x) (tk_Type x)
    TaskStatusClosed (tk_DueAt x) (tk_CreatedAt x) (Some now).

Definition is_sla (handoffID stage eventType : string) (e : SLAEvent) : bool :=
  bool_decide (sv_HandoffID e = handoffID) && bool_decide (sv_Stage e = stage)
  && bool_decide (sv_Type e = eventType).

Definition rep_id_less (a b : Salesperson) : bool := String.ltb (sp_ID a) (sp_ID b).

Definition count_open (userID : string) (l : list Task) : Z :=
  Z.of_nat (length (List.filter (open_for userID) l)).

(** ** The store interface

    A method that writes also gets the wall clock and a new UUID. *)
Class HoStore (T : Type) := {
  SaveSalesperson : T -> Z -> string -> Salesperson -> T * (string + unit);
  ListSalespeople : T -> string -> string -> string + list Salesperson;
  CountOpenTasks : T -> string -> string + Z;
  SaveScoringSnapshot : T -> Z -> string -> ScoringSnapshot -> T * (string + unit);
  GetScoringSnapshot : T -> string -> string + ScoringSnapshot;
  SaveHandoff : T -> Z -> string -> Handoff -> T * (string + Handoff);
  GetHandoff : T -> string -> string + Handoff;
  ListHandoffs : T -> string -> string + list Handoff;
  SaveLeadAssignment : T -> Z -> string -> LeadAssignment -> T * (string + LeadAssignment);
  SaveTask : T -> Z -> string -> Task -> T * (string + Task);
  ListTasks : T -> string -> string + list Task;
  CloseTasksForHandoff : T -> Z -> string -> string -> T * (string + unit);
  AddTaskEvent : T -> Z -> string -> TaskEvent -> T * (string + TaskEvent);
  ListTaskEvents : T -> string -> string + list TaskEvent;
  AddSLAEvent : T -> Z -> string -> SLAEvent -> T * (string + SLAEvent);
  ListSLAEvents : T -> string -> string + list SLAEvent;
  HasSLAEvent : T -> string -> string -> string -> bool
}.

(** [fmt.Errorf("... %q: %w", id, ErrNotFound)]. *)
Definition not_found (what id : string) : string := (what ++ " " ++ quote id ++ ": not found")%string.

(** ** In memory *)
Module FakeHo.

Record t := mk {
  seq : nat;
  reps : gmap string Salesperson;
  snapshots : gmap string ScoringSnapshot;
  handoffs : gmap string Handoff;
  assignments : list LeadAssignment;
  tasks : gmap string Task;
  taskEvents : list TaskEvent;
  slaEvents : list SLAEvent;
  map_order : forall A : Type, list A -> list A
}.

Definition NewFake (order : forall A : Type, list A -> list A) : t := mk 0 ∅ ∅ ∅ [] ∅ [] [] order.

Definition set_seq v (s : t) : t :=
  mk v (reps s) (snapshots s) (handoffs s) (assignments s) (tasks s) (taskEvents s)
    (slaEvents s) (map_order s).
Definition set_reps v (s : t) : t :=
  mk (seq s) v (snapshots s) (handoffs s) (assignments s) (tasks s) (taskEvents s)
    (slaEvents s) (map_order s).
Definition set_snapshots v (s : t) : t :=
  mk (seq s) (reps s) v (handoffs s) (assignments s) (tasks s) (taskEvents s) (slaEvents s)
    (map_order s).
Definition set_handoffs v (s : t) : t :=
  mk (seq s) (reps s) (snapshots s) v (assignments s) (tasks s) (taskEvents s) (slaEvents s)
    (map_order s).
Definition set_assignments v (s : t) : t :=
  mk (seq s) (reps s) (snapshots s) (handoffs s) v (tasks s) (taskEvents s) (slaEvents s)
    (map_order s).
Definition set_tasks v (s : t) : t :=
  mk (seq s) (reps s) (snapshots s) (handoffs s) (assignments s) v (taskEvents s)
    (slaEvents s) (map_order s).
Definition set_taskEvents v (s : t) : t :=
  mk (seq s) (reps s) (snapshots s) (handoffs s) (assignments s) (tasks s) v (slaEvents s)
    (map_order s).
Definition set_slaEvents v (s : t) : t :=
  mk (seq s) (reps s) (snapshots s) (handoffs s) (assignments s) (tasks s) (taskEvents s) v
    (map_order s).

Definition values {A} (f : t) (m : gmap string A) : list A := map_order f _ (map_to_list m).*2.

(** [f.nextID(prefix)] for a record whose id is [id]: the store counts only
    when the record has none. *)
Definition nextID (f : t) (prefix id : string) : t * string :=
  if is_empty id then (set_seq (S (seq f)) f, numbered prefix (S (seq f))) else (f, id).

Definition saveSalesperson (f : t) (now : Z) (uid : string) (rep : Salesperson)
    : t * (string + unit) :=
  let '(f, id) := nextID f "rep" (sp_ID rep) in
  (set_reps (<[id := stamp_rep id rep]> (reps f)) f, inr tt).

Definition listSalespeople (f : t) (tenantID teamID : string) : string + list Salesperson :=
  inr (sort_by rep_id_less (List.filter (in_team tenantID teamID) (values f (reps f)))).

Definition countOpenTasks (f : t) (userID : string) : string + Z :=
  inr (count_open userID (values f (tasks f))).

Definition saveScoringSnapshot (f : t) (now : Z) (uid : string) (snapshot : ScoringSnapshot)
    : t * (string + unit) :=
  let '(f, id) := nextID f "score" (ss_ID snapshot) in
  (set_snapshots (<[id := stamp_snapshot id snapshot]> (snapshots f)) f, inr tt).

Definition getScoringSnapshot (f : t) (id : string) : string + ScoringSnapshot :=
  match snapshots f !! id with
  | Some snapshot => inr snapshot
  | None => inl (not_found "scoring snapshot" id)
  end.

Definition saveHandoff (f : t) (now : Z) (uid : string) (handoff : Handoff)
    : t * (string + Handoff) :=
  let '(f, id) := nextID f "handoff" (hf_ID handoff) in
  let handoff := stamp_handoff now id handoff in
  (set_handoffs (<[id := handoff]> (handoffs f)) f, inr handoff).

Definition getHandoff (f : t) (id : string) : string + Handoff :=
  match handoffs f !! id with
  | Some handoff => inr handoff
  | None => inl (not_found "handoff" id)
  end.

Definition listHandoffs (f : t) (tenantID : string) : string + list Handoff :=
  inr (List.filter (for_tenant hf_TenantID tenantID) (values f (handoffs f))).

Definition saveLeadAssignment (f : t) (now : Z) (uid : string) (assignment : LeadAssignment)
    : t * (string + LeadAssignment) :=
  let '(f, id) := nextID f "assignment" (la_ID assignment) in
  let assignment := stamp_assignment now id assignment in
  (set_assignments (assignments f ++ [assignment]) f, inr assignment).

Definition saveTask (f : t) (now : Z) (uid : string) (task : Task) : t * (string + Task) :=
  let '(f, id) := nextID f "task" (tk_ID task) in
  let task := stamp_task now id task in
  (set_tasks (<[id := task]> (tasks f)) f, inr task).

Definition listTasks (f : t) (tenantID : string) : string + list Task :=
  inr (List.filter (for_tenant tk_TenantID tenantID) (values f (tasks f))).

Definition closeTasksForHandoff (f : t) (now : Z) (handoffID userID : string)
    : t * (string + unit) :=
  (set_tasks ((fun x => if closes handoffID userID x then closed_at now x else x) <$> tasks f) f,
   inr tt).

Definition addTaskEvent (f : t) (now : Z) (uid : string) (event : TaskEvent)
    : t * (string + TaskEvent) :=
  let '(f, id) := nextID f "task_event" (tv_ID event) in
  let event := stamp_task_event now id event in
  (set_taskEvents (taskEvents f ++ [event]) f, inr event).

Definition listTaskEvents (f : t) (tenantID : string) : string + list TaskEvent :=
  inr (List.filter (for_tenant tv_TenantID tenantID) (taskEvents f)).

Definition addSLAEvent (f : t) (now : Z) (uid : string) (event : SLAEvent)
    : t * (string + SLAEvent) :=
  let '(f, id) := nextID f "sla_event" (sv_ID event) in
  let event := stamp_sla now id event in
  (set_slaEvents (slaEvents f ++ [event]) f, inr event).

Definition listSLAEvents (f : t) (tenantID : string) : string + list SLAEvent :=
  inr (List.filter (for_tenant sv_TenantID tenantID) (slaEvents f)).

Definition hasSLAEvent (f : t) (handoffID stage eventType : string) : bool :=
  List.existsb (is_sla handoffID stage eventType) (slaEvents f).

End FakeHo.

(** ** Postgres *)
Module PgHo.

Record t := mk {
  salespeople : kv Salesperson;
  scoring_snapshots : kv ScoringSnapshot;
  handoffs : kv Handoff;
  lead_assignments : kv LeadAssignment;
  tasks : kv Task;
  task_events : kv TaskEvent;
  sla_events : kv SLAEvent
}.

Definition empty : t := mk kv_empty kv_empty kv_empty kv_empty kv_empty kv_empty kv_empty.

Definition set_salespeople v (s : t) : t :=
  mk v (scoring_snapshots s) (handoffs s) (lead_assignments s) (tasks s) (task_events s)
    (sla_events s).
Definition set_scoring_snapshots v (s : t) : t :=
  mk (salespeople s) v (handoffs s) (lead_assignments s) (tasks s) (task_events s)
    (sla_events s).
Definition set_handoffs v (s : t) : t :=
  mk (salespeople s) (scoring_snapshots s) v (lead_assignments s) (tasks s) (task_events s)
    (sla_events s).
Definition set_lead_assignments v (s : t) : t :=
  mk (salespeople s) (scoring_snapshots s) (handoffs s) v (tasks s) (task_events s)
    (sla_events s).
Definition set_tasks v (s : t) : t :=
  mk (salespeople s) (scoring_snapshots s) (handoffs s) (lead_assignments s) v (task_events s)
    (sla_events s).
Definition set_task_events v (s : t) : t :=
  mk (salespeople s) (scoring_snapshots s) (handoffs s) (lead_assignments s) (tasks s) v
    (sla_events s).
Definition set_sla_events v (s : t) : t :=
  mk (salespeople s) (scoring_snapshots s) (handoffs s) (lead_assignments s) (tasks s)
    (task_events s) v.

Definition from_err {A} (e : error) (a : A) : string + A :=
  match e with Some m => inl m | None => inr a end.

Definition saveSalesperson (p : t) (now : Z) (uid : string) (rep : Salesperson)
    : t * (string + unit) :=
  let rep := stamp_rep (new_id "rep" uid) rep in
  let '(c, e) := kv_set (salespeople p) (sp_ID rep) rep in
  (set_salespeople c p, from_err e tt).

Definition listSalespeople (p : t) (tenantID teamID : string) : string + list Salesperson :=
  match kv_list (salespeople p) with
  | Err e => inl e
  | Ok reps => inr (sort_by rep_id_less (List.filter (in_team tenantID teamID) reps))
  end.

Definition countOpenTasks (p : t) (userID : string) : string + Z :=
  match kv_list (tasks p) with
  | Err e => inl e
  | Ok l => inr (count_open userID l)
  end.

Definition saveScoringSnapshot (p : t) (now : Z) (uid : string) (snapshot : ScoringSnapshot)
    : t * (string + unit) :=
  let snapshot := stamp_snapshot (new_id "score" uid) snapshot in
  let '(c, e) := kv_set (scoring_snapshots p) (ss_ID snapshot) snapshot in
  (set_scoring_snapshots c p, from_err e tt).

Definition getScoringSnapshot (p : t) (id : string) : string + ScoringSnapshot :=
  match kv_get (scoring_snapshots p) id with
  | Err e => inl e
  | Ok None => inl (not_found "scoring snapshot" id)
  | Ok (Some snapshot) => inr snapshot
  end.

Definition saveHandoff (p : t) (now : Z) (uid : string) (handoff : Handoff)
    : t * (string + Handoff) :=
  let handoff := stamp_handoff now (new_id "handoff" uid) handoff in
  let '(c, e) := kv_set (handoffs p) (hf_ID handoff) handoff in
  (set_handoffs c p, from_err e handoff).

Definition getHandoff (p : t) (id : string) : string + Handoff :=
  match kv_get (handoffs p) id with
  | Err e => inl e
  | Ok None => inl (not_found "handoff" id)
  | Ok (Some handoff) => inr handoff
  end.

Definition listHandoffs (p : t) (tenantID : string) : string + list Handoff :=
  match kv_list (handoffs p) with
  | Err e => inl e
  | Ok l => inr (List.filter (for_tenant hf_TenantID tenantID) l)
  end.

Definition saveLeadAssignment (p : t) (now : Z) (uid : string) (assignment : LeadAssignment)
    : t * (string + LeadAssignment) :=
  let assignment := stamp_assignment now (new_id "assignment" uid) assignment in
  let '(c, e) := kv_set (lead_assignments p) (la_ID assignment) assignment in
  (set_lead_assignments c p, from_err e assignment).

Definition saveTask (p : t) (now : Z) (uid : string) (task : Task) : t * (string + Task) :=
  let task := stamp_task now (new_id "task" uid) task in
  let '(c, e) := kv_set (tasks p) (tk_ID task) task in
  (set_tasks c p, from_err e task).

Definition listTasks (p : t) (tenantID : string) : string + list Task :=
  match kv_list (tasks p) with
  | Err e => inl e
  | Ok l => inr (List.filter (for_tenant tk_TenantID tenantID) l)
  end.

(** The loop of [CloseTasksForHandoff]: it stops at the first failed write. *)
Fixpoint close_each (c : kv Task) (now : Z) (handoffID userID : string) (l : list Task)
    : kv Task * error :=
  match l with
  | [] => (c, None)
  | x :: l' =>
      if closes handoffID userID x then
        match kv_set c (tk_ID x) (closed_at now x) with
        | (c', Some e) => (c', Some e)
        | (c', None) => close_each c' now handoffID userID l'
        end
      else close_each c now handoffID userID l'
  end.

Definition closeTasksForHandoff (p : t) (now : Z) (handoffID userID : string)
    : t * (string + unit) :=
  match kv_list (tasks p) with
  | Err e => (p, inl e)
  | Ok l =>
      let '(c, e) := close_each (tasks p) now handoffID userID l in
      (set_tasks c p, from_err e tt)
  end.

Definition addTaskEvent (p : t) (now : Z) (uid : string) (event : TaskEvent)
    : t * (string + TaskEvent) :=
  let event := stamp_task_event now (new_id "task_event" uid) event in
  let '(c, e) := kv_set (task_events p) (tv_ID event) event in
  (set_task_events c p, from_err e event).

Definition listTaskEvents (p : t) (tenantID : string) : string + list TaskEvent :=
  match kv_list (task_events p) with
  | Err e => inl e
  | Ok l => inr (List.filter (for_tenant tv_TenantID tenantID) l)
  end.

Definition addSLAEvent (p : t) (now : Z) (uid : string) (event : SLAEvent)
    : t * (string + SLAEvent) :=
  let event := stamp_sla now (new_id "sla_event" uid) event in
  let '(c, e) := kv_set (sla_events p) (sv_ID event) event in
  (set_sla_events c p, from_err e event).

Definition listSLAEvents (p : t) (tenantID : string) : string + list SLAEvent :=
  match kv_list (sla_events p) with
  | Err e => inl e
  | Ok l => inr (List.filter (for_tenant sv_TenantID tenantID) l)
  end.

Definition hasSLAEvent (p : t) (handoffID stage eventType : string) : bool :=
  match kv_list (sla_events p) with
  | Err _ => false
  | Ok l => List.existsb (is_sla handoffID stage eventType) l
  end.

End PgHo.

#[export] Instance fake_ho_store : HoStore FakeHo.t := {
  SaveSalesperson := FakeHo.saveSalesperson;
  ListSalespeople := FakeHo.listSalespeople;
  CountOpenTasks := FakeHo.countOpenTasks;
  SaveScoringSnapshot := FakeHo.saveScoringSnapshot;
  GetScoringSnapshot := FakeHo.getScoringSnapshot;
  SaveHandoff := FakeHo.saveHandoff;
  GetHandoff := FakeHo.getHandoff;
  ListHandoffs := FakeHo.listHandoffs;
  SaveLeadAssignment := FakeHo.saveLeadAssignment;
  SaveTask := FakeHo.saveTask;
  ListTasks := FakeHo.listTasks;
  CloseTasksForHandoff := FakeHo.closeTasksForHandoff;
  AddTaskEvent := FakeHo.addTaskEvent;
  ListTaskEvents := FakeHo.listTaskEvents;
  AddSLAEvent := FakeHo.addSLAEvent;
  ListSLAEvents := FakeHo.listSLAEvents;
  HasSLAEvent := FakeHo.hasSLAEvent
}.

#[export] Instance pg_ho_store : HoStore PgHo.t := {
  SaveSalesperson := PgHo.saveSalesperson;
  ListSalespeople := PgHo.listSalespeople;
  CountOpenTasks := PgHo.countOpenTasks;
  SaveScoringSnapshot := PgHo.saveScoringSnapshot;
  GetScoringSnapshot := PgHo.getScoringSnapshot;
  SaveHandoff := PgHo.saveHandoff;
  GetHandoff := PgHo.getHandoff;
  ListHandoffs := PgHo.listHandoffs;
  SaveLeadAssignment := PgHo.saveLeadAssignment;
  SaveTask := PgHo.saveTask;
  ListTasks := PgHo.listTasks;
  CloseTasksForHandoff := PgHo.closeTasksForHandoff;
  AddTaskEvent := PgHo.addTaskEvent;
  ListTaskEvents := PgHo.listTaskEvents;
  AddSLAEvent := PgHo.addSLAEvent;
  ListSLAEvents := PgHo.listSLAEvents;
  HasSLAEvent := PgHo.hasSLAEvent
}.

(** ** [assignment.Select] *)

(** [sort.SliceStable]: insertion from the left.  Slices of more than twenty
    elements are sorted in blocks that are then merged, to the same result
    whenever the order is a strict weak one. *)
Section SliceStable.
Context {A : Type} (less : A -> A -> bool).

(** [x] moves down the sorted part, here in reverse. *)
Fixpoint sift (x : A) (sorted : list A) : list A :=
  match sorted with
  | [] => [x]
  | y :: l => if less x y then y :: sift x l else x :: sorted
  end.

Definition SliceStable (l : list A) : list A := rev (foldl (fun p x => sift x p) [] l).
End SliceStable.

Record Candidate := mkCand { ca_Rep : Salesperson; ca_OpenTasks : Z }.

Definition isHot (temp : string) : bool :=
  bool_decide (temp = TemperatureHot) || bool_decide (temp = TemperatureSuperHot).

Definition f_zero : float64 := f_of_int 0.

Definition weightedLoad (c : Candidate) : float64 :=
  let weight := sp_PerformanceScore (ca_Rep c) in
  let weight := if f_le weight f_zero then f_of_int 1 else weight in
  f_div (f_of_int (ca_OpenTasks c + 1)) weight.

(** The order of the candidates; [f_eq] is Go's [==]. *)
Definition candidate_less (temp : string) (a b : Candidate) : bool :=
  let sa := sp_PerformanceScore (ca_Rep a) in
  let sb := sp_PerformanceScore (ca_Rep b) in
  if negb (ca_OpenTasks a =? ca_OpenTasks b) then ca_OpenTasks a <? ca_OpenTasks b
  else if isHot temp && negb (f_eq sa sb) then f_lt sb sa
  else if negb (f_eq sa sb) then f_lt (weightedLoad a) (weightedLoad b)
  else String.ltb (sp_ID (ca_Rep a)) (sp_ID (ca_Rep b)).

Definition full (r : Salesperson) (openTasks : Z) : bool :=
  (0 <? sp_MaxOpenTasks r) && (sp_MaxOpenTasks r <=? openTasks).

Section Select.
Context {T : Type} `{!HoStore T}.

Fixpoint candidates (s : T) (reps : list Salesperson) : string + list Candidate :=
  match reps with
  | [] => inr []
  | rep :: reps' =>
      match CountOpenTasks s (sp_ID rep) with
      | inl e => inl e
      | inr n =>
          match candidates s reps' with
          | inl e => inl e
          | inr l => inr (if full rep n then l else mkCand rep n :: l)
          end
      end
  end.

Definition ErrNoEligibleSalesperson : string := "no eligible salesperson".

Definition Select (s : T) (reps : list Salesperson) (snapshot : ScoringSnapshot)
    : string + Salesperson :=
  match candidates s reps with
  | inl e => inl e
  | inr l =>
      match SliceStable (candidate_less (ss_Temperature snapshot)) l with
      | [] => inl ErrNoEligibleSalesperson
      | c :: _ => inr (ca_Rep c)
      end
  end.
End Select.
