(* ===== verification/HandoffLaws.v ===== *)
(** * handoff: what the service relies on, and that both stores give it

    The contents of a store that matter to assignment and SLA are the record
    [hview]; [HoLaws] says what each method does to it.  [ok] holds of a store
    that answers and whose records are filed under their ids, [fresh] of a UUID
    that no stored id was made from. *)

From S2P Require Import Prelude GoTime Float64 Kv GoMonad GoStrings Handoff.
From stdpp Require Import pretty.

Open Scope Z_scope.

Record hview := mkView {
  v_reps : gmap string Salesperson;
  v_snaps : gmap string ScoringSnapshot;
  v_handoffs : gmap string Handoff;
  v_tasks : gmap string Task;
  v_sla : list SLAEvent
}.

Definition set_v_snaps x (v : hview) : hview := mkView (v_reps v) x (v_handoffs v) (v_tasks v) (v_sla v).
Definition set_v_handoffs x (v : hview) : hview := mkView (v_reps v) (v_snaps v) x (v_tasks v) (v_sla v).
Definition set_v_tasks x (v : hview) : hview := mkView (v_reps v) (v_snaps v) (v_handoffs v) x (v_sla v).
Definition set_v_sla x (v : hview) : hview := mkView (v_reps v) (v_snaps v) (v_handoffs v) (v_tasks v) x.

Definition values {A} (m : gmap string A) : list A := (map_to_list m).*2.

Definition close_in (now : Z) (handoffID userID : string) (m : gmap string Task)
    : gmap string Task :=
  (fun x => if closes handoffID userID x then closed_at now x else x) <$> m.

Class HoView (T : Type) := {
  view : T -> hview;
  ok : T -> Prop;
  fresh : T -> string -> Prop
}.

(** A write that took the UUID [u] and left the contents [v]. *)
Definition wrote {T} `{HoView T} (s : T) (u : string) (s' : T) (v : hview) : Prop :=
  ok s' /\ view s' = v /\ forall u', u' <> u -> fresh s u' -> fresh s' u'.

Class HoLaws (T : Type) `{HoStore T, HoView T} := {
  ok_handoff s k h : ok s -> v_handoffs (view s) !! k = Some h -> hf_ID h = k /\ k <> "";
  ok_rep s k r : ok s -> v_reps (view s) !! k = Some r -> sp_ID r = k;
  law_list_reps s t m : ok s -> exists l, ListSalespeople s t m = inr l /\
    forall r, r ∈ l <-> r ∈ values (v_reps (view s)) /\ in_team t m r = true;
  law_count s u : ok s -> CountOpenTasks s u = inr (count_open u (values (v_tasks (view s))));
  law_get_snap s k : ok s -> GetScoringSnapshot s k =
    match v_snaps (view s) !! k with Some x => inr x | None => inl (not_found "scoring snapshot" k) end;
  law_get_handoff s k : ok s -> GetHandoff s k =
    match v_handoffs (view s) !! k with Some h => inr h | None => inl (not_found "handoff" k) end;
  law_list_handoffs s : ok s -> exists l, ListHandoffs s "" = inr l /\ l ≡ₚ values (v_handoffs (view s));
  law_has_sla s h g y : ok s -> HasSLAEvent s h g y = List.existsb (is_sla h g y) (v_sla (view s));
  law_save_snap s n u x : ok s -> fresh s u -> exists s' id,
    SaveScoringSnapshot s n u x = (s', inr tt) /\ (ss_ID x <> "" -> id = ss_ID x) /\
    wrote s u s' (set_v_snaps (<[id := stamp_snapshot id x]> (v_snaps (view s))) (view s));
  law_new_handoff s n u x : ok s -> fresh s u -> hf_ID x = "" -> exists s' id,
    SaveHandoff s n u x = (s', inr (stamp_handoff n id x)) /\ id <> "" /\
    v_handoffs (view s) !! id = None /\
    wrote s u s' (set_v_handoffs (<[id := stamp_handoff n id x]> (v_handoffs (view s))) (view s));
  law_put_handoff s n u x : ok s -> fresh s u -> hf_ID x <> "" ->
    is_Some (v_handoffs (view s) !! hf_ID x) -> exists s',
    SaveHandoff s n u x = (s', inr (stamp_handoff n (hf_ID x) x)) /\
    wrote s u s' (set_v_handoffs (<[hf_ID x := stamp_handoff n (hf_ID x) x]> (v_handoffs (view s)))
                    (view s));
  law_assignment s n u x : ok s -> fresh s u -> exists s' y,
    SaveLeadAssignment s n u x = (s', inr y) /\ wrote s u s' (view s);
  law_new_task s n u x : ok s -> fresh s u -> tk_ID x = "" -> exists s' id,
    SaveTask s n u x = (s', inr (stamp_task n id x)) /\ v_tasks (view s) !! id = None /\
    wrote s u s' (set_v_tasks (<[id := stamp_task n id x]> (v_tasks (view s))) (view s));
  law_close s n u h us : ok s -> exists s', CloseTasksForHandoff s n h us = (s', inr tt) /\
    wrote s u s' (set_v_tasks (close_in n h us (v_tasks (view s))) (view s));
  law_task_event s n u x : ok s -> fresh s u -> exists s' y,
    AddTaskEvent s n u x = (s', inr y) /\ wrote s u s' (view s);
  law_sla s n u x : ok s -> fresh s u -> sv_ID x = "" -> exists s' id,
    AddSLAEvent s n u x = (s', inr (stamp_sla n id x)) /\
    wrote s u s' (set_v_sla (v_sla (view s) ++ [stamp_sla n id x]) (view s))
}.

(** ** The in-memory store *)

Definition unnumbered {A} (p : string) (k : nat) (m : gmap string A) : Prop :=
  forall n, (k < n)%nat -> m !! numbered p n = None.

Lemma unnumbered_insert {A} p k (m : gmap string A) x :
  unnumbered p k m -> unnumbered p (S k) (<[numbered p (S k) := x]> m).
Proof.
  intros H n Hn. rewrite lookup_insert_ne; [apply H; lia|]. intros E%numbered_inj. lia.
Qed.

Lemma unnumbered_mono {A} p k j (m : gmap string A) :
  unnumbered p k m -> (k <= j)%nat -> unnumbered p j m.
Proof. intros H Hj n Hn. apply H. lia. Qed.

#[export] Instance fake_view : HoView FakeHo.t := {
  view f := mkView (FakeHo.reps f) (FakeHo.snapshots f) (FakeHo.handoffs f) (FakeHo.tasks f)
              (FakeHo.slaEvents f);
  ok f := (forall A (l : list A), FakeHo.map_order f A l ≡ₚ l) /\
    map_Forall (fun k h => hf_ID h = k /\ k <> "") (FakeHo.handoffs f) /\
    map_Forall (fun k r => sp_ID r = k) (FakeHo.reps f) /\
    unnumbered "handoff" (FakeHo.seq f) (FakeHo.handoffs f) /\
    unnumbered "task" (FakeHo.seq f) (FakeHo.tasks f);
  fresh _ _ := True
}.

Lemma count_open_perm u l1 l2 : l1 ≡ₚ l2 -> count_open u l1 = count_open u l2.
Proof.
  intros H. unfold count_open. f_equal. induction H; simpl; repeat case_match; simpl in *; lia.
Qed.

Lemma filter_all {A} (l : list A) : List.filter (fun _ => true) l = l.
Proof. induction l as [|a l IH]; simpl; [done|]. by rewrite IH. Qed.

Lemma elem_of_filter_b {A} (f : A -> bool) l x : x ∈ List.filter f l <-> x ∈ l /\ f x = true.
Proof. rewrite !list_elem_of_In. apply List.filter_In. Qed.

(** A store method of the in-memory store: compute, then the parts of [ok]. *)
Ltac fake_wrote :=
  unfold wrote; simpl; split_and!; auto; intros; eauto using unnumbered_mono, Nat.le_succ_diag_r.

#[export] Instance fake_ho_laws : HoLaws FakeHo.t.
Proof.
  split; simpl.
  - intros s k h (_ & H & _). apply H.
  - intros s k r (_ & _ & H & _). apply H.
  - intros s t m (Ho & _). eexists. split; [done|]. intros r.
    rewrite elem_of_sort_by, elem_of_filter_b. unfold FakeHo.values, values. by rewrite Ho.
  - intros s u (Ho & _). unfold FakeHo.countOpenTasks, FakeHo.values, values. f_equal.
    apply count_open_perm, Ho.
  - done.
  - done.
  - intros s (Ho & _). eexists. split; [done|]. unfold for_tenant. simpl.
    rewrite filter_all. apply Ho.
  - done.
  - intros s n u x (H1 & H2 & H3 & H4 & H5) _. unfold FakeHo.saveScoringSnapshot, FakeHo.nextID.
    unfold is_empty. case_bool_decide as E.
    + eexists _, (numbered "score" (S (FakeHo.seq s))). split; [done|]. split; [done|].
      fake_wrote.
    + eexists _, (ss_ID x). split; [done|]. split; [done|]. fake_wrote.
  - intros s n u x (H1 & H2 & H3 & H4 & H5) _ E. unfold FakeHo.saveHandoff, FakeHo.nextID.
    rewrite E. simpl. eexists _, _. split; [done|]. split; [by apply numbered_ne|].
    split; [apply H4; lia|].
    split; [|done]. split; [done|]. split.
    { apply map_Forall_insert_2; [|done]. simpl. rewrite E. simpl. split; [done|].
      by apply numbered_ne. }
    split; [done|]. split; [by apply unnumbered_insert|]. eauto using unnumbered_mono, Nat.le_succ_diag_r.
  - intros s n u x (H1 & H2 & H3 & H4 & H5) _ E [y Hy]. unfold FakeHo.saveHandoff, FakeHo.nextID.
    unfold is_empty. rewrite bool_decide_false by done. eexists. split; [done|].
    split; [|done]. split; [done|]. split.
    { apply map_Forall_insert_2; [|done]. simpl. unfold or_new, is_empty.
      by rewrite bool_decide_false. }
    split; [done|]. split; [|done]. intros k Hk. simpl in *.
    rewrite lookup_insert_ne; [by apply H4|]. intros E'. rewrite E', H4 in Hy; [done|lia].
  - intros s n u x (H1 & H2 & H3 & H4 & H5) _. unfold FakeHo.saveLeadAssignment, FakeHo.nextID.
    destruct (is_empty _); eexists _, _; (split; [done|]); fake_wrote.
  - intros s n u x (H1 & H2 & H3 & H4 & H5) _ E. unfold FakeHo.saveTask, FakeHo.nextID.
    rewrite E. simpl. eexists _, _. split; [done|]. split; [apply H5; lia|].
    fake_wrote. by apply unnumbered_insert.
  - intros s n u h us (H1 & H2 & H3 & H4 & H5). eexists. split; [done|]. fake_wrote.
    intros k Hk. rewrite lookup_fmap. by rewrite H5.
  - intros s n u x (H1 & H2 & H3 & H4 & H5) _. unfold FakeHo.addTaskEvent, FakeHo.nextID.
    destruct (is_empty _); eexists _, _; (split; [done|]); fake_wrote.
  - intros s n u x (H1 & H2 & H3 & H4 & H5) _ E. unfold FakeHo.addSLAEvent, FakeHo.nextID.
    rewrite E. simpl. eexists _, _. split; [done|]. fake_wrote.
Qed.

(** ** The Postgres store *)

Lemma kv_values {A} (c : kv A) : NoDup (kv_rows c).*1 -> (kv_rows c).*2 ≡ₚ values (kv_map c).
Proof.
  intros Hnd. unfold values, kv_map. by rewrite map_to_list_to_map.
Qed.

(** A collection that answers and files its records under their ids. *)
Definition coll_ok {A} (c : kv A) (key : string -> A -> Prop) : Prop :=
  kv_up c = true /\ NoDup (kv_rows c).*1 /\ forall k x, kv_map c !! k = Some x -> key k x.

Lemma coll_ok_put {A} (c : kv A) key k x :
  coll_ok c key -> key k x -> exists c', kv_set c k x = (c', None) /\ coll_ok c' key /\
    kv_map c' = <[k := x]> (kv_map c) /\ kv_rows c' = rows_put k x (kv_rows c).
Proof.
  intros (Hu & Hnd & Hk) Hx. destruct (kv_set_up c k x Hu) as (c' & E & Hu' & Hm).
  exists c'. split; [done|]. unfold kv_set, kv_put in E. rewrite Hu in E. injection E as <-.
  simpl in *. split_and!; try done. split_and!; simpl; [done|by apply rows_put_NoDup|].
  intros k0 x0. rewrite Hm. intros [[-> ->]|[? ?]]%lookup_insert_Some; auto.
Qed.

Definition any_key {A} (k : string) (x : A) : Prop := True.
Definition handoff_key (k : string) (h : Handoff) : Prop := hf_ID h = k /\ k <> "".
Definition rep_key (k : string) (r : Salesperson) : Prop := sp_ID r = k.
Definition task_key (k : string) (x : Task) : Prop := tk_ID x = k.

#[export] Instance pg_view : HoView PgHo.t := {
  view p := mkView (kv_map (PgHo.salespeople p)) (kv_map (PgHo.scoring_snapshots p))
              (kv_map (PgHo.handoffs p)) (kv_map (PgHo.tasks p)) (kv_rows (PgHo.sla_events p)).*2;
  ok p := coll_ok (PgHo.salespeople p) rep_key /\ coll_ok (PgHo.scoring_snapshots p) any_key /\
    coll_ok (PgHo.handoffs p) handoff_key /\ coll_ok (PgHo.lead_assignments p) any_key /\
    coll_ok (PgHo.tasks p) task_key /\ coll_ok (PgHo.task_events p) any_key /\
    coll_ok (PgHo.sla_events p) any_key;
  fresh p u := kv_map (PgHo.handoffs p) !! new_id "handoff" u = None /\
    kv_map (PgHo.tasks p) !! new_id "task" u = None /\
    kv_map (PgHo.sla_events p) !! new_id "sla_event" u = None
}.

(** Closing the listed tasks one by one. *)
Lemma close_each_spec now h u l c :
  coll_ok c task_key -> NoDup (tk_ID <$> l) -> (forall x, x ∈ l -> kv_map c !! tk_ID x = Some x) ->
  exists c', PgHo.close_each c now h u l = (c', None) /\ coll_ok c' task_key /\
    forall k, kv_map c' !! k = (fun x => if bool_decide (k ∈ tk_ID <$> l) && closes h u x
                                         then closed_at now x else x) <$> kv_map c !! k.
Proof.
  revert c. induction l as [|x l IH]; intros c Hc Hnd Hl; cbn [PgHo.close_each].
  { exists c. split_and!; try done. intros k. by destruct (kv_map c !! k). }
  rewrite fmap_cons in Hnd. apply NoDup_cons in Hnd as [Hni Hnd].
  assert (Hx := Hl x (list_elem_of_here _ _)).
  assert (Hrest : forall k, k <> tk_ID x ->
    bool_decide (k ∈ tk_ID <$> x :: l) = bool_decide (k ∈ tk_ID <$> l)).
  { intros k Hk. apply bool_decide_ext. rewrite fmap_cons, elem_of_cons. naive_solver. }
  destruct (closes h u x) eqn:E.
  - destruct (coll_ok_put c task_key (tk_ID x) (closed_at now x) Hc) as (c1 & -> & Hc1 & Hm & _);
      [done|].
    destruct (IH c1 Hc1 Hnd) as (c' & -> & Hc' & Hs).
    { intros y Hy. rewrite Hm, lookup_insert_ne; [by apply Hl, list_elem_of_further|].
      intros Heq. apply Hni. rewrite Heq. by apply list_elem_of_fmap_2. }
    exists c'. split_and!; try done. intros k. rewrite Hs, Hm.
    destruct (decide (k = tk_ID x)) as [->|Hne].
    + rewrite lookup_insert_eq, Hx, fmap_cons. cbn [fmap option_fmap option_map]. rewrite (bool_decide_false _ Hni).
      rewrite bool_decide_true by apply list_elem_of_here. by rewrite E.
    + by rewrite lookup_insert_ne, Hrest.
  - destruct (IH c Hc Hnd) as (c' & -> & Hc' & Hs).
    { intros y Hy. by apply Hl, list_elem_of_further. }
    exists c'. split_and!; try done. intros k. rewrite Hs.
    destruct (decide (k = tk_ID x)) as [->|Hne]; [|by rewrite Hrest].
    rewrite Hx. simpl. by rewrite E, !andb_false_r.
Qed.

(** A [fresh] UUID stays fresh when records are filed under other ids. *)
Lemma fresh_insert {A} (m : gmap string A) p k x u :
  m !! new_id p u = None -> k <> new_id p u -> <[k := x]> m !! new_id p u = None.
Proof. intros H Hk. by rewrite lookup_insert_ne. Qed.

Lemma or_new_ne id new : id <> "" -> or_new id new = id.
Proof. intros. unfold or_new, is_empty. by rewrite bool_decide_false. Qed.

Lemma stamp_old n id id' h : hf_ID h <> "" -> stamp_handoff n id h = stamp_handoff n id' h.
Proof. intros. unfold stamp_handoff. by rewrite !or_new_ne. Qed.

Ltac pg_put key :=
  match goal with
  | |- context [kv_set ?c ?k ?x] =>
      destruct (coll_ok_put c key k x) as (? & -> & ? & ? & ?); [done|try done|]
  end.

Ltac pg_wrote :=
  unfold wrote; simpl; split_and!; auto; try (intros u' ? (? & ? & ?); split_and!; auto).

#[export] Instance pg_ho_laws : HoLaws PgHo.t.
Proof.
  split; simpl.
  - intros s k h (_ & _ & (_ & _ & H) & _). apply H.
  - intros s k r ((_ & _ & H) & _). apply H.
  - intros s t m ((Hu & Hn & _) & _). unfold PgHo.listSalespeople, kv_list. rewrite Hu.
    eexists. split; [done|]. intros r. by rewrite elem_of_sort_by, elem_of_filter_b, kv_values.
  - intros s u (_ & _ & _ & _ & (Hu & Hn & _) & _). unfold PgHo.countOpenTasks, kv_list.
    rewrite Hu. f_equal. by apply count_open_perm, kv_values.
  - intros s k (_ & (Hu & _) & _). unfold PgHo.getScoringSnapshot. rewrite kv_get_up by done.
    by destruct (_ !! k).
  - intros s k (_ & _ & (Hu & _) & _). unfold PgHo.getHandoff. rewrite kv_get_up by done.
    by destruct (_ !! k).
  - intros s (_ & _ & (Hu & Hn & _) & _). unfold PgHo.listHandoffs, kv_list. rewrite Hu.
    eexists. split; [done|]. unfold for_tenant. simpl. by rewrite filter_all, kv_values.
  - intros s h g y (_ & _ & _ & _ & _ & _ & (Hu & _)). unfold PgHo.hasSLAEvent, kv_list.
    by rewrite Hu.
  - intros s n u x (? & ? & ? & ? & ? & ? & ?) Hf. unfold PgHo.saveScoringSnapshot.
    pg_put (@any_key ScoringSnapshot). eexists _, _. split; [done|].
    split; [intros; by apply or_new_ne|]. pg_wrote. rewrite H7. f_equal.
    unfold set_v_snaps, stamp_snapshot. simpl. do 2 f_equal. f_equal. unfold or_new. by case_match.
  - intros s n u x (? & ? & ? & ? & ? & ? & ?) (Hf1 & Hf2 & Hf3) E. unfold PgHo.saveHandoff.
    set (id := new_id "handoff" u) in *.
    assert (Ei : hf_ID (stamp_handoff n id x) = id) by (simpl; by rewrite E).
    rewrite Ei. pg_put handoff_key. eexists _, id. split; [done|]. split; [done|].
    split; [done|]. pg_wrote.
    + by rewrite H7.
    + rewrite H7. apply fresh_insert; [done|by apply new_id_ne].
  - intros s n u x (? & ? & ? & ? & ? & ? & ?) (Hf1 & Hf2 & Hf3) E [y Hy]. unfold PgHo.saveHandoff.
    rewrite (stamp_old n _ (hf_ID x)) by done.
    assert (Ei : hf_ID (stamp_handoff n (hf_ID x) x) = hf_ID x) by (by apply or_new_ne).
    rewrite Ei. pg_put handoff_key. eexists _. split; [done|]. pg_wrote.
    + by rewrite H7.
    + rewrite H7. apply fresh_insert; [done|]. congruence.
  - intros s n u x (? & ? & ? & ? & ? & ? & ?) Hf. unfold PgHo.saveLeadAssignment.
    pg_put (@any_key LeadAssignment). eexists _, _. split; [done|]. pg_wrote.
  - intros s n u x (? & ? & ? & ? & ? & ? & ?) (Hf1 & Hf2 & Hf3) E. unfold PgHo.saveTask.
    set (id := new_id "task" u) in *.
    assert (Ei : tk_ID (stamp_task n id x) = id) by (simpl; by rewrite E).
    rewrite Ei. pg_put task_key. eexists _, id. split; [done|].
    split; [done|]. pg_wrote.
    + by rewrite H7.
    + rewrite H7. apply fresh_insert; [done|by apply new_id_ne].
  - intros s n u h us (? & ? & ? & ? & Ht & ? & ?). unfold PgHo.closeTasksForHandoff, kv_list.
    pose proof Ht as (Hu & Hn & Hk). rewrite Hu.
    assert (Hid : tk_ID <$> (kv_rows (PgHo.tasks s)).*2 = (kv_rows (PgHo.tasks s)).*1).
    { rewrite <- list_fmap_compose. apply list_fmap_ext. intros i [k x] Hi. simpl.
      apply (Hk k). rewrite kv_map_lookup. apply rows_get_elem; [done|].
      by apply list_elem_of_lookup_2 in Hi. }
    destruct (close_each_spec n h us (kv_rows (PgHo.tasks s)).*2 (PgHo.tasks s)) as (c' & -> & Hc & Hm);
      [done|by rewrite Hid| |].
    { intros x ([k y] & -> & Hx)%list_elem_of_fmap. simpl.
      assert (Hl : kv_map (PgHo.tasks s) !! k = Some y).
      { rewrite kv_map_lookup. by apply rows_get_elem. }
      by rewrite (Hk _ _ Hl). }
    eexists. split; [done|].
    assert (Em : kv_map c' = close_in n h us (kv_map (PgHo.tasks s))).
    { apply map_eq. intros k. rewrite Hm. unfold close_in. rewrite lookup_fmap.
      destruct (kv_map (PgHo.tasks s) !! k) eqn:E; [|done]. simpl. rewrite bool_decide_true; [done|].
      rewrite Hid. destruct (decide (k ∈ (kv_rows (PgHo.tasks s)).*1)) as [|Hne]; [done|].
      apply rows_get_None in Hne. rewrite kv_map_lookup in E. congruence. }
    pg_wrote; rewrite Em; [done|]. unfold close_in. rewrite lookup_fmap. by apply fmap_None.
  - intros s n u x (? & ? & ? & ? & ? & ? & ?) Hf. unfold PgHo.addTaskEvent.
    pg_put (@any_key TaskEvent). eexists _, _. split; [done|]. pg_wrote.
  - intros s n u x (? & ? & ? & ? & ? & ? & ?) (Hf1 & Hf2 & Hf3) E. unfold PgHo.addSLAEvent.
    set (id := new_id "sla_event" u) in *.
    assert (Ei : sv_ID (stamp_sla n id x) = id) by (simpl; by rewrite E).
    rewrite Ei. pg_put (@any_key SLAEvent). eexists _, id. split; [done|].
    pg_wrote.
    + rewrite H8. rewrite kv_map_lookup, rows_get_None in Hf3. by rewrite rows_put_new, fmap_app.
    + rewrite H7. apply fresh_insert; [done|by apply new_id_ne].
Qed.
