(* ===== verification/HandoffService.v ===== *)
(** * handoff: service and handlers

    [internal/service/service.go] and [internal/handler/handler.go] on any
    store.  The clock of the service, the wall clock the stores read and the
    UUIDs are the record [HoEnv]; errors of calls whose results the code
    discards are discarded here ([try]). *)

From S2P Require Import Prelude GoTime Float64 Kv GoMonad GoStrings Handoff.

Open Scope Z_scope.

(** [t.Sub(u)]: a [time.Duration] saturates at the int64 range. *)
Definition time_sub (t u : Z) : Z := Z.max (- 2^63) (Z.min (2^63 - 1) (t - u)).

(** [s.now()], [time.Now()] inside the stores, and [uuid.NewString()]. *)
Record HoEnv := mkHoEnv { e_now : nat -> Z; e_clock : nat -> Z; e_uuid : nat -> string }.

(** The store and how often each source was read. *)
Record Ho (T : Type) := mkHo { ho_store : T; ho_reads : nat; ho_ids : nat }.
Arguments mkHo {T}.
Arguments ho_store {T} h.
Arguments ho_reads {T} h.
Arguments ho_ids {T} h.

(** ** Updates of a handoff *)

Definition with_status (h : Handoff) (status : string) (ack esc : option Z) : Handoff :=
  mkHandoff (hf_ID h) (hf_TenantID h) (hf_LeadID h) (hf_Reason h) (hf_Summary h)
    (hf_ScoringSnapshotID h) (hf_AssignedUserID h) (hf_ManagerUserID h) status (hf_SLADeadline h)
    (hf_CreatedAt h) ack esc.

Definition with_assignee (h : Handoff) (userID : string) (deadline : Z) : Handoff :=
  mkHandoff (hf_ID h) (hf_TenantID h) (hf_LeadID h) (hf_Reason h) (hf_Summary h)
    (hf_ScoringSnapshotID h) userID (hf_ManagerUserID h) HandoffStatusReassigned deadline
    (hf_CreatedAt h) (hf_AcknowledgedAt h) (hf_EscalatedAt h).

Definition slaDuration (req : CreateHandoffRequest) (snapshot : ScoringSnapshot) : Z :=
  if isHot (ss_Temperature snapshot) then 5 * minute
  else if bool_decide (chr_Reason req = "site_visit_booking") || ss_ShouldCreateSiteVisit snapshot
  then 30 * minute
  else 30 * minute.

(** The buyers that are not handed to a person. *)
Definition not_a_buyer (snapshot : ScoringSnapshot) : bool :=
  bool_decide (ss_BuyerType snapshot = BuyerTypeBroker)
  || bool_decide (ss_BuyerType snapshot = BuyerTypeFake).

Section Service.
Context {T : Type} `{!HoStore T} (env : HoEnv).

Abbreviation W := (Ho T).
Abbreviation MH := (M W string).

Definition now : MH Z := fun w =>
  (mkHo (ho_store w) (S (ho_reads w)) (ho_ids w), inr (e_now env (ho_reads w))).

(** A store method that writes: it reads the wall clock and takes an id. *)
Definition st {A} (f : T -> Z -> string -> T * (string + A)) : MH A := fun w =>
  let '(s, r) := f (ho_store w) (e_clock env (ho_reads w)) (e_uuid env (ho_ids w)) in
  (mkHo s (S (ho_reads w)) (S (ho_ids w)), r).

(** A store method that only reads. *)
Definition rd {A} (f : T -> string + A) : MH A := fun w => (w, f (ho_store w)).

(** [_, _ = s.store.AddTaskEvent(...)]. *)
Definition task_event (tenantID taskID handoffID type : string) (payload : list (string * string))
    (at_ : Z) : MH (string + TaskEvent) :=
  try (st (fun s n u => AddTaskEvent s n u
         (mkTaskEvent "" tenantID taskID handoffID type payload at_))).

Definition sla_event (h : Handoff) (stage type userID : string) (at_ : Z)
    : MH (string + SLAEvent) :=
  try (st (fun s n u => AddSLAEvent s n u
         (mkSLA "" (hf_TenantID h) (hf_ID h) stage type userID at_))).

(** The part of [CreateHandoff] for brokers and fakes. *)
Definition suggest_suppression (tenantID : string) (req : CreateHandoffRequest)
    (snapshot : ScoringSnapshot) (at_ : Z) : MH Handoff :=
  let! handoff := st (fun s n u => SaveHandoff s n u
    (mkHandoff "" tenantID (chr_LeadID req) (chr_Reason req) (chr_Summary req)
       (chr_ScoringSnapshotID req) "" "" HandoffStatusSuppressionSuggested time_zero at_
       None None)) in
  let! _ := task_event tenantID "" (hf_ID handoff) "suppression_suggested"
              [("buyer_type", ss_BuyerType snapshot)]%string at_ in
  ret handoff.

(** The part of [CreateHandoff] after a salesperson was chosen. *)
Definition assign_handoff (tenantID : string) (req : CreateHandoffRequest)
    (snapshot : ScoringSnapshot) (rep : Salesperson) (at_ : Z) : MH Handoff :=
  let deadline := at_ + slaDuration req snapshot in
  let! handoff := st (fun s n u => SaveHandoff s n u
    (mkHandoff "" tenantID (chr_LeadID req) (chr_Reason req) (chr_Summary req)
       (chr_ScoringSnapshotID req) (sp_ID rep) (sp_ManagerID rep) HandoffStatusPendingAck
       deadline at_ None None)) in
  let! task := st (fun s n u => SaveTask s n u
    (mkTask "" tenantID (hf_ID handoff) (chr_LeadID req) (sp_ID rep) "ack_handoff" TaskStatusOpen
       deadline at_ None)) in
  let! _ := st (fun s n u => SaveLeadAssignment s n u
    (mkAssignment "" tenantID (chr_LeadID req) (sp_ID rep) (hf_ID handoff) at_)) in
  let! _ := task_event tenantID (tk_ID task) (hf_ID handoff) "handoff_created"
              [("assigned_user_id", sp_ID rep); ("temperature", ss_Temperature snapshot)]%string
              at_ in
  let! _ := sla_event handoff "rep" "sla_started" (sp_ID rep) at_ in
  ret handoff.

Definition CreateHandoff (req : CreateHandoffRequest) : MH Handoff :=
  let! _ := ensure (negb (is_empty (chr_LeadID req) || is_empty (chr_ScoringSnapshotID req)))
              "lead_id and scoring_snapshot_id are required" in
  let! snapshot := rd (fun s => GetScoringSnapshot s (chr_ScoringSnapshotID req)) in
  let tenantID := first_nonempty (chr_TenantID req) (ss_TenantID snapshot) in
  let! at_ := now in
  if not_a_buyer snapshot then suggest_suppression tenantID req snapshot at_
  else
    let! reps := rd (fun s => ListSalespeople s tenantID (ss_TeamID snapshot)) in
    let! rep := rd (fun s => Select s reps snapshot) in
    assign_handoff tenantID req snapshot rep at_.

Definition AcknowledgeHandoff (handoffID userID : string) : MH Handoff :=
  let! handoff := rd (fun s => GetHandoff s handoffID) in
  let! _ := ensure (bool_decide (hf_AssignedUserID handoff = userID))
              ("handoff assigned to " ++ quote (hf_AssignedUserID handoff) ++ ", not " ++ quote userID)%string in
  let! at_ := now in
  let handoff := with_status handoff HandoffStatusAcknowledged (Some at_)
                   (hf_EscalatedAt handoff) in
  let! _ := st (fun s n _ => CloseTasksForHandoff s n (hf_ID handoff) userID) in
  let! handoff := st (fun s n u => SaveHandoff s n u handoff) in
  let! _ := task_event (hf_TenantID handoff) "" (hf_ID handoff) "handoff_acknowledged"
              [("user_id", userID)]%string at_ in
  ret handoff.

Definition escalate (handoff : Handoff) (reason : string) : MH Handoff :=
  let! at_ := now in
  let handoff := with_status handoff HandoffStatusEscalated (hf_AcknowledgedAt handoff)
                   (Some at_) in
  let! handoff := st (fun s n u => SaveHandoff s n u handoff) in
  let! _ := task_event (hf_TenantID handoff) "" (hf_ID handoff) "handoff_escalated"
              [("reason", reason); ("manager_user_id", hf_ManagerUserID handoff)]%string at_ in
  let! _ := sla_event handoff "manager" "escalated" (hf_ManagerUserID handoff) at_ in
  ret handoff.

Definition EscalateHandoff (handoffID : string) : MH Handoff :=
  let! handoff := rd (fun s => GetHandoff s handoffID) in
  escalate handoff "manual".

Definition ReassignHandoff (handoffID newUserID : string) : MH Handoff :=
  let! handoff := rd (fun s => GetHandoff s handoffID) in
  let! at_ := now in
  let handoff := with_assignee handoff newUserID (at_ + 5 * minute) in
  let! handoff := st (fun s n u => SaveHandoff s n u handoff) in
  let! _ := st (fun s n u => SaveLeadAssignment s n u
    (mkAssignment "" (hf_TenantID handoff) (hf_LeadID handoff) newUserID (hf_ID handoff) at_)) in
  let! _ := task_event (hf_TenantID handoff) "" (hf_ID handoff) "handoff_reassigned"
              [("new_user_id", newUserID)]%string at_ in
  ret handoff.

(** Whether a stage of the SLA is due and was not announced yet. *)
Definition stage_due (handoff : Handoff) (elapsed limit : Z) (stage type : string) : MH bool :=
  gets (fun w => (limit <=? elapsed) && negb (HasSLAEvent (ho_store w) (hf_ID handoff) stage type)).

(** The body of the loop of [EvaluateSLAs]. *)
Definition evaluate_one (at_ : Z) (handoff : Handoff) : MH unit :=
  if negb (bool_decide (hf_Status handoff = HandoffStatusPendingAck))
     && negb (bool_decide (hf_Status handoff = HandoffStatusEscalated))
  then ret tt
  else
    let elapsed := time_sub at_ (hf_CreatedAt handoff) in
    let! rep_due := stage_due handoff elapsed (5 * minute) "rep" "sla_missed" in
    let! _ := (if rep_due : bool then
                 let! _ := sla_event handoff "rep" "sla_missed" (hf_AssignedUserID handoff) at_ in
                 let! _ := escalate handoff "sla_missed" in ret tt
               else ret tt) in
    let! manager_due := stage_due handoff elapsed (10 * minute) "manager" "sla_missed" in
    let! _ := (if manager_due : bool then
                 let! _ := sla_event handoff "manager" "sla_missed" (hf_ManagerUserID handoff) at_ in
                 ret tt
               else ret tt) in
    let! owner_due := stage_due handoff elapsed (20 * minute) "tenant_owner" "alerted" in
    if owner_due : bool then
      let! _ := sla_event handoff "tenant_owner" "alerted" "" at_ in ret tt
    else ret tt.

Definition EvaluateSLAs (at_ : Z) : MH unit :=
  let! handoffs := rd (fun s => ListHandoffs s "") in
  for_each (evaluate_one at_) handoffs.

(** ** Handlers

    The answer is the status and either the error text or the handoff. *)

Definition respond (m : MH Handoff) (ok err : Z) (w : W) : W * (Z * (string + Handoff)) :=
  let '(w', r) := m w in (w', (match r with inr _ => ok | inl _ => err end, r)).

Definition handleCreateHandoff (req : option CreateHandoffRequest) (w : W)
    : W * (Z * (string + Handoff)) :=
  match req with
  | None => (w, (400, inl "invalid json"))
  | Some r => respond (CreateHandoff r) 201 400 w
  end.

(** [user_id] and [new_user_id] are what the decoder left of the body. *)
Definition handleHandoffAction (path user_id new_user_id : string) (w : W)
    : W * (Z * (string + Handoff)) :=
  match split_on (Ascii.ascii_of_N 47) path with
  | [id; action] =>
      if decide (action = "ack") then respond (AcknowledgeHandoff id user_id) 200 400 w
      else if decide (action = "escalate") then respond (EscalateHandoff id) 200 400 w
      else if decide (action = "reassign") then respond (ReassignHandoff id new_user_id) 200 400 w
      else (w, (404, inl "unknown handoff action"))
  | _ => (w, (404, inl "unknown handoff action"))
  end.

Definition with_snapshot_id (r : CreateHandoffRequest) (id : string) : CreateHandoffRequest :=
  mkCreate (chr_TenantID r) (chr_LeadID r) (chr_Reason r) (chr_Summary r) id.

Definition handleCreateHandoffFromCall
    (body : option (CreateHandoffRequest * option ScoringSnapshot)) (w : W)
    : W * (Z * (string + Handoff)) :=
  match body with
  | None => (w, (400, inl "invalid json"))
  | Some (r, None) => respond (CreateHandoff r) 201 400 w
  | Some (r, Some snapshot) =>
      match st (fun s n u => SaveScoringSnapshot s n u snapshot) w with
      | (w', inl e) => (w', (500, inl ("save snapshot: " ++ e)%string))
      | (w', inr _) => respond (CreateHandoff (with_snapshot_id r (ss_ID snapshot))) 201 400 w'
      end
  end.

End Service.
