(* ===== verification/HandoffRuns.v ===== *)
(** * handoff: a calculus for runs of the service

    [wp] is total correctness over the contents of the store, with one rule per
    primitive step and per operation on a single handoff, proved against
    [HoLaws], which both stores satisfy. *)

From S2P Require Import Prelude GoTime Float64 Kv GoMonad GoStrings Handoff HandoffLaws HandoffService.

Open Scope Z_scope.

(** ** The clock and the UUIDs: no two UUIDs agree, no clock shows year 1. *)
Class SaneEnv (env : HoEnv) : Prop := {
  sane_uuid : Inj (=) (=) (e_uuid env);
  sane_clock n : is_zero (e_clock env n) = false
}.

Definition dated (v : hview) : Prop :=
  map_Forall (fun _ h => is_zero (hf_CreatedAt h) = false) (v_handoffs v).

(** An appended SLA event, by what the queries look at. *)
Definition adds_sla (id stage type : string) (v v' : hview) : Prop :=
  exists e, sv_HandoffID e = id /\ sv_Stage e = stage /\ sv_Type e = type /\
    v' = set_v_sla (v_sla v ++ [e]) v.

Definition escalated (h : Handoff) (t : Z) : Handoff :=
  with_status h HandoffStatusEscalated (hf_AcknowledgedAt h) (Some t).

Lemma stamp_same n h : hf_ID h <> "" -> is_zero (hf_CreatedAt h) = false ->
  stamp_handoff n (hf_ID h) h = h.
Proof.
  intros Hn Hz. unfold stamp_handoff, or_now. rewrite Hz, or_new_ne by done. by destruct h.
Qed.

Section Runs.
Context {T : Type} `{HoLaws T} (env : HoEnv) `{!SaneEnv env}.

Definition contents (w : Ho T) : hview := view (ho_store w).

(** A store that answers, the UUIDs to come unused, every handoff dated. *)
Definition hinv (w : Ho T) : Prop :=
  ok (ho_store w) /\ (forall n, (ho_ids w <= n)%nat -> fresh (ho_store w) (e_uuid env n)) /\
  dated (contents w).

(** ** Total correctness

    [wp m w Q]: from [w], [m] succeeds, keeps [hinv], and its value and the
    contents it leaves satisfy [Q]. *)
Definition wp {A} (m : M (Ho T) string A) (w : Ho T) (Q : A -> hview -> Prop) : Prop :=
  exists w' a, m w = (w', inr a) /\ hinv w' /\ Q a (contents w').

Lemma wp_bind {A B} (m : M (Ho T) string A) (f : A -> M (Ho T) string B) w Q :
  wp m w (fun a v => forall w', hinv w' -> contents w' = v -> wp (f a) w' Q) -> wp (bind m f) w Q.
Proof.
  intros (w1 & a & E & Hi & Hf). destruct (Hf w1 Hi eq_refl) as (w2 & b & E2 & ?).
  exists w2, b. unfold bind. by rewrite E.
Qed.

Lemma wp_mono {A} (m : M (Ho T) string A) w (Q Q' : A -> hview -> Prop) :
  wp m w Q -> (forall a v, Q a v -> Q' a v) -> wp m w Q'.
Proof. intros (w' & a & ? & ? & ?) HQ. exists w', a. auto. Qed.

Lemma wp_ret {A} (a : A) w (Q : A -> hview -> Prop) : hinv w -> Q a (contents w) -> wp (ret a) w Q.
Proof. intros. by exists w, a. Qed.

Lemma wp_gets {A} (f : Ho T -> A) w (Q : A -> hview -> Prop) :
  hinv w -> Q (f w) (contents w) -> wp (gets f) w Q.
Proof. intros. by exists w, (f w). Qed.

Lemma wp_ensure b e w (Q : unit -> hview -> Prop) :
  hinv w -> b = true -> Q tt (contents w) -> wp (ensure b e) w Q.
Proof. intros ? -> ?. by exists w, tt. Qed.

Lemma wp_now w (Q : Z -> hview -> Prop) :
  hinv w -> Q (e_now env (ho_reads w)) (contents w) -> wp (now env) w Q.
Proof. intros. eexists _, _. by split. Qed.

Lemma wp_rd {A} (f : T -> string + A) w a (Q : A -> hview -> Prop) :
  hinv w -> f (ho_store w) = inr a -> Q a (contents w) -> wp (rd f) w Q.
Proof. intros Hi E HQ. exists w, a. unfold rd. by rewrite E. Qed.

(** A write of the store, by its law. *)
Lemma wp_st {A} (f : T -> Z -> string -> T * (string + A)) w a s' v (Q : A -> hview -> Prop) :
  hinv w ->
  f (ho_store w) (e_clock env (ho_reads w)) (e_uuid env (ho_ids w)) = (s', inr a) ->
  wrote (ho_store w) (e_uuid env (ho_ids w)) s' v -> dated v -> Q a v -> wp (st env f) w Q.
Proof.
  intros (Hok & Hf & _) E (Hok' & Hv & Hf') Hd HQ. unfold wp, st. rewrite E.
  eexists _, _. split; [done|]. unfold hinv, contents. simpl. rewrite Hv. split; [|done].
  split; [done|]. split; [|done]. intros n Hn. apply Hf'; [|apply Hf; lia].
  intros Heq. apply sane_uuid in Heq. lia.
Qed.

Lemma wp_try {A} (m : M (Ho T) string A) w (Q : string + A -> hview -> Prop) :
  wp m w (fun a => Q (inr a)) -> wp (try m) w Q.
Proof. intros (w' & a & E & ? & ?). exists w', (inr a). unfold try. by rewrite E. Qed.

Lemma hinv_fresh w : hinv w -> ok (ho_store w) /\ fresh (ho_store w) (e_uuid env (ho_ids w)).
Proof. intros (? & Hf & _). split; [done|]. by apply Hf. Qed.

Lemma wp_task_event w tn tid hid y p at_ (Q : string + TaskEvent -> hview -> Prop) :
  hinv w -> (forall a, Q a (contents w)) -> wp (task_event env tn tid hid y p at_) w Q.
Proof.
  intros Hi HQ. destruct (hinv_fresh w Hi) as [Ho Hf].
  destruct (law_task_event (ho_store w) (e_clock env (ho_reads w)) (e_uuid env (ho_ids w))
    (mkTaskEvent "" tn tid hid y p at_) Ho Hf) as (s' & a & E & Hw).
  apply wp_try. eapply wp_st; [done|exact E|exact Hw|apply Hi|apply HQ].
Qed.

Lemma wp_sla_event w h g y u at_ (Q : string + SLAEvent -> hview -> Prop) :
  hinv w -> (forall a v, adds_sla (hf_ID h) g y (contents w) v -> Q a v) ->
  wp (sla_event env h g y u at_) w Q.
Proof.
  intros Hi HQ. destruct (hinv_fresh w Hi) as [Ho Hf].
  destruct (law_sla (ho_store w) (e_clock env (ho_reads w)) (e_uuid env (ho_ids w))
    (mkSLA "" (hf_TenantID h) (hf_ID h) g y u at_) Ho Hf eq_refl) as (s' & id & E & Hw).
  apply wp_try. eapply wp_st; [done|exact E|exact Hw|apply Hi|].
  apply HQ. eexists. split_and!; [..|reflexivity]; done.
Qed.

(** Saving a handoff that is stored already. *)
Lemma wp_put_handoff w h (Q : Handoff -> hview -> Prop) :
  hinv w -> is_Some (v_handoffs (contents w) !! hf_ID h) -> hf_ID h <> "" ->
  is_zero (hf_CreatedAt h) = false ->
  Q h (set_v_handoffs (<[hf_ID h := h]> (v_handoffs (contents w))) (contents w)) ->
  wp (st env (fun s n u => SaveHandoff s n u h)) w Q.
Proof.
  intros Hi Hs Hn Hz HQ. destruct (hinv_fresh w Hi) as [Ho Hf].
  destruct (law_put_handoff (ho_store w) (e_clock env (ho_reads w)) (e_uuid env (ho_ids w)) h Ho Hf
    Hn Hs) as (s' & E & Hw).
  rewrite stamp_same in E, Hw by done. eapply wp_st; [done|exact E|exact Hw| |exact HQ].
  apply map_Forall_insert_2; [done|apply Hi].
Qed.

(** Saving a new one: its id is unused. *)
Lemma wp_new_handoff w h (Q : Handoff -> hview -> Prop) :
  hinv w -> hf_ID h = "" ->
  (forall id c, id <> "" -> v_handoffs (contents w) !! id = None ->
     is_zero (or_now (hf_CreatedAt h) c) = false ->
     Q (stamp_handoff c id h)
       (set_v_handoffs (<[id := stamp_handoff c id h]> (v_handoffs (contents w))) (contents w))) ->
  wp (st env (fun s n u => SaveHandoff s n u h)) w Q.
Proof.
  intros Hi En HQ. destruct (hinv_fresh w Hi) as [Ho Hf].
  destruct (law_new_handoff (ho_store w) (e_clock env (ho_reads w)) (e_uuid env (ho_ids w)) h Ho Hf
    En) as (s' & id & E & Hne & Hl & Hw).
  assert (Hz : is_zero (or_now (hf_CreatedAt h) (e_clock env (ho_reads w))) = false).
  { unfold or_now. destruct (is_zero (hf_CreatedAt h)) eqn:Ez; [apply sane_clock|done]. }
  eapply wp_st; [done|exact E|exact Hw| |by apply HQ].
  apply map_Forall_insert_2; [done|apply Hi].
Qed.

Lemma wp_new_task w x (Q : Task -> hview -> Prop) :
  hinv w -> tk_ID x = "" ->
  (forall id c, v_tasks (contents w) !! id = None ->
     Q (stamp_task c id x)
       (set_v_tasks (<[id := stamp_task c id x]> (v_tasks (contents w))) (contents w))) ->
  wp (st env (fun s n u => SaveTask s n u x)) w Q.
Proof.
  intros Hi En HQ. destruct (hinv_fresh w Hi) as [Ho Hf].
  destruct (law_new_task (ho_store w) (e_clock env (ho_reads w)) (e_uuid env (ho_ids w)) x Ho Hf
    En) as (s' & id & E & Hl & Hw).
  eapply wp_st; [done|exact E|exact Hw|apply Hi|by apply HQ].
Qed.

Lemma wp_assignment w x (Q : LeadAssignment -> hview -> Prop) :
  hinv w -> (forall a, Q a (contents w)) ->
  wp (st env (fun s n u => SaveLeadAssignment s n u x)) w Q.
Proof.
  intros Hi HQ. destruct (hinv_fresh w Hi) as [Ho Hf].
  destruct (law_assignment (ho_store w) (e_clock env (ho_reads w)) (e_uuid env (ho_ids w)) x Ho Hf)
    as (s' & a & E & Hw).
  eapply wp_st; [done|exact E|exact Hw|apply Hi|apply HQ].
Qed.

Lemma wp_close w hid us (Q : unit -> hview -> Prop) :
  hinv w ->
  (forall n, Q tt (set_v_tasks (close_in n hid us (v_tasks (contents w))) (contents w))) ->
  wp (st env (fun s n _ => CloseTasksForHandoff s n hid us)) w Q.
Proof.
  intros Hi HQ. destruct (hinv_fresh w Hi) as [Ho Hf].
  destruct (law_close (ho_store w) (e_clock env (ho_reads w)) (e_uuid env (ho_ids w)) hid us Ho)
    as (s' & E & Hw).
  eapply wp_st; [done|exact E|exact Hw|apply Hi|apply HQ].
Qed.

Lemma wp_save_snap w x (Q : unit -> hview -> Prop) :
  hinv w ->
  (forall id, (ss_ID x <> "" -> id = ss_ID x) ->
     Q tt (set_v_snaps (<[id := stamp_snapshot id x]> (v_snaps (contents w))) (contents w))) ->
  wp (st env (fun s n u => SaveScoringSnapshot s n u x)) w Q.
Proof.
  intros Hi HQ. destruct (hinv_fresh w Hi) as [Ho Hf].
  destruct (law_save_snap (ho_store w) (e_clock env (ho_reads w)) (e_uuid env (ho_ids w)) x Ho Hf)
    as (s' & id & E & Hid & Hw).
  eapply wp_st; [done|exact E|exact Hw|apply Hi|by apply HQ].
Qed.

(** A stored handoff has its id and a date. *)
Lemma stored_handoff w k h :
  hinv w -> v_handoffs (contents w) !! k = Some h ->
  hf_ID h = k /\ k <> "" /\ is_zero (hf_CreatedAt h) = false /\
  GetHandoff (ho_store w) k = inr h.
Proof.
  intros (Ho & _ & Hd) E. destruct (ok_handoff _ _ _ Ho E) as [Hk Hn]. split_and!; try done.
  - by apply (Hd k).
  - rewrite law_get_handoff by done. unfold contents in E. by rewrite E.
Qed.

(** ** The operations on one handoff *)

Lemma wp_escalate w h reason (Q : Handoff -> hview -> Prop) :
  hinv w -> is_Some (v_handoffs (contents w) !! hf_ID h) -> hf_ID h <> "" ->
  is_zero (hf_CreatedAt h) = false ->
  (forall t v, adds_sla (hf_ID h) "manager" "escalated"
      (set_v_handoffs (<[hf_ID h := escalated h t]> (v_handoffs (contents w))) (contents w)) v ->
    Q (escalated h t) v) ->
  wp (escalate env h reason) w Q.
Proof.
  intros Hi Hs Hn Hz HQ. apply wp_bind, wp_now; [done|]. intros w1 Hi1 Hv1.
  apply wp_bind, wp_put_handoff; [done|by rewrite Hv1|done|done|]. intros w2 Hi2 Hv2.
  apply wp_bind, wp_task_event; [done|]. intros a w3 Hi3 Hv3.
  apply wp_bind, wp_sla_event; [done|]. intros b v Ha w4 Hi4 Hv4.
  apply wp_ret; [done|]. apply HQ. rewrite Hv4. by rewrite Hv3, Hv2, Hv1 in Ha.
Qed.

Lemma wp_reassign w k h u (Q : Handoff -> hview -> Prop) :
  hinv w -> v_handoffs (contents w) !! k = Some h ->
  (forall t, let h' := with_assignee h u (t + 5 * minute) in
     Q h' (set_v_handoffs (<[k := h']> (v_handoffs (contents w))) (contents w))) ->
  wp (ReassignHandoff env k u) w Q.
Proof.
  intros Hi Hs HQ. destruct (stored_handoff w k h Hi Hs) as (Hk & Hn & Hz & Hg).
  apply wp_bind. eapply wp_rd; [done|exact Hg|]. intros w0 Hi0 Hv0.
  apply wp_bind, wp_now; [done|]. intros w1 Hi1 Hv1.
  apply wp_bind, wp_put_handoff; [done| |simpl; by rewrite Hk|done|].
  { simpl. rewrite Hv1, Hv0, Hk. eauto. }
  intros w2 Hi2 Hv2. apply wp_bind, wp_assignment; [done|]. intros a w3 Hi3 Hv3.
  apply wp_bind, wp_task_event; [done|]. intros b w4 Hi4 Hv4.
  apply wp_ret; [done|]. rewrite Hv4, Hv3, Hv2, Hv1, Hv0. simpl. rewrite Hk. apply HQ.
Qed.

Lemma wp_ack w k h (Q : Handoff -> hview -> Prop) :
  hinv w -> v_handoffs (contents w) !! k = Some h ->
  (forall t n, let h' := with_status h HandoffStatusAcknowledged (Some t) (hf_EscalatedAt h) in
     Q h' (set_v_handoffs (<[k := h']> (v_handoffs (contents w)))
            (set_v_tasks (close_in n k (hf_AssignedUserID h) (v_tasks (contents w)))
              (contents w)))) ->
  wp (AcknowledgeHandoff env k (hf_AssignedUserID h)) w Q.
Proof.
  intros Hi Hs HQ. destruct (stored_handoff w k h Hi Hs) as (Hk & Hn & Hz & Hg).
  apply wp_bind. eapply wp_rd; [done|exact Hg|]. intros w0 Hi0 Hv0.
  apply wp_bind, wp_ensure; [done|by apply bool_decide_true|]. intros w1 Hi1 Hv1.
  apply wp_bind, wp_now; [done|]. intros w2 Hi2 Hv2.
  apply wp_bind, wp_close; [done|]. intros n w3 Hi3 Hv3.
  apply wp_bind, wp_put_handoff; [done| |simpl; by rewrite Hk|done|].
  { rewrite Hv3. simpl. rewrite Hv2, Hv1, Hv0, Hk. eauto. }
  intros w4 Hi4 Hv4. apply wp_bind, wp_task_event; [done|]. intros b w5 Hi5 Hv5.
  apply wp_ret; [done|]. rewrite Hv5, Hv4, Hv3. simpl. rewrite Hv2, Hv1, Hv0, Hk. apply HQ.
Qed.
End Runs.

(** * handoff: SLA evaluation and choice of a salesperson, step by step

    What one evaluation of a list of handoffs does to the contents of the store,
    and what [Select] chooses, over [HoLaws]. *)

(** ** Evaluating the SLAs *)

(** How often an SLA event was recorded for a handoff. *)
Definition sla_count (id stage type : string) (v : hview) : Z :=
  Z.of_nat (length (List.filter (is_sla id stage type) (v_sla v))).

(** The alerts of [EvaluateSLAs] and the age at which they are due. *)
Definition alerts : list (string * string * Z) :=
  [("rep", "sla_missed", 5 * minute); ("manager", "sla_missed", 10 * minute);
   ("tenant_owner", "alerted", 20 * minute)]%string.

Definition tracked (h : Handoff) : bool :=
  bool_decide (hf_Status h = HandoffStatusPendingAck)
  || bool_decide (hf_Status h = HandoffStatusEscalated).

(** The handoff is still tracked and at least as old as the limit. *)
Definition overdue (at_ limit : Z) (h : Handoff) : bool :=
  tracked h && (limit <=? time_sub at_ (hf_CreatedAt h)).

Definition due (at_ : Z) (h : Handoff) (alert : string * string * Z) (v : hview) : bool :=
  let '(stage, type, limit) := alert in
  overdue at_ limit h && (sla_count (hf_ID h) stage type v =? 0).

Lemma sla_count_app id g y v e :
  sla_count id g y (set_v_sla (v_sla v ++ [e]) v)
  = sla_count id g y v + (if is_sla id g y e then 1 else 0).
Proof.
  unfold sla_count. simpl. rewrite List.filter_app, length_app. simpl.
  destruct (is_sla id g y e); simpl; lia.
Qed.

Lemma adds_sla_count id g y v v' id' g' y' :
  adds_sla id g y v v' ->
  sla_count id' g' y' v' = sla_count id' g' y' v
    + (if bool_decide (id = id') && bool_decide (g = g') && bool_decide (y = y') then 1 else 0).
Proof. intros (e & <- & <- & <- & ->). apply sla_count_app. Qed.

Lemma existsb_count id g y v :
  negb (List.existsb (is_sla id g y) (v_sla v)) = (sla_count id g y v =? 0).
Proof.
  unfold sla_count. induction (v_sla v) as [|e l IH]; simpl; [done|].
  by destruct (is_sla id g y e).
Qed.

(** What the evaluation of one handoff does. *)
Record evaluated (at_ : Z) (h : Handoff) (v v' : hview) : Prop := {
  ev_reps : v_reps v' = v_reps v;
  ev_tasks : v_tasks v' = v_tasks v;
  ev_handoffs : if due at_ h ("rep", "sla_missed", 5 * minute)%string v
                then exists t, v_handoffs v' = <[hf_ID h := escalated h t]> (v_handoffs v)
                else v_handoffs v' = v_handoffs v;
  ev_other id g y : id <> hf_ID h -> sla_count id g y v' = sla_count id g y v;
  ev_alert g y limit : (g, y, limit) ∈ alerts ->
    sla_count (hf_ID h) g y v'
    = sla_count (hf_ID h) g y v + (if due at_ h (g, y, limit) v then 1 else 0)
}.

Lemma adds_sla_fields id g y v v' : adds_sla id g y v v' ->
  v_reps v' = v_reps v /\ v_tasks v' = v_tasks v /\ v_handoffs v' = v_handoffs v.
Proof. by intros (e & _ & _ & _ & ->). Qed.

Section Evaluate.
Context {T : Type} `{HoLaws T} (env : HoEnv) `{!SaneEnv env}.

Lemma wp_stage_due w h el limit g y (Q : bool -> hview -> Prop) :
  hinv env w -> Q ((limit <=? el) && (sla_count (hf_ID h) g y (contents w) =? 0)) (contents w) ->
  wp env (stage_due h el limit g y) w Q.
Proof.
  intros Hi HQ. apply wp_gets; [done|]. rewrite law_has_sla by apply Hi.
  by rewrite existsb_count.
Qed.

(** [v'] counts the event [(id, stage, type)] once more if [b], and no other
    event of another kind than [manager, escalated]. *)
Definition counts (b : bool) (id stage type : string) (v v' : hview) : Prop :=
  forall id' g y, (g, y) <> ("manager", "escalated")%string \/ id' <> id ->
    sla_count id' g y v' = sla_count id' g y v
      + (if b && bool_decide (id = id') && bool_decide (stage = g) && bool_decide (type = y)
         then 1 else 0).

Lemma counts_eq {b id stage type v v'} :
  counts b id stage type v v' -> (stage, type) <> ("manager", "escalated")%string ->
  sla_count id stage type v' = sla_count id stage type v + (if b then 1 else 0).
Proof.
  intros Hc Hne. rewrite Hc by (by left). rewrite !bool_decide_true by done.
  by rewrite !andb_true_r.
Qed.

Lemma counts_ne {b id stage type v v' id' g y} :
  counts b id stage type v v' ->
  ((g, y) <> ("manager", "escalated")%string /\ (stage, type) <> (g, y)) \/ id' <> id ->
  sla_count id' g y v' = sla_count id' g y v.
Proof.
  intros Hc Hne. rewrite Hc by naive_solver.
  replace (_ && _ && _) with false; [lia|].
  symmetry. apply not_true_iff_false. intros E. go_bool. naive_solver.
Qed.

Definition same_fields (v v' : hview) : Prop :=
  v_reps v' = v_reps v /\ v_tasks v' = v_tasks v /\ v_handoffs v' = v_handoffs v.

(** The first stage: announce and escalate. *)
Lemma wp_rep_stage w at_ h (b : bool) :
  hinv env w -> is_Some (v_handoffs (contents w) !! hf_ID h) -> hf_ID h <> "" ->
  is_zero (hf_CreatedAt h) = false ->
  wp env (if b then
            let! _ := sla_event env h "rep" "sla_missed" (hf_AssignedUserID h) at_ in
            let! _ := escalate env h "sla_missed" in ret tt
          else ret tt) w (fun _ v =>
    v_reps v = v_reps (contents w) /\ v_tasks v = v_tasks (contents w) /\
    (if b then exists t, v_handoffs v = <[hf_ID h := escalated h t]> (v_handoffs (contents w))
     else v_handoffs v = v_handoffs (contents w)) /\
    counts b (hf_ID h) "rep" "sla_missed" (contents w) v).
Proof.
  intros Hi Hs Hn Hz. destruct b.
  2: { apply wp_ret; [done|]. split_and!; try done. intros id g y _. simpl. lia. }
  apply wp_bind, wp_sla_event; [done..|]. intros a v2 Ha w2 Hi2 Hv2.
  destruct (adds_sla_fields _ _ _ _ _ Ha) as (Hr & Hk & Hh).
  apply wp_bind, wp_escalate; try done; [by rewrite Hv2, Hh|].
  intros t v3 Hb w3 Hi3 Hv3. apply wp_ret; [done|].
  destruct (adds_sla_fields _ _ _ _ _ Hb) as (Hr' & Hk' & Hh'). simpl in Hr', Hk', Hh'.
  rewrite Hv2 in *. rewrite Hv3, Hr', Hk', Hh', Hr, Hk, Hh. split_and!; [done|done|by exists t|].
  intros id g y Hne. rewrite (adds_sla_count _ _ _ _ _ _ _ _ Hb).
  change (sla_count id g y (set_v_handoffs ?x ?v)) with (sla_count id g y v).
  rewrite (adds_sla_count _ _ _ _ _ _ _ _ Ha), andb_true_l.
  repeat case_bool_decide; simpl; try lia; naive_solver.
Qed.

(** The later stages: announce. *)
Lemma wp_alert w at_ h g y u (b : bool) :
  hinv env w ->
  wp env (if b then let! _ := sla_event env h g y u at_ in ret tt else ret tt) w (fun _ v =>
    same_fields (contents w) v /\ counts b (hf_ID h) g y (contents w) v).
Proof.
  intros Hi. destruct b.
  - apply wp_bind, wp_sla_event; [done..|]. intros a v Ha w' Hi' Hv. apply wp_ret; [done|].
    rewrite Hv. split; [by eapply adds_sla_fields|]. intros id' g' y' _.
    by rewrite (adds_sla_count _ _ _ _ _ _ _ _ Ha), andb_true_l.
  - apply wp_ret; [done|]. split; [done..|]. intros id' g' y' _. simpl. lia.
Qed.

Lemma wp_evaluate_one w at_ h :
  hinv env w -> is_Some (v_handoffs (contents w) !! hf_ID h) -> hf_ID h <> "" ->
  is_zero (hf_CreatedAt h) = false ->
  wp env (evaluate_one env at_ h) w (fun _ v => evaluated at_ h (contents w) v).
Proof.
  intros Hi Hs Hn Hz. unfold evaluate_one.
  assert (Ht : negb (bool_decide (hf_Status h = HandoffStatusPendingAck))
    && negb (bool_decide (hf_Status h = HandoffStatusEscalated)) = negb (tracked h)).
  { unfold tracked. by rewrite negb_orb. }
  rewrite Ht. destruct (tracked h) eqn:Et; simpl negb; cbv iota.
  2: { apply wp_ret; [done|]. split; [done|done| |done|]; unfold due, overdue; rewrite Et; simpl.
       - done.
       - intros g y limit _. lia. }
  set (el := time_sub at_ (hf_CreatedAt h)).
  apply wp_bind, wp_stage_due; [done..|]. intros w1 Hi1 Hv1.
  apply wp_bind. eapply wp_mono; [apply wp_rep_stage; try done; by rewrite Hv1|].
  intros _ v2 (Hr2 & Hk2 & Hh2 & Hc2) w2 Hi2 Hv2.
  apply wp_bind, wp_stage_due; [done..|]. intros w3 Hi3 Hv3.
  apply wp_bind. eapply wp_mono; [by apply wp_alert|].
  intros _ v4 ((Hr4 & Hk4 & Hh4) & Hc4) w4 Hi4 Hv4.
  apply wp_bind, wp_stage_due; [done..|]. intros w5 Hi5 Hv5.
  eapply wp_mono; [by apply wp_alert|]. intros _ v6 ((Hr6 & Hk6 & Hh6) & Hc6).
  rewrite Hv5, Hv4 in *. rewrite Hv3, Hv2 in *. rewrite Hv1 in *.
  assert (Hd : forall g y limit v, due at_ h (g, y, limit) v
    = (limit <=? el) && (sla_count (hf_ID h) g y v =? 0)).
  { intros. unfold due, overdue. by rewrite Et. }
  split.
  - congruence.
  - congruence.
  - rewrite Hd, Hh6, Hh4. exact Hh2.
  - intros id g y Hid.
    by rewrite (counts_ne Hc6), (counts_ne Hc4), (counts_ne Hc2) by (right; done || left; done).
  - intros g y limit Ha. rewrite Hd. unfold alerts in Ha. rewrite !elem_of_cons in Ha.
    destruct Ha as [[= -> -> ->]|[[= -> -> ->]|[[= -> -> ->]|[]%elem_of_nil]]].
    + rewrite (counts_ne Hc6), (counts_ne Hc4) by (left; done). by rewrite (counts_eq Hc2).
    + rewrite (counts_ne Hc6) by (left; done). rewrite (counts_eq Hc4) by done.
      by rewrite (counts_ne Hc2) by (left; done).
    + rewrite (counts_eq Hc6) by done. rewrite (counts_ne Hc4), (counts_ne Hc2) by (left; done).
      done.
Qed.

(** What the evaluation of a list of handoffs does. *)
Record evaluated_all (at_ : Z) (l : list Handoff) (v v' : hview) : Prop := {
  ea_reps : v_reps v' = v_reps v;
  ea_tasks : v_tasks v' = v_tasks v;
  ea_in h : h ∈ l ->
    if due at_ h ("rep", "sla_missed", 5 * minute)%string v
    then exists t, v_handoffs v' !! hf_ID h = Some (escalated h t)
    else v_handoffs v' !! hf_ID h = v_handoffs v !! hf_ID h;
  ea_out id : id ∉ hf_ID <$> l -> v_handoffs v' !! id = v_handoffs v !! id /\
    forall g y, sla_count id g y v' = sla_count id g y v;
  ea_alert h g y limit : h ∈ l -> (g, y, limit) ∈ alerts ->
    sla_count (hf_ID h) g y v'
    = sla_count (hf_ID h) g y v + (if due at_ h (g, y, limit) v then 1 else 0)
}.

Lemma due_ext at_ h a v v' :
  (forall g y, sla_count (hf_ID h) g y v' = sla_count (hf_ID h) g y v) ->
  due at_ h a v' = due at_ h a v.
Proof. intros Hc. destruct a as [[g y] limit]. unfold due. by rewrite Hc. Qed.

Lemma evaluated_lookup at_ h v v' id :
  evaluated at_ h v v' -> id <> hf_ID h -> v_handoffs v' !! id = v_handoffs v !! id.
Proof.
  intros He Hid. pose proof (ev_handoffs _ _ _ _ He) as Hh. destruct (due _ _ _ _); [|by rewrite Hh].
  destruct Hh as [t ->]. by rewrite lookup_insert_ne.
Qed.

Lemma evaluated_cons at_ h l v v1 v2 :
  hf_ID h ∉ hf_ID <$> l -> evaluated at_ h v v1 -> evaluated_all at_ l v1 v2 ->
  evaluated_all at_ (h :: l) v v2.
Proof.
  intros Hni He Ha.
  assert (Hne : forall h', h' ∈ l -> hf_ID h' <> hf_ID h).
  { intros h' Hh' E. apply Hni. rewrite <- E. by apply list_elem_of_fmap_2. }
  assert (Hdue : forall h' a, h' ∈ l -> due at_ h' a v1 = due at_ h' a v).
  { intros h' a Hh'. apply due_ext. intros g y. by apply (ev_other _ _ _ _ He), Hne. }
  destruct (ea_out _ _ _ _ Ha _ Hni) as [Hl Hc].
  split.
  - rewrite (ea_reps _ _ _ _ Ha). apply He.
  - rewrite (ea_tasks _ _ _ _ Ha). apply He.
  - intros h' [Eh|Hh']%elem_of_cons; [subst h'|].
    + pose proof (ev_handoffs _ _ _ _ He) as Hh. rewrite Hl.
      destruct (due _ _ _ _); [|by rewrite Hh]. destruct Hh as [t ->]. exists t.
      apply lookup_insert_eq.
    + pose proof (ea_in _ _ _ _ Ha h' Hh') as Hh. rewrite Hdue in Hh by done.
      destruct (due _ _ _ _); [done|]. rewrite Hh. apply (evaluated_lookup at_ h); auto.
  - intros id Hid. rewrite fmap_cons, not_elem_of_cons in Hid. destruct Hid as [Hid Hid'].
    destruct (ea_out _ _ _ _ Ha id Hid') as [E Ec]. split.
    + rewrite E. by eapply evaluated_lookup.
    + intros g y. rewrite Ec. by apply He.
  - intros h' g y limit [Eh|Hh']%elem_of_cons Hal; [subst h'|].
    + rewrite Hc. by apply He.
    + rewrite (ea_alert _ _ _ _ Ha h' g y limit), Hdue by done. f_equal. apply He. auto.
Qed.

Lemma wp_evaluate_list at_ l w :
  hinv env w -> NoDup (hf_ID <$> l) ->
  (forall h, h ∈ l -> v_handoffs (contents w) !! hf_ID h = Some h) ->
  wp env (for_each (evaluate_one env at_) l) w (fun _ v => evaluated_all at_ l (contents w) v).
Proof.
  revert w. induction l as [|h l IH]; intros w Hi Hnd Hl; cbn [for_each].
  { apply wp_ret; [done|]. split; try done; by intros ? ?%elem_of_nil || by intros ??? ? ?%elem_of_nil. }
  rewrite fmap_cons in Hnd. apply NoDup_cons in Hnd as [Hni Hnd].
  assert (Hh := Hl h (list_elem_of_here _ _)).
  destruct (stored_handoff env w _ h Hi Hh) as (_ & Hne & Hz & _).
  apply wp_bind. eapply wp_mono; [apply wp_evaluate_one; try done; eauto|].
  intros a v He w1 Hi1 Hv1. eapply wp_mono; [apply IH; try done|].
  - intros h' Hh'. rewrite Hv1, (evaluated_lookup _ _ _ _ _ He).
    + by apply Hl, list_elem_of_further.
    + intros E. apply Hni. rewrite <- E. by apply list_elem_of_fmap_2.
  - intros b v2 Ha. rewrite Hv1 in Ha. exact (evaluated_cons _ _ _ _ _ _ Hni He Ha).
Qed.

(** The stored handoffs, as [ListHandoffs] gives them. *)
Lemma list_handoffs w :
  hinv env w -> exists l, ListHandoffs (ho_store w) "" = inr l /\ NoDup (hf_ID <$> l) /\
    forall h, h ∈ l <-> v_handoffs (contents w) !! hf_ID h = Some h.
Proof.
  intros Hi. destruct (law_list_handoffs (ho_store w)) as (l & E & Hp); [apply Hi|].
  exists l. split; [done|]. fold (contents w) in Hp.
  assert (Hk : hf_ID <$> values (v_handoffs (contents w)) = (map_to_list (v_handoffs (contents w))).*1).
  { unfold values. rewrite <- list_fmap_compose. apply list_fmap_ext. intros i [k h] Hkh. simpl.
    apply list_elem_of_lookup_2, elem_of_map_to_list in Hkh.
    by destruct (stored_handoff env w k h Hi Hkh). }
  split.
  - rewrite Hp, Hk. apply NoDup_fst_map_to_list.
  - intros h. rewrite Hp. unfold values. rewrite list_elem_of_fmap. split.
    + intros ([k h'] & -> & Hm). simpl. apply elem_of_map_to_list in Hm.
      by destruct (stored_handoff env w k h' Hi Hm) as (-> & _).
    + intros Hm. exists (hf_ID h, h). split; [done|]. by apply elem_of_map_to_list.
Qed.

(** Nothing is due: nothing happens. *)
Lemma evaluate_quiet w at_ h :
  hinv env w -> (forall a, a ∈ alerts -> due at_ h a (contents w) = false) ->
  evaluate_one env at_ h w = (w, inr tt).
Proof.
  intros Hi Hd. unfold evaluate_one.
  destruct (tracked h) eqn:Et; unfold tracked in Et.
  2: { apply orb_false_iff in Et as [-> ->]. done. }
  rewrite <- negb_orb, Et. cbn [negb].
  assert (Hs : forall g y limit, (g, y, limit) ∈ alerts ->
    stage_due h (time_sub at_ (hf_CreatedAt h)) limit g y w = (w, inr false)).
  { intros g y limit Ha. specialize (Hd _ Ha). unfold due, overdue, tracked in Hd. rewrite Et in Hd.
    unfold stage_due, gets. rewrite law_has_sla by apply Hi. rewrite existsb_count. by rewrite <- Hd. }
  unfold alerts in Hs.
  erewrite bind_step by (apply Hs; set_solver). cbv beta iota.
  rewrite (bind_step _ _ _ w tt) by done.
  erewrite bind_step by (apply Hs; set_solver). cbv beta iota.
  rewrite (bind_step _ _ _ w tt) by done.
  erewrite bind_step by (apply Hs; set_solver). done.
Qed.

Lemma for_each_quiet {A} (f : A -> M (Ho T) string unit) l w :
  (forall x, x ∈ l -> f x w = (w, inr tt)) -> for_each f l w = (w, inr tt).
Proof.
  induction l as [|x l IH]; intros Hf; cbn [for_each]; [done|].
  rewrite (bind_step _ _ _ w tt) by (apply Hf, list_elem_of_here).
  apply IH. intros y Hy. by apply Hf, list_elem_of_further.
Qed.
End Evaluate.

(** ** The choice of a salesperson *)

(** Insertion puts a least element in front, for any preorder the comparison
    respects. *)
Section StableMin.
Context {A : Type} (less : A -> A -> bool) (le : A -> A -> Prop) `{!PreOrder le}.

Definition respects (l : list A) : Prop := forall x y, x ∈ l -> y ∈ l ->
  (less x y = true -> le x y) /\ (less x y = false -> le y x).

Lemma sift_perm x p : sift less x p ≡ₚ x :: p.
Proof.
  induction p as [|y p IH]; simpl; [done|]. destruct (less x y); [|done].
  rewrite IH. apply Permutation_swap.
Qed.

Lemma sift_last x p m :
  respects (x :: p ++ [m]) -> (forall y, y ∈ p ++ [m] -> le m y) ->
  exists p' m', sift less x (p ++ [m]) = p' ++ [m'] /\ forall y, y ∈ p' ++ [m'] -> le m' y.
Proof.
  intros Hr Hm.
  assert (Hs : exists p' m', sift less x (p ++ [m]) = p' ++ [m'] /\ le m' x /\ le m' m).
  { induction p as [|z p IH]; simpl.
    - destruct (Hr x m) as [H1 H2]; [set_solver|set_solver|]. destruct (less x m).
      + exists [m], x. split_and!; [done|reflexivity|auto].
      + exists [x], m. split_and!; [done|auto|reflexivity].
    - destruct (Hr x z) as [H1 H2]; [set_solver|set_solver|].
      destruct (less x z).
      + destruct IH as (p' & m' & -> & ?).
        * intros a b Ha Hb. apply Hr; set_solver.
        * intros y Hy. apply Hm. set_solver.
        * by exists (z :: p'), m'.
      + exists (x :: z :: p), m. split_and!; [done| |reflexivity].
        trans z; [apply Hm; set_solver|auto]. }
  destruct Hs as (p' & m' & E & Hx & Hm'). exists p', m'. split; [done|].
  intros y Hy. rewrite <- E, sift_perm, elem_of_cons in Hy. destruct Hy as [->|Hy]; [done|].
  trans m; auto.
Qed.

Lemma stable_min l : respects l -> l <> [] ->
  exists m l', SliceStable less l = m :: l' /\ m ∈ l /\ forall y, y ∈ l -> le m y.
Proof.
  intros Hr Hl. unfold SliceStable.
  assert (Hf : forall q p m, respects (q ++ p ++ [m]) -> (forall y, y ∈ p ++ [m] -> le m y) ->
    exists (p' : list A) (m' : A), foldl (fun p x => sift less x p) (p ++ [m]) q = p' ++ [m'] /\
      p' ++ [m'] ≡ₚ q ++ p ++ [m] /\ forall y, y ∈ p' ++ [m'] -> le m' y).
  { induction q as [|x q IH]; intros p m Hrq Hm; simpl; [by exists p, m|].
    destruct (sift_last x p m) as (p1 & m1 & E & Hm1); [|done|].
    { intros a b Ha Hb. apply Hrq; set_solver. }
    assert (Hp : p1 ++ [m1] ≡ₚ x :: p ++ [m]) by (rewrite <- E; apply sift_perm).
    rewrite E. destruct (IH p1 m1) as (p2 & m2 & E2 & Hp2 & Hm2); [|done|].
    { intros a b Ha Hb. rewrite Hp in Ha, Hb. apply Hrq; set_solver. }
    exists p2, m2. split_and!; [done| |done]. rewrite Hp2, Hp. symmetry. apply Permutation_middle. }
  destruct l as [|x l]; [done|]. simpl.
  destruct (Hf l [] x) as (p & m & E & Hp & Hm).
  { intros a b Ha Hb. apply Hr; set_solver. }
  { intros y ->%list_elem_of_singleton. reflexivity. }
  simpl in E. rewrite E, rev_app_distr. simpl. eexists _, _. split; [done|].
  assert (Hin : forall y, y ∈ p ++ [m] <-> y ∈ x :: l).
  { intros y. rewrite Hp. set_solver. }
  split; [apply Hin; set_solver|]. intros y Hy. apply Hm. by apply Hin.
Qed.
End StableMin.

(** ** Floats that are numbers are totally ordered *)

Definition is_number (f : float64) : Prop := f_eq f f = true.

(** The sign class, exponent and mantissa, signed so that they compare
    lexicographically as the floats do. *)
Definition f_rank (f : float64) : Z * Z * Z :=
  match f with
  | SpecFloat.S754_infinity true => (-2, 0, 0)
  | SpecFloat.S754_finite true m e => (-1, - e, - Zpos m)
  | SpecFloat.S754_zero _ | SpecFloat.S754_nan => (0, 0, 0)
  | SpecFloat.S754_finite false m e => (1, e, Zpos m)
  | SpecFloat.S754_infinity false => (2, 0, 0)
  end.

Definition rank_lt (a b : Z * Z * Z) : bool :=
  let '(a1, a2, a3) := a in
  let '(b1, b2, b3) := b in
  (a1 <? b1) || ((a1 =? b1) && ((a2 <? b2) || ((a2 =? b2) && (a3 <? b3)))).

Lemma f_lt_rank a b : is_number a -> is_number b -> f_lt a b = rank_lt (f_rank a) (f_rank b).
Proof.
  unfold is_number, f_lt, f_eq, SpecFloat.SFltb, SpecFloat.SFeqb.
  destruct a as [?|[]| |[] m e], b as [?|[]| |[] m' e']; try done; intros _ _; simpl.
  all: change (Pos.compare_cont Eq m m') with (Pos.compare m m');
    destruct (Z.compare_spec e e') as [->|?|?], (Pos.compare_spec m m') as [->|?|?]; simpl; lia.
Qed.

Lemma f_eq_rank a b : is_number a -> is_number b -> f_eq a b = true ->
  f_lt a b = false /\ f_lt b a = false.
Proof.
  intros Ha Hb. rewrite !f_lt_rank by done. revert Ha Hb.
  unfold is_number, f_eq, SpecFloat.SFeqb.
  destruct a as [?|[]| |[] m e], b as [?|[]| |[] m' e']; try done; intros _ _; simpl.
  all: change (Pos.compare_cont Eq m m') with (Pos.compare m m');
    destruct (Z.compare_spec e e') as [->|?|?], (Pos.compare_spec m m') as [->|?|?]; simpl; lia.
Qed.

Lemma rank_lt_asym a b : rank_lt a b = true -> rank_lt b a = false.
Proof. destruct a as [[??]?], b as [[??]?]. unfold rank_lt. lia. Qed.

Lemma rank_ge_trans a b c : rank_lt a b = false -> rank_lt b c = false -> rank_lt a c = false.
Proof. destruct a as [[??]?], b as [[??]?], c as [[??]?]. unfold rank_lt. lia. Qed.

(** ** [Select] *)

Definition score (c : Candidate) : float64 := sp_PerformanceScore (ca_Rep c).

(** Fewer open tasks; for a hot lead, at equal load no lower score. *)
Definition better (temp : string) (a b : Candidate) : Prop :=
  ca_OpenTasks a < ca_OpenTasks b \/
  (ca_OpenTasks a = ca_OpenTasks b /\
   (isHot temp = true -> rank_lt (f_rank (score a)) (f_rank (score b)) = false)).

#[export] Instance better_preorder temp : PreOrder (better temp).
Proof.
  split.
  - intros a. right. split; [done|]. intros _. destruct (f_rank _) as [[??]?]. unfold rank_lt. lia.
  - intros a b c [H1|[H1 H1']] [H2|[H2 H2']]; [left; lia..|]. right. split; [lia|].
    intros Hh. eapply rank_ge_trans; eauto.
Qed.

Lemma candidate_less_respects temp l :
  (forall c, c ∈ l -> is_number (score c)) -> respects (candidate_less temp) (better temp) l.
Proof.
  intros Hn x y Hx Hy. specialize (Hn x Hx) as Nx. specialize (Hn y Hy) as Ny.
  unfold candidate_less, better. fold (score x) (score y).
  destruct (ca_OpenTasks x =? ca_OpenTasks y) eqn:Eo; simpl; [|split; intros; left; lia].
  apply Z.eqb_eq in Eo. destruct (isHot temp) eqn:Eh; simpl.
  2: { split; intros _; right; by split. }
  rewrite <- !f_lt_rank by done. destruct (f_eq (score x) (score y)) eqn:Ee; simpl.
  - destruct (f_eq_rank _ _ Nx Ny Ee) as [H1 H2]. split; intros _; right; by split.
  - split; intros Hl; right; (split; [done|]); intros _; [|done].
    rewrite f_lt_rank in * by done. by apply rank_lt_asym.
Qed.

(** Open tasks of a salesperson, and whether there is room for another. *)
Definition open_tasks (v : hview) (r : Salesperson) : Z :=
  count_open (sp_ID r) (values (v_tasks v)).

Definition has_room (v : hview) (r : Salesperson) : bool := negb (full r (open_tasks v r)).

(** [rep] is the choice among [reps]. *)
Definition chosen (v : hview) (temp : string) (reps : list Salesperson) (rep : Salesperson) : Prop :=
  rep ∈ reps /\ has_room v rep = true /\
  forall r, r ∈ reps -> has_room v r = true ->
    open_tasks v rep <= open_tasks v r /\
    (isHot temp = true -> open_tasks v rep = open_tasks v r ->
     f_lt (sp_PerformanceScore rep) (sp_PerformanceScore r) = false).

Section Choice.
Context {T : Type} `{HoLaws T}.

Lemma candidates_spec (s : T) reps :
  ok s -> exists l, candidates s reps = inr l /\
    forall c, c ∈ l <-> ca_Rep c ∈ reps /\ has_room (view s) (ca_Rep c) = true /\
                        ca_OpenTasks c = open_tasks (view s) (ca_Rep c).
Proof.
  intros Ho. induction reps as [|r reps (l & E & Hl)]; simpl.
  { exists []. split; [done|]. set_solver. }
  rewrite law_count by done. rewrite E. eexists. split; [done|]. intros c.
  unfold has_room. destruct (full r _) eqn:Ef.
  - rewrite Hl, elem_of_cons. unfold has_room. split; [naive_solver|].
    intros ([Ec|?] & Hr & ?); [|done]. rewrite Ec in Hr. unfold open_tasks in Hr. by rewrite Ef in Hr.
  - rewrite !elem_of_cons, Hl. unfold has_room. split.
    + intros [->|?]; [|naive_solver]. simpl. unfold open_tasks. rewrite Ef. auto.
    + intros ([Ec|?] & Hr & Hopen); [left|by right]. destruct c as [cr co]. simpl in *. by subst.
Qed.

Lemma select_spec (s : T) reps snap :
  ok s -> (forall r, r ∈ reps -> is_number (sp_PerformanceScore r)) ->
  match Select s reps snap with
  | inr rep => chosen (view s) (ss_Temperature snap) reps rep
  | inl e => e = ErrNoEligibleSalesperson /\ forall r, r ∈ reps -> has_room (view s) r = false
  end.
Proof.
  intros Ho Hn. destruct (candidates_spec s reps Ho) as (l & E & Hl). unfold Select. rewrite E.
  destruct (decide (l = [])) as [->|Hne].
  { simpl. split; [done|]. intros r Hr. destruct (has_room (view s) r) eqn:Er; [|done].
    exfalso. apply (not_elem_of_nil (mkCand r (open_tasks (view s) r))). by apply Hl. }
  destruct (stable_min (candidate_less (ss_Temperature snap)) (better (ss_Temperature snap)) l)
    as (m & l' & -> & Hm & Hmin); [|done|].
  { apply candidate_less_respects. intros c Hc. apply Hn. by apply Hl. }
  pose proof (proj1 (Hl m) Hm) as (Hin & Hroom & Hopen). split_and!; [done|done|].
  intros r Hr Hrr. assert (Hc : mkCand r (open_tasks (view s) r) ∈ l) by (by apply Hl).
  pose proof (Hmin _ Hc) as Hb. unfold better in Hb. simpl in Hb. rewrite Hopen in Hb.
  split; [lia|]. intros Hh Heq. rewrite f_lt_rank by auto. destruct Hb as [Hb|[_ Hb]]; [lia|auto].
Qed.
End Choice.
