(* ===== verification/HandoffSafety.v ===== *)
(** * handoff: assignment, capacity and escalation

    Theorems about the service over [HoLaws], with instances at both stores. *)

From S2P Require Import Prelude GoTime Float64 Kv GoMonad GoStrings Handoff HandoffLaws HandoffService HandoffRuns.

Open Scope Z_scope.

(** ** Creating a handoff *)

(** The active members of a team, and scores that are numbers. *)
Definition team (v : hview) (tenantID teamID : string) : list Salesperson :=
  List.filter (in_team tenantID teamID) (values (v_reps v)).

Definition scored (v : hview) : Prop :=
  forall r, r ∈ values (v_reps v) -> is_number (sp_PerformanceScore r).

(** A new open task for [rep] that falls due with the handoff. *)
Definition tasked (v v' : hview) (h : Handoff) (rep : Salesperson) : Prop :=
  exists task, v_tasks v' = <[tk_ID task := task]> (v_tasks v) /\ v_tasks v !! tk_ID task = None /\
    tk_UserID task = sp_ID rep /\ tk_Status task = TaskStatusOpen /\
    tk_HandoffID task = hf_ID h /\ tk_DueAt task = hf_SLADeadline h.

(** What a successful [CreateHandoff] adds. *)
Definition created (req : CreateHandoffRequest) (snap : ScoringSnapshot) (v : hview) (h : Handoff)
    (v' : hview) : Prop :=
  let tenantID := first_nonempty (chr_TenantID req) (ss_TenantID snap) in
  v_handoffs v !! hf_ID h = None /\ v_handoffs v' = <[hf_ID h := h]> (v_handoffs v) /\
  v_reps v' = v_reps v /\ hf_TenantID h = tenantID /\ hf_LeadID h = chr_LeadID req /\
  if not_a_buyer snap then
    hf_Status h = HandoffStatusSuppressionSuggested /\ hf_AssignedUserID h = "" /\
    v_tasks v' = v_tasks v /\ v_sla v' = v_sla v
  else exists rep t,
    chosen v (ss_Temperature snap) (team v tenantID (ss_TeamID snap)) rep /\
    hf_Status h = HandoffStatusPendingAck /\ hf_AssignedUserID h = sp_ID rep /\
    hf_ManagerUserID h = sp_ManagerID rep /\ hf_SLADeadline h = t + slaDuration req snap /\
    tasked v v' h rep /\
    exists e, sv_Type e = "sla_started" /\ v_sla v' = v_sla v ++ [e].

(** Why [CreateHandoff] may refuse. *)
Definition refused (req : CreateHandoffRequest) (v : hview) : Prop :=
  chr_LeadID req = "" \/ chr_ScoringSnapshotID req = "" \/
  v_snaps v !! chr_ScoringSnapshotID req = None \/
  exists snap, v_snaps v !! chr_ScoringSnapshotID req = Some snap /\ not_a_buyer snap = false /\
    forall r, r ∈ team v (first_nonempty (chr_TenantID req) (ss_TenantID snap)) (ss_TeamID snap) ->
      has_room v r = false.

Lemma chosen_ext v temp l l' rep :
  (forall r, r ∈ l <-> r ∈ l') -> chosen v temp l rep -> chosen v temp l' rep.
Proof. intros Hl (H1 & H2 & H3). split_and!; [by apply Hl|done|]. intros r Hr. apply H3. by apply Hl. Qed.

Section Create.
Context {T : Type} `{HoLaws T} (env : HoEnv) `{!SaneEnv env}.

Lemma wp_suggest w tn req snap t :
  hinv env w -> not_a_buyer snap = true -> tn = first_nonempty (chr_TenantID req) (ss_TenantID snap) ->
  wp env (suggest_suppression env tn req snap t) w (fun h v => created req snap (contents w) h v).
Proof.
  intros Hi Hb Htn. unfold suggest_suppression. apply wp_bind, wp_new_handoff; [done..|].
  intros id c Hid Hl Hz w1 Hi1 Hv1. apply wp_bind, wp_task_event; [done..|]. intros a w2 Hi2 Hv2.
  apply wp_ret; [done|]. rewrite Hv2, Hv1. unfold created. rewrite Hb. simpl. by split_and!.
Qed.

Lemma wp_assign w tn req snap rep t :
  hinv env w -> not_a_buyer snap = false ->
  tn = first_nonempty (chr_TenantID req) (ss_TenantID snap) ->
  chosen (contents w) (ss_Temperature snap) (team (contents w) tn (ss_TeamID snap)) rep ->
  wp env (assign_handoff env tn req snap rep t) w (fun h v => created req snap (contents w) h v).
Proof.
  intros Hi Hb Htn Hc. unfold assign_handoff. apply wp_bind, wp_new_handoff; [done..|].
  intros id c Hid Hl Hz w1 Hi1 Hv1. apply wp_bind, wp_new_task; [done..|].
  intros tid c' Htl w2 Hi2 Hv2. rewrite Hv1 in Htl. rewrite Hv1 in Hv2.
  apply wp_bind, wp_assignment; [done..|]. intros a w3 Hi3 Hv3.
  apply wp_bind, wp_task_event; [done..|]. intros b w4 Hi4 Hv4.
  apply wp_bind, wp_sla_event; [done..|]. intros d v5 (e & _ & _ & He & Ha) w5 Hi5 Hv5.
  apply wp_ret; [done|]. rewrite Hv4, Hv3, Hv2 in Ha. rewrite Hv5, Ha. unfold created. rewrite Hb.
  simpl. split_and!; try done. exists rep, t. rewrite <- Htn. split_and!; try done.
  - exists (stamp_task c' tid (mkTask "" tn id (chr_LeadID req) (sp_ID rep) "ack_handoff"
      TaskStatusOpen (t + slaDuration req snap) t None)). by split_and!.
  - by exists e.
Qed.

Lemma list_team w tn tm : hinv env w -> exists l, ListSalespeople (ho_store w) tn tm = inr l /\
  forall r, r ∈ l <-> r ∈ team (contents w) tn tm.
Proof.
  intros Hi. destruct (law_list_reps (ho_store w) tn tm) as (l & E & Hl); [apply Hi|].
  exists l. split; [done|]. intros r. unfold team. by rewrite elem_of_filter_b, Hl.
Qed.

(** Every outcome of [CreateHandoff]. *)
Definition create_outcome (req : CreateHandoffRequest) (w : Ho T)
    (o : Ho T * (string + Handoff)) : Prop :=
  hinv env o.1 /\
  match o.2 with
  | inl _ => contents o.1 = contents w /\ refused req (contents w)
  | inr h => exists snap, v_snaps (contents w) !! chr_ScoringSnapshotID req = Some snap /\
      created req snap (contents w) h (contents o.1)
  end.

Lemma wp_outcome w w1 req snap m :
  contents w1 = contents w -> v_snaps (contents w) !! chr_ScoringSnapshotID req = Some snap ->
  wp env m w1 (fun h v => created req snap (contents w1) h v) -> create_outcome req w (m w1).
Proof.
  intros Hc Hs (w' & h & E & Hi & Hcr). unfold create_outcome. rewrite E. simpl.
  split; [done|]. exists snap. split; [done|]. by rewrite <- Hc.
Qed.

Lemma create_spec w req :
  hinv env w -> scored (contents w) -> create_outcome req w (CreateHandoff env req w).
Proof.
  intros Hi Hs. unfold CreateHandoff. rewrite bind_run.
  destruct (is_empty (chr_LeadID req) || is_empty (chr_ScoringSnapshotID req)) eqn:Eh.
  { split; [done|]. split; [done|].
    apply orb_true_iff in Eh as [Eh|Eh]; apply bool_decide_eq_true in Eh; red; auto. }
  cbn [negb ensure ret]. rewrite bind_run. unfold rd at 1. rewrite law_get_snap by apply Hi.
  fold (contents w). destruct (v_snaps (contents w) !! chr_ScoringSnapshotID req) as [snap|] eqn:Es.
  2: { split; [done|]. split; [done|]. red. auto. }
  rewrite bind_run. unfold now at 1. cbv beta iota.
  set (w1 := mkHo _ _ _). assert (Hi1 : hinv env w1) by done.
  destruct (not_a_buyer snap) eqn:Eb.
  { apply (wp_outcome w w1 req snap); [done|done|]. by apply wp_suggest. }
  rewrite bind_run. unfold rd at 1.
  destruct (list_team w1 (first_nonempty (chr_TenantID req) (ss_TenantID snap)) (ss_TeamID snap) Hi1)
    as (l & El & Hl). rewrite El. cbv beta iota. rewrite bind_run. unfold rd at 1.
  assert (Hn : forall r, r ∈ l -> is_number (sp_PerformanceScore r)).
  { intros r Hr. apply Hs. apply Hl in Hr. by apply elem_of_filter_b in Hr as [? _]. }
  pose proof (select_spec (ho_store w1) l snap (proj1 Hi1) Hn) as Hsel.
  destruct (Select (ho_store w1) l snap) as [e|rep].
  - destruct Hsel as [-> Hno]. split; [done|]. split; [done|]. do 3 right. exists snap.
    split_and!; try done. intros r Hr. apply Hno. by apply Hl.
  - apply (wp_outcome w w1 req snap); [done|done|]. apply wp_assign; try done.
    eapply chosen_ext; [exact Hl|exact Hsel].
Qed.
End Create.

(** ** Capacity and alerts: the invariant *)

(** Nobody has more open tasks than their limit. *)
Definition capacity (v : hview) : Prop :=
  forall r, r ∈ values (v_reps v) -> 0 < sp_MaxOpenTasks r -> open_tasks v r <= sp_MaxOpenTasks r.

(** Every alert was raised at most once per handoff. *)
Definition raised_once (v : hview) : Prop :=
  forall id g y limit, (g, y, limit) ∈ alerts -> sla_count id g y v <= 1.

Definition keyed (v : hview) : Prop := forall k r, v_reps v !! k = Some r -> sp_ID r = k.

Definition sound (v : hview) : Prop := scored v /\ capacity v /\ raised_once v.

Lemma open_tasks_insert v v' id x r :
  v_tasks v' = <[id := x]> (v_tasks v) -> v_tasks v !! id = None ->
  open_tasks v' r = open_tasks v r + (if open_for (sp_ID r) x then 1 else 0).
Proof.
  intros E Hn. unfold open_tasks. rewrite E.
  rewrite (count_open_perm _ _ (x :: values (v_tasks v))).
  - unfold count_open. simpl. destruct (open_for _ x); simpl; lia.
  - unfold values. by rewrite map_to_list_insert.
Qed.

Lemma open_tasks_close v n hid u r :
  open_tasks (set_v_tasks (close_in n hid u (v_tasks v)) v) r <= open_tasks v r.
Proof.
  unfold open_tasks, close_in, values. simpl. rewrite map_to_list_fmap, <- list_fmap_compose.
  unfold count_open. apply inj_le. induction (map_to_list (v_tasks v)) as [|[k x] l IH]; csimpl; [lia|].
  destruct (closes hid u x); [|destruct (open_for _ x); csimpl; lia].
  unfold open_for at 1. simpl. rewrite andb_false_r. destruct (open_for _ x); csimpl; lia.
Qed.

Lemma capacity_le v v' :
  v_reps v' = v_reps v -> (forall r, open_tasks v' r <= open_tasks v r) -> capacity v -> capacity v'.
Proof. intros Er Ho Hc r Hr Hm. rewrite Er in Hr. specialize (Hc r Hr Hm). specialize (Ho r). lia. Qed.

(** The chosen one had room for the new task. *)
Lemma capacity_tasked v v' h temp reps rep :
  keyed v -> v_reps v' = v_reps v -> tasked v v' h rep -> chosen v temp reps rep ->
  (forall r, r ∈ reps -> r ∈ values (v_reps v)) -> capacity v -> capacity v'.
Proof.
  intros Hk Er (x & Et & Hn & Hu & _) (Hin & Hroom & _) Hsub Hc r Hr Hm.
  rewrite Er in Hr. rewrite (open_tasks_insert v v' _ x r Et Hn).
  specialize (Hc r Hr Hm). destruct (open_for (sp_ID r) x) eqn:Eo; [|lia].
  unfold open_for in Eo. apply andb_true_iff in Eo as [Eo _]. apply bool_decide_eq_true in Eo.
  assert (r = rep) as ->.
  { apply list_elem_of_fmap in Hr as ([k r1] & -> & Hr). apply Hsub in Hin.
    apply list_elem_of_fmap in Hin as ([k' r2] & E2 & Hin). simpl in *. subst r2.
    apply elem_of_map_to_list in Hr, Hin. pose proof (Hk _ _ Hr). pose proof (Hk _ _ Hin). congruence. }
  unfold has_room, full in Hroom. lia.
Qed.

Lemma sla_count_other v e id g y :
  sv_Type e <> y -> sla_count id g y (set_v_sla (v_sla v ++ [e]) v) = sla_count id g y v.
Proof.
  intros Hne. rewrite sla_count_app. unfold is_sla. rewrite (bool_decide_false (sv_Type e = y)) by done.
  rewrite andb_false_r. lia.
Qed.

Lemma alerts_types g y limit : (g, y, limit) ∈ alerts ->
  y <> "sla_started" /\ y <> "escalated".
Proof. unfold alerts. rewrite !elem_of_cons, elem_of_nil. naive_solver. Qed.

(** A state with the same SLA events, up to one that is no alert. *)
Lemma raised_once_app v v' e :
  v_sla v' = v_sla v ++ [e] -> sv_Type e = "sla_started" \/ sv_Type e = "escalated" ->
  raised_once v -> raised_once v'.
Proof.
  intros E He Hr id g y limit Ha. destruct (alerts_types g y limit Ha) as [H1 H2].
  specialize (Hr id g y limit Ha). unfold sla_count. rewrite E.
  change (sla_count id g y (set_v_sla (v_sla v ++ [e]) v) <= 1).
  rewrite sla_count_other; [done|]. naive_solver.
Qed.

Lemma created_sound req snap v h v' : keyed v -> created req snap v h v' -> sound v -> sound v'.
Proof.
  intros Hk (_ & _ & Er & _ & _ & Hc) (Hs & Hcap & Ho).
  assert (Hs' : scored v') by (unfold scored; by rewrite Er).
  destruct (not_a_buyer snap).
  - destruct Hc as (_ & _ & Et & Es). split_and!; [done| |].
    + eapply capacity_le; [done| |done]. intros r. unfold open_tasks. by rewrite Et.
    + unfold raised_once, sla_count. by rewrite Es.
  - destruct Hc as (rep & t & Hch & _ & _ & _ & _ & Ht & e & He & Es). split_and!; [done| |].
    + eapply capacity_tasked; try done. intros r Hr. by apply elem_of_filter_b in Hr as [? _].
    + eapply raised_once_app; eauto.
Qed.

Lemma evaluated_sound at_ l v v' : evaluated_all at_ l v v' -> sound v -> sound v'.
Proof.
  intros Ha (Hs & Hc & Ho). pose proof (ea_reps _ _ _ _ Ha) as Er. split_and!.
  - unfold scored. by rewrite Er.
  - eapply capacity_le; [done| |done]. intros r. unfold open_tasks. by rewrite (ea_tasks _ _ _ _ Ha).
  - intros id g y limit Hal. destruct (decide (id ∈ hf_ID <$> l)) as [Hin|Hout].
    + apply list_elem_of_fmap in Hin as (h & -> & Hh).
      rewrite (ea_alert _ _ _ _ Ha h g y limit Hh Hal). specialize (Ho (hf_ID h) g y limit Hal).
      destruct (due at_ h (g, y, limit) v) eqn:Ed; [|lia]. unfold due in Ed. lia.
    + destruct (ea_out _ _ _ _ Ha id Hout) as [_ ->]. by eapply Ho.
Qed.

(** ** Requests *)

Inductive request :=
| Create (body : option CreateHandoffRequest)
| FromCall (body : option (CreateHandoffRequest * option ScoringSnapshot))
| Action (path user_id new_user_id : string)
| Evaluate (at_ : Z).

Section Requests.
Context {T : Type} `{HoLaws T} (env : HoEnv) `{!SaneEnv env}.

Definition serve (w : Ho T) (r : request) : Ho T :=
  match r with
  | Create body => (handleCreateHandoff env body w).1
  | FromCall body => (handleCreateHandoffFromCall env body w).1
  | Action path u nu => (handleHandoffAction env path u nu w).1
  | Evaluate at_ => (EvaluateSLAs env at_ w).1
  end.

(** The invariant of a running service. *)
Definition good (w : Ho T) : Prop := hinv env w /\ sound (contents w).

Lemma hinv_keyed w : hinv env w -> keyed (contents w).
Proof. intros (Ho & _) k r. by apply ok_rep. Qed.

Lemma good_wp {A} (m : M (Ho T) string A) w (Q : A -> hview -> Prop) :
  wp env m w Q -> (forall a v, Q a v -> sound v) -> good (m w).1.
Proof. intros (w' & a & E & Hi & HQ) Hs. rewrite E. split; [done|]. by eapply Hs. Qed.

Lemma respond_state m okc err (w : Ho T) : (respond m okc err w).1 = (m w).1.
Proof. unfold respond. by destruct (m w). Qed.

Lemma create_good w req : good w -> good (CreateHandoff env req w).1.
Proof.
  intros [Hi Hs]. destruct (create_spec env w req Hi (proj1 Hs)) as [Hi' Ho].
  split; [done|]. destruct (CreateHandoff env req w) as [w' [e|h]]; simpl in *.
  - by destruct Ho as [-> _].
  - destruct Ho as (snap & _ & Hc). eapply created_sound; [|exact Hc|exact Hs].
    by apply hinv_keyed.
Qed.

(** [GetHandoff] of a missing handoff ends the method. *)
Lemma get_none {A} (f : Handoff -> M (Ho T) string A) k w :
  hinv env w -> v_handoffs (contents w) !! k = None ->
  (bind (rd (fun s => GetHandoff s k)) f w).1 = w.
Proof.
  intros Hi E. rewrite bind_run. unfold rd. rewrite law_get_handoff by apply Hi.
  fold (contents w). by rewrite E.
Qed.

(** Changing a handoff alone keeps everything the invariant speaks about. *)
Lemma sound_handoffs v x : sound v -> sound (set_v_handoffs x v).
Proof. done. Qed.

Lemma sound_close v n hid u : sound v -> sound (set_v_tasks (close_in n hid u (v_tasks v)) v).
Proof.
  intros (Hs & Hc & Ho). split_and!; [done| |done]. eapply capacity_le; [| |exact Hc]; [done|].
  intros r. apply open_tasks_close.
Qed.

Lemma escalate_good w k h reason :
  good w -> v_handoffs (contents w) !! k = Some h -> good (escalate env h reason w).1.
Proof.
  intros [Hi Hs] E. destruct (stored_handoff env w k h Hi E) as (Hk & Hn & Hz & _).
  eapply (good_wp _ _ (fun _ v => sound v)); [|done].
  apply wp_escalate; try done; rewrite Hk; [by eauto|done|].
  intros t v (e & _ & _ & He & ->). destruct Hs as (? & ? & Ho).
  split_and!; [done|done|]. eapply raised_once_app; [|right; exact He|exact Ho]. done.
Qed.

Lemma ack_good w k u : good w -> good (AcknowledgeHandoff env k u w).1.
Proof.
  intros Hg. destruct (v_handoffs (contents w) !! k) as [h|] eqn:E.
  2: { unfold AcknowledgeHandoff. rewrite get_none; [done|apply Hg|done]. }
  destruct (decide (hf_AssignedUserID h = u)) as [<-|Hu].
  - eapply (good_wp _ _ (fun _ v => sound v)); [|done]. apply wp_ack; [done|apply Hg|done|].
    intros t n. apply sound_handoffs, sound_close, Hg.
  - unfold AcknowledgeHandoff. erewrite bind_step.
    2: { unfold rd. by destruct (stored_handoff env w k h (proj1 Hg) E) as (_ & _ & _ & ->). }
    rewrite bind_run. by rewrite bool_decide_false.
Qed.

Lemma action_good w path u nu : good w -> good (handleHandoffAction env path u nu w).1.
Proof.
  intros Hg. unfold handleHandoffAction.
  destruct (split_on _ path) as [|id [|action [|? ?]]]; try done.
  repeat case_decide; try done; rewrite respond_state.
  - by apply ack_good.
  - destruct (v_handoffs (contents w) !! id) as [h|] eqn:E.
    + unfold EscalateHandoff. erewrite bind_step.
      * by eapply escalate_good.
      * unfold rd. by destruct (stored_handoff env w id h (proj1 Hg) E) as (_ & _ & _ & ->).
    + unfold EscalateHandoff. rewrite get_none; [done|apply Hg|done].
  - destruct (v_handoffs (contents w) !! id) as [h|] eqn:E.
    + eapply (good_wp _ _ (fun _ v => sound v)); [|done].
      eapply wp_reassign; [done|apply Hg|exact E|]. intros t. apply sound_handoffs, Hg.
    + unfold ReassignHandoff. rewrite get_none; [done|apply Hg|done].
Qed.

Lemma evaluate_spec w at_ :
  hinv env w -> exists l, NoDup (hf_ID <$> l) /\
    (forall h, h ∈ l <-> v_handoffs (contents w) !! hf_ID h = Some h) /\
    wp env (EvaluateSLAs env at_) w (fun _ v => evaluated_all at_ l (contents w) v).
Proof.
  intros Hi. destruct (list_handoffs env w Hi) as (l & E & Hnd & Hl).
  exists l. split_and!; [done|done|]. unfold EvaluateSLAs. apply wp_bind.
  eapply wp_rd; [done|exact E|]. intros w1 Hi1 Hv1.
  eapply wp_mono; [apply wp_evaluate_list; [done..|]|].
  - intros h Hh. rewrite Hv1. by apply Hl.
  - intros a v Ha. by rewrite <- Hv1.
Qed.

Lemma serve_good w r : good w -> good (serve w r).
Proof.
  intros Hg. destruct r as [[req|]|[[req [snap|]]|]|path u nu|at_]; simpl; try done.
  - rewrite respond_state. by apply create_good.
  - destruct (wp_save_snap env w snap (fun _ v => sound v) (proj1 Hg)) as (w' & [] & E & Hi & Hs).
    { intros id _. apply Hg. }
    rewrite E. rewrite respond_state. by apply create_good.
  - rewrite respond_state. by apply create_good.
  - by apply action_good.
  - destruct (evaluate_spec w at_ (proj1 Hg)) as (l & _ & _ & Hw).
    eapply good_wp; [exact Hw|]. intros a v Ha. eapply evaluated_sound; [exact Ha|apply Hg].
Qed.
End Requests.

(** ** Theorems *)

(** A handoff that can be created is created: unless the lead or the
    snapshot is missing or the whole team is full, CreateHandoff files a new
    handoff.  A broker or fake buyer is assigned to nobody and gets no task;
    any other lead goes to an active member of its team who has room, who has
    the fewest open tasks of those with room and, for a hot lead, the best score
    among these, together with one new open task that falls due with the
    handoff.  A refusal leaves the store as it was. *)
Theorem handoff_goes_to_least_loaded_rep {T} `{HoLaws T} (env : HoEnv) (w w' : Ho T) req r :
  SaneEnv env -> hinv env w -> scored (contents w) -> CreateHandoff env req w = (w', r) ->
  hinv env w' /\
  match r with
  | inl _ => contents w' = contents w /\ refused req (contents w)
  | inr h => exists snap, v_snaps (contents w) !! chr_ScoringSnapshotID req = Some snap /\
      created req snap (contents w) h (contents w')
  end.
Proof. intros He Hi Hs E. pose proof (create_spec env w req Hi Hs) as Ho. by rewrite E in Ho. Qed.

(** C9: In every state a service reaches by creating, acknowledging, escalating
    and reassigning handoffs and evaluating SLAs, one request after the other on
    a store that answers, no salesperson has more open tasks than their limit,
    and each SLA alert was raised at most once per handoff. *)
Theorem handoff_capacity_and_alerts {T} `{HoLaws T} (env : HoEnv) (w : Ho T) (rs : list request) :
  SaneEnv env -> good env w ->
  let v := contents (foldl (serve env) w rs) in capacity v /\ raised_once v.
Proof.
  intros He Hg. revert w Hg. induction rs as [|r rs IH]; intros w Hg; simpl.
  - by destruct Hg as (_ & _ & ? & ?).
  - apply IH. by apply serve_good.
Qed.

Lemma escalated_overdue at_ limit h t :
  tracked h = true -> overdue at_ limit (escalated h t) = overdue at_ limit h.
Proof. intros Ht. unfold overdue. by rewrite Ht. Qed.

(** Right after an evaluation nothing is due. *)
Lemma evaluated_quiet at_ l v v' h' :
  (forall h, h ∈ l <-> v_handoffs v !! hf_ID h = Some h) -> NoDup (hf_ID <$> l) ->
  evaluated_all at_ l v v' -> v_handoffs v' !! hf_ID h' = Some h' ->
  (forall k h, v_handoffs v !! k = Some h -> hf_ID h = k) ->
  forall a, a ∈ alerts -> due at_ h' a v' = false.
Proof.
  intros Hl Hnd Ha E' Hk [[g y] limit] Hal.
  destruct (v_handoffs v !! hf_ID h') as [h|] eqn:E.
  2: { destruct (ea_out _ _ _ _ Ha (hf_ID h')) as [Eo _]; [|congruence].
       intros (h & Eh & Hh)%list_elem_of_fmap. apply Hl in Hh. congruence. }
  pose proof (Hk _ _ E) as Hid. assert (Hh : h ∈ l) by (apply Hl; congruence).
  pose proof (ea_in _ _ _ _ Ha h Hh) as Hin. rewrite Hid, E', E in Hin.
  assert (Hov : overdue at_ limit h' = overdue at_ limit h).
  { destruct (due at_ h _ v) eqn:Ed; [|by injection Hin as ->].
    destruct Hin as [t [= ->]]. apply escalated_overdue. unfold due, overdue in Ed.
    by destruct (tracked h). }
  unfold due. rewrite Hov. pose proof (ea_alert _ _ _ _ Ha h g y limit Hh Hal) as Hc.
  rewrite Hid in Hc. rewrite Hc. unfold due. rewrite Hid.
  pose proof (Nat2Z.is_nonneg (length (List.filter (is_sla (hf_ID h') g y) (v_sla v)))) as Hp.
  fold (sla_count (hf_ID h') g y v) in Hp.
  destruct (overdue at_ limit h); simpl; [|done].
  destruct (sla_count (hf_ID h') g y v =? 0) eqn:E0; lia.
Qed.

(** C13: One evaluation of the SLAs catches up with every handoff it watches, those
    that wait for an acknowledgement (pending_ack) or are escalated: it succeeds, each
    of them that has reached the age of an alert has that alert recorded, one that
    reached five minutes for the first time is escalated, every other handoff stays as
    it was, no task changes, and evaluating again at the same time changes nothing.
    Handoffs in other states are not watched, reassigned ones among them
    ([reassigned_handoff_is_not_watched]).  The store answers and ids are new. *)
Theorem overdue_handoffs_are_escalated {T} `{HoLaws T} (env : HoEnv) (w : Ho T) (at_ : Z) :
  SaneEnv env -> hinv env w ->
  exists w', EvaluateSLAs env at_ w = (w', inr tt) /\ hinv env w' /\
    v_tasks (contents w') = v_tasks (contents w) /\
    (forall k h, v_handoffs (contents w) !! k = Some h ->
       (forall g y limit, (g, y, limit) ∈ alerts -> overdue at_ limit h = true ->
          0 < sla_count k g y (contents w')) /\
       (if overdue at_ (5 * minute) h && (sla_count k "rep" "sla_missed" (contents w) =? 0)
        then exists t, v_handoffs (contents w') !! k = Some (escalated h t)
        else v_handoffs (contents w') !! k = Some h)) /\
    EvaluateSLAs env at_ w' = (w', inr tt).
Proof.
  intros He Hi. destruct (evaluate_spec env w at_ Hi) as (l & Hnd & Hl & w' & [] & E & Hi' & Ha).
  assert (Hk : forall k h, v_handoffs (contents w) !! k = Some h -> hf_ID h = k).
  { intros k h Hkh. by destruct (stored_handoff env w k h Hi Hkh). }
  exists w'. split_and!; [done|done|apply Ha| |].
  - intros k h Hkh. pose proof (Hk _ _ Hkh) as Hid. subst k. assert (Hh : h ∈ l) by (by apply Hl).
    split.
    + intros g y limit Hal Hov. rewrite (ea_alert _ _ _ _ Ha h g y limit Hh Hal). unfold due.
      rewrite Hov. simpl. unfold sla_count. destruct (_ =? 0) eqn:E0; lia.
    + pose proof (ea_in _ _ _ _ Ha h Hh) as Hin. unfold due in Hin.
      destruct (overdue _ _ h && _); [done|congruence].
  - destruct (list_handoffs env w' Hi') as (l' & E' & _ & Hl').
    unfold EvaluateSLAs. erewrite bind_step by (unfold rd; by rewrite E').
    apply for_each_quiet. intros h' Hh'. apply evaluate_quiet; [done..|].
    exact (evaluated_quiet at_ l _ _ h' Hl Hnd Ha (proj1 (Hl' h') Hh') Hk).
Qed.

(** A reassigned handoff drops out of the SLA: it gets a deadline five
    minutes ahead, but whenever the SLAs are evaluated afterwards it stays as it
    is and no alert is recorded for it.  The new assignee gets no task, and the
    tasks of the old one stay as they were. *)
Theorem reassigned_handoff_is_not_watched {T} `{HoLaws T} (env : HoEnv) (w : Ho T) k h u :
  SaneEnv env -> hinv env w -> v_handoffs (contents w) !! k = Some h ->
  exists w1 h1, ReassignHandoff env k u w = (w1, inr h1) /\ hf_AssignedUserID h1 = u /\
    v_tasks (contents w1) = v_tasks (contents w) /\
    forall at_, exists w2, EvaluateSLAs env at_ w1 = (w2, inr tt) /\
      v_handoffs (contents w2) !! k = Some h1 /\
      forall g y limit, (g, y, limit) ∈ alerts ->
        sla_count k g y (contents w2) = sla_count k g y (contents w).
Proof.
  intros He Hi E.
  destruct (wp_reassign env w k h u (fun h1 v => exists t, h1 = with_assignee h u (t + 5 * minute) /\
    v = set_v_handoffs (<[k := h1]> (v_handoffs (contents w))) (contents w)) Hi E)
    as (w1 & h1 & E1 & Hi1 & t & Eh & Ev); [by eauto|].
  exists w1, h1. split_and!; [done|by rewrite Eh|by rewrite Ev|].
  intros at_. destruct (evaluate_spec env w1 at_ Hi1) as (l & Hnd & Hl & w2 & [] & E2 & Hi2 & Ha).
  assert (Hk : v_handoffs (contents w1) !! k = Some h1) by (rewrite Ev; apply lookup_insert_eq).
  destruct (stored_handoff env w1 k h1 Hi1 Hk) as (Hid & _).
  assert (Hh : h1 ∈ l) by (apply Hl; by rewrite Hid).
  assert (Ht : forall a v, due at_ h1 a v = false).
  { intros [[g y] limit] v. unfold due, overdue. by rewrite Eh. }
  exists w2. split_and!; [done| |].
  - pose proof (ea_in _ _ _ _ Ha h1 Hh) as Hin. rewrite Ht, Hid in Hin. by rewrite Hin.
  - intros g y limit Hal. pose proof (ea_alert _ _ _ _ Ha h1 g y limit Hh Hal) as Hc.
    rewrite Ht, Hid, Z.add_0_r in Hc. rewrite Hc, Ev. done.
Qed.

(** ** A team of two and a warm lead *)

Definition demo_env : HoEnv := mkHoEnv (fun _ => 0) (fun _ => 0) itoa.

Definition demo_store : PgHo.t := PgHo.mk
  (mkKv [("asha", mkRep "asha" "acme" "north" "meera" (f_of_int 3) 2 true);
         ("ravi", mkRep "ravi" "acme" "north" "meera" (f_of_int 5) 0 true)]%string true)
  (mkKv [("s1", mkSnap "s1" "acme" "lead-1" "c1" "north" TemperatureWarm BuyerTypeSelfUse false)]%string
     true)
  kv_empty kv_empty kv_empty kv_empty kv_empty.

Definition demo_start : Ho PgHo.t := mkHo demo_store 0 0.
Definition demo_req : CreateHandoffRequest := mkCreate "" "lead-1" "interested" "wants a visit" "s1".
Definition demo_created : Ho PgHo.t := (CreateHandoff demo_env demo_req demo_start).1.

#[export] Instance demo_sane : SaneEnv demo_env.
Proof. split; [|done]. intros n m. apply (inj (pretty.pretty (A:=nat))). Qed.

Lemma coll_ok_empty {A} (key : string -> A -> Prop) : coll_ok kv_empty key.
Proof. split_and!; [done|constructor|]. intros k x. by rewrite kv_map_lookup. Qed.

Lemma demo_hinv : hinv demo_env demo_start.
Proof.
  split_and!.
  - split_and!; try apply coll_ok_empty.
    + split_and!; [done|apply (bool_decide_unpack _); by vm_compute|].
      intros k x. rewrite kv_map_lookup. simpl. repeat case_decide; naive_solver.
    + split_and!; [done|apply (bool_decide_unpack _); by vm_compute|done].
  - intros n _. split_and!; by rewrite kv_map_lookup.
  - intros k h. unfold contents. simpl. by rewrite kv_map_lookup.
Qed.

Lemma demo_reps r : r ∈ values (v_reps (contents demo_start)) ->
  sp_PerformanceScore r = f_of_int 3 \/ sp_PerformanceScore r = f_of_int 5.
Proof.
  unfold contents, values. simpl. intros ([k x] & -> & Hx)%list_elem_of_fmap.
  apply elem_of_map_to_list in Hx. rewrite kv_map_lookup in Hx. simpl in Hx |- *.
  repeat case_decide; simplify_eq; auto.
Qed.

Lemma demo_good : good demo_env demo_start.
Proof.
  split; [apply demo_hinv|]. split_and!.
  - intros r [E|E]%demo_reps; rewrite E; vm_compute; done.
  - intros r Hr Hm. vm_compute (open_tasks _ _). lia.
  - intros id g y limit _. vm_compute. done.
Qed.

Lemma handoff_goes_to_least_loaded_rep_witness :
  exists w' h snap, CreateHandoff demo_env demo_req demo_start = (w', inr h) /\
    hf_AssignedUserID h = "ravi" /\ created demo_req snap (contents demo_start) h (contents w').
Proof.
  destruct (CreateHandoff demo_env demo_req demo_start) as [w' r] eqn:E.
  destruct (handoff_goes_to_least_loaded_rep demo_env demo_start w' demo_req r demo_sane demo_hinv
    (proj1 (proj2 demo_good)) E) as [_ Ho].
  assert (Hr : r = (CreateHandoff demo_env demo_req demo_start).2) by (by rewrite E).
  destruct r as [e|h]; [vm_compute in Hr; discriminate Hr|]. destruct Ho as (snap & _ & Hc).
  exists w', h, snap. split; [done|]. split; [|done]. vm_compute in Hr. by injection Hr as ->.
Defined.

Lemma handoff_capacity_and_alerts_witness :
  let v := contents (foldl (serve demo_env) demo_start
    [Create (Some demo_req); Create (Some demo_req); Evaluate (6 * minute); Evaluate (7 * minute);
     Action "handoff-0/ack" "ravi" ""]) in
  capacity v /\ raised_once v.
Proof.
  apply (handoff_capacity_and_alerts demo_env demo_start _ demo_sane demo_good).
Defined.

Lemma demo_created_hinv : hinv demo_env demo_created.
Proof. apply (create_spec demo_env demo_start demo_req demo_hinv (proj1 (proj2 demo_good))). Qed.

(** The lead is warm, with thirty minutes to answer; it is escalated after six. *)
Lemma overdue_handoffs_are_escalated_witness :
  exists w' h, EvaluateSLAs demo_env (6 * minute) demo_created = (w', inr tt) /\
    v_handoffs (contents w') !! "handoff-0"%string = Some h /\
    hf_Status h = HandoffStatusEscalated /\ 6 * minute < hf_SLADeadline h.
Proof.
  destruct (overdue_handoffs_are_escalated demo_env demo_created (6 * minute) demo_sane
    demo_created_hinv) as (w' & E & _ & _ & Hh & _).
  destruct (v_handoffs (contents demo_created) !! "handoff-0"%string) as [h|] eqn:Eh;
    [|vm_compute in Eh; discriminate Eh].
  destruct (Hh _ _ Eh) as [_ Hs].
  replace (overdue _ _ h && _) with true in Hs.
  - destruct Hs as [t Hs]. exists w', (escalated h t). split_and!; [done|done|done|].
    vm_compute in Eh. injection Eh as <-. by vm_compute.
  - vm_compute in Eh. injection Eh as <-. by vm_compute.
Defined.

Lemma reassigned_handoff_is_not_watched_witness :
  exists w1 h1, ReassignHandoff demo_env "handoff-0" "asha" demo_created = (w1, inr h1) /\
    hf_AssignedUserID h1 = "asha" /\
    exists w2, EvaluateSLAs demo_env (60 * minute) w1 = (w2, inr tt) /\
      v_handoffs (contents w2) !! "handoff-0"%string = Some h1.
Proof.
  destruct (v_handoffs (contents demo_created) !! "handoff-0"%string) as [h|] eqn:Eh;
    [|vm_compute in Eh; discriminate Eh].
  destruct (reassigned_handoff_is_not_watched demo_env demo_created "handoff-0" h "asha" demo_sane
    demo_created_hinv Eh) as (w1 & h1 & E & Hu & _ & Hw).
  destruct (Hw (60 * minute)) as (w2 & E2 & Hl & _). exists w1, h1. split_and!; [done|done|].
  by exists w2.
Defined.
