(* ===== verification/Csv.v ===== *)
(** * encoding/csv as lead-import reads it

    [csv.Reader] with [LazyQuotes] and [TrimLeadingSpace] set, comma as the
    delimiter and no comment character, on ASCII input that is read without I/O
    errors.  Recursion that follows the input has fuel; [parse_fields] and
    [read_all] are given more than the input is long, which
    [parse_fields_total] and [read_all_total] show to be enough. *)

From S2P Require Import Prelude GoStrings.

Open Scope nat_scope.

Definition bytes := list Ascii.ascii.

Definition ch_nl : Ascii.ascii := Ascii.ascii_of_N 10.
Definition ch_cr : Ascii.ascii := Ascii.ascii_of_N 13.
Definition ch_quote : Ascii.ascii := Ascii.ascii_of_N 34.
Definition ch_comma : Ascii.ascii := Ascii.ascii_of_N 44.

(** [ReadSlice('\n')]: the bytes up to the first newline, whether there is
    one, and what follows. *)
Fixpoint cut_line (s : bytes) : bytes * bool * bytes :=
  match s with
  | [] => ([], false, [])
  | c :: s' =>
      if decide (c = ch_nl) then ([], true, s')
      else let '(l, nl, r) := cut_line s' in (c :: l, nl, r)
  end.

Definition drop_cr (l : bytes) : bytes :=
  match rev l with
  | c :: l' => if decide (c = ch_cr) then rev l' else l
  | [] => []
  end.

(** [readLine]: the next line with its newline, ["\r\n"] made ["\n"], a
    carriage return before the end of the file dropped.  [None] is [io.EOF]. *)
Definition readLine (s : bytes) : option (bytes * bytes) :=
  match s with
  | [] => None
  | _ => let '(l, nl, r) := cut_line s in
         Some (drop_cr l ++ (if nl : bool then [ch_nl] else []), r)
  end.

(** [lengthNL(line) == len(line)]. *)
Definition only_nl (l : bytes) : bool := bool_decide (l = []) || bool_decide (l = [ch_nl]).

(** [field[:len(field)-lengthNL(field)]]. *)
Definition strip_nl (l : bytes) : bytes :=
  match rev l with
  | c :: l' => if decide (c = ch_nl) then rev l' else l
  | [] => []
  end.

(** [bytes.IndexByte]: the bytes in front of the first [q] and those behind. *)
Fixpoint cut_at (q : Ascii.ascii) (l : bytes) : option (bytes * bytes) :=
  match l with
  | [] => None
  | c :: l' =>
      if decide (c = q) then Some ([], l')
      else match cut_at q l' with Some (a, b) => Some (c :: a, b) | None => None end
  end.

(** The loop [parseField] of [readRecord]: [quoted] holds what was read of a
    quoted field, [line] is the rest of the current line, [rest] the lines to
    come and [n] the number of lines read.  The result is the fields, the lines
    to come and the number of lines read. *)
Fixpoint parse_fields (fuel : nat) (quoted : option bytes) (line rest : bytes) (n : nat)
    (fields : list bytes) : option (list bytes * bytes * nat) :=
  match fuel with
  | O => None
  | S fuel' =>
      match quoted with
      | None =>
          let line := drop_while is_space line in
          if decide (head line = Some ch_quote)
          then parse_fields fuel' (Some []) (tail line) rest n fields
          else match cut_at ch_comma line with
               | Some (field, line') => parse_fields fuel' None line' rest n (fields ++ [field])
               | None => Some (fields ++ [strip_nl line], rest, n)
               end
      | Some buf =>
          match cut_at ch_quote line with
          | Some (pre, after) =>
              let buf := buf ++ pre in
              if decide (head after = Some ch_quote)
              then parse_fields fuel' (Some (buf ++ [ch_quote])) (tail after) rest n fields
              else if decide (head after = Some ch_comma)
              then parse_fields fuel' None (tail after) rest n (fields ++ [buf])
              else if only_nl after then Some (fields ++ [buf], rest, n)
              else parse_fields fuel' (Some (buf ++ [ch_quote])) after rest n fields
          | None =>
              if decide (line = []) then Some (fields ++ [buf], rest, n)
              else match readLine rest with
                   | Some (line', rest') =>
                       parse_fields fuel' (Some (buf ++ line)) line' rest' (S n) fields
                   | None => parse_fields fuel' (Some (buf ++ line)) [] [] (S n) fields
                   end
          end
      end
  end.

(** [readRecord] without the check of the number of fields: empty lines are
    skipped; the answer has the line the record starts on. *)
Inductive record_read :=
| AtEOF
| Stuck
| Record (fields : list bytes) (line : nat) (rest : bytes) (n : nat).

Fixpoint readRecord (fuel : nat) (s : bytes) (n : nat) : record_read :=
  match fuel with
  | O => Stuck
  | S fuel' =>
      match readLine s with
      | None => AtEOF
      | Some (line, rest) =>
          if only_nl line then readRecord fuel' rest (S n)
          else match parse_fields (S (length line + length rest)) None line rest (S n) [] with
               | Some (fields, rest', n') => Record fields (S n) rest' n'
               | None => Stuck
               end
      end
  end.

(** All records of a file with the lines they start on. *)
Fixpoint read_all (fuel : nat) (s : bytes) (n : nat) : option (list (list bytes * nat)) :=
  match fuel with
  | O => None
  | S fuel' =>
      match readRecord (S (length s)) s n with
      | AtEOF => Some []
      | Stuck => None
      | Record fields line rest n' =>
          match read_all fuel' rest n' with
          | Some l => Some ((fields, line) :: l)
          | None => None
          end
      end
  end.

Definition read_file (s : bytes) : option (list (list bytes * nat)) := read_all (S (length s)) s 0.

#[local] Definition b (s : string) : bytes := String.list_ascii_of_string s.

#[local] Definition quote (s : string) : bytes := [ch_quote] ++ b s ++ [ch_quote].

Example read_lazy :
  read_file (b "name, phone" ++ [ch_nl] ++ b "A " ++ quote "x" ++ b " b,1" ++ [ch_nl; ch_nl])
  = Some [([b "name"; b "phone"], 1); ([b "A " ++ quote "x" ++ b " b"; b "1"], 2)].
Proof. vm_compute. reflexivity. Qed.

(** ** Reading always ends *)

Lemma cut_line_length s l nl r : cut_line s = (l, nl, r) ->
  length l + length r + (if nl : bool then 1 else 0) = length s.
Proof.
  revert l nl r. induction s as [|c s IH]; simpl; intros l nl r E; [by simplify_eq|].
  destruct (decide (c = ch_nl)); [simplify_eq; simpl; lia|].
  destruct (cut_line s) as [[l0 nl0] r0]. simplify_eq. specialize (IH _ _ _ eq_refl). simpl. lia.
Qed.

Lemma drop_cr_length l : length (drop_cr l) <= length l.
Proof.
  unfold drop_cr. rewrite <- (length_rev l). destruct (rev l) as [|c l'] eqn:E; simpl; [lia|].
  destruct (decide _); [by rewrite length_rev; lia|]. rewrite <- (length_rev l), E. simpl. lia.
Qed.

Lemma readLine_length s l r : readLine s = Some (l, r) -> length l + length r <= length s.
Proof.
  unfold readLine. destruct s as [|c s]; [done|]. destruct (cut_line (c :: s)) as [[l0 nl] r0] eqn:E.
  intros [= <- <-]. apply cut_line_length in E. rewrite length_app.
  pose proof (drop_cr_length l0). destruct nl; simpl in *; lia.
Qed.

Lemma readLine_rest s l r : readLine s = Some (l, r) -> length r < length s.
Proof.
  unfold readLine. destruct s as [|c s]; [done|]. simpl.
  destruct (decide (c = ch_nl)); [by intros [= _ <-]; simpl; lia|].
  destruct (cut_line s) as [[l0 nl] r0] eqn:E. intros [= _ <-]. apply cut_line_length in E.
  simpl. lia.
Qed.

Lemma cut_at_length q l a c : cut_at q l = Some (a, c) -> length a + S (length c) = length l.
Proof.
  revert a. induction l as [|x l IH]; simpl; intros a; [done|].
  destruct (decide (x = q)); [intros [= <- <-]; simpl; lia|].
  destruct (cut_at q l) as [[a0 c0]|]; [|done]. intros [= <- <-]. specialize (IH _ eq_refl). simpl. lia.
Qed.

Lemma drop_while_length {A} (p : A -> bool) l : length (drop_while p l) <= length l.
Proof. induction l as [|x l IH]; simpl; [lia|]. destruct (p x); simpl; lia. Qed.

Lemma head_tail_length {A} (l : list A) x : head l = Some x -> S (length (tail l)) = length l.
Proof. by destruct l. Qed.

Lemma parse_fields_total fuel q line rest n fields :
  length line + length rest < fuel ->
  exists fs r m, parse_fields fuel q line rest n fields = Some (fs, r, m) /\ length r <= length rest.
Proof.
  revert q line rest n fields. induction fuel as [|fuel IH]; [lia|].
  intros q line rest n fields Hf. simpl.
  assert (Hd := drop_while_length is_space line).
  destruct q as [buf|].
  - destruct (cut_at ch_quote line) as [[pre after]|] eqn:E.
    + apply cut_at_length in E. destruct (decide (head after = Some ch_quote)) as [Hh|].
      { apply head_tail_length in Hh. apply IH. lia. }
      destruct (decide (head after = Some ch_comma)) as [Hh|].
      { apply head_tail_length in Hh. apply IH. lia. }
      destruct (only_nl after); [eauto 10|]. apply IH. lia.
    + case_decide as Hne; [eauto 10|].
      assert (0 < length line) by (destruct line; simpl; [done|lia]).
      destruct (readLine rest) as [[line' rest']|] eqn:El.
      * pose proof (readLine_length _ _ _ El). destruct (IH (Some (buf ++ line)) line' rest' (S n) fields)
          as (fs & r & m & -> & ?); [lia|]. pose proof (readLine_rest _ _ _ El). exists fs, r, m. split; [done|lia].
      * destruct (IH (Some (buf ++ line)) [] [] (S n) fields) as (fs & r & m & -> & ?); [simpl; lia|].
        exists fs, r, m. split; [done|simpl in *; lia].
  - destruct (decide (head _ = _)) as [Hh|].
    { apply head_tail_length in Hh. apply IH. lia. }
    destruct (cut_at ch_comma _) as [[field line']|] eqn:E; [|eauto 10].
    apply cut_at_length in E. apply IH. lia.
Qed.

Lemma readRecord_total fuel s n : length s < fuel ->
  match readRecord fuel s n with
  | AtEOF => True
  | Stuck => False
  | Record _ _ rest _ => length rest < length s
  end.
Proof.
  revert s n. induction fuel as [|fuel IH]; [lia|]. intros s n Hf. cbn [readRecord].
  destruct (readLine s) as [[line rest]|] eqn:E; [|done]. pose proof (readLine_rest _ _ _ E).
  destruct (only_nl line).
  - specialize (IH rest (S n)). destruct (readRecord fuel rest (S n)); [done|apply IH; lia|].
    assert (length rest0 < length rest) by (apply IH; lia). lia.
  - destruct (parse_fields_total (S (length line + length rest)) None line rest (S n) [])
      as (fs & r & m & -> & ?); [lia|]. lia.
Qed.

(** Every file is read to its end. *)
Lemma read_all_total fuel s n : length s < fuel -> is_Some (read_all fuel s n).
Proof.
  revert s n. induction fuel as [|fuel IH]; [lia|]. intros s n Hf. cbn [read_all].
  pose proof (readRecord_total (S (length s)) s n (Nat.lt_succ_diag_r _)) as Hr.
  destruct (readRecord _ s n) as [| |fields line rest n']; [eauto|done|].
  destruct (IH rest n') as [l ->]; [lia|eauto].
Qed.

(** ** A quoted file is read back

    [enc_record] writes a record as RFC 4180 has it, every field in quotes. *)

Definition enc_char (c : Ascii.ascii) : bytes := if decide (c = ch_quote) then [c; c] else [c].
Definition enc_body (f : bytes) : bytes := f ≫= enc_char.
Definition enc_field (f : bytes) : bytes := ch_quote :: enc_body f ++ [ch_quote].
Definition enc_more (fs : list bytes) : bytes := fs ≫= (fun f => ch_comma :: enc_field f).
Definition enc_record (fs : list bytes) : bytes :=
  match fs with [] => [ch_nl] | f :: fs' => enc_field f ++ enc_more fs' ++ [ch_nl] end.

(** No carriage return: the reader would normalise it. *)
Definition clean (s : bytes) : Prop := ch_cr ∉ s.

Definition split_line (s : bytes) : bytes * bytes :=
  let '(l, nl, r) := cut_line s in (l ++ (if nl : bool then [ch_nl] else []), r).

Lemma drop_cr_clean l : clean l -> drop_cr l = l.
Proof.
  intros Hc. unfold drop_cr. destruct (rev l) as [|c l'] eqn:E.
  - by rewrite <- (rev_involutive l), E.
  - case_decide; [|done]. exfalso. apply Hc. subst c.
    rewrite list_elem_of_In, in_rev, E. by left.
Qed.

Lemma cut_line_clean s l nl r : cut_line s = (l, nl, r) -> clean s -> clean l.
Proof.
  unfold clean. revert l. induction s as [|c s IH]; simpl; intros l E Hc; [by simplify_eq|].
  apply not_elem_of_cons in Hc as [Hc Hs]. case_decide; [simplify_eq; apply not_elem_of_nil|].
  destruct (cut_line s) as [[l0 nl0] r0]. simplify_eq. apply not_elem_of_cons. eauto.
Qed.

Lemma readLine_clean s : clean s -> s <> [] -> readLine s = Some (split_line s).
Proof.
  intros Hc Hne. unfold readLine, split_line. destruct s as [|c s]; [done|].
  destruct (cut_line (c :: s)) as [[l nl] r] eqn:E.
  by rewrite drop_cr_clean by (by eapply cut_line_clean).
Qed.

Lemma split_line_cons c s : c <> ch_nl -> split_line (c :: s) = (c :: (split_line s).1, (split_line s).2).
Proof.
  intros Hc. unfold split_line. simpl. rewrite decide_False by done.
  by destruct (cut_line s) as [[l nl] r].
Qed.

Lemma split_line_nl s : split_line (ch_nl :: s) = ([ch_nl], s).
Proof. done. Qed.

Lemma split_line_ne s : s <> [] -> (split_line s).1 <> [].
Proof.
  destruct s as [|c s]; [done|]. intros _. destruct (decide (c = ch_nl)) as [->|Hc]; [done|].
  by rewrite split_line_cons.
Qed.

Lemma parse_fields_mono k k' q line rest n fields x :
  parse_fields k q line rest n fields = Some x -> k <= k' ->
  parse_fields k' q line rest n fields = Some x.
Proof.
  revert k' q line rest n fields. induction k as [|k IH]; [done|].
  intros k' q line rest n fields E Hk. destruct k' as [|k']; [lia|].
  assert (Hk' : k <= k') by lia. simpl in *.
  repeat first [done | case_decide | case_match]; eauto.
Qed.

(** From the input [s] on, the fields come to [fs] and [r] is left. *)
Definition reads (q : option bytes) (s : bytes) (fields fs : list bytes) (r : bytes) : Prop :=
  forall n, exists k m, parse_fields k q (split_line s).1 (split_line s).2 n fields = Some (fs, r, m).

Lemma reads_char buf c s fields fs r :
  c <> ch_quote -> s <> [] -> clean s ->
  reads (Some (buf ++ [c])) s fields fs r -> reads (Some buf) (c :: s) fields fs r.
Proof.
  intros Hq Hne Hcl Hr n. destruct (decide (c = ch_nl)) as [->|Hc].
  - destruct (Hr (S n)) as (k & m & E). exists (S k), m. rewrite split_line_nl. simpl.
    rewrite readLine_clean by done. by destruct (split_line s).
  - destruct (Hr n) as (k & m & E). exists k, m. rewrite split_line_cons by done. simpl.
    pose proof (split_line_ne s Hne) as Hl. destruct (split_line s) as [l rest]. simpl in *.
    destruct k as [|k]; [done|]. simpl in *. rewrite decide_False by done.
    destruct (cut_at ch_quote l) as [[pre after]|] eqn:Ec.
    + by rewrite (cons_middle c buf pre), app_assoc.
    + rewrite decide_False in E by done. by rewrite (cons_middle c buf l), app_assoc.
Qed.

Lemma reads_quotes buf s fields fs r :
  reads (Some (buf ++ [ch_quote])) s fields fs r ->
  reads (Some buf) (ch_quote :: ch_quote :: s) fields fs r.
Proof.
  intros Hr n. destruct (Hr n) as (k & m & E). exists (S k), m.
  rewrite !split_line_cons by done. simpl. by rewrite app_nil_r.
Qed.

Lemma clean_app s t : clean (s ++ t) <-> clean s /\ clean t.
Proof. unfold clean. rewrite elem_of_app. naive_solver. Qed.

Lemma clean_body f : clean f -> clean (enc_body f).
Proof.
  unfold clean, enc_body. intros Hf (c & Hc & Hin)%list_elem_of_bind. unfold enc_char in Hc.
  case_decide; set_solver.
Qed.

Lemma reads_body f buf t fields fs r :
  clean f -> clean t -> t <> [] ->
  reads (Some (buf ++ f)) t fields fs r -> reads (Some buf) (enc_body f ++ t) fields fs r.
Proof.
  revert buf. induction f as [|c f IH]; intros buf Hf Ht Hne Hr; simpl; [by rewrite app_nil_r in Hr|].
  apply not_elem_of_cons in Hf as [Hc Hf]. unfold enc_char. rewrite <- app_assoc.
  assert (Hr' : reads (Some (buf ++ [c])) (enc_body f ++ t) fields fs r).
  { apply IH; try done. by rewrite <- app_assoc. }
  case_decide as Hd; simpl.
  - subst c. by apply reads_quotes.
  - apply reads_char; try done; [by destruct (enc_body f)|].
    apply clean_app. split; [by apply clean_body|done].
Qed.

Lemma reads_comma buf s fields fs r :
  reads None s (fields ++ [buf]) fs r -> reads (Some buf) (ch_quote :: ch_comma :: s) fields fs r.
Proof.
  intros Hr n. destruct (Hr n) as (k & m & E). exists (S k), m.
  rewrite !split_line_cons by done. simpl. by rewrite app_nil_r.
Qed.

Lemma reads_end buf s fields :
  reads (Some buf) (ch_quote :: ch_nl :: s) fields (fields ++ [buf]) s.
Proof.
  intros n. exists 1, n. rewrite split_line_cons, split_line_nl by done. simpl. by rewrite app_nil_r.
Qed.

Lemma reads_open s fields fs r : reads (Some []) s fields fs r -> reads None (ch_quote :: s) fields fs r.
Proof.
  intros Hr n. destruct (Hr n) as (k & m & E). exists (S k), m. by rewrite split_line_cons.
Qed.

(** One field and what follows it. *)
Lemma reads_field f t fields fs r :
  clean f -> clean t ->
  reads (Some f) (ch_quote :: t) fields fs r -> reads None (enc_field f ++ t) fields fs r.
Proof.
  intros Hf Ht Hr. unfold enc_field. rewrite <- app_comm_cons, <- app_assoc. apply reads_open.
  apply reads_body; [done| |done|done]. by apply not_elem_of_cons.
Qed.

Lemma clean_one c : c <> ch_cr -> clean [c].
Proof. intros Hc. apply not_elem_of_cons. split; [done|apply not_elem_of_nil]. Qed.

Definition clean_record (fs : list bytes) : Prop := Forall clean fs.

Lemma clean_enc_field f : clean f -> clean (enc_field f).
Proof.
  intros Hf. unfold enc_field. apply not_elem_of_cons. split; [done|].
  apply clean_app. split; [by apply clean_body|by apply clean_one].
Qed.

Lemma clean_enc_more fs : clean_record fs -> clean (enc_more fs).
Proof.
  intros Hf Hin. apply list_elem_of_bind in Hin as (f & Hc & Hm).
  apply elem_of_cons in Hc as [Hc|Hc]; [done|]. revert Hc. apply clean_enc_field.
  unfold clean_record in Hf. rewrite Forall_forall in Hf. auto.
Qed.

Lemma clean_enc_record fs : clean_record fs -> clean (enc_record fs).
Proof.
  destruct fs as [|f fs]; cbn [enc_record]; intros Hf; [by apply clean_one|].
  apply Forall_cons in Hf as [Hf Hfs]. rewrite !clean_app.
  split_and!; [by apply clean_enc_field|by apply clean_enc_more|by apply clean_one].
Qed.

Lemma reads_more fs f s fields :
  clean_record fs -> clean s ->
  reads (Some f) (ch_quote :: enc_more fs ++ ch_nl :: s) fields (fields ++ f :: fs) s.
Proof.
  revert f fields. induction fs as [|f' fs IH]; intros f fields Hf Hs; simpl; [apply reads_end|].
  apply Forall_cons in Hf as [Hf' Hfs]. rewrite <- app_assoc. apply reads_comma.
  apply reads_field; [done| |].
  - apply clean_app. split; [by apply clean_enc_more|]. by apply not_elem_of_cons.
  - specialize (IH f' (fields ++ [f]) Hfs Hs). by rewrite <- app_assoc in IH.
Qed.

Lemma reads_record fs s :
  fs <> [] -> clean_record fs -> clean s -> reads None (enc_record fs ++ s) [] fs s.
Proof.
  destruct fs as [|f fs]; [done|]. intros _ [Hf Hfs]%Forall_cons Hs. cbn [enc_record].
  rewrite <- !app_assoc. cbn [app]. apply reads_field; [done| |].
  - apply clean_app. split; [by apply clean_enc_more|]. by apply not_elem_of_cons.
  - by apply (reads_more fs f s []).
Qed.

Lemma readRecord_enc fuel fs s n :
  fs <> [] -> clean_record fs -> clean s ->
  exists m, readRecord (S fuel) (enc_record fs ++ s) n = Record fs (S n) s m.
Proof.
  intros Hne Hf Hs. set (t := enc_record fs ++ s).
  assert (Ht : clean t) by (apply clean_app; split; [by apply clean_enc_record|done]).
  assert (Hh : exists t', t = ch_quote :: t').
  { unfold t. destruct fs as [|f fs]; [done|]. simpl. eauto. }
  destruct Hh as [t' Et]. cbn [readRecord]. rewrite readLine_clean by (done || by rewrite Et).
  destruct (reads_record fs s Hne Hf Hs (S n)) as (k & m & E). fold t in E.
  assert (Ho : only_nl (split_line t).1 = false) by (by rewrite Et, split_line_cons).
  destruct (split_line t) as [l r]. cbn [fst snd] in *. rewrite Ho.
  destruct (parse_fields_total (S (length l + length r)) None l r (S n) []) as (fs' & r' & m' & E' & _);
    [lia|]. exists m'. rewrite E'.
  apply (parse_fields_mono _ (k + S (length l + length r))) in E, E'; [|lia..]. by simplify_eq.
Qed.

Lemma read_all_enc fuel rs n :
  Forall (fun fs => fs <> [] /\ clean_record fs) rs -> length rs < fuel ->
  exists l, read_all fuel (rs ≫= enc_record) n = Some l /\ l.*1 = rs.
Proof.
  revert rs n. induction fuel as [|fuel IH]; [lia|]. intros rs n Hrs Hf.
  destruct rs as [|fs rs]; cbn [read_all].
  { by exists []. }
  apply Forall_cons in Hrs as [[Hne Hfs] Hrs].
  assert (Hcl : clean (rs ≫= enc_record)).
  { intros (fs' & Hc & Hin)%list_elem_of_bind. revert Hc. apply clean_enc_record.
    rewrite Forall_forall in Hrs. by apply Hrs. }
  rewrite bind_cons.
  destruct (readRecord_enc (length (enc_record fs ++ (rs ≫= enc_record))) fs _ n Hne Hfs Hcl) as [m ->].
  simpl in Hf. destruct (IH rs m Hrs) as (l & -> & <-); [lia|]. by eexists.
Qed.

Lemma length_enc rs : length rs <= length (rs ≫= enc_record).
Proof.
  induction rs as [|fs rs IH]; [simpl; lia|]. rewrite bind_cons, length_app. cbn [length].
  assert (0 < length (enc_record fs)); [|lia]. destruct fs; simpl; lia.
Qed.

(** Every file is read, and the records of a quoted file come back. *)
Lemma read_file_enc rs :
  Forall (fun fs => fs <> [] /\ clean_record fs) rs ->
  exists l, read_file (rs ≫= enc_record) = Some l /\ l.*1 = rs.
Proof. intros H. apply read_all_enc; [done|]. pose proof (length_enc rs). lia. Qed.
