(* ===== verification/LeadIdentity.v ===== *)
(** * lead-identity: phone normalisation and one contact per phone

    [services/lead-identity/internal]: model, phone, stores and handlers.  The
    library [phonenumbers] is the record [PhoneLib].  In the in-memory store the
    index by phone and the map by id share their objects, so the index is kept
    as ids here; the Postgres store keeps a copy of the contact in its index. *)

From S2P Require Import Prelude GoTime Kv GoMonad GoStrings.

Open Scope Z_scope.

(** [phone.Normalize]. *)
Definition Normalize (lib : PhoneLib) (raw defaultCountry : string) : string + string :=
  let raw := trim_space raw in
  if is_empty raw then inl "empty phone number"%string
  else match ph_parse lib raw defaultCountry with
       | inl e => inl ("parse phone " ++ quote raw ++ ": " ++ e)%string
       | inr num => if negb (ph_valid lib num) then inl ("invalid phone number " ++ quote raw)%string
                    else inr (ph_e164 lib num)
       end.

Record Contact := mkContact {
  co_ID : string;
  co_TenantID : string;
  co_PhoneE164 : string;
  co_Email : string;
  co_Name : string;
  co_MergedInto : option string;
  co_CreatedAt : Z;
  co_UpdatedAt : Z
}.

Record MergeAudit := mkMerge {
  ma_ID : string;
  ma_TenantID : string;
  ma_PrimaryID : string;
  ma_DuplicateID : string;
  ma_ActorID : string;
  ma_MergedAt : Z
}.

Definition merged (c : Contact) (primaryID : string) (now : Z) : Contact :=
  mkContact (co_ID c) (co_TenantID c) (co_PhoneE164 c) (co_Email c) (co_Name c) (Some primaryID)
    (co_CreatedAt c) now.

Definition phone_key (tenantID phoneE164 : string) : string := (tenantID ++ ":" ++ phoneE164)%string.

Class IdStore (T : Type) := {
  GetOrCreateContact : T -> Z -> string -> string -> string -> string -> string
                       -> T * (string + Contact * bool);
  GetContact : T -> string -> string -> string + Contact;
  MergeContacts : T -> Z -> string -> string -> string -> string -> string -> T * (string + unit)
}.

(** ** In memory *)
Module FakeId.

Record t := mk { contacts : gmap string string; byID : gmap string Contact }.

Definition NewFake : t := mk ∅ ∅.

Definition getOrCreateContact (f : t) (now : Z) (uid tenantID phoneE164 email name : string)
    : t * (string + Contact * bool) :=
  let key := phone_key tenantID phoneE164 in
  match contacts f !! key ≫= (fun id => byID f !! id) with
  | Some c => (f, inr (c, false))
  | None =>
      let c := mkContact uid tenantID phoneE164 email name None now now in
      (mk (<[key := uid]> (contacts f)) (<[uid := c]> (byID f)), inr (c, true))
  end.

Definition getContact (f : t) (tenantID contactID : string) : string + Contact :=
  match byID f !! contactID with
  | Some c => if decide (co_TenantID c = tenantID) then inr c else inl "contact not found"%string
  | None => inl "contact not found"%string
  end.

Definition mergeContacts (f : t) (now : Z) (uid tenantID primaryID duplicateID actorID : string)
    : t * (string + unit) :=
  match byID f !! duplicateID with
  | Some dup =>
      if decide (co_TenantID dup = tenantID) then
        (mk (delete (phone_key tenantID (co_PhoneE164 dup)) (contacts f))
           (<[duplicateID := merged dup primaryID now]> (byID f)), inr tt)
      else (f, inl "duplicate contact not found"%string)
  | None => (f, inl "duplicate contact not found"%string)
  end.

End FakeId.

(** ** Postgres *)
Module PgId.

Record t := mk {
  contacts : kv Contact;
  contacts_by_phone : kv Contact;
  merge_audit : kv MergeAudit
}.

Definition empty : t := mk kv_empty kv_empty kv_empty.

Definition getOrCreateContact (p : t) (now : Z) (uid tenantID phoneE164 email name : string)
    : t * (string + Contact * bool) :=
  let key := phone_key tenantID phoneE164 in
  match kv_get (contacts_by_phone p) key with
  | Err e => (p, inl e)
  | Ok (Some existing) => (p, inr (existing, false))
  | Ok None =>
      let c := mkContact uid tenantID phoneE164 email name None now now in
      let '(cs, e) := kv_set (contacts p) (co_ID c) c in
      let p := mk cs (contacts_by_phone p) (merge_audit p) in
      match e with
      | Some e => (p, inl e)
      | None =>
          let '(bp, e) := kv_set (contacts_by_phone p) key c in
          let p := mk (contacts p) bp (merge_audit p) in
          (p, match e with Some e => inl e | None => inr (c, true) end)
      end
  end.

Definition getContact (p : t) (tenantID contactID : string) : string + Contact :=
  match kv_get (contacts p) contactID with
  | Err e => inl e
  | Ok None => inl "contact not found"%string
  | Ok (Some c) => if decide (co_TenantID c = tenantID) then inr c else inl "contact not found"%string
  end.

Definition mergeContacts (p : t) (now : Z) (uid tenantID primaryID duplicateID actorID : string)
    : t * (string + unit) :=
  match getContact p tenantID duplicateID with
  | inl e => (p, inl ("duplicate contact not found: " ++ e)%string)
  | inr dup =>
      let '(cs, e) := kv_set (contacts p) duplicateID (merged dup primaryID now) in
      let p := mk cs (contacts_by_phone p) (merge_audit p) in
      match e with
      | Some e => (p, inl e)
      | None =>
          match kv_delete (contacts_by_phone p) (phone_key tenantID (co_PhoneE164 dup)) with
          | Err e => (p, inl e)
          | Ok bp =>
              let audit := mkMerge uid tenantID primaryID duplicateID actorID now in
              let '(ma, e) := kv_set (merge_audit p) (ma_ID audit) audit in
              (mk (contacts p) bp ma, match e with Some e => inl e | None => inr tt end)
          end
      end
  end.

End PgId.

#[export] Instance fake_id_store : IdStore FakeId.t := {
  GetOrCreateContact := FakeId.getOrCreateContact;
  GetContact := FakeId.getContact;
  MergeContacts := FakeId.mergeContacts
}.

#[export] Instance pg_id_store : IdStore PgId.t := {
  GetOrCreateContact := PgId.getOrCreateContact;
  GetContact := PgId.getContact;
  MergeContacts := PgId.mergeContacts
}.

(** ** Handlers *)

Record ResolveRequest := mkResolve {
  rq_TenantID : string; rq_Phone : string; rq_Email : string; rq_Name : string
}.

Record MergeRequest := mkMergeReq {
  mq_TenantID : string; mq_PrimaryID : string; mq_DuplicateID : string; mq_ActorID : string
}.

Definition handleNormalizePhone (lib : PhoneLib) (req : option (string * string))
    : Z * (string + string) :=
  match req with
  | None => (400, inl "phone is required"%string)
  | Some (phone, defaultCountry) =>
      if is_empty phone then (400, inl "phone is required"%string)
      else match Normalize lib phone (first_nonempty defaultCountry "IN") with
           | inl e => (422, inl e)
           | inr e164 => (200, inr e164)
           end
  end.

Section Handlers.
Context {T : Type} `{!IdStore T} (lib : PhoneLib).

(** The clock and the UUID a request meets are its own arguments. *)
Definition handleResolveIdentity (now : Z) (uid : string) (req : option ResolveRequest) (s : T)
    : T * (Z * (string + Contact * bool)) :=
  match req with
  | None => (s, (400, inl "tenant_id and phone are required"%string))
  | Some r =>
      if is_empty (rq_TenantID r) || is_empty (rq_Phone r)
      then (s, (400, inl "tenant_id and phone are required"%string))
      else match Normalize lib (rq_Phone r) "IN" with
           | inl e => (s, (422, inl e))
           | inr e164 =>
               let '(s', res) := GetOrCreateContact s now uid (rq_TenantID r) e164 (rq_Email r)
                                   (rq_Name r) in
               match res with
               | inl _ => (s', (500, inl "resolve identity failed"%string))
               | inr (c, created) => (s', (if created : bool then 201 else 200, inr (c, created)))
               end
           end
  end.

Definition handleMergeContacts (now : Z) (uid : string) (req : option MergeRequest) (s : T)
    : T * (Z * (string + string)) :=
  match req with
  | None => (s, (400, inl "tenant_id, primary_id, and duplicate_id are required"%string))
  | Some r =>
      if is_empty (mq_TenantID r) || is_empty (mq_PrimaryID r) || is_empty (mq_DuplicateID r)
      then (s, (400, inl "tenant_id, primary_id, and duplicate_id are required"%string))
      else if decide (mq_PrimaryID r = mq_DuplicateID r)
      then (s, (400, inl "primary_id and duplicate_id must differ"%string))
      else
        let '(s', res) := MergeContacts s now uid (mq_TenantID r) (mq_PrimaryID r) (mq_DuplicateID r)
                            (mq_ActorID r) in
        match res with
        | inl _ => (s', (500, inl "merge contacts failed"%string))
        | inr _ => (s', (200, inr (mq_PrimaryID r)))
        end
  end.
End Handlers.
