(* ===== verification/LeadIdentitySafety.v ===== *)
(** * lead-identity: the stores agree, a phone keeps its contact *)

From S2P Require Import Prelude GoTime Kv GoMonad GoStrings LeadIdentity.

Open Scope Z_scope.

Inductive id_op :=
| Resolve (now : Z) (uid : string) (req : option ResolveRequest)
| Merge (now : Z) (uid : string) (req : option MergeRequest).

Definition op_uid (o : id_op) : string := match o with Resolve _ u _ | Merge _ u _ => u end.

Definition answer : Type := (Z * (string + Contact * bool)) + (Z * (string + string)).

Section Ops.
Context {T : Type} `{!IdStore T} (lib : PhoneLib).

Definition id_step (s : T) (o : id_op) : T * answer :=
  match o with
  | Resolve now uid req => let '(s', a) := handleResolveIdentity lib now uid req s in (s', inl a)
  | Merge now uid req => let '(s', a) := handleMergeContacts now uid req s in (s', inr a)
  end.

Definition id_run (s : T) (ops : list id_op) : T := foldl (fun s o => (id_step s o).1) s ops.

Fixpoint id_answers (s : T) (ops : list id_op) : list answer :=
  match ops with
  | [] => []
  | o :: ops' => (id_step s o).2 :: id_answers (id_step s o).1 ops'
  end.
End Ops.

(** ** Simulation *)

(** The contents of both stores; ids of [used] are taken. *)
Record same_ids (used : list string) (p : PgId.t) (f : FakeId.t) : Prop := {
  si_up : kv_up (PgId.contacts p) = true /\ kv_up (PgId.contacts_by_phone p) = true /\
          kv_up (PgId.merge_audit p) = true;
  si_contacts : kv_map (PgId.contacts p) = FakeId.byID f;
  si_phone k : kv_map (PgId.contacts_by_phone p) !! k
               = FakeId.contacts f !! k ≫= (fun id => FakeId.byID f !! id);
  si_index k id : FakeId.contacts f !! k = Some id ->
    exists c, FakeId.byID f !! id = Some c /\ k = phone_key (co_TenantID c) (co_PhoneE164 c);
  si_used id : is_Some (FakeId.byID f !! id) -> id ∈ used
}.

Lemma same_ids_empty : same_ids [] PgId.empty FakeId.NewFake.
Proof.
  split; try done. intros id [c H]. simpl in H. by rewrite lookup_empty in H.
Qed.

Lemma same_ids_mono u u' p f : same_ids u p f -> (forall x, x ∈ u -> x ∈ u') -> same_ids u' p f.
Proof. intros [H1 H2 H3 H4 H5] Hu. split; auto. Qed.

(** A new contact enters both stores and both indexes. *)
Lemma same_ids_create u p f now uid tn ph em nm :
  same_ids u p f -> uid ∉ u ->
  let rp := PgId.getOrCreateContact p now uid tn ph em nm in
  let rf := FakeId.getOrCreateContact f now uid tn ph em nm in
  rp.2 = rf.2 /\ same_ids (uid :: u) rp.1 rf.1.
Proof.
  intros [(U1 & U2 & U3) Hc Hp Hi Hu] Hn. unfold PgId.getOrCreateContact, FakeId.getOrCreateContact.
  set (key := phone_key tn ph). rewrite kv_get_up by done. rewrite Hp.
  destruct (FakeId.contacts f !! key ≫= _) as [c|] eqn:E; simpl.
  { split; [done|]. split; auto. intros id Hid. apply elem_of_cons. auto. }
  set (c := mkContact uid tn ph em nm None now now).
  destruct (kv_set_up (PgId.contacts p) uid c U1) as (cs & -> & V1 & M1).
  destruct (kv_set_up (PgId.contacts_by_phone p) key c U2) as (bp & Eb & V2 & M2).
  simpl. rewrite Eb. simpl. split; [done|]. split; simpl.
  - done.
  - by rewrite M1, Hc.
  - intros k. rewrite M2. destruct (decide (k = key)) as [->|Hk].
    + rewrite !lookup_insert_eq. simpl. by rewrite lookup_insert_eq.
    + rewrite !lookup_insert_ne by done. rewrite Hp.
      destruct (FakeId.contacts f !! k) as [id|] eqn:Ek; [|done]. simpl.
      rewrite lookup_insert_ne; [done|]. intros ->. apply Hn, Hu.
      destruct (Hi _ _ Ek) as (x & ? & _). eauto.
  - intros k id [[<- <-]|[Hk Ek]]%lookup_insert_Some.
    + exists c. by rewrite lookup_insert_eq.
    + destruct (Hi _ _ Ek) as (x & Ex & ->). exists x. split; [|done].
      rewrite lookup_insert_ne; [done|]. intros ->. apply Hn, Hu. eauto.
  - intros id [x [[<- _]|[_ Ex]]%lookup_insert_Some]; apply elem_of_cons; eauto.
Qed.

Definition succeeded {A B} (r : A + B) : bool := match r with inl _ => false | inr _ => true end.

(** A merge marks the duplicate and takes its phone out of the index. *)
Lemma same_ids_merge u p f now uid tn pr du ac :
  same_ids u p f ->
  let rp := PgId.mergeContacts p now uid tn pr du ac in
  let rf := FakeId.mergeContacts f now uid tn pr du ac in
  succeeded rp.2 = succeeded rf.2 /\ same_ids u rp.1 rf.1.
Proof.
  intros HS. pose proof HS as [(U1 & U2 & U3) Hc Hp Hi Hu].
  unfold PgId.mergeContacts, FakeId.mergeContacts, PgId.getContact.
  rewrite kv_get_up by done. rewrite Hc.
  destruct (FakeId.byID f !! du) as [d|] eqn:Ed; [|by split].
  destruct (decide (co_TenantID d = tn)) as [Ht|Ht]; [|by split].
  destruct (kv_set_up (PgId.contacts p) du (merged d pr now) U1) as (cs & -> & V1 & M1).
  set (key := phone_key tn (co_PhoneE164 d)).
  destruct (kv_delete_up (PgId.contacts_by_phone p) key U2) as (bp & Eb & V2 & M2). simpl.
  rewrite Eb. destruct (kv_set_up (PgId.merge_audit p) uid (mkMerge uid tn pr du ac now) U3)
    as (ma & -> & V3 & _). simpl. split; [done|]. split; simpl.
  - done.
  - by rewrite M1, Hc.
  - intros k. rewrite M2. destruct (decide (k = key)) as [->|Hk]; [by rewrite !lookup_delete_eq|].
    rewrite !lookup_delete_ne by done. rewrite Hp.
    destruct (FakeId.contacts f !! k) as [id|] eqn:Ek; [|done]. simpl.
    rewrite lookup_insert_ne; [done|]. intros ->. apply Hk.
    destruct (Hi _ _ Ek) as (x & Ex & ->). rewrite Ed in Ex. injection Ex as <-. by subst tn.
  - intros k id [Hk Ek]%lookup_delete_Some. destruct (Hi _ _ Ek) as (x & Ex & ->).
    destruct (decide (id = du)) as [->|Hne].
    + exists (merged d pr now). rewrite lookup_insert_eq. split; [done|].
      rewrite Ed in Ex. by injection Ex as <-.
    + exists x. by rewrite lookup_insert_ne.
  - intros id [x [[<- _]|[_ Ex]]%lookup_insert_Some]; eauto.
Qed.

Lemma same_ids_step lib u p f o :
  same_ids u p f -> op_uid o ∉ u ->
  (id_step lib p o).2 = (id_step lib f o).2 /\
  same_ids (op_uid o :: u) (id_step lib p o).1 (id_step lib f o).1.
Proof.
  intros HS Hu. assert (HS' : same_ids (op_uid o :: u) p f).
  { eapply same_ids_mono; [done|]. set_solver. }
  destruct o as [now uid [r|]|now uid [r|]]; simpl in *; try done.
  - unfold handleResolveIdentity. destruct (_ || _); [done|].
    destruct (Normalize lib (rq_Phone r) "IN") as [e|ph]; [done|].
    destruct (same_ids_create u p f now uid (rq_TenantID r) ph (rq_Email r) (rq_Name r) HS Hu) as [E S'].
    cbn. destruct (PgId.getOrCreateContact _ _ _ _ _ _ _) as [p' [e|[c b]]], (FakeId.getOrCreateContact _ _ _ _ _ _ _) as [f' [e'|[c' b']]];
      simpl in *; simplify_eq; done.
  - unfold handleMergeContacts. destruct (_ || _); [done|]. destruct (decide (_ = _)); [done|].
    destruct (same_ids_merge (uid :: u) p f now uid (mq_TenantID r) (mq_PrimaryID r) (mq_DuplicateID r)
      (mq_ActorID r) HS') as [E S'].
    cbn. destruct (PgId.mergeContacts _ _ _ _ _ _ _) as [p' [e|[]]], (FakeId.mergeContacts _ _ _ _ _ _ _) as [f' [e'|[]]];
      simpl in *; done.
Qed.

Lemma same_ids_answers lib ops u p f :
  same_ids u p f -> NoDup (op_uid <$> ops) -> (forall o, o ∈ ops -> op_uid o ∉ u) ->
  id_answers lib p ops = id_answers lib f ops.
Proof.
  revert u p f. induction ops as [|o ops IH]; intros u p f HS Hnd Hu; [done|].
  rewrite fmap_cons in Hnd. apply NoDup_cons in Hnd as [Hni Hnd].
  destruct (same_ids_step lib u p f o HS (Hu o (list_elem_of_here _ _))) as [E S']. simpl.
  rewrite E. f_equal. eapply IH; [exact S'|done|].
  intros o' Ho' [Eq|Hin]%elem_of_cons; [|by apply (Hu o'); [apply list_elem_of_further|]].
  apply Hni. rewrite <- Eq. by apply list_elem_of_fmap_2.
Qed.

(** The Postgres and the in-memory contact store answer every sequence of
    requests alike, as long as Postgres answers and UUIDs are not repeated. *)
Theorem identity_stores_agree lib ops :
  NoDup (op_uid <$> ops) ->
  id_answers lib PgId.empty ops = id_answers lib FakeId.NewFake ops.
Proof.
  intros Hnd. apply (same_ids_answers lib ops []); [apply same_ids_empty|done|].
  intros o _. apply not_elem_of_nil.
Qed.

(** ** A phone keeps its contact *)

(** The merges of [ops] leave the index entry [key] alone. *)
Fixpoint untouched (lib : PhoneLib) (key : string) (p : PgId.t) (ops : list id_op) : Prop :=
  match ops with
  | [] => True
  | o :: ops' =>
      match o with
      | Merge _ _ (Some r) =>
          forall d, PgId.getContact p (mq_TenantID r) (mq_DuplicateID r) = inr d ->
            phone_key (mq_TenantID r) (co_PhoneE164 d) <> key
      | _ => True
      end /\ untouched lib key (id_step lib p o).1 ops'
  end.

Definition indexed (p : PgId.t) (key : string) (c : Contact) : Prop :=
  kv_up (PgId.contacts_by_phone p) = true /\ kv_map (PgId.contacts_by_phone p) !! key = Some c.

Lemma kv_set_keeps {A} (s : kv A) k v : kv_up (kv_set s k v).1 = kv_up s.
Proof. unfold kv_set, kv_put. by destruct (kv_up s) eqn:E. Qed.

Lemma resolve_indexes p now uid tn ph em nm p' c b :
  PgId.getOrCreateContact p now uid tn ph em nm = (p', inr (c, b)) ->
  indexed p' (phone_key tn ph) c.
Proof.
  unfold PgId.getOrCreateContact, indexed. unfold kv_get.
  destruct (kv_up (PgId.contacts_by_phone p)) eqn:U; [|done].
  rewrite <- kv_map_lookup. destruct (_ !! _) as [x|] eqn:E; [by intros [= <- <- <-]|].
  destruct (kv_set (PgId.contacts p) _ _) as [cs [e|]]; [done|]. simpl.
  set (x := mkContact _ _ _ _ _ _ _ _).
  destruct (kv_set_up (PgId.contacts_by_phone p) (phone_key tn ph) x U) as (bp & -> & V & M).
  intros [= <- <- <-]. simpl. split; [done|]. by rewrite M, lookup_insert_eq.
Qed.

Lemma resolve_keeps p now uid tn ph em nm key c :
  indexed p key c -> indexed (PgId.getOrCreateContact p now uid tn ph em nm).1 key c.
Proof.
  intros [U H]. unfold PgId.getOrCreateContact. rewrite kv_get_up by done.
  destruct (_ !! phone_key tn ph) as [x|] eqn:E; [done|].
  destruct (kv_set (PgId.contacts p) _ _) as [cs [e|]]; [done|]. simpl.
  set (x := mkContact _ _ _ _ _ _ _ _).
  destruct (kv_set_up (PgId.contacts_by_phone p) (phone_key tn ph) x U) as (bp & -> & V & M).
  split; simpl; [done|]. rewrite M, lookup_insert_ne; [done|]. intros Ek. rewrite Ek in E. congruence.
Qed.

Lemma merge_keeps p now uid tn pr du ac key c :
  (forall d, PgId.getContact p tn du = inr d -> phone_key tn (co_PhoneE164 d) <> key) ->
  indexed p key c -> indexed (PgId.mergeContacts p now uid tn pr du ac).1 key c.
Proof.
  intros Hd [U H]. unfold PgId.mergeContacts. destruct (PgId.getContact p tn du) as [e|d]; [done|].
  specialize (Hd d eq_refl). destruct (kv_set (PgId.contacts p) _ _) as [cs [e|]]; [done|]. simpl.
  destruct (kv_delete_up (PgId.contacts_by_phone p) (phone_key tn (co_PhoneE164 d)) U) as (bp & -> & V & M).
  destruct (kv_set (PgId.merge_audit p) _ _) as [ma e]. simpl. split; simpl; [done|].
  by rewrite M, lookup_delete_ne.
Qed.

Lemma id_run_keeps lib ops p key c :
  untouched lib key p ops -> indexed p key c -> indexed (id_run lib p ops) key c.
Proof.
  revert p. induction ops as [|o ops IH]; intros p Hu Hi; [done|]. destruct Hu as [Ho Hu].
  cbn [id_run foldl]. apply IH; [done|]. clear IH Hu. unfold id_step.
  destruct o as [now uid [r|]|now uid [r|]]; cbn; try done.
  - destruct (_ || _); [done|]. destruct (Normalize _ _ _) as [e|ph]; [done|]. cbn.
    pose proof (resolve_keeps p now uid (rq_TenantID r) ph (rq_Email r) (rq_Name r) key c Hi).
    by destruct (PgId.getOrCreateContact _ _ _ _ _ _ _) as [p' [e|[x b]]].
  - destruct (_ || _); [done|]. destruct (decide (_ = _)); [done|]. cbn.
    pose proof (merge_keeps p now uid (mq_TenantID r) (mq_PrimaryID r) (mq_DuplicateID r) (mq_ActorID r)
      key c Ho Hi).
    by destruct (PgId.mergeContacts _ _ _ _ _ _ _) as [p' [e|[]]].
Qed.

(** C23: A phone keeps its contact.  Once a phone was resolved to a contact, every
    later request that names the phone, in whatever spelling normalises to the
    same number, gets that contact and creates none, however many requests are
    served in between, unless a contact with that phone is merged away. *)
Theorem resolved_phone_keeps_its_contact lib p now uid r p1 st c b ops now' uid' r' :
  handleResolveIdentity lib now uid (Some r) p = (p1, (st, inr (c, b))) ->
  (forall e164, Normalize lib (rq_Phone r) "IN" = inr e164 ->
     untouched lib (phone_key (rq_TenantID r) e164) p1 ops) ->
  rq_TenantID r' = rq_TenantID r -> rq_Phone r' <> "" ->
  Normalize lib (rq_Phone r') "IN" = Normalize lib (rq_Phone r) "IN" ->
  let p2 := id_run lib p1 ops in
  handleResolveIdentity lib now' uid' (Some r') p2 = (p2, (200, inr (c, false))).
Proof.
  intros E Hu Ht Hp Hn p2. unfold handleResolveIdentity in *. rewrite Ht, Hn.
  destruct (is_empty (rq_TenantID r)) eqn:Et; [done|]. simpl in E.
  destruct (is_empty (rq_Phone r)); [done|]. destruct (Normalize lib (rq_Phone r) "IN") as [e|ph]; [done|].
  cbn in E. destruct (PgId.getOrCreateContact p now uid (rq_TenantID r) ph (rq_Email r) (rq_Name r))
    as [p1' [e|[x y]]] eqn:Eg; [done|]. injection E as <- _ <- _.
  apply resolve_indexes in Eg. destruct (id_run_keeps lib ops _ _ _ (Hu _ eq_refl) Eg) as [U H].
  unfold is_empty. rewrite bool_decide_false by done. simpl. cbn. unfold PgId.getOrCreateContact.
  rewrite kv_get_up by done. fold p2 in H. by rewrite H.
Qed.

Definition asha : ResolveRequest := mkResolve "t1" "98765 43210" "" "Asha".
Definition asha_again : ResolveRequest := mkResolve "t1" " 9876543210" "" "A.".
Definition between : list id_op :=
  [Resolve 2 "c2" (Some (mkResolve "t1" "55555" "" "Ravi")); Merge 3 "m1" (Some (mkMergeReq "t1" "c1" "c2" "op"))].

Lemma resolved_phone_keeps_its_contact_witness :
  let p1 := (handleResolveIdentity digit_lib 1 "c1" (Some asha) PgId.empty).1 in
  let p2 := id_run digit_lib p1 between in
  handleResolveIdentity digit_lib 4 "c3" (Some asha_again) p2
  = (p2, (200, inr (mkContact "c1" "t1" "9876543210" "" "Asha" None 1 1, false))).
Proof.
  cbv zeta.
  eapply (resolved_phone_keeps_its_contact digit_lib PgId.empty 1 "c1" asha _ _ _ _ between 4 "c3" asha_again);
    [vm_compute; reflexivity| |done|done|vm_compute; reflexivity].
  intros e164 E. vm_compute in E. injection E as <-. split; [done|]. split; [|done].
  intros d Hd. vm_compute in Hd. injection Hd as <-. by vm_compute.
Defined.

(** A merged phone does not lead to the primary contact: the store says that
    the primary wins future lookups, but the next request with the phone of
    the duplicate creates a third contact. *)
Theorem merged_phone_gets_new_contact lib p now uid r d p1 now' uid' r' :
  kv_up (PgId.contacts_by_phone p) = true ->
  PgId.getContact p (mq_TenantID r) (mq_DuplicateID r) = inr d ->
  handleMergeContacts now uid (Some r) p = (p1, (200, inr (mq_PrimaryID r))) ->
  rq_TenantID r' = mq_TenantID r -> rq_TenantID r' <> "" -> rq_Phone r' <> "" ->
  Normalize lib (rq_Phone r') "IN" = inr (co_PhoneE164 d) ->
  exists p2 c, handleResolveIdentity lib now' uid' (Some r') p1 = (p2, (201, inr (c, true))) /\
    co_ID c = uid'.
Proof.
  intros U Hd E Ht Hne Hp Hn. unfold handleResolveIdentity. rewrite Hn. unfold is_empty.
  rewrite !bool_decide_false by done. simpl.
  unfold handleMergeContacts in E. destruct (_ || _); [done|]. destruct (decide (_ = _)); [done|].
  cbn in E. unfold PgId.mergeContacts in E. rewrite Hd in E.
  unfold kv_set at 1 in E. destruct (kv_put (PgId.contacts p) _ _) as [cs|e] eqn:Ec; [|done].
  simpl in E.
  destruct (kv_delete_up (PgId.contacts_by_phone p) (phone_key (mq_TenantID r) (co_PhoneE164 d)) U)
    as (bp & Eb & V & M). rewrite Eb in E.
  destruct (kv_set (PgId.merge_audit p) _ _) as [ma [e|]]; [done|]. injection E as <-.
  cbn. unfold PgId.getOrCreateContact. simpl. rewrite kv_get_up, M, Ht, lookup_delete_eq by done.
  unfold kv_put in Ec. destruct (kv_up (PgId.contacts p)) eqn:Uc; [|done]. injection Ec as <-.
  set (x := mkContact _ _ _ _ _ _ _ _).
  destruct (kv_set_up (mkKv (rows_put (mq_DuplicateID r) (merged d (mq_PrimaryID r) now)
    (kv_rows (PgId.contacts p))) true) uid' x eq_refl) as (cs & -> & _ & _).
  simpl. destruct (kv_set_up bp (phone_key (mq_TenantID r) (co_PhoneE164 d)) x V) as (bp' & -> & _ & _).
  simpl. eexists _, x. by split.
Qed.
