(* ===== verification/LeadImport.v ===== *)
(** * lead-import: model, file parsers and stores

    [services/lead-import/internal]: [model], [parser] and [store].  A Go
    [map[string]string] is a finite map; where the code ranges over one, the
    order is an argument.  [encoding/csv] is [Csv]; [excelize] is the record
    [XlsxLib].  The wall clock and the UUIDs are arguments of the store
    methods that read them. *)

From S2P Require Import Prelude GoTime Kv GoStrings Csv GoMonad.
From stdpp Require Import pretty.

Open Scope Z_scope.

Abbreviation Fields := (gmap string string).

(** A field that is missing reads as the empty string. *)
Definition field (m : Fields) (k : string) : string := default "" (m !! k).

Record Contact := mkContact {
  co_ID : string;
  co_TenantID : string;
  co_PhoneE164 : string;
  co_Email : string;
  co_Name : string;
  co_CreatedAt : Z;
  co_UpdatedAt : Z
}.

Record Lead := mkLead {
  le_ID : string;
  le_TenantID : string;
  le_ContactID : string;
  le_SourceID : string;
  le_Status : string;
  le_Score : Z;
  le_AssignedTo : string;
  le_CreatedAt : Z;
  le_UpdatedAt : Z
}.

Record RowError := mkRowError { re_Row : Z; re_Message : string }.

Record LeadImportJob := mkJob {
  ij_ID : string;
  ij_TenantID : string;
  ij_SourceID : string;
  ij_FileURL : string;
  ij_Mapping : Fields;
  ij_Status : string;
  ij_TotalRows : Z;
  ij_ImportedRows : Z;
  ij_ErrorRows : Z;
  ij_Errors : list RowError;
  ij_CreatedAt : Z;
  ij_UpdatedAt : Z
}.

(** [Payload] is the JSON text of the map. *)
Record LeadActivity := mkActivity {
  la_ID : string;
  la_LeadID : string;
  la_Type : string;
  la_Payload : string;
  la_ActorID : string;
  la_OccurredAt : Z
}.

Record LeadStatusHistory := mkHistory {
  lh_ID : string;
  lh_LeadID : string;
  lh_OldStatus : string;
  lh_NewStatus : string;
  lh_ActorID : string;
  lh_ChangedAt : Z
}.

Record LeadFilters := mkFilters {
  lf_Status : string;
  lf_SourceID : string;
  lf_AssignedTo : string;
  lf_Limit : Z;
  lf_Offset : Z
}.

(** ** Parsers *)

(** [canonical := mapping[h]; if canonical == "" { canonical = h }]. *)
Definition canonical (mapping : Fields) (h : string) : string :=
  first_nonempty (field mapping h) h.

Definition text (f : bytes) : string := String.string_of_list_ascii f.

(** The map built from the headers and one record: [i < len(record)]. *)
Fixpoint row_fields (mapping : Fields) (headers record : list bytes) (acc : Fields) : Fields :=
  match headers, record with
  | h :: headers', v :: record' =>
      row_fields mapping headers' record' (<[canonical mapping (text h) := text v]> acc)
  | _, _ => acc
  end.

Section Parsers.
Context {S : Type} (mapping : Fields) (onRow : Z -> Fields -> S -> S).

(** The loop over the records; a record with another number of fields than
    the header is an error of the reader. *)
Fixpoint csv_rows (headers : list bytes) (records : list (list bytes * nat)) (rowNum : Z)
    (errs : list RowError) (s : S) : S * list RowError :=
  match records with
  | [] => (s, errs)
  | (record, line) :: records' =>
      let rowNum := rowNum + 1 in
      if negb (bool_decide (length record = length headers)) then
        csv_rows headers records' rowNum
          (errs ++ [mkRowError rowNum
             ("record on line " ++ itoa line ++ ": wrong number of fields")]) s
      else
        csv_rows headers records' rowNum errs (onRow rowNum (row_fields mapping headers record ∅) s)
  end.

Definition ParseCSV (data : bytes) (s : S) : S * (string + list RowError) :=
  match read_file data with
  | None => (s, inl "read CSV header: stuck"%string)
  | Some [] => (s, inl "read CSV header: EOF"%string)
  | Some ((headers, _) :: records) =>
      let '(s', errs) := csv_rows headers records 1 [] s in (s', inr errs)
  end.

(** [excelize.OpenReader], [GetSheetList] and [GetRows]. *)
Record XlsxLib := mkXlsx {
  xl_file : Type;
  xl_open : bytes -> string + xl_file;
  xl_sheets : xl_file -> list string;
  xl_rows : xl_file -> string -> string + list (list string)
}.

(** A cell that is missing at the end of a row is empty. *)
Fixpoint sheet_fields (headers record : list string) (acc : Fields) : Fields :=
  match headers with
  | [] => acc
  | h :: headers' =>
      let '(val, record') := match record with [] => (""%string, []) | v :: r => (v, r) end in
      sheet_fields headers' record' (<[canonical mapping h := val]> acc)
  end.

Fixpoint sheet_rows (headers : list string) (records : list (list string)) (rowNum : Z) (s : S) : S :=
  match records with
  | [] => s
  | record :: records' =>
      sheet_rows headers records' (rowNum + 1) (onRow rowNum (sheet_fields headers record ∅) s)
  end.

Definition ParseXLSX (lib : XlsxLib) (data : bytes) (s : S) : S * (string + list RowError) :=
  match xl_open lib data with
  | inl e => (s, inl ("open xlsx: " ++ e)%string)
  | inr f =>
      match xl_sheets lib f with
      | [] => (s, inl "xlsx has no sheets"%string)
      | sheet :: _ =>
          match xl_rows lib f sheet with
          | inl e => (s, inl ("read xlsx rows: " ++ e)%string)
          | inr [] => (s, inr [])
          | inr (headers :: records) => (sheet_rows headers records 2 s, inr [])
          end
      end
  end.
End Parsers.

(** ** Stores *)

(** Methods that write are given the wall clock and a fresh UUID; those that
    fill in the record they were given return it. *)
Class ImStore (T : Type) := {
  CreateImportJob : T -> Z -> string -> LeadImportJob -> T * (string + LeadImportJob);
  GetImportJob : T -> string -> string -> string + LeadImportJob;
  UpdateImportJob : T -> Z -> LeadImportJob -> T * (string + LeadImportJob);
  UpsertContact : T -> Z -> string -> Contact -> T * (string + Contact);
  GetContact : T -> string -> string -> string + Contact;
  CreateLead : T -> Z -> string -> Lead -> T * (string + Lead);
  GetLead : T -> string -> string -> string + Lead;
  ListLeads : T -> string -> LeadFilters -> string + list Lead;
  AppendActivity : T -> Z -> string -> LeadActivity -> T * (string + unit);
  AppendStatusHistory : T -> Z -> string -> LeadStatusHistory -> T * (string + unit);
  UpdateLeadScore : T -> Z -> string -> string -> Z -> T * (string + unit);
  CheckAndSetIdempotencyKey : T -> string -> T * (string + bool)
}.

Definition phone_key (tenantID phoneE164 : string) : string := (tenantID ++ ":" ++ phoneE164)%string.

Definition stamp_job (j : LeadImportJob) (id : string) (created updated : Z) : LeadImportJob :=
  mkJob id (ij_TenantID j) (ij_SourceID j) (ij_FileURL j) (ij_Mapping j) (ij_Status j)
    (ij_TotalRows j) (ij_ImportedRows j) (ij_ErrorRows j) (ij_Errors j) created updated.

Definition stamp_contact (c : Contact) (id : string) (created updated : Z) : Contact :=
  mkContact id (co_TenantID c) (co_PhoneE164 c) (co_Email c) (co_Name c) created updated.

Definition stamp_lead (l : Lead) (id : string) (created updated : Z) : Lead :=
  mkLead id (le_TenantID l) (le_ContactID l) (le_SourceID l) (le_Status l) (le_Score l)
    (le_AssignedTo l) created updated.

Definition scored (l : Lead) (score updated : Z) : Lead :=
  mkLead (le_ID l) (le_TenantID l) (le_ContactID l) (le_SourceID l) (le_Status l) score
    (le_AssignedTo l) (le_CreatedAt l) updated.

(** [filter != "" && value != filter] skips the lead. *)
Definition passes (filter_ value : string) : bool :=
  is_empty filter_ || bool_decide (value = filter_).

Module FakeIm.

(** [map_order] is the order in which the map of leads is ranged over. *)
Record t := mk {
  jobs : gmap string LeadImportJob;
  contacts : gmap string Contact;
  contactsID : gmap string Contact;
  leads : gmap string Lead;
  idempKeys : gset string;
  map_order : list Lead -> list Lead
}.

Definition NewFake (order : list Lead -> list Lead) : t := mk ∅ ∅ ∅ ∅ ∅ order.

Definition createImportJob (f : t) (now : Z) (uid : string) (job : LeadImportJob)
    : t * (string + LeadImportJob) :=
  let job := stamp_job job (first_nonempty (ij_ID job) uid) now now in
  (mk (<[ij_ID job := job]> (jobs f)) (contacts f) (contactsID f) (leads f) (idempKeys f) (map_order f),
   inr job).

Definition getImportJob (f : t) (tenantID jobID : string) : string + LeadImportJob :=
  match jobs f !! jobID with
  | Some j => if decide (ij_TenantID j = tenantID) then inr j else inl "job not found"%string
  | None => inl "job not found"%string
  end.

Definition updateImportJob (f : t) (now : Z) (job : LeadImportJob) : t * (string + LeadImportJob) :=
  let job := stamp_job job (ij_ID job) (ij_CreatedAt job) now in
  (mk (<[ij_ID job := job]> (jobs f)) (contacts f) (contactsID f) (leads f) (idempKeys f) (map_order f),
   inr job).

Definition upsertContact (f : t) (now : Z) (uid : string) (c : Contact) : t * (string + Contact) :=
  let key := phone_key (co_TenantID c) (co_PhoneE164 c) in
  match contacts f !! key with
  | Some existing => (f, inr existing)
  | None =>
      let c := stamp_contact c (first_nonempty (co_ID c) uid) now now in
      (mk (jobs f) (<[key := c]> (contacts f)) (<[co_ID c := c]> (contactsID f)) (leads f) (idempKeys f)
         (map_order f), inr c)
  end.

Definition getContact (f : t) (tenantID contactID : string) : string + Contact :=
  match contactsID f !! contactID with
  | Some c => if decide (co_TenantID c = tenantID) then inr c else inl "contact not found"%string
  | None => inl "contact not found"%string
  end.

Definition set_lead (f : t) (l : Lead) : t :=
  mk (jobs f) (contacts f) (contactsID f) (<[le_ID l := l]> (leads f)) (idempKeys f) (map_order f).

Definition createLead (f : t) (now : Z) (uid : string) (l : Lead) : t * (string + Lead) :=
  let l := stamp_lead l (first_nonempty (le_ID l) uid) now now in (set_lead f l, inr l).

Definition getLead (f : t) (tenantID leadID : string) : string + Lead :=
  match leads f !! leadID with
  | Some l => if decide (le_TenantID l = tenantID) then inr l else inl "lead not found"%string
  | None => inl "lead not found"%string
  end.

(** The source, the limit and the offset are not looked at. *)
Definition listLeads (f : t) (tenantID : string) (filters : LeadFilters) : string + list Lead :=
  inr (List.filter (fun l => bool_decide (le_TenantID l = tenantID)
                     && passes (lf_Status filters) (le_Status l)
                     && passes (lf_AssignedTo filters) (le_AssignedTo l))
         (map_order f (map_to_list (leads f)).*2)).

Definition appendActivity (f : t) (now : Z) (uid : string) (a : LeadActivity) : t * (string + unit) :=
  (f, inr tt).
Definition appendStatusHistory (f : t) (now : Z) (uid : string) (h : LeadStatusHistory)
    : t * (string + unit) := (f, inr tt).

(** The stored lead is changed in place; its key is its id. *)
Definition updateLeadScore (f : t) (now : Z) (tenantID leadID : string) (score : Z)
    : t * (string + unit) :=
  match leads f !! leadID with
  | Some l =>
      if decide (le_TenantID l = tenantID) then
        (mk (jobs f) (contacts f) (contactsID f) (<[leadID := scored l score (le_UpdatedAt l)]> (leads f))
           (idempKeys f) (map_order f), inr tt)
      else (f, inl ("lead not found: " ++ leadID)%string)
  | None => (f, inl ("lead not found: " ++ leadID)%string)
  end.

Definition checkAndSetIdempotencyKey (f : t) (key : string) : t * (string + bool) :=
  if decide (key ∈ idempKeys f) then (f, inr true)
  else (mk (jobs f) (contacts f) (contactsID f) (leads f) ({[key]} ∪ idempKeys f) (map_order f), inr false).

End FakeIm.

Module PgIm.

Record t := mk {
  import_jobs : kv LeadImportJob;
  contacts : kv Contact;
  contacts_by_phone : kv Contact;
  leads : kv Lead;
  lead_activities : kv LeadActivity;
  lead_status_history : kv LeadStatusHistory;
  idempotency_keys : kv string
}.

Definition empty : t :=
  mk kv_empty kv_empty kv_empty kv_empty kv_empty kv_empty kv_empty.

(** The answer of a [Put] that ends a method. *)
Definition put_result {A} (a : A) (e : error) : string + A :=
  match e with Some e => inl e | None => inr a end.

Definition put_job (p : t) (job : LeadImportJob) : t * (string + LeadImportJob) :=
  let '(js, e) := kv_set (import_jobs p) (ij_ID job) job in
  (mk js (contacts p) (contacts_by_phone p) (leads p) (lead_activities p) (lead_status_history p)
     (idempotency_keys p), put_result job e).

Definition createImportJob (p : t) (now : Z) (uid : string) (job : LeadImportJob)
    : t * (string + LeadImportJob) :=
  put_job p (stamp_job job (first_nonempty (ij_ID job) uid) (or_now (ij_CreatedAt job) now) now).

Definition getImportJob (p : t) (tenantID jobID : string) : string + LeadImportJob :=
  match kv_get (import_jobs p) jobID with
  | Err e => inl e
  | Ok (Some job) => if decide (ij_TenantID job = tenantID) then inr job else inl "job not found"%string
  | Ok None => inl "job not found"%string
  end.

Definition updateImportJob (p : t) (now : Z) (job : LeadImportJob) : t * (string + LeadImportJob) :=
  put_job p (stamp_job job (ij_ID job) (ij_CreatedAt job) now).

Definition upsertContact (p : t) (now : Z) (uid : string) (c : Contact) : t * (string + Contact) :=
  let phoneKey := phone_key (co_TenantID c) (co_PhoneE164 c) in
  match kv_get (contacts_by_phone p) phoneKey with
  | Err e => (p, inl e)
  | Ok (Some existing) => (p, inr existing)
  | Ok None =>
      let c := stamp_contact c (first_nonempty (co_ID c) uid) (or_now (co_CreatedAt c) now) now in
      let '(cs, e) := kv_set (contacts p) (co_ID c) c in
      let p := mk (import_jobs p) cs (contacts_by_phone p) (leads p) (lead_activities p)
                 (lead_status_history p) (idempotency_keys p) in
      match e with
      | Some e => (p, inl e)
      | None =>
          let '(bp, e) := kv_set (contacts_by_phone p) phoneKey c in
          (mk (import_jobs p) (contacts p) bp (leads p) (lead_activities p) (lead_status_history p)
             (idempotency_keys p), put_result c e)
      end
  end.

Definition getContact (p : t) (tenantID contactID : string) : string + Contact :=
  match kv_get (contacts p) contactID with
  | Err e => inl e
  | Ok (Some c) => if decide (co_TenantID c = tenantID) then inr c else inl "contact not found"%string
  | Ok None => inl "contact not found"%string
  end.

Definition put_lead (p : t) (l : Lead) : t * (string + Lead) :=
  let '(ls, e) := kv_set (leads p) (le_ID l) l in
  (mk (import_jobs p) (contacts p) (contacts_by_phone p) ls (lead_activities p) (lead_status_history p)
     (idempotency_keys p), put_result l e).

Definition createLead (p : t) (now : Z) (uid : string) (l : Lead) : t * (string + Lead) :=
  put_lead p (stamp_lead l (first_nonempty (le_ID l) uid) (or_now (le_CreatedAt l) now) now).

Definition getLead (p : t) (tenantID leadID : string) : string + Lead :=
  match kv_get (leads p) leadID with
  | Err e => inl e
  | Ok (Some l) => if decide (le_TenantID l = tenantID) then inr l else inl "lead not found"%string
  | Ok None => inl "lead not found"%string
  end.

(** The loop of [ListLeads]; [n] counts the leads taken so far. *)
Fixpoint list_loop (tenantID : string) (filters : LeadFilters) (start n : Z) (ls : list Lead)
    : list Lead :=
  match ls with
  | [] => []
  | l :: ls' =>
      if negb (bool_decide (le_TenantID l = tenantID) && passes (lf_Status filters) (le_Status l)
               && passes (lf_SourceID filters) (le_SourceID l)
               && passes (lf_AssignedTo filters) (le_AssignedTo l))
      then list_loop tenantID filters start n ls'
      else if 0 <? start then list_loop tenantID filters (start - 1) n ls'
      else if (0 <? lf_Limit filters) && (lf_Limit filters <=? n + 1) then [l]
      else l :: list_loop tenantID filters start (n + 1) ls'
  end.

Definition listLeads (p : t) (tenantID : string) (filters : LeadFilters) : string + list Lead :=
  match kv_list (leads p) with
  | Err e => inl e
  | Ok ls => inr (list_loop tenantID filters (if lf_Offset filters <? 0 then 0 else lf_Offset filters) 0 ls)
  end.

Definition appendActivity (p : t) (now : Z) (uid : string) (a : LeadActivity) : t * (string + unit) :=
  let a := mkActivity (first_nonempty (la_ID a) uid) (la_LeadID a) (la_Type a) (la_Payload a)
             (la_ActorID a) (or_now (la_OccurredAt a) now) in
  let '(acts, e) := kv_set (lead_activities p) (la_ID a) a in
  (mk (import_jobs p) (contacts p) (contacts_by_phone p) (leads p) acts (lead_status_history p)
     (idempotency_keys p), put_result tt e).

Definition appendStatusHistory (p : t) (now : Z) (uid : string) (h : LeadStatusHistory)
    : t * (string + unit) :=
  let h := mkHistory (first_nonempty (lh_ID h) uid) (lh_LeadID h) (lh_OldStatus h) (lh_NewStatus h)
             (lh_ActorID h) (or_now (lh_ChangedAt h) now) in
  let '(hs, e) := kv_set (lead_status_history p) (lh_ID h) h in
  (mk (import_jobs p) (contacts p) (contacts_by_phone p) (leads p) (lead_activities p) hs
     (idempotency_keys p), put_result tt e).

Definition updateLeadScore (p : t) (now : Z) (tenantID leadID : string) (score : Z)
    : t * (string + unit) :=
  match kv_get (leads p) leadID with
  | Err e => (p, inl e)
  | Ok None => (p, inl ("lead not found: " ++ leadID)%string)
  | Ok (Some l) =>
      if decide (le_TenantID l = tenantID) then
        let '(p', r) := put_lead p (scored l score now) in
        (p', match r with inl e => inl e | inr _ => inr tt end)
      else (p, inl ("lead not found: " ++ leadID)%string)
  end.

Definition checkAndSetIdempotencyKey (p : t) (key : string) : t * (string + bool) :=
  match kv_insert (idempotency_keys p) key key with
  | Err e => (p, inl e)
  | Ok (ks, inserted) =>
      (mk (import_jobs p) (contacts p) (contacts_by_phone p) (leads p) (lead_activities p)
         (lead_status_history p) ks, inr (negb inserted))
  end.

End PgIm.

#[export] Instance fake_im_store : ImStore FakeIm.t := {
  CreateImportJob := FakeIm.createImportJob; GetImportJob := FakeIm.getImportJob;
  UpdateImportJob := FakeIm.updateImportJob; UpsertContact := FakeIm.upsertContact;
  GetContact := FakeIm.getContact; CreateLead := FakeIm.createLead; GetLead := FakeIm.getLead;
  ListLeads := FakeIm.listLeads; AppendActivity := FakeIm.appendActivity;
  AppendStatusHistory := FakeIm.appendStatusHistory; UpdateLeadScore := FakeIm.updateLeadScore;
  CheckAndSetIdempotencyKey := FakeIm.checkAndSetIdempotencyKey
}.

#[export] Instance pg_im_store : ImStore PgIm.t := {
  CreateImportJob := PgIm.createImportJob; GetImportJob := PgIm.getImportJob;
  UpdateImportJob := PgIm.updateImportJob; UpsertContact := PgIm.upsertContact;
  GetContact := PgIm.getContact; CreateLead := PgIm.createLead; GetLead := PgIm.getLead;
  ListLeads := PgIm.listLeads; AppendActivity := PgIm.appendActivity;
  AppendStatusHistory := PgIm.appendStatusHistory; UpdateLeadScore := PgIm.updateLeadScore;
  CheckAndSetIdempotencyKey := PgIm.checkAndSetIdempotencyKey
}.

(** * lead-import: handlers and the file importer

    [internal/service/service.go] on any store.  The wall clock, the UUIDs and
    the order in which a Go map is ranged over come from [ImEnv]; the request
    bodies are what the JSON decoder left of them, [None] when it failed. *)

Record ImEnv := mkImEnv {
  e_clock : nat -> Z;
  e_uuid : nat -> string;
  e_order : nat -> Fields -> list (string * string)
}.

(** The store and how often each source was read. *)
Record Im (T : Type) := mkIm { im_store : T; im_reads : nat; im_ids : nat; im_ranges : nat }.
Arguments mkIm {T}.
Arguments im_store {T} i.
Arguments im_reads {T} i.
Arguments im_ids {T} i.
Arguments im_ranges {T} i.

Definition normalizePhone (lib : PhoneLib) (raw : string) : string + string :=
  let raw := trim_space raw in
  if is_empty raw then inl "empty phone"%string
  else match ph_parse lib raw "IN" with
       | inl e => inl ("parse phone " ++ quote raw ++ ": " ++ e)%string
       | inr num => if negb (ph_valid lib num)
                    then inl ("invalid phone " ++ quote raw)%string
                    else inr (ph_e164 lib num)
       end.

(** [fields["phone"]], or [fields["mobile"]] when it is empty. *)
Definition raw_phone (fields : Fields) : string :=
  first_nonempty (field fields "phone") (field fields "mobile").

(** The loop of [applyMapping]; [order] is [range fields]. *)
Definition map_fields (order : list (string * string)) (mapping : Fields) : Fields :=
  foldl (fun out kv => <[canonical mapping kv.1 := kv.2]> out) ∅ order.

Definition applyMapping (order : list (string * string)) (fields mapping : Fields) : Fields :=
  if bool_decide (mapping = ∅) then fields else map_fields order mapping.

Record CreateJobRequest := mkCreateJob {
  cj_FileURL : string;
  cj_Rows : list Fields;
  cj_Mapping : Fields;
  cj_SourceID : string
}.

Record ApiLeadRequest := mkApiLead {
  al_Phone : string;
  al_Email : string;
  al_Name : string;
  al_SourceID : string;
  al_Fields : Fields
}.

Record PreviewRequest := mkPreview {
  pv_form : bool;
  pv_file : option (string * bytes);
  pv_mapping : Fields
}.

(** [fb_payload]: the body could not be read, is not JSON, or holds the
    [leadgen_id] that [%v] prints. *)
Inductive FbPayload := FbUnreadable | FbNotJson | FbLead (leadgen_id : string).
Record FbRequest := mkFb {
  fb_get : bool;
  fb_mode : string;
  fb_verify_token : string;
  fb_challenge : string;
  fb_expected : string;
  fb_tenant_id : string;
  fb_payload : FbPayload
}.

Record GooglePayload := mkGoogle {
  gp_LeadID : string;
  gp_UserColumnData : list (string * string)
}.

(** Answers that are not errors. *)
Inductive ImResp :=
| RJob (job : LeadImportJob)
| RPreview (rows : list Fields) (errors : list RowError)
| RLead (lead : Lead) (contact : option Contact)
| RLeads (leads : list Lead)
| RScore (leadID : string) (score : Z)
| ROk (duplicate : bool)
| RText (s : string).

Definition answer : Type := Z * (string + ImResp).

Section Service.
Context {T : Type} `{!ImStore T} (env : ImEnv) (phones : PhoneLib).

Abbreviation W := (Im T).
Abbreviation MI := (M W string).

(** A store method that writes: it reads the wall clock and takes a UUID. *)
Definition st {A} (f : T -> Z -> string -> T * (string + A)) : MI A := fun w =>
  let '(s, r) := f (im_store w) (e_clock env (im_reads w)) (e_uuid env (im_ids w)) in
  (mkIm s (S (im_reads w)) (S (im_ids w)) (im_ranges w), r).

Definition rd {A} (f : T -> string + A) : MI A := fun w => (w, f (im_store w)).

(** [uuid.NewString()], [time.Now()] and [range m] of the service itself. *)
Definition new_uuid : MI string := fun w =>
  (mkIm (im_store w) (im_reads w) (S (im_ids w)) (im_ranges w), inr (e_uuid env (im_ids w))).
Definition time_now : MI Z := fun w =>
  (mkIm (im_store w) (S (im_reads w)) (im_ids w) (im_ranges w), inr (e_clock env (im_reads w))).
Definition range_over (m : Fields) : MI (list (string * string)) := fun w =>
  (mkIm (im_store w) (im_reads w) (im_ids w) (S (im_ranges w)), inr (e_order env (im_ranges w) m)).

Definition pure_result {A} (r : string + A) : MI A := fun w => (w, r).

(** The answer of a handler: [fail] turns an error into a status and a text. *)
Definition answering (m : MI ImResp) (ok : Z) (fail : string -> Z * string) : W -> W * answer :=
  fun w => let '(w', r) := m w in
           (w', match r with
                | inr a => (ok, inr a)
                | inl e => let '(status, msg) := fail e in (status, inl msg)
                end).

Definition refuse (status : Z) (msg : string) : W -> W * answer := fun w => (w, (status, inl msg)).

Definition new_contact (tenantID e164 : string) (fields : Fields) : Contact :=
  mkContact "" tenantID e164 (field fields "email") (field fields "name") time_zero time_zero.

Definition upsertContactFromFields (tenantID : string) (fields : Fields) : MI Contact :=
  let! e164 := pure_result (normalizePhone phones (raw_phone fields)) in
  st (fun s n u => UpsertContact s n u (new_contact tenantID e164 fields)).

Definition new_lead (tenantID contactID sourceID : string) : Lead :=
  mkLead "" tenantID contactID sourceID "new" 0 "" time_zero time_zero.

(** One inline row: its contact and its lead. *)
Definition import_row (tenantID sourceID : string) (mapping rowFields : Fields) : MI Lead :=
  let! order := range_over rowFields in
  let! contact := upsertContactFromFields tenantID (applyMapping order rowFields mapping) in
  st (fun s n u => CreateLead s n u (new_lead tenantID (co_ID contact) sourceID)).

(** The loop over the rows: the errors and the number of rows imported. *)
Fixpoint import_rows (tenantID sourceID : string) (mapping : Fields) (i : Z) (rows : list Fields)
    (rowErrs : list RowError) (imported : Z) : MI (list RowError * Z) :=
  match rows with
  | [] => ret (rowErrs, imported)
  | rowFields :: rows' =>
      let! r := try (import_row tenantID sourceID mapping rowFields) in
      match r with
      | inl e => import_rows tenantID sourceID mapping (i + 1) rows'
                   (rowErrs ++ [mkRowError (i + 1) e]) imported
      | inr _ => import_rows tenantID sourceID mapping (i + 1) rows' rowErrs (imported + 1)
      end
  end.

Definition finished_job (job : LeadImportJob) (total imported : Z) (errs : list RowError)
    : LeadImportJob :=
  mkJob (ij_ID job) (ij_TenantID job) (ij_SourceID job) (ij_FileURL job) (ij_Mapping job) "done"
    total imported (Z.of_nat (length errs)) errs (ij_CreatedAt job) (ij_UpdatedAt job).

(** [_ = svc.store.UpdateImportJob(...)]; the job in hand gets the new time
    stamp even when the write fails. *)
Definition update_job (job : LeadImportJob) : MI LeadImportJob := fun w =>
  let now := e_clock env (im_reads w) in
  let '(s, _) := UpdateImportJob (im_store w) now job in
  (mkIm s (S (im_reads w)) (im_ids w) (im_ranges w),
   inr (stamp_job job (ij_ID job) (ij_CreatedAt job) now)).

Definition run_import (tenantID : string) (req : CreateJobRequest) (job : LeadImportJob)
    : MI ImResp :=
  let! counts := import_rows tenantID (cj_SourceID req) (cj_Mapping req) 0 (cj_Rows req) [] 0 in
  let '(rowErrs, imported) := counts in
  let! job := update_job
    (finished_job job (Z.of_nat (length (cj_Rows req))) imported rowErrs) in
  ret (RJob job).

Definition handleCreateImportJob (tenantID : string) (req : option CreateJobRequest)
    : W -> W * answer :=
  if is_empty tenantID then refuse 400 "X-Tenant-ID header required"
  else match req with
       | None => refuse 400 "invalid request body"
       | Some req =>
           answering
             (let! id := new_uuid in
              let! job := st (fun s n u => CreateImportJob s n u
                (mkJob id tenantID (cj_SourceID req) (cj_FileURL req) (cj_Mapping req) "running"
                   0 0 0 [] time_zero time_zero)) in
              run_import tenantID req job)
             201 (fun _ => (500, "create job failed"%string))
       end.

Definition handleGetImportJob (tenantID jobID : string) : W -> W * answer :=
  if is_empty tenantID then refuse 400 "X-Tenant-ID header required"
  else answering (let! job := rd (fun s => GetImportJob s tenantID jobID) in ret (RJob job))
         200 (fun _ => (404, "job not found"%string)).

Definition previewLimit : nat := 50.

(** The callback of the preview: rows beyond the limit are dropped. *)
Definition preview_row (rowNum : Z) (row : Fields) (rows : list Fields) : list Fields :=
  if (previewLimit <=? length rows)%nat then rows else rows ++ [row].

Definition handlePreviewImport (xlsx : XlsxLib) (req : PreviewRequest) : W -> W * answer :=
  if negb (pv_form req) then refuse 400 "multipart parse failed"
  else match pv_file req with
       | None => refuse 400 "file field required"
       | Some (filename, data) =>
           let '(rows, r) :=
             if has_suffix (to_lower filename) ".xlsx"
             then ParseXLSX (pv_mapping req) preview_row xlsx data []
             else ParseCSV (pv_mapping req) preview_row data [] in
           answering (let! errs := pure_result r in ret (RPreview rows errs))
             200 (fun e => (422, e))
       end.

Definition handleIngestApiLead (tenantID : string) (req : option ApiLeadRequest) : W -> W * answer :=
  if is_empty tenantID then refuse 400 "X-Tenant-ID header required"
  else match req with
       | None => refuse 400 "invalid request body"
       | Some req => fun w =>
           let fields := al_Fields req ∪
             {[ "phone" := al_Phone req; "email" := al_Email req; "name" := al_Name req ]} in
           let '(w1, r) := upsertContactFromFields tenantID fields w in
           match r with
           | inl e => (w1, (422, inl e))
           | inr contact =>
               answering
                 (let! lead := st (fun s n u => CreateLead s n u
                     (new_lead tenantID (co_ID contact) (al_SourceID req))) in
                  ret (RLead lead (Some contact)))
                 201 (fun _ => (500, "create lead failed"%string)) w1
           end
       end.

Definition handleListLeads (tenantID status assignedTo sourceID : string) : W -> W * answer :=
  if is_empty tenantID then refuse 400 "X-Tenant-ID header required"
  else answering
         (let! leads := rd (fun s => ListLeads s tenantID
            (mkFilters status sourceID assignedTo 50 0)) in
          ret (RLeads leads))
         200 (fun _ => (500, "list leads failed"%string)).

Definition handleGetLead (tenantID leadID : string) : W -> W * answer :=
  if is_empty tenantID then refuse 400 "X-Tenant-ID header required"
  else answering
         (let! lead := rd (fun s => GetLead s tenantID leadID) in
          let! contact := try (rd (fun s => GetContact s tenantID (le_ContactID lead))) in
          ret (RLead lead (match contact with inr c => Some c | inl _ => None end)))
         200 (fun _ => (404, "lead not found"%string)).

Definition handleUpdateLeadScore (tenantID leadID : string) (score : option Z) : W -> W * answer :=
  if is_empty tenantID then refuse 400 "X-Tenant-ID header required"
  else match score with
       | None => refuse 400 "invalid json"
       | Some score =>
           answering
             (let! _ := st (fun s n _ => UpdateLeadScore s n tenantID leadID score) in
              ret (RScore leadID score))
             200 (fun e => (404, e))
       end.

(** [exists, _ := svc.store.CheckAndSetIdempotencyKey(...)]. *)
Definition seen_before (key : string) : MI bool := fun w =>
  let '(s, r) := CheckAndSetIdempotencyKey (im_store w) key in
  (mkIm s (im_reads w) (im_ids w) (im_ranges w),
   inr (match r with inr b => b | inl _ => false end)).

Definition no_error (e : string) : Z * string := (500, e).

Definition handleFBWebhook (req : FbRequest) : W -> W * answer :=
  if fb_get req then
    if bool_decide (fb_mode req = "subscribe") && bool_decide (fb_verify_token req = fb_expected req)
    then answering (ret (RText (fb_challenge req))) 200 no_error
    else refuse 403 "verification failed"
  else if is_empty (fb_tenant_id req) then refuse 400 "tenant_id query param required"
  else match fb_payload req with
       | FbUnreadable => refuse 400 "read body failed"
       | FbNotJson => refuse 400 "invalid json"
       | FbLead leadgen_id =>
           answering
             (let! seen := seen_before ("fb:" ++ fb_tenant_id req ++ ":" ++ leadgen_id) in
              ret (ROk seen))
             200 no_error
       end.

Definition google_key (tenantID leadID : string) : string :=
  ("google:" ++ tenantID ++ ":" ++ leadID)%string.

Definition google_fields (cols : list (string * string)) : Fields :=
  foldl (fun m col => <[col.1 := col.2]> m) ∅ cols.

(** The contact and the lead of a Google form; both errors are dropped. *)
Definition google_lead (tenantID : string) (cols : list (string * string)) : MI unit :=
  let fields := google_fields cols in
  if is_empty (field fields "PHONE_NUMBER") then ret tt
  else
    let! r := try (upsertContactFromFields tenantID
      {[ "phone" := field fields "PHONE_NUMBER"; "email" := field fields "EMAIL";
         "name" := field fields "FULL_NAME" ]}) in
    match r with
    | inl _ => ret tt
    | inr contact =>
        let! _ := try (st (fun s n u => CreateLead s n u (new_lead tenantID (co_ID contact) ""))) in
        ret tt
    end.

Definition handleGoogleWebhook (tenantID : string) (payload : option GooglePayload)
    : W -> W * answer :=
  if is_empty tenantID then refuse 400 "tenant_id query param required"
  else match payload with
       | None => refuse 400 "invalid json"
       | Some p =>
           answering
             (let! seen := seen_before (google_key tenantID (gp_LeadID p)) in
              if seen : bool then ret (ROk true)
              else let! _ := google_lead tenantID (gp_UserColumnData p) in ret (ROk false))
             200 no_error
       end.

(** ** The file importer *)

(** The counters the callback of [processCSVImport] closes over. *)
Record tally := mkTally { ta_errs : list RowError; ta_imported : Z; ta_total : Z }.

(** A row of the file up to the lead it makes. *)
Definition import_file_row (tenantID : string) (job : LeadImportJob) (row : Fields) : MI Lead :=
  let! order := range_over row in
  let fields := applyMapping order row (ij_Mapping job) in
  let! contact := upsertContactFromFields tenantID fields in
  let! id := new_uuid in
  let! created := time_now in
  let! updated := time_now in
  st (fun s n u => CreateLead s n u
    (mkLead id tenantID (co_ID contact) (ij_SourceID job) "new" 0 "" created updated)).

Definition csv_onRow (tenantID : string) (job : LeadImportJob) (rowNum : Z) (row : Fields)
    (s : W * tally) : W * tally :=
  let '(w, ta) := s in
  match import_file_row tenantID job row w with
  | (w', inl e) => (w', mkTally (ta_errs ta ++ [mkRowError rowNum e]) (ta_imported ta) (ta_total ta + 1))
  | (w', inr _) => (w', mkTally (ta_errs ta) (ta_imported ta + 1) (ta_total ta + 1))
  end.

Definition processCSVImport (xlsx : XlsxLib) (tenantID : string) (job : LeadImportJob) (data : bytes)
    (contentType : string) (w : W) : W * LeadImportJob :=
  let s0 := (w, mkTally [] 0 0) in
  let '((w1, ta), _) :=
    if contains contentType "spreadsheetml" || has_suffix (ij_FileURL job) ".xlsx"
    then ParseXLSX (ij_Mapping job) (csv_onRow tenantID job) xlsx data s0
    else ParseCSV (ij_Mapping job) (csv_onRow tenantID job) data s0 in
  let job := finished_job job (ta_total ta) (ta_imported ta) (ta_errs ta) in
  match update_job job w1 with
  | (w2, inr job) => (w2, job)
  | (w2, inl _) => (w2, job)
  end.
End Service.
