(* ===== verification/LeadImportSafety.v ===== *)
(** * lead-import: files are parsed back, import jobs account for every row *)

From S2P Require Import Prelude GoTime Kv GoMonad GoStrings Csv LeadImport.
From stdpp Require Import pretty.

Open Scope Z_scope.

(** ** Parsing a file *)

Lemma read_file_total data : is_Some (read_file data).
Proof. apply read_all_total. lia. Qed.

(** Records with the number of the row they are on. *)
Definition rows_from {A} (n : Z) (l : list A) : list (Z * A) := imap (fun i r => (n + Z.of_nat i, r)) l.

Lemma rows_from_cons {A} n (r : A) l : rows_from n (r :: l) = (n, r) :: rows_from (n + 1) l.
Proof.
  unfold rows_from. rewrite imap_cons. f_equal; [f_equal; lia|]. apply imap_ext.
  intros i x _. unfold compose. f_equal. lia.
Qed.

Definition fits (headers record : list bytes) : bool := bool_decide (length record = length headers).

Definition good_rows (mapping : Fields) (headers : list bytes) (l : list (Z * list bytes))
    : list (Z * Fields) :=
  omap (fun r => if fits headers r.2 then Some (r.1, row_fields mapping headers r.2 ∅) else None) l.

Definition bad_rows (headers : list bytes) (l : list (Z * list bytes)) : list Z :=
  omap (fun r => if fits headers r.2 then None else Some r.1) l.

Definition collect (n : Z) (row : Fields) (rows : list (Z * Fields)) : list (Z * Fields) :=
  rows ++ [(n, row)].

Lemma csv_rows_collect mapping headers records n errs rows :
  exists errs', csv_rows mapping collect headers records n errs rows
    = (rows ++ good_rows mapping headers (rows_from (n + 1) records.*1), errs ++ errs') /\
    re_Row <$> errs' = bad_rows headers (rows_from (n + 1) records.*1).
Proof.
  revert n errs rows. induction records as [|[r line] records IH]; intros n errs rows; cbn [csv_rows].
  { exists []. by rewrite !app_nil_r. }
  rewrite fmap_cons, rows_from_cons. unfold good_rows, bad_rows. simpl.
  fold (fits headers r). destruct (fits headers r); simpl.
  - destruct (IH (n + 1) errs (collect (n + 1) (row_fields mapping headers r ∅) rows)) as (errs' & -> & E).
    exists errs'. unfold collect. rewrite <- app_assoc. by split.
  - edestruct (IH (n + 1)) as (errs' & -> & E). rewrite <- app_assoc. simpl.
    eexists (_ :: errs'). split; [done|]. by rewrite fmap_cons, E.
Qed.

Definition titles (mapping : Fields) (headers : list bytes) : list string :=
  (fun h => canonical mapping (text h)) <$> headers.

Lemma row_fields_other mapping headers record acc k :
  k ∉ titles mapping headers -> row_fields mapping headers record acc !! k = acc !! k.
Proof.
  revert record acc. induction headers as [|h headers IH]; intros record acc Hk; [done|].
  apply not_elem_of_cons in Hk as [Hk Hks]. destruct record as [|v record]; [done|]. simpl.
  rewrite IH by done. by rewrite lookup_insert_ne.
Qed.

Lemma row_fields_nth mapping headers record acc j h v :
  NoDup (titles mapping headers) -> headers !! j = Some h -> record !! j = Some v ->
  row_fields mapping headers record acc !! canonical mapping (text h) = Some (text v).
Proof.
  revert record acc j. induction headers as [|h0 headers IH]; intros record acc j Hnd Eh Ev; [done|].
  destruct record as [|v0 record]; [done|]. apply NoDup_cons in Hnd as [Hni Hnd].
  destruct j as [|j]; simpl in *; [|by eapply IH]. simplify_eq.
  rewrite row_fields_other by done. by rewrite lookup_insert_eq.
Qed.

(** The file with the given header and records, every field in quotes. *)
Definition quoted_file (headers : list bytes) (records : list (list bytes)) : bytes :=
  (headers :: records) ≫= enc_record.

(** C22: A CSV file is parsed back.  From a file that holds the given header and
    records in quoted form, whatever commas, quotes, blanks and line breaks
    the fields have, the parser delivers exactly the records with as many
    fields as the header, in order, under their row numbers (the first record
    is row 2) and reports exactly the others by theirs; in a delivered row
    every column is found under its mapped name, and nothing else is.  Column
    titles are distinct after mapping, and fields are ASCII without CR. *)
Theorem csv_file_is_parsed_back mapping headers records :
  headers <> [] -> Forall clean headers -> NoDup (titles mapping headers) ->
  Forall (fun r => r <> [] /\ Forall clean r) records ->
  exists errs,
    ParseCSV mapping collect (quoted_file headers records) []
      = (good_rows mapping headers (rows_from 2 records), inr errs) /\
    re_Row <$> errs = bad_rows headers (rows_from 2 records) /\
    forall n record, (n, record) ∈ rows_from 2 records -> length record = length headers ->
      (n, row_fields mapping headers record ∅) ∈ good_rows mapping headers (rows_from 2 records) /\
      (forall j h v, headers !! j = Some h -> record !! j = Some v ->
         row_fields mapping headers record ∅ !! canonical mapping (text h) = Some (text v)) /\
      (forall k, k ∉ titles mapping headers -> row_fields mapping headers record ∅ !! k = None).
Proof.
  intros Hne Hh Hnd Hrs.
  destruct (read_file_enc (headers :: records)) as (l & E & El); [by constructor|].
  destruct l as [|[hs line] l]; [done|]. simpl in El. injection El as -> El.
  destruct (csv_rows_collect mapping headers l 1 [] []) as (errs & Ec & Ee).
  change (l.*1 = records) in El. rewrite El in Ec, Ee.
  exists errs. unfold ParseCSV, quoted_file. rewrite E, Ec. split_and!; [done|done|].
  intros n record Hin Hlen. split_and!.
  - apply list_elem_of_omap. exists (n, record). split; [done|]. unfold fits. simpl.
    by rewrite bool_decide_true.
  - intros j h v Hj Hv. by eapply row_fields_nth.
  - intros k Hk. by rewrite row_fields_other.
Qed.

(** A file of three records: one with a comma, a quote and a line break in a
    field, one too short, one plain. *)
Definition cell (s : string) : bytes := String.list_ascii_of_string s.
Definition sample_headers : list bytes := [cell "Full Name"; cell "phone"].
Definition sample_records : list (list bytes) :=
  [[cell "Rao, A " ++ [ch_quote; ch_nl] ++ cell "B"; cell "98765 43210"]; [cell "short"];
   [cell "Mina"; cell "55555"]].
Definition sample_mapping : Fields := {[ "Full Name" := "name" ]}.

Lemma csv_file_is_parsed_back_witness :
  exists errs,
    ParseCSV sample_mapping collect (quoted_file sample_headers sample_records) []
      = (good_rows sample_mapping sample_headers (rows_from 2 sample_records), inr errs) /\
    re_Row <$> errs = [3].
Proof.
  destruct (csv_file_is_parsed_back sample_mapping sample_headers sample_records)
    as (errs & E & Ee & _).
  - done.
  - repeat constructor; by apply (bool_decide_unpack _).
  - by apply (bool_decide_unpack _).
  - repeat constructor; try done; by apply (bool_decide_unpack _).
  - exists errs. split; [exact E|exact Ee].
Defined.

(** ** Keys of the phone index *)

Definition ch_colon : Ascii.ascii := Ascii.ascii_of_N 58.

Definition no_colon (s : string) : Prop := ch_colon ∉ String.list_ascii_of_string s.

Lemma split_colon (l1 l2 m1 m2 : list Ascii.ascii) :
  ch_colon ∉ l2 -> ch_colon ∉ m2 -> l1 ++ ch_colon :: l2 = m1 ++ ch_colon :: m2 -> l1 = m1 /\ l2 = m2.
Proof.
  intros H2 H2'. revert m1. induction l1 as [|c l1 IH]; intros [|d m1] E; simpl in E; simplify_eq.
  - done.
  - exfalso. apply H2, elem_of_app. right. apply list_elem_of_here.
  - exfalso. apply H2', elem_of_app. right. apply list_elem_of_here.
  - destruct (IH m1) as [-> ->]; done.
Qed.

Lemma phone_key_inj tn ph tn' ph' :
  no_colon ph -> no_colon ph' -> phone_key tn ph = phone_key tn' ph' -> tn = tn' /\ ph = ph'.
Proof.
  unfold phone_key, no_colon. intros H H' E. apply (f_equal String.list_ascii_of_string) in E.
  rewrite !list_ascii_append in E. simpl in E. apply split_colon in E as [E1 E2]; [|done..].
  apply (f_equal String.string_of_list_ascii) in E1, E2. by rewrite !string_of_list_of_string in E1, E2.
Qed.

(** ** Import jobs *)

Abbreviation W := (Im PgIm.t).

Definition leads_of (w : W) : gmap string Lead := kv_map (PgIm.leads (im_store w)).
Definition contacts_of (w : W) : gmap string Contact := kv_map (PgIm.contacts (im_store w)).
Definition index_of (w : W) : gmap string Contact := kv_map (PgIm.contacts_by_phone (im_store w)).

(** Postgres answers; UUIDs to come are new; the index by phone agrees with
    the contacts. *)
Record im_inv (env : ImEnv) (w : W) : Prop := {
  ii_jobs : kv_up (PgIm.import_jobs (im_store w)) = true;
  ii_contacts : kv_up (PgIm.contacts (im_store w)) = true;
  ii_by_phone : kv_up (PgIm.contacts_by_phone (im_store w)) = true;
  ii_leads : kv_up (PgIm.leads (im_store w)) = true;
  ii_fresh n : (im_ids w <= n)%nat ->
    leads_of w !! e_uuid env n = None /\ contacts_of w !! e_uuid env n = None;
  ii_index k c : index_of w !! k = Some c ->
    contacts_of w !! co_ID c = Some c /\ k = phone_key (co_TenantID c) (co_PhoneE164 c) /\
    no_colon (co_PhoneE164 c)
}.

(** Nothing is lost or changed. *)
Definition grows (w w' : W) : Prop :=
  leads_of w ⊆ leads_of w' /\ contacts_of w ⊆ contacts_of w' /\ index_of w ⊆ index_of w'.

#[local] Instance grows_preorder : PreOrder grows.
Proof.
  split; [by intros w|]. intros w1 w2 w3 (? & ? & ?) (? & ? & ?). unfold grows.
  split_and!; by etrans.
Qed.

(** [l] is stored, and its contact is the one the phone is indexed under. *)
Definition lead_for (w : W) (tenantID e164 : string) (l : Lead) : Prop :=
  leads_of w !! le_ID l = Some l /\ le_TenantID l = tenantID /\
  exists c, index_of w !! phone_key tenantID e164 = Some c /\ contacts_of w !! co_ID c = Some c /\
    le_ContactID l = co_ID c /\ co_TenantID c = tenantID /\ co_PhoneE164 c = e164.

Lemma lead_for_grows w w' tn e164 l : lead_for w tn e164 l -> grows w w' -> lead_for w' tn e164 l.
Proof.
  intros (Hl & Ht & c & Hi & Hc & Hr) (G1 & G2 & G3). split; [by eapply lookup_weaken|].
  split; [done|]. exists c. split_and!; try (by eapply lookup_weaken); apply Hr.
Qed.

Lemma one_contact w tn e164 l l' :
  lead_for w tn e164 l -> lead_for w tn e164 l' -> le_ContactID l = le_ContactID l'.
Proof.
  intros (_ & _ & c & Hi & _ & -> & _) (_ & _ & c' & Hi' & _ & -> & _). congruence.
Qed.

(** UUIDs are not repeated and not empty; E.164 numbers have no colon. *)
Record ids_ok (env : ImEnv) (phones : PhoneLib) : Prop := {
  uuid_inj i j : e_uuid env i = e_uuid env j -> i = j;
  uuid_ne i : e_uuid env i <> "";
  e164_plain n : no_colon (ph_e164 phones n)
}.

Section Accounting.
Context (env : ImEnv) (phones : PhoneLib) (ids : ids_ok env phones).

Lemma uuid_fresh_insert (w : W) (n : nat) {A} (m : gmap string A) v :
  (forall k, (im_ids w <= k)%nat -> m !! e_uuid env k = None) -> (S (im_ids w) <= n)%nat ->
  <[e_uuid env (im_ids w) := v]> m !! e_uuid env n = None.
Proof.
  intros H Hn. rewrite lookup_insert_ne; [apply H; lia|].
  intros E%(uuid_inj _ _ ids). lia.
Qed.

Lemma upsert_run w tn e164 fields :
  im_inv env w -> no_colon e164 ->
  exists w' c, st env (fun s n u => UpsertContact s n u (new_contact tn e164 fields)) w = (w', inr c) /\
    im_inv env w' /\ grows w w' /\ im_ranges w' = im_ranges w /\
    index_of w' !! phone_key tn e164 = Some c /\ co_TenantID c = tn /\ co_PhoneE164 c = e164.
Proof.
  intros [U1 U2 U3 U4 Hf Hi] Hp. unfold st. cbn -[PgIm.upsertContact]. unfold PgIm.upsertContact.
  cbn -[kv_get kv_set]. rewrite kv_get_up by done. fold (index_of w).
  destruct (index_of w !! phone_key tn e164) as [c|] eqn:E.
  { eexists _, c. split; [done|]. destruct (Hi _ _ E) as (_ & Ek & Hc).
    apply phone_key_inj in Ek as [-> ->]; [|done..]. split_and!; try done.
    split; try done. simpl. intros n Hn. apply Hf. lia. }
  set (c := stamp_contact _ _ _ _). change (first_nonempty "" (e_uuid env (im_ids w))) with (co_ID c).
  destruct (kv_set_up (PgIm.contacts (im_store w)) (co_ID c) c U2) as (cs & -> & V2 & M2).
  destruct (kv_set_up (PgIm.contacts_by_phone (im_store w)) (phone_key tn e164) c U3) as (bp & -> & V3 & M3).
  fold (contacts_of w) in M2. fold (index_of w) in M3.
  assert (Hcn : contacts_of w !! co_ID c = None) by (apply (Hf (im_ids w)); lia).
  eexists _, c. split; [done|]. split_and!; try done.
  - split; try done; unfold leads_of, contacts_of, index_of; simpl.
    + intros n Hn. split; [apply Hf; simpl in *; lia|]. rewrite M2.
      apply (uuid_fresh_insert w); [|done]. intros k Hk. by apply Hf.
    + intros k x. rewrite M2, M3. intros [[<- <-]|[Hk Hx]]%lookup_insert_Some.
      * by rewrite lookup_insert_eq.
      * destruct (Hi _ _ Hx) as (Hc & -> & Hn). split; [|done]. rewrite lookup_insert_ne; [done|].
        intros Ec. rewrite Ec, Hc in Hcn. done.
  - unfold grows, leads_of, contacts_of, index_of. simpl. rewrite M2, M3. fold (contacts_of w) (index_of w).
    split; [done|]. split; by apply insert_subseteq.
  - unfold index_of. simpl. rewrite M3. apply lookup_insert_eq.
Qed.

Lemma create_run w tn cid src :
  im_inv env w ->
  exists w' l, st env (fun s n u => CreateLead s n u (new_lead tn cid src)) w = (w', inr l) /\
    im_inv env w' /\ grows w w' /\ im_ranges w' = im_ranges w /\
    leads_of w !! le_ID l = None /\ leads_of w' !! le_ID l = Some l /\
    le_TenantID l = tn /\ le_ContactID l = cid.
Proof.
  intros [U1 U2 U3 U4 Hf Hi]. unfold st. cbn -[PgIm.createLead]. unfold PgIm.createLead, PgIm.put_lead.
  set (l := stamp_lead _ _ _ _).
  destruct (kv_set_up (PgIm.leads (im_store w)) (le_ID l) l U4) as (ls & -> & V4 & M4).
  fold (leads_of w) in M4.
  assert (Hln : leads_of w !! le_ID l = None) by (apply (Hf (im_ids w)); lia).
  eexists _, l. split; [done|]. split_and!; try done.
  - split; try done; unfold leads_of, contacts_of, index_of; simpl.
    intros n Hn. split; [|apply Hf; simpl in *; lia]. rewrite M4.
    apply (uuid_fresh_insert w); [|done]. intros k Hk. by apply Hf.
  - unfold grows, leads_of, contacts_of, index_of. simpl. rewrite M4. fold (leads_of w).
    split_and!; try done. by apply insert_subseteq.
  - unfold leads_of. simpl. rewrite M4. apply lookup_insert_eq.
Qed.

(** What becomes of row [i], counted from the state [w]. *)
Definition row_result (mapping : Fields) (n : nat) (row : Fields) : string + string :=
  normalizePhone phones (raw_phone (applyMapping (e_order env n row) row mapping)).

Lemma normalize_plain raw e164 : normalizePhone phones raw = inr e164 -> no_colon e164.
Proof.
  unfold normalizePhone. destruct (is_empty _); [done|]. destruct (ph_parse _ _ _) as [e|n]; [done|].
  destruct (ph_valid phones n); [|done]. intros [= <-]. apply (e164_plain _ _ ids).
Qed.

Lemma import_row_run w tn src mapping row :
  im_inv env w ->
  exists w' r, import_row env phones tn src mapping row w = (w', r) /\
    im_inv env w' /\ grows w w' /\ im_ranges w' = S (im_ranges w) /\
    match row_result mapping (im_ranges w) row with
    | inl e => r = inl e
    | inr e164 => exists l, r = inr l /\ leads_of w !! le_ID l = None /\ lead_for w' tn e164 l
    end.
Proof.
  intros Hw. unfold import_row. erewrite bind_step by done. cbn [im_ranges].
  set (w0 := mkIm _ _ _ _). assert (H0 : im_inv env w0) by (by destruct Hw).
  rewrite bind_run. unfold upsertContactFromFields. rewrite bind_run. unfold pure_result.
  fold (row_result mapping (im_ranges w) row).
  destruct (row_result mapping (im_ranges w) row) as [e|e164] eqn:E.
  { exists w0, (inl e). by split_and!. }
  apply normalize_plain in E.
  destruct (upsert_run w0 tn e164 (applyMapping (e_order env (im_ranges w) row) row mapping) H0 E)
    as (w1 & c & -> & H1 & G1 & R1 & Hi & Ht & Hp).
  destruct (create_run w1 tn (co_ID c) src H1) as (w2 & l & -> & H2 & G2 & R2 & Hn & Hs & Hlt & Hlc).
  exists w2, (inr l). split_and!; try done.
  - transitivity w1; [exact G1|exact G2].
  - by rewrite R2, R1.
  - exists l. split_and!; try done.
    + destruct (leads_of w !! le_ID l) as [x|] eqn:Ex; [|done].
      destruct G1 as [G1 _]. rewrite (lookup_weaken (leads_of w0) _ _ x Ex G1) in Hn. done.
    + split; [done|]. split; [done|]. destruct H2 as [_ _ _ _ _ HI]. destruct G2 as (_ & _ & G2).
      assert (Hi2 := lookup_weaken _ _ _ _ Hi G2). exists c. split_and!; try done.
      by destruct (HI _ _ Hi2).
Qed.

(** The rows of a job one by one, the errors by row number and the phones of
    the rows that are imported. *)
Definition row_results (mapping : Fields) (n : nat) (rows : list Fields) : list (string + string) :=
  imap (fun i row => row_result mapping (n + i) row) rows.

Definition errors_of (l : list (Z * (string + string))) : list RowError :=
  omap (fun r => match r.2 with inl e => Some (mkRowError r.1 e) | inr _ => None end) l.

Definition phones_of (l : list (string + string)) : list string :=
  omap (fun r => match r with inl _ => None | inr e164 => Some e164 end) l.

Lemma row_results_cons mapping n row rows :
  row_results mapping n (row :: rows)
  = row_result mapping n row :: row_results mapping (S n) rows.
Proof.
  unfold row_results. rewrite imap_cons. f_equal; [f_equal; lia|]. apply imap_ext.
  intros i x _. unfold compose. f_equal. lia.
Qed.

Lemma import_rows_run tn src mapping rows w i errs imported :
  im_inv env w ->
  let results := row_results mapping (im_ranges w) rows in
  exists w' ls,
    import_rows env phones tn src mapping i rows errs imported w
    = (w', inr (errs ++ errors_of (rows_from (i + 1) results), imported + Z.of_nat (length ls))) /\
    im_inv env w' /\ grows w w' /\
    Forall2 (lead_for w' tn) (phones_of results) ls /\
    NoDup (le_ID <$> ls) /\ Forall (fun l => leads_of w !! le_ID l = None) ls.
Proof.
  revert w i errs imported. induction rows as [|row rows IH]; intros w i errs imported Hw results.
  { exists w, []. cbn [import_rows]. unfold ret, results. simpl. rewrite app_nil_r, Z.add_0_r.
    split_and!; try done; constructor. }
  unfold results. cbn [import_rows]. rewrite row_results_cons, rows_from_cons, bind_run. unfold try.
  destruct (import_row_run w tn src mapping row Hw) as (w1 & r & -> & H1 & G1 & R1 & Hr).
  destruct (row_result mapping (im_ranges w) row) as [e|e164].
  - subst r. destruct (IH w1 (i + 1) (errs ++ [mkRowError (i + 1) e]) imported H1)
      as (w' & ls & -> & H' & G' & F & ND & N). exists w', ls. rewrite R1 in *.
    rewrite <- app_assoc. split_and!; try done; [by etrans|].
    eapply Forall_impl; [exact N|]. intros l Hl. eapply lookup_weaken_None; [exact Hl|apply G1].
  - destruct Hr as (l & -> & Hn & Hl). destruct (IH w1 (i + 1) errs (imported + 1) H1)
      as (w' & ls & -> & H' & G' & F & ND & N). exists w', (l :: ls). rewrite R1 in *.
    split_and!; try done.
    + do 3 f_equal. simpl. lia.
    + by etrans.
    + constructor; [by eapply lead_for_grows|done].
    + rewrite fmap_cons. constructor; [|done]. intros (x & Ex & Hx)%list_elem_of_fmap.
      rewrite Forall_forall in N. specialize (N x Hx). rewrite <- Ex in N. destruct Hl as [Hl _]. congruence.
    + constructor; [done|]. eapply Forall_impl; [exact N|]. intros x Hx.
      eapply lookup_weaken_None; [exact Hx|apply G1].
Qed.

Lemma phones_errors_length n l :
  (length (phones_of l) + length (errors_of (rows_from n l)))%nat = length l.
Proof.
  revert n. induction l as [|[e|p] l IH]; intros n; [done| |]; rewrite rows_from_cons;
    specialize (IH (n + 1)); unfold phones_of, errors_of in *; csimpl in *; lia.
Qed.

(** The state in which the loop of the import starts. *)
Lemma create_job_run w id tn req :
  im_inv env w -> id <> "" ->
  exists w' job, st env (fun s n u => CreateImportJob s n u
      (mkJob id tn (cj_SourceID req) (cj_FileURL req) (cj_Mapping req) "running" 0 0 0 [] time_zero time_zero)) w
    = (w', inr job) /\ im_inv env w' /\ grows w w' /\ im_ranges w' = im_ranges w /\
    leads_of w' = leads_of w /\ ij_ID job = id /\ ij_TenantID job = tn.
Proof.
  intros [U1 U2 U3 U4 Hf Hi] Hid. unfold st. cbn -[PgIm.createImportJob].
  unfold PgIm.createImportJob, PgIm.put_job. set (job := stamp_job _ _ _ _).
  destruct (kv_set_up (PgIm.import_jobs (im_store w)) (ij_ID job) job U1) as (js & -> & V1 & M1).
  eexists _, job. split; [done|]. split_and!; try done.
  - split; try done. simpl. intros n Hn. apply Hf. lia.
  - unfold job. simpl. unfold first_nonempty, is_empty. by rewrite bool_decide_false.
Qed.

Lemma update_job_run w job :
  im_inv env w ->
  exists w' job', update_job env job w = (w', inr job') /\ im_inv env w' /\ grows w w' /\ leads_of w' = leads_of w /\
    job' = stamp_job job (ij_ID job) (ij_CreatedAt job) (e_clock env (im_reads w)) /\
    kv_map (PgIm.import_jobs (im_store w')) !! ij_ID job = Some job'.
Proof.
  intros [U1 U2 U3 U4 Hf Hi]. unfold update_job. cbn -[PgIm.updateImportJob].
  unfold PgIm.updateImportJob, PgIm.put_job. set (job' := stamp_job _ _ _ _).
  destruct (kv_set_up (PgIm.import_jobs (im_store w)) (ij_ID job') job' U1) as (js & -> & V1 & M1).
  eexists _, job'. split; [done|]. split_and!; try done. simpl. rewrite M1. apply lookup_insert_eq.
Qed.
End Accounting.

(** C21: An import job accounts for every row.  On a store that answers, the job
    is done, it can be fetched, and the rows it reports as errors are exactly
    those whose phone is refused, with their row number and the reason; every
    other row has a lead of its own, stored with a contact that has the row's
    number, rows with one number share the contact, and no lead or contact
    that was there before is lost. *)
Theorem import_job_accounts_for_every_row env phones tenantID req w :
  ids_ok env phones -> im_inv env w -> tenantID <> "" ->
  let results := row_results env phones (cj_Mapping req) (im_ranges w) (cj_Rows req) in
  exists w' job ls,
    handleCreateImportJob env phones tenantID (Some req) w = (w', (201, inr (RJob job))) /\
    handleGetImportJob tenantID (ij_ID job) w' = (w', (200, inr (RJob job))) /\
    ij_Status job = "done"%string /\
    ij_TotalRows job = Z.of_nat (length (cj_Rows req)) /\
    ij_ImportedRows job = Z.of_nat (length ls) /\
    ij_ImportedRows job + ij_ErrorRows job = ij_TotalRows job /\
    ij_Errors job = errors_of (rows_from 1 results) /\
    Forall2 (lead_for w' tenantID) (phones_of results) ls /\
    (forall i j e164 l l', phones_of results !! i = Some e164 -> phones_of results !! j = Some e164 ->
       ls !! i = Some l -> ls !! j = Some l' -> le_ContactID l = le_ContactID l') /\
    NoDup (le_ID <$> ls) /\ Forall (fun l => leads_of w !! le_ID l = None) ls /\
    grows w w' /\ im_inv env w'.
Proof.
  intros ids Hw Ht results. unfold handleCreateImportJob, is_empty. rewrite bool_decide_false by done.
  unfold answering. erewrite bind_step by done. set (w0 := mkIm _ _ _ _).
  assert (H0 : im_inv env w0).
  { destruct Hw as [? ? ? ? Hf ?]. split; try done. intros n Hn. apply Hf. simpl in Hn. lia. }
  destruct (create_job_run env w0 (e_uuid env (im_ids w)) tenantID req H0 (uuid_ne _ _ ids _))
    as (w1 & job & E1 & H1 & G1 & R1 & _ & Hid & Htn). rewrite (bind_step _ _ _ _ _ E1).
  destruct (import_rows_run env phones ids tenantID (cj_SourceID req) (cj_Mapping req) (cj_Rows req) w1 0 [] 0 H1)
    as (w2 & ls & E2 & H2 & G2 & F & ND & N). rewrite R1 in E2, F.
  change (im_ranges w0) with (im_ranges w) in E2, F. fold results in E2, F.
  unfold run_import. rewrite (bind_step _ _ _ _ _ E2). set (done_job := finished_job _ _ _ _).
  destruct (update_job_run env w2 done_job H2) as (w3 & job' & E3 & H3 & G3 & _ & Ej & Hs).
  rewrite (bind_step _ _ _ _ _ E3). cbn [ret].
  assert (Hlen := phones_errors_length 1 results).
  assert (Hr : length results = length (cj_Rows req)) by apply length_imap.
  assert (Hl := Forall2_length _ _ _ F).
  assert (F3 : Forall2 (lead_for w3 tenantID) (phones_of results) ls).
  { eapply Forall2_impl; [exact F|]. intros p l Hp. by eapply lead_for_grows. }
  exists w3, job', ls. split; [done|]. subst job'. split.
  { unfold handleGetImportJob, is_empty. rewrite bool_decide_false by done. unfold answering.
    rewrite bind_run. unfold rd. cbn -[PgIm.getImportJob]. unfold PgIm.getImportJob.
    rewrite kv_get_up by apply H3. cbn in Hs. rewrite Hs. cbn. by rewrite decide_True. }
  split_and!; try done.
  - cbn. change (0 + 1) with 1. fold results. lia.
  - intros i j e164 l l' Hi Hj Hl1 Hl2. eapply one_contact.
    + eapply Forall2_lookup_lr; [exact F3|exact Hi|exact Hl1].
    + eapply Forall2_lookup_lr; [exact F3|exact Hj|exact Hl2].
  - eapply Forall_impl; [exact N|]. intros l Hl'. eapply lookup_weaken_None; [exact Hl'|apply G1].
  - etrans; [|exact G3]. etrans; [|exact G2]. exact G1.
Qed.

Definition sample_env : ImEnv :=
  mkImEnv (fun n => Z.of_nat n) (fun n => String.append "u" (pretty n)) (fun _ m => map_to_list m).

Definition fresh_im : W := mkIm PgIm.empty 0 0 0.

Lemma sample_ids : ids_ok sample_env digit_lib.
Proof.
  split.
  - intros i j E. simpl in E. injection E as E.
    exact (pretty_nat_inj i j E).
  - done.
  - intros n. unfold no_colon. simpl. rewrite list_of_string_of_list, list_elem_of_In.
    intros [_ H]%List.filter_In. done.
Qed.

Lemma fresh_im_inv env : im_inv env fresh_im.
Proof. split; done. Qed.

(** Three rows, two of them one person, one with no number. *)
Definition sample_req : CreateJobRequest :=
  mkCreateJob "" [ {[ "tel" := "98765 43210"; "name" := "Asha" ]}; {[ "name" := "no phone" ]};
                   {[ "mobile" := "9876543210" ]} ] {[ "tel" := "phone" ]} "src".

Lemma import_job_accounts_for_every_row_witness :
  exists w' job ls,
    handleCreateImportJob sample_env digit_lib "t1" (Some sample_req) fresh_im = (w', (201, inr (RJob job))) /\
    ij_Errors job = [mkRowError 2 "empty phone"] /\ length ls = 2%nat /\
    Forall2 (lead_for w' "t1") ["9876543210"; "9876543210"]%string ls.
Proof.
  destruct (import_job_accounts_for_every_row sample_env digit_lib "t1" sample_req fresh_im
    sample_ids (fresh_im_inv _)) as (w' & job & ls & E & _ & _ & _ & _ & _ & Ee & F & _); [done|].
  exists w', job, ls. split; [exact E|]. split; [rewrite Ee; vm_compute; reflexivity|].
  assert (Hp : phones_of (row_results sample_env digit_lib (cj_Mapping sample_req) (im_ranges fresh_im)
    (cj_Rows sample_req)) = ["9876543210"; "9876543210"]%string) by (vm_compute; reflexivity).
  rewrite Hp in F. split; [|exact F]. apply Forall2_length in F. done.
Defined.

(** ** Webhooks *)

Definition keys_of (w : W) : gmap string string := kv_map (PgIm.idempotency_keys (im_store w)).

Lemma seen_before_known (w : W) key :
  kv_up (PgIm.idempotency_keys (im_store w)) = true -> is_Some (keys_of w !! key) ->
  seen_before key w = (w, inr true).
Proof.
  intros U [x Hx]. unfold keys_of in Hx. rewrite kv_map_lookup in Hx. unfold seen_before. cbn.
  unfold PgIm.checkAndSetIdempotencyKey, kv_insert. rewrite U, Hx. simpl. by destruct w as [[] ? ? ?].
Qed.

Lemma seen_before_new (w : W) key :
  kv_up (PgIm.idempotency_keys (im_store w)) = true -> keys_of w !! key = None ->
  exists w', seen_before key w = (w', inr false) /\ is_Some (keys_of w' !! key) /\
    kv_up (PgIm.idempotency_keys (im_store w')) = true /\
    PgIm.leads (im_store w') = PgIm.leads (im_store w).
Proof.
  intros U Hx. unfold seen_before. cbn. unfold PgIm.checkAndSetIdempotencyKey.
  destruct (kv_insert_up (PgIm.idempotency_keys (im_store w)) key key U) as (ks & -> & V & M).
  fold (keys_of w) in M. rewrite Hx in M. change (kv_map (PgIm.idempotency_keys (im_store w)) !! key)
    with (keys_of w !! key). rewrite Hx, bool_decide_true by done. eexists. split; [done|].
  unfold keys_of. simpl. rewrite M, lookup_insert_eq. eauto.
Qed.

(** Writes of contacts and leads leave the keys alone, and the leads when
    Postgres does not take them. *)
Definition webhook_frame (w w' : W) : Prop :=
  PgIm.idempotency_keys (im_store w') = PgIm.idempotency_keys (im_store w) /\
  (kv_up (PgIm.leads (im_store w)) = false -> PgIm.leads (im_store w') = PgIm.leads (im_store w)).

#[local] Instance webhook_frame_preorder : PreOrder webhook_frame.
Proof.
  split; [by intros w|]. intros w1 w2 w3 [K1 L1] [K2 L2]. split; [congruence|].
  intros U. specialize (L1 U). rewrite L2; congruence.
Qed.

Lemma frame_upsert env c : keeps webhook_frame (st env (fun s n u => UpsertContact s n u c)).
Proof.
  intros w. unfold st. cbn. unfold PgIm.upsertContact.
  destruct (kv_get _ _) as [[x|]|e]; [done| |done].
  destruct (kv_set (PgIm.contacts _) _ _) as [cs [e|]]; [done|].
  by destruct (kv_set _ _ _) as [bp e].
Qed.

Lemma frame_create env l : keeps webhook_frame (st env (fun s n u => CreateLead s n u l)).
Proof.
  intros w. unfold st. cbn. unfold PgIm.createLead, PgIm.put_lead.
  destruct (kv_set _ _ _) as [ls e] eqn:E. split; [done|]. simpl. intros U.
  unfold kv_set, kv_put in E. rewrite U in E. by simplify_eq.
Qed.

Lemma frame_pure {A} (r : string + A) : keeps webhook_frame (pure_result r).
Proof. by intros w. Qed.

#[local] Hint Resolve frame_upsert frame_create frame_pure : keeps.

Lemma frame_google env phones tn cols : keeps webhook_frame (google_lead env phones tn cols).
Proof.
  unfold google_lead. destruct (is_empty _); [apply keeps_ret; apply _|].
  apply keeps_bind; [apply _| |].
  - apply keeps_try. unfold upsertContactFromFields. apply keeps_bind; auto with keeps typeclass_instances.
  - intros [e|c]; [apply keeps_ret; apply _|]. apply keeps_bind; [apply _| |].
    + apply keeps_try. auto with keeps.
    + intros _. apply keeps_ret; apply _.
Qed.

(** Its errors are dropped. *)
Lemma google_lead_succeeds env phones tn cols (w : W) :
  (google_lead env phones tn cols w).2 = inr tt.
Proof.
  unfold google_lead. destruct (is_empty _); [done|]. rewrite bind_run. unfold try at 1.
  destruct (upsertContactFromFields _ _ _ _ w) as [w1 [e|c]]; [done|]. rewrite bind_run. unfold try.
  by destruct (st _ _ w1) as [w2 r].
Qed.

(** A delivery of a lead leaves its key behind; every further delivery of it
    is answered as a duplicate and writes nothing. *)
Theorem google_redelivery_is_noop env phones tenantID p w p' :
  tenantID <> "" -> kv_up (PgIm.idempotency_keys (im_store w)) = true -> gp_LeadID p' = gp_LeadID p ->
  let w1 := (handleGoogleWebhook env phones tenantID (Some p) w).1 in
  handleGoogleWebhook env phones tenantID (Some p') w1 = (w1, (200, inr (ROk true))).
Proof.
  intros Ht U Ep w1. unfold handleGoogleWebhook, is_empty in *. rewrite bool_decide_false in * by done.
  set (key := google_key tenantID (gp_LeadID p)) in *.
  assert (H1 : kv_up (PgIm.idempotency_keys (im_store w1)) = true /\ is_Some (keys_of w1 !! key)).
  { unfold w1. rewrite bool_decide_false by done. unfold answering. rewrite bind_run.
    destruct (keys_of w !! key) as [x|] eqn:E.
    - rewrite (seen_before_known w key) by eauto. simpl. eauto.
    - destruct (seen_before_new w key U E) as (w0 & -> & Hk & V & _). rewrite bind_run.
      destruct (frame_google env phones tenantID (gp_UserColumnData p) w0) as [Hg _].
      unfold keys_of in *. destruct (google_lead _ _ _ _ w0) as [w2 [e|u]]; simpl in *;
        by rewrite Hg. }
  unfold answering. rewrite bind_run, Ep. fold key. by rewrite (seen_before_known w1 key) by apply H1.
Qed.

(** The key is taken before the lead is written and the error of the write is
    dropped: when the write fails, the answer is a success, no lead exists, and
    the redelivery that could repair it is refused as a duplicate. *)
Theorem google_failed_write_loses_lead env phones tenantID p w :
  tenantID <> "" -> kv_up (PgIm.idempotency_keys (im_store w)) = true ->
  kv_up (PgIm.leads (im_store w)) = false ->
  keys_of w !! google_key tenantID (gp_LeadID p) = None ->
  exists w1, handleGoogleWebhook env phones tenantID (Some p) w = (w1, (200, inr (ROk false))) /\
    PgIm.leads (im_store w1) = PgIm.leads (im_store w) /\
    handleGoogleWebhook env phones tenantID (Some p) w1 = (w1, (200, inr (ROk true))).
Proof.
  intros Ht U Ul Hk. pose proof (google_redelivery_is_noop env phones tenantID p w p Ht U eq_refl) as Hr.
  assert (H1 : exists w1, handleGoogleWebhook env phones tenantID (Some p) w = (w1, (200, inr (ROk false))) /\
    PgIm.leads (im_store w1) = PgIm.leads (im_store w)).
  { unfold handleGoogleWebhook, is_empty. rewrite bool_decide_false by done. unfold answering.
    rewrite bind_run. destruct (seen_before_new w _ U Hk) as (w0 & -> & _ & _ & El). rewrite bind_run.
    pose proof (google_lead_succeeds env phones tenantID (gp_UserColumnData p) w0) as Hs.
    destruct (frame_google env phones tenantID (gp_UserColumnData p) w0) as [_ Hg].
    destruct (google_lead _ _ _ _ w0) as [w2 r]. simpl in *. subst r. rewrite El in Hg.
    eexists. split; [done|]. by apply Hg. }
  destruct H1 as (w1 & E & El). rewrite E in Hr. by exists w1.
Qed.

(** A job that names a file is done at once, with no row read. *)
Theorem file_job_is_done_unread env phones tenantID url mapping src w :
  ids_ok env phones -> im_inv env w -> tenantID <> "" ->
  exists w' job,
    handleCreateImportJob env phones tenantID (Some (mkCreateJob url [] mapping src)) w
      = (w', (201, inr (RJob job))) /\
    ij_Status job = "done"%string /\ ij_TotalRows job = 0 /\ leads_of w' = leads_of w.
Proof.
  intros ids Hw Ht. unfold handleCreateImportJob, is_empty. rewrite bool_decide_false by done.
  unfold answering. erewrite bind_step by done. set (w0 := mkIm _ _ _ _). set (req := mkCreateJob _ _ _ _).
  assert (H0 : im_inv env w0).
  { destruct Hw as [? ? ? ? Hf ?]. split; try done. intros n Hn. apply Hf. simpl in Hn. lia. }
  destruct (create_job_run env w0 (e_uuid env (im_ids w)) tenantID req H0 (uuid_ne _ _ ids _))
    as (w1 & job & E1 & H1 & _ & _ & L1 & _). rewrite (bind_step _ _ _ _ _ E1).
  unfold run_import. erewrite bind_step by done.
  destruct (update_job_run env w1 (finished_job job 0 0 []) H1) as (w2 & job' & E2 & _ & _ & L2 & -> & _).
  erewrite bind_step by exact E2. eexists _, _. split_and!; try done. by rewrite L2, L1.
Qed.

(** A Facebook lead is acknowledged and recorded as seen; nothing of it is
    stored, whoever sent it. *)
Theorem fb_webhook_stores_no_lead req w :
  let w' := (handleFBWebhook req w).1 in leads_of w' = leads_of w /\ contacts_of w' = contacts_of w.
Proof.
  unfold handleFBWebhook, answering, refuse.
  destruct (fb_get req); [by destruct (_ && _)|]. destruct (is_empty _); [done|].
  destruct (fb_payload req); [done..|]. rewrite bind_run. unfold seen_before. cbn.
  unfold PgIm.checkAndSetIdempotencyKey. by destruct (kv_insert _ _ _) as [[ks ins]|e].
Qed.
