(* ===== verification/SiteVisit.v ===== *)
(** * site-visit: model, workflow actions, stores, service and handlers

    [services/site-visit/internal]: [model], [workflow], [store], [service] and
    [handler].  Payloads
    of events are their key/value pairs, numbers printed.  The wall clock and
    the UUIDs are arguments of the methods that read them; the order in which
    the in-memory store ranges over a map is the function [map_order]. *)

From stdpp Require Import pretty.
From S2P Require Import Prelude GoTime Kv GoStrings GoMonad.

Open Scope Z_scope.

Definition StateTentative : string := "tentative".
Definition StateConfirmed : string := "confirmed".
Definition StateReminderSent : string := "reminder_sent".
Definition StateCompleted : string := "completed".
Definition StateNoShow : string := "no_show".
Definition StateRescheduled : string := "rescheduled".
Definition StateLost : string := "lost".

Record ProposedSlot := mkSlot { sl_Start : Z; sl_End : Z }.

Definition no_slot : ProposedSlot := mkSlot time_zero time_zero.

Record Visit := mkVisit {
  vi_ID : string;
  vi_TenantID : string;
  vi_LeadID : string;
  vi_ProjectID : string;
  vi_ProposedSlots : list ProposedSlot;
  vi_ConfirmedSlot : ProposedSlot;
  vi_SalesRepID : string;
  vi_State : string;
  vi_Notes : string;
  vi_AttendeeCount : Z;
  vi_LossReason : string;
  vi_CreatedAt : Z;
  vi_UpdatedAt : Z
}.

Record Event := mkEvent {
  ev_ID : string;
  ev_TenantID : string;
  ev_VisitID : string;
  ev_Type : string;
  ev_FromState : string;
  ev_ToState : string;
  ev_Payload : list (string * string);
  ev_CreatedAt : Z
}.

Record WorkflowAction := mkAction {
  wa_ID : string;
  wa_TenantID : string;
  wa_VisitID : string;
  wa_Type : string;
  wa_DueAt : Z;
  wa_FiredAt : Z;
  wa_CreatedAt : Z
}.

Record CreateTentativeRequest := mkTentative {
  ct_TenantID : string;
  ct_LeadID : string;
  ct_ProjectID : string;
  ct_ProposedSlots : list ProposedSlot
}.

(** ** Workflow actions

    [created n] is the [n]-th reading of the wall clock. *)

Definition action (visit : Visit) (typ : string) (dueAt created : Z) : WorkflowAction :=
  mkAction "" (vi_TenantID visit) (vi_ID visit) typ dueAt time_zero created.

Definition ReminderActions (visit : Visit) (created : nat -> Z) : list WorkflowAction :=
  let slot := sl_Start (vi_ConfirmedSlot visit) in
  [ action visit "pre_visit_whatsapp_24h" (slot - 24 * hour) (created 0%nat);
    action visit "pre_visit_whatsapp_2h" (slot - 2 * hour) (created 1%nat);
    action visit "pre_visit_voice_call_2h" (slot - 2 * hour) (created 2%nat);
    action visit "pre_visit_whatsapp_15m" (slot - 15 * minute) (created 3%nat);
    action visit "post_visit_whatsapp_summary_2h" (slot + 2 * hour) (created 4%nat);
    action visit "post_visit_voice_call_1d" (slot + 24 * hour) (created 5%nat);
    action visit "post_visit_followup_3d" (slot + 72 * hour) (created 6%nat);
    action visit "post_visit_followup_7d" (slot + 168 * hour) (created 7%nat) ].

Definition NoShowRecoveryActions (visit : Visit) (now : Z) (created : nat -> Z) : list WorkflowAction :=
  [ action visit "noshow_whatsapp_immediate" now (created 0%nat);
    action visit "noshow_voice_attempt_1" now (created 1%nat);
    action visit "noshow_voice_attempt_2" (now + 2 * hour) (created 2%nat);
    action visit "noshow_voice_attempt_3" (now + 24 * hour) (created 3%nat);
    action visit "noshow_loss_capture" (now + 48 * hour) (created 4%nat) ].

(** ** Stores *)

Class SvStore (T : Type) := {
  SaveVisit : T -> Z -> string -> Visit -> T * (string + Visit);
  GetVisit : T -> string -> string + Visit;
  ListVisits : T -> string -> string + list Visit;
  AddEvent : T -> Z -> string -> Event -> T * (string + Event);
  ListEvents : T -> string -> string + list Event;
  SaveWorkflowAction : T -> Z -> string -> WorkflowAction -> T * (string + WorkflowAction);
  ListWorkflowActions : T -> string -> string + list WorkflowAction;
  MarkWorkflowActionFired : T -> Z -> string -> string -> T * (string + WorkflowAction)
}.

Definition stamp_visit (now : Z) (id : string) (v : Visit) : Visit :=
  mkVisit id (vi_TenantID v) (vi_LeadID v) (vi_ProjectID v) (vi_ProposedSlots v) (vi_ConfirmedSlot v)
    (vi_SalesRepID v) (vi_State v) (vi_Notes v) (vi_AttendeeCount v) (vi_LossReason v)
    (or_now (vi_CreatedAt v) now) now.

Definition stamp_event (now : Z) (id : string) (e : Event) : Event :=
  mkEvent id (ev_TenantID e) (ev_VisitID e) (ev_Type e) (ev_FromState e) (ev_ToState e) (ev_Payload e)
    (or_now (ev_CreatedAt e) now).

Definition stamp_action (now : Z) (id : string) (a : WorkflowAction) : WorkflowAction :=
  mkAction id (wa_TenantID a) (wa_VisitID a) (wa_Type a) (wa_DueAt a) (wa_FiredAt a)
    (or_now (wa_CreatedAt a) now).

Definition with_fired (a : WorkflowAction) (at_ : Z) : WorkflowAction :=
  mkAction (wa_ID a) (wa_TenantID a) (wa_VisitID a) (wa_Type a) (wa_DueAt a) at_ (wa_CreatedAt a).

Definition not_found (what id : string) : string := (what ++ " " ++ quote id ++ ": not found")%string.

Module FakeSv.

Record t := mk {
  seq : nat;
  visits : gmap string Visit;
  events : list Event;
  actions : gmap string WorkflowAction;
  map_order : forall A, list A -> list A
}.

Definition NewFake (order : forall A, list A -> list A) : t := mk 0 ∅ [] ∅ order.

(** [f.nextID(prefix)] for a record without an id. *)
Definition nextID (f : t) (prefix id : string) : t * string :=
  if is_empty id
  then (mk (S (seq f)) (visits f) (events f) (actions f) (map_order f), numbered prefix (S (seq f)))
  else (f, id).

Definition saveVisit (f : t) (now : Z) (uid : string) (visit : Visit) : t * (string + Visit) :=
  let '(f, id) := nextID f "visit" (vi_ID visit) in
  let visit := stamp_visit now id visit in
  (mk (seq f) (<[id := visit]> (visits f)) (events f) (actions f) (map_order f), inr visit).

Definition getVisit (f : t) (id : string) : string + Visit :=
  match visits f !! id with Some v => inr v | None => inl (not_found "visit" id) end.

Definition listVisits (f : t) (tenantID : string) : string + list Visit :=
  inr (List.filter (for_tenant vi_TenantID tenantID) (map_order f _ (map_to_list (visits f)).*2)).

Definition addEvent (f : t) (now : Z) (uid : string) (event : Event) : t * (string + Event) :=
  let '(f, id) := nextID f "event" (ev_ID event) in
  let event := stamp_event now id event in
  (mk (seq f) (visits f) (events f ++ [event]) (actions f) (map_order f), inr event).

Definition listEvents (f : t) (visitID : string) : string + list Event :=
  inr (List.filter (for_tenant ev_VisitID visitID) (events f)).

Definition saveWorkflowAction (f : t) (now : Z) (uid : string) (a : WorkflowAction)
    : t * (string + WorkflowAction) :=
  let '(f, id) := nextID f "workflow" (wa_ID a) in
  let a := stamp_action now id a in
  (mk (seq f) (visits f) (events f) (<[id := a]> (actions f)) (map_order f), inr a).

Definition listWorkflowActions (f : t) (tenantID : string) : string + list WorkflowAction :=
  inr (List.filter (for_tenant wa_TenantID tenantID) (map_order f _ (map_to_list (actions f)).*2)).

Definition markWorkflowActionFired (f : t) (now : Z) (id firedBy : string)
    : t * (string + WorkflowAction) :=
  match actions f !! id with
  | None => (f, inl (not_found "workflow action" id))
  | Some a =>
      let a := with_fired a now in
      (mk (seq f) (visits f) (events f) (<[id := a]> (actions f)) (map_order f), inr a)
  end.

End FakeSv.

Module PgSv.

Record t := mk { visits : kv Visit; events : kv Event; workflow_actions : kv WorkflowAction }.

Definition empty : t := mk kv_empty kv_empty kv_empty.

Definition from_err {A} (e : error) (a : A) : string + A :=
  match e with Some e => inl e | None => inr a end.

Definition saveVisit (p : t) (now : Z) (uid : string) (visit : Visit) : t * (string + Visit) :=
  let visit := stamp_visit now (first_nonempty (vi_ID visit) (new_id "visit" uid)) visit in
  let '(vs, e) := kv_set (visits p) (vi_ID visit) visit in
  (mk vs (events p) (workflow_actions p), from_err e visit).

Definition getVisit (p : t) (id : string) : string + Visit :=
  match kv_get (visits p) id with
  | Err e => inl e
  | Ok (Some v) => inr v
  | Ok None => inl (not_found "visit" id)
  end.

Definition listVisits (p : t) (tenantID : string) : string + list Visit :=
  match kv_list (visits p) with
  | Err e => inl e
  | Ok vs => inr (List.filter (for_tenant vi_TenantID tenantID) vs)
  end.

Definition addEvent (p : t) (now : Z) (uid : string) (event : Event) : t * (string + Event) :=
  let event := stamp_event now (first_nonempty (ev_ID event) (new_id "event" uid)) event in
  let '(es, e) := kv_set (events p) (ev_ID event) event in
  (mk (visits p) es (workflow_actions p), from_err e event).

Definition listEvents (p : t) (visitID : string) : string + list Event :=
  match kv_list (events p) with
  | Err e => inl e
  | Ok es => inr (List.filter (for_tenant ev_VisitID visitID) es)
  end.

Definition saveWorkflowAction (p : t) (now : Z) (uid : string) (a : WorkflowAction)
    : t * (string + WorkflowAction) :=
  let a := stamp_action now (first_nonempty (wa_ID a) (new_id "workflow" uid)) a in
  let '(acts, e) := kv_set (workflow_actions p) (wa_ID a) a in
  (mk (visits p) (events p) acts, from_err e a).

Definition listWorkflowActions (p : t) (tenantID : string) : string + list WorkflowAction :=
  match kv_list (workflow_actions p) with
  | Err e => inl e
  | Ok acts => inr (List.filter (for_tenant wa_TenantID tenantID) acts)
  end.

Definition markWorkflowActionFired (p : t) (now : Z) (id firedBy : string)
    : t * (string + WorkflowAction) :=
  match kv_get (workflow_actions p) id with
  | Err e => (p, inl e)
  | Ok None => (p, inl (not_found "workflow action" id))
  | Ok (Some a) =>
      let a := with_fired a now in
      let '(acts, e) := kv_set (workflow_actions p) id a in
      (mk (visits p) (events p) acts, from_err e a)
  end.

End PgSv.

#[export] Instance fake_sv_store : SvStore FakeSv.t := {
  SaveVisit := FakeSv.saveVisit; GetVisit := FakeSv.getVisit; ListVisits := FakeSv.listVisits;
  AddEvent := FakeSv.addEvent; ListEvents := FakeSv.listEvents;
  SaveWorkflowAction := FakeSv.saveWorkflowAction; ListWorkflowActions := FakeSv.listWorkflowActions;
  MarkWorkflowActionFired := FakeSv.markWorkflowActionFired
}.

#[export] Instance pg_sv_store : SvStore PgSv.t := {
  SaveVisit := PgSv.saveVisit; GetVisit := PgSv.getVisit; ListVisits := PgSv.listVisits;
  AddEvent := PgSv.addEvent; ListEvents := PgSv.listEvents;
  SaveWorkflowAction := PgSv.saveWorkflowAction; ListWorkflowActions := PgSv.listWorkflowActions;
  MarkWorkflowActionFired := PgSv.markWorkflowActionFired
}.

(** * site-visit: service and handlers

    [internal/service/service.go] and [internal/handler/handler.go] on any
    store.  The clock of the service, the wall clock, the UUIDs, and the order
    in which the sort leaves actions that compare equal are the record [SvEnv]. *)

(** [e_ties n] arranges the list before a stable sort: [slices.SortFunc] is not
    stable. *)
Record SvEnv := mkSvEnv {
  e_now : nat -> Z;
  e_clock : nat -> Z;
  e_uuid : nat -> string;
  e_ties : nat -> list WorkflowAction -> list WorkflowAction
}.

Record Sv (T : Type) := mkSv { sv_store : T; sv_reads : nat; sv_ids : nat }.
Arguments mkSv {T}.
Arguments sv_store {T} s.
Arguments sv_reads {T} s.
Arguments sv_ids {T} s.

Definition isPreVisitReminder (actionType : string) : bool :=
  bool_decide (actionType ∈ ["pre_visit_whatsapp_24h"; "pre_visit_whatsapp_2h";
                             "pre_visit_voice_call_2h"; "pre_visit_whatsapp_15m"]%string).

Definition canFirePreVisit (actionType state : string) : bool :=
  if negb (isPreVisitReminder actionType) then true
  else if bool_decide (actionType = "pre_visit_whatsapp_24h")
  then bool_decide (state = StateConfirmed)
  else bool_decide (state = StateConfirmed) || bool_decide (state = StateReminderSent).

Definition isPostVisitFollowup (actionType : string) : bool :=
  bool_decide (actionType ∈ ["post_visit_whatsapp_summary_2h"; "post_visit_voice_call_1d";
                             "post_visit_followup_3d"; "post_visit_followup_7d"]%string).

Definition isNoShowRecovery (actionType : string) : bool :=
  bool_decide (actionType ∈ ["noshow_whatsapp_immediate"; "noshow_voice_attempt_1";
                             "noshow_voice_attempt_2"; "noshow_voice_attempt_3";
                             "noshow_loss_capture"]%string).

(** The comparison of [EvaluateWorkflows], as a strict order. *)
Definition action_less (a b : WorkflowAction) : bool :=
  (wa_DueAt a <? wa_DueAt b)
  || (wa_DueAt a =? wa_DueAt b) && String.ltb (wa_Type a) (wa_Type b).

(** The WhatsApp reminders, after which the visit counts as reminded. *)
Definition reminds (actionType : string) : bool :=
  bool_decide (actionType ∈ ["pre_visit_whatsapp_24h"; "pre_visit_whatsapp_2h";
                             "pre_visit_whatsapp_15m"]%string).

Definition with_state (v : Visit) (state : string) : Visit :=
  mkVisit (vi_ID v) (vi_TenantID v) (vi_LeadID v) (vi_ProjectID v) (vi_ProposedSlots v)
    (vi_ConfirmedSlot v) (vi_SalesRepID v) state (vi_Notes v) (vi_AttendeeCount v) (vi_LossReason v)
    (vi_CreatedAt v) (vi_UpdatedAt v).

Definition confirmed (v : Visit) (slot : ProposedSlot) (salesRepID : string) : Visit :=
  mkVisit (vi_ID v) (vi_TenantID v) (vi_LeadID v) (vi_ProjectID v) (vi_ProposedSlots v) slot salesRepID
    StateConfirmed (vi_Notes v) (vi_AttendeeCount v) (vi_LossReason v) (vi_CreatedAt v) (vi_UpdatedAt v).

Definition rescheduled (v : Visit) (slot : ProposedSlot) : Visit :=
  mkVisit (vi_ID v) (vi_TenantID v) (vi_LeadID v) (vi_ProjectID v) [slot] slot (vi_SalesRepID v)
    StateRescheduled (vi_Notes v) (vi_AttendeeCount v) (vi_LossReason v) (vi_CreatedAt v) (vi_UpdatedAt v).

Definition completed (v : Visit) (notes : string) (attendees : Z) : Visit :=
  mkVisit (vi_ID v) (vi_TenantID v) (vi_LeadID v) (vi_ProjectID v) (vi_ProposedSlots v)
    (vi_ConfirmedSlot v) (vi_SalesRepID v) StateCompleted notes attendees (vi_LossReason v)
    (vi_CreatedAt v) (vi_UpdatedAt v).

Definition lost (v : Visit) (reason : string) : Visit :=
  mkVisit (vi_ID v) (vi_TenantID v) (vi_LeadID v) (vi_ProjectID v) (vi_ProposedSlots v)
    (vi_ConfirmedSlot v) (vi_SalesRepID v) StateLost (vi_Notes v) (vi_AttendeeCount v) reason
    (vi_CreatedAt v) (vi_UpdatedAt v).

Definition bad_transition (from to : string) : string :=
  ("invalid site visit transition: " ++ from ++ " to " ++ to)%string.

Definition one_of (s : string) (l : list string) : bool := bool_decide (s ∈ l).

(** What the decoder left of the body of an action. *)
Record ActionBody := mkBody {
  bo_Slot : ProposedSlot;
  bo_SalesRepID : string;
  bo_NewSlot : ProposedSlot;
  bo_Reason : string;
  bo_Notes : string;
  bo_AttendeeCount : Z;
  bo_Now : Z
}.

Inductive SvResp :=
| RVisit (v : Visit)
| RVisits (vs : list Visit)
| RFired (acts : list WorkflowAction).

Section Service.
Context {T : Type} `{!SvStore T} (env : SvEnv).

Abbreviation W := (Sv T).
Abbreviation MS := (M W string).

Definition now : MS Z := fun w =>
  (mkSv (sv_store w) (S (sv_reads w)) (sv_ids w), inr (e_now env (sv_reads w))).

(** A store method that writes reads the wall clock and may take a UUID. *)
Definition st {A} (f : T -> Z -> string -> T * (string + A)) : MS A := fun w =>
  let '(s, r) := f (sv_store w) (e_clock env (sv_reads w)) (e_uuid env (sv_ids w)) in
  (mkSv s (S (sv_reads w)) (S (sv_ids w)), r).

Definition rd {A} (f : T -> string + A) : MS A := fun w => (w, f (sv_store w)).

(** [n] readings of the wall clock. *)
Definition readings (n : nat) : MS (nat -> Z) := fun w =>
  (mkSv (sv_store w) (n + sv_reads w) (sv_ids w), inr (fun i => e_clock env (sv_reads w + i)%nat)).

Definition event (visit : Visit) (from to typ : string) (payload : list (string * string)) : MS Visit :=
  let! visit := st (fun s n u => SaveVisit s n u visit) in
  let! at_ := now in
  let! _ := st (fun s n u => AddEvent s n u
    (mkEvent "" (vi_TenantID visit) (vi_ID visit) typ from to payload at_)) in
  ret visit.

Definition save_actions (actions : list WorkflowAction) : MS unit :=
  for_each (fun a => let! _ := st (fun s n u => SaveWorkflowAction s n u a) in ret tt) actions.

Definition CreateTentative (req : CreateTentativeRequest) : MS Visit :=
  let! _ := ensure (negb (is_empty (ct_LeadID req) || is_empty (ct_ProjectID req)
                          || bool_decide (ct_ProposedSlots req = [])))
              "lead_id, project_id and proposed_slots are required"%string in
  let tenantID := first_nonempty (ct_TenantID req) "default" in
  let! at_ := now in
  let! visit := st (fun s n u => SaveVisit s n u
    (mkVisit "" tenantID (ct_LeadID req) (ct_ProjectID req) (ct_ProposedSlots req) no_slot ""
       StateTentative "" 0 "" at_ at_)) in
  event visit "" StateTentative "visit_tentative_created" [].

Definition Confirm (visitID : string) (slot : ProposedSlot) (salesRepID : string) : MS Visit :=
  let! visit := rd (fun s => GetVisit s visitID) in
  let! _ := ensure (one_of (vi_State visit) [StateTentative; StateRescheduled])
              (bad_transition (vi_State visit) "confirmed") in
  let! visit := event (confirmed visit slot salesRepID) (vi_State visit) StateConfirmed "visit_confirmed"
                  [("sales_rep_id", salesRepID)]%string in
  let! created := readings 8 in
  let! _ := save_actions (ReminderActions visit created) in
  ret visit.

Definition Reschedule (visitID : string) (newSlot : ProposedSlot) (reason : string) : MS Visit :=
  let! visit := rd (fun s => GetVisit s visitID) in
  let! _ := ensure (negb (one_of (vi_State visit) [StateCompleted; StateLost]))
              (bad_transition (vi_State visit) "rescheduled") in
  event (rescheduled visit newSlot) (vi_State visit) StateRescheduled "visit_rescheduled"
    [("reason", reason)]%string.

Definition MarkCompleted (visitID notes : string) (attendeeCount : Z) : MS Visit :=
  let! visit := rd (fun s => GetVisit s visitID) in
  let! _ := ensure (one_of (vi_State visit) [StateConfirmed; StateReminderSent])
              (bad_transition (vi_State visit) "completed") in
  event (completed visit notes attendeeCount) (vi_State visit) StateCompleted "visit_completed"
    [("attendee_count", pretty attendeeCount)]%string.

Definition MarkNoShow (visitID : string) : MS Visit :=
  let! visit := rd (fun s => GetVisit s visitID) in
  let! _ := ensure (one_of (vi_State visit) [StateConfirmed; StateReminderSent])
              (bad_transition (vi_State visit) "no_show") in
  let! visit := event (with_state visit StateNoShow) (vi_State visit) StateNoShow "visit_no_show" [] in
  let! at_ := now in
  let! created := readings 5 in
  let! _ := save_actions (NoShowRecoveryActions visit at_ created) in
  ret visit.

Definition MarkLost (visitID reason : string) : MS Visit :=
  let! visit := rd (fun s => GetVisit s visitID) in
  let! _ := ensure (negb (bool_decide (vi_State visit = StateCompleted)))
              "invalid site visit transition: completed to lost"%string in
  event (lost visit reason) (vi_State visit) StateLost "visit_lost" [("reason", reason)]%string.

(** Whether the state of the visit lets the action fire. *)
Definition may_fire (typ state : string) : bool :=
  canFirePreVisit typ state
  && negb (isPostVisitFollowup typ && negb (bool_decide (state = StateCompleted)))
  && negb (isNoShowRecovery typ && negb (bool_decide (state = StateNoShow))).

(** The loop body of [EvaluateWorkflows]: the action that fired, if any. *)
Definition fire (at_ : Z) (a : WorkflowAction) : MS (option WorkflowAction) :=
  if negb (is_zero (wa_FiredAt a)) || (at_ <? wa_DueAt a) then ret None
  else
    let! visit := rd (fun s => GetVisit s (wa_VisitID a)) in
    if negb (may_fire (wa_Type a) (vi_State visit)) then ret None
    else
      let! fired := st (fun s n _ => MarkWorkflowActionFired s n (wa_ID a) (wa_Type a)) in
      let! _ := try (st (fun s n u => AddEvent s n u
        (mkEvent "" (vi_TenantID visit) (vi_ID visit) (wa_Type a) (vi_State visit) (vi_State visit)
           [("workflow_action_id", wa_ID a)]%string at_))) in
      let! _ := (if reminds (wa_Type a)
                 then let! _ := try (st (fun s n u => SaveVisit s n u (with_state visit StateReminderSent))) in
                      ret tt
                 else ret tt) in
      ret (Some (with_fired fired at_)).

Fixpoint fire_all (at_ : Z) (actions fired : list WorkflowAction) : MS (list WorkflowAction) :=
  match actions with
  | [] => ret fired
  | a :: actions' =>
      let! r := fire at_ a in
      fire_all at_ actions' (match r with Some x => fired ++ [x] | None => fired end)
  end.

Definition EvaluateWorkflows (at_ : Z) : MS (list WorkflowAction) :=
  let! actions := rd (fun s => ListWorkflowActions s "") in
  let! ties := gets (fun w => e_ties env (sv_reads w)) in
  fire_all at_ (sort_by action_less (ties actions)) [].

(** ** Handlers *)

Definition answer : Type := Z * (string + SvResp).

Definition respond {A} (m : MS A) (f : A -> SvResp) (ok err : Z) : W -> W * answer := fun w =>
  let '(w', r) := m w in
  (w', match r with inr a => (ok, inr (f a)) | inl e => (err, inl e) end).

Definition handleCreateTentative (req : option CreateTentativeRequest) : W -> W * answer :=
  match req with
  | None => fun w => (w, (400, inl "invalid json"%string))
  | Some req => respond (CreateTentative req) RVisit 201 400
  end.

Definition handleListVisits (tenantID : string) : W -> W * answer :=
  respond (rd (fun s => ListVisits s tenantID)) RVisits 200 500.

(** [path] is the URL behind [/v1/site-visits/]. *)
Definition handleAction (path : string) (body : ActionBody) : W -> W * answer :=
  match split_on (Ascii.ascii_of_N 47) path with
  | [id; verb] =>
      if decide (verb = "confirm"%string)
      then respond (Confirm id (bo_Slot body) (bo_SalesRepID body)) RVisit 200 400
      else if decide (verb = "reschedule"%string)
      then respond (Reschedule id (bo_NewSlot body) (bo_Reason body)) RVisit 200 400
      else if decide (verb = "complete"%string)
      then respond (MarkCompleted id (bo_Notes body) (bo_AttendeeCount body)) RVisit 200 400
      else if decide (verb = "no-show"%string) then respond (MarkNoShow id) RVisit 200 400
      else if decide (verb = "lost"%string) then respond (MarkLost id (bo_Reason body)) RVisit 200 400
      else if decide (verb = "workflows"%string)
      then respond (let! clock := readings 1 in
                    EvaluateWorkflows (or_now (bo_Now body) (clock 0%nat))) RFired 200 400
      else fun w => (w, (404, inl "unknown action"%string))
  | _ => fun w => (w, (404, inl "unknown action"%string))
  end.
End Service.
