(* ===== verification/SiteVisitSafety.v ===== *)
(** * site-visit: visits follow their life cycle, actions fire once *)

From S2P Require Import Prelude GoTime Kv GoMonad GoStrings SiteVisit.

Open Scope Z_scope.

Abbreviation W := (Sv PgSv.t).

Definition visits_of (w : W) : gmap string Visit := kv_map (PgSv.visits (sv_store w)).
Definition actions_of (w : W) : gmap string WorkflowAction := kv_map (PgSv.workflow_actions (sv_store w)).
Definition events_of (w : W) : gmap string Event := kv_map (PgSv.events (sv_store w)).

(** ** The requests of the service *)

Inductive sv_request :=
| Tentative (req : option CreateTentativeRequest)
| Act (path : string) (body : ActionBody)
| Listing (tenantID : string).

Definition sv_serve (env : SvEnv) (w : W) (r : sv_request) : W :=
  match r with
  | Tentative req => (handleCreateTentative env req w).1
  | Act path body => (handleAction env path body w).1
  | Listing tenantID => (handleListVisits tenantID w).1
  end.

Definition sv_run (env : SvEnv) (w : W) (rs : list sv_request) : W := foldl (sv_serve env) w rs.

(** ** The life cycle of a visit *)

(** What an action of the interface may do to the state of a visit: the states
    it is allowed in, and the state it leads to. *)
Definition transition (verb : string) : option ((string -> bool) * string) :=
  if decide (verb = "confirm"%string) then
    Some (fun s => one_of s [StateTentative; StateRescheduled], StateConfirmed)
  else if decide (verb = "reschedule"%string) then
    Some (fun s => negb (one_of s [StateCompleted; StateLost]), StateRescheduled)
  else if decide (verb = "complete"%string) then
    Some (fun s => one_of s [StateConfirmed; StateReminderSent], StateCompleted)
  else if decide (verb = "no-show"%string) then
    Some (fun s => one_of s [StateConfirmed; StateReminderSent], StateNoShow)
  else if decide (verb = "lost"%string) then
    Some (fun s => negb (bool_decide (s = StateCompleted)), StateLost)
  else if decide (verb = "workflows"%string) then
    Some (fun s => one_of s [StateConfirmed; StateReminderSent], StateReminderSent)
  else None.

(** The moves a request may make with the visit [k]: an action names its visit,
    evaluating the workflows is about all. *)
Definition sv_move (r : sv_request) (k from to : string) : Prop :=
  match r with
  | Act path _ =>
      exists id verb allowed, split_on (Ascii.ascii_of_N 47) path = [id; verb] /\
        transition verb = Some (allowed, to) /\ allowed from = true /\
        (id = k \/ verb = "workflows"%string)
  | _ => False
  end.


(** Completed and lost visits stay so under every request. *)
Definition any_move (k a b : string) : Prop := exists r, sv_move r k a b.


Definition same_visit (v v' : Visit) : Prop :=
  vi_ID v' = vi_ID v /\ vi_TenantID v' = vi_TenantID v /\ vi_LeadID v' = vi_LeadID v /\
  vi_ProjectID v' = vi_ProjectID v.

(** Records are filed under their ids, and UUIDs to come are new. *)
Definition rows_ok (w : W) : Prop := NoDup (kv_rows (PgSv.workflow_actions (sv_store w))).*1.

Record sv_inv (env : SvEnv) (w : W) : Prop := {
  si_rows : rows_ok w;
  si_visits k v : visits_of w !! k = Some v -> vi_ID v = k /\ k <> "";
  si_actions k a : actions_of w !! k = Some a -> wa_ID a = k /\ k <> "";
  si_fresh n : (sv_ids w <= n)%nat ->
    visits_of w !! new_id "visit" (e_uuid env n) = None /\
    actions_of w !! new_id "workflow" (e_uuid env n) = None /\
    events_of w !! new_id "event" (e_uuid env n) = None
}.

(** The action an event reports to have fired. *)
Definition fired_action (payload : list (string * string)) : option string :=
  match payload with
  | [(k, id)] => if decide (k = "workflow_action_id"%string) then Some id else None
  | _ => None
  end.
Definition action_of (e : Event) : option string := fired_action (ev_Payload e).

(** Every firing on record is of a fired action that was due and allowed by
    the state of the visit, and no action has two. *)
Record fired_ok (w : W) : Prop := {
  fo_sound k e id : events_of w !! k = Some e -> action_of e = Some id ->
    exists a, actions_of w !! id = Some a /\ is_zero (wa_FiredAt a) = false /\
      wa_Type a = ev_Type e /\ wa_VisitID a = ev_VisitID e /\ wa_DueAt a <= ev_CreatedAt e /\
      may_fire (wa_Type a) (ev_FromState e) = true;
  fo_once k k' e e' id : events_of w !! k = Some e -> events_of w !! k' = Some e' ->
    action_of e = Some id -> action_of e' = Some id -> k = k'
}.

(** Visits are kept, and their states move by [P] only. *)
Definition evolves (P : string -> string -> string -> Prop) (w w' : W) : Prop :=
  forall k v, visits_of w !! k = Some v ->
    exists v', visits_of w' !! k = Some v' /\ same_visit v v' /\ rtc (P k) (vi_State v) (vi_State v').

(** What one request does, when the moves it may make are those of [P]. *)
Definition good (env : SvEnv) (P : string -> string -> string -> Prop) (w w' : W) : Prop :=
  sv_inv env w -> fired_ok w ->
  sv_inv env w' /\ fired_ok w' /\ evolves P w w' /\ (sv_ids w <= sv_ids w')%nat.

#[local] Instance good_preorder env P : PreOrder (good env P).
Proof.
  split.
  - intros w Hi Hf. split_and!; try done. intros k v Hv. exists v. by split_and!.
  - intros w1 w2 w3 H12 H23 Hi Hf. destruct (H12 Hi Hf) as (I2 & F2 & E2 & N2).
    destruct (H23 I2 F2) as (I3 & F3 & E3 & N3). split_and!; try done; [|lia].
    intros k v Hv. destruct (E2 k v Hv) as (v2 & Hv2 & (S1 & S2 & S3 & S4) & R2).
    destruct (E3 k v2 Hv2) as (v3 & Hv3 & (T1 & T2 & T3 & T4) & R3).
    exists v3. split_and!; try done; [|by etrans]. repeat split; congruence.
Qed.

Lemma good_mono env (P P' : string -> string -> string -> Prop) w w' :
  (forall k a b, P k a b -> P' k a b) -> good env P w w' -> good env P' w w'.
Proof.
  intros HP Hg Hi Hf. destruct (Hg Hi Hf) as (I & F & E & N). split_and!; try done.
  intros k v Hv. destruct (E k v Hv) as (v' & Hv' & Hs & Hr). exists v'. split_and!; try done.
  eapply rtc_subrel; [|exact Hr]. intros x y. apply HP.
Qed.

(** ** Runs

    [runs m w Q]: from [w], [m] does what a request may do, and when it
    succeeds its result and the state satisfy [Q]. *)

Section Runs.
Context (env : SvEnv) (P : string -> string -> string -> Prop).

Definition runs {A} (m : M W string A) (w : W) (Q : A -> W -> Prop) : Prop :=
  sv_inv env w -> fired_ok w ->
  good env P w (m w).1 /\ match (m w).2 with inr a => Q a (m w).1 | inl _ => True end.

Lemma runs_good {A} (m : M W string A) w Q : runs m w Q -> good env P w (m w).1.
Proof. intros H Hi Hf. destruct (H Hi Hf) as [Hg _]. by apply Hg. Qed.

Lemma runs_ret {A} (a : A) w (Q : A -> W -> Prop) : Q a w -> runs (ret a) w Q.
Proof. intros HQ Hi Hf. simpl. by split. Qed.

Lemma runs_bind {A B} (m : M W string A) (f : A -> M W string B) w Q :
  runs m w (fun a w' => runs (f a) w' Q) -> runs (bind m f) w Q.
Proof.
  intros Hm Hi Hf. unfold bind. destruct (Hm Hi Hf) as [Hg Hr]. destruct (m w) as [w1 [e|a]]; [done|].
  simpl in *. destruct (Hg Hi Hf) as (I1 & F1 & _). destruct (Hr I1 F1) as [Hg' HQ]. split; [|done].
  by etrans.
Qed.

Lemma runs_mono {A} (m : M W string A) w (Q Q' : A -> W -> Prop) :
  runs m w Q -> (forall a w', Q a w' -> Q' a w') -> runs m w Q'.
Proof.
  intros Hm HQ Hi Hf. destruct (Hm Hi Hf) as [Hg Hr]. split; [done|].
  destruct (m w).2; [done|by apply HQ].
Qed.

Lemma runs_ensure b e w (Q : unit -> W -> Prop) : (b = true -> Q tt w) -> runs (ensure b e) w Q.
Proof. intros HQ Hi Hf. destruct b; simpl; (split; [done|]); auto. Qed.

Lemma runs_rd {A} (f : PgSv.t -> string + A) w (Q : A -> W -> Prop) :
  (forall a, f (sv_store w) = inr a -> Q a w) -> runs (rd f) w Q.
Proof. intros HQ Hi Hf. unfold rd. simpl. split; [done|]. destruct (f (sv_store w)); [done|by apply HQ]. Qed.

Lemma runs_try {A} (m : M W string A) w w' r (Q : string + A -> W -> Prop) :
  m w = (w', r) -> runs m w (fun _ _ => True) -> Q r w' -> runs (try m) w Q.
Proof.
  intros E Hm HQ Hi Hf. unfold try. destruct (Hm Hi Hf) as [Hg _]. rewrite E in *. by split.
Qed.

(** Reading clocks changes nothing that counts. *)
Lemma good_reads w n : good env P w (mkSv (sv_store w) n (sv_ids w)).
Proof.
  intros Hi Hf. split_and!; try done; [by destruct Hi|by destruct Hf|].
  intros k v Hv. exists v. by split_and!.
Qed.

Lemma runs_now w (Q : Z -> W -> Prop) :
  (forall t, Q t (mkSv (sv_store w) (S (sv_reads w)) (sv_ids w))) -> runs (now env) w Q.
Proof. intros HQ Hi Hf. unfold now. simpl. split; [apply good_reads|apply HQ]. Qed.

Lemma runs_readings n w (Q : (nat -> Z) -> W -> Prop) :
  (forall i, Q (fun k => e_clock env (i + k)%nat) (mkSv (sv_store w) (n + sv_reads w) (sv_ids w))) ->
  runs (readings env n) w Q.
Proof. intros HQ Hi Hf. unfold readings. simpl. split; [apply good_reads|apply HQ]. Qed.

(** ** The store *)

Hypothesis uuid_inj : forall i j, e_uuid env i = e_uuid env j -> i = j.

Lemma new_id_other p i n : new_id p (e_uuid env i) = new_id p (e_uuid env n) -> i = n.
Proof. intros E. by apply uuid_inj, (new_id_inj p). Qed.

(** What a write does to the three collections. *)
Definition writes (w w' : W) (vs : gmap string Visit) (acts : gmap string WorkflowAction)
    (es : gmap string Event) : Prop :=
  sv_ids w' = S (sv_ids w) /\ (rows_ok w -> rows_ok w') /\ visits_of w' = vs /\ actions_of w' = acts /\
  events_of w' = es.

(** A method that fails leaves the collections alone. *)
Lemma failed_good w w' : writes w w' (visits_of w) (actions_of w) (events_of w) -> good env P w w'.
Proof.
  intros (Hn & Hrw & Ev & Ea & Ee) [Hr0 Hv Ha Hf] [Hs Ho]. split_and!.
  - split; rewrite ?Ev, ?Ea, ?Ee; [by apply Hrw|done..|]. intros n Hle. apply Hf. lia.
  - split; rewrite ?Ea, ?Ee; done.
  - intros k v Hk. rewrite Ev. exists v. by split_and!.
  - lia.
Qed.

Lemma save_visit_writes w v :
  exists w' r, st env (fun s n u => SaveVisit s n u v) w = (w', r) /\
    match r with
    | inl _ => writes w w' (visits_of w) (actions_of w) (events_of w)
    | inr v' => (exists t, v' = stamp_visit t (first_nonempty (vi_ID v) (new_id "visit" (e_uuid env (sv_ids w)))) v)
                /\ writes w w' (<[vi_ID v' := v']> (visits_of w)) (actions_of w) (events_of w)
    end.
Proof.
  unfold st. cbn -[PgSv.saveVisit]. unfold PgSv.saveVisit. set (v' := stamp_visit _ _ _).
  destruct (kv_set_cases (PgSv.visits (sv_store w)) (vi_ID v') v') as [(vs & -> & _ & Mv)|[e ->]].
  - eexists _, (inr v'). split; [done|]. split; [by eexists|]. by split_and!.
  - eexists _, (inl e). split; [done|]. by split_and!.
Qed.

Lemma add_event_writes w e :
  exists w' r, st env (fun s n u => AddEvent s n u e) w = (w', r) /\
    match r with
    | inl _ => writes w w' (visits_of w) (actions_of w) (events_of w)
    | inr e' => (exists t, e' = stamp_event t (first_nonempty (ev_ID e) (new_id "event" (e_uuid env (sv_ids w)))) e)
                /\ writes w w' (visits_of w) (actions_of w) (<[ev_ID e' := e']> (events_of w))
    end.
Proof.
  unfold st. cbn -[PgSv.addEvent]. unfold PgSv.addEvent. set (e' := stamp_event _ _ _).
  destruct (kv_set_cases (PgSv.events (sv_store w)) (ev_ID e') e') as [(es & -> & _ & Me)|[err ->]].
  - eexists _, (inr e'). split; [done|]. split; [by eexists|]. by split_and!.
  - eexists _, (inl err). split; [done|]. by split_and!.
Qed.

Lemma save_action_writes w a :
  exists w' r, st env (fun s n u => SaveWorkflowAction s n u a) w = (w', r) /\
    match r with
    | inl _ => writes w w' (visits_of w) (actions_of w) (events_of w)
    | inr a' => (exists t, a' = stamp_action t (first_nonempty (wa_ID a) (new_id "workflow" (e_uuid env (sv_ids w)))) a)
                /\ writes w w' (visits_of w) (<[wa_ID a' := a']> (actions_of w)) (events_of w)
    end.
Proof.
  unfold st. cbn -[PgSv.saveWorkflowAction]. unfold PgSv.saveWorkflowAction. set (a' := stamp_action _ _ _).
  destruct (kv_set_cases (PgSv.workflow_actions (sv_store w)) (wa_ID a') a') as [(acts & -> & Hnd & Ma)|[err ->]].
  - eexists _, (inr a'). split; [done|]. split; [by eexists|]. by split_and!.
  - eexists _, (inl err). split; [done|]. by split_and!.
Qed.

Lemma mark_fired_writes w id typ :
  exists w' r, st env (fun s n _ => MarkWorkflowActionFired s n id typ) w = (w', r) /\
    match r with
    | inl _ => writes w w' (visits_of w) (actions_of w) (events_of w)
    | inr a' => exists a, actions_of w !! id = Some a /\ a' = with_fired a (e_clock env (sv_reads w)) /\
                writes w w' (visits_of w) (<[id := a']> (actions_of w)) (events_of w)
    end.
Proof.
  unfold st. cbn -[PgSv.markWorkflowActionFired]. unfold PgSv.markWorkflowActionFired.
  unfold kv_get. destruct (kv_up (PgSv.workflow_actions (sv_store w))) eqn:U.
  2: { eexists _, (inl _). split; [done|]. by split_and!. }
  rewrite <- kv_map_lookup. fold (actions_of w). destruct (actions_of w !! id) as [a|] eqn:Ea.
  2: { eexists _, (inl _). split; [done|]. by split_and!. }
  set (a' := with_fired _ _).
  destruct (kv_set_cases (PgSv.workflow_actions (sv_store w)) id a') as [(acts & -> & Hnd & Ma)|[err ->]].
  - eexists _, (inr a'). split; [done|]. exists a. split; [done|]. split; [done|]. by split_and!.
  - eexists _, (inl err). split; [done|]. by split_and!.
Qed.

Ltac maps H := destruct H as (?Hids & ?Hrw & ?Ev & ?Ea & ?Ee).

Lemma runs_of {A} (m : M W string A) w w' r (Q : A -> W -> Prop) :
  m w = (w', r) -> (sv_inv env w -> fired_ok w -> good env P w w') ->
  (sv_inv env w -> fired_ok w -> match r with inr a => Q a w' | inl _ => True end) -> runs m w Q.
Proof. intros E Hg HQ Hi Hf. rewrite E. split; [by apply Hg|by apply HQ]. Qed.

(** A visit stored under a key: a new one, or a step of the stored one. *)
Lemma put_visit_good w w' k v' :
  writes w w' (<[k := v']> (visits_of w)) (actions_of w) (events_of w) ->
  vi_ID v' = k -> k <> "" ->
  (visits_of w !! k = None /\ k = new_id "visit" (e_uuid env (sv_ids w)) \/
   exists v0, visits_of w !! k = Some v0 /\ same_visit v0 v' /\ rtc (P k) (vi_State v0) (vi_State v')) ->
  good env P w w'.
Proof.
  intros Hw Hid Hne Hc [Hr0 Hv Ha Hf] [Hs Ho]. maps Hw. split_and!.
  - split; rewrite ?Ev, ?Ea, ?Ee; [by apply Hrw| |done|].
    + intros k' x [[<- <-]|[_ Hx]]%lookup_insert_Some; [done|by apply Hv].
    + intros n Hn. destruct (Hf n) as (F1 & F2 & F3); [lia|]. split_and!; try done.
      rewrite lookup_insert_ne; [done|]. intros Ek.
      destruct Hc as [[_ Ek']|(v0 & Hv0 & _)]; [|congruence].
      rewrite Ek' in Ek. apply new_id_other in Ek. lia.
  - split; rewrite ?Ea, ?Ee; done.
  - intros k' x Hx. rewrite Ev. destruct (decide (k = k')) as [<-|Hk].
    + destruct Hc as [[Hn _]|(v0 & Hv0 & Hsv & Hr)]; [congruence|]. rewrite Hv0 in Hx. injection Hx as <-.
      exists v'. by rewrite lookup_insert_eq.
    + rewrite lookup_insert_ne by done. exists x. by split_and!.
  - lia.
Qed.

Lemma runs_save_visit w v v0 :
  visits_of w !! vi_ID v = Some v0 -> same_visit v0 v -> rtc (P (vi_ID v)) (vi_State v0) (vi_State v) ->
  runs (st env (fun s n u => SaveVisit s n u v)) w
    (fun v' w' => visits_of w' !! vi_ID v' = Some v' /\ same_visit v v' /\ vi_State v' = vi_State v).
Proof.
  intros Hv Hs Hr. destruct (save_visit_writes w v) as (w' & r & E & Hw).
  eapply runs_of; [exact E| |]; intros Hi Hf; (destruct r as [e|v']; [by try eapply failed_good|]);
    destruct Hw as [[t ->] Hw]; destruct (si_visits _ _ Hi _ _ Hv) as [_ Hne];
    unfold first_nonempty, is_empty in *; rewrite bool_decide_false in * by done.
  - eapply put_visit_good; [exact Hw|done|done|]. right. by exists v0.
  - destruct Hw as (_ & _ & -> & _). simpl. rewrite lookup_insert_eq. by split_and!.
Qed.

Lemma runs_new_visit w v :
  vi_ID v = "" ->
  runs (st env (fun s n u => SaveVisit s n u v)) w
    (fun v' w' => visits_of w' !! vi_ID v' = Some v' /\ vi_State v' = vi_State v).
Proof.
  intros Hid. destruct (save_visit_writes w v) as (w' & r & E & Hw).
  eapply runs_of; [exact E| |]; intros Hi Hf; (destruct r as [e|v']; [by try eapply failed_good|]);
    destruct Hw as [[t ->] Hw]; rewrite Hid in *.
  - eapply put_visit_good; [exact Hw|done|done|]. left. split; [|done]. by apply (si_fresh _ _ Hi).
  - destruct Hw as (_ & _ & -> & _). simpl. rewrite lookup_insert_eq. by split_and!.
Qed.

(** An event that reports no firing. *)
Lemma runs_add_event w e (Q : Event -> W -> Prop) :
  ev_ID e = "" -> action_of e = None ->
  (forall e' w', visits_of w' = visits_of w -> Q e' w') ->
  runs (st env (fun s n u => AddEvent s n u e)) w Q.
Proof.
  intros Hid Hac HQ. destruct (add_event_writes w e) as (w' & r & E & Hw).
  eapply runs_of; [exact E| |]; intros Hi Hf; (destruct r as [err|e']; [by try eapply failed_good|]);
    destruct Hw as [[t ->] Hw]; rewrite Hid in *; maps Hw; [|by apply HQ].
  intros _ _. destruct Hi as [Hr0 Hv Ha Hfr], Hf as [Hs Ho].
  set (k := new_id "event" (e_uuid env (sv_ids w))) in *. set (e' := stamp_event _ _ _) in *.
  assert (Hn : action_of e' = None) by done. split_and!.
  - split; rewrite ?Ev, ?Ea, ?Ee; [by apply Hrw|done..|]. intros n Hn'. destruct (Hfr n) as (F1 & F2 & F3); [lia|].
    split_and!; try done. rewrite lookup_insert_ne; [done|]. intros Ek%new_id_other. lia.
  - split; rewrite ?Ea, Ee.
    + intros k' x id [[<- <-]|[_ Hx]]%lookup_insert_Some Hid'; [congruence|by eapply Hs].
    + intros k1 k2 x1 x2 id [[<- <-]|[_ H1]]%lookup_insert_Some [[<- <-]|[_ H2]]%lookup_insert_Some A1 A2;
        try congruence. by eapply Ho.
  - intros k' x Hx. rewrite Ev. exists x. by split_and!.
  - lia.
Qed.

Lemma runs_save_action w a (Q : WorkflowAction -> W -> Prop) :
  wa_ID a = "" -> (forall a' w', visits_of w' = visits_of w -> Q a' w') ->
  runs (st env (fun s n u => SaveWorkflowAction s n u a)) w Q.
Proof.
  intros Hid HQ. destruct (save_action_writes w a) as (w' & r & E & Hw).
  eapply runs_of; [exact E| |]; intros Hi Hf; (destruct r as [err|a']; [by try eapply failed_good|]);
    destruct Hw as [[t ->] Hw]; rewrite Hid in *; maps Hw; [|by apply HQ].
  intros _ _. destruct Hi as [Hr0 Hv Ha Hfr], Hf as [Hs Ho].
  set (k := new_id "workflow" (e_uuid env (sv_ids w))) in *. set (a' := stamp_action _ _ _) in *.
  change (wa_ID a') with k in *. assert (Hnew : actions_of w !! k = None) by (by apply Hfr). split_and!.
  - split; rewrite ?Ev, ?Ea, ?Ee; [by apply Hrw|done| |].
    + intros k' x [[<- <-]|[_ Hx]]%lookup_insert_Some; [done|by apply Ha].
    + intros n Hn'. destruct (Hfr n) as (F1 & F2 & F3); [lia|].
      split_and!; try done. rewrite lookup_insert_ne; [done|]. intros Ek%new_id_other. lia.
  - split; rewrite Ee; [|done]. rewrite Ea. intros k' x id Hx Hid'.
    destruct (Hs k' x id Hx Hid') as (a0 & Ha0 & Hr). exists a0. split; [|done].
    rewrite lookup_insert_ne; [done|]. congruence.
  - intros k' x Hx. rewrite Ev. exists x. by split_and!.
  - lia.
Qed.

(** ** The operations *)

(** [s.event]: the visit is stored and the change recorded. *)
Lemma runs_event w v v0 from to typ payload (Q : Visit -> W -> Prop) :
  visits_of w !! vi_ID v = Some v0 -> same_visit v0 v -> rtc (P (vi_ID v)) (vi_State v0) (vi_State v) ->
  fired_action payload = None ->
  (forall v' w', visits_of w' !! vi_ID v = Some v' -> vi_State v' = vi_State v -> Q v' w') ->
  runs (event env v from to typ payload) w Q.
Proof.
  intros Hv Hs Hr Hp HQ. unfold event. apply runs_bind. eapply runs_mono; [by eapply runs_save_visit|].
  intros v' w' (Hv' & (Hid & _) & Hst). rewrite Hid in Hv'. apply runs_bind, runs_now. intros at_. apply runs_bind, runs_add_event; [done|exact Hp|].
  intros e' w2 Ev. apply runs_ret, HQ; [by rewrite Ev|done].
Qed.

Lemma runs_save_actions actions w (Q : unit -> W -> Prop) :
  Forall (fun a => wa_ID a = "") actions -> (forall w', visits_of w' = visits_of w -> Q tt w') ->
  runs (save_actions env actions) w Q.
Proof.
  intros Hall. unfold save_actions. revert w. induction Hall as [|a actions Ha _ IH]; intros w HQ; cbn [for_each].
  { apply runs_ret. by apply HQ. }
  apply runs_bind, runs_bind, runs_save_action; [done|]. intros a' w' Ev. apply runs_ret, IH.
  intros w2 Ev2. apply HQ. congruence.
Qed.

Lemma runs_get_visit w id (Q : Visit -> W -> Prop) :
  (forall v, visits_of w !! id = Some v -> vi_ID v = id -> Q v w) -> sv_inv env w ->
  runs (rd (fun s => GetVisit s id)) w Q.
Proof.
  intros HQ Hi. apply runs_rd. cbn. unfold PgSv.getVisit, kv_get. intros v.
  destruct (kv_up _); [|done]. rewrite <- kv_map_lookup. fold (visits_of w).
  destruct (visits_of w !! id) as [x|] eqn:E; [|done]. intros [= ->].
  apply HQ; [done|]. by apply (si_visits _ _ Hi).
Qed.

(** Any run may use the invariant of the state it starts in. *)
Lemma runs_inv {A} (m : M W string A) w Q : (sv_inv env w -> runs m w Q) -> runs m w Q.
Proof. intros H Hi Hf. by apply H. Qed.

Definition anything {A} : A -> W -> Prop := fun _ _ => True.

(** The visit [id] is stored as it was answered, in the state [s]. *)
Definition now_in (id s : string) : Visit -> W -> Prop :=
  fun v w => visits_of w !! id = Some v /\ vi_State v = s.

Lemma runs_create req w : runs (CreateTentative env req) w anything.
Proof.
  unfold CreateTentative. apply runs_bind, runs_ensure. intros _. apply runs_bind, runs_now. intros at_.
  apply runs_bind. eapply runs_mono; [by apply runs_new_visit|]. intros v w' [Hv _].
  by eapply runs_event; [exact Hv|by split_and!|done|done|].
Qed.

Lemma runs_confirm id slot rep w :
  (forall s, one_of s [StateTentative; StateRescheduled] = true -> P id s StateConfirmed) ->
  runs (Confirm env id slot rep) w (now_in id StateConfirmed).
Proof.
  intros HP. apply runs_inv. intros Hi. unfold Confirm. apply runs_bind, runs_get_visit; [|done]. intros v Hv Hid.
  apply runs_bind, runs_ensure. intros Hs. apply runs_bind. rewrite <- Hid in HP, Hv.
  eapply runs_event; [exact Hv|by split_and!| |done|].
  - by apply rtc_once, HP.
  - intros v' w' Hv' Hst. apply runs_bind, runs_readings. intros created. apply runs_bind, runs_save_actions.
    + by repeat constructor.
    + intros w2 Ev. apply runs_ret. unfold now_in. rewrite Ev, <- Hid. done.
Qed.

Lemma runs_reschedule id slot reason w :
  (forall s, negb (one_of s [StateCompleted; StateLost]) = true -> P id s StateRescheduled) ->
  runs (Reschedule env id slot reason) w (now_in id StateRescheduled).
Proof.
  intros HP. apply runs_inv. intros Hi. unfold Reschedule. apply runs_bind, runs_get_visit; [|done]. intros v Hv Hid.
  apply runs_bind, runs_ensure. intros Hs. rewrite <- Hid in *.
  eapply runs_event; [exact Hv|by split_and!| |done|done]. by apply rtc_once, HP.
Qed.

Lemma runs_completed id notes n w :
  (forall s, one_of s [StateConfirmed; StateReminderSent] = true -> P id s StateCompleted) ->
  runs (MarkCompleted env id notes n) w (now_in id StateCompleted).
Proof.
  intros HP. apply runs_inv. intros Hi. unfold MarkCompleted. apply runs_bind, runs_get_visit; [|done]. intros v Hv Hid.
  apply runs_bind, runs_ensure. intros Hs. rewrite <- Hid in *.
  eapply runs_event; [exact Hv|by split_and!| |done|done]. by apply rtc_once, HP.
Qed.

Lemma runs_no_show id w :
  (forall s, one_of s [StateConfirmed; StateReminderSent] = true -> P id s StateNoShow) ->
  runs (MarkNoShow env id) w (now_in id StateNoShow).
Proof.
  intros HP. apply runs_inv. intros Hi. unfold MarkNoShow. apply runs_bind, runs_get_visit; [|done]. intros v Hv Hid.
  apply runs_bind, runs_ensure. intros Hs. apply runs_bind. rewrite <- Hid in HP, Hv.
  eapply runs_event; [exact Hv|by split_and!| |done|].
  - by apply rtc_once, HP.
  - intros v' w' Hv' Hst. apply runs_bind, runs_now. intros at_. apply runs_bind, runs_readings. intros created.
    apply runs_bind, runs_save_actions; [by repeat constructor|]. intros w2 Ev. apply runs_ret.
    unfold now_in. rewrite Ev, <- Hid. done.
Qed.

Lemma runs_lost id reason w :
  (forall s, negb (bool_decide (s = StateCompleted)) = true -> P id s StateLost) ->
  runs (MarkLost env id reason) w (now_in id StateLost).
Proof.
  intros HP. apply runs_inv. intros Hi. unfold MarkLost. apply runs_bind, runs_get_visit; [|done]. intros v Hv Hid.
  apply runs_bind, runs_ensure. intros Hs. rewrite <- Hid in *.
  eapply runs_event; [exact Hv|by split_and!| |done|done]. by apply rtc_once, HP.
Qed.

(** ** Firing actions *)

Hypothesis clock_ok : forall n, is_zero (e_clock env n) = false.

Definition unreported (w : W) (id : string) : Prop :=
  forall k e, events_of w !! k = Some e -> action_of e <> Some id.

Lemma unfired_unreported w a :
  fired_ok w -> actions_of w !! wa_ID a = Some a -> is_zero (wa_FiredAt a) = true -> unreported w (wa_ID a).
Proof.
  intros Hf Ha Hz k e He Hid. destruct (fo_sound _ Hf k e _ He Hid) as (x & Hx & Hn & _).
  congruence.
Qed.

Lemma runs_mark w a typ (Q : WorkflowAction -> W -> Prop) :
  actions_of w !! wa_ID a = Some a -> is_zero (wa_FiredAt a) = true ->
  (forall t w', is_zero t = false -> unreported w' (wa_ID a) -> visits_of w' = visits_of w ->
     actions_of w' = <[wa_ID a := with_fired a t]> (actions_of w) -> Q (with_fired a t) w') ->
  runs (st env (fun s n _ => MarkWorkflowActionFired s n (wa_ID a) typ)) w Q.
Proof.
  intros Ha Hz HQ. destruct (mark_fired_writes w (wa_ID a) typ) as (w' & r & E & Hw).
  eapply runs_of; [exact E| |]; intros Hi Hf; (destruct r as [err|a']; [by try eapply failed_good|]);
    destruct Hw as (a0 & Ha0 & -> & Hw); rewrite Ha in Ha0; injection Ha0 as <-;
    pose proof (unfired_unreported w a Hf Ha Hz) as Hun; maps Hw.
  - intros _ _. destruct Hi as [Hr0 Hv Hac Hfr], Hf as [Hs Ho]. split_and!.
    + split; rewrite ?Ev, ?Ea, ?Ee; [by apply Hrw|done| |].
      * intros k x [[<- <-]|[_ Hx]]%lookup_insert_Some; [by apply (Hac _ a)|by apply Hac].
      * intros n Hn. destruct (Hfr n) as (F1 & F2 & F3); [lia|]. split_and!; try done.
        rewrite lookup_insert_ne; [done|]. congruence.
    + split; rewrite Ee; [|done]. rewrite Ea. intros k e id He Hid.
      destruct (Hs k e id He Hid) as (x & Hx & Hr). exists x. split; [|done].
      rewrite lookup_insert_ne; [done|]. intros <-. by apply (Hun k e).
    + intros k x Hx. rewrite Ev. exists x. by split_and!.
    + lia.
  - apply HQ; [apply clock_ok| |done|done]. unfold unreported. by rewrite Ee.
Qed.

(** The event that reports the firing of [a]. *)
Lemma runs_report w a e (Q : string + Event -> W -> Prop) :
  ev_ID e = "" -> action_of e = Some (wa_ID a) -> unreported w (wa_ID a) ->
  is_zero (ev_CreatedAt e) = false -> actions_of w !! wa_ID a = Some a -> is_zero (wa_FiredAt a) = false ->
  wa_Type a = ev_Type e -> wa_VisitID a = ev_VisitID e -> wa_DueAt a <= ev_CreatedAt e ->
  may_fire (wa_Type a) (ev_FromState e) = true ->
  (forall r w', visits_of w' = visits_of w -> actions_of w' = actions_of w -> Q r w') ->
  runs (try (st env (fun s n u => AddEvent s n u e))) w Q.
Proof.
  intros Hid Hac Hun Hz Ha Hfz Ht Hvi Hd Hm HQ. destruct (add_event_writes w e) as (w' & r & E & Hw).
  eapply runs_try; [exact E| |destruct r as [err|e']; [|destruct Hw as [_ Hw]]; maps Hw; by apply HQ].
  eapply runs_of; [exact E| |by destruct r]. intros Hi Hf. destruct r as [err|e']; [by eapply failed_good|].
  destruct Hw as [[t ->] Hw]; rewrite Hid in *; maps Hw.
  intros _ _. destruct Hi as [Hr0 Hv Hac' Hfr], Hf as [Hs Ho].
  set (k := new_id "event" (e_uuid env (sv_ids w))) in *. set (e' := stamp_event _ _ _) in *.
  change (ev_ID e') with k in *.
  assert (Hc : ev_CreatedAt e' = ev_CreatedAt e) by (simpl; unfold or_now; by rewrite Hz).
  assert (Hac2 : action_of e' = Some (wa_ID a)) by exact Hac. split_and!.
  - split; rewrite ?Ev, ?Ea, ?Ee; [by apply Hrw|done..|]. intros n Hn'. destruct (Hfr n) as (F1 & F2 & F3); [lia|].
    split_and!; try done. rewrite lookup_insert_ne; [done|]. intros Ek%new_id_other. lia.
  - split; rewrite ?Ea, Ee.
    + intros k' x id [[<- <-]|[_ Hx]]%lookup_insert_Some Hid'; [|by eapply Hs].
      rewrite Hac2 in Hid'. injection Hid' as <-. exists a. rewrite Hc. by split_and!.
    + intros k1 k2 x1 x2 id [[<- <-]|[_ H1]]%lookup_insert_Some [[<- <-]|[_ H2]]%lookup_insert_Some A1 A2.
      * done.
      * exfalso. apply (Hun _ _ H2). congruence.
      * exfalso. apply (Hun _ _ H1). congruence.
      * by eapply Ho.
  - intros k' x Hx. rewrite Ev. exists x. by split_and!.
  - lia.
Qed.

Lemma reminds_state typ s :
  reminds typ = true -> may_fire typ s = true -> one_of s [StateConfirmed; StateReminderSent] = true.
Proof.
  intros Hre Hmf. apply bool_decide_eq_true. cut (s = StateConfirmed \/ s = StateReminderSent); [set_solver|].
  revert Hre Hmf.
  unfold reminds. intros Ht%bool_decide_eq_true Hm.
  unfold may_fire in Hm. apply andb_true_iff in Hm as [[Hm _]%andb_true_iff _].
  unfold canFirePreVisit in Hm. assert (Hp : isPreVisitReminder typ = true).
  { unfold isPreVisitReminder. apply bool_decide_eq_true. set_solver. }
  rewrite Hp in Hm. simpl in Hm. case_bool_decide as H24; [apply bool_decide_eq_true in Hm; by left|].
  apply orb_true_iff in Hm as [Hm%bool_decide_eq_true|Hm%bool_decide_eq_true]; auto.
Qed.

(** The rest of the snapshot is still as it was read. *)
Definition pending (l : list WorkflowAction) (w : W) : Prop :=
  NoDup (wa_ID <$> l) /\ Forall (fun a => actions_of w !! wa_ID a = Some a) l.

Lemma pending_tail a l w : pending (a :: l) w -> pending l w.
Proof. intros [[_ Hn]%NoDup_cons [_ Hl]%Forall_cons]. by split. Qed.

Lemma pending_fired a l w w' x :
  pending (a :: l) w -> actions_of w' = <[wa_ID a := x]> (actions_of w) -> pending l w'.
Proof.
  intros [[Hni Hn]%NoDup_cons [_ Hl]%Forall_cons] E. split; [done|]. rewrite Forall_forall in *.
  intros b Hb. rewrite E, lookup_insert_ne; [by apply Hl|]. intros Eb. apply Hni. rewrite Eb.
  by apply list_elem_of_fmap_2.
Qed.

Hypothesis reminder_move :
  forall k s, one_of s [StateConfirmed; StateReminderSent] = true -> P k s StateReminderSent.

Lemma runs_fire at_ a l w :
  is_zero at_ = false -> pending (a :: l) w -> runs (fire env at_ a) w (fun _ w' => pending l w').
Proof.
  intros Hat Hp. pose proof (pending_tail _ _ _ Hp) as Ht. pose proof Hp as [_ [Ha _]%Forall_cons].
  apply runs_inv. intros Hi. unfold fire.
  destruct (negb (is_zero (wa_FiredAt a)) || (at_ <? wa_DueAt a)) eqn:Ec; [by apply runs_ret|].
  apply orb_false_iff in Ec as [Hz%negb_false_iff Hd%Z.ltb_ge].
  apply runs_bind, runs_get_visit; [|done]. intros v Hv Hid.
  destruct (may_fire (wa_Type a) (vi_State v)) eqn:Hm; simpl; [|by apply runs_ret].
  apply runs_bind, runs_mark; [done|done|]. intros t w1 Htz Hun Ev Ea.
  pose proof (pending_fired _ _ _ _ _ Hp Ea) as Hp1.
  apply runs_bind, (runs_report _ (with_fired a t)); try done.
  { rewrite Ea. apply lookup_insert_eq. }
  intros r w2 Ev2 Ea2. assert (Hp2 : pending l w2) by (unfold pending in *; by rewrite Ea2).
  apply runs_bind. destruct (reminds (wa_Type a)) eqn:Hr; [|by apply runs_ret, runs_ret].
  apply runs_bind. destruct (save_visit_writes w2 (with_state v StateReminderSent)) as (w3 & r3 & E3 & Hw).
  assert (Hv2 : visits_of w2 !! vi_ID (with_state v StateReminderSent) = Some v).
  { simpl. by rewrite Ev2, Ev, Hid. }
  eapply runs_try; [exact E3| |].
  - eapply runs_mono; [eapply runs_save_visit; [exact Hv2|by split_and!|]|done].
    apply rtc_once, reminder_move. by apply (reminds_state (wa_Type a)).
  - apply runs_ret, runs_ret. unfold pending in *.
    destruct r3 as [e|v']; [destruct Hw as (_ & _ & _ & -> & _)|destruct Hw as (_ & _ & _ & _ & -> & _)]; done.
Qed.

Lemma runs_fire_all at_ l fired w :
  is_zero at_ = false -> pending l w -> runs (fire_all env at_ l fired) w anything.
Proof.
  intros Hat. revert fired w. induction l as [|a l IH]; intros fired w Hp; cbn [fire_all]; [by apply runs_ret|].
  apply runs_bind. eapply runs_mono; [by eapply runs_fire|]. intros r w' Hp'. by apply IH.
Qed.

Hypothesis ties_perm : forall n l, e_ties env n l ≡ₚ l.

Lemma runs_evaluate at_ w : is_zero at_ = false -> runs (EvaluateWorkflows env at_) w anything.
Proof.
  intros Hat. apply runs_inv. intros Hi. unfold EvaluateWorkflows. apply runs_bind, runs_rd. cbn.
  unfold PgSv.listWorkflowActions. intros l El. apply runs_bind. intros _ Hf. split; [done|]. simpl.
  apply runs_fire_all; [done|]. destruct (kv_list _) as [acts|] eqn:Ek; [|done]. injection El as <-.
  destruct (kv_list_ids _ wa_ID _ Ek (si_rows _ _ Hi)) as [Hn Ha].
  { intros k v Hk. by apply (si_actions _ _ Hi). }
  assert (El : List.filter (for_tenant wa_TenantID "") acts = acts).
  { clear. induction acts as [|a acts IH]; [done|]. simpl. by rewrite IH. }
  rewrite El. split; [by rewrite sort_by_perm, ties_perm|].
  rewrite Forall_forall in *. intros a. rewrite elem_of_sort_by, ties_perm. apply Ha.
Qed.

Lemma respond_good {A} (m : M W string A) f ok err w Q :
  runs m w Q -> good env P w (respond m f ok err w).1.
Proof. intros H. apply runs_good in H. unfold respond. by destruct (m w). Qed.

End Runs.

Section Requests.
Context (env : SvEnv).
Hypothesis uuid_inj : forall i j, e_uuid env i = e_uuid env j -> i = j.
Hypothesis clock_ok : forall n, is_zero (e_clock env n) = false.
Hypothesis ties_perm : forall n l, e_ties env n l ≡ₚ l.

(** The operation behind an action: the visit it leaves stored, if it succeeds. *)
Lemma act_step path body id verb w :
  split_on (Ascii.ascii_of_N 47) path = [id; verb] ->
  good env (sv_move (Act path body)) w (handleAction env path body w).1 /\
  (sv_inv env w -> fired_ok w ->
   forall allowed to, transition verb = Some (allowed, to) -> verb <> "workflows"%string ->
   (handleAction env path body w).2.1 = 200 ->
   exists v, visits_of (handleAction env path body w).1 !! id = Some v /\ vi_State v = to).
Proof.
  intros Hs. unfold handleAction. rewrite Hs.
  assert (HP : forall allowed to, transition verb = Some (allowed, to) ->
    forall s, allowed s = true -> sv_move (Act path body) id s to).
  { intros allowed to Ht s Ha. exists id, verb, allowed. split_and!; auto. }
  assert (Hresp : forall (m : M W string Visit) to0 allowed0, transition verb = Some (allowed0, to0) ->
    runs env (sv_move (Act path body)) m w (now_in id to0) ->
    good env (sv_move (Act path body)) w (respond m RVisit 200 400 w).1 /\
    (sv_inv env w -> fired_ok w ->
     forall allowed to, transition verb = Some (allowed, to) -> verb <> "workflows"%string ->
     (respond m RVisit 200 400 w).2.1 = 200 ->
     exists v, visits_of (respond m RVisit 200 400 w).1 !! id = Some v /\ vi_State v = to)).
  { intros m to0 allowed0 Ht0 Hm. split; [by eapply respond_good|]. intros Hi Hf allowed to Ht _ Hc.
    rewrite Ht0 in Ht. injection Ht as <- <-. destruct (Hm Hi Hf) as [_ HQ]. unfold respond in *.
    destruct (m w) as [w' [e|v]]; [done|]. by exists v. }
  unfold transition in *. repeat case_decide; subst;
    try (eapply Hresp; [reflexivity|]; first [apply runs_confirm | apply runs_reschedule
      | apply runs_completed | apply runs_no_show | apply runs_lost]; [done..|by apply HP]).
  - split; [|done]. eapply respond_good. apply runs_bind, runs_readings. intros i.
    apply runs_evaluate; [done|done| |done|].
    + intros k s Ha. exists id, "workflows"%string. eexists. split_and!; [done|done|exact Ha|by right].
    + unfold or_now. by destruct (is_zero (bo_Now body)) eqn:E; [apply clock_ok|].
  - split; [done|]. intros _ _ allowed to [=].
Qed.

Lemma serve_step w r : good env (sv_move r) w (sv_serve env w r).
Proof.
  destruct r as [[req|]|path body|tn]; simpl; [eapply respond_good; by apply runs_create|done| |done].
  destruct (split_on (Ascii.ascii_of_N 47) path) as [|id [|verb [|]]] eqn:Hs;
    [..|]; try (unfold handleAction; rewrite Hs; reflexivity).
  by eapply act_step.
Qed.

Lemma run_steps rs w : good env any_move w (sv_run env w rs).
Proof.
  revert w. induction rs as [|r rs IH]; intros w; [done|]. simpl. etrans; [|apply IH].
  eapply good_mono; [|apply serve_step]. intros k a b Hm. by exists r.
Qed.
End Requests.

(** ** The theorems *)

(** UUIDs are not repeated, the wall clock is set, and sorting only reorders. *)
Record sv_env_ok (env : SvEnv) : Prop := {
  so_uuid i j : e_uuid env i = e_uuid env j -> i = j;
  so_clock n : is_zero (e_clock env n) = false;
  so_ties n l : e_ties env n l ≡ₚ l
}.

Definition sv_start : W := mkSv PgSv.empty 0 0.

Lemma start_inv env : sv_inv env sv_start.
Proof. split; [constructor|done..]. Qed.

Lemma start_fired : fired_ok sv_start.
Proof. split; done. Qed.

Lemma reach_good env rs :
  sv_env_ok env -> sv_inv env (sv_run env sv_start rs) /\ fired_ok (sv_run env sv_start rs).
Proof.
  intros [Hu Hc Ht]. destruct (run_steps env Hu Hc Ht rs sv_start (start_inv env) start_fired)
    as (Hi & Hf & _). done.
Qed.


(** C25: A workflow action fires at most once, and only when it may.  Whatever
    requests are served, every firing on record is of an action of that visit
    that was due by then and that the state of the visit allowed; no action has
    two firings on record, and a fired action is marked so. *)
Theorem workflow_actions_fire_once env rs k e id :
  sv_env_ok env ->
  let w := sv_run env sv_start rs in
  events_of w !! k = Some e -> action_of e = Some id ->
  (exists a, actions_of w !! id = Some a /\ is_zero (wa_FiredAt a) = false /\
     wa_Type a = ev_Type e /\ wa_VisitID a = ev_VisitID e /\ wa_DueAt a <= ev_CreatedAt e /\
     may_fire (wa_Type a) (ev_FromState e) = true) /\
  forall k' e', events_of w !! k' = Some e' -> action_of e' = Some id -> k' = k.
Proof.
  intros Henv w He Hid. destruct (reach_good env rs Henv) as [_ Hf]. split.
  - by eapply (fo_sound _ Hf).
  - intros k' e' He' Hid'. by eapply (fo_once _ Hf).
Qed.

(** ** A sample run *)

Definition sv_env : SvEnv :=
  mkSvEnv (fun n => Z.of_nat n * second) (fun n => Z.of_nat n * second) (fun n => pretty.pretty n)
    (fun _ l => l).

Lemma sv_env_fine : sv_env_ok sv_env.
Proof.
  split; [intros i j E; by apply (pretty.pretty_nat_inj i j)| |done].
  intros n. apply Z.eqb_neq. simpl. unfold time_zero, second. lia.
Qed.

Definition day : Z := 24 * hour.
Definition body_at (slot now : Z) : ActionBody := mkBody (mkSlot slot slot) "rep" (mkSlot slot slot) "" "" 1 now.
Definition visit_1 : string := "visit-0".

(** A visit confirmed for day 10, and its reminder a day before. *)
Definition reminded : list sv_request :=
  [ Tentative (Some (mkTentative "t1" "lead" "project" [mkSlot (10 * day) (10 * day)]));
    Act (visit_1 ++ "/confirm") (body_at (10 * day) time_zero);
    Act (visit_1 ++ "/workflows") (body_at 0 (9 * day)) ].


Lemma workflow_actions_fire_once_witness :
  let w := sv_run sv_env sv_start reminded in
  exists k e id a, events_of w !! k = Some e /\ action_of e = Some id /\
    actions_of w !! id = Some a /\ is_zero (wa_FiredAt a) = false.
Proof.
  intros w. exists "event-14"%string. destruct (events_of w !! "event-14"%string) as [e|] eqn:E; [|by vm_compute in E].
  destruct (action_of e) as [id|] eqn:Ea; [|vm_compute in E; injection E as <-; by vm_compute in Ea].
  destruct (workflow_actions_fire_once sv_env reminded "event-14" e id sv_env_fine E Ea)
    as [(a & Ha & Hz & _) _].
  exists e, id, a. exact (conj eq_refl (conj Ea (conj Ha Hz))).
Defined.

(** ** What the service does not do *)

(** Moved to day 20 and confirmed again, the visit still has the reminders of
    day 10, and the evaluation on day 9 sends the one that announces the visit
    for the next day. *)
Theorem old_reminders_outlive_reschedule :
  let w := sv_run sv_env sv_start
    [ Tentative (Some (mkTentative "t1" "lead" "project" [mkSlot (10 * day) (10 * day)]));
      Act (visit_1 ++ "/confirm") (body_at (10 * day) time_zero);
      Act (visit_1 ++ "/reschedule") (body_at (20 * day) time_zero);
      Act (visit_1 ++ "/confirm") (body_at (20 * day) time_zero) ] in
  exists v fired, visits_of w !! visit_1 = Some v /\ sl_Start (vi_ConfirmedSlot v) = 20 * day /\
    (EvaluateWorkflows sv_env (9 * day) w).2 = inr fired /\
    wa_Type <$> fired = ["pre_visit_whatsapp_24h"%string].
Proof.
  intros w. destruct (visits_of w !! visit_1) as [v|] eqn:Ev; [|by vm_compute in Ev].
  destruct (EvaluateWorkflows sv_env (9 * day) w).2 as [e|fired] eqn:Ef; [by vm_compute in Ef|].
  exists v, fired. vm_compute in Ev, Ef. injection Ev as <-. injection Ef as <-. by split_and!.
Qed.

(** The store without its collection of actions. *)
Definition actions_down (w : W) : W :=
  let p := sv_store w in
  mkSv (PgSv.mk (PgSv.visits p) (PgSv.events p) (mkKv (kv_rows (PgSv.workflow_actions p)) false))
    (sv_reads w) (sv_ids w).

(** A confirmation whose reminders cannot be stored is reported as an error,
    but the visit is confirmed: trying again is refused, and the reminders are
    never stored. *)
Theorem failed_confirmation_has_no_reminders :
  let w := actions_down (sv_run sv_env sv_start
    [ Tentative (Some (mkTentative "t1" "lead" "project" [mkSlot (10 * day) (10 * day)])) ]) in
  let confirm := Confirm sv_env visit_1 (mkSlot (10 * day) (10 * day)) "rep" in
  exists w' v, confirm w = (w', inl "pgkv: put") /\ visits_of w' !! visit_1 = Some v /\
    vi_State v = StateConfirmed /\ actions_of w' = ∅ /\
    confirm w' = (w', inl (bad_transition "confirmed" "confirmed")).
Proof.
  intros w confirm. exists (confirm w).1.
  destruct (visits_of (confirm w).1 !! visit_1) as [v|] eqn:Ev; [|by vm_compute in Ev].
  exists v. split; [vm_compute; reflexivity|]. split; [done|]. vm_compute in Ev. injection Ev as <-.
  split; [done|]. split; vm_compute; reflexivity.
Qed.
