(* ===== verification/CallIntel.v ===== *)
(** * call-intel: what happens after a call

    [services/call-intel/internal]: the transcript store and the four consumers
    of call events.  The services the consumers call are the class [CiPeers];
    [Deployment] is the instance made of the services as they are modelled in
    this development, joined by a network that may lose a request or a reply.
    A message is [None] when its JSON cannot be decoded. *)

From S2P Require Import Prelude GoTime Float64 Kv GoMonad GoStrings.
From S2P Require Import LeadImport Knowledge KnowledgeService.
From S2P Require Import Handoff HandoffService SiteVisit.

Open Scope Z_scope.

(** ** Transcripts *)

Record Turn := mkTurn { tu_Index : Z; tu_Role : string; tu_Text : string; tu_Confidence : float64 }.

Record Transcript := mkTranscript {
  tr_ID : string;
  tr_SessionID : string;
  tr_TenantID : string;
  tr_CampaignID : string;
  tr_LeadID : string;
  tr_ProjectID : string;
  tr_Outcome : string;
  tr_Status : string;
  tr_Summary : string;
  tr_LeadScore : Z;
  tr_DurationS : float64;
  tr_TurnCount : Z;
  tr_Turns : list Turn;
  tr_CreatedAt : Z
}.

Module CiStore.

Record t := mk { transcripts : kv Transcript; transcripts_by_session : kv Transcript }.

Definition stamp (x : Transcript) (id : string) (created : Z) : Transcript :=
  mkTranscript id (tr_SessionID x) (tr_TenantID x) (tr_CampaignID x) (tr_LeadID x) (tr_ProjectID x)
    (tr_Outcome x) (tr_Status x) (tr_Summary x) (tr_LeadScore x) (tr_DurationS x) (tr_TurnCount x)
    (tr_Turns x) created.

(** The error of the second write is dropped. *)
Definition saveTranscript (s : t) (now : Z) (uid : string) (x : Transcript) : t * (string + Transcript) :=
  let x := stamp x (first_nonempty (tr_ID x) uid) (or_now (tr_CreatedAt x) now) in
  let '(ts, e) := kv_set (transcripts s) (tr_ID x) x in
  match e with
  | Some e => (mk ts (transcripts_by_session s), inl e)
  | None =>
      let '(bs, _) := kv_set (transcripts_by_session s) (tr_SessionID x) x in
      (mk ts bs, inr x)
  end.

Definition getBySessionID (s : t) (sessionID : string) : string + option Transcript :=
  match kv_get (transcripts_by_session s) sessionID with Err e => inl e | Ok r => inr r end.

End CiStore.

(** ** Events *)

Record callCompletedPayload := mkCompleted {
  cc_EventID : string;
  cc_SessionID : string;
  cc_TenantID : string;
  cc_CampaignID : string;
  cc_LeadID : string;
  cc_ProjectID : string;
  cc_Outcome : string;
  cc_Status : string;
  cc_Summary : string;
  cc_LeadStatus : string;
  cc_LeadScore : Z;
  cc_DurationS : float64;
  cc_TurnCount : Z;
  cc_Transcript : list Turn
}.

Record siteVisitRequestedPayload := mkVisitRequested {
  sq_EventID : string;
  sq_SessionID : string;
  sq_TenantID : string;
  sq_LeadID : string;
  sq_ProjectID : string;
  sq_Reason : string
}.

Record callbackRequestedPayload := mkCallback {
  cq_EventID : string;
  cq_SessionID : string;
  cq_TenantID : string;
  cq_LeadID : string;
  cq_CampaignID : string;
  cq_Phone : string;
  cq_ProjectID : string;
  cq_DelayMin : Z
}.

Record handoverRequestedPayload := mkHandover {
  hq_EventID : string;
  hq_SessionID : string;
  hq_TenantID : string;
  hq_LeadID : string;
  hq_ProjectID : string;
  hq_Reason : string;
  hq_Summary : string
}.

(** ** Request bodies, field by field as they are written to JSON *)

Record ScoreBody := mkScoreBody {
  sb_session_id : string;
  sb_lead_id : string;
  sb_tenant_id : string;
  sb_summary : string;
  sb_utterance_count : Z;
  sb_call_duration_secs : float64;
  sb_avg_confidence : float64
}.

Record ClaimBody := mkClaimBody { cb_text : string; cb_source : string; cb_session_id : string }.

(** The times of the slot are printed with whole seconds. *)
Record VisitBody := mkVisitBody {
  vb_tenant_id : string;
  vb_lead_id : string;
  vb_project_id : string;
  vb_start : Z;
  vb_end : Z
}.

Record CallbackBody := mkCallbackBody {
  kb_lead_id : string;
  kb_campaign_id : string;
  kb_tenant_id : string;
  kb_phone : string;
  kb_project_id : string;
  kb_next_attempt_at : Z;
  kb_source : string;
  kb_idempotency_key : string
}.

Record HandoffBody := mkHandoffBody {
  hb_tenant_id : string;
  hb_lead_id : string;
  hb_reason : string;
  hb_summary : string;
  hb_scoring_snapshot_id : string;
  hb_snapshot_id : string;
  hb_snapshot_tenant_id : string;
  hb_snapshot_lead_id : string
}.

(** A reply: the status and the text of the body. *)
Abbreviation reply := (Z * string)%type.

(** The services as the consumers see them; [inl] is an error of the client.
    The scoring service answers with the decoded score, if it can be decoded. *)
Class CiPeers (P : Type) := {
  post_score : P -> ScoreBody -> P * (string + reply * (string + Z));
  patch_lead_score : P -> string -> string -> Z -> P * (string + reply);
  post_claim : P -> string -> ClaimBody -> P * (string + reply);
  post_site_visit : P -> VisitBody -> P * (string + reply);
  post_callback : P -> CallbackBody -> P * (string + reply);
  post_handoff : P -> HandoffBody -> P * (string + reply)
}.

(** [time.Format(time.RFC3339)] and parsing it back. *)
Definition whole_seconds (t : Z) : Z := t - t mod second.

(** ** The consumers *)

(** Which URLs are configured. *)
Record Config := mkConfig {
  cf_ScoringURL : bool;
  cf_LeadImportURL : bool;
  cf_KnowledgeURL : bool;
  cf_SiteVisitURL : bool;
  cf_HandoffURL : bool;
  cf_SchedulerURL : bool
}.

Record CiEnv := mkCiEnv { ce_clock : nat -> Z; ce_uuid : nat -> string }.

(** [ci_st] is [None] when the process runs without a database. *)
Record Runner (P : Type) := mkRunner {
  ci_st : option CiStore.t;
  ci_peers : P;
  ci_reads : nat;
  ci_ids : nat
}.
Arguments mkRunner {P}.
Arguments ci_st {P} r.
Arguments ci_peers {P} r.
Arguments ci_reads {P} r.
Arguments ci_ids {P} r.

Section Consumer.
Context {P : Type} `{!CiPeers P} (cfg : Config) (env : CiEnv).

Abbreviation R := (Runner P).
Abbreviation MR := (M R string).

Definition time_now : MR Z := fun r =>
  (mkRunner (ci_st r) (ci_peers r) (S (ci_reads r)) (ci_ids r), inr (ce_clock env (ci_reads r))).

Definition new_uuid : MR string := fun r =>
  (mkRunner (ci_st r) (ci_peers r) (ci_reads r) (S (ci_ids r)), inr (ce_uuid env (ci_ids r))).

Definition request {A} (f : P -> P * (string + A)) : MR A := fun r =>
  let '(p, a) := f (ci_peers r) in (mkRunner (ci_st r) p (ci_reads r) (ci_ids r), a).

(** [if resp.StatusCode >= 300 { return fmt.Errorf("... HTTP %d: %s", ...) }]. *)
Definition expect_ok (what : string) (a : reply) : MR unit :=
  ensure (a.1 <? 300) (what ++ " HTTP " ++ pretty.pretty a.1 ++ ": " ++ a.2)%string.

Definition transcript_of (p : callCompletedPayload) : Transcript :=
  mkTranscript "" (cc_SessionID p) (cc_TenantID p) (cc_CampaignID p) (cc_LeadID p) (cc_ProjectID p)
    (cc_Outcome p) (cc_Status p) (cc_Summary p) (cc_LeadScore p) (cc_DurationS p) (cc_TurnCount p)
    (cc_Transcript p) time_zero.

(** Step (a). *)
Definition persist (p : callCompletedPayload) : MR unit := fun r =>
  match ci_st r with
  | None => (r, inr tt)
  | Some s =>
      let '(s', a) := CiStore.saveTranscript s (ce_clock env (ci_reads r)) (ce_uuid env (ci_ids r))
                        (transcript_of p) in
      (mkRunner (Some s') (ci_peers r) (S (ci_reads r)) (S (ci_ids r)),
       match a with inl e => inl e | inr _ => inr tt end)
  end.

Definition avg_confidence (ts : list Turn) : float64 :=
  match ts with
  | [] => f_zero
  | _ => f_div (foldl (fun a t => f_add a (tu_Confidence t)) f_zero ts) (f_of_int (Z.of_nat (length ts)))
  end.

(** Step (b). *)
Definition callScoring (p : callCompletedPayload) : MR Z :=
  let! a := request (fun s => post_score s
    (mkScoreBody (cc_SessionID p) (cc_LeadID p) (cc_TenantID p) (cc_Summary p) (cc_TurnCount p)
       (cc_DurationS p) (avg_confidence (cc_Transcript p)))) in
  let! _ := expect_ok "scoring" a.1 in
  match a.2 with
  | inl e => raise ("scoring decode: " ++ e)%string
  | inr score => ret score
  end.

(** Step (c). *)
Definition patchLeadScore (tenantID leadID : string) (score : Z) : MR unit :=
  let! a := request (fun s => patch_lead_score s tenantID leadID score) in
  expect_ok "lead score patch" a.

Definition claim_body (p : callCompletedPayload) : ClaimBody :=
  mkClaimBody ("[call-summary] session=" ++ cc_SessionID p ++ " lead=" ++ cc_LeadID p ++ " outcome="
               ++ cc_Outcome p ++ String (Ascii.ascii_of_N 10) (cc_Summary p))%string
    "call-completed" (cc_SessionID p).

(** Step (d). *)
Definition ingestFact (p : callCompletedPayload) : MR unit :=
  let! a := request (fun s => post_claim s (cc_ProjectID p) (claim_body p)) in
  expect_ok "kb ingest" a.

(** The error of a step is logged. *)
Definition logged (m : MR unit) : MR unit := let! _ := try m in ret tt.

Definition handleCallCompleted (p : callCompletedPayload) : MR unit :=
  let! _ := logged (persist p) in
  let! scored := (if cf_ScoringURL cfg then try (callScoring p) else ret (inl ""%string)) in
  let score := match scored with inr s => s | inl _ => cc_LeadScore p end in
  let! _ := (if cf_LeadImportURL cfg && negb (is_empty (cc_LeadID p))
             then logged (patchLeadScore (cc_TenantID p) (cc_LeadID p) score) else ret tt) in
  if cf_KnowledgeURL cfg && negb (is_empty (cc_ProjectID p)) && negb (is_empty (cc_Summary p))
  then logged (ingestFact p) else ret tt.

(** The callback of the subscription: an error means that the message is
    delivered again. *)
Definition onCallCompleted (msg : option callCompletedPayload) : MR unit :=
  match msg with
  | None => ret tt
  | Some p => if is_empty (cc_SessionID p) && is_empty (cc_LeadID p) then ret tt
              else handleCallCompleted p
  end.

Definition createSiteVisit (p : siteVisitRequestedPayload) : MR unit :=
  if negb (cf_SiteVisitURL cfg) then ret tt
  else
    let! at_ := time_now in
    let! a := request (fun s => post_site_visit s
      (mkVisitBody (sq_TenantID p) (sq_LeadID p) (sq_ProjectID p)
         (whole_seconds (at_ + 48 * hour)) (whole_seconds (at_ + 49 * hour)))) in
    expect_ok "site-visit" a.

(** The key for duplicates, [event_id] or the message id of the bus, is only
    logged. *)
Definition onSiteVisitRequested (msg : option siteVisitRequestedPayload) : MR unit :=
  match msg with None => ret tt | Some p => createSiteVisit p end.

Definition enqueueCallback (p : callbackRequestedPayload) : MR unit :=
  if negb (cf_SchedulerURL cfg) then ret tt
  else
    let delayMin := if cq_DelayMin p <=? 0 then 30 else cq_DelayMin p in
    let! at_ := time_now in
    let! a := request (fun s => post_callback s
      (mkCallbackBody (cq_LeadID p) (cq_CampaignID p) (cq_TenantID p) (cq_Phone p) (cq_ProjectID p)
         (whole_seconds (at_ + wrap64 (delayMin * minute))) "call.callback.requested" (cq_EventID p))) in
    if a.1 =? 404 then ret tt else expect_ok "scheduler callback" a.

Definition onCallbackRequested (msg : option callbackRequestedPayload) : MR unit :=
  match msg with None => ret tt | Some p => enqueueCallback p end.

Definition createHandoff (p : handoverRequestedPayload) : MR unit :=
  if negb (cf_HandoffURL cfg) then ret tt
  else
    let! snapshotID := new_uuid in
    let! a := request (fun s => post_handoff s
      (mkHandoffBody (hq_TenantID p) (hq_LeadID p) (hq_Reason p) (hq_Summary p) snapshotID
         snapshotID (hq_TenantID p) (hq_LeadID p))) in
    expect_ok "handoff" a.

Definition onHandoverRequested (msg : option handoverRequestedPayload) : MR unit :=
  match msg with None => ret tt | Some p => createHandoff p end.
End Consumer.

(** ** The deployment

    The services of this development behind a network: the request number
    [n] arrives and is answered, does not arrive, or arrives while its reply is
    lost. *)

Inductive delivery := Delivered | RequestLost | ReplyLost.

(** [dp_route] is what the parser of URLs and the router make of an id that is
    pasted into a path: the id the handler receives, or the reply of a request
    that goes elsewhere. *)
Record DpEnv := mkDpEnv {
  dp_net : nat -> delivery;
  dp_route : string -> reply + string;
  dp_scoring : nat -> ScoreBody -> reply * (string + Z);
  dp_im : ImEnv;
  dp_kn : KnEnv;
  dp_sv : SvEnv;
  dp_ho : HoEnv
}.

Record Deployment (TL TK TV TH : Type) := mkDp {
  dp_leads : Im TL;
  dp_kb : Kn TK;
  dp_visits : Sv TV;
  dp_handoffs : Ho TH;
  dp_reqs : nat
}.
Arguments mkDp {TL TK TV TH}.
Arguments dp_leads {TL TK TV TH} d.
Arguments dp_kb {TL TK TV TH} d.
Arguments dp_visits {TL TK TV TH} d.
Arguments dp_handoffs {TL TK TV TH} d.
Arguments dp_reqs {TL TK TV TH} d.

(** [json.Decode] of the body of a claim: of its keys only [source] is a field
    of [ProjectClaim]. *)
Definition decode_claim (b : ClaimBody) : ProjectClaim :=
  mkClaim "" "" "" "" "" "" "" "" None None "" (cb_source b) time_zero time_zero.

Definition decode_visit (b : VisitBody) : CreateTentativeRequest :=
  mkTentative (vb_tenant_id b) (vb_lead_id b) (vb_project_id b) [mkSlot (vb_start b) (vb_end b)].

(** [ScoringSnapshot] has no JSON tags: the key [id] finds [ID], the keys
    [tenant_id] and [lead_id] find no field. *)
Definition decode_handoff (b : HandoffBody) : CreateHandoffRequest * option ScoringSnapshot :=
  (mkCreate (hb_tenant_id b) (hb_lead_id b) (hb_reason b) (hb_summary b) (hb_scoring_snapshot_id b),
   Some (mkSnap (hb_snapshot_id b) "" "" "" "" "" "" false)).

Definition error_text {A} (r : string + A) : string := match r with inl e => e | inr _ => "" end.

Section Deployed.
Context {TL TK TV TH : Type} `{!ImStore TL} `{!KbStore TK} `{!SvStore TV} `{!HoStore TH}.
Context (env : DpEnv).

Abbreviation D := (Deployment TL TK TV TH).

Definition transmit {A} (f : D -> D * A) (d : D) : D * (string + A) :=
  let sent := mkDp (dp_leads d) (dp_kb d) (dp_visits d) (dp_handoffs d) (S (dp_reqs d)) in
  match dp_net env (dp_reqs d) with
  | RequestLost => (sent, inl "connection refused"%string)
  | Delivered => let '(d', a) := f sent in (d', inr a)
  | ReplyLost => ((f sent).1, inl "context deadline exceeded"%string)
  end.

Definition dp_post_score (d : D) (b : ScoreBody) : D * (string + reply * (string + Z)) :=
  transmit (fun d => (d, dp_scoring env (dp_reqs d) b)) d.

(** PATCH /v1/leads/{id}/score. *)
Definition dp_patch_score (d : D) (tenantID leadID : string) (score : Z) : D * (string + reply) :=
  transmit (fun d =>
    match dp_route env leadID with
    | inl a => (d, a)
    | inr id =>
        let '(s, (status, r)) := handleUpdateLeadScore (dp_im env) tenantID id (Some score) (dp_leads d) in
        (mkDp s (dp_kb d) (dp_visits d) (dp_handoffs d) (dp_reqs d), (status, error_text r))
    end) d.

(** POST /v1/knowledge/projects/{id}/claims; the text of an error, which is
    only logged, is not part of the model of that service. *)
Definition dp_post_claim (d : D) (projectID : string) (b : ClaimBody) : D * (string + reply) :=
  transmit (fun d =>
    match dp_route env projectID with
    | inl a => (d, a)
    | inr id =>
        let '(s, (status, _)) := addClaim (dp_kn env) id (Some (decode_claim b)) (dp_kb d) in
        (mkDp (dp_leads d) s (dp_visits d) (dp_handoffs d) (dp_reqs d), (status, ""%string))
    end) d.

(** POST /v1/site-visits. *)
Definition dp_post_visit (d : D) (b : VisitBody) : D * (string + reply) :=
  transmit (fun d =>
    let '(s, (status, r)) := handleCreateTentative (dp_sv env) (Some (decode_visit b)) (dp_visits d) in
    (mkDp (dp_leads d) (dp_kb d) s (dp_handoffs d) (dp_reqs d), (status, error_text r))) d.

(** POST /v1/callbacks: the router of the scheduler has no such route. *)
Definition dp_post_callback (d : D) (b : CallbackBody) : D * (string + reply) :=
  transmit (fun d => (d, (404, "404 page not found"%string))) d.

(** POST /v1/handoffs/from-call. *)
Definition dp_post_handoff (d : D) (b : HandoffBody) : D * (string + reply) :=
  transmit (fun d =>
    let '(s, (status, r)) := handleCreateHandoffFromCall (dp_ho env) (Some (decode_handoff b)) (dp_handoffs d) in
    (mkDp (dp_leads d) (dp_kb d) (dp_visits d) s (dp_reqs d), (status, error_text r))) d.

#[export] Instance deployed_peers : CiPeers D := {
  post_score := dp_post_score;
  patch_lead_score := dp_patch_score;
  post_claim := dp_post_claim;
  post_site_visit := dp_post_visit;
  post_callback := dp_post_callback;
  post_handoff := dp_post_handoff
}.
End Deployed.
