(* ===== verification/CallIntelSafety.v ===== *)
(** * call-intel: the services after a call

    What a completed call does to the services it is reported to, first for
    any peers, then for the services of this development. *)

From S2P Require Import Prelude GoTime Float64 Kv GoMonad GoStrings.
From S2P Require Import LeadImportSafety KnowledgeSafety HandoffSafety SiteVisitSafety.
From S2P Require Import LeadImport Knowledge KnowledgeService.
From S2P Require Import Handoff HandoffService SiteVisit CallIntel.

Open Scope Z_scope.

(** ** A completed call, seen from the peers *)

Section AnyPeers.
Context {P : Type} `{!CiPeers P} (cfg : Config) (env : CiEnv).

(** The score to write back and the peers after they were asked for it. *)
Definition score_of (p : callCompletedPayload) (s : P) : P * Z :=
  if cf_ScoringURL cfg then
    let '(s', a) := post_score s
      (mkScoreBody (cc_SessionID p) (cc_LeadID p) (cc_TenantID p) (cc_Summary p) (cc_TurnCount p)
         (cc_DurationS p) (avg_confidence (cc_Transcript p))) in
    (s', match a with
         | inr (status, _, inr score) => if status <? 300 then score else cc_LeadScore p
         | _ => cc_LeadScore p
         end)
  else (s, cc_LeadScore p).

Definition after_score (p : callCompletedPayload) (s : P) : P :=
  let '(s1, score) := score_of p s in
  if cf_LeadImportURL cfg && negb (is_empty (cc_LeadID p))
  then (patch_lead_score s1 (cc_TenantID p) (cc_LeadID p) score).1 else s1.

Definition after_call (p : callCompletedPayload) (s : P) : P :=
  let s2 := after_score p s in
  if cf_KnowledgeURL cfg && negb (is_empty (cc_ProjectID p)) && negb (is_empty (cc_Summary p))
  then (post_claim s2 (cc_ProjectID p) (claim_body p)).1 else s2.

Lemma persist_peers p (r : Runner P) :
  exists r', logged (persist env p) r = (r', inr tt) /\ ci_peers r' = ci_peers r.
Proof.
  unfold logged. rewrite bind_run. unfold try, persist. destruct (ci_st r) as [s|]; [|by eexists].
  destruct (CiStore.saveTranscript _ _ _ _) as [s' [e|x]]; by eexists.
Qed.

(** A step whose error is logged, when it makes one request. *)
Lemma logged_request {A} (f : P -> P * (string + A)) (k : A -> M (Runner P) string unit) (r : Runner P) :
  (forall a r, (k a r).1 = r) ->
  exists r', logged (let! a := request f in k a) r = (r', inr tt) /\ ci_peers r' = (f (ci_peers r)).1.
Proof.
  intros Hk. unfold logged. rewrite bind_run. unfold try. rewrite bind_run. unfold request.
  destruct (f (ci_peers r)) as [s [e|a]]; [by eexists|].
  specialize (Hk a (mkRunner (ci_st r) s (ci_reads r) (ci_ids r))).
  destruct (k a _) as [r' b]. simpl in Hk. subst r'. by eexists.
Qed.

Lemma expect_ok_state what a (r : Runner P) : (expect_ok what a r).1 = r.
Proof. unfold expect_ok, ensure. by destruct (a.1 <? 300). Qed.

Lemma scoring_peers p (r : Runner P) :
  exists r' a, (if cf_ScoringURL cfg then try (callScoring p) else ret (inl ""%string)) r = (r', inr a) /\
    (ci_peers r', match a with inr s => s | inl _ => cc_LeadScore p end) = score_of p (ci_peers r).
Proof.
  unfold score_of. destruct (cf_ScoringURL cfg); [|by eexists _, _].
  unfold try, callScoring. rewrite bind_run. unfold request.
  destruct (post_score _ _) as [s [e|[[status text] d]]]; [by eexists _, _|].
  rewrite bind_run. unfold expect_ok, ensure. simpl. destruct (status <? 300); [|destruct d; by eexists _, _].
  destruct d; by eexists _, _.
Qed.

(** The message is acknowledged whatever happens, and each step reaches the
    peers in turn. *)
Lemma handleCallCompleted_peers p (r : Runner P) :
  exists r', handleCallCompleted cfg env p r = (r', inr tt) /\ ci_peers r' = after_call p (ci_peers r).
Proof.
  unfold handleCallCompleted. rewrite bind_run. destruct (persist_peers p r) as (r1 & -> & E1).
  rewrite bind_run. destruct (scoring_peers p r1) as (r2 & a & -> & E2). rewrite E1 in E2.
  rewrite bind_run. set (score := match a with inr s => s | inl _ => cc_LeadScore p end) in *.
  assert (H3 : exists r3, (if cf_LeadImportURL cfg && negb (is_empty (cc_LeadID p))
    then logged (patchLeadScore (cc_TenantID p) (cc_LeadID p) score) else ret tt) r2 = (r3, inr tt) /\
    ci_peers r3 = after_score p (ci_peers r)).
  { unfold after_score. rewrite <- E2. destruct (_ && _); [|by eexists].
    exact (logged_request (fun s => patch_lead_score s (cc_TenantID p) (cc_LeadID p) score)
      (expect_ok "lead score patch") r2 (expect_ok_state _)). }
  destruct H3 as (r3 & -> & E3). unfold after_call. rewrite <- E3.
  destruct (_ && _ && _); [|by eexists].
  exact (logged_request (fun s => post_claim s (cc_ProjectID p) (claim_body p)) (expect_ok "kb ingest") r3
    (expect_ok_state _)).
Qed.
End AnyPeers.

(** ** The services of this development *)

Abbreviation D := (Deployment PgIm.t PgKb.t PgSv.t PgHo.t).

Definition arrives (x : delivery) : Prop := x <> RequestLost.

Section Deployed.
Context (env : DpEnv).
#[local] Existing Instance deployed_peers.

Lemma transmit_arrives {A} (f : D -> D * A) (d : D) :
  arrives (dp_net env (dp_reqs d)) ->
  (transmit env f d).1 = (f (mkDp (dp_leads d) (dp_kb d) (dp_visits d) (dp_handoffs d) (S (dp_reqs d)))).1.
Proof.
  unfold transmit, arrives. destruct (dp_net env (dp_reqs d)); [|done|done].
  by destruct (f _).
Qed.

(** Asking for a score touches no service. *)
Lemma score_of_state cfg p (d : D) :
  let '(d', _) := score_of (CiPeers0 := deployed_peers env) cfg p d in
  dp_leads d' = dp_leads d /\ dp_kb d' = dp_kb d /\ dp_visits d' = dp_visits d /\
  dp_handoffs d' = dp_handoffs d /\
  dp_reqs d' = (if cf_ScoringURL cfg then S (dp_reqs d) else dp_reqs d).
Proof.
  unfold score_of. destruct (cf_ScoringURL cfg); [|done]. simpl. unfold dp_post_score, transmit.
  by destruct (dp_net env (dp_reqs d)).
Qed.

Definition leads_of (d : D) : gmap string Lead := kv_map (PgIm.leads (im_store (dp_leads d))).

(** The score a completed call is reported to have: that of the scoring
    service, or the one of the event when there is no usable answer. *)
Definition reported_score (cfg : Config) (p : callCompletedPayload) (n : nat) : Z :=
  let body := mkScoreBody (cc_SessionID p) (cc_LeadID p) (cc_TenantID p) (cc_Summary p) (cc_TurnCount p)
                (cc_DurationS p) (avg_confidence (cc_Transcript p)) in
  match cf_ScoringURL cfg, dp_net env n, dp_scoring env (S n) body with
  | true, Delivered, (status, _, inr score) => if status <? 300 then score else cc_LeadScore p
  | _, _, _ => cc_LeadScore p
  end.

Definition patch_request (cfg : Config) (n : nat) : nat := if cf_ScoringURL cfg then S n else n.

Lemma score_of_reported cfg p (d : D) :
  (score_of (CiPeers0 := deployed_peers env) cfg p d).2 = reported_score cfg p (dp_reqs d).
Proof.
  unfold score_of, reported_score. destruct (cf_ScoringURL cfg); [|done]. simpl. unfold dp_post_score, transmit.
  destruct (dp_net env (dp_reqs d)); simpl; [|done|done].
  by destruct (dp_scoring env (S (dp_reqs d)) _) as [[status text] [e|score]].
Qed.

Lemma patch_updates (w : Im PgIm.t) im tn lead score l :
  tn <> "" -> kv_up (PgIm.leads (im_store w)) = true ->
  kv_map (PgIm.leads (im_store w)) !! lead = Some l -> le_TenantID l = tn -> le_ID l = lead ->
  exists t, kv_map (PgIm.leads (im_store (handleUpdateLeadScore im tn lead (Some score) w).1))
            = <[lead := LeadImport.scored l score t]> (kv_map (PgIm.leads (im_store w))).
Proof.
  intros Ht U Hl Hlt Hid. unfold handleUpdateLeadScore, is_empty. rewrite bool_decide_false by done.
  unfold answering. rewrite bind_run. unfold LeadImport.st. cbn -[PgIm.updateLeadScore].
  unfold PgIm.updateLeadScore. rewrite kv_get_up, Hl, decide_True by done. unfold PgIm.put_lead.
  set (l' := LeadImport.scored _ _ _). destruct (kv_set_up (PgIm.leads (im_store w)) (le_ID l') l' U) as (ls & -> & _ & M).
  eexists. cbn. rewrite M. unfold l'. simpl. by rewrite Hid.
Qed.

Lemma claim_leaves_leads cfg p (d : D) :
  dp_leads (after_call (CiPeers0 := deployed_peers env) cfg p d)
  = dp_leads (after_score (CiPeers0 := deployed_peers env) cfg p d).
Proof.
  unfold after_call. destruct (_ && _ && _); [|done]. cbn [post_claim deployed_peers].
  unfold dp_post_claim, transmit. destruct (dp_net env _); [|done|]; (destruct (dp_route env _); [done|]);
    by destruct (addClaim _ _ _ _) as [? [? ?]].
Qed.
End Deployed.

(** C26: A completed call scores its lead.  The message is acknowledged, and the
    lead of the call has the score of the scoring service, or the score of the
    event when that service is not configured, cannot be reached, refuses or
    answers with something else; all other leads are as before.  Under these
    conditions: the URL of lead-import is configured and the event names a tenant
    and a lead; the request that reports the score arrives (its reply may be lost)
    and is routed to the lead; the lead store answers and has the lead under that
    tenant.  Without them the message is acknowledged too and the score is lost
    ([lost_score_is_acknowledged]). *)
Theorem completed_call_scores_lead env cfg ce p (r : Runner D) l :
  cf_LeadImportURL cfg = true -> cc_LeadID p <> "" -> cc_TenantID p <> "" ->
  arrives (dp_net env (patch_request cfg (dp_reqs (ci_peers r)))) -> dp_route env (cc_LeadID p) = inr (cc_LeadID p) ->
  kv_up (PgIm.leads (im_store (dp_leads (ci_peers r)))) = true ->
  leads_of (ci_peers r) !! cc_LeadID p = Some l -> le_ID l = cc_LeadID p -> le_TenantID l = cc_TenantID p ->
  exists r' t,
    onCallCompleted (CiPeers0 := deployed_peers env) cfg ce (Some p) r = (r', inr tt) /\
    leads_of (ci_peers r') = <[cc_LeadID p := LeadImport.scored l (reported_score env cfg p (dp_reqs (ci_peers r))) t]>
                               (leads_of (ci_peers r)).
Proof.
  intros Hc Hl Ht Hnet Hrt U Hlead Hid Hlt. unfold onCallCompleted, is_empty.
  rewrite (bool_decide_false (cc_LeadID p = "")), andb_false_r by done.
  destruct (handleCallCompleted_peers (CiPeers0 := deployed_peers env) cfg ce p r) as (r' & -> & E).
  exists r'. unfold leads_of. rewrite E, claim_leaves_leads. unfold after_score.
  pose proof (score_of_state env cfg p (ci_peers r)) as Hst.
  pose proof (score_of_reported env cfg p (ci_peers r)) as Hsc.
  destruct (score_of _ p _) as [d1 score]. destruct Hst as (El & _ & _ & _ & En). simpl in Hsc. subst score.
  unfold is_empty. rewrite Hc, bool_decide_false by done. cbn [andb negb patch_lead_score deployed_peers].
  unfold dp_patch_score. rewrite transmit_arrives by (by rewrite En).
  cbn [dp_leads]. rewrite Hrt, El.
  destruct (patch_updates (dp_leads (ci_peers r)) (dp_im env) _ _ (reported_score env cfg p (dp_reqs (ci_peers r))) l
    Ht U Hlead Hlt Hid) as [t Hm].
  exists t. split; [done|]. destruct (handleUpdateLeadScore _ _ _ _ _) as [s [status x]]. exact Hm.
Qed.

(** When the request that reports the score is lost on the way, the message is
    acknowledged all the same and every lead keeps its score. *)
Theorem lost_score_is_acknowledged env cfg ce p (r : Runner D) :
  dp_net env (patch_request cfg (dp_reqs (ci_peers r))) = RequestLost ->
  exists r', onCallCompleted (CiPeers0 := deployed_peers env) cfg ce (Some p) r = (r', inr tt) /\
    leads_of (ci_peers r') = leads_of (ci_peers r).
Proof.
  intros Hnet. unfold onCallCompleted. destruct (_ && _); [by eexists|].
  destruct (handleCallCompleted_peers (CiPeers0 := deployed_peers env) cfg ce p r) as (r' & -> & E).
  exists r'. split; [done|]. unfold leads_of. rewrite E, claim_leaves_leads. unfold after_score.
  pose proof (score_of_state env cfg p (ci_peers r)) as Hst.
  destruct (score_of _ p _) as [d1 score]. destruct Hst as (El & _ & _ & _ & En).
  destruct (_ && _); [|by rewrite El]. cbn [patch_lead_score deployed_peers].
  unfold dp_patch_score, transmit. rewrite En. fold (patch_request cfg (dp_reqs (ci_peers r))).
  rewrite Hnet. cbn [dp_leads fst]. by rewrite El.
Qed.

(** ** The claim a call summary becomes *)

(** A claim that is not approved, always in force, and whose phrase is empty. *)
Definition catch_all (projectID : string) (c : ProjectClaim) : Prop :=
  pc_ProjectID c = projectID /\ pc_Status c = ClaimStatusNeedsHumanApproval /\
  pc_PatternKind c = ClaimPatternPhrase /\ pc_Pattern c = ""%string /\
  pc_ValidFrom c = None /\ pc_ValidUntil c = None.

Lemma add_claim_catch_all kn projectID b (w : Kn PgKb.t) :
  kv_up (PgKb.project_claims (kn_store w)) = true ->
  exists c, catch_all projectID c /\
    c ∈ (kv_rows (PgKb.project_claims (kn_store (addClaim kn projectID (Some (decode_claim b)) w).1))).*2.
Proof.
  intros U. unfold addClaim, decoded, KnowledgeService.respond. rewrite bind_run. cbn [decode_claim pc_TenantID].
  unfold is_empty at 1. rewrite bool_decide_true by done. unfold KnowledgeService.rd_opt.
  unfold SaveClaim_service. rewrite bind_run. unfold KnowledgeService.st. cbn [SaveClaim pg_kb_store].
  unfold PgKb.saveClaim. set (c := stamp_claim _ _ _). unfold PgKb.put, kv_set, kv_put. rewrite U.
  exists c. split; [by split_and!|]. cbn -[rows_put].
  apply list_elem_of_fmap. exists (pc_ID c, c). split; [done|]. apply rows_get_in, rows_get_put_eq.
Qed.

(** Claim control lets no text of the project pass while such a claim stands. *)
Lemma catch_all_blocks kn (w w' : Kn PgKb.t) c req resp :
  catch_all (cr_ProjectID req) c -> c ∈ (kv_rows (PgKb.project_claims (kn_store w))).*2 ->
  is_empty (trim_space (cr_Text req)) = false ->
  Check kn req w = (w', inr resp) -> cs_OK resp = false.
Proof.
  intros (Hp & Hst & Hk & Hpat & Hf & Hu) Hin Ht Hrun. unfold Check in Hrun. rewrite Ht in Hrun.
  apply bind_ok in Hrun as (w1 & project & [= <- <-] & Hrun).
  apply bind_ok in Hrun as (w2 & cs & Hcs & Hrun).
  apply active_claims_spec in Hcs as (_ & ds & gs & ls & _ & Hl & _ & _ & Hcs).
  apply bind_ok in Hrun as (w3 & hard & Hh & Hrun).
  destruct hard as [[v repl]|]; [by apply block_not_ok in Hrun|]. exfalso.
  apply hard_blocks_none in Hh as [_ Hhard].
  assert (Hc : c ∈ cs).
  { apply Hcs. right. apply elem_of_app. right. cbn in Hl. unfold PgKb.listClaims, PgKb.listed, kv_list in Hl.
    destruct (kv_up _); [|done]. injection Hl as <-. apply list_elem_of_In, List.filter_In.
    split; [by apply list_elem_of_In|]. unfold eqs. by apply bool_decide_eq_true. }
  destruct (Hhard c Hc) as [Hm _]; [by rewrite Hst| |].
  - intros n. unfold in_force. by rewrite Hf, Hu.
  - unfold matchText, eqs in Hm. rewrite Hk, Hpat in Hm. simpl in Hm. unfold contains in Hm.
    by destruct (to_lower (trim_space (cr_Text req))).
Qed.

(** A call summary silences its project.  The summary of a completed call
    is posted to the knowledge service as a claim under keys that service does
    not know, which leaves a claim with an empty phrase waiting for approval; from
    then on claim control refuses every text of the project. *)
Theorem call_summary_silences_project env cfg ce p (r : Runner D) :
  cf_KnowledgeURL cfg = true -> cc_ProjectID p <> "" -> cc_Summary p <> "" -> cc_LeadID p <> "" ->
  (forall n, arrives (dp_net env n)) -> dp_route env (cc_ProjectID p) = inr (cc_ProjectID p) ->
  kv_up (PgKb.project_claims (kn_store (dp_kb (ci_peers r)))) = true ->
  exists r', onCallCompleted (CiPeers0 := deployed_peers env) cfg ce (Some p) r = (r', inr tt) /\
    forall req w' resp,
      cr_ProjectID req = cc_ProjectID p -> is_empty (trim_space (cr_Text req)) = false ->
      Check (dp_kn env) req (dp_kb (ci_peers r')) = (w', inr resp) -> cs_OK resp = false.
Proof.
  intros Hc Hp Hs Hl Hnet Hrt U. unfold onCallCompleted, is_empty at 1 2.
  rewrite (bool_decide_false (cc_LeadID p = "")), andb_false_r by done.
  destruct (handleCallCompleted_peers (CiPeers0 := deployed_peers env) cfg ce p r) as (r' & -> & E).
  exists r'. split; [done|]. intros req w' resp Hreq Ht Hrun. rewrite E in Hrun.
  assert (Hkb : dp_kb (after_score (CiPeers0 := deployed_peers env) cfg p (ci_peers r)) = dp_kb (ci_peers r)).
  { unfold after_score. pose proof (score_of_state env cfg p (ci_peers r)) as Hst.
    destruct (score_of _ p _) as [d1 score]. destruct Hst as (_ & <- & _).
    destruct (_ && _); [|done]. cbn [patch_lead_score deployed_peers]. unfold dp_patch_score.
    rewrite transmit_arrives by done. destruct (dp_route env (cc_LeadID p)); [done|]. by destruct (handleUpdateLeadScore _ _ _ _ _) as [? [? ?]]. }
  unfold after_call in Hrun. set (d2 := after_score _ _ _) in *. unfold is_empty in Hrun.
  rewrite Hc, !bool_decide_false in Hrun by done.
  cbn [andb negb post_claim deployed_peers] in Hrun. unfold dp_post_claim in Hrun.
  rewrite transmit_arrives in Hrun by done. cbn [dp_kb] in Hrun. rewrite Hrt, Hkb in Hrun.
  destruct (add_claim_catch_all (dp_kn env) (cc_ProjectID p) (claim_body p) (dp_kb (ci_peers r)) U)
    as (c & Hca & Hin). rewrite <- Hreq in Hca.
  destruct (addClaim _ _ _ _) as [s [status x]]. eapply catch_all_blocks; [exact Hca|exact Hin|exact Ht|exact Hrun].
Qed.

(** ** Handovers *)

Definition handoffs_of (d : D) : kv Handoff := PgHo.handoffs (ho_store (dp_handoffs d)).

(** Every salesperson belongs to a team. *)
Definition teams_only (w : Ho PgHo.t) : Prop :=
  Forall (fun r => sp_TeamID r <> ""%string) (kv_rows (PgHo.salespeople (ho_store w))).*2.

(** Without a team there is nobody to choose from. *)
Lemma no_rep_without_team (w : Ho PgHo.t) tn reps :
  teams_only w -> ListSalespeople (ho_store w) tn "" = inr reps -> reps = [].
Proof.
  unfold teams_only. intros Ht H. cbn in H. unfold PgHo.listSalespeople, kv_list in H.
  destruct (kv_up _); [|done]. injection H as <-.
  assert (E : List.filter (in_team tn "") (kv_rows (PgHo.salespeople (ho_store w))).*2 = []); [|by rewrite E].
  induction Ht as [|r l Hr _ IH]; [done|]. simpl. unfold in_team at 1.
  by rewrite (bool_decide_false (sp_TeamID r = "")), andb_false_r by done.
Qed.

Lemma create_without_team ho (w : Ho PgHo.t) req snap :
  teams_only w -> ss_TeamID snap = ""%string -> not_a_buyer snap = false ->
  (chr_ScoringSnapshotID req <> ""%string ->
   forall s, GetScoringSnapshot (ho_store w) (chr_ScoringSnapshotID req) = inr s -> s = snap) ->
  exists e w', CreateHandoff ho req w = (w', inl e) /\ ho_store w' = ho_store w.
Proof.
  intros Ht Hs Hb Hg. unfold CreateHandoff. rewrite bind_run. unfold ensure.
  destruct (is_empty (chr_LeadID req)); [by eexists _, _|]. unfold is_empty in *.
  case_bool_decide as E; [by eexists _, _|]. cbn -[ListSalespeople Select GetScoringSnapshot].
  destruct (GetScoringSnapshot _ _) as [e|s]; [by eexists _, _|]. rewrite (Hg E s eq_refl), Hb, bind_run.
  unfold HandoffService.rd at 1. cbn [ho_store]. rewrite Hs.
  destruct (ListSalespeople (ho_store w) _ _) as [e|reps] eqn:El; [by eexists _, _|].
  rewrite (no_rep_without_team w _ reps Ht El), bind_run. by eexists _, _.
Qed.

Lemma from_call_fails ho (w : Ho PgHo.t) b :
  teams_only w ->
  exists w' status e, handleCreateHandoffFromCall ho (Some (decode_handoff b)) w = (w', (status, inl e)) /\
    300 <= status /\ PgHo.handoffs (ho_store w') = PgHo.handoffs (ho_store w).
Proof.
  intros Ht. unfold handleCreateHandoffFromCall, decode_handoff.
  unfold HandoffService.st. cbn [SaveScoringSnapshot pg_ho_store]. unfold PgHo.saveScoringSnapshot.
  set (snap := stamp_snapshot _ _). destruct (kv_set _ (ss_ID snap) snap) as [c o] eqn:Ec.
  destruct o as [e|]; cbn -[CreateHandoff]; [by eexists _, 500, _|].
  unfold HandoffService.respond, with_snapshot_id. cbn -[CreateHandoff]. set (w1 := mkHo _ _ _).
  destruct (create_without_team ho w1 (mkCreate (hb_tenant_id b) (hb_lead_id b) (hb_reason b) (hb_summary b)
    (hb_snapshot_id b)) snap) as (e & w2 & -> & Hw2);
    [done..| |by exists w2, 400, e; rewrite Hw2].
  intros Hid s Hg. cbn in Hid, Hg. unfold PgHo.getScoringSnapshot in Hg. cbn in Hg.
  assert (Es : ss_ID snap = hb_snapshot_id b) by (unfold snap; cbn; unfold or_new, is_empty; by rewrite bool_decide_false).
  rewrite Es in Ec. unfold kv_set, kv_put in Ec. destruct (kv_up _) eqn:U; [|done]. injection Ec as <-.
  unfold kv_get in Hg. cbn -[rows_get rows_put] in Hg. rewrite ?rows_get_put_eq in Hg. congruence.
Qed.

(** A handover reaches nobody.  The snapshot sent with the request of a caller
    to speak to a person names no team, so where every salesperson belongs to
    one the message is never accepted, and no handoff is stored. *)
Theorem handover_reaches_nobody env cfg ce msg (r : Runner D) :
  cf_HandoffURL cfg = true -> teams_only (dp_handoffs (ci_peers r)) ->
  exists r' e, onHandoverRequested (CiPeers0 := deployed_peers env) cfg ce (Some msg) r = (r', inl e) /\
    handoffs_of (ci_peers r') = handoffs_of (ci_peers r).
Proof.
  intros Hc Ht. unfold onHandoverRequested, createHandoff. rewrite Hc. cbn [negb]. rewrite !bind_run.
  unfold new_uuid. rewrite bind_run. unfold request. cbn [ci_peers post_handoff deployed_peers].
  set (b := mkHandoffBody _ _ _ _ _ _ _ _). unfold dp_post_handoff, transmit. cbn [dp_handoffs].
  destruct (from_call_fails (dp_ho env) (dp_handoffs (ci_peers r)) b Ht) as (w' & status & e & E & Hs & Hw).
  rewrite E. destruct (dp_net env _); [|by eexists _, _..].
  unfold expect_ok, ensure. cbn [fst snd]. rewrite (proj2 (Z.ltb_ge status 300)) by done. by eexists _, _.
Qed.

(** ** A sample deployment *)

Definition all_urls : Config := mkConfig true true true true true true.

(** The scoring service answers 80. *)
Definition ci_dp (net : nat -> delivery) : DpEnv :=
  mkDpEnv net inr (fun _ _ => ((200, ""%string), inr 80)) sample_env quiet_env sv_env demo_env.

Definition ci_env : CiEnv := mkCiEnv (fun n => Z.of_nat n * second) itoa.

Definition caller : Lead := mkLead "lead-1" "acme" "c1" "s1" "new" 10 "" 0 0.

Definition ci_dp_start : D :=
  mkDp (mkIm (PgIm.mk kv_empty kv_empty kv_empty (mkKv [("lead-1"%string, caller)] true) kv_empty kv_empty kv_empty) 0 0 0)
    (mkKn PgKb.empty [] 0 0) sv_start demo_start 0.

Definition ci_start : Runner D := mkRunner (Some (CiStore.mk kv_empty kv_empty)) ci_dp_start 0 0.

Definition call_1 : callCompletedPayload :=
  mkCompleted "e1" "s1" "acme" "camp" "lead-1" "p1" "interested" "done" "wants two rooms" "warm" 55
    f_zero 0 [].

Definition fine_net : nat -> delivery := fun _ => Delivered.

Lemma completed_call_scores_lead_witness :
  exists r' t, onCallCompleted (CiPeers0 := deployed_peers (ci_dp fine_net)) all_urls ci_env (Some call_1) ci_start
               = (r', inr tt) /\
    leads_of (ci_peers r') !! "lead-1"%string = Some (LeadImport.scored caller 80 t).
Proof.
  destruct (completed_call_scores_lead (ci_dp fine_net) all_urls ci_env call_1 ci_start caller)
    as (r' & t & E & M); [done..|].
  exists r', t. split; [exact E|]. rewrite M. apply lookup_insert_eq.
Defined.

Lemma call_summary_silences_project_witness :
  exists r' w' resp,
    onCallCompleted (CiPeers0 := deployed_peers (ci_dp fine_net)) all_urls ci_env (Some call_1) ci_start
    = (r', inr tt) /\
    Check quiet_env (ask "good morning") (dp_kb (ci_peers r')) = (w', inr resp) /\ cs_OK resp = false.
Proof.
  destruct (call_summary_silences_project (ci_dp fine_net) all_urls ci_env call_1 ci_start) as (r' & E & H);
    [done..|].
  destruct (Check quiet_env (ask "good morning") (dp_kb (ci_peers r'))) as [w' [e|resp]] eqn:Ec.
  - exfalso. assert (X : exists resp, (Check quiet_env (ask "good morning")
      (dp_kb (ci_peers (onCallCompleted (CiPeers0 := deployed_peers (ci_dp fine_net)) all_urls ci_env
        (Some call_1) ci_start).1))).2 = inr resp) by (vm_compute; eexists; reflexivity).
    rewrite E in X. cbn [fst] in X. destruct X as [resp X]. rewrite Ec in X. discriminate X.
  - exists r', w', resp. split; [exact E|]. split; [exact Ec|].
    apply (H (ask "good morning") w' resp); [reflexivity|vm_compute; reflexivity|exact Ec].
Defined.

(** ** Messages that are delivered twice *)

Definition visit_call : siteVisitRequestedPayload := mkVisitRequested "e2" "s1" "acme" "lead-1" "p1" "asked".

(** The reply to the first request is lost: the message comes back and the
    visit is booked a second time, although both carry the same event id. *)
Theorem redelivered_request_books_two_visits :
  let env := ci_dp (fun n => if decide (n = 0%nat) then ReplyLost else Delivered) in
  let book := onSiteVisitRequested (CiPeers0 := deployed_peers env) all_urls ci_env (Some visit_call) in
  exists r1 e r2, book ci_start = (r1, inl e) /\ book r1 = (r2, inr tt) /\
    size (visits_of (dp_visits (ci_peers r2))) = 2%nat.
Proof.
  intros env book. exists (book ci_start).1, "context deadline exceeded"%string, (book (book ci_start).1).1.
  split; [vm_compute; reflexivity|]. split; vm_compute; reflexivity.
Qed.

(** A completed call delivered twice is stored under two ids. *)
Theorem redelivered_call_is_stored_twice :
  let done_ := onCallCompleted (CiPeers0 := deployed_peers (ci_dp fine_net)) all_urls ci_env (Some call_1) in
  exists s x y, ci_st (done_ (done_ ci_start).1).1 = Some s /\
    (kv_rows (CiStore.transcripts s)).*2 = [x; y] /\ tr_SessionID x = tr_SessionID y /\ tr_ID x <> tr_ID y.
Proof.
  intros done_. destruct (ci_st (done_ (done_ ci_start).1).1) as [s|] eqn:E; [|by vm_compute in E].
  vm_compute in E. injection E as <-. eexists _, _, _. by split_and!.
Qed.

(** A callback is never enqueued: the message is acknowledged, and the services
    are as before. *)
Theorem callback_is_dropped env cfg ce p (r : Runner D) :
  (forall n, dp_net env n = Delivered) ->
  exists r', onCallbackRequested (CiPeers0 := deployed_peers env) cfg ce (Some p) r = (r', inr tt) /\
    dp_leads (ci_peers r') = dp_leads (ci_peers r) /\ dp_kb (ci_peers r') = dp_kb (ci_peers r) /\
    dp_visits (ci_peers r') = dp_visits (ci_peers r) /\ dp_handoffs (ci_peers r') = dp_handoffs (ci_peers r).
Proof.
  intros Hn. unfold onCallbackRequested, enqueueCallback. destruct (cf_SchedulerURL cfg); [|by eexists].
  cbn [negb]. rewrite bind_run. unfold time_now. rewrite bind_run. unfold request.
  cbn [ci_peers post_callback deployed_peers]. unfold dp_post_callback, transmit. rewrite Hn. by eexists.
Qed.
