(* ===== verification/ModelConfig.v ===== *)
(** * model-config: which engines the calls of a tenant use

    [services/model-config/internal]: the registry of engines, the key-value
    store of selections, the service and its handlers.  The wall clock and the
    order in which a Go map is ranged over come from [McEnv]. *)

From S2P Require Import Prelude GoTime Float64 Kv GoMonad GoStrings.

Open Scope Z_scope.

(** ** Engines *)

Inductive EngineKind := KindLLM | KindSTT | KindTTS.
Inductive EngineType := EngineAPI | EngineSelfHosted.

#[export] Instance EngineKind_eq_dec : EqDecision EngineKind.
Proof. solve_decision. Defined.

Definition kind_name (k : EngineKind) : string :=
  match k with KindLLM => "llm" | KindSTT => "stt" | KindTTS => "tts" end.

Record Engine := mkEngine {
  en_ID : string;
  en_Name : string;
  en_Kind : EngineKind;
  en_Type : EngineType;
  en_CostPerCallINR : float64;
  en_RequiresGPU : bool;
  en_EndpointEnvVar : string
}.

Record GlobalSelection := mkSel { gs_LLM : string; gs_STT : string; gs_TTS : string }.

Record TenantOverride := mkOverride {
  to_TenantID : string;
  to_LLM : string;
  to_STT : string;
  to_TTS : string;
  to_UpdatedAt : Z
}.

Record CurrentConfig := mkCurrent { cu_Global : GlobalSelection; cu_Tenants : list TenantOverride }.
Record AvailableModels := mkAvailable { av_LLM : list Engine; av_STT : list Engine; av_TTS : list Engine }.

Record EngineHealth := mkHealth {
  eh_ID : string;
  eh_Name : string;
  eh_Kind : EngineKind;
  eh_Online : bool;
  eh_Status : string;
  eh_LatencyMS : Z;
  eh_P95LatencyMS : Z;
  eh_RequiresGPU : bool;
  eh_EndpointEnvVar : string;
  eh_Warning : string
}.

(** ** The registry *)

Definition DefaultLLM : string := "groq_llama".
Definition DefaultSTT : string := "sarvam".
Definition DefaultTTS : string := "sarvam_bulbul".

(** Costs are written in paise. *)
Definition paise (n : Z) : float64 := f_dec n 2.

Definition engines : list Engine := [
  mkEngine "groq_llama" "Groq Llama 3.x" KindLLM EngineAPI (paise 11) false "GROQ_API_KEY";
  mkEngine "qwen3_32b" "Qwen3 32B vLLM" KindLLM EngineSelfHosted (paise 4) true "QWEN3_32B_VLLM_URL";
  mkEngine "llama3_70b" "Llama 3.3 70B Q4 vLLM" KindLLM EngineSelfHosted (paise 8) true "LLAMA3_70B_VLLM_URL";
  mkEngine "mistral_7b" "Mistral 7B vLLM" KindLLM EngineSelfHosted (paise 2) true "MISTRAL_7B_VLLM_URL";
  mkEngine "sarvam_105b" "Sarvam 105B" KindLLM EngineAPI (paise 16) false "SARVAM_API_KEY";
  mkEngine "openai_gpt4o" "OpenAI GPT-4o" KindLLM EngineAPI (paise 42) false "OPENAI_API_KEY";
  mkEngine "anthropic_claude" "Anthropic Claude Sonnet" KindLLM EngineAPI (paise 48) false "ANTHROPIC_API_KEY";
  mkEngine "google_gemini" "Google Gemini Flash" KindLLM EngineAPI (paise 19) false "GOOGLE_GEMINI_API_KEY";
  mkEngine "openrouter" "OpenRouter" KindLLM EngineAPI (paise 22) false "OPENROUTER_API_KEY";
  mkEngine "sarvam" "Sarvam Saarika" KindSTT EngineAPI (paise 5) false "SARVAM_API_KEY";
  mkEngine "indicconformer" "AI4Bharat IndicConformer" KindSTT EngineSelfHosted (paise 1) false "INDICCONFORMER_URL";
  mkEngine "faster_whisper" "faster-whisper" KindSTT EngineSelfHosted (paise 2) true "FASTER_WHISPER_URL";
  mkEngine "groq_whisper" "Groq Whisper" KindSTT EngineAPI (paise 7) false "GROQ_API_KEY";
  mkEngine "sarvam_bulbul" "Sarvam Bulbul" KindTTS EngineAPI (paise 5) false "SARVAM_API_KEY";
  mkEngine "indic_parler" "Indic Parler-TTS" KindTTS EngineSelfHosted (paise 2) true "INDIC_PARLER_URL";
  mkEngine "indicf5" "IndicF5" KindTTS EngineSelfHosted (paise 3) true "INDICF5_URL";
  mkEngine "kokoro" "Kokoro TTS" KindTTS EngineSelfHosted (paise 1) false "KOKORO_URL";
  mkEngine "elevenlabs" "ElevenLabs" KindTTS EngineAPI (paise 28) false "ELEVENLABS_API_KEY"
]%string.

Definition All : list Engine := engines.

Definition ByKind (kind : EngineKind) : list Engine :=
  List.filter (fun e => bool_decide (en_Kind e = kind)) engines.

Definition Available : AvailableModels := mkAvailable (ByKind KindLLM) (ByKind KindSTT) (ByKind KindTTS).

Definition Find (kind : EngineKind) (id : string) : option Engine :=
  List.find (fun e => bool_decide (en_Kind e = kind) && bool_decide (en_ID e = id)) engines.

Definition Validate (kind : EngineKind) (id : string) : error :=
  if is_empty id then Some (kind_name kind ++ " model is required")%string
  else match Find kind id with
       | None => Some ("unsupported " ++ kind_name kind ++ " model " ++ quote id)%string
       | Some _ => None
       end.

Definition ValidateIfSet (kind : EngineKind) (id : string) : error :=
  if is_empty id then None else Validate kind id.

(** ** Stores *)

Class McStore (T : Type) := {
  Get : T -> string -> string + option string;
  Set_ : T -> string -> string -> T * error;
  Delete : T -> string -> T * error;
  Keys : T -> string -> string + gmap string string
}.

Definition with_prefix (prefix : string) (m : gmap string string) : gmap string string :=
  filter (fun kv => has_prefix kv.1 prefix = true) m.

Module FakeMc.

Definition t : Type := gmap string string.
Definition NewFake : t := ∅.
Definition get (f : t) (key : string) : string + option string := inr (f !! key).
Definition set (f : t) (key value : string) : t * error := (<[key := value]> f, None).
Definition delete_ (f : t) (key : string) : t * error := (delete key f, None).
Definition keys (f : t) (prefix : string) : string + gmap string string := inr (with_prefix prefix f).

End FakeMc.

Module PgMc.

(** The collection [config]. *)
Record t := mk { config : kv string }.

Definition empty : t := mk kv_empty.

Definition get (p : t) (key : string) : string + option string :=
  match kv_get (config p) key with Err e => inl e | Ok v => inr v end.

Definition set (p : t) (key value : string) : t * error :=
  let '(c, e) := kv_set (config p) key value in (mk c, e).

Definition delete_ (p : t) (key : string) : t * error :=
  match kv_delete (config p) key with Err e => (p, Some e) | Ok c => (mk c, None) end.

(** [pgkv.Map] and the loop over its result. *)
Definition keys (p : t) (prefix : string) : string + gmap string string :=
  if kv_up (config p) then inr (with_prefix prefix (kv_map (config p))) else inl "pgkv: map"%string.

End PgMc.

#[export] Instance fake_mc_store : McStore FakeMc.t := {
  Get := FakeMc.get; Set_ := FakeMc.set; Delete := FakeMc.delete_; Keys := FakeMc.keys
}.

#[export] Instance pg_mc_store : McStore PgMc.t := {
  Get := PgMc.get; Set_ := PgMc.set; Delete := PgMc.delete_; Keys := PgMc.keys
}.

(** ** The service *)

Definition keyLLMGlobal : string := "llm:global_model".
Definition keySTTGlobal : string := "stt:global_engine".
Definition keyTTSGlobal : string := "tts:global_engine".

(** The parts of a key around the tenant. *)
Definition slot_prefix (k : EngineKind) : string :=
  match k with KindLLM => "llm:tenant:" | KindSTT => "stt:tenant:" | KindTTS => "tts:tenant:" end.

Definition slot_suffix (k : EngineKind) : string :=
  match k with KindLLM => ":model" | _ => ":engine" end.

Definition tenant_key (k : EngineKind) (tenantID : string) : string :=
  (slot_prefix k ++ tenantID ++ slot_suffix k)%string.

Record McEnv := mkMcEnv {
  e_now : nat -> Z;
  e_getenv : string -> string;
  e_range : forall {A}, nat -> gmap string A -> list (string * A)
}.

Record Mc (T : Type) := mkMc { mc_store : T; mc_reads : nat; mc_ranges : nat }.
Arguments mkMc {T}.
Arguments mc_store {T} m.
Arguments mc_reads {T} m.
Arguments mc_ranges {T} m.

Definition set_slot (k : EngineKind) (value : string) (o : TenantOverride) : TenantOverride :=
  match k with
  | KindLLM => mkOverride (to_TenantID o) value (to_STT o) (to_TTS o) (to_UpdatedAt o)
  | KindSTT => mkOverride (to_TenantID o) (to_LLM o) value (to_TTS o) (to_UpdatedAt o)
  | KindTTS => mkOverride (to_TenantID o) (to_LLM o) (to_STT o) value (to_UpdatedAt o)
  end.

Definition tenant_less (a b : TenantOverride) : bool := String.ltb (to_TenantID a) (to_TenantID b).

Section Service.
Context {T : Type} `{!McStore T} (env : McEnv).

Abbreviation W := (Mc T).
Abbreviation MM := (M W string).

Definition rd {A} (f : T -> string + A) : MM A := fun w => (w, f (mc_store w)).
Definition wr (f : T -> T * error) : MM unit := fun w =>
  let '(s, e) := f (mc_store w) in
  (mkMc s (mc_reads w) (mc_ranges w), match e with Some e => inl e | None => inr tt end).
Definition now : MM Z := fun w =>
  (mkMc (mc_store w) (S (mc_reads w)) (mc_ranges w), inr (e_now env (mc_reads w))).
Definition range {A} (m : gmap string A) : MM (list (string * A)) := fun w =>
  (mkMc (mc_store w) (mc_reads w) (S (mc_ranges w)), inr (e_range env (mc_ranges w) m)).
Definition check (e : error) : MM unit := fun w => (w, match e with Some e => inl e | None => inr tt end).

Definition valueOrDefault (key fallback : string) : MM string :=
  let! v := rd (fun s => Get s key) in
  ret (match v with Some v => first_nonempty v fallback | None => fallback end).

Definition global : MM GlobalSelection :=
  let! llm := valueOrDefault keyLLMGlobal DefaultLLM in
  let! stt := valueOrDefault keySTTGlobal DefaultSTT in
  let! tts := valueOrDefault keyTTSGlobal DefaultTTS in
  ret (mkSel llm stt tts).

(** The body of the loop of [collectTenantKeys]. *)
Definition collect_key (kind : EngineKind) (overrides : gmap string TenantOverride) (key value : string)
    : MM (gmap string TenantOverride) :=
  if negb (has_suffix key (slot_suffix kind)) then ret overrides
  else
    let tenantID := trim_suffix (trim_prefix key (slot_prefix kind)) (slot_suffix kind) in
    if is_empty tenantID then ret overrides
    else match overrides !! tenantID with
         | Some o => ret (<[tenantID := set_slot kind value o]> overrides)
         | None =>
             let! at_ := now in
             ret (<[tenantID := set_slot kind value (mkOverride tenantID "" "" "" at_)]> overrides)
         end.

Fixpoint collect_loop (kind : EngineKind) (overrides : gmap string TenantOverride)
    (l : list (string * string)) : MM (gmap string TenantOverride) :=
  match l with
  | [] => ret overrides
  | (key, value) :: l' =>
      let! overrides := collect_key kind overrides key value in collect_loop kind overrides l'
  end.

Definition collectTenantKeys (kind : EngineKind) (overrides : gmap string TenantOverride)
    : MM (gmap string TenantOverride) :=
  let! keys := rd (fun s => Keys s (slot_prefix kind)) in
  let! l := range keys in
  collect_loop kind overrides l.

Definition Current : MM CurrentConfig :=
  let! g := global in
  let! o := collectTenantKeys KindLLM ∅ in
  let! o := collectTenantKeys KindSTT o in
  let! o := collectTenantKeys KindTTS o in
  let! l := range o in
  ret (mkCurrent g (sort_by tenant_less l.*2)).

Definition validateSelection (s : GlobalSelection) : error :=
  match Validate KindLLM (gs_LLM s) with
  | Some e => Some e
  | None => match Validate KindSTT (gs_STT s) with
            | Some e => Some e
            | None => Validate KindTTS (gs_TTS s)
            end
  end.

Definition UpdateGlobal (selection : GlobalSelection) : MM unit :=
  let! _ := check (validateSelection selection) in
  let! _ := wr (fun s => Set_ s keyLLMGlobal (gs_LLM selection)) in
  let! _ := wr (fun s => Set_ s keySTTGlobal (gs_STT selection)) in
  wr (fun s => Set_ s keyTTSGlobal (gs_TTS selection)).

Definition writeOptional (key value : string) : MM unit :=
  if is_empty value then wr (fun s => Delete s key) else wr (fun s => Set_ s key value).

Definition UpdateTenant (tenantID : string) (sel : GlobalSelection) : MM TenantOverride :=
  let! _ := ensure (negb (is_empty (trim_space tenantID))) "tenant id is required"%string in
  let! _ := ensure (negb (is_empty (gs_LLM sel) && is_empty (gs_STT sel) && is_empty (gs_TTS sel)))
              "at least one override is required"%string in
  let! _ := check (ValidateIfSet KindLLM (gs_LLM sel)) in
  let! _ := check (ValidateIfSet KindSTT (gs_STT sel)) in
  let! _ := check (ValidateIfSet KindTTS (gs_TTS sel)) in
  let! _ := writeOptional (tenant_key KindLLM tenantID) (gs_LLM sel) in
  let! _ := writeOptional (tenant_key KindSTT tenantID) (gs_STT sel) in
  let! _ := writeOptional (tenant_key KindTTS tenantID) (gs_TTS sel) in
  let! at_ := now in
  ret (mkOverride tenantID (gs_LLM sel) (gs_STT sel) (gs_TTS sel) at_).

Definition DeleteTenant (tenantID : string) : MM unit :=
  let! _ := ensure (negb (is_empty (trim_space tenantID))) "tenant id is required"%string in
  let! _ := wr (fun s => Delete s (tenant_key KindLLM tenantID)) in
  let! _ := wr (fun s => Delete s (tenant_key KindSTT tenantID)) in
  wr (fun s => Delete s (tenant_key KindTTS tenantID)).

(** [idx % 7 * 18] groups from the left. *)
Definition engine_health (idx : nat) (e : Engine) : EngineHealth :=
  let online := negb (is_empty (e_getenv env (en_EndpointEnvVar e))) in
  let latency := if online
                 then 70 + Z.of_nat idx mod 7 * 18 + match en_Type e with EngineSelfHosted => 85 | _ => 0 end
                 else 0 in
  mkHealth (en_ID e) (en_Name e) (en_Kind e) online (if online then "online" else "offline") latency
    (latency + 35) (en_RequiresGPU e) (en_EndpointEnvVar e)
    (if en_RequiresGPU e && negb online then "GPU model endpoint is not reachable" else "").

Definition Health : list EngineHealth := imap engine_health All.

(** ** Handlers

    [admin] and [actor] are the headers [X-Admin-Role] and [X-Actor-Role]; a
    body is [None] when it is not the expected JSON. *)

Inductive body :=
  | BError (msg : string)
  | BOk
  | BConfig (c : CurrentConfig)
  | BOverride (o : TenantOverride)
  | BModels (a : AvailableModels)
  | BHealth (l : list EngineHealth).

Definition requireSuperAdmin (admin actor : string) : bool :=
  bool_decide (first_nonempty admin actor = "super_admin"%string).

Definition respond {A} (m : MM A) (f : A -> body) (err : Z) (w : W) : W * (Z * body) :=
  let '(w', r) := m w in (w', match r with inl e => (err, BError e) | inr a => (200, f a) end).

Definition guarded (admin actor : string) (h : W -> W * (Z * body)) (w : W) : W * (Z * body) :=
  if requireSuperAdmin admin actor then h w else (w, (403, BError "super_admin role required")).

Definition invalid_json (w : W) : W * (Z * body) := (w, (400, BError "invalid json")).

Definition handleCurrent (admin actor : string) : W -> W * (Z * body) :=
  guarded admin actor (respond Current BConfig 500).

Definition handleUpdateGlobal (admin actor : string) (req : option GlobalSelection) : W -> W * (Z * body) :=
  guarded admin actor (match req with
    | None => invalid_json
    | Some sel => respond (UpdateGlobal sel) (fun _ => BOk) 400
    end).

Definition handleUpdateTenant (admin actor id : string) (req : option GlobalSelection)
    : W -> W * (Z * body) :=
  guarded admin actor (match req with
    | None => invalid_json
    | Some sel => respond (UpdateTenant id sel) BOverride 400
    end).

Definition handleDeleteTenant (admin actor id : string) : W -> W * (Z * body) :=
  guarded admin actor (respond (DeleteTenant id) (fun _ => BOk) 400).

Definition handleAvailable (admin actor : string) : W -> W * (Z * body) :=
  guarded admin actor (fun w => (w, (200, BModels Available))).

Definition handleHealth (admin actor : string) : W -> W * (Z * body) :=
  guarded admin actor (fun w => (w, (200, BHealth Health))).
End Service.
