(* ===== verification/ModelConfigSafety.v ===== *)
(** * model-config: the service implements a table of selections

    The abstract service [Spec] holds the global selection and the selection of
    each tenant.  The handlers, on any store that obeys [McLaws], answer every
    sequence of requests as [Spec] does. *)

From S2P Require Import Prelude GoTime Float64 Kv GoMonad GoStrings ModelConfig.

Open Scope Z_scope.

(** ** What the service needs of a store *)

Class McLaws (T : Type) `{McStore T} := {
  contents : T -> gmap string string;
  ready : T -> Prop;
  get_law s k : ready s -> Get s k = inr (contents s !! k);
  set_law s k v : ready s ->
    exists s', Set_ s k v = (s', None) /\ ready s' /\ contents s' = <[k := v]> (contents s);
  delete_law s k : ready s ->
    exists s', Delete s k = (s', None) /\ ready s' /\ contents s' = delete k (contents s);
  keys_law s p : ready s -> Keys s p = inr (with_prefix p (contents s))
}.

#[export] Program Instance fake_mc_laws : McLaws FakeMc.t := {
  contents := id; ready _ := True
}.
Solve Obligations with (intros; simpl; eauto).

#[export] Program Instance pg_mc_laws : McLaws PgMc.t := {
  contents p := kv_map (PgMc.config p); ready p := kv_up (PgMc.config p) = true
}.
Next Obligation. intros s k U. simpl. unfold PgMc.get. by rewrite kv_get_up. Qed.
Next Obligation.
  intros s k v U. simpl. unfold PgMc.set. destruct (kv_set_up _ k v U) as (c & -> & U' & M). by eexists.
Qed.
Next Obligation.
  intros s k U. simpl. unfold PgMc.delete_. destruct (kv_delete_up _ k U) as (c & -> & U' & M). by eexists.
Qed.
Next Obligation. intros s p U. simpl. unfold PgMc.keys. by rewrite U. Qed.

(** A range over a map visits every entry once, in some order. *)
Class FairRange (env : McEnv) : Prop := fair_range A n (m : gmap string A) : e_range env n m ≡ₚ map_to_list m.

(** ** The abstract service *)

Record Spec := mkSpec { sp_global : GlobalSelection; sp_tenants : gmap string GlobalSelection }.

Definition spec_start : Spec := mkSpec (mkSel DefaultLLM DefaultSTT DefaultTTS) ∅.

Definition slot (k : EngineKind) (s : GlobalSelection) : string :=
  match k with KindLLM => gs_LLM s | KindSTT => gs_STT s | KindTTS => gs_TTS s end.

Definition registered (k : EngineKind) (id : string) : Prop :=
  exists e, e ∈ engines /\ en_Kind e = k /\ en_ID e = id.


(** Every slot has an engine of its kind. *)
Definition full_sel (s : GlobalSelection) : Prop :=
  registered KindLLM (gs_LLM s) /\ registered KindSTT (gs_STT s) /\ registered KindTTS (gs_TTS s).

Definition free_or_registered (k : EngineKind) (s : GlobalSelection) : Prop :=
  slot k s = ""%string \/ registered k (slot k s).

Definition some_slot (s : GlobalSelection) : Prop :=
  gs_LLM s <> ""%string \/ gs_STT s <> ""%string \/ gs_TTS s <> ""%string.

(** Some slot has an engine, and each slot an engine of its kind or none. *)
Definition partial_sel (s : GlobalSelection) : Prop :=
  some_slot s /\ free_or_registered KindLLM s /\ free_or_registered KindSTT s /\ free_or_registered KindTTS s.

Inductive mc_request :=
  | RqCurrent (admin actor : string)
  | RqGlobal (admin actor : string) (req : option GlobalSelection)
  | RqTenant (admin actor id : string) (req : option GlobalSelection)
  | RqDelete (admin actor id : string)
  | RqAvailable (admin actor : string)
  | RqHealth (admin actor : string).

Definition roles (r : mc_request) : string * string :=
  match r with
  | RqCurrent a b | RqGlobal a b _ | RqTenant a b _ _ | RqDelete a b _ | RqAvailable a b | RqHealth a b => (a, b)
  end.

Definition admin_request (r : mc_request) : Prop := first_nonempty (roles r).1 (roles r).2 = "super_admin"%string.

Definition named (id : string) : Prop := trim_space id <> ""%string.

Definition accepted (r : mc_request) : Prop :=
  match r with
  | RqGlobal _ _ (Some sel) => full_sel sel
  | RqTenant _ _ id (Some sel) => named id /\ partial_sel sel
  | RqGlobal _ _ None | RqTenant _ _ _ None => False
  | RqDelete _ _ id => named id
  | _ => True
  end.

Definition effect (r : mc_request) (s : Spec) : Spec :=
  match r with
  | RqGlobal _ _ (Some sel) => mkSpec sel (sp_tenants s)
  | RqTenant _ _ id (Some sel) => mkSpec (sp_global s) (<[id := sel]> (sp_tenants s))
  | RqDelete _ _ id => mkSpec (sp_global s) (delete id (sp_tenants s))
  | _ => s
  end.

(** The answer to a request that is accepted. *)
Definition oview (o : TenantOverride) : string * GlobalSelection :=
  (to_TenantID o, mkSel (to_LLM o) (to_STT o) (to_TTS o)).

Definition shows (c : CurrentConfig) (s : Spec) : Prop :=
  cu_Global c = sp_global s /\
  StronglySorted (fun a b => tenant_less a b = true) (cu_Tenants c) /\
  forall id sel, (id, sel) ∈ oview <$> cu_Tenants c <-> sp_tenants s !! id = Some sel.

Definition reports (env : McEnv) (r : mc_request) (s : Spec) (b : body) : Prop :=
  match r, b with
  | RqCurrent _ _, BConfig c => shows c s
  | RqGlobal _ _ _, BOk | RqDelete _ _ _, BOk => True
  | RqTenant _ _ id (Some sel), BOverride o => oview o = (id, sel)
  | RqAvailable _ _, BModels a => a = Available
  | RqHealth _ _, BHealth l => l = Health env
  | _, _ => False
  end.

(** One request of the abstract service. *)
Inductive spec_step (env : McEnv) (r : mc_request) (s : Spec) : Spec -> Z * body -> Prop :=
  | Forbidden b : ~ admin_request r -> spec_step env r s s (403, b)
  | Refused e : admin_request r -> ~ accepted r -> spec_step env r s s (400, BError e)
  | Served b : admin_request r -> accepted r -> reports env r (effect r s) b ->
      spec_step env r s (effect r s) (200, b).

Inductive spec_steps (env : McEnv) : list mc_request -> Spec -> Spec -> list (Z * body) -> Prop :=
  | spec_done s : spec_steps env [] s s []
  | spec_more r rs s1 s2 s3 a l :
      spec_step env r s1 s2 a -> spec_steps env rs s2 s3 l -> spec_steps env (r :: rs) s1 s3 (a :: l).

(** ** Serving requests *)

Section Serve.
Context {T : Type} `{!McStore T} (env : McEnv).

Definition mc_serve (r : mc_request) : Mc T -> Mc T * (Z * body) :=
  match r with
  | RqCurrent a b => handleCurrent env a b
  | RqGlobal a b req => handleUpdateGlobal a b req
  | RqTenant a b id req => handleUpdateTenant env a b id req
  | RqDelete a b id => handleDeleteTenant a b id
  | RqAvailable a b => handleAvailable a b
  | RqHealth a b => handleHealth env a b
  end.

Fixpoint mc_run (rs : list mc_request) (w : Mc T) : Mc T * list (Z * body) :=
  match rs with
  | [] => (w, [])
  | r :: rs' => let '(w1, a) := mc_serve r w in let '(w2, l) := mc_run rs' w1 in (w2, a :: l)
  end.
End Serve.

(** ** Validation *)

Lemma find_registered k id : Find k id <> None <-> registered k id.
Proof.
  unfold Find, registered. split.
  - destruct (List.find _ engines) as [e|] eqn:E; [|done]. intros _.
    apply List.find_some in E as [Hin He]. apply andb_true_iff in He as [Hk Hi].
    exists e. split; [by apply list_elem_of_In|]. by apply bool_decide_eq_true in Hk, Hi.
  - intros (e & Hin & Hk & Hi) Hf. apply list_elem_of_In in Hin.
    pose proof (List.find_none _ _ Hf e Hin) as Hn. simpl in Hn. by rewrite !bool_decide_true in Hn.
Qed.

Lemma no_engine_unnamed k : ~ registered k "".
Proof. intros (e & Hin & _ & Hi). unfold engines in Hin. repeat (apply elem_of_cons in Hin as [->|Hin]; [done|]).
  by apply elem_of_nil in Hin. Qed.

Lemma validate_ok k id : Validate k id = None <-> registered k id.
Proof.
  unfold Validate, is_empty. case_bool_decide as E.
  - subst. split; [done|]. intros []%no_engine_unnamed.
  - rewrite <- find_registered. by destruct (Find k id).
Qed.

Lemma validate_if_set_ok k s : ValidateIfSet k (slot k s) = None <-> free_or_registered k s.
Proof.
  unfold ValidateIfSet, is_empty, free_or_registered. case_bool_decide as E; [naive_solver|].
  rewrite validate_ok. naive_solver.
Qed.

Lemma validate_selection_ok s : validateSelection s = None <-> full_sel s.
Proof.
  unfold validateSelection, full_sel. rewrite <- !validate_ok.
  destruct (Validate KindLLM _), (Validate KindSTT _), (Validate KindTTS _); naive_solver.
Qed.

(** ** Keys *)

Lemma tenant_key_inj k k' t t' : tenant_key k t = tenant_key k' t' -> k = k' /\ t = t'.
Proof.
  unfold tenant_key. intros H.
  assert (E : k = k') by (destruct k, k'; try done; by injection H). subst k'. split; [done|].
  apply append_cancel in H.
  rewrite <- (trim_suffix_app t (slot_suffix k)), <- (trim_suffix_app t' (slot_suffix k)). by rewrite H.
Qed.

Definition global_key (k : EngineKind) : string :=
  match k with KindLLM => keyLLMGlobal | KindSTT => keySTTGlobal | KindTTS => keyTTSGlobal end.

Lemma global_not_tenant k k' t : global_key k <> tenant_key k' t.
Proof. by destruct k, k'. Qed.

Lemma global_no_prefix k k' : has_prefix (global_key k) (slot_prefix k') = false.
Proof. by destruct k, k'. Qed.

Lemma tenant_prefix k k' t : has_prefix (tenant_key k t) (slot_prefix k') = true -> k' = k.
Proof. by destruct k, k'. Qed.

Lemma key_tenant k t :
  has_suffix (tenant_key k t) (slot_suffix k) = true /\
  trim_suffix (trim_prefix (tenant_key k t) (slot_prefix k)) (slot_suffix k) = t.
Proof.
  unfold tenant_key. split; [|by rewrite trim_prefix_app, trim_suffix_app].
  rewrite append_assoc. apply has_suffix_app.
Qed.

(** A value that is stored only when it is not empty. *)
Definition stored (v : string) : option string := if is_empty v then None else Some v.

Definition put_slot (k : EngineKind) (t v : string) (m : gmap string string) : gmap string string :=
  if is_empty v then delete (tenant_key k t) m else <[tenant_key k t := v]> m.

Definition put_sel (t : string) (s : GlobalSelection) (m : gmap string string) : gmap string string :=
  put_slot KindTTS t (gs_TTS s) (put_slot KindSTT t (gs_STT s) (put_slot KindLLM t (gs_LLM s) m)).

Lemma put_slot_lookup k t v m key :
  put_slot k t v m !! key = if decide (key = tenant_key k t) then stored v else m !! key.
Proof.
  unfold put_slot, stored. destruct (is_empty v), (decide (key = tenant_key k t)) as [->|N];
    by rewrite ?lookup_delete_eq, ?lookup_insert_eq, ?lookup_delete_ne, ?lookup_insert_ne by done.
Qed.

Ltac same_keys :=
  match goal with
  | H : tenant_key _ _ = tenant_key _ _ |- _ => apply tenant_key_inj in H as [? ?]; congruence
  | H : tenant_key _ _ <> tenant_key _ _ |- _ => by apply H
  end.

Lemma put_sel_lookup t s m k t' :
  put_sel t s m !! tenant_key k t' = if decide (t' = t) then stored (slot k s) else m !! tenant_key k t'.
Proof.
  unfold put_sel. rewrite !put_slot_lookup.
  destruct (decide (t' = t)) as [->|N].
  - destruct k; repeat case_decide; simpl; try reflexivity; exfalso; same_keys.
  - repeat case_decide; try reflexivity; exfalso; same_keys.
Qed.

Lemma put_sel_other t s m key : (forall k, key <> tenant_key k t) -> put_sel t s m !! key = m !! key.
Proof.
  intros H. unfold put_sel. rewrite !put_slot_lookup. rewrite !decide_False; auto.
Qed.

#[export] Instance some_slot_dec s : Decision (some_slot s).
Proof. unfold some_slot. apply _. Defined.

Lemma no_slot_stored s k : ~ some_slot s -> stored (slot k s) = None.
Proof.
  unfold some_slot, stored, is_empty. intros N. rewrite bool_decide_true; [done|].
  destruct (decide (slot k s = "")) as [|E]; [done|]. destruct N. destruct k; auto.
Qed.

(** ** Simulation *)

Section Sim.
Context {T : Type} `{McLaws T} (env : McEnv) `{!FairRange env}.

Record sim (w : Mc T) (s : Spec) : Prop := {
  si_ready : ready (mc_store w);
  si_slot k t : contents (mc_store w) !! tenant_key k t
                = match sp_tenants s !! t with Some sel => stored (slot k sel) | None => None end;
  si_keys key v k : contents (mc_store w) !! key = Some v -> has_prefix key (slot_prefix k) = true ->
                    exists t, key = tenant_key k t;
  si_global k : match contents (mc_store w) !! global_key k with
                | Some v => slot k (sp_global s) = v
                | None => slot k (sp_global s) = slot k (sp_global spec_start)
                end;
  si_full : full_sel (sp_global s);
  si_tenants t sel : sp_tenants s !! t = Some sel -> named t /\ partial_sel sel
}.

(** The state after the writes of a request. *)
Lemma sim_put w w' s t sel tn :
  sim w s -> ready (mc_store w') -> contents (mc_store w') = put_sel t sel (contents (mc_store w)) ->
  (forall t', tn !! t' = if decide (t' = t) then (if decide (some_slot sel) then Some sel else None)
                         else sp_tenants s !! t') ->
  (some_slot sel -> named t /\ partial_sel sel) ->
  sim w' (mkSpec (sp_global s) tn).
Proof.
  intros [Hr Hs Hk Hg Hf Ht] Hr' E Htn Hsel. split; try done.
  - intros k t'. rewrite E, put_sel_lookup. simpl. rewrite Htn. destruct (decide (t' = t)) as [->|N]; [|apply Hs].
    destruct (decide (some_slot sel)) as [|N]; [done|]. by apply no_slot_stored.
  - intros key v k. rewrite E. destruct (decide (Exists (fun k => key = tenant_key k t) [KindLLM; KindSTT; KindTTS]))
      as [Hx|Hx].
    + apply Exists_exists in Hx as (k' & _ & ->). intros _ Hp%tenant_prefix. subst k'. by exists t.
    + rewrite put_sel_other; [apply Hk|]. intros k' ->. apply Hx, Exists_exists. exists k'. split; [|done].
      destruct k'; set_solver.
  - intros k. rewrite E, put_sel_other; [apply Hg|]. intros k'. apply global_not_tenant.
  - intros t' sel'. simpl. rewrite Htn. destruct (decide (t' = t)) as [->|N]; [|apply Ht].
    destruct (decide (some_slot sel)); [|done]. intros [= <-]. auto.
Qed.

(** *** Writes *)

Lemma write_key key v (w : Mc T) : ready (mc_store w) ->
  exists w', wr (fun s => Set_ s key v) w = (w', inr tt) /\ ready (mc_store w') /\
    contents (mc_store w') = <[key := v]> (contents (mc_store w)).
Proof.
  intros Hr. unfold wr. destruct (set_law _ key v Hr) as (s' & -> & Hr' & E). by eexists.
Qed.

Lemma write_slot k t v (w : Mc T) : ready (mc_store w) ->
  exists w', writeOptional (tenant_key k t) v w = (w', inr tt) /\ ready (mc_store w') /\
    contents (mc_store w') = put_slot k t v (contents (mc_store w)).
Proof.
  intros Hr. unfold writeOptional, put_slot. destruct (is_empty v); [|by apply write_key].
  unfold wr. destruct (delete_law _ (tenant_key k t) Hr) as (s' & -> & Hr' & E). by eexists.
Qed.

Lemma write_sel {B} t sel (m : M (Mc T) string B) (w : Mc T) : ready (mc_store w) ->
  exists w', (let! _ := writeOptional (tenant_key KindLLM t) (gs_LLM sel) in
              let! _ := writeOptional (tenant_key KindSTT t) (gs_STT sel) in
              let! _ := writeOptional (tenant_key KindTTS t) (gs_TTS sel) in m) w = m w' /\
    ready (mc_store w') /\ contents (mc_store w') = put_sel t sel (contents (mc_store w)).
Proof.
  intros Hr. destruct (write_slot KindLLM t (gs_LLM sel) w Hr) as (w1 & E1 & Hr1 & C1).
  destruct (write_slot KindSTT t (gs_STT sel) w1 Hr1) as (w2 & E2 & Hr2 & C2).
  destruct (write_slot KindTTS t (gs_TTS sel) w2 Hr2) as (w3 & E3 & Hr3 & C3).
  exists w3. rewrite bind_run, E1, bind_run, E2, bind_run, E3. split; [done|]. split; [done|].
  unfold put_sel. congruence.
Qed.

(** *** Reading the overrides *)

Definition set_sel (k : EngineKind) (v : string) (x : string * GlobalSelection) : string * GlobalSelection :=
  (x.1, match k with
        | KindLLM => mkSel v (gs_STT x.2) (gs_TTS x.2)
        | KindSTT => mkSel (gs_LLM x.2) v (gs_TTS x.2)
        | KindTTS => mkSel (gs_LLM x.2) (gs_STT x.2) v
        end).

(** The overrides once the value of one slot of a tenant was seen. *)
Definition seen (k : EngineKind) (t : string) (v : option string) (x : option (string * GlobalSelection))
    : option (string * GlobalSelection) :=
  match v with
  | Some v => Some (set_sel k v (default (t, mkSel "" "" "") x))
  | None => x
  end.

Lemma oview_set_slot k v o : oview (set_slot k v o) = set_sel k v (oview o).
Proof. by destruct k. Qed.

Lemma collect_key_run k (ov : gmap string TenantOverride) t v (w : Mc T) : t <> ""%string ->
  exists w' ov', collect_key env k ov (tenant_key k t) v w = (w', inr ov') /\ mc_store w' = mc_store w /\
    (oview <$> ov' !! t) = seen k t (Some v) (oview <$> ov !! t) /\
    forall t', t' <> t -> ov' !! t' = ov !! t'.
Proof.
  intros Ht. unfold collect_key. destruct (key_tenant k t) as [-> ->]. cbn [negb].
  unfold is_empty. rewrite bool_decide_false by done.
  destruct (ov !! t) as [o|] eqn:E; eexists _, _; (split; [reflexivity|]); (split; [done|]);
    rewrite lookup_insert_eq; (split; [|intros t' N; by rewrite lookup_insert_ne]);
    simpl; by rewrite oview_set_slot.
Qed.

Lemma collect_loop_run k (m : gmap string string) l : forall (ov : gmap string TenantOverride) (w : Mc T),
  l ≡ₚ map_to_list m -> (forall key v, m !! key = Some v -> exists t, t <> ""%string /\ key = tenant_key k t) ->
  exists w' ov', collect_loop env k ov l w = (w', inr ov') /\ mc_store w' = mc_store w /\
    forall t, (oview <$> ov' !! t) = seen k t (m !! tenant_key k t) (oview <$> ov !! t).
Proof.
  revert m. induction l as [|[key v] l IH]; intros m ov w Hl Hm.
  { apply Permutation_nil_l in Hl. symmetry in Hl. apply map_to_list_empty_iff in Hl. subst m.
    by exists w, ov. }
  assert (Hk : m !! key = Some v) by (apply elem_of_map_to_list; rewrite <- Hl; apply elem_of_cons; by left).
  destruct (Hm key v Hk) as (t & Ht & ->). simpl. rewrite bind_run.
  destruct (collect_key_run k ov t v w Ht) as (w1 & ov1 & -> & Es & Et & Eo).
  destruct (IH (delete (tenant_key k t) m) ov1 w1) as (w2 & ov2 & -> & Es2 & E2).
  - apply (Permutation_cons_inv (a := (tenant_key k t, v))). rewrite Hl. symmetry. by apply map_to_list_delete.
  - intros key v' [_ Hkey]%lookup_delete_Some. by eapply Hm.
  - exists w2, ov2. split_and!; [done|congruence|]. intros t'. rewrite E2.
    destruct (decide (t' = t)) as [->|N].
    + rewrite lookup_delete_eq, Hk, Et. done.
    + rewrite lookup_delete_ne by (intros [_ ?]%tenant_key_inj; congruence). by rewrite Eo.
Qed.

Lemma sim_key_named w s key v k : sim w s ->
  contents (mc_store w) !! key = Some v -> has_prefix key (slot_prefix k) = true ->
  exists t, t <> ""%string /\ key = tenant_key k t.
Proof.
  intros Hs Hk Hp. destruct (si_keys _ _ Hs key v k Hk Hp) as [t ->]. exists t. split; [|done].
  intros ->. rewrite (si_slot _ _ Hs) in Hk. destruct (sp_tenants s !! ""%string) as [sel|] eqn:E; [|done].
  by destruct (si_tenants _ _ Hs _ _ E) as [[] _].
Qed.

Lemma collectTenantKeys_run k ov w s : sim w s ->
  exists w' ov', collectTenantKeys env k ov w = (w', inr ov') /\ mc_store w' = mc_store w /\
    forall t, (oview <$> ov' !! t)
      = seen k t (match sp_tenants s !! t with Some sel => stored (slot k sel) | None => None end)
          (oview <$> ov !! t).
Proof.
  intros Hs. unfold collectTenantKeys. rewrite bind_run. unfold rd. rewrite (keys_law _ _ (si_ready _ _ Hs)).
  rewrite bind_run. unfold range.
  set (m := with_prefix _ _). set (w1 := mkMc _ _ _).
  destruct (collect_loop_run k m (e_range env (mc_ranges w) m) ov w1) as (w2 & ov2 & E & Es & E2).
  - apply fair_range.
  - intros key v [Hk Hp]%map_lookup_filter_Some. by eapply sim_key_named.
  - exists w2, ov2. split_and!; [done..|]. intros t. rewrite E2. f_equal.
    rewrite <- (si_slot _ _ Hs k t). unfold m, with_prefix.
    destruct (contents (mc_store w) !! tenant_key k t) as [v|] eqn:Ev.
    + apply map_lookup_filter_Some. split; [done|]. apply has_prefix_app.
    + apply map_lookup_filter_None. by left.
Qed.

(** What the sorted overrides show of the selections. *)
Lemma overrides_shown (o : gmap string TenantOverride) (tenants : gmap string GlobalSelection) l :
  (forall t, (oview <$> o !! t) = (fun sel => (t, sel)) <$> tenants !! t) -> l ≡ₚ map_to_list o ->
  StronglySorted (fun a b => tenant_less a b = true) (sort_by tenant_less l.*2) /\
  forall id sel, (id, sel) ∈ oview <$> sort_by tenant_less l.*2 <-> tenants !! id = Some sel.
Proof.
  intros C Hl.
  assert (Hid : forall t x, (t, x) ∈ l -> to_TenantID x = t /\ tenants !! t = Some (oview x).2).
  { intros t x. rewrite Hl, elem_of_map_to_list. intros E. specialize (C t). rewrite E in C. simpl in C.
    destruct (tenants !! t) as [sel|]; [|done]. injection C as -> <-. done. }
  split.
  - apply (sort_by_key_strict to_TenantID). rewrite <- list_fmap_compose.
    rewrite (Forall_fmap_ext_1 _ fst); [rewrite Hl; apply NoDup_fst_map_to_list|].
    apply Forall_forall. intros [t x] Hin. simpl. by apply Hid.
  - intros id sel. rewrite list_elem_of_fmap. split.
    + intros (x & E & Hx). rewrite elem_of_sort_by, list_elem_of_fmap in Hx. destruct Hx as ([t x'] & -> & Hin).
      destruct (Hid t x' Hin) as [<- Ht]. simpl in *. injection E as -> ->. done.
    + intros Ht. specialize (C id). rewrite Ht in C. simpl in C. destruct (o !! id) as [x|] eqn:E; [|done].
      injection C as C1 C2. exists x. split; [unfold oview; by rewrite C1, C2|].
      rewrite elem_of_sort_by, list_elem_of_fmap. exists (id, x). split; [done|].
      rewrite Hl. by apply elem_of_map_to_list.
Qed.

Lemma seen_all t sel : some_slot sel ->
  seen KindTTS t (stored (gs_TTS sel)) (seen KindSTT t (stored (gs_STT sel))
    (seen KindLLM t (stored (gs_LLM sel)) None)) = Some (t, sel).
Proof.
  unfold some_slot, stored, is_empty. destruct sel as [a b c]; simpl. intros Hs.
  repeat case_bool_decide; subst; simpl; try done. by destruct Hs as [[]|[[]|[]]].
Qed.

Lemma sim_frame w w' s : sim w s -> mc_store w' = mc_store w -> sim w' s.
Proof. intros [? ? ? ? ? ?] E. split; by rewrite ?E. Qed.

Lemma valueOrDefault_run k fallback w s : sim w s -> slot k (sp_global spec_start) = fallback ->
  valueOrDefault (global_key k) fallback w = (w, inr (slot k (sp_global s))).
Proof.
  intros Hs <-. unfold valueOrDefault. rewrite bind_run. unfold rd. rewrite (get_law _ _ (si_ready _ _ Hs)).
  unfold ret. pose proof (si_global _ _ Hs k) as Hg. destruct (contents _ !! global_key k) as [v|]; [|by rewrite Hg].
  rewrite <- Hg. unfold first_nonempty, is_empty. rewrite bool_decide_false; [done|].
  pose proof (si_full _ _ Hs) as (F1 & F2 & F3). intros E.
  destruct k; simpl in E; rewrite E in *; by eapply no_engine_unnamed.
Qed.

Lemma Current_run w s : sim w s ->
  exists w' c, Current env w = (w', inr c) /\ mc_store w' = mc_store w /\ shows c s.
Proof.
  intros Hs. unfold Current. rewrite bind_run. unfold global.
  rewrite bind_run, (valueOrDefault_run KindLLM _ w s), bind_run, (valueOrDefault_run KindSTT _ w s),
    bind_run, (valueOrDefault_run KindTTS _ w s) by done. unfold ret at 1.
  destruct (collectTenantKeys_run KindLLM ∅ w s Hs) as (w1 & o1 & E1 & S1 & C1).
  destruct (collectTenantKeys_run KindSTT o1 w1 s (sim_frame _ _ _ Hs S1)) as (w2 & o2 & E2 & S2 & C2).
  destruct (collectTenantKeys_run KindTTS o2 w2 s) as (w3 & o3 & E3 & S3 & C3);
    [by eapply sim_frame; [exact Hs|congruence]|].
  rewrite bind_run, E1, bind_run, E2, bind_run, E3, bind_run. unfold range. simpl.
  eexists _, _. split; [done|]. split; [simpl; congruence|].
  assert (C : forall t, (oview <$> o3 !! t) = (fun sel => (t, sel)) <$> sp_tenants s !! t).
  { intros t. rewrite C3, C2, C1, lookup_empty. simpl. destruct (sp_tenants s !! t) as [sel|] eqn:Et; [|done].
    simpl. apply seen_all. by destruct (si_tenants _ _ Hs _ _ Et) as [_ [? _]]. }
  split; [by destruct (sp_global s)|]. apply (overrides_shown o3); [done|apply fair_range].
Qed.

(** *** The handlers *)

(** One request of the service is one of the abstract service. *)
Definition simulates (r : mc_request) (x : Mc T * (Z * body)) (s : Spec) : Prop :=
  exists s', spec_step env r s s' x.2 /\ sim x.1 s'.

Lemma simulates_guarded r h w s : sim w s ->
  (admin_request r -> simulates r (h w) s) ->
  simulates r (guarded (roles r).1 (roles r).2 h w) s.
Proof.
  intros Hs Hh. unfold guarded, requireSuperAdmin. case_bool_decide as E; [by apply Hh|].
  exists s. split; [by apply Forbidden|done].
Qed.

Lemma sim_refused r w s e : sim w s -> admin_request r -> ~ accepted r ->
  simulates r (w, (400, BError e)) s.
Proof. intros Hs Ha Hn. exists s. split; [by apply Refused|done]. Qed.

Lemma sim_served r w' s b : sim w' (effect r s) -> admin_request r -> accepted r ->
  reports env r (effect r s) b -> simulates r (w', (200, b)) s.
Proof. intros Hs Ha Hn Hb. exists (effect r s). split; [by apply Served|done]. Qed.

Lemma bind_check {B} e (f : unit -> M (Mc T) string B) w :
  bind (check e) f w = match e with Some e => (w, inl e) | None => f tt w end.
Proof. by destruct e. Qed.

Lemma current_simulates a b w s : sim w s -> simulates (RqCurrent a b) (handleCurrent env a b w) s.
Proof.
  intros Hs. apply (simulates_guarded (RqCurrent a b)); [done|]. intros Ha. unfold respond.
  destruct (Current_run w s Hs) as (w' & c & -> & E & Hc).
  apply sim_served; [by eapply sim_frame|done..].
Qed.

Lemma global_simulates a b req w s : sim w s ->
  simulates (RqGlobal a b req) (handleUpdateGlobal a b req w) s.
Proof.
  intros Hs. apply (simulates_guarded (RqGlobal a b req)); [done|]. intros Ha.
  destruct req as [sel|]; [|by apply sim_refused; [..|intros []]]. unfold respond, UpdateGlobal. rewrite bind_check.
  destruct (validateSelection sel) as [e|] eqn:Ev.
  { apply sim_refused; [done..|]. simpl. rewrite <- validate_selection_ok. by rewrite Ev. }
  apply validate_selection_ok in Ev as Hf.
  destruct (write_key keyLLMGlobal (gs_LLM sel) w (si_ready _ _ Hs)) as (w1 & E1 & R1 & C1).
  destruct (write_key keySTTGlobal (gs_STT sel) w1 R1) as (w2 & E2 & R2 & C2).
  destruct (write_key keyTTSGlobal (gs_TTS sel) w2 R2) as (w3 & E3 & R3 & C3).
  rewrite bind_run, E1, bind_run, E2, E3. apply sim_served; [|done..].
  assert (C : forall key, (forall k, key <> global_key k) ->
    contents (mc_store w3) !! key = contents (mc_store w) !! key).
  { intros key N. rewrite C3, C2, C1, !lookup_insert_ne; [done|..]; apply not_eq_sym;
      [exact (N KindLLM)|exact (N KindSTT)|exact (N KindTTS)]. }
  destruct Hs as [Hr Hsl Hk Hg Hfu Ht]. split; try done.
  - intros k t. rewrite C; [apply Hsl|]. intros k'. apply not_eq_sym, global_not_tenant.
  - intros key v k Hkey Hp. rewrite C in Hkey; [by eapply Hk|]. intros k' ->. by rewrite global_no_prefix in Hp.
  - intros k. rewrite C3, C2, C1. destruct k; simpl;
      repeat (rewrite lookup_insert_eq || rewrite lookup_insert_ne by done); done.
Qed.

Lemma named_bool id : is_empty (trim_space id) = false <-> named id.
Proof. unfold named, is_empty. by rewrite bool_decide_eq_false. Qed.

Lemma tenant_simulates a b id req w s : sim w s ->
  simulates (RqTenant a b id req) (handleUpdateTenant env a b id req w) s.
Proof.
  intros Hs. apply (simulates_guarded (RqTenant a b id req)); [done|]. intros Ha.
  destruct req as [sel|]; [|by apply sim_refused; [..|intros []]]. unfold respond, UpdateTenant.
  rewrite bind_ensure. destruct (is_empty (trim_space id)) eqn:En.
  { apply sim_refused; [done..|]. intros [Hn%named_bool _]. congruence. }
  cbn [negb]. rewrite bind_ensure. destruct (is_empty (gs_LLM sel) && _ && _) eqn:Ee.
  { apply sim_refused; [done..|]. intros [_ [Hx _]]. unfold is_empty in Ee.
    rewrite !andb_true_iff, !bool_decide_eq_true in Ee. destruct Hx; naive_solver. }
  cbn [negb]. rewrite bind_check. destruct (ValidateIfSet KindLLM _) eqn:V1.
  { apply sim_refused; [done..|]. intros (_ & _ & Hv%validate_if_set_ok & _). simpl in Hv. congruence. }
  rewrite bind_check. destruct (ValidateIfSet KindSTT _) eqn:V2.
  { apply sim_refused; [done..|]. intros (_ & _ & _ & Hv%validate_if_set_ok & _). simpl in Hv. congruence. }
  rewrite bind_check. destruct (ValidateIfSet KindTTS _) eqn:V3.
  { apply sim_refused; [done..|]. intros (_ & _ & _ & _ & Hv%validate_if_set_ok). simpl in Hv. congruence. }
  assert (Hok : accepted (RqTenant a b id (Some sel))).
  { simpl. split; [by apply named_bool|]. split; [|by split_and!; apply validate_if_set_ok].
    unfold is_empty in Ee. rewrite !andb_false_iff, !bool_decide_eq_false in Ee. unfold some_slot. tauto. }
  destruct (write_sel id sel (let! at_ := now env in
    ret (mkOverride id (gs_LLM sel) (gs_STT sel) (gs_TTS sel) at_)) w (si_ready _ _ Hs)) as (w1 & -> & R1 & C1).
  rewrite bind_run. unfold now. apply sim_served; [|done|done|by destruct sel].
  eapply (sim_put w _ s id sel); [done..| |by intros _].
  intros t'. rewrite (decide_True (P := some_slot sel)) by apply Hok. destruct (decide (t' = id)) as [->|N];
    [by rewrite lookup_insert_eq|by rewrite lookup_insert_ne].
Qed.

Lemma delete_simulates a b id w s : sim w s ->
  simulates (RqDelete a b id) (handleDeleteTenant a b id w) s.
Proof.
  intros Hs. apply (simulates_guarded (RqDelete a b id)); [done|]. intros Ha. unfold respond, DeleteTenant.
  rewrite bind_ensure. destruct (is_empty (trim_space id)) eqn:En.
  { apply sim_refused; [done..|]. intros Hn%named_bool. congruence. }
  destruct (write_sel id (mkSel "" "" "") (ret tt) w (si_ready _ _ Hs)) as (w1 & E & R1 & C1).
  assert (E' : (let! _ := wr (fun s => Delete s (tenant_key KindLLM id)) in
                let! _ := wr (fun s => Delete s (tenant_key KindSTT id)) in
                wr (fun s => Delete s (tenant_key KindTTS id))) w = (w1, inr tt)).
  { change (ret tt w1) with (w1, @inr string unit tt) in E. rewrite <- E. rewrite !bind_run.
    change (writeOptional ?x ?y) with (wr (T := T) (fun s => Delete s x)).
    destruct (wr _ w) as [wa [e|[]]]; [done|]. rewrite !bind_run. destruct (wr _ wa) as [wb [e|[]]]; [done|].
    rewrite bind_run. by destruct (wr _ wb) as [wc [e|[]]]. }
  cbn [negb]. rewrite E'. apply sim_served; [|done|by apply named_bool|done].
  eapply (sim_put w _ s id (mkSel "" "" "")); [done..| |by intros [?|[?|?]]].
  intros t'. rewrite (decide_False (P := some_slot _)) by (by intros [?|[?|?]]).
  destruct (decide (t' = id)) as [->|N]; [by rewrite lookup_delete_eq|by rewrite lookup_delete_ne].
Qed.

Lemma serve_simulates r w s : sim w s -> simulates r (mc_serve env r w) s.
Proof.
  intros Hs. destruct r as [a b|a b req|a b id req|a b id|a b|a b]; simpl.
  - by apply current_simulates.
  - by apply global_simulates.
  - by apply tenant_simulates.
  - by apply delete_simulates.
  - apply (simulates_guarded (RqAvailable a b)); [done|]. intros Ha. by apply sim_served.
  - apply (simulates_guarded (RqHealth a b)); [done|]. intros Ha. by apply sim_served.
Qed.

Lemma run_simulates rs : forall w s, sim w s ->
  exists s', spec_steps env rs s s' (mc_run env rs w).2 /\ sim (mc_run env rs w).1 s'.
Proof.
  induction rs as [|r rs IH]; intros w s Hs; simpl; [exists s; by split; [constructor|]|].
  destruct (serve_simulates r w s Hs) as (s1 & H1 & Hs1). destruct (mc_serve env r w) as [w1 a].
  destruct (IH w1 s1 Hs1) as (s2 & H2 & Hs2). destruct (mc_run env rs w1) as [w2 l].
  exists s2. split; [by econstructor|done].
Qed.
End Sim.


Lemma start_sim {T} `{McLaws T} (w : Mc T) :
  ready (mc_store w) -> contents (mc_store w) = ∅ -> sim w spec_start.
Proof.
  intros Hr E. split; try done.
  - intros k t. by rewrite E.
  - intros key v k. by rewrite E.
  - intros k. by rewrite E.
  - split_and!; by apply find_registered.
Qed.

(** ** The service *)

(** C27: The handlers implement a table of selections.  From an empty store
    that answers, every sequence of requests is answered as the abstract service
    answers it: 403 without the role, 400 with no effect for a selection that
    is not of registered engines or a tenant without a name, 200 otherwise; and a
    read shows the last global selection and exactly the tenants whose selection
    was set and not deleted since, sorted, with what was last set. *)
Theorem model_config_refines_table {T} `{McLaws T} env `{!FairRange env} (rs : list mc_request) (w : Mc T) :
  ready (mc_store w) -> contents (mc_store w) = ∅ ->
  exists s, spec_steps env rs spec_start s (mc_run env rs w).2.
Proof.
  intros Hr E. destruct (run_simulates env rs w spec_start (start_sim w Hr E)) as (s & Hs & _). by exists s.
Qed.

(** C28: The engines that are reported are of the right kind.  Whatever was
    requested before, a configuration that is read has an engine of its kind in
    every global slot, for every tenant an engine of its kind or none in each
    slot and at least one, and no tenant twice. *)
Theorem reported_engines_are_well_kinded {T} `{McLaws T} env `{!FairRange env} rs (w w' : Mc T) a b c :
  ready (mc_store w) -> contents (mc_store w) = ∅ ->
  mc_serve env (RqCurrent a b) (mc_run env rs w).1 = (w', (200, BConfig c)) ->
  full_sel (cu_Global c) /\
  Forall (fun o => named (to_TenantID o) /\ partial_sel (oview o).2) (cu_Tenants c) /\
  NoDup (to_TenantID <$> cu_Tenants c).
Proof.
  intros Hr E Hc. destruct (run_simulates env rs w spec_start (start_sim w Hr E)) as (s & _ & Hs).
  destruct (serve_simulates env (RqCurrent a b) _ _ Hs) as (s' & Hst & Hs'). rewrite Hc in Hst, Hs'.
  inversion Hst as [| |x Ha Hok Hrep]; subst. destruct Hrep as (Hg & Hso & Hin).
  split_and!; [by rewrite Hg; apply (si_full _ _ Hs')| |].
  - apply Forall_forall. intros o Ho. apply (si_tenants _ _ Hs'), Hin. by apply (list_elem_of_fmap_2 oview).
  - clear - Hso. induction Hso as [|o l Hl IH Hlt]; [constructor|]. apply NoDup_cons. split; [|done].
    intros (o' & Eo & Ho')%list_elem_of_fmap. rewrite Forall_forall in Hlt. specialize (Hlt _ Ho').
    unfold tenant_less, String.ltb in Hlt. rewrite Eo in Hlt.
    assert (X : String.compare (to_TenantID o') (to_TenantID o') = Eq) by apply string_compare_refl.
    by rewrite X in Hlt.
Qed.

(** ** A sample run *)

Definition mc_env : McEnv := mkMcEnv (fun n => Z.of_nat n) (fun _ => ""%string) (fun A _ m => map_to_list m).

#[export] Instance mc_env_fair : FairRange mc_env.
Proof. by intros A n m. Qed.

Definition mc_start : Mc PgMc.t := mkMc PgMc.empty 0 0.

Definition mc_requests : list mc_request :=
  [ RqGlobal "" "super_admin" (Some (mkSel "mistral_7b" "groq_whisper" "kokoro"));
    RqTenant "super_admin" "" "t2" (Some (mkSel "" "" "elevenlabs"));
    RqTenant "super_admin" "" "t1" (Some (mkSel "openrouter" "" ""));
    RqTenant "super_admin" "" "t3" (Some (mkSel "kokoro" "" ""));
    RqDelete "tenant_admin" "super_admin" "t1" ].

Example mc_answers : (mc_run mc_env mc_requests mc_start).2.*1 = [200; 200; 200; 400; 403].
Proof. vm_compute. reflexivity. Qed.

Lemma model_config_refines_table_witness :
  exists s, spec_steps mc_env mc_requests spec_start s (mc_run mc_env mc_requests mc_start).2.
Proof. by apply (model_config_refines_table mc_env mc_requests mc_start). Defined.

Lemma reported_engines_are_well_kinded_witness :
  exists w' c, mc_serve mc_env (RqCurrent "super_admin" "") (mc_run mc_env mc_requests mc_start).1
               = (w', (200, BConfig c)) /\
    cu_Global c = mkSel "mistral_7b" "groq_whisper" "kokoro" /\ full_sel (cu_Global c) /\
    NoDup (to_TenantID <$> cu_Tenants c).
Proof.
  destruct (mc_serve mc_env (RqCurrent "super_admin" "") (mc_run mc_env mc_requests mc_start).1)
    as [w' [status bd]] eqn:E.
  assert (X : exists c, (status, bd) = (200, BConfig c) /\ cu_Global c = mkSel "mistral_7b" "groq_whisper" "kokoro")
    by (vm_compute in E; injection E as <- <- <-; eexists; split; reflexivity).
  destruct X as (c & X & Hg). rewrite X in E. exists w', c. split; [by rewrite X|].
  destruct (reported_engines_are_well_kinded mc_env mc_requests mc_start w' "super_admin" "" c) as (H1 & _ & H2);
    [done|done|exact E|]. by split_and!.
Defined.

(** The time a tenant was updated is not stored: reading the configuration
    reports the time of the reading. *)
Theorem updated_at_is_time_of_reading :
  let w1 := (mc_serve mc_env (RqTenant "super_admin" "" "t1" (Some (mkSel "openrouter" "" ""))) mc_start) in
  let r1 := mc_serve mc_env (RqCurrent "super_admin" "") w1.1 in
  let r2 := mc_serve mc_env (RqCurrent "super_admin" "") r1.1 in
  exists o o1 o2, w1.2 = (200, BOverride o) /\ to_UpdatedAt o = 0 /\
    r1.2 = (200, BConfig o1) /\ (to_UpdatedAt <$> cu_Tenants o1) = [1] /\
    r2.2 = (200, BConfig o2) /\ (to_UpdatedAt <$> cu_Tenants o2) = [2].
Proof. vm_compute. by eexists _, _, _. Qed.
