(* ===== verification/Notification.v ===== *)
(** * notification: sending, subscriptions and retries

    [services/notification]: the model, the channel adapters, both stores, the
    service, its handlers and the consumers of [cmd/server/consumer.go].  A
    payload is the list of its keys with the text of their JSON values: no code
    looks inside.  Bodies and messages are [None] when they cannot be decoded. *)

From S2P Require Import Prelude GoTime Kv GoMonad GoStrings.

Open Scope Z_scope.

(** ** Model *)

Definition ChannelDashboard : string := "dashboard".
Definition ChannelWhatsApp : string := "whatsapp".
Definition ChannelEmail : string := "email".
Definition ChannelSlack : string := "slack".
Definition ChannelDiscord : string := "discord".
Definition ChannelCRM : string := "crm_webhook".

Definition StatusSent : string := "sent".
Definition StatusFailed : string := "failed".
Definition StatusQueued : string := "queued".

Definition Payload : Type := list (string * string).

Record SendRequest := mkSend {
  sr_TenantID : string;
  sr_Channel : string;
  sr_Recipient : string;
  sr_Template : string;
  sr_Payload : Payload
}.

Record Notification := mkNote {
  no_ID : string;
  no_TenantID : string;
  no_Channel : string;
  no_Recipient : string;
  no_Template : string;
  no_Payload : Payload;
  no_Status : string;
  no_Error : string;
  no_CreatedAt : Z
}.

Record Subscription := mkSub {
  sb_ID : string;
  sb_TenantID : string;
  sb_EventTypes : list string;
  sb_Channels : list string;
  sb_Recipients : list string;
  sb_Template : string;
  sb_CreatedAt : Z
}.

Record Event := mkEvent { ev_TenantID : string; ev_Type : string; ev_Payload : Payload }.

Record RetryTask := mkRetry {
  rt_ID : string;
  rt_TenantID : string;
  rt_NotificationID : string;
  rt_Channel : string;
  rt_Recipient : string;
  rt_RunAfter : Z;
  rt_Attempts : Z;
  rt_LastError : string;
  rt_CreatedAt : Z
}.

Definition zero_note : Notification := mkNote "" "" "" "" "" [] "" "" time_zero.

(** ** Adapters *)

Record Message := mkMessage {
  ms_TenantID : string;
  ms_Channel : string;
  ms_Recipient : string;
  ms_Template : string;
  ms_Payload : Payload
}.

Definition ErrNoAdapter : string := "notification adapter not configured".

(** Every adapter, [Dashboard] to [Webhook], embeds this one. *)
Module Adapter.

Record Fake := mk { Sent : list Message; NextErr : error }.

Definition NewFake : Fake := mk [] None.

Definition Send (f : Fake) (m : Message) : Fake * error :=
  match NextErr f with
  | Some e => (mk (Sent f) None, Some e)
  | None => (mk (Sent f ++ [m]) None, None)
  end.

Definition Count (f : Fake) (channel : string) : Z :=
  Z.of_nat (length (List.filter (fun m => bool_decide (ms_Channel m = channel)) (Sent f))).

End Adapter.

(** ** Stores *)

Class NfStore (T : Type) := {
  RecordNotification : T -> Z -> string -> Notification -> T * (Notification * error);
  ListNotifications : T -> string -> string + list Notification;
  SaveSubscription : T -> Z -> string -> Subscription -> T * (Subscription * error);
  ListSubscriptions : T -> string -> string -> string + list Subscription;
  EnqueueRetry : T -> Z -> string -> RetryTask -> T * (RetryTask * error);
  ListRetries : T -> string -> string + list RetryTask
}.

Definition stamp_note (id : string) (now : Z) (n : Notification) : Notification :=
  mkNote (or_new (no_ID n) id) (no_TenantID n) (no_Channel n) (no_Recipient n) (no_Template n) (no_Payload n)
    (no_Status n) (no_Error n) (or_now (no_CreatedAt n) now).

Definition stamp_sub (id : string) (now : Z) (s : Subscription) : Subscription :=
  mkSub (or_new (sb_ID s) id) (sb_TenantID s) (sb_EventTypes s) (sb_Channels s) (sb_Recipients s)
    (sb_Template s) (or_now (sb_CreatedAt s) now).

Definition stamp_retry (id : string) (now : Z) (t : RetryTask) : RetryTask :=
  mkRetry (or_new (rt_ID t) id) (rt_TenantID t) (rt_NotificationID t) (rt_Channel t) (rt_Recipient t)
    (rt_RunAfter t) (rt_Attempts t) (rt_LastError t) (or_now (rt_CreatedAt t) now).

(** A subscription of the tenant to the event; an empty filter lets all pass. *)
Definition subscribed (tenantID eventType : string) (s : Subscription) : bool :=
  (is_empty tenantID || bool_decide (sb_TenantID s = tenantID)) &&
  (is_empty eventType || bool_decide (eventType ∈ sb_EventTypes s)).

Module FakeNf.

(** The slices hold pointers to copies that are never handed out. *)
Record t := mk {
  seq : nat;
  notifications : list Notification;
  subscriptions : list Subscription;
  retries : list RetryTask
}.

Definition NewFake : t := mk 0 [] [] [].

(** [fmt.Sprintf("%s-%06d", prefix, f.seq)]. *)
Definition nextID (n : nat) (prefix : string) : string := numbered prefix (S n).

Definition recordNotification (f : t) (now : Z) (uid : string) (n : Notification)
    : t * (Notification * error) :=
  let n' := stamp_note (nextID (seq f) "notification") now n in
  (mk (if is_empty (no_ID n) then S (seq f) else seq f) (notifications f ++ [n']) (subscriptions f) (retries f),
   (n', None)).

Definition listNotifications (f : t) (tenantID : string) : string + list Notification :=
  inr (List.filter (for_tenant no_TenantID tenantID) (notifications f)).

Definition saveSubscription (f : t) (now : Z) (uid : string) (s : Subscription)
    : t * (Subscription * error) :=
  let s' := stamp_sub (nextID (seq f) "subscription") now s in
  (mk (if is_empty (sb_ID s) then S (seq f) else seq f) (notifications f) (subscriptions f ++ [s']) (retries f),
   (s', None)).

Definition listSubscriptions (f : t) (tenantID eventType : string) : string + list Subscription :=
  inr (List.filter (subscribed tenantID eventType) (subscriptions f)).

Definition enqueueRetry (f : t) (now : Z) (uid : string) (x : RetryTask) : t * (RetryTask * error) :=
  let x' := stamp_retry (nextID (seq f) "retry") now x in
  (mk (if is_empty (rt_ID x) then S (seq f) else seq f) (notifications f) (subscriptions f) (retries f ++ [x']),
   (x', None)).

Definition listRetries (f : t) (tenantID : string) : string + list RetryTask :=
  inr (List.filter (for_tenant rt_TenantID tenantID) (retries f)).

End FakeNf.

Module PgNf.

Record t := mk { notifications : kv Notification; subscriptions : kv Subscription; retries : kv RetryTask }.

Definition empty : t := mk kv_empty kv_empty kv_empty.

(** The record is returned along with the error. *)
Definition recordNotification (p : t) (now : Z) (uid : string) (n : Notification)
    : t * (Notification * error) :=
  let n := stamp_note (new_id "notification" uid) now n in
  let '(c, e) := kv_set (notifications p) (no_ID n) n in
  (mk c (subscriptions p) (retries p), (n, e)).

Definition listNotifications (p : t) (tenantID : string) : string + list Notification :=
  match kv_list (notifications p) with
  | Err e => inl e
  | Ok items => inr (List.filter (for_tenant no_TenantID tenantID) items)
  end.

Definition saveSubscription (p : t) (now : Z) (uid : string) (s : Subscription)
    : t * (Subscription * error) :=
  let s := stamp_sub (new_id "subscription" uid) now s in
  let '(c, e) := kv_set (subscriptions p) (sb_ID s) s in
  (mk (notifications p) c (retries p), (s, e)).

Definition listSubscriptions (p : t) (tenantID eventType : string) : string + list Subscription :=
  match kv_list (subscriptions p) with
  | Err e => inl e
  | Ok items => inr (List.filter (subscribed tenantID eventType) items)
  end.

Definition enqueueRetry (p : t) (now : Z) (uid : string) (x : RetryTask) : t * (RetryTask * error) :=
  let x := stamp_retry (new_id "retry" uid) now x in
  let '(c, e) := kv_set (retries p) (rt_ID x) x in
  (mk (notifications p) (subscriptions p) c, (x, e)).

Definition listRetries (p : t) (tenantID : string) : string + list RetryTask :=
  match kv_list (retries p) with
  | Err e => inl e
  | Ok items => inr (List.filter (for_tenant rt_TenantID tenantID) items)
  end.

End PgNf.

#[export] Instance fake_nf_store : NfStore FakeNf.t := {
  RecordNotification := FakeNf.recordNotification; ListNotifications := FakeNf.listNotifications;
  SaveSubscription := FakeNf.saveSubscription; ListSubscriptions := FakeNf.listSubscriptions;
  EnqueueRetry := FakeNf.enqueueRetry; ListRetries := FakeNf.listRetries
}.

#[export] Instance pg_nf_store : NfStore PgNf.t := {
  RecordNotification := PgNf.recordNotification; ListNotifications := PgNf.listNotifications;
  SaveSubscription := PgNf.saveSubscription; ListSubscriptions := PgNf.listSubscriptions;
  EnqueueRetry := PgNf.enqueueRetry; ListRetries := PgNf.listRetries
}.

(** ** The service *)

(** [e_adapter] is the map from channels to adapters, which are named by the
    keys of the map of their states: two channels may share one.  [e_now] is the
    clock of the service, [e_clock] that of the stores. *)
Record NfEnv := mkNfEnv {
  e_adapter : string -> option string;
  e_now : nat -> Z;
  e_clock : nat -> Z;
  e_uuid : nat -> string
}.

Record Nf (T : Type) := mkNf {
  nf_store : T;
  nf_adapters : gmap string Adapter.Fake;
  nf_reads : nat;
  nf_ids : nat
}.
Arguments mkNf {T}.
Arguments nf_store {T} n.
Arguments nf_adapters {T} n.
Arguments nf_reads {T} n.
Arguments nf_ids {T} n.

Section Service.
Context {T : Type} `{!NfStore T} (env : NfEnv).

Abbreviation W := (Nf T).

(** A store method that may need an id and the time. *)
Definition st {A} (f : T -> Z -> string -> T * A) (w : W) : W * A :=
  let '(s, a) := f (nf_store w) (e_clock env (nf_reads w)) (e_uuid env (nf_ids w)) in
  (mkNf s (nf_adapters w) (S (nf_reads w)) (S (nf_ids w)), a).

Definition now (w : W) : W * Z :=
  (mkNf (nf_store w) (nf_adapters w) (S (nf_reads w)) (nf_ids w), e_now env (nf_reads w)).

Definition record (req : SendRequest) (status errMsg : string) (w : W) : W * (Notification * error) :=
  let '(w, at_) := now w in
  st (fun s n u => RecordNotification s n u
    (mkNote "" (sr_TenantID req) (sr_Channel req) (sr_Recipient req) (sr_Template req) (sr_Payload req)
       status errMsg at_)) w.

Definition enqueue_retry (n : Notification) (sendErr : string) (w : W) : W * error :=
  let '(w, t1) := now w in
  let '(w, t2) := now w in
  let '(w, (_, e)) := st (fun s c u => EnqueueRetry s c u
    (mkRetry "" (no_TenantID n) (no_ID n) (no_Channel n) (no_Recipient n) (t1 + 30 * second) 1 sendErr t2)) w in
  (w, e).

Definition message (req : SendRequest) : Message :=
  mkMessage (sr_TenantID req) (sr_Channel req) (sr_Recipient req) (sr_Template req) (sr_Payload req).

Definition adapter_send (id : string) (m : Message) (w : W) : W * error :=
  let '(f, e) := Adapter.Send (default Adapter.NewFake (nf_adapters w !! id)) m in
  (mkNf (nf_store w) (<[id := f]> (nf_adapters w)) (nf_reads w) (nf_ids w), e).

(** The notification and the error are both returned. *)
Definition Send (req : SendRequest) (w : W) : W * (Notification * error) :=
  if is_empty (sr_TenantID req) || is_empty (sr_Channel req) || is_empty (sr_Recipient req)
     || is_empty (sr_Template req)
  then (w, (zero_note, Some "tenant_id, channel, recipient and template are required"%string))
  else match e_adapter env (sr_Channel req) with
  | None =>
      let '(w, (n, _)) := record req StatusFailed ErrNoAdapter w in
      let '(w, _) := enqueue_retry n ErrNoAdapter w in
      (w, (n, Some ErrNoAdapter))
  | Some id =>
      let '(w, e) := adapter_send id (message req) w in
      match e with
      | Some e =>
          let '(w, (n, re)) := record req StatusFailed e w in
          match re with
          | Some re => (w, (zero_note, Some re))
          | None => let '(w, _) := enqueue_retry n e w in (w, (n, Some e))
          end
      | None => record req StatusSent "" w
      end
  end.

Definition zero_sub : Subscription := mkSub "" "" [] [] [] "" time_zero.

Definition with_template (s : Subscription) : Subscription :=
  mkSub (sb_ID s) (sb_TenantID s) (sb_EventTypes s) (sb_Channels s) (sb_Recipients s)
    (first_nonempty (sb_Template s) "handoff-alert") (sb_CreatedAt s).

Definition Subscribe (sub : Subscription) (w : W) : W * (Subscription * error) :=
  if is_empty (sb_TenantID sub) || bool_decide (sb_EventTypes sub = []) || bool_decide (sb_Channels sub = [])
     || bool_decide (sb_Recipients sub = [])
  then (w, (zero_sub, Some "tenant_id, event_types, channels and recipients are required"%string))
  else st (fun s n u => SaveSubscription s n u (with_template sub)) w.

(** What [FanOut] returns; [sub.Recipients[0]] panics on an empty slice. *)
Inductive fanned := Fanned (sent : list Notification) (e : error) | Panicked.

Definition recipient_at (recipients : list string) (i : nat) : option string :=
  match recipients with
  | [] => None
  | r :: _ => Some (default r (recipients !! i))
  end.

(** The inner loop: [channels] from index [i] on. *)
Fixpoint fan_channels (sub : Subscription) (payload : Payload) (i : nat) (channels : list string)
    (sent : list Notification) (w : W) : W * (fanned * bool) :=
  match channels with
  | [] => (w, (Fanned sent None, true))
  | channel :: channels' =>
      match recipient_at (sb_Recipients sub) i with
      | None => (w, (Panicked, false))
      | Some recipient =>
          let '(w, (n, e)) := Send (mkSend (sb_TenantID sub) channel recipient (sb_Template sub) payload) w in
          match e with
          | Some e => (w, (Fanned (sent ++ [n]) (Some e), false))
          | None => fan_channels sub payload (S i) channels' (sent ++ [n]) w
          end
      end
  end.

Fixpoint fan_subs (payload : Payload) (subs : list Subscription) (sent : list Notification) (w : W)
    : W * fanned :=
  match subs with
  | [] => (w, Fanned sent None)
  | sub :: subs' =>
      let '(w, (r, go)) := fan_channels sub payload 0 (sb_Channels sub) sent w in
      match r with
      | Fanned sent' _ => if go then fan_subs payload subs' sent' w else (w, r)
      | Panicked => (w, Panicked)
      end
  end.

Definition FanOut (event : Event) (w : W) : W * fanned :=
  match ListSubscriptions (nf_store w) (ev_TenantID event) (ev_Type event) with
  | inl e => (w, Fanned [] (Some e))
  | inr subs => fan_subs (ev_Payload event) subs [] w
  end.

(** ** Handlers and consumers *)

Definition handleSend (req : option SendRequest) (w : W) : W * (Z * (string + Notification)) :=
  match req with
  | None => (w, (400, inl "invalid json"%string))
  | Some req => let '(w, (n, _)) := Send req w in (w, (202, inr n))
  end.

Definition handleSubscribe (req : option Subscription) (w : W) : W * (Z * (string + Subscription)) :=
  match req with
  | None => (w, (400, inl "invalid json"%string))
  | Some req =>
      let '(w, (s, e)) := Subscribe req w in
      (w, match e with Some e => (400, inl e) | None => (201, inr s) end)
  end.

Record leadEvent := mkLeadEvent {
  lv_LeadID : string;
  lv_TenantID : string;
  lv_CampaignID : string;
  lv_Recipient : string;
  lv_AgentEmail : string;
  lv_Reason : string
}.

(** The consumers; an error means that the message is delivered again. *)
Definition onLeadHot (msg : option leadEvent) (w : W) : W * error :=
  match msg with
  | None => (w, None)
  | Some ev =>
      if is_empty (lv_TenantID ev) || is_empty (lv_Recipient ev) then (w, None)
      else let '(w, (_, e)) := Send (mkSend (lv_TenantID ev) ChannelDashboard (lv_Recipient ev) "lead_hot_detected"
                                      [("lead_id", quote (lv_LeadID ev)); ("campaign_id", quote (lv_CampaignID ev))]%string) w in
           (w, e)
  end.

Definition onHandoffRequested (msg : option leadEvent) (w : W) : W * error :=
  match msg with
  | None => (w, None)
  | Some ev =>
      let recipient := first_nonempty (lv_AgentEmail ev) (lv_Recipient ev) in
      if is_empty (lv_TenantID ev) || is_empty recipient then (w, None)
      else let '(w, (_, e)) := Send (mkSend (lv_TenantID ev) ChannelDashboard recipient "handoff_requested"
                                      [("lead_id", quote (lv_LeadID ev)); ("reason", quote (lv_Reason ev))]%string) w in
           (w, e)
  end.
End Service.
