(* ===== verification/NotificationSafety.v ===== *)
(** * notification: every message is accounted for

    [NfLaws] is what the service needs of a store; both stores have it.  Under
    any operations each delivered message has its record, each failed one its
    record and one retry task, and a fan-out reaches the channels in order. *)

From S2P Require Import Prelude GoTime Kv GoMonad GoStrings Notification.
From stdpp Require Import pretty.

Open Scope Z_scope.

(** ** What the service needs of a store *)

Class NfView (T : Type) := {
  notes : T -> list Notification;
  subs : T -> list Subscription;
  tasks : T -> list RetryTask;
  nf_ok : T -> Prop;
  nf_fresh : T -> string -> Prop
}.

(** A write that took the UUID [u]. *)
Definition nf_wrote {T} `{NfView T} (s : T) (u : string) (s' : T) : Prop :=
  nf_ok s' /\ forall u', u' <> u -> nf_fresh s u' -> nf_fresh s' u'.

Class NfLaws (T : Type) `{NfStore T, NfView T} := {
  record_law s n u x : nf_ok s -> nf_fresh s u -> no_ID x = "" ->
    exists s' id, RecordNotification s n u x = (s', (stamp_note id n x, None)) /\ nf_wrote s u s' /\
      notes s' ≡ₚ stamp_note id n x :: notes s /\ subs s' = subs s /\ tasks s' = tasks s /\
      id <> "" /\ id ∉ no_ID <$> notes s;
  retry_law s n u x : nf_ok s -> nf_fresh s u -> rt_ID x = "" ->
    exists s' id, EnqueueRetry s n u x = (s', (stamp_retry id n x, None)) /\ nf_wrote s u s' /\
      tasks s' ≡ₚ stamp_retry id n x :: tasks s /\ subs s' = subs s /\ notes s' = notes s;
  subscribe_law s n u x : nf_ok s ->
    exists s' id, SaveSubscription s n u x = (s', (stamp_sub id n x, None)) /\ nf_wrote s u s' /\
      notes s' = notes s /\ tasks s' = tasks s /\
      forall y, y ∈ subs s' -> y = stamp_sub id n x \/ y ∈ subs s;
  list_subs_law s t e : nf_ok s ->
    exists l, ListSubscriptions s t e = inr l /\ forall y, y ∈ l <-> y ∈ subs s /\ subscribed t e y = true
}.

(** *** The in-memory store *)

(** Its ids are numbered. *)
Definition below (prefix : string) (n : nat) (id : string) : Prop :=
  exists i, (1 <= i <= n)%nat /\ id = numbered prefix i.

#[export] Instance fake_nf_view : NfView FakeNf.t := {
  notes := FakeNf.notifications; subs := FakeNf.subscriptions; tasks := FakeNf.retries;
  nf_ok f := Forall (fun x => below "notification" (FakeNf.seq f) (no_ID x)) (FakeNf.notifications f);
  nf_fresh _ _ := True
}.

Lemma nf_below_mono p n m id : (n <= m)%nat -> below p n id -> below p m id.
Proof. intros Hm (i & Hi & E). exists i. split; [lia|done]. Qed.

#[export] Instance fake_nf_laws : NfLaws FakeNf.t.
Proof.
  split.
  - intros s n u x Hok _ Hx. exists (FakeNf.recordNotification s n u x).1, (numbered "notification" (S (FakeNf.seq s))).
    simpl. unfold FakeNf.recordNotification, FakeNf.nextID, is_empty. rewrite Hx, bool_decide_true by done.
    split; [done|]. split_and!; try done; [split; [|done]|..].
    + simpl. apply Forall_app. split; [eapply Forall_impl; [exact Hok|]; intros y; apply nf_below_mono; simpl; lia|].
      constructor; [|constructor]. exists (S (FakeNf.seq s)). unfold stamp_note, or_new, is_empty.
      rewrite Hx, bool_decide_true by done. simpl. split; [lia|done].
    + symmetry. apply Permutation_cons_append.
    + intros (y & Ey & Hy)%list_elem_of_fmap. pose proof (proj1 (Forall_forall _ _) Hok y Hy) as (i & Hi & E).
      rewrite <- Ey in E. apply numbered_inj in E. lia.
  - intros s n u x Hok _ Hx. exists (FakeNf.enqueueRetry s n u x).1, (numbered "retry" (S (FakeNf.seq s))).
    split; [done|]. split_and!; try done; [split; [|done]|].
    + simpl. eapply Forall_impl; [exact Hok|]. intros y. apply nf_below_mono. destruct (is_empty _); lia.
    + symmetry. apply Permutation_cons_append.
  - intros s n u x Hok. exists (FakeNf.saveSubscription s n u x).1, (numbered "subscription" (S (FakeNf.seq s))).
    split; [done|]. split_and!; try done; [split; [|done]|].
    + simpl. eapply Forall_impl; [exact Hok|]. intros y. apply nf_below_mono. destruct (is_empty _); lia.
    + intros y [Hy|Hy%list_elem_of_singleton]%elem_of_app; auto.
  - intros s t e Hok. eexists. split; [done|]. intros y. rewrite list_elem_of_In, List.filter_In.
    by rewrite <- list_elem_of_In.
Qed.

(** *** The Postgres store *)

Definition filed (c : kv Notification) : Prop := Forall (fun r => no_ID r.2 = r.1) (kv_rows c).

#[export] Instance pg_nf_view : NfView PgNf.t := {
  notes p := (kv_rows (PgNf.notifications p)).*2;
  subs p := (kv_rows (PgNf.subscriptions p)).*2;
  tasks p := (kv_rows (PgNf.retries p)).*2;
  nf_ok p := kv_up (PgNf.notifications p) = true /\ kv_up (PgNf.subscriptions p) = true /\
             kv_up (PgNf.retries p) = true /\ filed (PgNf.notifications p);
  nf_fresh p u := rows_get (new_id "notification" u) (kv_rows (PgNf.notifications p)) = None /\
                  rows_get (new_id "retry" u) (kv_rows (PgNf.retries p)) = None
}.

Lemma rows_put_fresh {A} k (v : A) l : rows_get k l = None -> (rows_put k v l).*2 ≡ₚ v :: l.*2.
Proof.
  intros E%rows_get_None. rewrite rows_put_new by done. rewrite fmap_app. simpl. symmetry.
  apply Permutation_cons_append.
Qed.

#[export] Instance pg_nf_laws : NfLaws PgNf.t.
Proof.
  split.
  - intros p n u x (U1 & U2 & U3 & Hf) [F1 F2] Hx. simpl. unfold PgNf.recordNotification, kv_set, kv_put.
    rewrite U1. set (x' := stamp_note _ _ _). assert (Hid : no_ID x' = new_id "notification" u).
    { unfold x', stamp_note, or_new, is_empty. simpl. by rewrite Hx, bool_decide_true. }
    rewrite Hid. eexists _, (new_id "notification" u). split; [reflexivity|]. split_and!; try done.
    + split; [|intros u' N [G1 G2]; split; [|done]].
      * split_and!; try done. apply rows_put_Forall; [exact Hf|exact Hid].
      * simpl. rewrite rows_get_put_ne; [done|]. by apply new_id_ne.
    + by apply rows_put_fresh.
    + apply rows_get_None in F1. intros Hin. apply F1. rewrite list_elem_of_fmap in Hin.
      destruct Hin as (y & Ey & ([k z] & -> & Hy)%list_elem_of_fmap). rewrite list_elem_of_fmap.
      exists (k, z). split; [|done]. rewrite Ey. by apply (proj1 (Forall_forall _ _) Hf (k, z) Hy).
  - intros p n u x (U1 & U2 & U3 & Hf) [F1 F2] Hx. simpl. unfold PgNf.enqueueRetry, kv_set, kv_put.
    rewrite U3. set (x' := stamp_retry _ _ _). assert (Hid : rt_ID x' = new_id "retry" u).
    { unfold x', stamp_retry, or_new, is_empty. simpl. by rewrite Hx, bool_decide_true. }
    rewrite Hid. eexists _, (new_id "retry" u). split; [reflexivity|]. split_and!; try done.
    + split; [done|]. intros u' N [G1 G2]. split; [done|].
      simpl. rewrite rows_get_put_ne; [done|]. by apply new_id_ne.
    + by apply rows_put_fresh.
  - intros p n u x (U1 & U2 & U3 & Hf). simpl. unfold PgNf.saveSubscription, kv_set, kv_put. rewrite U2.
    eexists _, (new_id "subscription" u). split; [reflexivity|]. split_and!; try done; simpl.
    intros y ([k z] & -> & Hy)%list_elem_of_fmap. apply rows_put_elem in Hy as [E|Hy]; [left; by injection E|right].
    apply list_elem_of_fmap. by exists (k, z).
  - intros p t e (U1 & U2 & U3 & Hf). simpl. unfold PgNf.listSubscriptions, kv_list. rewrite U2.
    eexists. split; [done|]. intros y. rewrite list_elem_of_In, List.filter_In. by rewrite <- list_elem_of_In.
Qed.

(** ** The accounts *)

Definition message_of (n : Notification) : Message :=
  mkMessage (no_TenantID n) (no_Channel n) (no_Recipient n) (no_Template n) (no_Payload n).

Definition failed (n : Notification) : Prop := no_Status n = StatusFailed.

(** [n] was sent by the adapter [a]. *)
Definition sent_by (env : NfEnv) (a : string) (n : Notification) : Prop :=
  no_Status n = StatusSent /\ e_adapter env (no_Channel n) = Some a.

Definition task_of (n : Notification) (t : RetryTask) : Prop :=
  rt_NotificationID t = no_ID n /\ rt_TenantID t = no_TenantID n /\ rt_Channel t = no_Channel n /\
  rt_Recipient t = no_Recipient n /\ rt_LastError t = no_Error n /\ rt_Attempts t = 1.

Definition delivered (adapters : gmap string Adapter.Fake) (a : string) : list Message :=
  Adapter.Sent (default Adapter.NewFake (adapters !! a)).

Definition sub_ok (s : Subscription) : Prop :=
  sb_TenantID s <> "" /\ sb_Recipients s <> [] /\ sb_Template s <> "".

Record accounted (env : NfEnv) (ads : gmap string Adapter.Fake) (ns : list Notification)
    (ss : list Subscription) (ts : list RetryTask) : Prop := {
  ac_ids : NoDup (no_ID <$> ns);
  ac_status : Forall (fun n => no_Status n = StatusSent \/ failed n) ns;
  ac_sent a : delivered ads a ≡ₚ message_of <$> filter (sent_by env a) ns;
  ac_retry : rt_NotificationID <$> ts ≡ₚ no_ID <$> filter failed ns;
  ac_task : Forall (fun t => exists n, n ∈ ns /\ failed n /\ task_of n t) ts;
  ac_subs : Forall sub_ok ss
}.

Lemma accounted_failed env ads ads' ns ns' ss ts ts' n t :
  accounted env ads ns ss ts -> (forall a, delivered ads' a = delivered ads a) ->
  ns' ≡ₚ n :: ns -> ts' ≡ₚ t :: ts -> failed n -> task_of n t -> no_ID n ∉ no_ID <$> ns ->
  accounted env ads' ns' ss ts'.
Proof.
  intros [Hi Hs Hd Hr Ht Hu] Ha En Et Hf Hn Hid. split; [| | | | |done].
  - rewrite En. by apply NoDup_cons.
  - rewrite En. constructor; [by right|done].
  - intros a. rewrite Ha, Hd. f_equiv. rewrite En, filter_cons_False; [done|].
    unfold sent_by. by rewrite Hf; intros [? _].
  - rewrite En, Et, filter_cons_True by done. simpl. rewrite Hr. by destruct Hn as [-> _].
  - rewrite Et. constructor; [exists n; split_and!; [rewrite En; by left|done..]|].
    eapply Forall_impl; [exact Ht|]. intros x (m & Hm & ?). exists m. split; [rewrite En; by right|done].
Qed.

Lemma accounted_sent env ads ads' ns ns' ss ts n b :
  accounted env ads ns ss ts ->
  (forall a, delivered ads' a = if decide (a = b) then delivered ads a ++ [message_of n] else delivered ads a) ->
  ns' ≡ₚ n :: ns -> sent_by env b n -> no_ID n ∉ no_ID <$> ns ->
  accounted env ads' ns' ss ts.
Proof.
  intros [Hi Hs Hd Hr Ht Hu] Ha En Hb Hid. split; [| | | | |done].
  - rewrite En. by apply NoDup_cons.
  - rewrite En. constructor; [left; apply Hb|done].
  - intros a. rewrite Ha, En. destruct (decide (a = b)) as [->|N].
    + rewrite filter_cons_True by done. simpl. rewrite Hd. symmetry. apply Permutation_cons_append.
    + rewrite filter_cons_False; [apply Hd|]. intros [_ Hc]. destruct Hb as [_ Hc']. congruence.
  - rewrite En, filter_cons_False; [done|]. unfold failed. by destruct Hb as [-> _].
  - eapply Forall_impl; [exact Ht|]. intros x (m & Hm & ?). exists m. split; [rewrite En; by right|done].
Qed.

Definition nf_env_ok (env : NfEnv) : Prop := forall i j, e_uuid env i = e_uuid env j -> i = j.

Section Runs.
Context {T : Type} `{NfLaws T} (env : NfEnv) (Henv : nf_env_ok env).

Abbreviation W := (Nf T).

Definition nf_usable (w : W) : Prop :=
  nf_ok (nf_store w) /\ forall i, (nf_ids w <= i)%nat -> nf_fresh (nf_store w) (e_uuid env i).

Definition settled (w : W) : Prop :=
  nf_usable w /\ accounted env (nf_adapters w) (notes (nf_store w)) (subs (nf_store w)) (tasks (nf_store w)).

Lemma nf_usable_wrote w s' ads r :
  nf_usable w -> nf_wrote (nf_store w) (e_uuid env (nf_ids w)) s' -> nf_usable (mkNf s' ads r (S (nf_ids w))).
Proof.
  intros [Hok Hf] [Hok' Hf']. split; [done|]. simpl. intros i Hi. apply Hf'; [|apply Hf; lia].
  intros E%Henv. lia.
Qed.

Lemma record_run req status msg w : nf_usable w ->
  exists w' n, record env req status msg w = (w', (n, None)) /\ nf_usable w' /\
    nf_adapters w' = nf_adapters w /\ notes (nf_store w') ≡ₚ n :: notes (nf_store w) /\
    subs (nf_store w') = subs (nf_store w) /\ tasks (nf_store w') = tasks (nf_store w) /\
    message_of n = message req /\ no_Status n = status /\ no_Error n = msg /\
    no_ID n ∉ no_ID <$> notes (nf_store w).
Proof.
  intros Hu. unfold record, now, st. simpl.
  set (x := mkNote _ _ _ _ _ _ _ _ _). destruct Hu as [Hok Hf].
  destruct (record_law (nf_store w) (e_clock env (S (nf_reads w))) (e_uuid env (nf_ids w)) x Hok)
    as (s' & id & -> & Hw & Hn & Hs & Ht & Hne & Hid); [apply Hf; lia|done|].
  eexists _, _. split; [reflexivity|]. split; [by eapply nf_usable_wrote|]. by split_and!.
Qed.

Lemma retry_run n e w : nf_usable w ->
  exists w' t, enqueue_retry env n e w = (w', None) /\ nf_usable w' /\
    nf_adapters w' = nf_adapters w /\ tasks (nf_store w') ≡ₚ t :: tasks (nf_store w) /\
    subs (nf_store w') = subs (nf_store w) /\ notes (nf_store w') = notes (nf_store w) /\
    (no_Error n = e -> task_of n t).
Proof.
  intros Hu. unfold enqueue_retry, now, st. simpl.
  set (x := mkRetry _ _ _ _ _ _ _ _ _). destruct Hu as [Hok Hf].
  destruct (retry_law (nf_store w) (e_clock env (S (S (nf_reads w)))) (e_uuid env (nf_ids w)) x Hok)
    as (s' & id & -> & Hw & Ht & Hs & Hn); [apply Hf; lia|done|].
  eexists _, _. split; [reflexivity|]. split; [by eapply nf_usable_wrote|]. by split_and!.
Qed.

(** A failure that is recorded and scheduled for a retry. *)
Lemma failure_run req e w ads : nf_usable w ->
  accounted env ads (notes (nf_store w)) (subs (nf_store w)) (tasks (nf_store w)) ->
  (forall a, delivered (nf_adapters w) a = delivered ads a) ->
  exists w1 n w2, record env req StatusFailed e w = (w1, (n, None)) /\
    enqueue_retry env n e w1 = (w2, None) /\ settled w2 /\ subs (nf_store w2) = subs (nf_store w).
Proof.
  intros Hu Ha Hd. destruct (record_run req StatusFailed e w Hu)
    as (w1 & n & E1 & U1 & A1 & N1 & S1 & T1 & Hm & Hst & He & Hid).
  destruct (retry_run n e w1 U1) as (w2 & t & E2 & U2 & A2 & T2 & S2 & N2 & Hn).
  exists w1, n, w2. split_and!; [done..| |congruence]. split; [done|]. rewrite A2, A1, N2, S2, S1.
  eapply accounted_failed; [exact Ha|exact Hd|exact N1|rewrite T2, T1; done|exact Hst|by apply Hn|exact Hid].
Qed.

(** What [Send] does, and that it keeps the accounts. *)
Lemma Send_run req w : settled w ->
  exists w' n e, Send env req w = (w', (n, e)) /\ settled w' /\ subs (nf_store w') = subs (nf_store w) /\
    (e = None -> message_of n = message req /\ no_Status n = StatusSent /\ n ∈ notes (nf_store w')).
Proof.
  intros [Hu Ha]. unfold Send. destruct (_ || _); [by eexists _, _, _|].
  destruct (e_adapter env (sr_Channel req)) as [id|] eqn:Ei.
  - unfold adapter_send, Adapter.Send. destruct (Adapter.NextErr _) as [e|] eqn:En.
    + set (w0 := mkNf _ _ _ _). destruct (failure_run req e w0 (nf_adapters w))
        as (w1 & n & w2 & -> & -> & Hs & Es); [done|done| |].
      { intros a. unfold delivered. simpl. destruct (decide (a = id)) as [->|N];
          [by rewrite lookup_insert_eq|by rewrite lookup_insert_ne]. }
      by eexists _, _, _.
    + set (w0 := mkNf _ _ _ _). destruct (record_run req StatusSent "" w0)
        as (w1 & n & -> & U1 & A1 & N1 & S1 & T1 & Hm & Hst & He & Hid); [done|].
      eexists w1, n, None. split; [done|]. split; [split; [done|]|split; [done|]].
      * rewrite A1, S1, T1. eapply (accounted_sent _ _ _ _ _ _ _ n id); [exact Ha| |exact N1| |exact Hid].
        -- intros a. unfold delivered. simpl. rewrite Hm. destruct (decide (a = id)) as [->|N];
             [by rewrite lookup_insert_eq|by rewrite lookup_insert_ne].
        -- split; [done|]. rewrite <- Ei. by injection Hm as _ -> _ _ _.
      * intros _. split_and!; [done..|]. rewrite N1. by left.
  - destruct (failure_run req ErrNoAdapter w (nf_adapters w)) as (w1 & n & w2 & -> & -> & Hs & Es);
      [done..|]. by eexists _, _, _.
Qed.

(** ** Fan-out *)

(** The requests a subscription asks for: channel [i] goes to recipient [i],
    or to the first one when there are fewer recipients. *)
Definition fan_requests (payload : Payload) (s : Subscription) : list SendRequest :=
  imap (fun i c => mkSend (sb_TenantID s) c (default "" (recipient_at (sb_Recipients s) i)) (sb_Template s)
                     payload) (sb_Channels s).

Definition all_sent (l : list Notification) : Prop := Forall (fun n => no_Status n = StatusSent) l.

(** [l] was sent for the requests [reqs], completely or up to a failure. *)
Definition fanned_all (reqs : list SendRequest) (l : list Notification) : Prop :=
  message_of <$> l = message <$> reqs /\ all_sent l.

Definition cut_short (reqs : list SendRequest) (l : list Notification) : Prop :=
  exists l' n, l = l' ++ [n] /\ message_of <$> l' `prefix_of` message <$> reqs /\ all_sent l'.

Lemma cut_short_app reqs reqs' l l' :
  fanned_all reqs l -> cut_short reqs' l' -> cut_short (reqs ++ reqs') (l ++ l').
Proof.
  intros [E Hl] (l0 & n & -> & Hp & Hl0). exists (l ++ l0), n. split; [by rewrite app_assoc|].
  split; [|by apply Forall_app]. rewrite !fmap_app, E. by apply prefix_app.
Qed.

Lemma fanned_all_app reqs reqs' l l' : fanned_all reqs l -> fanned_all reqs' l' -> fanned_all (reqs ++ reqs') (l ++ l').
Proof. intros [E Hl] [E' Hl']. split; [by rewrite !fmap_app, E, E'|by apply Forall_app]. Qed.

Lemma fan_channels_run sub payload channels : forall i sent w,
  settled w -> sb_Recipients sub <> [] ->
  let reqs := imap (fun j c => mkSend (sb_TenantID sub) c (default "" (recipient_at (sb_Recipients sub) (i + j)))
                                 (sb_Template sub) payload) channels in
  exists w' l e, fan_channels env sub payload i channels sent w
                 = (w', (Fanned (sent ++ l) e, bool_decide (e = None))) /\
    settled w' /\ subs (nf_store w') = subs (nf_store w) /\
    match e with None => fanned_all reqs l | Some _ => cut_short reqs l end.
Proof.
  induction channels as [|c channels IH]; intros i sent w Hs Hr reqs; simpl.
  { exists w, [], None. rewrite app_nil_r. split_and!; try done; by split; [|apply Forall_nil_2]. }
  destruct (recipient_at (sb_Recipients sub) i) as [rcp|] eqn:Er; [|by destruct (sb_Recipients sub)].
  destruct (Send_run (mkSend (sb_TenantID sub) c rcp (sb_Template sub) payload) w Hs)
    as (w1 & n & e & -> & Hs1 & Es & Hn).
  assert (Hreqs : reqs = mkSend (sb_TenantID sub) c rcp (sb_Template sub) payload ::
    imap (fun j c => mkSend (sb_TenantID sub) c (default "" (recipient_at (sb_Recipients sub) (S i + j)))
                       (sb_Template sub) payload) channels).
  { unfold reqs. rewrite imap_cons. f_equal.
    - rewrite Nat.add_0_r, Er. done.
    - apply imap_ext. intros j x _. simpl. by rewrite Nat.add_succ_r. }
  clearbody reqs. subst reqs. destruct e as [e|].
  { exists w1, [n], (Some e). split_and!; try done. exists [], n. split_and!; [done|apply prefix_nil|constructor]. }
  destruct (Hn eq_refl) as (Hm & Hst & _). assert (Hone : fanned_all
    [mkSend (sb_TenantID sub) c rcp (sb_Template sub) payload] [n]) by (split; [by simpl; rewrite Hm|by repeat constructor]).
  destruct (IH (S i) (sent ++ [n]) w1 Hs1 Hr) as (w2 & l & e & -> & Hs2 & Es2 & Hl).
  exists w2, (n :: l), e. rewrite <- app_assoc. split_and!; [done..|congruence|].
  destruct e as [e|]; [exact (cut_short_app _ _ _ _ Hone Hl)|exact (fanned_all_app _ _ _ _ Hone Hl)].
Qed.

Lemma fan_subs_run payload l : forall sent w, settled w -> Forall sub_ok l ->
  exists w' sent' e, fan_subs env payload l sent w = (w', Fanned (sent ++ sent') e) /\ settled w' /\
    match e with
    | None => fanned_all (l ≫= fan_requests payload) sent'
    | Some _ => cut_short (l ≫= fan_requests payload) sent'
    end.
Proof.
  induction l as [|sub l IH]; intros sent w Hs Hl; simpl.
  { exists w, [], None. rewrite app_nil_r. split_and!; try done; by split; [|apply Forall_nil_2]. }
  apply Forall_cons in Hl as [(_ & Hr & _) Hl].
  destruct (fan_channels_run sub payload (sb_Channels sub) 0 sent w Hs Hr) as (w1 & l1 & e & -> & Hs1 & _ & Hone).
  destruct e as [e|]; simpl.
  { exists w1, l1, (Some e). split_and!; try done. destruct Hone as (l' & n & E & Hp & Ha). exists l', n.
    split_and!; [done| |done]. rewrite fmap_app. by apply prefix_app_r. }
  destruct (IH (sent ++ l1) w1 Hs1 Hl) as (w2 & l2 & e & -> & Hs2 & Htwo).
  exists w2, (l1 ++ l2), e. rewrite app_assoc. split_and!; [done..|].
  destruct e; [by apply cut_short_app|by apply fanned_all_app].
Qed.

Lemma FanOut_run event w : settled w ->
  exists w' l sent e, FanOut env event w = (w', Fanned sent e) /\ settled w' /\
    (forall s, s ∈ l <-> s ∈ subs (nf_store w) /\ subscribed (ev_TenantID event) (ev_Type event) s = true) /\
    match e with
    | None => fanned_all (l ≫= fan_requests (ev_Payload event)) sent
    | Some _ => cut_short (l ≫= fan_requests (ev_Payload event)) sent
    end.
Proof.
  intros Hs. unfold FanOut. pose proof Hs as [[Hok _] Ha].
  destruct (list_subs_law (nf_store w) (ev_TenantID event) (ev_Type event) Hok) as (l & -> & Hl).
  destruct (fan_subs_run (ev_Payload event) l [] w Hs) as (w' & sent & e & -> & Hs' & He).
  { apply Forall_forall. intros s [Hin _]%Hl. by apply (proj1 (Forall_forall _ _) (ac_subs _ _ _ _ _ Ha)). }
  exists w', l, sent, e. by split_and!.
Qed.

(** ** Any sequence of operations *)

Lemma Subscribe_settled sub w : settled w -> settled (Subscribe env sub w).1.
Proof.
  intros Hs. unfold Subscribe. destruct (_ || _) eqn:E; [done|]. unfold st. pose proof Hs as [Hu Ha].
  destruct (subscribe_law (nf_store w) (e_clock env (nf_reads w)) (e_uuid env (nf_ids w)) (with_template sub)
    (proj1 Hu)) as (s' & id & -> & Hw & Hn & Ht & Hsub).
  split; [by apply (nf_usable_wrote w)|]. simpl. rewrite Hn, Ht. destruct Ha as [? ? ? ? ? Hss]. split; try done.
  apply Forall_forall. intros y [->|Hy]%Hsub; [|by apply (proj1 (Forall_forall _ _) Hss)].
  unfold is_empty in E. rewrite !orb_false_iff, !bool_decide_eq_false in E. destruct E as [[[E1 _] _] E4].
  split_and!; [done..|]. simpl. unfold first_nonempty, is_empty. by case_bool_decide.
Qed.

(** The last operation is an outage: the next message of adapter [a] fails. *)
Inductive nf_op :=
  | OpSend (req : option SendRequest)
  | OpSubscribe (req : option Subscription)
  | OpFanOut (event : Event)
  | OpLeadHot (msg : option leadEvent)
  | OpHandoff (msg : option leadEvent)
  | OpOutage (a : string) (err : string).

Definition outage (a err : string) (w : W) : W :=
  mkNf (nf_store w) (<[a := Adapter.mk (delivered (nf_adapters w) a) (Some err)]> (nf_adapters w)) (nf_reads w)
    (nf_ids w).

Definition nf_step (w : W) (o : nf_op) : W :=
  match o with
  | OpSend req => (handleSend env req w).1
  | OpSubscribe req => (handleSubscribe env req w).1
  | OpFanOut event => (FanOut env event w).1
  | OpLeadHot msg => (onLeadHot env msg w).1
  | OpHandoff msg => (onHandoffRequested env msg w).1
  | OpOutage a err => outage a err w
  end.

Definition nf_run (w : W) (os : list nf_op) : W := foldl nf_step w os.

Ltac sent_ok :=
  match goal with
  | Hs : settled ?w |- context [Send env ?r ?w] => by destruct (Send_run r w Hs) as (? & ? & ? & -> & ? & _)
  end.

Lemma step_settled o w : settled w -> settled (nf_step w o).
Proof.
  intros Hs. destruct o as [[req|]|[req|]|event|[ev|]|[ev|]|a err]; simpl; try done.
  - sent_ok.
  - pose proof (Subscribe_settled req w Hs). by destruct (Subscribe env req w) as [w' [s [e|]]].
  - destruct (FanOut_run event w Hs) as (w' & l & sent & e & -> & Hs' & _). done.
  - destruct (_ || _); [done|]. sent_ok.
  - destruct (_ || _); [done|]. sent_ok.
  - destruct Hs as [Hu [? ? Hd ? ? ?]]. split; [done|]. split; try done. intros b. rewrite <- Hd. simpl.
    unfold delivered at 1. destruct (decide (b = a)) as [->|N]; [by rewrite lookup_insert_eq|].
    by rewrite lookup_insert_ne.
Qed.

Lemma run_settled os w : settled w -> settled (nf_run w os).
Proof. revert w. induction os as [|o os IH]; intros w Hs; [done|]. simpl. by apply IH, step_settled. Qed.
End Runs.

Lemma nf_start_settled {T} `{NfView T} (env : NfEnv) (w : Nf T) :
  nf_usable env w -> nf_adapters w = ∅ -> notes (nf_store w) = [] -> subs (nf_store w) = [] ->
  tasks (nf_store w) = [] -> settled env w.
Proof.
  intros Hu Ea En Es Et. split; [done|]. rewrite Ea, En, Es, Et. split; by try constructor.
Qed.

(** C29: Every message is accounted for.  From an empty store that answers, whatever is sent,
    fanned out or delivered by the bus and whichever adapters fail: the messages
    an adapter has delivered are exactly those of its notifications marked sent;
    every other notification is marked failed and has exactly one retry task,
    which carries its recipient and its error. *)
Theorem every_message_is_accounted {T} `{NfLaws T} env (w : Nf T) os :
  nf_env_ok env -> nf_usable env w -> nf_adapters w = ∅ -> notes (nf_store w) = [] -> subs (nf_store w) = [] ->
  tasks (nf_store w) = [] ->
  let w' := nf_run env w os in
  (forall a, delivered (nf_adapters w') a ≡ₚ message_of <$> filter (sent_by env a) (notes (nf_store w'))) /\
  Forall (fun n => no_Status n = StatusSent \/ no_Status n = StatusFailed) (notes (nf_store w')) /\
  rt_NotificationID <$> tasks (nf_store w') ≡ₚ no_ID <$> filter failed (notes (nf_store w')) /\
  Forall (fun t => exists n, n ∈ notes (nf_store w') /\ failed n /\ task_of n t) (tasks (nf_store w')) /\
  NoDup (no_ID <$> notes (nf_store w')).
Proof.
  intros Henv Hu Ea En Es Et w'.
  destruct (run_settled env Henv os w (nf_start_settled env w Hu Ea En Es Et)) as [_ [? ? ? ? ? _]].
  by split_and!.
Qed.

(** A fan-out reaches the channels of its subscriptions in order.  It never
    panics; for the subscriptions of the tenant to the event, each channel gets
    one message, to the recipient at its place or to the first; when it fails,
    every message before the failure was sent and none after it. *)
Theorem fan_out_reaches_channels_in_order {T} `{NfLaws T} env (w : Nf T) os event :
  nf_env_ok env -> nf_usable env w -> nf_adapters w = ∅ -> notes (nf_store w) = [] -> subs (nf_store w) = [] ->
  tasks (nf_store w) = [] ->
  let w' := nf_run env w os in
  exists l sent e, (FanOut env event w').2 = Fanned sent e /\
    (forall s, s ∈ l <-> s ∈ subs (nf_store w') /\ subscribed (ev_TenantID event) (ev_Type event) s = true) /\
    match e with
    | None => fanned_all (l ≫= fan_requests (ev_Payload event)) sent
    | Some _ => cut_short (l ≫= fan_requests (ev_Payload event)) sent
    end.
Proof.
  intros Henv Hu Ea En Es Et w'.
  destruct (FanOut_run env Henv event w' (run_settled env Henv os w (nf_start_settled env w Hu Ea En Es Et)))
    as (w1 & l & sent & e & -> & _ & Hl & He). by exists l, sent, e.
Qed.

(** ** A sample run *)

(** The channels as the server configures them. *)
Definition nf_env : NfEnv :=
  mkNfEnv (fun c => if bool_decide (c ∈ [ChannelDashboard; ChannelWhatsApp; ChannelEmail; ChannelSlack;
                                         ChannelDiscord; ChannelCRM]) then Some c else None)
    (fun n => Z.of_nat n) (fun n => Z.of_nat n) itoa.

Definition nf_start : Nf PgNf.t := mkNf PgNf.empty ∅ 0 0.

Lemma nf_env_fine : nf_env_ok nf_env.
Proof. intros i j E. by apply (inj (pretty (A:=nat))). Qed.

Lemma nf_start_ready : nf_usable nf_env nf_start.
Proof. split; [|done]. split_and!; try done. constructor. Qed.

Definition two_channels : Subscription :=
  mkSub "" "t1" ["handoff.created"] [ChannelEmail; ChannelSlack; "sms"] ["a@b.c"; "hook"] "" time_zero.

Definition nf_ops : list nf_op :=
  [ OpSubscribe (Some two_channels); OpOutage ChannelEmail "outage";
    OpSend (Some (mkSend "t1" ChannelEmail "x@y.z" "hello" [])) ].

Definition created : Event := mkEvent "t1" "handoff.created" [].

Lemma every_message_is_accounted_witness :
  let w' := nf_run nf_env nf_start (nf_ops ++ [OpFanOut created]) in
  length (tasks (nf_store w')) = 2%nat /\ length (delivered (nf_adapters w') ChannelSlack) = 1%nat /\
  rt_NotificationID <$> tasks (nf_store w') ≡ₚ no_ID <$> filter failed (notes (nf_store w')).
Proof.
  intros w'. split; [vm_compute; reflexivity|]. split; [vm_compute; reflexivity|].
  apply (every_message_is_accounted nf_env nf_start (nf_ops ++ [OpFanOut created]) nf_env_fine nf_start_ready);
    reflexivity.
Defined.

Lemma fan_out_reaches_channels_in_order_witness :
  exists l sent e, (FanOut nf_env created (nf_run nf_env nf_start nf_ops)).2 = Fanned sent (Some e) /\
    cut_short (l ≫= fan_requests []) sent.
Proof.
  destruct (fan_out_reaches_channels_in_order nf_env nf_start nf_ops created nf_env_fine nf_start_ready)
    as (l & sent & e & E & _ & He); [reflexivity..|].
  assert (X : exists sent e, (FanOut nf_env created (nf_run nf_env nf_start nf_ops)).2 = Fanned sent (Some e))
    by (vm_compute; eexists _, _; reflexivity).
  destruct X as (sent' & e' & X). rewrite X in E. injection E as -> <-. exists l, sent, e'. split; [exact X|exact He].
Defined.

(** ** What the service does not do *)

(** A request that is refused is answered 202, with an empty notification. *)
Theorem invalid_request_is_accepted {T} `{NfStore T} env (w : Nf T) req :
  sr_TenantID req = ""%string -> handleSend env (Some req) w = (w, (202, inr zero_note)).
Proof. intros E. unfold handleSend, Send, is_empty. by rewrite E, bool_decide_true. Qed.

(** A subscription posted with the id of another tenant's replaces it. *)
Theorem subscription_id_overwrites_tenant :
  let w := nf_run nf_env nf_start [OpSubscribe (Some two_channels)] in
  let theirs := mkSub "subscription-0" "t2" ["other"] [ChannelEmail] ["m@n.o"] "" time_zero in
  exists w' s, handleSubscribe nf_env (Some theirs) w = (w', (201, inr s)) /\
    ListSubscriptions (nf_store w) "t1" "" <> inr [] /\ ListSubscriptions (nf_store w') "t1" "" = inr [].
Proof. vm_compute. by eexists _, _. Qed.

(** The store after its database went away. *)
Definition notes_down (w : Nf PgNf.t) : Nf PgNf.t :=
  let p := nf_store w in
  mkNf (PgNf.mk (mkKv (kv_rows (PgNf.notifications p)) false) (PgNf.subscriptions p) (PgNf.retries p))
    (nf_adapters w) (nf_reads w) (nf_ids w).

(** A message that was sent but could not be recorded is sent again when the
    bus delivers the event again. *)
Theorem unrecorded_message_is_repeated :
  let ev := Some (mkLeadEvent "l1" "t1" "c1" "r1" "" "") in
  let r1 := onLeadHot nf_env ev (notes_down nf_start) in
  let r2 := onLeadHot nf_env ev r1.1 in
  r1.2 <> None /\ r2.2 <> None /\ length (delivered (nf_adapters r2.1) ChannelDashboard) = 2%nat.
Proof. vm_compute. by split_and!. Qed.

(** A message that fails is scheduled for a retry and also handed back to the
    bus: every delivery that fails adds a retry task. *)
Theorem redelivery_adds_retry_tasks :
  let ev := Some (mkLeadEvent "l1" "t1" "c1" "r1" "" "") in
  let w := nf_run nf_env nf_start
    [OpOutage ChannelDashboard "outage"; OpLeadHot ev; OpOutage ChannelDashboard "outage"; OpLeadHot ev] in
  length (tasks (nf_store w)) = 2%nat /\
  (onLeadHot nf_env ev (nf_run nf_env nf_start [OpOutage ChannelDashboard "outage"])).2 = Some "outage"%string.
Proof. by vm_compute. Qed.
