(* ===== verification/AdminApi.v ===== *)
(** * internal-admin-api: tenants, providers, kill switches and the audit log

    [services/internal-admin-api/internal]: the model, both stores with the
    records they start with, the service and its handlers.  The clock of the
    service, the clock and the UUIDs of the stores and the order in which a Go
    map is ranged over come from [AaEnv]; bodies are [None] when they cannot be
    decoded. *)

From stdpp Require Import pretty.
From S2P Require Import Prelude GoTime Float64 Kv GoMonad GoStrings.

Open Scope Z_scope.

(** ** Model *)

Definition RoleSuperAdmin : string := "super_admin".
Definition RoleOpsAdmin : string := "ops_admin".
Definition RoleSupportAgent : string := "support_agent".
Definition RoleClientOwner : string := "client_owner".

Record Actor := mkActor { ac_ID : string; ac_Role : string }.
Record ActionRequest := mkAction { ar_Reason : string; ar_TicketID : string }.

Definition TenantActive : string := "active".
Definition TenantSuspended : string := "suspended".
Definition TenantDeleted : string := "deleted".

Record Tenant := mkTenant {
  tn_ID : string;
  tn_Name : string;
  tn_Status : string;
  tn_Plan : string;
  tn_CreatedAt : Z;
  tn_UpdatedAt : Z
}.

Record ProviderHealth := mkProvider {
  ph_Provider : string;
  ph_Online : bool;
  ph_RollingFailureRate : float64;
  ph_CircuitOpen : bool;
  ph_InFlightCalls : Z;
  ph_P95LatencyMS : Z;
  ph_LastError : string;
  ph_UpdatedAt : Z
}.

Record FailedJob := mkFailedJob {
  fj_ID : string;
  fj_Queue : string;
  fj_Subject : string;
  fj_WorkflowID : string;
  fj_TenantID : string;
  fj_Error : string;
  fj_Attempts : Z;
  fj_FailedAt : Z
}.

Record LeadTimelineEvent := mkTimeline { lt_At : Z; lt_Type : string; lt_Detail : string }.

Record LeadSearchResult := mkLeadResult {
  lr_LeadID : string;
  lr_TenantID : string;
  lr_Phone : string;
  lr_Name : string;
  lr_Status : string;
  lr_Timeline : list LeadTimelineEvent
}.

Record AuditEntry := mkAudit {
  au_ID : string;
  au_ActorID : string;
  au_ActorRole : string;
  au_Action : string;
  au_TargetType : string;
  au_TargetID : string;
  au_TenantID : string;
  au_Reason : string;
  au_TicketID : string;
  au_Metadata : list (string * string);
  au_CreatedAt : Z
}.

Record AuditFilter := mkFilter { fi_TenantID : string; fi_ActorID : string; fi_Action : string }.

Record FeatureFlag := mkFlag {
  ff_Key : string;
  ff_TenantID : string;
  ff_Enabled : bool;
  ff_Description : string;
  ff_UpdatedAt : Z
}.

Record KillSwitch := mkKill {
  ks_Scope : string;
  ks_ScopeID : string;
  ks_Provider : string;
  ks_Active : bool;
  ks_Draining : bool;
  ks_DrainedCalls : Z;
  ks_Reason : string;
  ks_TicketID : string;
  ks_UpdatedAt : Z
}.

Record AIQualityItem := mkQuality {
  qi_ID : string;
  qi_TenantID : string;
  qi_SessionID : string;
  qi_Status : string;
  qi_Reason : string;
  qi_CreatedAt : Z
}.

(** ** The records both stores start with *)

(** [time.Date(2026, 5, 18, 9, 0, 0, 0, time.UTC)]. *)
Definition seed_time : Z := 1779094800 * second.

Definition seed_tenants : list Tenant := [
  mkTenant "tenant-north" "North Star Realty" TenantActive "growth" seed_time seed_time;
  mkTenant "tenant-west" "Westline Estates" TenantActive "scale" seed_time seed_time
]%string.

Definition seed_provider (name : string) (percent latency : Z) : ProviderHealth :=
  mkProvider name true (f_dec percent 2) false 0 latency "" seed_time.

Definition seed_providers : list ProviderHealth := [
  seed_provider "plivo" 1 120;
  seed_provider "meta_wa" 3 180;
  seed_provider "groq" 2 90;
  seed_provider "openrouter" 4 240;
  seed_provider "sarvam" 2 160;
  seed_provider "elevenlabs" 5 260;
  mkProvider "vllm" false (f_of_int 1) false 0 0 "endpoint not configured" seed_time;
  seed_provider "indicconformer" 1 140
]%string.

Definition seed_jobs : list FailedJob := [
  mkFailedJob "dlq-001" "nats.dlq.calls" "call.completed" "wf-991" "tenant-north" "billing cap exceeded" 3
    (seed_time - 20 * minute);
  mkFailedJob "tmp-884" "temporal.failed" "campaign-run" "campaign-77" "tenant-west" "provider circuit open" 2
    (seed_time - 46 * minute)
]%string.

Definition seed_lead : LeadSearchResult :=
  mkLeadResult "lead-9001" "tenant-north" "+919876543210" "Amit Verma" "hot"
    [mkTimeline (seed_time - 2 * hour) "call.started" "AI qualified 2BHK budget around 85 lakh";
     mkTimeline (seed_time - 90 * minute) "site_visit.booked" "Booked for Saturday 11:00"].

Definition seed_flags : list FeatureFlag := [
  mkFlag "ai_quality_review" "tenant-north" true "Route low-confidence AI sessions to review" seed_time;
  mkFlag "premium_tts" "tenant-west" false "Allow ElevenLabs fallback" seed_time
]%string.

Definition seed_item : AIQualityItem :=
  mkQuality "qa-101" "tenant-north" "sess-551" "queued" "low confidence handoff" (seed_time - 12 * minute).

(** ** Stores *)

(** A range over a Go map, as the values in the order they are visited. *)
Definition ranging : Type := forall A : Type, gmap string A -> list A.

Class AaStore (T : Type) := {
  ListTenants : T -> ranging -> string + list Tenant;
  GetTenant : T -> string -> string + option Tenant;
  SaveTenant : T -> Tenant -> T * error;
  ListProviders : T -> ranging -> string + list ProviderHealth;
  GetProvider : T -> string -> string + option ProviderHealth;
  SaveProvider : T -> ProviderHealth -> T * error;
  ListFailedJobs : T -> string + list FailedJob;
  SearchLeadByPhone : T -> string -> string + list LeadSearchResult;
  AppendAudit : T -> Z -> string -> AuditEntry -> T * error;
  ListAudit : T -> AuditFilter -> string + list AuditEntry;
  ListFeatureFlags : T -> ranging -> string + list FeatureFlag;
  SaveFeatureFlag : T -> Z -> FeatureFlag -> T * error;
  SaveKillSwitch : T -> Z -> KillSwitch -> T * error;
  GetKillSwitch : T -> string -> string -> string + option KillSwitch;
  ListAIQualityItems : T -> string + list AIQualityItem
}.

Definition pair_key (a b : string) : string := (a ++ ":" ++ b)%string.

Definition phone_matches (phone : string) (l : LeadSearchResult) : bool :=
  contains (lr_Phone l) phone || contains phone (lr_Phone l).

Definition audit_passes (f : AuditFilter) (e : AuditEntry) : bool :=
  (is_empty (fi_TenantID f) || bool_decide (au_TenantID e = fi_TenantID f)) &&
  (is_empty (fi_ActorID f) || bool_decide (au_ActorID e = fi_ActorID f)) &&
  (is_empty (fi_Action f) || bool_decide (au_Action e = fi_Action f)).

Module FakeAa.

Record t := mk {
  tenants : gmap string Tenant;
  providers : gmap string ProviderHealth;
  failedJobs : list FailedJob;
  leads : list LeadSearchResult;
  audit : list AuditEntry;
  featureFlags : gmap string FeatureFlag;
  killSwitches : gmap string KillSwitch;
  qualityItems : list AIQualityItem
}.

(** The flags start out under their keys alone, unlike those saved later. *)
Definition NewFake : t :=
  mk (list_to_map ((fun x => (tn_ID x, x)) <$> seed_tenants))
     (list_to_map ((fun x => (ph_Provider x, x)) <$> seed_providers))
     seed_jobs [seed_lead] []
     (list_to_map ((fun x => (ff_Key x, x)) <$> seed_flags)) ∅ [seed_item].

Definition set_tenants x (f : t) : t :=
  mk x (providers f) (failedJobs f) (leads f) (audit f) (featureFlags f) (killSwitches f) (qualityItems f).
Definition set_providers x (f : t) : t :=
  mk (tenants f) x (failedJobs f) (leads f) (audit f) (featureFlags f) (killSwitches f) (qualityItems f).
Definition set_audit x (f : t) : t :=
  mk (tenants f) (providers f) (failedJobs f) (leads f) x (featureFlags f) (killSwitches f) (qualityItems f).
Definition set_featureFlags x (f : t) : t :=
  mk (tenants f) (providers f) (failedJobs f) (leads f) (audit f) x (killSwitches f) (qualityItems f).
Definition set_killSwitches x (f : t) : t :=
  mk (tenants f) (providers f) (failedJobs f) (leads f) (audit f) (featureFlags f) x (qualityItems f).

Definition listTenants (f : t) (r : ranging) : string + list Tenant := inr (r _ (tenants f)).
Definition getTenant (f : t) (id : string) : string + option Tenant := inr (tenants f !! id).
Definition saveTenant (f : t) (x : Tenant) : t * error := (set_tenants (<[tn_ID x := x]> (tenants f)) f, None).

Definition listProviders (f : t) (r : ranging) : string + list ProviderHealth := inr (r _ (providers f)).
Definition getProvider (f : t) (name : string) : string + option ProviderHealth := inr (providers f !! name).
Definition saveProvider (f : t) (x : ProviderHealth) : t * error :=
  (set_providers (<[ph_Provider x := x]> (providers f)) f, None).

Definition zero_provider : ProviderHealth := mkProvider "" false (f_of_int 0) false 0 0 "" time_zero.

Definition setProviderInFlight (f : t) (name : string) (inFlight : Z) : t :=
  let h := default zero_provider (providers f !! name) in
  set_providers (<[name := mkProvider name true (ph_RollingFailureRate h) (ph_CircuitOpen h) inFlight
                             (ph_P95LatencyMS h) (ph_LastError h) (ph_UpdatedAt h)]> (providers f)) f.

Definition listFailedJobs (f : t) : string + list FailedJob := inr (failedJobs f).
Definition searchLeadByPhone (f : t) (phone : string) : string + list LeadSearchResult :=
  inr (List.filter (phone_matches phone) (leads f)).

Definition appendAudit (f : t) (now : Z) (uid : string) (e : AuditEntry) : t * error :=
  (set_audit (audit f ++ [e]) f, None).
Definition listAudit (f : t) (filter_ : AuditFilter) : string + list AuditEntry :=
  inr (List.filter (audit_passes filter_) (audit f)).

Definition listFeatureFlags (f : t) (r : ranging) : string + list FeatureFlag := inr (r _ (featureFlags f)).
Definition saveFeatureFlag (f : t) (now : Z) (x : FeatureFlag) : t * error :=
  (set_featureFlags (<[pair_key (ff_TenantID x) (ff_Key x) := x]> (featureFlags f)) f, None).

Definition saveKillSwitch (f : t) (now : Z) (x : KillSwitch) : t * error :=
  (set_killSwitches (<[pair_key (ks_Scope x) (ks_ScopeID x) := x]> (killSwitches f)) f, None).
Definition getKillSwitch (f : t) (scope scopeID : string) : string + option KillSwitch :=
  inr (killSwitches f !! pair_key scope scopeID).

Definition listAIQualityItems (f : t) : string + list AIQualityItem := inr (qualityItems f).

End FakeAa.

Definition stamp_audit (id : string) (now : Z) (e : AuditEntry) : AuditEntry :=
  mkAudit (or_new (au_ID e) id) (au_ActorID e) (au_ActorRole e) (au_Action e) (au_TargetType e) (au_TargetID e)
    (au_TenantID e) (au_Reason e) (au_TicketID e) (au_Metadata e) (or_now (au_CreatedAt e) now).

Definition stamp_flag (now : Z) (x : FeatureFlag) : FeatureFlag :=
  mkFlag (ff_Key x) (ff_TenantID x) (ff_Enabled x) (ff_Description x) (or_now (ff_UpdatedAt x) now).

Definition stamp_kill (now : Z) (x : KillSwitch) : KillSwitch :=
  mkKill (ks_Scope x) (ks_ScopeID x) (ks_Provider x) (ks_Active x) (ks_Draining x) (ks_DrainedCalls x)
    (ks_Reason x) (ks_TicketID x) (or_now (ks_UpdatedAt x) now).

Module PgAa.

Record t := mk {
  meta : kv bool;
  tenants : kv Tenant;
  providers : kv ProviderHealth;
  failed_jobs : kv FailedJob;
  leads : kv LeadSearchResult;
  audit : kv AuditEntry;
  feature_flags : kv FeatureFlag;
  kill_switches : kv KillSwitch;
  ai_quality : kv AIQualityItem
}.

Definition empty : t := mk kv_empty kv_empty kv_empty kv_empty kv_empty kv_empty kv_empty kv_empty kv_empty.

Definition set_meta x (p : t) : t :=
  mk x (tenants p) (providers p) (failed_jobs p) (leads p) (audit p) (feature_flags p) (kill_switches p)
    (ai_quality p).
Definition set_tenants x (p : t) : t :=
  mk (meta p) x (providers p) (failed_jobs p) (leads p) (audit p) (feature_flags p) (kill_switches p)
    (ai_quality p).
Definition set_providers x (p : t) : t :=
  mk (meta p) (tenants p) x (failed_jobs p) (leads p) (audit p) (feature_flags p) (kill_switches p)
    (ai_quality p).
Definition set_failed_jobs x (p : t) : t :=
  mk (meta p) (tenants p) (providers p) x (leads p) (audit p) (feature_flags p) (kill_switches p)
    (ai_quality p).
Definition set_leads x (p : t) : t :=
  mk (meta p) (tenants p) (providers p) (failed_jobs p) x (audit p) (feature_flags p) (kill_switches p)
    (ai_quality p).
Definition set_audit x (p : t) : t :=
  mk (meta p) (tenants p) (providers p) (failed_jobs p) (leads p) x (feature_flags p) (kill_switches p)
    (ai_quality p).
Definition set_feature_flags x (p : t) : t :=
  mk (meta p) (tenants p) (providers p) (failed_jobs p) (leads p) (audit p) x (kill_switches p)
    (ai_quality p).
Definition set_kill_switches x (p : t) : t :=
  mk (meta p) (tenants p) (providers p) (failed_jobs p) (leads p) (audit p) (feature_flags p) x
    (ai_quality p).
Definition set_ai_quality x (p : t) : t :=
  mk (meta p) (tenants p) (providers p) (failed_jobs p) (leads p) (audit p) (feature_flags p)
    (kill_switches p) x.

(** [p.kv.Put(ctx, collection, key, x)]. *)
Definition put {A} (coll : t -> kv A) (upd : kv A -> t -> t) (p : t) (key : string) (x : A) : t * error :=
  let '(c, e) := kv_set (coll p) key x in (upd c p, e).

Definition listed {A} (c : kv A) : string + list A := match kv_list c with Err e => inl e | Ok l => inr l end.
Definition found {A} (c : kv A) (k : string) : string + option A :=
  match kv_get c k with Err e => inl e | Ok x => inr x end.

Definition listTenants (p : t) (r : ranging) : string + list Tenant := listed (tenants p).
Definition getTenant (p : t) (id : string) : string + option Tenant := found (tenants p) id.
Definition saveTenant (p : t) (x : Tenant) : t * error := put tenants set_tenants p (tn_ID x) x.

Definition listProviders (p : t) (r : ranging) : string + list ProviderHealth := listed (providers p).
Definition getProvider (p : t) (name : string) : string + option ProviderHealth := found (providers p) name.
Definition saveProvider (p : t) (x : ProviderHealth) : t * error :=
  put providers set_providers p (ph_Provider x) x.

Definition listFailedJobs (p : t) : string + list FailedJob := listed (failed_jobs p).
Definition searchLeadByPhone (p : t) (phone : string) : string + list LeadSearchResult :=
  match kv_list (leads p) with
  | Err e => inl e
  | Ok l => inr (List.filter (phone_matches phone) l)
  end.

Definition appendAudit (p : t) (now : Z) (uid : string) (e : AuditEntry) : t * error :=
  let e := stamp_audit (new_id "audit" uid) now e in put audit set_audit p (au_ID e) e.
Definition listAudit (p : t) (filter_ : AuditFilter) : string + list AuditEntry :=
  match kv_list (audit p) with
  | Err e => inl e
  | Ok l => inr (List.filter (audit_passes filter_) l)
  end.

Definition listFeatureFlags (p : t) (r : ranging) : string + list FeatureFlag := listed (feature_flags p).
Definition saveFeatureFlag (p : t) (now : Z) (x : FeatureFlag) : t * error :=
  let x := stamp_flag now x in put feature_flags set_feature_flags p (pair_key (ff_TenantID x) (ff_Key x)) x.

Definition saveKillSwitch (p : t) (now : Z) (x : KillSwitch) : t * error :=
  let x := stamp_kill now x in put kill_switches set_kill_switches p (pair_key (ks_Scope x) (ks_ScopeID x)) x.
Definition getKillSwitch (p : t) (scope scopeID : string) : string + option KillSwitch :=
  found (kill_switches p) (pair_key scope scopeID).

Definition listAIQualityItems (p : t) : string + list AIQualityItem := listed (ai_quality p).

(** A loop of writes that stops at the first error. *)
Fixpoint put_all {A} (write : t -> A -> t * error) (l : list A) (p : t) : t * error :=
  match l with
  | [] => (p, None)
  | x :: l' => match write p x with
               | (p, Some e) => (p, Some e)
               | (p, None) => put_all write l' p
               end
  end.

(** [if err := f(); err != nil { return err }; g()]. *)
Definition and_then (r : t * error) (f : t -> t * error) : t * error :=
  match r with (p, Some e) => (p, Some e) | (p, None) => f p end.

Definition seedDefaults (p : t) : t * error :=
  match kv_insert (meta p) "seeded" true with
  | Err e => (p, Some e)
  | Ok (m, false) => (set_meta m p, None)
  | Ok (m, true) =>
      and_then (put_all (fun p x => put tenants set_tenants p (tn_ID x) x) seed_tenants (set_meta m p)) (fun p =>
      and_then (put_all (fun p x => put providers set_providers p (ph_Provider x) x) seed_providers p) (fun p =>
      and_then (put_all (fun p x => put failed_jobs set_failed_jobs p (fj_ID x) x) seed_jobs p) (fun p =>
      and_then (put leads set_leads p (lr_LeadID seed_lead) seed_lead) (fun p =>
      and_then (put_all (fun p x => put feature_flags set_feature_flags p
                                      (pair_key (ff_TenantID x) (ff_Key x)) x) seed_flags p) (fun p =>
      put ai_quality set_ai_quality p (qi_ID seed_item) seed_item)))))
  end.

End PgAa.

#[export] Instance fake_aa_store : AaStore FakeAa.t := {
  ListTenants := FakeAa.listTenants; GetTenant := FakeAa.getTenant; SaveTenant := FakeAa.saveTenant;
  ListProviders := FakeAa.listProviders; GetProvider := FakeAa.getProvider; SaveProvider := FakeAa.saveProvider;
  ListFailedJobs := FakeAa.listFailedJobs; SearchLeadByPhone := FakeAa.searchLeadByPhone;
  AppendAudit := FakeAa.appendAudit; ListAudit := FakeAa.listAudit;
  ListFeatureFlags := FakeAa.listFeatureFlags; SaveFeatureFlag := FakeAa.saveFeatureFlag;
  SaveKillSwitch := FakeAa.saveKillSwitch; GetKillSwitch := FakeAa.getKillSwitch;
  ListAIQualityItems := FakeAa.listAIQualityItems
}.

#[export] Instance pg_aa_store : AaStore PgAa.t := {
  ListTenants := PgAa.listTenants; GetTenant := PgAa.getTenant; SaveTenant := PgAa.saveTenant;
  ListProviders := PgAa.listProviders; GetProvider := PgAa.getProvider; SaveProvider := PgAa.saveProvider;
  ListFailedJobs := PgAa.listFailedJobs; SearchLeadByPhone := PgAa.searchLeadByPhone;
  AppendAudit := PgAa.appendAudit; ListAudit := PgAa.listAudit;
  ListFeatureFlags := PgAa.listFeatureFlags; SaveFeatureFlag := PgAa.saveFeatureFlag;
  SaveKillSwitch := PgAa.saveKillSwitch; GetKillSwitch := PgAa.getKillSwitch;
  ListAIQualityItems := PgAa.listAIQualityItems
}.

(** * internal-admin-api: service and handlers

    [internal/service/service.go] and [internal/handler/handler.go] on any
    store. *)

Inductive api_error :=
  | ErrForbidden
  | ErrTicketRequired
  | ErrNotFound
  | ErrBlocked
  | ErrOther (msg : string).

Definition error_message (e : api_error) : string :=
  match e with
  | ErrForbidden => "forbidden"
  | ErrTicketRequired => "reason and ticket_id are required"
  | ErrNotFound => "not found"
  | ErrBlocked => "new provider calls are blocked"
  | ErrOther msg => msg
  end.

(** ** Guards *)

Definition blank (s : string) : bool := is_empty (trim_space s).

Definition requireInternal (a : Actor) : option api_error :=
  if bool_decide (ac_Role a ∈ [RoleSuperAdmin; RoleOpsAdmin; RoleSupportAgent])
  then (if blank (ac_ID a) then Some ErrForbidden else None)
  else Some ErrForbidden.

Definition requireSuper (a : Actor) : option api_error :=
  if negb (bool_decide (ac_Role a = RoleSuperAdmin)) || blank (ac_ID a) then Some ErrForbidden else None.

Definition requireSuperOrOps (a : Actor) : option api_error :=
  if (bool_decide (ac_Role a = RoleSuperAdmin) || bool_decide (ac_Role a = RoleOpsAdmin)) && negb (blank (ac_ID a))
  then None else Some ErrForbidden.

Definition requireTicket (r : ActionRequest) : option api_error :=
  if blank (ar_Reason r) || blank (ar_TicketID r) then Some ErrTicketRequired else None.

Definition tenantForScope (scope scopeID : string) : string :=
  if bool_decide (scope = "tenant"%string) then scopeID else "".

(** ** The service *)

Record AaEnv := mkAaEnv {
  e_now : nat -> Z;
  e_clock : nat -> Z;
  e_uuid : nat -> string;
  e_range : nat -> ranging
}.

(** [aa_seq] is the counter of the process, a [uint64]. *)
Record Aa (T : Type) := mkAa { aa_store : T; aa_seq : Z; aa_reads : nat; aa_ids : nat }.
Arguments mkAa {T}.
Arguments aa_store {T} a.
Arguments aa_seq {T} a.
Arguments aa_reads {T} a.
Arguments aa_ids {T} a.

Definition with_tenant_status (t : Tenant) (status : string) (updated : Z) : Tenant :=
  mkTenant (tn_ID t) (tn_Name t) status (tn_Plan t) (tn_CreatedAt t) updated.

Definition broken (h : ProviderHealth) (updated : Z) : ProviderHealth :=
  mkProvider (ph_Provider h) false (ph_RollingFailureRate h) true 0 (ph_P95LatencyMS h) "manual circuit break"
    updated.

Section Service.
Context {T : Type} `{!AaStore T} (env : AaEnv).

Abbreviation W := (Aa T).
Abbreviation MA := (M W api_error).

Definition require (e : option api_error) : MA unit := fun w =>
  (w, match e with Some e => inl e | None => inr tt end).

Definition rd {A} (f : T -> string + A) : MA A := fun w =>
  (w, match f (aa_store w) with inl e => inl (ErrOther e) | inr a => inr a end).

(** A read of the store that ranges over a map. *)
Definition rd_range {A} (f : T -> ranging -> string + A) : MA A := fun w =>
  (mkAa (aa_store w) (aa_seq w) (S (aa_reads w)) (aa_ids w),
   match f (aa_store w) (e_range env (aa_reads w)) with inl e => inl (ErrOther e) | inr a => inr a end).

Definition wr (f : T -> Z -> string -> T * error) : MA unit := fun w =>
  let '(s, e) := f (aa_store w) (e_clock env (aa_reads w)) (e_uuid env (aa_ids w)) in
  (mkAa s (aa_seq w) (S (aa_reads w)) (S (aa_ids w)),
   match e with Some e => inl (ErrOther e) | None => inr tt end).

Definition now : MA Z := fun w =>
  (mkAa (aa_store w) (aa_seq w) (S (aa_reads w)) (aa_ids w), inr (e_now env (aa_reads w))).

(** [atomic.AddUint64(&s.seq, 1)]. *)
Definition nextID : MA Z := fun w =>
  let n := (aa_seq w + 1) mod 2 ^ 64 in
  (mkAa (aa_store w) n (aa_reads w) (aa_ids w), inr n).

(** The record, or [ErrNotFound]. *)
Definition found {A} (f : T -> string + option A) : MA A :=
  let! x := rd f in
  match x with Some x => ret x | None => raise ErrNotFound end.

Definition audit (actor : Actor) (action targetType targetID tenantID : string) (req : ActionRequest)
    (metadata : list (string * string)) : MA unit :=
  let! id := nextID in
  let! at_ := now in
  wr (fun s c u => AppendAudit s c u
    (mkAudit ("audit-" ++ pretty id)%string (ac_ID actor) (ac_Role actor) action targetType targetID tenantID
       (ar_Reason req) (ar_TicketID req) metadata at_)).

Definition ListTenants_ (actor : Actor) : MA (list Tenant) :=
  let! _ := require (requireInternal actor) in rd_range ListTenants.

(** The part [SuspendTenant], [ResumeTenant] and [DeleteTenant] share. *)
Definition set_status (actor : Actor) (tenantID status action : string) (req : ActionRequest) : MA Tenant :=
  let! tenant := found (fun s => GetTenant s tenantID) in
  let! at_ := now in
  let tenant := with_tenant_status tenant status at_ in
  let! _ := wr (fun s _ _ => SaveTenant s tenant) in
  let! _ := audit actor action "tenant" tenantID tenantID req [] in
  ret tenant.

Definition SuspendTenant (actor : Actor) (tenantID : string) (req : ActionRequest) : MA Tenant :=
  let! _ := require (requireSuperOrOps actor) in
  let! _ := require (requireTicket req) in
  set_status actor tenantID TenantSuspended "tenant.suspend" req.

Definition ResumeTenant (actor : Actor) (tenantID : string) (req : ActionRequest) : MA Tenant :=
  let! _ := require (requireSuperOrOps actor) in
  set_status actor tenantID TenantActive "tenant.resume" req.

Definition DeleteTenant (actor : Actor) (tenantID : string) (req : ActionRequest) : MA Tenant :=
  let! _ := require (requireSuper actor) in
  let! _ := require (requireTicket req) in
  set_status actor tenantID TenantDeleted "tenant.soft_delete" req.

Definition ImpersonateTenant (actor : Actor) (tenantID : string) (req : ActionRequest) : MA string :=
  let! _ := require (requireSuper actor) in
  let! _ := require (requireTicket req) in
  let! _ := found (fun s => GetTenant s tenantID) in
  let! n := nextID in
  let! _ := audit actor "tenant.impersonate" "tenant" tenantID tenantID req [("target_tenant_id", tenantID)]%string in
  ret ("impersonation:" ++ ac_ID actor ++ ":" ++ tenantID ++ ":" ++ pretty n)%string.

Definition ListProviders_ (actor : Actor) : MA (list ProviderHealth) :=
  let! _ := require (requireInternal actor) in rd_range ListProviders.

Definition PauseProvider (actor : Actor) (provider : string) (req : ActionRequest) : MA KillSwitch :=
  let! _ := require (requireSuper actor) in
  let! _ := require (requireTicket req) in
  let! health := found (fun s => GetProvider s provider) in
  let drained := ph_InFlightCalls health in
  let! at_ := now in
  let! _ := wr (fun s _ _ => SaveProvider s (broken health at_)) in
  let! at_ := now in
  let killSwitch := mkKill "provider" provider provider true (0 <? drained) drained (ar_Reason req)
                      (ar_TicketID req) at_ in
  let! _ := wr (fun s c _ => SaveKillSwitch s c killSwitch) in
  let! _ := audit actor "provider.kill_switch.pause" "provider" provider "" req
              [("drained_calls", pretty drained)]%string in
  ret killSwitch.

Definition PauseScope (actor : Actor) (scope scopeID : string) (req : ActionRequest) : MA KillSwitch :=
  let! _ := require (requireSuper actor) in
  let! _ := require (requireTicket req) in
  let! at_ := now in
  let killSwitch := mkKill scope scopeID "" true false 0 (ar_Reason req) (ar_TicketID req) at_ in
  let! _ := wr (fun s c _ => SaveKillSwitch s c killSwitch) in
  let! _ := audit actor (scope ++ ".kill_switch.pause")%string scope scopeID (tenantForScope scope scopeID) req [] in
  ret killSwitch.

(** The first result is [true] exactly when there is no error. *)
Definition CanStartProviderCall (provider : string) : MA unit :=
  let! health := found (fun s => GetProvider s provider) in
  let! _ := ensure (negb (ph_CircuitOpen health)) ErrBlocked in
  let! k := rd (fun s => GetKillSwitch s "provider" provider) in
  ensure (match k with Some k => negb (ks_Active k) | None => true end) ErrBlocked.

Definition ListFailedJobs_ (actor : Actor) : MA (list FailedJob) :=
  let! _ := require (requireInternal actor) in rd ListFailedJobs.

Definition SearchLeadByPhone_ (actor : Actor) (phone : string) : MA (list LeadSearchResult) :=
  let! _ := require (requireSuper actor) in rd (fun s => SearchLeadByPhone s phone).

Definition ListAudit_ (actor : Actor) (filter_ : AuditFilter) : MA (list AuditEntry) :=
  let! _ := require (requireInternal actor) in rd (fun s => ListAudit s filter_).

Definition ListFeatureFlags_ (actor : Actor) : MA (list FeatureFlag) :=
  let! _ := require (requireInternal actor) in rd_range ListFeatureFlags.

Definition bool_text (b : bool) : string := if b then "true" else "false".

Definition SetFeatureFlag (actor : Actor) (flag : FeatureFlag) (req : ActionRequest) : MA FeatureFlag :=
  let! _ := require (requireSuperOrOps actor) in
  let! _ := ensure (negb (is_empty (ff_Key flag) || is_empty (ff_TenantID flag)))
              (ErrOther "key and tenant_id are required") in
  let! at_ := now in
  let flag := mkFlag (ff_Key flag) (ff_TenantID flag) (ff_Enabled flag) (ff_Description flag) at_ in
  let! _ := wr (fun s c _ => SaveFeatureFlag s c flag) in
  let! _ := audit actor "feature_flag.update" "feature_flag" (ff_Key flag) (ff_TenantID flag) req
              [("enabled", bool_text (ff_Enabled flag))]%string in
  ret flag.

Definition ListAIQualityItems_ (actor : Actor) : MA (list AIQualityItem) :=
  let! _ := require (requireInternal actor) in rd ListAIQualityItems.

(** ** Handlers *)

Inductive aa_body :=
  | BError (msg : string)
  | BTenants (l : list Tenant)
  | BTenant (t : Tenant)
  | BToken (token : string)
  | BProviders (l : list ProviderHealth)
  | BKill (k : KillSwitch)
  | BJobs (l : list FailedJob)
  | BLeads (l : list LeadSearchResult)
  | BAudit (l : list AuditEntry)
  | BFlags (l : list FeatureFlag)
  | BFlag (f : FeatureFlag)
  | BQuality (l : list AIQualityItem).

(** [role] and [adminRole] are the headers [X-Actor-Role] and [X-Admin-Role]. *)
Record Headers := mkHeaders { hd_ActorID : string; hd_ActorRole : string; hd_AdminRole : string }.

Definition actorFrom (h : Headers) : Actor :=
  mkActor (hd_ActorID h) (first_nonempty (hd_ActorRole h) (hd_AdminRole h)).

Definition status_of (e : api_error) : Z :=
  match e with
  | ErrForbidden => 403
  | ErrNotFound => 404
  | ErrBlocked => 423
  | ErrTicketRequired | ErrOther _ => 400
  end.

Definition writeResult {A} (m : MA A) (f : A -> aa_body) (w : W) : W * (Z * aa_body) :=
  let '(w', r) := m w in
  (w', match r with inl e => (status_of e, BError (error_message e)) | inr a => (200, f a) end).

Definition decodeJSON {A} (body : option A) (h : A -> W -> W * (Z * aa_body)) (w : W) : W * (Z * aa_body) :=
  match body with None => (w, (400, BError "invalid json")) | Some a => h a w end.

Record FlagBody := mkFlagBody {
  fb_TenantID : string;
  fb_Enabled : bool;
  fb_Description : string;
  fb_Reason : string;
  fb_TicketID : string
}.

Definition handleListTenants (h : Headers) := writeResult (ListTenants_ (actorFrom h)) BTenants.
Definition handleSuspendTenant (h : Headers) (id : string) (body : option ActionRequest) :=
  decodeJSON body (fun req => writeResult (SuspendTenant (actorFrom h) id req) BTenant).
Definition handleResumeTenant (h : Headers) (id : string) (body : option ActionRequest) :=
  decodeJSON body (fun req => writeResult (ResumeTenant (actorFrom h) id req) BTenant).
Definition handleDeleteTenant (h : Headers) (id : string) (body : option ActionRequest) :=
  decodeJSON body (fun req => writeResult (DeleteTenant (actorFrom h) id req) BTenant).
Definition handleImpersonate (h : Headers) (id : string) (body : option ActionRequest) :=
  decodeJSON body (fun req => writeResult (ImpersonateTenant (actorFrom h) id req) BToken).
Definition handleProviders (h : Headers) := writeResult (ListProviders_ (actorFrom h)) BProviders.
Definition handlePauseProvider (h : Headers) (provider : string) (body : option ActionRequest) :=
  decodeJSON body (fun req => writeResult (PauseProvider (actorFrom h) provider req) BKill).
Definition handlePauseTenant (h : Headers) (id : string) (body : option ActionRequest) :=
  decodeJSON body (fun req => writeResult (PauseScope (actorFrom h) "tenant" id req) BKill).
Definition handlePauseCampaign (h : Headers) (id : string) (body : option ActionRequest) :=
  decodeJSON body (fun req => writeResult (PauseScope (actorFrom h) "campaign" id req) BKill).
Definition handleFailedJobs (h : Headers) := writeResult (ListFailedJobs_ (actorFrom h)) BJobs.
Definition handleLeadSearch (h : Headers) (phone : string) :=
  writeResult (SearchLeadByPhone_ (actorFrom h) phone) BLeads.
Definition handleAudit (h : Headers) (filter_ : AuditFilter) :=
  writeResult (ListAudit_ (actorFrom h) filter_) BAudit.
Definition handleFeatureFlags (h : Headers) := writeResult (ListFeatureFlags_ (actorFrom h)) BFlags.
Definition handleUpdateFeatureFlag (h : Headers) (key : string) (body : option FlagBody) :=
  decodeJSON body (fun b => writeResult
    (SetFeatureFlag (actorFrom h)
       (mkFlag key (fb_TenantID b) (fb_Enabled b) (fb_Description b) time_zero)
       (mkAction (fb_Reason b) (fb_TicketID b))) BFlag).
Definition handleQualityQueue (h : Headers) := writeResult (ListAIQualityItems_ (actorFrom h)) BQuality.
End Service.
