(* ===== verification/AdminApiSafety.v ===== *)
(** * internal-admin-api: authorisation, audit and kill switches

    [AaLaws] is what the service needs of a store; both stores have it.  While
    one process runs, the audit log is the list of the changes that were made;
    the check of a kill switch refuses a provider that was paused, as long as the
    switch is stored (only the tests ask it). *)

From S2P Require Import Prelude GoTime Float64 Kv GoMonad GoStrings AdminApi.
From stdpp Require Import pretty.

Open Scope Z_scope.

(** ** What the service needs of a store *)

Record aview := mkAview {
  v_tenants : gmap string Tenant;
  v_providers : gmap string ProviderHealth;
  v_kills : gmap string KillSwitch;
  v_flags : gmap string FeatureFlag;
  v_audit : list AuditEntry
}.

(** The entry as it was given, whatever time it was filed under. *)
Definition same_entry (e e' : AuditEntry) : Prop :=
  au_ID e' = au_ID e /\ au_ActorID e' = au_ActorID e /\ au_ActorRole e' = au_ActorRole e /\
  au_Action e' = au_Action e /\ au_TargetType e' = au_TargetType e /\ au_TargetID e' = au_TargetID e /\
  au_TenantID e' = au_TenantID e /\ au_Reason e' = au_Reason e /\ au_TicketID e' = au_TicketID e /\
  au_Metadata e' = au_Metadata e.

Class AaView (T : Type) := { aview_of : T -> aview; aa_up : T -> Prop }.

Class AaLaws (T : Type) `{AaStore T, AaView T} := {
  get_tenant_law s k : aa_up s -> GetTenant s k = inr (v_tenants (aview_of s) !! k);
  get_provider_law s k : aa_up s -> GetProvider s k = inr (v_providers (aview_of s) !! k);
  save_tenant_law s x : aa_up s -> exists s', SaveTenant s x = (s', None) /\ aa_up s' /\
    v_audit (aview_of s') = v_audit (aview_of s);
  save_provider_law s x : aa_up s -> exists s', SaveProvider s x = (s', None) /\ aa_up s' /\
    v_audit (aview_of s') = v_audit (aview_of s);
  save_kill_law s c x : aa_up s -> exists s', SaveKillSwitch s c x = (s', None) /\ aa_up s' /\
    v_audit (aview_of s') = v_audit (aview_of s);
  save_flag_law s c x : aa_up s -> exists s', SaveFeatureFlag s c x = (s', None) /\ aa_up s' /\
    v_audit (aview_of s') = v_audit (aview_of s);
  append_audit_law s c u e : aa_up s -> au_ID e <> "" -> au_ID e ∉ au_ID <$> v_audit (aview_of s) ->
    exists s' e', AppendAudit s c u e = (s', None) /\ aa_up s' /\ same_entry e e' /\
      v_audit (aview_of s') ≡ₚ e' :: v_audit (aview_of s)
}.

#[export] Instance fake_aa_view : AaView FakeAa.t := {
  aview_of f := mkAview (FakeAa.tenants f) (FakeAa.providers f) (FakeAa.killSwitches f) (FakeAa.featureFlags f)
                  (FakeAa.audit f);
  aa_up _ := True
}.

#[export] Instance fake_aa_laws : AaLaws FakeAa.t.
Proof.
  split; try done; try (intros; by eexists).
  intros s c u e _ _ _. exists (FakeAa.appendAudit s c u e).1, e. split_and!; try done.
  simpl. symmetry. apply Permutation_cons_append.
Qed.

#[export] Instance pg_aa_view : AaView PgAa.t := {
  aview_of p := mkAview (kv_map (PgAa.tenants p)) (kv_map (PgAa.providers p)) (kv_map (PgAa.kill_switches p))
                  (kv_map (PgAa.feature_flags p)) (kv_rows (PgAa.audit p)).*2;
  aa_up p := kv_up (PgAa.tenants p) = true /\ kv_up (PgAa.providers p) = true /\
             kv_up (PgAa.kill_switches p) = true /\ kv_up (PgAa.feature_flags p) = true /\
             kv_up (PgAa.audit p) = true /\ Forall (fun r => au_ID r.2 = r.1) (kv_rows (PgAa.audit p))
}.

#[export] Instance pg_aa_laws : AaLaws PgAa.t.
Proof.
  split.
  - intros s k (U & _). simpl. unfold PgAa.getTenant, PgAa.found. by rewrite kv_get_up.
  - intros s k (_ & U & _). simpl. unfold PgAa.getProvider, PgAa.found. by rewrite kv_get_up.
  - intros s x (U1 & U2 & U3 & U4 & U5 & Hf). simpl. unfold PgAa.saveTenant, PgAa.put.
    destruct (kv_set_up _ (tn_ID x) x U1) as (c & -> & U & M). by eexists.
  - intros s x (U1 & U2 & U3 & U4 & U5 & Hf). simpl. unfold PgAa.saveProvider, PgAa.put.
    destruct (kv_set_up _ (ph_Provider x) x U2) as (c & -> & U & M). by eexists.
  - intros s c x (U1 & U2 & U3 & U4 & U5 & Hf). simpl. unfold PgAa.saveKillSwitch, PgAa.put.
    set (k := pair_key _ _). destruct (kv_set_up _ k (stamp_kill c x) U3) as (c' & -> & U & M). by eexists.
  - intros s c x (U1 & U2 & U3 & U4 & U5 & Hf). simpl. unfold PgAa.saveFeatureFlag, PgAa.put.
    set (k := pair_key _ _). destruct (kv_set_up _ k (stamp_flag c x) U4) as (c' & -> & U & M). by eexists.
  - intros s c u e (U1 & U2 & U3 & U4 & U5 & Hf) Hne Hid. simpl. unfold PgAa.appendAudit, PgAa.put, kv_set, kv_put.
    rewrite U5. set (e' := stamp_audit _ _ _).
    assert (Ee : au_ID e' = au_ID e) by (unfold e', stamp_audit, or_new, is_empty; simpl; by rewrite bool_decide_false).
    rewrite Ee. eexists _, e'. split; [reflexivity|]. split_and!; try done.
    + apply rows_put_Forall; [done|exact Ee].
    + simpl. assert (Hk : au_ID e ∉ (kv_rows (PgAa.audit s)).*1).
      { intros Hin. apply Hid. apply list_elem_of_fmap in Hin as ([k x] & -> & Hx). simpl in *.
        pose proof (proj1 (Forall_forall _ _) Hf (k, x) Hx) as Ex. simpl in Ex.
        apply list_elem_of_fmap. exists x. split; [done|].
        apply list_elem_of_fmap. by exists (k, x). }
      rewrite rows_put_new by done. rewrite fmap_app. simpl. symmetry. apply Permutation_cons_append.
Qed.

(** ** Requests *)

Inductive aa_request :=
  | RqTenants (h : Headers)
  | RqSuspend (h : Headers) (id : string) (body : option ActionRequest)
  | RqResume (h : Headers) (id : string) (body : option ActionRequest)
  | RqDelete (h : Headers) (id : string) (body : option ActionRequest)
  | RqImpersonate (h : Headers) (id : string) (body : option ActionRequest)
  | RqProviders (h : Headers)
  | RqPauseProvider (h : Headers) (provider : string) (body : option ActionRequest)
  | RqPauseTenant (h : Headers) (id : string) (body : option ActionRequest)
  | RqPauseCampaign (h : Headers) (id : string) (body : option ActionRequest)
  | RqJobs (h : Headers)
  | RqSearch (h : Headers) (phone : string)
  | RqAudit (h : Headers) (filter_ : AuditFilter)
  | RqFlags (h : Headers)
  | RqSetFlag (h : Headers) (key : string) (body : option FlagBody)
  | RqQuality (h : Headers).

(** Who did what to which target, for which reason. *)
Record deed := mkDeed {
  de_actor : Actor;
  de_action : string;
  de_target : string * string;
  de_tenant : string;
  de_why : ActionRequest
}.

Definition deed_of (r : aa_request) : option deed :=
  let tenant h action id req := Some (mkDeed (actorFrom h) action ("tenant"%string, id) id req) in
  match r with
  | RqSuspend h id (Some req) => tenant h "tenant.suspend"%string id req
  | RqResume h id (Some req) => tenant h "tenant.resume"%string id req
  | RqDelete h id (Some req) => tenant h "tenant.soft_delete"%string id req
  | RqImpersonate h id (Some req) => tenant h "tenant.impersonate"%string id req
  | RqPauseProvider h p (Some req) =>
      Some (mkDeed (actorFrom h) "provider.kill_switch.pause" ("provider"%string, p) "" req)
  | RqPauseTenant h id (Some req) => tenant h "tenant.kill_switch.pause"%string id req
  | RqPauseCampaign h id (Some req) =>
      Some (mkDeed (actorFrom h) "campaign.kill_switch.pause" ("campaign"%string, id) "" req)
  | RqSetFlag h key (Some b) =>
      Some (mkDeed (actorFrom h) "feature_flag.update" ("feature_flag"%string, key) (fb_TenantID b)
              (mkAction (fb_Reason b) (fb_TicketID b)))
  | _ => None
  end.

Definition describes (d : deed) (e : AuditEntry) : Prop :=
  au_ActorID e = ac_ID (de_actor d) /\ au_ActorRole e = ac_Role (de_actor d) /\ au_Action e = de_action d /\
  (au_TargetType e, au_TargetID e) = de_target d /\ au_TenantID e = de_tenant d /\
  au_Reason e = ar_Reason (de_why d) /\ au_TicketID e = ar_TicketID (de_why d).

(** Who may do it, and with which justification. *)
Definition authorised (d : deed) : Prop :=
  trim_space (ac_ID (de_actor d)) <> ""%string /\
  (ac_Role (de_actor d) = RoleSuperAdmin \/
   ac_Role (de_actor d) = RoleOpsAdmin /\
   de_action d ∈ ["tenant.suspend"; "tenant.resume"; "feature_flag.update"]%string) /\
  (de_action d ∈ ["tenant.resume"; "feature_flag.update"]%string \/
   trim_space (ar_Reason (de_why d)) <> ""%string /\ trim_space (ar_TicketID (de_why d)) <> ""%string).

Section Serve.
Context {T : Type} `{!AaStore T} (env : AaEnv).

Definition aa_serve (r : aa_request) : Aa T -> Aa T * (Z * aa_body) :=
  match r with
  | RqTenants h => handleListTenants env h
  | RqSuspend h id b => handleSuspendTenant env h id b
  | RqResume h id b => handleResumeTenant env h id b
  | RqDelete h id b => handleDeleteTenant env h id b
  | RqImpersonate h id b => handleImpersonate env h id b
  | RqProviders h => handleProviders env h
  | RqPauseProvider h p b => handlePauseProvider env h p b
  | RqPauseTenant h id b => handlePauseTenant env h id b
  | RqPauseCampaign h id b => handlePauseCampaign env h id b
  | RqJobs h => handleFailedJobs h
  | RqSearch h phone => handleLeadSearch h phone
  | RqAudit h f => handleAudit h f
  | RqFlags h => handleFeatureFlags env h
  | RqSetFlag h key b => handleUpdateFeatureFlag env h key b
  | RqQuality h => handleQualityQueue h
  end.

(** The state after the requests, and the deeds that succeeded, latest first. *)
Fixpoint aa_run (rs : list aa_request) (w : Aa T) (done_ : list deed) : Aa T * list deed :=
  match rs with
  | [] => (w, done_)
  | r :: rs' =>
      let '(w', (status, _)) := aa_serve r w in
      aa_run rs' w' (match deed_of r with
                     | Some d => if status =? 200 then d :: done_ else done_
                     | None => done_
                     end)
  end.
End Serve.

(** ** One request *)

Section Outcomes.
Context {T : Type} `{AaLaws T} (env : AaEnv).

Abbreviation W := (Aa T).

Record aa_inv (w : W) : Prop := {
  ai_up : aa_up (aa_store w);
  ai_seq : 0 <= aa_seq w;
  ai_ids : Forall (fun e => exists n, 1 <= n <= aa_seq w /\ au_ID e = ("audit-" ++ pretty n)%string)
             (v_audit (aview_of (aa_store w)))
}.

(** A computation that makes the change [d] and records it, or fails and
    changes nothing. *)
Definition makes {A} (d : deed) (m : M W api_error A) (w : W) : Prop :=
  exists w' r, m w = (w', r) /\ aa_inv w' /\ aa_seq w <= aa_seq w' <= aa_seq w + 2 /\
    match r with
    | inl _ => aview_of (aa_store w') = aview_of (aa_store w)
    | inr _ => exists e, describes d e /\ v_audit (aview_of (aa_store w')) ≡ₚ e :: v_audit (aview_of (aa_store w))
    end.

(** A computation that succeeds, whose audit entry is [d]. *)
Definition records {A} (d : deed) (m : M W api_error A) (w : W) : Prop :=
  exists w' x e, m w = (w', inr x) /\ aa_inv w' /\ aa_seq w' = aa_seq w + 1 /\ describes d e /\
    v_audit (aview_of (aa_store w')) ≡ₚ e :: v_audit (aview_of (aa_store w)).

Lemma makes_require {A} d g (m : M W api_error A) w : aa_inv w -> makes d m w ->
  makes d (let! _ := require g in m) w.
Proof.
  intros Hi Hm. unfold makes. rewrite bind_run. unfold require. destruct g as [e|]; [|exact Hm].
  exists w, (inl e). split_and!; [done..|lia|lia|done].
Qed.

Lemma makes_ensure {A} d b e (m : M W api_error A) w : aa_inv w -> makes d m w ->
  makes d (let! _ := ensure b e in m) w.
Proof.
  intros Hi Hm. unfold makes. rewrite bind_ensure. destruct b; [exact Hm|].
  exists w, (inl e). split_and!; [done..|lia|lia|done].
Qed.

Lemma makes_found {A B} d (f : T -> string + option B) (k : B -> M W api_error A) w : aa_inv w ->
  (forall x, makes d (k x) w) -> makes d (let! x := found f in k x) w.
Proof.
  intros Hi Hm. unfold makes. rewrite bind_run. unfold found. rewrite bind_run. unfold rd.
  destruct (f (aa_store w)) as [e|[x|]]; [|exact (Hm x)|]; eexists _, _; (split; [reflexivity|]);
    split_and!; try done; simpl; lia.
Qed.

Lemma makes_records {A} d (m : M W api_error A) w : records d m w -> makes d m w.
Proof.
  intros (w' & x & e & E & Hi & Hs & Hd & Ha). exists w', (inr x). split_and!; [done..|lia|lia|by exists e].
Qed.

Lemma records_now {A} d (f : Z -> M W api_error A) w :
  (forall t r, records d (f t) (mkAa (aa_store w) (aa_seq w) r (aa_ids w))) ->
  records d (let! t := now env in f t) w.
Proof. intros Hm. unfold records. rewrite bind_run. unfold now. apply Hm. Qed.

Lemma inv_frame w s r i : aa_inv w -> aa_up s -> v_audit (aview_of s) = v_audit (aview_of (aa_store w)) ->
  aa_inv (mkAa s (aa_seq w) r i).
Proof. intros [Hu Hs Hi] Hup E. split; simpl; [done..|]. by rewrite E. Qed.

(** A write that leaves the audit log alone. *)
Definition quiet (f : T -> Z -> string -> T * error) : Prop :=
  forall s c u, aa_up s -> exists s', f s c u = (s', None) /\ aa_up s' /\
    v_audit (aview_of s') = v_audit (aview_of s).

Lemma records_wr {A} d f (m : M W api_error A) w : aa_inv w -> quiet f ->
  (forall w1, aa_inv w1 -> aa_seq w1 = aa_seq w -> records d m w1) ->
  records d (let! _ := wr env f in m) w.
Proof.
  intros Hi Hf Hm. unfold records. rewrite bind_run. unfold wr.
  destruct (Hf (aa_store w) (e_clock env (aa_reads w)) (e_uuid env (aa_ids w)) (ai_up _ Hi)) as (s' & -> & Hu & Ha).
  rewrite <- Ha. apply (Hm (mkAa s' (aa_seq w) _ _)); [by apply inv_frame|done].
Qed.

Lemma audit_id_inj (n m : Z) : ("audit-" ++ pretty n)%string = ("audit-" ++ pretty m)%string -> n = m.
Proof. intros E%append_cancel. by apply (inj (pretty (A := Z))). Qed.

Lemma records_audit {A} actor action ty id tn req md (x : A) w : aa_inv w -> aa_seq w + 1 < 2 ^ 64 ->
  records (mkDeed actor action (ty, id) tn req) (let! _ := audit env actor action ty id tn req md in ret x) w.
Proof.
  intros [Hu Hs Hi] Hb. unfold records. rewrite bind_run. unfold audit. rewrite bind_run. unfold nextID.
  rewrite bind_run. unfold now, wr. rewrite Z.mod_small by lia. simpl.
  set (e := mkAudit _ _ _ _ _ _ _ _ _ _ _).
  destruct (append_audit_law (aa_store w) (e_clock env (S (aa_reads w))) (e_uuid env (aa_ids w)) e Hu)
    as (s' & e' & -> & Hu' & He & Ha); [done| |].
  { intros (y & Ey & Hy)%list_elem_of_fmap. pose proof (proj1 (Forall_forall _ _) Hi y Hy) as (n & Hn & En).
    rewrite En in Ey. apply audit_id_inj in Ey. lia. }
  destruct He as (E1 & E2 & E3 & E4 & E5 & E6 & E7 & E8 & E9 & E10).
  eexists _, _, e'. split; [reflexivity|]. split_and!; simpl; try done.
  - split; simpl; [done|lia|]. rewrite Ha. constructor; [exists (aa_seq w + 1); split; [lia|done]|].
    eapply Forall_impl; [exact Hi|]. intros y (n & Hn & En). exists n. split; [lia|done].
  - split_and!; try done. by rewrite E5, E6.
Qed.

Lemma quiet_tenant x : quiet (fun s _ _ => SaveTenant s x).
Proof. intros s c u. apply save_tenant_law. Qed.

Lemma quiet_provider x : quiet (fun s _ _ => SaveProvider s x).
Proof. intros s c u. apply save_provider_law. Qed.

Lemma quiet_kill x : quiet (fun s c _ => SaveKillSwitch s c x).
Proof. intros s c u. apply save_kill_law. Qed.

Lemma quiet_flag x : quiet (fun s c _ => SaveFeatureFlag s c x).
Proof. intros s c u. apply save_flag_law. Qed.

Hint Resolve quiet_tenant quiet_provider quiet_kill quiet_flag : lead.

Lemma makes_nextID {A} d (f : Z -> M W api_error A) w : aa_inv w -> aa_seq w + 1 < 2 ^ 64 ->
  (forall n w1, aa_inv w1 -> aa_seq w1 = aa_seq w + 1 -> records d (f n) w1) ->
  makes d (let! n := nextID in f n) w.
Proof.
  intros [Hu Hs Hi] Hb Hm. unfold makes. rewrite bind_run. unfold nextID. rewrite Z.mod_small by lia.
  destruct (Hm (aa_seq w + 1) (mkAa (aa_store w) (aa_seq w + 1) (aa_reads w) (aa_ids w)))
    as (w' & x & e & E & Hi' & Hs' & Hd & Ha); [|done|].
  - split; simpl; [done|lia|]. eapply Forall_impl; [exact Hi|]. intros y (n & Hn & En). exists n. split; [lia|done].
  - simpl in *. exists w', (inr x). split_and!; [done..|lia|lia|by exists e].
Qed.

(** Walk through a method up to its audit entry. *)
Ltac recording :=
  repeat match goal with
  | |- forall _, _ => intro
  | |- makes _ (let! _ := require _ in _) _ => apply makes_require; [done|]
  | |- makes _ (let! _ := ensure _ _ in _) _ => apply makes_ensure; [done|]
  | |- makes _ (let! x := found _ in _) _ => apply makes_found; [done|]
  | |- makes _ (let! _ := nextID in _) _ => apply makes_nextID; [done|lia|]
  | |- makes _ _ _ => apply makes_records
  | |- records _ (let! t := now _ in _) _ => apply records_now
  | |- records _ (let! _ := wr _ _ in _) _ =>
      apply records_wr; [eauto using inv_frame, ai_up|solve [auto with lead]|]
  | |- records _ (let! _ := audit _ _ _ _ _ _ _ _ in ret _) _ => apply records_audit; [done|simpl in *; lia]
  end.

Lemma set_status_makes actor id status action req w : aa_inv w -> aa_seq w + 2 < 2 ^ 64 ->
  makes (mkDeed actor action ("tenant"%string, id) id req) (set_status env actor id status action req) w.
Proof. intros Hi Hb. unfold set_status. recording. Qed.

Lemma impersonate_makes actor id req w : aa_inv w -> aa_seq w + 2 < 2 ^ 64 ->
  makes (mkDeed actor "tenant.impersonate" ("tenant"%string, id) id req) (ImpersonateTenant env actor id req) w.
Proof. intros Hi Hb. unfold ImpersonateTenant. recording. Qed.

Lemma pause_provider_makes actor p req w : aa_inv w -> aa_seq w + 2 < 2 ^ 64 ->
  makes (mkDeed actor "provider.kill_switch.pause" ("provider"%string, p) "" req) (PauseProvider env actor p req) w.
Proof. intros Hi Hb. unfold PauseProvider. recording. Qed.

Lemma pause_scope_makes actor scope id req w : aa_inv w -> aa_seq w + 2 < 2 ^ 64 ->
  makes (mkDeed actor (scope ++ ".kill_switch.pause") (scope, id) (tenantForScope scope id) req)
    (PauseScope env actor scope id req) w.
Proof. intros Hi Hb. unfold PauseScope. recording. Qed.

Lemma set_flag_makes actor flag req w : aa_inv w -> aa_seq w + 2 < 2 ^ 64 ->
  makes (mkDeed actor "feature_flag.update" ("feature_flag"%string, ff_Key flag) (ff_TenantID flag) req)
    (SetFeatureFlag env actor flag req) w.
Proof. intros Hi Hb. unfold SetFeatureFlag. recording. Qed.

(** A request whose handler may change something for the deed [d]. *)
Definition serves (d : option deed) (x : W * (Z * aa_body)) (w : W) : Prop :=
  aa_inv x.1 /\ aa_seq w <= aa_seq x.1 <= aa_seq w + 2 /\
  match d with
  | Some d => if x.2.1 =? 200
              then exists e, describes d e /\
                     v_audit (aview_of (aa_store x.1)) ≡ₚ e :: v_audit (aview_of (aa_store w))
              else aview_of (aa_store x.1) = aview_of (aa_store w)
  | None => aview_of (aa_store x.1) = aview_of (aa_store w)
  end.

Lemma status_not_200 e : (status_of e =? 200) = false.
Proof. by destruct e. Qed.

Lemma writes {A} d (m : M W api_error A) f w : makes d m w -> serves (Some d) (writeResult m f w) w.
Proof.
  intros (w' & r & E & Hi & Hs & Hr). unfold serves, writeResult. rewrite E.
  destruct r as [e|x]; simpl; [|done]. by rewrite status_not_200.
Qed.

Lemma bad_json d w : aa_inv w -> serves d (w, (400, BError "invalid json")) w.
Proof. intros Hi. split; [done|]. split; [simpl; lia|]. by destruct d. Qed.

(** Reading changes at most the counters of the environment. *)
Lemma reads {A} g (m : M W api_error A) f w : aa_inv w ->
  (forall w, aa_store (m w).1 = aa_store w /\ aa_seq (m w).1 = aa_seq w) ->
  serves None (writeResult (let! _ := require g in m) f w) w.
Proof.
  intros Hi Hm. unfold serves, writeResult. rewrite bind_run. unfold require. destruct g as [e|]; simpl.
  { split_and!; [done|lia|lia|done]. }
  destruct (Hm w) as [E1 E2]. destruct (m w) as [w' r]. simpl in *. rewrite E1, E2.
  split_and!; [|lia|lia|done]. destruct Hi as [? ? ?]. split; by rewrite ?E1, ?E2.
Qed.

Lemma aa_serve_step r w : aa_inv w -> aa_seq w + 2 < 2 ^ 64 -> serves (deed_of r) (aa_serve env r w) w.
Proof.
  intros Hi Hb. destruct r as [h|h id [req|]|h id [req|]|h id [req|]|h id [req|]|h|h p [req|]|h id [req|]
    |h id [req|]|h|h ph|h f|h|h key [b|]|h]; cbn [aa_serve deed_of]; try (by apply bad_json);
    try (by apply reads).
  - apply writes. unfold SuspendTenant. do 2 (apply makes_require; [done|]). by apply set_status_makes.
  - apply writes. unfold ResumeTenant. apply makes_require; [done|]. by apply set_status_makes.
  - apply writes. unfold DeleteTenant. do 2 (apply makes_require; [done|]). by apply set_status_makes.
  - by apply writes, impersonate_makes.
  - by apply writes, pause_provider_makes.
  - by apply writes, (pause_scope_makes (actorFrom h) "tenant").
  - by apply writes, (pause_scope_makes (actorFrom h) "campaign").
  - by apply writes, (set_flag_makes (actorFrom h) (mkFlag key _ _ _ _)).
Qed.

Lemma run_audit rs : forall w ds,
  aa_inv w -> aa_seq w + 2 * Z.of_nat (length rs) < 2 ^ 64 ->
  (exists es, v_audit (aview_of (aa_store w)) ≡ₚ es /\ Forall2 describes ds es) ->
  exists es, v_audit (aview_of (aa_store (aa_run env rs w ds).1)) ≡ₚ es /\
    Forall2 describes (aa_run env rs w ds).2 es.
Proof.
  induction rs as [|r rs IH]; intros w ds Hi Hb Hes; [done|]. cbn [aa_run]. cbn [length] in Hb.
  pose proof (aa_serve_step r w Hi ltac:(lia)) as Hst. destruct (aa_serve env r w) as [w' [status b]].
  destruct Hst as (Hi' & Hs & Hd). simpl in *.
  apply IH; [done|lia|]. destruct Hes as (es & He & Hf).
  destruct (deed_of r) as [d|]; [|exists es; by rewrite Hd].
  destruct (status =? 200); [|exists es; by rewrite Hd].
  destruct Hd as (e & Hde & Ha). exists (e :: es). split; [by rewrite Ha, He|by constructor].
Qed.
End Outcomes.

(** ** Authorisation *)

Section Authorisation.
Context {T : Type} `{!AaStore T} (env : AaEnv).

Lemma require_ok g (w w' : Aa T) u : require g w = (w', inr u) <-> g = None /\ w' = w.
Proof. unfold require. destruct g, u; naive_solver. Qed.

Lemma blank_false s : blank s = false <-> trim_space s <> ""%string.
Proof. unfold blank, is_empty. by rewrite bool_decide_eq_false. Qed.

Lemma super_ok a : requireSuper a = None -> trim_space (ac_ID a) <> ""%string /\ ac_Role a = RoleSuperAdmin.
Proof.
  unfold requireSuper. destruct (_ || _) eqn:E; [done|]. intros _.
  apply orb_false_iff in E as [E1 E2]. apply negb_false_iff, bool_decide_eq_true in E1. by apply blank_false in E2.
Qed.

Lemma super_or_ops_ok a : requireSuperOrOps a = None ->
  trim_space (ac_ID a) <> ""%string /\ (ac_Role a = RoleSuperAdmin \/ ac_Role a = RoleOpsAdmin).
Proof.
  unfold requireSuperOrOps. destruct (_ && _) eqn:E; [|done]. intros _.
  apply andb_true_iff in E as [E1 E2]. apply negb_true_iff, blank_false in E2.
  rewrite orb_true_iff, !bool_decide_eq_true in E1. done.
Qed.

Lemma ticket_ok r : requireTicket r = None ->
  trim_space (ar_Reason r) <> ""%string /\ trim_space (ar_TicketID r) <> ""%string.
Proof.
  unfold requireTicket. destruct (_ || _) eqn:E; [done|]. intros _.
  apply orb_false_iff in E as [E1 E2]. by apply blank_false in E1, E2.
Qed.

Lemma answered_ok {A} (m : M (Aa T) api_error A) f w : (writeResult m f w).2.1 = 200 ->
  exists w' x, m w = (w', inr x).
Proof.
  unfold writeResult. destruct (m w) as [w' [e|x]]; simpl; [|eauto]. by destruct e.
Qed.

Ltac in_list := rewrite ?elem_of_cons; tauto.

Lemma deed_authorised r d w : deed_of r = Some d -> (aa_serve env r w).2.1 = 200 -> authorised d.
Proof.
  intros Hd Hs. destruct r as [h|h id [req|]|h id [req|]|h id [req|]|h id [req|]|h|h p [req|]|h id [req|]
    |h id [req|]|h|h ph|h f|h|h key [b|]|h]; try done; injection Hd as <-; cbn [aa_serve] in Hs;
    apply answered_ok in Hs as (w' & x & Hs);
    apply bind_ok in Hs as (w1 & u1 & Hg & Hs); apply require_ok in Hg as [Hg _];
    try (apply super_ok in Hg as [Hid Hrole]); try (apply super_or_ops_ok in Hg as [Hid Hrole]);
    try (apply bind_ok in Hs as (w2 & u2 & Hg & Hs); apply require_ok in Hg as [Hg _]; apply ticket_ok in Hg);
    unfold authorised; simpl; split_and!; try done; try (by left); try (by right); try in_list.
Qed.

Lemma run_authorised rs : forall w ds, Forall authorised ds -> Forall authorised (aa_run env rs w ds).2.
Proof.
  induction rs as [|r rs IH]; intros w ds Hd; [done|]. cbn [aa_run].
  pose proof (fun d => deed_authorised r d w) as Ha. destruct (aa_serve env r w) as [w' [status b]]. simpl in Ha.
  apply IH. destruct (deed_of r) as [d|]; [|done]. destruct (Z.eqb_spec status 200); [|done].
  constructor; [by apply Ha|done].
Qed.
End Authorisation.

Lemma run_inv {T} `{AaLaws T} env rs : forall (w : Aa T) ds,
  aa_inv w -> aa_seq w + 2 * Z.of_nat (length rs) < 2 ^ 64 ->
  aa_inv (aa_run env rs w ds).1 /\ aa_seq (aa_run env rs w ds).1 <= aa_seq w + 2 * Z.of_nat (length rs).
Proof.
  induction rs as [|r rs IH]; intros w ds Hi Hb; [split; [done|simpl; lia]|]. cbn [aa_run]. cbn [length] in *.
  pose proof (aa_serve_step env r w Hi ltac:(lia)) as Hst. destruct (aa_serve env r w) as [w' [status b]].
  destruct Hst as (Hi' & Hs & _). simpl in Hs. destruct (IH w' (match deed_of r with
    | Some d => if status =? 200 then d :: ds else ds | None => ds end)) as [H1' H2']; [done|lia|].
  split; [done|lia].
Qed.

(** C30: The audit log is the list of the changes.  While one process serves
    requests on a store that answers, with an empty log, every request that changes a tenant, a
    provider, a kill switch or a flag or impersonates a tenant and succeeds has
    exactly one entry with its actor, target, reason and ticket; each was made by
    an actor with the role for it and, where one is required, with a ticket; and
    every other request leaves all of these and the log as they were. *)
Theorem audit_log_is_the_list_of_changes {T} `{AaLaws T} env rs (w : Aa T) :
  aa_up (aa_store w) -> aa_seq w = 0 -> v_audit (aview_of (aa_store w)) = [] ->
  2 * Z.of_nat (length rs) + 2 < 2 ^ 64 ->
  let '(w', ds) := aa_run env rs w [] in
  (exists es, v_audit (aview_of (aa_store w')) ≡ₚ es /\ Forall2 describes ds es) /\
  Forall authorised ds /\
  forall r, let '(w2, (status, _)) := aa_serve env r w' in
    deed_of r = None \/ status <> 200 -> aview_of (aa_store w2) = aview_of (aa_store w').
Proof.
  intros Hu Hs Ha Hb.
  assert (Hi : aa_inv w) by (split; [done|lia|by rewrite Ha]).
  destruct (run_audit env rs w [] Hi ltac:(lia)) as (es & He & Hf); [exists []; split; [by rewrite Ha|constructor]|].
  destruct (run_inv env rs w [] Hi ltac:(lia)) as [Hi' Hs'].
  pose proof (run_authorised env rs w [] (Forall_nil_2 _)) as Hau.
  destruct (aa_run env rs w []) as [w' ds]. simpl in *. split; [by exists es|]. split; [done|].
  intros r. destruct (aa_serve_step env r w' Hi' ltac:(lia)) as (_ & _ & Hd).
  destruct (aa_serve env r w') as [w2 [status b]]. simpl in Hd.
  intros [E|E]; destruct (deed_of r) as [d|]; try done. by rewrite (proj2 (Z.eqb_neq status 200) E) in Hd.
Qed.

(** ** Kill switches *)

(** The provider has an active kill switch on record. *)
Definition killed (p : string) (w : Aa PgAa.t) : Prop :=
  exists k, kv_map (PgAa.kill_switches (aa_store w)) !! pair_key "provider" p = Some k /\ ks_Active k = true.

Definition keeps_killed (p : string) : relation (Aa PgAa.t) := fun w w' => killed p w -> killed p w'.

#[export] Instance keeps_killed_pre p : PreOrder (keeps_killed p).
Proof. split; [by intros w Hw|]. intros w1 w2 w3 H12 H23 Hw. auto. Qed.

Section Killed.
Context (env : AaEnv) (p : string).

Abbreviation K := (keeps (E := api_error) (keeps_killed p)).

Lemma keeps_require g : K (require g).
Proof. intros w Hk. exact Hk. Qed.

Lemma keeps_rd {A} (f : PgAa.t -> string + A) : K (rd f).
Proof. intros w Hk. exact Hk. Qed.

Lemma keeps_rd_range {A} (f : PgAa.t -> ranging -> string + A) : K (rd_range env f).
Proof. intros w Hk. exact Hk. Qed.

Lemma keeps_now : K (now env).
Proof. intros w Hk. exact Hk. Qed.

Lemma keeps_nextID : K nextID.
Proof. intros w Hk. exact Hk. Qed.

(** A write to another collection. *)
Definition apart (f : PgAa.t -> Z -> string -> PgAa.t * error) : Prop :=
  forall s c u, PgAa.kill_switches (f s c u).1 = PgAa.kill_switches s.

Lemma keeps_wr f : apart f -> K (wr env f).
Proof.
  intros Hf w (k & Hk & Ha). unfold wr. pose proof (Hf (aa_store w) (e_clock env (aa_reads w)) (e_uuid env (aa_ids w))) as E.
  destruct (f _ _ _) as [s e]. simpl in E. exists k. simpl. by rewrite E.
Qed.

Lemma keeps_wr_kill k0 : ks_Active k0 = true -> K (wr env (fun s c _ => SaveKillSwitch s c k0)).
Proof.
  intros H0 w (k & Hk & Ha). unfold wr. simpl. unfold PgAa.saveKillSwitch, PgAa.put.
  set (key := pair_key (ks_Scope _) _). set (x := stamp_kill _ _).
  destruct (kv_set_cases (PgAa.kill_switches (aa_store w)) key x) as [(c & -> & _ & M)|(e & ->)]; [|by exists k].
  unfold killed. simpl. rewrite M. destruct (decide (pair_key "provider" p = key)) as [<-|N].
  - rewrite lookup_insert_eq. by exists x.
  - rewrite lookup_insert_ne by done. by exists k.
Qed.

Lemma apart_put {A} (coll : PgAa.t -> kv A) upd key (x : A) :
  (forall c q, PgAa.kill_switches (upd c q) = PgAa.kill_switches q) ->
  forall s, PgAa.kill_switches (PgAa.put coll upd s key x).1 = PgAa.kill_switches s.
Proof. intros Hu s. unfold PgAa.put. destruct (kv_set _ _ _) as [c e]. apply Hu. Qed.

Lemma apart_tenant x : apart (fun s _ _ => SaveTenant s x).
Proof. intros s c u. by apply apart_put. Qed.
Lemma apart_provider x : apart (fun s _ _ => SaveProvider s x).
Proof. intros s c u. by apply apart_put. Qed.
Lemma apart_flag x : apart (fun s c _ => SaveFeatureFlag s c x).
Proof. intros s c u. by apply apart_put. Qed.
Lemma apart_audit e : apart (fun s c u => AppendAudit s c u e).
Proof. intros s c u. by apply apart_put. Qed.

Hint Extern 0 (PreOrder _) => apply _ : keeps.
Hint Resolve keeps_require keeps_rd keeps_rd_range keeps_now keeps_nextID keeps_wr_kill : keeps.

Lemma keeps_audit actor action ty id tn req md : K (audit env actor action ty id tn req md).
Proof. unfold audit. keeps_tac. apply keeps_wr, apart_audit. Qed.

Lemma keeps_found {A} (f : PgAa.t -> string + option A) : K (found f).
Proof. unfold found. keeps_tac. Qed.

Hint Resolve keeps_audit keeps_found : keeps.

Lemma keeps_set_status actor id status action req : K (set_status env actor id status action req).
Proof. unfold set_status. keeps_tac. apply keeps_wr, apart_tenant. Qed.

Lemma keeps_pause_provider actor q req : K (PauseProvider env actor q req).
Proof. unfold PauseProvider. keeps_tac. apply keeps_wr, apart_provider. Qed.

Lemma keeps_set_flag actor flag req : K (SetFeatureFlag env actor flag req).
Proof. unfold SetFeatureFlag. keeps_tac. apply keeps_wr, apart_flag. Qed.

Hint Resolve keeps_set_status keeps_pause_provider keeps_set_flag : keeps.

Lemma keeps_answer {A} (m : M (Aa PgAa.t) api_error A) f w : K m -> killed p w -> killed p (writeResult m f w).1.
Proof. intros Hm Hk. specialize (Hm w Hk). unfold writeResult. by destruct (m w) as [w' [e|x]]. Qed.

Lemma serve_keeps_killed r w : killed p w -> killed p (aa_serve env r w).1.
Proof.
  intros Hk. destruct r as [h|h id [req|]|h id [req|]|h id [req|]|h id [req|]|h|h q [req|]|h id [req|]
    |h id [req|]|h|h ph|h f|h|h key [b|]|h]; cbn [aa_serve]; try done; apply keeps_answer; try done;
    unfold ListTenants_, SuspendTenant, ResumeTenant, DeleteTenant, ImpersonateTenant, ListProviders_,
      PauseScope, ListFailedJobs_, SearchLeadByPhone_, ListAudit_, ListFeatureFlags_, ListAIQualityItems_;
    keeps_tac.
Qed.

Lemma saved_kill k0 w w' u : ks_Active k0 = true -> ks_Scope k0 = "provider"%string -> ks_ScopeID k0 = p ->
  wr env (fun s c _ => SaveKillSwitch s c k0) w = (w', inr u) -> killed p w'.
Proof.
  intros Ha Hs Hp. unfold wr. simpl. unfold PgAa.saveKillSwitch, PgAa.put.
  set (key := pair_key (ks_Scope _) _). set (x := stamp_kill _ _).
  destruct (kv_set_cases (PgAa.kill_switches (aa_store w)) key x) as [(c & -> & _ & M)|(e & ->)]; [|done].
  intros [= <- _]. exists x. simpl. rewrite M. unfold key. simpl. rewrite Hs, Hp. by rewrite lookup_insert_eq.
Qed.

Lemma paused_killed actor req w w' k : PauseProvider env actor p req w = (w', inr k) -> killed p w'.
Proof.
  unfold PauseProvider. intros Hr.
  apply bind_ok in Hr as (w1 & ? & _ & Hr). apply bind_ok in Hr as (w2 & ? & _ & Hr).
  apply bind_ok in Hr as (w3 & health & _ & Hr). apply bind_ok in Hr as (w4 & ? & _ & Hr).
  apply bind_ok in Hr as (w5 & ? & _ & Hr). apply bind_ok in Hr as (w6 & ? & _ & Hr).
  apply bind_ok in Hr as (w7 & ? & Hk & Hr). apply saved_kill in Hk; [|done..].
  apply bind_ok in Hr as (w8 & ? & Ha & Hr). injection Hr as <- _.
  pose proof (keeps_audit actor "provider.kill_switch.pause" "provider" p "" req
    [("drained_calls", pretty (ph_InFlightCalls health))]%string w7 Hk) as H8. by rewrite Ha in H8.
Qed.

(** What happens to the service: a request, a new process, an outage of the
    database or its end.  A new process that cannot seed the database leaves
    behind what it wrote. *)
Inductive aa_op := Serve (r : aa_request) | Restart | Database (up : bool).

Definition set_up {A} (b : bool) (c : kv A) : kv A := mkKv (kv_rows c) b.

Definition database (b : bool) (q : PgAa.t) : PgAa.t :=
  PgAa.mk (set_up b (PgAa.meta q)) (set_up b (PgAa.tenants q)) (set_up b (PgAa.providers q))
    (set_up b (PgAa.failed_jobs q)) (set_up b (PgAa.leads q)) (set_up b (PgAa.audit q))
    (set_up b (PgAa.feature_flags q)) (set_up b (PgAa.kill_switches q)) (set_up b (PgAa.ai_quality q)).

Definition restart (w : Aa PgAa.t) : Aa PgAa.t :=
  match PgAa.seedDefaults (aa_store w) with
  | (q, None) => mkAa q 0 (aa_reads w) (aa_ids w)
  | (q, Some _) => mkAa q (aa_seq w) (aa_reads w) (aa_ids w)
  end.

Definition aa_step (w : Aa PgAa.t) (o : aa_op) : Aa PgAa.t :=
  match o with
  | Serve r => (aa_serve env r w).1
  | Restart => restart w
  | Database b => mkAa (database b (aa_store w)) (aa_seq w) (aa_reads w) (aa_ids w)
  end.

Lemma seed_kill_switches q : PgAa.kill_switches (PgAa.seedDefaults q).1 = PgAa.kill_switches q.
Proof.
  assert (Hall : forall A (f : PgAa.t -> A -> PgAa.t * error) l,
    (forall q x, PgAa.kill_switches (f q x).1 = PgAa.kill_switches q) ->
    forall q, PgAa.kill_switches (PgAa.put_all f l q).1 = PgAa.kill_switches q).
  { intros A f l Hf. induction l as [|x l IH]; intros q0; simpl; [done|].
    specialize (Hf q0 x). destruct (f q0 x) as [q1 [e|]]; simpl in *; [done|]. by rewrite IH. }
  assert (Hthen : forall r f, (forall q, PgAa.kill_switches (f q).1 = PgAa.kill_switches q) ->
    PgAa.kill_switches (PgAa.and_then r f).1 = PgAa.kill_switches r.1) by (intros [q0 [e|]] f Hf; [done|apply Hf]).
  unfold PgAa.seedDefaults. destruct (kv_insert _ _ _) as [[m b]|e]; [|done]. destruct b; [|done].
  repeat match goal with
  | |- context [PgAa.and_then] => rewrite Hthen; [|intros ?]
  | |- context [PgAa.put_all] => rewrite Hall; [done|intros ? ?]
  | |- _ => by apply apart_put
  end.
Qed.

Lemma step_keeps_killed w o : killed p w -> killed p (aa_step w o).
Proof.
  intros Hk. destruct o as [r| |b]; simpl; [by apply serve_keeps_killed| |].
  - destruct Hk as (k & Hk & Ha). exists k. split; [|done]. rewrite <- Hk. unfold restart.
    pose proof (seed_kill_switches (aa_store w)) as E. destruct (PgAa.seedDefaults _) as [q [e|]]; simpl in *; by rewrite E.
  - exact Hk.
Qed.

Lemma killed_blocks w : killed p w -> (CanStartProviderCall p w).2 <> inr tt.
Proof.
  intros (k & Hk & Ha) Hr. destruct (CanStartProviderCall p w) as [w' r] eqn:E. simpl in Hr. subst r.
  unfold CanStartProviderCall in E. apply bind_ok in E as (w1 & health & H1 & E).
  apply bind_ok in E as (w2 & u2 & H2 & E). apply ensure_ok in H2 as [_ ->].
  apply bind_ok in E as (w3 & ks & H3 & E). apply ensure_ok in E as [E _].
  assert (Hw1 : w1 = w).
  { unfold found in H1. apply bind_ok in H1 as (w0 & y & H0 & H1). injection H0 as <- _. by destruct y; injection H1. }
  subst w1. unfold rd in H3. simpl in H3. unfold PgAa.getKillSwitch, PgAa.found in H3. unfold kv_get in H3.
  destruct (kv_up _); [|done]. rewrite <- kv_map_lookup, Hk in H3. injection H3 as <- <-. by rewrite Ha in E.
Qed.
End Killed.

(** Once an emergency stop of a provider was answered with success, no request of
    anybody, no restart of the service and no outage of its Postgres database
    makes [CanStartProviderCall] answer that a call may start.  Only tests call
    this operation: nothing that places calls asks it. *)
Theorem paused_provider_stays_blocked env h p body (w w' : Aa PgAa.t) b ops :
  aa_serve env (RqPauseProvider h p body) w = (w', (200, b)) ->
  (CanStartProviderCall p (foldl (aa_step env) w' ops)).2 <> inr tt.
Proof.
  intros Hs. assert (Hk : killed p w').
  { destruct body as [req|]; [|done]. cbn [aa_serve] in Hs. unfold handlePauseProvider, decodeJSON, writeResult in Hs.
    destruct (PauseProvider env (actorFrom h) p req w) as [w1 [e|k]] eqn:E; [by destruct e|].
    injection Hs as <- _. by eapply paused_killed. }
  clear Hs. apply killed_blocks. revert w' Hk. induction ops as [|o ops IH]; intros w' Hk; [done|].
  simpl. by apply IH, step_keeps_killed.
Qed.

(** ** A sample run *)

Definition aa_env : AaEnv := mkAaEnv (fun n => Z.of_nat n) (fun n => Z.of_nat n) (fun n => pretty n)
  (fun _ A m => (map_to_list m).*2).

Definition aa_start : Aa PgAa.t := mkAa (PgAa.seedDefaults PgAa.empty).1 0 0 0.

Definition root : Headers := mkHeaders "admin-7" "super_admin" "".
Definition ticket : ActionRequest := mkAction "elevated 5xx" "INC-77".

Definition aa_requests : list aa_request :=
  [ RqSuspend root "tenant-north" (Some ticket);
    RqSuspend (mkHeaders "x" "client_owner" "") "tenant-west" (Some ticket);
    RqDelete root "tenant-west" (Some (mkAction "cleanup" ""));
    RqImpersonate root "tenant-north" (Some ticket);
    RqPauseProvider root "groq" (Some ticket) ].

Lemma audit_log_is_the_list_of_changes_witness :
  (length (aa_run aa_env aa_requests aa_start []).2 = 3)%nat /\
  Forall authorised (aa_run aa_env aa_requests aa_start []).2.
Proof.
  pose proof (audit_log_is_the_list_of_changes aa_env aa_requests aa_start) as Ht.
  split; [vm_compute; reflexivity|].
  destruct (aa_run aa_env aa_requests aa_start []) as [w' ds]. apply Ht.
  - split_and!; [reflexivity..|]. constructor.
  - reflexivity.
  - reflexivity.
  - simpl. lia.
Defined.

Lemma paused_provider_stays_blocked_witness :
  exists w', aa_serve aa_env (RqPauseProvider root "groq" (Some ticket)) aa_start = (w', (200, BKill
    (mkKill "provider" "groq" "groq" true false 0 "elevated 5xx" "INC-77" 2))) /\
    (CanStartProviderCall "groq" (foldl (aa_step aa_env) w' [Restart])).2 <> inr tt.
Proof.
  destruct (aa_serve aa_env (RqPauseProvider root "groq" (Some ticket)) aa_start) as [w' [status b]] eqn:E.
  assert (X : (status, b) = (200, BKill (mkKill "provider" "groq" "groq" true false 0 "elevated 5xx" "INC-77" 2)))
    by (vm_compute in E; injection E as <- <- <-; reflexivity).
  rewrite X in E. exists w'. split; [by rewrite X|].
  exact (paused_provider_stays_blocked aa_env root "groq" (Some ticket) aa_start w' _ [Restart] E).
Defined.

(** ** What a restart loses *)

(** The counter of the audit ids starts again at zero with the process: the
    first entries of the new process replace those of the old one. *)
Theorem restart_overwrites_audit_log :
  let suspend := RqSuspend root "tenant-north" (Some (mkAction "fraud" "T-1")) in
  let resume := RqResume root "tenant-north" (Some (mkAction "" "")) in
  let w := foldl (aa_step aa_env) aa_start [Serve suspend; Restart; Serve resume] in
  au_Action <$> v_audit (aview_of (aa_store w)) = ["tenant.resume"%string] /\
  au_Action <$> v_audit (aview_of (aa_store (aa_step aa_env aa_start (Serve suspend)))) = ["tenant.suspend"%string].
Proof. by vm_compute. Qed.

(** Impersonation tokens repeat in the same way. *)
Theorem impersonation_tokens_repeat :
  let ask := RqImpersonate root "tenant-north" (Some ticket) in
  let w := foldl (aa_step aa_env) aa_start [Serve ask; Restart] in
  (aa_serve aa_env ask w).2 = (aa_serve aa_env ask aa_start).2.
Proof. by vm_compute. Qed.
