(* ===== verification/Recording.v ===== *)
(** * freeswitch-bridge: recordings

    [services/freeswitch-bridge/internal/recording]: the upload worker with its
    test doubles (uploader.go), the Spaces client (spaces.go), the B2 client
    (b2.go), the retention sweep (queue.go), and the store of
    [internal/store/postgres.go].  The S3 service behind both clients is the
    class [S3]; the bytes of a file are a string. *)

From S2P Require Import Prelude GoTime Kv GoMonad GoStrings.

Open Scope Z_scope.

(** ** The worker's collaborators *)

Class SpacesClient (S : Type) := Put : S -> string -> string -> string -> bool -> S * (string + string).

(** A key may come with an error: the copy was made, but not as asked. *)
Class Archiver (A : Type) := Archive : A -> Z -> string -> string -> string -> A * (string * error).

Class Publisher (P : Type) := Publish : P -> string -> string -> P * error.

Class RecordingStore (R : Type) := SaveUpload : R -> Z -> string -> string -> string -> string -> Z -> R * error.

Class ArchiveStore (R : Type) := SaveArchive : R -> Z -> string -> string -> string -> string -> R * error.

(** ** The worker *)

Record UploadJob := mkJob {
  jb_TenantID : string;
  jb_SessionID : string;
  jb_LocalPath : string;
  jb_Attempts : Z
}.

Definition requeued (j : UploadJob) : UploadJob :=
  mkJob (jb_TenantID j) (jb_SessionID j) (jb_LocalPath j) (jb_Attempts j + 1).

(** [fmt.Sprintf("%s/recordings/%s.wav", job.TenantID, job.SessionID)]. *)
Definition object_key (tenantID sessionID : string) : string :=
  (tenantID ++ "/recordings/" ++ sessionID ++ ".wav")%string.

Definition dq : string := String (Ascii.ascii_of_N 34) "".

(** A member of a JSON object written with [%q]. *)
Definition member (name value : string) : string := (dq ++ name ++ dq ++ ":" ++ quote value)%string.

Definition ready_payload (tenantID sessionID spacesKey b2Key : string) : string :=
  ("{" ++ member "tenant_id" tenantID ++ "," ++ member "session_id" sessionID ++ ","
   ++ member "spaces_key" spacesKey ++ "," ++ member "b2_key" b2Key ++ "}")%string.

Definition warning_payload (sessionID warning : string) : string :=
  ("{" ++ member "session_id" sessionID ++ "," ++ member "warning" warning ++ "}")%string.

Definition SubjectReady : string := "call.recording.ready".
Definition SubjectArchived : string := "recording.archived".
Definition SubjectWarning : string := "recording.archive.warning".

(** [bg_archive] is true when [WithArchiveStore] was given the recording store
    itself, as main does; [bg_archiver] is [None] for a nil [Archiver]. *)
Record Bridge (S A P R : Type) := mkBridge {
  bg_disk : gmap string string;
  bg_queue : list UploadJob;
  bg_spaces : S;
  bg_archiver : option A;
  bg_pub : P;
  bg_store : R;
  bg_archive : bool;
  bg_ticks : nat
}.
Arguments mkBridge {S A P R}.
Arguments bg_disk {S A P R} b.
Arguments bg_queue {S A P R} b.
Arguments bg_spaces {S A P R} b.
Arguments bg_archiver {S A P R} b.
Arguments bg_pub {S A P R} b.
Arguments bg_store {S A P R} b.
Arguments bg_archive {S A P R} b.
Arguments bg_ticks {S A P R} b.

(** The clock, the UUIDs, and the system calls on a file that exists that fail
    nevertheless, by the number of the call. *)
Record RecEnv := mkRecEnv {
  e_now : nat -> Z;
  e_uuid : nat -> string;
  e_read : nat -> error;
  e_remove : nat -> bool
}.

Definition maxRetry : Z := 3.

Section Worker.
Context {S A P R : Type} `{!SpacesClient S, !Archiver A, !Publisher P, !RecordingStore R, !ArchiveStore R}.
Context (env : RecEnv).

Abbreviation B := (Bridge S A P R).
Abbreviation E := (M B string).

(** The number of the next call. *)
Definition tick : E nat := fun b =>
  (mkBridge (bg_disk b) (bg_queue b) (bg_spaces b) (bg_archiver b) (bg_pub b) (bg_store b) (bg_archive b)
     (1 + bg_ticks b)%nat, inr (bg_ticks b)).

Definition set_disk (d : gmap string string) (b : B) : B :=
  mkBridge d (bg_queue b) (bg_spaces b) (bg_archiver b) (bg_pub b) (bg_store b) (bg_archive b) (bg_ticks b).
Definition set_queue (q : list UploadJob) (b : B) : B :=
  mkBridge (bg_disk b) q (bg_spaces b) (bg_archiver b) (bg_pub b) (bg_store b) (bg_archive b) (bg_ticks b).
Definition set_spaces (s : S) (b : B) : B :=
  mkBridge (bg_disk b) (bg_queue b) s (bg_archiver b) (bg_pub b) (bg_store b) (bg_archive b) (bg_ticks b).
Definition set_archiver (a : option A) (b : B) : B :=
  mkBridge (bg_disk b) (bg_queue b) (bg_spaces b) a (bg_pub b) (bg_store b) (bg_archive b) (bg_ticks b).
Definition set_pub (p : P) (b : B) : B :=
  mkBridge (bg_disk b) (bg_queue b) (bg_spaces b) (bg_archiver b) p (bg_store b) (bg_archive b) (bg_ticks b).
Definition set_store (r : R) (b : B) : B :=
  mkBridge (bg_disk b) (bg_queue b) (bg_spaces b) (bg_archiver b) (bg_pub b) r (bg_archive b) (bg_ticks b).

(** [os.ReadFile] and [os.Remove]. *)
Definition read_file (path : string) : E string :=
  let! n := tick in
  fun b => match bg_disk b !! path, e_read env n with
           | None, _ => (b, inl ("open " ++ path ++ ": no such file or directory")%string)
           | Some _, Some e => (b, inl e)
           | Some data, None => (b, inr data)
           end.

Definition remove_file (path : string) : E unit :=
  let! n := tick in
  modify (fun b => if e_remove env n then set_disk (delete path (bg_disk b)) b else b).

Definition put (tenantID key data : string) (encrypted : bool) : E string := fun b =>
  let '(s, r) := Put (bg_spaces b) tenantID key data encrypted in (set_spaces s b, r).

Definition publish (subject payload : string) : E error := fun b =>
  let '(p, e) := Publish (bg_pub b) subject payload in (set_pub p b, inr e).

Definition save_upload (tenantID sessionID spacesKey : string) (size : Z) : E error :=
  let! n := tick in
  fun b => let '(r, e) := SaveUpload (bg_store b) (e_now env n) (e_uuid env n) tenantID sessionID spacesKey size in
           (set_store r b, inr e).

Definition save_archive (tenantID sessionID b2Key : string) : E error :=
  let! n := tick in
  fun b => let '(r, e) := SaveArchive (bg_store b) (e_now env n) (e_uuid env n) tenantID sessionID b2Key in
           (set_store r b, inr e).

(** [return fmt.Errorf("<what>: %w", err)] when there is an error. *)
Definition failing (what : string) (e : error) : E unit :=
  match e with None => ret tt | Some e => raise (what ++ ": " ++ e)%string end.

Definition wrapping {X} (what : string) (m : E X) : E X :=
  let! r := try m in
  match r with inl e => raise (what ++ ": " ++ e)%string | inr x => ret x end.

(** [w.archiver.Archive], or [None] without an archiver. *)
Definition archive_call (tenantID key data : string) : E (option (string * error)) := fun b =>
  match bg_archiver b with
  | None => (b, inr None)
  | Some a =>
      let '(a, r) := Archive a (e_now env (bg_ticks b)) tenantID key data in
      ((tick (set_archiver (Some a) b)).1, inr (Some r))
  end.

(** The part of [processJob] that is skipped without an archiver; it returns
    the key of the copy. *)
Definition archive_copy (j : UploadJob) (key data : string) : E string :=
  let! r := archive_call (jb_TenantID j) key data in
  match r with
  | None => ret ""%string
  | Some (ak, aerr) =>
      let! _ := match aerr, is_empty ak with
                | Some e, true => raise ("b2 archive: " ++ e)%string
                | _, _ => ret tt
                end in
      let! keep := gets bg_archive in
      let! _ := (if keep && negb (is_empty ak)
                 then save_archive (jb_TenantID j) (jb_SessionID j) ak else ret None) in
      let! _ := match aerr with
                | Some e => publish SubjectWarning (warning_payload (jb_SessionID j) e)
                | None => ret None
                end in
      ret ak
  end.

Definition processJob (j : UploadJob) : E unit :=
  let! data := wrapping "read wav" (read_file (jb_LocalPath j)) in
  let key := object_key (jb_TenantID j) (jb_SessionID j) in
  let! spacesKey := wrapping "spaces upload" (put (jb_TenantID j) key data true) in
  let! e := save_upload (jb_TenantID j) (jb_SessionID j) spacesKey (Z.of_nat (String.length data)) in
  let! _ := failing "store upload" e in
  let! b2Key := archive_copy j key data in
  let payload := ready_payload (jb_TenantID j) (jb_SessionID j) spacesKey b2Key in
  let! e := publish SubjectReady payload in
  let! _ := failing "publish" e in
  let! _ := (if is_empty b2Key then ret None else publish SubjectArchived payload) in
  remove_file (jb_LocalPath j).

Definition Enqueue (tenantID sessionID localPath : string) (b : B) : B :=
  set_queue (bg_queue b ++ [mkJob tenantID sessionID localPath 0]) b.

Definition QueueDepth (b : B) : Z := Z.of_nat (length (bg_queue b)).

(** A recording that is handed to the worker: tenant, session and path. *)
Definition arrival : Type := string * string * string.

Definition enqueue_all (new : list arrival) (b : B) : B :=
  fold_left (fun b '(t, s, p) => Enqueue t s p b) new b.

Definition upload_error (j : UploadJob) (e : string) : string :=
  ("recording upload failed after " ++ itoa (Z.to_nat (jb_Attempts j)) ++ " attempts for "
   ++ jb_TenantID j ++ "/" ++ jb_SessionID j ++ ": " ++ e)%string.

(** The loop of [DrainOnce].  The lock is not held while a job is processed:
    [arrivals i] is enqueued during the [i]-th. *)
Fixpoint drain_jobs (arrivals : nat -> list arrival) (i : nat) (jobs : list UploadJob) (b : B)
    : B * (list UploadJob * list string) :=
  match jobs with
  | [] => (b, ([], []))
  | j :: jobs =>
      let '(b, r) := processJob j b in
      let b := enqueue_all (arrivals i) b in
      let '(b, (rq, errs)) := drain_jobs arrivals (1 + i)%nat jobs b in
      match r with
      | inr _ => (b, (rq, errs))
      | inl e =>
          let j := requeued j in
          if jb_Attempts j <? maxRetry then (b, (j :: rq, errs))
          else (b, (rq, upload_error j e :: errs))
      end
  end.

Definition DrainOnce (arrivals : nat -> list arrival) (b : B) : B * list string :=
  let jobs := bg_queue b in
  let '(b, (requeue, errs)) := drain_jobs arrivals 0 jobs (set_queue [] b) in
  (set_queue (requeue ++ bg_queue b) b, errs).

End Worker.

(** ** Test doubles *)

Module FakeSpaces.

Record t := mk { Stored : gmap string string; headers : gmap string string }.

Definition NewFakeSpaces : t := mk ∅ ∅.

Definition put (f : t) (tenantID key data : string) (encrypted : bool) : t * (string + string) :=
  let storageKey := ("do-spaces://" ++ tenantID ++ "/" ++ key)%string in
  let h : gmap string string := {[ "x-amz-server-side-encryption" := "aws:kms" ]}%string in
  (mk (<[storageKey := data]> (Stored f))
      (if encrypted then <["x-amz-server-side-encryption-aws-kms-key-id" := "vault-envelope-key"]> h else h)%string,
   inr storageKey).

Definition SSEHeaders (f : t) : gmap string string := headers f.

End FakeSpaces.

Module FakeArchiver.

Definition t : Type := gmap string string.

Definition NewFakeArchiver : t := ∅.

Definition archive (f : t) (now : Z) (tenantID key data : string) : t * (string * error) :=
  let storageKey := ("b2://" ++ tenantID ++ "/" ++ key)%string in
  (<[storageKey := data]> f, (storageKey, None)).

End FakeArchiver.

Module FakePublisher.

Definition t : Type := gmap string (list string).

Definition NewFakePublisher : t := ∅.

Definition publish (f : t) (subject payload : string) : t * error :=
  (<[subject := default [] (f !! subject) ++ [payload]]> f, None).

End FakePublisher.

Module FakeRecordingStore.

Record UploadRecord := mkUpload {
  TenantID : string;
  SessionID : string;
  SpacesKey : string;
  SizeBytes : Z;
  CreatedAt : Z
}.

Definition t : Type := list UploadRecord.

Definition NewFakeRecordingStore : t := [].

Definition saveUpload (f : t) (now : Z) (uid tenantID sessionID spacesKey : string) (sizeBytes : Z) : t * error :=
  (f ++ [mkUpload tenantID sessionID spacesKey sizeBytes now], None).

(** It has no [SaveArchive]: a worker over it runs without [bg_archive]. *)
Definition saveArchive (f : t) (now : Z) (uid tenantID sessionID b2Key : string) : t * error := (f, None).

End FakeRecordingStore.

#[export] Instance fake_spaces_client : SpacesClient FakeSpaces.t := FakeSpaces.put.
#[export] Instance fake_archiver : Archiver FakeArchiver.t := FakeArchiver.archive.
#[export] Instance fake_publisher : Publisher FakePublisher.t := FakePublisher.publish.
#[export] Instance fake_recording_store : RecordingStore FakeRecordingStore.t := FakeRecordingStore.saveUpload.
#[export] Instance fake_archive_store : ArchiveStore FakeRecordingStore.t := FakeRecordingStore.saveArchive.

(** ** Object storage *)

Definition detectContentType (key : string) : string :=
  if has_suffix key ".wav" then "audio/wav"
  else if has_suffix key ".mp3" then "audio/mpeg"
  else if has_suffix key ".opus" || has_suffix key ".ogg" then "audio/ogg"
  else "application/octet-stream".

(** The request of [PutObject]; an empty encryption or lock mode is not sent. *)
Record PutObjectInput := mkPut {
  pi_Bucket : string;
  pi_Key : string;
  pi_Body : string;
  pi_ContentType : string;
  pi_TenantID : string;
  pi_ServerSideEncryption : string;
  pi_ObjectLockMode : string;
  pi_RetainUntil : option Z
}.

Record S3Object := mkObject { ob_Key : option string; ob_LastModified : option Z }.

Record Page := mkPage { pg_Contents : list S3Object; pg_IsTruncated : option bool; pg_Next : option string }.

(** The S3 service: what the clients call of the AWS library. *)
Class S3 (T : Type) := {
  PutObject : T -> PutObjectInput -> T * error;
  DeleteObject : T -> string -> string -> T * error;
  HeadObject : T -> string -> string -> error;
  ListObjectsV2 : T -> string -> string -> option string -> string + Page;
  PresignGetObject : T -> string -> string -> Z -> string + string
}.

Definition isSSEError (err : string) : bool :=
  let msg := to_lower err in
  contains msg "encryption" || contains msg "sse" || contains msg "notimplemented".

Definition isObjectLockNotEnabled (err : string) : bool :=
  let msg := to_lower err in
  contains msg "object lock" || contains msg "objectlockconfigurationnotfoundError" ||
  (contains msg "invalidrequest" && contains msg "lock").

Record spacesClient (T : Type) := mkSpaces {
  sp_s3 : T;
  sp_bucket : string;
  sp_region : string;
  sp_endpoint : string;
  sp_sse : string
}.
Arguments mkSpaces {T}.
Arguments sp_s3 {T} s.
Arguments sp_bucket {T} s.
Arguments sp_region {T} s.
Arguments sp_endpoint {T} s.
Arguments sp_sse {T} s.

Record b2Client (T : Type) := mkB2 {
  b2_s3 : T;
  b2_bucket : string;
  b2_endpoint : string;
  b2_region : string;
  b2_retentionDays : Z
}.
Arguments mkB2 {T}.
Arguments b2_s3 {T} b.
Arguments b2_bucket {T} b.
Arguments b2_endpoint {T} b.
Arguments b2_region {T} b.
Arguments b2_retentionDays {T} b.

Definition day : Z := 24 * hour.

Module Spaces.
Section Spaces.
Context {T : Type} `{!S3 T}.

(** [s3] is the client that [s3.New] returns for the options. *)
Definition NewSpaces (s3 : T) (key secret region bucket : string) : string + spacesClient T :=
  if is_empty key || is_empty secret || is_empty region || is_empty bucket
  then inl "spaces: missing creds (key/secret/region/bucket)"%string
  else inr (mkSpaces s3 bucket region ("https://" ++ region ++ ".digitaloceanspaces.com")%string "AES256").

Definition with_s3 (c : spacesClient T) (s3 : T) : spacesClient T :=
  mkSpaces s3 (sp_bucket c) (sp_region c) (sp_endpoint c) (sp_sse c).

Definition put_input (c : spacesClient T) (tenantID key data sse : string) : PutObjectInput :=
  mkPut (sp_bucket c) key data (detectContentType key) tenantID sse "" None.

Definition put (c : spacesClient T) (tenantID key data : string) (encrypted : bool)
    : spacesClient T * (string + string) :=
  let done := ("do-spaces://" ++ sp_bucket c ++ "/" ++ key)%string in
  let '(s, e) := PutObject (sp_s3 c) (put_input c tenantID key data (if encrypted then sp_sse c else "")) in
  match e with
  | None => (with_s3 c s, inr done)
  | Some err =>
      if encrypted && isSSEError err then
        let '(s, e2) := PutObject s (put_input c tenantID key data "") in
        match e2 with
        | Some err2 => (with_s3 c s, inl ("spaces put (no-sse retry): " ++ err2)%string)
        | None => (with_s3 c s, inr done)
        end
      else (with_s3 c s, inl ("spaces put: " ++ err)%string)
  end.

Definition PresignDownload (c : spacesClient T) (key : string) (ttl : Z) : string + string :=
  match PresignGetObject (sp_s3 c) (sp_bucket c) key ttl with
  | inl e => inl ("spaces presign: " ++ e)%string
  | inr url => inr url
  end.

Definition Delete (c : spacesClient T) (key : string) : spacesClient T * error :=
  let '(s, e) := DeleteObject (sp_s3 c) (sp_bucket c) key in
  (with_s3 c s, match e with Some e => Some ("spaces delete: " ++ e)%string | None => None end).

(** The keys of a page that are kept. *)
Definition older_keys (olderThan : Z) (objs : list S3Object) : list string :=
  omap (fun o => match ob_LastModified o, ob_Key o with
                 | Some t, Some k => if t <? olderThan then Some k else None
                 | _, _ => None
                 end) objs.

(** The [for] loop over the pages; [None] when [fuel] pages did not reach the
    last. *)
Fixpoint list_pages (c : spacesClient T) (prefix : string) (olderThan : Z) (fuel : nat) (token : option string)
    (out : list string) : option (string + list string) :=
  match fuel with
  | O => None
  | Datatypes.S fuel =>
      match ListObjectsV2 (sp_s3 c) (sp_bucket c) prefix token with
      | inl e => Some (inl ("spaces list: " ++ e)%string)
      | inr page =>
          let out := out ++ older_keys olderThan (pg_Contents page) in
          match pg_IsTruncated page with
          | Some true => list_pages c prefix olderThan fuel (pg_Next page) out
          | _ => Some (inr out)
          end
      end
  end.

Definition ListOlderThan (c : spacesClient T) (fuel : nat) (prefix : string) (olderThan : Z)
    : option (string + list string) :=
  list_pages c prefix olderThan fuel None [].

End Spaces.
End Spaces.

Module B2.
Section B2.
Context {T : Type} `{!S3 T}.

Definition b2RegionFromKey (keyID : string) : string :=
  if (String.length keyID <? 3)%nat then "us-west-005"
  else
    let p := String.substring 0 3 keyID in
    if bool_decide (p ∈ ["000"; "001"]%string) then "us-west-002"
    else if bool_decide (p = "002") then "us-west-002"
    else if bool_decide (p = "003") then "eu-central-003"
    else if bool_decide (p = "004") then "us-west-004"
    else if bool_decide (p = "005") then "us-west-005"
    else if bool_decide (p = "006") then "us-west-006"
    else "us-west-005".

Definition NewB2 (s3 : T) (key secret bucket : string) (retentionDays : Z) : string + b2Client T :=
  if is_empty key || is_empty secret || is_empty bucket
  then inl "b2: missing creds (key/secret/bucket)"%string
  else
    let region := b2RegionFromKey key in
    inr (mkB2 s3 bucket ("https://s3." ++ region ++ ".backblazeb2.com")%string region
           (if retentionDays <=? 0 then 365 else retentionDays)).

Definition b2_with (c : b2Client T) (s3 : T) : b2Client T :=
  mkB2 s3 (b2_bucket c) (b2_endpoint c) (b2_region c) (b2_retentionDays c).

Definition lock_input (c : b2Client T) (tenantID key data mode : string) (until : option Z) : PutObjectInput :=
  mkPut (b2_bucket c) key data (detectContentType key) tenantID "" mode until.

Definition archive (c : b2Client T) (now : Z) (tenantID key data : string) : b2Client T * (string * error) :=
  let until := now + wrap64 (b2_retentionDays c * day) in
  let done := ("b2://" ++ b2_bucket c ++ "/" ++ key)%string in
  let '(s, e) := PutObject (b2_s3 c) (lock_input c tenantID key data "COMPLIANCE" (Some until)) in
  match e with
  | None => (b2_with c s, (done, None))
  | Some err =>
      if isObjectLockNotEnabled err then
        let '(s, e2) := PutObject s (lock_input c tenantID key data "" None) in
        match e2 with
        | Some err2 => (b2_with c s, (""%string, Some ("b2 archive (fallback): " ++ err2)%string))
        | None => (b2_with c s, (done,
            Some ("b2 archive: object-lock-not-enabled on bucket " ++ b2_bucket c
                  ++ " — uploaded without retention")%string))
        end
      else (b2_with c s, (""%string, Some ("b2 archive: " ++ err)%string))
  end.

Definition TryDelete (c : b2Client T) (key : string) : b2Client T * error :=
  let '(s, e) := DeleteObject (b2_s3 c) (b2_bucket c) key in (b2_with c s, e).

Definition Head (c : b2Client T) (key : string) : string + bool :=
  match HeadObject (b2_s3 c) (b2_bucket c) key with
  | None => inr true
  | Some e => if contains e "NotFound" || contains e "404" then inr false else inl e
  end.

End B2.
End B2.

#[export] Instance spaces_client {T} `{!S3 T} : SpacesClient (spacesClient T) := Spaces.put.
#[export] Instance b2_archiver {T} `{!S3 T} : Archiver (b2Client T) := B2.archive.

(** *** The retention sweep *)

Record RetentionCron (T : Type) := mkCron { rc_spaces : spacesClient T; rc_hotRetention : Z; rc_prefix : string }.
Arguments mkCron {T}.
Arguments rc_spaces {T} r.
Arguments rc_hotRetention {T} r.
Arguments rc_prefix {T} r.

Section Cron.
Context {T : Type} `{!S3 T}.

Definition NewRetentionCron (spaces : spacesClient T) (hotRetentionDays : Z) (prefix : string) : RetentionCron T :=
  let days := if hotRetentionDays <=? 0 then 90 else hotRetentionDays in
  mkCron spaces (wrap64 (days * day)) prefix.

(** The deletions stop at the first that fails; the count includes those made. *)
Fixpoint delete_all (c : spacesClient T) (keys : list string) (deleted : Z) : spacesClient T * (Z * error) :=
  match keys with
  | [] => (c, (deleted, None))
  | k :: keys =>
      let '(c, e) := Spaces.Delete c k in
      match e with
      | Some e => (c, (deleted, Some ("retention delete " ++ k ++ ": " ++ e)%string))
      | None => delete_all c keys (deleted + 1)
      end
  end.

Definition RunOnce (r : RetentionCron T) (fuel : nat) (now : Z) : option (RetentionCron T * (Z * error)) :=
  let cutoff := now - rc_hotRetention r in
  match Spaces.ListOlderThan (rc_spaces r) fuel (rc_prefix r) cutoff with
  | None => None
  | Some (inl e) => Some (r, (0, Some e))
  | Some (inr keys) =>
      let '(c, a) := delete_all (rc_spaces r) keys 0 in
      Some (mkCron c (rc_hotRetention r) (rc_prefix r), a)
  end.

End Cron.

(** ** The store *)

Module PgFs.

Record Instance_ := mkInstance {
  in_ID : string;
  in_Host : string;
  in_SIPPort : Z;
  in_ESLPort : Z;
  in_Healthy : bool;
  in_LastChecked : option Z;
  in_CreatedAt : Z
}.

Record uploadRecord := mkUpload {
  up_ID : string;
  up_TenantID : string;
  up_SessionID : string;
  up_SpacesKey : string;
  up_SizeBytes : Z;
  up_CreatedAt : Z
}.

Record archiveRecord := mkArchive {
  ar_ID : string;
  ar_TenantID : string;
  ar_SessionID : string;
  ar_B2Key : string;
  ar_ArchivedAt : Z
}.

Record sessionRecord := mkSession {
  se_CallUUID : string;
  se_StartedAt : option Z;
  se_EndedAt : option Z;
  se_UpdatedAt : Z
}.

Record t := mk {
  instances : kv Instance_;
  uploads : kv uploadRecord;
  archives : kv archiveRecord;
  sessions : kv sessionRecord
}.

Definition empty : t := mk kv_empty kv_empty kv_empty kv_empty.

Definition stamp_instance (id : string) (now : Z) (i : Instance_) : Instance_ :=
  mkInstance (or_new (in_ID i) id) (in_Host i) (in_SIPPort i) (in_ESLPort i) (in_Healthy i) (in_LastChecked i)
    (or_now (in_CreatedAt i) now).

Definition SaveInstance (p : t) (now : Z) (uid : string) (instance : Instance_) : t * error :=
  let i := stamp_instance (new_id "fs" uid) now instance in
  let '(c, e) := kv_set (instances p) (in_ID i) i in
  (mk c (uploads p) (archives p) (sessions p), e).

Definition ListInstances (p : t) : result (list Instance_) := kv_list (instances p).

Definition saveUpload (p : t) (now : Z) (uid tenantID sessionID spacesKey : string) (sizeBytes : Z) : t * error :=
  let id := new_id "upload" uid in
  let '(c, e) := kv_set (uploads p) id (mkUpload id tenantID sessionID spacesKey sizeBytes now) in
  (mk (instances p) c (archives p) (sessions p), e).

Definition saveArchive (p : t) (now : Z) (uid tenantID sessionID b2Key : string) : t * error :=
  let id := new_id "archive" uid in
  let '(c, e) := kv_set (archives p) id (mkArchive id tenantID sessionID b2Key now) in
  (mk (instances p) (uploads p) c (sessions p), e).

Definition put_session (p : t) (callUUID : string) (r : sessionRecord) : t * error :=
  let '(c, e) := kv_set (sessions p) callUUID r in
  (mk (instances p) (uploads p) (archives p) c, e).

Definition SetSessionStarted (p : t) (now : Z) (callUUID : string) : t * error :=
  put_session p callUUID (mkSession callUUID (Some now) None now).

Definition SetSessionEnded (p : t) (now : Z) (callUUID : string) : t * error :=
  match kv_get (sessions p) callUUID with
  | Err e => (p, Some e)
  | Ok o =>
      let r := default (mkSession callUUID None None time_zero) o in
      put_session p callUUID (mkSession (se_CallUUID r) (se_StartedAt r) (Some now) now)
  end.

End PgFs.

#[export] Instance pg_recording_store : RecordingStore PgFs.t := PgFs.saveUpload.
#[export] Instance pg_archive_store : ArchiveStore PgFs.t := PgFs.saveArchive.
