(* ===== verification/RecordingSafety.v ===== *)
(** * freeswitch-bridge: no recording is lost before it is stored

    The laws state what the upload worker needs of its collaborators; the test
    doubles, the two storage clients over any S3 service and the Postgres store
    have them.  A drain removes a file only when its bytes are in hot storage
    and, if there is an archiver, in the archive, the upload is recorded and the
    recording announced; it accounts for every job, and no job outlives three drains. *)

From S2P Require Import Prelude GoTime Kv GoMonad GoStrings Recording.
From stdpp Require Import pretty.

Open Scope Z_scope.

(** ** What the worker needs of its collaborators *)

Class SpacesLaws (S : Type) `{SpacesClient S} := {
  location : S -> string -> string -> string;
  object_at : S -> string -> option string;
  put_ok s t k d e s' sk : Put s t k d e = (s', inr sk) -> sk = location s t k /\ object_at s' sk = Some d;
  put_frame s t k d e s' r : Put s t k d e = (s', r) ->
    (forall t' k', location s' t' k' = location s t' k') /\
    (forall l, l <> location s t k -> object_at s' l = object_at s l)
}.

Class ArchiverLaws (A : Type) `{Archiver A} := {
  copy_location : A -> string -> string -> string;
  copy_at : A -> string -> option string;
  archive_ok a n t k d a' ak e : Archive a n t k d = (a', (ak, e)) -> ak <> "" \/ e = None ->
    ak = copy_location a t k /\ ak <> "" /\ copy_at a' ak = Some d;
  archive_frame a n t k d a' r : Archive a n t k d = (a', r) ->
    (forall t' k', copy_location a' t' k' = copy_location a t' k') /\
    (forall l, l <> copy_location a t k -> copy_at a' l = copy_at a l)
}.

Class PublisherLaws (P : Type) `{Publisher P} := {
  sent : P -> string -> string -> Prop;
  publish_ok p s m p' : Publish p s m = (p', None) -> sent p' s m;
  publish_mono p s m p' e s0 m0 : Publish p s m = (p', e) -> sent p s0 m0 -> sent p' s0 m0
}.

(** [st_fresh r u]: no record has an id made from [u]. *)
Class StoreLaws (R : Type) `{RecordingStore R, ArchiveStore R} := {
  recorded : R -> string -> string -> string -> Z -> Prop;
  st_fresh : R -> string -> Prop;
  save_ok r n u t s k z r' : SaveUpload r n u t s k z = (r', None) -> recorded r' t s k z;
  save_mono r n u t s k z r' e : SaveUpload r n u t s k z = (r', e) -> st_fresh r u ->
    (forall t0 s0 k0 z0, recorded r t0 s0 k0 z0 -> recorded r' t0 s0 k0 z0) /\
    (forall u0, u0 <> u -> st_fresh r u0 -> st_fresh r' u0);
  archive_mono r n u t s k r' e : SaveArchive r n u t s k = (r', e) ->
    (forall t0 s0 k0 z0, recorded r t0 s0 k0 z0 -> recorded r' t0 s0 k0 z0) /\
    (forall u0, u0 <> u -> st_fresh r u0 -> st_fresh r' u0)
}.

(** ** The worker *)

Lemma ord_pairs_impl {X} (Q Q' : X -> X -> Prop) l :
  (forall x y, Q x y -> Q' x y) -> ForallOrdPairs Q l -> ForallOrdPairs Q' l.
Proof. intros HQ. induction 1; constructor; [eapply Forall_impl; eauto|done]. Qed.

(** Relations on states that fix a part of the state. *)
Definition same {X Y} (f : X -> Y) : relation X := fun x x' => f x' = f x.

#[export] Instance same_preorder {X Y} (f : X -> Y) : PreOrder (same f).
Proof. split; unfold same; [by intros x|intros x y z Hxy Hyz; congruence]. Qed.

#[export] Hint Extern 0 (PreOrder _) => apply _ : keeps.

Section Worker.
Context {S A P R : Type}.
Context `{SL : SpacesLaws S, AL : ArchiverLaws A, PL : PublisherLaws P, RL : StoreLaws R}.
Context (env : RecEnv).

Abbreviation B := (Bridge S A P R).

(** Where the copies of a job's file go. *)
Definition hot (b : B) (j : UploadJob) : string :=
  location (bg_spaces b) (jb_TenantID j) (object_key (jb_TenantID j) (jb_SessionID j)).

Definition cold_location (b : B) (t k : string) : option string :=
  (fun a => copy_location a t k) <$> bg_archiver b.

Definition cold (b : B) (j : UploadJob) : option string :=
  cold_location b (jb_TenantID j) (object_key (jb_TenantID j) (jb_SessionID j)).

Definition cold_at (b : B) (l : string) : option string := a ← bg_archiver b; copy_at a l.

(** The bytes [d] of the job's file are stored, archived if there is an
    archiver, recorded, and announced with the keys of both copies. *)
Definition safe (b : B) (j : UploadJob) (d : string) : Prop :=
  object_at (bg_spaces b) (hot b j) = Some d /\
  recorded (bg_store b) (jb_TenantID j) (jb_SessionID j) (hot b j) (Z.of_nat (String.length d)) /\
  (forall l, cold b j = Some l -> cold_at b l = Some d) /\
  sent (bg_pub b) SubjectReady
    (ready_payload (jb_TenantID j) (jb_SessionID j) (hot b j) (default ""%string (cold b j))).

(** The UUIDs to come are not in use. *)
Definition uuids_ok (b : B) : Prop :=
  forall n, (bg_ticks b <= n)%nat -> st_fresh (bg_store b) (e_uuid env n).

Definition uuids_distinct : Prop := forall n m, e_uuid env n = e_uuid env m -> n = m.

(** What the steps for [j] leave alone. *)
Record leaves (j : UploadJob) (b b' : B) : Prop := {
  lv_queue : bg_queue b' = bg_queue b;
  lv_location t k : location (bg_spaces b') t k = location (bg_spaces b) t k;
  lv_cold t k : cold_location b' t k = cold_location b t k;
  lv_object l : l <> hot b j -> object_at (bg_spaces b') l = object_at (bg_spaces b) l;
  lv_copy l : Some l <> cold b j -> cold_at b' l = cold_at b l;
  lv_uuids : uuids_ok b -> uuids_ok b';
  lv_recorded t s k z : uuids_ok b -> recorded (bg_store b) t s k z -> recorded (bg_store b') t s k z;
  lv_sent s m : sent (bg_pub b) s m -> sent (bg_pub b') s m
}.

#[local] Instance leaves_preorder j : PreOrder (leaves j).
Proof.
  split.
  - intros b. by split.
  - intros b1 b2 b3 [] []. split; intros; try (etrans; eauto; done); eauto.
    + rewrite lv_object1; [auto|]. unfold hot in *. by rewrite lv_location0.
    + rewrite lv_copy1; [auto|]. unfold cold in *. by rewrite lv_cold0.
Qed.

Lemma leaves_hot j b b' i : leaves j b b' -> hot b' i = hot b i.
Proof. intros L. unfold hot. apply L. Qed.

Lemma leaves_cold j b b' i : leaves j b b' -> cold b' i = cold b i.
Proof. intros L. unfold cold. apply L. Qed.

(** What is safe stays safe while another job is processed. *)
Lemma leaves_safe j b b' i d :
  leaves j b b' -> uuids_ok b -> hot b i <> hot b j -> (cold b i = None \/ cold b i <> cold b j) ->
  safe b i d -> safe b' i d.
Proof.
  intros L Hu Hh Hc (S1 & S2 & S3 & S4).
  unfold safe. rewrite (leaves_hot j b b'), (leaves_cold j b b') by done. split_and!.
  - rewrite (lv_object _ _ _ L) by done. done.
  - by apply (lv_recorded _ _ _ L).
  - intros l El. rewrite (lv_copy _ _ _ L); [auto|]. destruct Hc as [Hc|Hc]; congruence.
  - by apply (lv_sent _ _ _ L).
Qed.

(** *** Every step for a job is of that kind *)

Lemma keeps_tick j : keeps (leaves j) tick.
Proof. intros b. split; try done. intros Hu n Hn. apply Hu. simpl in Hn. lia. Qed.

Lemma keeps_read j path : keeps (leaves j) (read_file env path).
Proof.
  apply keeps_bind; [apply _|apply keeps_tick|]. intros n b.
  destruct (bg_disk b !! path), (e_read env n); reflexivity.
Qed.

Lemma keeps_remove j path : keeps (leaves j) (remove_file env path).
Proof. apply keeps_bind; [apply _|apply keeps_tick|]. intros n b. simpl. by destruct (e_remove env n). Qed.

Lemma keeps_put j d :
  keeps (leaves j) (put (jb_TenantID j) (object_key (jb_TenantID j) (jb_SessionID j)) d true).
Proof.
  intros b. unfold put. destruct (Put _ _ _ _ _) as [s r] eqn:E. apply put_frame in E as [E1 E2].
  by split.
Qed.

Lemma keeps_publish j s m : keeps (leaves j) (publish s m).
Proof.
  intros b. unfold publish. destruct (Publish _ _ _) as [p e] eqn:E. split; try done.
  intros s0 m0. by apply (publish_mono _ _ _ _ _ _ _ E).
Qed.

Lemma keeps_save j t s k z : uuids_distinct -> keeps (leaves j) (save_upload env t s k z).
Proof.
  intros Hd b. unfold save_upload, bind, tick. simpl. destruct (SaveUpload _ _ _ _ _ _ _) as [r e] eqn:E.
  split; try done.
  - intros Hu n Hn. simpl in *. apply (save_mono _ _ _ _ _ _ _ _ _ E); [apply Hu; lia|intros F%Hd; lia|apply Hu; lia].
  - intros t0 s0 k0 z0 Hu. apply (save_mono _ _ _ _ _ _ _ _ _ E). apply Hu. simpl. lia.
Qed.

Lemma keeps_save_archive j t s k : uuids_distinct -> keeps (leaves j) (save_archive env t s k).
Proof.
  intros Hd b. unfold save_archive, bind, tick. simpl. destruct (SaveArchive _ _ _ _ _ _) as [r e] eqn:E.
  split; try done.
  - intros Hu n Hn. simpl in *. apply (archive_mono _ _ _ _ _ _ _ _ E); [intros F%Hd; lia|apply Hu; lia].
  - intros t0 s0 k0 z0 Hu. apply (archive_mono _ _ _ _ _ _ _ _ E).
Qed.

Lemma keeps_archive_call j d :
  keeps (leaves j) (archive_call env (jb_TenantID j) (object_key (jb_TenantID j) (jb_SessionID j)) d).
Proof.
  intros b. unfold archive_call. destruct (bg_archiver b) as [a|] eqn:Ea; [|reflexivity].
  destruct (Archive _ _ _ _ _) as [a' r] eqn:E. apply archive_frame in E as [E1 E2]. simpl.
  split; try done; unfold cold, cold_location, cold_at; simpl; rewrite ?Ea; simpl.
  - intros t k. by rewrite E1.
  - intros l Hl. apply E2. congruence.
  - intros Hu n Hn. apply Hu. simpl in Hn. lia.
Qed.

Hint Resolve keeps_tick keeps_read keeps_remove keeps_put keeps_publish keeps_save keeps_save_archive
  keeps_archive_call : keeps.

(** [wrapping] and [failing] have the effects of what they wrap. *)
Lemma keeps_wrapping {X} (Q : relation B) `{!PreOrder Q} what (m : M B string X) :
  keeps Q m -> keeps Q (wrapping what m).
Proof. intros Hm. unfold wrapping. keeps_tac. Qed.

Lemma keeps_failing (Q : relation B) `{!PreOrder Q} what e : keeps Q (failing what e).
Proof. unfold failing. destruct e; keeps_tac. Qed.

Hint Resolve keeps_wrapping keeps_failing : keeps.

Lemma keeps_archive_copy j d :
  uuids_distinct -> keeps (leaves j) (archive_copy env j (object_key (jb_TenantID j) (jb_SessionID j)) d).
Proof. intros Hd. unfold archive_copy. keeps_tac. Qed.

Hint Resolve keeps_archive_copy : keeps.

Lemma keeps_process j : uuids_distinct -> keeps (leaves j) (processJob env j).
Proof. intros Hd. unfold processJob. keeps_tac. Qed.

(** *** A job that succeeds *)

Lemma wrapping_ok {X} what (m : M B string X) b b' x : wrapping what m b = (b', inr x) <-> m b = (b', inr x).
Proof.
  unfold wrapping, try, bind, ret, raise. destruct (m b) as [b1 [e|y]]; simpl; naive_solver.
Qed.

Lemma failing_ok what e (b b' : B) u : failing what e b = (b', inr u) -> e = None /\ b' = b.
Proof. destruct e; unfold failing, raise, ret; naive_solver. Qed.

Lemma read_ok path (b b' : B) d :
  read_file env path b = (b', inr d) -> b' = (tick b).1 /\ bg_disk b !! path = Some d.
Proof.
  unfold read_file, bind, tick. simpl. destruct (bg_disk b !! path), (e_read env (bg_ticks b)); naive_solver.
Qed.

Lemma remove_ok path (b b' : B) u :
  remove_file env path b = (b', inr u) ->
  bg_disk b' = bg_disk b \/ bg_disk b' = delete path (bg_disk b).
Proof.
  unfold remove_file, bind, tick, modify. simpl. intros [= <-]. destruct (e_remove env (bg_ticks b)); auto.
Qed.

(** A computation that may only fail in states related to the first. *)
Definition keeps_err {X} (Q : relation B) (m : M B string X) : Prop :=
  forall b b' e, m b = (b', inl e) -> Q b b'.

Lemma keeps_err_bind {X Y} (Q : relation B) `{!PreOrder Q} (m : M B string X) (f : X -> M B string Y) :
  keeps Q m -> (forall x, keeps_err Q (f x)) -> keeps_err Q (bind m f).
Proof.
  intros Hm Hf b b' e. rewrite bind_run. specialize (Hm b). destruct (m b) as [b1 [e1|x]]; simpl in Hm.
  - intros [= <- <-]. done.
  - intros H'. etrans; [exact Hm|by eapply Hf].
Qed.

(** Only [remove_file] writes the disk, only [put] Spaces, and only
    [archive_call] the archive. *)
Ltac same_tac :=
  intros ?; unfold put, publish, save_upload, save_archive, archive_call, read_file, bind, tick, same; simpl;
  repeat case_match; simplify_eq; reflexivity.

Hint Extern 1 (keeps (same _) (read_file _ _)) => solve [same_tac] : keeps.
Hint Extern 1 (keeps (same _) (put _ _ _ _)) => solve [same_tac] : keeps.
Hint Extern 1 (keeps (same _) (save_upload _ _ _ _ _)) => solve [same_tac] : keeps.
Hint Extern 1 (keeps (same _) (save_archive _ _ _ _)) => solve [same_tac] : keeps.
Hint Extern 1 (keeps (same _) (publish _ _)) => solve [same_tac] : keeps.
Hint Extern 1 (keeps (same _) (archive_call _ _ _ _)) => solve [same_tac] : keeps.

Lemma disk_archive_copy j k d : keeps (same bg_disk) (archive_copy env j k d : M B string string).
Proof. unfold archive_copy. keeps_tac. Qed.
Lemma spaces_archive_copy j k d : keeps (same bg_spaces) (archive_copy env j k d : M B string string).
Proof. unfold archive_copy. keeps_tac. Qed.

Hint Resolve disk_archive_copy spaces_archive_copy : keeps.

(** A job that fails leaves the disk as it was. *)
Lemma process_err j : keeps_err (same bg_disk) (processJob env j : M B string unit).
Proof.
  unfold processJob. repeat (apply keeps_err_bind; [apply _|by keeps_tac|intros]).
  intros b b' e'. unfold remove_file, bind, tick, modify. simpl. by destruct (e_remove env (bg_ticks b)).
Qed.

Lemma archive_call_ok j d (b b' : B) r :
  archive_call env (jb_TenantID j) (object_key (jb_TenantID j) (jb_SessionID j)) d b = (b', inr r) ->
  match r with
  | None => cold b' j = None
  | Some (ak, e) => ak <> "" \/ e = None -> cold b' j = Some ak /\ ak <> "" /\ cold_at b' ak = Some d
  end.
Proof.
  unfold archive_call, cold, cold_location, cold_at. destruct (bg_archiver b) as [a|] eqn:Ea.
  - destruct (Archive _ _ _ _ _) as [a' [ak e]] eqn:E. intros [= <- <-]. simpl. intros Hk.
    pose proof (archive_ok _ _ _ _ _ _ _ _ E Hk) as (-> & Hne & Hc). apply archive_frame in E as [E1 _].
    by rewrite E1.
  - intros [= <- <-]. by rewrite Ea.
Qed.

(** The key of the copy, or none without an archiver. *)
Lemma archive_copy_ok j d (b b' : B) ak :
  archive_copy env j (object_key (jb_TenantID j) (jb_SessionID j)) d b = (b', inr ak) ->
  ak = default ""%string (cold b' j) /\ (forall l, cold b' j = Some l -> cold_at b' l = Some d).
Proof.
  unfold archive_copy. intros (b1 & r & E1 & H')%bind_ok. apply archive_call_ok in E1.
  destruct r as [[k e]|].
  - apply bind_ok in H' as (b2 & [] & E2 & H'). apply bind_ok in H' as (b3 & kp & (-> & ->)%gets_ok & H').
    assert (Hk : k <> "" \/ e = None) by (unfold is_empty in E2; destruct e; [case_bool_decide; [done|auto]|auto]).
    assert (b2 = b1) as -> by (unfold ret in E2; destruct e, (is_empty k); naive_solver).
    destruct (E1 Hk) as (Hc & Hne & Hat). clear E1 E2.
    match type of H' with bind ?m _ _ = _ => assert (Hm : keeps (same bg_archiver) m) by keeps_tac end.
    apply bind_ok in H' as (b3 & x & E3 & H'). specialize (Hm b1). rewrite E3 in Hm. simpl in Hm.
    match type of H' with bind ?m _ _ = _ => assert (Hn : keeps (same bg_archiver) m) by keeps_tac end.
    apply bind_ok in H' as (b4 & y & E4 & (-> & ->)%ret_ok). specialize (Hn b3). rewrite E4 in Hn. simpl in Hn.
    unfold same in Hm, Hn. unfold cold, cold_location, cold_at in *. rewrite Hn, Hm, Hc. naive_solver.
  - apply ret_ok in H' as (-> & ->). rewrite E1. naive_solver.
Qed.

Lemma put_ok_run t k d e (b b' : B) sk :
  put t k d e b = (b', inr sk) -> sk = location (bg_spaces b') t k /\ object_at (bg_spaces b') sk = Some d.
Proof.
  unfold put. destruct (Put _ _ _ _ _) as [s r] eqn:E. intros [= <- ->]. simpl.
  destruct (put_ok _ _ _ _ _ _ _ E) as [-> Ho]. apply put_frame in E as [E1 _]. by rewrite E1.
Qed.

Lemma save_ok_run t s k z (b b' : B) :
  save_upload env t s k z b = (b', inr None) -> recorded (bg_store b') t s k z.
Proof.
  unfold save_upload, bind, tick. simpl. destruct (SaveUpload _ _ _ _ _ _ _) as [r e] eqn:E.
  intros [= <- ->]. by eapply save_ok.
Qed.

Lemma publish_ok_run s m (b b' : B) : publish s m b = (b', inr None) -> sent (bg_pub b') s m.
Proof.
  unfold publish. destruct (Publish _ _ _) as [p e] eqn:E. intros [= <- ->]. by eapply publish_ok.
Qed.

Lemma job_keeps {X} (Q : relation B) (m : M B string X) b b' r : keeps Q m -> m b = (b', r) -> Q b b'.
Proof. intros Hm E. specialize (Hm b). by rewrite E in Hm. Qed.

Hint Extern 1 (keeps (same _) (remove_file _ _)) =>
  solve [intros ?; unfold remove_file, bind, tick, modify, same; simpl; repeat case_match; reflexivity] : keeps.

Hint Extern 1 (keeps (leaves _) (processJob _ _)) => apply keeps_process : keeps.

(** The effect on the disk: at most one path goes. *)
Definition drops (path : string) (b b' : B) : Prop :=
  bg_disk b' = bg_disk b \/ bg_disk b' = delete path (bg_disk b).

#[local] Instance drops_preorder path : PreOrder (drops path).
Proof.
  split; [by left|]. unfold drops. intros b1 b2 b3 [E1|E1] [E2|E2]; rewrite E2, E1; auto.
  right. by rewrite delete_delete_eq.
Qed.

Lemma keeps_same_drops {X} path (m : M B string X) : keeps (same bg_disk) m -> keeps (drops path) m.
Proof. intros Hm b. left. apply Hm. Qed.

Lemma drops_remove path : keeps (drops path) (remove_file env path).
Proof. intros b. destruct (remove_file env path b) as [b' r] eqn:E. destruct r; [done|]. by eapply remove_ok. Qed.

Lemma process_drops j : keeps (drops (jb_LocalPath j)) (processJob env j).
Proof.
  unfold processJob.
  repeat first [apply drops_remove | apply keeps_bind; [apply _|apply keeps_same_drops; by keeps_tac|intros]].
Qed.

(** What is left to do after the first step of a run, and the relation the rest keeps. *)
Lemma bind_rest {X Y} (Q : relation B) (m : M B string X) (f : X -> M B string Y) b b' y :
  bind m f b = (b', inr y) -> (forall x, keeps Q (f x)) ->
  exists b1 x, m b = (b1, inr x) /\ Q b1 b' /\ f x b1 = (b', inr y).
Proof.
  intros (b1 & x & E & H')%bind_ok Hf. exists b1, x. split_and!; [done| |done].
  specialize (Hf x b1). by rewrite H' in Hf.
Qed.

(** A job that succeeds read its file and made it safe. *)
Lemma process_ok j (b b' : B) u :
  uuids_distinct -> uuids_ok b -> processJob env j b = (b', inr u) ->
  exists d, bg_disk b !! jb_LocalPath j = Some d /\ safe b' j d.
Proof.
  intros Hd Hu H'. unfold processJob in H'.
  pose proof (keeps_read j (jb_LocalPath j) b) as L1.
  apply bind_ok in H' as (b1 & d & E1%wrapping_ok & H'). rewrite E1 in L1.
  apply read_ok in E1 as [_ Hdisk]. exists d. split; [done|].
  pose proof (keeps_put j d b1) as L2.
  apply (bind_rest (same bg_spaces)) in H' as (b2 & sk & E2%wrapping_ok & R2 & H'); [|keeps_tac].
  rewrite E2 in L2. apply put_ok_run in E2 as [Esk Ho].
  pose proof (keeps_save j (jb_TenantID j) (jb_SessionID j) sk (Z.of_nat (String.length d)) Hd b2) as L3.
  apply (bind_rest (leaves j)) in H' as (b3 & e & E3 & R3 & H'); [|keeps_tac]. rewrite E3 in L3.
  apply bind_ok in H' as (b3' & [] & (-> & ->)%failing_ok & H'). apply save_ok_run in E3.
  apply (bind_rest (same bg_archiver)) in H' as (b4 & ak & [Eak Hcopy]%archive_copy_ok & R4 & H'); [|keeps_tac].
  apply (bind_rest (leaves j)) in H' as (b5 & e & E5 & R5 & H'); [|keeps_tac].
  apply bind_ok in H' as (b5' & [] & (-> & ->)%failing_ok & H'). apply publish_ok_run in E5.
  assert (Eh : hot b' j = sk) by (unfold hot; rewrite R2; done).
  assert (Ec : cold b' j = cold b4 j) by (unfold cold, cold_location; by rewrite R4).
  unfold safe. rewrite Eh, Ec. split_and!.
  - by rewrite R2.
  - apply (lv_recorded _ _ _ R3); [|done]. by apply (lv_uuids _ _ _ L3), (lv_uuids _ _ _ L2), (lv_uuids _ _ _ L1).
  - intros l Hl. unfold cold_at. rewrite R4. by apply Hcopy.
  - rewrite <- Eak. by apply (lv_sent _ _ _ R5).
Qed.

(** *** A drain *)

(** The copies of the two jobs do not overwrite each other. *)
Definition apart (b : B) (i j : UploadJob) : Prop :=
  hot b i <> hot b j /\ (cold b i = None \/ cold b i <> cold b j).

Definition new_job (x : arrival) : UploadJob := let '(t, s, p) := x in mkJob t s p 0.

Lemma enqueue_all_eq new (b : B) : enqueue_all new b = set_queue (bg_queue b ++ (new_job <$> new)) b.
Proof.
  unfold enqueue_all. revert b. induction new as [|[[t s] p] new IH]; intros b; simpl.
  - rewrite app_nil_r. by destruct b.
  - rewrite IH. unfold set_queue. simpl. by rewrite <- (assoc_L (++)).
Qed.

(** The queue plays no part in what is safe. *)
Lemma safe_queue q (b : B) i d : safe (set_queue q b) i d <-> safe b i d.
Proof. done. Qed.

Record drained (jobs : list UploadJob) (b b' : B) : Prop := {
  dr_uuids : uuids_ok b';
  dr_hot i : hot b' i = hot b i;
  dr_cold i : cold b' i = cold b i;
  dr_disk p : bg_disk b' !! p = bg_disk b !! p \/ bg_disk b' !! p = None;
  dr_safe i d : Forall (apart b i) jobs -> safe b i d -> safe b' i d;
  dr_removed p d : bg_disk b !! p = Some d -> bg_disk b' !! p = None ->
    exists j, j ∈ jobs /\ jb_LocalPath j = p /\ safe b' j d
}.

(** One job, with what was enqueued meanwhile. *)
Lemma drained_one j (b b1 : B) r new :
  uuids_distinct -> uuids_ok b -> processJob env j b = (b1, r) -> drained [j] b (enqueue_all new b1).
Proof.
  intros Hd Hu E. pose proof (job_keeps _ _ _ _ _ (keeps_process j Hd) E) as L.
  pose proof (job_keeps _ _ _ _ _ (process_drops j) E) as D. rewrite enqueue_all_eq. split.
  - apply (lv_uuids _ _ _ L Hu).
  - intros i. apply (leaves_hot j b b1 i L).
  - intros i. apply (leaves_cold j b b1 i L).
  - intros p. simpl. destruct D as [-> | ->]; [by left|]. rewrite lookup_delete. case_decide; auto.
  - intros i d [[Hh Hc] _]%Forall_cons Hs. rewrite safe_queue. by apply (leaves_safe j b).
  - intros p d Hp Hn. simpl in Hn. destruct r as [e|u].
    + apply process_err in E. unfold same in E. congruence.
    + destruct (process_ok j b b1 u Hd Hu E) as (d' & Hd' & Hs). exists j. split; [set_solver|].
      destruct D as [D|D]; rewrite D in Hn; [congruence|]. apply lookup_delete_None in Hn as [<-|Hn]; [|congruence].
      split; [done|]. rewrite safe_queue. congruence.
Qed.

Lemma drained_more j jobs (b b1 b2 : B) :
  drained [j] b b1 -> drained jobs b1 b2 -> Forall (apart b j) jobs -> drained (j :: jobs) b b2.
Proof.
  intros D1 D2 Hj. assert (Ha : forall i k, apart b i k -> apart b1 i k).
  { intros i k. unfold apart. by rewrite !(dr_hot _ _ _ D1), !(dr_cold _ _ _ D1). }
  split.
  - apply D2.
  - intros i. by rewrite (dr_hot _ _ _ D2), (dr_hot _ _ _ D1).
  - intros i. by rewrite (dr_cold _ _ _ D2), (dr_cold _ _ _ D1).
  - intros p. destruct (dr_disk _ _ _ D2 p) as [->|]; [apply D1|auto].
  - intros i d [Hi Hr]%Forall_cons Hs. apply (dr_safe _ _ _ D2); [eapply Forall_impl; [exact Hr|auto]|].
    apply (dr_safe _ _ _ D1); [by constructor|done].
  - intros p d Hp Hn. destruct (bg_disk b1 !! p) as [d1|] eqn:E1.
    + assert (d1 = d) as -> by (destruct (dr_disk _ _ _ D1 p); congruence).
      destruct (dr_removed _ _ _ D2 p d E1 Hn) as (i & Hi & Hpath & Hs). exists i. split; [set_solver|done].
    + destruct (dr_removed _ _ _ D1 p d Hp E1) as (i & Hi & Hpath & Hs).
      apply list_elem_of_singleton in Hi as ->. exists j. split; [set_solver|]. split; [done|].
      apply (dr_safe _ _ _ D2); [|done]. eapply Forall_impl; [exact Hj|auto].
Qed.

Lemma drain_jobs_safe arrivals jobs : uuids_distinct -> forall i (b b' : B) o,
  uuids_ok b -> ForallOrdPairs (apart b) jobs -> drain_jobs env arrivals i jobs b = (b', o) ->
  drained jobs b b'.
Proof.
  intros Hd. induction jobs as [|j jobs IH]; intros i b b' o Hu Hp E; simpl in E.
  - injection E as <- <-. split; auto. congruence.
  - destruct (processJob env j b) as [b1 r] eqn:E1. inversion Hp as [|? ? Hj Hp']; subst.
    pose proof (drained_one j b b1 r (arrivals i) Hd Hu E1) as D1.
    destruct (drain_jobs env arrivals (Datatypes.S i) jobs (enqueue_all (arrivals i) b1)) as [b2 [rq errs]] eqn:E2.
    assert (b' = b2) as -> by (repeat case_match; congruence).
    apply (drained_more j jobs b (enqueue_all (arrivals i) b1) b2 D1); [|done].
    eapply IH; [apply D1| |exact E2].
    eapply ord_pairs_impl; [|exact Hp']. intros x y. unfold apart.
    by rewrite !(dr_hot _ _ _ D1), !(dr_cold _ _ _ D1).
Qed.

(** The state right after the jobs [jobs] were worked off. *)
Definition after_jobs arrivals i (jobs : list UploadJob) (b : B) : B :=
  (drain_jobs env arrivals i jobs b).1.

Lemma after_jobs_cons arrivals i j jobs (b : B) :
  after_jobs arrivals i (j :: jobs) b
  = after_jobs arrivals (Datatypes.S i) jobs (enqueue_all (arrivals i) (processJob env j b).1).
Proof.
  unfold after_jobs. simpl. destruct (processJob env j b) as [b1 r]. simpl.
  destruct (drain_jobs _ _ _ _ _) as [b2 [rq errs]]. by repeat case_match.
Qed.

(** A file that is gone stays gone. *)
Lemma after_jobs_absent arrivals jobs p : uuids_distinct -> forall i (b : B),
  uuids_ok b -> bg_disk b !! p = None -> bg_disk (after_jobs arrivals i jobs b) !! p = None.
Proof.
  intros Hd. induction jobs as [|j jobs IH]; intros i b Hu Hp; [done|].
  rewrite after_jobs_cons. destruct (processJob env j b) as [b1 r] eqn:E1.
  pose proof (drained_one j b b1 r (arrivals i) Hd Hu E1) as D1.
  apply IH; [apply D1|]. destruct (dr_disk _ _ _ D1 p); simpl in *; congruence.
Qed.

(** A file that a drain removes was safe when its job had been worked off,
    whatever comes later. *)
Lemma drain_jobs_removed arrivals jobs p d : uuids_distinct -> forall i (b : B),
  uuids_ok b -> bg_disk b !! p = Some d ->
  bg_disk (after_jobs arrivals i jobs b) !! p = Some d \/
  bg_disk (after_jobs arrivals i jobs b) !! p = None /\
  exists pre j post, jobs = pre ++ j :: post /\ jb_LocalPath j = p /\
    safe (after_jobs arrivals i (pre ++ [j]) b) j d.
Proof.
  intros Hd. induction jobs as [|j jobs IH]; intros i b Hu Hp; [by left|].
  destruct (processJob env j b) as [b1 r] eqn:E1.
  pose proof (drained_one j b b1 r (arrivals i) Hd Hu E1) as D1. set (b2 := enqueue_all (arrivals i) b1) in *.
  assert (Hc : forall l, after_jobs arrivals i (j :: l) b = after_jobs arrivals (Datatypes.S i) l b2)
    by (intros l; by rewrite after_jobs_cons, E1).
  rewrite Hc. destruct (bg_disk b2 !! p) as [d'|] eqn:E2.
  - assert (d' = d) as -> by (destruct (dr_disk _ _ _ D1 p); congruence).
    destruct (IH (Datatypes.S i) b2 (dr_uuids _ _ _ D1) E2) as [?|(? & pre & x & post & -> & Hx & Hs)]; [by left|].
    right. split; [done|]. exists (j :: pre), x, post. split_and!; [done..|]. simpl. by rewrite Hc.
  - destruct (dr_removed _ _ _ D1 p d Hp E2) as (x & ->%list_elem_of_singleton & Hx & Hs).
    right. split; [|exists [], j, jobs; split_and!; [done..|]; simpl; by rewrite Hc].
    by apply after_jobs_absent; [done|apply D1|].
Qed.

(** A recording of the snapshot that was on disk and is safe now. *)
Definition saved (b b' : B) (j : UploadJob) : Prop :=
  exists d, bg_disk b !! jb_LocalPath j = Some d /\ safe b' j d.

Definition reported (j : UploadJob) (msg : string) : Prop := exists e, msg = upload_error (requeued j) e.

(** The snapshot, split by how the jobs ended. *)
Record accounts (jobs : list UploadJob) (b b' : B) (rq : list UploadJob) (errs : list string)
    (done kept dropped : list UploadJob) : Prop := {
  ac_split : jobs ≡ₚ done ++ kept ++ dropped;
  ac_order : sublist kept jobs;
  ac_done : Forall (saved b b') done;
  ac_kept : Forall (fun j => jb_Attempts j + 1 < maxRetry) kept;
  ac_dropped : Forall (fun j => maxRetry <= jb_Attempts j + 1) dropped;
  ac_requeue : rq = requeued <$> kept;
  ac_errors : Forall2 reported dropped errs
}.

Lemma drain_jobs_accounts arrivals jobs : uuids_distinct -> forall i (b b' : B) rq errs,
  uuids_ok b -> ForallOrdPairs (apart b) jobs -> drain_jobs env arrivals i jobs b = (b', (rq, errs)) ->
  exists done kept dropped, accounts jobs b b' rq errs done kept dropped.
Proof.
  intros Hd. induction jobs as [|j jobs IH]; intros i b b' rq errs Hu Hp E; simpl in E.
  { injection E as <- <- <-. exists [], [], []. by split. }
  destruct (processJob env j b) as [b1 r] eqn:E1. inversion Hp as [|? ? Hj Hp']; subst.
  pose proof (drained_one j b b1 r (arrivals i) Hd Hu E1) as D1. set (b2 := enqueue_all (arrivals i) b1) in *.
  assert (Ha : forall x y, apart b x y -> apart b2 x y).
  { intros x y. unfold apart. by rewrite !(dr_hot _ _ _ D1), !(dr_cold _ _ _ D1). }
  assert (Hp2 : ForallOrdPairs (apart b2) jobs) by (eapply ord_pairs_impl; eauto).
  destruct (drain_jobs env arrivals (Datatypes.S i) jobs b2) as [b3 [rq' errs']] eqn:E2.
  pose proof (drain_jobs_safe arrivals jobs Hd _ _ _ _ (dr_uuids _ _ _ D1) Hp2 E2) as D2.
  destruct (IH _ _ _ _ _ (dr_uuids _ _ _ D1) Hp2 E2) as (dn & kp & dp & Ac).
  assert (Hsave : Forall (saved b b3) dn).
  { eapply Forall_impl; [apply Ac|]. intros x (d & Hx & Hs). exists d. split; [|done].
    destruct (dr_disk _ _ _ D1 (jb_LocalPath x)); congruence. }
  destruct r as [e|[]]; [destruct (jb_Attempts j + 1 <? maxRetry) eqn:Ea|]; injection E as <- <- <-.
  - apply Z.ltb_lt in Ea. exists dn, (j :: kp), dp. destruct Ac as [A1 A2 A3 A4 A5 A6 A7]. split; try done.
    + rewrite A1. simpl. by rewrite Permutation_middle.
    + by constructor.
    + by constructor.
    + by rewrite A6.
  - apply Z.ltb_ge in Ea. exists dn, kp, (j :: dp). destruct Ac as [A1 A2 A3 A4 A5 A6 A7]. split; try done.
    + rewrite A1. rewrite !Permutation_middle. done.
    + by constructor.
    + by constructor.
    + constructor; [by exists e|done].
  - exists (j :: dn), kp, dp. destruct Ac as [A1 A2 A3 A4 A5 A6 A7]. split; try done.
    + by rewrite A1.
    + by constructor.
    + constructor; [|done]. destruct (process_ok j b b1 tt Hd Hu E1) as (d & Hdk & Hs). exists d. split; [done|].
      apply (dr_safe _ _ _ D2); [eapply Forall_impl; [exact Hj|auto]|]. unfold b2. by rewrite enqueue_all_eq.
Qed.

Lemma queue_archive_copy j k d : keeps (same bg_queue) (archive_copy env j k d : M B string string).
Proof. unfold archive_copy. keeps_tac. Qed.

Hint Resolve queue_archive_copy : keeps.

Lemma queue_process j : keeps (same bg_queue) (processJob env j : M B string unit).
Proof. unfold processJob. keeps_tac. Qed.

Lemma drain_jobs_queue arrivals jobs : forall i (b b' : B) o,
  drain_jobs env arrivals i jobs b = (b', o) ->
  bg_queue b' = bg_queue b ++ (new_job <$> concat (arrivals <$> seq i (length jobs))).
Proof.
  induction jobs as [|j jobs IH]; intros i b b' o E; simpl in E.
  - injection E as <- <-. simpl. by rewrite app_nil_r.
  - destruct (processJob env j b) as [b1 r] eqn:E1.
    destruct (drain_jobs env arrivals (Datatypes.S i) jobs (enqueue_all (arrivals i) b1)) as [b2 [rq errs]] eqn:E2.
    assert (b' = b2) as -> by (repeat case_match; congruence). rewrite (IH _ _ _ _ E2), enqueue_all_eq. simpl.
    rewrite (job_keeps _ _ _ _ _ (queue_process j) E1), fmap_app. by rewrite (assoc_L (++)).
Qed.

Lemma drain_jobs_requeue arrivals jobs : forall i (b b' : B) rq errs,
  drain_jobs env arrivals i jobs b = (b', (rq, errs)) ->
  Forall (fun j' => exists j, j ∈ jobs /\ j' = requeued j /\ jb_Attempts j' < maxRetry) rq.
Proof.
  induction jobs as [|j jobs IH]; intros i b b' rq errs E; simpl in E.
  - by injection E as <- <- <-.
  - destruct (processJob env j b) as [b1 r].
    destruct (drain_jobs env arrivals (Datatypes.S i) jobs (enqueue_all (arrivals i) b1)) as [b2 [rq' errs']] eqn:E2.
    apply IH in E2. assert (E' : Forall (fun j' => exists i, i ∈ j :: jobs /\ j' = requeued i /\ jb_Attempts j' < maxRetry) rq').
    { eapply Forall_impl; [exact E2|]. intros x (k & Hk & Hx). exists k. split; [set_solver|done]. }
    destruct r as [e|u]; [destruct (jb_Attempts j + 1 <? maxRetry) eqn:Ea|]; injection E as <- <- <-; try done.
    constructor; [|done]. exists j. split_and!; [set_solver|done|]. by apply Z.ltb_lt.
Qed.

(** The queue after a drain. *)
Lemma drain_queue arrivals (b b' : B) errs j' :
  DrainOnce env arrivals b = (b', errs) -> j' ∈ bg_queue b' ->
  (exists j, j ∈ bg_queue b /\ j' = requeued j /\ jb_Attempts j' < maxRetry) \/
  (exists k x, x ∈ arrivals k /\ j' = new_job x).
Proof.
  unfold DrainOnce. destruct (drain_jobs env arrivals 0 (bg_queue b) (set_queue [] b)) as [b1 [rq er]] eqn:E.
  intros [= <- <-]. simpl. rewrite (drain_jobs_queue _ _ _ _ _ _ E). simpl. apply drain_jobs_requeue in E.
  intros [Hj|(x & -> & Hx)%list_elem_of_fmap]%elem_of_app.
  - left. by apply (proj1 (Forall_forall _ _) E).
  - right. apply list_elem_of_In, in_concat in Hx as (l & Hl & Hx).
    apply list_elem_of_In, list_elem_of_fmap in Hl as (k & -> & _). exists k, x. by rewrite list_elem_of_In.
Qed.

(** Several drains, with what arrives during each. *)
Fixpoint drains (rounds : list (nat -> list arrival)) (b : B) : B :=
  match rounds with
  | [] => b
  | arrivals :: rounds => drains rounds (DrainOnce env arrivals b).1
  end.

(** What a job was enqueued as. *)
Definition origin (j : UploadJob) : arrival := (jb_TenantID j, jb_SessionID j, jb_LocalPath j).

Definition arrives (rounds : list (nat -> list arrival)) (x : arrival) : Prop :=
  exists a k, a ∈ rounds /\ x ∈ a k.

(** An old job has been tried in every round. *)
Lemma drains_attempts rounds : forall (b : B) m (known : arrival -> Prop),
  (forall j, j ∈ bg_queue b -> known (origin j) \/ m <= jb_Attempts j) ->
  forall j, j ∈ bg_queue (drains rounds b) ->
    known (origin j) \/ arrives rounds (origin j) \/ m + Z.of_nat (length rounds) <= jb_Attempts j.
Proof.
  induction rounds as [|a rounds IH]; intros b m known Hb j Hj; simpl in Hj.
  - destruct (Hb j Hj); [auto|right; right; simpl; lia].
  - destruct (DrainOnce env a b) as [b1 errs] eqn:E.
    destruct (IH b1 (m + 1) (fun x => known x \/ arrives [a] x)) with (j := j) as [[?|(a' & k & Ha & Hx)]|[(a' & k & Ha & Hx)|?]];
      [|done|auto|..].
    + intros i Hi. destruct (drain_queue _ _ _ _ _ E Hi) as [(i0 & Hi0 & -> & _)|(k & x & Hx & ->)].
      * destruct (Hb i0 Hi0); [auto|right; simpl; lia].
      * left. right. exists a, k. split; [set_solver|]. by destruct x as [[t s] q].
    + right. left. apply list_elem_of_singleton in Ha as ->. exists a, k. split; [set_solver|done].
    + right. left. exists a', k. split; [set_solver|done].
    + right. right. simpl. lia.
Qed.

Lemma drains_bound rounds : rounds <> [] -> forall (b : B) j, j ∈ bg_queue (drains rounds b) -> jb_Attempts j < maxRetry.
Proof.
  induction rounds as [|a rounds IH]; intros Hne b j Hj; [done|]. simpl in Hj.
  destruct rounds as [|a' rounds]; [|by eapply IH]. simpl in Hj. destruct (DrainOnce env a b) as [b1 errs] eqn:E.
  destruct (drain_queue _ _ _ _ _ E Hj) as [(i0 & Hi0 & -> & Hlt)|(k & [[t s] q] & Hx & ->)]; [done|unfold maxRetry; simpl; lia].
Qed.

End Worker.

(** ** The collaborators of the repository *)

#[export] Program Instance fake_spaces_laws : SpacesLaws FakeSpaces.t := {
  location _ t k := ("do-spaces://" ++ t ++ "/" ++ k)%string;
  object_at f l := FakeSpaces.Stored f !! l
}.
Next Obligation. intros f t k d e f' sk [= <- <-]. split; [done|]. apply lookup_insert_eq. Qed.
Next Obligation. intros f t k d e f' r [= <- <-]. split; [done|]. intros l Hl. by apply lookup_insert_ne. Qed.

#[export] Program Instance fake_archiver_laws : ArchiverLaws FakeArchiver.t := {
  copy_location _ t k := ("b2://" ++ t ++ "/" ++ k)%string;
  copy_at f l := (f : gmap string string) !! l
}.
Next Obligation. intros f n t k d f' ak e [= <- <- <-] _. split_and!; [done..|]. apply lookup_insert_eq. Qed.
Next Obligation. intros f n t k d f' r [= <- <-]. split; [done|]. intros l Hl. by apply lookup_insert_ne. Qed.

#[export] Program Instance fake_publisher_laws : PublisherLaws FakePublisher.t := {
  sent f s m := m ∈ default [] ((f : gmap string (list string)) !! s)
}.
Next Obligation. intros f s m f' [= <-]. unfold FakePublisher.t in *. rewrite lookup_insert_eq. simpl. set_solver. Qed.
Next Obligation.
  intros f s m f' e s0 m0 [= <- <-]. unfold FakePublisher.t in *. rewrite lookup_insert. case_decide; simplify_eq; simpl; set_solver.
Qed.

#[export] Program Instance fake_store_laws : StoreLaws FakeRecordingStore.t := {
  recorded f t s k z := exists n, FakeRecordingStore.mkUpload t s k z n ∈ (f : list _);
  st_fresh _ _ := True
}.
Next Obligation. intros f n u t s k z f' [= <-]. exists n. set_solver. Qed.
Next Obligation. intros f n u t s k z f' e [= <- <-] _. split; [|done]. intros ? ? ? ? [m Hm]. exists m. set_solver. Qed.
Next Obligation. intros f n u t s k f' e [= <- <-]. done. Qed.

(** *** The storage clients, over any S3 service *)

(** What the S3 service promises of a stored object. *)
Class S3Laws (T : Type) `{S3 T} := {
  s3_at : T -> string -> string -> option string;
  s3_put_ok s i s' : PutObject s i = (s', None) -> s3_at s' (pi_Bucket i) (pi_Key i) = Some (pi_Body i);
  s3_put_frame s i s' e b k : PutObject s i = (s', e) -> (b <> pi_Bucket i \/ k <> pi_Key i) ->
    s3_at s' b k = s3_at s b k;
  s3_delete_ok s b k s' : DeleteObject s b k = (s', None) -> s3_at s' b k = None;
  s3_delete_frame s b k s' e b0 k0 : DeleteObject s b k = (s', e) -> (b0 <> b \/ k0 <> k) ->
    s3_at s' b0 k0 = s3_at s b0 k0
}.

(** An object named by [prefix] and its key. *)
Definition named_at {T} `{S3Laws T} (prefix bucket : string) (s : T) (l : string) : option string :=
  if has_prefix l prefix then s3_at s bucket (trim_prefix l prefix) else None.

Lemma named_at_key {T} `{S3Laws T} p bucket (s : T) k : named_at p bucket s (p ++ k) = s3_at s bucket k.
Proof. unfold named_at. by rewrite has_prefix_app, trim_prefix_app. Qed.

Lemma named_at_frame {T} `{S3Laws T} p (s s' : T) i e l :
  PutObject s i = (s', e) -> l <> (p ++ pi_Key i)%string ->
  named_at p (pi_Bucket i) s' l = named_at p (pi_Bucket i) s l.
Proof.
  intros E Hl. unfold named_at. destruct (has_prefix l p) eqn:Hp; [|done].
  apply has_prefix_inv in Hp as [t ->]. rewrite trim_prefix_app. eapply s3_put_frame; [exact E|].
  right. congruence.
Qed.

Section S3Clients.
Context {T : Type} `{TL : S3Laws T}.

Definition spaces_prefix (c : spacesClient T) : string := ("do-spaces://" ++ sp_bucket c ++ "/")%string.
Definition b2_prefix (c : b2Client T) : string := ("b2://" ++ b2_bucket c ++ "/")%string.

(** [put] makes one or two requests for the same object. *)
Lemma spaces_put_cases (c c' : spacesClient T) t k d e r :
  Spaces.put c t k d e = (c', r) ->
  exists s', c' = Spaces.with_s3 c s' /\
    (forall l, l <> (spaces_prefix c ++ k)%string ->
       named_at (spaces_prefix c) (sp_bucket c) s' l = named_at (spaces_prefix c) (sp_bucket c) (sp_s3 c) l) /\
    (forall sk, r = inr sk -> sk = (spaces_prefix c ++ k)%string /\ s3_at s' (sp_bucket c) k = Some d).
Proof.
  unfold Spaces.put. destruct (PutObject _ _) as [s1 e1] eqn:E1.
  assert (F1 : forall l, l <> (spaces_prefix c ++ k)%string ->
    named_at (spaces_prefix c) (sp_bucket c) s1 l = named_at (spaces_prefix c) (sp_bucket c) (sp_s3 c) l).
  { intros l Hl. by apply (named_at_frame _ _ _ _ _ _ E1). }
  assert (K : ("do-spaces://" ++ sp_bucket c ++ "/" ++ k = spaces_prefix c ++ k)%string).
  { unfold spaces_prefix. by rewrite <- !append_assoc. }
  destruct e1 as [err|].
  - destruct (e && isSSEError err).
    + destruct (PutObject s1 _) as [s2 e2] eqn:E2. assert (F2 : forall l, l <> (spaces_prefix c ++ k)%string ->
        named_at (spaces_prefix c) (sp_bucket c) s2 l = named_at (spaces_prefix c) (sp_bucket c) (sp_s3 c) l).
      { intros l Hl. rewrite <- F1 by done. by apply (named_at_frame _ _ _ _ _ _ E2). }
      destruct e2; intros [= <- <-]; exists s2; split_and!; try done. intros sk [= <-]. split; [done|].
      apply (s3_put_ok _ _ _ E2).
    + intros [= <- <-]. exists s1. by split_and!.
  - intros [= <- <-]. exists s1. split_and!; try done. intros sk [= <-]. split; [done|]. apply (s3_put_ok _ _ _ E1).
Qed.

#[export] Program Instance spaces_laws : SpacesLaws (spacesClient T) := {
  location c t k := (spaces_prefix c ++ k)%string;
  object_at c l := named_at (spaces_prefix c) (sp_bucket c) (sp_s3 c) l
}.
Next Obligation.
  intros c t k d e c' sk (s' & -> & _ & Hr)%spaces_put_cases. destruct (Hr sk eq_refl) as [-> Hs].
  split; [done|]. change (named_at (spaces_prefix c) (sp_bucket c) s' (spaces_prefix c ++ k) = Some d).
  by rewrite named_at_key.
Qed.
Next Obligation. by intros c t k d e c' r (s' & -> & Hf & _)%spaces_put_cases. Qed.

(** So does [archive]; a key is returned exactly when one was accepted. *)
Lemma b2_archive_cases (c c' : b2Client T) n t k d ak e :
  B2.archive c n t k d = (c', (ak, e)) ->
  exists s', c' = B2.b2_with c s' /\
    (forall l, l <> (b2_prefix c ++ k)%string ->
       named_at (b2_prefix c) (b2_bucket c) s' l = named_at (b2_prefix c) (b2_bucket c) (b2_s3 c) l) /\
    (ak <> "" \/ e = None -> ak = (b2_prefix c ++ k)%string /\ s3_at s' (b2_bucket c) k = Some d).
Proof.
  unfold B2.archive. destruct (PutObject _ _) as [s1 e1] eqn:E1.
  assert (F1 : forall l, l <> (b2_prefix c ++ k)%string ->
    named_at (b2_prefix c) (b2_bucket c) s1 l = named_at (b2_prefix c) (b2_bucket c) (b2_s3 c) l).
  { intros l Hl. by apply (named_at_frame _ _ _ _ _ _ E1). }
  assert (K : ("b2://" ++ b2_bucket c ++ "/" ++ k = b2_prefix c ++ k)%string).
  { unfold b2_prefix. by rewrite <- !append_assoc. }
  destruct e1 as [err|].
  - destruct (isObjectLockNotEnabled err).
    + destruct (PutObject s1 _) as [s2 e2] eqn:E2. assert (F2 : forall l, l <> (b2_prefix c ++ k)%string ->
        named_at (b2_prefix c) (b2_bucket c) s2 l = named_at (b2_prefix c) (b2_bucket c) (b2_s3 c) l).
      { intros l Hl. rewrite <- F1 by done. by apply (named_at_frame _ _ _ _ _ _ E2). }
      destruct e2; intros [= <- <- <-]; exists s2; split_and!; try done; [by intros []|].
      intros _. split; [done|]. apply (s3_put_ok _ _ _ E2).
    + intros [= <- <- <-]. exists s1. split_and!; try done. by intros [].
  - intros [= <- <- <-]. exists s1. split_and!; try done. intros _. split; [done|]. apply (s3_put_ok _ _ _ E1).
Qed.

#[export] Program Instance b2_laws : ArchiverLaws (b2Client T) := {
  copy_location c t k := (b2_prefix c ++ k)%string;
  copy_at c l := named_at (b2_prefix c) (b2_bucket c) (b2_s3 c) l
}.
Next Obligation.
  intros c n t k d c' ak e (s' & -> & _ & Hr)%b2_archive_cases Hk. destruct (Hr Hk) as [-> Hs].
  split_and!; [done|done|]. change (named_at (b2_prefix c) (b2_bucket c) s' (b2_prefix c ++ k) = Some d).
  by rewrite named_at_key.
Qed.
Next Obligation. by intros c n t k d c' [ak e] (s' & -> & Hf & _)%b2_archive_cases. Qed.

End S3Clients.

(** *** The Postgres store *)

#[export] Program Instance pg_fs_laws : StoreLaws PgFs.t := {
  recorded p t s k z := exists id n, (id, PgFs.mkUpload id t s k z n) ∈ kv_rows (PgFs.uploads p);
  st_fresh p u := rows_get (new_id "upload" u) (kv_rows (PgFs.uploads p)) = None
}.
Next Obligation.
  intros p n u t s k z p'. unfold SaveUpload, pg_recording_store, PgFs.saveUpload, kv_set, kv_put.
  destruct (kv_up (PgFs.uploads p)); [|done]. intros [= <-]. exists (new_id "upload" u), n. simpl.
  apply rows_get_in, rows_get_put_eq.
Qed.
Next Obligation.
  intros p n u t s k z p' e. unfold SaveUpload, pg_recording_store, PgFs.saveUpload, kv_set, kv_put.
  destruct (kv_up (PgFs.uploads p)); intros [= <- <-] Hf; simpl; [|done]. split.
  - intros t0 s0 k0 z0 (id & m & Hin). exists id, m. rewrite rows_put_new by (by apply rows_get_None). set_solver.
  - intros u0 Hu. rewrite rows_get_put_ne; [done|]. by apply new_id_ne.
Qed.
Next Obligation.
  intros p n u t s k p' e. unfold SaveArchive, pg_archive_store, PgFs.saveArchive, kv_set, kv_put.
  by destruct (kv_up (PgFs.archives p)); intros [= <- <-].
Qed.

(** *** A service in memory, with the laws *)

Module MemS3.

(** [up]: whether it answers.  A page of the listing has one object, and a
    token as many characters as objects were listed. *)
Record t := mk { objects : gmap (string * string) string; listing : list S3Object; up : bool }.

(** It rejects every encryption header, as some regions do. *)
Definition put (s : t) (i : PutObjectInput) : t * error :=
  if negb (up s) then (s, Some "ServiceUnavailable"%string)
  else if is_empty (pi_ServerSideEncryption i)
  then (mk (<[(pi_Bucket i, pi_Key i) := pi_Body i]> (objects s)) (listing s) (up s), None)
  else (s, Some "NotImplemented: server side encryption"%string).

Definition remove (s : t) (b k : string) : t * error :=
  if up s then (mk (delete (b, k) (objects s)) (listing s) (up s), None)
  else (s, Some "ServiceUnavailable"%string).

Definition list_page (s : t) (b p : string) (token : option string) : string + Page :=
  let i := String.length (default ""%string token) in
  inr (mkPage (option_list (listing s !! i)) (Some (S i <? length (listing s))%nat)
         (Some ("." ++ default ""%string token)%string)).

End MemS3.

#[export] Instance mem_s3 : S3 MemS3.t := {
  PutObject := MemS3.put;
  DeleteObject := MemS3.remove;
  HeadObject s b k := match MemS3.objects s !! (b, k) with Some _ => None | None => Some "NotFound"%string end;
  ListObjectsV2 := MemS3.list_page;
  PresignGetObject s b k ttl := inr ("https://" ++ b ++ "/" ++ k)%string
}.

#[export] Program Instance mem_s3_laws : S3Laws MemS3.t := { s3_at s b k := MemS3.objects s !! (b, k) }.
Next Obligation.
  intros s i s'. simpl. unfold MemS3.put. destruct (MemS3.up s), (is_empty _); try done.
  intros [= <-]. apply lookup_insert_eq.
Qed.
Next Obligation.
  intros s i s' e b k. simpl. unfold MemS3.put. destruct (MemS3.up s), (is_empty _); intros [= <- <-] Hne; try done.
  apply lookup_insert_ne. intros E. destruct Hne; congruence.
Qed.
Next Obligation.
  intros s b k s'. simpl. unfold MemS3.remove. destruct (MemS3.up s); [|done]. intros [= <-]. apply lookup_delete_eq.
Qed.
Next Obligation.
  intros s b k s' e b0 k0. simpl. unfold MemS3.remove. destruct (MemS3.up s); intros [= <- <-] Hne; [|done].
  apply lookup_delete_ne. intros E. destruct Hne; congruence.
Qed.

(** ** The retention sweep *)

Section Retention.
Context {T : Type} `{TL : S3Laws T}.

(** The pages of a listing, from a token on, hold [objs]; there are [n]. *)
Inductive pages_from (c : spacesClient T) (prefix : string) : option string -> list S3Object -> nat -> Prop :=
| last_page token page :
    ListObjectsV2 (sp_s3 c) (sp_bucket c) prefix token = inr page -> pg_IsTruncated page <> Some true ->
    pages_from c prefix token (pg_Contents page) 1
| more_pages token page objs n :
    ListObjectsV2 (sp_s3 c) (sp_bucket c) prefix token = inr page -> pg_IsTruncated page = Some true ->
    pages_from c prefix (pg_Next page) objs n ->
    pages_from c prefix token (pg_Contents page ++ objs) (S n).

Lemma list_pages_all c prefix older token objs n :
  pages_from c prefix token objs n -> forall fuel out, (n <= fuel)%nat ->
  Spaces.list_pages c prefix older fuel token out = Some (inr (out ++ Spaces.older_keys older objs)).
Proof.
  induction 1 as [token page E Ht|token page objs n E Ht _ IH]; intros [|fuel] out Hf; try lia; simpl; rewrite E.
  - destruct (pg_IsTruncated page) as [[]|]; done.
  - rewrite Ht, IH by lia. unfold Spaces.older_keys. by rewrite omap_app, (assoc_L (++)).
Qed.

Lemma older_keys_elem older objs k :
  k ∈ Spaces.older_keys older objs <->
  exists t, mkObject (Some k) (Some t) ∈ objs /\ t < older.
Proof.
  unfold Spaces.older_keys. rewrite list_elem_of_omap. split.
  - intros ([[k0|] [t|]] & Hin & E); simpl in E; try done. destruct (t <? older) eqn:El; [|done].
    injection E as <-. exists t. split; [done|]. by apply Z.ltb_lt.
  - intros (t & Hin & Ht). eexists. split; [exact Hin|]. simpl. by rewrite (proj2 (Z.ltb_lt _ _) Ht).
Qed.

Definition content (c : spacesClient T) (k : string) : option string := s3_at (sp_s3 c) (sp_bucket c) k.

(** Whatever fails, only the keys of the list are touched; without an error
    all of them are gone and counted. *)
Lemma delete_all_spec keys : forall c c' z n e, delete_all c keys z = (c', (n, e)) ->
  sp_bucket c' = sp_bucket c /\
  (forall k, k ∉ keys -> content c' k = content c k) /\
  (e = None -> n = z + Z.of_nat (length keys) /\ forall k, k ∈ keys -> content c' k = None).
Proof.
  induction keys as [|k keys IH]; intros c c' z n e; simpl.
  - intros [= <- <- <-]. split_and!; try done. intros _. split; [lia|set_solver].
  - unfold Spaces.Delete. destruct (DeleteObject _ _ _) as [s' e1] eqn:E1.
    assert (F : forall k0, k0 <> k -> content (Spaces.with_s3 c s') k0 = content c k0).
    { intros k0 Hk. unfold content. eapply s3_delete_frame; [exact E1|auto]. }
    destruct e1 as [err|].
    + intros [= <- <- <-]. split_and!; try done. intros k0 Hk. apply F. set_solver.
    + intros H'. apply IH in H' as (B1 & B2 & B4). apply s3_delete_ok in E1. split_and!.
      * by rewrite B1.
      * intros k0 Hk. rewrite B2 by set_solver. apply F. set_solver.
      * intros He. destruct (B4 He) as [-> B5]. split; [lia|]. intros k0 Hk.
        destruct (decide (k0 ∈ keys)); [auto|]. assert (k0 = k) as -> by set_solver. by rewrite B2.
Qed.

End Retention.

(** ** Theorems *)

Section Properties.
Context {S A P R : Type}.
Context `{SL : SpacesLaws S, AL : ArchiverLaws A, PL : PublisherLaws P, RL : StoreLaws R}.
Context (env : RecEnv).

(** C39: a drain of the upload queue leaves a recording on the disk as it was,
    or removes it and then only for one of the queue's jobs that, when the drain
    had worked it off, had its bytes in hot storage, the upload recorded with its
    size, the recording announced with the keys of its copies, and, when an
    archiver is configured, the bytes in the archive too; without an archiver
    there is no second copy.  This holds whatever fails, and whatever is enqueued
    meanwhile.  It still holds at the end of the drain when the object keys of
    the queue's jobs are pairwise different; two recordings of one session share
    their key, and then the later one replaces the bytes of the first
    ([second_recording_overwrites_first]). *)
Theorem recording_removed_only_when_safe arrivals (b b' : Bridge S A P R) errs p d :
  uuids_distinct env -> uuids_ok env b ->
  DrainOnce env arrivals b = (b', errs) -> bg_disk b !! p = Some d ->
  bg_disk b' !! p = Some d \/
  bg_disk b' !! p = None /\
  (exists pre j post, bg_queue b = pre ++ j :: post /\ jb_LocalPath j = p /\
     safe (after_jobs env arrivals 0 (pre ++ [j]) (set_queue [] b)) j d) /\
  (ForallOrdPairs (apart b) (bg_queue b) -> exists j, j ∈ bg_queue b /\ jb_LocalPath j = p /\ safe b' j d).
Proof.
  intros Hd Hu E Hf. unfold DrainOnce in E.
  pose proof (drain_jobs_removed env arrivals (bg_queue b) p d Hd 0 (set_queue [] b) Hu Hf) as Hr.
  unfold after_jobs at 1 2 in Hr.
  destruct (drain_jobs env arrivals 0 (bg_queue b) (set_queue [] b)) as [b1 [rq er]] eqn:E1. injection E as <- <-.
  destruct Hr as [Hk|(Hn & Hw)]; [by left|right]. split_and!; [done..|]. intros Hp.
  assert (D : drained env (bg_queue b) (set_queue [] b) b1) by (eapply drain_jobs_safe; eauto).
  exact (dr_removed _ _ _ _ D p d Hf Hn).
Qed.

(** A drain accounts for every job of the queue it found: the recording of
    the job is safe, or the job is in the queue again, in its old order and
    before what arrived meanwhile, with one attempt more, or it used up its
    three attempts and is reported. *)
Theorem drain_accounts_for_every_job arrivals (b b' : Bridge S A P R) errs :
  uuids_distinct env -> uuids_ok env b -> ForallOrdPairs (apart b) (bg_queue b) ->
  DrainOnce env arrivals b = (b', errs) ->
  exists done kept dropped,
    bg_queue b ≡ₚ done ++ kept ++ dropped /\
    Forall (saved b b') done /\
    sublist kept (bg_queue b) /\
    bg_queue b' = (requeued <$> kept) ++ (new_job <$> concat (arrivals <$> seq 0 (length (bg_queue b)))) /\
    Forall (fun j => jb_Attempts j + 1 < maxRetry) kept /\
    Forall (fun j => maxRetry <= jb_Attempts j + 1) dropped /\ Forall2 reported dropped errs.
Proof.
  intros Hd Hu Hp E. unfold DrainOnce in E.
  destruct (drain_jobs env arrivals 0 (bg_queue b) (set_queue [] b)) as [b1 [rq er]] eqn:E1. injection E as <- <-.
  destruct (drain_jobs_accounts env arrivals (bg_queue b) Hd 0 (set_queue [] b) b1 rq er Hu Hp E1)
    as (dn & kp & dp & [A1 A2 A3 A4 A5 A6 A7]).
  exists dn, kp, dp. split_and!; try done. simpl. by rewrite (drain_jobs_queue _ _ _ _ _ _ _ E1), A6.
Qed.

(** Retries end: after three drains or more, every job in the queue was
    enqueued during them, whatever the collaborators answered. *)
Theorem no_job_outlives_three_drains rounds (b : Bridge S A P R) j :
  Forall (fun j => 0 <= jb_Attempts j) (bg_queue b) -> (3 <= length rounds)%nat ->
  j ∈ bg_queue (drains env rounds b) -> arrives rounds (origin j).
Proof.
  intros Hb Hr Hj.
  destruct (drains_attempts env rounds b 0 (fun _ => False)) with (j := j) as [[]|[?|Ha]]; [|done|done|].
  - intros i Hi. right. by apply (proj1 (Forall_forall _ _) Hb).
  - assert (Hlt : jb_Attempts j < maxRetry) by (eapply drains_bound; [|exact Hj]; by destruct rounds; simpl in Hr; [lia|]).
    unfold maxRetry in Hlt. lia.
Qed.

End Properties.

(** A retention sweep ends once it has read the pages of the listing; it
    touches no object but those the listing dates before the cutoff, and when
    it reports no error these are all gone and counted. *)
Theorem retention_sweep_removes_the_expired {T} `{TL : S3Laws T} (r : RetentionCron T) fuel now objs n :
  pages_from (rc_spaces r) (rc_prefix r) None objs n -> (n <= fuel)%nat ->
  let expired k := exists t, mkObject (Some k) (Some t) ∈ objs /\ t < now - rc_hotRetention r in
  exists r' deleted e, RunOnce r fuel now = Some (r', (deleted, e)) /\
    (forall k, ~ expired k -> content (rc_spaces r') k = content (rc_spaces r) k) /\
    (e = None -> deleted = Z.of_nat (length (Spaces.older_keys (now - rc_hotRetention r) objs)) /\
       forall k, expired k -> content (rc_spaces r') k = None).
Proof.
  intros Hp Hn expired. unfold RunOnce, Spaces.ListOlderThan. rewrite (list_pages_all _ _ _ _ _ _ Hp) by done. simpl.
  destruct (delete_all _ _ _) as [c' [dl e]] eqn:E. apply delete_all_spec in E as (_ & Hf & He).
  eexists _, dl, e. split; [done|]. simpl. split.
  - intros k Hk. apply Hf. by rewrite older_keys_elem.
  - intros ->. destruct (He eq_refl) as [-> Hd]. split; [done|]. intros k Hk. apply Hd. by rewrite older_keys_elem.
Qed.

(** ** Witnesses *)

Definition demo_env : RecEnv := mkRecEnv Z.of_nat itoa (fun _ => None) (fun _ => true).

Definition mem (up : bool) : MemS3.t := MemS3.mk ∅ [] up.

Abbreviation Demo := (Bridge (spacesClient MemS3.t) (b2Client MemS3.t) FakePublisher.t PgFs.t).

(** A deployment whose hot tier works, and whose archive works when [up]. *)
Definition demo (up : bool) (disk : gmap string string) (queue : list UploadJob) : Demo :=
  mkBridge disk queue (mkSpaces (mem true) "hot" "sgp1" "" "AES256") (Some (mkB2 (mem up) "worm" "" "" 365))
    ∅ PgFs.empty true 0.

Definition wav1 : string := "/tmp/recordings/t1_s1.wav".
Definition wav2 : string := "/tmp/recordings/t1_s1-b.wav".
Definition demo_disk : gmap string string := {[ wav1 := "RIFF-1"%string; wav2 := "RIFF-2"%string ]}.

(** One job whose file is there, one whose file is not. *)
Definition demo_start : Demo := demo true demo_disk [mkJob "t1" "s1" wav1 0; mkJob "t1" "s2" "/tmp/none.wav" 2].

Definition no_arrivals : nat -> list arrival := fun _ => [].

Lemma demo_uuids : uuids_distinct demo_env /\ uuids_ok demo_env demo_start.
Proof. split; [intros n m; apply (inj pretty)|done]. Qed.

Lemma demo_apart : ForallOrdPairs (apart demo_start) (bg_queue demo_start).
Proof.
  constructor; [|constructor; constructor]. constructor; [|constructor].
  split; [|right]; intros E; vm_compute in E; discriminate.
Qed.

Definition demo_end : Demo * list string := DrainOnce demo_env no_arrivals demo_start.

(** Two recordings of one session, of which the second replaces the first. *)
Definition twice_start : Demo := demo true demo_disk [mkJob "t1" "s1" wav1 0; mkJob "t1" "s1" wav2 0].

Lemma twice_uuids : uuids_ok demo_env twice_start.
Proof. done. Qed.

Lemma recording_removed_only_when_safe_witness :
  (bg_disk demo_end.1 !! wav2 = Some "RIFF-2"%string /\
   exists j, j ∈ bg_queue demo_start /\ jb_LocalPath j = wav1 /\ safe demo_end.1 j "RIFF-1") /\
  exists pre j post, bg_queue twice_start = pre ++ j :: post /\ jb_LocalPath j = wav1 /\
    safe (after_jobs demo_env no_arrivals 0 (pre ++ [j]) (set_queue [] twice_start)) j "RIFF-1".
Proof.
  split; [split; [vm_compute; reflexivity|]|].
  - destruct (recording_removed_only_when_safe demo_env no_arrivals demo_start demo_end.1 demo_end.2 wav1 "RIFF-1"%string
      (proj1 demo_uuids) (proj2 demo_uuids) (surjective_pairing demo_end)) as [Hk|(_ & _ & Hs)].
    + vm_compute. reflexivity.
    + vm_compute in Hk. discriminate.
    + exact (Hs demo_apart).
  - destruct (recording_removed_only_when_safe demo_env no_arrivals twice_start
      (DrainOnce demo_env no_arrivals twice_start).1 (DrainOnce demo_env no_arrivals twice_start).2 wav1 "RIFF-1"%string
      (proj1 demo_uuids) twice_uuids (surjective_pairing _)) as [Hk|(_ & Hs & _)].
    + vm_compute. reflexivity.
    + vm_compute in Hk. discriminate.
    + exact Hs.
Defined.

Lemma drain_accounts_for_every_job_witness :
  exists done kept dropped,
    bg_queue demo_start ≡ₚ done ++ kept ++ dropped /\ Forall (saved demo_start demo_end.1) done /\
    Forall2 reported dropped demo_end.2.
Proof.
  destruct (drain_accounts_for_every_job demo_env no_arrivals demo_start demo_end.1 demo_end.2
    (proj1 demo_uuids) (proj2 demo_uuids) demo_apart (surjective_pairing demo_end))
    as (dn & kp & dp & H1 & H2 & _ & _ & _ & _ & H3).
  exists dn, kp, dp. done.
Defined.

(** The recording that arrives in the third round is still there after it. *)
Definition late_round : nat -> list arrival := fun i => if (i =? 0)%nat then [("t2", "s9", wav2)]%string else [].

Definition blocked_start : Demo := demo false demo_disk [mkJob "t1" "s1" wav1 0].

Lemma no_job_outlives_three_drains_witness :
  exists j, j ∈ bg_queue (drains demo_env [no_arrivals; no_arrivals; late_round] blocked_start) /\
    arrives [no_arrivals; no_arrivals; late_round] (origin j).
Proof.
  exists (mkJob "t2" "s9" wav2 0). split; [vm_compute; left|].
  apply (no_job_outlives_three_drains demo_env [no_arrivals; no_arrivals; late_round] blocked_start).
  - by repeat constructor.
  - simpl. lia.
  - vm_compute. left.
Defined.

(** A listing of two pages. *)
Definition demo_cron : RetentionCron MemS3.t :=
  mkCron (mkSpaces (MemS3.mk {[ ("hot", "old") := "a"; ("hot", "new") := "b" ]}%string
    [mkObject (Some "old"%string) (Some 10); mkObject (Some "new"%string) (Some 500)] true) "hot" "" "" "") 100 "".

Lemma retention_sweep_removes_the_expired_witness :
  exists r' deleted e, RunOnce demo_cron 2 400 = Some (r', (deleted, e)) /\
    content (rc_spaces r') "new" = Some "b"%string /\ (e = None -> content (rc_spaces r') "old" = None).
Proof.
  edestruct (retention_sweep_removes_the_expired demo_cron 2 400
    [mkObject (Some "old"%string) (Some 10); mkObject (Some "new"%string) (Some 500)] 2) as (r' & dl & e & E & Hf & He).
  - apply (more_pages (rc_spaces demo_cron) "" None
      (mkPage [mkObject (Some "old"%string) (Some 10)] (Some true) (Some "."%string))
      [mkObject (Some "new"%string) (Some 500)] 1); [done..|].
    by apply (last_page (rc_spaces demo_cron) "" (Some "."%string)
      (mkPage [mkObject (Some "new"%string) (Some 500)] (Some false) (Some ".."%string))).
  - lia.
  - exists r', dl, e. split; [done|]. split.
    + rewrite Hf; [reflexivity|]. intros (t & Hin & Ht). simpl in Ht. rewrite !elem_of_cons in Hin.
      destruct Hin as [Hin|[Hin|Hin]]; [discriminate|injection Hin as ->; lia|by apply not_elem_of_nil in Hin].
    + intros Hn. apply (He Hn). exists 10. split; [left|simpl; lia].
Defined.

(** ** What the code does against its comments *)

(** The package comment says that a recording which cannot be uploaded is
    written to recording_failures after the retries.  With the archive down for
    three drains the job is forgotten: its file stays on disk, no queue holds it,
    and nothing was announced. *)
Theorem failed_recording_is_abandoned :
  let b := drains demo_env [no_arrivals; no_arrivals; no_arrivals] blocked_start in
  bg_queue b = [] /\ bg_disk b !! wav1 = Some "RIFF-1"%string /\ bg_pub b = ∅.
Proof. vm_compute. done. Qed.

(** Each of the three attempts uploaded the file again and added a record of
    the upload: the ids of the records are random, not made from the session. *)
Theorem retries_duplicate_upload_records :
  let b := drains demo_env [no_arrivals; no_arrivals; no_arrivals] blocked_start in
  (fun r => PgFs.up_SessionID r.2) <$> kv_rows (PgFs.uploads (bg_store b)) = ["s1"; "s1"; "s1"]%string.
Proof. vm_compute. reflexivity. Qed.

(** Two recordings of one session have the same object key: both files are
    removed, both are announced, and the bytes of the first are nowhere. *)
Theorem second_recording_overwrites_first :
  let b := (DrainOnce demo_env no_arrivals
              (demo true demo_disk [mkJob "t1" "s1" wav1 0; mkJob "t1" "s1" wav2 0])).1 in
  bg_disk b = ∅ /\
  map_to_list (MemS3.objects (sp_s3 (bg_spaces b))) = [(("hot", "t1/recordings/s1.wav"), "RIFF-2")]%string /\
  (fun a => map_to_list (MemS3.objects (b2_s3 a))) <$> bg_archiver b =
    Some [(("worm", "t1/recordings/s1.wav"), "RIFF-2")]%string.
Proof. vm_compute. done. Qed.

(** The name of the S3 error is compared with a text that has a capital letter
    after both were put in lower case: the fallback is not taken. *)
Theorem lock_error_is_not_recognised :
  isObjectLockNotEnabled "ObjectLockConfigurationNotFoundError" = false.
Proof. vm_compute. reflexivity. Qed.

(** The comment on the key prefixes says 001 is eu-central-003. *)
Theorem key_prefix_001_is_us_west : B2.b2RegionFromKey "001abc" = "us-west-002".
Proof. reflexivity. Qed.

(** A CHANNEL_ANSWER that is delivered after the hangup erases the end of the
    session. *)
Theorem late_answer_reopens_session :
  let '(p1, _) := PgFs.SetSessionStarted PgFs.empty 10 "u" in
  let '(p2, _) := PgFs.SetSessionEnded p1 20 "u" in
  let '(p3, e) := PgFs.SetSessionStarted p2 30 "u" in
  e = None /\ kv_get (PgFs.sessions p3) "u" = Ok (Some (PgFs.mkSession "u" (Some 30) None 30)).
Proof. vm_compute. done. Qed.
