(* ===== verification/RecordingQueue.v ===== *)
(** * freeswitch-bridge: the upload queue in Postgres

    [services/freeswitch-bridge/internal/recording]: the scanner of the table
    [recording_upload_queue] (queue.go) and the store that writes the outcome of
    an upload back to it (postgres.go), on top of the worker of [Recording].  The
    table is a list of rows; a statement may be refused, executed without an
    answer, or answered in part.  Several bridges share the table: the theorems on
    claims are about arbitrary sequences of statements, of which the operations of
    a scanner are shown to consist. *)

From S2P Require Import Prelude GoTime Kv GoMonad GoStrings Recording RecordingSafety.
From stdpp Require Import relations.

Open Scope Z_scope.

(** ** The database *)

Record QRow := mkQRow {
  qr_id : string;
  qr_tenant : string;
  qr_session : string;
  qr_path : string;
  qr_spaces : option string;
  qr_status : string;
  qr_attempts : Z;
  qr_error : option string;
  qr_size : Z;
  qr_created : Z;
  qr_updated : Z;
  qr_b2 : option string;
  qr_archived : option Z
}.

(** How a statement ends: it is executed and answered; it is refused at once; or
    the connection breaks, with or without the statement having been executed,
    after [delivered] of its rows came in. *)
Inductive answer := Done | Refused (e : string) | Broken (executed : bool) (delivered : nat) (e : string).

Record queueUpload := mkQUpload {
  qu_ID : string; qu_TenantID : string; qu_SessionID : string; qu_SpacesKey : string;
  qu_Status : string; qu_SizeBytes : Z; qu_CreatedAt : Z; qu_UpdatedAt : Z
}.

Record queueArchive := mkQArchive {
  qa_ID : string; qa_TenantID : string; qa_SessionID : string; qa_B2Key : string; qa_ArchivedAt : Z
}.

(** By the number of the statement: its end, the clock of the database and the
    rows that another transaction has locked.  [pg_order] is the order in which
    the database has rows of one time, and returns the rows of an update. *)
Record PgQueue := mkPg {
  pg_rows : list QRow;
  pg_uploads : gmap string queueUpload;
  pg_archives : gmap string queueArchive;
  pg_answer : nat -> answer;
  pg_clock : nat -> Z;
  pg_locked : nat -> string -> bool;
  pg_order : list QRow -> list QRow;
  pg_stmts : nat
}.

Definition with_rows (s : PgQueue) (rows : list QRow) : PgQueue :=
  mkPg rows (pg_uploads s) (pg_archives s) (pg_answer s) (pg_clock s) (pg_locked s) (pg_order s) (pg_stmts s).

Definition next (s : PgQueue) : PgQueue :=
  mkPg (pg_rows s) (pg_uploads s) (pg_archives s) (pg_answer s) (pg_clock s) (pg_locked s) (pg_order s) (S (pg_stmts s)).

Definition this_answer (s : PgQueue) : answer := pg_answer s (pg_stmts s).

Definition executed (a : answer) : bool :=
  match a with Done => true | Refused _ => false | Broken x _ _ => x end.

(** [db.Exec] of a statement with the effect [f]. *)
Definition exec (s : PgQueue) (f : PgQueue -> PgQueue) : PgQueue * error :=
  (next (if executed (this_answer s) then f s else s),
   match this_answer s with Done => None | Refused e | Broken _ _ e => Some e end).

(** [UPDATE recording_upload_queue SET f WHERE w]. *)
Definition update (w : QRow -> bool) (f : Z -> QRow -> QRow) (s : PgQueue) : PgQueue :=
  with_rows s (map (fun r => if w r then f (pg_clock s (pg_stmts s)) r else r) (pg_rows s)).

(** ** postgres.go *)

Definition of_session (tenantID sessionID : string) (r : QRow) : bool :=
  bool_decide (qr_tenant r = tenantID) && bool_decide (qr_session r = sessionID).

Definition uploaded (spacesKey : string) (size now : Z) (r : QRow) : QRow :=
  mkQRow (qr_id r) (qr_tenant r) (qr_session r) (qr_path r) (Some spacesKey) "uploaded" (qr_attempts r) (qr_error r) size
    (qr_created r) now (qr_b2 r) (qr_archived r).

Definition archived (b2Key : string) (now : Z) (r : QRow) : QRow :=
  mkQRow (qr_id r) (qr_tenant r) (qr_session r) (qr_path r) (qr_spaces r) (qr_status r) (qr_attempts r) (qr_error r)
    (qr_size r) (qr_created r) now (Some b2Key) (Some now).

Definition put_upload (u : queueUpload) (s : PgQueue) : PgQueue :=
  mkPg (pg_rows s) (<[qu_ID u := u]> (pg_uploads s)) (pg_archives s) (pg_answer s) (pg_clock s) (pg_locked s) (pg_order s) (pg_stmts s).

Definition put_archive (a : queueArchive) (s : PgQueue) : PgQueue :=
  mkPg (pg_rows s) (pg_uploads s) (<[qa_ID a := a]> (pg_archives s)) (pg_answer s) (pg_clock s) (pg_locked s) (pg_order s) (pg_stmts s).

Definition put_error (kind key e : string) : string := ("put " ++ kind ++ "/" ++ key ++ ": " ++ e)%string.

Definition q_SaveUpload (s : PgQueue) (now : Z) (uid tenantID sessionID spacesKey : string) (sizeBytes : Z) : PgQueue * error :=
  let record := mkQUpload (tenantID ++ ":" ++ sessionID) tenantID sessionID spacesKey "uploaded" sizeBytes now now in
  let '(s, e) := exec s (put_upload record) in
  match e with
  | Some e => (s, Some (put_error "upload" (qu_ID record) e))
  | None => let '(s, _) := exec s (update (of_session tenantID sessionID) (uploaded spacesKey sizeBytes)) in (s, None)
  end.

Definition q_SaveArchive (s : PgQueue) (now : Z) (uid tenantID sessionID b2Key : string) : PgQueue * error :=
  let rec_ := mkQArchive (tenantID ++ ":" ++ sessionID) tenantID sessionID b2Key now in
  let '(s, e) := exec s (put_archive rec_) in
  match e with
  | Some e => (s, Some (put_error "archive" (qa_ID rec_) e))
  | None => let '(s, _) := exec s (update (of_session tenantID sessionID) (archived b2Key)) in (s, None)
  end.

#[export] Instance queue_recording_store : RecordingStore PgQueue := q_SaveUpload.
#[export] Instance queue_archive_store : ArchiveStore PgQueue := q_SaveArchive.

(** ** queue.go: claiming rows *)

Definition claimable (r : QRow) : bool := bool_decide (qr_status r = "pending"%string) && (qr_attempts r <? 5).

Definition older (a b : QRow) : bool := qr_created a <? qr_created b.

(** The subquery of [tick]. *)
Definition picked (s : PgQueue) : list QRow :=
  take 16 (sort_by older (pg_order s
    (List.filter (fun r => claimable r && negb (pg_locked s (pg_stmts s) (qr_id r))) (pg_rows s)))).

Definition claimed (now : Z) (r : QRow) : QRow :=
  mkQRow (qr_id r) (qr_tenant r) (qr_session r) (qr_path r) (qr_spaces r) "claimed" (qr_attempts r + 1) (qr_error r)
    (qr_size r) (qr_created r) now (qr_b2 r) (qr_archived r).

Definition is_picked (s : PgQueue) (r : QRow) : bool := bool_decide (qr_id r ∈ qr_id <$> picked s).

(** The claim, with the rows that [rows.Next] delivers; what broke the connection
    is only in [rows.Err], which is not read. *)
Definition claim (s : PgQueue) : PgQueue * result (list QRow) :=
  let s' := update (is_picked s) claimed s in
  let returned := pg_order s (List.filter (fun r => is_picked s r) (pg_rows s')) in
  match this_answer s with
  | Done => (next s', Ok returned)
  | Refused e => (next s, Err e)
  | Broken true n _ => (next s', Ok (take n returned))
  | Broken false _ _ => (next s, Ok [])
  end.

Definition failed (reason : string) (now : Z) (r : QRow) : QRow :=
  mkQRow (qr_id r) (qr_tenant r) (qr_session r) (qr_path r) (qr_spaces r)
    (if 5 <=? qr_attempts r then "failed" else "pending") (qr_attempts r) (Some reason)
    (qr_size r) (qr_created r) now (qr_b2 r) (qr_archived r).

Definition has_id (id : string) (r : QRow) : bool := bool_decide (qr_id r = id).

Definition markFailed (s : PgQueue) (id reason : string) : PgQueue * error :=
  exec s (update (has_id id) (failed reason)).

Definition MarkUploaded (s : PgQueue) (id spacesKey : string) (size : Z) : PgQueue * error :=
  exec s (update (has_id id) (uploaded spacesKey size)).

(** ** queue.go: fetching recordings *)

(** [http.Response]: the parts in which the body arrives; [rp_end] is the error
    after the last one, [None] for the end of the body. *)
Record Resp := mkResp { rp_StatusCode : Z; rp_chunks : list string; rp_end : error }.

(** [nt_parse]: what [url.Parse] finds wrong with a URL after its scheme;
    [nt_rand]: the random part of the [k]-th name tried for a temporary file,
    [nt_open] a failure to create it, [nt_write] the failure of the [k]-th write. *)
Record Net := mkNet {
  nt_parse : string -> error;
  nt_get : nat -> string -> string + Resp;
  nt_dir : string;
  nt_rand : nat -> nat -> string;
  nt_open : nat -> error;
  nt_write : nat -> nat -> error
}.

Definition is_letter (c : Ascii.ascii) : bool :=
  let n := Ascii.N_of_ascii c in ((65 <=? n) && (n <=? 90) || (97 <=? n) && (n <=? 122))%N.
Definition scheme_char (c : Ascii.ascii) : bool :=
  let n := Ascii.N_of_ascii c in ((48 <=? n) && (n <=? 57) || (n =? 43) || (n =? 45) || (n =? 46))%N.

(** [getScheme] of package [net/url]: the letters, digits and signs before the
    first colon. *)
Fixpoint scheme_from (acc url : string) : string + string :=
  match url with
  | EmptyString => inr ""%string
  | String c rest =>
      if is_letter c then scheme_from (acc ++ String c "") rest
      else if scheme_char c then (if is_empty acc then inr ""%string else scheme_from (acc ++ String c "") rest)
      else if bool_decide (c = Ascii.ascii_of_N 58)
      then (if is_empty acc then inl "missing protocol scheme"%string else inr (to_lower acc))
      else inr ""%string
  end.

Definition underscore (c : Ascii.ascii) : Ascii.ascii :=
  if bool_decide (Ascii.N_of_ascii c ∈ [47; 92; 58; 32]%N) then Ascii.ascii_of_N 95 else c.
Definition safeName (s : string) : string := smap underscore s.

Section Scanner.
Context {S A P : Type} `{!SpacesClient S, !Archiver A, !Publisher P}.
Context (env : RecEnv) (net : Net).

Abbreviation B := (Bridge S A P PgQueue).
Abbreviation E := (M B string).

(** [url.Parse], for the scheme. *)
Definition parse_url (url : string) : string + string :=
  match nt_parse net url with Some e => inl e | None => scheme_from "" url end.

Definition isRemoteURL (p : string) : bool :=
  if is_empty p then false
  else match parse_url p with
       | inl _ => false
       | inr scheme => bool_decide (scheme = "http"%string) || bool_decide (scheme = "https"%string)
       end.

(** The copying loop: the [k]-th part is appended to the file. *)
Fixpoint copy_body (n k : nat) (path : string) (chunks : list string) : E unit :=
  match chunks with
  | [] => ret tt
  | c :: chunks =>
      match nt_write net n k with
      | Some e => raise e
      | None =>
          let! _ := modify (fun b => set_disk (<[path := (default "" (bg_disk b !! path) ++ c)%string]> (bg_disk b)) b) in
          copy_body n (1 + k) path chunks
      end
  end.

Definition temp_name (sessionID random : string) : string :=
  (nt_dir net ++ "rec-" ++ safeName sessionID ++ "-" ++ random ++ ".wav")%string.

(** [os.CreateTemp] tries names until one is new. *)
Fixpoint new_name (tries n k : nat) (sessionID : string) (disk : gmap string string) : option string :=
  match tries with
  | O => None
  | Datatypes.S tries =>
      let name := temp_name sessionID (nt_rand net n k) in
      if decide (disk !! name = None) then Some name else new_name tries n (1 + k) sessionID disk
  end.

Definition CreateTemp (n : nat) (sessionID : string) : E string := fun b =>
  match nt_open net n, new_name (Z.to_nat 10000) n 0 sessionID (bg_disk b) with
  | Some e, _ => (b, inl e)
  | None, None => (b, inl "file exists"%string)
  | None, Some name => (set_disk (<[name := ""%string]> (bg_disk b)) b, inr name)
  end.

Definition downloadToTemp (srcURL sessionID : string) : E string :=
  let! n := tick in
  match parse_url srcURL with
  | inl e => raise e
  | inr _ =>
      match nt_get net n srcURL with
      | inl e => raise e
      | inr resp =>
          if 400 <=? rp_StatusCode resp
          then raise ("download " ++ srcURL ++ ": " ++ itoa (Z.to_nat (rp_StatusCode resp)))%string
          else
            let! out := CreateTemp n sessionID in
            let! _ := copy_body n 0 out (rp_chunks resp) in
            ret out
      end
  end.

(** One row of the loop of [tick]. *)
Definition take_row (b : B) (j : QRow) : B :=
  if isRemoteURL (qr_path j) then
    let '(b, r) := downloadToTemp (qr_path j) (qr_session j) b in
    match r with
    | inl e => let '(s, _) := markFailed (bg_store b) (qr_id j) e in set_store s b
    | inr tmp => Enqueue (qr_tenant j) (qr_session j) tmp b
    end
  else Enqueue (qr_tenant j) (qr_session j) (qr_path j) b.

Definition scan_tick (b : B) : B * (Z * error) :=
  let '(s, r) := claim (bg_store b) in
  let b := set_store s b in
  match r with
  | Err e => (b, (0, Some ("claim rows: " ++ e)%string))
  | Ok rows => (fold_left take_row rows b, (Z.of_nat (length rows), None))
  end.

(** One tick of [Run]; [arrivals] is what others enqueue during the drain. *)
Definition scan (b : B) (arrivals : nat -> list arrival) : B :=
  let '(b, (n, _)) := scan_tick b in
  if 0 <? n then (DrainOnce env arrivals b).1 else b.

Definition scanner_Run (rounds : list (nat -> list arrival)) (b : B) : B := fold_left scan rounds b.
End Scanner.

(** ** Statements on the table

    What any number of bridges, and the services that insert rows, do to the
    table is a sequence of statements. *)

Inductive stmt :=
| StClaim
| StFail (id reason : string)
| StMark (id key : string) (size : Z)
| StPutUpload (u : queueUpload)
| StUploaded (tenant session key : string) (size : Z)
| StPutArchive (a : queueArchive)
| StArchived (tenant session key : string).

(** A row is claimed, or given back after a download failed. *)
Inductive event := Claimed (id : string) | GivenBack (id : string).

#[export] Instance event_eq_dec : EqDecision event.
Proof. solve_decision. Defined.

Definition run_stmt (s : PgQueue) (st : stmt) : PgQueue * list event :=
  let on_exec l := if executed (this_answer s) then l else [] in
  match st with
  | StClaim => ((claim s).1, on_exec (Claimed <$> (qr_id <$> picked s)))
  | StFail id reason => ((markFailed s id reason).1, on_exec [GivenBack id])
  | StMark id key size => ((MarkUploaded s id key size).1, [])
  | StPutUpload u => ((exec s (put_upload u)).1, [])
  | StUploaded t ss k z => ((exec s (update (of_session t ss) (uploaded k z))).1, [])
  | StPutArchive a => ((exec s (put_archive a)).1, [])
  | StArchived t ss k => ((exec s (update (of_session t ss) (archived k))).1, [])
  end.

Definition ids (s : PgQueue) : list string := qr_id <$> pg_rows s.

Inductive reachable : PgQueue -> list event -> Prop :=
| reach_empty s : pg_rows s = [] -> (forall l, pg_order s l ≡ₚ l) -> reachable s []
| reach_insert s l r : reachable s l -> qr_id r ∉ ids s -> qr_attempts r = 0 -> reachable (with_rows s (pg_rows s ++ [r])) l
| reach_stmt s l st : reachable s l -> reachable (run_stmt s st).1 (l ++ (run_stmt s st).2).

(** ** Claims are exclusive and bounded *)

Definition claims (l : list event) (i : string) : nat := length (filter (fun e => e = Claimed i) l).

Definition held (l : list event) (i : string) : bool :=
  foldl (fun h e => match e with
                    | Claimed j => if decide (i = j) then true else h
                    | GivenBack j => if decide (i = j) then false else h
                    end) false l.

Lemma held_snoc l e i : held (l ++ [e]) i =
  match e with
  | Claimed j => if decide (i = j) then true else held l i
  | GivenBack j => if decide (i = j) then false else held l i
  end.
Proof. unfold held. by rewrite foldl_app. Qed.

Definition exclusive (l : list event) : Prop :=
  forall i l1 l2 l3, l = l1 ++ Claimed i :: l2 ++ Claimed i :: l3 -> GivenBack i ∈ l2.

Lemma held_given_back l i l1 l2 : held l i = false -> l = l1 ++ Claimed i :: l2 -> GivenBack i ∈ l2.
Proof.
  revert l1 l2. induction l as [|e l IH] using rev_ind; intros l1 l2 Hh E; [by destruct l1|].
  destruct l2 as [|x l2 _] using rev_ind.
  - apply (app_inj_tail l l1) in E as [-> ->]. rewrite held_snoc in Hh. by rewrite decide_True in Hh.
  - rewrite app_comm_cons, app_assoc in E. apply app_inj_tail in E as [-> ->]. rewrite held_snoc in Hh.
    apply elem_of_app. destruct x as [j|j]; (destruct (decide (i = j)) as [->|Hne]; [|left; by eapply IH]).
    + done.
    + right. by left.
Qed.

Lemma snoc_split (l l1 l2 l3 : list event) e x y z :
  l ++ [e] = l1 ++ x :: l2 ++ y :: l3 ++ [z] -> l = l1 ++ x :: l2 ++ y :: l3 /\ e = z.
Proof.
  intros E. apply app_inj_tail. rewrite E, <- app_assoc. cbn. by rewrite <- app_assoc.
Qed.

Lemma snoc_split_last (l l1 l2 : list event) e x y : l ++ [e] = l1 ++ x :: l2 ++ [y] -> l = l1 ++ x :: l2 /\ e = y.
Proof. intros E. apply app_inj_tail. rewrite E, <- app_assoc. done. Qed.

Lemma exclusive_snoc l e : exclusive l -> (forall i, e = Claimed i -> held l i = false) -> exclusive (l ++ [e]).
Proof.
  intros Hl He i l1 l2 l3. destruct l3 as [|z l3 _] using rev_ind.
  - intros [-> ->]%snoc_split_last. eapply held_given_back; [by apply He|done].
  - intros [-> _]%snoc_split. by eapply Hl.
Qed.

Lemma held_other l e i : e <> Claimed i -> e <> GivenBack i -> held (l ++ [e]) i = held l i.
Proof. intros H1 H2. rewrite held_snoc. destruct e; case_decide; congruence. Qed.

Lemma exclusive_claims l new : NoDup new -> exclusive l -> (forall i, i ∈ new -> held l i = false) ->
  exclusive (l ++ (Claimed <$> new)) /\ forall i, i ∉ new -> held (l ++ (Claimed <$> new)) i = held l i.
Proof.
  intros Hn. revert l. induction Hn as [|i new Hi Hn IH]; intros l Hl Hh; cbn; [by rewrite app_nil_r|].
  rewrite cons_middle, app_assoc. destruct (IH (l ++ [Claimed i])) as [H1 H2].
  - apply exclusive_snoc; [done|]. intros j [= <-]. apply Hh. by left.
  - intros j Hj. rewrite held_other; [apply Hh; by right|intros [= ->]; done|done].
  - split; [done|]. intros j Hj. rewrite H2 by set_solver. apply held_other; [intros [= ->]; set_solver|done].
Qed.

Lemma claims_app l l' i : claims (l ++ l') i = (claims l i + claims l' i)%nat.
Proof. unfold claims. by rewrite filter_app, length_app. Qed.

Lemma claims_fmap new i : NoDup new -> claims (Claimed <$> new) i = if decide (i ∈ new) then 1%nat else 0%nat.
Proof.
  unfold claims. induction 1 as [|j new Hj Hn IH]; [done|]. rewrite fmap_cons, filter_cons. destruct (decide (Claimed j = Claimed i)) as [E|E].
  - injection E as ->. rewrite length_cons, IH, decide_False by done. by rewrite decide_True by (by left).
  - rewrite IH. repeat case_decide; set_solver.
Qed.

Lemma claims_none l i : Claimed i ∉ l -> claims l i = 0%nat.
Proof.
  unfold claims. induction l as [|e l IH]; [done|]. intros [He Hl]%not_elem_of_cons. rewrite filter_cons, decide_False by congruence.
  by apply IH.
Qed.

(** ** The invariant of the table *)

Record table_ok (s : PgQueue) (l : list event) : Prop := {
  tk_order x : pg_order s x ≡ₚ x;
  tk_ids : NoDup (ids s);
  tk_known i : Claimed i ∈ l -> i ∈ ids s;
  tk_attempts r : r ∈ pg_rows s -> qr_attempts r = Z.of_nat (claims l (qr_id r)) /\ qr_attempts r <= 5;
  tk_pending r : r ∈ pg_rows s -> qr_status r = "pending"%string -> held l (qr_id r) = false;
  tk_exclusive : exclusive l
}.

Lemma ids_map s s' g : pg_rows s' = map g (pg_rows s) -> (forall r, qr_id (g r) = qr_id r) -> ids s' = ids s.
Proof.
  intros E Hg. unfold ids. rewrite E. change (map g (pg_rows s)) with (g <$> pg_rows s).
  rewrite <- list_fmap_compose. apply list_fmap_ext. intros i r _. apply Hg.
Qed.

(** A statement that leaves the ids and attempts of the rows, and makes a row
    pending only when it gives it back. *)
Lemma rows_ok s s' l ev g :
  table_ok s l -> pg_order s' = pg_order s -> pg_rows s' = map g (pg_rows s) ->
  (forall r, qr_id (g r) = qr_id r /\ qr_attempts (g r) = qr_attempts r) ->
  (ev = [] /\ (forall r, qr_status (g r) = "pending"%string -> qr_status r = "pending"%string) \/
   exists i, ev = [GivenBack i] /\ forall r, qr_id r <> i -> g r = r) ->
  table_ok s' (l ++ ev).
Proof.
  intros [T1 T2 T3 T4 T5 T6] Ho Er Hg Hev. pose proof (ids_map s s' g Er (fun r => proj1 (Hg r))) as Hids.
  assert (Hc : forall i, claims ev i = 0%nat) by (intros i; by destruct Hev as [[-> _]|(j & -> & _)]).
  split.
  - by rewrite Ho.
  - by rewrite Hids.
  - rewrite Hids. intros i [Hi|Hi]%elem_of_app; [by apply T3|].
    destruct Hev as [[-> _]|(j & -> & _)]; [by apply elem_of_nil in Hi|by apply list_elem_of_singleton in Hi].
  - rewrite Er. intros r' (r & -> & Hr)%list_elem_of_fmap. destruct (Hg r) as [-> ->].
    rewrite claims_app, Hc, Nat.add_0_r. by apply T4.
  - rewrite Er. intros r' (r & -> & Hr)%list_elem_of_fmap. rewrite (proj1 (Hg r)).
    destruct Hev as [[-> Hp]|(j & -> & Hj)]; [rewrite app_nil_r; intros H; apply T5; auto|].
    rewrite held_snoc. case_decide as E; [done|]. rewrite (Hj r E). by apply T5.
  - destruct Hev as [[-> _]|(j & -> & _)]; [by rewrite app_nil_r|]. by apply exclusive_snoc.
Qed.

(** An effect of [exec]. *)
Lemma exec_rows s f : pg_order (f s) = pg_order s ->
  pg_order (exec s f).1 = pg_order s /\
  pg_rows (exec s f).1 = if executed (this_answer s) then pg_rows (f s) else pg_rows s.
Proof. intros Ho. unfold exec. cbn. by destruct (executed _). Qed.

Lemma update_rows s w f : exists g,
  pg_rows (exec s (update w f)).1 = map g (pg_rows s) /\
  forall r, g r = if executed (this_answer s) && w r then f (pg_clock s (pg_stmts s)) r else r.
Proof.
  destruct (exec_rows s (update w f) eq_refl) as [_ ->].
  exists (fun r => if executed (this_answer s) && w r then f (pg_clock s (pg_stmts s)) r else r). split; [|done].
  destruct (executed _); cbn; [done|]. by rewrite map_id.
Qed.

Lemma picked_in s r : (forall x, pg_order s x ≡ₚ x) -> r ∈ picked s -> r ∈ pg_rows s /\ claimable r = true.
Proof.
  intros Ho Hr. unfold picked in Hr. apply elem_of_take in Hr as (i & Hi & _). apply list_elem_of_lookup_2 in Hi.
  rewrite elem_of_sort_by, Ho in Hi. apply list_elem_of_In, filter_In in Hi as [Hi [Hc _]%andb_true_iff].
  split; [by apply list_elem_of_In|done].
Qed.

Lemma picked_nodup s : (forall x, pg_order s x ≡ₚ x) -> NoDup (ids s) -> NoDup (qr_id <$> picked s).
Proof.
  intros Ho Hn. unfold picked. rewrite fmap_take. eapply sublist_NoDup; [|apply sublist_take].
  rewrite sort_by_perm, Ho. by apply NoDup_fmap_filter.
Qed.

Lemma nodup_key {X Y} (f : X -> Y) l x y : NoDup (f <$> l) -> x ∈ l -> y ∈ l -> f x = f y -> x = y.
Proof.
  induction l as [|z l IH]; cbn; [by intros _ ?%elem_of_nil|]. intros [Hz Hl]%NoDup_cons.
  rewrite !elem_of_cons. intros [->|Hx] [->|Hy] E; auto; exfalso; apply Hz.
  - rewrite E. by apply list_elem_of_fmap_2.
  - rewrite <- E. by apply list_elem_of_fmap_2.
Qed.

(** A row is claimed when it is one of the picked ones. *)
Lemma is_picked_spec s r : (forall x, pg_order s x ≡ₚ x) -> NoDup (ids s) -> r ∈ pg_rows s ->
  is_picked s r = true <-> r ∈ picked s.
Proof.
  intros Ho Hn Hr. unfold is_picked. rewrite bool_decide_eq_true. split; [|by apply list_elem_of_fmap_2].
  intros (r' & E & Hp)%list_elem_of_fmap. destruct (picked_in s r' Ho Hp) as [Hr' _].
  by rewrite (nodup_key qr_id (pg_rows s) r r' Hn Hr Hr' E).
Qed.

Lemma claim_rows s :
  pg_order (claim s).1 = pg_order s /\
  pg_rows (claim s).1 = if executed (this_answer s)
                        then map (fun r => if is_picked s r then claimed (pg_clock s (pg_stmts s)) r else r) (pg_rows s)
                        else pg_rows s.
Proof. unfold claim. by destruct (this_answer s) as [|e|[] n e]. Qed.

Lemma same_rows_ok s s' l : table_ok s l -> pg_order s' = pg_order s -> pg_rows s' = pg_rows s -> table_ok s' (l ++ []).
Proof. intros Hok Ho Hr. apply (rows_ok s s' l [] (fun r => r) Hok Ho); [rewrite map_id; done|done|]. left. by split. Qed.

Lemma claim_stmt_ok s l : table_ok s l -> table_ok (run_stmt s StClaim).1 (l ++ (run_stmt s StClaim).2).
Proof.
  intros Hok. cbn. destruct (claim_rows s) as [Ho Hr]. destruct (executed (this_answer s)); [|by apply (same_rows_ok s)].
  destruct Hok as [T1 T2 T3 T4 T5 T6]. set (new := qr_id <$> picked s).
  assert (Hids : ids (claim s).1 = ids s) by (eapply ids_map; [exact Hr|]; intros r; cbn beta; by destruct (is_picked s r)).
  assert (Hnew : NoDup new) by by apply picked_nodup.
  destruct (exclusive_claims l new Hnew T6) as [He Hh].
  { intros i (r & -> & Hp)%list_elem_of_fmap. destruct (picked_in s r T1 Hp) as [Hin Hc]. apply T5; [done|].
    by apply andb_true_iff in Hc as [Hc%bool_decide_eq_true _]. }
  split.
  - by rewrite Ho.
  - by rewrite Hids.
  - rewrite Hids. intros i [Hi|Hi]%elem_of_app; [by apply T3|]. apply list_elem_of_fmap in Hi as (j & [= ->] & Hj).
    apply list_elem_of_fmap in Hj as (r & -> & Hp). by apply list_elem_of_fmap_2, picked_in.
  - rewrite Hr. intros r' (r & -> & Hin)%list_elem_of_fmap. destruct (T4 r Hin) as [Ha Hb].
    rewrite claims_app, claims_fmap by done. destruct (is_picked s r) eqn:Ep; cbn [claimed qr_id qr_attempts].
    + rewrite decide_True by by apply bool_decide_eq_true in Ep. apply is_picked_spec in Ep; [|done..].
      apply picked_in in Ep as [_ [_ Hlt]%andb_true_iff]; [|done]. lia.
    + rewrite decide_False by by apply bool_decide_eq_false in Ep. lia.
  - rewrite Hr. intros r' (r & -> & Hin)%list_elem_of_fmap. destruct (is_picked s r) eqn:Ep; [done|].
    intros Hp. rewrite Hh; [by apply T5|]. by apply bool_decide_eq_false in Ep.
  - done.
Qed.

(** The statements that update rows. *)
Lemma update_ok s l w f ev :
  table_ok s l ->
  (forall now r, qr_id (f now r) = qr_id r /\ qr_attempts (f now r) = qr_attempts r) ->
  (ev = [] /\ (forall now r, qr_status (f now r) = "pending"%string -> qr_status r = "pending"%string) \/
   exists i, ev = (if executed (this_answer s) then [GivenBack i] else []) /\ w = has_id i) ->
  table_ok (exec s (update w f)).1 (l ++ ev).
Proof.
  intros Hok Hf Hev. destruct (exec_rows s (update w f) eq_refl) as [Ho Hr]. destruct (update_rows s w f) as (g & Hg & Eg).
  destruct (executed (this_answer s)) eqn:Ex; cbn in Eg.
  - eapply (rows_ok s _ l ev g Hok Ho Hg); [intros r; rewrite Eg; by destruct (w r)|].
    destruct Hev as [[-> Hp]|(i & -> & ->)]; [left|right].
    + split; [done|]. intros r. rewrite Eg. destruct (w r); eauto.
    + exists i. split; [done|]. intros r Hne. rewrite Eg. unfold has_id. by rewrite bool_decide_false.
  - assert (ev = []) as -> by by destruct Hev as [[-> _]|(i & -> & _)]. by apply (same_rows_ok s).
Qed.

Lemma stmt_ok s l st : table_ok s l -> table_ok (run_stmt s st).1 (l ++ (run_stmt s st).2).
Proof.
  intros Hok. destruct st; [by apply claim_stmt_ok| | | | | |]; cbn [run_stmt fst snd].
  - apply update_ok; [done|done|]. right. by exists id.
  - apply update_ok; [done|done|]. by left.
  - apply (same_rows_ok s); [done|..]; unfold exec; cbn; by destruct (executed _).
  - apply update_ok; [done|done|]. by left.
  - apply (same_rows_ok s); [done|..]; unfold exec; cbn; by destruct (executed _).
  - apply update_ok; [done|done|]. by left.
Qed.

Lemma reachable_table s l : reachable s l -> table_ok s l.
Proof.
  induction 1 as [s Hr Ho|s l r _ IH Hid Ha|s l st _ IH]; [| |by apply stmt_ok].
  - split; unfold ids; rewrite ?Hr; [done|constructor|by intros ? ?%elem_of_nil|by intros r ?%elem_of_nil..|].
    intros i l1 l2 l3 E. by destruct l1.
  - destruct IH as [T1 T2 T3 T4 T5 T6]. assert (Hn : Claimed (qr_id r) ∉ l) by (intros Hc; by apply Hid, T3).
    assert (Hi : ids (with_rows s (pg_rows s ++ [r])) = ids s ++ [qr_id r]) by (unfold ids; cbn; by rewrite fmap_app).
    split; cbn [with_rows pg_order pg_rows]; [done|rewrite Hi..| | |done].
    + apply NoDup_app. split_and!; [done| |apply NoDup_singleton]. intros x Hx ->%list_elem_of_singleton. done.
    + intros i Hc. apply elem_of_app. left. by apply T3.
    + intros r' [Hr'| ->%list_elem_of_singleton]%elem_of_app; [by apply T4|]. rewrite Ha.
      split; [|lia]. by rewrite claims_none.
    + intros r' [Hr'| ->%list_elem_of_singleton]%elem_of_app; [by apply T5|]. intros _.
      clear -Hn. induction l as [|e l IH] using rev_ind; [done|]. rewrite held_snoc.
      destruct e as [j|j]; case_decide as E; subst; try done; [set_solver|apply IH; set_solver..].
Qed.

(** C31: Claims are exclusive and bounded.  Whatever statements the bridges that share the
    table run, in whatever order, and whatever the database does with them (it executes
    each as a whole, refuses it, or breaks the connection before or after executing it),
    a row is claimed again only after it was given back, and no row is claimed more than
    five times.  Rows enter the table with new ids and no attempts. *)
Theorem recordings_are_claimed_exclusively s l i :
  reachable s l ->
  (forall l1 l2 l3, l = l1 ++ Claimed i :: l2 ++ Claimed i :: l3 -> GivenBack i ∈ l2) /\ (claims l i <= 5)%nat.
Proof.
  intros Hr%reachable_table. split; [intros l1 l2 l3; apply (tk_exclusive _ _ Hr)|].
  destruct (decide (Claimed i ∈ l)) as [Hi|Hi]; [|rewrite claims_none by done; lia].
  apply (tk_known _ _ Hr) in Hi. apply list_elem_of_fmap in Hi as (r & -> & Hin).
  destruct (tk_attempts _ _ Hr r Hin). lia.
Qed.

(** ** The operations are sequences of statements *)

Definition stmts_between : relation PgQueue := rtc (fun s s' => exists st, s' = (run_stmt s st).1).

Lemma one_stmt s st : stmts_between s (run_stmt s st).1.
Proof. apply rtc_once. by exists st. Qed.

Lemma save_stmts s now uid t ss k z : stmts_between s (q_SaveUpload s now uid t ss k z).1.
Proof.
  unfold q_SaveUpload. set (u := mkQUpload _ _ _ _ _ _ _ _). pose proof (one_stmt s (StPutUpload u)) as H1. cbn [run_stmt fst] in H1.
  destruct (exec s (put_upload u)) as [s1 [e|]]; [done|]. etrans; [exact H1|].
  pose proof (one_stmt s1 (StUploaded t ss k z)) as H2. cbn [run_stmt fst] in H2. by destruct (exec s1 _).
Qed.

Lemma archive_stmts s now uid t ss k : stmts_between s (q_SaveArchive s now uid t ss k).1.
Proof.
  unfold q_SaveArchive. set (a := mkQArchive _ _ _ _ _). pose proof (one_stmt s (StPutArchive a)) as H1. cbn [run_stmt fst] in H1.
  destruct (exec s (put_archive a)) as [s1 [e|]]; [done|]. etrans; [exact H1|].
  pose proof (one_stmt s1 (StArchived t ss k)) as H2. cbn [run_stmt fst] in H2. by destruct (exec s1 _).
Qed.

Section StoreFrame.
Context {S A P : Type} `{!SpacesClient S, !Archiver A, !Publisher P}.
Context (env : RecEnv) (net : Net).
Abbreviation B := (Bridge S A P PgQueue).

(** A relation on tables that the two operations of the store keep is kept by the
    worker. *)
Context (Q : relation PgQueue) `{!PreOrder Q}.
Hypothesis Q_save : forall s now uid t ss k z, Q s (q_SaveUpload s now uid t ss k z).1.
Hypothesis Q_archive : forall s now uid t ss k, Q s (q_SaveArchive s now uid t ss k).1.

Definition on_store : relation B := fun b b' => Q (bg_store b) (bg_store b').

#[local] Instance on_store_preorder : PreOrder on_store.
Proof. split; [intros b; by unfold on_store|]. intros b1 b2 b3. unfold on_store. by etrans. Qed.

Ltac on_store_tac :=
  intros b; unfold on_store, put, publish, read_file, remove_file, archive_call, bind, tick, modify; cbn;
  repeat case_match; simplify_eq; cbn; reflexivity.

Lemma store_save t ss k z : keeps on_store (save_upload env t ss k z : M B string error).
Proof.
  intros b. unfold save_upload, bind, tick, on_store, SaveUpload, queue_recording_store. cbn -[q_SaveUpload].
  pose proof (Q_save (bg_store b) (e_now env (bg_ticks b)) (e_uuid env (bg_ticks b)) t ss k z) as HQ.
  by destruct (q_SaveUpload _ _ _ _ _ _ _).
Qed.

Lemma store_archive t ss k : keeps on_store (save_archive env t ss k : M B string error).
Proof.
  intros b. unfold save_archive, bind, tick, on_store, SaveArchive, queue_archive_store. cbn -[q_SaveArchive].
  pose proof (Q_archive (bg_store b) (e_now env (bg_ticks b)) (e_uuid env (bg_ticks b)) t ss k) as HQ. by destruct (q_SaveArchive _ _ _ _ _ _).
Qed.

Hint Resolve store_save store_archive : keeps.
Hint Extern 1 (keeps on_store (read_file _ _)) => solve [on_store_tac] : keeps.
Hint Extern 1 (keeps on_store (remove_file _ _)) => solve [on_store_tac] : keeps.
Hint Extern 1 (keeps on_store (put _ _ _ _)) => solve [on_store_tac] : keeps.
Hint Extern 1 (keeps on_store (publish _ _)) => solve [on_store_tac] : keeps.
Hint Extern 1 (keeps on_store (archive_call _ _ _ _)) => solve [on_store_tac] : keeps.

Lemma store_copy j k d : keeps on_store (archive_copy env j k d : M B string string).
Proof. unfold archive_copy. keeps_tac. Qed.

Hint Resolve store_copy : keeps.
Hint Extern 1 (keeps on_store (wrapping _ _)) => apply keeps_wrapping; [apply _|] : keeps.
Hint Extern 1 (keeps on_store (failing _ _)) => apply keeps_failing; apply _ : keeps.

Lemma store_process j : keeps on_store (processJob env j : M B string unit).
Proof. unfold processJob. keeps_tac. Qed.

(** What follows the upload. *)
Lemma store_rest j key k d : keeps on_store (
  let! b2Key := archive_copy env j k d in
  let! e := publish SubjectReady (ready_payload (jb_TenantID j) (jb_SessionID j) key b2Key) in
  let! _ := failing "publish" e in
  let! _ := (if is_empty b2Key then ret None
             else publish SubjectArchived (ready_payload (jb_TenantID j) (jb_SessionID j) key b2Key)) in
  remove_file env (jb_LocalPath j) : M B string unit).
Proof. keeps_tac. Qed.

Lemma store_drain_jobs arrivals jobs : forall i (b : B), on_store b (drain_jobs env arrivals i jobs b).1.
Proof.
  induction jobs as [|j jobs IH]; intros i b; cbn [drain_jobs]; [reflexivity|].
  pose proof (store_process j b) as H1. destruct (processJob env j b) as [b1 r]. cbn in H1.
  pose proof (IH (1 + i)%nat (enqueue_all (arrivals i) b1)) as H2.
  destruct (drain_jobs env arrivals (1 + i) jobs _) as [b2 [rq errs]]. cbn in H2.
  assert (H3 : on_store b b2) by (unfold on_store in *; rewrite enqueue_all_eq in H2; etrans; [exact H1|exact H2]).
  by repeat case_match.
Qed.

Lemma store_drain arrivals (b : B) : on_store b (DrainOnce env arrivals b).1.
Proof.
  unfold DrainOnce. pose proof (store_drain_jobs arrivals (bg_queue b) 0 (set_queue [] b)) as H.
  by destruct (drain_jobs env arrivals 0 (bg_queue b) (set_queue [] b)) as [b1 [rq errs]].
Qed.
End StoreFrame.

(** ** Downloads *)

Section Download.
Context {S A P : Type} `{!SpacesClient S, !Archiver A, !Publisher P}.
Context (env : RecEnv) (net : Net).
Abbreviation B := (Bridge S A P PgQueue).

Lemma new_name_new tries n k sess disk name : new_name net tries n k sess disk = Some name -> disk !! name = None.
Proof. revert k. induction tries as [|t IH]; intros k; cbn; [done|]. case_decide; [by intros [= <-]|apply IH]. Qed.

Definition joined (chunks : list string) : string := foldr String.append ""%string chunks.

Lemma copy_body_run n path chunks : forall k (b b' : B) old r,
  bg_disk b !! path = Some old -> copy_body net n k path chunks b = (b', r) ->
  exists data, b' = set_disk (<[path := data]> (bg_disk b)) b /\ (r = inr tt -> data = (old ++ joined chunks)%string).
Proof.
  induction chunks as [|c chunks IH]; intros k b b' old r Hd; cbn [copy_body].
  - intros [= <- <-]. exists old. rewrite insert_id by done. destruct b; cbn. by rewrite append_nil.
  - destruct (nt_write net n k) as [e|].
    + intros [= <- <-]. exists old. rewrite insert_id by done. by destruct b.
    + rewrite bind_run. unfold modify at 1. rewrite Hd. cbn [default]. intros E.
      eapply IH in E as (data & -> & Hr); [|apply lookup_insert_eq]. exists data. cbn. rewrite insert_insert_eq.
      split; [done|]. intros H. rewrite (Hr H). by rewrite <- append_assoc.
Qed.

(** A download leaves everything but the disk as it is, and adds at most one new
    file; when it succeeds, the file has what arrived of the body. *)
Lemma download_run url sess (b b' : B) r :
  downloadToTemp net url sess b = (b', r) ->
  bg_queue b' = bg_queue b /\ bg_store b' = bg_store b /\ bg_disk b ⊆ bg_disk b' /\
  forall out, r = inr out -> bg_disk b !! out = None /\
    exists resp, nt_get net (bg_ticks b) url = inr resp /\ rp_StatusCode resp < 400 /\
      bg_disk b' = <[out := joined (rp_chunks resp)]> (bg_disk b).
Proof.
  unfold downloadToTemp. rewrite bind_run. cbn [tick]. set (b0 := mkBridge _ _ _ _ _ _ _ _).
  destruct (parse_url net url) as [e|sch]; [by intros [= <- <-]|].
  destruct (nt_get net (bg_ticks b) url) as [e|resp]; [by intros [= <- <-]|].
  destruct (400 <=? rp_StatusCode resp) eqn:Es; [by intros [= <- <-]|].
  rewrite bind_run. unfold CreateTemp. destruct (nt_open net _) as [e|]; [by intros [= <- <-]|].
  destruct (new_name _ _ _ _ _ _) as [name|] eqn:En; [|by intros [= <- <-]]. apply new_name_new in En.
  rewrite bind_run. destruct (copy_body _ _ _ _ _ _) as [b1 r1] eqn:Ec.
  eapply copy_body_run in Ec as (data & -> & Hr); [|apply lookup_insert_eq]. cbn in Hr |- *.
  assert (Hsub : bg_disk b ⊆ <[name := data]> (<[name := ""%string]> (bg_disk b)))
    by (rewrite insert_insert_eq; by apply insert_subseteq).
  destruct r1 as [e|[]]; intros [= <- <-]; cbn; (split_and!; [done..|]); intros out [= <-]. split; [done|].
  exists resp. split_and!; [done|lia|]. by rewrite (Hr eq_refl), insert_insert_eq.
Qed.

(** ** A tick is a sequence of statements *)

Lemma take_row_stmts (b : B) j : stmts_between (bg_store b) (bg_store (take_row net b j)).
Proof.
  unfold take_row. destruct (isRemoteURL net (qr_path j)); [|reflexivity].
  destruct (downloadToTemp _ _ _ b) as [b1 r] eqn:Ed. apply download_run in Ed as (_ & Hs & _). destruct r as [e|tmp].
  - rewrite <- Hs. pose proof (one_stmt (bg_store b1) (StFail (qr_id j) e)) as H1. cbn [run_stmt fst] in H1.
    by destruct (markFailed _ _ _).
  - cbn. by rewrite Hs.
Qed.

(** A scanner touches the table only through statements, so that claims of any
    number of scanners are exclusive. *)
Theorem scanner_runs_statements rounds (b : B) : stmts_between (bg_store b) (bg_store (scanner_Run env net rounds b)).
Proof.
  unfold scanner_Run. revert b. induction rounds as [|ar rounds IH]; intros b; cbn [fold_left]; [reflexivity|].
  etrans; [|apply IH]. unfold scan, scan_tick.
  pose proof (one_stmt (bg_store b) StClaim) as H1. cbn [run_stmt fst] in H1. destruct (claim (bg_store b)) as [s [rows|e]]; [|done].
  assert (H2 : stmts_between s (bg_store (fold_left (take_row net) rows (set_store s b)))).
  { change s with (bg_store (set_store s b)) at 1. generalize (set_store s b). clear -rows. induction rows as [|r rows IH]; intros b; cbn; [reflexivity|].
    etrans; [apply take_row_stmts|apply IH]. }
  destruct (0 <? _); [|etrans; [exact H1|exact H2]]. etrans; [exact H1|]. etrans; [exact H2|].
  apply (store_drain env stmts_between); intros; [apply save_stmts|apply archive_stmts].
Qed.
End Download.

(** ** What becomes of a claimed row *)

Definition db_up (s : PgQueue) : Prop := forall k, pg_answer s k = Done.

Definition back_status (attempts : Z) : string := if 5 <=? attempts then "failed" else "pending".

(** The rows of [s'] are those of [s], some of them uploaded in between. *)
Definition progress (s s' : PgQueue) : Prop :=
  pg_answer s' = pg_answer s /\
  exists g, pg_rows s' = map g (pg_rows s) /\ forall r,
    qr_id (g r) = qr_id r /\ qr_tenant (g r) = qr_tenant r /\ qr_session (g r) = qr_session r /\ qr_error (g r) = qr_error r /\
    (qr_status (g r) = qr_status r \/ qr_status (g r) = "uploaded"%string).

#[export] Instance progress_preorder : PreOrder progress.
Proof.
  split.
  - intros s. split; [done|]. exists (fun r => r). split; [by rewrite map_id|auto 6].
  - intros s1 s2 s3 [A1 (g & G1 & G2)] [A2 (h & H1 & H2)]. split; [congruence|]. exists (fun r => h (g r)).
    split; [by rewrite H1, G1, map_map|]. intros r. destruct (G2 r) as (? & ? & ? & ? & Hg), (H2 (g r)) as (? & ? & ? & ? & Hh).
    split_and!; [congruence..|]. destruct Hh as [->|]; auto.
Qed.

Lemma update_progress s w f :
  (forall now r, qr_id (f now r) = qr_id r /\ qr_tenant (f now r) = qr_tenant r /\ qr_session (f now r) = qr_session r /\
     qr_error (f now r) = qr_error r /\ (qr_status (f now r) = qr_status r \/ qr_status (f now r) = "uploaded"%string)) ->
  progress s (exec s (update w f)).1.
Proof.
  intros Hf. split; [unfold exec; cbn; by destruct (executed _)|]. destruct (update_rows s w f) as (g & Hg & Eg).
  exists g. split; [done|]. intros r. rewrite Eg. destruct (_ && _); [apply Hf|auto 6].
Qed.

Lemma put_progress s f : pg_rows (f s) = pg_rows s -> pg_answer (f s) = pg_answer s -> progress s (exec s f).1.
Proof.
  intros Hr Ha. split; [unfold exec; cbn; by destruct (executed _)|]. exists (fun r => r). rewrite map_id.
  split; [unfold exec; cbn; by destruct (executed _)|auto 6].
Qed.

Lemma save_progress s now uid t ss k z : progress s (q_SaveUpload s now uid t ss k z).1.
Proof.
  unfold q_SaveUpload. set (u := mkQUpload _ _ _ _ _ _ _ _). pose proof (put_progress s (put_upload u) eq_refl eq_refl) as H1.
  destruct (exec s (put_upload u)) as [s1 [e|]]; [done|]. etrans; [exact H1|].
  pose proof (update_progress s1 (of_session t ss) (uploaded k z)) as H2. destruct (exec s1 _). apply H2. cbn. auto 6.
Qed.

Lemma archive_progress s now uid t ss k : progress s (q_SaveArchive s now uid t ss k).1.
Proof.
  unfold q_SaveArchive. set (a := mkQArchive _ _ _ _ _). pose proof (put_progress s (put_archive a) eq_refl eq_refl) as H1.
  destruct (exec s (put_archive a)) as [s1 [e|]]; [done|]. etrans; [exact H1|].
  pose proof (update_progress s1 (of_session t ss) (archived k)) as H2. destruct (exec s1 _). apply H2. cbn. auto 6.
Qed.

(** All rows of a session are marked as uploaded. *)
Definition upl (t ss : string) (s : PgQueue) : Prop :=
  forall r, r ∈ pg_rows s -> qr_tenant r = t -> qr_session r = ss -> qr_status r = "uploaded"%string.

Lemma upl_progress t ss s s' : progress s s' -> upl t ss s -> upl t ss s'.
Proof.
  intros [_ (g & Er & Hg)] Hu r'. rewrite Er. intros (r & -> & Hr)%list_elem_of_fmap. destruct (Hg r) as (_ & -> & -> & _ & Hs). intros Ht Hss.
  destruct Hs as [->|]; [|done]. by apply Hu.
Qed.

Lemma save_upl s now uid t ss k z : db_up s ->
  (q_SaveUpload s now uid t ss k z).2 = None /\ upl t ss (q_SaveUpload s now uid t ss k z).1.
Proof.
  intros Hu. unfold q_SaveUpload, exec, this_answer. rewrite Hu. cbn. rewrite Hu. cbn. split; [done|].
  intros r' (r & -> & Hr)%list_elem_of_fmap. unfold of_session. repeat case_bool_decide; naive_solver.
Qed.

Section Accounts.
Context {S A P : Type} `{!SpacesClient S, !Archiver A, !Publisher P}.
Context (env : RecEnv) (net : Net).
Abbreviation B := (Bridge S A P PgQueue).
Implicit Types (b : B) (r : QRow).

Definition given_back (s : PgQueue) r : Prop :=
  isRemoteURL net (qr_path r) = true /\
  exists r', r' ∈ pg_rows s /\ qr_id r' = qr_id r /\ is_Some (qr_error r') /\ qr_status r' = back_status (qr_attempts r).

Definition handed_over (jobs : list UploadJob) r : Prop :=
  exists j, j ∈ jobs /\ jb_TenantID j = qr_tenant r /\ jb_SessionID j = qr_session r.

Definition in_table (s : PgQueue) r : Prop :=
  exists r', r' ∈ pg_rows s /\ qr_id r' = qr_id r /\ qr_tenant r' = qr_tenant r /\ qr_session r' = qr_session r.

(** What taking the rows [l] comes to. *)
Record taken (l : list QRow) b b' (jobs : list UploadJob) : Prop := {
  ta_up : db_up (bg_store b');
  ta_disk : bg_disk b ⊆ bg_disk b';
  ta_rows r : r ∈ pg_rows (bg_store b) -> qr_id r ∉ qr_id <$> l -> r ∈ pg_rows (bg_store b');
  ta_keys r : r ∈ pg_rows (bg_store b) -> in_table (bg_store b') r;
  ta_queue : bg_queue b' = bg_queue b ++ jobs;
  ta_paths : NoDup (jb_LocalPath <$> jobs);
  ta_files j : j ∈ jobs -> is_Some (bg_disk b' !! jb_LocalPath j) /\
    (bg_disk b !! jb_LocalPath j = None \/ exists r, r ∈ l /\ isRemoteURL net (qr_path r) = false /\ jb_LocalPath j = qr_path r);
  ta_each r : r ∈ l -> handed_over jobs r \/ given_back (bg_store b') r
}.

Definition on_disk b r : Prop := isRemoteURL net (qr_path r) = false -> is_Some (bg_disk b !! qr_path r).

(** A row is handed over to the worker with its file. *)
Lemma taken_job l b b1 r jobs b' path :
  bg_queue b1 = bg_queue b ++ [mkJob (qr_tenant r) (qr_session r) path 0] -> bg_store b1 = bg_store b -> bg_disk b ⊆ bg_disk b1 ->
  is_Some (bg_disk b1 !! path) ->
  (bg_disk b !! path = None \/ isRemoteURL net (qr_path r) = false /\ path = qr_path r) ->
  (forall x, x ∈ l -> isRemoteURL net (qr_path x) = false -> path <> qr_path x) ->
  taken l b1 b' jobs -> taken (r :: l) b b' (mkJob (qr_tenant r) (qr_session r) path 0 :: jobs).
Proof.
  intros Hq Hs Hd [d Hp] Hnew Hl [T1 T2 T3 TK T4 T5 T6 T7]. split.
  - done.
  - by etrans.
  - intros x Hx Hid. apply T3; [by rewrite Hs|]. set_solver.
  - intros x Hx. apply TK. by rewrite Hs.
  - by rewrite T4, Hq, <- app_assoc.
  - constructor; [|done]. intros (j & E & Hj)%list_elem_of_fmap. cbn in E. destruct (T6 j Hj) as [_ [Hn|(x & Hx & Hloc & Hpx)]].
    + rewrite <- E in Hn. congruence.
    + by eapply Hl; [exact Hx|exact Hloc|congruence].
  - intros j [->|Hj]%elem_of_cons; cbn [jb_LocalPath].
    + split; [exists d; by eapply lookup_weaken|]. destruct Hnew as [|[? ->]]; [by left|]. right. exists r. split; [by left|done].
    + destruct (T6 j Hj) as [Hf [Hn|(x & Hx & Hloc & Hpx)]]; (split; [done|]).
      * left. by eapply lookup_weaken_None.
      * right. exists x. split; [by right|done].
  - intros x [->|Hx]%elem_of_cons.
    + left. eexists. split; [by left|done].
    + destruct (T7 x Hx) as [(j & Hj & Hjx)|]; [|by right]. left. exists j. split; [by right|done].
Qed.

Lemma failed_rows s id e : db_up s -> let s' := (markFailed s id e).1 in
  db_up s' /\ pg_rows s' = map (fun r => if has_id id r then failed e (pg_clock s (pg_stmts s)) r else r) (pg_rows s).
Proof. intros Hu. cbn. unfold this_answer. rewrite Hu. done. Qed.

Lemma taken_back l b b1 r jobs b' e :
  qr_id r ∉ qr_id <$> l -> r ∈ pg_rows (bg_store b) -> isRemoteURL net (qr_path r) = true -> db_up (bg_store b) ->
  bg_queue b1 = bg_queue b -> bg_disk b ⊆ bg_disk b1 -> bg_store b1 = (markFailed (bg_store b) (qr_id r) e).1 ->
  taken l b1 b' jobs -> taken (r :: l) b b' jobs.
Proof.
  intros Hid Hin Hrem Hup Hq Hd Hs [T1 T2 T3 TK T4 T5 T6 T7]. destruct (failed_rows (bg_store b) (qr_id r) e Hup) as [_ Hr].
  rewrite <- Hs in Hr. split; [done|by etrans|..].
  - intros x Hx [Hne Hx']%not_elem_of_cons. apply T3; [|done]. rewrite Hr. apply list_elem_of_fmap. exists x. split; [|done].
    unfold has_id. by rewrite bool_decide_false.
  - intros x Hx. destruct (TK (if has_id (qr_id r) x then failed e (pg_clock (bg_store b) (pg_stmts (bg_store b))) x else x)) as (x' & Hx' & H1 & H2 & H3).
    { rewrite Hr. apply list_elem_of_fmap. by exists x. }
    exists x'. rewrite H1, H2, H3. by destruct (has_id _ x).
  - by rewrite T4, Hq.
  - done.
  - intros j Hj. destruct (T6 j Hj) as [Hf [Hn|(x & Hx & Hloc & Hpx)]]; (split; [done|]).
    + left. by eapply lookup_weaken_None.
    + right. exists x. split; [by right|done].
  - intros x [->|Hx]%elem_of_cons; [right|by apply T7]. split; [done|].
    exists (failed e (pg_clock (bg_store b) (pg_stmts (bg_store b))) r). split_and!; [|done|done|done].
    apply T3; [|done]. rewrite Hr. apply list_elem_of_fmap. exists r. split; [|done]. unfold has_id. by rewrite bool_decide_true.
Qed.

Lemma take_rows l : forall b,
  db_up (bg_store b) -> NoDup (qr_id <$> l) -> NoDup (qr_path <$> l) -> (forall r, r ∈ l -> r ∈ pg_rows (bg_store b)) ->
  (forall r, r ∈ l -> on_disk b r) -> exists jobs, taken l b (fold_left (take_row net) l b) jobs.
Proof.
  induction l as [|r l IH]; intros b Hup Hids Hpaths Hrows Hdisk; cbn [fold_left].
  { exists []. split; rewrite ?app_nil_r; try done; try (by intros ? ?%elem_of_nil); intros r Hr; by exists r. }
  apply NoDup_cons in Hids as [Hid Hids]. apply NoDup_cons in Hpaths as [Hpath Hpaths].
  assert (Hr : r ∈ pg_rows (bg_store b)) by (apply Hrows; by left).
  unfold take_row at 2. destruct (isRemoteURL net (qr_path r)) eqn:Erem.
  - destruct (downloadToTemp net (qr_path r) (qr_session r) b) as [b1 res] eqn:Ed.
    apply download_run in Ed as (Hq & Hs & Hd & Hout). destruct res as [e|tmp].
    + destruct (failed_rows (bg_store b) (qr_id r) e Hup) as [Hup1 Hr1]. rewrite Hs.
      destruct (markFailed (bg_store b) (qr_id r) e) as [s1 e1] eqn:Em. cbn in Hup1, Hr1.
      destruct (IH (set_store s1 b1)) as [jobs Hj]; [done|done|done| | |].
      * intros x Hx. cbn. rewrite Hr1. apply list_elem_of_fmap. exists x. split; [|apply Hrows; by right].
        unfold has_id. rewrite bool_decide_false; [done|]. intros E. apply Hid. rewrite <- E. by apply list_elem_of_fmap_2.
      * intros x Hx Hloc. destruct (Hdisk x) as [d Hxd]; [by right|done|]. exists d. by eapply lookup_weaken.
      * exists jobs. eapply (taken_back l b (set_store s1 b1)); try done. by rewrite Em.
    + destruct (Hout tmp eq_refl) as (Hnew & resp & _ & _ & Hd1). set (b2 := Enqueue (qr_tenant r) (qr_session r) tmp b1).
      destruct (IH b2) as [jobs Hj]; [by cbn; rewrite Hs|done|done|intros x Hx; cbn; rewrite Hs; apply Hrows; by right| |].
      * intros x Hx Hloc. destruct (Hdisk x) as [d Hxd]; [by right|done|]. exists d. by eapply lookup_weaken.
      * eexists. apply (taken_job l b b2 r jobs); [cbn; by rewrite Hq|done|done|cbn; rewrite Hd1, lookup_insert_eq; eauto|by left| |done].
        intros x Hx Hloc ->. destruct (Hdisk x) as [d Hxd]; [by right|done|]. congruence.
  - set (b2 := Enqueue _ _ _ b). destruct (IH b2) as [jobs Hj]; [done|done|done|intros x Hx; apply Hrows; by right|intros x Hx; apply Hdisk; by right|].
    eexists. apply (taken_job l b b2 r jobs); [done|done|done|apply Hdisk; [by left|done]|by right| |done].
    intros x Hx _ E. apply Hpath. rewrite E. by apply list_elem_of_fmap_2.
Qed.

(** *** The claim *)

Lemma claim_run s : db_up s -> (forall x, pg_order s x ≡ₚ x) -> NoDup (ids s) -> NoDup (qr_path <$> pg_rows s) ->
  exists s' l, claim s = (s', Ok l) /\ db_up s' /\ NoDup (qr_id <$> l) /\ NoDup (qr_path <$> l) /\
    (forall r, r ∈ l -> r ∈ pg_rows s') /\
    (forall r, r ∈ l -> exists r0, r0 ∈ picked s /\ qr_path r = qr_path r0) /\
    forall r, r ∈ picked s -> claimed (pg_clock s (pg_stmts s)) r ∈ l.
Proof.
  intros Hup Ho Hn Hp. unfold claim, this_answer. rewrite Hup. set (now := pg_clock s (pg_stmts s)).
  set (g := fun r => if is_picked s r then claimed now r else r). set (s' := update (is_picked s) claimed s).
  assert (Hr : pg_rows s' = map g (pg_rows s)) by done.
  assert (Hid : ids s' = ids s) by (apply (ids_map s s' g Hr); intros r; unfold g; by destruct (is_picked s r)).
  assert (Hpath : qr_path <$> pg_rows s' = qr_path <$> pg_rows s).
  { rewrite Hr. change (map g (pg_rows s)) with (g <$> pg_rows s). rewrite <- list_fmap_compose. apply list_fmap_ext.
    intros i r _. cbn. unfold g. by destruct (is_picked s r). }
  assert (Hg : forall r, is_picked s (g r) = is_picked s r) by (intros r; unfold g; by destruct (is_picked s r) eqn:E).
  eexists _, _. split; [reflexivity|]. cbn [next pg_rows db_up pg_answer]. split_and!; [done|..].
  - rewrite Ho. apply NoDup_fmap_filter. change (NoDup (ids s')). by rewrite Hid.
  - rewrite Ho. apply NoDup_fmap_filter. by rewrite Hpath.
  - intros r. rewrite Ho. intros [Hin _]%list_elem_of_In%List.filter_In. by apply list_elem_of_In.
  - intros r. rewrite Ho. intros [Hin Hpk]%list_elem_of_In%List.filter_In. apply list_elem_of_In in Hin. rewrite Hr in Hin.
    apply list_elem_of_fmap in Hin as (r0 & -> & Hin). rewrite Hg in Hpk. exists r0.
    split; [by apply is_picked_spec|]. unfold g. by destruct (is_picked s r0).
  - intros r Hpk. rewrite Ho. destruct (picked_in s r Ho Hpk) as [Hin _]. apply list_elem_of_In, List.filter_In.
    pose proof (proj2 (is_picked_spec s r Ho Hn Hin) Hpk) as Ep. split; [|done]. apply list_elem_of_In. rewrite Hr.
    apply list_elem_of_fmap. exists r. split; [|done]. unfold g. by rewrite Ep.
Qed.

(** *** The upload *)

Hypothesis reads_work : forall n, e_read env n = None.
Hypothesis uploads_work : forall (s : S) t k d e, exists s' key, Put s t k d e = (s', inr key).

Abbreviation progressing := (on_store (S := S) (A := A) (P := P) progress).

Lemma process_progress j : keeps progressing (processJob env j : M B string unit).
Proof. apply (store_process env progress); [apply save_progress|apply archive_progress]. Qed.

(** A job whose file is there gets its rows marked, whatever happens to the
    archive copy and the announcement. *)
Lemma process_upl j b : db_up (bg_store b) -> is_Some (bg_disk b !! jb_LocalPath j) ->
  upl (jb_TenantID j) (jb_SessionID j) (bg_store (processJob env j b).1).
Proof.
  intros Hup [d Hd]. unfold processJob. rewrite bind_run. unfold wrapping at 1. rewrite bind_run. unfold try, read_file, tick, bind at 1.
  cbn [bg_disk]. rewrite Hd, reads_work. cbn [ret]. set (b0 := mkBridge _ _ _ _ _ _ _ _).
  rewrite bind_run. unfold wrapping at 1. rewrite bind_run. unfold try at 1, put at 1.
  destruct (uploads_work (bg_spaces b0) (jb_TenantID j) (object_key (jb_TenantID j) (jb_SessionID j)) d true) as (s' & key & ->). cbn [ret].
  rewrite bind_run. unfold save_upload at 1. rewrite bind_run. cbn [tick]. unfold SaveUpload, queue_recording_store.
  match goal with |- context [q_SaveUpload ?a ?b ?c ?d ?e ?f ?g] => destruct (save_upl a b c d e f g) as [He Hu]; [done|]; destruct (q_SaveUpload a b c d e f g) as [s1 e1] end.
  cbn in He, Hu. subst e1. cbn [fst failing]. rewrite bind_run. cbn [ret failing].
  set (b1 := set_store _ _). eapply (upl_progress _ _ (bg_store b1)); [|done].
  apply (store_rest env progress). apply archive_progress.
Qed.

Lemma drain_upl arrivals jobs : forall i b,
  db_up (bg_store b) -> NoDup (jb_LocalPath <$> jobs) -> (forall j, j ∈ jobs -> is_Some (bg_disk b !! jb_LocalPath j)) ->
  forall j, j ∈ jobs -> upl (jb_TenantID j) (jb_SessionID j) (bg_store (drain_jobs env arrivals i jobs b).1).
Proof.
  induction jobs as [|j jobs IH]; intros i b Hup Hn Hf; [by intros j ?%elem_of_nil|].
  apply NoDup_cons in Hn as [Hj Hn]. cbn [drain_jobs].
  pose proof (process_upl j b Hup (Hf j ltac:(by left))) as Hu. pose proof (process_progress j b) as Hpr.
  pose proof (process_drops env j b) as Hd. destruct (processJob env j b) as [b1 r]. cbn [fst] in *.
  set (b2 := enqueue_all (arrivals i) b1). assert (Hs : bg_store b2 = bg_store b1) by (unfold b2; by rewrite enqueue_all_eq).
  assert (Hdk : bg_disk b2 = bg_disk b1) by (unfold b2; by rewrite enqueue_all_eq).
  assert (Hup2 : db_up (bg_store b2)). { rewrite Hs. destruct Hpr as [Ha _]. intros k. by rewrite Ha. }
  pose proof (store_drain_jobs env progress save_progress archive_progress arrivals jobs (1 + i)%nat b2) as Hpr2.
  assert (Hrest : forall x, x ∈ j :: jobs ->
    upl (jb_TenantID x) (jb_SessionID x) (bg_store (drain_jobs env arrivals (1 + i) jobs b2).1)).
  { intros x [->|Hx]%elem_of_cons; [eapply upl_progress; [exact Hpr2|by rewrite Hs]|].
    apply IH; [done|done| |done]. intros y Hy. rewrite Hdk. destruct (Hf y) as [dy Hdy]; [by right|].
    assert (Hne : jb_LocalPath y <> jb_LocalPath j) by (intros E; apply Hj; rewrite <- E; by apply list_elem_of_fmap_2).
    destruct Hd as [Hd|Hd]; rewrite Hd; [by eexists|]. rewrite lookup_delete_ne by done. by eexists. }
  destruct (drain_jobs env arrivals (1 + i) jobs b2) as [b3 [rq errs]]. cbn in Hrest. by repeat case_match.
Qed.

Lemma in_table_progress s s' r : progress s s' -> in_table s r -> in_table s' r.
Proof.
  intros [_ (g & Er & Hg)] (r' & Hin & H1 & H2 & H3). exists (g r'). destruct (Hg r') as (-> & -> & -> & _).
  split_and!; [|done..]. rewrite Er. by apply list_elem_of_fmap_2.
Qed.

(** With the database and hot storage up, and the local recordings on disk, one
    round of the scanner marks every row it picked as uploaded, or gives it back
    with the reason why its recording could not be fetched; it has failed for good
    after five attempts.  Whatever the web servers, the archive and the bus do. *)
Theorem healthy_scan_uploads_or_gives_back arrivals b :
  db_up (bg_store b) -> (forall x, pg_order (bg_store b) x ≡ₚ x) -> NoDup (ids (bg_store b)) ->
  NoDup (qr_path <$> pg_rows (bg_store b)) -> bg_queue b = [] -> (forall r, r ∈ picked (bg_store b) -> on_disk b r) ->
  forall r, r ∈ picked (bg_store b) ->
  exists r', r' ∈ pg_rows (bg_store (scan env net b arrivals)) /\ qr_id r' = qr_id r /\
    (qr_status r' = "uploaded"%string \/
     isRemoteURL net (qr_path r) = true /\ is_Some (qr_error r') /\ qr_status r' = back_status (qr_attempts r + 1)).
Proof.
  intros Hup Ho Hn Hp Hq Hdisk r Hr. destruct (claim_run _ Hup Ho Hn Hp) as (s' & l & Ec & Hup' & Hni & Hnp & Hrows & Hfrom & Hto).
  unfold scan, scan_tick. rewrite Ec. set (rc := claimed (pg_clock (bg_store b) (pg_stmts (bg_store b))) r). assert (Hrc : rc ∈ l) by by apply Hto.
  destruct (take_rows l (set_store s' b) Hup' Hni Hnp Hrows) as [jobs [T1 T2 T3 TK T4 T5 T6 T7]].
  { intros x Hx Hloc. destruct (Hfrom x Hx) as (r0 & Hr0 & E). rewrite E in *. by apply Hdisk. }
  set (b2 := fold_left (take_row net) l (set_store s' b)) in *. cbn [bg_queue set_store] in T4. rewrite Hq in T4. cbn in T4.
  rewrite (proj2 (Z.ltb_lt _ _)) by (destruct l; [by apply elem_of_nil in Hrc|cbn; lia]).
  unfold DrainOnce. rewrite T4.
  pose proof (store_drain_jobs env progress save_progress archive_progress arrivals jobs 0 (set_queue [] b2)) as Hpr.
  pose proof (drain_upl arrivals jobs 0 (set_queue [] b2) T1 T5 (fun j Hj => proj1 (T6 j Hj))) as Hu.
  destruct (drain_jobs env arrivals 0 jobs (set_queue [] b2)) as [b3 [rq errs]]. cbn in Hpr, Hu |- *. unfold on_store in Hpr.
  destruct (T7 rc Hrc) as [(j & Hj & Ht & Hs)|[Hrem (r' & Hin & Hid & He & Hst)]].
  - destruct (in_table_progress _ _ rc Hpr (TK rc (Hrows rc Hrc))) as (r' & Hin & H1 & H2 & H3).
    exists r'. split_and!; [done..|]. left. apply (Hu j Hj); [done|congruence..].
  - destruct Hpr as [_ (g & Er & Hg)]. destruct (Hg r') as (G1 & _ & _ & G4 & G5). cbn in Er.
    exists (g r'). split_and!; [rewrite Er; by apply list_elem_of_fmap_2|by rewrite G1|].
    destruct G5 as [G5|G5]; [right|by left]. rewrite G4, G5. done.
Qed.

(** ** Behaviour that differs from the intention *)

(** A round that finds no row to claim does nothing: a row whose upload was given
    up after three attempts stays claimed, and is not retried, whatever number of
    its five attempts is left; and jobs the worker put back wait for new rows. *)
Theorem claimed_rows_are_not_retried rounds b :
  db_up (bg_store b) -> (forall x, pg_order (bg_store b) x ≡ₚ x) -> Forall (fun r => claimable r = false) (pg_rows (bg_store b)) ->
  let b' := scanner_Run env net rounds b in
  pg_rows (bg_store b') = pg_rows (bg_store b) /\ bg_queue b' = bg_queue b /\ bg_disk b' = bg_disk b.
Proof.
  cbn zeta. unfold scanner_Run. revert b. induction rounds as [|ar rounds IH]; intros b Hup Ho Hc; cbn [fold_left]; [done|].
  assert (Hp : picked (bg_store b) = []).
  { destruct (picked (bg_store b)) as [|r l] eqn:E; [done|]. destruct (picked_in (bg_store b) r Ho) as [Hin Hr]; [rewrite E; by left|].
    rewrite Forall_forall in Hc. by rewrite (Hc r Hin) in Hr. }
  assert (Hip : forall r, is_picked (bg_store b) r = false).
  { intros r. unfold is_picked. rewrite Hp. by rewrite bool_decide_false by apply not_elem_of_nil. }
  assert (Hrows : map (fun r => if is_picked (bg_store b) r then claimed (pg_clock (bg_store b) (pg_stmts (bg_store b))) r else r)
    (pg_rows (bg_store b)) = pg_rows (bg_store b)) by (rewrite <- map_id; apply map_ext; intros r; by rewrite Hip).
  assert (Hret : forall rows, pg_order (bg_store b) (List.filter (fun r => is_picked (bg_store b) r) rows) = []).
  { intros rows. apply Permutation_nil_r. rewrite Ho. induction rows as [|r rows IHr]; cbn; [done|]. by rewrite Hip. }
  assert (Hscan : scan env net b ar = set_store (next (update (is_picked (bg_store b)) claimed (bg_store b))) b).
  { unfold scan, scan_tick, claim, this_answer. by rewrite Hup, Hret. }
  rewrite Hscan.
  destruct (IH (set_store (next (update (is_picked (bg_store b)) claimed (bg_store b))) b)) as (H1 & H2 & H3); [done|done|cbn; by rewrite Hrows|].
  rewrite H1, H2, H3. cbn. by rewrite Hrows.
Qed.
End Accounts.

(** ** Concrete instances *)

Module ScanDemo.
Definition row (id session path : string) (created : Z) : QRow :=
  mkQRow id "t1" session path None "pending" 0 None 0 created created None None.

Definition table (rows : list QRow) : PgQueue :=
  mkPg rows ∅ ∅ (fun _ => Done) Z.of_nat (fun _ _ => false) (fun l => l) 0.

(** A server that breaks off after the first part of a recording and has no
    other. *)
Definition net : Net :=
  mkNet (fun _ => None)
    (fun _ url => if bool_decide (url = "https://rec.example/1"%string) then inr (mkResp 200 ["RIFF"]%string (Some "unexpected EOF"%string))
                  else inr (mkResp 404 [] None))
    "/tmp/" (fun n k => itoa k) (fun _ => None) (fun _ _ => None).

Definition start {S} (hot : S) (cold : bool) (rows : list QRow) : Bridge S (b2Client MemS3.t) FakePublisher.t PgQueue :=
  mkBridge demo_disk [] hot (Some (mkB2 (mem cold) "worm" "" "" 365)) ∅ (table rows) true 0.

(** Hot storage that is down. *)
Definition down : spacesClient MemS3.t := mkSpaces (mem false) "hot" "sgp1" "" "AES256".

Definition rows3 : list QRow :=
  [row "q1" "s1" wav1 1; row "q2" "s2" "https://rec.example/1" 2; row "q3" "s3" "https://rec.example/2" 3].

Definition statuses {S A P} (b : Bridge S A P PgQueue) : list (string * string * Z) :=
  (fun r => (qr_id r, qr_status r, qr_attempts r)) <$> pg_rows (bg_store b).
End ScanDemo.

Lemma recordings_are_claimed_exclusively_witness :
  let s := with_rows (ScanDemo.table []) [ScanDemo.row "q1" "s1" wav1 1] in
  let l := [Claimed "q1"; GivenBack "q1"; Claimed "q1"] in
  GivenBack "q1" ∈ [GivenBack "q1"] /\ (claims l "q1" <= 5)%nat.
Proof.
  intros s l. assert (H0 : reachable s []).
  { apply (reach_insert (ScanDemo.table []) [] (ScanDemo.row "q1" "s1" wav1 1)); [by constructor|apply not_elem_of_nil|done]. }
  apply (reach_stmt _ _ StClaim) in H0. apply (reach_stmt _ _ (StFail "q1" "404")) in H0. apply (reach_stmt _ _ StClaim) in H0.
  destruct (recordings_are_claimed_exclusively _ l "q1" H0) as [H1 H2]. split; [|exact H2].
  by apply (H1 [] [GivenBack "q1"] []).
Defined.

Lemma healthy_scan_uploads_or_gives_back_witness :
  exists r', r' ∈ pg_rows (bg_store (scan demo_env ScanDemo.net (ScanDemo.start FakeSpaces.NewFakeSpaces true ScanDemo.rows3) no_arrivals)) /\
    qr_id r' = "q3"%string /\
    (qr_status r' = "uploaded"%string \/
     isRemoteURL ScanDemo.net "https://rec.example/2" = true /\ is_Some (qr_error r') /\ qr_status r' = back_status 1).
Proof.
  apply (healthy_scan_uploads_or_gives_back (S := FakeSpaces.t) demo_env ScanDemo.net (fun _ => eq_refl))
    with (r := ScanDemo.row "q3" "s3" "https://rec.example/2" 3).
  - intros s t k d e. by eexists _, _.
  - done.
  - done.
  - apply (bool_decide_unpack _). by vm_compute.
  - apply (bool_decide_unpack _). by vm_compute.
  - done.
  - assert (Hall : Forall (fun r => isRemoteURL ScanDemo.net (qr_path r) = false -> demo_disk !! qr_path r <> None)
      (picked (ScanDemo.table ScanDemo.rows3))).
    { repeat constructor; vm_compute; done. }
    intros r Hr Hloc. rewrite Forall_forall in Hall. apply not_eq_None_Some. by apply (Hall r Hr).
  - vm_compute. right. right. left.
Defined.

(** After three attempts with hot storage down the worker gave the recording up;
    its row stays claimed, with one of its five attempts used. *)
Definition given_up : Bridge (spacesClient MemS3.t) (b2Client MemS3.t) FakePublisher.t PgQueue :=
  let b := scanner_Run demo_env ScanDemo.net [no_arrivals] (ScanDemo.start ScanDemo.down true [ScanDemo.row "q1" "s1" wav1 1]) in
  (DrainOnce demo_env no_arrivals (DrainOnce demo_env no_arrivals b).1).1.

Lemma claimed_rows_are_not_retried_witness :
  bg_queue given_up = [] /\ bg_disk given_up !! wav1 = Some "RIFF-1"%string /\
  ScanDemo.statuses given_up = [("q1", "claimed", 1)]%string /\
  ScanDemo.statuses (scanner_Run demo_env ScanDemo.net (replicate 1000 no_arrivals) given_up) = [("q1", "claimed", 1)]%string.
Proof.
  split_and!; [by vm_compute..|]. unfold ScanDemo.statuses at 1.
  destruct (claimed_rows_are_not_retried demo_env ScanDemo.net (replicate 1000 no_arrivals) given_up) as (-> & _ & _).
  - intros k. by vm_compute.
  - intros x. by vm_compute.
  - repeat constructor; by vm_compute.
  - by vm_compute.
Defined.

(** A recording whose download breaks off is uploaded, and its row marked, as if
    it had arrived whole. *)
Theorem broken_download_counts_as_complete :
  let b := scan demo_env ScanDemo.net (ScanDemo.start FakeSpaces.NewFakeSpaces true ScanDemo.rows3) no_arrivals in
  ScanDemo.statuses b = [("q1", "uploaded", 1); ("q2", "uploaded", 1); ("q3", "pending", 1)]%string /\
  FakeSpaces.Stored (bg_spaces b) !! "do-spaces://t1/t1/recordings/s2.wav"%string = Some "RIFF"%string.
Proof. by vm_compute. Qed.

(** A row is marked as uploaded before the archive has its copy: when the archive
    is down for three attempts the recording is given up, and the row says that it
    was uploaded. *)
Theorem unarchived_recording_is_marked_uploaded :
  let b := scan demo_env ScanDemo.net (ScanDemo.start FakeSpaces.NewFakeSpaces false [ScanDemo.row "q1" "s1" wav1 1]) no_arrivals in
  let b3 := (DrainOnce demo_env no_arrivals (DrainOnce demo_env no_arrivals b).1).1 in
  ScanDemo.statuses b3 = [("q1", "uploaded", 1)]%string /\ bg_queue b3 = [] /\ (qr_b2 <$> pg_rows (bg_store b3)) = [None].
Proof. by vm_compute. Qed.

(** Both rows of a session with two recordings are marked when one is uploaded. *)
Theorem rows_of_a_session_are_marked_together :
  let b := scan demo_env ScanDemo.net (ScanDemo.start FakeSpaces.NewFakeSpaces true
    [ScanDemo.row "q1" "s1" wav1 1; ScanDemo.row "q2" "s1" "/tmp/none.wav" 2]) no_arrivals in
  ScanDemo.statuses b = [("q1", "uploaded", 1); ("q2", "uploaded", 1)]%string /\ length (bg_queue b) = 1%nat.
Proof. by vm_compute. Qed.
