(* ===== verification/Esl.v ===== *)
(** * freeswitch-bridge: the event socket

    [services/freeswitch-bridge/internal/esl]: the client of the event socket
    (client.go) and the listener that turns its events into messages, sessions
    and upload jobs (listener.go).  A connection is the bytes the peer sends
    before it closes; the listener works on the state of [Recording], since main
    gives it the same publisher, store and upload worker. *)

From S2P Require Import Prelude GoTime Kv GoMonad GoStrings Recording.
From Stdlib Require Import Ascii.

Open Scope Z_scope.

(** ** Messages *)

Definition Headers : Type := gmap string string.

Definition header (h : Headers) (k : string) : string := default ""%string (h !! k).

Record Message := mkMessage { mg_Headers : Headers; mg_Body : string }.

(** The errors of the package; [Wrap] is [fmt.Errorf("...: %w", err)]. *)
Inductive EslError :=
| EOF
| UnexpectedEOF
| InvalidLength (raw : string)
| ErrMissingPassword
| ErrAuthRejected (reply : string)
| Failure (msg : string)
| Wrap (what : string) (e : EslError).

(** [errors.Is(err, ErrAuthRejected)]. *)
Fixpoint is_auth_rejected (e : EslError) : bool :=
  match e with ErrAuthRejected _ => true | Wrap _ e => is_auth_rejected e | _ => false end.

(** A header line, added to those read before. *)
Definition add_header (line : string) (h : Headers) : Headers :=
  match cut ":"%char line with
  | None => h
  | Some (key, value) => <[trim_space key := trim_space value]> h
  end.

(** The header block and the rest of the input. *)
Fixpoint read_headers (fuel : nat) (s : string) (h : Headers) : option (EslError + (Headers * string)) :=
  match fuel with
  | O => None
  | S fuel =>
      match read_string s with
      | None => Some (inl EOF)
      | Some (line, rest) =>
          let line := trim_right_by (in_cutset CRLF) line in
          if is_empty line then Some (inr (h, rest)) else read_headers fuel rest (add_header line h)
      end
  end.

(** [io.ReadFull] into [n] bytes. *)
Definition read_full (n : nat) (s : string) : EslError + (string * string) :=
  if (String.length s <? n)%nat then inl (if is_empty s then EOF else UnexpectedEOF)
  else inr (String.substring 0 n s, drop_string n s).

(** Every line takes at least one byte, so the length bounds their number. *)
Definition readMessage (s : string) : EslError + (Message * string) :=
  match read_headers (S (String.length s)) s ∅ with
  | None => inl (Failure "unreachable")
  | Some (inl e) => inl e
  | Some (inr (h, rest)) =>
      let rawLen := header h "Content-Length" in
      if is_empty rawLen then inr (mkMessage h "", rest)
      else match atoi rawLen with
      | None => inl (InvalidLength rawLen)
      | Some n =>
          if 0 <? n then
            match read_full (Z.to_nat n) rest with
            | inl e => inl e
            | inr (body, rest) => inr (mkMessage h body, rest)
            end
          else inr (mkMessage h "", rest)
      end
  end.

Definition plain_lines (headerPart : string) : Headers :=
  fold_left (fun h line =>
    let line := trim_right_by (in_cutset (String cr "")) line in
    if is_empty line then h else add_header line h) (split_on nl headerPart) ∅.

Definition parsePlainEventBody (body : string) : Headers * string :=
  if is_empty body then (∅, ""%string)
  else match index_of (CRLF ++ CRLF) body with
  | Some idx => (plain_lines (String.substring 0 idx body), drop_string (idx + 4) body)
  | None =>
      match index_of (NL ++ NL) body with
      | Some idx => (plain_lines (String.substring 0 idx body), drop_string (idx + 2) body)
      | None => (plain_lines body, ""%string)
      end
  end.

(** ** Events *)

Definition EventChannelCreate : string := "CHANNEL_CREATE".
Definition EventChannelAnswer : string := "CHANNEL_ANSWER".
Definition EventChannelHangup : string := "CHANNEL_HANGUP".
Definition EventChannelHangupComplete : string := "CHANNEL_HANGUP_COMPLETE".
Definition EventRecordStop : string := "RECORD_STOP".
Definition EventCustom : string := "CUSTOM".

Record Event := mkEvent {
  ev_Type : string;
  ev_CallUUID : string;
  ev_ExtraVars : Headers;
  ev_Body : string
}.

Fixpoint firstHeader (h : Headers) (keys : list string) : string :=
  match keys with
  | [] => ""
  | k :: keys =>
      let v := trim_space (header h k) in
      if is_empty v then firstHeader h keys else v
  end.

Definition uuid_keys : list string := ["Unique-ID"; "Channel-Unique-ID"; "Channel-Call-UUID"; "variable_uuid"].

Definition FromHeaders (h : Headers) (body : string) : Event :=
  mkEvent (header h "Event-Name") (firstHeader h uuid_keys) h body.

(** The loop of [ReadEvent]: messages without an event are skipped. *)
Fixpoint read_event (fuel : nat) (s : string) : option (EslError + (Event * string)) :=
  match fuel with
  | O => None
  | S fuel =>
      match readMessage s with
      | inl e => Some (inl e)
      | inr (msg, rest) =>
          if is_empty (header (mg_Headers msg) "Event-Name") then
            let '(h, body) := parsePlainEventBody (mg_Body msg) in
            if is_empty (header h "Event-Name") then read_event fuel rest
            else Some (inr (FromHeaders h body, rest))
          else Some (inr (FromHeaders (mg_Headers msg) (mg_Body msg), rest))
      end
  end.

(** Every message takes at least one byte. *)
Definition ReadEvent (s : string) : EslError + (Event * string) :=
  default (inl (Failure "unreachable")) (read_event (S (String.length s)) s).

(** ** The client *)

Record ClientConfig := mkConfig {
  cf_Addr : string;
  cf_Password : string;
  cf_Events : list string;
  cf_DialTimeout : Z;
  cf_ReconnectInterval : Z
}.

Definition withDefaults (c : ClientConfig) : ClientConfig :=
  mkConfig (first_nonempty (cf_Addr c) "127.0.0.1:8021") (cf_Password c)
    (if bool_decide (cf_Events c = [])
     then [EventChannelCreate; EventChannelAnswer; EventChannelHangupComplete; EventRecordStop; EventCustom]
     else cf_Events c)
    (if cf_DialTimeout c <=? 0 then 5 * second else cf_DialTimeout c)
    (if cf_ReconnectInterval c <=? 0 then 2 * second else cf_ReconnectInterval c).

Definition Validate (c : ClientConfig) : option EslError :=
  if is_empty (trim_space (cf_Password c)) then Some ErrMissingPassword else None.

(** What a connection does: the error of dialling, the bytes that come from the
    peer, and the errors of the writes, by their number. *)
Record Conn := mkConn { cn_dial : error; cn_in : string; cn_write : nat -> error }.

(** A connection in use: the bytes not read, and the commands written. *)
Record Connection := mkConnection { co_in : string; co_out : list string }.

Definition strings_equal_fold (a b : string) : bool := bool_decide (to_lower a = to_lower b).

Definition commandOK (write : nat -> error) (c : Connection) (command : string) : Connection * option EslError :=
  match write (length (co_out c)) with
  | Some e => (c, Some (Failure ("esl: write " ++ quote command ++ ": " ++ e)%string))
  | None =>
      let out := co_out c ++ [(command ++ NL ++ NL)%string] in
      match readMessage (co_in c) with
      | inl e => (mkConnection "" out, Some (Wrap ("esl: read reply for " ++ quote command)%string e))
      | inr (msg, rest) =>
          let c := mkConnection rest out in
          let reply := header (mg_Headers msg) "Reply-Text" in
          if has_prefix reply "+OK" then (c, None)
          else if has_prefix reply "-ERR" && has_prefix command "auth "
          then (c, Some (ErrAuthRejected reply))
          else (c, Some (Failure ("esl: command " ++ quote command ++ " failed: " ++ reply)%string))
      end
  end.

Definition Dial (cfg : ClientConfig) (n : Conn) : EslError + Connection :=
  let cfg := withDefaults cfg in
  match Validate cfg with
  | Some e => inl e
  | None =>
      match cn_dial n with
      | Some e => inl (Failure ("esl: dial " ++ cf_Addr cfg ++ ": " ++ e)%string)
      | None =>
          match readMessage (cn_in n) with
          | inl e => inl (Wrap "esl: read auth request" e)
          | inr (msg, rest) =>
              let ct := header (mg_Headers msg) "Content-Type" in
              if negb (strings_equal_fold ct "auth/request")
              then inl (Failure ("esl: expected auth/request, got " ++ quote ct)%string)
              else
                let '(c, e) := commandOK (cn_write n) (mkConnection rest []) ("auth " ++ cf_Password cfg)%string in
                match e with
                | Some e => inl e
                | None =>
                    let '(c, e) := commandOK (cn_write n) c ("event plain " ++ join " " (cf_Events cfg))%string in
                    match e with Some e => inl e | None => inr c end
                end
          end
      end
  end.

Section Run.
Context {W : Type} (handler : Event -> W -> W * error).

(** The loop of [RunOnce]: it ends with the error of the connection or of the
    handler. *)
Fixpoint run_events (fuel : nat) (s : string) (w : W) : option (W * EslError) :=
  match fuel with
  | O => None
  | S fuel =>
      match ReadEvent s with
      | inl e => Some (w, e)
      | inr (evt, rest) =>
          let '(w, e) := handler evt w in
          match e with
          | Some e => Some (w, Failure e)
          | None => run_events fuel rest w
          end
      end
  end.

Definition RunOnce (cfg : ClientConfig) (n : Conn) (w : W) : W * EslError :=
  match Dial (withDefaults cfg) n with
  | inl e => (w, e)
  | inr c => default (w, Failure "unreachable") (run_events (S (String.length (co_in c))) (co_in c) w)
  end.

(** [Run], for the connections it makes before its context is cancelled. *)
Fixpoint run_conns (cfg : ClientConfig) (conns : list Conn) (w : W) : W * option EslError :=
  match conns with
  | [] => (w, None)
  | n :: conns =>
      let '(w, e) := RunOnce cfg n w in
      if is_auth_rejected e then (w, Some e) else run_conns cfg conns w
  end.

Definition Run (cfg : ClientConfig) (conns : list Conn) (w : W) : W * option EslError :=
  let cfg := withDefaults cfg in
  match Validate cfg with
  | Some e => (w, Some e)
  | None => run_conns cfg conns w
  end.

End Run.

(** ** The listener *)

Definition SubjectChannelCreated : string := "freeswitch.channel.created".
Definition SubjectChannelAnswered : string := "freeswitch.channel.answered".
Definition SubjectChannelHangup : string := "freeswitch.channel.hangup".
Definition SubjectRecordingStopped : string := "freeswitch.recording.stopped".
Definition SubjectAudioStreamStarted : string := "freeswitch.audio_stream.started".
Definition SubjectAudioStreamStopped : string := "freeswitch.audio_stream.stopped".
Definition SubjectAudioStreamError : string := "freeswitch.audio_stream.error".
Definition SubjectAudioStreamEvent : string := "freeswitch.audio_stream.event".

Definition audioStreamSubject (subclass : string) : option string :=
  if negb (has_prefix subclass "mod_audio_stream::") then None
  else
    let name := trim_prefix subclass "mod_audio_stream::" in
    if contains name "connect" || contains name "start" then Some SubjectAudioStreamStarted
    else if contains name "disconnect" || contains name "stop" then Some SubjectAudioStreamStopped
    else if contains name "error" then Some SubjectAudioStreamError
    else Some SubjectAudioStreamEvent.

Definition subjectForEvent (e : Event) : option string :=
  let t := ev_Type e in
  if bool_decide (t = EventChannelCreate) then Some SubjectChannelCreated
  else if bool_decide (t = EventChannelAnswer) then Some SubjectChannelAnswered
  else if bool_decide (t = EventChannelHangup) || bool_decide (t = EventChannelHangupComplete)
  then Some SubjectChannelHangup
  else if bool_decide (t = EventRecordStop) then Some SubjectRecordingStopped
  else if bool_decide (t = EventCustom) then audioStreamSubject (firstHeader (ev_ExtraVars e) ["Event-Subclass"%string])
  else None.

Definition recordingPath (e : Event) : string :=
  firstHeader (ev_ExtraVars e) ["Record-File-Path"; "record_file"; "variable_record_file";
    "variable_record_session_path"; "variable_recording_path"].

(** What follows the last slash. *)
Definition base_name (p : string) : string := List.last (split_on "/"%char p) ""%string.

Definition parseFilename (path : string) : string * string :=
  let base := base_name (replace_char "\"%char "/"%char path) in
  let base := trim_suffix (trim_suffix base ".wav") ".WAV" in
  if is_empty base then ("unknown", "")%string
  else match cut "_"%char base with
       | Some parts => parts
       | None => ("unknown"%string, base)
       end.

Definition recordingIDs (e : Event) (path : string) : string * string :=
  let tenantID := firstHeader (ev_ExtraVars e) ["variable_tenant_id"; "tenant_id"; "Tenant-ID"] in
  let sessionID := firstHeader (ev_ExtraVars e) ["variable_session_id"; "session_id"; "Session-ID"] in
  if negb (is_empty tenantID) && negb (is_empty sessionID) then (tenantID, sessionID)
  else
    let '(fileTenant, fileSession) := parseFilename path in
    (first_nonempty tenantID fileTenant,
     first_nonempty sessionID (first_nonempty fileSession (ev_CallUUID e))).

Record NormalizedEvent := mkNormalized {
  ne_EventName : string;
  ne_EventSubclass : string;
  ne_CallUUID : string;
  ne_TenantID : string;
  ne_SessionID : string;
  ne_Caller : string;
  ne_Destination : string;
  ne_ProviderCallID : string;
  ne_RecordingPath : string;
  ne_Timestamp : Z;
  ne_Headers : Headers;
  ne_Body : string
}.

Definition normalized (now : Z) (e : Event) : NormalizedEvent :=
  let h := ev_ExtraVars e in
  let '(tenantID, sessionID) := recordingIDs e (recordingPath e) in
  mkNormalized (ev_Type e) (firstHeader h ["Event-Subclass"%string]) (ev_CallUUID e) tenantID sessionID
    (firstHeader h ["Caller-Caller-ID-Number"; "Caller-ANI"; "Caller-Orig-Caller-ID-Number";
                    "variable_effective_caller_id_number"])
    (firstHeader h ["Caller-Destination-Number"; "variable_destination_number"])
    (firstHeader h ["variable_provider_call_id"; "variable_sip_call_id"; "variable_plivo_call_uuid";
                    "variable_exotel_call_sid"; "sip_call_id"])
    (recordingPath e) now h (ev_Body e).

Class SessionStore (R : Type) := {
  SetSessionStarted : R -> Z -> string -> R * error;
  SetSessionEnded : R -> Z -> string -> R * error
}.

#[export] Instance pg_session_store : SessionStore PgFs.t := {
  SetSessionStarted := PgFs.SetSessionStarted; SetSessionEnded := PgFs.SetSessionEnded
}.

(** Without Postgres main uses [noopSessionStore]. *)
#[export] Instance noop_session_store : SessionStore FakeRecordingStore.t := {
  SetSessionStarted r _ _ := (r, None); SetSessionEnded r _ _ := (r, None)
}.

(** [le_worker]: the uploader is the worker, or [noopUploader].  [le_marshal]
    is [json.Marshal] on an event, which does not fail on strings. *)
Record ListenEnv := mkListenEnv { le_worker : bool; le_now : nat -> Z; le_marshal : NormalizedEvent -> string }.

Section Listener.
Context {S A P R : Type} `{!Publisher P, !SessionStore R} (env : ListenEnv).

Abbreviation B := (Bridge S A P R).
Abbreviation E := (M B string).

Definition session_call (f : R -> Z -> string -> R * error) (callUUID : string) : E error :=
  let! n := tick in
  fun b => let '(r, e) := f (bg_store b) (le_now env n) callUUID in (set_store r b, inr e).

Definition with_uuid (e : Event) : Event :=
  mkEvent (ev_Type e) (first_nonempty (ev_CallUUID e) (firstHeader (ev_ExtraVars e) uuid_keys))
    (ev_ExtraVars e) (ev_Body e).

(** The [switch] on the type of the event. *)
Definition track (e : Event) : E unit :=
  let t := ev_Type e in
  if bool_decide (t = EventChannelAnswer) then
    let! r := session_call SetSessionStarted (ev_CallUUID e) in failing "listener: session started" r
  else if bool_decide (t = EventChannelHangup) || bool_decide (t = EventChannelHangupComplete) then
    let! r := session_call SetSessionEnded (ev_CallUUID e) in failing "listener: session ended" r
  else if bool_decide (t = EventRecordStop) && le_worker env then
    let path := recordingPath e in
    if is_empty path then ret tt
    else let '(tenantID, sessionID) := recordingIDs e path in modify (Enqueue tenantID sessionID path)
  else ret tt.

Definition Handle (e : Event) : E unit :=
  let e := with_uuid e in
  let! _ := track e in
  match subjectForEvent e with
  | None => ret tt
  | Some subject =>
      let! n := tick in
      let! r := publish subject (le_marshal env (normalized (le_now env n) e)) in
      failing ("listener: publish " ++ subject)%string r
  end.

(** The handler of the client. *)
Definition listen (e : Event) (b : B) : B * error :=
  let '(b, r) := Handle e b in (b, match r with inl e => Some e | inr _ => None end).

(** [FakeEventSource.DrainAll]. *)
Definition DrainAll (evts : list Event) : E unit := for_each Handle evts.

End Listener.
