(* ===== verification/EslSafety.v ===== *)
(** * freeswitch-bridge: events are read and handled in order

    The readers of the client end on every input and leave less than they were
    given; a stream of messages, with lines that end in LF or CRLF, is read back as
    the events they carry, and these are handled in their order; the file of a
    stopped recording is queued under the tenant and session of its name. *)

From stdpp Require Import pretty.
From S2P Require Import Prelude GoTime Kv GoMonad GoStrings Recording Esl.
From Stdlib Require Import Ascii.

Open Scope Z_scope.

(** ** The readers end *)

Lemma read_string_shorter s line rest :
  read_string s = Some (line, rest) -> (String.length rest < String.length s)%nat.
Proof.
  revert line rest. induction s as [|c s IH]; intros line rest; simpl; [done|]. case_bool_decide.
  - intros [= <- <-]. lia.
  - destruct (read_string s) as [[l r]|]; [|done]. intros [= <- <-]. specialize (IH _ _ eq_refl). lia.
Qed.

Lemma read_headers_ends fuel : forall s h, (String.length s < fuel)%nat ->
  exists r, read_headers fuel s h = Some r /\
    forall h' rest, r = inr (h', rest) -> (String.length rest < String.length s)%nat.
Proof.
  induction fuel as [|fuel IH]; intros s h Hf; [lia|]. simpl.
  destruct (read_string s) as [[line rest]|] eqn:E; [|by eexists].
  apply read_string_shorter in E. destruct (is_empty _).
  - eexists. split; [done|]. by intros h' r [= <- <-].
  - destruct (IH rest (add_header (trim_right_by (in_cutset CRLF) line) h)) as (r & -> & Hr); [lia|].
    eexists. split; [done|]. intros h' r' ->. specialize (Hr _ _ eq_refl). lia.
Qed.

Lemma length_drop_string n s : (String.length (drop_string n s) <= String.length s)%nat.
Proof.
  unfold drop_string. assert (G : forall m k t, (String.length (String.substring m k t) <= String.length t)%nat).
  { intros m k t. revert m k. induction t as [|c t IH]; intros [|m] [|k]; simpl; try lia; rewrite ?IH; try lia.
    all: specialize (IH 0%nat k); lia || (specialize (IH m (S k)); lia). }
  apply G.
Qed.

(** A message takes at least a byte, and the fuel of its headers is enough. *)
Lemma readMessage_shorter s msg rest :
  readMessage s = inr (msg, rest) -> (String.length rest < String.length s)%nat.
Proof.
  unfold readMessage. destruct (read_headers_ends (S (String.length s)) s ∅) as (r & -> & Hr); [lia|].
  destruct r as [e|[h r]]; [done|]. specialize (Hr _ _ eq_refl). destruct (is_empty _); [by intros [= <- <-]|].
  destruct (atoi _) as [n|]; [|done]. destruct (0 <? n); [|by intros [= <- <-]].
  unfold read_full. destruct (String.length r <? Z.to_nat n)%nat; [done|]. intros [= <- <-].
  pose proof (length_drop_string (Z.to_nat n) r). lia.
Qed.

Lemma readMessage_reachable s : readMessage s <> inl (Failure "unreachable").
Proof.
  unfold readMessage. destruct (read_headers_ends (S (String.length s)) s ∅) as (r & E & _); [lia|].
  assert (Hh : forall fuel s h e, read_headers fuel s h = Some (inl e) -> e = EOF).
  { clear. induction fuel as [|fuel IH]; intros s h e; simpl; [done|]. destruct (read_string s) as [[l r]|]; [|congruence].
    destruct (is_empty _); [done|apply IH]. }
  rewrite E. destruct r as [e|[h r]]; [apply Hh in E as ->; done|].
  unfold read_full. repeat case_match; congruence.
Qed.

Lemma read_event_ends fuel : forall s, (String.length s < fuel)%nat ->
  exists r, read_event fuel s = Some r /\ r <> inl (Failure "unreachable") /\
    forall e rest, r = inr (e, rest) -> (String.length rest < String.length s)%nat.
Proof.
  induction fuel as [|fuel IH]; intros s Hf; [lia|]. simpl. pose proof (readMessage_reachable s) as Hu.
  destruct (readMessage s) as [e|[msg rest]] eqn:E; [exists (inl e); split_and!; try done; congruence|].
  apply readMessage_shorter in E. destruct (is_empty _).
  - destruct (parsePlainEventBody _) as [h body]. destruct (is_empty _).
    + destruct (IH rest) as (r & -> & Hr & Hl); [lia|]. exists r. split_and!; [done..|].
      intros e r' ->. specialize (Hl _ _ eq_refl). lia.
    + eexists. split_and!; [done..|]. by intros e r [= <- <-].
  - eexists. split_and!; [done..|]. by intros e r [= <- <-].
Qed.

(** ** Event frames *)

(** A header as FreeSWITCH writes them: the value is URL-encoded, so neither
    part has a line end or blanks around it. *)
Definition plain_header (kv : string * string) : Prop :=
  lacks nl kv.1 /\ lacks ":"%char kv.1 /\ kv.1 <> ""%string /\ trim_space kv.1 = kv.1 /\
  lacks nl kv.2 /\ trim_space kv.2 = kv.2.

#[export] Instance plain_header_dec kv : Decision (plain_header kv).
Proof. unfold plain_header. apply _. Defined.

Definition header_line (kv : string * string) : string := (kv.1 ++ ": " ++ kv.2)%string.

(** Lines end in LF, or in CRLF. *)
Definition cr_of (crlf : bool) : string := if crlf then String cr "" else "".
Definition eol (crlf : bool) : string := (cr_of crlf ++ NL)%string.

(** A plain event: its header lines, an empty line, its body. *)
Definition plain_text (crlf : bool) (hs : list (string * string)) (body : string) : string :=
  (join (eol crlf) (header_line <$> hs) ++ eol crlf ++ eol crlf ++ body)%string.

(** The header block of a message and what follows it. *)
Definition block (crlf : bool) (kvs : list (string * string)) (rest : string) : string :=
  foldr (fun kv s => (header_line kv ++ eol crlf ++ s)%string) (eol crlf ++ rest)%string kvs.

Definition headers_of (hs : list (string * string)) : Headers :=
  fold_left (fun h kv => <[kv.1 := kv.2]> h) hs ∅.

(** *** Lines *)

Lemma cut_line c s t : lacks c s -> cut c (s ++ String c t) = Some (s, t).
Proof.
  induction s as [|d s IH]; simpl; [by rewrite bool_decide_true|].
  intros [Hd Hs]%lacks_cons. rewrite bool_decide_false by done. by rewrite IH.
Qed.

(** Nothing to trim: the last character stays. *)
Lemma trim_right_last p s c : p c = false -> trim_right_by p (s ++ String c "") = (s ++ String c "")%string.
Proof.
  intros Hp. unfold trim_right_by. rewrite list_ascii_append, rev_app_distr. simpl. rewrite Hp. simpl.
  rewrite rev_involutive. rewrite <- (string_of_list_of_string (s ++ String c "")), list_ascii_append. done.
Qed.

Lemma string_last s : s = ""%string \/ exists t c, s = (t ++ String c "")%string.
Proof.
  induction s as [|c s [->|(t & d & ->)]]; [by left|right..].
  - by exists ""%string, c.
  - by exists (String c t), d.
Qed.

(** A trimmed value does not end in a space. *)
Lemma trimmed_last s c : trim_space (s ++ String c "") = (s ++ String c "")%string -> is_space c = false.
Proof.
  intros Ht. destruct (is_space c) eqn:Hc; [|done]. exfalso.
  unfold trim_space in Ht. rewrite trim_right_by_app in Ht by (simpl; by rewrite Hc).
  apply (f_equal String.length) in Ht.
  assert (L : forall p t, (String.length (trim_left_by p t) <= String.length t)%nat /\
                          (String.length (trim_right_by p t) <= String.length t)%nat).
  { clear. intros p t. assert (D : forall l : list Ascii.ascii, (length (drop_while p l) <= length l)%nat).
    { induction l as [|x l IH]; simpl; [lia|]. destruct (p x); simpl; lia. }
    unfold trim_left_by, trim_right_by. rewrite <- !length_list_ascii, !list_of_string_of_list, length_rev.
    split; [apply D|]. etrans; [apply D|]. by rewrite length_rev. }
  pose proof (proj1 (L is_space (trim_right_by is_space s))). pose proof (proj2 (L is_space s)).
  rewrite length_string_app in Ht. simpl in Ht. lia.
Qed.

Lemma header_line_kept cutset kv :
  plain_header kv -> (forall c, in_cutset cutset c = true -> is_space c = true) ->
  in_cutset cutset " "%char = false ->
  trim_right_by (in_cutset cutset) (header_line kv) = header_line kv.
Proof.
  destruct kv as [k v]. intros (_ & _ & _ & _ & _ & Hv) Hc Hs. unfold header_line. simpl in *.
  destruct (string_last v) as [->|(t & c & ->)].
  - replace (k ++ ": " ++ "")%string with ((k ++ ":") ++ String " " "")%string by (by rewrite <- append_assoc).
    by apply trim_right_last.
  - rewrite !append_assoc. apply trim_right_last. apply trimmed_last in Hv.
    destruct (in_cutset cutset c) eqn:E; [|done]. apply Hc in E. congruence.
Qed.

Lemma add_header_line kv h : plain_header kv -> add_header (header_line kv) h = <[kv.1 := kv.2]> h.
Proof.
  destruct kv as [k v]. intros (_ & Hk & _ & Tk & _ & Tv). simpl in *. unfold add_header, header_line. simpl.
  change (": " +:+ v) with (String ":" (" " +:+ v)). rewrite cut_line by done. rewrite Tk. f_equal.
  rewrite <- Tv at 2. unfold trim_space. rewrite !trim_left_right. by rewrite trim_left_by_app.
Qed.

Lemma header_line_ne kv : plain_header kv -> is_empty (header_line kv) = false.
Proof.
  destruct kv as [k v]. intros (_ & _ & Hk & _). unfold is_empty. apply bool_decide_false.
  unfold header_line. by destruct k.
Qed.

Lemma header_line_lacks kv : plain_header kv -> lacks nl (header_line kv).
Proof.
  destruct kv as [k v]. intros (H1 & _ & _ & _ & H2 & _). unfold header_line. apply lacks_app. split; [done|].
  by repeat (apply lacks_cons; split; [done|]).
Qed.

Lemma crlf_space c : in_cutset CRLF c = true -> is_space c = true.
Proof. unfold in_cutset. intros H%bool_decide_eq_true. simpl in H. rewrite !elem_of_cons, elem_of_nil in H. by destruct H as [->|[->|[]]]. Qed.

Lemma cr_space c : in_cutset (String cr "") c = true -> is_space c = true.
Proof. unfold in_cutset. intros H%bool_decide_eq_true. simpl in H. by apply list_elem_of_singleton in H as ->. Qed.

Lemma cr_of_lacks crlf l : lacks nl l -> lacks nl (l ++ cr_of crlf).
Proof. intros Hl. apply lacks_app. split; [done|]. by destruct crlf; compute_done. Qed.

Lemma read_headers_line fuel crlf kv rest h :
  plain_header kv ->
  read_headers (S fuel) (header_line kv ++ eol crlf ++ rest) h = read_headers fuel rest (<[kv.1 := kv.2]> h).
Proof.
  intros Hp. unfold eol. rewrite <- append_assoc, (append_assoc (header_line kv)). simpl.
  rewrite read_string_line by (by apply cr_of_lacks, header_line_lacks).
  rewrite <- append_assoc. rewrite trim_right_by_app by (by destruct crlf).
  rewrite header_line_kept; [|done|apply crlf_space|done].
  rewrite header_line_ne by done. by rewrite add_header_line.
Qed.

Lemma read_headers_end fuel crlf rest h : read_headers (S fuel) (eol crlf ++ rest) h = Some (inr (h, rest)).
Proof. by destruct crlf. Qed.

Lemma read_headers_block crlf kvs rest : Forall plain_header kvs -> forall fuel h, (length kvs < fuel)%nat ->
  read_headers fuel (block crlf kvs rest) h = Some (inr (fold_left (fun h kv => <[kv.1 := kv.2]> h) kvs h, rest)).
Proof.
  induction 1 as [|kv kvs Hp _ IH]; intros [|fuel] h Hf; simpl in Hf; try lia; [apply read_headers_end|].
  unfold block. simpl foldr. rewrite read_headers_line by done. apply IH. lia.
Qed.

Lemma block_length crlf kvs rest : (length kvs + String.length rest < String.length (block crlf kvs rest))%nat.
Proof.
  unfold block. induction kvs as [|kv kvs IH]; simpl; rewrite !length_string_app; [by destruct crlf; simpl; lia|].
  assert (0 < String.length (eol crlf))%nat by (destruct crlf; simpl; lia). lia.
Qed.

Lemma read_full_app s t : read_full (String.length s) (s ++ t) = inr (s, t).
Proof.
  unfold read_full. rewrite (proj2 (Nat.ltb_ge _ _)) by (rewrite length_string_app; lia).
  by rewrite substring_prefix, drop_string_app.
Qed.

(** The length that the headers give, if any, is that of the body. *)
Definition sized (kvs : list (string * string)) (body : string) : Prop :=
  header (headers_of kvs) "Content-Length" = ""%string /\ body = ""%string \/
  header (headers_of kvs) "Content-Length" = itoa (String.length body) /\ Z.of_nat (String.length body) < 2^63.

(** A message is read whole, and no more than it. *)
Lemma readMessage_block crlf kvs body rest :
  Forall plain_header kvs -> sized kvs body ->
  readMessage (block crlf kvs (body ++ rest)) = inr (mkMessage (headers_of kvs) body, rest).
Proof.
  intros HF Hs. unfold readMessage. rewrite (read_headers_block crlf kvs (body ++ rest) HF).
  2:{ pose proof (block_length crlf kvs (body ++ rest)). lia. }
  fold (headers_of kvs). destruct Hs as [[-> ->]|[-> Hz]]; [done|].
  assert (is_empty (itoa (String.length body)) = false) as -> by (unfold is_empty; apply bool_decide_false, pretty_nat_ne).
  rewrite atoi_itoa by lia. destruct (0 <? Z.of_nat (String.length body)) eqn:E.
  - by rewrite Nat2Z.id, read_full_app.
  - apply Z.ltb_ge in E. destruct body as [|c body]; [done|]. simpl in E. lia.
Qed.

(** *** The text of an event *)

Lemma split_chars_lacks sep l acc : sep ∉ l ->
  split_chars sep acc l = [String.string_of_list_ascii (rev acc ++ l)].
Proof.
  revert acc. induction l as [|c l IH]; intros acc Hl; simpl; [by rewrite app_nil_r|].
  rewrite bool_decide_false by set_solver. rewrite IH by set_solver. simpl. by rewrite <- (assoc_L (++)).
Qed.

Lemma split_chars_sep sep l rest acc : sep ∉ l ->
  split_chars sep acc (l ++ sep :: rest) = String.string_of_list_ascii (rev acc ++ l) :: split_chars sep [] rest.
Proof.
  revert acc. induction l as [|c l IH]; intros acc Hl; simpl.
  - by rewrite bool_decide_true, app_nil_r by done.
  - rewrite bool_decide_false by set_solver. rewrite IH by set_solver. simpl. by rewrite <- (assoc_L (++)).
Qed.

(** The lines of the headers, read back. *)
Lemma plain_lines_headers crlf hs : Forall plain_header hs -> hs <> [] ->
  plain_lines (join (eol crlf) (header_line <$> hs)) = headers_of hs.
Proof.
  unfold plain_lines, headers_of. cbv zeta. generalize (∅ : Headers). intros h0 HF. revert h0.
  assert (Hline : forall kv x h, plain_header kv -> x = header_line kv \/ x = (header_line kv ++ cr_of crlf)%string ->
    (if is_empty (trim_right_by (in_cutset (String cr "")) x) then h
     else add_header (trim_right_by (in_cutset (String cr "")) x) h) = <[kv.1 := kv.2]> h).
  { intros kv x h Hp Hx. assert (trim_right_by (in_cutset (String cr "")) x = header_line kv) as ->.
    { destruct Hx as [-> | ->]; [|rewrite trim_right_by_app by (by destruct crlf)].
      all: by apply header_line_kept; [|apply cr_space|]. }
    rewrite header_line_ne by done. by apply add_header_line. }
  induction HF as [|kv hs Hp HF IH]; intros h0 Hne; [done|]. unfold split_on in *. destruct hs as [|kv' hs].
  - simpl. rewrite split_chars_lacks by (by apply header_line_lacks). simpl.
    rewrite string_of_list_of_string. apply Hline; auto.
  - change (join (eol crlf) (header_line <$> kv :: kv' :: hs))
      with (header_line kv ++ (cr_of crlf ++ NL) ++ join (eol crlf) (header_line <$> kv' :: hs))%string.
    rewrite <- append_assoc, append_assoc, list_ascii_append.
    change (String.list_ascii_of_string (NL ++ ?x)) with (nl :: String.list_ascii_of_string x).
    rewrite split_chars_sep by (by apply cr_of_lacks, header_line_lacks).
    simpl rev. rewrite app_nil_l, string_of_list_of_string. cbn [fold_left]. rewrite (Hline kv) by auto. by apply IH.
Qed.

(** The first empty line is the one after the headers. *)
Lemma index_nl rest :
  index_of (NL ++ NL) (NL ++ rest) = if has_prefix rest NL then Some 0%nat else S <$> index_of (NL ++ NL) rest.
Proof. reflexivity. Qed.

Lemma index_other c rest : nl <> c -> index_of (NL ++ NL) (String c rest) = S <$> index_of (NL ++ NL) rest.
Proof.
  intros Hc. change (index_of (NL ++ NL) (String c rest)) with
    (if (if Ascii.ascii_dec nl c then String.prefix NL rest else false) then Some 0%nat
     else S <$> index_of (NL ++ NL) rest).
  by destruct (Ascii.ascii_dec nl c).
Qed.

Lemma index_line l rest : lacks nl l -> index_of (NL ++ NL) (l ++ rest) =
  (fun i => (String.length l + i)%nat) <$> index_of (NL ++ NL) rest.
Proof.
  induction l as [|c l IH]; intros Hl.
  - change (index_of (NL ++ NL) rest = (fun i => i) <$> index_of (NL ++ NL) rest).
    by destruct (index_of (NL ++ NL) rest).
  - apply lacks_cons in Hl as [Hc Hl]. change (String c l ++ rest)%string with (String c (l ++ rest)).
    rewrite index_other, IH by done. by destruct (index_of (NL ++ NL) rest).
Qed.

Lemma no_nl_prefix l rest : lacks nl l -> l <> ""%string -> has_prefix (l ++ rest) NL = false.
Proof.
  destruct l as [|c l]; [done|]. intros [Hc _]%lacks_cons _. change ((if Ascii.ascii_dec nl c then String.prefix "" (l ++ rest) else false) = false).
  by destruct (Ascii.ascii_dec nl c).
Qed.

Lemma index_headers lines body :
  lines <> [] -> Forall (fun l => lacks nl l /\ l <> ""%string) lines ->
  index_of (NL ++ NL) (join NL lines ++ NL ++ NL ++ body) = Some (String.length (join NL lines)).
Proof.
  intros Hne HF. induction HF as [|l lines [Hl Hn] HF IH]; [done|]. destruct lines as [|l' lines].
  - simpl. rewrite index_line by done. rewrite index_nl, has_prefix_app. simpl. f_equal. lia.
  - change (join NL (l :: l' :: lines)) with (l ++ NL ++ join NL (l' :: lines))%string.
    rewrite <- !append_assoc. rewrite index_line, index_nl by done.
    assert (Hp : has_prefix (join NL (l' :: lines) ++ NL ++ NL ++ body) NL = false).
    { inversion HF as [|? ? [Hl' Hn'] _]; subst. destruct lines as [|l'' lines].
      - by apply no_nl_prefix.
      - change (join NL (l' :: l'' :: lines)) with (l' ++ NL ++ join NL (l'' :: lines))%string.
        rewrite <- append_assoc. by apply no_nl_prefix. }
    rewrite Hp, IH by done. simpl. f_equal. rewrite !length_string_app. simpl. lia.
Qed.

(** The same for lines that end in CRLF. *)
Lemma index_cr_line l rest : lacks nl l -> has_prefix rest NL = false ->
  index_of (CRLF ++ CRLF) (l ++ rest) = (fun i => (String.length l + i)%nat) <$> index_of (CRLF ++ CRLF) rest.
Proof.
  intros Hl Hr. induction l as [|c l IH].
  - change (index_of (CRLF ++ CRLF) rest = (fun i => i) <$> index_of (CRLF ++ CRLF) rest).
    by destruct (index_of (CRLF ++ CRLF) rest).
  - apply lacks_cons in Hl as [Hc Hl]. change (String c l ++ rest)%string with (String c (l ++ rest)).
    assert (Hp : has_prefix (l ++ rest) NL = false).
    { destruct l as [|d l]; [done|]. apply lacks_cons in Hl as [Hd _].
      change ((if Ascii.ascii_dec nl d then String.prefix "" (l ++ rest) else false) = false).
      by destruct (Ascii.ascii_dec nl d). }
    assert (E : index_of (CRLF ++ CRLF) (String c (l ++ rest)) = S <$> index_of (CRLF ++ CRLF) (l ++ rest)).
    { change (index_of (CRLF ++ CRLF) (String c (l ++ rest))) with
        (if (if Ascii.ascii_dec cr c then String.prefix (NL ++ CRLF) (l ++ rest) else false) then Some 0%nat
         else S <$> index_of (CRLF ++ CRLF) (l ++ rest)).
      destruct (Ascii.ascii_dec cr c); [|done]. unfold has_prefix in Hp.
      destruct (l ++ rest)%string as [|d t]; [done|].
      change (String.prefix NL (String d t)) with (if Ascii.ascii_dec nl d then String.prefix "" t else false) in Hp.
      change (String.prefix (NL ++ CRLF) (String d t)) with
        (if Ascii.ascii_dec nl d then String.prefix CRLF t else false).
      destruct (Ascii.ascii_dec nl d); [by destruct t|done]. }
    rewrite E, IH by done. by destruct (index_of (CRLF ++ CRLF) rest).
Qed.

Lemma index_eol c rest : cr <> c ->
  index_of (CRLF ++ CRLF) (CRLF ++ String c rest) = (fun i => (2 + i)%nat) <$> index_of (CRLF ++ CRLF) (String c rest).
Proof.
  intros Hc. change (index_of (CRLF ++ CRLF) (CRLF ++ String c rest)) with
    (if (if Ascii.ascii_dec cr c then String.prefix NL rest else false) then Some 0%nat
     else S <$> (S <$> index_of (CRLF ++ CRLF) (String c rest))).
  destruct (Ascii.ascii_dec cr c); [done|]. by destruct (index_of _ _).
Qed.

(** A line that does not begin with a line end. *)
Definition nonblank (l : string) : Prop := lacks nl l /\ exists c t, l = String c t /\ cr <> c.

Lemma index_crlf_headers lines body : lines <> [] -> Forall nonblank lines ->
  index_of (CRLF ++ CRLF) (join CRLF lines ++ CRLF ++ CRLF ++ body) = Some (String.length (join CRLF lines)).
Proof.
  intros Hne HF. induction HF as [|l lines [Hl _] HF IH]; [done|]. destruct lines as [|l' lines].
  - simpl join. rewrite index_cr_line by done.
    assert (index_of (CRLF ++ CRLF) (CRLF ++ CRLF ++ body) = Some 0%nat) as -> by (by destruct body). simpl. f_equal. lia.
  - change (join CRLF (l :: l' :: lines)) with (l ++ CRLF ++ join CRLF (l' :: lines))%string.
    rewrite <- !append_assoc, index_cr_line by done.
    assert (exists c t, (join CRLF (l' :: lines) ++ CRLF ++ CRLF ++ body)%string = String c t /\ cr <> c) as (c & t & Ec & Hc).
    { inversion HF as [|? ? (_ & c & t & -> & Hc) _]; subst. by destruct lines; eexists c, _. }
    rewrite Ec, index_eol, <- Ec, IH by done. simpl. f_equal. rewrite !length_string_app. simpl. lia.
Qed.

(** A trimmed key does not begin with a space. *)
Lemma trimmed_first c s : trim_space (String c s) = String c s -> is_space c = false.
Proof.
  intros Ht. destruct (is_space c) eqn:Hc; [|done]. exfalso. revert Ht. unfold trim_space. rewrite trim_left_right.
  intros Ht. apply (f_equal String.length) in Ht. revert Ht.
  assert (D : forall l : list Ascii.ascii, (length (drop_while is_space l) <= length l)%nat).
  { induction l as [|x l IH]; simpl; [lia|]. destruct (is_space x); simpl; lia. }
  unfold trim_right_by, trim_left_by. rewrite <- !length_list_ascii, !list_of_string_of_list, length_rev. simpl. rewrite Hc.
  intros Ht. pose proof (D (rev (drop_while is_space (String.list_ascii_of_string s)))) as H1.
  rewrite length_rev in H1. pose proof (D (String.list_ascii_of_string s)). lia.
Qed.

Lemma headers_nonblank hs : Forall plain_header hs -> Forall nonblank (header_line <$> hs).
Proof.
  intros HF. apply Forall_fmap. eapply Forall_impl; [exact HF|]. intros [k v] Hp.
  split; [by apply header_line_lacks|]. destruct Hp as (_ & _ & Hk & Tk & _). simpl in *.
  destruct k as [|c k]; [done|]. exists c, (k ++ ": " ++ v)%string. split; [done|]. intros <-.
  by apply trimmed_first in Tk.
Qed.

(** An event reads back, when its lines end in CRLF or its text has no empty
    line that does. *)
Lemma parse_plain_text crlf hs body :
  hs <> [] -> Forall plain_header hs ->
  (crlf = false -> index_of (CRLF ++ CRLF) (plain_text crlf hs body) = None) ->
  parsePlainEventBody (plain_text crlf hs body) = (headers_of hs, body).
Proof.
  intros Hne HF Hcr. unfold parsePlainEventBody.
  pose proof (headers_nonblank hs HF) as HL. assert (Hln : header_line <$> hs <> []) by (by destruct hs).
  assert (He : is_empty (plain_text crlf hs body) = false).
  { unfold is_empty. apply bool_decide_false. intros E. apply (f_equal String.length) in E. unfold plain_text in E.
    rewrite !length_string_app in E. destruct crlf; simpl in E; lia. }
  rewrite He. destruct crlf.
  - unfold plain_text. change (eol true) with CRLF. rewrite index_crlf_headers, substring_prefix by done. f_equal.
    + by apply (plain_lines_headers true).
    + rewrite (append_assoc CRLF CRLF body), (append_assoc _ (CRLF ++ CRLF) body). apply drop_string_app.
      by rewrite length_string_app.
  - rewrite (Hcr eq_refl). unfold plain_text. change (eol false) with NL. rewrite index_headers, substring_prefix; [|done|].
    2:{ eapply Forall_impl; [exact HL|]. intros l (H1 & c & t & -> & _). done. }
    f_equal; [by apply (plain_lines_headers false)|].
    rewrite (append_assoc NL NL body), (append_assoc _ (NL ++ NL) body). apply drop_string_app.
    by rewrite length_string_app.
Qed.

(** *** Texts without an event *)

(** [s] has [t] inside. *)
Definition within (t s : string) : Prop := exists a b, s = (a ++ t ++ b)%string.

Lemma within_trans t u s : within t u -> within u s -> within t s.
Proof.
  intros (a & b & ->) (c & d & ->). exists (c ++ a)%string, (b ++ d)%string. by rewrite <- !append_assoc.
Qed.

Lemma within_index t s : within t s -> index_of t s <> None.
Proof.
  intros (a & b & ->). induction a as [|c a IH].
  - assert (Hp : forall s, has_prefix s t = true -> index_of t s = Some 0%nat) by (intros [|c s] Hs; unfold index_of; by rewrite Hs).
    change ("" ++ t ++ b)%string with (t ++ b)%string. by rewrite Hp by apply has_prefix_app.
  - change (index_of t (String c a ++ t ++ b)) with
      (if has_prefix (String c (a ++ t ++ b)) t then Some 0%nat else S <$> index_of t (a ++ t ++ b)).
    destruct (has_prefix _ t); [done|]. by destruct (index_of t (a ++ t ++ b)).
Qed.

Lemma within_list (l pre post : list Ascii.ascii) s :
  String.list_ascii_of_string s = pre ++ l ++ post -> within (String.string_of_list_ascii l) s.
Proof.
  assert (A : forall k m, String.string_of_list_ascii (k ++ m) = (String.string_of_list_ascii k ++ String.string_of_list_ascii m)%string)
    by (intros k m; induction k as [|c k IH]; [done|]; simpl; by rewrite IH).
  intros E. exists (String.string_of_list_ascii pre), (String.string_of_list_ascii post).
  by rewrite <- (string_of_list_of_string s), E, !A.
Qed.

Lemma drop_while_suffix {A} (p : A -> bool) l : exists pre, l = pre ++ drop_while p l.
Proof.
  induction l as [|x l [pre IH]]; [by exists []|]. simpl. destruct (p x); [|by exists []].
  exists (x :: pre). by rewrite IH at 1.
Qed.

Lemma trim_right_within p s : within (trim_right_by p s) s.
Proof.
  unfold trim_right_by. destruct (drop_while_suffix p (rev (String.list_ascii_of_string s))) as [pre E].
  apply (within_list _ [] (rev pre)). apply (f_equal (@rev _)) in E. by rewrite rev_involutive, rev_app_distr in E.
Qed.

Lemma trim_within s : within (trim_space s) s.
Proof.
  unfold trim_space. eapply within_trans.
  - unfold trim_left_by. destruct (drop_while_suffix is_space (String.list_ascii_of_string (trim_right_by is_space s))) as [pre E].
    eapply (within_list _ pre []). by rewrite app_nil_r.
  - apply trim_right_within.
Qed.

Lemma cut_within c s k v : cut c s = Some (k, v) -> within k s.
Proof.
  intros E. exists ""%string, (String c v). revert k v E. induction s as [|d s IH]; intros k v; simpl; [done|].
  case_bool_decide as Hd; [by intros [= <- <-]; subst|]. destruct (cut c s) as [[k' v']|]; [|done].
  intros [= <- <-]. change (String d s = String d (k' ++ String c v')). f_equal. by apply (IH k' v').
Qed.

Lemma split_within sep s x : x ∈ split_on sep s -> within x s.
Proof.
  unfold split_on. assert (G : forall l acc, x ∈ split_chars sep acc l -> exists pre m post,
    x = String.string_of_list_ascii m /\ rev acc ++ l = pre ++ m ++ post).
  { induction l as [|c l IH]; intros acc; simpl.
    - intros ->%list_elem_of_singleton. exists [], (rev acc), []. by rewrite !app_nil_r.
    - case_bool_decide as Hc.
      + intros [->|Hx]%elem_of_cons; [by exists [], (rev acc), (c :: l)|].
        apply IH in Hx as (pre & m & post & -> & E). simpl in E. subst l.
        exists (rev acc ++ c :: pre), m, post. split; [done|]. by rewrite <- (assoc_L (++)).
      + intros Hx. apply IH in Hx as (pre & m & post & -> & E). exists pre, m, post. split; [done|].
        rewrite <- E. simpl. by rewrite <- (assoc_L (++)). }
  intros (pre & m & post & -> & E)%G. by apply (within_list m pre post).
Qed.

Lemma substring_within n s : within (String.substring 0 n s) s.
Proof.
  exists ""%string. revert n. induction s as [|c s IH]; intros [|n]; simpl; try by eexists.
  destruct (IH n) as [b E]. exists b. simpl in E. by rewrite E at 1.
Qed.

(** A header that is read stands in the text. *)
Lemma plain_lines_within text k : plain_lines text !! k <> None -> within k text.
Proof.
  unfold plain_lines. cbv zeta. assert (G : forall lines (h : Headers), Forall (fun x => within x text) lines ->
    (h !! k <> None -> within k text) ->
    fold_left (fun h line => if is_empty (trim_right_by (in_cutset (String cr "")) line) then h
      else add_header (trim_right_by (in_cutset (String cr "")) line) h) lines h !! k <> None -> within k text).
  { induction lines as [|x lines IH]; intros h HF Hh; simpl; [done|]. apply Forall_cons in HF as [Hx HF]. apply IH; [done|]. destruct (is_empty _); [done|]. unfold add_header.
    destruct (cut ":" _) as [[key v]|] eqn:E; [|done].
    intros Hl%not_eq_None_Some%lookup_insert_is_Some.
    destruct Hl as [Ek|[_ Hl]]; [|by apply Hh, not_eq_None_Some]. subst k. eapply within_trans; [apply trim_within|]. eapply within_trans; [exact (cut_within _ _ _ _ E)|].
    eapply within_trans; [apply trim_right_within|done]. }
  apply G; [|done]. apply Forall_forall. intros x. apply split_within.
Qed.

Lemma parse_without_event text :
  index_of "Event-Name" text = None -> header (parsePlainEventBody text).1 "Event-Name" = ""%string.
Proof.
  intros Hn. unfold parsePlainEventBody. destruct (is_empty text); [done|].
  assert (G : forall u, within u text -> header (plain_lines u) "Event-Name" = ""%string).
  { intros u Hu. unfold header. destruct (plain_lines u !! "Event-Name"%string) as [v|] eqn:E; [|done]. exfalso.
    apply (within_index "Event-Name" text); [|done]. eapply within_trans; [|exact Hu].
    apply plain_lines_within. by rewrite E. }
  destruct (index_of (CRLF ++ CRLF) text); [apply G, substring_within|].
  destruct (index_of (NL ++ NL) text); [apply G, substring_within|]. apply G. exists ""%string, ""%string.
  simpl. by rewrite append_nil.
Qed.

(** *** Messages on the wire *)

(** What the peer sends: an event whose headers are those of the message, an
    event in the text of a message, and a message that has no event, such as a
    reply or a notice. *)
Inductive packet :=
| Direct (hs : list (string * string)) (body : string)
| Plain (outer : list (string * string)) (crlf : bool) (hs : list (string * string)) (body : string)
| Other (outer : list (string * string)) (body : string).

Definition pk_headers (p : packet) : list (string * string) :=
  match p with Direct hs _ => hs | Plain outer _ _ _ => outer | Other outer _ => outer end.

Definition pk_body (p : packet) : string :=
  match p with Direct _ body => body | Plain _ crlf hs body => plain_text crlf hs body | Other _ body => body end.

Definition event_name (hs : list (string * string)) : string := header (headers_of hs) "Event-Name".

(** The event that a message carries. *)
Definition event_of (p : packet) : option Event :=
  match p with
  | Direct hs body | Plain _ _ hs body => Some (FromHeaders (headers_of hs) body)
  | Other _ _ => None
  end.

Definition carries (p : packet) : Prop :=
  match p with
  | Direct hs _ => event_name hs <> ""%string
  | Plain outer crlf hs body =>
      event_name outer = ""%string /\ Forall plain_header hs /\ event_name hs <> ""%string /\
      (crlf = false -> index_of (CRLF ++ CRLF) (plain_text crlf hs body) = None)
  | Other outer body => event_name outer = ""%string /\ index_of "Event-Name" body = None
  end.

(** Headers as FreeSWITCH writes them, a length that is that of the body, and the
    event where the kind of message has it. *)
Record good_packet (p : packet) : Prop := {
  gp_headers : Forall plain_header (pk_headers p);
  gp_sized : sized (pk_headers p) (pk_body p);
  gp_carries : carries p
}.

(** The messages of a connection, each with its line ends. *)
Definition stream (ps : list (bool * packet)) : string :=
  foldr (fun '(crlf, p) s => block crlf (pk_headers p) (pk_body p ++ s)) ""%string ps.

Lemma read_event_fuel f : forall g s, (String.length s < f)%nat -> (String.length s < g)%nat ->
  read_event f s = read_event g s.
Proof.
  induction f as [|f IH]; intros [|g] s Hf Hg; [lia..|]. simpl.
  destruct (readMessage s) as [e|[msg rest]] eqn:E; [done|]. apply readMessage_shorter in E.
  destruct (is_empty _); [|done]. destruct (parsePlainEventBody _) as [h body]. destruct (is_empty _); [|done].
  apply IH; lia.
Qed.

(** A message is read as its event, or skipped. *)
Lemma ReadEvent_packet crlf p rest : good_packet p ->
  ReadEvent (block crlf (pk_headers p) (pk_body p ++ rest)) =
  match event_of p with Some e => inr (e, rest) | None => ReadEvent rest end.
Proof.
  intros [HF Hs Hc]. unfold ReadEvent at 1. simpl. rewrite readMessage_block by done. simpl.
  assert (Hne : forall x, x <> ""%string -> is_empty x = false) by (intros x Hx; unfold is_empty; by apply bool_decide_false).
  destruct p as [hs body|outer c hs body|outer body]; simpl in *.
  - fold (event_name hs). by rewrite Hne.
  - destruct Hc as (Ho & HF' & Hn & Hcr). fold (event_name outer). rewrite Ho. simpl.
    rewrite parse_plain_text; [|by intros ->|done..]. fold (event_name hs). by rewrite Hne.
  - destruct Hc as (Ho & Hn). fold (event_name outer). rewrite Ho. simpl. apply parse_without_event in Hn.
    destruct (parsePlainEventBody body) as [h b]. simpl in Hn. rewrite Hn. simpl. unfold ReadEvent. f_equal.
    pose proof (block_length crlf outer (body ++ rest)) as Hl. rewrite length_string_app in Hl.
    apply read_event_fuel; lia.
Qed.

(** Events one after the other, up to the first that the handler refuses. *)
Fixpoint handle_all {W} (handler : Event -> W -> W * error) (evts : list Event) (w : W) : W * EslError :=
  match evts with
  | [] => (w, EOF)
  | e :: evts =>
      let '(w, r) := handler e w in
      match r with Some err => (w, Failure err) | None => handle_all handler evts w end
  end.

Lemma run_events_stream {W} (handler : Event -> W -> W * error) ps : Forall (fun x => good_packet x.2) ps ->
  forall fuel w, (String.length (stream ps) < fuel)%nat ->
  run_events handler fuel (stream ps) w = Some (handle_all handler (omap (fun x => event_of x.2) ps) w).
Proof.
  induction 1 as [|[crlf p] ps G _ IH]; intros fuel w Hf; (destruct fuel as [|fuel]; [lia|]); [reflexivity|].
  simpl in Hf, G. pose proof (block_length crlf (pk_headers p) (pk_body p ++ stream ps)) as Hl.
  rewrite length_string_app in Hl. cbn [run_events stream foldr]. fold (stream ps).
  rewrite (ReadEvent_packet crlf p (stream ps) G). simpl omap. destruct (event_of p) as [e|].
  - simpl. destruct (handler e w) as [w' [err|]]; [done|]. apply IH. lia.
  - exact (IH (S fuel) w ltac:(lia)).
Qed.

(** *** The handshake *)

(** A message without a body. *)
Lemma readMessage_note crlf kvs rest :
  Forall plain_header kvs -> header (headers_of kvs) "Content-Length" = ""%string ->
  readMessage (block crlf kvs rest) = inr (mkMessage (headers_of kvs) "", rest).
Proof. intros HF Hc. apply (readMessage_block crlf kvs "" rest HF). by left. Qed.

Definition greeting (crlf : bool) (rest : string) : string := block crlf [("Content-Type", "auth/request")]%string rest.

Definition reply (crlf : bool) (text rest : string) : string :=
  block crlf [("Content-Type"%string, "command/reply"%string); ("Reply-Text"%string, text)] rest.

Definition plain_text_ok (text : string) : Prop := lacks nl text /\ trim_space text = text.

Lemma commandOK_reply write c command crlf text rest :
  write (length (co_out c)) = None -> co_in c = reply crlf text rest -> plain_text_ok text -> has_prefix text "+OK" = true ->
  commandOK write c command = (mkConnection rest (co_out c ++ [(command ++ NL ++ NL)%string]), None).
Proof.
  intros Hw Hin [H1 H2] Hok. unfold commandOK. rewrite Hw, Hin. unfold reply.
  rewrite readMessage_note; [|..].
  - assert (header (headers_of [("Content-Type"%string, "command/reply"%string); ("Reply-Text"%string, text)])
      "Reply-Text" = text) as Er by reflexivity.
    simpl mg_Headers. by rewrite Er, Hok.
  - constructor; [by compute_done|]. constructor; [|done]. unfold plain_header. simpl. split_and!; try done; by compute_done.
  - reflexivity.
Qed.

Lemma Dial_accepts cfg n c0 c1 c2 t1 t2 rest :
  Validate cfg = None -> cn_dial n = None -> (forall i, cn_write n i = None) ->
  plain_text_ok t1 -> has_prefix t1 "+OK" = true -> plain_text_ok t2 -> has_prefix t2 "+OK" = true ->
  cn_in n = greeting c0 (reply c1 t1 (reply c2 t2 rest)) ->
  exists out, Dial cfg n = inr (mkConnection rest out).
Proof.
  intros Hv Hd Hw P1 O1 P2 O2 Hin. unfold Dial. change (Validate (withDefaults cfg)) with (Validate cfg).
  rewrite Hv, Hd, Hin. unfold greeting. rewrite readMessage_note; [|repeat constructor; by compute_done|done].
  change (strings_equal_fold (header (mg_Headers (mkMessage (headers_of [("Content-Type", "auth/request")]%string) ""))
    "Content-Type") "auth/request") with true. simpl negb. cbv iota.
  rewrite (commandOK_reply _ _ _ c1 t1 (reply c2 t2 rest)) by auto. simpl co_out.
  rewrite (commandOK_reply _ _ _ c2 t2 rest) by auto. by eexists.
Qed.

(** ** File names *)

Lemma last_split sep l rest acc d :
  List.last (split_chars sep acc (l ++ sep :: rest)) d = List.last (split_chars sep [] rest) d.
Proof.
  assert (Hne : forall a r, split_chars sep a r <> []).
  { intros a r. revert a. induction r as [|c r IH]; intros a; simpl; [done|]. by case_bool_decide. }
  revert acc. induction l as [|c l IH]; intros acc; simpl.
  - rewrite bool_decide_true by done. simpl. destruct (split_chars sep [] rest) eqn:E; [by apply Hne in E|done].
  - case_bool_decide; [|apply IH]. simpl. specialize (IH []).
    destruct (split_chars sep [] (l ++ sep :: rest)) eqn:E; [by apply Hne in E|done].
Qed.

Lemma replace_char_lacks a b s : lacks a s -> replace_char a b s = s.
Proof.
  intros Hl. unfold replace_char, smap. rewrite <- (string_of_list_of_string s) at 2. f_equal.
  unfold lacks in Hl. induction (String.list_ascii_of_string s) as [|c l IH]; [done|]. simpl.
  rewrite bool_decide_false by set_solver. by rewrite IH by set_solver.
Qed.

Lemma base_name_app dir base : lacks "/"%char base -> base_name (dir ++ String "/" base) = base.
Proof.
  intros Hb. unfold base_name, split_on. rewrite list_ascii_append.
  change (String.list_ascii_of_string (String "/" base)) with ("/"%char :: String.list_ascii_of_string base).
  rewrite last_split, split_chars_lacks by done. simpl. apply string_of_list_of_string.
Qed.

(** The names that FreeSWITCH is configured to give. *)
Definition recording_file (dir tenantID sessionID : string) : string :=
  (dir ++ "/" ++ tenantID ++ "_" ++ sessionID ++ ".wav")%string.

(** What a name needs to read back. *)
Record good_name (tenantID sessionID : string) : Prop := {
  gn_tenant : lacks "/"%char tenantID /\ lacks "\"%char tenantID /\ lacks "_"%char tenantID;
  gn_session : lacks "/"%char sessionID /\ lacks "\"%char sessionID;
  gn_suffix : has_suffix (tenantID ++ "_" ++ sessionID) ".WAV" = false
}.

Lemma parseFilename_file dir t s : good_name t s -> parseFilename (recording_file dir t s) = (t, s).
Proof.
  intros [(T1 & T2 & T3) (S1 & S2) Hsuf]. unfold parseFilename, recording_file.
  set (base := (t ++ "_" ++ s)%string) in *.
  assert (Hb1 : lacks "/"%char (base ++ ".wav")).
  { unfold base. rewrite !lacks_app. split_and!; try done; by compute_done. }
  assert (Hb2 : lacks "\"%char (base ++ ".wav")).
  { unfold base. rewrite !lacks_app. split_and!; try done; by compute_done. }
  change (dir ++ "/" ++ t ++ "_" ++ s ++ ".wav")%string with (dir ++ String "/" (t ++ "_" ++ s ++ ".wav"))%string.
  replace (t ++ "_" ++ s ++ ".wav")%string with (base ++ ".wav")%string by (unfold base; by rewrite <- !append_assoc).
  assert (E : replace_char "\" "/" (dir ++ String "/" (base ++ ".wav")) =
              (replace_char "\" "/" dir ++ String "/" (base ++ ".wav"))%string).
  { unfold replace_char. rewrite smap_app. f_equal. unfold smap. simpl. f_equal.
    apply (replace_char_lacks "\"%char "/"%char _ Hb2). }
  rewrite E, base_name_app by done. rewrite trim_suffix_app.
  assert (trim_suffix base ".WAV" = base) as -> by (unfold trim_suffix; by rewrite Hsuf).
  assert (is_empty base = false) as ->.
  { unfold is_empty, base. apply bool_decide_false. intros Ee. apply (f_equal String.length) in Ee.
    rewrite !length_string_app in Ee. simpl in Ee. lia. }
  unfold base. change ("_" ++ s)%string with (String "_" s). by rewrite cut_line.
Qed.

(** ** The listener *)

Section Listener.
Context {S A P R : Type} `{!Publisher P, !SessionStore R} (env : ListenEnv).

Abbreviation B := (Bridge S A P R).

(** Publishing does not touch the queue. *)
Lemma publish_queue s m (b : B) : bg_queue (publish s m b).1 = bg_queue b.
Proof. unfold publish. by destruct (Publish _ _ _). Qed.

(** What [Handle] does to the queue is what [track] does. *)
Lemma handle_queue e (b : B) : bg_queue (Handle env e b).1 = bg_queue (track env (with_uuid e) b).1.
Proof.
  unfold Handle. rewrite bind_run. destruct (track env (with_uuid e) b) as [b1 [err|u]]; [done|]. simpl.
  destruct (subjectForEvent (with_uuid e)) as [subject|]; [|done].
  rewrite bind_run. simpl. rewrite bind_run.
  set (m := le_marshal env _). set (b2 := (mkBridge _ _ _ _ _ _ _ _ : B)).
  pose proof (publish_queue subject m b2) as Hq. destruct (publish subject m b2) as [b3 [err|r]]; [done|].
  simpl in *. unfold failing. by destruct r.
Qed.

End Listener.

(** ** Theorems *)

(** C40: over a connection whose login and subscription the peer accepts, the
    client hands the events of the message stream to its handler in their order,
    each with its headers and body as sent, until the handler refuses one or the
    connection ends; no event is skipped, split or read twice, messages without
    an event are passed over, and the readers do not run out of fuel.  The stream
    is any sequence of messages with LF or CRLF line ends: events in the headers
    of a message, text/event-plain events in its body, and messages that carry
    none.  What is assumed of it: header keys and values have no line end and no
    blanks around them (FreeSWITCH encodes them), a message's Content-Length is
    the length of its body and there is no body without it, the text of a message
    without an event does not contain Event-Name, and an event text whose lines
    end in LF has no CRLF CRLF in it, since that is taken for the end of the
    headers ([body_lines_become_headers]). *)
Theorem event_stream_is_handled_in_order {W} (handler : Event -> W -> W * error) cfg n c0 c1 c2 t1 t2 ps w :
  Validate cfg = None -> cn_dial n = None -> (forall i, cn_write n i = None) ->
  plain_text_ok t1 -> has_prefix t1 "+OK" = true -> plain_text_ok t2 -> has_prefix t2 "+OK" = true ->
  Forall (fun x => good_packet x.2) ps ->
  cn_in n = greeting c0 (reply c1 t1 (reply c2 t2 (stream ps))) ->
  RunOnce handler cfg n w = handle_all handler (omap (fun x => event_of x.2) ps) w.
Proof.
  intros Hv Hd Hw P1 O1 P2 O2 HG Hin. unfold RunOnce.
  destruct (Dial_accepts (withDefaults cfg) n c0 c1 c2 t1 t2 (stream ps)) as [out ->]; try done.
  simpl co_in. by rewrite run_events_stream by (done || lia).
Qed.

(** When a recording stops, the listener queues its file for upload under
    the tenant and the session of its name, unless the channel's own variables
    name them, and does so whether or not the event can be published. *)
Theorem stopped_recording_is_queued {S A P R} `{!Publisher P, !SessionStore R} env (b : Bridge S A P R) e dir t s :
  le_worker env = true -> ev_Type e = EventRecordStop ->
  recordingPath e = recording_file dir t s -> good_name t s -> t <> ""%string -> s <> ""%string ->
  let t0 := firstHeader (ev_ExtraVars e) ["variable_tenant_id"; "tenant_id"; "Tenant-ID"]%string in
  let s0 := firstHeader (ev_ExtraVars e) ["variable_session_id"; "session_id"; "Session-ID"]%string in
  bg_queue (Handle env e b).1 =
  bg_queue b ++ [mkJob (first_nonempty t0 t) (first_nonempty s0 s) (recordingPath e) 0].
Proof.
  intros Hwk Ht Hp Hn Hne Hse t0 s0. rewrite handle_queue. unfold track.
  change (ev_Type (with_uuid e)) with (ev_Type e). rewrite Ht, Hwk.
  rewrite !bool_decide_false by done. rewrite bool_decide_true by done. simpl.
  change (recordingPath (with_uuid e)) with (recordingPath e).
  assert (is_empty (recordingPath e) = false) as ->.
  { rewrite Hp. unfold is_empty. apply bool_decide_false. intros E. apply (f_equal String.length) in E.
    unfold recording_file in E. rewrite !length_string_app in E. simpl in E. lia. }
  assert (recordingIDs (with_uuid e) (recordingPath e) = (first_nonempty t0 t, first_nonempty s0 s)) as ->; [|done].
  unfold recordingIDs. change (ev_ExtraVars (with_uuid e)) with (ev_ExtraVars e). fold t0 s0. rewrite Hp, parseFilename_file by done.
  unfold first_nonempty. destruct (is_empty t0) eqn:Et, (is_empty s0) eqn:Es; simpl; try done.
  all: assert (is_empty s = false) as -> by (unfold is_empty; by apply bool_decide_false); done.
Qed.

(** ** Witnesses *)

Definition demo_headers : list (string * string) :=
  [("Event-Name", "RECORD_STOP"); ("Unique-ID", "call-1"); ("Record-File-Path", "/tmp/recordings/t1_s1.wav")]%string.

(** An event in the headers of the message. *)
Definition demo_stop : packet := Direct demo_headers "".

Definition plain_outer (text : string) : list (string * string) :=
  [("Content-Length"%string, itoa (String.length text)); ("Content-Type", "text/event-plain")%string].

(** An event in its body, with either line end. *)
Definition demo_custom (crlf : bool) : packet :=
  let hs := [("Event-Name", "CUSTOM"); ("Event-Subclass", "mod_audio_stream::error")]%string in
  Plain (plain_outer (plain_text crlf hs "{code: 7}")) crlf hs "{code: 7}".

(** A message without one. *)
Definition demo_notice : packet :=
  Other [("Content-Type", "text/disconnect-notice"); ("Content-Length", "22")]%string "Disconnected, goodbye.".

Definition demo_packets : list (bool * packet) :=
  [(true, demo_stop); (true, demo_custom true); (false, demo_notice); (false, demo_custom false)].

Lemma demo_stream_good : Forall (fun x => good_packet x.2) demo_packets.
Proof.
  assert (Hh : forall l, bool_decide (Forall plain_header l) = true -> Forall plain_header l)
    by (intros l; apply bool_decide_eq_true).
  unfold demo_packets. rewrite !Forall_cons. split_and!; [..|done].
  all: split; simpl pk_headers; [apply Hh; vm_compute; reflexivity|try (right; split; [reflexivity|vm_compute; done])|].
  - by left.
  - done.
  - split_and!; [reflexivity|apply Hh; vm_compute; reflexivity|done|done].
  - split; reflexivity.
  - split_and!; [reflexivity|apply Hh; vm_compute; reflexivity|done|intros _; reflexivity].
Qed.

Definition demo_conn : Conn :=
  mkConn None (greeting true (reply true "+OK accepted" (reply false "+OK event listener enabled plain" (stream demo_packets))))
    (fun _ => None).

Definition demo_cfg : ClientConfig := mkConfig "" "ClueCon" [] 0 0.

(** A handler that keeps what it is given. *)
Definition keep (e : Event) (l : list string) : list string * error := (l ++ [ev_Type e], None).

Lemma event_stream_is_handled_in_order_witness :
  RunOnce keep demo_cfg demo_conn [] = (["RECORD_STOP"; "CUSTOM"; "CUSTOM"]%string, EOF).
Proof.
  rewrite (event_stream_is_handled_in_order keep demo_cfg demo_conn true true false "+OK accepted" "+OK event listener enabled plain"
    demo_packets); [reflexivity|done|done|done| | | | |apply demo_stream_good|reflexivity];
    [split; by compute_done|done|split; by compute_done|done].
Defined.

Definition demo_env : ListenEnv := mkListenEnv true Z.of_nat ne_EventName.

Definition demo_bridge : Bridge FakeSpaces.t FakeArchiver.t FakePublisher.t PgFs.t :=
  mkBridge ∅ [] FakeSpaces.NewFakeSpaces None FakePublisher.NewFakePublisher PgFs.empty false 0.

Definition demo_event : Event := FromHeaders (headers_of demo_headers) "".

Lemma stopped_recording_is_queued_witness :
  bg_queue (Handle demo_env demo_event demo_bridge).1 = [mkJob "t1" "s1" "/tmp/recordings/t1_s1.wav" 0].
Proof.
  rewrite (stopped_recording_is_queued demo_env demo_bridge demo_event "/tmp/recordings" "t1" "s1");
    [reflexivity|done|done|reflexivity| |done|done].
  split; [split_and!; by compute_done|split; by compute_done|reflexivity].
Defined.

(** ** What the code does against its intent *)

(** The stop of an audio stream is published as its start: a name that contains
    disconnect contains connect, which is tested first. *)
Theorem audio_disconnect_is_published_as_start :
  audioStreamSubject "mod_audio_stream::disconnect" = Some SubjectAudioStreamStarted.
Proof. reflexivity. Qed.

(** The empty line that ends the headers is searched as CRLF CRLF first, in the
    body too: the lines of a body in that format become headers, here the
    tenant of the event. *)
Theorem body_lines_become_headers :
  let '(h, body) := parsePlainEventBody (plain_text false [("Event-Name", "CUSTOM"); ("tenant_id", "t1")]%string
                      ("tenant_id: t2" ++ CRLF ++ CRLF ++ "rest")) in
  header h "tenant_id" = "t2"%string /\ body = "rest"%string.
Proof. vm_compute. done. Qed.

(** The documented name {tenantID}_{sessionID}.wav is ambiguous for a tenant
    whose id has an underscore. *)
Theorem underscore_tenant_is_cut :
  parseFilename (recording_file "/tmp/recordings" "acme_homes" "s1") = ("acme", "homes_s1")%string.
Proof. reflexivity. Qed.
