(* ===== verification/SchedulerApi.v ===== *)
(** * scheduler: the in-memory dial queue and the HTTP handlers

    [FakeDialQueueStore] of [services/scheduler/internal/dispatcher/dispatcher.go]
    as a second implementation of [DialQueueStore], and the handlers of
    [internal/handler/handler.go] over any lead store, dial queue and telephony
    service.  A request body is [None] when it cannot be decoded; Go's iteration
    over the map of rows is [map_to_list]. *)

From S2P Require Import Prelude GoTime Kv GoStrings DialQueue Picker TelStore Limiter Routing Webhook.

Open Scope Z_scope.

(** ** The in-memory dial queue *)

Module FakeQueue.

(** Keyed by campaign and lead. *)
Record t := mk { rows : gmap string DialRow }.

Definition NewFakeDialQueueStore : t := mk ∅.

(** The rows in the order of the iteration. *)
Definition AllRows (f : t) : list DialRow := (map_to_list (rows f)).*2.

Definition RowByLeadID (f : t) (campaignID leadID : string) : option DialRow :=
  rows f !! (campaignID ++ ":" ++ leadID)%string.

Definition seed_row (m : gmap string DialRow) (r : DialRow) : gmap string DialRow :=
  match m !! Pgkv.seed_key r with
  | Some _ => m
  | None => <[Pgkv.seed_key r := r]> m
  end.

Definition SeedRows (f : t) (rs : list DialRow) : result t := Ok (mk (foldl seed_row (rows f) rs)).

Definition PendingRows (f : t) (campaignID : string) (now : Z) : result (list DialRow) :=
  Ok (List.filter (Pgkv.due campaignID now) (AllRows f)).

(** [fn] on the first row with the id. *)
Definition UpdateRow (f : t) (rowID : string) (fn : DialRow -> DialRow) : result t :=
  match List.find (fun kr => bool_decide (row_ID kr.2 = rowID)) (map_to_list (rows f)) with
  | Some (key, r) => Ok (mk (<[key := fn r]> (rows f)))
  | None => Err ("row " ++ rowID ++ " not found")%string
  end.

(** Unlike the durable queue, it does not count the attempt. *)
Definition MarkInFlight (f : t) (rowID providerCallID : string) : result t :=
  UpdateRow f rowID (fun r => set_ProviderCallID providerCallID (set_Status "in_flight" r)).

Definition MarkFailed (f : t) (rowID : string) : result t := UpdateRow f rowID (set_Status "failed").

Definition ActiveCampaignIDs (f : t) : result (list string) :=
  Ok (elements (list_to_set (row_CampaignID <$> List.filter Pgkv.has_work (AllRows f)) : gset string)).

Definition FindByProviderCallID (f : t) (providerCallID : string) : result (option DialRow) :=
  Ok (List.find (fun r => bool_decide (row_ProviderCallID r = providerCallID)) (AllRows f)).

Definition FindByLastOutcomeEventID (f : t) (eventID : string) : result (option DialRow) :=
  Ok (List.find (Pgkv.has_event eventID) (AllRows f)).

Definition CountsByStatus (f : t) (campaignID : string) : result (gmap string Z) :=
  Ok (count_by row_Status (List.filter (Pgkv.of_campaign campaignID) (AllRows f))).

Definition CountsByDisposition (f : t) (campaignID : string) : result (gmap string Z) :=
  Ok (count_by row_Disposition (List.filter (Pgkv.of_campaign campaignID) (AllRows f))).

Definition CountPendingWithAttempts (f : t) (campaignID : string) : result Z :=
  Ok (Z.of_nat (length (List.filter (fun r =>
    Pgkv.of_campaign campaignID r && bool_decide (row_Status r = "pending") && (0 <? row_Attempts r)) (AllRows f)))).

End FakeQueue.

#[export] Instance fake_queue_store : DialQueueStore FakeQueue.t := {
  SeedRows := FakeQueue.SeedRows;
  PendingRows := FakeQueue.PendingRows;
  MarkInFlight := FakeQueue.MarkInFlight;
  MarkFailed := FakeQueue.MarkFailed;
  ActiveCampaignIDs := FakeQueue.ActiveCampaignIDs;
  FindByProviderCallID := FakeQueue.FindByProviderCallID;
  FindByLastOutcomeEventID := FakeQueue.FindByLastOutcomeEventID;
  UpdateRow := FakeQueue.UpdateRow;
  CountsByStatus := FakeQueue.CountsByStatus;
  CountsByDisposition := FakeQueue.CountsByDisposition;
  CountPendingWithAttempts := FakeQueue.CountPendingWithAttempts
}.

(** ** Requests and answers *)

Record PickNextRequest := mkPickReq { pr_CampaignID : string; pr_WorkerID : string; pr_BatchSize : Z }.

Record MarkAttemptRequest := mkMarkReq { ma_CallSessionID : string; ma_Outcome : string }.

Record DemoDispatchLead := mkDemoLead { dl_ID : string; dl_ToNumber : string; dl_PriorityScore : Z }.

Record DemoDispatchRequest := mkDemoReq {
  dd_TenantID : string;
  dd_CampaignID : string;
  dd_WorkerID : string;
  dd_BatchSize : Z;
  dd_FromNumber : string;
  dd_Region : string;
  dd_MaxDuration : Z;
  dd_Demo : bool;
  dd_Leads : list DemoDispatchLead
}.

Record DemoDispatchAttempt := mkAttempt {
  at_LeadID : string;
  at_SessionID : string;
  at_Provider : string;
  at_ProviderCallID : string;
  at_Status : string
}.

Record CampaignProgressResponse := mkProgress {
  cp_CampaignID : string;
  cp_Total : Z;
  cp_Pending : Z;
  cp_InFlight : Z;
  cp_Placed : Z;
  cp_Connected : Z;
  cp_NoAnswerRetry : Z;
  cp_Failed : Z;
  cp_Suppressed : Z;
  cp_Done : Z
}.

(** An answer: the HTTP status, and the body. *)
Inductive sched_resp :=
| SErr (code : Z) (msg : string)
| SLeads (ls : list Lead)
| SNoContent
| SDepth (tenantID : string) (depth : Z)
| SDemo (campaignID : string) (attempted : Z) (calls : list DemoDispatchAttempt)
| SProgress (p : CampaignProgressResponse).

(** Stands for the message of the JSON decoder. *)
Definition bad_json : string := "invalid json".

(** ** The telephony service, as the handler calls it *)

(** The body of POST /v1/calls. *)
Record CallPayload := mkPayload {
  py_SessionID : string;
  py_TenantID : string;
  py_CampaignID : string;
  py_LeadID : string;
  py_FromNumber : string;
  py_ToNumber : string;
  py_Region : string;
  py_MaxDuration : Z;
  py_Demo : bool
}.

(** No answer, or a status with the text and the decoded body of the answer:
    session, provider, provider call and status. *)
Inductive tel_answer :=
| TelDown (e : string)
| TelStatus (code : Z) (text : string) (body : option (string * string * string * string)).

Class Telephony (N : Type) := CreateCall : N -> CallPayload -> N * tel_answer.

(** ** The handlers *)

Section Handlers.
Context {T Q N : Type} `{!LeadStore T} `{!DialQueueStore Q} `{!Telephony N}.

(** [sh_queue] is [None] without [WithDialQueue]; [sh_now] is the clock, by the
    number of the reading. *)
Record Handler := mkHandler {
  sh_store : T;
  sh_queue : option Q;
  sh_tel : N;
  sh_reads : nat
}.

Context (sh_now : nat -> Z).

Definition with_leads (h : Handler) (s : T) : Handler := mkHandler s (sh_queue h) (sh_tel h) (sh_reads h).
Definition with_tel (h : Handler) (n : N) : Handler := mkHandler (sh_store h) (sh_queue h) n (sh_reads h).
Definition read_clock (h : Handler) : Handler := mkHandler (sh_store h) (sh_queue h) (sh_tel h) (S (sh_reads h)).

Definition pickNext (body : option PickNextRequest) (h : Handler) : Handler * sched_resp :=
  match body with
  | None => (h, SErr 400 bad_json)
  | Some req =>
      match PickNext (sh_store h) defaultLeaseTTL (sh_now (sh_reads h)) (pr_CampaignID req) (pr_WorkerID req)
              (pr_BatchSize req) with
      | Err e => (read_clock h, SErr 500 e)
      | Ok (s, ls) => (with_leads (read_clock h) s, SLeads ls)
      end
  end.

Definition markAttempt (body : option MarkAttemptRequest) (h : Handler) : Handler * sched_resp :=
  match body with
  | None => (h, SErr 400 bad_json)
  | Some req =>
      match MarkAttempt (sh_store h) (sh_now (sh_reads h)) (ma_CallSessionID req) (ma_Outcome req) with
      | Err e => (read_clock h, SErr 500 e)
      | Ok s => (with_leads (read_clock h) s, SNoContent)
      end
  end.

Definition queueDepth (tenantID : string) (h : Handler) : Handler * sched_resp :=
  if is_empty tenantID then (h, SErr 400 "tenant_id required")
  else match GetQueueDepth (sh_store h) tenantID with
       | Err e => (h, SErr 500 e)
       | Ok n => (h, SDepth tenantID n)
       end.

Definition campaignProgress (campaignID : string) (h : Handler) : Handler * sched_resp :=
  if is_empty campaignID then (h, SErr 400 "campaign id required")
  else match sh_queue h with
  | None => (h, SErr 503 "dial queue not configured")
  | Some q =>
      match CountsByStatus q campaignID, CountsByDisposition q campaignID, CountPendingWithAttempts q campaignID with
      | Err e, _, _ => (h, SErr 500 ("count by status: " ++ e)%string)
      | Ok _, Err e, _ => (h, SErr 500 ("count by disposition: " ++ e)%string)
      | Ok _, Ok _, Err e => (h, SErr 500 ("pending with attempts: " ++ e)%string)
      | Ok st, Ok disp, Ok retry =>
          let pending := count_of st "pending" in
          let inFlight := count_of st "in_flight" in
          let done := count_of st "done" in
          let failed := count_of st "failed" in
          let suppressed := count_of st "suppressed" in
          (h, SProgress (mkProgress campaignID (pending + inFlight + done + failed + suppressed) pending inFlight
                (inFlight + done + failed) (count_of disp "answered") retry failed suppressed done))
      end
  end.

(** *** Demo dispatch *)

(** The request with its defaults; it is a demo whatever it says. *)
Definition demo_defaults (req : DemoDispatchRequest) : DemoDispatchRequest :=
  mkDemoReq (dd_TenantID req) (dd_CampaignID req) (first_nonempty (dd_WorkerID req) "demo-dispatcher")
    (if dd_BatchSize req <=? 0 then Z.of_nat (length (dd_Leads req)) else dd_BatchSize req)
    (dd_FromNumber req) (first_nonempty (dd_Region req) "IN")
    (if dd_MaxDuration req <=? 0 then 300 else dd_MaxDuration req) true (dd_Leads req).

Definition usable_lead (l : DemoDispatchLead) : bool := negb (is_empty (dl_ID l)) && negb (is_empty (dl_ToNumber l)).

(** [toNumber]: a later lead with the same id wins. *)
Definition numbers (req : DemoDispatchRequest) : gmap string string :=
  foldl (fun m l => <[dl_ID l := dl_ToNumber l]> m) ∅ (List.filter usable_lead (dd_Leads req)).

Definition demo_lead (req : DemoDispatchRequest) (l : DemoDispatchLead) : Lead :=
  mkLd (dl_ID l) (dd_CampaignID req) (dd_TenantID req) (dl_PriorityScore l) time_zero 0 LeadStatusPending time_zero "".

Definition demo_payload (req : DemoDispatchRequest) (lead : Lead) (to : string) : CallPayload :=
  mkPayload ("call-" ++ ld_ID lead)%string (dd_TenantID req) (dd_CampaignID req) (ld_ID lead) (dd_FromNumber req) to
    (dd_Region req) (dd_MaxDuration req) (dd_Demo req).

Definition createTelephonyCall (req : DemoDispatchRequest) (lead : Lead) (to : string) (n : N)
    : N * (string + DemoDispatchAttempt) :=
  let '(n, a) := CreateCall n (demo_payload req lead to) in
  (n, match a with
      | TelDown e => inl e
      | TelStatus code text body =>
          if 300 <=? code then inl ("telephony call failed: " ++ text)%string
          else match body with
               | None => inl bad_json
               | Some (session, provider, pcid, status) => inr (mkAttempt (ld_ID lead) session provider pcid status)
               end
      end).

(** The loop over the picked leads. *)
Fixpoint dispatch_leads (req : DemoDispatchRequest) (to : gmap string string) (leads : list Lead)
    (calls : list DemoDispatchAttempt) (h : Handler) : Handler * sched_resp :=
  match leads with
  | [] => (h, SDemo (dd_CampaignID req) (Z.of_nat (length calls)) calls)
  | lead :: leads =>
      let '(n, r) := createTelephonyCall req lead (default ""%string (to !! ld_ID lead)) (sh_tel h) in
      let h := with_tel h n in
      match r with
      | inl e => (h, SErr 502 e)
      | inr call =>
          match SetCallSession (sh_store h) (at_SessionID call) (ld_ID lead) with
          | Err e => (h, SErr 500 e)
          | Ok s => dispatch_leads req to leads (calls ++ [call]) (with_leads h s)
          end
      end
  end.

Definition demoDispatch (body : option DemoDispatchRequest) (h : Handler) : Handler * sched_resp :=
  match body with
  | None => (h, SErr 400 bad_json)
  | Some req =>
      if is_empty (dd_TenantID req) || is_empty (dd_CampaignID req)
      then (h, SErr 400 "tenant_id and campaign_id required")
      else
        let req := demo_defaults req in
        let leads := demo_lead req <$> List.filter usable_lead (dd_Leads req) in
        if bool_decide (leads = []) then (h, SErr 400 "at least one lead with id and to_number required")
        else match AddLeads (sh_store h) leads with
        | Err e => (h, SErr 500 e)
        | Ok s =>
            let h := with_leads h s in
            match PickNext s defaultLeaseTTL (sh_now (sh_reads h)) (dd_CampaignID req) (dd_WorkerID req)
                    (dd_BatchSize req) with
            | Err e => (read_clock h, SErr 500 e)
            | Ok (s, picked) => dispatch_leads req (numbers req) picked [] (with_leads (read_clock h) s)
            end
        end
  end.

End Handlers.
Arguments Handler : clear implicits.
Arguments mkHandler {T Q N}.
Arguments sh_store {T Q N} h.
Arguments sh_queue {T Q N} h.
Arguments sh_tel {T Q N} h.
Arguments sh_reads {T Q N} h.

(** ** The telephony adapter behind the interface *)

(** The service with the number of requests it has had, which reads its clock. *)
Record TelService (T L : Type) := mkTelService { ts_service : Service T L; ts_requests : nat }.
Arguments mkTelService {T L}.
Arguments ts_service {T L} t.
Arguments ts_requests {T L} t.

Definition call_request (p : CallPayload) : CallRequest :=
  mkReq (py_SessionID p) (py_TenantID p) (py_FromNumber p) (py_ToNumber p) "" (py_Region p) (py_MaxDuration p) (py_Demo p).

Definition create_call {T L} `{TelStore T, Limiter L} (env : Env) (clock : nat -> Z) (n : TelService T L) (p : CallPayload)
    : TelService T L * tel_answer :=
  let '(sv, (code, session)) := createCall env (ts_service n) (clock (ts_requests n)) (call_request p) in
  (mkTelService sv (S (ts_requests n)),
   TelStatus code "" ((fun s => (cs_ID s, cs_ProviderName s, cs_ProviderCallID s, cs_Status s)) <$> session)).
