(* ===== verification/SchedulerApiSafety.v ===== *)
(** * scheduler: the handlers report what is there, and demos stay demos

    The in-memory dial queue answers like the durable one; the progress of a
    campaign counts every row once; a demo dispatch, composed with the telephony
    adapter, reaches the mock provider only. *)

From S2P Require Import Prelude GoTime Float64 Kv GoStrings DialQueue Compliance RateLimit Dispatcher.
From S2P Require Import DispatcherSafety DispatcherQueue Picker TelStore Limiter Routing RoutingSafety Webhook SchedulerApi.

Open Scope Z_scope.

(** ** The two dial queues *)

#[export] Program Instance fake_queue_laws : DialQueueLaws FakeQueue.t.
Next Obligation.
  intros f c now rows. simpl. unfold FakeQueue.PendingRows. intros [= <-].
  apply Forall_forall. intros r Hr. apply list_elem_of_In, filter_In in Hr as [_ Hr].
  unfold Pgkv.due in Hr. go_bool. auto.
Qed.

(** The in-memory queue holds the rows of a well-formed durable queue. *)
Record same_rows (p : kv DialRow) (f : FakeQueue.t) : Prop := {
  sr_up : kv_up p = true;
  sr_keys : NoDup (kv_rows p).*1;
  sr_ids : Forall (fun kr => row_ID kr.2 = kr.1) (kv_rows p);
  sr_rows : FakeQueue.rows f = kv_map p
}.

Lemma same_rows_perm p f : same_rows p f -> FakeQueue.AllRows f ≡ₚ (kv_rows p).*2.
Proof.
  intros [_ Hk _ Hr]. unfold FakeQueue.AllRows. rewrite Hr. unfold kv_map. by rewrite (map_to_list_to_map (kv_rows p)).
Qed.

(** Counting does not depend on the order. *)
Lemma count_by_perm g l l' : l ≡ₚ l' -> count_by g l = count_by g l'.
Proof.
  induction 1 as [|x l l' _ IH|x y l|l l1 l' _ IH1 _ IH2]; simpl; [done| | |by etrans].
  - by rewrite IH.
  - destruct (decide (g x = g y)) as [->|Hne].
    + done.
    + rewrite !lookup_insert_ne by done. by apply insert_insert_ne.
Qed.

Definition res_perm {A} (r r' : result (list A)) : Prop :=
  match r, r' with Ok l, Ok l' => l ≡ₚ l' | Err e, Err e' => e = e' | _, _ => False end.

(** Every question has the same answer, lists up to their order. *)
Lemma same_rows_answers p f c now :
  same_rows p f ->
  res_perm (PendingRows p c now) (PendingRows f c now) /\
  res_perm (ActiveCampaignIDs p) (ActiveCampaignIDs f) /\
  CountsByStatus p c = CountsByStatus f c /\
  CountsByDisposition p c = CountsByDisposition f c /\
  CountPendingWithAttempts p c = CountPendingWithAttempts f c.
Proof.
  intros Hs. pose proof (same_rows_perm p f Hs) as Hp. symmetry in Hp.
  simpl. unfold Pgkv.PendingRows, Pgkv.ActiveCampaignIDs, Pgkv.CountsByStatus, Pgkv.CountsByDisposition,
    Pgkv.CountPendingWithAttempts, kv_list. rewrite (sr_up _ _ Hs). simpl.
  split_and!.
  - by apply filter_perm.
  - unfold FakeQueue.ActiveCampaignIDs. f_equiv. intros x. rewrite !elem_of_list_to_set.
    by rewrite (filter_perm Pgkv.has_work _ _ Hp).
  - unfold FakeQueue.CountsByStatus. f_equal. by apply count_by_perm, filter_perm.
  - unfold FakeQueue.CountsByDisposition. f_equal. by apply count_by_perm, filter_perm.
  - unfold FakeQueue.CountPendingWithAttempts. f_equal. f_equal. by apply Permutation_length, filter_perm.
Qed.

(** *** Changes *)

Lemma find_row p f id : same_rows p f ->
  List.find (fun kr => bool_decide (row_ID kr.2 = id)) (map_to_list (FakeQueue.rows f)) =
  (fun r => (id, r)) <$> rows_get id (kv_rows p).
Proof.
  intros [_ Hk Hi Hr]. rewrite Hr.
  assert (Hin : forall k r, (k, r) ∈ map_to_list (kv_map p) -> row_ID r = k /\ rows_get k (kv_rows p) = Some r).
  { intros k r Hkr. apply elem_of_map_to_list in Hkr. rewrite kv_map_lookup in Hkr. split; [|done].
    apply rows_get_in in Hkr. by apply (proj1 (Forall_forall _ _) Hi (k, r)). }
  destruct (List.find _ _) as [[k r]|] eqn:E.
  - apply find_some in E as [E Hid]. apply bool_decide_eq_true in Hid. simpl in Hid.
    apply list_elem_of_In, Hin in E as [Hrk Hg]. rewrite Hid in Hrk. subst k. by rewrite Hg.
  - destruct (rows_get id (kv_rows p)) as [r|] eqn:Hg; [|done]. exfalso.
    assert (Hm : (id, r) ∈ map_to_list (kv_map p)) by (apply elem_of_map_to_list; by rewrite kv_map_lookup).
    pose proof (find_none _ _ E (id, r) (proj1 (list_elem_of_In _ _) Hm)) as Hn. simpl in Hn.
    apply bool_decide_eq_false in Hn. apply Hn. by apply Hin.
Qed.

(** A change that leaves the id of a row alone. *)
Definition keeps_id (fn : DialRow -> DialRow) : Prop := forall r, row_ID (fn r) = row_ID r.

Definition same_result (p : result (kv DialRow)) (f : result FakeQueue.t) : Prop :=
  match p, f with
  | Ok p, Ok f => same_rows p f
  | Err e, Err e' => e = e'
  | _, _ => False
  end.

Lemma rows_put_ids id r (l : list (string * DialRow)) :
  row_ID r = id -> Forall (fun kr => row_ID kr.2 = kr.1) l -> Forall (fun kr => row_ID kr.2 = kr.1) (rows_put id r l).
Proof. intros Hr Hl. by apply rows_put_Forall. Qed.

Lemma same_rows_put p f k r : same_rows p f -> row_ID r = k ->
  same_rows (mkKv (rows_put k r (kv_rows p)) true) (FakeQueue.mk (<[k := r]> (FakeQueue.rows f))).
Proof.
  intros [Hu Hk Hi Hr] Hid. split; simpl; [done|by apply rows_put_NoDup|by apply rows_put_ids|].
  rewrite Hr, kv_map_put. by destruct p.
Qed.

Lemma same_rows_update p f id fn : same_rows p f -> keeps_id fn -> same_result (UpdateRow p id fn) (UpdateRow f id fn).
Proof.
  intros Hs Hf. simpl. unfold Pgkv.UpdateRow, Pgkv.updateRow, FakeQueue.UpdateRow, kv_get, kv_put.
  rewrite (sr_up _ _ Hs). rewrite (find_row p f id Hs). simpl. destruct (rows_get id (kv_rows p)) as [r|] eqn:Hg; simpl; [|done].
  apply same_rows_put; [done|]. rewrite Hf. apply rows_get_in in Hg.
  by apply (proj1 (Forall_forall _ _) (sr_ids _ _ Hs) (id, r)).
Qed.

Lemma same_rows_seed rows : Forall (fun r => row_ID r = Pgkv.seed_key r) rows ->
  forall p f, same_rows p f -> same_result (SeedRows p rows) (SeedRows f rows).
Proof.
  induction 1 as [|r rows Hr _ IH]; intros p f Hs; [by destruct f|]. simpl. unfold kv_get, kv_put. rewrite (sr_up _ _ Hs). simpl.
  assert (Hid : set_ID (Pgkv.seed_key r) r = r) by (destruct r; simpl in *; by rewrite Hr).
  rewrite Hid. unfold FakeQueue.SeedRows. simpl. unfold FakeQueue.seed_row at 2. rewrite (sr_rows _ _ Hs), kv_map_lookup.
  destruct (rows_get (Pgkv.seed_key r) (kv_rows p)) as [r0|] eqn:Hg.
  - rewrite <- (sr_rows _ _ Hs). apply IH. done.
  - pose proof (same_rows_put p f (Pgkv.seed_key r) r Hs Hr) as Hs'. specialize (IH _ _ Hs').
    simpl in IH. unfold FakeQueue.SeedRows in IH. simpl in IH. rewrite (sr_rows _ _ Hs) in IH. exact IH.
Qed.

(** A change of the queue, other than by a call. *)
Inductive queue_op :=
| QSeed (rows : list DialRow)
| QFail (id : string)
| QUpdate (id : string) (fn : DialRow -> DialRow).

Definition op_ok (op : queue_op) : Prop :=
  match op with
  | QSeed rows => Forall (fun r => row_ID r = Pgkv.seed_key r) rows
  | QFail _ => True
  | QUpdate _ fn => keeps_id fn
  end.

(** A change that fails leaves the queue as it was. *)
Definition queue_step {Q} `{DialQueueStore Q} (q : Q) (op : queue_op) : Q :=
  match (match op with
         | QSeed rows => SeedRows q rows
         | QFail id => MarkFailed q id
         | QUpdate id fn => UpdateRow q id fn
         end) with
  | Ok q' => q'
  | Err _ => q
  end.

Lemma same_result_step p f (r : result (kv DialRow)) (r' : result FakeQueue.t) :
  same_rows p f -> same_result r r' ->
  same_rows (match r with Ok q => q | Err _ => p end) (match r' with Ok q => q | Err _ => f end).
Proof. intros Hs. destruct r, r'; simpl; done. Qed.

(** The in-memory queue and the durable queue answer alike after any changes
    that seed, fail or update rows. *)
Theorem dial_queues_agree ops c now : Forall op_ok ops ->
  let p := foldl queue_step (kv_empty : kv DialRow) ops in
  let f := foldl queue_step FakeQueue.NewFakeDialQueueStore ops in
  res_perm (PendingRows p c now) (PendingRows f c now) /\
  res_perm (ActiveCampaignIDs p) (ActiveCampaignIDs f) /\
  CountsByStatus p c = CountsByStatus f c /\
  CountsByDisposition p c = CountsByDisposition f c /\
  CountPendingWithAttempts p c = CountPendingWithAttempts f c.
Proof.
  intros Hops. apply same_rows_answers.
  assert (H0 : same_rows (kv_empty : kv DialRow) FakeQueue.NewFakeDialQueueStore).
  { split; [done|apply NoDup_nil_2|apply Forall_nil_2|done]. }
  revert H0. generalize (kv_empty : kv DialRow) FakeQueue.NewFakeDialQueueStore.
  induction Hops as [|op ops Hop _ IH]; intros p f Hs; [done|]. simpl. apply IH.
  unfold queue_step. destruct op as [rows|id|id fn]; apply same_result_step; try done.
  - by apply same_rows_seed.
  - apply (same_rows_update p f id (set_Status "failed") Hs). by intros [].
  - by apply same_rows_update.
Qed.

(** A call is where they differ: only the durable queue counts it. *)
Theorem fake_queue_counts_no_attempt :
  let row := mkRow "c:l" "c" "t" "l" "+91" "" "" 0 "pending" 0 "" "" None in
  let p := default kv_empty (match Pgkv.SeedRows kv_empty [row] with
             Ok p => match Pgkv.MarkInFlight p "c:l" "pc" with Ok p => Some p | _ => None end | _ => None end) in
  let f := match FakeQueue.SeedRows FakeQueue.NewFakeDialQueueStore [row] with
             Ok f => match FakeQueue.MarkInFlight f "c:l" "pc" with Ok f => f | _ => f end
           | _ => FakeQueue.NewFakeDialQueueStore end in
  row_Attempts <$> (kv_rows p).*2 = [1] /\ row_Attempts <$> FakeQueue.AllRows f = [0].
Proof. vm_compute. done. Qed.

(** ** The progress of a campaign *)

Lemma count_of_by g l k :
  count_of (count_by g l) k = Z.of_nat (length (List.filter (fun r => bool_decide (g r = k)) l)).
Proof.
  unfold count_of. induction l as [|r l IH]; simpl; [done|]. rewrite lookup_insert. case_decide as Hk.
  - subst k. rewrite IH. rewrite bool_decide_true by done. simpl. lia.
  - by rewrite bool_decide_false.
Qed.

Definition statuses : list string := ["pending"; "in_flight"; "done"; "failed"; "suppressed"].

Definition count_status (l : list DialRow) (s : string) : Z :=
  Z.of_nat (length (List.filter (fun r => bool_decide (row_Status r = s)) l)).

Lemma count_statuses l : Forall (fun r => row_Status r ∈ statuses) l ->
  count_status l "pending" + count_status l "in_flight" + count_status l "done" + count_status l "failed"
  + count_status l "suppressed" = Z.of_nat (length l).
Proof.
  induction 1 as [|r l Hr _ IH]; [done|]. unfold count_status in *. simpl length. rewrite Nat2Z.inj_succ, <- IH.
  simpl. unfold statuses in Hr. rewrite !elem_of_cons, elem_of_nil in Hr.
  destruct Hr as [->|[->|[->|[->|[->|[]]]]]]; repeat (rewrite bool_decide_false by done);
    rewrite bool_decide_true by done; simpl length; lia.
Qed.

Lemma filter_le {A} (f g : A -> bool) l : (forall x, x ∈ l -> f x = true -> g x = true) ->
  (length (List.filter f l) <= length (List.filter g l))%nat.
Proof.
  induction l as [|x l IH]; intros Hfg; simpl; [lia|]. assert (IH' := IH (fun y Hy => Hfg y (list_elem_of_further _ _ _ Hy))).
  specialize (Hfg x (list_elem_of_here _ _)). destruct (f x); [rewrite Hfg by done; simpl; lia|]. destruct (g x); simpl; lia.
Qed.

(** The rows of a campaign in the durable queue. *)
Definition campaign_rows (q : kv DialRow) (c : string) : list DialRow := List.filter (Pgkv.of_campaign c) (kv_rows q).*2.

Lemma campaign_rows_ok q c : QInv q -> Forall status_ok (campaign_rows q c).
Proof.
  intros [_ HF]. apply Forall_forall. intros r Hr. apply list_elem_of_In, filter_In in Hr as [Hr _].
  apply list_elem_of_In, list_elem_of_fmap in Hr as ([k r'] & -> & Hr). by apply (proj1 (Forall_forall _ _) HF) in Hr as (_ & _ & _ & ?).
Qed.

(** In a well-formed queue, as every reachable one is, the progress of a
    campaign counts each of its rows exactly once, and its figures fit
    together. *)
Theorem progress_counts_every_row {T N} (h : Handler T (kv DialRow) N) q c :
  sh_queue h = Some q -> kv_up q = true -> QInv q -> c <> ""%string ->
  exists p, campaignProgress c h = (h, SProgress p) /\
    cp_Total p = Z.of_nat (length (campaign_rows q c)) /\
    cp_Total p = cp_Pending p + cp_Placed p + cp_Suppressed p /\
    cp_Placed p = cp_InFlight p + cp_Done p + cp_Failed p /\
    cp_Done p <= cp_Connected p <= cp_Total p /\ cp_NoAnswerRetry p <= cp_Pending p.
Proof.
  intros Hq Hu Hinv Hc. unfold campaignProgress. rewrite Hq. simpl.
  unfold Pgkv.CountsByStatus, Pgkv.CountsByDisposition, Pgkv.CountPendingWithAttempts, kv_list. rewrite Hu. simpl.
  assert (is_empty c = false) as -> by (unfold is_empty; by apply bool_decide_false).
  eexists. split; [done|]. simpl. rewrite !count_of_by. fold (campaign_rows q c).
  pose proof (campaign_rows_ok q c Hinv) as Hok. set (l := campaign_rows q c) in *.
  assert (Hs : Forall (fun r => row_Status r ∈ statuses) l).
  { eapply Forall_impl; [exact Hok|]. intros r [(_ & [->|[->| ->]])|(_ & [->|[-> _]])]; unfold statuses; set_solver. }
  pose proof (count_statuses l Hs) as Ht. unfold count_status in Ht. split_and!; try lia.
  - apply Nat2Z.inj_le, filter_le. intros r Hr Hd. apply bool_decide_eq_true in Hd. apply bool_decide_eq_true.
    apply (proj1 (Forall_forall _ _) Hok) in Hr as [(_ & Hx)|(_ & [Hx|[_ Hx]])]; [|congruence|done].
    rewrite Hd in Hx. naive_solver.
  - rewrite Ht. apply Nat2Z.inj_le, List.filter_length_le.
  - apply Nat2Z.inj_le. unfold l, campaign_rows. clear. induction (kv_rows q).*2 as [|r rs IH]; simpl; [lia|].
    destruct (Pgkv.of_campaign c r); simpl; [|done]. destruct (bool_decide (row_Status r = "pending")); simpl; [|done].
    destruct (0 <? row_Attempts r); simpl; lia.
Qed.

(** ** Demo dispatch, with the telephony adapter *)

Section Demo.
Context {T Q S L : Type} `{!LeadStore T} `{!DialQueueStore Q} `{!TelStore S} `{!Limiter L}.
Context (env : Env) (clock : nat -> Z) (sh_now : nat -> Z).

#[local] Instance telephony_adapter : Telephony (TelService S L) := create_call env clock.

Abbreviation H := (Handler T Q (TelService S L)).

Definition placed (n : TelService S L) : list (string * CallRequest) := rt_placed (sv_router (ts_service n)).
Definition slots (n : TelService S L) : L := rt_limiter (sv_router (ts_service n)).

(** Only demo calls to the mock provider were placed, and no slot was taken. *)
Record mock_only (tenantID : string) (n n' : TelService S L) : Prop := {
  mo_slots : slots n' = slots n;
  mo_placed : exists new, placed n' = placed n ++ new /\
    Forall (fun c => c.1 = "mock"%string /\ rq_Demo c.2 = true /\ rq_TenantID c.2 = tenantID) new
}.

#[local] Instance mock_only_preorder t : PreOrder (mock_only t).
Proof.
  split.
  - intros n. split; [done|]. exists []. by rewrite app_nil_r.
  - intros n1 n2 n3 [S1 (l1 & E1 & F1)] [S2 (l2 & E2 & F2)]. split; [congruence|].
    exists (l1 ++ l2). rewrite E2, E1, (assoc_L (++)). split; [done|]. by apply Forall_app.
Qed.

Lemma create_call_mock n p : py_Demo p = true -> mock_only (py_TenantID p) n (create_call env clock n p).1.
Proof.
  intros Hd. unfold create_call, createCall. set (now := clock (ts_requests n)).
  assert (Hp := demo_calls_reach_only_mock env (sv_router (ts_service n)) now (call_request p)).
  simpl in Hp. rewrite Hd in Hp. specialize (Hp eq_refl). simpl.
  assert (Hr : forall x, mock_only (py_TenantID p) n (mkTelService (ts_service n) x)).
  { intros x. split; [done|]. exists []. by rewrite app_nil_r. }
  destruct (is_empty (py_TenantID p)); [apply Hr|]. destruct (is_empty (py_ToNumber p)); [apply Hr|].
  destruct (PlaceCall env (sv_router (ts_service n)) now (call_request p)) as [r' res]. simpl in *.
  destruct Hp as [Hpl Hlm]. destruct res as [session|e]; (split; [exact Hlm|]); unfold placed; simpl;
    (destruct Hpl as [->|E]; [exists []; by rewrite app_nil_r|]; eexists; split; [exact E|]; by repeat constructor).
Qed.

Lemma dispatch_leads_mock req to leads : dd_Demo req = true -> forall calls (h : H),
  mock_only (dd_TenantID req) (sh_tel h) (sh_tel (dispatch_leads req to leads calls h).1).
Proof.
  intros Hd. induction leads as [|lead leads IH]; intros calls h; simpl; [reflexivity|].
  unfold createTelephonyCall, CreateCall, telephony_adapter.
  pose proof (create_call_mock (sh_tel h) (demo_payload req lead (default ""%string (to !! ld_ID lead))) Hd) as Hm.
  destruct (create_call env clock (sh_tel h) _) as [n a]. simpl in *.
  destruct a as [e|code text body]; [exact Hm|]. destruct (300 <=? code); [exact Hm|].
  destruct body as [[[[session provider] pcid] status]|]; [|exact Hm]. simpl.
  destruct (SetCallSession _ _ _) as [s|e]; [|exact Hm]. etrans; [exact Hm|].
  exact (IH (calls ++ [mkAttempt (ld_ID lead) session provider pcid status]) (with_leads (with_tel h n) s)).
Qed.

(** A demo dispatch, whatever its body says and whatever fails, makes the
    telephony adapter place demo calls of its tenant with the mock provider
    only, and takes no slot of the concurrency limit. *)
Theorem demo_dispatch_reaches_only_mock req (h : H) :
  mock_only (dd_TenantID req) (sh_tel h) (sh_tel (demoDispatch sh_now (Some req) h).1).
Proof.
  unfold demoDispatch. destruct (is_empty (dd_TenantID req) || is_empty (dd_CampaignID req)); [reflexivity|].
  case_bool_decide; [reflexivity|]. destruct (AddLeads _ _) as [s|e]; [|reflexivity].
  destruct (PickNext _ _ _ _ _ _) as [[s' pk]|e]; [|reflexivity].
  exact (dispatch_leads_mock (demo_defaults req) (numbers (demo_defaults req)) pk eq_refl []
    (with_leads (read_clock (with_leads h s)) s')).
Qed.

End Demo.

(** ** Witnesses and findings *)

Lemma dial_queues_agree_witness :
  let row := mkRow "c:l" "c" "t" "l" "+91" "" "" 0 "pending" 0 "" "" None in
  let ops := [QSeed [row]; QFail "c:l"] in
  CountsByStatus (foldl queue_step (kv_empty : kv DialRow) ops) "c" =
  CountsByStatus (foldl queue_step FakeQueue.NewFakeDialQueueStore ops) "c".
Proof.
  intros row ops. apply (dial_queues_agree ops "c" 0). by repeat constructor.
Defined.

Lemma progress_counts_every_row_witness :
  let row := mkRow "c:l" "c" "t" "l" "+91" "" "" 0 "pending" 0 "" "" None in
  let q := mkKv [("c:l"%string, row)] true in
  exists p, campaignProgress (N := unit) "c" (mkHandler FakeStore.NewFake (Some q) tt 0) =
    (mkHandler FakeStore.NewFake (Some q) tt 0, SProgress p) /\ cp_Total p = 1.
Proof.
  intros row q.
  destruct (progress_counts_every_row (mkHandler FakeStore.NewFake (Some q) tt 0) q "c")
    as (p & E & Ht & _); [done|done| |done|by exists p].
  split; [apply NoDup_singleton|]. constructor; [|constructor]. repeat split; simpl; try lia. left. split; [done|]. by left.
Defined.

(** The picker hands out any pending lead of the campaign: a demo dispatch for
    one lead may take another, left from before, for which the request has no
    number, and then fails without calling the lead it was asked for. *)
Definition answering : Telephony (list string) := fun n p =>
  if is_empty (py_ToNumber p) then (n, TelStatus 400 "to_number required" None)
  else (n ++ [py_LeadID p], TelStatus 202 "" (Some (py_SessionID p, "mock", "m-1", "queued")%string)).

Theorem demo_dispatch_picks_other_lead :
  let old := mkLd "old" "c" "t" 9 time_zero 1 LeadStatusPending time_zero "" in
  let h : Handler FakeStore.t FakeQueue.t (list string) :=
    mkHandler (FakeStore.mk {["old"%string := old]} ∅) None [] 0 in
  let req := mkDemoReq "t" "c" "" 0 "" "" 0 false [mkDemoLead "new" "+911" 1] in
  let '(h', r) := @demoDispatch _ _ _ _ answering (fun _ => hour) (Some req) h in
  r = SErr 502 "telephony call failed: to_number required" /\ sh_tel h' = [] /\
  ld_Status <$> FakeStore.leads (sh_store h') !! "old"%string = Some LeadStatusProcessing.
Proof. vm_compute. done. Qed.
