(* ===== verification/CampaignApi.v ===== *)
(** * campaign: the HTTP handlers

    [services/campaign/internal/handler/handler.go] over any store.  A request
    carries the tenant the gateway put in X-Tenant-ID, which may be missing, and
    a body, or the error of the decoder; the llm-router behind the extraction is
    a function of the URL and the text. *)

From S2P Require Import Prelude GoTime Float64 Kv GoStrings Campaign CampaignSafety.

Open Scope Z_scope.

(** An answer: the HTTP status and the body. *)
Inductive camp_resp :=
| CErr (code : Z) (msg : string)
| CCampaign (code : Z) (c : Campaign)
| CCampaigns (cs : list Campaign)
| CAttached (n : Z)
| CLeads (campaignID : string) (ls : list CampaignLead)
| CPreflight (r : option PreflightResult)
| CStatus (status : string)
| CHealth (h : CampaignHealth)
| CLimits (l : CampaignLimits)
| CContext (c : CampaignContext).

(** What becomes of the request to the llm-router: it cannot be built, it is not
    answered, the answer breaks off, or it has a status, a body, and the context
    decoded from that body. *)
Inductive llm_answer :=
| LlmBadURL (e : string)
| LlmDown (e : string)
| LlmCut (e : string)
| LlmStatus (code : Z) (text : string) (ctx : result CampaignContext).

Definition set_tenant (c : Campaign) (tenantID : string) : Campaign :=
  mkCamp (ca_ID c) (ca_Name c) (ca_ProjectID c) tenantID (ca_KbVersionID c) (ca_ScriptVersionID c)
    (ca_PromptVersionID c) (ca_SourceFilter c) (ca_Schedule c) (ca_Status c) (ca_PauseReason c) (ca_Context c)
    (ca_CreatedAt c) (ca_UpdatedAt c).

Definition set_limits_id (l : CampaignLimits) (id : string) : CampaignLimits :=
  mkLim id (li_DailyCallCap l) (li_ConcurrentCap l) (li_HourlyCallCap l) (li_RetryMax l) (li_RetryBusyMin l)
    (li_RetryNoAnswerMin l) (li_CostCapINR l) (li_MaxCallSeconds l) (li_CallWindowStartHour l)
    (li_CallWindowEndHour l) (li_Timezone l) (li_UpdatedAt l).

Section Handlers.
Context {T : Type} `{!CampaignStore T}.

(** The service methods that only read. *)
Definition ListLeads (s : T) (campaignID : string) : result (list CampaignLead) := ListCampaignLeads s campaignID.
Definition GetCampaignHealth (s : T) (campaignID : string) : result CampaignHealth := GetLatestHealth s campaignID.

Definition createCampaign (s : T) (now : Z) (uid header : string) (body : result Campaign) : T * camp_resp :=
  match body with
  | Err e => (s, CErr 400 e)
  | Ok c =>
      let c := if is_empty header then c else set_tenant c header in
      let '(s, r) := CreateCampaign s now uid c in
      (s, match r with Err e => CErr 400 e | Ok c => CCampaign 201 c end)
  end.

Definition listCampaigns (s : T) (header query : string) : T * camp_resp :=
  (s, match ListCampaigns s (first_nonempty query header) with
      | Err e => CErr 500 e
      | Ok cs => CCampaigns cs
      end).

Definition getCampaign (s : T) (id : string) : T * camp_resp :=
  (s, match GetCampaign s id with Err e => CErr 404 e | Ok c => CCampaign 200 c end).

Definition attachLeads (s : T) (now : Z) (id : string) (body : result (list string)) : T * camp_resp :=
  match body with
  | Err e => (s, CErr 400 e)
  | Ok leadIDs =>
      let '(s, e) := AttachLeads s now id leadIDs in
      (s, match e with Some e => CErr 400 e | None => CAttached (Z.of_nat (length leadIDs)) end)
  end.

Definition listLeads (s : T) (id : string) : T * camp_resp :=
  (s, match ListLeads s id with Err e => CErr 500 e | Ok ls => CLeads id ls end).

Definition launchCampaign (disabled : bool) (s : T) (now : Z) (id : string) : T * camp_resp :=
  let '(s, (result, e)) := LaunchCampaign disabled s now id in
  (s, match e with Some e => CErr 422 e | None => CPreflight result end).

(** A body that cannot be decoded leaves the reason empty. *)
Definition pauseCampaign (s : T) (now : Z) (id : string) (body : result string) : T * camp_resp :=
  let '(s, e) := PauseCampaign s now id (match body with Ok reason => reason | Err _ => "" end)%string in
  (s, match e with Some e => CErr 500 e | None => CStatus StatusPaused end).

Definition resumeCampaign (s : T) (now : Z) (id : string) : T * camp_resp :=
  let '(s, e) := ResumeCampaign s now id in
  (s, match e with Some e => CErr 500 e | None => CStatus StatusActive end).

Definition archiveCampaign (s : T) (now : Z) (id : string) : T * camp_resp :=
  let '(s, e) := ArchiveCampaign s now id in
  (s, match e with Some e => CErr 500 e | None => CStatus StatusArchived end).

Definition getCampaignHealth (s : T) (id : string) : T * camp_resp :=
  (s, match GetCampaignHealth s id with Err e => CErr 500 e | Ok h => CHealth h end).

Definition setCampaignLimits (s : T) (now : Z) (id : string) (body : result CampaignLimits) : T * camp_resp :=
  match body with
  | Err e => (s, CErr 400 e)
  | Ok l =>
      let l := set_limits_id l id in
      let '(s, e) := SetCampaignLimits s now l in
      (s, match e with Some e => CErr 400 e | None => CLimits (set_limits_time l now) end)
  end.

Definition getCampaignLimits (s : T) (id : string) : T * camp_resp :=
  (s, match GetLimits s id with Err e => CErr 500 e | Ok l => CLimits l end).

Definition extractCampaignContext (llmRouterURL : string) (llm : string -> string -> llm_answer) (s : T)
    (body : result string) : T * camp_resp :=
  (s, match body with
      | Err e => CErr 400 e
      | Ok text =>
          if is_empty text then CErr 400 "text is required"
          else match llm (first_nonempty llmRouterURL "http://llm-router:8111" ++ "/v1/llm/extract")%string text with
          | LlmBadURL e => CErr 500 ("failed to build upstream request: " ++ e)%string
          | LlmDown e => CErr 502 ("llm-router unreachable: " ++ e)%string
          | LlmCut e => CErr 502 ("failed to read llm-router response: " ++ e)%string
          | LlmStatus code raw ctx =>
              if negb (code =? 200)
              then CErr 502 ("llm-router returned " ++ itoa (Z.to_nat code) ++ ": " ++ raw)%string
              else match ctx with
                   | Err e => CErr 502 ("invalid response from llm-router: " ++ e)%string
                   | Ok c => CContext c
                   end
          end
      end).

(** ** The routes *)

Inductive camp_req :=
| RExtract (body : result string)
| RCreate (header : string) (body : result Campaign)
| RList (header query : string)
| RGet (id : string)
| RAttach (id : string) (body : result (list string))
| RLeads (id : string)
| RLaunch (id : string)
| RPause (id : string) (body : result string)
| RResume (id : string)
| RArchive (id : string)
| RHealth (id : string)
| RSetLimits (id : string) (body : result CampaignLimits)
| RGetLimits (id : string).

(** CAMPAIGN_PREFLIGHT_DISABLED, the router's URL and the router. *)
Record CampEnv := mkCampEnv { e_disabled : bool; e_llmURL : string; e_llm : string -> string -> llm_answer }.

(** One request at the time [now]; [uid] is the id drawn for it. *)
Definition serve (env : CampEnv) (s : T) (now : Z) (uid : string) (r : camp_req) : T * camp_resp :=
  match r with
  | RExtract body => extractCampaignContext (e_llmURL env) (e_llm env) s body
  | RCreate header body => createCampaign s now uid header body
  | RList header query => listCampaigns s header query
  | RGet id => getCampaign s id
  | RAttach id body => attachLeads s now id body
  | RLeads id => listLeads s id
  | RLaunch id => launchCampaign (e_disabled env) s now id
  | RPause id body => pauseCampaign s now id body
  | RResume id => resumeCampaign s now id
  | RArchive id => archiveCampaign s now id
  | RHealth id => getCampaignHealth s id
  | RSetLimits id body => setCampaignLimits s now id body
  | RGetLimits id => getCampaignLimits s id
  end.

End Handlers.

(** ** What the handlers keep *)

(** The rest of what the handlers need of a store. *)
Class CampaignFrame (T : Type) `{CampaignLaws T} := {
  cs_missing s now id st r : cs_ok s -> cs_camp s id = None ->
    UpdateCampaignStatus s now id st r = (s, Some "campaign not found"%string);
  cs_create s now uid c : cs_ok s -> exists s' c', StoreCreateCampaign s now uid c = (s', Ok c') /\ cs_ok s' /\
    ca_ID c' = or_new (ca_ID c) uid /\ ca_TenantID c' = ca_TenantID c /\
    ca_Status c' = (if is_empty (ca_Status c) then StatusDraft else ca_Status c) /\
    forall id, cs_camp s' id = if decide (ca_ID c' = id) then Some c' else cs_camp s id;
  cs_attach s now id ls : cs_ok s -> cs_ok (StoreAttachLeads s now id ls).1 /\
    forall i, cs_camp (StoreAttachLeads s now id ls).1 i = cs_camp s i;
  cs_limits s now l : cs_ok s -> cs_ok (SetLimits s now l).1 /\ forall i, cs_camp (SetLimits s now l).1 i = cs_camp s i
}.

#[export] Program Instance fake_campaign_frame : CampaignFrame FakeCamp.t.
Next Obligation. intros f now id st r _ Hn. simpl in *. unfold FakeCamp.updateCampaignStatus. by rewrite Hn. Qed.
Next Obligation.
  intros f now uid c _. eexists _, _. split; [done|]. split_and!; try done. intros id. simpl. by rewrite lookup_insert.
Qed.
Next Obligation. done. Qed.
Next Obligation. done. Qed.

#[export] Program Instance pg_campaign_frame : CampaignFrame PgCamp.t.
Next Obligation.
  intros p now id st r Hu Hn. simpl in *. unfold PgCamp.updateCampaignStatus, PgCamp.getCampaign.
  by rewrite (kv_get_up _ _ Hu), Hn.
Qed.
Next Obligation.
  intros p now uid c Hu. simpl in *. unfold PgCamp.createCampaign. set (c' := created _ _ _ _).
  destruct (kv_set_up (PgCamp.campaigns p) (ca_ID c') c' Hu) as (s & -> & Hs & Hm).
  eexists _, c'. split; [done|]. split_and!; try done. intros id. simpl. by rewrite Hm, lookup_insert.
Qed.
Next Obligation. intros p now id ls Hu. simpl in *. unfold PgCamp.attachLeads. by destruct (PgCamp.attach_rows _ _ _ _). Qed.
Next Obligation. intros p now l Hu. simpl in *. unfold PgCamp.setLimits. by destruct (kv_set _ _ _). Qed.

(** * campaign: what the HTTP handlers promise

    Every request moves the campaigns as one line of a table says, whichever
    store answers, so over any sequence of requests a campaign keeps its
    identity and its owner and is dialled only after a launch that passed
    preflight or a resume. *)

Section Requests.
Context {T : Type} `{CampaignFrame T}.
Implicit Types (s : T) (c : Campaign) (r : camp_req).

(** The id under which a request stores a new campaign. *)
Definition created_id (uid : string) (r : camp_req) : option string :=
  match r with
  | RCreate _ (Ok c) =>
      if is_empty (ca_Name c) || is_empty (ca_ProjectID c) || is_empty (ca_KbVersionID c) then None
      else Some (or_new (ca_ID c) uid)
  | _ => None
  end.

Definition launched (env : CampEnv) s (now : Z) c : Campaign :=
  if e_disabled env || Passed (Run s c)
  then with_status (with_versions c (ca_ScriptVersionID c) (ca_PromptVersionID c) now) StatusActive "" now
  else with_status c StatusPreflightFailed "preflight failed" now.

(** The table: what a request makes of the campaign [i]. *)
Definition camp_after (env : CampEnv) s (now : Z) r (i : string) (c : Campaign) : Campaign :=
  match r with
  | RLaunch id => if decide (id = i) then launched env s now c else c
  | RPause id body =>
      let reason := match body with Ok m => m | Err _ => ""%string end in
      if decide (id = i)
      then with_status c StatusPaused (if is_empty reason then "manually paused"%string else reason) now else c
  | RResume id => if decide (id = i) then with_status c StatusActive "" now else c
  | RArchive id => if decide (id = i) then with_status c StatusArchived "" now else c
  | _ => c
  end.

(** A store whose campaign [id] became [f] of it, the others as they were. *)
Definition moved s s' (id : string) (f : Campaign -> Campaign) : Prop :=
  cs_ok s' /\ forall i, cs_camp s' i = (if decide (id = i) then f else (fun c => c)) <$> cs_camp s i.

Lemma fmap_same {A} (o : option A) : (fun x => x) <$> o = o.
Proof. by destruct o. Qed.

Lemma status_moves s now id st why :
  cs_ok s -> moved s (UpdateCampaignStatus s now id st why).1 id (fun c => with_status c st why now).
Proof.
  intros Hok. destruct (cs_camp s id) as [c|] eqn:Hc.
  - destruct (cs_status s now id st why c Hok Hc) as (_ & Hok' & Hm). split; [done|]. intros i. rewrite Hm.
    case_decide; [by subst; rewrite Hc|by rewrite fmap_same].
  - rewrite (cs_missing s now id st why Hok Hc). split; [done|]. intros i. simpl.
    case_decide; [by subst; rewrite Hc|by rewrite fmap_same].
Qed.

Lemma launch_moves env s now id :
  cs_ok s -> moved s (LaunchCampaign (e_disabled env) s now id).1 id (launched env s now).
Proof.
  intros Hok. unfold LaunchCampaign. rewrite (cs_get s id Hok).
  destruct (cs_camp s id) as [c|] eqn:Hc; last first.
  { split; [done|]. intros i. simpl. case_decide; [by subst; rewrite Hc|by rewrite fmap_same]. }
  assert (Hp : Passed (if e_disabled env then mkPre true [] else Run s c) = e_disabled env || Passed (Run s c))
    by by destruct (e_disabled env).
  rewrite Hp. assert (Hl : launched env s now c = launched env s now c) by done. unfold launched in Hl at 2.
  destruct (e_disabled env || Passed (Run s c)); simpl.
  - destruct (cs_pin s now id (ca_ScriptVersionID c) (ca_PromptVersionID c) c Hok Hc) as (He1 & Hok1 & Hm1).
    destruct (UpdateCampaignPinnedVersions _ _ _ _ _) as [s1 e1]. simpl in *. subst e1.
    assert (Hc1 := Hm1 id). rewrite decide_True in Hc1 by done.
    destruct (cs_status s1 now id StatusActive "" _ Hok1 Hc1) as (He2 & Hok2 & Hm2).
    destruct (UpdateCampaignStatus _ _ _ _ _) as [s2 e2]. simpl in *. subst e2. split; [done|]. intros i.
    simpl. rewrite Hm2, Hm1. destruct (decide (id = i)) as [<-|]; [|by rewrite fmap_same].
    rewrite Hc. cbn [fmap option_fmap option_map]. by rewrite Hl.
  - destruct (cs_status s now id StatusPreflightFailed "preflight failed" c Hok Hc) as (He1 & Hok1 & Hm1).
    destruct (UpdateCampaignStatus _ _ _ _ _) as [s1 e1]. simpl in *. subst e1. split; [done|]. intros i.
    simpl. rewrite Hm1. destruct (decide (id = i)) as [<-|]; [|by rewrite fmap_same].
    rewrite Hc. cbn [fmap option_fmap option_map]. by rewrite Hl.
Qed.

Lemma moved_at s s' id f g i :
  moved s s' id f -> (forall c, g c = if decide (id = i) then f c else c) ->
  cs_ok s' /\ cs_camp s' i = g <$> cs_camp s i.
Proof.
  intros [Hok Hm] Hg. split; [done|]. rewrite Hm. destruct (cs_camp s i) as [c|]; [|done]. simpl. rewrite Hg.
  by case_decide.
Qed.

(** A creation touches only the id it stores under. *)
Lemma create_keeps_others s now uid header body i :
  cs_ok s -> created_id uid (RCreate header body) <> Some i ->
  cs_ok (createCampaign s now uid header body).1 /\ cs_camp (createCampaign s now uid header body).1 i = cs_camp s i.
Proof.
  intros Hok Hne. unfold createCampaign. destruct body as [c|e]; [|done].
  assert (Hc : forall c', c' = c \/ c' = set_tenant c header ->
    cs_ok (CreateCampaign s now uid c').1 /\ cs_camp (CreateCampaign s now uid c').1 i = cs_camp s i).
  { intros c' Hc'.
    assert (Hf : ca_Name c' = ca_Name c /\ ca_ProjectID c' = ca_ProjectID c /\ ca_KbVersionID c' = ca_KbVersionID c
      /\ ca_ID c' = ca_ID c) by by destruct Hc' as [-> | ->]. destruct Hf as (Hn & Hp & Hk & Hi).
    unfold CreateCampaign. rewrite Hn, Hp, Hk, Hi. simpl in Hne.
    destruct (is_empty (ca_Name c)); [done|]. destruct (is_empty (ca_ProjectID c)); [done|].
    destruct (is_empty (ca_KbVersionID c)); [done|].
    match goal with |- context [StoreCreateCampaign _ _ _ ?b] =>
      destruct (cs_create s now uid b Hok) as (s' & d & -> & Hok' & Hid & _ & _ & Hm) end.
    simpl in *. split; [done|]. rewrite Hm, Hid, decide_False; [done|]. congruence. }
  destruct (is_empty header); [specialize (Hc c)|specialize (Hc (set_tenant c header))];
    destruct (CreateCampaign _ _ _ _); apply Hc; auto.
Qed.

(** Every request moves every campaign as the table says. *)
Lemma serve_moves env s now uid r i :
  cs_ok s -> created_id uid r <> Some i ->
  cs_ok (serve env s now uid r).1 /\
  cs_camp (serve env s now uid r).1 i = camp_after env s now r i <$> cs_camp s i.
Proof.
  intros Hok Hne.
  assert (Hsame : cs_ok s /\ cs_camp s i = (fun c => c) <$> cs_camp s i) by (split; [done|by rewrite fmap_same]).
  destruct r as [b|h b|h q|id|id b|id|id|id b|id|id|id|id b|id]; simpl; try exact Hsame.
  - rewrite fmap_same. by apply create_keeps_others.
  - unfold attachLeads. destruct b as [ls|]; [|done]. unfold AttachLeads. case_decide; [done|].
    destruct (cs_attach s now id ls Hok) as [Ho Hm]. destruct (StoreAttachLeads _ _ _ _). split; [done|].
    by rewrite fmap_same, Hm.
  - unfold launchCampaign. pose proof (launch_moves env s now id Hok) as Hm.
    destruct (LaunchCampaign _ _ _ _) as [s' [? ?]]. eapply moved_at; [exact Hm|done].
  - unfold pauseCampaign, PauseCampaign. set (why := if is_empty _ then _ else _).
    pose proof (status_moves s now id StatusPaused why Hok) as Hm.
    destruct (UpdateCampaignStatus _ _ _ _ _). eapply moved_at; [exact Hm|done].
  - unfold resumeCampaign, ResumeCampaign. pose proof (status_moves s now id StatusActive "" Hok) as Hm.
    destruct (UpdateCampaignStatus _ _ _ _ _). eapply moved_at; [exact Hm|done].
  - unfold archiveCampaign, ArchiveCampaign. pose proof (status_moves s now id StatusArchived "" Hok) as Hm.
    destruct (UpdateCampaignStatus _ _ _ _ _). eapply moved_at; [exact Hm|done].
  - unfold setCampaignLimits. destruct b as [l|]; [|done]. unfold SetCampaignLimits.
    destruct (is_empty _); [done|]. destruct (cs_limits s now (set_limits_id l id) Hok) as [Ho Hm].
    destruct (SetLimits _ _ _). split; [done|]. by rewrite fmap_same, Hm.
Qed.

(** ** Sequences of requests *)

(** A request with the time it arrives at and the id drawn for it. *)
Definition serve_all (env : CampEnv) s (rs : list (Z * string * camp_req)) : T :=
  fold_left (fun s '(now, uid, r) => (serve env s now uid r).1) rs s.

Definition same_campaign (c c' : Campaign) : Prop :=
  ca_ID c' = ca_ID c /\ ca_TenantID c' = ca_TenantID c /\ ca_ProjectID c' = ca_ProjectID c /\
  ca_KbVersionID c' = ca_KbVersionID c /\ ca_ScriptVersionID c' = ca_ScriptVersionID c /\
  ca_PromptVersionID c' = ca_PromptVersionID c /\ ca_CreatedAt c' = ca_CreatedAt c.

#[local] Instance same_campaign_preorder : PreOrder same_campaign.
Proof. split; unfold same_campaign; [intros c; tauto|intros a b c; intuition congruence]. Qed.

Lemma camp_after_same env s now r i c : same_campaign c (camp_after env s now r i c).
Proof.
  destruct r; simpl; try reflexivity; case_decide; try reflexivity; unfold launched; try destruct (_ || _); done.
Qed.

(** What may make the campaign [i], stored as [c], active. *)
Definition activates (env : CampEnv) s (i : string) c r : Prop :=
  r = RResume i \/ (r = RLaunch i /\ e_disabled env || Passed (Run s c) = true).

Lemma camp_after_active env s now r i c :
  ca_Status (camp_after env s now r i c) = StatusActive -> ca_Status c = StatusActive \/ activates env s i c r.
Proof.
  unfold activates. destruct r; simpl; auto; case_decide; subst; auto; try done.
  unfold launched. destruct (e_disabled env || _) eqn:Hp; [auto|done].
Qed.

(** A campaign keeps its owner and its versions through any requests. Over any
    sequence of requests none of which creates a campaign under its id, a stored
    campaign keeps its id, tenant, project and pinned versions, on either store;
    and if it ends up active without having been so, then it was activated by a
    resume of it, or by a launch of it that passed preflight in the state it met. *)
Theorem requests_keep_a_campaign env s rs i c :
  cs_ok s -> cs_camp s i = Some c ->
  Forall (fun '(_, uid, r) => created_id uid r <> Some i) rs ->
  exists c', cs_camp (serve_all env s rs) i = Some c' /\ same_campaign c c' /\
    (ca_Status c' = StatusActive -> ca_Status c = StatusActive \/
     exists rs1 now uid r rs2 d, rs = rs1 ++ (now, uid, r) :: rs2 /\
       cs_camp (serve_all env s rs1) i = Some d /\ activates env (serve_all env s rs1) i d r).
Proof.
  intros Hok Hc Hrs. revert s c Hok Hc. induction Hrs as [|[[now uid] r] rs Hr _ IH]; intros s c Hok Hc; simpl.
  { exists c. split_and!; [done|reflexivity|auto]. }
  destruct (serve_moves env s now uid r i Hok Hr) as [Hok1 Hc1]. rewrite Hc in Hc1. simpl in Hc1.
  destruct (IH _ _ Hok1 Hc1) as (c' & Hc' & Hsame & Hact). exists c'. split_and!; [done| |].
  - etrans; [apply (camp_after_same env s now r i c)|done].
  - intros Ha. destruct (Hact Ha) as [Hm|(rs1 & now1 & uid1 & r1 & rs2 & d & -> & Hd & Hb)].
    + destruct (camp_after_active _ _ _ _ _ _ Hm) as [|Hb]; [by left|]. right.
      exists [], now, uid, r, rs, c. by split_and!.
    + right. exists ((now, uid, r) :: rs1), now1, uid1, r1, rs2, d. by split_and!.
Qed.

(** A campaign belongs to the tenant the gateway names, whatever the body says,
    and starts as a draft. *)
Theorem create_takes_the_gateway_tenant s now uid header body s' d :
  cs_ok s -> header <> ""%string -> createCampaign s now uid header (Ok body) = (s', CCampaign 201 d) ->
  ca_TenantID d = header /\ ca_Status d = StatusDraft /\ cs_camp s' (ca_ID d) = Some d.
Proof.
  intros Hok Hh. unfold createCampaign. rewrite (is_empty_false header) by done. unfold CreateCampaign. simpl.
  destruct (is_empty (ca_Name _)); [done|]. destruct (is_empty (ca_ProjectID _)); [done|].
  destruct (is_empty (ca_KbVersionID _)); [done|].
  match goal with |- context [StoreCreateCampaign _ _ _ ?b] =>
    destruct (cs_create s now uid b Hok) as (s1 & d1 & -> & Hok' & Hid & Ht & Hst & Hm) end.
  intros [= -> ->]. split_and!; [done|done|]. by rewrite Hm, decide_True.
Qed.

(** A creation under an id that is taken replaces the campaign stored there,
    whichever tenant owns it. *)
Theorem create_replaces_the_campaign_of_another_tenant s now uid header body c :
  cs_ok s -> cs_camp s (ca_ID body) = Some c -> ca_ID body <> ""%string ->
  header <> ""%string -> header <> ca_TenantID c ->
  ca_Name body <> ""%string -> ca_ProjectID body <> ""%string -> ca_KbVersionID body <> ""%string ->
  exists d, cs_camp (createCampaign s now uid header (Ok body)).1 (ca_ID body) = Some d /\
    ca_TenantID d = header /\ ca_Status d = StatusDraft.
Proof.
  intros Hok Hc Hid Hh _ Hn Hp Hk. unfold createCampaign. rewrite (is_empty_false header) by done.
  unfold CreateCampaign. simpl. rewrite !is_empty_false by done.
  match goal with |- context [StoreCreateCampaign _ _ _ ?b] =>
    destruct (cs_create s now uid b Hok) as (s1 & d & -> & Hok' & Hd & Ht & Hst & Hm) end.
  simpl in *. exists d. split_and!; [|done|done]. rewrite Hm, Hd. unfold or_new. by rewrite is_empty_false, decide_True by done.
Qed.

End Requests.

(** ** Witnesses *)

Definition no_llm (url text : string) : llm_answer := LlmDown "connection refused".

Lemma requests_keep_a_campaign_witness :
  let env := mkCampEnv false "" no_llm in
  let s := CampaignFixture.store "approved" StatusDraft in
  exists c', cs_camp (serve_all env s [(hour, "u1", RPause "c1" (Err "EOF")); (hour, "u2", RLaunch "c1")]%string) "c1"
      = Some c' /\ ca_Status c' = StatusActive /\ ca_TenantID c' = "t1"%string.
Proof.
  intros env s.
  destruct (requests_keep_a_campaign env s [(hour, "u1", RPause "c1" (Err "EOF")); (hour, "u2", RLaunch "c1")]%string
    "c1" (CampaignFixture.camp StatusDraft)) as (c' & Hc' & Hsame & _); [reflexivity|reflexivity|by repeat constructor|].
  exists c'. split_and!; [exact Hc'| |by destruct Hsame as (_ & -> & _)].
  assert (Hs : ca_Status <$> cs_camp (serve_all env s [(hour, "u1", RPause "c1" (Err "EOF")); (hour, "u2", RLaunch "c1")]%string) "c1"
    = Some StatusActive) by (vm_compute; reflexivity).
  rewrite Hc' in Hs. by injection Hs.
Defined.

Lemma create_replaces_the_campaign_of_another_tenant_witness :
  let s := CampaignFixture.store "approved" StatusActive in
  exists d, cs_camp (createCampaign s hour "u1" "t2" (Ok (CampaignFixture.camp StatusDraft))).1 "c1" = Some d /\
    ca_TenantID d = "t2"%string.
Proof.
  intros s.
  destruct (create_replaces_the_campaign_of_another_tenant s hour "u1" "t2" (CampaignFixture.camp StatusDraft)
    (CampaignFixture.camp StatusActive)) as (d & Hd & Ht & _); [reflexivity|reflexivity|done..|]. by exists d.
Defined.
