(* ===== verification/BillingApi.v ===== *)
(** * billing-meter: the HTTP handlers

    [services/billing-meter/internal/handler/handler.go] and the service
    methods behind it that the consumer does not use.  [parseFloat] stands for
    strconv.ParseFloat, whose error the handler drops. *)

From S2P Require Import Prelude GoTime Float64 Kv GoStrings Billing BillingSafety.

From Stdlib Require Import SpecFloat.

Open Scope Z_scope.

(** An answer: the HTTP status and the body. *)
Inductive bill_resp :=
| BErr (code : Z) (msg : string)
| BCost (c : CostEvent)
| BSummary (s : Summary)
| BOk
| BBalance (b : float64)
| BCharged (e : CreditLedgerEntry).

(** The body of POST /v1/billing/charge. *)
Record charge_body := mkChargeBody { ch_TenantID : string; ch_Amount : string; ch_Reason : string }.

Section Handlers.
Context {T : Type} `{!BillingStore T} (parseFloat : string -> float64 * error).

Definition GetUsage (s : T) (tenantID groupBy : string) : result Summary :=
  GetSummary s (if decide (groupBy = "campaign")%string then "campaign" else "tenant")%string tenantID.

Definition GetCostSummary (s : T) (scopeType scopeID : string) : result Summary := GetSummary s scopeType scopeID.
Definition SetCaps (s : T) (c : Caps) : T * error := StoreSetCaps s c.

Definition answer {A} (r : result A) (f : A -> bill_resp) : bill_resp :=
  match r with Err e => BErr 400 e | Ok a => f a end.

(** A body is [None] when it cannot be decoded. *)
Definition post_usage (s : T) (now : Z) (body : option UsageEvent) : T * bill_resp :=
  match body with
  | None => (s, BErr 400 "invalid json")
  | Some req => let '(s, r) := RecordUsage s now req in (s, answer r BCost)
  end.

Definition handleGetUsage (s : T) (tenantID groupBy : string) : T * bill_resp :=
  (s, answer (GetUsage s tenantID groupBy) BSummary).

Definition handleGetCostSummary (s : T) (scopeType tenantID campaignID : string) : T * bill_resp :=
  let scopeType := first_nonempty scopeType "tenant" in
  let scopeID := if decide (scopeType = "campaign")%string then campaignID else tenantID in
  (s, answer (GetCostSummary s scopeType scopeID) BSummary).

Definition handleSetCaps (s : T) (body : option Caps) : T * bill_resp :=
  match body with
  | None => (s, BErr 400 "invalid json")
  | Some req => let '(s, e) := SetCaps s req in (s, match e with Some m => BErr 400 m | None => BOk end)
  end.

Definition handleBalance (s : T) (tenantID : string) : T * bill_resp := (s, answer (GetBalance s tenantID) BBalance).

Definition handleCharge (s : T) (now : Z) (body : option charge_body) : T * bill_resp :=
  match body with
  | None => (s, BErr 400 "invalid json")
  | Some req =>
      let '(s, r) := Charge s now (ch_TenantID req) (parseFloat (ch_Amount req)).1 (ch_Reason req) in
      (s, answer r BCharged)
  end.

Inductive bill_req :=
| BUsage (body : option UsageEvent)
| BGetUsage (tenantID groupBy : string)
| BCostSummary (scopeType tenantID campaignID : string)
| BSetCaps (body : option Caps)
| BGetBalance (tenantID : string)
| BCharge (body : option charge_body).

(** The routes of [Mount]. *)
Definition serve_billing (s : T) (now : Z) (r : bill_req) : T * bill_resp :=
  match r with
  | BUsage body => post_usage s now body
  | BGetUsage t g => handleGetUsage s t g
  | BCostSummary st t c => handleGetCostSummary s st t c
  | BSetCaps body => handleSetCaps s body
  | BGetBalance t => handleBalance s t
  | BCharge body => handleCharge s now body
  end.

Definition serve_billings (s : T) (rs : list (Z * bill_req)) : T :=
  fold_left (fun s x => (serve_billing s x.1 x.2).1) rs s.

(** What the requests take from a tenant, in order. *)
Definition charges_of (t : string) (rs : list (Z * bill_req)) : list float64 :=
  omap (fun x => match x.2 with
                 | BCharge (Some b) => if decide (ch_TenantID b = t) then Some (parseFloat (ch_Amount b)).1 else None
                 | _ => None
                 end) rs.

End Handlers.

(** ** Balances of the in-memory store *)

Section Balances.
Variable parseFloat : string -> float64 * error.
Implicit Types f : FakeBill.t.

Definition same_credits f f' : Prop := FakeBill.credits f' = FakeBill.credits f.
#[local] Instance same_credits_preorder : PreOrder same_credits.
Proof. split; unfold same_credits; [done|congruence]. Qed.

Lemma addSignal_credits f now s : same_credits f (FakeBill.addSignal f now s).1.
Proof. unfold FakeBill.addSignal. by destruct (if is_empty _ then _ else _). Qed.

Lemma add_signals_credits sigs f now : same_credits f (add_signals f now sigs).1.
Proof.
  revert f. induction sigs as [|s sigs IH]; intros f; simpl; [reflexivity|].
  pose proof (addSignal_credits f now s) as Hs. destruct (FakeBill.addSignal f now s) as [f1 [e|]]; [done|].
  etrans; [exact Hs|apply IH].
Qed.

Lemma eval_scope_credits f now c st si t ca : same_credits f (eval_scope f now c st si t ca).1.
Proof. unfold eval_scope. destruct (f_lt _ _); [apply add_signals_credits|reflexivity]. Qed.

Lemma evaluateCaps_credits f now u : same_credits f (evaluateCaps f now u).1.
Proof.
  unfold evaluateCaps.
  pose proof (eval_scope_credits f now (caps_of f (us_TenantID u) "") "tenant" (us_TenantID u) (us_TenantID u) "") as H1.
  destruct (eval_scope _ _ _ _ _ _ _) as [f1 [e|]]; [done|]. destruct (is_empty _); [done|].
  etrans; [exact H1|apply eval_scope_credits].
Qed.

Lemma RecordUsage_credits f now u : same_credits f (RecordUsage f now u).1.
Proof.
  unfold RecordUsage. destruct (_ || _); [reflexivity|].
  match goal with |- context [RecordUsageCost f now ?v ?c] =>
    assert (H1 : same_credits f (RecordUsageCost f now v c).1);
    [|destruct (RecordUsageCost f now v c) as [f1 [[|]|e]]; [|done..]; set (u' := v) in *] end.
  { simpl. unfold FakeBill.recordUsageCost. destruct (_ && _); [done|].
    destruct (if is_empty (us_ID _) then _ else _), (if is_empty (co_ID _) then _ else _). done. }
  pose proof (evaluateCaps_credits f1 now u') as H2. destruct (evaluateCaps f1 now u') as [f2 [e|]]; [by etrans|].
  case_decide; [|by etrans]. unfold evaluateRuntimeCutoff. destruct (_ && _); [|by etrans].
  match goal with |- context [AddSignal f2 now ?s] =>
    pose proof (addSignal_credits f2 now s) as H3; simpl; destruct (FakeBill.addSignal f2 now s) as [f3 e3] end.
  by do 2 (etrans; [eassumption|]).
Qed.

(** A tenant's balance is its charges, subtracted in order. Whatever else is
    recorded, capped or read meanwhile, the balance the in-memory store answers
    after a sequence of requests is the balance before it less the amounts parsed
    from the charges that name the tenant, in the order they came, in float64. *)
Theorem balance_is_the_charges_in_order f rs t b :
  GetBalance f t = Ok b ->
  GetBalance (serve_billings parseFloat f rs) t
  = Ok (fold_left (fun b a => f_add b (SFopp a)) (charges_of parseFloat t rs) b).
Proof.
  revert f b. induction rs as [|[now r] rs IH]; intros f b Hb; [done|].
  assert (Hsame : forall f', same_credits f f' -> GetBalance f' t = Ok b).
  { intros f' E. rewrite <- Hb. simpl. unfold FakeBill.getBalance. by rewrite E. }
  destruct r as [[u|]|? ?|? ? ?|[c|]|?|[d|]]; try by apply (IH f).
  - apply IH. unfold serve_billing, post_usage. pose proof (RecordUsage_credits f now u) as Hc.
    cbn [fst snd]. destruct (RecordUsage f now u) as [f' ?]. by apply Hsame.
  - by apply IH.
  - cbn [serve_billings fold_left fst snd serve_billing handleCharge charges_of omap list_omap].
    unfold Charge. simpl StoreAddCredit. unfold FakeBill.addCredit. simpl is_empty. cbn iota.
    case_decide as Ht; cbn [fold_left]; apply IH; simpl; unfold FakeBill.getBalance in *; simpl;
      [subst t; rewrite lookup_insert_eq; simpl in Hb; by injection Hb as ->|by rewrite lookup_insert_ne].
Qed.

End Balances.

(** The totals the summaries answer stay the sums of the listed cost events
    through any requests. *)
Lemma serve_billings_totals parseFloat rs f : totals_inv f -> totals_inv (serve_billings parseFloat f rs).
Proof.
  revert f. induction rs as [|[now r] rs IH]; intros f Hf; [done|]. apply IH.
  destruct r as [[u|]|? ?|? ? ?|[c|]|?|[d|]]; try (split; apply Hf).
  cbn [fst snd serve_billing post_usage].
  pose proof (RecordUsage_totals f now u Hf). by destruct (RecordUsage f now u).
Qed.

(** group_by=campaign asks for the campaign whose id is the tenant's: while no
    cost names a campaign of that id the answer is a zero total, whatever the
    tenant and its campaigns cost. *)
Theorem usage_by_campaign_looks_up_the_tenant_id f t :
  totals_inv f -> t <> ""%string -> Forall (fun c => co_CampaignID c <> t) (FakeBill.costEvents f) ->
  handleGetUsage f t "campaign" = (f, BSummary (zero_summary "campaign" t)).
Proof.
  intros [_ Hc] Ht Hall. specialize (Hc t Ht). unfold handleGetUsage, GetUsage. rewrite decide_True by done.
  replace (GetSummary f "campaign" t) with (Ok (summarize "campaign" t (FakeBill.costEvents f)))
    by (rewrite <- Hc; reflexivity).
  simpl. do 2 f_equal. unfold summarize. clear Hc. induction Hall as [|c cs Hne _ IH]; [done|].
  simpl. unfold in_scope at 1. simpl. by rewrite bool_decide_false.
Qed.

(** An amount that does not parse is charged as zero: the request succeeds and
    a ledger entry is written. *)
Theorem unparsable_charge_succeeds {T} `{BillingStore T} parseFloat (s : T) now b e :
  parseFloat (ch_Amount b) = (f_of_int 0, Some e) ->
  handleCharge parseFloat s now (Some b)
  = (let '(s', r) := StoreAddCredit s now (mkCredit "" (ch_TenantID b) (SFopp (f_of_int 0)) (ch_Reason b) now) in
     (s', answer r BCharged)).
Proof. intros Hp. unfold handleCharge, Charge. by rewrite Hp. Qed.

(** ** Witnesses *)

(** A parser of three texts, as ParseFloat reads them. *)
Definition parse3 (s : string) : float64 * error :=
  if decide (s = "12.5")%string then (f_dec 125 1, None)
  else if decide (s = "-5")%string then (f_of_int (-5), None)
  else (f_of_int 0, Some "invalid syntax"%string).

(** A negative amount is a credit. *)
Lemma balance_is_the_charges_in_order_witness :
  GetBalance (serve_billings parse3 FakeBill.NewFake
    [(hour, BCharge (Some (mkChargeBody "t1" "12.5" "top-up"))); (hour, BSetCaps None);
     (hour, BCharge (Some (mkChargeBody "t2" "12.5" "other")));
     (hour, BCharge (Some (mkChargeBody "t1" "-5" "refund")))]%string) "t1" = Ok (f_dec (-75) 1).
Proof.
  rewrite (balance_is_the_charges_in_order parse3 FakeBill.NewFake _ "t1" (f_of_int 0) eq_refl).
  vm_compute. reflexivity.
Defined.

Lemma usage_by_campaign_looks_up_the_tenant_id_witness :
  let f := (RecordUsage FakeBill.NewFake hour
    (mkUsage "" "t1" "c1" UsageCallCompleted 61 "" "" "" hour ""))%string.1 in
  handleGetUsage f "t1" "campaign" = (f, BSummary (zero_summary "campaign" "t1")) /\
  (handleGetUsage f "c1" "campaign").2 = BSummary (mkSummary "c1" "campaign" 1 (f_dec 24 1)).
Proof.
  intros f. split; [|vm_compute; reflexivity].
  apply (usage_by_campaign_looks_up_the_tenant_id f "t1"); [|done|by repeat constructor].
  apply RecordUsage_totals. split; intros; vm_compute; reflexivity.
Defined.
