(* ===== verification/Calendar.v ===== *)
(** * The Gregorian calendar of time.Format

    Days since 1970-01-01 as year, month and day, and the layouts "2006-01-02"
    and "2006-01" of [time.Time.Format].  A formatted date names one day. *)

From stdpp Require Import pretty.
From S2P Require Import Prelude GoTime GoStrings.

Open Scope Z_scope.

(** Years are counted from March, so that the leap day is the last of its year;
    an era is four hundred of them. *)
Definition civil (day : Z) : Z * Z * Z :=
  let z := day + 719468 in
  let era := z / 146097 in
  let doe := z mod 146097 in
  let yoe := (doe - doe / 1460 + doe / 36524 - doe / 146096) / 365 in
  let doy := doe - (365 * yoe + yoe / 4 - yoe / 100) in
  let mp := (5 * doy + 2) / 153 in
  let d := doy - (153 * mp + 2) / 5 + 1 in
  let m := if mp <? 10 then mp + 3 else mp - 9 in
  let y := yoe + era * 400 in
  (if m <=? 2 then y + 1 else y, m, d).

(** The day of a date. *)
Definition day_of (y m d : Z) : Z :=
  let y := if m <=? 2 then y - 1 else y in
  let era := y / 400 in
  let yoe := y mod 400 in
  let doy := (153 * (if m <=? 2 then m + 9 else m - 3) + 2) / 5 + d - 1 in
  era * 146097 + (yoe * 365 + yoe / 4 - yoe / 100 + doy) - 719468.

Lemma yoe_range doe :
  0 <= doe < 146097 ->
  let yoe := (doe - doe / 1460 + doe / 36524 - doe / 146096) / 365 in
  0 <= yoe < 400 /\ 0 <= doe - (365 * yoe + yoe / 4 - yoe / 100) <= 365.
Proof. intros H yoe. subst yoe. Z.div_mod_to_equations. lia. Qed.

Lemma month_range doy :
  0 <= doy <= 365 -> let mp := (5 * doy + 2) / 153 in
  0 <= mp <= 11 /\ 0 <= doy - (153 * mp + 2) / 5 <= 30.
Proof. intros H mp. subst mp. Z.div_mod_to_equations. lia. Qed.

Lemma civil_range day : let '(_, m, d) := civil day in 1 <= m <= 12 /\ 1 <= d <= 31.
Proof.
  unfold civil. pose proof (yoe_range ((day + 719468) mod 146097)) as Hy. cbv zeta in *.
  set (doe := (day + 719468) mod 146097) in *. set (yoe := (_ - _ + _ - _) / 365) in *.
  destruct Hy as [Hy Hd]; [subst doe; apply Z.mod_pos_bound; lia|].
  pose proof (month_range _ Hd) as Hm. cbv zeta in Hm. set (mp := (5 * _ + 2) / 153) in *.
  destruct (Z.ltb_spec mp 10); lia.
Qed.

Lemma civil_year day : - 719468 <= day -> 0 <= (civil day).1.1.
Proof.
  intros H. unfold civil. pose proof (yoe_range ((day + 719468) mod 146097)) as Hy. cbv zeta in *.
  set (doe := (day + 719468) mod 146097) in *. set (yoe := (_ - _ + _ - _) / 365) in *.
  destruct Hy as [Hy _]; [subst doe; apply Z.mod_pos_bound; lia|].
  assert (0 <= (day + 719468) / 146097) by (apply Z.div_pos; lia).
  simpl. destruct (_ <=? 2); lia.
Qed.

(** The date of a day is its date: [day_of] takes it back. *)
Lemma day_of_civil day : let '(y, m, d) := civil day in day_of y m d = day.
Proof.
  unfold civil, day_of. pose proof (yoe_range ((day + 719468) mod 146097)) as Hy. cbv zeta in *.
  pose proof (Z.div_mod (day + 719468) 146097 ltac:(lia)) as Hdm.
  set (era := (day + 719468) / 146097) in *.
  set (doe := (day + 719468) mod 146097) in *. set (yoe := (_ - _ + _ - _) / 365) in *.
  destruct Hy as [Hy Hd]; [subst doe; apply Z.mod_pos_bound; lia|].
  pose proof (month_range _ Hd) as Hm. cbv zeta in Hm. set (mp := (5 * _ + 2) / 153) in *.
  assert (Hy' : forall m, m = (if mp <? 10 then mp + 3 else mp - 9) ->
    (if m <=? 2 then (if m <=? 2 then yoe + era * 400 + 1 else yoe + era * 400) - 1
     else if m <=? 2 then yoe + era * 400 + 1 else yoe + era * 400) = yoe + era * 400 /\
    (if m <=? 2 then m + 9 else m - 3) = mp).
  { intros m ->. destruct (Z.ltb_spec mp 10); [destruct (Z.leb_spec (mp + 3) 2)|destruct (Z.leb_spec (mp - 9) 2)]; lia. }
  destruct (Hy' _ eq_refl) as [-> ->].
  rewrite (Z.div_add _ _ 400), (Z.mod_add _ _ 400) by lia. rewrite (Z.div_small yoe), (Z.mod_small yoe) by lia. lia.
Qed.

(** ** Layouts *)

Definition pad2 (n : Z) : string := if n <? 10 then "0" +:+ pretty n else pretty n.

(** Four digits at least, with the sign in front. *)
Definition pad4 (n : Z) : string :=
  let s := pretty (Z.to_nat (Z.abs n)) in
  (if (n <? 0)%Z then "-" else "")%string +:+ zeros (4 - String.length s) +:+ s.

(** [t.Format("2006-01-02")] and [t.Format("2006-01")] of a time whose location
    is [off] seconds east of UTC. *)
Definition format_day (t off : Z) : string :=
  let '(y, m, d) := civil ((unix t + off) / 86400) in
  (pad4 y +:+ "-" +:+ pad2 m +:+ "-" +:+ pad2 d)%string.
Definition format_month (t off : Z) : string :=
  let '(y, m, _) := civil ((unix t + off) / 86400) in (pad4 y +:+ "-" +:+ pad2 m)%string.

Example format_2026 : format_day (1779098400 * second) 0 = "2026-05-18"%string.
Proof. vm_compute. reflexivity. Qed.
Example format_leap : format_day (951782400 * second) 0 = "2000-02-29"%string.
Proof. vm_compute. reflexivity. Qed.
Example format_zero : format_day time_zero 0 = "0001-01-01"%string.
Proof. vm_compute. reflexivity. Qed.
Example format_evening : format_day (1779132600 * second) 0 = "2026-05-18"%string /\
  format_day (1779132600 * second) 19800 = "2026-05-19"%string.
Proof. vm_compute. done. Qed.

(** A two-digit text and its value, checked for every month and day. *)
Definition pad2_ok (n : Z) : bool :=
  match pad2 n with
  | String a (String b EmptyString) =>
      n =? 10 * (Z.of_N (Ascii.N_of_ascii a) - 48) + (Z.of_N (Ascii.N_of_ascii b) - 48)
  | _ => false
  end.

Lemma pad2_cases n : 1 <= n <= 31 -> exists a b, pad2 n = String a (String b EmptyString) /\
  n = 10 * (Z.of_N (Ascii.N_of_ascii a) - 48) + (Z.of_N (Ascii.N_of_ascii b) - 48).
Proof.
  intros Hn. assert (Hall : forallb pad2_ok (seqZ 1 31) = true) by (vm_compute; reflexivity).
  assert (Hok : pad2_ok n = true).
  { rewrite forallb_forall in Hall. apply Hall, list_elem_of_In, elem_of_seqZ. lia. }
  unfold pad2_ok in Hok. destruct (pad2 n) as [|a [|b [|]]]; try done. exists a, b. by apply Z.eqb_eq in Hok.
Qed.

Lemma pad4_inj a b : 0 <= a -> 0 <= b -> pad4 a = pad4 b -> a = b.
Proof.
  intros Ha Hb. unfold pad4. destruct (Z.ltb_spec a 0); [lia|]. destruct (Z.ltb_spec b 0); [lia|]. simpl.
  intros E. apply zeros_inj in E. lia.
Qed.

Lemma append_same_length a b c d :
  String.length c = String.length d -> (a +:+ c)%string = (b +:+ d)%string -> a = b /\ c = d.
Proof.
  intros Hl E. apply (f_equal String.list_ascii_of_string) in E. rewrite !list_ascii_append in E.
  apply app_inj_2 in E as [E1 E2]; [|by rewrite !length_list_ascii].
  by split; [rewrite <- (string_of_list_of_string a), E1, string_of_list_of_string
            |rewrite <- (string_of_list_of_string c), E2, string_of_list_of_string].
Qed.

(** Since the year 0, two times are formatted alike just when they fall on the
    same day of their locations. *)
Lemma format_day_inj t off t' off' :
  - 719468 <= (unix t + off) / 86400 -> - 719468 <= (unix t' + off') / 86400 ->
  format_day t off = format_day t' off' <-> (unix t + off) / 86400 = (unix t' + off') / 86400.
Proof.
  unfold format_day. set (n := (unix t + off) / 86400). set (n' := (unix t' + off') / 86400). intros Hn Hn'.
  split; [|by intros ->]. pose proof (civil_range n) as Hr. pose proof (civil_range n') as Hr'.
  pose proof (day_of_civil n) as Hd. pose proof (day_of_civil n') as Hd'.
  pose proof (civil_year n Hn) as Hy. pose proof (civil_year n' Hn') as Hy'.
  destruct (civil n) as [[y m] d], (civil n') as [[y' m'] d']. simpl in Hy, Hy'.
  destruct (pad2_cases m) as (a1 & b1 & Em & Vm); [lia|]. destruct (pad2_cases d) as (a2 & b2 & Ed & Vd); [lia|].
  destruct (pad2_cases m') as (a3 & b3 & Em' & Vm'); [lia|]. destruct (pad2_cases d') as (a4 & b4 & Ed' & Vd'); [lia|].
  rewrite Em, Ed, Em', Ed'. intros E. apply append_same_length in E as [E1 E2]; [|done].
  apply pad4_inj in E1; [|lia..]. injection E2 as -> -> -> ->. congruence.
Qed.
