(* ===== verification/Analytics.v ===== *)
(** * analytics-sink: events to facts, the stores and the service

    [services/analytics-sink/internal/{model,transform,store,service,handler}].
    A time is its instant with the offset of its location, which formatting
    uses.  [iter] is the order in which Go ranges over the in-memory map; number
    parsing and formatting of the standard library are arguments. *)

From stdpp Require Import pretty.
From S2P Require Import Prelude GoTime Float64 Kv GoStrings Calendar.

Open Scope Z_scope.

(** A value of a decoded payload: [JNumber] is a [json.Number], [JInt] any Go
    integer, [JOther] a bool, null, list or object. *)
Inductive jval :=
| JString (s : string)
| JNumber (s : string)
| JFloat (f : float64)
| JInt (n : Z)
| JOther.

Notation payload := (gmap string jval).

Record CanonicalEvent := mkEvent {
  ev_EventID : string;
  ev_TenantID : string;
  ev_CampaignID : string;
  ev_ProjectID : string;
  ev_UserID : string;
  ev_Type : string;
  ev_Payload : option payload;
  ev_OccurredAt : Z;
  ev_Offset : Z
}.

Record FactRow := mkFact {
  fr_EventID : string;
  fr_TenantID : string;
  fr_CampaignID : string;
  fr_ProjectID : string;
  fr_UserID : string;
  fr_Fact : string;
  fr_Metric : string;
  fr_Value : float64;
  fr_Payload : payload;
  fr_OccurredAt : Z;
  fr_Offset : Z;
  fr_InsertedAt : Z;
  fr_Version : Z
}.

Record ReportRow := mkRow { rr_Dimension : string; rr_Count : Z; rr_Value : float64 }.

Record ReportResponse := mkReport {
  re_TenantID : string;
  re_Report : string;
  re_FreshnessS : Z;
  re_Rows : list ReportRow
}.

(** ** transform *)

Section Transform.
(** [strconv.ParseFloat(s, 64)], [None] for an error. *)
Variable parseFloat : string -> option float64.

Definition numberOr (v : jval) (fallback : float64) : float64 :=
  match v with
  | JInt n => f_of_int n
  | JFloat f => f
  | JNumber s | JString s => default fallback (parseFloat s)
  | JOther => fallback
  end.

Fixpoint numberFirstOr (p : payload) (fallback : float64) (keys : list string) : float64 :=
  match keys with
  | [] => fallback
  | k :: keys => match p !! k with Some v => numberOr v fallback | None => numberFirstOr p fallback keys end
  end.

Definition numberFirst (p : payload) (keys : list string) : float64 := numberFirstOr p (f_of_int 0) keys.

Fixpoint stringFirst (p : payload) (keys : list string) : string :=
  match keys with
  | [] => ""
  | k :: keys => match p !! k with Some (JString s) => s | _ => stringFirst p keys end
  end.

Definition whatsappMetric (t : string) : string :=
  if contains t "received" || contains t "reply" then "message_received"
  else if contains t "sent" then "message_sent"
  else if contains t "delivered" then "message_delivered"
  else if contains t "failed" then "message_failed"
  else if contains t "opt" then "opt_out"
  else "message_count".

Definition is_one_of (t : string) (l : list string) : bool := bool_decide (t ∈ l).

(** The fact, the metric and the value of an event type; [None] for a type that
    is not supported. *)
Definition classify (t : string) (p : payload) : option (string * string * float64) :=
  if is_one_of t ["call.completed"]
  then Some ("fact_calls", "duration_s", numberFirst p ["duration_s"; "duration_seconds"; "duration"; "call_duration_secs"])
  else if is_one_of t ["call.turn.scored"; "call.turn.recorded"]
  then Some ("fact_call_turns", "turn_score", numberFirstOr p (f_of_int 1) ["score"; "quality_score"; "confidence"])
  else if has_prefix t "wa.message." || has_prefix t "whatsapp." || has_prefix t "wa.template." || is_one_of t ["wa.optout"]
  then Some ("fact_whatsapp", whatsappMetric t, f_of_int 1)
  else if has_prefix t "handoff." then Some ("fact_handoffs", "handoff_count", f_of_int 1)
  else if has_prefix t "site_visit." || has_prefix t "site.visit."
  then Some ("fact_site_visits", "site_visit_count", f_of_int 1)
  else if is_one_of t ["billing.cost_event"; "billing.cost"; "billing.usage"]
  then Some ("fact_costs", first_nonempty (stringFirst p ["usage_type"; "type"; "unit"; "category"]) "cost_inr",
             numberFirst p ["total_inr"; "total_cost_inr"; "cost_inr"; "amount_inr"; "value"])
  else if is_one_of t ["lead.status.updated"] then Some ("fact_lead_status_changes", "status_change_count", f_of_int 1)
  else if is_one_of t ["ai.output.scored"; "llm.completion"; "guardrail.checked"]
  then Some ("fact_ai_outputs", "ai_output_score", numberFirstOr p (f_of_int 1) ["score"; "quality_score"; "tokens"])
  else if is_one_of t ["kb.retrieved"; "kb.retrieval"] then Some ("fact_kb_retrievals", "retrieval_count", f_of_int 1)
  else None.

Definition EventToFact (e : CanonicalEvent) : result FactRow :=
  let p := default ∅ (ev_Payload e) in
  let version := wrap64 (ev_OccurredAt e) in
  match classify (to_lower (trim_space (ev_Type e))) p with
  | None => Err ("unsupported event type " ++ quote (ev_Type e))%string
  | Some (fact, metric, value) =>
      Ok (mkFact (ev_EventID e) (ev_TenantID e) (ev_CampaignID e) (ev_ProjectID e) (ev_UserID e) fact metric value p
            (ev_OccurredAt e) (ev_Offset e) time_zero (if version <=? 0 then 1 else version))
  end.

End Transform.

(** ** Reports *)

Definition dimensionFor (report : string) (row : FactRow) : string :=
  if is_one_of report ["campaign"] then first_nonempty (fr_CampaignID row) "unassigned"
  else if is_one_of report ["project"; "site-visit"] then first_nonempty (fr_ProjectID row) "unassigned"
  else if is_one_of report ["salesperson"] then first_nonempty (fr_UserID row) "unassigned"
  else if is_one_of report ["whatsapp"] then fr_Fact row
  else if is_one_of report ["cost"] then fr_Metric row
  else if is_one_of report ["ai-quality"] then fr_Fact row
  else if is_one_of report ["source"]
  then match fr_Payload row !! "source" with Some (JString s) => first_nonempty s "unknown" | _ => "unknown" end
  else if is_one_of report ["monthly"] then format_month (fr_OccurredAt row) (fr_Offset row)
  else format_day (fr_OccurredAt row) (fr_Offset row).

(** One row added to its group; a new group starts at zero. *)
Definition add_row (report : string) (group : gmap string ReportRow) (row : FactRow) : gmap string ReportRow :=
  let dim := dimensionFor report row in
  let item := default (mkRow "" 0 (f_of_int 0)) (group !! dim) in
  <[dim := mkRow dim (rr_Count item + 1) (f_add (rr_Value item) (fr_Value row))]> group.

Definition row_less (a b : ReportRow) : bool := String.ltb (rr_Dimension a) (rr_Dimension b).

Definition newest_of (rows : list FactRow) : Z :=
  foldl (fun newest row => if negb (is_zero (fr_InsertedAt row)) && (newest <? fr_InsertedAt row)
                           then fr_InsertedAt row else newest) time_zero rows.

(** [int64(a.Sub(b).Seconds())]: the difference saturates, the seconds are a
    float64. *)
Definition seconds_since (a b : Z) : Z :=
  let d := Z.max (- 2^63) (Z.min (2^63 - 1) (a - b)) in
  f_to_int (f_add (f_of_int (Z.quot d second)) (f_div (f_of_int (Z.rem d second)) (f_of_int 1000000000))).

(** The loop of [QueryReport] over the rows as the store delivers them. *)
Definition report_of (now : Z) (tenantID report : string) (rows : list FactRow) : ReportResponse :=
  let mine := List.filter (fun r => bool_decide (fr_TenantID r = tenantID)) rows in
  let group := foldl (add_row report) ∅ mine in
  let newest := newest_of mine in
  mkReport tenantID report (if is_zero newest then 0 else seconds_since now newest)
    (sort_by row_less (map_to_list group).*2).

(** ** Stores *)

Class AnStore (T : Type) := {
  InsertFact : T -> Z -> FactRow -> T * result bool;
  CountFact : T -> string -> string -> result Z;
  QueryReport : T -> Z -> string -> string -> result ReportResponse
}.

Definition fact_key (r : FactRow) : string := (fr_TenantID r ++ ":" ++ fr_Fact r ++ ":" ++ fr_EventID r)%string.

Definition stamped (r : FactRow) (now : Z) : FactRow :=
  mkFact (fr_EventID r) (fr_TenantID r) (fr_CampaignID r) (fr_ProjectID r) (fr_UserID r) (fr_Fact r) (fr_Metric r)
    (fr_Value r) (fr_Payload r) (fr_OccurredAt r) (fr_Offset r) (or_now (fr_InsertedAt r) now) (fr_Version r).

Definition count_fact (tenantID fact : string) (rows : list FactRow) : Z :=
  Z.of_nat (length (List.filter (fun r => bool_decide (fr_TenantID r = tenantID) && bool_decide (fr_Fact r = fact)) rows)).

Module FakeAn.
Record t := mk { rows : gmap string FactRow; iter : list FactRow -> list FactRow }.

Definition NewFake (iter : list FactRow -> list FactRow) : t := mk ∅ iter.
Definition values (f : t) : list FactRow := iter f (map_to_list (rows f)).*2.

Definition insertFact (f : t) (now : Z) (row : FactRow) : t * result bool :=
  match rows f !! fact_key row with
  | Some _ => (f, Ok false)
  | None => (mk (<[fact_key row := stamped row now]> (rows f)) (iter f), Ok true)
  end.

Definition countFact (f : t) (tenantID fact : string) : result Z := Ok (count_fact tenantID fact (values f)).
Definition queryReport (f : t) (now : Z) (tenantID report : string) : result ReportResponse :=
  Ok (report_of now tenantID report (values f)).
End FakeAn.

#[export] Instance fake_an_store : AnStore FakeAn.t := {
  InsertFact := FakeAn.insertFact; CountFact := FakeAn.countFact; QueryReport := FakeAn.queryReport }.

(** The records keep what a report reads: a payload's numbers come back from
    JSON as float64, its strings as they were. *)
Module PgAn.
Record t := mk { facts : kv FactRow }.

Definition insertFact (p : t) (now : Z) (row : FactRow) : t * result bool :=
  match kv_insert (facts p) (fact_key row) (stamped row now) with
  | Ok (s, created) => (mk s, Ok created)
  | Err e => (p, Err e)
  end.

Definition countFact (p : t) (tenantID fact : string) : result Z :=
  let? rows := kv_list (facts p) in Ok (count_fact tenantID fact rows).
Definition queryReport (p : t) (now : Z) (tenantID report : string) : result ReportResponse :=
  let? rows := kv_list (facts p) in Ok (report_of now tenantID report rows).
End PgAn.

#[export] Instance pg_an_store : AnStore PgAn.t := {
  InsertFact := PgAn.insertFact; CountFact := PgAn.countFact; QueryReport := PgAn.queryReport }.

(** ** service and handler *)

Definition dated (e : CanonicalEvent) (now : Z) : CanonicalEvent :=
  if is_zero (ev_OccurredAt e)
  then mkEvent (ev_EventID e) (ev_TenantID e) (ev_CampaignID e) (ev_ProjectID e) (ev_UserID e) (ev_Type e) (ev_Payload e) now 0
  else e.

Definition inserted (r : FactRow) (now : Z) : FactRow :=
  mkFact (fr_EventID r) (fr_TenantID r) (fr_CampaignID r) (fr_ProjectID r) (fr_UserID r) (fr_Fact r) (fr_Metric r)
    (fr_Value r) (fr_Payload r) (fr_OccurredAt r) (fr_Offset r) now (fr_Version r).

Definition incomplete (e : CanonicalEvent) : bool :=
  is_empty (ev_EventID e) || is_empty (ev_TenantID e) || is_empty (ev_Type e).

Inductive an_resp :=
| AnErr (code : Z) (msg : string)
| AnCreated (created : bool)
| AnReport (r : ReportResponse).

Section Service.
Context {T : Type} `{!AnStore T} (parseFloat : string -> option float64).

(** The row that [Ingest] hands to the store. *)
Definition fact_of (now : Z) (e : CanonicalEvent) : result FactRow :=
  if incomplete e then Err "event_id, tenant_id and type are required"%string
  else let? row := EventToFact parseFloat (dated e now) in Ok (inserted row now).

Definition Ingest (s : T) (now : Z) (e : CanonicalEvent) : T * result bool :=
  match fact_of now e with
  | Err m => (s, Err m)
  | Ok row => InsertFact s now row
  end.

Definition Report (s : T) (now : Z) (tenantID report : string) : result ReportResponse := QueryReport s now tenantID report.

(** A body is [None] when it cannot be decoded. *)
Definition handleEvent (s : T) (now : Z) (body : option CanonicalEvent) : T * an_resp :=
  match body with
  | None => (s, AnErr 400 "invalid json")
  | Some e =>
      let '(s, r) := Ingest s now e in
      (s, match r with Err m => AnErr 400 m | Ok created => AnCreated created end)
  end.

Definition handleReport (s : T) (now : Z) (tenantID report : string) : T * an_resp :=
  (s, match Report s now (first_nonempty tenantID "default") report with
      | Err m => AnErr 400 m
      | Ok r => AnReport r
      end).

End Service.
