(* ===== verification/AnalyticsSink.v ===== *)
(** * analytics-sink: the bus consumers, ClickHouse and the dimensions

    [services/analytics-sink/cmd/server/consumer.go] and
    [internal/{sink,clickhouse,dimrefresh}].  The ClickHouse connection is any
    instance of [ChConn]; the dimensions are read from the databases of the
    tenant-auth, campaign and knowledge models. *)

From stdpp Require Import pretty.
From S2P Require Import Prelude GoTime Float64 Kv GoStrings TenantAuth Campaign Knowledge Calendar Analytics.

Open Scope Z_scope.

(** ** Events from bus messages *)

(** A message: its subject, the first Nats-Msg-Id header if there is one, and
    its data, [None] when it is not a JSON object. *)
Record Msg := mkMsg { m_Subject : string; m_ID : option string; m_Data : option payload }.

(** The streams read: name, durable consumer, subject prefix of the filter. *)
Definition firehoseConfigs : list (string * string * string) :=
  [("CAPSY_CALL", "analytics-sink-call", "call.");
   ("CAPSY_LEAD", "analytics-sink-lead", "lead.");
   ("CAPSY_HANDOFF", "analytics-sink-handoff", "handoff.");
   ("CAPSY_WA", "analytics-sink-wa", "wa.");
   ("CAPSY_BILLING", "analytics-sink-billing", "billing.");
   ("CAPSY_CAMPAIGN", "analytics-sink-campaign", "campaign.");
   ("CAPSY_SITE", "analytics-sink-site", "site.")]%string.

Definition subscribed (subject : string) : bool := existsb (fun c => has_prefix subject c.2) firehoseConfigs.

(** The functions of the standard library the consumers call: ParseFloat,
    FormatFloat, time.Parse of RFC 3339 (the instant), and the text of a time. *)
Record GoText := mkGoText {
  parseFloat : string -> option float64;
  formatFloat : float64 -> string;
  parseTime : string -> option Z;
  formatTime : Z -> string
}.

Section Events.
Variable go : GoText.

Fixpoint stringVal (m : payload) (keys : list string) : string :=
  match keys with
  | [] => ""
  | k :: keys =>
      match m !! k with
      | Some (JString s) => if is_empty s then stringVal m keys else s
      | Some (JNumber s) => s
      | Some (JFloat f) => formatFloat go f
      | _ => stringVal m keys
      end
  end.

(** Seconds, or milliseconds when the number is large. *)
Definition unixTime (raw : string) : option Z :=
  match parseFloat go raw with
  | None => None
  | Some value =>
      if f_le value (f_of_int 0) then None
      else if f_lt (f_of_int 1000000000000) value then Some (f_to_int value * 1000000)
      else Some (f_to_int value * second)
  end.

Fixpoint timeVal (m : payload) (keys : list string) : Z :=
  match keys with
  | [] => time_zero
  | k :: keys =>
      match (match m !! k with
             | Some (JString s) => parseTime go s
             | Some (JNumber s) => unixTime s
             | Some (JFloat f) => unixTime (formatFloat go f)
             | _ => None
             end) with
      | Some ts => ts
      | None => timeVal m keys
      end
  end.

Definition time_keys : list string := ["occurred_at"; "ended_at"; "created_at"; "sent_at"; "timestamp"; "ts"].

Definition message_event (subject eventID : string) (raw : payload) (occurredAt : Z) : CanonicalEvent :=
  mkEvent eventID (first_nonempty (stringVal raw ["tenant_id"]) "unknown") (stringVal raw ["campaign_id"])
    (stringVal raw ["project_id"]) (stringVal raw ["user_id"; "assigned_user_id"; "salesperson_id"]) subject (Some raw)
    occurredAt 0.

Definition eventFromMessage (now : Z) (msg : Msg) : result CanonicalEvent :=
  match m_Data msg with
  | None => Err "invalid json"%string
  | Some raw =>
      let eventID := first_nonempty (default "" (m_ID msg))
        (stringVal raw ["event_id"; "session_id"; "call_id"; "turn_id"; "message_id"; "wa_message_id"; "handoff_id";
                        "visit_id"; "cost_event_id"; "lead_id"; "output_id"; "retrieval_id"; "id"]) in
      let eventID := first_nonempty eventID (m_Subject msg ++ "-" ++ pretty (wrap64 now)) in
      Ok (message_event (m_Subject msg) eventID raw (or_now (timeVal raw time_keys) now))
  end%string.

(** The consumer of a store that takes one row at a time; the error asks the
    bus to deliver the message again. *)
Definition ingest {T} `{AnStore T} (s : T) (now : Z) (msg : Msg) : T * error :=
  match m_Data msg with
  | None => (s, None)
  | Some raw =>
      let eventID := stringVal raw ["event_id"; "session_id"; "call_id"; "turn_id"; "id"] in
      let eventID := match m_ID msg with Some id => id | None => eventID end in
      let eventID := first_nonempty eventID (m_Subject msg ++ "-" ++ formatTime go now) in
      let '(s, r) := Ingest (parseFloat go) s now (message_event (m_Subject msg) eventID raw (timeVal raw time_keys)) in
      (s, match r with
          | Ok _ => None
          | Err e => if contains e "unsupported event type" then None else Some e
          end)
  end%string.

(** ** sink *)

Class Writer (W : Type) := InsertBatch : W -> Z -> string -> list FactRow -> W * error.

Definition EventToRow (now : Z) (e : CanonicalEvent) : result FactRow :=
  if incomplete e then Err "event_id, tenant_id and type are required"%string
  else let? row := EventToFact (parseFloat go) (dated e now) in Ok (stamped row now).

Section Sink.
(** [tables] is the order in which Go ranges over the map of batches. *)
Context {W : Type} `{!Writer W} (tables : list (string * list FactRow) -> list (string * list FactRow)).

Definition byTable (now : Z) (rows : list FactRow) : gmap string (list FactRow) :=
  foldl (fun m row => <[fr_Fact row := default [] (m !! fr_Fact row) ++ [stamped row now]]> m) ∅ rows.

Fixpoint write_tables (w : W) (now : Z) (batches : list (string * list FactRow)) : W * error :=
  match batches with
  | [] => (w, None)
  | (table, batch) :: batches =>
      let '(w, e) := InsertBatch w now table batch in
      match e with Some e => (w, Some e) | None => write_tables w now batches end
  end.

Definition WriteRows (w : W) (now : Z) (rows : list FactRow) : W * error :=
  match List.find (fun row => is_empty (fr_Fact row)) rows with
  | Some row => (w, Some ("fact table is required for event " ++ quote (fr_EventID row))%string)
  | None => write_tables w now (tables (map_to_list (byTable now rows)))
  end.

(** [WriteEvents]; it stops at an event that cannot be converted. *)
Fixpoint event_rows (now : Z) (events : list CanonicalEvent) : result (list FactRow) :=
  match events with
  | [] => Ok []
  | e :: events => let? row := EventToRow now e in let? rows := event_rows now events in Ok (row :: rows)
  end.
Definition WriteEvents (w : W) (now : Z) (events : list CanonicalEvent) : W * error :=
  match event_rows now events with
  | Err e => (w, Some e)
  | Ok rows => WriteRows w now rows
  end.

(** ** The batch consumer *)

Inductive ack := Ack | Nak.

(** The row of a message; a message without one is acknowledged and dropped. *)
Definition row_of (now : Z) (msg : Msg) : option FactRow :=
  match eventFromMessage now msg with
  | Err _ => None
  | Ok e => match EventToRow now e with Err _ => None | Ok row => Some row end
  end.

(** One fetched batch: what becomes of each message. *)
Definition handle_batch (w : W) (now : Z) (msgs : list Msg) : W * list ack :=
  let rows := omap (row_of now) msgs in
  let '(w, e) := if bool_decide (rows = []) then (w, None) else WriteRows w now rows in
  (w, (fun msg => match row_of now msg, e with Some _, Some _ => Nak | _, _ => Ack end) <$> msgs).

End Sink.
End Events.

(** ** The ClickHouse client *)

Definition factTables : list string :=
  ["fact_calls"; "fact_call_turns"; "fact_whatsapp"; "fact_handoffs"; "fact_site_visits"; "fact_costs";
   "fact_lead_status_changes"; "fact_ai_outputs"; "fact_kb_retrievals"]%string.

Definition IsFactTable (table : string) : bool := bool_decide (table ∈ factTables).

Definition factColumns : list string :=
  ["tenant_id"; "event_id"; "campaign_id"; "project_id"; "user_id"; "metric"; "value"; "payload"; "occurred_at";
   "inserted_at"; "version"]%string.
Definition factColumnList : string := String.concat ", " factColumns.

(** A value of a column. *)
Inductive ChVal := ChString (s : string) | ChFloat (f : float64) | ChTime (t : Z) | ChUInt (n : Z).

(** A connection: it prepares one batch at a time, takes its rows and sends
    them; a query has one argument. *)
Class ChConn (C : Type) := {
  PrepareBatch : C -> string -> C * error;
  BatchAppend : C -> list ChVal -> C * error;
  BatchSend : C -> C * error;
  QueryRow : C -> string -> string -> result Z;
  Query : C -> string -> string -> result (list ReportRow)
}.

(** [^[A-Za-z_][A-Za-z0-9_]*$]. *)
Definition ident_start (c : Ascii.ascii) : bool :=
  let n := Ascii.N_of_ascii c in
  ((65 <=? n)%N && (n <=? 90)%N) || ((97 <=? n)%N && (n <=? 122)%N) || (n =? 95)%N.
Definition ident_char (c : Ascii.ascii) : bool :=
  let n := Ascii.N_of_ascii c in ident_start c || ((48 <=? n)%N && (n <=? 57)%N).
Definition identPattern (s : string) : bool :=
  match String.list_ascii_of_string s with
  | [] => false
  | c :: l => ident_start c && forallb ident_char l
  end.

Section Client.
(** [marshal] is [json.Marshal] of a payload. *)
Context {C : Type} `{!ChConn C} (marshal : payload -> result string) (database : string).

(** [None] is the panic. *)
Definition qualified (table : string) : option string :=
  if negb (identPattern database) || negb (identPattern table) then None else Some (database ++ "." ++ table)%string.

Definition ch_row (now : Z) (row : FactRow) : result (list ChVal) :=
  match marshal (fr_Payload row) with
  | Err e => Err ("clickhouse: marshal payload " ++ fr_EventID row ++ ": " ++ e)%string
  | Ok text =>
      let insertedAt := or_now (fr_InsertedAt row) now in
      let occurredAt := or_now (fr_OccurredAt row) insertedAt in
      let version := if fr_Version row <=? 0 then wrap64 occurredAt else fr_Version row in
      let version := if version <=? 0 then 1 else version in
      Ok [ChString (fr_TenantID row); ChString (fr_EventID row); ChString (fr_CampaignID row);
          ChString (fr_ProjectID row); ChString (fr_UserID row); ChString (fr_Metric row); ChFloat (fr_Value row);
          ChString text; ChTime occurredAt; ChTime insertedAt; ChUInt version]
  end.

Fixpoint append_rows (c : C) (now : Z) (table : string) (rows : list FactRow) : C * error :=
  match rows with
  | [] => (c, None)
  | row :: rows =>
      match ch_row now row with
      | Err e => (c, Some e)
      | Ok vals =>
          let '(c, e) := BatchAppend c vals in
          match e with
          | Some e => (c, Some ("clickhouse: append " ++ table ++ "/" ++ fr_EventID row ++ ": " ++ e)%string)
          | None => append_rows c now table rows
          end
      end
  end.

Definition ch_InsertBatch (c : C) (now : Z) (table : string) (rows : list FactRow) : C * error :=
  if bool_decide (rows = []) then (c, None) else
  if negb (IsFactTable table) then (c, Some ("clickhouse: unsupported fact table " ++ quote table)%string) else
  match qualified table with
  | None => (c, Some "panic: invalid ClickHouse identifier"%string)
  | Some name =>
      let '(c, e) := PrepareBatch c ("INSERT INTO " ++ name ++ " (" ++ factColumnList ++ ")")%string in
      match e with
      | Some e => (c, Some ("clickhouse: prepare " ++ table ++ ": " ++ e)%string)
      | None =>
          let '(c, e) := append_rows c now table rows in
          match e with
          | Some e => (c, Some e)
          | None =>
              let '(c, e) := BatchSend c in
              (c, match e with Some e => Some ("clickhouse: send " ++ table ++ ": " ++ e)%string | None => None end)
          end
      end
  end.

(** ** The ClickHouse store *)

Definition reportSpec (report : string) : result (string * string) :=
  if is_one_of report [""; "daily"] then Ok ("toString(toDate(occurred_at))", "")
  else if is_one_of report ["monthly"] then Ok ("formatDateTime(occurred_at, '%Y-%m')", "")
  else if is_one_of report ["campaign"] then Ok ("if(campaign_id = '', 'unassigned', campaign_id)", "")
  else if is_one_of report ["source"]
  then Ok ("if(JSONExtractString(payload, 'source') = '', 'unknown', JSONExtractString(payload, 'source'))", "")
  else if is_one_of report ["project"] then Ok ("if(project_id = '', 'unassigned', project_id)", "")
  else if is_one_of report ["site-visit"]
  then Ok ("if(project_id = '', 'unassigned', project_id)", " AND fact = 'fact_site_visits'")
  else if is_one_of report ["salesperson"] then Ok ("if(user_id = '', 'unassigned', user_id)", "")
  else if is_one_of report ["whatsapp"] then Ok ("metric", " AND fact = 'fact_whatsapp'")
  else if is_one_of report ["cost"] then Ok ("metric", " AND fact = 'fact_costs'")
  else if is_one_of report ["ai-quality"] then Ok ("metric", " AND fact = 'fact_ai_outputs'")
  else Err ("unsupported report " ++ quote report)%string.

(** The union of the fact tables, in the order of their names. *)
Definition union_part (table : string) : string :=
  ("
SELECT
	'" ++ table ++ "' AS fact,
	tenant_id,
	event_id,
	campaign_id,
	project_id,
	user_id,
	metric,
	value,
	payload,
	occurred_at,
	inserted_at
FROM " ++ default "" (qualified table) ++ " FINAL")%string.
Definition factUnion : string :=
  String.concat "
UNION ALL
" (union_part <$> sort_by String.ltb factTables).

Definition report_query (spec : string * string) : string :=
  ("
SELECT dimension, count() AS count, sum(value) AS value
FROM (
	SELECT " ++ spec.1 ++ " AS dimension, value
	FROM (" ++ factUnion ++ ")
	WHERE tenant_id = ?" ++ spec.2 ++ "
)
GROUP BY dimension
ORDER BY dimension
")%string.

Definition freshness_query : string :=
  ("
SELECT if(count() = 0, 0, dateDiff('second', max(inserted_at), now()))
FROM (" ++ factUnion ++ ")
WHERE tenant_id = ?
")%string.

Definition ch_insertFact (c : C) (now : Z) (row : FactRow) : C * result bool :=
  let row := stamped row now in
  let row := if is_zero (fr_OccurredAt row)
    then mkFact (fr_EventID row) (fr_TenantID row) (fr_CampaignID row) (fr_ProjectID row) (fr_UserID row) (fr_Fact row)
           (fr_Metric row) (fr_Value row) (fr_Payload row) (fr_InsertedAt row) 0 (fr_InsertedAt row) (fr_Version row)
    else row in
  let '(c, e) := ch_InsertBatch c now (fr_Fact row) [row] in
  (c, match e with Some e => Err e | None => Ok true end).

Definition ch_countFact (c : C) (tenantID fact : string) : result Z :=
  if negb (IsFactTable fact) then Err ("unsupported fact table " ++ quote fact)%string
  else QueryRow c ("SELECT count() FROM " ++ default "" (qualified fact) ++ " FINAL WHERE tenant_id = ?")%string tenantID.

Definition freshness (c : C) (tenantID : string) : result Z :=
  let? n := QueryRow c freshness_query tenantID in Ok (if n <? 0 then 0 else n).

Definition ch_queryReport (c : C) (_ : Z) (tenantID report : string) : result ReportResponse :=
  let? spec := reportSpec report in
  let? rows := Query c (report_query spec) tenantID in
  let? fresh := freshness c tenantID in
  Ok (mkReport tenantID report fresh rows).

#[local] Instance ch_writer : Writer C := ch_InsertBatch.
#[local] Instance ch_an_store : AnStore C := {
  InsertFact := ch_insertFact; CountFact := ch_countFact; QueryReport := ch_queryReport }.

(** ** The dimensions *)

(** What the refresher reads: the databases of three services, each [None]
    while its tables do not exist. *)
Record Dims := mkDims {
  di_auth : option PgTa.t;
  di_campaign : option PgCamp.t;
  di_knowledge : option PgKb.t;
  di_up : bool
}.

(** [COALESCE(NULLIF(name, ''), key)] is [first_nonempty]. *)
Definition tenant_dims (p : PgTa.t) : list (list ChVal) :=
  (fun t => [ChString (te_ID t); ChString (te_Name t); ChTime (te_UpdatedAt t)]) <$>
    List.filter (fun t => negb (bool_decide (te_Status t = "deleted"%string))) (PgTa.tenants p).
Definition user_dims (p : PgTa.t) : list (list ChVal) :=
  (fun u => [ChString (us_TenantID u); ChString (us_ID u); ChString (us_DisplayName u); ChString (us_Status u);
             ChTime (us_UpdatedAt u)]) <$>
    List.filter (fun u => negb (bool_decide (us_Status u = "deleted"%string))) (PgTa.users p).
Definition campaign_dims (p : PgCamp.t) : list (list ChVal) :=
  (fun kc => [ChString (ca_TenantID kc.2); ChString kc.1; ChString (first_nonempty (ca_Name kc.2) kc.1);
              ChTime (ca_UpdatedAt kc.2)]) <$> kv_rows (PgCamp.campaigns p).
Definition project_dims (p : PgKb.t) : list (list ChVal) :=
  (fun kp => [ChString (pr_TenantID kp.2); ChString kp.1; ChString (first_nonempty (pr_Name kp.2) kp.1);
              ChTime (pr_UpdatedAt kp.2)]) <$> kv_rows (PgKb.projects p).
(** The tenant of a version is that of its project, if that exists. *)
Definition kb_version_dims (p : PgKb.t) : list (list ChVal) :=
  (fun kv => [ChString (from_option pr_TenantID ""%string (rows_get (vr_ProjectID kv.2) (kv_rows (PgKb.projects p))));
              ChString kv.1; ChString (vr_ProjectID kv.2); ChString (vr_Status kv.2); ChTime (vr_UpdatedAt kv.2)])
    <$> kv_rows (PgKb.kb_versions p).

Fixpoint append_dims (c : C) (table : string) (rows : list (list ChVal)) : C * error :=
  match rows with
  | [] => (c, None)
  | row :: rows =>
      let '(c, e) := BatchAppend c row in
      match e with
      | Some e => (c, Some ("dim " ++ table ++ " append: " ++ e)%string)
      | None => append_dims c table rows
      end
  end.

Definition insertDim (c : C) (table : string) (rows : list (list ChVal)) : C * error :=
  if bool_decide (rows = []) then (c, None) else
  let '(c, e) := PrepareBatch c ("INSERT INTO " ++ default "" (qualified table))%string in
  match e with
  | Some e => (c, Some ("dim " ++ table ++ " prepare: " ++ e)%string)
  | None =>
      let '(c, e) := append_dims c table rows in
      match e with
      | Some e => (c, Some e)
      | None =>
          let '(c, e) := BatchSend c in
          (c, match e with Some e => Some ("dim " ++ table ++ " send: " ++ e)%string | None => None end)
      end
  end.

(** One dimension: nothing when its table does not exist. *)
Definition refresh_dim {P} (c : C) (d : Dims) (source : string) (p : option P) (table : string)
    (rows : P -> list (list ChVal)) : C * error :=
  if negb (di_up d) then (c, Some ("dim refresh: check table " ++ source ++ ": closed")%string)
  else match p with
       | None => (c, None)
       | Some p => insertDim c table (rows p)
       end.

Definition refreshTenants (d : Dims) (c : C) : C * error :=
  refresh_dim c d "tenant_auth.tenants" (di_auth d) "dim_tenants" tenant_dims.
Definition refreshUsers (d : Dims) (c : C) : C * error :=
  refresh_dim c d "tenant_auth.tenant_users" (di_auth d) "dim_users" user_dims.
Definition refreshCampaigns (d : Dims) (c : C) : C * error :=
  refresh_dim c d "campaign.c1_store_records" (di_campaign d) "dim_campaigns" campaign_dims.
Definition refreshProjects (d : Dims) (c : C) : C * error :=
  refresh_dim c d "knowledge.c1_store_records" (di_knowledge d) "dim_projects" project_dims.
Definition refreshKBVersions (d : Dims) (c : C) : C * error :=
  refresh_dim c d "knowledge.c1_store_records" (di_knowledge d) "dim_kb_versions" kb_version_dims.

(** The steps until one fails. *)
Fixpoint first_error (steps : list (C -> C * error)) (c : C) : C * error :=
  match steps with
  | [] => (c, None)
  | f :: steps => let '(c, e) := f c in match e with Some e => (c, Some e) | None => first_error steps c end
  end.

Definition Refresh (d : Dims) (c : C) : C * error :=
  first_error [refreshTenants d; refreshUsers d; refreshCampaigns d; refreshProjects d; refreshKBVersions d] c.

End Client.
