(* ===== verification/AnalyticsSafety.v ===== *)
(** * analytics-sink: what the reports and the consumers promise

    The stores are used through [AnLaws], which the in-memory and the Postgres
    store meet, the ClickHouse connection through [ChLaws]. *)

From stdpp Require Import pretty.
From S2P Require Import Prelude GoTime Float64 Kv GoStrings TenantAuth Campaign Knowledge Calendar Analytics AnalyticsSink.

Open Scope Z_scope.

(** ** Stores *)

(** [an_rows] is the list of rows as a report reads it. *)
Class AnLaws (T : Type) `{AnStore T} := {
  an_ok : T -> Prop;
  an_facts : T -> gmap string FactRow;
  an_rows : T -> list FactRow;
  an_perm s : an_ok s -> an_rows s ≡ₚ (map_to_list (an_facts s)).*2;
  an_insert s now r : an_ok s -> exists s',
    InsertFact s now r = (s', Ok (bool_decide (an_facts s !! fact_key r = None))) /\ an_ok s' /\
    an_facts s' = match an_facts s !! fact_key r with
                  | Some _ => an_facts s
                  | None => <[fact_key r := stamped r now]> (an_facts s)
                  end;
  an_count s t f : an_ok s -> CountFact s t f = Ok (count_fact t f (an_rows s));
  an_report s now t r : an_ok s -> QueryReport s now t r = Ok (report_of now t r (an_rows s))
}.

(** The in-memory map is read in some order. *)
#[export] Program Instance fake_an_laws : AnLaws FakeAn.t := {
  an_ok f := forall l, FakeAn.iter f l ≡ₚ l;
  an_facts f := FakeAn.rows f;
  an_rows f := FakeAn.values f
}.
Next Obligation. intros f Hf. apply Hf. Qed.
Next Obligation.
  intros f now r Hf. simpl. unfold FakeAn.insertFact. destruct (FakeAn.rows f !! fact_key r) eqn:E; by eexists.
Qed.
Next Obligation. done. Qed.
Next Obligation. done. Qed.

#[export] Program Instance pg_an_laws : AnLaws PgAn.t := {
  an_ok p := kv_up (PgAn.facts p) = true /\ NoDup (kv_rows (PgAn.facts p)).*1;
  an_facts p := kv_map (PgAn.facts p);
  an_rows p := (kv_rows (PgAn.facts p)).*2
}.
Next Obligation. intros p [_ Hn]. unfold kv_map. by rewrite (map_to_list_to_map _ Hn). Qed.
Next Obligation.
  intros p now r [Hu Hn]. simpl. unfold PgAn.insertFact, kv_insert. rewrite Hu, kv_map_lookup.
  destruct (rows_get _ _) eqn:E; eexists; (split; [done|]); simpl; [done|].
  split; [by split; [|apply rows_put_NoDup]|]. apply kv_map_put.
Qed.
Next Obligation. intros p t f [Hu _]. simpl. unfold PgAn.countFact, kv_list. by rewrite Hu. Qed.
Next Obligation. intros p now t r [Hu _]. simpl. unfold PgAn.queryReport, kv_list. by rewrite Hu. Qed.

(** ** Groups *)

Section Groups.
Implicit Types (rows : list FactRow).

Definition in_dim (report dim : string) (r : FactRow) : bool := bool_decide (dimensionFor report r = dim).

Definition sum_values (l : list FactRow) : float64 := foldl f_add (f_of_int 0) (fr_Value <$> l).

Lemma group_lookup report rows dim :
  foldl (add_row report) ∅ rows !! dim
  = let mine := List.filter (in_dim report dim) rows in
    if bool_decide (mine = []) then None else Some (mkRow dim (Z.of_nat (length mine)) (sum_values mine)).
Proof.
  induction rows as [|r rows IH] using rev_ind; [done|]. rewrite foldl_snoc, List.filter_app. unfold add_row at 1.
  set (g := foldl (add_row report) ∅ rows) in *. cbv zeta in *.
  destruct (decide (dimensionFor report r = dim)) as [E|E].
  - assert (List.filter (in_dim report dim) [r] = [r]) as -> by (simpl; unfold in_dim; by rewrite bool_decide_true).
    rewrite E, lookup_insert_eq, IH. rewrite (bool_decide_false (_ ++ [r] = [])) by (by destruct (List.filter _ _)).
    f_equal. unfold sum_values. rewrite fmap_app, foldl_app, length_app. simpl.
    case_bool_decide as Hm; [by rewrite Hm|]. simpl. f_equal. lia.
  - assert (List.filter (in_dim report dim) [r] = []) as -> by (simpl; unfold in_dim; by rewrite bool_decide_false).
    by rewrite lookup_insert_ne, IH, app_nil_r.
Qed.

(** The rows of a report: their dimensions in order, and for each the number of
    events and the sum of their values. *)
Lemma report_rows now t report rows :
  let rs := re_Rows (report_of now t report rows) in
  let mine dim := List.filter (in_dim report dim) (List.filter (fun r => bool_decide (fr_TenantID r = t)) rows) in
  StronglySorted (fun a b => row_less a b = true) rs /\
  forall x, x ∈ rs <-> mine (rr_Dimension x) <> [] /\
    x = mkRow (rr_Dimension x) (Z.of_nat (length (mine (rr_Dimension x)))) (sum_values (mine (rr_Dimension x))).
Proof.
  intros rs mine. unfold rs, report_of. simpl. set (l := List.filter _ rows) in *.
  set (g := foldl (add_row report) ∅ l).
  assert (Hg : forall dim x, (dim, x) ∈ map_to_list g -> rr_Dimension x = dim /\ mine dim <> [] /\
    x = mkRow dim (Z.of_nat (length (mine dim))) (sum_values (mine dim))).
  { intros dim x Hx. apply elem_of_map_to_list in Hx. unfold g in Hx. rewrite group_lookup in Hx. simpl in Hx.
    case_bool_decide as Hm; [done|]. injection Hx as <-. by split_and!. }
  split.
  - apply (sort_by_key_strict rr_Dimension). rewrite <- list_fmap_compose.
    rewrite (list_fmap_ext _ fst).
    + apply NoDup_fst_map_to_list.
    + intros i [dim x] Hi. by destruct (Hg dim x (list_elem_of_lookup_2 _ _ _ Hi)) as [Hd _].
  - intros x. rewrite elem_of_sort_by, list_elem_of_fmap. split.
    + intros ([dim y] & -> & Hy). destruct (Hg dim y Hy) as (Hd & Hm & E). simpl. by rewrite Hd.
    + intros [Hm ->]. eexists (rr_Dimension x, _). split; [done|]. apply elem_of_map_to_list. unfold g.
      rewrite group_lookup. cbv zeta. rewrite bool_decide_false by done. done.
Qed.
End Groups.

(** ** Keys *)

(** The key of a fact joins its tenant, its fact and its event with colons; facts
    have none. *)
Fixpoint no_colon (s : string) : bool :=
  match s with EmptyString => true | String c s => negb (bool_decide (c = Ascii.ascii_of_nat 58)) && no_colon s end.

Lemma colon_split a b x y :
  no_colon a = true -> no_colon b = true -> (a ++ ":" ++ x = b ++ ":" ++ y)%string -> a = b /\ x = y.
Proof.
  revert b. induction a as [|c a IH]; intros [|d b]; simpl; intros Ha Hb E.
  - by injection E.
  - injection E as <- _. done.
  - injection E as -> _. done.
  - apply andb_prop in Ha as [_ Ha]. apply andb_prop in Hb as [_ Hb]. injection E as -> E.
    destruct (IH b Ha Hb E) as [-> ->]. done.
Qed.

Lemma fact_key_inj r r' :
  no_colon (fr_TenantID r) = true -> no_colon (fr_TenantID r') = true ->
  no_colon (fr_Fact r) = true -> no_colon (fr_Fact r') = true -> fact_key r = fact_key r' ->
  fr_TenantID r = fr_TenantID r' /\ fr_Fact r = fr_Fact r' /\ fr_EventID r = fr_EventID r'.
Proof.
  intros H1 H2 H3 H4 E. apply colon_split in E as [-> E]; [|done..]. by apply colon_split in E as [-> ->].
Qed.

Lemma classify_plain pf t p fact metric value :
  classify pf t p = Some (fact, metric, value) -> no_colon fact = true.
Proof. unfold classify. intros E. repeat case_match; simplify_eq; reflexivity. Qed.

(** ** Ingestion *)

Section Ingestion.
Context {T : Type} `{AnLaws T} (pf : string -> option float64).
Implicit Types (s : T) (es : list (Z * CanonicalEvent)) (l : list FactRow).

(** Events ingested one after the other, each at its time. *)
Definition ingest_all s es : T := fold_left (fun s x => (Ingest pf s x.1 x.2).1) es s.

(** The facts of a sequence of events, of which only the first with each key
    counts. *)
Definition deliver {K} `{EqDecision K} (key : FactRow -> K) l (x : Z * CanonicalEvent) : list FactRow :=
  match fact_of pf x.1 x.2 with
  | Ok row => if bool_decide (key row ∈ key <$> l) then l else l ++ [row]
  | Err _ => l
  end.

(** What an event is recognised by: its tenant, the kind of fact it reports and
    its id. *)
Definition fact_id (r : FactRow) : string * string * string := (fr_TenantID r, fr_Fact r, fr_EventID r).

(** The facts of a sequence of events: an event that was there before does not
    count. *)
Definition first_facts es : list FactRow := fold_left (deliver fact_id) es [].

(** The colon-joined key of the stores tells events apart when tenants have no
    colon. *)
Definition plain_row (r : FactRow) : Prop :=
  no_colon (fr_TenantID r) = true /\ no_colon (fr_Fact r) = true.

Lemma fact_of_plain now e row :
  no_colon (ev_TenantID e) = true -> fact_of pf now e = Ok row -> plain_row row.
Proof.
  intros He. unfold fact_of, EventToFact. destruct (incomplete e); [done|].
  assert (Ht : ev_TenantID (dated e now) = ev_TenantID e) by (unfold dated; by destruct (is_zero _)).
  destruct (classify _ _ _) as [[[fact metric] value]|] eqn:Ec; [|done]. intros [= <-].
  unfold plain_row, inserted. simpl. rewrite Ht. split; [done|]. by eapply classify_plain.
Qed.

Lemma plain_key_in r l :
  plain_row r -> Forall plain_row l -> fact_key r ∈ fact_key <$> l <-> fact_id r ∈ fact_id <$> l.
Proof.
  intros [H1 H2] Hl. rewrite Forall_forall in Hl. rewrite !list_elem_of_fmap.
  split; intros (r' & E & Hr'); exists r'; (split; [|done]); destruct (Hl r' Hr') as [H3 H4].
  - destruct (fact_key_inj r r' H1 H3 H2 H4 E) as (E1 & E2 & E3). unfold fact_id. by rewrite E1, E2, E3.
  - unfold fact_id in E. injection E as E1 E2 E3. unfold fact_key. by rewrite E1, E2, E3.
Qed.

Lemma key_facts es l :
  Forall (fun x => no_colon (ev_TenantID x.2) = true) es -> Forall plain_row l ->
  fold_left (deliver fact_key) es l = fold_left (deliver fact_id) es l.
Proof.
  intros Hes. revert l. induction Hes as [|x es Hx _ IH]; intros l Hl; [done|]. simpl.
  assert (Hd : deliver fact_key l x = deliver fact_id l x /\ Forall plain_row (deliver fact_id l x)).
  { unfold deliver. destruct (fact_of pf x.1 x.2) as [row|] eqn:E; [|done].
    pose proof (fact_of_plain _ _ _ Hx E) as Hp.
    rewrite (bool_decide_ext _ _ (plain_key_in row l Hp Hl)). split; [done|].
    case_bool_decide; [done|]. apply Forall_app. split; [done|]. by constructor. }
  destruct Hd as [-> Hp]. by apply IH.
Qed.

(** The store holds these facts. *)
Definition holds s l : Prop :=
  an_ok s /\ NoDup (fact_key <$> l) /\ an_facts s = list_to_map ((fun r => (fact_key r, r)) <$> l).

Lemma keyed_fst l : ((fun r => (fact_key r, r)) <$> l).*1 = fact_key <$> l.
Proof. by rewrite <- list_fmap_compose. Qed.

Lemma stamped_fact now e row : fact_of pf now e = Ok row -> stamped row now = row.
Proof.
  unfold fact_of. destruct (incomplete e); [done|]. destruct (EventToFact pf (dated e now)) as [r|]; [|done].
  intros [= <-]. unfold stamped, inserted. simpl. f_equal. unfold or_now. by destruct (is_zero now).
Qed.

Lemma ingest_deliver s l x : holds s l -> holds (Ingest pf s x.1 x.2).1 (deliver fact_key l x).
Proof.
  intros (Hok & Hn & Hf). unfold Ingest, deliver. destruct (fact_of pf x.1 x.2) as [row|] eqn:E; [|done].
  destruct (an_insert s x.1 row Hok) as (s' & -> & Hok' & Hf'). simpl. rewrite Hf in Hf'.
  case_bool_decide as Hin.
  - rewrite <- keyed_fst in Hin. destruct (list_to_map (M:=gmap string FactRow) _ !! fact_key row) eqn:El; [by split_and!|].
    apply not_elem_of_list_to_map_2 in El. done.
  - rewrite not_elem_of_list_to_map_1 in Hf' by by rewrite keyed_fst. rewrite (stamped_fact _ _ _ E) in Hf'.
    split_and!; [done| |].
    + rewrite fmap_app. apply NoDup_app. split_and!; [done| |by apply NoDup_singleton].
      intros k Hk Hk'. by apply list_elem_of_singleton in Hk' as ->.
    + rewrite Hf', fmap_app. simpl. rewrite list_to_map_app. simpl. rewrite <- insert_union_r; [|].
      * by rewrite (right_id_L ∅ (∪)).
      * apply not_elem_of_list_to_map_1. by rewrite keyed_fst.
Qed.

Lemma ingest_all_holds es s l : holds s l -> holds (ingest_all s es) (fold_left (deliver fact_key) es l).
Proof. revert s l. induction es as [|x es IH]; intros s l Hs; [done|]. by apply IH, ingest_deliver. Qed.

Lemma holds_rows s l : holds s l -> an_rows s ≡ₚ l.
Proof.
  intros (Hok & Hn & Hf). rewrite (an_perm s Hok), Hf, map_to_list_to_map by by rewrite keyed_fst.
  rewrite <- list_fmap_compose. by rewrite list_fmap_id.
Qed.

(** The facts of a tenant in one dimension of a report. *)
Definition facts_in (t report dim : string) es : list FactRow :=
  List.filter (in_dim report dim) (List.filter (fun r => bool_decide (fr_TenantID r = t)) (first_facts es)).

(** C17: A report counts each event of the tenant once.  Whatever events were
    ingested, repeated or of other tenants, into an empty in-memory or Postgres
    store that answers, all of tenants whose ids have no colon, a report lists its
    dimensions in order; a line has the number of the tenant's facts in its
    dimension, an event (its tenant, the kind of fact and its id) counting by its
    first delivery only, and the sum of their values in the order the store reads
    them; and no fact is missing.  A colon in a tenant's id breaks this
    ([tenant_with_a_colon_hides_an_event]); the ClickHouse store is not covered. *)
Theorem reports_count_each_event_once s es now t report :
  an_ok s -> an_facts s = ∅ -> Forall (fun x => no_colon (ev_TenantID x.2) = true) es ->
  exists r, Report (ingest_all s es) now t report = Ok r /\
    StronglySorted (fun a b => row_less a b = true) (re_Rows r) /\
    (forall x, x ∈ re_Rows r -> exists l, l ≡ₚ facts_in t report (rr_Dimension x) es /\ l <> [] /\
      rr_Count x = Z.of_nat (length l) /\ rr_Value x = sum_values l) /\
    (forall f, f ∈ first_facts es -> fr_TenantID f = t ->
      exists x, x ∈ re_Rows r /\ rr_Dimension x = dimensionFor report f).
Proof.
  intros Hok Hf Hes. assert (Hh : holds (ingest_all s es) (first_facts es)).
  { unfold first_facts. rewrite <- key_facts by (done || constructor).
    apply ingest_all_holds. split_and!; [done|constructor|done]. }
  pose proof (holds_rows _ _ Hh) as Hp. destruct Hh as (Hok' & _).
  eexists. split; [apply an_report, Hok'|]. set (s' := ingest_all s es) in *.
  destruct (report_rows now t report (an_rows s')) as [Hs Hin]. split; [done|].
  assert (Hperm : forall dim, List.filter (in_dim report dim)
    (List.filter (fun r => bool_decide (fr_TenantID r = t)) (an_rows s')) ≡ₚ facts_in t report dim es)
    by (intros dim; by apply filter_perm, filter_perm).
  split.
  - intros x Hx. apply Hin in Hx as [Hne E]. eexists. split; [apply Hperm|]. split; [done|]. by rewrite E at 1 3.
  - intros f Hfin Ht. set (dim := dimensionFor report f).
    assert (Hm : f ∈ facts_in t report dim es).
    { unfold facts_in. rewrite !list_elem_of_In, !filter_In, <- list_elem_of_In.
      split_and!; [done|by apply bool_decide_eq_true|by apply bool_decide_eq_true]. }
    eexists (mkRow dim _ _). split; [|done]. apply Hin. cbn [rr_Dimension]. split; [|reflexivity]. intros E.
    rewrite <- Hperm, E in Hm. by apply not_elem_of_nil in Hm.
Qed.

(** An event delivered again, whenever and however often, is not counted: the
    answer is that nothing was created, and the facts stay as they were. *)
Theorem repeated_event_is_not_created s now e row now' :
  an_ok s -> fact_of pf now e = Ok row ->
  let s1 := (Ingest pf s now e).1 in
  (Ingest pf s1 now' e).2 = Ok false /\ an_facts (Ingest pf s1 now' e).1 = an_facts s1.
Proof.
  intros Hok E s1. destruct (an_insert s now row Hok) as (s' & Hi & Hok1 & Hf1).
  assert (s1 = s') as -> by (unfold s1, Ingest; by rewrite E, Hi).
  assert (exists row', fact_of pf now' e = Ok row' /\ fact_key row' = fact_key row) as (row' & E' & Hk).
  { revert E. unfold fact_of, EventToFact. destruct (incomplete e); [done|].
    assert (Hd : forall n, ev_Type (dated e n) = ev_Type e /\ ev_Payload (dated e n) = ev_Payload e /\
      ev_TenantID (dated e n) = ev_TenantID e /\ ev_EventID (dated e n) = ev_EventID e)
      by (intros n; unfold dated; by destruct (is_zero _)).
    destruct (Hd now) as (-> & -> & Ht & Hi1), (Hd now') as (-> & -> & Ht' & Hi2).
    destruct (classify _ _ _) as [[[fact metric] value]|]; [|done]. intros [= <-]. eexists. split; [done|].
    unfold fact_key, inserted. simpl. by rewrite Ht, Ht', Hi1, Hi2. }
  assert (Hs : is_Some (an_facts s' !! fact_key row)).
  { rewrite Hf1. destruct (an_facts s !! fact_key row) eqn:El; [by eexists|]. rewrite lookup_insert_eq. by eexists. }
  destruct Hs as [old Hold]. destruct (an_insert s' now' row' Hok1) as (s2 & Hi2 & _ & Hf2).
  unfold Ingest. rewrite E', Hi2. simpl. rewrite Hk, Hold in *. split; [|done]. by rewrite bool_decide_false.
Qed.
End Ingestion.

(** With a colon in its id, one tenant's event hides another's. *)
Theorem tenant_with_a_colon_hides_an_event :
  let ev tenant id := mkEvent id tenant "" "" "" "call.completed" None hour 0 in
  let s := (Ingest (fun _ => None) (FakeAn.NewFake (fun l => l)) hour (ev "a" "x:fact_calls:y"))%string.1 in
  (Ingest (fun _ => None) s hour (ev "a:fact_calls:x" "y"))%string.2 = Ok false.
Proof. vm_compute. reflexivity. Qed.

(** * analytics-sink: what is acknowledged is stored

    A message of the bus is acknowledged only when its row reached its table,
    over any ClickHouse connection that keeps what it is sent; the dimensions
    are the tables they are read from; and two defects. *)

(** ** Writers *)

(** A batch that is accepted is stored whole, and nothing is lost. *)
Class WriterLaws (W : Type) `{Writer W} := {
  w_has : W -> string -> FactRow -> Prop;
  w_keeps w now table rows tab r : w_has w tab r -> w_has (InsertBatch w now table rows).1 tab r;
  w_stores w now table rows r :
    (InsertBatch w now table rows).2 = None -> r ∈ rows -> w_has (InsertBatch w now table rows).1 table r
}.

Section Batches.
Context {W : Type} `{WriterLaws W} (go : GoText).
Context (tables : list (string * list FactRow) -> list (string * list FactRow)).
Context (tables_perm : forall l, tables l ≡ₚ l).
Implicit Types (w : W).

Lemma write_tables_keeps batches w now tab r : w_has w tab r -> w_has (write_tables w now batches).1 tab r.
Proof.
  revert w. induction batches as [|[table batch] batches IH]; intros w Hw; simpl; [done|].
  pose proof (w_keeps w now table batch tab r Hw) as Hk. destruct (InsertBatch w now table batch) as [w' [e|]]; [done|].
  by apply IH.
Qed.

Lemma write_tables_stores batches w now table batch r :
  (write_tables w now batches).2 = None -> (table, batch) ∈ batches -> r ∈ batch ->
  w_has (write_tables w now batches).1 table r.
Proof.
  revert w. induction batches as [|[t b] batches IH]; intros w Hn Hin Hr; [by apply not_elem_of_nil in Hin|].
  simpl in *. pose proof (w_stores w now t b r) as Hs. destruct (InsertBatch w now t b) as [w' [e|]]; [done|].
  apply elem_of_cons in Hin as [[= -> ->]|Hin]; [|by apply IH].
  apply write_tables_keeps. by apply Hs.
Qed.

(** Every row is in the batch of its table. *)
Lemma byTable_elem now rows r :
  r ∈ rows -> exists batch, byTable now rows !! fr_Fact r = Some batch /\ stamped r now ∈ batch.
Proof.
  unfold byTable. induction rows as [|x rows IH] using rev_ind; intros Hr; [by apply not_elem_of_nil in Hr|].
  rewrite foldl_snoc. set (m := foldl _ ∅ rows) in *.
  destruct (decide (fr_Fact x = fr_Fact r)) as [E|E].
  - rewrite E, lookup_insert_eq. eexists. split; [done|]. apply elem_of_app in Hr as [Hr|Hr].
    + destruct (IH Hr) as (b & -> & Hb). apply elem_of_app. by left.
    + apply list_elem_of_singleton in Hr as ->. apply elem_of_app. right. by apply list_elem_of_singleton.
  - rewrite lookup_insert_ne by done. apply elem_of_app in Hr as [Hr|Hr]; [by apply IH|].
    by apply list_elem_of_singleton in Hr as ->.
Qed.

Lemma WriteRows_stores w now rows r :
  (WriteRows tables w now rows).2 = None -> r ∈ rows -> w_has (WriteRows tables w now rows).1 (fr_Fact r) (stamped r now).
Proof.
  unfold WriteRows. destruct (List.find _ rows); [done|]. intros Hn Hr.
  destruct (byTable_elem now rows r Hr) as (batch & Hb & Hin).
  apply (write_tables_stores _ _ _ _ batch); [done| |done]. rewrite tables_perm. by apply elem_of_map_to_list.
Qed.

Lemma stamped_twice r now : fr_InsertedAt r <> time_zero -> stamped r now = r.
Proof.
  intros Hz. destruct r. unfold stamped. simpl in *. unfold or_now, is_zero.
  by destruct (Z.eqb_spec fr_InsertedAt time_zero).
Qed.

Lemma row_inserted now msg r : now <> time_zero -> row_of go now msg = Some r -> fr_InsertedAt r = now.
Proof.
  intros Hz. unfold row_of, EventToRow. destruct (eventFromMessage go now msg) as [e|]; [|done].
  destruct (incomplete e); [done|]. unfold EventToFact. destruct (classify _ _ _) as [[[? ?] ?]|]; [|done].
  by intros [= <-].
Qed.

(** Acknowledged messages are stored. Of a fetched batch, whatever the tables
    are written in which order and whichever write fails, every message has a
    verdict; one that stands for a fact is acknowledged only when its row is in
    its table, and otherwise handed back; one that is acknowledged without a row
    is not JSON or not of a supported type. *)
Theorem acknowledged_messages_are_stored w now msgs i msg :
  now <> time_zero -> msgs !! i = Some msg ->
  let '(w', acks) := handle_batch go tables w now msgs in
  match row_of go now msg with
  | Some row => (acks !! i = Some Ack /\ w_has w' (fr_Fact row) row) \/ acks !! i = Some Nak
  | None => acks !! i = Some Ack /\
            (m_Data msg = None \/ exists e m, eventFromMessage go now msg = Ok e /\ EventToRow go now e = Err m)
  end.
Proof.
  intros Hz Hi. unfold handle_batch. set (rows := omap (row_of go now) msgs).
  assert (Hw : forall row, row_of go now msg = Some row -> row ∈ rows).
  { intros row Hrow. apply list_elem_of_omap. exists msg. split; [by apply list_elem_of_lookup_2 in Hi|done]. }
  destruct (row_of go now msg) as [row|] eqn:Hrow; last first.
  { destruct (if bool_decide _ then _ else _) as [w' e]. rewrite list_lookup_fmap, Hi. simpl. rewrite Hrow. split; [done|].
    unfold row_of in Hrow. destruct (eventFromMessage go now msg) as [ev|] eqn:Hev.
    - right. destruct (EventToRow go now ev) as [|m] eqn:Em; [done|]. by exists ev, m.
    - left. unfold eventFromMessage in Hev. by destruct (m_Data msg). }
  specialize (Hw row eq_refl). rewrite bool_decide_false by (intros E; rewrite E in Hw; by apply not_elem_of_nil in Hw).
  pose proof (WriteRows_stores w now rows row) as Hst.
  destruct (WriteRows tables w now rows) as [w' [e|]]; rewrite list_lookup_fmap, Hi; simpl; rewrite Hrow; [by right|].
  left. split; [done|]. rewrite stamped_twice in Hst by (by rewrite (row_inserted _ _ _ Hz Hrow)). by apply Hst.
Qed.
End Batches.

(** ** ClickHouse as a writer *)

(** A connection keeps what it has stored, collects the rows of the prepared
    batch, and has stored them when a send succeeds. *)
Class ChLaws (C : Type) `{ChConn C} := {
  ch_stored : C -> string -> list ChVal -> Prop;
  ch_batch : C -> option (string * list (list ChVal));
  ch_prepare c q tab v : ch_stored c tab v -> ch_stored (PrepareBatch c q).1 tab v;
  ch_prepared c q : (PrepareBatch c q).2 = None -> ch_batch (PrepareBatch c q).1 = Some (q, []);
  ch_append c v tab v' : ch_stored c tab v' -> ch_stored (BatchAppend c v).1 tab v';
  ch_appended c q l v : ch_batch c = Some (q, l) -> (BatchAppend c v).2 = None ->
    ch_batch (BatchAppend c v).1 = Some (q, l ++ [v]);
  ch_send c tab v : ch_stored c tab v -> ch_stored (BatchSend c).1 tab v;
  ch_sent c q l v : ch_batch c = Some (q, l) -> (BatchSend c).2 = None -> v ∈ l -> ch_stored (BatchSend c).1 q v
}.

Section Click.
Context {C : Type} `{ChLaws C} (marshal : payload -> result string) (database : string).
#[local] Instance click_writer : Writer C := ch_InsertBatch marshal database.

Definition insert_into (name : string) : string := ("INSERT INTO " ++ name ++ " (" ++ factColumnList ++ ")")%string.

(** The row is stored under the columns of the facts. *)
Definition click_has (c : C) (table : string) (r : FactRow) : Prop :=
  exists now name vals, qualified database table = Some name /\ ch_row marshal now r = Ok vals /\
    ch_stored c (insert_into name) vals.

Lemma append_rows_keeps rows c now table tab v : ch_stored c tab v -> ch_stored (append_rows marshal c now table rows).1 tab v.
Proof.
  revert c. induction rows as [|r rows IH]; intros c Hc; simpl; [done|]. destruct (ch_row marshal now r) as [vals|]; [|done].
  pose proof (ch_append c vals tab v Hc) as Ha. destruct (BatchAppend c vals) as [c' [e|]]; [done|]. by apply IH.
Qed.

Lemma append_rows_batch rows c now table q l :
  ch_batch c = Some (q, l) -> (append_rows marshal c now table rows).2 = None ->
  exists vs, Forall2 (fun r v => ch_row marshal now r = Ok v) rows vs /\
    ch_batch (append_rows marshal c now table rows).1 = Some (q, l ++ vs).
Proof.
  revert c l. induction rows as [|r rows IH]; intros c l Hb Hn; simpl in *; [exists []; by rewrite app_nil_r|].
  destruct (ch_row marshal now r) as [vals|] eqn:Er; [|done].
  pose proof (ch_appended c q l vals Hb) as Ha. destruct (BatchAppend c vals) as [c' [e|]]; [done|].
  destruct (IH c' (l ++ [vals]) (Ha eq_refl) Hn) as (vs & Hvs & Hb'). exists (vals :: vs).
  split; [by constructor|]. by rewrite Hb', <- app_assoc.
Qed.

Lemma insert_keeps c now table rows tab v : ch_stored c tab v -> ch_stored (ch_InsertBatch marshal database c now table rows).1 tab v.
Proof.
  intros Hc. unfold ch_InsertBatch. destruct (bool_decide _); [done|]. destruct (negb _); [done|].
  destruct (qualified database table) as [name|]; [|done]. fold (insert_into name).
  pose proof (ch_prepare c (insert_into name) tab v Hc) as Hp.
  destruct (PrepareBatch c (insert_into name)) as [c1 [e|]]; [done|]. simpl in Hp.
  pose proof (append_rows_keeps rows c1 now table tab v Hp) as Ha.
  destruct (append_rows marshal c1 now table rows) as [c2 [e|]]; [done|]. simpl in Ha.
  pose proof (ch_send c2 tab v Ha) as Hs. by destruct (BatchSend c2).
Qed.

Lemma insert_stores c now table rows r :
  (ch_InsertBatch marshal database c now table rows).2 = None -> r ∈ rows ->
  click_has (ch_InsertBatch marshal database c now table rows).1 table r.
Proof.
  intros Hn Hr. unfold ch_InsertBatch in *. destruct (bool_decide_reflect (rows = [])) as [->|_]; [by apply not_elem_of_nil in Hr|].
  destruct (negb _); [done|]. destruct (qualified database table) as [name|] eqn:Hq; [|done]. fold (insert_into name) in *.
  pose proof (ch_prepared c (insert_into name)) as Hp.
  destruct (PrepareBatch c (insert_into name)) as [c1 [e|]]; [done|]. specialize (Hp eq_refl). simpl in Hp.
  pose proof (append_rows_batch rows c1 now table (insert_into name) [] Hp) as Ha.
  destruct (append_rows marshal c1 now table rows) as [c2 [e|]]; [done|].
  destruct (Ha eq_refl) as (vs & Hvs & Hb). simpl in Hb.
  apply list_elem_of_lookup in Hr as [k Hk]. destruct (Forall2_lookup_l _ _ _ _ _ Hvs Hk) as (vals & Hin & Hv).
  apply list_elem_of_lookup_2 in Hin.
  pose proof (ch_sent c2 (insert_into name) vs vals Hb) as Hs.
  destruct (BatchSend c2) as [c3 [e|]]; [done|]. exists now, name, vals. split_and!; [done..|]. by apply Hs.
Qed.

#[local] Program Instance click_writer_laws : WriterLaws C := { w_has := click_has }.
Next Obligation.
  intros c now table rows tab r (n & name & vals & Hq & Hv & Hs). exists n, name, vals. split_and!; [done..|].
  by apply insert_keeps.
Qed.
Next Obligation. intros c now table rows r Hn Hr. by apply insert_stores. Qed.

(** With a ClickHouse that keeps what it accepts, an acknowledged fact is in the
    table of its kind. *)
Theorem acknowledged_messages_are_in_clickhouse go tables c now msgs i msg row :
  (forall l, tables l ≡ₚ l) -> now <> time_zero -> msgs !! i = Some msg -> row_of go now msg = Some row ->
  (handle_batch go tables c now msgs).2 !! i = Some Ack ->
  click_has (handle_batch go tables c now msgs).1 (fr_Fact row) row.
Proof.
  intros Hp Hz Hi Hr Ha. unfold handle_batch in *. set (rows := omap (row_of go now) msgs) in *.
  assert (Hw : row ∈ rows).
  { apply list_elem_of_omap. exists msg. split; [by apply list_elem_of_lookup_2 in Hi|done]. }
  rewrite bool_decide_false in * by (intros E; rewrite E in Hw; by apply not_elem_of_nil in Hw).
  pose proof (WriteRows_stores tables Hp c now rows row) as Hst.
  destruct (WriteRows tables c now rows) as [c' [e|]]; simpl in *; rewrite list_lookup_fmap, Hi in Ha; simpl in Ha;
    rewrite Hr in Ha; [done|].
  rewrite stamped_twice in Hst by (by rewrite (row_inserted go _ _ _ Hz Hr)). by apply Hst.
Qed.
End Click.

(** ** The dimensions *)

Section Dimensions.
Context {C : Type} `{ChLaws C} (database : string).
Implicit Types (c : C) (d : Dims).

(** A dimension's rows are in its table. *)
Definition dim_stored c (table : string) (rows : list (list ChVal)) : Prop :=
  Forall (ch_stored c ("INSERT INTO " ++ default "" (qualified database table))%string) rows.

Lemma append_dims_keeps rows c table tab v : ch_stored c tab v -> ch_stored (append_dims c table rows).1 tab v.
Proof.
  revert c. induction rows as [|r rows IH]; intros c Hc; simpl; [done|]. pose proof (ch_append c r tab v Hc) as Ha.
  destruct (BatchAppend c r) as [c' [e|]]; [done|]. by apply IH.
Qed.

Lemma append_dims_batch rows c table q l :
  ch_batch c = Some (q, l) -> (append_dims c table rows).2 = None ->
  ch_batch (append_dims c table rows).1 = Some (q, l ++ rows).
Proof.
  revert c l. induction rows as [|r rows IH]; intros c l Hb Hn; simpl in *; [by rewrite app_nil_r|].
  pose proof (ch_appended c q l r Hb) as Ha. destruct (BatchAppend c r) as [c' [e|]]; [done|].
  by rewrite (IH c' (l ++ [r]) (Ha eq_refl) Hn), <- app_assoc.
Qed.

Lemma insertDim_keeps c table rows tab v : ch_stored c tab v -> ch_stored (insertDim database c table rows).1 tab v.
Proof.
  intros Hc. unfold insertDim. destruct (bool_decide _); [done|]. set (q := ("INSERT INTO " ++ _)%string).
  pose proof (ch_prepare c q tab v Hc) as Hp. destruct (PrepareBatch c q) as [c1 [e|]]; [done|]. simpl in Hp.
  pose proof (append_dims_keeps rows c1 table tab v Hp) as Ha.
  destruct (append_dims c1 table rows) as [c2 [e|]]; [done|]. simpl in Ha.
  pose proof (ch_send c2 tab v Ha) as Hs. by destruct (BatchSend c2).
Qed.

Lemma insertDim_stores c table rows :
  (insertDim database c table rows).2 = None -> dim_stored (insertDim database c table rows).1 table rows.
Proof.
  unfold insertDim, dim_stored. destruct (bool_decide_reflect (rows = [])) as [->|_]; [by constructor|].
  set (q := ("INSERT INTO " ++ _)%string). pose proof (ch_prepared c q) as Hp.
  destruct (PrepareBatch c q) as [c1 [e|]]; [done|]. specialize (Hp eq_refl). simpl in Hp.
  pose proof (append_dims_batch rows c1 table q [] Hp) as Ha.
  destruct (append_dims c1 table rows) as [c2 [e|]]; [done|]. specialize (Ha eq_refl). simpl in Ha.
  pose proof (fun v => ch_sent c2 q rows v Ha) as Hs. destruct (BatchSend c2) as [c3 [e|]]; [done|]. intros _.
  apply Forall_forall. intros v Hv. by apply Hs.
Qed.

(** A step that keeps what is stored and, when it succeeds, has established [Q]. *)
Definition step_ok (f : C -> C * error) (Q : C -> Prop) : Prop :=
  (forall c tab v, ch_stored c tab v -> ch_stored (f c).1 tab v) /\ (forall c, (f c).2 = None -> Q (f c).1).

Lemma refresh_dim_ok {P} d source (p : option P) table rows :
  step_ok (fun c => refresh_dim database c d source p table rows)
    (fun c => match p with Some p => dim_stored c table (rows p) | None => True end).
Proof.
  split; intros c; unfold refresh_dim; destruct (negb (di_up d)), p as [p|]; try done.
  - intros tab v. apply insertDim_keeps.
  - apply insertDim_stores.
Qed.

Lemma first_error_keeps steps c tab v :
  Forall (fun f => forall c tab v, ch_stored c tab v -> ch_stored (f c).1 tab v) steps ->
  ch_stored c tab v -> ch_stored (first_error steps c).1 tab v.
Proof.
  intros Hs. revert c. induction Hs as [|f steps Hf _ IH]; intros c Hc; simpl; [done|]. pose proof (Hf c tab v Hc).
  destruct (f c) as [c' [e|]]; [done|]. by apply IH.
Qed.

(** What holds of the connection and only grows with what is stored. *)
Definition stable (Q : C -> Prop) : Prop :=
  forall c c', (forall tab v, ch_stored c tab v -> ch_stored c' tab v) -> Q c -> Q c'.

Lemma first_error_ok steps qs c :
  Forall2 step_ok steps qs -> Forall stable qs -> (first_error steps c).2 = None ->
  Forall (fun Q => Q (first_error steps c).1) qs.
Proof.
  intros H2. revert c. induction H2 as [|f Q steps qs [Hk Hq] Hrest IH]; intros c Hst Hn; [constructor|].
  apply Forall_cons in Hst as [HQ Hst]. simpl in *. pose proof (Hq c) as Hc. destruct (f c) as [c' [e|]]; [done|].
  constructor; [|by apply IH]. apply (HQ c'); [|by apply Hc]. intros tab v. apply first_error_keeps.
  apply (Forall2_Forall_l (fun f _ => forall c tab v, ch_stored c tab v -> ch_stored (f c).1 tab v) _ steps qs).
  - apply (Forall2_impl step_ok); [done|]. by intros f' Q' [].
  - by apply Forall_true.
Qed.

(** A refresh that succeeds has copied every dimension whole: the tenants and
    users that are not deleted, and all campaigns, projects and knowledge-base
    versions, each with the tenant that owns it, are in their tables. *)
Theorem refreshed_dimensions_are_complete d c :
  (Refresh database d c).2 = None ->
  let c' := (Refresh database d c).1 in
  (forall p, di_auth d = Some p -> dim_stored c' "dim_tenants" (tenant_dims p) /\ dim_stored c' "dim_users" (user_dims p)) /\
  (forall p, di_campaign d = Some p -> dim_stored c' "dim_campaigns" (campaign_dims p)) /\
  (forall p, di_knowledge d = Some p ->
     dim_stored c' "dim_projects" (project_dims p) /\ dim_stored c' "dim_kb_versions" (kb_version_dims p)).
Proof.
  intros Hn. unfold Refresh in *.
  pose proof (fun qs H2 Hs => first_error_ok _ qs c H2 Hs Hn) as Hall.
  specialize (Hall _ ltac:(repeat (constructor; [apply refresh_dim_ok|]); constructor)).
  assert (Hstable : forall {P} (p : option P) table rows,
    stable (fun c => match p with Some p => dim_stored c table (rows p) | None => True end)).
  { intros P [p|] table rows a b Hab; [|done]. intros Hd. eapply Forall_impl; [exact Hd|]. intros v. apply Hab. }
  specialize (Hall ltac:(repeat (constructor; [apply Hstable|]); constructor)).
  repeat match type of Hall with Forall _ (_ :: _) => apply Forall_cons in Hall as [? Hall] end.
  split_and!; intros p Hp; rewrite Hp in *; done.
Qed.
End Dimensions.

(** ** A connection in memory *)

(** It stores what is sent while it is up. *)
Module MemCh.
Record t := mk { stored : list (string * list ChVal); batch : option (string * list (list ChVal)); up : bool }.

Definition prepare (c : t) (q : string) : t * error :=
  if up c then (mk (stored c) (Some (q, [])) true, None) else (c, Some "connection refused"%string).
Definition append (c : t) (v : list ChVal) : t * error :=
  match batch c with
  | Some (q, l) => (mk (stored c) (Some (q, l ++ [v])) (up c), None)
  | None => (c, Some "no batch"%string)
  end.
Definition send (c : t) : t * error :=
  match up c, batch c with
  | true, Some (q, l) => (mk (stored c ++ ((fun v => (q, v)) <$> l)) None true, None)
  | _, _ => (mk (stored c) None (up c), Some "connection refused"%string)
  end.
End MemCh.

#[export] Instance mem_conn : ChConn MemCh.t := {
  PrepareBatch := MemCh.prepare; BatchAppend := MemCh.append; BatchSend := MemCh.send;
  QueryRow _ _ _ := Ok 0; Query _ _ _ := Ok [] }.

#[export] Program Instance mem_conn_laws : ChLaws MemCh.t := {
  ch_stored c tab v := (tab, v) ∈ MemCh.stored c;
  ch_batch c := MemCh.batch c
}.
Next Obligation. intros c q tab v Hc. simpl. unfold MemCh.prepare. by destruct (MemCh.up c). Qed.
Next Obligation. intros c q Hn. simpl in *. unfold MemCh.prepare in *. by destruct (MemCh.up c). Qed.
Next Obligation. intros c v tab v' Hc. simpl. unfold MemCh.append. by destruct (MemCh.batch c) as [[q l]|]. Qed.
Next Obligation. intros c q l v Hb Hn. simpl in *. unfold MemCh.append. by rewrite Hb. Qed.
Next Obligation.
  intros c tab v Hc. simpl. unfold MemCh.send. destruct (MemCh.up c), (MemCh.batch c) as [[q l]|]; simpl; try done.
  apply elem_of_app. by left.
Qed.
Next Obligation.
  intros c q l v Hb Hn Hv. simpl in *. unfold MemCh.send in *. rewrite Hb in *. destruct (MemCh.up c); [|done]. simpl.
  apply elem_of_app. right. by apply list_elem_of_fmap_2.
Qed.

(** ** Two defects *)

Lemma event_type go now msg e : eventFromMessage go now msg = Ok e -> ev_Type e = m_Subject msg.
Proof.
  unfold eventFromMessage. destruct (m_Data msg) as [raw|]; [|done]. intros He.
  apply (f_equal (fun r => match r with Ok e => ev_Type e | Err _ => ""%string end)) in He. exact (eq_sym He).
Qed.

Lemma classify_unread pf t p metric value fact :
  classify pf t p = Some (fact, metric, value) ->
  fact = "fact_ai_outputs"%string \/ fact = "fact_kb_retrievals"%string -> subscribed t = true -> False.
Proof.
  intros Ec Hf Hs.
  assert (Hlit : forall l, is_one_of t l = true -> existsb subscribed l = true).
  { intros l Hl. apply bool_decide_eq_true in Hl. apply existsb_exists. exists t. by rewrite <- list_elem_of_In. }
  apply (f_equal (fun r => fst (fst (default ("", "", f_of_int 0)%string r)))) in Ec. unfold classify in Ec.
  repeat match type of Ec with context [if ?b then Some _ else _] =>
    destruct b eqn:?; [cbn [from_option fst snd id] in Ec; subst fact;
      first [by destruct Hf|match goal with H : is_one_of _ _ = true |- _ => apply Hlit in H; vm_compute in H; discriminate H end]|] end.
  change (""%string = fact) in Ec. subst fact. by destruct Hf.
Qed.

(** The transform knows the outputs of the models and the retrievals of the
    knowledge base, but no stream that is read carries such a subject: from the
    bus these two fact tables get no rows. *)
Theorem bus_never_fills_two_fact_tables go now msg row :
  subscribed (m_Subject msg) = true -> to_lower (trim_space (m_Subject msg)) = m_Subject msg ->
  row_of go now msg = Some row -> fr_Fact row <> "fact_ai_outputs"%string /\ fr_Fact row <> "fact_kb_retrievals"%string.
Proof.
  intros Hsub Hnorm. unfold row_of, EventToRow. destruct (eventFromMessage go now msg) as [e|] eqn:He; [|done].
  assert (Ht : forall n, ev_Type (dated e n) = m_Subject msg).
  { intros n. apply event_type in He. unfold dated. by destruct (is_zero _). }
  destruct (incomplete e); [done|]. unfold EventToFact. rewrite Ht, Hnorm.
  destruct (classify _ _ _) as [[[fact metric] value]|] eqn:Ec; [|done]. intros [= <-]. simpl.
  split; intros ->; apply (classify_unread _ _ _ _ _ _ Ec) in Hsub; auto.
Qed.

(** A parser of the texts used below. *)
Definition parse_small (s : string) : option float64 :=
  if decide (s = "90")%string then Some (f_of_int 90) else if decide (s = "100")%string then Some (f_of_int 100) else None.

Definition small_go : GoText := mkGoText parse_small (fun _ => "") (fun _ => None) (fun _ => "").

(** The in-memory and the Postgres store do not restrict the cost report to
    costs, as the ClickHouse store does: the seconds of calls stand beside the
    rupees. *)
Theorem cost_report_counts_call_seconds :
  let ev id ty key text := mkEvent id "t1" "" "" "" ty (Some {[key := JNumber text]}) hour 0 in
  let s := ingest_all parse_small (PgAn.mk kv_empty)
    [(hour, ev "e1" "call.completed" "duration_s" "90"); (hour, ev "e2" "billing.cost" "cost_inr" "100")]%string in
  re_Rows <$> (match Report s hour "t1" "cost" with Ok r => Some r | Err _ => None end)
  = Some [mkRow "cost_inr" 1 (f_of_int 100); mkRow "duration_s" 1 (f_of_int 90)].
Proof. vm_compute. reflexivity. Qed.

(** Inserting into ClickHouse always answers that a fact was created, also for
    an event that is there already. *)
Theorem clickhouse_reports_every_event_created {C} `{ChConn C} marshal db (c : C) now row :
  (ch_insertFact marshal db c now row).2 <> Ok false.
Proof. unfold ch_insertFact. destruct (ch_InsertBatch _ _ _ _ _ _) as [c' [e|]]; done. Qed.

(** ** Witnesses *)

Definition call_message : Msg :=
  mkMsg "call.completed" (Some "m1"%string) (Some {["tenant_id"%string := JString "t1"; "duration_s"%string := JNumber "90"]}).

#[local] Instance mem_writer : Writer MemCh.t := ch_InsertBatch (fun _ => Ok "{}"%string) "evs".
#[local] Instance mem_writer_laws : WriterLaws MemCh.t := click_writer_laws (fun _ => Ok "{}"%string) "evs".

Lemma acknowledged_messages_are_stored_witness :
  exists w' acks row, handle_batch small_go (fun l => l) (MemCh.mk [] None true) hour [call_message] = (w', acks) /\
    acks = [Ack] /\ row_of small_go hour call_message = Some row /\ w_has w' "fact_calls" row.
Proof.
  pose proof (acknowledged_messages_are_stored small_go (fun l => l) (fun l => reflexivity l)
    (MemCh.mk [] None true) hour [call_message] 0 call_message ltac:(done) eq_refl) as Hw.
  assert (Hfact : fr_Fact <$> row_of small_go hour call_message = Some "fact_calls"%string) by (vm_compute; reflexivity).
  assert (Hacks : (handle_batch small_go (fun l => l) (MemCh.mk [] None true) hour [call_message]).2 = [Ack])
    by (vm_compute; reflexivity).
  destruct (handle_batch small_go (fun l => l) (MemCh.mk [] None true) hour [call_message]) as [w' acks].
  cbn [snd] in Hacks. subst acks. destruct (row_of small_go hour call_message) as [row|]; [|discriminate Hfact].
  injection Hfact as Hf. exists w', [Ack], row. split_and!; [reflexivity..|].
  rewrite Hf in Hw. destruct Hw as [[_ Hw]|Hw]; [exact Hw|discriminate Hw].
Defined.

Lemma reports_count_each_event_once_witness :
  let ev := mkEvent "e1" "t1" "c1" "" "" "whatsapp.delivered" None hour 0 in
  let es := [(hour, ev); (2 * hour, ev)] in
  exists r, Report (ingest_all parse_small (FakeAn.NewFake (fun l => l)) es) (3 * hour) "t1" "campaign" = Ok r /\
    exists x, x ∈ re_Rows r /\ rr_Dimension x = "c1"%string.
Proof.
  intros ev es.
  destruct (reports_count_each_event_once parse_small (FakeAn.NewFake (fun l => l)) es (3 * hour) "t1" "campaign")
    as (r & Hr & _ & _ & Hall); [intros l; reflexivity|reflexivity|by repeat constructor|].
  exists r. split; [exact Hr|]. apply (Hall (mkFact "e1" "t1" "c1" "" "" "fact_whatsapp" "message_delivered" (f_of_int 1) ∅
    hour 0 hour hour)); [|done]. vm_compute. constructor.
Defined.
