(* ===== verification/Bff.v ===== *)
(** * bff: the gateway in front of the services

    [services/bff/internal/{middleware,server,handler,tenantcache}].  The JWT
    library, Redis and the upstream services are arguments; header names are in
    their canonical form, so X-Tenant-ID and X-Tenant-Id are one header.  Request
    ids, tracing, CORS and panics of handlers do not reach the requests that are
    forwarded and are left out. *)

From stdpp Require Import pretty.
From S2P Require Import Prelude GoStrings.

Open Scope Z_scope.

Definition dot : Ascii.ascii := Ascii.ascii_of_nat 46.
Definition colon : Ascii.ascii := Ascii.ascii_of_nat 58.
Definition slash : Ascii.ascii := Ascii.ascii_of_nat 47.

(** ** Hosts: package net *)

(** A number of an IPv4 address: up to 255, without leading zeros. *)
Definition ipv4_field (s : string) : bool :=
  match digits_value 0 (String.list_ascii_of_string s) with
  | Some n => (0 <? Z.of_nat (String.length s)) && (n <=? 255) && bool_decide (s = pretty (Z.to_nat n))
  | None => false
  end.
Definition is_ipv4 (s : string) : bool :=
  let fields := split_on dot s in (length fields =? 4)%nat && forallb ipv4_field fields.

Definition is_hex (c : Ascii.ascii) : bool :=
  let n := Ascii.N_of_ascii c in
  ((48 <=? n)%N && (n <=? 57)%N) || ((97 <=? n)%N && (n <=? 102)%N) || ((65 <=? n)%N && (n <=? 70)%N).
Definition hex_group (s : string) : bool :=
  (0 <? String.length s)%nat && (String.length s <=? 4)%nat && forallb is_hex (String.list_ascii_of_string s).

(** The 16-bit groups of a part of an IPv6 address; an IPv4 address at its end
    is two of them. *)
Fixpoint ipv6_groups (l : list string) : option nat :=
  match l with
  | [] => Some 0%nat
  | [g] => if hex_group g then Some 1%nat else if is_ipv4 g then Some 2%nat else None
  | g :: l => if hex_group g then S <$> ipv6_groups l else None
  end.
Fixpoint cut_ellipsis (seen : list Ascii.ascii) (l : list Ascii.ascii) : option (string * string) :=
  match l with
  | a :: ((b :: l') as l1) =>
      if bool_decide (a = colon) && bool_decide (b = colon)
      then Some (String.string_of_list_ascii (rev seen), String.string_of_list_ascii l')
      else cut_ellipsis (a :: seen) l1
  | _ => None
  end.
Definition groups_of (s : string) : option nat := if is_empty s then Some 0%nat else ipv6_groups (split_on colon s).
Definition is_ipv6 (s : string) : bool :=
  match cut_ellipsis [] (String.list_ascii_of_string s) with
  | None => bool_decide (groups_of s = Some 8%nat)
  | Some (l, r) =>
      match groups_of l, groups_of r with
      | Some a, Some b => (a + b <=? 7)%nat && forallb (fun g => hex_group g || is_empty g) (split_on colon l)
      | _, _ => false
      end
  end.
(** [net.ParseIP(s) != nil]. *)
Definition is_ip (s : string) : bool := is_ipv4 s || is_ipv6 s.

Definition chars := String.list_ascii_of_string.
Definition text := String.string_of_list_ascii.

Fixpoint index_of (c : Ascii.ascii) (l : list Ascii.ascii) : option nat :=
  match l with
  | [] => None
  | d :: l => if bool_decide (d = c) then Some 0%nat else S <$> index_of c l
  end.
Definition last_index_of (c : Ascii.ascii) (l : list Ascii.ascii) : option nat :=
  (fun i => (length l - 1 - i)%nat) <$> index_of c (rev l).
Definition has_char (c : Ascii.ascii) (l : list Ascii.ascii) : bool := existsb (fun d => bool_decide (d = c)) l.

Definition lbracket : Ascii.ascii := Ascii.ascii_of_nat 91.
Definition rbracket : Ascii.ascii := Ascii.ascii_of_nat 93.

(** The host of [net.SplitHostPort]; [None] for an error. *)
Definition split_host (hostport : string) : option string :=
  let l := chars hostport in
  match last_index_of colon l with
  | None => None
  | Some i =>
      match l with
      | c :: _ =>
          if bool_decide (c = lbracket) then
            match index_of rbracket l with
            | None => None
            | Some e =>
                if negb (e + 1 =? i)%nat || has_char lbracket (drop 1 l) || has_char rbracket (drop (e + 1) l) then None
                else Some (text (take (e - 1) (drop 1 l)))
            end
          else if has_char colon (take i l) || has_char lbracket l || has_char rbracket l then None
          else Some (text (take i l))
      | [] => None
      end
  end.

Definition subdomainSlug (host : string) : option string :=
  if is_empty host then None else
  let host := default host (split_host host) in
  if is_ip host then None else
  match split_on dot host with
  | slug :: _ :: _ :: _ => if is_empty slug then None else Some slug
  | _ => None
  end.

(** ** Requests *)

(** A body: none, a JSON text, or something else. *)
Inductive body := NoBody | Json (raw : string) | BadBody.

Record request := mkRequest {
  rq_method : string;
  rq_path : string;
  rq_query : string;
  rq_host : string;
  rq_authorization : string;
  rq_tenant : string;        (* X-Tenant-Id *)
  rq_user : string;          (* X-User-Id *)
  rq_upgrade : string;
  rq_connection : list string;   (* the values of Connection *)
  rq_body : body
}.

(** The claims of a token that verifies, those of the right type. *)
Record claims := mkClaims { cl_sub : option string; cl_tenant : option string; cl_roles : option (list string) }.

(** The values of the request's context. *)
Record context := mkContext { cx_user : string; cx_tenant : string; cx_roles : list string; cx_authed : bool }.
Definition no_context : context := mkContext "" "" [] false.

Record response := mkResponse { rs_code : Z; rs_body : string }.

(** What tenant-auth and the product services are sent. *)
Record auth_call := mkAuthCall { ac_method : string; ac_body : string; ac_tenant : string; ac_user : string }.

(** No answer, or a status with a body, and whether the body is JSON. *)
Inductive auth_answer := AuthDown (e : string) | AuthStatus (code : Z) (raw : string) (json : bool).

Class Upstream (N : Type) := {
  auth_send : N -> auth_call -> N * auth_answer;
  product_send : N -> string -> request -> N * (string + response)
}.

(** [jwt] verifies a token under HS256; [slugs] is the Redis cache ([None] for a
    miss or an error); [configured] the services with a URL. *)
Record BffEnv := mkBffEnv { be_jwt : string -> option claims; be_slugs : string -> option string; be_targets : list string }.

Section Gateway.
Context {N : Type} `{!Upstream N} (env : BffEnv).

(** ** Middleware *)

Definition Auth (r : request) : context :=
  let bearer := trim_prefix (rq_authorization r) "Bearer " in
  if is_empty bearer then no_context
  else match be_jwt env bearer with
       | None => no_context
       | Some c => mkContext (default "" (cl_sub c)) (default "" (cl_tenant c)) (default [] (cl_roles c)) true
       end%string.

Definition with_tenant (cx : context) (tid : string) : context := mkContext (cx_user cx) tid (cx_roles cx) (cx_authed cx).

(** [None]: the slug is not known. *)
Definition TenantContext (r : request) (cx : context) : option context :=
  if negb (is_empty (cx_tenant cx)) then Some cx
  else match subdomainSlug (rq_host r) with
       | None => Some cx
       | Some slug => with_tenant cx <$> be_slugs env slug
       end.

(** ** Handlers *)

(** [TenantAuthClient.call]: the status, 0 without an answer, and the error or
    the body. *)
Definition auth_rpc (cx : context) (method raw : string) (n : N) : N * (Z * (string + string)) :=
  let '(n, a) := auth_send n (mkAuthCall method raw (cx_tenant cx) (cx_user cx)) in
  (n, match a with
      | AuthDown e => (0, inl e)
      | AuthStatus code raw json =>
          (code, if 400 <=? code then inl ("upstream error " ++ pretty code ++ ": " ++ raw)%string
                 else if json then inr raw else inl "invalid json"%string)
      end).

Definition proxy (cx : context) (r : request) (method : string) (n : N) : N * response :=
  match rq_body r with
  | BadBody => (n, mkResponse 400 "invalid request body")
  | b =>
      let raw := match b with Json raw => raw | _ => "null"%string end in
      let '(n, (status, res)) := auth_rpc cx method raw n in
      (n, match res with
          | inl e => mkResponse (if status =? 0 then 502 else status) e
          | inr raw => mkResponse status raw
          end)
  end.

Definition team_roles : list string := ["super_admin"; "internal_admin"; "client_owner"; "sales_manager"].

Definition ListTeam (cx : context) (r : request) (n : N) : N * response :=
  if existsb (fun role => bool_decide (role ∈ team_roles)) (cx_roles cx) then proxy cx r "ListRoles" n
  else (n, mkResponse 403 "forbidden").

(** The tenant and the user of the context, or else what the client sent. *)
Definition propagateProductContext (cx : context) (r : request) : request :=
  mkRequest (rq_method r) (rq_path r) (rq_query r) (rq_host r) (rq_authorization r)
    (first_nonempty (cx_tenant cx) (rq_tenant r)) (first_nonempty (cx_user cx) (rq_user r))
    (rq_upgrade r) (rq_connection r) (rq_body r).

(** [httputil.ReverseProxy.ServeHTTP], after the director: the headers that
    Connection lists are removed, and those between neighbours, Connection and
    Upgrade among them; a change of protocol is asked for again. *)
Definition comma : Ascii.ascii := Ascii.ascii_of_nat 44.
Definition connection_names (r : request) : list string :=
  (fun name => to_lower (trim_space name)) <$> (rq_connection r ≫= split_on comma).
Definition lists (r : request) (name : string) : bool := bool_decide (name ∈ connection_names r).
Definition upgradeType (r : request) : string := if lists r "upgrade" then rq_upgrade r else "".
Definition is_print (s : string) : bool :=
  forallb (fun c => (32 <=? Ascii.N_of_ascii c)%N && (Ascii.N_of_ascii c <=? 126)%N) (chars s).
Definition removeHopByHopHeaders (r : request) : request :=
  let kept name value := if lists r name then "" else value in
  mkRequest (rq_method r) (rq_path r) (rq_query r) (rq_host r)
    (kept "authorization" (rq_authorization r)) (kept "x-tenant-id" (rq_tenant r))
    (kept "x-user-id" (rq_user r)) (upgradeType r)
    (if is_empty (upgradeType r) then [] else ["Upgrade"]) (rq_body r).

Definition ProxyTo (cx : context) (r : request) (target : string) (n : N) : N * response :=
  if negb (bool_decide (target ∈ be_targets env)) then (n, mkResponse 502 "upstream not configured")
  else let out := propagateProductContext cx r in
       if negb (is_print (upgradeType out))
       then (n, mkResponse 502 ("upstream unavailable: client tried to switch to invalid protocol "
                                  ++ quote (upgradeType out)))
       else let '(n, a) := product_send n target (removeHopByHopHeaders out) in
       (n, match a with inl e => mkResponse 502 ("upstream unavailable: " ++ e)%string | inr resp => resp end).

Definition Stream (r : request) (n : N) : N * response :=
  (n, mkResponse 501 (if bool_decide (rq_upgrade r = "websocket")%string then "not yet implemented"
                      else "websocket upgrade required")%string).

(** ** Routes *)

Inductive segment := Lit (s : string) | Param.
Inductive action := Fixed (body : string) | StreamStub | AuthRpc (method : string) | Team | Product (target : string).

(** Method ("*" is any), path and action; the flag says that a session is
    required. *)
Definition lits (p : string) : list segment := Lit <$> split_on slash p.
Definition routes : list (string * list segment * bool * action) :=
  [ ("*", lits "metrics", false, Fixed "metrics");
    ("GET", lits "healthz", false, Fixed "ok"); ("GET", lits "readyz", false, Fixed "ready");
    ("GET", lits "v1/stream", false, StreamStub);
    ("POST", lits "v1/auth/login", false, AuthRpc "Login"); ("POST", lits "v1/auth/refresh", false, AuthRpc "RefreshToken");
    ("POST", lits "v1/auth/logout", true, AuthRpc "Logout"); ("POST", lits "v1/auth/2fa/enroll", true, AuthRpc "Enroll2FA");
    ("POST", lits "v1/auth/2fa/verify", true, AuthRpc "Verify2FA");
    ("POST", lits "v1/api-keys", true, AuthRpc "CreateApiKey");
    ("DELETE", (lits "v1/api-keys" ++ [Param])%list, true, AuthRpc "RevokeApiKey");
    ("GET", lits "v1/team", true, Team); ("GET", lits "v1/audit-log", true, AuthRpc "QueryAuditLogs");
    ("POST", lits "v1/import/preview", true, Product "lead_import"); ("POST", lits "v1/import/jobs", true, Product "lead_import");
    ("GET", (lits "v1/import/jobs" ++ [Param])%list, true, Product "lead_import");
    ("POST", lits "v1/leads", true, Product "lead_import"); ("GET", lits "v1/leads", true, Product "lead_import");
    ("GET", (lits "v1/leads" ++ [Param])%list, true, Product "lead_import");
    ("GET", (lits "v1/leads" ++ [Param; Lit "activities"])%list, true, Fixed "activities");
    ("GET", (lits "v1/leads" ++ [Param; Lit "status-history"])%list, true, Fixed "history");
    ("POST", lits "v1/campaigns/extract", true, Product "campaign");
    ("POST", lits "v1/campaigns", true, Product "campaign"); ("POST", lits "v1/campaigns/", true, Product "campaign");
    ("GET", lits "v1/campaigns", true, Product "campaign"); ("GET", lits "v1/campaigns/", true, Product "campaign");
    ("GET", (lits "v1/campaigns" ++ [Param])%list, true, Product "campaign");
    ("POST", (lits "v1/campaigns" ++ [Param; Lit "leads"])%list, true, Product "campaign");
    ("POST", (lits "v1/campaigns" ++ [Param; Lit "launch"])%list, true, Product "campaign");
    ("POST", (lits "v1/campaigns" ++ [Param; Lit "pause"])%list, true, Product "campaign");
    ("POST", (lits "v1/campaigns" ++ [Param; Lit "resume"])%list, true, Product "campaign");
    ("GET", (lits "v1/campaigns" ++ [Param; Lit "health"])%list, true, Product "campaign");
    ("GET", (lits "v1/campaigns" ++ [Param; Lit "progress"])%list, true, Product "scheduler");
    ("GET", lits "v1/whatsapp/threads", true, Product "whatsapp");
    ("GET", (lits "v1/whatsapp/threads" ++ [Param; Lit "messages"])%list, true, Product "whatsapp");
    ("POST", lits "v1/whatsapp/messages", true, Product "whatsapp") ]%string.

Fixpoint seg_match (pat : list segment) (path : list string) : bool :=
  match pat, path with
  | [], [] => true
  | Lit s :: pat, x :: path => bool_decide (s = x) && seg_match pat path
  | Param :: pat, x :: path => negb (is_empty x) && seg_match pat path
  | _, _ => false
  end.

(** The path after its first slash. *)
Definition segments (path : string) : list string := split_on slash (trim_prefix path "/").

Definition find_route (r : request) : option (bool * action) :=
  (fun x => (x.1.2, x.2)) <$>
    List.find (fun x => (bool_decide (x.1.1.1 = rq_method r) || bool_decide (x.1.1.1 = "*"%string)) && seg_match x.1.1.2 (segments (rq_path r))) routes.

Definition path_known (r : request) : bool := existsb (fun x => seg_match x.1.1.2 (segments (rq_path r))) routes.

Definition run_action (a : action) (cx : context) (r : request) (n : N) : N * response :=
  match a with
  | Fixed b => (n, mkResponse 200 b)
  | StreamStub => Stream r n
  | AuthRpc method => proxy cx r method n
  | Team => ListTeam cx r n
  | Product target => ProxyTo cx r target n
  end.

(** The middleware runs before the routes are looked at. *)
Definition serve_bff (r : request) (n : N) : N * response :=
  match TenantContext r (Auth r) with
  | None => (n, mkResponse 404 "tenant not found")
  | Some cx =>
      match find_route r with
      | None => (n, if path_known r then mkResponse 405 "" else mkResponse 404 "404 page not found")
      | Some (protected, a) =>
          if protected && negb (cx_authed cx) then (n, mkResponse 401 "unauthorized") else run_action a cx r n
      end
  end.

End Gateway.

Example slug_1 : subdomainSlug "acme.evs.app:443" = Some "acme"%string. Proof. vm_compute. reflexivity. Qed.
Example slug_2 : subdomainSlug "139.59.23.204:3000" = None. Proof. vm_compute. reflexivity. Qed.
Example slug_3 : subdomainSlug "[::1]:8090" = None. Proof. vm_compute. reflexivity. Qed.
Example slug_4 : subdomainSlug "localhost:8090" = None. Proof. vm_compute. reflexivity. Qed.
Example slug_5 : subdomainSlug "evs.app" = None. Proof. vm_compute. reflexivity. Qed.
Example slug_6 : subdomainSlug "::ffff:1.2.3.4" = None. Proof. vm_compute. reflexivity. Qed.
