(* ===== verification/BffSafety.v ===== *)
(** * bff: what reaches the services

    The gateway over any services, with the requests it forwards on record, and
    in front of the campaign service. *)

From S2P Require Import Prelude GoTime Kv GoStrings Campaign CampaignSafety CampaignApi Bff.

Open Scope Z_scope.

(** ** What is forwarded *)

(** A service with the record of what it was sent. *)
Record Logged (N : Type) := mkLogged { lg_service : N; lg_auth : list auth_call; lg_product : list (string * request) }.
Arguments mkLogged {N}.
Arguments lg_service {N} l.
Arguments lg_auth {N} l.
Arguments lg_product {N} l.

#[export] Instance logged_upstream {N} `{Upstream N} : Upstream (Logged N) := {
  auth_send l c := let '(n, a) := auth_send (lg_service l) c in (mkLogged n (lg_auth l ++ [c]) (lg_product l), a);
  product_send l t r := let '(n, a) := product_send (lg_service l) t r in (mkLogged n (lg_auth l) (lg_product l ++ [(t, r)]), a)
}.

Section Gateway.
Context {N : Type} `{Upstream N} (env : BffEnv).
Implicit Types (l : Logged N) (r : request).

Definition token_claims r : option claims :=
  let bearer := trim_prefix (rq_authorization r) "Bearer " in if is_empty bearer then None else be_jwt env bearer.

(** The tenant a request acts for: that of the token, else that of the host,
    else what the client wrote into the header. *)
Definition acting_tenant r : string :=
  let claimed := match token_claims r with Some c => default ""%string (cl_tenant c) | None => ""%string end in
  let hosted := match subdomainSlug (rq_host r) with Some slug => default ""%string (be_slugs env slug) | None => ""%string end in
  first_nonempty claimed (first_nonempty hosted (rq_tenant r)).

(** The user likewise: that of the token, else what the client wrote. *)
Definition acting_user r : string :=
  first_nonempty (match token_claims r with Some c => default ""%string (cl_sub c) | None => ""%string end) (rq_user r).

Lemma auth_authed r : cx_authed (Auth env r) = bool_decide (is_Some (token_claims r)).
Proof.
  unfold Auth, token_claims. destruct (is_empty _); [done|]. by destruct (be_jwt env _).
Qed.

Lemma tenant_context_keeps r cx cx' :
  TenantContext env r cx = Some cx' -> cx_authed cx' = cx_authed cx /\ cx_user cx' = cx_user cx /\ cx_roles cx' = cx_roles cx.
Proof.
  unfold TenantContext. destruct (negb _); [by intros [= <-]|]. destruct (subdomainSlug _); [|by intros [= <-]].
  destruct (be_slugs env _); [|done]. by intros [= <-].
Qed.

Lemma acting_tenant_context r cx :
  TenantContext env r (Auth env r) = Some cx -> first_nonempty (cx_tenant cx) (rq_tenant r) = acting_tenant r.
Proof.
  unfold acting_tenant.
  assert (Ht : cx_tenant (Auth env r) = match token_claims r with Some c => default ""%string (cl_tenant c) | None => ""%string end).
  { unfold Auth, token_claims. destruct (is_empty _); [done|]. by destruct (be_jwt env _). }
  rewrite <- Ht. unfold TenantContext, first_nonempty. destruct (is_empty (cx_tenant (Auth env r))) eqn:E; simpl.
  - destruct (subdomainSlug (rq_host r)) as [slug|].
    + destruct (be_slugs env slug); [|done]. by intros [= <-].
    + intros [= <-]. by rewrite E.
  - intros [= <-]. by rewrite E.
Qed.

Lemma acting_user_context r cx :
  TenantContext env r (Auth env r) = Some cx -> first_nonempty (cx_user cx) (rq_user r) = acting_user r.
Proof.
  intros (_ & -> & _)%tenant_context_keeps. unfold acting_user, Auth, token_claims.
  destruct (is_empty _); [done|]. by destruct (be_jwt env _).
Qed.

(** What one request may add to the records. *)
Inductive sent : Type := SentNothing | SentAuth (c : auth_call) | SentProduct (t : string) (r : request).

Definition adds l l' (x : sent) : Prop :=
  match x with
  | SentNothing => l' = l
  | SentAuth c => lg_auth l' = lg_auth l ++ [c] /\ lg_product l' = lg_product l
  | SentProduct t r => lg_auth l' = lg_auth l /\ lg_product l' = lg_product l ++ [(t, r)]
  end.

Lemma proxy_adds cx r method l :
  exists x, adds l (proxy cx r method l).1 x /\
    (x = SentNothing \/ exists raw, x = SentAuth (mkAuthCall method raw (cx_tenant cx) (cx_user cx))).
Proof.
  unfold proxy, auth_rpc. destruct (rq_body r) as [|raw|]; [| |by exists SentNothing; split; [|left]];
    (eexists (SentAuth _); split; [|right; by eexists]); cbn [auth_send logged_upstream];
    destruct (auth_send _ _) as [n [e|code b json]]; try done; simpl; destruct (400 <=? code); try done; by destruct json.
Qed.

Lemma product_adds cx r target l :
  exists x, adds l (ProxyTo env cx r target l).1 x /\
    (x = SentNothing \/ x = SentProduct target (removeHopByHopHeaders (propagateProductContext cx r))).
Proof.
  unfold ProxyTo. destruct (negb _); [by exists SentNothing; split; [|left]|].
  destruct (negb _); [by exists SentNothing; split; [|left]|].
  eexists (SentProduct _ _). split; [|by right]. cbn [product_send logged_upstream].
  destruct (product_send _ _ _) as [n a]. by destruct a.
Qed.

(** The routes that need no session and call a service. *)
Lemma public_routes r a :
  find_route r = Some (false, a) ->
  match a with Product _ | Team => False | AuthRpc m => m = "Login"%string \/ m = "RefreshToken"%string | _ => True end.
Proof.
  unfold find_route. destruct (List.find _ routes) as [x|] eqn:Hf; [|done]. intros [= Hp <-].
  apply find_some in Hf as [Hin _]. apply list_elem_of_In in Hin.
  assert (Hall : Forall (fun x : string * list segment * bool * action => x.1.2 = false ->
    match x.2 with Product _ | Team => False | AuthRpc m => m = "Login"%string \/ m = "RefreshToken"%string | _ => True end) routes).
  { unfold routes. repeat (apply Forall_cons; split; [simpl; intros; first [done|auto]|]). apply Forall_nil_2. }
  rewrite Forall_forall in Hall. by apply Hall.
Qed.

Lemma product_routes r protected t :
  find_route r = Some (protected, Product t) -> t ∈ ["lead_import"; "campaign"; "scheduler"; "whatsapp"]%string.
Proof.
  unfold find_route. destruct (List.find _ routes) as [x|] eqn:Hf; [|done]. intros [= _ Hx].
  apply find_some in Hf as [Hin _]. apply list_elem_of_In in Hin.
  assert (Hall : Forall (fun x : string * list segment * bool * action =>
    match x.2 with Product t => t ∈ ["lead_import"; "campaign"; "scheduler"; "whatsapp"]%string | _ => True end) routes).
  { unfold routes. repeat (apply Forall_cons; split; [simpl; first [done|apply (bool_decide_unpack _); exact I]|]). apply Forall_nil_2. }
  rewrite Forall_forall in Hall. specialize (Hall x Hin). by rewrite Hx in Hall.
Qed.

(** C18: The gateway authenticates, and names the tenant.  Whatever the request and
    however the services answer, it sends on at most one request; one to a product
    service only with a token that verifies, to a service of the routes, with the
    method, path, query and body of the client.  Its tenant is that of the token; if
    the token names none, that of the host; if there is none either, what the client
    wrote ([token_without_tenant_acts_for_any]).  Its user is that of the token, or
    what the client wrote if the token names none.  A client that lists one of the two
    headers in Connection has it removed, so that the service gets an empty one
    ([hop_by_hop_header_hides_the_tenant]).  Without a token that verifies only the two
    public operations of tenant-auth are called. *)
Theorem gateway_authenticates_and_names_the_tenant r l :
  exists x, adds l (serve_bff env r l).1 x /\
    match x with
    | SentNothing => True
    | SentAuth c => is_Some (token_claims r) \/ ac_method c = "Login"%string \/ ac_method c = "RefreshToken"%string
    | SentProduct t f =>
        t ∈ ["lead_import"; "campaign"; "scheduler"; "whatsapp"]%string /\ is_Some (token_claims r) /\
        rq_method f = rq_method r /\ rq_path f = rq_path r /\ rq_query f = rq_query r /\ rq_body f = rq_body r /\
        rq_tenant f = (if lists r "x-tenant-id" then ""%string else acting_tenant r) /\
        rq_user f = (if lists r "x-user-id" then ""%string else acting_user r)
    end.
Proof.
  unfold serve_bff. destruct (TenantContext env r (Auth env r)) as [cx|] eqn:Hcx; [|by exists SentNothing].
  destruct (find_route r) as [[protected a]|] eqn:Hr; [|by exists SentNothing].
  pose proof (tenant_context_keeps _ _ _ Hcx) as (Ha & _ & _). pose proof (acting_tenant_context _ _ Hcx) as Hten.
  rewrite auth_authed in Ha.
  destruct (protected && negb (cx_authed cx)) eqn:Hp; [by exists SentNothing|].
  assert (Hauth : protected = false \/ is_Some (token_claims r)).
  { destruct protected; [|by left]. right. simpl in Hp. apply negb_false_iff in Hp. rewrite Ha in Hp.
    by apply bool_decide_eq_true in Hp. }
  assert (Hpub : protected = false -> match a with Product _ | Team => False
    | AuthRpc m => m = "Login"%string \/ m = "RefreshToken"%string | _ => True end) by (intros ->; by apply public_routes in Hr).
  destruct a as [b| |m| |t]; simpl.
  - by exists SentNothing.
  - by exists SentNothing.
  - destruct (proxy_adds cx r m l) as (x & Hx & [->|[raw ->]]); eexists; (split; [exact Hx|]); [done|].
    simpl. destruct Hauth as [Hf|]; [right; auto|by left].
  - unfold ListTeam. destruct (existsb _ _); [|by exists SentNothing].
    destruct (proxy_adds cx r "ListRoles" l) as (x & Hx & [->|[raw ->]]); eexists; (split; [exact Hx|]); [done|].
    destruct Hauth as [Hf|]; [by destruct (Hpub Hf)|by left].
  - destruct (product_adds cx r t l) as (x & Hx & [->| ->]); eexists; (split; [exact Hx|]); [done|].
    destruct Hauth as [Hf|[c Hc]]; [by destruct (Hpub Hf)|].
    split; [by apply (product_routes r protected)|]. split; [by exists c|].
    rewrite <- Hten, <- (acting_user_context _ _ Hcx). by split_and!.
Qed.
End Gateway.

(** ** In front of the campaign service *)

(** Decoding of bodies and of the query, and encoding of answers. *)
Record Codec := mkCodec {
  de_campaign : body -> result Campaign;
  de_leads : body -> result (list string);
  de_text : body -> result string;
  de_limits : body -> result CampaignLimits;
  de_tenant : string -> string;
  en_resp : camp_resp -> response
}.

Section Campaigns.
Context {T : Type} `{CampaignFrame T} (codec : Codec) (cenv : CampEnv).

(** The router of the campaign service. *)
Definition campaign_request (r : request) : option camp_req :=
  let post := bool_decide (rq_method r = "POST")%string in
  let get := bool_decide (rq_method r = "GET")%string in
  let put := bool_decide (rq_method r = "PUT")%string in
  match segments (rq_path r) with
  | v :: c :: rest =>
      if negb (bool_decide (v = "v1")%string && bool_decide (c = "campaigns")%string) then None
      else match rest with
      | [] | [""%string] =>
          if post then Some (RCreate (rq_tenant r) (de_campaign codec (rq_body r)))
          else if get then Some (RList (rq_tenant r) (de_tenant codec (rq_query r))) else None
      | [id] =>
          if post && bool_decide (id = "extract")%string then Some (RExtract (de_text codec (rq_body r)))
          else if get then Some (RGet id) else None
      | [id; op] =>
          if post then
            if decide (op = "leads")%string then Some (RAttach id (de_leads codec (rq_body r)))
            else if decide (op = "launch")%string then Some (RLaunch id)
            else if decide (op = "pause")%string then Some (RPause id (de_text codec (rq_body r)))
            else if decide (op = "resume")%string then Some (RResume id)
            else if decide (op = "archive")%string then Some (RArchive id)
            else None
          else if get then
            if decide (op = "leads")%string then Some (RLeads id)
            else if decide (op = "health")%string then Some (RHealth id)
            else if decide (op = "limits")%string then Some (RGetLimits id)
            else None
          else if put && bool_decide (op = "limits")%string then Some (RSetLimits id (de_limits codec (rq_body r)))
          else None
      | _ => None
      end
  | _ => None
  end.

(** The campaign service with the number of requests it had, which gives their
    times and the ids drawn for them; the other services do not answer. *)
Record CampSys := mkCampSys { sy_store : T; sy_count : nat }.
Context (clock : nat -> Z) (uids : nat -> string).

#[local] Instance campaign_upstream : Upstream CampSys := {
  auth_send n _ := (n, AuthDown "no answer");
  product_send n target r :=
    if decide (target = "campaign"%string) then
      match campaign_request r with
      | None => (n, inr (mkResponse 404 "404 page not found"))
      | Some q =>
          let '(s, a) := serve cenv (sy_store n) (clock (sy_count n)) (uids (sy_count n)) q in
          (mkCampSys s (S (sy_count n)), inr (en_resp codec a))
      end
    else (n, inl "no answer"%string)
}.

(** No campaign changes without a session: a request without a token that
    verifies leaves the campaign service as it is. *)
Theorem campaigns_change_only_in_a_session env r n :
  token_claims env r = None -> (serve_bff env r n).1 = n.
Proof.
  intros Hn. unfold serve_bff. destruct (TenantContext env r (Auth env r)) as [cx|] eqn:Hcx; [|done].
  destruct (find_route r) as [[protected a]|] eqn:Hr; [|done].
  pose proof (tenant_context_keeps _ _ _ _ Hcx) as (Ha & _). rewrite auth_authed, Hn in Ha. rewrite Ha.
  destruct protected; [done|]. apply public_routes in Hr. destruct a as [b| |m| |t]; try done. simpl.
  unfold proxy, auth_rpc. by destruct (rq_body r).
Qed.

(** A campaign created through the gateway belongs to the tenant of the token,
    whatever tenant the body, the query or the tenant header names, unless the
    client has the header removed by listing it in Connection. *)
Theorem created_campaign_is_the_callers env r c tid n d :
  cs_ok (sy_store n) -> "campaign"%string ∈ be_targets env ->
  token_claims env r = Some c -> cl_tenant c = Some tid -> tid <> ""%string ->
  lists r "x-tenant-id" = false -> is_print (upgradeType r) = true ->
  rq_method r = "POST"%string -> rq_path r = "/v1/campaigns"%string -> de_campaign codec (rq_body r) = Ok d ->
  ca_Name d <> ""%string -> ca_ProjectID d <> ""%string -> ca_KbVersionID d <> ""%string ->
  exists d', (serve_bff env r n).2 = en_resp codec (CCampaign 201 d') /\ ca_TenantID d' = tid /\
    cs_camp (sy_store (serve_bff env r n).1) (ca_ID d') = Some d'.
Proof.
  intros Hok Htar Hc Ht Hne Hl Hpr Hm Hp Hd Hn1 Hn2 Hn3. unfold serve_bff.
  assert (Hcx : exists cx, TenantContext env r (Auth env r) = Some cx /\ cx_tenant cx = tid /\ cx_authed cx = true).
  { unfold TenantContext, Auth. unfold token_claims in Hc. destruct (is_empty _); [done|]. rewrite Hc. simpl. rewrite Ht. simpl.
    rewrite is_empty_false by done. by eexists. }
  destruct Hcx as (cx & -> & Htid & Hau).
  assert (Hroute : find_route r = Some (true, Product "campaign")) by (unfold find_route; rewrite Hm, Hp; vm_compute; reflexivity).
  rewrite Hroute, Hau. cbn [andb negb run_action]. unfold ProxyTo. rewrite bool_decide_true by done.
  change (upgradeType (propagateProductContext cx r)) with (upgradeType r). rewrite Hpr.
  cbn [negb product_send campaign_upstream]. rewrite decide_True by done.
  assert (Hq : campaign_request (removeHopByHopHeaders (propagateProductContext cx r)) = Some (RCreate tid (Ok d))).
  { unfold campaign_request. cbn [removeHopByHopHeaders propagateProductContext rq_method rq_path rq_body rq_tenant].
    change (lists (propagateProductContext cx r) "x-tenant-id") with (lists r "x-tenant-id").
    rewrite Hm, Hp, Htid, Hd, Hl. unfold first_nonempty. by rewrite is_empty_false by done. }
  rewrite Hq. unfold serve, createCampaign. rewrite (is_empty_false tid) by done. unfold CreateCampaign. simpl.
  rewrite !is_empty_false by done.
  match goal with |- context [StoreCreateCampaign ?s ?t ?u ?b] =>
    destruct (cs_create s t u b Hok) as (s1 & d1 & -> & Hok' & Hid & Htd & Hst & Hcs) end.
  exists d1. simpl. split_and!; [done|by rewrite Htd|]. by rewrite Hcs, decide_True.
Qed.
End Campaigns.

(** ** Two gaps *)

(** A token without a tenant, on a host without a subdomain, acts for the tenant
    the client writes into the header. *)
Theorem token_without_tenant_acts_for_any env r c cx :
  token_claims env r = Some c -> cl_tenant c = None -> subdomainSlug (rq_host r) = None ->
  TenantContext env r (Auth env r) = Some cx -> rq_tenant (propagateProductContext cx r) = rq_tenant r.
Proof.
  intros Hc Ht Hh Hcx. simpl. rewrite (acting_tenant_context _ _ _ Hcx). unfold acting_tenant. by rewrite Hc, Ht, Hh.
Qed.

(** ** Witnesses *)

Module BffFixture.
Definition jwt (t : string) : option claims :=
  if decide (t = "tok1")%string then Some (mkClaims (Some "u1") (Some "t1") (Some ["client_owner"]))%string
  else if decide (t = "tok0")%string then Some (mkClaims (Some "u0") None None)%string else None.
Definition env : BffEnv := mkBffEnv jwt (fun _ => None) ["campaign"; "lead_import"]%string.
Definition req (method path query auth tenant : string) (b : body) : request :=
  mkRequest method path query "gw:8080" auth tenant "" "" [] b.
Definition codec : Codec :=
  mkCodec (fun b => match b with Json _ => Ok (CampaignFixture.camp StatusDraft) | _ => Err "EOF"%string end)
    (fun _ => Err "EOF"%string) (fun _ => Err "EOF"%string) (fun _ => Err "EOF"%string)
    (fun q => if decide (q = "tenant_id=t1")%string then "t1"%string else ""%string)
    (fun a => match a with
              | CCampaigns cs => mkResponse 200 (String.concat "," (ca_ID <$> cs))
              | CCampaign code c => mkResponse code (ca_ID c)
              | _ => mkResponse 500 ""
              end).
Definition sys : CampSys := mkCampSys (CampaignFixture.store "approved" StatusActive) 0.
Definition token (t : string) : string := ("Bearer " ++ t)%string.
End BffFixture.
Import BffFixture.

(** The list of campaigns prefers the tenant of the query to that of the
    gateway: a session of one tenant lists the campaigns of another. *)
Theorem session_lists_the_campaigns_of_another_tenant :
  let n := mkCampSys (CampaignFixture.store "approved" StatusActive) 0 in
  let jwt2 t := if decide (t = "tok2")%string then Some (mkClaims (Some "u2") (Some "t2") None)%string else None in
  let env2 := mkBffEnv jwt2 (fun _ => None) ["campaign"]%string in
  @serve_bff _ (campaign_upstream codec (mkCampEnv false "" no_llm) (fun _ => hour) (fun _ => "u")) env2
    (req "GET" "/v1/campaigns" "tenant_id=t1" (token "tok2") "" NoBody) n
  = (mkCampSys (CampaignFixture.store "approved" StatusActive) 1, mkResponse 200 "c1").
Proof. vm_compute. reflexivity. Qed.

(** A client that lists X-Tenant-Id in Connection has the header that the gateway
    set removed again: its campaign gets the tenant of the body, here t1 in a
    session of t2. *)
Theorem hop_by_hop_header_hides_the_tenant :
  let jwt2 t := if decide (t = "tok2")%string then Some (mkClaims (Some "u2") (Some "t2") None)%string else None in
  let env2 := mkBffEnv jwt2 (fun _ => None) ["campaign"]%string in
  let r := mkRequest "POST" "/v1/campaigns" "" "gw:8080" (token "tok2") "" "" ""
             ["keep-alive, X-Tenant-ID"]%string (Json "{}") in
  let n := (@serve_bff _ (campaign_upstream codec (mkCampEnv false "" no_llm) (fun _ => hour) (fun _ => "u")) env2 r
             (mkCampSys (PgCamp.mk kv_empty kv_empty kv_empty kv_empty kv_empty kv_empty kv_empty kv_empty) 0)).1 in
  acting_tenant env2 r = "t2"%string /\
  ca_TenantID <$> cs_camp (sy_store n) "c1" = Some "t1"%string.
Proof. split; vm_compute; reflexivity. Qed.

(** A service that answers everything. *)
#[local] Instance answering_upstream : Upstream unit := {
  auth_send _ _ := (tt, AuthStatus 200 "{}" true); product_send _ _ _ := (tt, inr (mkResponse 200 "{}")) }.

Lemma gateway_authenticates_and_names_the_tenant_witness :
  exists l' f, (serve_bff env (req "POST" "/v1/campaigns" "" (token "tok1") "t9" (Json "{}")) (mkLogged tt [] [])).1 = l' /\
    lg_product l' = [("campaign"%string, f)] /\ rq_tenant f = "t1"%string.
Proof.
  destruct (gateway_authenticates_and_names_the_tenant env
    (req "POST" "/v1/campaigns" "" (token "tok1") "t9" (Json "{}")) (mkLogged tt [] [])) as (x & Hx & Hs).
  destruct x as [|c|t f].
  - exfalso. apply (f_equal lg_product) in Hx. vm_compute in Hx. discriminate Hx.
  - exfalso. destruct Hx as [_ Hx]. vm_compute in Hx. discriminate Hx.
  - destruct Hx as [_ Hx]. eexists _, f. split; [reflexivity|]. destruct Hs as (_ & _ & _ & _ & _ & _ & Ht & _).
    assert (Hp : (lg_product (serve_bff env (req "POST" "/v1/campaigns" "" (token "tok1") "t9" (Json "{}"))
      (mkLogged tt [] [])).1).*1 = ["campaign"%string]) by (vm_compute; reflexivity).
    rewrite Hx in *. simpl in Hp. injection Hp as ->. split; [reflexivity|]. rewrite Ht. vm_compute. reflexivity.
Defined.

Lemma created_campaign_is_the_callers_witness :
  exists d', (@serve_bff _ (campaign_upstream codec (mkCampEnv false "" no_llm) (fun _ => hour) (fun _ => "u")) env
    (req "POST" "/v1/campaigns" "" (token "tok1") "t9" (Json "{}")) sys).2 = en_resp codec (CCampaign 201 d') /\
    ca_TenantID d' = "t1"%string.
Proof.
  destruct (created_campaign_is_the_callers codec (mkCampEnv false "" no_llm) (fun _ => hour) (fun _ => "u") env
    (req "POST" "/v1/campaigns" "" (token "tok1") "t9" (Json "{}")) (mkClaims (Some "u1") (Some "t1") (Some ["client_owner"]))%string
    "t1" sys (CampaignFixture.camp StatusDraft)) as (d' & H1 & H2 & _);
    [reflexivity|apply (bool_decide_unpack _); exact I|reflexivity|reflexivity|done|reflexivity|reflexivity|reflexivity|reflexivity|reflexivity|done..|].
  by exists d'.
Defined.
