(* ===== verification/Temporal.v ===== *)
(** * temporal-workers: the durable workflows

    [services/temporal-workers/internal/{model,workflows,activities}].  The
    Temporal server, the clock and the services behind the activities are an
    instance of [World]; an activity that fails is repeated up to five times, as
    its options say.  A duration is a number of nanoseconds. *)

From S2P Require Import Prelude GoTime Float64 GoStrings.

Open Scope Z_scope.

Record RetryPolicy := mkPolicy { po_Offsets : list Z; po_Max : Z }.

Definition DefaultRetryPolicy : RetryPolicy := mkPolicy [0; 1 * hour; 24 * hour; 72 * hour; 168 * hour] 5.

Record RetryAttempt := mkRetryAttempt { ra_AttemptNumber : Z; ra_ScheduledAt : Z }.

Record RetryLadderInput := mkLadder {
  rl_LeadID : string;
  rl_CampaignID : string;
  rl_FirstCallAt : Z;
  rl_Policy : RetryPolicy
}.

Record RetryLadderResult := mkLadderResult { rr_LeadID : string; rr_Schedule : list RetryAttempt }.

Record CallingWindowInput := mkWindow {
  cw_CallID : string;
  cw_RequestedAt : Z;
  cw_WindowStart : string;
  cw_WindowEnd : string;
  cw_Timezone : string
}.

Record CallingWindowResult := mkWindowResult { wr_CanProceed : bool; wr_ProceedAt : Z; wr_WaitUntil : Z }.

Record BillingMeterEvent := mkMeter {
  bm_TenantID : string;
  bm_CampaignID : string;
  bm_CostBurnINR : float64;
  bm_CapINR : float64
}.

Record CostCapWatchInput := mkCapWatch { cc_TenantID : string; cc_CapINR : float64 }.
Record CampaignPauseSignal := mkPause { ps_CampaignID : string; ps_Reason : string }.

Record HealthSnapshot := mkHealthSnap {
  hs_CampaignID : string;
  hs_ConnectRate : float64;
  hs_QualifyRate : float64;
  hs_CostBurnINR : float64;
  hs_SuppressionHitRate : float64;
  hs_HallucinationCount : Z;
  hs_ProviderFailureRate : float64
}.

Record CampaignHealthInput := mkHealthInput { ch_CampaignID : string; ch_IntervalSeconds : Z }.

(** [fmt.Sprintf] with floating-point arguments. *)
Record Texts := mkTexts {
  tx_hallucinations : Z -> string;
  tx_failures : float64 -> string;
  tx_suppressed : float64 -> string;
  tx_cap : float64 -> float64 -> string
}.

(** ** The retry ladder *)

(** [t.Truncate(time.Second)]. *)
Definition truncate_second (t : Z) : Z := unix t * second.

Definition ladder_attempts (first : Z) (policy : RetryPolicy) : list RetryAttempt :=
  let policy := if bool_decide (po_Offsets policy = []) then DefaultRetryPolicy else policy in
  let n := Z.of_nat (length (po_Offsets policy)) in
  let max := if (po_Max policy <=? 0) || (n <? po_Max policy) then n else po_Max policy in
  imap (fun i off => mkRetryAttempt (Z.of_nat i + 1) (truncate_second (first + off)))
    (take (Z.to_nat max) (po_Offsets policy)).

Definition EvaluateRetryLadder (i : RetryLadderInput) : result RetryLadderResult :=
  if is_empty (rl_LeadID i) then Err "lead_id required"%string else
  if is_zero (rl_FirstCallAt i) then Err "first_call_at required"%string else
  Ok (mkLadderResult (rl_LeadID i) (ladder_attempts (rl_FirstCallAt i) (rl_Policy i))).

(** The activity's own computation has no checks. *)
Definition computeRetryScheduleLocal (i : RetryLadderInput) : RetryLadderResult :=
  mkLadderResult (rl_LeadID i) (ladder_attempts (rl_FirstCallAt i) (rl_Policy i)).

(** ** Calling windows *)

(** One integer of [fmt.Sscanf("%d")]: blanks, a sign, digits; the number must
    fit an int. *)
Definition is_blank (c : Ascii.ascii) : bool := let n := Ascii.nat_of_ascii c in (n =? 32)%nat || (n =? 9)%nat.
Fixpoint take_digits (l : list Ascii.ascii) : list Ascii.ascii * list Ascii.ascii :=
  match l with
  | c :: l' =>
      match digit_value c with
      | Some _ => let '(d, r) := take_digits l' in (c :: d, r)
      | None => ([], l)
      end
  | [] => ([], [])
  end.
Definition scan_int (l : list Ascii.ascii) : option (Z * list Ascii.ascii) :=
  let l := drop_while is_blank l in
  let '(neg, l) := match l with
                   | c :: l' => if (Ascii.nat_of_ascii c =? 45)%nat then (true, l')
                                else if (Ascii.nat_of_ascii c =? 43)%nat then (false, l') else (false, l)
                   | [] => (false, l)
                   end in
  let '(ds, rest) := take_digits l in
  match ds, digits_value 0 ds with
  | [], _ | _, None => None
  | _, Some v => let v := if neg then - v else v in
                 if (- 2^63 <=? v) && (v <? 2^63) then Some (v, rest) else None
  end.

(** [fmt.Sscanf(s, "%d:%d", &h, &m)]: the variables, which keep 0 from the
    first that cannot be read, and whether there was no error. *)
Definition scan_hhmm (s : string) : Z * Z * bool :=
  match scan_int (String.list_ascii_of_string s) with
  | None => (0, 0, false)
  | Some (h, rest) =>
      match rest with
      | c :: rest =>
          if (Ascii.nat_of_ascii c =? 58)%nat
          then match scan_int rest with Some (m, _) => (h, m, true) | None => (h, 0, false) end
          else (h, 0, false)
      | [] => (h, 0, false)
      end
  end.

Section Windows.
(** [time.LoadLocation]. *)
Variable load : string -> result Location.

(** The time of day [hhmm] on the date of [t]. *)
Definition clock_time (h m t : Z) (loc : Location) : Z := date_at (local_day loc t) (h * 3600 + m * 60) loc.

Definition parseHHMM (hhmm : string) (t : Z) (loc : Location) : result Z :=
  let '(h, m, ok) := scan_hhmm hhmm in
  if ok then Ok (clock_time h m t loc) else Err ("expected HH:MM, got " ++ quote hhmm)%string.

Definition closed_until (t : Z) : CallingWindowResult := mkWindowResult false t t.
Definition open_at (t : Z) : CallingWindowResult := mkWindowResult true t time_zero.

Definition EvaluateCallingWindow (i : CallingWindowInput) : result CallingWindowResult :=
  let tz := first_nonempty (cw_Timezone i) "Asia/Kolkata" in
  match load tz with
  | Err e => Err ("invalid timezone " ++ quote tz ++ ": " ++ e)%string
  | Ok loc =>
      let t := cw_RequestedAt i in
      match parseHHMM (cw_WindowStart i) t loc, parseHHMM (cw_WindowEnd i) t loc with
      | Err e, _ => Err ("parse window_start: " ++ e)%string
      | Ok _, Err e => Err ("parse window_end: " ++ e)%string
      | Ok ws, Ok we =>
          if negb (t <? we) && negb (t =? we) then Ok (closed_until (ws + 24 * hour))
          else if t <? ws then Ok (closed_until ws)
          else Ok (open_at t)
      end
  end.

(** The activity's own computation: texts that cannot be read count as 0, and
    the end of the window is closed. *)
Definition local_hhmm (hhmm : string) (t : Z) (loc : Location) : Z :=
  let '(h, m, _) := scan_hhmm hhmm in clock_time h m t loc.

Definition computeCallingWindowLocal (i : CallingWindowInput) : result CallingWindowResult :=
  match load (first_nonempty (cw_Timezone i) "Asia/Kolkata") with
  | Err e => Err e
  | Ok loc =>
      let t := cw_RequestedAt i in
      let ws := local_hhmm (cw_WindowStart i) t loc in
      let we := local_hhmm (cw_WindowEnd i) t loc in
      if negb (t <? we) then Ok (closed_until (ws + 24 * hour))
      else if t <? ws then Ok (closed_until ws)
      else Ok (open_at t)
  end.
End Windows.

(** ** Health and cost caps *)

Definition hallucinationThreshold : Z := 5.
Definition providerFailureThreshold : float64 := f_dec 3 1.
Definition suppressionHitThreshold : float64 := f_dec 3 1.

Definition EvaluateCampaignHealth (tx : Texts) (s : HealthSnapshot) : result (option CampaignPauseSignal) :=
  if is_empty (hs_CampaignID s) then Err "campaign_id required"%string else
  let pause reason := Ok (Some (mkPause (hs_CampaignID s) reason)) in
  if hallucinationThreshold <? hs_HallucinationCount s then pause (tx_hallucinations tx (hs_HallucinationCount s)) else
  if f_lt providerFailureThreshold (hs_ProviderFailureRate s) then pause (tx_failures tx (hs_ProviderFailureRate s)) else
  if f_lt suppressionHitThreshold (hs_SuppressionHitRate s) then pause (tx_suppressed tx (hs_SuppressionHitRate s)) else
  Ok None.

(** The cap of an event, its own or else the tenant's, and whether it is reached. *)
Definition event_cap (i : CostCapWatchInput) (ev : BillingMeterEvent) : float64 :=
  if f_le (bm_CapINR ev) (f_of_int 0) then cc_CapINR i else bm_CapINR ev.
Definition over_cap (i : CostCapWatchInput) (ev : BillingMeterEvent) : bool :=
  f_lt (f_of_int 0) (event_cap i ev) && f_le (event_cap i ev) (bm_CostBurnINR ev).

Fixpoint cap_loop (tx : Texts) (i : CostCapWatchInput) (seen : list string) (events : list BillingMeterEvent)
    : list CampaignPauseSignal :=
  match events with
  | [] => []
  | ev :: events =>
      if negb (bool_decide (bm_TenantID ev = cc_TenantID i)) || bool_decide (bm_CampaignID ev ∈ seen)
      then cap_loop tx i seen events
      else if over_cap i ev
      then mkPause (bm_CampaignID ev) (tx_cap tx (bm_CostBurnINR ev) (event_cap i ev))
             :: cap_loop tx i (bm_CampaignID ev :: seen) events
      else cap_loop tx i seen events
  end.

Definition EvaluateCostCap (tx : Texts) (i : CostCapWatchInput) (events : list BillingMeterEvent)
    : result (list CampaignPauseSignal) :=
  if is_empty (cc_TenantID i) then Err "tenant_id required"%string else Ok (cap_loop tx i [] events).

(** ** Activities *)

(** No answer, or a status with the text and the decoded body. *)
Inductive http (A : Type) := Down (e : string) | Answered (code : Z) (text : string) (decoded : option A).
Arguments Down {A} e.
Arguments Answered {A} code text decoded.

(** The clock, the timers of Temporal ([true]: the workflow was cancelled), and
    the services the activities call. *)
Class World (N : Type) := {
  w_now : N -> Z;
  w_sleep : N -> Z -> N * bool;
  post_schedule : N -> RetryLadderInput -> N * http RetryLadderResult;
  post_window : N -> CallingWindowInput -> N * http CallingWindowResult;
  post_attempt : N -> string -> string -> Z -> N * http unit;
  post_pause : N -> string -> string -> N * http unit;
  post_usage : N -> BillingMeterEvent -> N * http unit;
  get_health : N -> string -> N * http HealthSnapshot
}.

Section Workflows.
Context {N : Type} `{!World N} (load : string -> result Location) (tx : Texts).
Implicit Types n : N.

(** The answer of a service, if it is one that can be used. *)
Definition usable {A} (h : http A) : option A :=
  match h with Answered code _ (Some a) => if 300 <=? code then None else Some a | _ => None end.

(** A call that only has to be accepted. *)
Definition accepted (what service : string) (h : http unit) : error :=
  match h with
  | Down e => Some (what ++ ": " ++ e)%string
  | Answered code text _ =>
      if 300 <=? code then Some (service ++ " " ++ itoa (Z.to_nat code) ++ ": " ++ text)%string else None
  end.

Definition PickNextCallActivity (i : RetryLadderInput) n : N * result RetryLadderResult :=
  let '(n, h) := post_schedule n i in
  (n, Ok (match usable h with Some r => r | None => computeRetryScheduleLocal i end)).

Definition CheckCallingWindowActivity (i : CallingWindowInput) n : N * result CallingWindowResult :=
  let '(n, h) := post_window n i in
  (n, match usable h with Some r => Ok r | None => computeCallingWindowLocal load i end).

Definition of_error (e : error) : result unit := match e with Some e => Err e | None => Ok tt end.

Definition RecordCostActivity (ev : BillingMeterEvent) n : N * result unit :=
  let '(n, h) := post_usage n ev in (n, of_error (accepted "record cost" "billing-meter" h)).

Definition PauseCampaignActivity (campaignID reason : string) n : N * result unit :=
  let '(n, h) := post_pause n campaignID reason in
  (n, of_error (accepted ("pause campaign " ++ campaignID) "campaign service" h))%string.

(** The status is not looked at. *)
Definition GetCampaignHealthActivity (campaignID : string) n : N * result HealthSnapshot :=
  let empty := mkHealthSnap campaignID (f_of_int 0) (f_of_int 0) (f_of_int 0) (f_of_int 0) 0 (f_of_int 0) in
  let '(n, h) := get_health n campaignID in
  (n, Ok (match h with Answered _ _ (Some s) => s | _ => empty end)).

Definition SignalSchedulerActivity (leadID campaignID : string) (attempt : Z) n : N * result unit :=
  let '(n, h) := post_attempt n leadID campaignID attempt in (n, of_error (accepted "signal scheduler" "scheduler" h)).

(** [workflow.ExecuteActivity(...).Get] with at most [k] repetitions. *)
Fixpoint with_retry {A} (k : nat) (act : N -> N * result A) n : N * result A :=
  match k with
  | O => act n
  | S k => let '(n', r) := act n in match r with Ok _ => (n', r) | Err _ => with_retry k act n' end
  end.

(** Five attempts: one and four repetitions. *)
Definition ExecuteActivity {A} (act : N -> N * result A) n : N * result A := with_retry 4 act n.

(** ** Workflows *)

(** [time.Until], saturated to a duration. *)
Definition until_ (now t : Z) : Z := Z.max (- 2^63) (Z.min (2^63 - 1) (t - now)).

(** Sleeps until [t], unless it is past; whether it was cancelled. *)
Definition sleep_until (t : Z) n : N * bool :=
  let d := until_ (w_now n) t in if 0 <? d then w_sleep n d else (n, false).

Fixpoint signal_attempts (i : RetryLadderInput) (attempts : list RetryAttempt) n : N :=
  match attempts with
  | [] => n
  | a :: attempts =>
      if ra_AttemptNumber a <=? 1 then signal_attempts i attempts n
      else
        let '(n, cancelled) := sleep_until (ra_ScheduledAt a) n in
        if cancelled then n
        else
          let '(n, _) := ExecuteActivity (SignalSchedulerActivity (rl_LeadID i) (rl_CampaignID i) (ra_AttemptNumber a)) n in
          signal_attempts i attempts n
  end.

Definition RetryLadderWorkflow (i : RetryLadderInput) n : N * result RetryLadderResult :=
  if is_empty (rl_LeadID i) then (n, Err "lead_id required"%string) else
  if is_zero (rl_FirstCallAt i) then (n, Err "first_call_at required"%string) else
  let '(n, r) := ExecuteActivity (PickNextCallActivity i) n in
  match r with
  | Err e => (n, Err ("compute retry schedule: " ++ e)%string)
  | Ok result => (signal_attempts i (rr_Schedule result) n, Ok result)
  end.

Definition at_time (i : CallingWindowInput) (t : Z) : CallingWindowInput :=
  mkWindow (cw_CallID i) t (cw_WindowStart i) (cw_WindowEnd i) (cw_Timezone i).

Definition CallingWindowGateWorkflow (i : CallingWindowInput) n : N * result CallingWindowResult :=
  let '(n, r) := ExecuteActivity (CheckCallingWindowActivity i) n in
  match r with
  | Err e => (n, Err ("check calling window: " ++ e)%string)
  | Ok result =>
      if wr_CanProceed result then (n, Ok result)
      else
        let '(n, cancelled) := sleep_until (wr_WaitUntil result) n in
        if cancelled then (n, Ok result)
        else ExecuteActivity (CheckCallingWindowActivity (at_time i (wr_WaitUntil result))) n
  end.

(** What a poll of the health workflow ends with. *)
Inductive poll := Again | Finished.

Definition health_poll (campaignID : string) (interval : Z) n : N * poll :=
  let '(n, cancelled) := w_sleep n interval in
  if cancelled then (n, Finished) else
  let '(n, r) := ExecuteActivity (GetCampaignHealthActivity campaignID) n in
  match r with
  | Err _ => (n, Again)
  | Ok snap =>
      match EvaluateCampaignHealth tx snap with
      | Err _ | Ok None => (n, Again)
      | Ok (Some signal) =>
          let '(n, _) := ExecuteActivity (PauseCampaignActivity (ps_CampaignID signal) (ps_Reason signal)) n in (n, Finished)
      end
  end.

(** At most [fuel] polls of the endless loop; [Again] when it goes on. *)
Fixpoint health_loop (fuel : nat) (campaignID : string) (interval : Z) n : N * poll :=
  match fuel with
  | O => (n, Again)
  | S fuel =>
      let '(n, p) := health_poll campaignID interval n in
      match p with Finished => (n, Finished) | Again => health_loop fuel campaignID interval n end
  end.

Definition CampaignHealthWorkflow (fuel : nat) (i : CampaignHealthInput) n : N * (string + poll) :=
  if is_empty (ch_CampaignID i) then (n, inl "campaign_id required"%string) else
  let seconds := if ch_IntervalSeconds i <=? 0 then 60 else ch_IntervalSeconds i in
  let '(n, p) := health_loop fuel (ch_CampaignID i) (wrap64 (seconds * second)) n in (n, inr p).

Fixpoint pause_all (signals : list CampaignPauseSignal) n : N :=
  match signals with
  | [] => n
  | s :: signals =>
      let '(n, _) := ExecuteActivity (PauseCampaignActivity (ps_CampaignID s) (ps_Reason s)) n in pause_all signals n
  end.

(** The workflow on the signals it receives until it is cancelled; [events] are
    those received before. *)
Fixpoint watch_loop (i : CostCapWatchInput) (events received : list BillingMeterEvent) n : N :=
  match received with
  | [] => n
  | ev :: received =>
      let events := events ++ [ev] in
      let n := match EvaluateCostCap tx i events with Err _ => n | Ok signals => pause_all signals n end in
      watch_loop i events received n
  end.

Definition CostCapWatchWorkflow (i : CostCapWatchInput) (received : list BillingMeterEvent) n : N * error :=
  if is_empty (cc_TenantID i) then (n, Some "tenant_id required"%string) else (watch_loop i [] received n, None).

End Workflows.

Example hhmm_1 : scan_hhmm "09:30" = (9, 30, true). Proof. vm_compute. reflexivity. Qed.
Example hhmm_2 : scan_hhmm "9h" = (9, 0, false). Proof. vm_compute. reflexivity. Qed.
Example hhmm_3 : scan_hhmm "" = (0, 0, false). Proof. vm_compute. reflexivity. Qed.
