(* ===== verification/TemporalSafety.v ===== *)
(** * temporal-workers: what the workflows promise

    The retry ladder signals attempts in order and not before they are due; the
    calling-window gate waits for the first open instant; a cost cap pauses each
    campaign that reached it; and, in front of the campaign service, what these
    workflows cannot see. *)

From S2P Require Import Prelude GoTime Float64 Kv GoStrings Campaign CampaignSafety CampaignApi Temporal.

Open Scope Z_scope.

(** ** The retry ladder *)

(** The schedule is the policy's, capped, whichever of the two computations is
    asked: attempt [k] is numbered [k + 1] and due at the first call plus its
    offset, to the second. *)
Theorem ladder_follows_the_policy i k :
  rl_LeadID i <> ""%string -> rl_FirstCallAt i <> time_zero -> po_Offsets (rl_Policy i) <> [] ->
  EvaluateRetryLadder i = Ok (computeRetryScheduleLocal i) /\
  rr_Schedule (computeRetryScheduleLocal i) !! k
  = off ← po_Offsets (rl_Policy i) !! k;
    if decide (0 < po_Max (rl_Policy i) <= Z.of_nat k) then None
    else Some (mkRetryAttempt (Z.of_nat k + 1) (truncate_second (rl_FirstCallAt i + off))).
Proof.
  intros Hl Hf Ho. split.
  { unfold EvaluateRetryLadder. rewrite is_empty_false by done. unfold is_zero.
    by destruct (Z.eqb_spec (rl_FirstCallAt i) time_zero). }
  simpl. unfold ladder_attempts. rewrite bool_decide_false by done. set (offs := po_Offsets (rl_Policy i)).
  set (m := po_Max (rl_Policy i)). rewrite list_lookup_imap.
  destruct (offs !! k) as [off|] eqn:E; simpl; last first.
  { rewrite lookup_take, E. by case_decide. }
  apply lookup_lt_Some in E as Hk. rewrite lookup_take.
  destruct (Z.leb_spec m 0), (Z.ltb_spec (Z.of_nat (length offs)) m); simpl;
    destruct (decide (0 < m <= Z.of_nat k)), (decide _) as [|]; try lia; try done; by rewrite E.
Qed.

(** What an execution shows: the attempts posted to the scheduler, each with the
    time of the request; time does not go back, and a timer that was not
    cancelled has run. *)
Class WorldLaws (N : Type) `{World N} := {
  posted : N -> list (Z * string * string * Z);
  wl_sleep n d : posted (w_sleep n d).1 = posted n /\ w_now n <= w_now (w_sleep n d).1 /\
    ((w_sleep n d).2 = false -> w_now n + d <= w_now (w_sleep n d).1);
  wl_schedule n i : posted (post_schedule n i).1 = posted n /\ w_now n <= w_now (post_schedule n i).1;
  wl_attempt n l c k : posted (post_attempt n l c k).1 = posted n ++ [(w_now n, l, c, k)] /\
    w_now n <= w_now (post_attempt n l c k).1
}.

Section Ladder.
Context {N : Type} `{WorldLaws N}.
Implicit Types (n : N) (a : RetryAttempt).

(** The requests for one attempt: nothing but repetitions of it, none early. *)
Definition posts_of (i : RetryLadderInput) a (l : list (Z * string * string * Z)) : Prop :=
  Forall (fun p => p.1.1.2 = rl_LeadID i /\ p.1.2 = rl_CampaignID i /\ p.2 = ra_AttemptNumber a /\ ra_ScheduledAt a <= p.1.1.1) l.

Lemma signal_posts l c k n :
  exists n1 r, SignalSchedulerActivity l c k n = (n1, r) /\ posted n1 = posted n ++ [(w_now n, l, c, k)] /\ w_now n <= w_now n1.
Proof.
  unfold SignalSchedulerActivity. destruct (wl_attempt n l c k) as [Hp Hn]. destruct (post_attempt n l c k) as [n1 h].
  by eexists _, _.
Qed.

Lemma retry_posts i a k n :
  ra_ScheduledAt a <= w_now n ->
  let n' := (with_retry k (SignalSchedulerActivity (rl_LeadID i) (rl_CampaignID i) (ra_AttemptNumber a)) n).1 in
  exists l, posted n' = posted n ++ l /\ (0 < length l <= S k)%nat /\ posts_of i a l /\ w_now n <= w_now n'.
Proof.
  revert n. induction k as [|k IH]; intros n Hd; simpl;
    destruct (signal_posts (rl_LeadID i) (rl_CampaignID i) (ra_AttemptNumber a) n) as (n1 & r & -> & Hp & Hn).
  - eexists. split; [exact Hp|]. split_and!; [simpl; lia..|by apply Forall_singleton|done].
  - destruct r as [|e]; [eexists; split; [exact Hp|]; split_and!; [simpl; lia..|by apply Forall_singleton|done]|].
    destruct (IH n1) as (l & Hl & Hlen & Hf & Hn'); [lia|]. cbn zeta in *.
    exists ((w_now n, rl_LeadID i, rl_CampaignID i, ra_AttemptNumber a) :: l).
    split; [by rewrite Hl, Hp, <- app_assoc|]. split_and!; [simpl; lia..| |lia]. by apply Forall_cons_2.
Qed.

Lemma sleep_until_due n t :
  0 <= w_now n -> t < 2^63 ->
  let '(n', cancelled) := sleep_until t n in
  posted n' = posted n /\ w_now n <= w_now n' /\ (cancelled = false -> t <= w_now n').
Proof.
  intros Hn Ht. unfold sleep_until. set (d := until_ (w_now n) t). destruct (Z.ltb_spec 0 d).
  - destruct (wl_sleep n d) as (Hp & Hm & Hc). destruct (w_sleep n d) as [n' c]. simpl in *.
    split_and!; [done..|]. intros ->. specialize (Hc eq_refl). unfold d, until_ in *. lia.
  - split_and!; [done..|]. intros _. unfold d, until_ in *. lia.
Qed.

Lemma signal_attempts_posts i attempts n :
  0 <= w_now n -> Forall (fun a => ra_ScheduledAt a < 2^63) attempts ->
  exists done_ ls, done_ `prefix_of` List.filter (fun a => negb (ra_AttemptNumber a <=? 1)) attempts /\
    Forall2 (fun a l => (1 <= length l <= 5)%nat /\ posts_of i a l) done_ ls /\
    posted (signal_attempts i attempts n) = posted n ++ concat ls.
Proof.
  intros Hn Hall. revert n Hn. induction Hall as [|a attempts Ha _ IH]; intros n Hn; simpl.
  { exists [], []. split_and!; [apply prefix_nil|constructor|by rewrite app_nil_r]. }
  destruct (ra_AttemptNumber a <=? 1); simpl; [by apply IH|].
  pose proof (sleep_until_due n (ra_ScheduledAt a) Hn Ha) as Hs.
  destruct (sleep_until (ra_ScheduledAt a) n) as [n1 [|]]; destruct Hs as (Hp1 & Hm1 & Hd1).
  { exists [], []. split_and!; [apply prefix_nil|constructor|by rewrite app_nil_r]. }
  destruct (retry_posts i a 4 n1 (Hd1 eq_refl)) as (l & Hl & Hne & Hf & Hm2). unfold ExecuteActivity. cbn zeta in *.
  destruct (with_retry 4 (SignalSchedulerActivity _ _ _) n1) as [n2 r]. cbn [fst] in *. destruct (IH n2) as (ds & ls & Hpre & H2 & Hpo); [lia|].
  exists (a :: ds), (l :: ls). split_and!.
  - by apply prefix_cons.
  - constructor; [split; [lia|done]|done].
  - simpl. by rewrite Hpo, Hl, Hp1, <- app_assoc.
Qed.
(** C19: Attempts are signalled in the order of the schedule and when they are due.
    However the scheduler answers and whenever the workflow is cancelled, the
    requests of a run are, attempt after attempt of a prefix of the schedule
    without its first call, one to five requests for that attempt, none before
    its time. *)
Theorem attempts_are_signalled_in_order_and_on_time i n n' r :
  0 <= w_now n -> RetryLadderWorkflow i n = (n', Ok r) -> Forall (fun a => ra_ScheduledAt a < 2^63) (rr_Schedule r) ->
  exists done_ ls, done_ `prefix_of` List.filter (fun a => negb (ra_AttemptNumber a <=? 1)) (rr_Schedule r) /\
    Forall2 (fun a l => (1 <= length l <= 5)%nat /\ posts_of i a l) done_ ls /\
    posted n' = posted n ++ concat ls.
Proof.
  intros Hn. unfold RetryLadderWorkflow. destruct (is_empty _); [done|]. destruct (is_zero _); [done|].
  unfold ExecuteActivity, PickNextCallActivity. simpl. destruct (wl_schedule n i) as [Hp Hm].
  destruct (post_schedule n i) as [n1 h]. simpl in *. intros [= <- <-] Hall.
  destruct (signal_attempts_posts i _ n1 ltac:(lia) Hall) as (ds & ls & H1 & H2 & H3).
  exists ds, ls. split_and!; [done..|]. by rewrite H3, Hp.
Qed.
End Ladder.

(** ** Calling windows *)

Section Windows.
Context (load : string -> result Location) (loc : Location) (off : Z).
Hypothesis loc_fixed : fixed loc off.
Implicit Types (i : CallingWindowInput) (t : Z).

(** Nanoseconds of the local day. *)
Definition time_of_day t : Z := (t + off * second) mod (86400 * second).

Lemma local_day_start t : local_day loc t * 86400 * second = t + off * second - time_of_day t.
Proof.
  unfold local_day, local_seconds, time_of_day, unix. rewrite loc_fixed.
  pose proof (Z.div_mod (t + off * second) (86400 * second)) as E.
  assert (E2 : (t + off * second) / (86400 * second) = (t / second + off) / 86400).
  { rewrite (Z.mul_comm 86400), <- Z.div_div by (unfold second; lia). f_equal. rewrite Z.div_add by (unfold second; lia). done. }
  rewrite <- E2. unfold second in *. lia.
Qed.

Lemma clock_time_day h m t : clock_time h m t loc = t - time_of_day t + (h * 3600 + m * 60) * second.
Proof.
  unfold clock_time. rewrite (date_at_fixed loc off) by done. pose proof (local_day_start t) as E. unfold second in *. lia.
Qed.

Lemma time_of_day_range t : 0 <= time_of_day t < 86400 * second.
Proof. apply Z.mod_pos_bound. unfold second. lia. Qed.

Lemma time_of_day_shift t d : 0 <= time_of_day t + d < 86400 * second -> time_of_day (t + d) = time_of_day t + d.
Proof.
  intros Hd. unfold time_of_day in *. replace (t + d + off * second) with (t + off * second + d) by lia.
  rewrite Z.add_mod by (unfold second; lia). pose proof (Z.div_mod (t + off * second + d) (86400 * second)).
  rewrite <- (Z.add_mod _ _ (86400 * second)) by (unfold second; lia).
  set (x := t + off * second) in *. set (q := 86400 * second) in *. assert (0 < q) by (unfold q, second; lia).
  pose proof (Z.div_mod x q). symmetry. apply (Z.mod_unique_pos _ _ (x / q)); lia.
Qed.

(** The window of a request, in seconds of the day. *)
Record window_of i (s0 e0 : Z) : Prop := {
  wo_load : load (first_nonempty (cw_Timezone i) "Asia/Kolkata") = Ok loc;
  wo_start : exists h m, scan_hhmm (cw_WindowStart i) = (h, m, true) /\ s0 = h * 3600 + m * 60;
  wo_end : exists h m, scan_hhmm (cw_WindowEnd i) = (h, m, true) /\ e0 = h * 3600 + m * 60;
  wo_range : 0 <= s0 < e0 /\ e0 < 86400
}.

Definition open_time (s0 e0 t : Z) : Prop := s0 * second <= time_of_day t < e0 * second.

Lemma window_local i s0 e0 :
  window_of i s0 e0 ->
  let t := cw_RequestedAt i in let ws := t - time_of_day t + s0 * second in
  computeCallingWindowLocal load i
  = Ok (if e0 * second <=? time_of_day t then closed_until (ws + 24 * hour)
        else if time_of_day t <? s0 * second then closed_until ws else open_at t).
Proof.
  intros [Hl (h & m & Hs & ->) (h' & m' & He & ->) Hr] t ws. unfold computeCallingWindowLocal. rewrite Hl.
  unfold local_hhmm. rewrite Hs, He, !clock_time_day. fold t. unfold ws.
  destruct (Z.ltb_spec t (t - time_of_day t + (h' * 3600 + m' * 60) * second)),
    (Z.leb_spec ((h' * 3600 + m' * 60) * second) (time_of_day t)); try lia; simpl; [|done].
  destruct (Z.ltb_spec t (t - time_of_day t + (h * 3600 + m * 60) * second)),
    (Z.ltb_spec (time_of_day t) ((h * 3600 + m * 60) * second)); try lia; done.
Qed.

(** The local check answers with the first open instant: a request inside the
    window proceeds, any other waits until a time that is open and before which,
    from the request on, no time is. *)
Theorem window_wait_is_the_first_open_time i s0 e0 :
  window_of i s0 e0 ->
  let t := cw_RequestedAt i in
  exists r, computeCallingWindowLocal load i = Ok r /\
    (wr_CanProceed r = true <-> open_time s0 e0 t) /\
    (wr_CanProceed r = false -> t < wr_WaitUntil r /\ open_time s0 e0 (wr_WaitUntil r) /\
       forall u, t <= u < wr_WaitUntil r -> ~ open_time s0 e0 u).
Proof.
  intros Hw t. pose proof (window_local i s0 e0 Hw) as E. cbv zeta in E. fold t in E. destruct (wo_range _ _ _ Hw) as [Hr He].
  pose proof (time_of_day_range t) as Hd. eexists. split; [exact E|]. unfold open_time.
  assert (Hsec : 0 < second) by (unfold second; lia). assert (H24 : 24 * hour = 86400 * second) by (unfold hour, minute; lia).
  destruct (Z.leb_spec (e0 * second) (time_of_day t)) as [H1|H1]; [|destruct (Z.ltb_spec (time_of_day t) (s0 * second)) as [H2|H2]]; simpl.
  - split; [split; [done|lia]|]. intros _.
    assert (Hwait : time_of_day (t - time_of_day t + s0 * second + 24 * hour) = s0 * second).
    { unfold time_of_day at 1.
      replace (t - time_of_day t + s0 * second + 24 * hour + off * second)
        with (s0 * second + ((t + off * second) / (86400 * second) + 1) * (86400 * second)).
      - rewrite Z.mod_add by lia. apply Z.mod_small. nia.
      - pose proof (Z.div_mod (t + off * second) (86400 * second)). fold (time_of_day t) in *. lia. }
    split; [nia|]. split; [rewrite Hwait; nia|]. intros u Hu. destruct (Z_lt_le_dec (u - t) (86400 * second - time_of_day t)) as [Hb|Hb].
    + replace u with (t + (u - t)) by lia. rewrite time_of_day_shift by lia. lia.
    + replace u with (t - time_of_day t + 24 * hour + (u - (t - time_of_day t + 24 * hour))) by lia.
      assert (Hmid : time_of_day (t - time_of_day t + 24 * hour) = 0).
      { unfold time_of_day at 1.
        replace (t - time_of_day t + 24 * hour + off * second)
          with (0 + ((t + off * second) / (86400 * second) + 1) * (86400 * second)).
        - rewrite Z.mod_add by lia. apply Z.mod_small. lia.
        - pose proof (Z.div_mod (t + off * second) (86400 * second)). fold (time_of_day t) in *. lia. }
      rewrite time_of_day_shift; rewrite Hmid; nia.
  - split; [split; [done|lia]|]. intros _.
    replace (t - time_of_day t + s0 * second) with (t + (s0 * second - time_of_day t)) by lia.
    split; [lia|]. split; [rewrite time_of_day_shift; nia|]. intros u Hu.
    replace u with (t + (u - t)) by lia. rewrite time_of_day_shift by nia. lia.
  - split; [split; [lia|done]|done].
Qed.

(** The two checks disagree at the last instant: the evaluation used by the
    workflow's own code lets a call through at the end of the window, the
    activity does not; everywhere else they agree. *)
Theorem window_checks_differ_at_the_end i s0 e0 :
  window_of i s0 e0 ->
  if decide (time_of_day (cw_RequestedAt i) = e0 * second)
  then EvaluateCallingWindow load i = Ok (open_at (cw_RequestedAt i)) /\
       computeCallingWindowLocal load i <> Ok (open_at (cw_RequestedAt i))
  else EvaluateCallingWindow load i = computeCallingWindowLocal load i.
Proof.
  intros Hw. rewrite (window_local i s0 e0 Hw). destruct Hw as [Hl (h & m & Hs & ->) (h' & m' & He & ->) Hr].
  unfold EvaluateCallingWindow, parseHHMM. rewrite Hl, Hs, He, !clock_time_day. set (t := cw_RequestedAt i).
  assert (Hsec : 0 < second) by (unfold second; lia).
  set (ws := t - time_of_day t + (h * 3600 + m * 60) * second). set (we := t - time_of_day t + (h' * 3600 + m' * 60) * second).
  case_decide as E.
  - rewrite (proj2 (Z.leb_le _ _)) by lia. split; [|done].
    assert (Et : t = we) by (unfold we; lia). rewrite (proj2 (Z.eqb_eq t we) Et). rewrite andb_false_r.
    destruct (Z.ltb_spec t ws); [|done]. unfold ws in *. nia.
  - destruct (Z.ltb_spec t we) as [H1|H1], (Z.eqb_spec t we) as [H2|H2], (Z.leb_spec ((h' * 3600 + m' * 60) * second) (time_of_day t));
      unfold we in *; try lia; simpl; [|done].
    destruct (Z.ltb_spec t ws), (Z.ltb_spec (time_of_day t) ((h * 3600 + m * 60) * second)); unfold ws in *; try lia; done.
Qed.
End Windows.

Lemma proceeds_at_once load i r :
  computeCallingWindowLocal load i = Ok r -> wr_CanProceed r = true -> wr_ProceedAt r = cw_RequestedAt i.
Proof.
  unfold computeCallingWindowLocal. destruct (load _); [|done]. destruct (negb _); [by intros [= <-]|].
  destruct (_ <? _); by intros [= <-].
Qed.

(** The gate ends inside the window: when the compliance service gives no answer
    it can use and the workflow is not cancelled, it returns that the call may
    proceed, at a time inside the window that is not before the request. *)
Theorem gate_ends_inside_the_window {N} `{World N} load loc off i s0 e0 (n : N) :
  fixed loc off -> window_of load loc i s0 e0 ->
  (forall n i, usable (post_window n i).2 = None) -> (forall n d, (w_sleep n d).2 = false) ->
  exists r, (CallingWindowGateWorkflow load i n).2 = Ok r /\ wr_CanProceed r = true /\
    open_time off s0 e0 (wr_ProceedAt r) /\ cw_RequestedAt i <= wr_ProceedAt r.
Proof.
  intros Hf Hw Hp Hs.
  assert (Hact : forall j m r, computeCallingWindowLocal load j = Ok r ->
    exists m', ExecuteActivity (CheckCallingWindowActivity load j) m = (m', Ok r)).
  { intros j m r Hr. unfold ExecuteActivity. simpl. unfold CheckCallingWindowActivity at 1. specialize (Hp m j).
    destruct (post_window m j) as [m' h]. simpl in Hp. rewrite Hp, Hr. by eexists. }
  unfold CallingWindowGateWorkflow.
  destruct (window_wait_is_the_first_open_time load loc off Hf i s0 e0 Hw) as (r & Hr & Hopen & Hwait).
  destruct (Hact i n r Hr) as [n1 ->]. destruct (wr_CanProceed r) eqn:Hc.
  - exists r. rewrite (proceeds_at_once load i r Hr Hc). split_and!; [done..|by apply Hopen|lia].
  - destruct (Hwait eq_refl) as (Hlt & Hop & _). unfold sleep_until.
    assert (Hsl : exists n2, (if 0 <? until_ (w_now n1) (wr_WaitUntil r) then w_sleep n1 (until_ (w_now n1) (wr_WaitUntil r)) else (n1, false)) = (n2, false)).
    { destruct (0 <? _); [|by eexists]. specialize (Hs n1 (until_ (w_now n1) (wr_WaitUntil r))).
      destruct (w_sleep _ _) as [n2 c]. simpl in Hs. subst c. by eexists. }
    destruct Hsl as [n2 ->].
    assert (Hw2 : window_of load loc (at_time i (wr_WaitUntil r)) s0 e0) by (destruct Hw; by split).
    destruct (window_wait_is_the_first_open_time load loc off Hf _ s0 e0 Hw2) as (r2 & Hr2 & Hopen2 & _).
    destruct (Hact _ n2 r2 Hr2) as [n3 ->]. exists r2. simpl in Hopen2.
    assert (Hc2 : wr_CanProceed r2 = true) by by apply Hopen2.
    rewrite (proceeds_at_once load _ r2 Hr2 Hc2). simpl. split_and!; [done..|]. lia.
Qed.

(** ** Cost caps *)

(** Campaigns over their cap, and only these, are signalled, each once. *)
Lemma cap_loop_spec tx i seen events :
  NoDup (ps_CampaignID <$> cap_loop tx i seen events) /\
  forall c, c ∈ ps_CampaignID <$> cap_loop tx i seen events <->
    c ∉ seen /\ exists ev, ev ∈ events /\ bm_TenantID ev = cc_TenantID i /\ bm_CampaignID ev = c /\ over_cap i ev = true.
Proof.
  revert seen. induction events as [|ev events IH]; intros seen; simpl.
  { split; [constructor|]. intros c. split; [by intros ?%not_elem_of_nil|by intros (_ & e & ?%not_elem_of_nil & _)]. }
  destruct (negb (bool_decide (bm_TenantID ev = cc_TenantID i)) || bool_decide (bm_CampaignID ev ∈ seen)) eqn:Hskip.
  - destruct (IH seen) as [Hn Hiff]. split; [done|]. intros c. rewrite Hiff. split.
    + intros [Hs (e & He & Hr)]. split; [done|]. exists e. split; [by right|done].
    + intros [Hs (e & He & Ht & Hc & Ho)]. split; [done|]. exists e. split_and!; try done.
      apply elem_of_cons in He as [->|]; [|done]. exfalso. apply orb_true_iff in Hskip as [Hk|Hk].
      * apply negb_true_iff, bool_decide_eq_false in Hk. done.
      * apply bool_decide_eq_true in Hk. by subst c.
  - apply orb_false_iff in Hskip as [Ht Hseen]. apply negb_false_iff, bool_decide_eq_true in Ht.
    apply bool_decide_eq_false in Hseen. destruct (over_cap i ev) eqn:Ho; simpl.
    + destruct (IH (bm_CampaignID ev :: seen)) as [Hn Hiff]. split.
      * apply NoDup_cons. split; [|done]. rewrite Hiff. set_solver.
      * intros c. rewrite elem_of_cons, Hiff, not_elem_of_cons. split.
        -- intros [->|[[Hne Hs] (e & He & Hr)]]; [split; [done|]; exists ev; split; [by left|done]|].
           split; [done|]. exists e. split; [by right|done].
        -- intros [Hs (e & He & Hr)]. destruct (decide (c = bm_CampaignID ev)) as [|Hne]; [by left|]. right.
           split; [done|]. exists e. split; [|done]. apply elem_of_cons in He as [->|]; [|done]. by destruct Hr as (_ & <- & _).
    + destruct (IH seen) as [Hn Hiff]. split; [done|]. intros c. rewrite Hiff. split.
      * intros [Hs (e & He & Hr)]. split; [done|]. exists e. split; [by right|done].
      * intros [Hs (e & He & Hr)]. split; [done|]. exists e. split; [|done].
        apply elem_of_cons in He as [->|]; [|done]. destruct Hr as (_ & _ & Hr). congruence.
Qed.

(** ** In front of the campaign service *)

Section Campaigns.
Context {T : Type} `{CampaignFrame T} (cenv : CampEnv) (tx : Texts).

(** The campaign service at a time; the other services give no answer. *)
Record CampWorld := mkCampWorld { wd_store : T; wd_now : Z }.

(** The snapshot decoded from the body: what campaign has no field for is 0, and
    an error body has none of the fields. *)
Definition snapshot_of (h : CampaignHealth) : HealthSnapshot :=
  mkHealthSnap (he_CampaignID h) (he_ConnectRate h) (he_QualifyRate h) (he_CostBurnINR h) (he_SuppressionHitRate h) 0 (f_of_int 0).
Definition no_snapshot : HealthSnapshot := mkHealthSnap "" (f_of_int 0) (f_of_int 0) (f_of_int 0) (f_of_int 0) 0 (f_of_int 0).

#[local] Instance camp_world : World CampWorld := {
  w_now := wd_now;
  w_sleep n d := (mkCampWorld (wd_store n) (wd_now n + d), false);
  post_schedule n _ := (n, Down "refused");
  post_window n _ := (n, Down "refused");
  post_attempt n _ _ _ := (n, Down "refused");
  post_usage n _ := (n, Down "refused");
  post_pause n c reason :=
    let '(s, a) := serve cenv (wd_store n) (wd_now n) "" (RPause c (Ok reason)) in
    (mkCampWorld s (wd_now n), match a with CErr code m => Answered code m None | _ => Answered 200 "" (Some tt) end);
  get_health n c :=
    let '(s, a) := serve cenv (wd_store n) (wd_now n) "" (RHealth c) in
    (mkCampWorld s (wd_now n), match a with
                               | CHealth h => Answered 200 "" (Some (snapshot_of h))
                               | CErr code m => Answered code m (Some no_snapshot)
                               | _ => Answered 200 "" None
                               end)
}.

(** What pausing [id] makes of a campaign. *)
Definition paused_at (now : Z) (reason : string) (c : Campaign) : Campaign :=
  with_status c StatusPaused (if is_empty reason then "manually paused"%string else reason) now.

Lemma pause_moves id reason n :
  cs_ok (wd_store n) ->
  let n' := (ExecuteActivity (PauseCampaignActivity id reason) n).1 in
  wd_now n' = wd_now n /\ moved (wd_store n) (wd_store n') id (paused_at (wd_now n) reason).
Proof.
  intros Hok. unfold ExecuteActivity.
  assert (Hact : PauseCampaignActivity id reason n
    = (mkCampWorld (UpdateCampaignStatus (wd_store n) (wd_now n) id StatusPaused (if is_empty reason then "manually paused" else reason)%string).1 (wd_now n),
       of_error (accepted ("pause campaign " ++ id)%string "campaign service"
         (match (UpdateCampaignStatus (wd_store n) (wd_now n) id StatusPaused (if is_empty reason then "manually paused" else reason)%string).2 with
          | Some e => Answered 500 e None | None => Answered 200 "" (Some tt) end)))).
  { unfold PauseCampaignActivity. cbn [post_pause camp_world serve]. unfold pauseCampaign, PauseCampaign.
    by destruct (UpdateCampaignStatus _ _ _ _ _) as [s [e|]]. }
  pose proof (status_moves (wd_store n) (wd_now n) id StatusPaused (if is_empty reason then "manually paused" else reason)%string Hok) as Hm.
  destruct (cs_camp (wd_store n) id) as [c|] eqn:Hc.
  - destruct (cs_status _ (wd_now n) id StatusPaused (if is_empty reason then "manually paused" else reason)%string c Hok Hc) as (He & _ & _).
    simpl. rewrite Hact, He. simpl. split; [done|exact Hm].
  - rewrite (cs_missing _ _ _ _ _ Hok Hc) in *. simpl in Hact. destruct n as [s now].
    assert (Hfix : forall k, (with_retry k (PauseCampaignActivity id reason) (mkCampWorld s now)).1 = mkCampWorld s now).
    { intros k. induction k as [|k IH]; simpl; rewrite Hact; [done|exact IH]. }
    rewrite Hfix. split; [done|exact Hm].
Qed.

Lemma pause_all_moves signals n :
  cs_ok (wd_store n) ->
  let n' := pause_all signals n in
  wd_now n' = wd_now n /\ cs_ok (wd_store n') /\
  forall i, (i ∉ ps_CampaignID <$> signals -> cs_camp (wd_store n') i = cs_camp (wd_store n) i) /\
    (i ∈ ps_CampaignID <$> signals -> forall c, cs_camp (wd_store n) i = Some c ->
       exists c', cs_camp (wd_store n') i = Some c' /\ ca_Status c' = StatusPaused /\ same_campaign c c').
Proof.
  revert n. induction signals as [|[id reason] signals IH]; intros n Hok; simpl.
  { split; [done|]. split; [done|]. intros i. split; [done|by intros ?%not_elem_of_nil]. }
  destruct (pause_moves id reason n Hok) as [Hnow [Hok1 Hm]].
  destruct (ExecuteActivity (PauseCampaignActivity id reason) n) as [n1 r]. cbn [fst] in *.
  destruct (IH n1 Hok1) as (Hnow2 & Hok2 & Hcs). split; [congruence|]. split; [done|]. intros i.
  destruct (Hcs i) as [Hout Hin]. specialize (Hm i). split.
  - rewrite not_elem_of_cons. intros [Hne Hni]. rewrite (Hout Hni), Hm, decide_False by done. apply fmap_same.
  - intros Hi c Hc. rewrite Hc in Hm. simpl in Hm. destruct (decide (i ∈ ps_CampaignID <$> signals)) as [Hs|Hs].
    + destruct (Hin Hs _ Hm) as (c' & Hc' & Hst & Hsame). exists c'. split_and!; [done..|].
      destruct (decide (id = i)); [|done]. by unfold same_campaign in *; simpl in *.
    + apply elem_of_cons in Hi as [->|]; [|done]. rewrite decide_True in Hm by done.
      eexists. rewrite (Hout Hs). split_and!; [done..|]. done.
Qed.

(** A campaign over its cap is paused. Whatever the billing signals, once the
    last of them is handled every stored campaign for which the tenant reported a
    burn at or over its cap is paused, with its owner and versions as they were,
    and every other campaign is untouched. *)
Theorem capped_campaigns_are_paused i events ev received n :
  cc_TenantID i <> ""%string -> cs_ok (wd_store n) ->
  let n' := watch_loop tx i events (ev :: received) n in
  forall c camp, cs_camp (wd_store n) c = Some camp ->
  let breach := exists e, e ∈ events ++ ev :: received /\ bm_TenantID e = cc_TenantID i /\ bm_CampaignID e = c /\ over_cap i e = true in
  (breach -> exists camp', cs_camp (wd_store n') c = Some camp' /\ ca_Status camp' = StatusPaused /\ same_campaign camp camp') /\
  (~ breach -> cs_camp (wd_store n') c = Some camp).
Proof.
  intros Ht. revert events ev n. induction received as [|ev' received IH]; intros events ev n Hok n' c camp Hc breach.
  - unfold n'. simpl. unfold EvaluateCostCap. rewrite is_empty_false by done.
    destruct (pause_all_moves (cap_loop tx i [] (events ++ [ev])) n Hok) as (_ & _ & Hcs).
    destruct (Hcs c) as [Hout Hin], (cap_loop_spec tx i [] (events ++ [ev])) as [_ Hiff]. split.
    + intros Hb. apply Hin; [|done]. apply Hiff. split; [apply not_elem_of_nil|exact Hb].
    + intros Hb. rewrite Hout; [done|]. intros [_ Hx]%Hiff. by apply Hb.
  - unfold n'. change (watch_loop tx i events (ev :: ev' :: received) n)
      with (watch_loop tx i (events ++ [ev]) (ev' :: received)
              (match EvaluateCostCap tx i (events ++ [ev]) with Err _ => n | Ok signals => pause_all signals n end)).
    unfold EvaluateCostCap. rewrite is_empty_false by done.
    destruct (pause_all_moves (cap_loop tx i [] (events ++ [ev])) n Hok) as (_ & Hok1 & Hcs).
    destruct (Hcs c) as [Hout Hin], (cap_loop_spec tx i [] (events ++ [ev])) as [_ Hiff].
    set (n1 := pause_all _ n) in *.
    assert (Hc1 : exists camp1, cs_camp (wd_store n1) c = Some camp1 /\ same_campaign camp camp1 /\ (~ breach -> camp1 = camp)).
    { destruct (decide (c ∈ ps_CampaignID <$> cap_loop tx i [] (events ++ [ev]))) as [Hs|Hs].
      - destruct (Hin Hs _ Hc) as (c1 & Hc1 & _ & Hsame). exists c1. split_and!; [done..|]. intros Hb. exfalso. apply Hb.
        apply Hiff in Hs as [_ (e & He & Hr)]. exists e. split; [|done]. set_solver.
      - exists camp. rewrite (Hout Hs). split_and!; [done|done|done]. }
    destruct Hc1 as (camp1 & Hc1 & Hsame & Hsam).
    destruct (IH (events ++ [ev]) ev' n1 Hok1 c camp1 Hc1) as [Hy1 Hy2]. rewrite <- app_assoc in Hy1, Hy2. split.
    + intros Hb. destruct (Hy1 Hb) as (c2 & Hc2 & Hst & Hs2). exists c2. split_and!; [done..|].
      unfold same_campaign in *. intuition congruence.
    + intros Hb. rewrite Hy2 by done. f_equal. by apply Hsam.
Qed.

(** What campaign reports is all the health workflow sees: hallucinations and
    provider failures are not among it, so a poll pauses the campaign exactly when
    the rate of suppressed numbers is over its threshold. *)
Theorem health_poll_sees_only_suppressions n id interval h :
  GetLatestHealth (wd_store n) id = Ok h -> he_CampaignID h <> ""%string ->
  (health_poll tx id interval n).2 = (if f_lt suppressionHitThreshold (he_SuppressionHitRate h) then Finished else Again).
Proof.
  intros Hh Hid. unfold health_poll. cbn [w_sleep camp_world]. set (m := mkCampWorld (wd_store n) (wd_now n + interval)).
  assert (Hact : ExecuteActivity (GetCampaignHealthActivity id) m = (m, Ok (snapshot_of h))).
  { unfold ExecuteActivity. cbn [with_retry]. unfold GetCampaignHealthActivity at 1. cbn [get_health camp_world serve].
    unfold getCampaignHealth, GetCampaignHealth. cbn [m wd_store wd_now]. by rewrite Hh. }
  rewrite Hact. unfold EvaluateCampaignHealth.
  cbn [snapshot_of hs_CampaignID hs_HallucinationCount hs_ProviderFailureRate hs_SuppressionHitRate].
  rewrite is_empty_false by done. change (hallucinationThreshold <? 0) with false.
  change (f_lt providerFailureThreshold (f_of_int 0)) with false. cbn iota.
  destruct (f_lt suppressionHitThreshold _); [|done].
  match goal with |- context [ExecuteActivity ?a m] => by destruct (ExecuteActivity a m) end.
Qed.
End Campaigns.

(** ** A workflow that cannot be replayed *)

(** The commands a run of a workflow gives to Temporal. On a replay they have to
    be the same; the time of the replay is another one. *)
Inductive command := CmdActivity (name : string) | CmdTimer (d : Z).
Record Replay := mkReplay { rp_now : Z; rp_commands : list command }.

#[local] Instance replay_world : World Replay := {
  w_now := rp_now;
  w_sleep n d := (mkReplay (rp_now n) (rp_commands n ++ [CmdTimer d]), false);
  post_schedule n _ := (mkReplay (rp_now n) (rp_commands n ++ [CmdActivity "PickNextCall"]), Down "refused");
  post_window n _ := (n, Down "refused");
  post_attempt n _ _ _ := (mkReplay (rp_now n) (rp_commands n ++ [CmdActivity "SignalScheduler"]), Answered 200 "" (Some tt));
  post_usage n _ := (n, Down "refused");
  post_pause n _ _ := (n, Down "refused");
  get_health n _ := (n, Down "refused")
}.

(** The retry ladder reads the wall clock to decide whether to set a timer: run
    before an attempt is due and replayed after that, it gives other commands. *)
Theorem replayed_ladder_gives_other_commands :
  let i := mkLadder "l1" "c1" hour (mkPolicy [0; hour] 2) in
  rp_commands (RetryLadderWorkflow i (mkReplay hour [])).1
    = [CmdActivity "PickNextCall"; CmdTimer hour; CmdActivity "SignalScheduler"] /\
  rp_commands (RetryLadderWorkflow i (mkReplay (3 * hour) [])).1
    = [CmdActivity "PickNextCall"; CmdActivity "SignalScheduler"].
Proof. vm_compute. done. Qed.

(** ** Witnesses *)

(** A world that keeps time: each request takes a second. *)
Module Ticking.
Record t := mk { now : Z; log : list (Z * string * string * Z) }.
End Ticking.

#[local] Instance ticking_world : World Ticking.t := {
  w_now := Ticking.now;
  w_sleep n d := (Ticking.mk (Ticking.now n + Z.max 0 d) (Ticking.log n), false);
  post_schedule n _ := (Ticking.mk (Ticking.now n + second) (Ticking.log n), Down "refused");
  post_window n _ := (n, Down "refused");
  post_attempt n l c k :=
    (Ticking.mk (Ticking.now n + second) (Ticking.log n ++ [(Ticking.now n, l, c, k)]), Answered 200 "" (Some tt));
  post_usage n _ := (n, Down "refused");
  post_pause n _ _ := (n, Down "refused");
  get_health n _ := (n, Down "refused")
}.
#[local] Program Instance ticking_laws : WorldLaws Ticking.t := { posted := Ticking.log }.
Next Obligation. intros n d. simpl. split_and!; [done|lia|lia]. Qed.
Next Obligation. intros n i. simpl. unfold second. split; [done|lia]. Qed.
Next Obligation. intros n l c k. simpl. unfold second. split; [done|lia]. Qed.

Definition ladder3 : RetryLadderInput := mkLadder "l1" "c1" hour (mkPolicy [0; hour; 24 * hour] 3).

Lemma attempts_are_signalled_in_order_and_on_time_witness :
  exists n' r ds ls, RetryLadderWorkflow ladder3 (Ticking.mk hour []) = (n', Ok r) /\
    ds `prefix_of` List.filter (fun a => negb (ra_AttemptNumber a <=? 1)) (rr_Schedule r) /\
    Ticking.log n' = concat ls /\ length (Ticking.log n') = 2%nat.
Proof.
  destruct (RetryLadderWorkflow ladder3 (Ticking.mk hour [])) as [n' [r|e]] eqn:E; [|vm_compute in E; discriminate E].
  destruct (attempts_are_signalled_in_order_and_on_time ladder3 (Ticking.mk hour []) n' r) as (ds & ls & H1 & _ & H3);
    [by vm_compute|exact E| |].
  - vm_compute in E. injection E as <- <-. repeat constructor.
  - exists n', r, ds, ls. split_and!; [reflexivity|exact H1|exact H3|]. vm_compute in E. injection E as <- <-. reflexivity.
Defined.

Definition texts : Texts := mkTexts (fun _ => "hallucinations") (fun _ => "failures") (fun _ => "suppressed") (fun _ _ => "cap").
Definition only_kolkata (tz : string) : result Location :=
  if decide (tz = "Asia/Kolkata")%string then Ok kolkata else Err "unknown time zone"%string.

Lemma capped_campaigns_are_paused_witness :
  let i := mkCapWatch "t1" (f_of_int 100) in
  let n := mkCampWorld (CampaignFixture.store "approved" StatusActive) hour in
  let n' := @watch_loop _ (camp_world (mkCampEnv false "" no_llm)) texts i [mkMeter "t1" "c1" (f_of_int 120) (f_of_int 0)]
    [mkMeter "t1" "c2" (f_of_int 1) (f_of_int 0)] n in
  exists camp', cs_camp (wd_store n') "c1" = Some camp' /\ ca_Status camp' = StatusPaused.
Proof.
  intros i n n'.
  destruct (capped_campaigns_are_paused (mkCampEnv false "" no_llm) texts i [mkMeter "t1" "c1" (f_of_int 120) (f_of_int 0)]
    (mkMeter "t1" "c2" (f_of_int 1) (f_of_int 0)) [] n ltac:(done) eq_refl "c1" (CampaignFixture.camp StatusActive) eq_refl)
    as [Hb _].
  destruct Hb as (camp' & H1 & H2 & _).
  - eexists. split; [left|]. split_and!; [reflexivity|reflexivity|vm_compute; reflexivity].
  - exists camp'. split; [exact H1|exact H2].
Defined.

Lemma gate_ends_inside_the_window_witness :
  let i := mkWindow "call1" (22 * hour) "09:00" "21:00" "" in
  exists r, (@CallingWindowGateWorkflow _ ticking_world only_kolkata i (Ticking.mk (22 * hour) [])).2 = Ok r /\
    wr_CanProceed r = true /\ 22 * hour <= wr_ProceedAt r.
Proof.
  intros i.
  destruct (gate_ends_inside_the_window only_kolkata kolkata 19800 i 32400 75600 (Ticking.mk (22 * hour) []))
    as (r & H1 & H2 & _ & H4); [apply fixed_zone_fixed| |done|done|by exists r].
  split; [reflexivity|by exists 9, 0|by exists 21, 0|lia].
Defined.
