(* ===== verification/Providers.v ===== *)
(** * telephony-adapter: the providers behind the router

    [services/telephony-adapter/internal]: the XML answers (plivoxml), the
    clients of the Plivo and Vobiz APIs and of the FreeSWITCH event socket
    (adapter, esl), the test doubles, the recording manager, and the handlers
    that answer with XML.  A provider is a record of operations on the state of
    what it talks to; HTTP and JSON decoding are arguments. *)

From stdpp Require Import pretty.
From S2P Require Import Prelude GoTime Float64 Kv GoStrings Limiter TelStore Routing Webhook.

Open Scope Z_scope.

(** ** XML *)

(** An element with the attributes that are not omitted, its text and the
    elements in it. *)
Inductive xml := Element (name : string) (attrs : list (string * string)) (text : string) (inner : list xml).

(** [xml.EscapeText] on valid UTF-8: characters XML does not allow are replaced
    by U+FFFD. *)
Definition escape_char (c : Ascii.ascii) : string :=
  let n := Ascii.N_of_ascii c in
  if (n =? 34)%N then "&#34;" else if (n =? 39)%N then "&#39;" else if (n =? 38)%N then "&amp;"
  else if (n =? 60)%N then "&lt;" else if (n =? 62)%N then "&gt;" else if (n =? 9)%N then "&#x9;"
  else if (n =? 10)%N then "&#xA;" else if (n =? 13)%N then "&#xD;"
  else if (n <? 32)%N then String (Ascii.ascii_of_N 239) (String (Ascii.ascii_of_N 191) (String (Ascii.ascii_of_N 189) ""))
  else String c "".

Fixpoint escape (s : string) : string :=
  match s with EmptyString => "" | String c s => escape_char c ++ escape s end%string.

Definition dquote : string := String (Ascii.ascii_of_N 34) "".

(** Attributes with [omitempty]. *)
Definition attr (name value : string) : list (string * string) := if is_empty value then [] else [(name, value)].
Definition attr_int (name : string) (value : Z) : list (string * string) :=
  if value =? 0 then [] else [(name, pretty value)].
Definition attr_bool (name : string) (value : bool) : list (string * string) := if value then [(name, "true")] else [].

Definition encode_attrs (attrs : list (string * string)) : string :=
  join "" (map (fun '(k, v) => " " ++ k ++ "=" ++ dquote ++ escape v ++ dquote) attrs)%string.

Fixpoint indent (depth : nat) : string :=
  match depth with O => "" | S depth => "  " ++ indent depth end%string.

(** An element, indented by two blanks per level; without elements in it, its end
    follows its text. *)
Fixpoint encode_at (depth : nat) (e : xml) : string :=
  let 'Element name attrs text inner := e in
  (indent depth ++ "<" ++ name ++ encode_attrs attrs ++ ">" ++ escape text
   ++ join "" (map (fun e => NL ++ encode_at (S depth) e) inner)
   ++ (if bool_decide (length inner = 0%nat) then "" else NL ++ indent depth)
   ++ "</" ++ name ++ ">")%string.

Definition xml_header : string :=
  ("<?xml version=" ++ dquote ++ "1.0" ++ dquote ++ " encoding=" ++ dquote ++ "UTF-8" ++ dquote ++ "?>" ++ NL)%string.

(** [Response.Encode]. *)
Definition Encode (elements : list xml) : string :=
  (xml_header ++ encode_at 0 (Element "Response" [] "" elements) ++ NL)%string.

Definition Speak (voice language text : string) : xml :=
  Element "Speak" (attr "voice" voice ++ attr "language" language) text [].
Definition Play (loop : Z) (url : string) : xml := Element "Play" (attr_int "loop" loop) url [].
Definition Hangup_ (reason : string) : xml := Element "Hangup" (attr "reason" reason) "" [].
Definition RecordElement (action method : string) (maxLength : Z) (finishOnKey : string) (playBeep recordSession : bool) : xml :=
  Element "Record" (attr "action" action ++ attr "method" method ++ attr_int "maxLength" maxLength
    ++ attr "finishOnKey" finishOnKey ++ attr_bool "playBeep" playBeep ++ attr_bool "recordSession" recordSession) "" [].
Definition GetDigits (action method : string) (numDigits timeout : Z) (finishOnKey : string) (inner : list xml) : xml :=
  Element "GetDigits" (attr "action" action ++ attr "method" method ++ attr_int "numDigits" numDigits
    ++ attr_int "timeout" timeout ++ attr "finishOnKey" finishOnKey) "" inner.
Definition DialElement (action method callerID record : string) (timeLimit : Z) (inner : list xml) : xml :=
  Element "Dial" (attr "action" action ++ attr "method" method ++ attr "callerId" callerID
    ++ attr "record" record ++ attr_int "timeLimit" timeLimit) "" inner.
Definition SIPEndpoint (uri : string) : xml := Element "User" [] uri [].
Definition PhoneNumber (number : string) : xml := Element "Number" [] number [].
Definition Stream (bidirectional contentType keepCallAlive audioTrack url : string) : xml :=
  Element "Stream" (attr "bidirectional" bidirectional ++ attr "contentType" contentType
    ++ attr "keepCallAlive" keepCallAlive ++ attr "audioTrack" audioTrack) url [].

Definition SmokeResponse : string := Encode [Speak "Polly.Aditi" "en-IN" "Hello, this is Capsy testing."].
Definition VobizStreamResponse (wsURL : string) : string :=
  Encode [Stream "true" "audio/x-mulaw;rate=8000" "true" "inbound" wsURL].
Definition BridgeToSIP (sipURI callerID : string) : string :=
  Encode [DialElement "" "" callerID "" 1800 [SIPEndpoint sipURI]].

(** ** The handlers that answer with XML *)

(** A request of a provider: the decoded query, the content type and the body.
    [json_params] is the body as a JSON object, its values printed;
    [form_params] as a form. *)
Record VobizRequest := mkVobizReq { vr_query : gmap string string; vr_type : string; vr_body : string }.

Section Answers.
Variables json_params form_params : string -> option (gmap string string).

Definition begins_with_brace (s : string) : bool := has_prefix s "{".

(** Query, overwritten by the body. *)
Definition parseVobizParams (r : VobizRequest) : gmap string string :=
  let as_form := match form_params (vr_body r) with None => vr_query r | Some m => m ∪ vr_query r end in
  if bool_decide (vr_type r = "application/json"%string) || begins_with_brace (vr_body r)
  then match json_params (vr_body r) with Some m => m ∪ vr_query r | None => as_form end
  else as_form.

(** The address of the media bridge, from the public address of the service. *)
Definition ws_base (baseURL : string) : string :=
  let baseURL := first_nonempty baseURL "wss://localhost:8081" in
  if has_prefix baseURL "https://" then "wss://" ++ trim_prefix baseURL "https://"
  else if has_prefix baseURL "http://" then "ws://" ++ trim_prefix baseURL "http://"
  else baseURL.

Definition answer_uuid (r : VobizRequest) : string :=
  let query k := param (vr_query r) k in
  first_nonempty (vobizCallUUID (parseVobizParams r))
    (first_nonempty (query "CallUUID") (first_nonempty (query "call_uuid") "unknown")).

Definition vobizAnswer (baseURL : string) (r : VobizRequest) : string :=
  VobizStreamResponse (ws_base baseURL ++ "/ws/vobiz/" ++ answer_uuid r)%string.

Definition plivoAnswer : string := SmokeResponse.
End Answers.

Definition listProviders {T L} `{TelStore T} `{Limiter L} (env : Env) (r : Router T L) (now : Z) (region : string)
    : Z * string :=
  match Select env r now region with Err e => (503, e) | Ok name => (200, name) end.

Example smoke :
  SmokeResponse = (xml_header ++ "<Response>" ++ NL ++ "  <Speak voice=" ++ dquote ++ "Polly.Aditi" ++ dquote ++ " language="
    ++ dquote ++ "en-IN" ++ dquote ++ ">Hello, this is Capsy testing.</Speak>" ++ NL ++ "</Response>" ++ NL)%string.
Proof. vm_compute. reflexivity. Qed.
Example bridge :
  BridgeToSIP "sip:a" "<1>" = (xml_header ++ "<Response>" ++ NL ++ "  <Dial callerId=" ++ dquote ++ "&lt;1&gt;" ++ dquote
    ++ " timeLimit=" ++ dquote ++ "1800" ++ dquote ++ ">" ++ NL ++ "    <User>sip:a</User>" ++ NL ++ "  </Dial>" ++ NL
    ++ "</Response>" ++ NL)%string.
Proof. vm_compute. reflexivity. Qed.

(** ** Providers *)

Record RecordingRef := mkRef { rf_RecordingID : string; rf_StorageKey : string; rf_Encrypted : bool }.

(** The interface [Telephony]. *)
Record Provider (N : Type) := mkProvider {
  pv_Name : string;
  pv_PlaceCall : N -> CallRequest -> N * result string;
  pv_Hangup : N -> string -> N * error;
  pv_TransferToHuman : N -> string -> string -> N * error;
  pv_GetRecording : N -> string -> N * result RecordingRef;
  pv_Healthy : N -> N * bool
}.
Arguments mkProvider {N}.
Arguments pv_Name {N}.
Arguments pv_PlaceCall {N}.
Arguments pv_Hangup {N}.
Arguments pv_TransferToHuman {N}.
Arguments pv_GetRecording {N}.
Arguments pv_Healthy {N}.

(** Exotel and Twilio are not integrated. *)
Definition stub {N} (name : string) : Provider N :=
  let refuse id := (name ++ ": not yet integrated, call " ++ id)%string in
  mkProvider name
    (fun n _ => (n, Err (name ++ ": not yet integrated")%string))
    (fun n id => (n, Some (refuse id)))
    (fun n id _ => (n, Some (refuse id)))
    (fun n id => (n, Err (refuse id)))
    (fun n => (n, false)).
Definition NewExotel {N} : Provider N := stub "exotel".
Definition NewTwilio {N} : Provider N := stub "twilio".

(** *** Plivo and Vobiz *)

Inductive json_body :=
| CallBody (from to answer_url answer_method : string)
| TransferBody (legs aleg_url : string).

Record ApiRequest := mkApi {
  ap_method : string;
  ap_url : string;
  ap_headers : list (string * string);
  ap_body : option json_body
}.

Inductive api_answer := NoAnswer (e : string) | BadBody (code : Z) (e : string) | Reply (code : Z) (body : string).

(** HTTP: [bad_url] is the error of [http.NewRequest]. *)
Class Transport (N : Type) := {
  t_do : N -> ApiRequest -> N * api_answer;
  bad_url : string -> error
}.

Record CallResponse := mkCallResp {
  cr_APIID : string;
  cr_Message : string;
  cr_RequestUUID : string;
  cr_MessageUUID : string;
  cr_CallUUID : string
}.

(** [json.Unmarshal]; of an error body, [error] and [message], empty when they
    cannot be read; of a list of recordings, the URLs. *)
Record Codec := mkCodec {
  decode_error : string -> string * string;
  decode_call : string -> result CallResponse;
  decode_recordings : string -> result (list string);
  base64 : string -> string
}.

(** Where the two APIs differ: the credentials in the headers, the method of the
    answer, and where the call id may be. *)
Record ApiFamily := mkFamily {
  fa_name : string;
  fa_auth : Codec -> string -> string -> list (string * string);
  fa_answer_method : string;
  fa_uuids : CallResponse -> list string;
  fa_no_uuid : CallResponse -> string;
  fa_health_path : string -> string
}.

Definition basicAuth (c : Codec) (authID authToken : string) : string :=
  ("Basic " ++ base64 c (authID ++ ":" ++ authToken))%string.

Definition plivo_family : ApiFamily := mkFamily "plivo"
  (fun c authID authToken => [("Authorization", basicAuth c authID authToken)]%string) "GET"
  (fun r => [cr_CallUUID r; cr_RequestUUID r])
  (fun r => "plivo: CreateCall returned empty uuid (msg=" ++ quote (cr_Message r) ++ ")")%string
  (fun _ => "/"%string).

Definition vobiz_family : ApiFamily := mkFamily "vobiz"
  (fun _ authID authToken => [("X-Auth-ID", authID); ("X-Auth-Token", authToken)]%string) "POST"
  (fun r => [cr_CallUUID r; cr_RequestUUID r; cr_MessageUUID r])
  (fun r => "vobiz: CreateCall returned empty uuid (api_id=" ++ quote (cr_APIID r) ++ " msg=" ++ quote (cr_Message r) ++ ")")%string
  (fun authID => "/Account/" ++ authID ++ "/")%string.

(** [io.LimitReader(_, 1<<20)]. *)
Definition limited (body : string) : string :=
  if Z.of_nat (String.length body) <=? 1048576 then body else String.substring 0 (Z.to_nat 1048576) body.

Section Api.
Context {N : Type} `{!Transport N} (codec : Codec) (fa : ApiFamily) (baseURL : string).
Implicit Types n : N.

(** [do] up to the body of the answer. *)
Definition api_do (method path authID authToken : string) (body : option json_body) n : N * result string :=
  let fail what e := Err (fa_name fa ++ ": " ++ what ++ e)%string in
  let url := (baseURL ++ "/Account/" ++ authID ++ path)%string in
  match bad_url url with
  | Some e => (n, fail "new request: " e)
  | None =>
      let headers := fa_auth fa codec authID authToken ++
        [("Content-Type", "application/json"); ("Accept", "application/json")]%string in
      let '(n, a) := t_do n (mkApi method url headers body) in
      match a with
      | NoAnswer e => (n, fail "http: " e)
      | BadBody _ e => (n, fail "read response: " e)
      | Reply code raw =>
          let raw := limited raw in
          if 400 <=? code then
            let '(err, msg) := decode_error codec raw in
            (n, fail "http " (pretty code ++ ": " ++ first_nonempty err (first_nonempty msg raw)))%string
          else (n, Ok raw)
      end
  end.

(** [do] with a value to decode the body into. *)
Definition api_out {A} (zero : A) (decode : string -> result A) (r : result string) : result A :=
  match r with
  | Err e => Err e
  | Ok raw => if is_empty raw then Ok zero
              else match decode raw with
                   | Ok a => Ok a
                   | Err e => Err (fa_name fa ++ ": decode response: " ++ e)%string
                   end
  end.

Definition error_of {A} (r : result A) : error := match r with Ok _ => None | Err e => Some e end.

Definition CreateCall (authID authToken from to answerURL : string) n : N * result string :=
  let '(n, r) := api_do "POST" "/Call/" authID authToken (Some (CallBody from to answerURL (fa_answer_method fa))) n in
  match api_out (mkCallResp "" "" "" "" "") (decode_call codec) r with
  | Err e => (n, Err e)
  | Ok out =>
      match List.find (fun u => negb (is_empty u)) (fa_uuids fa out) with
      | Some uuid => (n, Ok uuid)
      | None => (n, Err (fa_no_uuid fa out))
      end
  end.

Definition call_path (callUUID : string) : string := ("/Call/" ++ callUUID ++ "/")%string.

Definition HangupCall (authID authToken callUUID : string) n : N * error :=
  let '(n, r) := api_do "DELETE" (call_path callUUID) authID authToken None n in (n, error_of r).

Definition TransferCall (authID authToken callUUID target : string) n : N * error :=
  let '(n, r) := api_do "POST" (call_path callUUID) authID authToken (Some (TransferBody "aleg" target)) n in
  (n, error_of r).

Definition GetRecordingURL (authID authToken callUUID : string) n : N * result string :=
  let '(n, r) := api_do "GET" (call_path callUUID ++ "Recording/")%string authID authToken None n in
  match api_out [] (decode_recordings codec) r with
  | Err e => (n, Err e)
  | Ok [] => (n, Err (fa_name fa ++ ": no recordings for call_uuid=" ++ callUUID)%string)
  | Ok (url :: _) => (n, Ok url)
  end.

(** The health probe has no credentials. *)
Definition CheckHealth (authID : string) n : N * bool :=
  let url := (baseURL ++ fa_health_path fa authID)%string in
  match bad_url url with
  | Some _ => (n, false)
  | None =>
      let '(n, a) := t_do n (mkApi "GET" url [] None) in
      (n, match a with Reply code _ | BadBody code _ => code <? 500 | NoAnswer _ => false end)
  end.

(** The adapter over the client. *)
Definition api_provider (authID authToken : string) : Provider N :=
  let name := fa_name fa in
  let wrap what e := (name ++ ": " ++ what ++ ": " ++ e)%string in
  mkProvider name
    (fun n req =>
       let '(n, r) := CreateCall authID authToken (rq_FromNumber req) (rq_ToNumber req) (rq_CallbackURL req) n in
       (n, match r with Ok uuid => Ok uuid | Err e => Err (wrap "place call" e) end))
    (fun n id => let '(n, e) := HangupCall authID authToken id n in (n, wrap "hangup" <$> e))
    (fun n id target => let '(n, e) := TransferCall authID authToken id target n in (n, wrap "transfer" <$> e))
    (fun n id =>
       let '(n, r) := GetRecordingURL authID authToken id n in
       (n, match r with
           | Ok url => Ok (mkRef (name ++ "-" ++ id) url false)
           | Err e => Err (wrap "get recording" e)
           end))%string
    (fun n => CheckHealth authID n).
End Api.

Definition PlivoBaseURL : string := "https://api.plivo.com/v1".
Definition VobizBaseURL : string := "https://api.vobiz.ai/api/v1".

(** The client of Plivo: the same operations, with its credentials and fields. *)
Section PlivoClient.
Context {N : Type} `{!Transport N} (codec : Codec) (baseURL : string).
Definition plivo_do : string -> string -> string -> string -> option json_body -> N -> N * result string :=
  api_do codec plivo_family baseURL.
Definition plivo_CreateCall : string -> string -> string -> string -> string -> N -> N * result string :=
  CreateCall codec plivo_family baseURL.
Definition plivo_HangupCall : string -> string -> string -> N -> N * error := HangupCall codec plivo_family baseURL.
Definition plivo_TransferCall : string -> string -> string -> string -> N -> N * error :=
  TransferCall codec plivo_family baseURL.
Definition plivo_GetRecordingURL : string -> string -> string -> N -> N * result string :=
  GetRecordingURL codec plivo_family baseURL.
Definition plivo_CheckHealth : string -> N -> N * bool := CheckHealth plivo_family baseURL.
End PlivoClient.

Definition NewPlivo {N} `{!Transport N} (codec : Codec) (baseURL authID authToken : string) : Provider N :=
  api_provider codec plivo_family baseURL authID authToken.
Definition NewVobiz {N} `{!Transport N} (codec : Codec) (baseURL authID authToken : string) : Provider N :=
  api_provider codec vobiz_family baseURL authID authToken.

(** *** The FreeSWITCH event socket *)

(** A client of the event socket. *)
Class EslClient (N : Type) := {
  SendCommand : N -> string -> N * result string;
  esl_Healthy : N -> N * bool
}.

(** A connection: what the peer sends until it closes, and what was sent to it.
    Every command is read with a buffer of its own: [tc_ahead rest] bytes of what
    follows the answer were received by then, and are lost with the buffer. *)
Record TCPClient := mkTcp { tc_in : string; tc_out : list string; tc_ahead : string -> nat }.

Definition after_read (c : TCPClient) (rest : string) : TCPClient :=
  mkTcp (drop_string (tc_ahead c rest) rest) (tc_out c) (tc_ahead c).
Definition sent (c : TCPClient) (s : string) : TCPClient := mkTcp (tc_in c) (tc_out c ++ [s]) (tc_ahead c).
Definition drained (c : TCPClient) : TCPClient := mkTcp "" (tc_out c) (tc_ahead c).

Definition authenticate (pass : string) (c : TCPClient) : TCPClient * error :=
  match read_string (tc_in c) with
  | None => (drained c, Some "esl: auth read: EOF"%string)
  | Some (line, rest) =>
      if negb (contains line "auth/request")
      then (after_read c rest, Some ("esl: expected auth/request, got: " ++ line)%string)
      else
        let c := sent c ("auth " ++ pass ++ NL ++ NL)%string in
        match read_string rest with
        | None => (drained c, Some "esl: auth reply: EOF"%string)
        | Some (reply, rest) =>
            (after_read c rest, if contains reply "+OK" then None else Some ("esl: auth failed: " ++ reply)%string)
        end
  end.

(** The lines up to one that is blank. *)
Fixpoint read_block (fuel : nat) (s body : string) : option (string * string) :=
  match fuel with
  | O => None
  | S fuel =>
      match read_string s with
      | None => None
      | Some (line, rest) =>
          if is_empty (trim_space line) then Some (body, rest) else read_block fuel rest (body ++ line)%string
      end
  end.

Definition tcp_SendCommand (c : TCPClient) (cmd : string) : TCPClient * result string :=
  let c := sent c ("api " ++ cmd ++ NL ++ NL)%string in
  match read_block (S (String.length (tc_in c))) (tc_in c) "" with
  | None => (drained c, Err "esl: read response: EOF"%string)
  | Some (body, rest) => (after_read c rest, Ok (trim_space body))
  end.

Definition tcp_Healthy (c : TCPClient) : TCPClient * bool :=
  let '(c, r) := tcp_SendCommand c "status" in (c, match r with Ok body => contains body "UP" | Err _ => false end).

#[export] Instance tcp_client : EslClient TCPClient := { SendCommand := tcp_SendCommand; esl_Healthy := tcp_Healthy }.

(** The double for tests. *)
Module FakeEsl.
Record t := mk { healthy : bool; calls : gset string; hangups : gset string; lastCmd : string }.

Definition NewFakeClient : t := mk true ∅ ∅ "".
Definition SetHealthy (f : t) (v : bool) : t := mk v (calls f) (hangups f) (lastCmd f).
Definition WasHungUp (f : t) (uuid : string) : bool := bool_decide (uuid ∈ hangups f).

(** The text up to one of the characters in [stops]. *)
Fixpoint until_any (stops : string) (s : string) : string :=
  match s with
  | EmptyString => ""%string
  | String c s => if in_cutset stops c then ""%string else String c (until_any stops s)
  end.

Definition extractUUID (cmd : string) : string :=
  match index_of "origination_uuid=" cmd with
  | None => ""%string
  | Some idx => until_any "} " (drop_string (idx + String.length "origination_uuid=") cmd)
  end.

Definition sendCommand (f : t) (s : string) : t * result string :=
  let f := mk (healthy f) (calls f) (hangups f) s in
  if has_prefix s "status" then
    (f, Ok (if healthy f
            then "UP 0 years, 0 days, 0 hours, 0 minutes, 0 seconds, 0 milliseconds, 0 microseconds"
            else "DOWN")%string)
  else if has_prefix s "originate" then
    let uuid := first_nonempty (extractUUID s) ("fake-uuid-" ++ itoa (size (calls f) + 1)) in
    (mk (healthy f) ({[uuid]} ∪ calls f) (hangups f) s, Ok ("+OK " ++ uuid)%string)
  else if has_prefix s "uuid_kill" then
    (match fields s with
     | _ :: uuid :: _ => mk (healthy f) (calls f ∖ {[uuid]}) ({[uuid]} ∪ hangups f) s
     | _ => f
     end, Ok "+OK"%string)
  else (f, Ok "+OK"%string).

End FakeEsl.
#[export] Instance fake_esl_client : EslClient FakeEsl.t :=
  { SendCommand := FakeEsl.sendCommand; esl_Healthy f := (f, FakeEsl.healthy f) }.

Section Freeswitch.
Context {N : Type} `{!EslClient N} (recordDir wsURL : string).

Definition originate (req : CallRequest) : string :=
  ("originate {origination_uuid=" ++ rq_SessionID req ++ ",max_call_duration=" ++ pretty (rq_MaxDuration req)
   ++ ",recording_file=" ++ recordDir ++ "/" ++ rq_TenantID req ++ "_" ++ rq_SessionID req
   ++ ".wav}sofia/gateway/jio/" ++ rq_ToNumber req ++ " &socket(" ++ wsURL ++ " async full)")%string.

(** A command that is answered with +OK. *)
Definition run_command (what cmd : string) (n : N) : N * result string :=
  let '(n, r) := SendCommand n cmd in
  (n, match r with
      | Err e => Err ("freeswitch: " ++ what ++ ": " ++ e)
      | Ok body => if has_prefix body "+OK" then Ok body else Err ("freeswitch: " ++ what ++ " failed: " ++ body)
      end)%string.

Definition fs_PlaceCall (n : N) (req : CallRequest) : N * result string :=
  let '(n, r) := SendCommand n (originate req) in
  (n, match r with
      | Err e => Err ("freeswitch: place call: " ++ e)
      | Ok body =>
          if has_prefix body "+OK"
          then Ok (match fields body with _ :: uuid :: _ => uuid | _ => rq_SessionID req end)
          else Err ("freeswitch: originate failed: " ++ body)
      end)%string.

Definition fs_Hangup (n : N) (id : string) : N * error :=
  let '(n, r) := run_command "hangup" ("uuid_kill " ++ id) n in (n, error_of r).

Definition fs_TransferToHuman (n : N) (id target : string) : N * error :=
  let '(n, r) := run_command "transfer" ("uuid_transfer " ++ id ++ " " ++ target ++ " XML default") n in (n, error_of r).

Definition fs_GetRecording (n : N) (id : string) : N * result RecordingRef :=
  (n, Ok (mkRef id ("recordings/" ++ id ++ ".wav") true))%string.

Definition NewFreeSWITCH : Provider N :=
  mkProvider "freeswitch" fs_PlaceCall fs_Hangup fs_TransferToHuman fs_GetRecording esl_Healthy.
End Freeswitch.

(** *** The mock provider *)

Module Mock.
Record MockEvent := mkEvent { me_Action : string; me_CallID : string; me_At : Z }.
Record t := mk {
  calls : gmap string CallRequest;
  events : list MockEvent;
  healthy : bool;
  counter : nat;
  states : list string;
  audioLoop : list (list Z);
  clock : nat -> Z
}.

(** [time.Now] at the next event. *)
Definition now (m : t) : Z := clock m (length (events m)).

Definition NewMock (clock : nat -> Z) : t := mk ∅ [] true 0 [] [] clock.
Definition SetHealthy (m : t) (v : bool) : t := mk (calls m) (events m) v (counter m) (states m) (audioLoop m) (clock m).
Definition SetScriptedStates (m : t) (ss : list string) : t :=
  mk (calls m) (events m) (healthy m) (counter m) ss (audioLoop m) (clock m).
Definition SetAudioLoop (m : t) (frames : list (list Z)) : t :=
  mk (calls m) (events m) (healthy m) (counter m) (states m) frames (clock m).
Definition AudioLoop (m : t) : list (list Z) :=
  match audioLoop m with [] => [replicate 320 0; replicate 320 0] | l => l end.
Definition CallCount (m : t) : nat := size (calls m).

Definition call_id (n : nat) : string := ("mock-call-" ++ itoa n)%string.

Definition placeCall (m : t) (req : CallRequest) : t * result string :=
  let id := call_id (S (counter m)) in
  (mk (<[id := req]> (calls m)) (events m ++ [mkEvent "place" id (now m)]) (healthy m) (S (counter m))
     (match states m with [] => ["queued"; "ringing"; "answered"; "completed"] | l => l end)%string
     (audioLoop m) (clock m), Ok id).

Definition not_found (id : string) : string := ("mock: call " ++ id ++ " not found")%string.
Definition note (m : t) (action id : string) : t :=
  mk (calls m) (events m ++ [mkEvent action id (now m)]) (healthy m) (counter m) (states m) (audioLoop m) (clock m).

Definition act (action : string) (m : t) (id : string) : t * error :=
  match calls m !! id with None => (m, Some (not_found id)) | Some _ => (note m action id, None) end.

Definition getRecording (m : t) (id : string) : t * result RecordingRef :=
  match calls m !! id with
  | None => (m, Err (not_found id))
  | Some _ => (note m "get_recording" id, Ok (mkRef ("rec-" ++ id) ("mock/recordings/" ++ id ++ ".mp3") true))
  end%string.

Definition provider : Provider t :=
  mkProvider "mock" placeCall (act "hangup") (fun m id _ => act "transfer" m id) getRecording (fun m => (m, healthy m)).
End Mock.

(** ** The router over the providers *)

Section Routed.
Context {N : Type} (providers : list (Provider N)) (healthy : string -> Z -> bool) (demo_mode : string) (n0 : N).

Definition provider_of (name : string) : option (Provider N) :=
  List.find (fun p => bool_decide (pv_Name p = name)) providers.

(** The state of the providers after the calls the router has placed. *)
Definition after_call (n : N) (c : string * CallRequest) : N :=
  match provider_of c.1 with Some p => (pv_PlaceCall p n c.2).1 | None => n end.
Definition after_calls (placed : list (string * CallRequest)) : N := fold_left after_call placed n0.

Definition provider_env : Env :=
  mkEnv healthy
    (fun placed name req =>
       match provider_of name with
       | Some p => (pv_PlaceCall p (after_calls placed) req).2
       | None => Err "no such provider"%string
       end) demo_mode.
End Routed.

(** ** Recordings *)

(** The object store and the download of a recording. *)
Class ObjectStore (O : Type) := Put : O -> string -> string -> string -> bool -> O * result string.

(** [Manager.Store]. *)
Definition StoreAudio {T O} `{TelStore T} `{!ObjectStore O} (fetch : string -> result string)
    (sessionID tenantID providerCallID providerURL : string) (now : Z) (s : T) (o : O) : T * O * result CallRecording :=
  match fetch providerURL with
  | Err e => (s, o, Err ("recording: fetch audio: " ++ e)%string)
  | Ok data =>
      let '(o, r) := Put o tenantID (tenantID ++ "/" ++ providerCallID ++ ".mp3")%string data true in
      match r with
      | Err e => (s, o, Err ("recording: upload: " ++ e)%string)
      | Ok key =>
          let rec := mkRec ("rec-" ++ providerCallID)%string sessionID providerCallID key true
                       (Z.of_nat (String.length data)) now in
          let '(s, err) := StoreRecording s now rec in
          (s, o, match err with Some e => Err ("recording: store: " ++ e)%string | None => Ok rec end)
      end
  end.

(** The doubles for tests. *)
Module FakeObjects.
Record t := mk { Stored : gmap string string; lastHeaders : gmap string string }.
Definition NewFakeObjectStore : t := mk ∅ ∅.
Definition put (f : t) (tenantID filename data : string) (encrypted : bool) : t * result string :=
  let key := ("do-spaces://" ++ tenantID ++ "/" ++ filename)%string in
  let headers := {["x-amz-server-side-encryption"%string := "aws:kms"%string]} in
  (mk (<[key := data]> (Stored f))
     (if encrypted then <["x-amz-server-side-encryption-aws-kms-key-id"%string := "vault-envelope-key"%string]> headers
      else headers), Ok key).
End FakeObjects.
#[export] Instance fake_objects : ObjectStore FakeObjects.t := FakeObjects.put.

Definition FetchAudio (audio providerURL : string) : result string :=
  if is_empty providerURL then Err "recording provider: empty URL"%string else Ok audio.
