(* ===== verification/ProvidersSafety.v ===== *)
(** * telephony-adapter: what the providers are told and what they answer

    The XML answers carry any address unchanged; the API clients send one
    authenticated request per operation, also under the router; the mock keeps
    account of its calls; a stored recording has its bytes in the object store;
    and defects of the FreeSWITCH client. *)

From stdpp Require Import pretty.
From Stdlib Require Import Ascii.
From S2P Require Import Prelude GoTime Float64 Kv GoStrings Limiter TelStore Routing Webhook RoutingSafety Providers.

Open Scope Z_scope.

(** ** XML *)

(** A reference reader of escaped text. *)
Definition entities : list (string * Ascii.ascii) :=
  [("&#34;", Ascii.ascii_of_N 34); ("&#39;", Ascii.ascii_of_N 39); ("&amp;", Ascii.ascii_of_N 38); ("&lt;", Ascii.ascii_of_N 60);
   ("&gt;", Ascii.ascii_of_N 62); ("&#x9;", Ascii.ascii_of_N 9); ("&#xA;", Ascii.ascii_of_N 10);
   ("&#xD;", Ascii.ascii_of_N 13)]%string.

Fixpoint skip (n : nat) (s : string) : string :=
  match n, s with S n, String _ s => skip n s | _, _ => s end.

Fixpoint starts (p s : string) : bool :=
  match p, s with
  | EmptyString, _ => true
  | String a p, String b s => Ascii.eqb a b && starts p s
  | _, _ => false
  end.

Fixpoint unescape (fuel : nat) (s : string) : string :=
  match fuel, s with
  | O, _ | _, EmptyString => ""%string
  | S fuel, String c s' =>
      match List.find (fun e => starts e.1 s) entities with
      | Some (e, c) => String c (unescape fuel (skip (String.length e) s))
      | None => String c (unescape fuel s')
      end
  end.

(** Characters XML allows, and those that delimit markup. *)
Definition xml_char (c : Ascii.ascii) : bool :=
  let n := Ascii.N_of_ascii c in (32 <=? n)%N || (n =? 9)%N || (n =? 10)%N || (n =? 13)%N.
Definition markup (c : Ascii.ascii) : bool := in_cutset ("<>" ++ dquote) c.

Definition chars (s : string) : list Ascii.ascii := String.list_ascii_of_string s.

Lemma unescape_char c fuel rest :
  xml_char c = true -> unescape (S fuel) (escape_char c ++ rest)%string = String c (unescape fuel rest).
Proof.
  intros Hc. destruct c as [[] [] [] [] [] [] [] []];
    first [by vm_compute in Hc|done].
Qed.

Lemma escape_char_plain c : Forall (fun x => markup x = false) (chars (escape_char c)).
Proof. destruct c as [[] [] [] [] [] [] [] []]; repeat constructor. Qed.

Lemma chars_app s t : chars (s ++ t)%string = chars s ++ chars t.
Proof. induction s as [|c s IH]; simpl; [done|]. unfold chars in *. simpl. by rewrite IH. Qed.

(** Escaped text has no character of markup in it and is read back. *)
Lemma escape_spec s :
  Forall (fun x => markup x = false) (chars (escape s)) /\
  (forall fuel, (String.length s <= fuel)%nat -> Forall (fun c => xml_char c = true) (chars s) ->
    unescape fuel (escape s) = s).
Proof.
  induction s as [|c s [IH1 IH2]]; simpl.
  - split; [constructor|]. by intros [].
  - split.
    + rewrite chars_app. apply Forall_app. split; [apply escape_char_plain|done].
    + intros [|fuel] Hf; [lia|]. intros [Hc Hs]%Forall_cons.
      refine (eq_trans (unescape_char _ _ _ Hc) _). f_equal. apply IH2; [lia|done].
Qed.

(** Whatever the request says, the answer streams the call to one address on the
    media bridge: the text of its only element of markup is that address, escaped
    so that it adds no markup and is read back as it is. *)
Theorem answer_streams_to_the_media_bridge jp fp base r :
  let ws := (ws_base base ++ "/ws/vobiz/" ++ answer_uuid jp fp r)%string in
  exists text, vobizAnswer jp fp base r =
    (xml_header ++ "<Response>" ++ NL ++ "  <Stream bidirectional=" ++ dquote ++ "true" ++ dquote ++ " contentType=" ++ dquote
     ++ "audio/x-mulaw;rate=8000" ++ dquote ++ " keepCallAlive=" ++ dquote ++ "true" ++ dquote ++ " audioTrack=" ++ dquote
     ++ "inbound" ++ dquote ++ ">" ++ text ++ "</Stream>" ++ NL ++ "</Response>" ++ NL)%string /\
    Forall (fun x => markup x = false) (chars text) /\
    (Forall (fun c => xml_char c = true) (chars ws) -> unescape (String.length ws) text = ws) /\
    answer_uuid jp fp r <> ""%string.
Proof.
  intros ws. exists (escape ws). destruct (escape_spec ws) as [H1 H2]. split_and!; [|done|by apply H2|].
  - unfold vobizAnswer, VobizStreamResponse, Encode, Stream. fold ws. cbn [encode_at map join].
    rewrite <- !append_assoc. reflexivity.
  - unfold answer_uuid, first_nonempty. repeat case_match; try done; intros E; by rewrite E in *.
Qed.

(** ** The API clients *)

(** A transport that keeps the requests it was given. *)
Class TransportLog (N : Type) `{!Transport N} := {
  requests : N -> list ApiRequest;
  t_do_requests n rq : requests (t_do n rq).1 = requests n ++ [rq]
}.

(** The operations of a provider that reach the network, and how they end. *)
Inductive provider_op :=
| OpPlace (req : CallRequest)
| OpHangup (id : string)
| OpTransfer (id target : string)
| OpRecording (id : string).

Definition run_op {N} (p : Provider N) (n : N) (op : provider_op) : N * error :=
  match op with
  | OpPlace req => let '(n, r) := pv_PlaceCall p n req in (n, error_of r)
  | OpHangup id => pv_Hangup p n id
  | OpTransfer id target => pv_TransferToHuman p n id target
  | OpRecording id => let '(n, r) := pv_GetRecording p n id in (n, error_of r)
  end.

Section Clients.
Context {N : Type} `{TransportLog N} (codec : Codec) (fa : ApiFamily) (base authID authToken : string).
Implicit Types n : N.

(** What the API documents for each operation. *)
Definition op_method (op : provider_op) : string :=
  match op with OpPlace _ | OpTransfer _ _ => "POST" | OpHangup _ => "DELETE" | OpRecording _ => "GET" end.
Definition op_path (op : provider_op) : string :=
  match op with
  | OpPlace _ => "/Call/"
  | OpHangup id | OpTransfer id _ => "/Call/" ++ id ++ "/"
  | OpRecording id => ("/Call/" ++ id ++ "/") ++ "Recording/"
  end%string.
Definition op_body (op : provider_op) : option json_body :=
  match op with
  | OpPlace req => Some (CallBody (rq_FromNumber req) (rq_ToNumber req) (rq_CallbackURL req) (fa_answer_method fa))
  | OpTransfer _ target => Some (TransferBody "aleg" target)
  | _ => None
  end.
Definition op_url (op : provider_op) : string := (base ++ "/Account/" ++ authID ++ op_path op)%string.
Definition op_request (op : provider_op) : ApiRequest :=
  mkApi (op_method op) (op_url op)
    (fa_auth fa codec authID authToken ++ [("Content-Type", "application/json"); ("Accept", "application/json")]%string)
    (op_body op).

Definition accepted (a : api_answer) : Prop := exists code body, a = Reply code body /\ code < 400.

(** Not sent, since its address is no URL, and failed; or sent once, and with
    success only if the API accepted it. *)
Definition sent_once (op : provider_op) n (n' : N) (failed : bool) : Prop :=
  (n' = n /\ failed = true /\ bad_url (op_url op) <> None) \/
  (requests n' = requests n ++ [op_request op] /\ (failed = false -> accepted (t_do n (op_request op)).2)).

Lemma api_do_sent op n :
  let '(n', r) := api_do codec fa base (op_method op) (op_path op) authID authToken (op_body op) n in
  sent_once op n n' (negb (is_ok r)).
Proof.
  unfold api_do, sent_once. fold (op_url op). destruct (bad_url (op_url op)) as [e|] eqn:Eb; [cbn; by left|].
  fold (op_request op). pose proof (t_do_requests n (op_request op)) as Hl.
  destruct (t_do n (op_request op)) as [n' a]. cbn [fst snd] in *.
  destruct a as [e|c e|c b]; [by right|by right|]. destruct (400 <=? c) eqn:Ec.
  - destruct (decode_error codec _). by right.
  - right. split; [done|]. intros _. exists c, b. split; [done|]. lia.
Qed.

Lemma sent_once_weaken op n n' f f' : (f' = false -> f = false) -> (f = true -> f' = true) ->
  sent_once op n n' f -> sent_once op n n' f'.
Proof. unfold sent_once. intuition. Qed.

Lemma placed_call_has_id n req id :
  (pv_PlaceCall (api_provider codec fa base authID authToken) n req).2 = Ok id -> id <> ""%string.
Proof.
  cbn [pv_PlaceCall api_provider]. unfold CreateCall. destruct (api_do _ _ _ _ _ _ _ _ n) as [n' r].
  destruct (api_out _ _ _ r) as [out|e]; [|done]. destruct (List.find _ _) as [u|] eqn:Ef; [|done].
  intros [= <-] ->. by apply List.find_some in Ef as [_ Ef].
Qed.

Lemma op_sent op n :
  let '(n', e) := run_op (api_provider codec fa base authID authToken) n op in sent_once op n n' (bool_decide (e <> None)).
Proof.
  pose proof (api_do_sent op n) as Hs. destruct op as [req|id|id target|id]; cbn [run_op];
    cbn [pv_PlaceCall pv_Hangup pv_TransferToHuman pv_GetRecording api_provider];
    unfold CreateCall, HangupCall, TransferCall, GetRecordingURL, call_path; cbn [op_method op_path op_body] in Hs;
    destruct (api_do _ _ _ _ _ _ _ _ n) as [n' r]; try (by destruct r);
    destruct (api_out _ _ _ r) as [out|e] eqn:Eo.
  - destruct (List.find _ _); cbn; (eapply sent_once_weaken, Hs; destruct r; done).
  - cbn. eapply sent_once_weaken, Hs; done.
  - destruct out as [|u us]; cbn; (eapply sent_once_weaken, Hs; destruct r; done).
  - cbn. eapply sent_once_weaken, Hs; done.
Qed.

(** Every operation of the adapter makes one request to the API, with the
    credentials, at the documented place, and does not report success unless it
    was accepted; a call that is placed has an id. *)
Theorem provider_sends_one_authenticated_request op n :
  let p := api_provider codec fa base authID authToken in
  let '(n', e) := run_op p n op in
  sent_once op n n' (bool_decide (e <> None)) /\
  forall req id, op = OpPlace req -> (pv_PlaceCall p n req).2 = Ok id -> id <> ""%string.
Proof.
  intros p. pose proof (op_sent op n) as Hs. fold p in Hs. destruct (run_op p n op). split; [done|].
  intros req id _. apply placed_call_has_id.
Qed.
End Clients.

(** The clients take every status below 400 for success and do not follow a
    redirect: a hangup that was only redirected is reported as done. *)
Theorem redirected_hangup_counts_as_done {N} `{Transport N} codec fa base authID authToken id (n n' : N) location :
  bad_url (base ++ "/Account/" ++ authID ++ call_path id)%string = None ->
  (forall rq, t_do n rq = (n', Reply 307 location)) ->
  pv_Hangup (api_provider codec fa base authID authToken) n id = (n', None).
Proof.
  intros Hu Hr. cbn [pv_Hangup api_provider]. unfold HangupCall, api_do. rewrite Hu, Hr. done.
Qed.

(** ** The router over the API clients *)

Section Routed.
Context {T L N : Type} `{TelStore T} `{Limiter L} `{TransportLog N}.
Context (providers : list (Provider N)) (healthy : string -> Z -> bool) (demo_mode : string) (n0 : N).
Notation env := (provider_env providers healthy demo_mode n0).
Notation state r := (after_calls providers n0 (rt_placed r)).

Lemma after_calls_snoc l c : after_calls providers n0 (l ++ [c]) = after_call providers (after_calls providers n0 l) c.
Proof. unfold after_calls. by rewrite fold_left_app. Qed.

(** A call the router has placed was given to one provider, which answered with
    the id of the session. *)
Lemma routed_call (r r' : Router T L) now req session :
  PlaceCall env r now req = (r', Ok session) ->
  exists p, provider_of providers (cs_ProviderName session) = Some p /\
    cs_ToNumber session = rq_ToNumber req /\ cs_TenantID session = rq_TenantID req /\
    pv_PlaceCall p (state r) (with_defaults now req) = (state r', Ok (cs_ProviderCallID session)).
Proof.
  unfold PlaceCall. destruct (SelectForCall _ _ _ _) as [name|e]; [|done].
  set (req' := with_defaults now req).
  destruct (if takes_slot _ _ then _ else _) as [l1 []]; cbn [negb]; [|done].
  change (rt_placed (with_limiter r l1)) with (rt_placed r). cbn [env_reply provider_env].
  destruct (provider_of providers name) as [p|] eqn:Ep; [|done].
  destruct ((pv_PlaceCall p _ req').2) as [pid|e] eqn:Er; [|done].
  destruct (StoreCallSession _ _ _) as [s' [e|]]; [done|]. intros [= <- <-].
  exists p. cbn [new_session cs_ProviderName cs_ToNumber cs_TenantID cs_ProviderCallID]. split_and!; [done..|].
  change (rt_placed (with_store (with_placed (with_limiter r l1) (name, req')) s')) with (rt_placed r ++ [(name, req')]).
  rewrite after_calls_snoc. unfold after_call. cbn [fst snd]. rewrite Ep.
  by destruct (pv_PlaceCall p _ req'); cbn in Er |- *; subst.
Qed.

(** With the adapters of an API, a call the router reports as placed is one
    accepted request to the provider of the session, with the numbers asked for,
    and the session has the id it answered. *)
Theorem routed_call_is_posted_once (r r' : Router T L) now req session codec fa base authID authToken :
  provider_of providers (cs_ProviderName session) = Some (api_provider codec fa base authID authToken) ->
  PlaceCall env r now req = (r', Ok session) ->
  let rq := op_request codec fa base authID authToken (OpPlace (with_defaults now req)) in
  requests (state r') = requests (state r) ++ [rq] /\ accepted (t_do (state r) rq).2 /\
  ap_body rq = Some (CallBody (rq_FromNumber req) (rq_ToNumber req) (rq_CallbackURL req) (fa_answer_method fa)) /\
  cs_ToNumber session = rq_ToNumber req /\ cs_TenantID session = rq_TenantID req /\ cs_ProviderCallID session <> ""%string.
Proof.
  intros Hp Hc rq. destruct (routed_call r r' now req session Hc) as (p & Hp' & Hto & Htn & Hrun). simplify_eq.
  pose proof (op_sent codec fa base authID authToken (OpPlace (with_defaults now req)) (state r)) as Hs.
  cbn [run_op] in Hs. rewrite Hrun in Hs. destruct Hs as [(_ & [=] & _)|[Hq Ha]].
  split_and!; [exact Hq|by apply Ha|done|done|done|]. eapply placed_call_has_id. by rewrite Hrun.
Qed.
End Routed.

(** ** The FreeSWITCH client *)

(** FreeSWITCH ends its request for a password with an empty line; the client
    takes that line for the reply, so the login fails whatever follows. *)
Theorem freeswitch_login_always_fails pass rest out ahead :
  (authenticate pass (mkTcp ("Content-Type: auth/request" ++ NL ++ NL ++ rest) out ahead)).2
  = Some ("esl: auth failed: " ++ NL)%string.
Proof. reflexivity. Qed.

Definition api_response (body : string) : string :=
  ("Content-Type: api/response" ++ NL ++ "Content-Length: " ++ itoa (String.length body) ++ NL ++ NL ++ body)%string.

Lemma trim_space_head c s : is_space c = false -> exists s', trim_space (String c s) = String c s'.
Proof.
  intros Hc. unfold trim_space, trim_left_by, trim_right_by. cbn [String.list_ascii_of_string rev].
  rewrite drop_while_snoc, rev_app_distr by done. cbn [rev app]. rewrite list_of_string_of_list. cbn [drop_while].
  rewrite Hc. by eexists.
Qed.

Lemma read_block_line fuel c line rest body :
  lacks nl (String c line) -> is_space c = false ->
  read_block (S fuel) (String c line ++ NL ++ rest) body = read_block fuel rest (body ++ String c line ++ NL).
Proof.
  intros Hl Hc. cbn [read_block]. rewrite read_string_line by done.
  destruct (trim_space_head c (line ++ NL) Hc) as [s' Hs]. change (String c line ++ NL)%string with (String c (line ++ NL)).
  by rewrite Hs.
Qed.

(** The client reads the headers of an answer for its text: an answer to originate
    is an error to the adapter although the command was sent, and the answer itself
    is left for the next command to read, or lost. *)
Theorem freeswitch_answers_are_not_read dir ws req uuid out ahead :
  let answer := ("+OK " ++ uuid)%string in
  exists msg, fs_PlaceCall dir ws (mkTcp (api_response answer) out ahead) req =
    (mkTcp (drop_string (ahead answer) answer) (out ++ ["api " ++ originate dir ws req ++ NL ++ NL]%string) ahead,
     Err ("freeswitch: originate failed: " ++ msg)%string).
Proof.
  intros answer. unfold fs_PlaceCall. cbn [SendCommand tcp_client]. unfold tcp_SendCommand. cbn [sent tc_in].
  set (len := itoa (String.length answer)).
  assert (Hb : forall k, read_block (S (S (S k))) (api_response answer) "" =
    Some ("Content-Type: api/response" ++ NL ++ "Content-Length: " ++ len ++ NL, answer)%string).
  { intros k. unfold api_response. fold len. rewrite read_block_line; [|apply (bool_decide_unpack _); by vm_compute|done].
    change ("Content-Length: " ++ len ++ NL ++ NL ++ answer)%string
      with (String "C"%char ("ontent-Length: " ++ len ++ NL ++ NL ++ answer)). 
    rewrite (append_assoc "ontent-Length: " len).
    change (String "C"%char (("ontent-Length: " ++ len) ++ NL ++ NL ++ answer))
      with (String "C"%char ("ontent-Length: " ++ len) ++ NL ++ NL ++ answer)%string.
    rewrite read_block_line; [reflexivity| |done]. apply lacks_cons. split; [done|]. apply lacks_app.
    split; [apply (bool_decide_unpack _); by vm_compute|apply digits_no_space]. }
  change (String.length (api_response answer)) with (S (S (String.length (skip 2 (api_response answer))))).
  rewrite Hb. set (tl := ("ontent-Type: api/response" ++ NL ++ "Content-Length: " ++ len ++ NL)%string).
  destruct (trim_space_head "C"%char tl eq_refl) as [s' Hs].
  change ("Content-Type: api/response" ++ NL ++ "Content-Length: " ++ len ++ NL)%string with (String "C"%char tl).
  rewrite Hs. eexists. reflexivity.
Qed.

(** The double reads the id of a call up to the brace that ends all variables, so
    the adapter reports an id that is not the one of the session. *)
Theorem fake_esl_misreads_the_call_id :
  let req := mkReq "sess-001" "tenant-abc" "" "+919876543210" "" "" 300 false in
  (fs_PlaceCall "/tmp/recordings" "ws://voice-agent:8765/audio" FakeEsl.NewFakeClient req).2
  = Ok "sess-001,max_call_duration=300,recording_file=/tmp/recordings/tenant-abc_sess-001.wav"%string.
Proof. vm_compute. reflexivity. Qed.

(** ** The mock provider *)

Definition run_ops {N} (p : Provider N) (ops : list provider_op) (n : N) : N :=
  fold_left (fun n op => (run_op p n op).1) ops n.

#[local] Instance call_id_inj : Inj (=) (=) Mock.call_id.
Proof. intros a b E. unfold Mock.call_id in E. apply append_cancel in E. unfold itoa in E. by apply (inj pretty) in E. Qed.

Definition is_place (e : Mock.MockEvent) : bool := bool_decide (Mock.me_Action e = "place"%string).

(** Calls are numbered from one; every event is of a call that was placed before,
    and each call was placed once. *)
Definition mock_ok (m : Mock.t) : Prop :=
  dom (Mock.calls m) = list_to_set (Mock.call_id <$> seq 1 (Mock.counter m)) /\
  Forall (fun e => Mock.me_CallID e ∈ dom (Mock.calls m)) (Mock.events m) /\
  Mock.me_CallID <$> List.filter is_place (Mock.events m) = Mock.call_id <$> seq 1 (Mock.counter m).

Lemma mock_place_ok m req : mock_ok m -> mock_ok (Mock.placeCall m req).1.
Proof.
  intros (Hd & He & Hp). unfold mock_ok. cbn [Mock.placeCall fst Mock.calls Mock.events Mock.counter].
  rewrite seq_S, fmap_app, list_to_set_app_L, dom_insert_L, Hd. cbn [fmap list_fmap Nat.add]. split_and!.
  - cbn. set_solver.
  - apply Forall_app. split; [|constructor; [cbn; set_solver|done]].
    eapply Forall_impl; [exact He|]. intros e Hin. rewrite Hd in Hin. set_solver.
  - rewrite List.filter_app, fmap_app, Hp. done.
Qed.

Lemma mock_note_ok m action id :
  id ∈ dom (Mock.calls m) -> action <> "place"%string -> mock_ok m -> mock_ok (Mock.note m action id).
Proof.
  intros Hid Ha (Hd & He & Hp). unfold mock_ok. cbn [Mock.note Mock.calls Mock.events Mock.counter]. split_and!; [done| |].
  - apply Forall_app. auto.
  - rewrite List.filter_app, fmap_app. cbn [List.filter]. unfold is_place at 2. cbn [Mock.me_Action].
    rewrite bool_decide_false by done. by rewrite app_nil_r.
Qed.

Lemma mock_act_ok m action id : action <> "place"%string -> mock_ok m -> mock_ok (Mock.act action m id).1.
Proof.
  intros Ha Hm. unfold Mock.act. destruct (Mock.calls m !! id) eqn:E; [|done].
  apply mock_note_ok; [by apply elem_of_dom_2 in E|done..].
Qed.

Definition places (ops : list provider_op) : list provider_op :=
  List.filter (fun op => match op with OpPlace _ => true | _ => false end) ops.

Lemma mock_step m op :
  mock_ok m -> let m' := (run_op Mock.provider m op).1 in
  mock_ok m' /\ Mock.counter m' = (Mock.counter m + length (places [op]))%nat.
Proof.
  intros Hm. destruct op as [req|id|id t|id]; cbn [run_op Mock.provider pv_PlaceCall pv_Hangup pv_TransferToHuman pv_GetRecording].
  - split; [by apply (mock_place_ok m req)|]. cbn. lia.
  - split; [by apply mock_act_ok|]. unfold Mock.act. destruct (_ !! id); cbn; lia.
  - split; [by apply mock_act_ok|]. unfold Mock.act. destruct (_ !! id); cbn; lia.
  - unfold Mock.getRecording. destruct (Mock.calls m !! id) eqn:E; cbn; (split; [|lia]); [|done].
    apply mock_note_ok; [by apply elem_of_dom_2 in E|done..].
Qed.

Lemma mock_run ops : forall m, mock_ok m ->
  let m' := run_ops Mock.provider ops m in
  mock_ok m' /\ Mock.counter m' = (Mock.counter m + length (places ops))%nat.
Proof.
  induction ops as [|op ops IH]; intros m Hm; [cbn; split; [done|lia]|].
  destruct (mock_step m op Hm) as [H1 H2]. destruct (IH _ H1) as [H3 H4]. split; [exact H3|].
  etrans; [exact H4|]. rewrite H2. change (op :: ops) with ([op] ++ ops). unfold places.
  rewrite List.filter_app, length_app. lia.
Qed.

(** Whatever is asked of the mock, it has placed as many calls as were asked for,
    under distinct ids, and accepts an operation on a call exactly when the call was
    placed before. *)
Theorem mock_accounts_for_its_calls clock ops :
  let m := run_ops Mock.provider ops (Mock.NewMock clock) in
  mock_ok m /\ Mock.CallCount m = length (places ops) /\
  forall id, (Mock.act "hangup" m id).2 = None <-> id ∈ Mock.call_id <$> seq 1 (length (places ops)).
Proof.
  intros m. destruct (mock_run ops (Mock.NewMock clock)) as [Hm Hc]; [done|]. fold m in Hm, Hc. cbn in Hc.
  split; [done|]. destruct Hm as (Hd & _ & _). rewrite Hc in Hd. split.
  - unfold Mock.CallCount. rewrite <- size_dom, Hd, size_list_to_set, length_fmap, length_seq; [done|].
    apply NoDup_fmap_2; [apply _|apply NoDup_seq].
  - intros id. rewrite <- (elem_of_list_to_set (C := gset string)), <- Hd, elem_of_dom.
    unfold Mock.act. destruct (Mock.calls m !! id); cbn; split; try done; by intros [].
Qed.

(** ** Recordings *)

(** A recording that was stored is found under the id of its call. *)
Class RecordingLaws (T : Type) `{!TelStore T} := {
  store_get s now r s' : StoreRecording s now r = (s', None) -> rec_ID r <> ""%string -> rec_CreatedAt r = now ->
    GetRecording s' (rec_ProviderCallID r) = Ok r
}.

#[export] Instance fake_recordings : RecordingLaws FakeTel.t.
Proof.
  split. intros s now r s' [= <-] _ _. cbn. unfold FakeTel.getRecording. cbn. by rewrite lookup_insert_eq.
Qed.

#[export] Instance pg_recordings : RecordingLaws PgTel.t.
Proof.
  split. intros s now r s'. cbn. unfold PgTel.storeRecording. intros Hs Hid Hnow.
  assert (Hr : mkRec (or_new (rec_ID r) (PgTel.newID s)) (rec_SessionID r) (rec_ProviderCallID r) (rec_StorageKey r)
    (rec_Encrypted r) (rec_SizeBytes r) (or_now (rec_CreatedAt r) now) = r).
  { destruct r; cbn in *. unfold or_new, or_now. rewrite is_empty_false by done. subst. by destruct (is_zero _). }
  rewrite Hr in Hs. revert Hs. destruct (kv_set _ _ r) as [c1 [e1|]]; [done|].
  destruct (kv_set (PgTel.recordings_by_provider_call s) _ r) as [c2 [e2|]] eqn:E; [done|]. intros [= <-].
  unfold PgTel.getRecording. cbn. unfold kv_set, kv_put in E. destruct (kv_up _) eqn:Eu; [|done].
  injection E as <-. unfold kv_get. cbn. by rewrite rows_get_put_eq.
Qed.

(** A recording that the manager has stored is encrypted in the object store under
    the tenant, is what the provider delivered, and is found under its call; unless
    the download and the upload succeed, nothing is recorded. *)
Theorem stored_audio_is_found {T O} `{RecordingLaws T} `{!ObjectStore O} fetch session tenant pid url now (s s' : T) (o o' : O) r :
  StoreAudio fetch session tenant pid url now s o = (s', o', r) ->
  let file := (tenant ++ "/" ++ pid ++ ".mp3")%string in
  match r with
  | Ok rec =>
      exists data, fetch url = Ok data /\ Put o tenant file data true = (o', Ok (rec_StorageKey rec)) /\
        rec_Encrypted rec = true /\ rec_SizeBytes rec = Z.of_nat (String.length data) /\ GetRecording s' pid = Ok rec
  | Err _ => s' = s \/ exists data key, fetch url = Ok data /\ (Put o tenant file data true).2 = Ok key
  end.
Proof.
  intros E file. unfold StoreAudio in E. destruct (fetch url) as [data|e]; [|injection E as <- <- <-; by left].
  destruct (Put o tenant _ data true) as [o1 [key|e]] eqn:Ep; [|injection E as <- <- <-; by left].
  destruct (StoreRecording s now _) as [s1 [e|]] eqn:Es; injection E as <- <- <-.
  - right. exists data, key. split; [done|]. unfold file. by rewrite Ep.
  - exists data. split_and!; [done|exact Ep|done|done|]. by apply (store_get _ _ _ _ Es).
Qed.

(** ** Witnesses *)

(** An API that accepts every request. *)
#[local] Instance accepting : Transport (list ApiRequest) :=
  { t_do n rq := (n ++ [rq], Reply 201 "{}"); bad_url _ := None }.
#[local] Instance accepting_log : TransportLog (list ApiRequest) := { requests n := n; t_do_requests n rq := eq_refl }.
Definition uuid_codec : Codec :=
  mkCodec (fun _ => ("", "")%string) (fun _ => Ok (mkCallResp "" "" "req-1" "" ""))%string (fun _ => Ok []) (fun s => s).
Definition vobiz_only : list (Provider (list ApiRequest)) := [NewVobiz uuid_codec VobizBaseURL "aid" "tok"].

Lemma routed_call_is_posted_once_witness :
  let env := provider_env vobiz_only (fun _ _ => true) "" [] in
  exists r' session, PlaceCall env RouterFixture.router hour (RouterFixture.req "t1") = (r', Ok session) /\
    length (after_calls vobiz_only [] (rt_placed r')) = 1%nat /\ cs_ProviderCallID session <> ""%string.
Proof.
  intros env. destruct (PlaceCall env RouterFixture.router hour (RouterFixture.req "t1")) as [r' [session|e]] eqn:E.
  2: { apply (f_equal (fun x => is_ok x.2)) in E. vm_compute in E. discriminate E. }
  assert (Hp : provider_of vobiz_only (cs_ProviderName session) =
    Some (api_provider uuid_codec vobiz_family VobizBaseURL "aid" "tok")).
  { apply (f_equal (fun x => match x.2 with Ok s => cs_ProviderName s | Err _ => ""%string end)) in E.
    cbn [snd] in E. rewrite <- E. reflexivity. }
  destruct (routed_call_is_posted_once vobiz_only (fun _ _ => true) "" [] RouterFixture.router r' hour
    (RouterFixture.req "t1") session uuid_codec vobiz_family VobizBaseURL "aid" "tok" Hp E) as (H1 & _ & _ & _ & _ & H6).
  exists r', session. split; [exact eq_refl|]. split; [|exact H6]. cbn [requests accepting_log] in H1. by rewrite H1.
Defined.

Lemma stored_audio_is_found_witness :
  exists rec, GetRecording (StoreAudio (FetchAudio "abc") "s1" "t1" "c1" "https://r/1.mp3" hour FakeTel.NewFake
    FakeObjects.NewFakeObjectStore).1.1 "c1" = Ok rec /\ rec_SizeBytes rec = 3.
Proof.
  destruct (StoreAudio (FetchAudio "abc") "s1" "t1" "c1" "https://r/1.mp3" hour FakeTel.NewFake FakeObjects.NewFakeObjectStore)
    as [[s' o'] r] eqn:E.
  pose proof (stored_audio_is_found _ _ _ _ _ _ _ _ _ _ _ E) as H. destruct r as [rec|e]; [|discriminate E].
  destruct H as (data & Hd & _ & _ & Hs & Hg). exists rec. split; [exact Hg|]. rewrite Hs. by injection Hd as <-.
Defined.

Lemma redirected_hangup_counts_as_done_witness :
  pv_Hangup (@NewPlivo _ {| t_do (n : unit) _ := (n, Reply 307 "https://elsewhere"); bad_url _ := None |} uuid_codec PlivoBaseURL
    "aid" "tok") tt "c1" = (tt, None).
Proof. by apply (@redirected_hangup_counts_as_done unit {| t_do n _ := (n, Reply 307 "https://elsewhere"); bad_url _ := None |} uuid_codec plivo_family PlivoBaseURL "aid" "tok" "c1" tt tt "https://elsewhere"). Defined.
