(* ===== verification/Bus.v ===== *)
(** * libs/go/events: subjects, publishing, the outbox relay and consumers

    [subjects.go], [jetstream.go], [outbox.go] and [consumer.go], and the launch of
    a campaign as services/campaign/cmd/server announces it.  The NATS server
    is a class of states with its documented behaviour as laws; the outbox table is
    a list of rows whose statements may be refused, or executed without an answer. *)

From S2P Require Import Prelude GoTime Kv Float64 GoStrings Campaign CampaignSafety CampaignApi.

Open Scope Z_scope.

(** ** Subjects and streams *)

Definition subjects : list string :=
  ["call.initiated"; "call.answered"; "call.completed"; "call.recording.uploaded"; "call.provider.event";
   "lead.created"; "lead.scored"; "lead.hot.detected"; "handoff.requested"; "handoff.completed";
   "wa.template.sent"; "wa.template.delivered"; "wa.template.failed"; "wa.message.received"; "wa.message.sent";
   "wa.optout"; "wa.status.updated"; "billing.usage"; "billing.cap.hit"; "campaign.launched"; "campaign.paused";
   "site.visit.scheduled"; "site.visit.completed"; "claim.violation"; "freeswitch.channel.created";
   "freeswitch.channel.answered"; "freeswitch.channel.hangup"; "freeswitch.recording.stopped";
   "freeswitch.audio_stream.started"; "freeswitch.audio_stream.stopped"; "freeswitch.audio_stream.error";
   "freeswitch.audio_stream.event"]%string.

Record StreamSpec := mkStream { st_Name : string; st_Subjects : list string }.

Definition DefaultStreams : list StreamSpec :=
  [mkStream "CAPSY_CALL" ["call.>"]; mkStream "CAPSY_LEAD" ["lead.>"]; mkStream "CAPSY_HANDOFF" ["handoff.>"];
   mkStream "CAPSY_WA" ["wa.>"]; mkStream "CAPSY_BILLING" ["billing.>"]; mkStream "CAPSY_CAMPAIGN" ["campaign.>"];
   mkStream "CAPSY_SITE" ["site.>"]; mkStream "CAPSY_CLAIM" ["claim.>"]; mkStream "CAPSY_FREESWITCH" ["freeswitch.>"]]%string.

(** ** Publishing *)

Inductive PublishOption := WithIdempotencyKey (key : string) | WithHeader (name value : string).

Notation Header := (gmap string (list string)).

Record Msg := mkMsg { ms_Subject : string; ms_Data : string; ms_Header : Header }.

Definition MsgIdHdr : string := "Nats-Msg-Id".

Record publishOptions := mkOptions { op_key : string; op_headers : Header }.

Definition apply_option (o : publishOptions) (opt : PublishOption) : publishOptions :=
  match opt with
  | WithIdempotencyKey key => mkOptions key (op_headers o)
  | WithHeader name value =>
      mkOptions (op_key o) (<[name := default [] (op_headers o !! name) ++ [value]]> (op_headers o))
  end.

(** The message of a call of [Publish]. *)
Definition message (subject data : string) (opts : list PublishOption) : Msg :=
  let o := fold_left apply_option opts (mkOptions "" ∅) in
  mkMsg subject data (if is_empty (op_key o) then op_headers o else <[MsgIdHdr := [op_key o]]> (op_headers o)).

Class Publisher (P : Type) := Publish : P -> string -> string -> list PublishOption -> P * error.

(** The server: publishing, and creating or updating a stream. *)
Inductive stream_answer := StreamOk | NameInUse | StreamErr (e : string).
Class Nats (S : Type) := {
  PublishMsg : S -> Msg -> S * error;
  CreateStream : S -> StreamSpec -> S * stream_answer;
  UpdateStream : S -> StreamSpec -> S * error
}.

Section JetStream.
Context {S : Type} `{!Nats S}.

(** [JetStream.Publish]. *)
Definition js_Publish (s : S) (subject data : string) (opts : list PublishOption) : S * error :=
  let '(s, e) := PublishMsg s (message subject data opts) in
  (s, (fun e => "events: publish " ++ subject ++ ": " ++ e)%string <$> e).

#[export] Instance jetstream_publisher : Publisher S := js_Publish.

(** [JetStream.assertStream]. *)
Definition assertStream (s : S) (spec : StreamSpec) : S * error :=
  let '(s, a) := CreateStream s spec in
  match a with
  | StreamOk => (s, None)
  | NameInUse =>
      let '(s, e) := UpdateStream s spec in
      (s, (fun e => "events: update stream " ++ st_Name spec ++ ": " ++ e)%string <$> e)
  | StreamErr e => (s, Some ("events: create stream " ++ st_Name spec ++ ": " ++ e)%string)
  end.

(** The streams asserted by [NewWithStreams], up to the first that fails. *)
Fixpoint assert_streams (s : S) (specs : list StreamSpec) : S * error :=
  match specs with
  | [] => (s, None)
  | spec :: specs =>
      let '(s, e) := assertStream s spec in
      match e with Some _ => (s, e) | None => assert_streams s specs end
  end.
End JetStream.

(** [NoopPublisher]: the messages it was given. *)
Module Noop.
Record t := mk { messages : list Msg }.
Definition NewNoop : t := mk [].
Definition publish (p : t) (subject data : string) (opts : list PublishOption) : t * error :=
  (mk (messages p ++ [message subject data opts]), None).
Definition Count (p : t) : nat := length (messages p).
End Noop.
#[export] Instance noop_publisher : Publisher Noop.t := Noop.publish.

(** ** The outbox *)

Record OutboxRow := mkRow { ow_ID : string; ow_Subject : string; ow_Payload : string; ow_CreatedAt : Z }.

Class OutboxStore (T : Type) := {
  FetchUnpublished : T -> Z -> T * result (list OutboxRow);
  MarkPublished : T -> string -> T * error
}.

Section Relay.
Context {T P : Type} `{!OutboxStore T} `{!Publisher P}.

(** One row: it is marked only when it was published. *)
Definition relay_row (st : T * P) (row : OutboxRow) : T * P :=
  let '(s, p) := st in
  let '(p, e) := Publish p (ow_Subject row) (ow_Payload row) [WithIdempotencyKey (ow_ID row)] in
  match e with
  | Some _ => (s, p)
  | None => let '(s, _) := MarkPublished s (ow_ID row) in (s, p)
  end.

Definition drainOnce (batchSize : Z) (st : T * P) : T * P :=
  let '(s, r) := FetchUnpublished st.1 batchSize in
  match r with Err _ => (s, st.2) | Ok rows => fold_left relay_row rows (s, st.2) end.

(** [Run] for a number of ticks. *)
Definition Run (batchSize : Z) (ticks : nat) (st : T * P) : T * P :=
  let batchSize := if batchSize =? 0 then 100 else batchSize in
  Nat.iter ticks (drainOnce batchSize) st.
End Relay.

(** A statement is executed and answered, refused, or executed without an answer. *)
Inductive outcome := Done | Refused | Lost.

(** [PGOutboxStore]: the table; [ob_clock] is the clock of the database and
    [ob_ties] the order in which it has rows of one time. *)
Record Entry := mkEntry { en_row : OutboxRow; en_published : option Z }.
Record PgOutbox := mkOutbox {
  ob_rows : list Entry;
  ob_outcome : nat -> outcome;
  ob_clock : nat -> Z;
  ob_ties : list Entry -> list Entry;
  ob_stmts : nat
}.

Definition next_stmt (s : PgOutbox) (rows : list Entry) : PgOutbox :=
  mkOutbox rows (ob_outcome s) (ob_clock s) (ob_ties s) (S (ob_stmts s)).

Definition unpublished (e : Entry) : bool := bool_decide (en_published e = None).
Definition older (a b : Entry) : bool := ow_CreatedAt (en_row a) <? ow_CreatedAt (en_row b).

Definition pending (s : PgOutbox) : list Entry := sort_by older (ob_ties s (List.filter unpublished (ob_rows s))).

Definition pg_FetchUnpublished (s : PgOutbox) (limit : Z) : PgOutbox * result (list OutboxRow) :=
  (next_stmt s (ob_rows s),
   match ob_outcome s (ob_stmts s) with
   | Done => if limit <? 0 then Err "LIMIT must not be negative"%string else Ok (en_row <$> take (Z.to_nat limit) (pending s))
   | _ => Err "outbox: query"%string
   end).

Definition mark (id : string) (now : Z) (e : Entry) : Entry :=
  if decide (ow_ID (en_row e) = id) then mkEntry (en_row e) (Some now) else e.

Definition pg_MarkPublished (s : PgOutbox) (id : string) : PgOutbox * error :=
  let marked := map (mark id (ob_clock s (ob_stmts s))) (ob_rows s) in
  match ob_outcome s (ob_stmts s) with
  | Done => (next_stmt s marked, None)
  | Lost => (next_stmt s marked, Some "outbox: exec"%string)
  | Refused => (next_stmt s (ob_rows s), Some "outbox: exec"%string)
  end.

#[export] Instance pg_outbox : OutboxStore PgOutbox :=
  { FetchUnpublished := pg_FetchUnpublished; MarkPublished := pg_MarkPublished }.

(** A service writes an event with its own transaction. *)
Definition insert_row (s : PgOutbox) (row : OutboxRow) : PgOutbox :=
  mkOutbox (ob_rows s ++ [mkEntry row None]) (ob_outcome s) (ob_clock s) (ob_ties s) (ob_stmts s).

(** ** Consumers *)

(** [Subscribe]: the server delivers the messages of the stream in some order, each
    again until it is acknowledged, at most [MaxDeliver] times; the callback
    acknowledges a message when the handler succeeds. *)
Section Consumer.
Context {W : Type} (handler : W -> string -> string -> Header -> W * error).

Record Consumer := mkConsumer { cn_state : W; cn_acked : gset nat; cn_count : gmap nat nat }.

Definition deliveries (c : Consumer) (i : nat) : nat := default 0%nat (cn_count c !! i).

Definition delivery (maxDeliver : nat) (msgs : list Msg) (c : Consumer) (i : nat) : Consumer :=
  match msgs !! i with
  | Some m =>
      if bool_decide (i ∈ cn_acked c) || (maxDeliver <=? deliveries c i)%nat then c
      else
        let '(w, e) := handler (cn_state c) (ms_Subject m) (ms_Data m) (ms_Header m) in
        mkConsumer w (match e with None => {[i]} ∪ cn_acked c | Some _ => cn_acked c end)
          (<[i := S (deliveries c i)]> (cn_count c))
  | None => c
  end.

(** For a limit that is not negative; [order] is the order of deliveries. *)
Definition Subscribe (maxDeliver : Z) (msgs : list Msg) (order : list nat) (w : W) : Consumer :=
  let maxDeliver := if maxDeliver =? 0 then 5 else maxDeliver in
  fold_left (delivery (Z.to_nat maxDeliver) msgs) order (mkConsumer w ∅ ∅).
End Consumer.
Arguments Consumer : clear implicits.

(** ** campaign: the launch is announced *)

(** The parts of a path that are not empty. *)
Fixpoint split_path (cur path : string) : list string :=
  let part := if is_empty cur then [] else [cur] in
  match path with
  | EmptyString => part
  | String c path =>
      if bool_decide (c = Ascii.ascii_of_N 47) then part ++ split_path "" path else split_path (cur ++ String c "") path
  end.
Definition splitPath (path : string) : list string := split_path "" path.

Definition isLaunchPath (path : string) : bool :=
  match splitPath path with
  | [v; c; _; l] => bool_decide (v = "v1"%string) && bool_decide (c = "campaigns"%string) && bool_decide (l = "launch"%string)
  | _ => false
  end.

Definition launchPathID (path : string) : string := default ""%string (splitPath path !! 2%nat).

(** [json_id] is the JSON text with the id. *)
Definition publishLaunched {P} `{!Publisher P} (json_id : string -> string) (p : P) (campaignID : string) : P :=
  (Publish p "campaign.launched" (json_id campaignID) [WithIdempotencyKey ("launch-" ++ campaignID)]).1.

(** The handler of main around the router: a launch that was answered with 200 is
    announced. *)
Definition wrapped {T P} `{!Publisher P} (json_id : string -> string) (base : T -> T * Z) (method path : string) (st : T * P)
    : T * P * Z :=
  let '(s, status) := base st.1 in
  let announce := bool_decide (method = "POST"%string) && isLaunchPath path && (status =? 200)
                  && negb (is_empty (launchPathID path)) in
  (s, if announce then publishLaunched json_id st.2 (launchPathID path) else st.2, status).

(** ** What the server promises *)

Definition msg_id (m : Msg) : option string := ms_Header m !! MsgIdHdr ≫= head.

(** [stored] are the messages of the streams, [recent] the ids of those the server
    still tells apart.  A message that was acknowledged is stored, or has the id of
    one that is; one that was refused may be stored all the same. *)
Class NatsLaws (S : Type) `{!Nats S} := {
  stored : S -> list Msg;
  recent : S -> gset string;
  pub_stored s m s' e : PublishMsg s m = (s', e) -> stored s' = stored s \/ stored s' = stored s ++ [m];
  pub_ack s m s' : PublishMsg s m = (s', None) ->
    stored s' = stored s ++ [m] \/ exists m', m' ∈ stored s /\ msg_id m' = msg_id m /\ msg_id m <> None;
  pub_dedup s m s' e id : PublishMsg s m = (s', e) -> msg_id m = Some id -> id ∈ recent s -> stored s' = stored s;
  pub_recent s m s' e id : PublishMsg s m = (s', e) -> stored s' = stored s ++ [m] -> msg_id m = Some id -> id ∈ recent s'
}.

Definition msg_of (row : OutboxRow) : Msg := message (ow_Subject row) (ow_Payload row) [WithIdempotencyKey (ow_ID row)].

Lemma message_id subject data key :
  key <> ""%string -> msg_id (message subject data [WithIdempotencyKey key]) = Some key.
Proof.
  intros Hk. unfold msg_id, message. cbn [fold_left apply_option op_key op_headers].
  rewrite is_empty_false by done. cbn [ms_Header]. by rewrite lookup_insert_eq.
Qed.

Lemma msg_of_id row : ow_ID row <> ""%string -> msg_id (msg_of row) = Some (ow_ID row).
Proof. apply message_id. Qed.

(** ** From the outbox to the bus *)

Section System.
Context {S : Type} `{NatsLaws S} (batch : Z).
Implicit Types (st : PgOutbox * S).

Definition rows (s : PgOutbox) : list OutboxRow := en_row <$> ob_rows s.

(** The states of a service with its relay, from an empty table and bus. *)
Inductive reachable : PgOutbox * S -> Prop :=
| reach_start s p : ob_rows s = [] -> stored p = [] -> (forall l, ob_ties s l ≡ₚ l) -> reachable (s, p)
| reach_insert s p row : reachable (s, p) -> ow_ID row <> ""%string -> ow_ID row ∉ ow_ID <$> rows s ->
    reachable (insert_row s row, p)
| reach_drain st : reachable st -> reachable (drainOnce batch st).

(** Ids are unique; what is on the bus comes from the table; what is marked in the
    table is on the bus. *)
Record bus_ok st : Prop := {
  bk_ties l : ob_ties st.1 l ≡ₚ l;
  bk_ids : NoDup (ow_ID <$> rows st.1);
  bk_named : Forall (fun r => ow_ID r <> ""%string) (rows st.1);
  bk_stored : Forall (fun m => m ∈ msg_of <$> rows st.1) (stored st.2);
  bk_marked e : e ∈ ob_rows st.1 -> unpublished e = false -> msg_of (en_row e) ∈ stored st.2
}.

Lemma row_by_id st r r' : bus_ok st -> r ∈ rows st.1 -> r' ∈ rows st.1 -> ow_ID r = ow_ID r' -> r = r'.
Proof.
  intros Hb Hr Hr' E. pose proof (bk_ids _ Hb) as Hn. apply list_elem_of_lookup in Hr as [i Hi], Hr' as [j Hj].
  assert (i = j) as ->; [|by simplify_eq]. eapply NoDup_lookup; [exact Hn| |]; rewrite list_lookup_fmap.
  - by rewrite Hi.
  - by rewrite Hj, E.
Qed.

(** A step that neither changes the rows nor takes messages away. *)
Lemma bus_ok_step st s' p' :
  bus_ok st -> rows s' = rows st.1 -> ob_ties s' = ob_ties st.1 ->
  Forall (fun m => m ∈ msg_of <$> rows st.1) (stored p') ->
  (forall e, e ∈ ob_rows s' -> unpublished e = false -> msg_of (en_row e) ∈ stored p') -> bus_ok (s', p').
Proof. intros [B1 B2 B3 B4 B5] Hr Ht Hs Hm. split; cbn; rewrite ?Hr, ?Ht; done. Qed.

Lemma map_mark_rows id now l : en_row <$> map (mark id now) l = en_row <$> l.
Proof. induction l as [|e l IH]; csimpl; [done|]. rewrite IH. f_equal. unfold mark. by case_decide. Qed.

(** An entry that is marked now was so before, or has the id. *)
Lemma mark_entries s id e :
  e ∈ ob_rows (MarkPublished s id).1 -> unpublished e = false ->
  ow_ID (en_row e) = id \/ exists e0, e0 ∈ ob_rows s /\ en_row e0 = en_row e /\ unpublished e0 = false.
Proof.
  assert (Hm : forall now, e ∈ map (mark id now) (ob_rows s) -> unpublished e = false ->
    ow_ID (en_row e) = id \/ exists e0, e0 ∈ ob_rows s /\ en_row e0 = en_row e /\ unpublished e0 = false).
  { intros now (e0 & -> & He)%list_elem_of_fmap. unfold mark. case_decide as Hd; [by left|]. right. by exists e0. }
  cbn. unfold pg_MarkPublished. destruct (ob_outcome s _); cbn; [apply Hm| |apply Hm]. right. by exists e.
Qed.

Lemma mark_rows s id : rows (MarkPublished s id).1 = rows s /\ ob_ties (MarkPublished s id).1 = ob_ties s.
Proof. cbn. unfold pg_MarkPublished, rows. destruct (ob_outcome s _); cbn; by rewrite ?map_mark_rows. Qed.

(** Publishing a row of the table leaves on the bus what comes from the table. *)
Lemma publish_row_ok st row p' e :
  bus_ok st -> row ∈ rows st.1 -> PublishMsg st.2 (msg_of row) = (p', e) ->
  Forall (fun m => m ∈ msg_of <$> rows st.1) (stored p') /\
  (forall m, m ∈ stored st.2 -> m ∈ stored p') /\ (e = None -> msg_of row ∈ stored p').
Proof.
  intros Hb Hrow Ep. pose proof (bk_stored _ Hb) as Hst. rewrite Forall_forall in Hst.
  assert (Hsub : forall m, m ∈ stored st.2 -> m ∈ stored p')
    by (destruct (pub_stored _ _ _ _ Ep) as [-> | ->]; set_solver).
  split_and!; [|done|].
  - apply Forall_forall. intros m. destruct (pub_stored _ _ _ _ Ep) as [-> | ->]; [apply Hst|].
    rewrite elem_of_app, list_elem_of_singleton. intros [Hm|Hm]; [by apply Hst|subst m; by apply list_elem_of_fmap_2].
  - intros ->. destruct (pub_ack _ _ _ Ep) as [-> |(m' & Hm' & Hid & _)]; [set_solver|].
    apply Hsub. destruct (proj1 (list_elem_of_fmap _ _ _) (Hst m' Hm')) as (row' & -> & Hrow').
    pose proof (bk_named _ Hb) as Hn. rewrite Forall_forall in Hn.
    rewrite !msg_of_id in Hid by auto. injection Hid as Hid. by rewrite (row_by_id _ _ _ Hb Hrow Hrow').
Qed.

Lemma relay_row_ok st row : bus_ok st -> row ∈ rows st.1 ->
  bus_ok (relay_row st row) /\ rows (relay_row st row).1 = rows st.1.
Proof.
  destruct st as [s p]. intros Hb Hrow. unfold relay_row, Publish, jetstream_publisher, js_Publish. fold (msg_of row).
  destruct (PublishMsg p (msg_of row)) as [p' e] eqn:Ep.
  destruct (publish_row_ok (s, p) row p' e Hb Hrow Ep) as (H1 & H2 & H3). destruct e as [e|]; cbn [fmap option_fmap option_map].
  - split; [|done]. apply (bus_ok_step (s, p)); try done. intros e0 He Hu. apply H2. by apply (bk_marked _ Hb).
  - pose proof (mark_rows s (ow_ID row)) as [Hr Ht]. pose proof (mark_entries s (ow_ID row)) as Hmk.
    destruct (MarkPublished s (ow_ID row)) as [s' e']. cbn [fst snd] in *. split; [|done].
    apply (bus_ok_step (s, p)); try done. intros e0 He Hu. destruct (Hmk e0 He Hu) as [Hid|(e1 & He1 & <- & Hu1)].
    + rewrite (row_by_id _ (en_row e0) row Hb); [by apply H3| |done|done]. cbn. rewrite <- Hr. by apply list_elem_of_fmap_2.
    + apply H2. by apply (bk_marked _ Hb).
Qed.

Lemma relay_rows_ok l : forall st, bus_ok st -> l ⊆ rows st.1 ->
  bus_ok (fold_left relay_row l st) /\ rows (fold_left relay_row l st).1 = rows st.1.
Proof.
  induction l as [|row l IH]; intros st Hb Hl; [done|]. destruct (relay_row_ok st row Hb) as [H1 H2]; [set_solver|].
  destruct (IH _ H1) as [H3 H4]; [rewrite H2; set_solver|]. cbn [fold_left]. by rewrite H4, H2.
Qed.

Lemma fetched_rows s limit l : (forall l, ob_ties s l ≡ₚ l) -> (FetchUnpublished s limit).2 = Ok l -> l ⊆ rows s.
Proof.
  intros Ht. cbn. unfold pg_FetchUnpublished. cbn. destruct (ob_outcome s _); try done. destruct (limit <? 0); [done|].
  intros [= <-] r (e & -> & He)%list_elem_of_fmap. apply list_elem_of_fmap_2.
  apply elem_of_take in He as (i & He & _). apply list_elem_of_lookup_2 in He. unfold pending in He.
  rewrite sort_by_perm, Ht in He. by apply list_elem_of_In, List.filter_In in He as [He%list_elem_of_In _].
Qed.

Lemma drain_ok st : bus_ok st -> bus_ok (drainOnce batch st) /\ rows (drainOnce batch st).1 = rows st.1.
Proof.
  intros Hb. unfold drainOnce. pose proof (fetched_rows st.1 batch) as Hf.
  assert (Hn : bus_ok (next_stmt st.1 (ob_rows st.1), st.2)) by (apply (bus_ok_step st); try done; apply Hb).
  cbn [FetchUnpublished pg_outbox] in *. unfold pg_FetchUnpublished in *. cbn [snd] in Hf.
  destruct (match ob_outcome _ _ with Done => _ | _ => _ end) as [l|e]; [|done].
  apply (relay_rows_ok l _ Hn). apply (Hf l); [apply Hb|done].
Qed.

Lemma reachable_ok st : reachable st -> bus_ok st.
Proof.
  induction 1 as [s p Hr Hp Ht|s p row _ IH Hne Hid|st _ IH]; [| |by apply drain_ok].
  - split; cbn; unfold rows; rewrite ?Hr, ?Hp; try constructor; try done. by intros e He%elem_of_nil.
  - destruct IH as [B1 B2 B3 B4 B5]. cbn in *.
    assert (Hrows : rows (insert_row s row) = rows s ++ [row]) by (unfold rows; cbn; by rewrite fmap_app).
    split; cbn [fst snd]; rewrite ?Hrows, ?fmap_app; [done| | | |].
    + apply NoDup_app. split_and!; [done| |apply NoDup_singleton]. intros x Hx ->%list_elem_of_singleton. done.
    + apply Forall_app. auto.
    + eapply Forall_impl; [exact B4|]. set_solver.
    + cbn [insert_row ob_rows]. intros e. rewrite elem_of_app, list_elem_of_singleton. intros [He| ->] Hu; [by apply B5|done].
Qed.

(** C14: Whatever is refused or lost on the way: a row of the outbox is marked as
    published only when its message is on the bus, the bus has nothing that is not
    in the outbox, and the relay removes or alters no row. *)
Theorem marked_events_are_on_the_bus st :
  reachable st ->
  (forall e, e ∈ ob_rows st.1 -> en_published e <> None -> msg_of (en_row e) ∈ stored st.2) /\
  (forall m, m ∈ stored st.2 -> exists e, e ∈ ob_rows st.1 /\ m = msg_of (en_row e)) /\
  rows (drainOnce batch st).1 = rows st.1.
Proof.
  intros Hr%reachable_ok. split_and!; [| |by apply drain_ok].
  - intros e He Hp. apply (bk_marked _ Hr); [done|]. unfold unpublished. by apply bool_decide_eq_false.
  - intros m Hm. pose proof (bk_stored _ Hr) as Hs. rewrite Forall_forall in Hs.
    apply Hs in Hm as (r & -> & (e & -> & He)%list_elem_of_fmap)%list_elem_of_fmap. by exists e.
Qed.

(** ** Exactly once *)

(** While the server forgets no id, that is for two minutes, no message is on the
    bus twice. *)
Hypothesis no_id_forgotten : forall s m s' e, PublishMsg s m = (s', e) -> recent s ⊆ recent s'.

Definition once (p : S) : Prop :=
  NoDup (msg_id <$> stored p) /\ forall m id, m ∈ stored p -> msg_id m = Some id -> id ∈ recent p.

Lemma publish_once p m id p' e : PublishMsg p m = (p', e) -> msg_id m = Some id -> once p -> once p'.
Proof.
  intros Ep Hid [Hn Hr]. pose proof (no_id_forgotten _ _ _ _ Ep) as Hk.
  destruct (pub_stored _ _ _ _ Ep) as [E|E]; (split; rewrite E).
  - done.
  - intros m0 i Hm Hi. apply Hk. by eapply Hr.
  - rewrite fmap_app. apply NoDup_app. split_and!; [done| |apply NoDup_singleton].
    intros x (m0 & -> & Hm0)%list_elem_of_fmap Hx%list_elem_of_singleton. rewrite Hid in Hx.
    pose proof (pub_dedup _ _ _ _ _ Ep Hid (Hr _ _ Hm0 Hx)) as E'. rewrite E in E'.
    apply (f_equal length) in E'. rewrite length_app in E'. cbn in E'. lia.
  - intros m0 i. rewrite elem_of_app, list_elem_of_singleton. intros [Hm| ->] Hi; [by apply Hk, (Hr m0)|].
    by apply (pub_recent _ _ _ _ _ Ep E).
Qed.

Lemma relay_once l : forall st, Forall (fun r => ow_ID r <> ""%string) l -> once st.2 -> once (fold_left relay_row l st).2.
Proof.
  induction l as [|row l IH]; intros [s p] Hl Ho; [done|]. apply Forall_cons in Hl as [Hrow Hl]. cbn [fold_left].
  apply IH; [done|]. unfold relay_row, Publish, jetstream_publisher, js_Publish. fold (msg_of row).
  destruct (PublishMsg p (msg_of row)) as [p' e] eqn:Ep.
  pose proof (publish_once p _ _ p' e Ep (msg_of_id _ Hrow) Ho) as Ho'.
  destruct e; cbn; [done|]. by destruct (pg_MarkPublished s _).
Qed.

Theorem events_are_on_the_bus_once st : reachable st -> NoDup (msg_id <$> stored st.2).
Proof.
  intros Hr. assert (Ho : once st.2); [|apply Ho].
  induction Hr as [s p _ Hp _|s p row _ IH _ _|st Hst IH]; cbn in *; [|done|].
  - split; rewrite Hp; [constructor|]. by intros m id Hm%elem_of_nil.
  - apply reachable_ok in Hst. unfold drainOnce. pose proof (fetched_rows st.1 batch) as Hf.
    cbn [FetchUnpublished pg_outbox] in *. unfold pg_FetchUnpublished in *. cbn [snd] in Hf.
    destruct (match ob_outcome _ _ with Done => _ | _ => _ end) as [l|e]; [|done].
    apply relay_once; [|done]. apply Forall_forall. intros r Hin. pose proof (bk_named _ Hst) as Hn. rewrite Forall_forall in Hn. apply Hn.
    by apply (Hf l (bk_ties _ Hst) eq_refl).
Qed.
End System.

(** ** No event is left behind *)

Lemma filter_notin_take {A} `{EqDecision A} (l : list A) n :
  NoDup l -> List.filter (fun x => bool_decide (x ∉ take n l)) l = drop n l.
Proof.
  revert n. induction l as [|x l IH]; intros n Hn; [by destruct n|]. apply NoDup_cons in Hn as [Hx Hn]. destruct n as [|n].
  - cbn. rewrite bool_decide_true by set_solver. f_equal. rewrite <- (IH 0%nat Hn) at 2. by rewrite take_0.
  - cbn [take drop List.filter]. rewrite bool_decide_false by set_solver. rewrite <- IH by done.
    apply List.filter_ext_in. intros y Hy%list_elem_of_In. apply bool_decide_ext. rewrite not_elem_of_cons.
    split; [by intros []|]. intros Hy'. split; [|done]. by intros ->.
Qed.

Section Healthy.
Context {S : Type} `{NatsLaws S} (batch : Z).
Hypothesis bus_up : forall s m, (PublishMsg s m).2 = None.
Implicit Types (s : PgOutbox).

Definition waiting s : list Entry := List.filter unpublished (ob_rows s).
Definition db_up s : Prop := forall n, ob_outcome s n = Done.

Lemma mark_waiting s id : db_up s ->
  waiting (MarkPublished s id).1 = List.filter (fun e => bool_decide (ow_ID (en_row e) <> id)) (waiting s) /\
  db_up (MarkPublished s id).1.
Proof.
  intros Hu. cbn. unfold pg_MarkPublished, waiting. rewrite Hu. cbn. split; [|done]. rewrite filter_filter.
  induction (ob_rows s) as [|e l IH]; cbn; [done|]. rewrite IH. unfold mark. destruct (decide (ow_ID (en_row e) = id)) as [E|E].
  - cbn. rewrite (bool_decide_false (ow_ID _ <> id)) by (by intros ?). by rewrite andb_false_r.
  - rewrite (bool_decide_true (ow_ID _ <> id)) by done. by rewrite andb_true_r.
Qed.

Lemma relay_waiting l : forall (st : PgOutbox * S), db_up st.1 ->
  waiting (fold_left relay_row l st).1
    = List.filter (fun e => bool_decide (ow_ID (en_row e) ∉ ow_ID <$> l)) (waiting st.1) /\
  db_up (fold_left relay_row l st).1.
Proof.
  induction l as [|row l IH]; intros [s p] Hu; cbn [fold_left].
  - split; [|done]. symmetry. apply forallb_filter_id. apply forallb_forall. intros e _. apply bool_decide_true. cbn. set_solver.
  - destruct (mark_waiting s (ow_ID row) Hu) as [Hw Hu'].
    assert (Hrow : exists p', relay_row (s, p) row = ((MarkPublished s (ow_ID row)).1, p')).
    { unfold relay_row, Publish, jetstream_publisher, js_Publish. fold (msg_of row).
      pose proof (bus_up p (msg_of row)) as Hp. destruct (PublishMsg p (msg_of row)) as [p' e]. cbn in Hp. subst e.
      exists p'. cbn. by destruct (pg_MarkPublished s (ow_ID row)). }
    destruct Hrow as [p' ->]. destruct (IH (_, p') Hu') as [H1 H2]. split; [|done]. rewrite H1. cbn [fst]. rewrite Hw, filter_filter.
    apply List.filter_ext. intros e. rewrite <- bool_decide_and. apply bool_decide_ext. rewrite fmap_cons, not_elem_of_cons.
    by split; intros [? ?].
Qed.

Lemma drain_waiting (st : PgOutbox * S) : 0 <= batch -> bus_ok st -> db_up st.1 ->
  length (waiting (drainOnce batch st).1) = (length (waiting st.1) - Z.to_nat batch)%nat /\ db_up (drainOnce batch st).1.
Proof.
  intros Hb Hok Hu. unfold drainOnce. cbn [FetchUnpublished pg_outbox]. unfold pg_FetchUnpublished. rewrite Hu.
  destruct (batch <? 0) eqn:E; [lia|]. set (l := en_row <$> take (Z.to_nat batch) (pending st.1)).
  destruct (relay_waiting l (next_stmt st.1 (ob_rows st.1), st.2)) as [H1 H2]; [exact Hu|]. split; [|done]. rewrite H1.
  change (waiting (next_stmt st.1 (ob_rows st.1), st.2).1) with (waiting st.1).
  assert (Hp : pending st.1 ≡ₚ waiting st.1) by (unfold pending; rewrite sort_by_perm; apply Hok).
  assert (Hn : NoDup ((fun e => ow_ID (en_row e)) <$> pending st.1)).
  { rewrite Hp. apply NoDup_fmap_filter. pose proof (bk_ids _ Hok) as Hids. unfold rows in Hids.
    by rewrite <- list_fmap_compose in Hids. }
  rewrite (Permutation_length (filter_perm _ _ _ (symmetry Hp))), <- Hp. set (ids := (fun e => ow_ID (en_row e)) <$> pending st.1) in Hn.
  assert (Hl : ow_ID <$> l = take (Z.to_nat batch) ids)
    by (unfold l, ids; by rewrite <- fmap_take, <- !list_fmap_compose).
  rewrite Hl, <- length_drop. transitivity (length (drop (Z.to_nat batch) ids)); [|unfold ids; by rewrite <- fmap_drop, length_fmap].
  rewrite <- (filter_notin_take ids) by done. generalize (take (Z.to_nat batch) ids) as done_. intros done_. unfold ids. clear.
  induction (pending st.1) as [|e es IHe]; cbn; [done|].
  case_bool_decide; cbn; by rewrite IHe.
Qed.

(** C15: With the database and the bus up, so many ticks as batches are needed mark every
    event of the outbox, and each of them is on the bus. *)
Theorem healthy_relay_empties_the_outbox (st : PgOutbox * S) ticks :
  0 < batch -> reachable batch st -> db_up st.1 -> (length (waiting st.1) <= ticks * Z.to_nat batch)%nat ->
  let st' := Run batch ticks st in
  rows st'.1 = rows st.1 /\ waiting st'.1 = [] /\ forall r, r ∈ rows st.1 -> msg_of r ∈ stored st'.2.
Proof.
  intros Hb Hr Hu Hl st'. unfold st', Run. destruct (batch =? 0) eqn:E0; [lia|].
  assert (Hind : forall k, let sk := Nat.iter k (drainOnce batch) st in
    reachable batch sk /\ db_up sk.1 /\ rows sk.1 = rows st.1 /\
    length (waiting sk.1) = (length (waiting st.1) - k * Z.to_nat batch)%nat).
  { induction k as [|k (Hrk & Huk & Hsk & Hlk)]; cbn [Nat.iter nat_rect].
    - split_and!; [done..|]. lia.
    - pose proof (reachable_ok _ _ Hrk) as Hok.
      destruct (drain_waiting (Nat.iter k (drainOnce batch) st)) as [H1 H2]; [lia|done|done|].
      destruct (drain_ok batch _ Hok) as [_ H3]. split_and!; [by apply reach_drain|done|exact (eq_trans H3 Hsk)|].
      etrans; [exact H1|]. rewrite Hlk. lia. }
  destruct (Hind ticks) as (Hrk & _ & Hsk & Hlk).
  assert (Hw : waiting (Nat.iter ticks (drainOnce batch) st).1 = []) by (apply nil_length_inv; lia).
  split_and!; [exact Hsk|exact Hw|]. intros r Hin. rewrite <- Hsk in Hin.
  apply list_elem_of_fmap in Hin as (e & -> & He). apply (bk_marked _ (reachable_ok _ _ Hrk)); [done|].
  destruct (unpublished e) eqn:Eu; [|done]. exfalso.
  assert (Hin : e ∈ waiting (Nat.iter ticks (drainOnce batch) st).1)
    by (apply list_elem_of_In, List.filter_In; split; [by apply list_elem_of_In|done]).
  rewrite Hw in Hin. by apply elem_of_nil in Hin.
Qed.
End Healthy.

(** ** Events the bus refuses hold up the others *)

Section Starvation.
Context {S : Type} `{NatsLaws S} (batch : Z) (bad : string).
Hypothesis refused : forall s m, ms_Subject m = bad -> (PublishMsg s m).2 <> None.
Implicit Types (st : PgOutbox * S).

Lemma elem_of_waiting e s : e ∈ waiting s <-> e ∈ ob_rows s /\ unpublished e = true.
Proof. unfold waiting. rewrite list_elem_of_In, List.filter_In, <- list_elem_of_In. done. Qed.

Lemma waiting_row e e' s : e ∈ waiting s -> e' ∈ waiting s -> en_row e = en_row e' -> e = e'.
Proof.
  rewrite !elem_of_waiting. unfold unpublished. intros [_ H1%bool_decide_eq_true] [_ H2%bool_decide_eq_true] E.
  destruct e, e'; cbn in *. congruence.
Qed.

Lemma pending_waiting st : bus_ok st -> pending st.1 ≡ₚ waiting st.1.
Proof. intros Hb. unfold pending. rewrite sort_by_perm. apply Hb. Qed.

Lemma mark_keeps s id e : e ∈ waiting s -> ow_ID (en_row e) <> id -> e ∈ waiting (MarkPublished s id).1.
Proof.
  rewrite !elem_of_waiting. intros [He Hu] Hid.
  assert (Hm : forall now, e ∈ map (mark id now) (ob_rows s)).
  { intros now. apply list_elem_of_fmap. exists e. split; [|done]. unfold mark. by rewrite decide_False. }
  cbn. unfold pg_MarkPublished. by destruct (ob_outcome s _); cbn.
Qed.

(** A row stays as it is that is not fetched, or that the bus refuses. *)
Lemma relay_keeps e l : forall st, bus_ok st -> l ⊆ rows st.1 -> e ∈ waiting st.1 ->
  en_row e ∉ l \/ ow_Subject (en_row e) = bad -> e ∈ waiting (fold_left relay_row l st).1.
Proof.
  induction l as [|row l IH]; intros st Hb Hl He Hor; [done|]. cbn [fold_left].
  assert (Hrow : row ∈ rows st.1) by set_solver. destruct (relay_row_ok st row Hb Hrow) as [Hb' Hr'].
  apply IH; [done|rewrite Hr'; set_solver| |set_solver].
  destruct st as [s p]. unfold relay_row, Publish, jetstream_publisher, js_Publish. fold (msg_of row).
  pose proof (refused p (msg_of row)) as Href. destruct (PublishMsg p (msg_of row)) as [p' [x|]]; cbn; [done|].
  pose proof (mark_keeps s (ow_ID row) e He) as Hk. cbn in Hk. destruct (pg_MarkPublished s (ow_ID row)) as [s' x']. cbn in *.
  apply Hk. intros E. assert (en_row e = row) as Heq.
  { apply (row_by_id _ _ _ Hb); [|done|done]. apply elem_of_waiting in He as [He _]. by apply list_elem_of_fmap_2. }
  destruct Hor as [Hni|Hbad]; [set_solver|]. rewrite Heq in Hbad. by apply Href.
Qed.

(** Rows that are older and refused. *)
Definition blocking (r : OutboxRow) (e : Entry) : bool :=
  bool_decide (ow_Subject (en_row e) = bad) && (ow_CreatedAt (en_row e) <? ow_CreatedAt r).

#[local] Instance older_weak : StrictWeak older.
Proof. split; intros *; unfold older; intros; go_bool; apply Z.ltb_ge; lia. Qed.

(** Behind a full batch of them a row is not fetched. *)
Lemma not_fetched st e blockers :
  bus_ok st -> NoDup blockers -> (forall b, b ∈ blockers -> b ∈ waiting st.1 /\ blocking (en_row e) b = true) ->
  (Z.to_nat batch <= length blockers)%nat -> e ∉ take (Z.to_nat batch) (pending st.1).
Proof.
  intros Hb Hn Hbl Hlen Hin.
  pose proof (pending_waiting st Hb) as Hp.
  assert (Hsub : e :: blockers ⊆ take (Z.to_nat batch) (pending st.1)).
  { intros x [->|Hx]%elem_of_cons; [done|]. destruct (Hbl x Hx) as [Hw Hk]. rewrite <- Hp in Hw.
    rewrite <- (take_drop (Z.to_nat batch) (pending st.1)) in Hw. apply elem_of_app in Hw as [|Hd]; [done|].
    assert (Hs : StronglySorted (not_after older) (pending st.1)) by (apply sort_by_sorted, _).
    pose proof (sorted_cut older _ _ e x Hs Hin Hd) as Ha. unfold not_after, older in Ha. unfold blocking in Hk.
    apply andb_true_iff in Hk as [_ Hk]. congruence. }
  assert (He : e ∉ blockers).
  { intros Hx. destruct (Hbl e Hx) as [_ Hk]. unfold blocking in Hk. go_bool. lia. }
  assert (Hle : (length (e :: blockers) <= length (take (Z.to_nat batch) (pending st.1)))%nat).
  { apply submseteq_length, NoDup_submseteq; [by constructor|done]. }
  rewrite length_take in Hle. cbn in Hle. lia.
Qed.

Lemma drain_keeps st e blockers :
  0 < batch -> bus_ok st -> e ∈ waiting st.1 -> NoDup blockers ->
  (forall b, b ∈ blockers -> b ∈ waiting st.1 /\ blocking (en_row e) b = true) -> batch <= Z.of_nat (length blockers) ->
  e ∈ waiting (drainOnce batch st).1 /\ forall b, b ∈ blockers -> b ∈ waiting (drainOnce batch st).1.
Proof.
  intros Hb Hok He Hn Hbl Hlen. pose proof (not_fetched st e blockers Hok Hn Hbl ltac:(lia)) as Hnf.
  pose proof (fetched_rows st.1 batch) as Hf.
  assert (Hnx : bus_ok (next_stmt st.1 (ob_rows st.1), st.2)) by (apply (bus_ok_step st); try done; apply Hok).
  unfold drainOnce. cbn [FetchUnpublished pg_outbox] in *. unfold pg_FetchUnpublished in *. cbn [snd] in Hf.
  assert (Hsame : e ∈ waiting st.1 /\ forall b, b ∈ blockers -> b ∈ waiting st.1)
    by (split; [done|intros b Hx; by apply Hbl]).
  destruct (ob_outcome st.1 _); [|exact Hsame..]. destruct (batch <? 0); [exact Hsame|].
  pose proof (Hf _ (bk_ties _ Hok) eq_refl) as Hsub. split.
  - apply relay_keeps; [done|done|done|]. left. intros (e' & E & He')%list_elem_of_fmap. apply Hnf.
    replace e with e'; [done|]. symmetry. apply (waiting_row e e' st.1); [done| |done].
    rewrite <- (pending_waiting st Hok). apply elem_of_take in He' as (i & He' & _). by eapply list_elem_of_lookup_2.
  - intros b Hx. apply relay_keeps; [done|done|by apply Hbl|]. right. destruct (Hbl b Hx) as [_ Hk].
    unfold blocking in Hk. by go_bool.
Qed.

(** Rows that the bus refuses are fetched again at every tick: as many of them as a
    batch has keep every newer row from being published, for ever. *)
Theorem refused_events_hold_up_the_rest st e blockers ticks :
  0 < batch -> reachable batch st -> e ∈ waiting st.1 ->
  NoDup blockers -> (forall b, b ∈ blockers -> b ∈ waiting st.1 /\ blocking (en_row e) b = true) ->
  batch <= Z.of_nat (length blockers) -> e ∈ waiting (Run batch ticks st).1.
Proof.
  intros Hb Hr%reachable_ok He Hn Hbl Hlen. unfold Run. destruct (batch =? 0) eqn:E0; [lia|].
  enough (Hind : bus_ok (Nat.iter ticks (drainOnce batch) st) /\ e ∈ waiting (Nat.iter ticks (drainOnce batch) st).1 /\
    forall b, b ∈ blockers -> b ∈ waiting (Nat.iter ticks (drainOnce batch) st).1) by (by destruct Hind as (_ & ? & _)).
  induction ticks as [|k (Hok & Hek & Hbk)]; [split_and!; [done..|]; intros b Hx; by apply Hbl|].
  rewrite Nat.iter_succ. split; [by apply drain_ok|]. apply drain_keeps; try done.
  intros b Hx. split; [by apply Hbk|by apply Hbl].
Qed.
End Starvation.

(** ** Streams *)

Section Streams.
(** Whether a subject matches a pattern; [p.>] covers what begins with [p.]. *)
Variable nats_match : string -> string -> bool.
Hypothesis match_family : forall p s, nats_match (p ++ ".>") s = has_prefix s (p ++ ".") && negb (bool_decide (s = p ++ "."))%string.

Definition streams_of (s : string) : list string :=
  st_Name <$> List.filter (fun st => List.existsb (fun p => nats_match p s) (st_Subjects st)) DefaultStreams.

Definition families : list (string * string) :=
  [("CAPSY_CALL", "call"); ("CAPSY_LEAD", "lead"); ("CAPSY_HANDOFF", "handoff"); ("CAPSY_WA", "wa"); ("CAPSY_BILLING", "billing");
   ("CAPSY_CAMPAIGN", "campaign"); ("CAPSY_SITE", "site"); ("CAPSY_CLAIM", "claim"); ("CAPSY_FREESWITCH", "freeswitch")]%string.

Lemma streams_of_family s :
  streams_of s = (List.filter (fun f => has_prefix s (f.2 ++ ".") && negb (bool_decide (s = f.2 ++ ".")))%string families).*1.
Proof.
  unfold streams_of. change DefaultStreams with ((fun f => mkStream f.1 [f.2 ++ ".>"]%string) <$> families).
  induction families as [|f fs IH]; cbn; [done|]. rewrite match_family, orb_false_r.
  destruct (_ && _); cbn; by rewrite IH.
Qed.

(** Every subject of the package is kept by exactly one stream. *)
Theorem every_subject_has_one_stream s : s ∈ subjects -> exists name, streams_of s = [name].
Proof.
  rewrite streams_of_family. revert s. apply Forall_forall.
  assert (Hb : forallb (fun s => (length (List.filter (fun f =>
    has_prefix s (f.2 ++ ".") && negb (bool_decide (s = f.2 ++ ".")))%string families) =? 1)%nat) subjects = true)
    by (vm_compute; reflexivity).
  rewrite forallb_forall in Hb. apply Forall_forall. intros s Hs%list_elem_of_In%Hb%Nat.eqb_eq.
  destruct (List.filter _ _) as [|f [|]]; try done. by exists f.1.
Qed.

(** The subjects under which freeswitch-bridge reports archived recordings are kept
    by no stream. *)
Theorem archive_subjects_have_no_stream :
  streams_of "recording.archived" = [] /\ streams_of "recording.archive.warning" = [].
Proof. rewrite !streams_of_family. vm_compute. done. Qed.
End Streams.

(** ** The launch of a campaign *)

Definition slash : Ascii.ascii := Ascii.ascii_of_N 47.

Lemma split_path_part w : forall cur rest, lacks slash w ->
  split_path cur (w ++ String slash rest) = (if is_empty (cur ++ w) then [] else [cur ++ w]%string) ++ split_path "" rest.
Proof.
  induction w as [|c w IH]; intros cur rest Hw; cbn [String.append split_path].
  - by rewrite append_nil.
  - apply lacks_cons in Hw as [Hc Hw]. change (String c w ++ String slash rest)%string with (String c (w ++ String slash rest)).
    cbn [split_path]. rewrite bool_decide_false by (intros ->; done). rewrite IH by done. by rewrite <- append_assoc.
Qed.

Lemma launch_path id : id <> ""%string -> lacks slash id ->
  splitPath ("/v1/campaigns/" ++ id ++ "/launch") = ["v1"; "campaigns"; id; "launch"]%string.
Proof.
  intros Hne Hid. change ("/v1/campaigns/" ++ id ++ "/launch")%string
    with ("" ++ String slash ("v1" ++ String slash ("campaigns" ++ String slash (id ++ String slash "launch"))))%string.
  unfold splitPath. rewrite !split_path_part; try (apply (bool_decide_unpack _); by vm_compute); [|done].
  change ("" ++ id)%string with id. rewrite (is_empty_false id Hne). reflexivity.
Qed.

Definition code_of (r : camp_resp) : Z := match r with CErr code _ | CCampaign code _ => code | _ => 200 end.

(** The announcement of a launch. *)
Definition launch_key (id : string) : string := ("launch-" ++ id)%string.
Definition launch_msg (json_id : string -> string) (id : string) : Msg :=
  message "campaign.launched" (json_id id) [WithIdempotencyKey (launch_key id)].

Lemma launch_msg_id json_id id : msg_id (launch_msg json_id id) = Some (launch_key id).
Proof. by apply message_id. Qed.

(** What publishing a launch does to the bus: at most the announcement is added;
    once the server acknowledges, a message with the key of the launch is there. *)
Lemma publishLaunched_spec {S} `{NatsLaws S} json_id (p : S) id :
  let m := launch_msg json_id id in
  let p' := publishLaunched json_id p id in
  (stored p' = stored p \/ stored p' = stored p ++ [m]) /\
  ((PublishMsg p m).2 = None ->
     (exists m', m' ∈ stored p' /\ msg_id m' = Some (launch_key id)) /\
     ((forall m', m' ∈ stored p -> msg_id m' <> Some (launch_key id)) -> stored p' = stored p ++ [m])).
Proof.
  intros m. unfold publishLaunched, Publish, jetstream_publisher, js_Publish.
  change (message _ _ _) with m. destruct (PublishMsg p m) as [p' e] eqn:Ep. cbn [fst snd].
  pose proof (launch_msg_id json_id id) as Hid. fold m in Hid.
  split; [by eapply pub_stored|]. intros ->. split.
  - destruct (pub_ack _ _ _ Ep) as [->|(m' & Hm' & Em & _)].
    + exists m. split; [|done]. apply elem_of_app. right. by left.
    + exists m'. split; [|congruence]. destruct (pub_stored _ _ _ _ Ep) as [->| ->]; [done|].
      apply elem_of_app. by left.
  - intros Hnew. destruct (pub_ack _ _ _ Ep) as [E|(m' & Hm' & Em & _)]; [done|].
    destruct (Hnew m' Hm'). congruence.
Qed.

(** C16: A launch request through the wrapped router, with preflight switched on, for a
    stored campaign and while the campaign store answers.  When preflight passes, the
    answer is 200, the campaign is active and nothing but the announcement is put on the
    bus; and if the bus acknowledges it, a message with the key of this launch is on the
    bus, which is the new announcement unless an earlier launch of the campaign left one
    there.  When preflight does not pass, the answer is 422, the campaign is marked so and
    the bus is left alone.  An announcement that the bus refuses is dropped: nothing is
    promised then. *)
Theorem launch_is_announced_iff_active {T S} `{CampaignLaws T} `{NatsLaws S} json_id (s : T) (p : S) now id c :
  cs_ok s -> cs_camp s id = Some c -> id <> ""%string -> lacks slash id ->
  let launch s := let '(s, r) := launchCampaign false s now id in (s, code_of r) in
  let m := launch_msg json_id id in
  let '(s', p', code) := wrapped json_id launch "POST" ("/v1/campaigns/" ++ id ++ "/launch") (s, p) in
  exists c', cs_camp s' id = Some c' /\
  if Passed (Campaign.Run s c)
  then code = 200 /\ ca_Status c' = StatusActive /\
    (stored p' = stored p \/ stored p' = stored p ++ [m]) /\
    ((PublishMsg p m).2 = None ->
       (exists m', m' ∈ stored p' /\ msg_id m' = Some (launch_key id)) /\
       ((forall m', m' ∈ stored p -> msg_id m' <> Some (launch_key id)) -> stored p' = stored p ++ [m]))
  else code = 422 /\ ca_Status c' = StatusPreflightFailed /\ p' = p.
Proof.
  intros Hok Hc Hne Hid launch m. unfold wrapped, launch. cbn [fst].
  pose proof (launch_activates_only_after_preflight s now id c Hok Hc) as HL. unfold launchCampaign.
  destruct (LaunchCampaign false s now id) as [s' [res err]]. destruct HL as (-> & _ & HL).
  assert (Hp : isLaunchPath ("/v1/campaigns/" ++ id ++ "/launch") = true /\ launchPathID ("/v1/campaigns/" ++ id ++ "/launch") = id)
    by (unfold isLaunchPath, launchPathID; by rewrite !(launch_path id Hne Hid)).
  destruct Hp as [Hp1 Hp2]. rewrite Hp1, Hp2, (is_empty_false id Hne).
  destruct (Passed (Campaign.Run s c)); destruct HL as [-> Hs']; (eexists; split; [exact Hs'|]); [|done].
  split; [done|]. split; [done|]. apply publishLaunched_spec.
Qed.

(** The key of the announcement is the campaign: launched again while the server
    remembers it, the campaign is announced to nobody. *)
Theorem relaunch_is_not_announced {S} `{NatsLaws S} json_id (p : S) id :
  ("launch-" ++ id)%string ∈ recent p -> stored (publishLaunched json_id p id) = stored p.
Proof.
  intros Hr. unfold publishLaunched, Publish, jetstream_publisher, js_Publish.
  destruct (PublishMsg p _) as [p' e] eqn:Ep. cbn [fst]. eapply pub_dedup; [exact Ep| |exact Hr].
  by apply message_id.
Qed.

(** ** Consumers *)

Section Consumers.
Context {W : Type} (handler : W -> string -> string -> Header -> W * error).

(** No message is handled more often than the limit says, which is five when none is
    set; one that the handler always refuses is never acknowledged, so after five
    deliveries it is lost. *)
Theorem deliveries_are_bounded maxDeliver msgs order w i :
  let c := Subscribe handler maxDeliver msgs order w in
  (deliveries c i <= Z.to_nat (if (maxDeliver =? 0)%Z then 5 else maxDeliver))%nat /\
  (forall m, msgs !! i = Some m -> (forall w, (handler w (ms_Subject m) (ms_Data m) (ms_Header m)).2 <> None) ->
    i ∉ cn_acked c).
Proof.
  intros c. unfold c, Subscribe. set (k := Z.to_nat _).
  enough (Hind : forall c0 : Consumer W, (deliveries c0 i <= k)%nat /\ (forall m, msgs !! i = Some m ->
    (forall w, (handler w (ms_Subject m) (ms_Data m) (ms_Header m)).2 <> None) -> i ∉ cn_acked c0) ->
    let c1 := fold_left (delivery handler k msgs) order c0 in
    (deliveries c1 i <= k)%nat /\ (forall m, msgs !! i = Some m ->
    (forall w, (handler w (ms_Subject m) (ms_Data m) (ms_Header m)).2 <> None) -> i ∉ cn_acked c1)).
  { apply Hind. split; [unfold deliveries; cbn [cn_count]; rewrite lookup_empty; cbn; lia|]. cbn. set_solver. }
  induction order as [|j order IH]; intros c0 [H1 H2]; [done|]. cbn [fold_left]. apply IH.
  unfold delivery. destruct (msgs !! j) as [m|] eqn:Em; [|done].
  destruct (bool_decide _ || _) eqn:Eb; [done|]. apply orb_false_iff in Eb as [_ Eb]. apply Nat.leb_gt in Eb.
  destruct (handler _ _ _ _) as [w' e] eqn:Eh. unfold deliveries. cbn [cn_count cn_acked]. split.
  - destruct (decide (i = j)) as [->|Hne]; [rewrite lookup_insert_eq; cbn; unfold deliveries in Eb; lia|].
    by rewrite lookup_insert_ne.
  - intros m0 Hm0 Href. specialize (H2 m0 Hm0 Href). destruct e as [e|]; [done|].
    apply not_elem_of_union. split; [|done]. apply not_elem_of_singleton. intros ->. simplify_eq.
    apply (Href (cn_state c0)). by rewrite Eh.
Qed.
End Consumers.

(** ** Witnesses *)

(** A server that keeps the messages with a subject in [ok] and remembers every id. *)
Module TestNats.
Record t (ok : string -> bool) := mk { log : list Msg }.
Arguments mk {ok} log.
Arguments log {ok} t.
Section Server.
Context {ok : string -> bool}.
Definition ids (s : t ok) : list string := omap msg_id (log s).
Definition known (s : t ok) (m : Msg) : bool :=
  match msg_id m with Some id => bool_decide (id ∈ ids s) | None => false end.
Definition publish (s : t ok) (m : Msg) : t ok * error :=
  if ok (ms_Subject m) then (if known s m then s else mk (log s ++ [m]), None)
  else (s, Some "no response from stream"%string).
End Server.
End TestNats.
#[local] Instance test_nats ok : Nats (TestNats.t ok) :=
  { PublishMsg := TestNats.publish; CreateStream s _ := (s, StreamOk); UpdateStream s _ := (s, None) }.

#[local] Program Instance test_nats_laws ok : NatsLaws (TestNats.t ok) :=
  { stored := TestNats.log; recent s := list_to_set (TestNats.ids s) }.
Next Obligation.
  intros ok s m s' e. cbn. unfold TestNats.publish. destruct (ok _); [destruct (TestNats.known s m)|];
    intros [= <- <-]; auto.
Qed.
Next Obligation.
  intros ok s m s'. cbn. unfold TestNats.publish, TestNats.known. destruct (ok _); [|done].
  destruct (msg_id m) as [id|] eqn:E; [|intros [= <-]; by left]. case_bool_decide as Hin; intros [= <-]; [right|by left].
  unfold TestNats.ids in Hin. apply list_elem_of_omap in Hin as (m' & Hm' & Hid). exists m'. by rewrite Hid.
Qed.
Next Obligation.
  intros ok s m s' e id. cbn. unfold TestNats.publish, TestNats.known. intros E Hid Hin. rewrite Hid in E.
  apply elem_of_list_to_set in Hin. rewrite bool_decide_true in E by done.
  destruct (ok _); by injection E as <- <-.
Qed.
Next Obligation.
  intros ok s m s' e id _ E Hid. cbn in *. apply elem_of_list_to_set. unfold TestNats.ids. rewrite E, omap_app.
  apply elem_of_app. right. cbn. rewrite Hid. set_solver.
Qed.

Definition table (answers : nat -> outcome) (evs : list OutboxRow) : PgOutbox :=
  fold_left insert_row evs (mkOutbox [] answers (fun _ => hour) (fun l => l) 0).
Definition bus (ok : string -> bool) : TestNats.t ok := TestNats.mk [].
Definition event (n : nat) (subject : string) : OutboxRow := mkRow (itoa n) subject "{}" (Z.of_nat n).

Lemma table_reachable b answers evs ok :
  Forall (fun r => ow_ID r <> ""%string) evs -> NoDup (ow_ID <$> evs) -> reachable b (table answers evs, bus ok).
Proof.
  intros Hne Hnd. unfold table. set (s0 := mkOutbox _ _ _ _ _).
  enough (Hind : forall s, reachable b (s, bus ok) -> (forall r, r ∈ evs -> ow_ID r ∉ ow_ID <$> rows s) ->
    reachable b (fold_left insert_row evs s, bus ok)).
  { apply Hind; [by apply reach_start|]. cbn. set_solver. }
  clear s0. induction evs as [|r evs IH]; intros s Hs Hr; [done|]. cbn [fold_left].
  apply Forall_cons in Hne as [Hr1 Hne]. apply NoDup_cons in Hnd as [Hr2 Hnd].
  apply IH; [done|done|apply reach_insert; [done|done|apply Hr; set_solver]|]. intros r' Hr'.
  unfold rows. cbn. rewrite !fmap_app. cbn. rewrite elem_of_app, list_elem_of_singleton. intros [Hin|E].
  - by apply (Hr r'); [set_solver|].
  - apply Hr2. rewrite <- E. by apply list_elem_of_fmap_2.
Qed.

(** Marking the first event is refused at the first tick. *)
Definition all_ok (_ : string) : bool := true.
Definition flaky (ticks : nat) : PgOutbox * TestNats.t all_ok :=
  Nat.iter ticks (drainOnce 100)
    (table (fun n => if (n =? 1)%nat then Refused else Done) [event 1 "call.completed"; event 2 "lead.created"],
     bus all_ok).

Lemma flaky_reachable ticks : reachable 100 (flaky ticks).
Proof.
  unfold flaky. induction ticks as [|k IH]; [|by apply reach_drain].
  apply table_reachable; [repeat constructor; done|apply (bool_decide_unpack _); by vm_compute].
Defined.

Lemma marked_events_are_on_the_bus_witness :
  length (waiting (flaky 1).1) = 1%nat /\
  exists e, e ∈ ob_rows (flaky 1).1 /\ en_published e <> None /\ msg_of (en_row e) ∈ stored (flaky 1).2.
Proof.
  split; [by vm_compute|]. destruct (marked_events_are_on_the_bus 100 (flaky 1) (flaky_reachable 1)) as [H _].
  assert (He : mkEntry (event 2 "lead.created") (Some hour) ∈ ob_rows (flaky 1).1)
    by (vm_compute; right; left).
  exists (mkEntry (event 2 "lead.created") (Some hour)). split_and!; [exact He|done|]. by apply H.
Defined.

Lemma events_are_on_the_bus_once_witness :
  length (waiting (flaky 2).1) = 0%nat /\ NoDup (msg_id <$> stored (flaky 2).2).
Proof.
  split; [by vm_compute|]. apply (events_are_on_the_bus_once 100); [|apply flaky_reachable].
  intros s m s' e E. cbn in *. intros id. rewrite !elem_of_list_to_set. unfold TestNats.publish in E.
  destruct (TestNats.known s m); injection E as <- <-; [done|].
  unfold TestNats.ids. cbn. rewrite omap_app. set_solver.
Defined.

Lemma healthy_relay_empties_the_outbox_witness :
  let st := (table (fun _ => Done) [event 1 "call.completed"; event 2 "lead.created"], bus all_ok) in
  msg_of (event 2 "lead.created") ∈ stored (Run 1 2 st).2.
Proof.
  intros st. destruct (healthy_relay_empties_the_outbox (S := TestNats.t all_ok) 1 ltac:(done) st 2) as (_ & _ & H).
  - done.
  - apply table_reachable; [repeat constructor; done|apply (bool_decide_unpack _); by vm_compute].
  - done.
  - vm_compute. lia.
  - apply H. vm_compute. right. left.
Defined.

Definition has_stream (s : string) : bool := negb (has_prefix s "recording.").

Lemma refused_events_hold_up_the_rest_witness :
  let st := (table (fun _ => Done) [event 1 "recording.archived"; event 2 "call.completed"], bus has_stream) in
  mkEntry (event 2 "call.completed") None ∈ waiting (Run 1 1000 st).1.
Proof.
  intros st. apply (refused_events_hold_up_the_rest (S := TestNats.t has_stream) 1 "recording.archived")
    with (blockers := [mkEntry (event 1 "recording.archived") None]).
  - intros s m Hm. cbn. unfold TestNats.publish. rewrite Hm. by vm_compute.
  - done.
  - apply table_reachable; [repeat constructor; done|apply (bool_decide_unpack _); by vm_compute].
  - vm_compute. right. left.
  - apply NoDup_singleton.
  - intros b ->%list_elem_of_singleton. split; [vm_compute; left|by vm_compute].
  - done.
Defined.

Lemma launch_is_announced_iff_active_witness :
  let s := CampaignFixture.store "approved" StatusDraft in
  let launch s := let '(s, r) := launchCampaign false s hour "c1" in (s, code_of r) in
  let '(s', p', code) := wrapped (fun id => id) launch "POST" "/v1/campaigns/c1/launch" (s, bus all_ok) in
  code = 200 /\ stored p' = [launch_msg (fun id => id) "c1"].
Proof.
  pose proof (launch_is_announced_iff_active (fun id => id) (CampaignFixture.store "approved" StatusDraft)
    (bus all_ok) hour "c1" (CampaignFixture.camp StatusDraft) eq_refl eq_refl ltac:(done)
    ltac:(apply (bool_decide_unpack _); by vm_compute)) as HL.
  cbv zeta in HL |- *. change ("/v1/campaigns/" ++ "c1" ++ "/launch")%string with "/v1/campaigns/c1/launch"%string in HL.
  destruct (wrapped _ _ _ _ _) as [[s' p'] code]. destruct HL as (c' & _ & HL).
  replace (Passed _) with true in HL by (vm_compute; reflexivity).
  destruct HL as (-> & _ & _ & HL). destruct HL as [_ HL]; [by vm_compute|].
  split; [done|]. apply HL. intros m' Hm'. by apply elem_of_nil in Hm'.
Defined.

Lemma relaunch_is_not_announced_witness :
  let p := publishLaunched (fun id => id) (bus all_ok) "c1" in stored (publishLaunched (fun id => id) p "c1") = stored p.
Proof. intros p. apply relaunch_is_not_announced. apply (bool_decide_unpack _). by vm_compute. Defined.

(** The matching of NATS, on patterns without an asterisk. *)
Definition match_tail (p s : string) : bool :=
  has_suffix p ".>" && has_prefix s (trim_suffix p ">") && negb (bool_decide (s = trim_suffix p ">")).

Lemma every_subject_has_one_stream_witness : exists name, streams_of match_tail "campaign.launched" = [name].
Proof.
  apply every_subject_has_one_stream; [|by apply (bool_decide_unpack _); vm_compute].
  intros p s. unfold match_tail. assert (Hp : trim_suffix (p ++ ".>") ">" = (p ++ ".")%string).
  { change ".>"%string with ("." ++ ">")%string. rewrite append_assoc. apply trim_suffix_app. }
  rewrite Hp. replace (has_suffix (p ++ ".>") ".>") with true; [done|]. symmetry. apply has_suffix_app.
Defined.
