(* ===== verification/Meta.v ===== *)
(** * whatsapp-adapter: the client of Meta's cloud API

    [services/whatsapp-adapter/internal/meta/meta.go]: the requests of the cloud
    client and what it makes of the answers, and the double for tests; what the
    service does with a message Meta refuses.  HTTP, JSON decoding, the UUIDs and the
    order in which Go ranges over a map are arguments. *)

From S2P Require Import Prelude GoTime Kv GoMonad GoStrings Whatsapp WhatsappService.

Open Scope Z_scope.

(** JSON as [encoding/json] writes it, an object with its keys in order. *)
Inductive json := JStr (s : string) | JBool (b : bool) | JArr (l : list json) | JObj (fields : list (string * json)).

Record MetaRequest := mkMetaReq {
  mq_method : string;
  mq_url : string;
  mq_headers : list (string * string);
  mq_body : option json
}.

(** No answer; or a status with its text, the two headers for a pause, and the body. *)
Inductive meta_answer :=
| NoAnswer (e : string)
| Answer (code : Z) (status reset retryAfter body : string).

(** A template in the answer to a list of templates. *)
Record RemoteItem := mkItem {
  ri_ID : string;
  ri_Name : string;
  ri_Language : string;
  ri_Category : string;
  ri_Status : string;
  ri_Components : list (string * string)
}.

Record Cloud := mkCloud {
  cl_base : string;
  cl_iter : gmap string string -> list (string * string);
  cl_bad_url : string -> option string;
  cl_http : list sent -> MetaRequest -> meta_answer;
  cl_ids : string -> list string;
  cl_templates : string -> string + list RemoteItem;
  cl_uuid : list sent -> string
}.

Definition NewCloudClient (baseURL : string) (c : Cloud) : Cloud :=
  mkCloud (first_nonempty baseURL "https://graph.facebook.com/v20.0") (cl_iter c) (cl_bad_url c) (cl_http c) (cl_ids c)
    (cl_templates c) (cl_uuid c).

Section Client.
Variable c : Cloud.

(** *** Payloads *)

Definition text_parameter (value : string) : json := JObj [("text", JStr value); ("type", JStr "text")]%string.

Definition template_parameters (vars : gmap string string) : list json := text_parameter <$> (cl_iter c vars).*2.

Definition template_payload (to name language : string) (vars : gmap string string) : json :=
  let components :=
    if decide (vars = ∅) then []
    else [("components", JArr [JObj [("parameters", JArr (template_parameters vars)); ("type", JStr "body")]])]%string in
  JObj [("messaging_product", JStr "whatsapp");
        ("template", JObj (components ++ [("language", JObj [("code", JStr language)]); ("name", JStr name)]));
        ("to", JStr to); ("type", JStr "template")]%string.

Definition text_payload (to body : string) : json :=
  JObj [("messaging_product", JStr "whatsapp"); ("text", JObj [("body", JStr body); ("preview_url", JBool false)]);
        ("to", JStr to); ("type", JStr "text")]%string.

(** A map is written with its keys sorted. *)
Definition flow_payload (to flowID : string) (payload : gmap string string) : json :=
  let less (a b : string * string) := bool_decide (String.ltb a.1 b.1 = true) in
  let sorted := (fun kv => (kv.1, JStr kv.2)) <$> sort_by less (map_to_list payload) in
  JObj [("interactive", JObj [("action", JObj [("name", JStr "flow");
           ("parameters", JObj [("flow_id", JStr flowID); ("flow_payload", JObj sorted)])]); ("type", JStr "flow")]);
        ("messaging_product", JStr "whatsapp"); ("to", JStr to); ("type", JStr "interactive")]%string.

(** *** Requests *)

Definition bearer (cred : VaultCredential) : string * string := ("Authorization", "Bearer " ++ vc_AccessToken cred)%string.

Definition message_request (cred : VaultCredential) (payload : json) : MetaRequest :=
  mkMetaReq "POST" (cl_base c ++ "/" ++ vc_PhoneNumberID cred ++ "/messages")%string
    [bearer cred; ("Content-Type", "application/json")%string] (Some payload).

Definition postMessage (log : list sent) (cred : VaultCredential) (payload : json) : werr + string :=
  let rq := message_request cred payload in
  match cl_bad_url c (mq_url rq) with
  | Some e => inl (ErrOther e)
  | None =>
      match cl_http c log rq with
      | NoAnswer e => inl (ErrOther e)
      | Answer code status reset retryAfter body =>
          if code =? 429 then inl (RateLimitError reset retryAfter "meta send rate-limited")
          else if 300 <=? code then inl (ErrOther ("meta send failed: " ++ status)%string)
          else inr (first_nonempty (hd ""%string (cl_ids c body)) ("wamid." ++ cl_uuid c log)%string)
      end
  end.

Definition cloud_SendTemplate log cred (to name language : string) (vars : gmap string string) : werr + string :=
  postMessage log cred (template_payload to name language vars).
Definition cloud_SendText log cred (to body : string) : werr + string := postMessage log cred (text_payload to body).
Definition cloud_SendFlow log cred (to flowID : string) (payload : gmap string string) : werr + string :=
  postMessage log cred (flow_payload to flowID payload).

(** The text of the first component of type BODY. *)
Definition remote_of (item : RemoteItem) : RemoteTemplate :=
  let body := match List.find (fun kt => bool_decide (kt.1 = "BODY"%string)) (ri_Components item) with
              | Some (_, text) => text
              | None => ""%string
              end in
  mkRemote (ri_Name item) (ri_Language item) (ri_Category item) (ri_Status item) body (ri_ID item).

Definition templates_request (cred : VaultCredential) : MetaRequest :=
  mkMetaReq "GET" (cl_base c ++ "/" ++ vc_BusinessAccountID cred ++ "/message_templates")%string [bearer cred] None.

Definition cloud_SyncTemplates (log : list sent) (cred : VaultCredential) : werr + list RemoteTemplate :=
  let rq := templates_request cred in
  match cl_bad_url c (mq_url rq) with
  | Some e => inl (ErrOther e)
  | None =>
      match cl_http c log rq with
      | NoAnswer e => inl (ErrOther e)
      | Answer code status reset retryAfter body =>
          if code =? 429 then inl (RateLimitError reset retryAfter "meta templates sync rate-limited")
          else if 300 <=? code then inl (ErrOther ("meta templates sync failed: " ++ status)%string)
          else match cl_templates c body with
               | inl e => inl (ErrOther e)
               | inr items => inr (remote_of <$> items)
               end
      end
  end.

Definition cloud_send (log : list sent) (cred : VaultCredential) (call : meta_call) : werr + string :=
  match call with
  | SendTemplateCall to name language vars => cloud_SendTemplate log cred to name language vars
  | SendTextCall to body => cloud_SendText log cred to body
  | SendFlowCall to flowID payload => cloud_SendFlow log cred to flowID payload
  | SyncCall => inl (ErrOther "not a message"%string)
  end.

(** The environment of a service that sends through the cloud client. *)
Definition cloud_env (env : WaEnv) : WaEnv :=
  mkWaEnv (e_now env) (e_uuid env) (e_decode env) (e_parse_time env) (e_sha256 env) (e_hmac env) (e_consent env)
    (e_claims env) cloud_send cloud_SyncTemplates (e_demo_mode env).
End Client.

(** ** The double for tests *)

Module FakeMeta.
Record t := mk {
  SentTemplates : list (string * string * string * gmap string string);
  SentTexts : list (string * string);
  SentFlows : list (string * string * gmap string string);
  RemoteTemplates : list RemoteTemplate;
  NextErr : option werr
}.
Definition NewFakeClient : t := mk [] [] [] [] None.

(** A call fails once with [NextErr], or is noted by [keep]. *)
Definition call (f : t) (uuid : string) (keep : t -> t) : t * (werr + string) :=
  match NextErr f with
  | Some e => (mk (SentTemplates f) (SentTexts f) (SentFlows f) (RemoteTemplates f) None, inl e)
  | None => (keep f, inr ("wamid." ++ uuid)%string)
  end.
Definition sendTemplate (f : t) uuid (to name language : string) vars : t * (werr + string) :=
  call f uuid (fun f => mk (SentTemplates f ++ [(to, name, language, vars)]) (SentTexts f) (SentFlows f) (RemoteTemplates f) (NextErr f)).
Definition sendText (f : t) uuid (to body : string) : t * (werr + string) :=
  call f uuid (fun f => mk (SentTemplates f) (SentTexts f ++ [(to, body)]) (SentFlows f) (RemoteTemplates f) (NextErr f)).
Definition sendFlow (f : t) uuid (to flowID : string) payload : t * (werr + string) :=
  call f uuid (fun f => mk (SentTemplates f) (SentTexts f) (SentFlows f ++ [(to, flowID, payload)]) (RemoteTemplates f) (NextErr f)).
Definition syncTemplates (f : t) : t * (werr + list RemoteTemplate) :=
  match NextErr f with
  | Some e => (mk (SentTemplates f) (SentTexts f) (SentFlows f) (RemoteTemplates f) None, inl e)
  | None => (f, inr (RemoteTemplates f))
  end.
End FakeMeta.

(** ** What is sent and what becomes of the answer *)

(** Every variable of a template is sent once, as a parameter of its body. *)
Lemma every_variable_is_a_parameter c vars :
  cl_iter c vars ≡ₚ map_to_list vars -> template_parameters c vars ≡ₚ text_parameter <$> (map_to_list vars).*2.
Proof. unfold template_parameters. by intros ->. Qed.

Definition two_vars : gmap string string := {["lead_name" := "Ravi"; "project_name" := "Palm Grove"]}%string.
Definition ordered (iter : gmap string string -> list (string * string)) : Cloud :=
  mkCloud "https://graph.facebook.com/v20.0" iter (fun _ => None) (fun _ _ => NoAnswer "") (fun _ => []) (fun _ => inl ""%string)
    (fun _ => ""%string).

(** Meta fills the blanks of a template by position, but the parameters come in the
    order in which Go ranges over the map of variables: one and the same message may
    have the name of the lead in the place of the project. *)
Theorem template_variables_may_be_swapped :
  exists iter1 iter2, iter1 two_vars ≡ₚ map_to_list two_vars /\ iter2 two_vars ≡ₚ map_to_list two_vars /\
    template_parameters (ordered iter1) two_vars = [text_parameter "Ravi"; text_parameter "Palm Grove"]%string /\
    template_parameters (ordered iter2) two_vars = [text_parameter "Palm Grove"; text_parameter "Ravi"]%string.
Proof.
  set (l1 := [("lead_name", "Ravi"); ("project_name", "Palm Grove")]%string).
  set (l2 := [("project_name", "Palm Grove"); ("lead_name", "Ravi")]%string).
  exists (fun _ => l1), (fun _ => l2).
  assert (E : map_to_list two_vars = l1 \/ map_to_list two_vars = l2) by (vm_compute; auto).
  destruct E as [-> | ->]; (split_and!; [first [done|apply Permutation_swap]..|done|done]).
Qed.

(** The payload of a message. *)
Definition payload_of (c : Cloud) (call : meta_call) : option json :=
  match call with
  | SendTemplateCall to name language vars => Some (template_payload c to name language vars)
  | SendTextCall to body => Some (text_payload to body)
  | SendFlowCall to flowID payload => Some (flow_payload to flowID payload)
  | SyncCall => None
  end.

Lemma cloud_send_payload c log cred call p : payload_of c call = Some p -> cloud_send c log cred call = postMessage c log cred p.
Proof. destruct call; cbn; intros [= <-]; done. Qed.

(** A message counts as sent exactly when Meta answers below 300, under the id of
    the answer or one of its own, never an empty one; it is rate-limited exactly when
    Meta answers 429. *)
Theorem cloud_send_follows_the_answer c log cred call p code status reset after body :
  payload_of c call = Some p -> cl_bad_url c (mq_url (message_request c cred p)) = None ->
  cl_http c log (message_request c cred p) = Answer code status reset after body ->
  ((exists id, cloud_send c log cred call = inr id) <-> code < 300) /\
  (forall id, cloud_send c log cred call = inr id -> id <> ""%string) /\
  ((exists r a m, cloud_send c log cred call = inl (RateLimitError r a m)) <-> code = 429).
Proof.
  intros Hp Hu Ha. rewrite (cloud_send_payload _ _ _ _ _ Hp). unfold postMessage. rewrite Hu, Ha.
  destruct (code =? 429) eqn:E1; [apply Z.eqb_eq in E1|apply Z.eqb_neq in E1].
  - split_and!; [split; [by intros []|lia]|done|]. split; [done|]. intros _. by eauto.
  - destruct (300 <=? code) eqn:E2; [apply Z.leb_le in E2|apply Z.leb_gt in E2].
    + split_and!; [split; [by intros []|lia]|done|]. split; [by intros (? & ? & ? & ?)|lia].
    + split_and!; [split; [done|by eauto]| |split; [by intros (? & ? & ? & ?)|lia]]. intros id [= <-]. unfold first_nonempty.
      destruct (is_empty _) eqn:Ee; [done|]. intros E. by rewrite E in Ee.
Qed.

(** ** A message Meta refuses for its rate *)

Section Retry.
Context {T : Type} `{WaStore T}.

(** The service keeps such a message as a task that is due when the headers of the
    answer say, and reports the error. *)
Theorem rate_limited_message_is_kept c env tn cred call p op payload status reset after body (w : Wa T) :
  let env := cloud_env c env in
  defaultDemoTenant env tn = false -> payload_of c call = Some p ->
  cl_bad_url c (mq_url (message_request c cred p)) = None ->
  cl_http c (wa_sent w) (message_request c cred p) = Answer 429 status reset after body ->
  let '(w', r) := or_retry env (client_send env tn cred call) tn op payload w in
  let due := e_now env (wa_reads w) + BackoffFromHeaders reset after (30 * second) in
  r = inl (RateLimitError reset after "meta send rate-limited") /\
  wa_sent w' = wa_sent w ++ [mkSent false cred call] /\
  exists now uid created, wa_store w' =
    (EnqueueRetry (wa_store w) now uid (mkRetry "" tn op payload due 1 "meta send rate-limited" created)).1.
Proof.
  intros env' Hd Hp Hu Ha.
  assert (Hs : client_send env' tn cred call w = (mkWa (wa_store w) (wa_sent w ++ [mkSent false cred call]) (wa_counter w)
    (wa_reads w) (wa_ids w), inl (RateLimitError reset after "meta send rate-limited"))).
  { unfold client_send. rewrite Hd. f_equal. cbn [e_send env' cloud_env]. rewrite (cloud_send_payload _ _ _ _ _ Hp).
    unfold postMessage. by rewrite Hu, Ha. }
  unfold or_retry, bind at 1, try at 1. rewrite Hs. unfold enqueueRateLimitRetry, bind, now, try, st. cbn -[EnqueueRetry].
  destruct (EnqueueRetry _ _ _ _) as [s' r'] eqn:E. cbn. split_and!; [done|done|]. eexists _, _, _. by rewrite E.
Qed.
End Retry.

(** ** Witnesses *)

Definition limited : Cloud :=
  mkCloud "https://graph.facebook.com/v20.0" map_to_list (fun _ => None)
    (fun log _ => match log with [] => Answer 429 "Too Many Requests" "" "60" "" | _ => Answer 200 "OK" "" "" "" end)
    (fun _ => []) (fun _ => inr []) (fun _ => "u1")%string.
Definition cred1 : VaultCredential := mkCred "t1" "pn1" "ba1" "tok" "" "" 0.
Definition call1 : meta_call := SendTextCall "+911" "hi".

Lemma cloud_send_follows_the_answer_witness :
  cloud_send limited [mkSent false cred1 call1] cred1 call1 = inr "wamid.u1"%string /\
  (forall id, cloud_send limited [mkSent false cred1 call1] cred1 call1 = inr id -> id <> ""%string).
Proof.
  split; [reflexivity|].
  exact (proj1 (proj2 (cloud_send_follows_the_answer limited [mkSent false cred1 call1] cred1 call1 (text_payload "+911" "hi")
    200 "OK" "" "" "" eq_refl eq_refl eq_refl))).
Defined.

Definition env1 : WaEnv :=
  mkWaEnv (fun _ => hour) (fun _ => "id"%string) (fun _ => None) (fun _ => None) (fun s => s) (fun s _ => s)
    (StaticChecker true "") None (fun _ _ _ => inr ""%string) (fun _ _ => inr []) false.

Definition store1 : FakeWa.t := FakeWa.NewFake (fun _ l => l).

Lemma rate_limited_message_is_kept_witness :
  let w := mkWa store1 [] 0 0 0 in
  let env := cloud_env limited env1 in
  exists now uid created,
    wa_store (or_retry env (client_send env "t1" cred1 call1) "t1" "send_text" [] w).1 =
    (EnqueueRetry store1 now uid (mkRetry "" "t1" "send_text" [] (hour + 60 * second) 1 "meta send rate-limited" created)).1.
Proof.
  intros w env.
  pose proof (rate_limited_message_is_kept limited env1 "t1" cred1 call1 (text_payload "+911" "hi") "send_text" []
    "Too Many Requests" "" "60" "" w eq_refl eq_refl eq_refl eq_refl) as H.
  destruct (or_retry _ _ _ _ _ w) as [w' r]. destruct H as (_ & _ & H). exact H.
Defined.
